(* ===== verification/_CoqProject ===== *)
-Q . S2P
Prelude.v
Bitmap.v
Pmm.v
PmmFacts.v
PmmInit.v
PmmSpec.v
Spinlock.v
SpinlockSpec.v
Kernel.v
VfsFile.v
VfsFileFacts.v
VfsFileSpec.v
BlkAlloc.v
BlkAllocFacts.v
BlkAllocDisk.v
BlkAllocSpec.v
BlkAllocThms.v
InodeAlloc.v
InodeCache.v
InodeCacheSpec.v
InodeBlocks.v
Mmu.v
PageTree.v
MmuFacts.v
MmuSpec.v
MmuThms.v
Paging.v
PagingThms.v
VfsPath.v
VfsPathSpec.v
Superblock.v
SuperblockSpec.v
Kmalloc.v
KmallocFacts.v
KmallocSpec.v
KmallocOps.v
KmallocFree.v
KmallocThms.v
KLogic.v
Proc.v
ProcFacts.v
ProcInv.v
ProcOps.v
SimpleHeap.v
ProcThms.v
Sched.v
SchedFacts.v
SchedSwitch.v
SchedOps.v
SchedTick.v
SchedThms.v
SchedLive.v
Mutex.v
MutexThms.v
Calendar.v
Pic.v
Rtc.v
RtcThms.v
Clock.v
Vmm.v
VmmFacts.v
VmmThms.v
Fs.v
Tmpfs.v
TmpfsFacts.v
TmpfsDir.v
TmpfsOps.v
TmpfsThms.v
TmpfsFile.v
TmpfsTop.v
Vfs.v
VfsFacts.v
VfsWalk.v
VfsNames.v
VfsThms.v
VfsTop.v
Syscall.v
SyscallThms.v
UserMem.v
UserMemThms.v
