(* ===== verification/Prelude.v ===== *)
(** * A verification library for the UESI kernel

    UESI is a small monolithic kernel for amd64.  This library models, as
    executable functions, the parts of it that manage memory, threads and
    storage, and proves what they promise to each other.

    ** The program and its model

    - Memory.  The boot loader hands over a memory map; [libmem/pmm.c] keeps
      one bit per page frame and hands out frames as addresses of the direct
      map; [libmem/mmu.c] builds four-level page tables in such frames, and
      [libmem/paging.c] maps, protects, copies and tears down ranges.
      [Pmm.v] has the static variables of [pmm.c] as a record and one function
      per operation; [Mmu.v] adds the words of memory, [cr3], the cached
      translations and the statics of [mmu.c], and [Paging.v] the operations of
      [paging.c].  The bitmap of [pmm.c] is kept beside the words of memory: it
      lies in frames that are never handed out.  [libmem/vmm.c] keeps the
      regions of an address space and its heap break ([Vmm.v]); its objects are
      kept beside the words of memory as well.
    - The kernel heap.  [libmem/kmalloc.c] cuts page frames into slabs of equal
      objects and serves larger requests with runs of frames.  [Kmalloc.v] has
      the slabs with their bit words, the three lists of a cache and the large
      allocations; [SimpleHeap.v] is a smaller heap that the theorems about
      processes and threads are instantiated with.
    - Processes and threads.  [kern/kern_proc.c] keeps both on queues and in
      hash tables by number ([Proc.v]).  [amd64/cpu/scheduler.c] keeps the
      threads on five ready queues, a blocked, a sleeping and a dead list
      ([Sched.v]); [kern/kern_mutex.c] puts threads that wait for a mutex to
      sleep ([Mutex.v]).  The heap and the address spaces are interfaces
      ([Allocator], [AddressSpaces]) of these files.  A call that switches to
      another thread ends with that thread as its result: saving and loading
      registers is assembly.
    - Locking.  [amd64/cpu/spinlock.c] and [amd64/include/intr.h]: spinlocks
      that save the interrupt flag ([Spinlock.v]).  The kernel runs on one
      CPU, so a lock that is found taken is never given back: acquiring it
      panics when this CPU holds it and spins for ever otherwise.
    - Files.  [libfs/vfs.c]: [VfsFile.v] has the open-file operations and
      [VfsPath.v] the path functions.  [Kernel.v] states what the components
      above rely on: [KernelHeap] for [kmalloc] and [kfree], [VnodeLayer] for
      lookup and the drivers' operation tables; [BlockStore] of
      [VfsFileFacts.v] adds what a driver that keeps bytes promises, with an
      instance of all three; [VfsFileSpec.v] ends with the use of a device file
      by the components below.  [Fs.v] has the vnodes of [vfs.c] on
      a heap of typed objects, and [Tmpfs.v] the memory file system
      [libfs/tmpfs.c] on it.  [Vfs.v] is the rest of [vfs.c] on the same heap:
      path lookup with symbolic links and its cache of names, the registry of
      file-system types, mounts, and every call that takes a path, through
      tables of operations; the tables of file systems other than tmpfs are
      the parameter [others], what local buffers hold before they are written
      the parameter [junk].
    - System calls.  [amd64/include/syscall_utils.h] and
      [amd64/cpu/syscall.c]: [Syscall.v] has the access to user memory, the
      table of file descriptors of a process and the calls on descriptors and
      paths, above the open files of [VfsFile.v]; user memory, the console and
      the functions of [vfs.c] that take a path are interfaces there
      ([UserMemory], [Console], [PathCalls]).  [UserMem.v] has the calls on
      memory and what exit releases, above the page tables and the frame
      allocator.
    - Storage.  [libfs/blkalloc.c] allocates disk blocks ([BlkAlloc.v]);
      [libfs/inode.c] allocates inode numbers ([InodeAlloc.v]), caches inodes
      in a chained hash table ([InodeCache.v]), maps file blocks to disk blocks
      ([InodeBlocks.v]) and keeps superblocks ([Superblock.v]).
    - Time.  [kern/kern_time.c] converts between seconds and calendar dates
      ([Calendar.v]) and keeps the time of day above a counter
      ([Clock.v]); [amd64/cpu/rtc.c] reads and sets the battery
      clock ([Rtc.v]), [amd64/cpu/pic.c] masks interrupt lines ([Pic.v]), both
      through I/O ports that an interface answers for ([Ports]).

    A C integer is a [Z] in the range of its type, and every operation that
    can wrap is followed by its truncation ([u8], [u32], [u64], [s32], [s64]).
    A C function is a function of the state monad [M]; a [fault] is an access
    through a null pointer or outside an array, a panic, a CPU that spins, or
    a loop that did not end.  [wp m Q s] says that [m] ends without a fault in
    a result and state that satisfy [Q], so every theorem that concludes an
    [Ok] result is one of total correctness.  Error codes are ordinary values.
    Output for people ([serial_printf], [printf]) is left out.

    ** What is proved

    - Prelude.v, Bitmap.v: the monad, loops with their invariant rules, the
      automation, and bit arrays.
    - PmmFacts.v, PmmInit.v, PmmSpec.v: the frame allocator refines a finite
      set of free frames; no sequence of calls hands out a frame in use; what
      [pmm_init] establishes from any memory map that fits; the word-wise
      search finds what the bit-wise one does; first fit for ranges.
    - SpinlockSpec.v: nests of critical sections give back the interrupt flag
      and every lock; re-entering a lock panics.
    - PageTree.v, MmuFacts.v, MmuSpec.v, MmuThms.v, PagingThms.v:
      the reference is the processor's table walk.  For spaces whose user half
      has no large pages, and addresses of that half: the tables form a tree;
      mapping and unmapping update exactly one translation and no other memory;
      lookups compute the walk; a new space shares the kernel half; a range is
      mapped entirely, or, when the frames run out, a prefix of it is unmapped.
    - KmallocFacts.v to KmallocThms.v: for requests of up to 2048 bytes the heap
      refines a map from addresses to block sizes: blocks are aligned, disjoint
      and inside frames of the heap, and a released block is gone; every state
      reached by such calls is well formed.  Larger blocks leave their page.
    - KLogic.v: the weakest precondition of code that takes spinlocks in
      nested order.
    - ProcFacts.v to ProcThms.v: the process and thread operations refine a
      table of numbers; the search for a free number ends.
    - SchedFacts.v to SchedLive.v: each thread is linked exactly once, on the
      list that its state names; the highest ready priority runs; threads of
      the highest priority take turns while an ordinary thread has the CPU;
      sleepers wake in time.
    - MutexThms.v: at most one thread holds a mutex, as often as it took it.
    - VfsFileFacts.v, VfsFileSpec.v, VfsPathSpec.v: bytes written come back,
      references are counted; path normalisation stays in its buffer and
      agrees with a reference on stacks of names.
    - BlkAllocFacts.v to BlkAllocThms.v: the block allocator refines a set of
      free blocks; on a driver that transfers what it is asked for its bitmap
      survives a store to the device and the load loop, count and hint
      included; runs, statistics, formatting, validation.
    - InodeAlloc.v, InodeCacheSpec.v, InodeBlocks.v, SuperblockSpec.v: inode
      numbers as a set, the cache as a map to unique objects with reference
      counts, truncation of the direct blocks, the bytes of a superblock on the
      device.
    - TmpfsFacts.v to TmpfsTop.v: the pointer structures of a tmpfs have
      disjoint footprints and exact link counts; directories refine finite maps
      from names to nodes, files refine byte strings, listing a directory of
      names below 256 bytes ends and gives each once, mounting adds an empty root or changes nothing.
    - VfsFacts.v to VfsTop.v: the invariant of the name layer, in which the
      reference count of a vnode is the number of its owners; a path means a
      walk through the tree of directories ([resolve_path]), and lookup agrees
      with it as long as the cache of names is coherent, which making files,
      directories, devices and links preserves and removing does not; what was
      made at a path is then what lookup of it gives.
    - VmmFacts.v to VmmThms.v: growing the heap maps distinct zeroed frames for
      the user or changes nothing.
    - SyscallThms.v: the calls on descriptors refine a finite map, and an open
      file has as many references as descriptors, through fork and exit; a path
      argument is the string of the user.
    - UserMemThms.v: [mmap], [munmap] and [brk] refine a finite map from pages
      to frames, where nothing was mapped before [mmap], and keep every frame
      accounted for: free, a page table, or the one frame of one page.
    - Calendar.v, RtcThms.v, Clock.v: dates and seconds are inverse up to the
      year 65535, the date and time of day set in a battery clock in 24-hour mode
      are read back, a time of day set is the one read until the counter moves.

    Several theorems state where the code does not do what it means to do:
    read-only files that cannot be read, [blk_alloc_debug_print] that panics,
    reserved blocks that are handed out, blocks of large files that are lost,
    path names after [..], [superblock_sync_all] that writes nothing, large
    pages taken for page tables, a lone thread that loses the CPU for good, a
    first thread that stays queued while it runs, a contended mutex that makes
    its owner panic, heap pages that are never given back and a break that
    cannot grow again, an uptime that wraps, afternoon hours that the 12-hour
    mode misreads, files removed from a tmpfs whose memory is never freed and
    old bytes that come back when a file is extended, unlinked names that are
    still found, renames that destroy, links that loop for ever or cannot be
    read, writes to files that are always refused, paths that [openat] never
    opens, strings that make the kernel fault, directory entries that get lost,
    mappings that user programs cannot ask for, that lose frames or that reach
    into the kernel half.

    ** Bounds and fuel

    Loops over an index carry no fuel: their number of iterations is computed
    from their bounds.  Loops that follow pointers or characters take fuel:
    one more than the number of objects in the heap for a hash chain, one more
    than the length of the string for a path; the theorems show that it never
    runs out.  The lists of slabs are bounded by the number of frames, the search
    of [allocpid] by one more than the number of processes, and the loop of
    [mutex_lock] by its caller: on one CPU a thread that finds the mutex taken
    gives the CPU away in its first round or never gets the mutex.  The memory theorems ask for at most 2^40 frames in the page
    tables (the physical address width of the entries) and 2^52 in the
    allocator, and for a direct map that does not wrap; the user half is the
    addresses below 2^47.  The year of a date is found in at most one more
    step than there are whole years of 365 days; waiting for the battery clock
    is bounded by a number of polls within which the device is assumed to get
    ready.  Lists of tmpfs entries and vnodes are bounded by the number of
    objects in the heap; the tmpfs theorems ask for fewer than 2^32 of them,
    the width of a link count.  A lookup that follows a symbolic link calls
    itself; [nesting] bounds how deep, the results of [resolve_path] do not
    depend on it, and [cost] bounds how many references a lookup can add, so
    that a counter of 32 bits holds them.

    ** What is not modelled

    Of the system calls, the rest of fork and exit, stat, the working
    directory, the clocks, the host calls and the dispatch by number; the ELF
    loader, the user-space heap, timers and the old block allocator.
    Calibrating the counter against a timer, device drivers, the console, the
    debugger, and the vendored C library, SoftFloat and printf are left out; what is used of
    [string.h] is modelled where it is used.  Several CPUs are not modelled:
    the kernel starts one. *)

From stdpp Require Import base numbers list list_numbers.

(** ** Machine integers

    The kernel is LP64: [uint8_t], [uint32_t], [uint64_t] and [size_t] wrap
    modulo a power of two.  A C unsigned value is a [Z] in range, and every
    operation that can wrap is followed by the matching truncation. *)

Declare Scope uesi_scope.
Delimit Scope uesi_scope with uesi.
#[global] Open Scope uesi_scope.
#[global] Open Scope Z_scope.

Definition u8 (x : Z) : Z := x mod 2 ^ 8.
Definition u16 (x : Z) : Z := x mod 2 ^ 16.
Definition u32 (x : Z) : Z := x mod 2 ^ 32.
Definition u64 (x : Z) : Z := x mod 2 ^ 64.

(** Conversion of an unsigned 64-bit value to [int64_t] / [ssize_t]. *)
Definition s64 (x : Z) : Z := (x + 2 ^ 63) mod 2 ^ 64 - 2 ^ 63.
Definition s32 (x : Z) : Z := (x + 2 ^ 31) mod 2 ^ 32 - 2 ^ 31.

Lemma s32_id x : - 2 ^ 31 <= x < 2 ^ 31 -> s32 x = x.
Proof. intros. unfold s32. rewrite Z.mod_small by lia. lia. Qed.

Lemma s64_id x : - 2 ^ 63 <= x < 2 ^ 63 -> s64 x = x.
Proof. intros. unfold s64. rewrite Z.mod_small by lia. lia. Qed.

Definition UINT64_MAX : Z := 2 ^ 64 - 1.

(** The null pointer, as an address. *)
Definition NULL : Z := 0.

(** ** Faults, results and the kernel monad

    A C function that can run into undefined behaviour (a null or
    out-of-bounds access), call [panic], or fail to return (spinning on a lock
    nobody will release, walking a cyclic list) is a function into [res]; the
    constructors of [fault] are those outcomes.  Error codes the code itself
    returns ([-EINVAL], [NULL], [(uint64_t)-1]) are ordinary values. *)

Inductive fault :=
  | F_null           (* dereference of a null pointer *)
  | F_oob            (* access outside the object *)
  | F_panic_lock     (* panic: recursive acquisition of a spinlock *)
  | F_panic_unheld   (* panic: release of a spinlock that is not held *)
  | F_panic          (* any other call of panic *)
  | F_spin           (* the CPU spins for ever *)
  | F_fuel.          (* a pointer-chasing loop that does not end *)

Inductive res (A : Type) :=
  | Ok (a : A)
  | Fault (f : fault).
Arguments Ok {A} a.
Arguments Fault {A} f.

Definition M (S A : Type) : Type := S -> res (A * S).

Section monad.
Context {S A B : Type}.

Definition ret (a : A) : M S A := fun s => Ok (a, s).
Definition throw (f : fault) : M S A := fun _ => Fault f.
Definition bind (m : M S A) (k : A -> M S B) : M S B :=
  fun s => match m s with
           | Ok (a, s') => k a s'
           | Fault f => Fault f
           end.
Definition gets (f : S -> A) : M S A := fun s => Ok (f s, s).
Definition modify (f : S -> S) : M S unit := fun s => Ok (tt, f s).
Definition lift (r : res A) : M S A :=
  fun s => match r with Ok a => Ok (a, s) | Fault f => Fault f end.
End monad.

Notation "x <- m ;; k" := (bind m (fun x => k))
  (at level 100, m at next level, right associativity) : uesi_scope.
Notation "m ;;; k" := (bind m (fun _ => k))
  (at level 100, right associativity) : uesi_scope.

(** A C [for (i = a; i < b; i++)] loop whose body updates the local variables
    [l : L] and may leave the function early: [inl l] goes on with new locals,
    [inr r] is a [return] (or [break]) with [r]. *)
Fixpoint for_up {S L R : Type} (n : nat) (i : Z) (l : L)
    (body : Z -> L -> M S (L + R)) : M S (L + R) :=
  match n with
  | O => ret (inl l)
  | Datatypes.S n' =>
      bind (body i l) (fun r =>
        match r with
        | inl l' => for_up n' (i + 1) l' body
        | inr v => ret (inr v)
        end)
  end.

Definition for_range {S L R : Type} (a b : Z) (l : L)
    (body : Z -> L -> M S (L + R)) : M S (L + R) :=
  for_up (Z.to_nat (b - a)) a l body.

(** A loop with no early exit. *)
Definition for_each {S L : Type} (a b : Z) (l : L)
    (body : Z -> L -> M S L) : M S L :=
  bind (for_range (R := Empty_set) a b l
          (fun i l => bind (body i l) (fun l' => ret (inl l'))))
       (fun r => match r with inl l => ret l | inr e => match e with end end).

(** ** Weakest preconditions

    [wp m Q s] says that [m], run from [s], ends without a fault in a result
    and a state that satisfy [Q]: total correctness. *)
Definition wp {S A : Type} (m : M S A) (Q : A -> S -> Prop) (s : S) : Prop :=
  match m s with
  | Ok (a, s') => Q a s'
  | Fault _ => False
  end.

Section wp.
Context {S A B : Type}.
Implicit Types (s : S) (Q : A -> S -> Prop).

Lemma wp_ret (a : A) Q s : Q a s -> wp (ret a) Q s.
Proof. done. Qed.

Lemma wp_bind (m : M S A) (k : A -> M S B) (Q : B -> S -> Prop) s :
  wp m (fun a s' => wp (k a) Q s') s -> wp (bind m k) Q s.
Proof. unfold wp, bind. by destruct (m s) as [[a s']|]. Qed.

Lemma wp_bind_inv (m : M S A) (k : A -> M S B) (Q : B -> S -> Prop) s :
  wp (bind m k) Q s -> wp m (fun a s' => wp (k a) Q s') s.
Proof. unfold wp, bind. by destruct (m s) as [[a s']|]. Qed.

Lemma wp_gets (f : S -> A) Q s : Q (f s) s -> wp (gets f) Q s.
Proof. done. Qed.

Lemma wp_modify (f : S -> S) (Q : unit -> S -> Prop) s :
  Q tt (f s) -> wp (modify f) Q s.
Proof. done. Qed.

Lemma wp_lift (r : res A) (a : A) Q s : r = Ok a -> Q a s -> wp (lift r) Q s.
Proof. by intros ->. Qed.

Lemma wp_mono (m : M S A) (P Q : A -> S -> Prop) s :
  wp m P s -> (forall a s', P a s' -> Q a s') -> wp m Q s.
Proof. unfold wp. destruct (m s) as [[a s']|]; naive_solver. Qed.

Lemma wp_eq (m : M S A) a s' Q s : m s = Ok (a, s') -> Q a s' -> wp m Q s.
Proof. unfold wp. by intros ->. Qed.

Lemma wp_inv {m : M S A} {a s' Q s} : m s = Ok (a, s') -> wp m Q s -> Q a s'.
Proof. unfold wp. by intros ->. Qed.

Lemma wp_run (m : M S A) Q s :
  wp m Q s <-> exists a s', m s = Ok (a, s') /\ Q a s'.
Proof.
  unfold wp. destruct (m s) as [[a s']|]; naive_solver.
Qed.
End wp.

Section loops.
Context {S L R : Type}.

(** The invariant rule for [for_range]: [I i l s] holds before iteration
    [i]; an early exit establishes [E]. *)
Lemma wp_for_range (I : Z -> L -> S -> Prop) (E : R -> S -> Prop)
    (a b : Z) (l : L) (body : Z -> L -> M S (L + R)) (s : S) :
  I a l s ->
  (forall i l s, a <= i < b -> I i l s ->
     wp (body i l) (fun r s' =>
       match r with inl l' => I (i + 1) l' s' | inr v => E v s' end) s) ->
  wp (for_range a b l body) (fun r s' =>
    match r with inl l' => I (Z.max a b) l' s' | inr v => E v s' end) s.
Proof.
  unfold for_range. intros Hinit Hstep.
  assert (Hgen : forall n i l s, (Z.of_nat n = Z.max i b - i) -> a <= i ->
    I i l s -> wp (for_up n i l body) (fun r s' =>
    match r with inl l' => I (Z.max i b) l' s' | inr v => E v s' end) s).
  { induction n as [|n IH]; intros i l0 s0 Hn Hi HI; simpl.
    - apply wp_ret. by replace (Z.max i b) with i by lia.
    - apply wp_bind. eapply wp_mono; [apply Hstep; [lia|done]|].
      intros [l1|v] s1 H1; simpl; [|by apply wp_ret].
      replace (Z.max i b) with (Z.max (i + 1) b) by lia.
      apply IH; [lia..|done]. }
  apply Hgen; [lia..|done].
Qed.

End loops.

Section loops_total.
Context {S L : Type}.

Lemma wp_for_each (I : Z -> L -> S -> Prop) (a b : Z) (l : L)
    (body : Z -> L -> M S L) (s : S) :
  I a l s ->
  (forall i l s, a <= i < b -> I i l s -> wp (body i l) (I (i + 1)) s) ->
  wp (for_each a b l body) (I (Z.max a b)) s.
Proof.
  intros Hinit Hstep. unfold for_each. apply wp_bind.
  eapply wp_mono.
  - eapply (wp_for_range I (fun _ _ => False)); [done|].
    intros i l0 s0 Hi HI. apply wp_bind.
    eapply wp_mono; [by apply Hstep|]. intros l1 s1 H1. by apply wp_ret.
  - intros [l1|[]] s1 H1. by apply wp_ret.
Qed.
End loops_total.

(** One symbolic step of a program, and as many as there are. *)
Ltac wp_step :=
  lazymatch goal with
  | |- wp (bind _ _) _ _ => apply wp_bind
  | |- wp (ret _) _ _ => apply wp_ret
  | |- wp (gets _) _ _ => apply wp_gets
  | |- wp (modify _) _ _ => apply wp_modify
  end; cbv beta.
Ltac wp_steps := repeat wp_step.

(** Linear arithmetic with division and remainder by constants. *)
Ltac dlia := Z.to_euclidean_division_equations; lia.

(** Use a proved specification of the program at the head of the goal. *)
Tactic Notation "wp_use" uconstr(lem) := eapply wp_mono; [eapply lem|].

(** ** Arrays

    A C array is the list of its elements; [aread] and [awrite] fault outside
    of it. *)
Definition aread {A : Type} (l : list A) (i : Z) : res A :=
  if decide (0 <= i) then
    match l !! Z.to_nat i with Some x => Ok x | None => Fault F_oob end
  else Fault F_oob.

Definition awrite {A : Type} (l : list A) (i : Z) (x : A) : res (list A) :=
  if decide (0 <= i < Z.of_nat (length l)) then Ok (<[Z.to_nat i := x]> l)
  else Fault F_oob.
