(* ===== verification/Bitmap.v ===== *)
(** * Byte-array bitmaps

    Every allocator of the kernel keeps one bit per object in a [uint8_t]
    array: physical pages ([libmem/pmm.c]), disk blocks ([libfs/blkalloc.c],
    [libfs/blk.c]) and inodes ([libfs/inode.c]).  This file holds the three
    bit operations as the code writes them ([blkalloc.c]'s helpers; the other
    files inline the same expressions), the 64-bit view [pmm.c] scans with
    [__builtin_ctzll], the abstract view of a bitmap as a predicate [bit] on
    indices, and the counting lemmas the allocators' invariants rest on. *)

From stdpp Require Import base numbers list list_numbers.
From S2P Require Import Prelude.

(** ** Operations *)

Definition rbind {A B : Type} (r : res A) (k : A -> res B) : res B :=
  match r with Ok a => k a | Fault f => Fault f end.

Definition bitmap_test_bit (bitmap : list Z) (i : Z) : res bool :=
  rbind (aread bitmap (i / 8)) (fun byte =>
    Ok (negb (Z.land byte (Z.shiftl 1 (i mod 8)) =? 0))).

Definition bitmap_set_bit (bitmap : list Z) (i : Z) : res (list Z) :=
  rbind (aread bitmap (i / 8)) (fun byte =>
    awrite bitmap (i / 8) (u8 (Z.lor byte (Z.shiftl 1 (i mod 8))))).

Definition bitmap_clear_bit (bitmap : list Z) (i : Z) : res (list Z) :=
  rbind (aread bitmap (i / 8)) (fun byte =>
    awrite bitmap (i / 8) (u8 (Z.land byte (Z.lnot (Z.shiftl 1 (i mod 8)))))).

(** The bitmap read through a [uint64_t *]: eight bytes, little endian. *)
Fixpoint le_word (n : nat) (bitmap : list Z) (i : Z) : res Z :=
  match n with
  | O => Ok 0
  | S n' =>
      rbind (aread bitmap i) (fun lo =>
      rbind (le_word n' bitmap (i + 1)) (fun hi =>
        Ok (Z.lor lo (Z.shiftl hi 8))))
  end.

Definition qword (bitmap : list Z) (i : Z) : res Z := le_word 8 bitmap (8 * i).

(** [__builtin_ctzll] on a non-zero operand: the index of its lowest set bit. *)
Fixpoint pos_ctz (p : positive) : Z :=
  match p with
  | xO q => 1 + pos_ctz q
  | _ => 0
  end.

Definition ctzll (x : Z) : Z :=
  match x with Zpos p => pos_ctz p | _ => 0 end.

(** ** Abstract view *)

Definition bit (bitmap : list Z) (i : Z) : bool :=
  match bitmap !! Z.to_nat (i / 8) with
  | Some byte => Z.testbit byte (i mod 8)
  | None => true
  end.

Definition byte_ok (b : Z) : Prop := 0 <= b < 2 ^ 8.
Definition bytes_ok (bitmap : list Z) : Prop := Forall byte_ok bitmap.
Definition nbits (bitmap : list Z) : Z := 8 * Z.of_nat (length bitmap).

Definition set_bit (bitmap : list Z) (i : Z) : list Z :=
  alter (fun byte => u8 (Z.lor byte (Z.shiftl 1 (i mod 8))))
        (Z.to_nat (i / 8)) bitmap.
Definition clear_bit (bitmap : list Z) (i : Z) : list Z :=
  alter (fun byte => u8 (Z.land byte (Z.lnot (Z.shiftl 1 (i mod 8)))))
        (Z.to_nat (i / 8)) bitmap.

Lemma aread_ok {A} (l : list A) (i : Z) (x : A) :
  0 <= i -> l !! Z.to_nat i = Some x -> aread l i = Ok x.
Proof. intros Hi Hx. unfold aread. by rewrite decide_True, Hx. Qed.

Lemma aread_lt {A} (l : list A) (i : Z) :
  0 <= i < Z.of_nat (length l) ->
  exists x, aread l i = Ok x /\ l !! Z.to_nat i = Some x.
Proof.
  intros Hi. destruct (lookup_lt_is_Some_2 l (Z.to_nat i)) as [x Hx]; [lia|].
  exists x. split; [|done]. apply aread_ok; [lia|done].
Qed.

Lemma awrite_ok {A} (l : list A) (i : Z) (x : A) :
  0 <= i < Z.of_nat (length l) -> awrite l i x = Ok (<[Z.to_nat i := x]> l).
Proof. intros Hi. unfold awrite. by rewrite decide_True. Qed.

Lemma list_insert_alter_at {A} (f : A -> A) (l : list A) (i : nat) (x : A) :
  l !! i = Some x -> <[i := f x]> l = alter f i l.
Proof.
  intros Hx. apply list_eq. intros j.
  destruct (decide (i = j)) as [<-|Hne].
  - rewrite list_lookup_alter_eq, Hx.
    apply list_lookup_insert_eq. by eapply lookup_lt_Some.
  - by rewrite list_lookup_alter_ne, list_lookup_insert_ne.
Qed.

Lemma byte_index (bm : list Z) (i : Z) :
  0 <= i < nbits bm -> 0 <= i / 8 < Z.of_nat (length bm).
Proof. unfold nbits. intros. dlia. Qed.

Lemma land_pow2_testbit (x k : Z) :
  0 <= k -> (Z.land x (Z.shiftl 1 k) =? 0) = negb (Z.testbit x k).
Proof.
  intros Hk. rewrite Z.shiftl_1_l.
  destruct (Z.eqb_spec (Z.land x (2 ^ k)) 0) as [E|E].
  - assert (Hb : Z.testbit (Z.land x (2 ^ k)) k = false) by (rewrite E; apply Z.bits_0).
    rewrite Z.land_spec, Z.pow2_bits_true, andb_true_r in Hb by done. by rewrite Hb.
  - destruct (Z.testbit x k) eqn:Hb; [done|]. exfalso. apply E.
    apply Z.bits_inj'. intros n Hn. rewrite Z.land_spec, Z.bits_0.
    destruct (Z.eq_dec n k) as [->|Hne]; [by rewrite Hb|].
    by rewrite (Z.pow2_bits_false k n), andb_false_r by done.
Qed.

Lemma bitmap_test_bit_ok (bm : list Z) (i : Z) :
  0 <= i < nbits bm -> bitmap_test_bit bm i = Ok (bit bm i).
Proof.
  intros Hi. destruct (aread_lt bm (i / 8)) as (b & Hr & Hl); [by apply byte_index|].
  unfold bitmap_test_bit, bit. rewrite Hr, Hl. simpl.
  by rewrite land_pow2_testbit, negb_involutive by dlia.
Qed.

Lemma bitmap_set_bit_ok (bm : list Z) (i : Z) :
  0 <= i < nbits bm -> bitmap_set_bit bm i = Ok (set_bit bm i).
Proof.
  intros Hi. destruct (aread_lt bm (i / 8)) as (b & Hr & Hl); [by apply byte_index|].
  unfold bitmap_set_bit, set_bit. rewrite Hr. simpl.
  rewrite awrite_ok by (by apply byte_index). f_equal.
  by apply (list_insert_alter_at (fun byte => u8 (Z.lor byte _))).
Qed.

Lemma bitmap_clear_bit_ok (bm : list Z) (i : Z) :
  0 <= i < nbits bm -> bitmap_clear_bit bm i = Ok (clear_bit bm i).
Proof.
  intros Hi. destruct (aread_lt bm (i / 8)) as (b & Hr & Hl); [by apply byte_index|].
  unfold bitmap_clear_bit, clear_bit. rewrite Hr. simpl.
  rewrite awrite_ok by (by apply byte_index). f_equal.
  by apply (list_insert_alter_at (fun byte => u8 (Z.land byte _))).
Qed.

(** ** What the operations do to [bit] *)

Lemma length_set_bit bm i : length (set_bit bm i) = length bm.
Proof. apply length_alter. Qed.
Lemma length_clear_bit bm i : length (clear_bit bm i) = length bm.
Proof. apply length_alter. Qed.

Lemma nbits_set_bit bm i : nbits (set_bit bm i) = nbits bm.
Proof. unfold nbits. by rewrite length_set_bit. Qed.
Lemma nbits_clear_bit bm i : nbits (clear_bit bm i) = nbits bm.
Proof. unfold nbits. by rewrite length_clear_bit. Qed.

Lemma u8_ok x : byte_ok (u8 x).
Proof. unfold byte_ok, u8. apply Z.mod_pos_bound. lia. Qed.

Lemma u8_testbit x k : 0 <= k < 8 -> Z.testbit (u8 x) k = Z.testbit x k.
Proof.
  intros Hk. unfold u8. rewrite Z.mod_pow2_bits_low by lia. done.
Qed.

Lemma bytes_ok_set_bit bm i : bytes_ok bm -> bytes_ok (set_bit bm i).
Proof. intros. apply Forall_alter; [done|]. intros. apply u8_ok. Qed.
Lemma bytes_ok_clear_bit bm i : bytes_ok bm -> bytes_ok (clear_bit bm i).
Proof. intros. apply Forall_alter; [done|]. intros. apply u8_ok. Qed.

Lemma bit_alter (f : Z -> Z) (v : bool) bm i j :
  0 <= i < nbits bm -> 0 <= j ->
  (forall b k, 0 <= k < 8 ->
     Z.testbit (f b) k = if k =? i mod 8 then v else Z.testbit b k) ->
  bit (alter f (Z.to_nat (i / 8)) bm) j = if j =? i then v else bit bm j.
Proof.
  intros Hi Hj Hf. unfold bit.
  destruct (aread_lt bm (i / 8)) as (b & _ & Hl); [by apply byte_index|].
  destruct (Z.eqb_spec j i) as [->|Hne].
  - rewrite list_lookup_alter_eq, Hl. simpl. rewrite Hf by dlia.
    by rewrite Z.eqb_refl.
  - destruct (decide (Z.to_nat (i / 8) = Z.to_nat (j / 8))) as [He|He].
    + rewrite <- He, list_lookup_alter_eq, Hl. simpl. rewrite Hf by dlia.
      destruct (Z.eqb_spec (j mod 8) (i mod 8)); [dlia|done].
    + by rewrite list_lookup_alter_ne.
Qed.

Lemma pow2_testbit i k : 0 <= i -> 0 <= k -> Z.testbit (Z.shiftl 1 i) k = (k =? i).
Proof.
  intros Hi Hk. rewrite Z.shiftl_1_l, Z.pow2_bits_eqb by done. apply Z.eqb_sym.
Qed.

Lemma bit_set_bit bm i j :
  0 <= i < nbits bm -> 0 <= j ->
  bit (set_bit bm i) j = if j =? i then true else bit bm j.
Proof.
  intros Hi Hj. apply bit_alter; [done..|]. intros b k Hk.
  rewrite u8_testbit, Z.lor_spec, pow2_testbit by dlia.
  by destruct (k =? _), (Z.testbit b k).
Qed.

Lemma bit_clear_bit bm i j :
  0 <= i < nbits bm -> 0 <= j ->
  bit (clear_bit bm i) j = if j =? i then false else bit bm j.
Proof.
  intros Hi Hj. apply bit_alter; [done..|]. intros b k Hk.
  rewrite u8_testbit, Z.land_spec, Z.lnot_spec, pow2_testbit by dlia.
  by destruct (k =? _), (Z.testbit b k).
Qed.

(** ** The 64-bit view *)

Lemma bounded_of_bits x k :
  0 <= k -> 0 <= x -> (forall l, k <= l -> Z.testbit x l = false) -> 0 <= x < 2 ^ k.
Proof. intros. split; [done|]. by apply Z.bounded_iff_bits_nonneg. Qed.

Lemma bits_above x k l : 0 <= x < 2 ^ k -> 0 <= k <= l -> Z.testbit x l = false.
Proof. intros. eapply (Z.bounded_iff_bits_nonneg k x); lia. Qed.

Lemma le_word_ok n bm i :
  bytes_ok bm -> 0 <= i -> i + Z.of_nat n <= Z.of_nat (length bm) ->
  exists w, le_word n bm i = Ok w /\ 0 <= w < 2 ^ (8 * Z.of_nat n) /\
    forall k, 0 <= k < 8 * Z.of_nat n -> Z.testbit w k = bit bm (8 * i + k).
Proof.
  intros Hok. revert i. induction n as [|n IH]; intros i Hi Hn.
  - exists 0. split; [done|]. split; [simpl; lia|lia].
  - destruct (aread_lt bm i) as (lo & Hr & Hl); [lia|].
    destruct (IH (i + 1)) as (hi & Hw & Hb & Hk); [lia..|].
    assert (Hlo : byte_ok lo) by (by eapply Forall_lookup_1 in Hl).
    simpl. rewrite Hr. simpl. rewrite Hw. simpl.
    eexists. split; [done|]. unfold byte_ok in Hlo. split.
    + apply bounded_of_bits; [lia| |].
      { apply Z.lor_nonneg. split; [lia|]. apply Z.shiftl_nonneg. lia. }
      intros k Hk'. rewrite Z.lor_spec, Z.shiftl_spec by lia.
      rewrite (bits_above lo 8), (bits_above hi (8 * Z.of_nat n)) by lia. done.
    + intros k Hk'. rewrite Z.lor_spec, Z.shiftl_spec by lia.
      destruct (Z.lt_ge_cases k 8).
      * rewrite (Z.testbit_neg_r hi) by lia. rewrite orb_false_r.
        unfold bit. replace ((8 * i + k) / 8) with i by dlia.
        replace ((8 * i + k) mod 8) with k by dlia. by rewrite Hl.
      * rewrite Hk by lia.
        rewrite (bits_above lo 8) by lia. simpl. f_equal. lia.
Qed.

Lemma qword_ok bm i :
  bytes_ok bm -> 0 <= i -> 64 * i + 64 <= nbits bm ->
  exists w, qword bm i = Ok w /\ 0 <= w < 2 ^ 64 /\
    forall k, 0 <= k < 64 -> Z.testbit w k = bit bm (64 * i + k).
Proof.
  intros Hok Hi Hn. unfold nbits in Hn.
  destruct (le_word_ok 8 bm (8 * i)) as (w & Hw & Hb & Hk); [done|lia..|].
  exists w. split; [done|]. split; [done|]. intros k Hk'.
  rewrite Hk by lia. f_equal. lia.
Qed.

(** [~q] as a [uint64_t]. *)
Lemma u64_lnot_bit w k :
  0 <= k < 64 -> Z.testbit (u64 (Z.lnot w)) k = negb (Z.testbit w k).
Proof.
  intros Hk. unfold u64. rewrite Z.mod_pow2_bits_low by lia.
  apply Z.lnot_spec. lia.
Qed.

Lemma pos_ctz_spec p :
  0 <= pos_ctz p /\ Z.testbit (Zpos p) (pos_ctz p) = true /\
  forall k, 0 <= k < pos_ctz p -> Z.testbit (Zpos p) k = false.
Proof.
  induction p as [p _|p (H0 & H1 & H2)|]; simpl pos_ctz.
  1,3: split_and!; [lia|done|lia].
  replace (Zpos p~0) with (2 * Zpos p) by lia.
  split_and!; [lia| |].
  - rewrite Z.add_comm. rewrite Z.add_1_r. by rewrite Z.double_bits_succ.
  - intros k Hk. destruct (Z.eq_dec k 0) as [->|]; [apply Z.testbit_even_0|].
    replace k with (Z.succ (k - 1)) by lia. rewrite Z.double_bits_succ.
    apply H2. lia.
Qed.

Lemma ctzll_spec x n :
  0 < x < 2 ^ n -> 0 <= n ->
  0 <= ctzll x < n /\ Z.testbit x (ctzll x) = true /\
  forall k, 0 <= k < ctzll x -> Z.testbit x k = false.
Proof.
  intros Hx Hn. destruct x as [|p|]; [lia| |lia].
  destruct (pos_ctz_spec p) as (H0 & H1 & H2). simpl ctzll.
  split_and!; [done| |done|done].
  destruct (Z.lt_ge_cases (pos_ctz p) n) as [|Hge]; [done|].
  by rewrite (bits_above _ n) in H1 by lia.
Qed.

(** ** Counting *)

(** [count f n] is the number of indices in [0 .. n-1] that satisfy [f]. *)
Fixpoint count_nat (f : Z -> bool) (n : nat) : Z :=
  match n with
  | O => 0
  | S n' => count_nat f n' + (if f (Z.of_nat n') then 1 else 0)
  end.
Definition count (f : Z -> bool) (n : Z) : Z := count_nat f (Z.to_nat n).

Section count.
Implicit Types (f g : Z -> bool) (n i : Z).

Lemma count_nat_bounds f (k : nat) : 0 <= count_nat f k <= Z.of_nat k.
Proof. induction k as [|k IH]; simpl; [lia|]. destruct (f _); lia. Qed.

Lemma count_bounds f n : 0 <= n -> 0 <= count f n <= n.
Proof. intros. pose proof (count_nat_bounds f (Z.to_nat n)). unfold count. lia. Qed.

Lemma count_nat_ext f g (k : nat) :
  (forall i, 0 <= i < Z.of_nat k -> f i = g i) -> count_nat f k = count_nat g k.
Proof.
  induction k as [|k IH]; simpl; intros H; [done|].
  rewrite IH, (H (Z.of_nat k)) by lia || (intros; apply H; lia). done.
Qed.

Lemma count_ext f g n :
  (forall i, 0 <= i < n -> f i = g i) -> count f n = count g n.
Proof. intros H. apply count_nat_ext. intros. apply H. lia. Qed.

Lemma count_succ f n : 0 <= n -> count f (n + 1) = count f n + (if f n then 1 else 0).
Proof.
  intros. unfold count. replace (Z.to_nat (n + 1)) with (S (Z.to_nat n)) by lia.
  simpl. by rewrite Z2Nat.id by lia.
Qed.

Lemma count_0 f : count f 0 = 0.
Proof. done. Qed.

(** Adding or removing one index. *)
Lemma count_update f g n i :
  0 <= i < n -> f i = false -> g i = true ->
  (forall j, 0 <= j < n -> j <> i -> g j = f j) ->
  count g n = count f n + 1.
Proof.
  intros Hi Hf Hg. assert (Hn : 0 <= n) by lia. revert Hi.
  pattern n. apply natlike_ind; [lia| |done].
  clear n Hn. intros n Hn IH Hi Hj. rewrite <- Z.add_1_r, !count_succ by lia.
  destruct (Z.eq_dec i n) as [->|Hne].
  - rewrite (count_ext g f n) by (intros; apply Hj; lia). rewrite Hf, Hg. lia.
  - rewrite IH by (lia || (intros; apply Hj; lia)).
    rewrite (Hj n) by lia. lia.
Qed.

Lemma count_negb f n : 0 <= n -> count (fun i => negb (f i)) n = n - count f n.
Proof.
  intros Hn. pattern n. apply natlike_ind; [done| |done]. clear n Hn.
  intros n Hn IH. rewrite <- Z.add_1_r, !count_succ, IH by lia.
  destruct (f n); simpl; lia.
Qed.

Lemma count_all f n : 0 <= n -> (forall i, 0 <= i < n -> f i = true) -> count f n = n.
Proof.
  intros Hn H. rewrite (count_ext f (fun _ => true)) by done.
  pattern n. apply natlike_ind; [done| |done]. clear. intros n Hn IH.
  rewrite <- Z.add_1_r, count_succ, IH by lia. done.
Qed.

Lemma count_none f n : (forall i, 0 <= i < n -> f i = false) -> count f n = 0.
Proof.
  intros H. rewrite (count_ext f (fun _ => false)) by done.
  unfold count. by induction (Z.to_nat n) as [|k IH]; simpl; rewrite ?IH.
Qed.

(** Fewer than [n] hits: some index misses.  The witness is the first one. *)
Lemma count_lt_exists f n :
  0 <= n -> count f n < n -> exists i, 0 <= i < n /\ f i = false.
Proof.
  intros Hn. pattern n. apply natlike_ind; [rewrite count_0; lia| |done].
  clear n Hn. intros n Hn IH. rewrite <- Z.add_1_r, count_succ by lia.
  destruct (f n) eqn:E; intros H.
  - destruct IH as (i & Hi & Hf); [lia|]. exists i. split; [lia|done].
  - exists n. split; [lia|done].
Qed.

Lemma count_miss f n i : 0 <= i < n -> f i = false -> count f n < n.
Proof.
  intros Hi Hb. assert (Hn : 0 <= n) by lia. revert Hi. pattern n.
  apply natlike_ind; [lia| |done]. clear n Hn. intros n Hn IH Hi.
  rewrite <- Z.add_1_r, count_succ by lia.
  pose proof (count_bounds f n Hn).
  destruct (Z.eq_dec i n) as [->|]; [rewrite Hb; lia|].
  destruct (f n); specialize (IH ltac:(lia)); lia.
Qed.

Lemma count_pos_exists f n :
  0 <= n -> 0 < count f n -> exists i, 0 <= i < n /\ f i = true.
Proof.
  intros Hn Hc. destruct (count_lt_exists (fun i => negb (f i)) n) as (i & Hi & Hf);
    [done|rewrite count_negb by done; lia|].
  exists i. split; [done|]. by destruct (f i).
Qed.
End count.

(** Number of free (clear) and used (set) bits among the first [n]. *)
Definition used_bits (bm : list Z) (n : Z) : Z := count (bit bm) n.
Definition free_bits (bm : list Z) (n : Z) : Z := count (fun i => negb (bit bm i)) n.

Lemma free_used_bits bm n : 0 <= n -> free_bits bm n = n - used_bits bm n.
Proof. apply count_negb. Qed.

Lemma used_bits_set bm n i :
  0 <= i < n -> n <= nbits bm -> bit bm i = false ->
  used_bits (set_bit bm i) n = used_bits bm n + 1.
Proof.
  intros Hi Hn Hb. apply (count_update _ _ _ i); [done|done| |].
  - rewrite bit_set_bit, Z.eqb_refl by lia. done.
  - intros j Hj Hne. rewrite bit_set_bit by lia.
    by rewrite (proj2 (Z.eqb_neq j i)) by done.
Qed.

Lemma used_bits_clear bm n i :
  0 <= i < n -> n <= nbits bm -> bit bm i = true ->
  used_bits (clear_bit bm i) n = used_bits bm n - 1.
Proof.
  intros Hi Hn Hb.
  assert (count (bit bm) n = count (bit (clear_bit bm i)) n + 1).
  { apply (count_update _ _ _ i); [done| |done|].
    - rewrite bit_clear_bit, Z.eqb_refl by lia. done.
    - intros j Hj Hne. rewrite bit_clear_bit by lia.
      by rewrite (proj2 (Z.eqb_neq j i)) by done. }
  unfold used_bits. lia.
Qed.

Lemma free_bits_set bm n i :
  0 <= i < n -> n <= nbits bm -> bit bm i = false ->
  free_bits (set_bit bm i) n = free_bits bm n - 1.
Proof.
  intros. rewrite !free_used_bits by lia. rewrite used_bits_set by done. lia.
Qed.

Lemma free_bits_clear bm n i :
  0 <= i < n -> n <= nbits bm -> bit bm i = true ->
  free_bits (clear_bit bm i) n = free_bits bm n + 1.
Proof.
  intros. rewrite !free_used_bits by lia. rewrite used_bits_clear by done. lia.
Qed.

Lemma free_bits_bounds bm n : 0 <= n -> 0 <= free_bits bm n <= n.
Proof. apply count_bounds. Qed.

Lemma free_bits_lt bm n i : 0 <= i < n -> bit bm i = true -> free_bits bm n < n.
Proof. intros Hi Hb. apply (count_miss _ _ i); [done|]. by rewrite Hb. Qed.

Lemma free_bits_pos bm n i : 0 <= i < n -> bit bm i = false -> 0 < free_bits bm n.
Proof.
  intros Hi Hb. rewrite free_used_bits by lia.
  pose proof (count_miss (bit bm) n i Hi Hb). unfold used_bits. lia.
Qed.

(** ** Reference search

    [first_clear f a b] is the least index of [a .. b-1] where [f] is false:
    the specification of the kernel's searches for a free object. *)
Fixpoint first_clear_nat (f : Z -> bool) (n : nat) (i : Z) : option Z :=
  match n with
  | O => None
  | S n' => if f i then first_clear_nat f n' (i + 1) else Some i
  end.
Definition first_clear (f : Z -> bool) (a b : Z) : option Z :=
  first_clear_nat f (Z.to_nat (b - a)) a.

Lemma first_clear_step f a b :
  a < b -> first_clear f a b = if f a then first_clear f (a + 1) b else Some a.
Proof.
  intros. unfold first_clear.
  replace (Z.to_nat (b - a)) with (S (Z.to_nat (b - (a + 1)))) by lia. done.
Qed.

Lemma first_clear_empty f a b : b <= a -> first_clear f a b = None.
Proof. intros. unfold first_clear. by replace (Z.to_nat (b - a)) with O by lia. Qed.

Lemma first_clear_nat_Some f n a p :
  first_clear_nat f n a = Some p <->
  a <= p < a + Z.of_nat n /\ f p = false /\ forall q, a <= q < p -> f q = true.
Proof.
  revert a. induction n as [|n IH]; intros a; simpl; [split; [done|lia]|].
  destruct (f a) eqn:E.
  - rewrite IH. split.
    + intros (H1 & H2 & H3). split_and!; [lia|lia|done|]. intros q Hq.
      destruct (Z.eq_dec q a) as [->|]; [done|]. apply H3. lia.
    + intros (H1 & H2 & H3).
      assert (p <> a) by congruence. split_and!; [lia|lia|done|].
      intros q Hq. apply H3. lia.
  - split.
    + intros [= <-]. split_and!; [lia|lia|done|lia].
    + intros (H1 & H2 & H3). f_equal. destruct (Z.eq_dec a p) as [|]; [done|].
      specialize (H3 a). rewrite E in H3. discriminate H3. lia.
Qed.

Lemma first_clear_Some f a b p :
  first_clear f a b = Some p <->
  a <= p < b /\ f p = false /\ forall q, a <= q < p -> f q = true.
Proof.
  unfold first_clear. rewrite first_clear_nat_Some.
  destruct (Z.lt_ge_cases a b).
  - replace (a + Z.of_nat (Z.to_nat (b - a))) with b by lia. done.
  - split; [intros [??]; lia|intros [??]; lia].
Qed.

Lemma first_clear_None f a b :
  first_clear f a b = None <-> forall q, a <= q < b -> f q = true.
Proof.
  unfold first_clear. remember (Z.to_nat (b - a)) as n eqn:Hn.
  revert a Hn. induction n as [|n IH]; intros a Hn; simpl.
  - split; [intros _ q Hq; lia|done].
  - destruct (f a) eqn:E.
    + rewrite IH by lia. split; intros H q Hq; [|apply H; lia].
      destruct (Z.eq_dec q a) as [->|]; [done|]. apply H. lia.
    + split; [done|]. intros H. rewrite (H a) in E by lia. done.
Qed.
