(* ===== verification/Pmm.v ===== *)
(** * Physical memory manager ([sys/src/libmem/pmm.c])

    The static variables of [pmm.c] are the fields of [pmm].  The bitmap
    pointer is kept with the bytes it designates ([bitmap_mem]): [pmm_alloc]
    scans them through a [uint64_t *], so it reads past the [bitmap_size]
    bytes the bitmap needs, up to the next multiple of eight.  Diagnostic
    output ([serial_printf]) is not part of the state. *)

From stdpp Require Import base numbers list list_numbers.
From S2P Require Import Prelude Bitmap.

(** ** State *)

Definition PAGE_SIZE : Z := 4096.

Definition LIMINE_MEMMAP_USABLE : Z := 0.
Definition LIMINE_MEMMAP_RESERVED : Z := 1.
Definition LIMINE_MEMMAP_ACPI_RECLAIMABLE : Z := 2.
Definition LIMINE_MEMMAP_ACPI_NVS : Z := 3.
Definition LIMINE_MEMMAP_BOOTLOADER_RECLAIMABLE : Z := 5.
Definition LIMINE_MEMMAP_FRAMEBUFFER : Z := 7.

Record memmap_entry := Entry { e_base : Z; e_length : Z; e_type : Z }.

Record pmm_stats_t := Stats {
  st_total_physical : Z;
  st_usable_memory : Z;
  st_reserved_memory : Z;
  st_bootloader_reclaimable : Z;
  st_total_pages : Z;
  st_free_pages : Z;
  st_used_pages : Z;
  st_peak_used_pages : Z;
  st_alloc_count : Z;
  st_free_count : Z;
  st_bitmap_size : Z
}.

Record pmm := Pmm {
  bitmap_ptr : Z;
  bitmap_mem : list Z;
  total_pages : Z;
  free_pages : Z;
  usable_pages : Z;
  bitmap_size : Z;
  hhdm_offset : Z;
  last_alloc_hint : Z;
  stats : pmm_stats_t;
  saved_memmap : option (list memmap_entry)
}.

Definition pmm_start : pmm :=
  Pmm NULL [] 0 0 0 0 0 0 (Stats 0 0 0 0 0 0 0 0 0 0 0) None.

Definition set_bitmap_mem (m : list Z) (s : pmm) : pmm :=
  Pmm (bitmap_ptr s) m (total_pages s) (free_pages s) (usable_pages s)
      (bitmap_size s) (hhdm_offset s) (last_alloc_hint s) (stats s) (saved_memmap s).
Definition set_free_pages (n : Z) (s : pmm) : pmm :=
  Pmm (bitmap_ptr s) (bitmap_mem s) (total_pages s) n (usable_pages s)
      (bitmap_size s) (hhdm_offset s) (last_alloc_hint s) (stats s) (saved_memmap s).
Definition set_usable_pages (n : Z) (s : pmm) : pmm :=
  Pmm (bitmap_ptr s) (bitmap_mem s) (total_pages s) (free_pages s) n
      (bitmap_size s) (hhdm_offset s) (last_alloc_hint s) (stats s) (saved_memmap s).
Definition set_last_alloc_hint (n : Z) (s : pmm) : pmm :=
  Pmm (bitmap_ptr s) (bitmap_mem s) (total_pages s) (free_pages s) (usable_pages s)
      (bitmap_size s) (hhdm_offset s) n (stats s) (saved_memmap s).
Definition set_stats (t : pmm_stats_t) (s : pmm) : pmm :=
  Pmm (bitmap_ptr s) (bitmap_mem s) (total_pages s) (free_pages s) (usable_pages s)
      (bitmap_size s) (hhdm_offset s) (last_alloc_hint s) t (saved_memmap s).

(** ** Bitmap access *)

(** The bytes behind the bitmap pointer; a null pointer faults. *)
Definition the_bitmap : M pmm (list Z) :=
  p <- gets bitmap_ptr ;;
  if p =? NULL then throw F_null else gets bitmap_mem.

Definition bitmap_set (index : Z) : M pmm unit :=
  m <- the_bitmap ;;
  m' <- lift (bitmap_set_bit m index) ;;
  modify (set_bitmap_mem m').

Definition bitmap_clear (index : Z) : M pmm unit :=
  m <- the_bitmap ;;
  m' <- lift (bitmap_clear_bit m index) ;;
  modify (set_bitmap_mem m').

Definition bitmap_test (index : Z) : M pmm bool :=
  m <- the_bitmap ;;
  lift (bitmap_test_bit m index).

(** ** Searching *)

(** One iteration of the loops of [find_free_page_fast]. *)
Definition scan_qword (i : Z) : M pmm (unit + Z) :=
  m <- the_bitmap ;;
  q <- lift (qword m i) ;;
  if q =? UINT64_MAX then ret (inl tt)
  else
    let bits := u64 (Z.lnot q) in
    let bit := ctzll bits in
    let page := u64 (i * 64 + bit) in
    tp <- gets total_pages ;;
    if page <? tp then
      modify (set_last_alloc_hint page) ;;;
      ret (inr page)
    else ret (inl tt).

Definition find_free_page_fast : M pmm Z :=
  tp <- gets total_pages ;;
  hint <- gets last_alloc_hint ;;
  let bitmap_qwords := u64 (tp + 63) / 64 in
  let start_qword := hint / 64 in
  r <- for_range start_qword bitmap_qwords tt (fun i _ => scan_qword i) ;;
  match r with
  | inr page => ret page
  | inl _ =>
      r2 <- for_range 0 start_qword tt (fun i _ => scan_qword i) ;;
      match r2 with
      | inr page => ret page
      | inl _ => ret UINT64_MAX
      end
  end.

(** Locals of the loop: [(start, count)]. *)
Definition find_free_contiguous (num_pages : Z) : M pmm Z :=
  tp <- gets total_pages ;;
  if (num_pages =? 0) || (tp <? num_pages) then ret UINT64_MAX
  else
    r <- for_range 0 tp (0, 0) (fun i '(start, cnt) =>
      t <- bitmap_test i ;;
      if negb t then
        let start := if cnt =? 0 then i else start in
        let cnt := u64 (cnt + 1) in
        if cnt =? num_pages then ret (inr start) else ret (inl (start, cnt))
      else ret (inl (start, 0))) ;;
    match r with
    | inr start => ret start
    | inl _ => ret UINT64_MAX
    end.

(** ** Allocation and release of one page *)

Definition stats_after_alloc (n : Z) (s : pmm) : pmm :=
  let t := stats s in
  let used := u64 (usable_pages s - free_pages s) in
  set_stats (Stats (st_total_physical t) (st_usable_memory t) (st_reserved_memory t)
    (st_bootloader_reclaimable t) (st_total_pages t) (free_pages s) used
    (if st_peak_used_pages t <? used then used else st_peak_used_pages t)
    (u64 (st_alloc_count t + n)) (st_free_count t) (st_bitmap_size t)) s.

Definition stats_after_free (n : Z) (s : pmm) : pmm :=
  let t := stats s in
  set_stats (Stats (st_total_physical t) (st_usable_memory t) (st_reserved_memory t)
    (st_bootloader_reclaimable t) (st_total_pages t) (free_pages s)
    (u64 (usable_pages s - free_pages s)) (st_peak_used_pages t)
    (st_alloc_count t) (u64 (st_free_count t + n)) (st_bitmap_size t)) s.

Definition pmm_alloc : M pmm Z :=
  page_index <- find_free_page_fast ;;
  if page_index =? UINT64_MAX then ret NULL
  else
    bitmap_set page_index ;;;
    modify (fun s => set_free_pages (u64 (free_pages s - 1)) s) ;;;
    modify (stats_after_alloc 1) ;;;
    off <- gets hhdm_offset ;;
    let phys_addr := u64 (page_index * PAGE_SIZE) in
    ret (u64 (phys_addr + off)).

Definition pmm_free (page : Z) : M pmm unit :=
  if page =? NULL then ret tt
  else
    off <- gets hhdm_offset ;;
    tp <- gets total_pages ;;
    let phys_addr := u64 (page - off) in
    let page_index := phys_addr / PAGE_SIZE in
    if tp <=? page_index then ret tt
    else
      t <- bitmap_test page_index ;;
      if negb t then ret tt
      else
        bitmap_clear page_index ;;;
        modify (fun s => set_free_pages (u64 (free_pages s + 1)) s) ;;;
        modify (stats_after_free 1) ;;;
        hint <- gets last_alloc_hint ;;
        if page_index <? hint then modify (set_last_alloc_hint page_index)
        else ret tt.

(** ** Contiguous ranges *)

Definition pmm_alloc_contiguous (num_pages : Z) : M pmm Z :=
  if num_pages =? 0 then ret NULL
  else if num_pages =? 1 then pmm_alloc
  else
    start_page <- find_free_contiguous num_pages ;;
    if start_page =? UINT64_MAX then ret NULL
    else
      for_each 0 num_pages tt (fun i _ =>
        bitmap_set (u64 (start_page + i)) ;;;
        modify (fun s => set_free_pages (u64 (free_pages s - 1)) s)) ;;;
      modify (stats_after_alloc num_pages) ;;;
      off <- gets hhdm_offset ;;
      let phys_addr := u64 (start_page * PAGE_SIZE) in
      ret (u64 (phys_addr + off)).

Definition pmm_free_contiguous (base num_pages : Z) : M pmm unit :=
  if (base =? NULL) || (num_pages =? 0) then ret tt
  else
    off <- gets hhdm_offset ;;
    tp <- gets total_pages ;;
    let phys_addr := u64 (base - off) in
    let start_page := phys_addr / PAGE_SIZE in
    for_each 0 num_pages tt (fun i _ =>
      let page_index := u64 (start_page + i) in
      if tp <=? page_index then ret tt
      else
        t <- bitmap_test page_index ;;
        if negb t then ret tt
        else
          bitmap_clear page_index ;;;
          modify (fun s => set_free_pages (u64 (free_pages s + 1)) s)) ;;;
    modify (stats_after_free num_pages).

(** ** Initialisation *)

(** [(x + PAGE_SIZE - 1) & ~(PAGE_SIZE - 1)] and [x & ~(PAGE_SIZE - 1)]: the
    mask is an [int] converted to [uint64_t]. *)
Definition page_align_down (x : Z) : Z := Z.land x (u64 (Z.lnot (PAGE_SIZE - 1))).
Definition page_align_up (x : Z) : Z := page_align_down (u64 (u64 (x + PAGE_SIZE) - 1)).

(** The first loop of [pmm_init]: the statistics of one memory-map entry and
    the highest address the allocator may hand out. *)
Definition survey_entry (acc : Z * pmm_stats_t) (e : memmap_entry) : Z * pmm_stats_t :=
  let '(highest, t) := acc in
  if u64 (UINT64_MAX - e_length e) <? e_base e then acc
  else
    let top := u64 (e_base e + e_length e) in
    let highest' := if highest <? top then top else highest in
    if e_type e =? LIMINE_MEMMAP_USABLE then
      (highest', Stats (u64 (st_total_physical t + e_length e))
        (u64 (st_usable_memory t + e_length e)) (st_reserved_memory t)
        (st_bootloader_reclaimable t) (st_total_pages t) (st_free_pages t)
        (st_used_pages t) (st_peak_used_pages t) (st_alloc_count t)
        (st_free_count t) (st_bitmap_size t))
    else if e_type e =? LIMINE_MEMMAP_BOOTLOADER_RECLAIMABLE then
      (highest', Stats (u64 (st_total_physical t + e_length e))
        (st_usable_memory t) (st_reserved_memory t)
        (u64 (st_bootloader_reclaimable t + e_length e)) (st_total_pages t)
        (st_free_pages t) (st_used_pages t) (st_peak_used_pages t)
        (st_alloc_count t) (st_free_count t) (st_bitmap_size t))
    else if (e_type e =? LIMINE_MEMMAP_RESERVED)
         || (e_type e =? LIMINE_MEMMAP_ACPI_RECLAIMABLE)
         || (e_type e =? LIMINE_MEMMAP_ACPI_NVS) then
      if e_base e <? 2 ^ 32 then
        (highest, Stats (st_total_physical t) (st_usable_memory t)
          (u64 (st_reserved_memory t + e_length e)) (st_bootloader_reclaimable t)
          (st_total_pages t) (st_free_pages t) (st_used_pages t)
          (st_peak_used_pages t) (st_alloc_count t) (st_free_count t)
          (st_bitmap_size t))
      else acc
    else acc.

(** The second loop: the first usable entry long enough holds the bitmap and
    is shortened in place.  The result is the bitmap pointer and the entries. *)
Fixpoint place_bitmap (size off : Z) (entries : list memmap_entry)
    : Z * list memmap_entry :=
  match entries with
  | [] => (NULL, [])
  | e :: es =>
      if (e_type e =? LIMINE_MEMMAP_USABLE) && (size <=? e_length e) then
        (u64 (e_base e + off),
         Entry (u64 (e_base e + size)) (u64 (e_length e - size)) (e_type e) :: es)
      else
        let '(p, es') := place_bitmap size off es in (p, e :: es')
  end.

(** [memset(bitmap, 0xFF, bitmap_size)] and the adjustment of the last byte. *)
Definition initial_bits (size total : Z) (mem : list Z) : res (list Z) :=
  if Z.of_nat (length mem) <? size then Fault F_oob
  else
    let filled := replicate (Z.to_nat size) 255 ++ drop (Z.to_nat size) mem in
    let excess_bits := total mod 8 in
    if excess_bits =? 0 then Ok filled
    else
      let mask := u8 (Z.shiftl 1 excess_bits - 1) in
      awrite filled (size - 1) (u8 (Z.land 255 (Z.lnot mask))).

(** A loop over the entries of the memory map. *)
Fixpoint for_entries {S : Type} (es : list memmap_entry)
    (body : memmap_entry -> M S unit) : M S unit :=
  match es with
  | [] => ret tt
  | e :: es' => body e ;;; for_entries es' body
  end.

(** [(base_page, page_count)] of the whole pages inside an entry, or no pages. *)
Definition entry_pages (e : memmap_entry) : Z * Z :=
  let aligned_base := page_align_up (e_base e) in
  let aligned_end := page_align_down (u64 (e_base e + e_length e)) in
  if aligned_base <? aligned_end then
    (aligned_base / PAGE_SIZE, (aligned_end - aligned_base) / PAGE_SIZE)
  else (0, 0).

(** The third loop of [pmm_init], for one entry. *)
Definition mark_usable (e : memmap_entry) : M pmm unit :=
  if e_type e =? LIMINE_MEMMAP_USABLE then
    let '(base_page, page_count) := entry_pages e in
    for_each 0 page_count tt (fun j _ =>
      let page := u64 (base_page + j) in
      tp <- gets total_pages ;;
      if page <? tp then
        bitmap_clear page ;;;
        modify (fun s => set_free_pages (u64 (free_pages s + 1)) s) ;;;
        modify (fun s => set_usable_pages (u64 (usable_pages s + 1)) s)
      else ret tt) ;;;
    ret tt
  else ret tt.

Definition stats_after_init (s : pmm) : pmm :=
  let t := stats s in
  set_stats (Stats (st_total_physical t) (st_usable_memory t) (st_reserved_memory t)
    (st_bootloader_reclaimable t) (total_pages s) (free_pages s) 0 0 0 0
    (bitmap_size s)) s.

(** [memmap] and [hhdm] are the boot loader's responses (null when it gave
    none); [ram a] is the memory that can be read and written at the virtual
    address [a]. *)
Definition pmm_init (ram : Z -> list Z) (memmap : option (list memmap_entry))
    (hhdm : option Z) : M pmm unit :=
  match memmap, hhdm with
  | Some entries, Some offset =>
      t0 <- gets stats ;;
      let '(highest_usable_addr, t) :=
        fold_left survey_entry entries
          (0, Stats 0 0 0 0 (st_total_pages t0) (st_free_pages t0) (st_used_pages t0)
                (st_peak_used_pages t0) (st_alloc_count t0) (st_free_count t0)
                (st_bitmap_size t0)) in
      let total := highest_usable_addr / PAGE_SIZE in
      let size := u64 (total + 7) / 8 in
      let '(ptr, entries') := place_bitmap size offset entries in
      modify (fun s => Pmm ptr (ram ptr) total (free_pages s) (usable_pages s)
                size offset (last_alloc_hint s) t (Some entries')) ;;;
      if ptr =? NULL then ret tt
      else
        m <- lift (initial_bits size total (ram ptr)) ;;
        modify (set_bitmap_mem m) ;;;
        modify (set_free_pages 0) ;;;
        modify (set_usable_pages 0) ;;;
        for_entries entries' mark_usable ;;;
        modify stats_after_init
  | _, _ => ret tt
  end.

(** ** Reclaiming boot-loader memory, queries, validation *)

Definition reclaim_entry (e : memmap_entry) : M pmm unit :=
  if e_type e =? LIMINE_MEMMAP_BOOTLOADER_RECLAIMABLE then
    let '(base_page, page_count) := entry_pages e in
    for_each 0 page_count tt (fun j _ =>
      let page := u64 (base_page + j) in
      tp <- gets total_pages ;;
      if page <? tp then
        t <- bitmap_test page ;;
        if t then
          bitmap_clear page ;;;
          modify (fun s => set_free_pages (u64 (free_pages s + 1)) s) ;;;
          modify (fun s => set_usable_pages (u64 (usable_pages s + 1)) s)
        else ret tt
      else ret tt) ;;;
    ret tt
  else ret tt.

Definition stats_refresh (s : pmm) : pmm :=
  let t := stats s in
  set_stats (Stats (st_total_physical t) (st_usable_memory t) (st_reserved_memory t)
    (st_bootloader_reclaimable t) (st_total_pages t) (free_pages s)
    (u64 (usable_pages s - free_pages s)) (st_peak_used_pages t)
    (st_alloc_count t) (st_free_count t) (st_bitmap_size t)) s.

Definition pmm_reclaim_bootloader_memory : M pmm unit :=
  mm <- gets saved_memmap ;;
  match mm with
  | None => ret tt
  | Some entries => for_entries entries reclaim_entry ;;; modify stats_refresh
  end.

Definition pmm_is_page_allocated (page : Z) : M pmm bool :=
  if page =? NULL then ret false
  else
    off <- gets hhdm_offset ;;
    tp <- gets total_pages ;;
    let phys_addr := u64 (page - off) in
    let page_index := phys_addr / PAGE_SIZE in
    if tp <=? page_index then ret false else bitmap_test page_index.

Definition pmm_get_free_memory : M pmm Z :=
  gets (fun s => u64 (free_pages s * PAGE_SIZE)).

Definition pmm_get_total_memory : M pmm Z :=
  gets (fun s => u64 (usable_pages s * PAGE_SIZE)).

Definition pmm_get_stats : M pmm pmm_stats_t :=
  modify stats_refresh ;;; gets stats.

Definition pmm_validate : M pmm bool :=
  p <- gets bitmap_ptr ;;
  if p =? NULL then ret false
  else
    tp <- gets total_pages ;;
    counted_free <- for_each 0 tp 0 (fun i n =>
      t <- bitmap_test i ;;
      ret (if negb t then u64 (n + 1) else n)) ;;
    fp <- gets free_pages ;;
    ret (counted_free =? fp).
