(* ===== verification/PmmFacts.v ===== *)
(** * Properties of the physical memory manager

    The invariant [pmm_inv], the functional behaviour of every operation of
    [Pmm.v] on every branch, the equivalence of the word-at-a-time search with
    a bit-by-bit reference search, and the safety of sequences of calls. *)

From stdpp Require Import base numbers list list_numbers.
From S2P Require Import Prelude Bitmap Pmm.

(** ** Invariant *)

Record pmm_inv (s : pmm) : Prop := PmmInv {
  inv_ptr : bitmap_ptr s <> NULL;
  inv_bytes : bytes_ok (bitmap_mem s);
  inv_total : 0 <= total_pages s < 2 ^ 52;
  inv_room : 64 * ((total_pages s + 63) / 64) <= nbits (bitmap_mem s);
  inv_hint : 0 <= last_alloc_hint s <= total_pages s;
  inv_free : free_pages s = free_bits (bitmap_mem s) (total_pages s);
  inv_hhdm : 0 < hhdm_offset s /\ hhdm_offset s + PAGE_SIZE * total_pages s <= 2 ^ 64 /\
    hhdm_offset s mod PAGE_SIZE = 0
}.

(** Page [p] is free / in use. *)
Definition page_free (s : pmm) (p : Z) : Prop :=
  0 <= p < total_pages s /\ bit (bitmap_mem s) p = false.
Definition page_used (s : pmm) (p : Z) : Prop :=
  0 <= p < total_pages s /\ bit (bitmap_mem s) p = true.

(** The address the kernel uses for page [p]: its direct-map alias. *)
Definition page_addr (s : pmm) (p : Z) : Z := hhdm_offset s + PAGE_SIZE * p.

(** Everything but the bitmap, the counters and the hint. *)
Definition same_layout (s s' : pmm) : Prop :=
  bitmap_ptr s' = bitmap_ptr s /\ total_pages s' = total_pages s /\
  hhdm_offset s' = hhdm_offset s /\ usable_pages s' = usable_pages s /\
  saved_memmap s' = saved_memmap s.

Lemma room_total s : pmm_inv s -> total_pages s <= nbits (bitmap_mem s).
Proof. intros []. dlia. Qed.

Create HintDb pmm discriminated.
#[export] Hint Resolve room_total inv_ptr inv_bytes : pmm.

Section access.
Implicit Types (s : pmm) (i : Z).

Lemma wp_the_bitmap (Q : list Z -> pmm -> Prop) s :
  bitmap_ptr s <> NULL -> Q (bitmap_mem s) s -> wp the_bitmap Q s.
Proof.
  intros Hp HQ. unfold the_bitmap. wp_steps.
  rewrite (proj2 (Z.eqb_neq _ _) Hp). by apply wp_gets.
Qed.

Lemma wp_bitmap_test (Q : bool -> pmm -> Prop) s i :
  bitmap_ptr s <> NULL -> 0 <= i < nbits (bitmap_mem s) ->
  Q (bit (bitmap_mem s) i) s -> wp (bitmap_test i) Q s.
Proof.
  intros Hp Hi HQ. unfold bitmap_test. wp_step.
  apply wp_the_bitmap; [done|]. eapply wp_lift; [|done].
  by apply bitmap_test_bit_ok.
Qed.

Lemma wp_bitmap_set (Q : unit -> pmm -> Prop) s i :
  bitmap_ptr s <> NULL -> 0 <= i < nbits (bitmap_mem s) ->
  Q tt (set_bitmap_mem (set_bit (bitmap_mem s) i) s) -> wp (bitmap_set i) Q s.
Proof.
  intros Hp Hi HQ. unfold bitmap_set. wp_step.
  apply wp_the_bitmap; [done|]. wp_step.
  eapply wp_lift; [by apply bitmap_set_bit_ok|]. by wp_step.
Qed.

Lemma wp_bitmap_clear (Q : unit -> pmm -> Prop) s i :
  bitmap_ptr s <> NULL -> 0 <= i < nbits (bitmap_mem s) ->
  Q tt (set_bitmap_mem (clear_bit (bitmap_mem s) i) s) -> wp (bitmap_clear i) Q s.
Proof.
  intros Hp Hi HQ. unfold bitmap_clear. wp_step.
  apply wp_the_bitmap; [done|]. wp_step.
  eapply wp_lift; [by apply bitmap_clear_bit_ok|]. by wp_step.
Qed.
End access.

(** ** The search for one page *)

(** What one iteration of the scan finds: nothing free below [total_pages] in
    word [i], or the lowest free page of the word, which becomes the hint. *)
Lemma scan_qword_spec s i :
  pmm_inv s -> 0 <= i < (total_pages s + 63) / 64 ->
  wp (scan_qword i) (fun r s' =>
    match r with
    | inl _ => s' = s /\
        forall p, 64 * i <= p < 64 * i + 64 -> p < total_pages s ->
          bit (bitmap_mem s) p = true
    | inr p => s' = set_last_alloc_hint p s /\ 64 * i <= p < 64 * i + 64 /\
        page_free s p /\
        forall q, 64 * i <= q < p -> bit (bitmap_mem s) q = true
    end) s.
Proof.
  intros Hinv Hi. pose proof Hinv as [Hp Hb Ht Hr _ _ _].
  destruct (qword_ok (bitmap_mem s) i) as (q & Hq & Hqb & Hqk); [done|dlia..|].
  unfold scan_qword. wp_step. apply wp_the_bitmap; [done|]. wp_step.
  eapply wp_lift; [done|].
  destruct (Z.eqb_spec q UINT64_MAX) as [->|Hne].
  { apply wp_ret. split; [done|]. intros p Hp1 Hp2.
    specialize (Hqk (p - 64 * i)). replace (64 * i + (p - 64 * i)) with p in Hqk by lia.
    rewrite <- Hqk by lia. change UINT64_MAX with (Z.ones 64).
    rewrite Z.ones_spec_low by lia. done. }
  assert (Hbits : 0 < u64 (Z.lnot q) < 2 ^ 64).
  { replace (u64 (Z.lnot q)) with (UINT64_MAX - q); [unfold UINT64_MAX in *; lia|].
    unfold u64, Z.lnot. apply (Z.mod_unique_pos _ _ (-1)); unfold UINT64_MAX; lia. }
  destruct (ctzll_spec _ 64 Hbits) as (Hc1 & Hc2 & Hc3); [lia|].
  set (k := ctzll (u64 (Z.lnot q))) in *.
  rewrite u64_lnot_bit in Hc2 by lia. rewrite Hqk in Hc2 by lia.
  apply negb_true_iff in Hc2.
  assert (Hlow : forall p, 64 * i <= p < 64 * i + k -> bit (bitmap_mem s) p = true).
  { intros p Hpp. specialize (Hc3 (p - 64 * i)).
    rewrite u64_lnot_bit, Hqk in Hc3 by lia.
    replace (64 * i + (p - 64 * i)) with p in Hc3 by lia.
    apply negb_false_iff, Hc3. lia. }
  assert (Hpage : u64 (i * 64 + k) = 64 * i + k).
  { unfold u64. rewrite Z.mod_small by dlia. lia. }
  cbv zeta. wp_steps. rewrite Hpage.
  destruct (Z.ltb_spec (64 * i + k) (total_pages s)).
  - wp_steps. split_and!; [done|lia|lia| |done]. split; [lia|done].
  - apply wp_ret. split; [done|]. intros p Hpp Hpt. apply Hlow. lia.
Qed.

(** The words scanned by one loop of [find_free_page_fast]. *)
Lemma scan_range_spec s a b :
  pmm_inv s -> 0 <= a -> b <= (total_pages s + 63) / 64 ->
  wp (for_range a b tt (fun i _ => scan_qword i)) (fun r s' =>
    match r with
    | inl _ => s' = s /\
        forall p, 64 * a <= p < 64 * b -> p < total_pages s ->
          bit (bitmap_mem s) p = true
    | inr p => s' = set_last_alloc_hint p s /\ 64 * a <= p < 64 * b /\
        page_free s p /\
        forall q, 64 * a <= q < p -> bit (bitmap_mem s) q = true
    end) s.
Proof.
  intros Hinv Ha Hb.
  wp_use (wp_for_range (fun i _ s' => s' = s /\
      forall p, 64 * a <= p < 64 * i -> p < total_pages s -> bit (bitmap_mem s) p = true)
    (fun p s' => s' = set_last_alloc_hint p s /\ 64 * a <= p < 64 * b /\
        page_free s p /\
        forall q, 64 * a <= q < p -> bit (bitmap_mem s) q = true)).
  - split; [done|lia].
  - intros i _ s0 Hi [-> IH]. wp_use scan_qword_spec; [done|lia|].
    intros [[]|p] s1.
    + intros [-> H]. split; [done|]. intros p Hp Hpt.
      destruct (Z.lt_ge_cases p (64 * i)); [apply IH|apply H]; lia.
    + intros (-> & Hp & Hf & H). split_and!; [done|lia|lia|done|].
      intros q Hq. destruct (Z.lt_ge_cases q (64 * i)); [apply IH|apply H];
        destruct Hf; lia.
  - intros [[]|p] s1; [|done]. intros [-> H]. split; [done|].
    intros p Hp Hpt. apply H; lia.
Qed.

(** The reference: the least free page from the word of the hint on, else the
    least free page before it. *)
Definition find_free_ref (s : pmm) : option Z :=
  let from := 64 * (last_alloc_hint s / 64) in
  match first_clear (bit (bitmap_mem s)) from (total_pages s) with
  | Some p => Some p
  | None => first_clear (bit (bitmap_mem s)) 0 from
  end.

Lemma find_free_page_fast_eq s :
  pmm_inv s ->
  wp find_free_page_fast (fun r s' =>
    match find_free_ref s with
    | Some p => r = p /\ s' = set_last_alloc_hint p s
    | None => r = UINT64_MAX /\ s' = s
    end) s.
Proof.
  intros Hinv. pose proof Hinv as [_ _ Ht _ Hh _ _].
  unfold find_free_page_fast, find_free_ref. wp_steps.
  replace (u64 (total_pages s + 63)) with (total_pages s + 63)
    by (unfold u64; rewrite Z.mod_small; lia).
  set (f := bit (bitmap_mem s)). set (w := last_alloc_hint s / 64).
  assert (Hw : 0 <= w /\ 64 * w <= last_alloc_hint s < 64 * w + 64)
    by (unfold w; dlia).
  clearbody w.
  wp_use (scan_range_spec s w ((total_pages s + 63) / 64)); [done|lia|lia|].
  intros [[]|p] s1.
  - intros [-> H1].
    assert (first_clear f (64 * w) (total_pages s) = None) as ->.
    { apply first_clear_None. intros q Hq. apply H1; dlia. }
    wp_step. wp_use (scan_range_spec s 0 w); [done|lia|dlia|].
    intros [[]|p] s1.
    + intros [-> H2]. apply wp_ret.
      assert (first_clear f 0 (64 * w) = None) as ->; [|done].
      apply first_clear_None. intros q Hq. apply H2; lia.
    + intros (-> & Hp & [? Hf] & Hq). apply wp_ret.
      assert (first_clear f 0 (64 * w) = Some p) as ->; [|done].
      apply first_clear_Some. split_and!; [lia|lia|done|]. intros. apply Hq. lia.
  - intros (-> & Hp & [? Hf] & Hq). apply wp_ret.
    assert (first_clear f (64 * w) (total_pages s) = Some p) as ->; [|done].
    apply first_clear_Some. split_and!; [lia|lia|done|]. intros. apply Hq. lia.
Qed.

Lemma find_free_ref_Some s p :
  pmm_inv s -> find_free_ref s = Some p -> page_free s p.
Proof.
  intros [_ _ Ht _ Hh _ _]. unfold find_free_ref.
  destruct (first_clear _ _ (total_pages s)) as [q|] eqn:E.
  - intros [= <-]. apply first_clear_Some in E. destruct E as (? & ? & _).
    split; [dlia|done].
  - intros (? & ? & _)%first_clear_Some. split; [dlia|done].
Qed.

Lemma find_free_ref_None s :
  pmm_inv s -> find_free_ref s = None <-> (forall p, ~ page_free s p).
Proof.
  intros Hinv. split.
  - unfold find_free_ref.
    destruct (first_clear _ _ (total_pages s)) eqn:E1; [done|]. intros E2 p [Hp Hb].
    rewrite first_clear_None in E1, E2.
    destruct (Z.lt_ge_cases p (64 * (last_alloc_hint s / 64)));
      [rewrite E2 in Hb by lia|rewrite E1 in Hb by lia]; done.
  - intros H. destruct (find_free_ref s) as [p|] eqn:E; [|done].
    apply find_free_ref_Some in E; [|done]. by apply H in E.
Qed.

(** ** Preservation of the invariant *)

Lemma pmm_inv_update s s' :
  pmm_inv s -> same_layout s s' ->
  bytes_ok (bitmap_mem s') -> length (bitmap_mem s') = length (bitmap_mem s) ->
  0 <= last_alloc_hint s' <= total_pages s ->
  free_pages s' = free_bits (bitmap_mem s') (total_pages s) -> pmm_inv s'.
Proof.
  intros [Hp Hb Ht Hr Hh Hf Ho] (Ep & Et & Eo & Eu & Em) Hb' Hl Hh' Hf'.
  constructor; rewrite ?Ep, ?Et, ?Eo; try done.
  unfold nbits. rewrite Hl. done.
Qed.

(** Pages taken and released differ from the old bitmap at one index. *)
Definition bit_changed (s s' : pmm) (p : Z) (v : bool) : Prop :=
  forall q, 0 <= q ->
    bit (bitmap_mem s') q = if q =? p then v else bit (bitmap_mem s) q.

Lemma u64_id x : 0 <= x < 2 ^ 64 -> u64 x = x.
Proof. apply Z.mod_small. Qed.

Lemma page_addr_eq s p :
  pmm_inv s -> 0 <= p < total_pages s ->
  u64 (u64 (p * PAGE_SIZE) + hhdm_offset s) = page_addr s p.
Proof.
  intros [_ _ Ht _ _ _ Ho] Hp. unfold page_addr, PAGE_SIZE in *.
  rewrite !u64_id; rewrite ?u64_id; lia.
Qed.

Lemma page_addr_index s p k :
  pmm_inv s -> 0 <= p < total_pages s -> 0 <= k < PAGE_SIZE ->
  u64 (page_addr s p + k - hhdm_offset s) / PAGE_SIZE = p.
Proof.
  intros [_ _ Ht _ _ _ Ho] Hp Hk. unfold page_addr, PAGE_SIZE in *.
  rewrite u64_id by lia. dlia.
Qed.

Lemma page_addr_not_null s p :
  pmm_inv s -> 0 <= p -> page_addr s p <> NULL.
Proof. intros [_ _ _ _ _ _ Ho] Hp. unfold page_addr, PAGE_SIZE, NULL. lia. Qed.

Lemma pmm_alloc_wp s :
  pmm_inv s ->
  wp pmm_alloc (fun r s' =>
    match find_free_ref s with
    | None => r = NULL /\ s' = s
    | Some p => r = page_addr s p /\ page_free s p /\ pmm_inv s' /\
        same_layout s s' /\ bit_changed s s' p true /\
        free_pages s' = free_pages s - 1
    end) s.
Proof.
  intros Hinv. pose proof Hinv as [Hptr Hb Ht Hr Hh Hf Ho].
  unfold pmm_alloc. wp_step. wp_use find_free_page_fast_eq; [done|].
  intros r s1. destruct (find_free_ref s) as [p|] eqn:E.
  2:{ intros [-> ->]. by apply wp_ret. }
  intros [-> ->]. pose proof (find_free_ref_Some s p Hinv E) as Hp.
  pose proof Hp as [Hp1 Hp2]. pose proof (room_total s Hinv).
  rewrite (proj2 (Z.eqb_neq p UINT64_MAX)) by (unfold UINT64_MAX; lia).
  wp_step. apply wp_bitmap_set; [done|simpl; lia|].
  wp_steps. simpl. rewrite page_addr_eq by done.
  pose proof (free_bits_pos _ _ _ Hp1 Hp2).
  pose proof (free_bits_bounds (bitmap_mem s) (total_pages s)).
  assert (Hfree : u64 (free_pages s - 1) = free_pages s - 1)
    by (apply u64_id; lia).
  split_and!; [done|done| |done| |done].
  - eapply (pmm_inv_update s); [done|done|..]; simpl.
    + by apply bytes_ok_set_bit.
    + apply length_set_bit.
    + lia.
    + rewrite Hfree, Hf. symmetry. apply free_bits_set; [done|lia|done].
  - intros q Hq. simpl. apply bit_set_bit; lia.
Qed.

(** The page index an address designates. *)
Definition addr_index (s : pmm) (a : Z) : Z := u64 (a - hhdm_offset s) / PAGE_SIZE.

Lemma addr_index_nonneg s a : 0 <= addr_index s a.
Proof.
  unfold addr_index, u64, PAGE_SIZE. pose proof (Z.mod_pos_bound (a - hhdm_offset s) (2 ^ 64)).
  apply Z.div_pos; lia.
Qed.

Lemma pmm_free_wp s a :
  pmm_inv s ->
  wp (pmm_free a) (fun _ s' =>
    let p := addr_index s a in
    if (a =? NULL) || (total_pages s <=? p) || negb (bit (bitmap_mem s) p)
    then s' = s
    else pmm_inv s' /\ same_layout s s' /\ bit_changed s s' p false /\
      free_pages s' = free_pages s + 1 /\
      last_alloc_hint s' = Z.min (last_alloc_hint s) p) s.
Proof.
  intros Hinv. pose proof Hinv as [Hptr Hb Ht Hr Hh Hf Ho].
  pose proof (addr_index_nonneg s a) as Hp0. pose proof (room_total s Hinv).
  unfold pmm_free. cbv zeta. destruct (a =? NULL); [by apply wp_ret|]. wp_steps.
  fold (addr_index s a). set (p := addr_index s a) in *.
  destruct (Z.leb_spec (total_pages s) p); [by apply wp_ret|]. wp_step.
  apply wp_bitmap_test; [done|lia|].
  destruct (bit (bitmap_mem s) p) eqn:Hbit; simpl; [|by apply wp_ret].
  wp_step. apply wp_bitmap_clear; [done|lia|]. wp_steps. simpl.
  assert (free_bits (bitmap_mem s) (total_pages s) < total_pages s)
    by (apply (free_bits_lt _ _ p); [lia|done]).
  pose proof (free_bits_bounds (bitmap_mem s) (total_pages s)).
  assert (Hfree : u64 (free_pages s + 1) = free_pages s + 1) by (apply u64_id; lia).
  assert (Hcnt : free_pages s + 1 = free_bits (clear_bit (bitmap_mem s) p) (total_pages s))
    by (rewrite free_bits_clear; [lia|lia|lia|done]).
  destruct (Z.ltb_spec p (last_alloc_hint s)); wp_steps; simpl.
  all: split_and!;
    [ eapply (pmm_inv_update s); simpl; rewrite ?Hfree; try done; try lia;
      [by apply bytes_ok_clear_bit|apply length_clear_bit]
    | done | intros q Hq; simpl; apply bit_clear_bit; lia | done | lia ].
Qed.

(** ** Runs of free pages *)

Definition run_free (bm : list Z) (t n : Z) : Prop :=
  forall q, t <= q < t + n -> bit bm q = false.

Lemma find_free_contiguous_wp s n :
  pmm_inv s -> 0 <= n < 2 ^ 64 ->
  wp (find_free_contiguous n) (fun r s' => s' = s /\
    ((r = UINT64_MAX /\
       forall t, 0 < n -> 0 <= t -> t + n <= total_pages s -> ~ run_free (bitmap_mem s) t n) \/
     (0 < n /\ 0 <= r /\ r + n <= total_pages s /\ run_free (bitmap_mem s) r n /\
       forall t, 0 <= t < r -> ~ run_free (bitmap_mem s) t n))) s.
Proof.
  intros Hinv Hn. pose proof Hinv as [Hptr _ Ht _ _ _ _].
  pose proof (room_total s Hinv) as Hroom.
  unfold find_free_contiguous. wp_step. wp_step.
  destruct (Z.eqb_spec n 0) as [->|Hn0]; simpl.
  { apply wp_ret. split; [done|]. left. split; [done|]. lia. }
  destruct (Z.ltb_spec (total_pages s) n).
  { apply wp_ret. split; [done|]. left. split; [done|]. lia. }
  set (bm := bitmap_mem s) in *. wp_step.
  wp_use (wp_for_range (fun i '(start, c) s' => s' = s /\ 0 <= c < n /\ c <= i /\
       (0 < c -> start = i - c) /\ run_free bm (i - c) c /\
       (i - c = 0 \/ bit bm (i - c - 1) = true) /\
       forall t, 0 <= t -> t + n <= i -> ~ run_free bm t n)
    (fun r s' => s' = s /\ 0 <= r /\ r + n <= total_pages s /\ run_free bm r n /\
       forall t, 0 <= t < r -> ~ run_free bm t n)).
  - split_and!; try done; try lia; intros ?; lia.
  - intros i [start c] s0 Hi (-> & Hc & Hci & Hst & Hrun & Hmax & Hno).
    wp_step. apply wp_bitmap_test; [done|fold bm; lia|]. fold bm.
    destruct (bit bm i) eqn:Hbit; simpl.
    + apply wp_ret. split_and!; [done|lia|lia|lia|lia|intros q; lia| |].
      { right. by replace (i + 1 - 0 - 1) with i by lia. }
      intros t Ht0 Htn Hr. destruct (Z.eq_dec (t + n) (i + 1)).
      * rewrite (Hr i) in Hbit by lia. done.
      * by apply (Hno t); [lia..|].
    + assert (Hrun' : run_free bm (i - c) (c + 1)).
      { intros q Hq. destruct (Z.eq_dec q i) as [->|]; [done|]. apply Hrun. lia. }
      assert (Hst' : (if c =? 0 then i else start) = i - c).
      { destruct (Z.eqb_spec c 0); [lia|]. apply Hst. lia. }
      rewrite Hst', u64_id by lia.
      destruct (Z.eqb_spec (c + 1) n) as [Hfull|Hnf]; apply wp_ret.
      * split_and!; [done|lia|lia|by rewrite <- Hfull|].
        intros t Ht' Hr. apply (Hno t); [lia|lia|done].
      * split_and!; [done|lia|lia|lia|lia| | |].
        -- by replace (i + 1 - (c + 1)) with (i - c) by lia.
        -- replace (i + 1 - (c + 1)) with (i - c) by lia. done.
        -- intros t Ht0 Htn Hr. destruct (Z.eq_dec (t + n) (i + 1)).
           ++ destruct Hmax as [Hz|Hu]; [lia|].
              rewrite (Hr (i - c - 1)) in Hu by lia. done.
           ++ by apply (Hno t); [lia..|].
  - intros [[start c]|r] s1.
    + intros (-> & _ & _ & _ & _ & _ & Hno). apply wp_ret. split; [done|].
      left. split; [done|]. intros t _ Ht0 Htn. apply Hno; lia.
    + intros (-> & H1 & H2 & H3 & H4). apply wp_ret. split; [done|]. right.
      split_and!; [lia|done..].
Qed.

(** Exactly the pages of [a .. a+n-1] took the value [v]. *)
Definition in_range (a n q : Z) : bool := (a <=? q) && (q <? a + n).
Definition range_changed (s s' : pmm) (a n : Z) (v : bool) : Prop :=
  forall q, 0 <= q ->
    bit (bitmap_mem s') q = if in_range a n q then v else bit (bitmap_mem s) q.

Lemma in_range_succ a n q :
  0 <= n -> in_range a (n + 1) q = (in_range a n q || (q =? a + n)).
Proof. unfold in_range. intros. lia. Qed.

Lemma same_layout_refl s : same_layout s s.
Proof. done. Qed.

Lemma same_layout_trans s1 s2 s3 :
  same_layout s1 s2 -> same_layout s2 s3 -> same_layout s1 s3.
Proof. unfold same_layout. naive_solver congruence. Qed.

(** One iteration of the marking loop of [pmm_alloc_contiguous]. *)
Lemma mark_page_wp s p (Q : unit -> pmm -> Prop) :
  pmm_inv s -> page_free s p ->
  (forall s', pmm_inv s' -> same_layout s s' -> bit_changed s s' p true ->
     free_pages s' = free_pages s - 1 -> Q tt s') ->
  wp (bitmap_set p ;;; modify (fun s => set_free_pages (u64 (free_pages s - 1)) s)) Q s.
Proof.
  intros Hinv [Hp Hb] HQ. pose proof Hinv as [Hptr Hok Ht Hr Hh Hf Ho].
  pose proof (room_total s Hinv).
  wp_step. apply wp_bitmap_set; [done|lia|]. wp_step. simpl.
  pose proof (free_bits_pos _ _ _ Hp Hb).
  pose proof (free_bits_bounds (bitmap_mem s) (total_pages s)).
  rewrite u64_id by lia. apply HQ; try done.
  - eapply (pmm_inv_update s); simpl; try done.
    + by apply bytes_ok_set_bit.
    + apply length_set_bit.
    + rewrite Hf. symmetry. by apply free_bits_set.
  - intros q Hq. simpl. apply bit_set_bit; lia.
Qed.

(** One iteration that releases a page which may be out of range or free. *)
Lemma release_page_wp s tp p (Q : unit -> pmm -> Prop) :
  pmm_inv s -> tp = total_pages s -> 0 <= p ->
  (forall s', pmm_inv s' -> same_layout s s' ->
     (forall q, 0 <= q -> bit (bitmap_mem s') q =
        if (q =? p) && (q <? total_pages s) then false else bit (bitmap_mem s) q) -> Q tt s') ->
  wp (if tp <=? p then ret tt
      else t <- bitmap_test p ;;
           if negb t then ret tt
           else bitmap_clear p ;;;
                modify (fun s => set_free_pages (u64 (free_pages s + 1)) s)) Q s.
Proof.
  intros Hinv -> Hp HQ. pose proof Hinv as [Hptr Hok Ht Hr Hh Hf Ho].
  pose proof (room_total s Hinv).
  destruct (Z.leb_spec (total_pages s) p).
  { apply wp_ret, HQ; [done|done|]. intros q Hq.
    destruct (Z.eqb_spec q p) as [->|]; [|done]. simpl.
    destruct (Z.ltb_spec p (total_pages s)); [lia|done]. }
  wp_step. apply wp_bitmap_test; [done|lia|].
  destruct (bit (bitmap_mem s) p) eqn:Hb; simpl.
  2:{ apply wp_ret, HQ; [done|done|]. intros q Hq.
      destruct (Z.eqb_spec q p) as [->|]; [|done]. rewrite Hb. by destruct (_ <? _). }
  wp_step. apply wp_bitmap_clear; [done|lia|]. wp_step. simpl.
  pose proof (free_bits_lt (bitmap_mem s) (total_pages s) p ltac:(lia) Hb).
  pose proof (free_bits_bounds (bitmap_mem s) (total_pages s)).
  rewrite u64_id by lia. apply HQ; try done.
  - eapply (pmm_inv_update s); simpl; try done.
    + by apply bytes_ok_clear_bit.
    + apply length_clear_bit.
    + rewrite Hf. symmetry. apply free_bits_clear; [lia|lia|done].
  - intros q Hq. simpl. rewrite bit_clear_bit by lia.
    destruct (Z.eqb_spec q p) as [->|]; [|done].
    destruct (Z.ltb_spec p (total_pages s)); [done|lia].
Qed.

Lemma stats_inv t s : pmm_inv s -> pmm_inv (set_stats t s).
Proof. intros []. by constructor. Qed.

Lemma pmm_alloc_contiguous_wp s n :
  pmm_inv s -> 1 < n < 2 ^ 64 ->
  wp (pmm_alloc_contiguous n) (fun r s' =>
    (r = NULL /\ s' = s /\
       forall t, 0 <= t -> t + n <= total_pages s -> ~ run_free (bitmap_mem s) t n) \/
    (exists p, r = page_addr s p /\ 0 <= p /\ p + n <= total_pages s /\
       run_free (bitmap_mem s) p n /\
       (forall t, 0 <= t < p -> ~ run_free (bitmap_mem s) t n) /\
       pmm_inv s' /\ same_layout s s' /\ range_changed s s' p n true /\
       free_pages s' = free_pages s - n)) s.
Proof.
  intros Hinv Hn. unfold pmm_alloc_contiguous.
  rewrite (proj2 (Z.eqb_neq n 0)), (proj2 (Z.eqb_neq n 1)) by lia.
  wp_step. wp_use find_free_contiguous_wp; [done|lia|].
  intros p s1 (-> & [[-> Hno]|(_ & Hp & Hpn & Hrun & Hfirst)]).
  { apply wp_ret. left. split_and!; [done|done|]. intros. apply Hno; lia. }
  pose proof Hinv as [_ _ Ht _ _ _ _].
  rewrite (proj2 (Z.eqb_neq p UINT64_MAX)) by (unfold UINT64_MAX; lia).
  wp_step.
  wp_use (wp_for_each (fun i _ s' => pmm_inv s' /\ same_layout s s' /\
    range_changed s s' p i true /\ free_pages s' = free_pages s - i)).
  - split_and!; [done|done| |lia]. intros q _. unfold in_range.
    destruct (_ && _) eqn:E; [lia|done].
  - intros i _ s0 Hi (Hi0 & Hl0 & Hr0 & Hf0). rewrite u64_id by lia.
    pose proof Hl0 as (_ & Et & _).
    apply mark_page_wp; [done| |].
    + split; [lia|]. rewrite Hr0 by lia. rewrite Hrun by lia.
      unfold in_range. destruct (_ && _) eqn:E; [lia|done].
    + intros s2 Hi2 Hl2 Hb2 Hf2. split_and!; [done| |  |lia].
      { by eapply same_layout_trans. }
      intros q Hq. rewrite Hb2, Hr0, in_range_succ by lia.
      destruct (in_range p i q), (q =? p + i); done.
  - intros _ s0 (Hi0 & Hl0 & Hr0 & Hf0). wp_steps. right. exists p.
    rewrite Z.max_r in * by lia. pose proof Hl0 as (_ & _ & Eo & _). simpl.
    split_and!; try done; [|apply stats_inv; done].
    rewrite Eo. apply page_addr_eq; [done|lia].
Qed.

Lemma pmm_free_contiguous_wp s a n :
  pmm_inv s -> 0 <= n < 2 ^ 52 ->
  wp (pmm_free_contiguous a n) (fun _ s' =>
    if (a =? NULL) || (n =? 0) then s' = s
    else pmm_inv s' /\ same_layout s s' /\
      forall q, 0 <= q < total_pages s ->
        bit (bitmap_mem s') q =
        if in_range (addr_index s a) n q then false else bit (bitmap_mem s) q) s.
Proof.
  intros Hinv Hn. unfold pmm_free_contiguous.
  destruct (_ || _); [by apply wp_ret|]. wp_steps.
  fold (addr_index s a). pose proof (addr_index_nonneg s a) as Hp0.
  assert (Hp1 : addr_index s a < 2 ^ 52).
  { unfold addr_index, u64, PAGE_SIZE.
    pose proof (Z.mod_pos_bound (a - hhdm_offset s) (2 ^ 64)). dlia. }
  set (p := addr_index s a) in *. clearbody p.
  wp_use (wp_for_each (fun i _ s' => pmm_inv s' /\ same_layout s s' /\
    forall q, 0 <= q < total_pages s -> bit (bitmap_mem s') q =
        if in_range p i q then false else bit (bitmap_mem s) q)).
  - split_and!; [done|done|]. intros q _. unfold in_range.
    destruct (_ && _) eqn:E; [lia|done].
  - intros i _ s0 Hi (Hi0 & Hl0 & Hb0). rewrite u64_id by lia.
    pose proof Hl0 as (_ & Et & _).
    apply release_page_wp; [done|done|lia|]. intros s2 Hi2 Hl2 Hb2.
    split_and!; [done|by eapply same_layout_trans|]. intros q Hq.
    rewrite Hb2, Hb0, in_range_succ, Et by lia.
    destruct (Z.ltb_spec q (total_pages s)); [|lia].
    destruct (in_range p i q), (q =? p + i); done.
  - intros _ s0 (Hi0 & Hl0 & Hb0). wp_step. rewrite Z.max_r in * by lia.
    split_and!; [by apply stats_inv|done|done].
Qed.

Lemma pmm_validate_wp s :
  bitmap_ptr s <> NULL -> 0 <= total_pages s < 2 ^ 64 ->
  total_pages s <= nbits (bitmap_mem s) ->
  wp pmm_validate (fun r s' => s' = s /\
    r = (free_bits (bitmap_mem s) (total_pages s) =? free_pages s)) s.
Proof.
  intros Hptr Ht Hroom. unfold pmm_validate. wp_step. wp_step.
  rewrite (proj2 (Z.eqb_neq _ _) Hptr). wp_steps.
  wp_use (wp_for_each (fun i n s' => s' = s /\ n = free_bits (bitmap_mem s) i)).
  - done.
  - intros i n s0 Hi [-> ->]. wp_step. apply wp_bitmap_test; [done|lia|]. wp_step.
    split; [done|]. unfold free_bits. rewrite count_succ by lia.
    pose proof (free_bits_bounds (bitmap_mem s) i). unfold free_bits in *.
    destruct (bit (bitmap_mem s) i); simpl; [lia|]. apply u64_id. lia.
  - intros n s0 [-> ->]. wp_steps. split; [done|]. by rewrite Z.max_r by lia.
Qed.

(** Any request for a number of pages, in one statement. *)
Lemma pmm_alloc_any_wp s n :
  pmm_inv s -> 0 <= n < 2 ^ 64 ->
  wp (pmm_alloc_contiguous n) (fun r s' =>
    (r = NULL /\ s' = s) \/
    (exists p, r = page_addr s p /\ 0 < n /\ 0 <= p /\ p + n <= total_pages s /\
       run_free (bitmap_mem s) p n /\ pmm_inv s' /\ same_layout s s' /\
       range_changed s s' p n true /\ free_pages s' = free_pages s - n)) s.
Proof.
  intros Hinv Hn. destruct (decide (n = 0)) as [->|]; [left; done|].
  destruct (decide (n = 1)) as [->|].
  - unfold pmm_alloc_contiguous. simpl. wp_use pmm_alloc_wp; [done|].
    intros r s'. destruct (find_free_ref s) as [p|]; [|by left].
    intros (-> & [Hp Hb] & Hi & Hl & Hc & Hf). right. exists p.
    split_and!; try done; try lia.
    + intros q Hq. by replace q with p by lia.
    + intros q Hq. rewrite Hc by done. unfold in_range.
      destruct (Z.eqb_spec q p), (Z.leb_spec p q), (Z.ltb_spec q (p + 1)); lia || done.
  - wp_use pmm_alloc_contiguous_wp; [done|lia|].
    intros r s' [(-> & -> & _)|(p & -> & Hp & Hpn & Hrun & _ & Hi & Hl & Hc & Hf)];
      [by left|]. right. exists p. split_and!; try done; lia.
Qed.
