(* ===== verification/PmmInit.v ===== *)
(** * Initialisation of the physical memory manager

    [pmm_init] builds the bitmap from the boot loader's memory map.  For a
    well-formed map whose page count is a multiple of eight it establishes
    [pmm_inv] with exactly the whole pages inside usable regions free, none of
    which overlaps the storage of the bitmap itself.  When the page count is
    not a multiple of eight the adjustment of the last bitmap byte is inverted:
    it marks the tracked pages of that byte free and the untracked ones used. *)

From stdpp Require Import base numbers list list_numbers.
From S2P Require Import Prelude Bitmap Pmm PmmFacts.

(** ** Page alignment *)

Lemma page_mask_bit k :
  0 <= k -> Z.testbit (u64 (Z.lnot (PAGE_SIZE - 1))) k = (12 <=? k) && (k <? 64).
Proof.
  intros Hk. unfold u64, PAGE_SIZE. change (4096 - 1) with (Z.ones 12).
  destruct (Z.ltb_spec k 64).
  - rewrite Z.mod_pow2_bits_low, Z.lnot_spec by lia.
    destruct (Z.leb_spec 12 k).
    + by rewrite Z.ones_spec_high by lia.
    + by rewrite Z.ones_spec_low by lia.
  - rewrite Z.mod_pow2_bits_high, andb_false_r by lia. done.
Qed.

Lemma page_align_down_eq x :
  0 <= x < 2 ^ 64 -> page_align_down x = PAGE_SIZE * (x / PAGE_SIZE).
Proof.
  intros Hx. unfold page_align_down. rewrite Z.mul_comm.
  change PAGE_SIZE with (2 ^ 12) at 2 3. rewrite <- Z.shiftr_div_pow2 by lia.
  rewrite <- Z.shiftl_mul_pow2 by lia.
  apply Z.bits_inj'. intros k Hk. rewrite Z.land_spec, page_mask_bit by done.
  rewrite Z.shiftl_spec by done. destruct (Z.leb_spec 12 k).
  - rewrite Z.shiftr_spec by lia. replace (k - 12 + 12) with k by lia.
    destruct (Z.ltb_spec k 64); [apply andb_true_r|].
    rewrite (bits_above x 64) by lia. done.
  - rewrite (Z.testbit_neg_r _ (k - 12)) by lia. apply andb_false_r.
Qed.

Lemma page_align_up_eq x :
  0 <= x -> x + PAGE_SIZE <= 2 ^ 64 - 1 ->
  page_align_up x = PAGE_SIZE * ((x + PAGE_SIZE - 1) / PAGE_SIZE).
Proof.
  intros Hx Hx'. unfold page_align_up, PAGE_SIZE in *.
  rewrite (u64_id (x + 4096)), u64_id by lia.
  rewrite page_align_down_eq by lia. done.
Qed.

(** ** Regions of the memory map *)

(** The page lies entirely inside the region. *)
Definition page_in (e : memmap_entry) (p : Z) : Prop :=
  e_base e <= PAGE_SIZE * p /\ PAGE_SIZE * (p + 1) <= e_base e + e_length e.

Definition entry_wf (e : memmap_entry) : Prop :=
  0 <= e_base e /\ 0 <= e_length e /\ e_base e + e_length e + PAGE_SIZE < 2 ^ 64.

Definition usable (e : memmap_entry) : bool := e_type e =? LIMINE_MEMMAP_USABLE.

Definition regions_apart (e1 e2 : memmap_entry) : Prop :=
  e_base e1 + e_length e1 <= e_base e2 \/ e_base e2 + e_length e2 <= e_base e1.

(** Usable regions do not overlap. *)
Fixpoint usable_disjoint (es : list memmap_entry) : Prop :=
  match es with
  | [] => True
  | e :: es' =>
      (usable e = true ->
         Forall (fun e' => usable e' = true -> regions_apart e e') es') /\
      usable_disjoint es'
  end.

Definition memmap_wf (es : list memmap_entry) : Prop :=
  Forall entry_wf es /\ usable_disjoint es.

Lemma entry_pages_spec e :
  entry_wf e ->
  exists b n, entry_pages e = (b, n) /\ 0 <= b < 2 ^ 52 /\ 0 <= n < 2 ^ 52 /\
    forall p, 0 <= p -> in_range b n p = true <-> page_in e p.
Proof.
  intros (Hb & Hl & Hs). unfold PAGE_SIZE in Hs. unfold entry_pages, page_in.
  rewrite page_align_up_eq, (u64_id (_ + _)), page_align_down_eq
    by (unfold PAGE_SIZE; lia).
  unfold PAGE_SIZE, in_range. set (x := e_base e) in *. set (y := x + e_length e) in *.
  assert (0 <= y) by lia.
  destruct (Z.ltb_spec (4096 * ((x + 4096 - 1) / 4096)) (4096 * (y / 4096))).
  - eexists _, _. split; [done|]. split; [dlia|]. split; [dlia|]. intros p Hp. split.
    + intros E. apply andb_true_iff in E. destruct E as [E1 E2].
      apply Z.leb_le in E1. apply Z.ltb_lt in E2. dlia.
    + intros []. apply andb_true_iff. split; [apply Z.leb_le|apply Z.ltb_lt]; dlia.
  - exists 0, 0. split; [done|]. split; [lia|]. split; [lia|]. intros p Hp. split.
    + intros E. apply andb_true_iff in E. lia.
    + intros []. exfalso. dlia.
Qed.

Lemma page_in_disjoint e1 e2 p :
  regions_apart e1 e2 -> page_in e1 p -> page_in e2 p -> False.
Proof. unfold regions_apart, page_in, PAGE_SIZE. intros. lia. Qed.

(** ** Marking the usable pages *)

Definition same_base (s s' : pmm) : Prop :=
  bitmap_ptr s' = bitmap_ptr s /\ total_pages s' = total_pages s /\
  hhdm_offset s' = hhdm_offset s /\ saved_memmap s' = saved_memmap s /\
  bitmap_size s' = bitmap_size s.

Lemma same_base_trans s1 s2 s3 :
  same_base s1 s2 -> same_base s2 s3 -> same_base s1 s3.
Proof. unfold same_base. intuition congruence. Qed.

(** The state of [pmm_init] between two entries. *)
Definition init_inv (s : pmm) : Prop := pmm_inv s /\ usable_pages s = free_pages s.

(** The pages freed on the way from [s] to [s'] are those of [P]. *)
Definition freed (P : Z -> Prop) (s s' : pmm) : Prop :=
  init_inv s' /\ same_base s s' /\
  forall q, 0 <= q < total_pages s ->
    bit (bitmap_mem s') q = false <-> bit (bitmap_mem s) q = false \/ P q.

Lemma clear_usable_page_wp s p :
  init_inv s -> page_used s p ->
  wp (bitmap_clear p ;;;
      modify (fun s => set_free_pages (u64 (free_pages s + 1)) s) ;;;
      modify (fun s => set_usable_pages (u64 (usable_pages s + 1)) s))
     (fun _ => freed (fun q => q = p) s) s.
Proof.
  intros [Hinv Hu] [Hp Hb]. pose proof Hinv as [Hptr Hok Ht Hr Hh Hf Ho].
  pose proof (room_total s Hinv).
  wp_step. apply wp_bitmap_clear; [done|lia|]. wp_steps. simpl.
  pose proof (free_bits_lt (bitmap_mem s) (total_pages s) p ltac:(lia) Hb).
  pose proof (free_bits_bounds (bitmap_mem s) (total_pages s)).
  unfold freed, init_inv. simpl. rewrite Hu, !u64_id by lia.
  split; [split; [|done]|split; [done|]].
  - constructor; simpl; try done.
    + by apply bytes_ok_clear_bit.
    + by rewrite nbits_clear_bit.
    + rewrite Hf. symmetry. by apply free_bits_clear.
  - intros q Hq. rewrite bit_clear_bit by lia.
    destruct (Z.eqb_spec q p) as [->|]; naive_solver.
Qed.

Lemma mark_usable_wp s e :
  init_inv s -> entry_wf e ->
  (usable e = true -> forall p, 0 <= p -> page_in e p -> page_used s p) ->
  wp (mark_usable e) (fun _ => freed (fun q => usable e = true /\ page_in e q) s) s.
Proof.
  intros Hinv Hwf Hused. unfold mark_usable. fold (usable e).
  destruct (usable e) eqn:Hu.
  2:{ apply wp_ret. split_and!; [done|done|]. naive_solver. }
  destruct (entry_pages_spec e Hwf) as (b & n & -> & Hb & Hn & Hin).
  specialize (Hused eq_refl).
  wp_step. wp_use (wp_for_each (fun j _ => freed (fun q => in_range b j q = true) s)).
  - split_and!; [done|done|]. intros q _. unfold in_range. split; [by left|].
    intros [|E]; [done|]. apply andb_true_iff in E. lia.
  - intros j _ s0 Hj (Hi0 & Hl0 & Hb0). rewrite u64_id by lia.
    assert (Hp : page_used s (b + j)).
    { apply Hused; [lia|]. apply Hin; [lia|]. unfold in_range.
      apply andb_true_iff. split; [apply Z.leb_le|apply Z.ltb_lt]; lia. }
    pose proof Hp as [Hp1 Hp2]. pose proof Hl0 as (_ & Et & _).
    wp_step. wp_step. rewrite Et. destruct (Z.ltb_spec (b + j) (total_pages s)); [|lia].
    wp_use clear_usable_page_wp; [done| |].
    { split; [lia|]. apply not_false_iff_true. rewrite Hb0 by lia.
      intros [|E]; [congruence|]. unfold in_range in E. lia. }
    intros _ s1 (Hi1 & Hl1 & Hb1). split_and!; [done|by eapply same_base_trans|].
    intros q Hq. rewrite Hb1, Hb0, in_range_succ by lia.
    rewrite orb_true_iff, Z.eqb_eq. naive_solver.
  - intros _ s0 (Hi0 & Hl0 & Hb0). wp_step. split_and!; [done|done|].
    intros q Hq. rewrite Hb0, Z.max_r, Hin by lia. naive_solver.
Qed.

(** Some usable region of the list contains page [q]. *)
Definition usable_page (es : list memmap_entry) (q : Z) : Prop :=
  Exists (fun e => usable e = true /\ page_in e q) es.

Lemma mark_all_wp s es :
  init_inv s -> Forall entry_wf es -> usable_disjoint es ->
  (forall p, 0 <= p -> usable_page es p -> page_used s p) ->
  wp (for_entries es mark_usable) (fun _ => freed (usable_page es) s) s.
Proof.
  intros Hinv. revert s Hinv. induction es as [|e es IH]; intros s Hinv Hwf Hdis Hused.
  { apply wp_ret. split_and!; [done|done|]. intros q _. split; [by left|].
    intros [|H]; [done|]. by apply Exists_nil in H. }
  simpl. inversion Hwf as [|?? Hwe Hwes]; subst. destruct Hdis as [Hd1 Hd2].
  wp_step. wp_use mark_usable_wp; [done|done| |].
  { intros Hu p Hp Hpi. apply Hused; [done|]. by left. }
  intros _ s1 (Hi1 & Hl1 & Hb1). wp_use IH; [done|done|done| |].
  { intros p Hp Hup. destruct (Hused p Hp) as [Hp1 Hp2]; [by right|].
    pose proof Hl1 as (_ & Et & _). split; [lia|]. apply not_false_iff_true.
    rewrite Hb1 by lia. intros [|[Hu Hpe]]; [congruence|].
    unfold usable_page in Hup. rewrite Exists_exists in Hup.
    destruct Hup as (e' & Hin & Hu' & Hpe').
    specialize (Hd1 Hu). rewrite Forall_forall in Hd1.
    eapply page_in_disjoint; [by apply Hd1|done|done]. }
  intros _ s2 (Hi2 & Hl2 & Hb2). split_and!; [done|by eapply same_base_trans|].
  pose proof Hl1 as (_ & Et & _). intros q Hq. rewrite Hb2, Hb1 by lia.
  unfold usable_page. rewrite Exists_cons. naive_solver.
Qed.

(** ** The survey of the memory map *)

(** The end of the highest region the allocator may hand out. *)
Definition tracked (e : memmap_entry) : bool :=
  usable e || (e_type e =? LIMINE_MEMMAP_BOOTLOADER_RECLAIMABLE).

Fixpoint memmap_top (es : list memmap_entry) : Z :=
  match es with
  | [] => 0
  | e :: es' =>
      if tracked e then Z.max (e_base e + e_length e) (memmap_top es')
      else memmap_top es'
  end.

Arguments survey_entry : simpl never.

Lemma survey_entry_fst h t e :
  entry_wf e -> 0 <= h ->
  fst (survey_entry (h, t) e) =
  if tracked e then Z.max h (e_base e + e_length e) else h.
Proof.
  intros (Hb & Hl & Hs) Hh. unfold PAGE_SIZE in Hs.
  unfold survey_entry. rewrite (u64_id (UINT64_MAX - _)) by (unfold UINT64_MAX; lia).
  destruct (Z.ltb_spec (UINT64_MAX - e_length e) (e_base e)) as [Hlt|_];
    [unfold UINT64_MAX in Hlt; lia|].
  rewrite (u64_id (e_base e + e_length e)) by lia.
  unfold tracked. fold (usable e). destruct (usable e); simpl.
  { destruct (Z.ltb_spec h (e_base e + e_length e)); lia. }
  destruct (_ =? LIMINE_MEMMAP_BOOTLOADER_RECLAIMABLE); simpl.
  { destruct (Z.ltb_spec h (e_base e + e_length e)); lia. }
  destruct (_ || _); [destruct (_ <? _)|]; done.
Qed.

Lemma survey_fst es h t :
  Forall entry_wf es -> 0 <= h ->
  fst (fold_left survey_entry es (h, t)) = Z.max h (memmap_top es).
Proof.
  revert h t. induction es as [|e es IH]; intros h t Hwf Hh; simpl; [lia|].
  inversion Hwf as [|?? He Hes]; subst.
  pose proof (survey_entry_fst h t e He Hh) as E.
  destruct (survey_entry (h, t) e) as [h' t']. simpl in E. subst h'.
  destruct He as (? & ? & _). rewrite IH by (destruct (tracked e); lia || done).
  destruct (tracked e); lia.
Qed.

Lemma memmap_top_bounds es :
  Forall entry_wf es -> 0 <= memmap_top es < 2 ^ 64.
Proof.
  induction 1 as [|e es (Hb & Hl & Hs) _ IH]; simpl; [lia|].
  unfold PAGE_SIZE in Hs. destruct (tracked e); lia.
Qed.

Lemma memmap_top_page es p :
  usable_page es p -> PAGE_SIZE * (p + 1) <= memmap_top es.
Proof.
  intros H. induction H as [e es [Hu [H1 H2]]|e es _ IH]; simpl.
  - unfold tracked. rewrite Hu. simpl. lia.
  - destruct (tracked e); lia.
Qed.

(** ** Placing the bitmap *)

Lemma place_bitmap_apart size off es ptr es' e0 :
  place_bitmap size off es = (ptr, es') -> 0 <= size -> Forall entry_wf es ->
  Forall (fun e => usable e = true -> regions_apart e0 e) es ->
  Forall (fun e => usable e = true -> regions_apart e0 e) es'.
Proof.
  revert ptr es'. induction es as [|e es IH]; simpl; intros ptr es' E Hs Hwf H.
  { by injection E as <- <-. }
  inversion H as [|?? He Hes]; subst. inversion Hwf as [|?? (Wb & Wl & Ws) Wes]; subst.
  unfold PAGE_SIZE in Ws. destruct (_ && _) eqn:C.
  - injection E as <- <-. apply andb_true_iff in C. destruct C as [C1 C2].
    apply Z.leb_le in C2. constructor; [|done]. intros _.
    specialize (He C1). unfold regions_apart in *. simpl.
    rewrite !u64_id by lia. lia.
  - destruct (place_bitmap size off es) as [p es1] eqn:E1.
    injection E as <- <-. constructor; [done|]. by eapply IH.
Qed.

Lemma place_bitmap_wf size off es ptr es' :
  place_bitmap size off es = (ptr, es') -> 0 <= size ->
  memmap_wf es -> memmap_wf es'.
Proof.
  intros E Hs [Hwf Hdis]. revert ptr es' E Hwf Hdis.
  induction es as [|e es IH]; simpl; intros ptr es' E Hwf Hdis.
  { by injection E as <- <-. }
  inversion Hwf as [|?? We Wes]; subst. pose proof We as (Wb & Wl & Ws).
  unfold PAGE_SIZE in Ws. destruct Hdis as [Hd1 Hd2]. destruct (_ && _) eqn:C.
  - injection E as <- <-. apply andb_true_iff in C. destruct C as [C1 C2].
    apply Z.leb_le in C2. specialize (Hd1 C1). split.
    + constructor; [|done]. unfold entry_wf, PAGE_SIZE. simpl.
      rewrite !u64_id by lia. lia.
    + split; [|done]. intros _. eapply Forall_impl; [exact Hd1|].
      intros e' He' Hu. specialize (He' Hu). unfold regions_apart in *. simpl.
      rewrite !u64_id by lia. lia.
  - destruct (place_bitmap size off es) as [p es1] eqn:E1.
    injection E as <- <-. destruct (IH _ _ eq_refl Wes Hd2) as [IH1 IH2]. split.
    + by constructor.
    + split; [|done]. intros Hu. eapply place_bitmap_apart; [done|done|done|by apply Hd1].
Qed.

(** The bitmap lies in a usable region; the pages usable afterwards were usable
    before and avoid the storage of the bitmap. *)
Lemma place_bitmap_region size off es ptr es' :
  place_bitmap size off es = (ptr, es') -> 0 <= size -> memmap_wf es ->
  ptr <> NULL ->
  exists e0, ptr = u64 (e_base e0 + off) /\ e0 ∈ es /\ usable e0 = true /\
    size <= e_length e0 /\
    forall q, usable_page es' q -> usable_page es q /\
      (PAGE_SIZE * (q + 1) <= e_base e0 \/ e_base e0 + size <= PAGE_SIZE * q).
Proof.
  intros E Hs [Hwf Hdis] Hnull. revert ptr es' E Hnull Hwf Hdis.
  induction es as [|e es IH]; simpl; intros ptr es' E Hnull Hwf Hdis.
  { by injection E as <- <-. }
  inversion Hwf as [|?? (Wb & Wl & Ws) Wes]; subst.
  unfold PAGE_SIZE in Ws. destruct Hdis as [Hd1 Hd2]. destruct (_ && _) eqn:C.
  - injection E as <- <-. apply andb_true_iff in C. destruct C as [C1 C2].
    apply Z.leb_le in C2. specialize (Hd1 C1). exists e.
    split_and!; [done|left|done|done|].
    intros q Hq. apply Exists_cons in Hq. destruct Hq as [[_ Hq]|Hq].
    + unfold page_in in Hq. simpl in Hq. rewrite !u64_id in Hq by lia. split; [|lia].
      left. split; [done|]. unfold page_in. lia.
    + split; [by right|]. apply Exists_exists in Hq.
      destruct Hq as (e' & Hin & Hu & [Hp1 Hp2]).
      rewrite Forall_forall in Hd1. specialize (Hd1 e' Hin Hu).
      unfold regions_apart in Hd1. lia.
  - destruct (place_bitmap size off es) as [p es1] eqn:E1. injection E as <- <-.
    destruct (IH _ _ eq_refl Hnull Wes Hd2) as (e0 & E & Hin & Hu0 & Hl & Hq).
    exists e0. split_and!; [done|by right|done|done|].
    intros q Hpq. apply Exists_cons in Hpq. destruct Hpq as [[Hu [Hp1 Hp2]]|Hpq].
    + split; [by left|]. specialize (Hd1 Hu). rewrite Forall_forall in Hd1.
      specialize (Hd1 e0 Hin Hu0). unfold regions_apart in Hd1. lia.
    + destruct (Hq q Hpq). split; [by right|done].
Qed.

Lemma memmap_top_In es e :
  e ∈ es -> usable e = true -> e_base e + e_length e <= memmap_top es.
Proof.
  intros Hin Hu. induction es as [|e' es IH]; [by apply not_elem_of_nil in Hin|].
  simpl. apply elem_of_cons in Hin. destruct Hin as [->|Hin].
  - unfold tracked. rewrite Hu. simpl. lia.
  - specialize (IH Hin). destruct (tracked e'); lia.
Qed.

(** ** The initial bitmap *)

Lemma initial_bits_ok size total mem :
  total mod 8 = 0 -> 0 <= total -> size = total / 8 ->
  bytes_ok mem -> total <= nbits mem ->
  exists m, initial_bits size total mem = Ok m /\ length m = length mem /\
    bytes_ok m /\ forall p, 0 <= p < total -> bit m p = true.
Proof.
  intros Hmod Ht -> Hok Hn. unfold nbits in Hn. unfold initial_bits.
  destruct (Z.ltb_spec (Z.of_nat (length mem)) (total / 8)); [dlia|].
  rewrite Hmod. simpl. eexists. split; [done|]. split_and!.
  - rewrite length_app, length_replicate, length_drop. lia.
  - apply Forall_app. split.
    + apply Forall_replicate. unfold byte_ok. lia.
    + by apply Forall_drop.
  - intros p Hp. unfold bit. rewrite lookup_app_l by (rewrite length_replicate; dlia).
    rewrite lookup_replicate_2 by dlia. change 255 with (Z.ones 8).
    apply Z.ones_spec_low. dlia.
Qed.

(** ** What [pmm_init] establishes *)

Record boot_ok (ram : Z -> list Z) (es : list memmap_entry) (off : Z)
    (ptr : Z) (es' : list memmap_entry) : Prop := BootOk {
  boot_map : memmap_wf es;
  boot_off : 0 < off /\ off + memmap_top es <= 2 ^ 64 /\ off mod PAGE_SIZE = 0;
  boot_multiple : (memmap_top es / PAGE_SIZE) mod 8 = 0;
  boot_place : place_bitmap (memmap_top es / PAGE_SIZE / 8) off es = (ptr, es');
  boot_ptr : ptr <> NULL;
  boot_bytes : bytes_ok (ram ptr);
  boot_room : 64 * ((memmap_top es / PAGE_SIZE + 63) / 64) <= nbits (ram ptr)
}.

Lemma pmm_init_wp ram es off ptr es' :
  boot_ok ram es off ptr es' ->
  wp (pmm_init ram (Some es) (Some off)) (fun _ s =>
    init_inv s /\ total_pages s = memmap_top es / PAGE_SIZE /\
    bitmap_ptr s = ptr /\ hhdm_offset s = off /\ saved_memmap s = Some es' /\
    bitmap_size s = memmap_top es / PAGE_SIZE / 8 /\
    forall p, page_free s p <-> 0 <= p /\ usable_page es' p) pmm_start.
Proof.
  intros [Hmap Hoff Hmul Hpl Hptr Hbytes Hroom].
  pose proof Hmap as [Hwf Hdis]. pose proof (memmap_top_bounds es Hwf) as Htop.
  unfold pmm_init. wp_step. wp_step.
  pose proof (survey_fst es 0 (Stats 0 0 0 0 0 0 0 0 0 0 0) Hwf ltac:(lia)) as Hs.
  simpl. destruct (fold_left survey_entry es _) as [h t]. simpl in Hs. subst h.
  rewrite Z.max_r by lia. set (T := memmap_top es / PAGE_SIZE) in *.
  assert (HT : 0 <= T < 2 ^ 52) by (unfold T, PAGE_SIZE; dlia).
  assert (Hsz : u64 (T + 7) / 8 = T / 8) by (rewrite u64_id by lia; dlia).
  rewrite Hsz, Hpl. wp_steps.
  rewrite (proj2 (Z.eqb_neq _ _) Hptr). wp_step.
  destruct (initial_bits_ok (T / 8) T (ram ptr)) as (m & Hm & Hlen & Hok & Hbit);
    [done|lia|done|done|dlia|].
  eapply wp_lift; [done|]. wp_steps. simpl.
  match goal with |- wp _ _ ?st => set (s0 := st) end.
  assert (Hnb : nbits m = nbits (ram ptr)) by (unfold nbits; by rewrite Hlen).
  assert (H0 : init_inv s0).
  { split; [|done]. constructor; simpl; [done|done|done|by rewrite Hnb|lia| |].
    - unfold free_bits. symmetry. apply count_none. intros i Hi. by rewrite Hbit.
    - destruct Hoff as (? & ? & ?). split_and!; [done| |done].
      unfold T, PAGE_SIZE. dlia. }
  pose proof (place_bitmap_wf _ _ _ _ _ Hpl ltac:(dlia) Hmap) as [Hwf' Hdis'].
  destruct (place_bitmap_region _ _ _ _ _ Hpl ltac:(dlia) Hmap Hptr)
    as (e0 & Hpe & Hin & Hu & Hl & Hreg).
  assert (Hlt : forall p, usable_page es' p -> p < T).
  { intros p Hp. apply Hreg in Hp. destruct Hp as [Hp _].
    apply memmap_top_page in Hp. unfold T, PAGE_SIZE in *. dlia. }
  wp_use (mark_all_wp s0 es'); [done|done|done| |].
  { intros p Hp Hup. specialize (Hlt p Hup). split; [done|]. apply Hbit. lia. }
  intros _ s1 ([Hi1 Hu1] & (Ep & Et & Eo & Em & Es) & Hb1). wp_step.
  split_and!; try done; [split; [by apply stats_inv|done]|].
  unfold page_free. simpl. rewrite Et. intros p. split.
  - intros [Hp Hb]. split; [lia|]. apply Hb1 in Hb; [|done].
    destruct Hb as [Hb|]; [|done]. simpl in Hb. rewrite Hbit in Hb by done. done.
  - intros [Hp Hup]. specialize (Hlt p Hup). split; [done|]. apply Hb1; [done|by right].
Qed.

(** ** Reclaiming boot-loader memory *)

Definition reclaimable (e : memmap_entry) : bool :=
  e_type e =? LIMINE_MEMMAP_BOOTLOADER_RECLAIMABLE.

Definition reclaimable_page (es : list memmap_entry) (q : Z) : Prop :=
  Exists (fun e => reclaimable e = true /\ page_in e q) es.

(** The pages freed on the way from [s] to [s'] are those of [P]; the usable
    count is not constrained. *)
Definition released (P : Z -> Prop) (s s' : pmm) : Prop :=
  pmm_inv s' /\ same_base s s' /\
  forall q, 0 <= q < total_pages s ->
    bit (bitmap_mem s') q = false <-> bit (bitmap_mem s) q = false \/ P q.

Lemma usable_count_inv n s : pmm_inv s -> pmm_inv (set_usable_pages n s).
Proof. intros []. by constructor. Qed.

Lemma reclaim_page_wp s p :
  pmm_inv s -> 0 <= p ->
  wp (tp <- gets total_pages ;;
      if p <? tp then
        t <- bitmap_test p ;;
        if t then
          bitmap_clear p ;;;
          modify (fun s => set_free_pages (u64 (free_pages s + 1)) s) ;;;
          modify (fun s => set_usable_pages (u64 (usable_pages s + 1)) s)
        else ret tt
      else ret tt) (fun _ => released (fun q => q = p) s) s.
Proof.
  intros Hinv Hp. pose proof Hinv as [Hptr Hok Ht Hr Hh Hf Ho].
  pose proof (room_total s Hinv). wp_step. wp_step.
  destruct (Z.ltb_spec p (total_pages s)).
  2:{ wp_step. split_and!; [done|done|]. intros q Hq. split; [by left|].
      intros [Hq'|Hq']; [done|lia]. }
  wp_step. apply wp_bitmap_test; [done|lia|].
  destruct (bit (bitmap_mem s) p) eqn:Hb.
  2:{ wp_step. split_and!; [done|done|]. intros q Hq. split; [by left|].
      intros [Hq'|Hq']; [done|]. by subst q. }
  wp_step. apply wp_bitmap_clear; [done|lia|]. wp_steps.
  pose proof (free_bits_lt (bitmap_mem s) (total_pages s) p ltac:(lia) Hb).
  pose proof (free_bits_bounds (bitmap_mem s) (total_pages s)).
  split_and!; [apply usable_count_inv| done |].
  - eapply (pmm_inv_update s); simpl; try done.
    + by apply bytes_ok_clear_bit.
    + apply length_clear_bit.
    + rewrite Hf, u64_id by lia. symmetry. apply free_bits_clear; [lia|lia|done].
  - intros q Hq. simpl. rewrite bit_clear_bit by lia.
    destruct (Z.eqb_spec q p) as [->|]; naive_solver.
Qed.

Lemma reclaim_entry_wp s e :
  pmm_inv s -> entry_wf e ->
  wp (reclaim_entry e) (fun _ => released (fun q => reclaimable e = true /\ page_in e q) s) s.
Proof.
  intros Hinv Hwf. unfold reclaim_entry. fold (reclaimable e).
  destruct (reclaimable e) eqn:Hu.
  2:{ wp_step. split_and!; [done|done|]. naive_solver. }
  destruct (entry_pages_spec e Hwf) as (b & n & -> & Hb & Hn & Hin).
  wp_step. wp_use (wp_for_each (fun j _ => released (fun q => in_range b j q = true) s)).
  - split_and!; [done|done|]. intros q _. unfold in_range. split; [by left|].
    intros [|E]; [done|]. apply andb_true_iff in E. lia.
  - intros j _ s0 Hj (Hi0 & Hl0 & Hb0). rewrite u64_id by lia.
    pose proof Hl0 as (_ & Et & _). wp_use reclaim_page_wp; [done|lia|].
    intros _ s1 (Hi1 & Hl1 & Hb1). split_and!; [done|by eapply same_base_trans|].
    intros q Hq. rewrite Hb1, Hb0, in_range_succ by lia.
    rewrite orb_true_iff, Z.eqb_eq. naive_solver.
  - intros _ s0 (Hi0 & Hl0 & Hb0). wp_step. split_and!; [done|done|].
    intros q Hq. rewrite Hb0, Z.max_r, Hin by lia. naive_solver.
Qed.

Lemma reclaim_all_wp s es :
  pmm_inv s -> Forall entry_wf es ->
  wp (for_entries es reclaim_entry) (fun _ => released (reclaimable_page es) s) s.
Proof.
  intros Hinv Hwf. revert s Hinv. induction Hwf as [|e es We Wes IH]; intros s Hinv; simpl.
  { wp_step. split_and!; [done|done|]. intros q _. split; [by left|].
    intros [|H]; [done|]. by apply Exists_nil in H. }
  wp_step. wp_use reclaim_entry_wp; [done|done|].
  intros _ s1 (Hi1 & Hl1 & Hb1). wp_use IH; [done|].
  intros _ s2 (Hi2 & Hl2 & Hb2). split_and!; [done|by eapply same_base_trans|].
  pose proof Hl1 as (_ & Et & _). intros q Hq. rewrite Hb2, Hb1 by lia.
  unfold reclaimable_page. rewrite Exists_cons. naive_solver.
Qed.
