(* ===== verification/PmmSpec.v ===== *)
(** * Specification of the physical memory manager

    The allocator seen by its clients is a finite set of free pages.  This
    file states the calls of the interface, the abstract transition system over
    [gset Z], the simulation theorem, and the safety of call sequences; then
    the properties of the single operations, each with a witness on a small
    machine booted by [pmm_init]. *)

From stdpp Require Import base numbers list list_numbers gmap.
From S2P Require Import Prelude Bitmap Pmm PmmFacts PmmInit.

(** ** Calls *)

Inductive pmm_call :=
  | CallAlloc
  | CallAllocN (n : Z)
  | CallFree (a : Z)
  | CallFreeN (a n : Z).

(** Argument ranges: [size_t] counts; a release of more pages than the machine
    can address is not considered. *)
Definition call_ok (c : pmm_call) : Prop :=
  match c with
  | CallAllocN n => 0 <= n < 2 ^ 64
  | CallFreeN _ n => 0 <= n < 2 ^ 52
  | _ => True
  end.

(** The address range granted by a call, if any. *)
Definition granted (a n : Z) : option (Z * Z) :=
  if a =? NULL then None else Some (a, n).

Definition run_call (c : pmm_call) : M pmm (option (Z * Z)) :=
  match c with
  | CallAlloc => a <- pmm_alloc ;; ret (granted a 1)
  | CallAllocN n => a <- pmm_alloc_contiguous n ;; ret (granted a n)
  | CallFree a => pmm_free a ;;; ret None
  | CallFreeN a n => pmm_free_contiguous a n ;;; ret None
  end.

Fixpoint run_calls (cs : list pmm_call) : M pmm (list (Z * Z)) :=
  match cs with
  | [] => ret []
  | c :: cs' =>
      g <- run_call c ;;
      gs <- run_calls cs' ;;
      ret (match g with Some x => x :: gs | None => gs end)
  end.

(** ** The abstract allocator *)

Definition range_set (p n : Z) : gset Z := list_to_set (seqZ p n).

Definition abs_free (s : pmm) : gset Z :=
  list_to_set (filter (fun p => bit (bitmap_mem s) p = false) (seqZ 0 (total_pages s))).

Inductive astep (total : Z) (index : Z -> Z) :
    gset Z -> pmm_call -> option (Z * Z) -> gset Z -> Prop :=
  | as_alloc F p : p ∈ F ->
      astep total index F CallAlloc (Some (p, 1)) (F ∖ {[p]})
  | as_alloc_none :
      astep total index ∅ CallAlloc None ∅
  | as_alloc_n F p n : 0 < n -> range_set p n ⊆ F ->
      astep total index F (CallAllocN n) (Some (p, n)) (F ∖ range_set p n)
  | as_alloc_n_none F n :
      (0 < n -> forall p, ~ range_set p n ⊆ F) ->
      astep total index F (CallAllocN n) None F
  | as_free F a : a <> NULL -> index a < total ->
      astep total index F (CallFree a) None (F ∪ {[index a]})
  | as_free_skip F a : a = NULL \/ total <= index a ->
      astep total index F (CallFree a) None F
  | as_free_n F a n : a <> NULL ->
      astep total index F (CallFreeN a n) None
        (F ∪ (range_set (index a) n ∩ range_set 0 total))
  | as_free_n_skip F n :
      astep total index F (CallFreeN NULL n) None F.

Lemma elem_of_range_set p n q : q ∈ range_set p n <-> p <= q < p + n.
Proof. unfold range_set. rewrite elem_of_list_to_set. apply elem_of_seqZ. Qed.

Lemma elem_of_abs_free s p : p ∈ abs_free s <-> page_free s p.
Proof.
  unfold abs_free, page_free.
  rewrite elem_of_list_to_set, list_elem_of_filter, elem_of_seqZ. split; intros; split; lia || tauto.
Qed.

Lemma in_range_true a n q : in_range a n q = true <-> a <= q < a + n.
Proof. unfold in_range. rewrite andb_true_iff, Z.leb_le, Z.ltb_lt. done. Qed.

Lemma abs_range_taken s s' p n :
  same_layout s s' -> range_changed s s' p n true ->
  abs_free s' = abs_free s ∖ range_set p n.
Proof.
  intros (_ & Et & _) Hc. apply set_eq. intros q.
  rewrite elem_of_difference, !elem_of_abs_free, elem_of_range_set. unfold page_free.
  rewrite Et. split.
  - intros [Hq Hb]. rewrite Hc in Hb by lia.
    destruct (in_range p n q) eqn:E; [done|]. split; [done|].
    intros H. apply in_range_true in H. congruence.
  - intros [[Hq Hb] Hn]. split; [done|]. rewrite Hc by lia.
    destruct (in_range p n q) eqn:E; [|done]. apply in_range_true in E. done.
Qed.

Lemma abs_bits_cleared (C : Z -> bool) s s' :
  same_layout s s' ->
  (forall q, 0 <= q < total_pages s ->
     bit (bitmap_mem s') q = if C q then false else bit (bitmap_mem s) q) ->
  forall q, q ∈ abs_free s' <->
    q ∈ abs_free s \/ (0 <= q < total_pages s /\ C q = true).
Proof.
  intros (_ & Et & _) Hc q. rewrite !elem_of_abs_free. unfold page_free. rewrite Et.
  split.
  - intros [Hq Hb]. rewrite Hc in Hb by done. destruct (C q); auto.
  - intros [[Hq Hb]|[Hq HC]]; (split; [done|]); rewrite Hc by done;
      destruct (C q); done.
Qed.

Definition to_addr (s : pmm) (r : option (Z * Z)) : option (Z * Z) :=
  match r with Some (p, n) => Some (page_addr s p, n) | None => None end.

Lemma granted_addr s p n :
  pmm_inv s -> 0 <= p -> granted (page_addr s p) n = Some (page_addr s p, n).
Proof.
  intros Hinv Hp. unfold granted.
  by rewrite (proj2 (Z.eqb_neq _ _) (page_addr_not_null s p Hinv Hp)).
Qed.

(** What a call does, abstractly. *)
Definition simulates (s : pmm) (c : pmm_call) (g : option (Z * Z)) (s' : pmm) : Prop :=
  exists r, g = to_addr s r /\ pmm_inv s' /\ same_layout s s' /\
    astep (total_pages s) (addr_index s) (abs_free s) c r (abs_free s').

Lemma run_is_free s p n :
  range_set p n ⊆ abs_free s -> run_free (bitmap_mem s) p n.
Proof.
  intros H q Hq. specialize (H q). rewrite elem_of_range_set, elem_of_abs_free in H.
  by destruct (H Hq).
Qed.

Lemma run_free_subset s p n :
  run_free (bitmap_mem s) p n -> 0 <= p -> p + n <= total_pages s ->
  range_set p n ⊆ abs_free s.
Proof.
  intros H Hp Hn q. rewrite elem_of_range_set, elem_of_abs_free. intros Hq.
  split; [lia|]. by apply H.
Qed.

Lemma sim_alloc s : pmm_inv s -> wp (run_call CallAlloc) (simulates s CallAlloc) s.
Proof.
  intros Hinv. simpl. wp_step. wp_use pmm_alloc_wp; [done|]. intros a s'.
  destruct (find_free_ref s) as [p|] eqn:E.
  - intros (-> & Hp & Hi & Hl & Hc & _). wp_step. exists (Some (p, 1)).
    pose proof Hp as [Hp1 _]. split_and!; [by apply granted_addr; [|lia]|done|done|].
    replace (abs_free s') with (abs_free s ∖ {[p]}).
    { constructor. by apply elem_of_abs_free. }
    replace ({[p]} : gset Z) with (range_set p 1).
    { symmetry. apply abs_range_taken; [done|]. intros q Hq. rewrite Hc by done.
      unfold in_range. destruct (Z.eqb_spec q p), (Z.leb_spec p q), (Z.ltb_spec q (p + 1));
        lia || done. }
    apply set_eq. intros q. rewrite elem_of_range_set, elem_of_singleton. lia.
  - intros [-> ->]. wp_step. exists None. split_and!; [done|done|done|].
    replace (abs_free s) with (∅ : gset Z); [constructor|].
    symmetry. apply set_eq. intros q. rewrite elem_of_abs_free.
    split; [|set_solver]. intros H. rewrite find_free_ref_None in E by done.
    by destruct (E q).
Qed.

Lemma no_run_small s n :
  pmm_inv s -> 1 < n ->
  (forall t, 0 <= t -> t + n <= total_pages s -> ~ run_free (bitmap_mem s) t n) ->
  forall p, ~ range_set p n ⊆ abs_free s.
Proof.
  intros Hinv Hn H p Hsub. pose proof (run_is_free _ _ _ Hsub) as Hr.
  pose proof (Hsub p) as H1. pose proof (Hsub (p + n - 1)) as H2.
  rewrite elem_of_range_set, elem_of_abs_free in H1, H2.
  destruct H1 as [? _]; [lia|]. destruct H2 as [? _]; [lia|]. apply (H p); [lia..|done].
Qed.

Lemma sim_alloc_n s n :
  pmm_inv s -> 0 <= n < 2 ^ 64 ->
  wp (run_call (CallAllocN n)) (simulates s (CallAllocN n)) s.
Proof.
  intros Hinv Hn. destruct (decide (n = 0)) as [->|].
  { simpl. unfold pmm_alloc_contiguous. simpl. wp_steps. exists None.
    split_and!; [done..|]. constructor. lia. }
  destruct (decide (n = 1)) as [->|].
  { change (run_call (CallAllocN 1)) with (run_call CallAlloc).
    wp_use sim_alloc; [done|]. intros g s' (r & -> & Hi & Hl & Hs).
    exists r. split_and!; [done..|]. inversion Hs as [F p Hp E1 E2 E3|E1 E2 E3| | | | | |].
    - replace ({[p]} : gset Z) with (range_set p 1).
      + constructor; [lia|]. intros q. rewrite elem_of_range_set. intros Hq.
        by replace q with p by lia.
      + apply set_eq. intros q. rewrite elem_of_range_set, elem_of_singleton. lia.
    - constructor. intros _ p Hsub. specialize (Hsub p).
      rewrite elem_of_range_set in Hsub. set_solver by lia. }
  simpl. wp_step. wp_use pmm_alloc_contiguous_wp; [done|lia|].
  intros a s' [(-> & -> & Hno)|(p & -> & Hp & Hpn & Hrun & _ & Hi & Hl & Hc & _)]; wp_step.
  - exists None. split_and!; [done|done|done|]. constructor. intros _.
    apply no_run_small; [done|lia|done].
  - exists (Some (p, n)). split_and!; [by apply granted_addr|done|done|].
    rewrite (abs_range_taken s s' p n) by done. constructor; [lia|].
    by apply run_free_subset.
Qed.

Lemma sim_free s a : pmm_inv s -> wp (run_call (CallFree a)) (simulates s (CallFree a)) s.
Proof.
  intros Hinv. simpl. wp_step. wp_use pmm_free_wp; [done|]. intros [] s'. cbv zeta.
  destruct (Z.eqb_spec a NULL) as [->|Ha]; simpl.
  { intros ->. wp_step. exists None. split_and!; [done..|]. apply as_free_skip. by left. }
  pose proof (addr_index_nonneg s a) as Hp0.
  destruct (Z.leb_spec (total_pages s) (addr_index s a)); simpl.
  { intros ->. wp_step. exists None. split_and!; [done..|]. apply as_free_skip. by right. }
  destruct (bit (bitmap_mem s) (addr_index s a)) eqn:Hb; simpl.
  - intros (Hi & Hl & Hc & _). wp_step. exists None. split_and!; [done..|].
    replace (abs_free s') with (abs_free s ∪ {[addr_index s a]}); [by constructor|].
    apply set_eq. intros q. rewrite elem_of_union, elem_of_singleton.
    rewrite (abs_bits_cleared (fun q => q =? addr_index s a) s s' Hl)
      by (intros; apply Hc; lia).
    rewrite Z.eqb_eq. split; intros [|]; [by left|right; split; [lia|done]|by left|right; tauto].
  - intros ->. wp_step. exists None. split_and!; [done..|].
    replace (abs_free s) with (abs_free s ∪ {[addr_index s a]}) at 2; [by constructor|].
    assert (addr_index s a ∈ abs_free s) by (by apply elem_of_abs_free).
    set_solver.
Qed.

Lemma sim_free_n s a n :
  pmm_inv s -> 0 <= n < 2 ^ 52 ->
  wp (run_call (CallFreeN a n)) (simulates s (CallFreeN a n)) s.
Proof.
  intros Hinv Hn. simpl. wp_step. wp_use pmm_free_contiguous_wp; [done|done|].
  intros [] s'. destruct (Z.eqb_spec a NULL) as [->|Ha]; simpl.
  { intros ->. wp_step. exists None. split_and!; [done..|]. constructor. }
  destruct (Z.eqb_spec n 0) as [->|].
  - intros ->. wp_step. exists None. split_and!; [done..|].
    replace (abs_free s) with (abs_free s ∪ (range_set (addr_index s a) 0 ∩
      range_set 0 (total_pages s))) at 2; [by constructor|].
    apply set_eq. intros q. rewrite elem_of_union, elem_of_intersection, !elem_of_range_set.
    split; [intros [|]; [done|lia]|by left].
  - intros (Hi & Hl & Hc). wp_step. exists None. split_and!; [done..|].
    replace (abs_free s') with (abs_free s ∪ (range_set (addr_index s a) n ∩
      range_set 0 (total_pages s))); [by constructor|].
    apply set_eq. intros q. rewrite elem_of_union, elem_of_intersection, !elem_of_range_set.
    rewrite (abs_bits_cleared (in_range (addr_index s a) n) s s' Hl Hc), in_range_true.
    split; intros [|]; [by left|right; lia|by left|right; lia].
Qed.

Lemma run_call_sim s c :
  pmm_inv s -> call_ok c -> wp (run_call c) (simulates s c) s.
Proof.
  intros Hinv Hc. destruct c as [|n|a|a n].
  - by apply sim_alloc.
  - by apply sim_alloc_n.
  - by apply sim_free.
  - by apply sim_free_n.
Qed.

(** ** Sequences of calls *)

(** The call gives page [p] back. *)
Definition releases (s : pmm) (c : pmm_call) (p : Z) : Prop :=
  match c with
  | CallFree a => addr_index s a = p
  | CallFreeN a n => addr_index s a <= p < addr_index s a + n
  | _ => False
  end.

(** No granted range contains page [p]. *)
Definition avoids (s : pmm) (p : Z) (g : Z * Z) : Prop :=
  forall k, 0 <= k < snd g -> fst g + PAGE_SIZE * k <> page_addr s p.

Lemma astep_keeps total index F c r F' p :
  astep total index F c r F' -> p ∉ F ->
  match c with
  | CallFree a => index a <> p
  | CallFreeN a n => ~ (index a <= p < index a + n)
  | _ => True
  end ->
  p ∉ F' /\ match r with Some (q, n) => ~ (q <= p < q + n) | None => True end.
Proof.
  intros Hs Hp Hc. destruct Hs as [F q Hq| |F q n Hn Hq|F n Hn|F a Ha Hi|F a Ha|F a n Ha|F n];
    simpl in *; (split; [|try done]).
  - set_solver.
  - intros ?. assert (p = q) by lia. congruence.
  - done.
  - set_solver.
  - intros Hpq. specialize (Hq p). rewrite elem_of_range_set in Hq. tauto.
  - done.
  - set_solver.
  - done.
  - rewrite elem_of_union, elem_of_intersection, !elem_of_range_set. tauto.
  - done.
Qed.

Lemma run_calls_keeps cs s p :
  pmm_inv s -> Forall call_ok cs -> 0 <= p < total_pages s -> p ∉ abs_free s ->
  Forall (fun c => ~ releases s c p) cs ->
  wp (run_calls cs) (fun gs s' => pmm_inv s' /\ same_layout s s' /\
    p ∉ abs_free s' /\ Forall (avoids s p) gs) s.
Proof.
  revert s. induction cs as [|c cs IH]; intros s Hinv Hok Hp Hf Hrel; simpl.
  { wp_step. by split_and!. }
  inversion Hok as [|?? Hc Hcs]; inversion Hrel as [|?? Hr Hrs]; subst.
  wp_step. wp_use run_call_sim; [done|done|].
  intros g s1 (r & -> & Hi1 & Hl1 & Hs1).
  apply (astep_keeps _ _ _ _ _ _ p) in Hs1; [|done|by destruct c].
  destruct Hs1 as [Hf1 Hr1]. pose proof Hl1 as (_ & Et & Eo & _).
  wp_step. wp_use (IH s1); [done|done|lia|done| |].
  { eapply Forall_impl; [exact Hrs|]. intros c' H. unfold releases, addr_index in *.
    by rewrite Eo. }
  intros gs s2 (Hi2 & Hl2 & Hf2 & Hg). wp_step.
  split_and!; [done|by eapply same_layout_trans|done|].
  assert (Hg' : Forall (avoids s p) gs).
  { eapply Forall_impl; [exact Hg|]. intros x H. unfold avoids, page_addr in *.
    by rewrite Eo in H. }
  destruct r as [[q n]|]; simpl; [|done]. constructor; [|done].
  intros k Hk. simpl. unfold page_addr, PAGE_SIZE. simpl in Hk. lia.
Qed.

(** ** A small machine

    64 KiB of memory, one usable region from the second page on; the witnesses
    of this file and of its clients run on it. *)
Definition demo_off : Z := 0xFFFF800000000000.
Definition demo_map : list memmap_entry := [Entry 0x1000 0xF000 LIMINE_MEMMAP_USABLE].
Definition demo_map' : list memmap_entry := [Entry 0x1002 0xEFFE LIMINE_MEMMAP_USABLE].
Definition demo_ram (_ : Z) : list Z := replicate 8 0.
Definition demo_ptr : Z := 0xFFFF800000001000.

Definition demo : pmm :=
  {| bitmap_ptr := demo_ptr;
     bitmap_mem := [3; 0; 0; 0; 0; 0; 0; 0];
     total_pages := 16;
     free_pages := 14;
     usable_pages := 14;
     bitmap_size := 2;
     hhdm_offset := demo_off;
     last_alloc_hint := 0;
     stats := Stats 0xF000 0xF000 0 0 16 14 0 0 0 0 2;
     saved_memmap := Some demo_map' |}.

Lemma demo_boot : boot_ok demo_ram demo_map demo_off demo_ptr demo_map'.
Proof.
  constructor.
  - split; [|done]. constructor; [|done]. vm_compute. intuition congruence.
  - vm_compute. intuition congruence.
  - reflexivity.
  - reflexivity.
  - done.
  - apply Forall_replicate. unfold byte_ok. lia.
  - vm_compute. congruence.
Qed.

Lemma demo_run : pmm_init demo_ram (Some demo_map) (Some demo_off) pmm_start = Ok (tt, demo).
Proof. vm_compute. reflexivity. Qed.

Lemma demo_inv : pmm_inv demo.
Proof.
  exact (proj1 (proj1 (wp_inv demo_run (pmm_init_wp _ _ _ _ _ demo_boot)))).
Qed.

(** ** Properties *)

(** C1: every call of the interface ends without a fault (no access outside
    the bitmap, no null dereference), keeps the invariant, and changes the set
    of free pages exactly as the abstract allocator does: allocation removes a
    free page or a run of free pages and fails only when there is none,
    release adds the designated pages that exist, double release and foreign
    addresses change nothing. *)
Theorem pmm_simulates_page_set (s : pmm) (c : pmm_call) :
  pmm_inv s -> call_ok c ->
  exists r s', run_call c s = Ok (to_addr s r, s') /\ pmm_inv s' /\
    astep (total_pages s) (addr_index s) (abs_free s) c r (abs_free s').
Proof.
  intros Hinv Hc. pose proof (run_call_sim s c Hinv Hc) as H.
  apply wp_run in H. destruct H as (g & s' & E & r & -> & Hi & _ & Hs).
  exists r, s'. by split_and!.
Qed.

Lemma pmm_simulates_page_set_witness :
  exists r s', run_call (CallAllocN 3) demo = Ok (to_addr demo r, s') /\ pmm_inv s' /\
    astep (total_pages demo) (addr_index demo) (abs_free demo) (CallAllocN 3) r (abs_free s').
Proof. apply (pmm_simulates_page_set demo (CallAllocN 3)); [apply demo_inv|simpl; lia]. Defined.

(** C12: an allocated page is never handed out again, by any sequence of
    allocations and releases, as long as no call releases that page; and the
    page stays marked as allocated. *)
Theorem pmm_no_page_granted_twice (s : pmm) (cs : list pmm_call) (p : Z) :
  pmm_inv s -> Forall call_ok cs -> page_used s p ->
  Forall (fun c => ~ releases s c p) cs ->
  exists gs s', run_calls cs s = Ok (gs, s') /\ pmm_inv s' /\ page_used s' p /\
    Forall (avoids s p) gs.
Proof.
  intros Hinv Hok [Hp Hb] Hrel.
  assert (Hf : p ∉ abs_free s) by (rewrite elem_of_abs_free; intros [_ H]; congruence).
  pose proof (run_calls_keeps cs s p Hinv Hok Hp Hf Hrel) as H.
  apply wp_run in H. destruct H as (gs & s' & E & Hi & (_ & Et & _) & Hf' & Hg).
  exists gs, s'. split_and!; [done|done|split; [lia|]|done].
  rewrite elem_of_abs_free in Hf'. unfold page_free in Hf'. rewrite Et in Hf'.
  destruct (bit (bitmap_mem s') p); [done|]. by destruct Hf'.
Qed.

Lemma pmm_no_page_granted_twice_witness :
  exists gs s', run_calls [CallAlloc; CallAllocN 4; CallFree (page_addr demo 5); CallAlloc] demo
      = Ok (gs, s') /\ pmm_inv s' /\ page_used s' 1 /\ Forall (avoids demo 1) gs.
Proof.
  apply (pmm_no_page_granted_twice demo).
  - apply demo_inv.
  - repeat apply Forall_cons_2; try apply Forall_nil_2; simpl; lia || done.
  - split; [simpl; lia|reflexivity].
  - repeat apply Forall_cons_2; try apply Forall_nil_2;
      unfold not; simpl; try done; vm_compute; congruence.
Defined.

(** C14: booted with a well-formed memory map whose page count is a multiple of
    eight, [pmm_init] establishes the invariant; the free pages are exactly
    the whole pages inside usable regions (after the bitmap took its bytes),
    none of them overlaps the bitmap, and [pmm_validate] accepts the result. *)
Theorem pmm_init_establishes_invariant ram es off ptr es' :
  boot_ok ram es off ptr es' ->
  exists s, pmm_init ram (Some es) (Some off) pmm_start = Ok (tt, s) /\
    pmm_inv s /\ usable_pages s = free_pages s /\
    (forall p, page_free s p <-> 0 <= p /\ usable_page es' p) /\
    (forall p, page_free s p ->
       page_addr s p + PAGE_SIZE <= ptr \/ ptr + bitmap_size s <= page_addr s p) /\
    pmm_validate s = Ok (true, s).
Proof.
  intros Hboot. pose proof (pmm_init_wp _ _ _ _ _ Hboot) as H. apply wp_run in H.
  destruct H as ([] & s & E & [Hinv Hu] & Et & Ep & Eo & _ & Es & Hfree).
  exists s. split_and!; [done..| |].
  - intros p Hp. apply Hfree in Hp. destruct Hp as [Hp0 Hp].
    destruct Hboot as [Hmap Hoff _ Hpl Hnull _ _].
    pose proof Hmap as [Hwf _]. pose proof (memmap_top_bounds es Hwf).
    destruct (place_bitmap_region _ _ _ _ _ Hpl ltac:(unfold PAGE_SIZE; dlia) Hmap Hnull)
      as (e0 & Hpe & Hin & Hue & Hl & Hreg).
    apply Hreg in Hp. destruct Hp as [_ Hp]. pose proof (memmap_top_In es e0 Hin Hue).
    rewrite Forall_forall in Hwf. destruct (Hwf e0 Hin) as (Hb0 & Hl0 & _).
    unfold page_addr. rewrite Es, Eo.
    assert (ptr = off + e_base e0) as ->; [|unfold PAGE_SIZE in *; lia].
    destruct (Z.lt_ge_cases (e_base e0 + off) (2 ^ 64)) as [Hlt|Hge].
    + rewrite Hpe, u64_id by lia. lia.
    + exfalso. apply Hnull. rewrite Hpe. unfold u64.
      replace (e_base e0 + off) with (2 ^ 64) by lia. done.
  - pose proof Hinv as [Hptr _ Ht _ _ Hf _].
    pose proof (pmm_validate_wp s Hptr ltac:(lia) (room_total s Hinv)) as Hv.
    apply wp_run in Hv. destruct Hv as (r & s2 & E2 & -> & ->).
    rewrite E2, Hf, Z.eqb_refl. done.
Qed.

Lemma pmm_init_establishes_invariant_witness :
  exists s, pmm_init demo_ram (Some demo_map) (Some demo_off) pmm_start = Ok (tt, s) /\
    pmm_inv s /\ usable_pages s = free_pages s /\
    (forall p, page_free s p <-> 0 <= p /\ usable_page demo_map' p) /\
    (forall p, page_free s p ->
       page_addr s p + PAGE_SIZE <= demo_ptr \/ demo_ptr + bitmap_size s <= page_addr s p) /\
    pmm_validate s = Ok (true, s).
Proof. apply pmm_init_establishes_invariant. apply demo_boot. Defined.

(** When the page count is not a multiple of eight, [pmm_init] marks the
    tracked pages of the last bitmap byte free although no usable region
    contains them.  On a machine with eight usable pages and three
    boot-loader pages the resulting state fails the allocator's own
    [pmm_validate], and page 9, which the boot loader still owns, is free. *)
Theorem pmm_init_last_byte_inverted :
  let es := [Entry 0x1000 0x8000 LIMINE_MEMMAP_USABLE;
             Entry 0x9000 0x3000 LIMINE_MEMMAP_BOOTLOADER_RECLAIMABLE] in
  exists s, pmm_init demo_ram (Some es) (Some demo_off) pmm_start = Ok (tt, s) /\
    total_pages s = 12 /\ pmm_validate s = Ok (false, s) /\
    page_free s 9 /\ free_pages s = 7 /\
    (forall e, e ∈ es -> usable e = true -> ~ page_in e 9).
Proof.
  eexists. split; [vm_compute; reflexivity|].
  split_and!; [reflexivity|vm_compute; reflexivity|split; [simpl; lia|reflexivity]
    |reflexivity|].
  intros e He Hu. unfold page_in, PAGE_SIZE.
  repeat (apply elem_of_cons in He as [->|He]; [simpl in *; lia || done|]).
  by apply not_elem_of_nil in He.
Qed.

(** C37: the word-at-a-time search with [__builtin_ctzll] returns what a
    bit-by-bit search would: the least free page from the 64-page word of the
    hint on, else the least free page before it, else [(uint64_t)-1]; the page
    found becomes the hint and nothing else changes. *)
Theorem find_free_page_fast_is_reference (s : pmm) :
  pmm_inv s ->
  find_free_page_fast s =
    Ok (match find_free_ref s with
        | Some p => (p, set_last_alloc_hint p s)
        | None => (UINT64_MAX, s)
        end).
Proof.
  intros Hinv. pose proof (find_free_page_fast_eq s Hinv) as H. apply wp_run in H.
  destruct H as (r & s' & -> & H). by destruct (find_free_ref s); destruct H as [-> ->].
Qed.

Lemma find_free_page_fast_is_reference_witness :
  find_free_page_fast demo =
    Ok (match find_free_ref demo with
        | Some p => (p, set_last_alloc_hint p demo)
        | None => (UINT64_MAX, demo)
        end).
Proof. apply find_free_page_fast_is_reference. apply demo_inv. Defined.

(** The three ways [pmm_free] declines (null pointer, address outside the
    managed pages, page already free) leave the whole state alone; otherwise
    exactly the designated page becomes free, the counter goes up by one, the
    hint never moves past it, and the invariant is kept. *)
Theorem pmm_free_branches (s : pmm) (a : Z) :
  pmm_inv s ->
  exists s', pmm_free a s = Ok (tt, s') /\
    let p := addr_index s a in
    if (a =? NULL) || (total_pages s <=? p) || negb (bit (bitmap_mem s) p)
    then s' = s
    else pmm_inv s' /\ bit_changed s s' p false /\
      free_pages s' = free_pages s + 1 /\
      last_alloc_hint s' = Z.min (last_alloc_hint s) p.
Proof.
  intros Hinv. pose proof (pmm_free_wp s a Hinv) as H. apply wp_run in H.
  destruct H as ([] & s' & -> & H). exists s'. split; [done|].
  cbv zeta in *. destruct (_ || _); [done|]. destruct H as (? & _ & ? & ? & ?).
  by split_and!.
Qed.

Lemma pmm_free_branches_witness :
  exists s', pmm_free (page_addr demo 1) demo = Ok (tt, s') /\
    let p := addr_index demo (page_addr demo 1) in
    if (page_addr demo 1 =? NULL) || (total_pages demo <=? p) || negb (bit (bitmap_mem demo) p)
    then s' = demo
    else pmm_inv s' /\ bit_changed demo s' p false /\
      free_pages s' = free_pages demo + 1 /\
      last_alloc_hint s' = Z.min (last_alloc_hint demo) p.
Proof. apply (pmm_free_branches demo). apply demo_inv. Defined.

(** Releasing what was just allocated gives the old bitmap contents and
    free count back, for a single page and for a run of pages of any length;
    the address returned designates the first page of the run. *)
Theorem pmm_alloc_free_roundtrip (s : pmm) (n : Z) :
  pmm_inv s -> 0 <= n < 2 ^ 52 ->
  exists a s1 s2, pmm_alloc_contiguous n s = Ok (a, s1) /\
    pmm_free_contiguous a n s1 = Ok (tt, s2) /\
    free_pages s2 = free_pages s /\
    (a <> NULL -> free_pages s1 = free_pages s - n) /\
    forall q, 0 <= q < total_pages s -> bit (bitmap_mem s2) q = bit (bitmap_mem s) q.
Proof.
  intros Hinv Hn. pose proof (pmm_alloc_any_wp s n Hinv ltac:(lia)) as H.
  apply wp_run in H. destruct H as (a & s1 & E1 & H).
  destruct H as [[-> ->]|(p & -> & Hn0 & Hp & Hpn & Hrun & Hi1 & Hl1 & Hc1 & Hf1)].
  - exists NULL, s, s. by split_and!.
  - pose proof (pmm_free_contiguous_wp s1 (page_addr s p) n Hi1 Hn) as H.
    apply wp_run in H. destruct H as ([] & s2 & E2 & H).
    rewrite (proj2 (Z.eqb_neq _ _) (page_addr_not_null s p Hinv Hp)) in H.
    rewrite (proj2 (Z.eqb_neq n 0)) in H by lia. simpl in H.
    destruct H as (Hi2 & Hl2 & Hb2). pose proof Hl1 as (_ & Et & Eo & _).
    pose proof Hl2 as (_ & Et2 & _).
    assert (Hidx : addr_index s1 (page_addr s p) = p).
    { unfold addr_index. rewrite Eo.
      replace (page_addr s p - hhdm_offset s) with (page_addr s p + 0 - hhdm_offset s) by lia.
      apply page_addr_index; [done|lia|unfold PAGE_SIZE; lia]. }
    assert (Hsame : forall q, 0 <= q < total_pages s ->
      bit (bitmap_mem s2) q = bit (bitmap_mem s) q).
    { intros q Hq. rewrite Hb2, Hidx, Hc1 by lia.
      destruct (in_range p n q) eqn:E; [|done]. apply in_range_true in E.
      symmetry. by apply Hrun. }
    exists (page_addr s p), s1, s2. split_and!; [done|done| |done|done].
    rewrite (inv_free s2 Hi2), (inv_free s Hinv), Et2, Et. unfold free_bits.
    apply count_ext. intros i Hi. by rewrite Hsame.
Qed.

Lemma pmm_alloc_free_roundtrip_witness :
  exists a s1 s2, pmm_alloc_contiguous 3 demo = Ok (a, s1) /\
    pmm_free_contiguous a 3 s1 = Ok (tt, s2) /\
    free_pages s2 = free_pages demo /\
    (a <> NULL -> free_pages s1 = free_pages demo - 3) /\
    forall q, 0 <= q < total_pages demo -> bit (bitmap_mem s2) q = bit (bitmap_mem demo) q.
Proof. apply (pmm_alloc_free_roundtrip demo 3); [apply demo_inv|lia]. Defined.

(** [pmm_alloc_contiguous] is first fit: it returns the lowest run of
    [n] free pages and marks exactly those pages, or returns null, leaving the
    state alone, only when no run of [n] free pages exists. *)
Theorem pmm_alloc_contiguous_first_fit (s : pmm) (n : Z) :
  pmm_inv s -> 1 < n < 2 ^ 64 ->
  exists a s', pmm_alloc_contiguous n s = Ok (a, s') /\
    ((a = NULL /\ s' = s /\
       forall t, 0 <= t -> t + n <= total_pages s -> ~ run_free (bitmap_mem s) t n) \/
     (exists p, a = page_addr s p /\ p + n <= total_pages s /\
       run_free (bitmap_mem s) p n /\
       (forall t, 0 <= t < p -> ~ run_free (bitmap_mem s) t n) /\
       range_changed s s' p n true /\ pmm_inv s')).
Proof.
  intros Hinv Hn. pose proof (pmm_alloc_contiguous_wp s n Hinv Hn) as H.
  apply wp_run in H. destruct H as (a & s' & E & H). exists a, s'. split; [done|].
  destruct H as [H|(p & ? & ? & ? & ? & ? & ? & _ & ? & _)]; [by left|].
  right. exists p. by split_and!.
Qed.

Lemma pmm_alloc_contiguous_first_fit_witness :
  exists a s', pmm_alloc_contiguous 5 demo = Ok (a, s') /\
    ((a = NULL /\ s' = demo /\
       forall t, 0 <= t -> t + 5 <= total_pages demo -> ~ run_free (bitmap_mem demo) t 5) \/
     (exists p, a = page_addr demo p /\ p + 5 <= total_pages demo /\
       run_free (bitmap_mem demo) p 5 /\
       (forall t, 0 <= t < p -> ~ run_free (bitmap_mem demo) t 5) /\
       range_changed demo s' p 5 true /\ pmm_inv s')).
Proof. apply (pmm_alloc_contiguous_first_fit demo 5); [apply demo_inv|lia]. Defined.

(** [pmm_reclaim_bootloader_memory] frees exactly the pages that lie inside
    the saved boot-loader regions and are tracked, on top of those already
    free, counts each once, and keeps the invariant. *)
Theorem pmm_reclaim_frees_bootloader_pages (s : pmm) (es : list memmap_entry) :
  pmm_inv s -> saved_memmap s = Some es -> Forall entry_wf es ->
  exists s', pmm_reclaim_bootloader_memory s = Ok (tt, s') /\ pmm_inv s' /\
    forall p, page_free s' p <->
      page_free s p \/ (0 <= p < total_pages s /\ reclaimable_page es p).
Proof.
  intros Hinv Hmm Hwf.
  assert (H : wp pmm_reclaim_bootloader_memory (fun _ s' => pmm_inv s' /\
    forall p, page_free s' p <->
      page_free s p \/ (0 <= p < total_pages s /\ reclaimable_page es p)) s).
  { unfold pmm_reclaim_bootloader_memory. wp_step. wp_step. rewrite Hmm. wp_step.
    wp_use reclaim_all_wp; [done|done|]. intros [] s1 (Hi & (_ & Et & _) & Hb). wp_step.
    split; [by apply stats_inv|]. intros p. unfold page_free. simpl. rewrite Et.
    split.
    - intros [Hp Hf]. rewrite Hb in Hf by done. tauto.
    - intros [[Hp Hf]|[Hp Hf]]; (split; [done|]); apply Hb; tauto. }
  apply wp_run in H. destruct H as ([] & s' & E & H). by exists s'.
Qed.

Lemma pmm_reclaim_frees_bootloader_pages_witness :
  exists s', pmm_reclaim_bootloader_memory demo = Ok (tt, s') /\ pmm_inv s' /\
    forall p, page_free s' p <->
      page_free demo p \/ (0 <= p < total_pages demo /\ reclaimable_page demo_map' p).
Proof.
  apply pmm_reclaim_frees_bootloader_pages.
  - apply demo_inv.
  - reflexivity.
  - constructor; [vm_compute; intuition congruence|constructor].
Defined.
