(* ===== verification/Spinlock.v ===== *)
(** * Spinlocks ([amd64/cpu/spinlock.c], [amd64/include/intr.h])

    A spinlock protects a structure against the interrupt handlers of the one
    CPU the kernel runs on ([get_cpu_id] is the constant 0), so acquiring it
    disables interrupts and releasing it restores the saved [rflags].  The
    state of a component is any type with the CPU flags ([HasFlags]); a lock
    inside it is designated by a [lockref], the model of a [spinlock_t *].
    The build without [SPINLOCK_DEBUG] is modelled; the lock's name is not. *)

From stdpp Require Import base numbers list.
From S2P Require Import Prelude.

Record spinlock := Spinlock { sl_locked : Z; sl_cpu : Z; sl_intr_save : Z }.

(** [SPINLOCK_INITIALIZER] and [spinlock_init]. *)
Definition spinlock_init : spinlock := Spinlock 0 (-1) 0.

Definition get_cpu_id : Z := 0.

(** Bit 9 of [rflags] is the interrupt flag. *)
Definition IF_MASK : Z := 0x200.

Class HasFlags (S : Type) := {
  get_rflags : S -> Z;
  set_rflags : Z -> S -> S;
  get_set_rflags r s : get_rflags (set_rflags r s) = r;
  set_set_rflags r r' s : set_rflags r (set_rflags r' s) = set_rflags r s;
  set_get_rflags s : set_rflags (get_rflags s) s = s
}.

Record lockref (S : Type) `{HasFlags S} := Lockref {
  lget : S -> spinlock;
  lset : spinlock -> S -> S;
  lget_lset l s : lget (lset l s) = l;
  lset_lset l l' s : lset l (lset l' s) = lset l s;
  lget_flags r s : lget (set_rflags r s) = lget s;
  lset_flags r l s : lset l (set_rflags r s) = set_rflags r (lset l s);
  flags_lset l s : get_rflags (lset l s) = get_rflags s
}.
Arguments lget {S _} _ _.
Arguments lset {S _} _ _ _.
Arguments lget_lset {S _} _ _ _.
Arguments lset_lset {S _} _ _ _ _.
Arguments lget_flags {S _} _ _ _.
Arguments lset_flags {S _} _ _ _ _.
Arguments flags_lset {S _} _ _ _.

Section spinlock.
Context {S : Type} `{HasFlags S}.
Implicit Types (lk : lockref S) (s : S).

Definition intr_disable : M S Z :=
  flags <- gets get_rflags ;;
  modify (fun s => set_rflags (Z.ldiff (get_rflags s) IF_MASK) s) ;;;
  ret flags.

Definition intr_restore (flags : Z) : M S unit := modify (set_rflags flags).

Definition spinlock_holding lk : M S bool :=
  flags <- intr_disable ;;
  r <- gets (fun s => negb (sl_locked (lget lk s) =? 0) &&
                      (sl_cpu (lget lk s) =? get_cpu_id)) ;;
  intr_restore flags ;;;
  ret r.

(** The loop around [atomic_swap_uint] ends at once when the lock is free; on
    one CPU nobody would release it otherwise. *)
Definition spinlock_acquire lk : M S unit :=
  flags <- intr_disable ;;
  h <- spinlock_holding lk ;;
  if h then throw F_panic_lock
  else
    old <- gets (fun s => sl_locked (lget lk s)) ;;
    if negb (old =? 0) then throw F_spin
    else modify (fun s => lset lk (Spinlock 1 get_cpu_id flags) s).

Definition spinlock_release lk : M S unit :=
  h <- spinlock_holding lk ;;
  if negb h then throw F_panic_unheld
  else
    flags <- gets (fun s => sl_intr_save (lget lk s)) ;;
    modify (fun s => lset lk (Spinlock 0 (-1) (sl_intr_save (lget lk s))) s) ;;;
    intr_restore flags.

Definition spinlock_try_acquire lk : M S bool :=
  flags <- intr_disable ;;
  old <- gets (fun s => sl_locked (lget lk s)) ;;
  if old =? 0 then
    modify (fun s => lset lk (Spinlock 1 get_cpu_id flags) s) ;;;
    ret true
  else
    modify (fun s => lset lk (Spinlock 1 (sl_cpu (lget lk s)) (sl_intr_save (lget lk s))) s) ;;;
    intr_restore flags ;;;
    ret false.

Definition spinlock_acquire_irqsave lk : M S Z :=
  flags <- intr_disable ;;
  spinlock_acquire lk ;;;
  ret flags.

Definition spinlock_release_irqrestore lk (flags : Z) : M S unit :=
  spinlock_release lk ;;;
  intr_restore flags.

(** ** Specifications *)

Definition lock_idle lk s : Prop := sl_locked (lget lk s) = 0.
Definition no_irq (r : Z) : Z := Z.ldiff r IF_MASK.

Lemma no_irq_idem r : no_irq (no_irq r) = no_irq r.
Proof.
  unfold no_irq. apply Z.bits_inj'. intros k Hk. rewrite !Z.ldiff_spec.
  by destruct (Z.testbit r k), (Z.testbit IF_MASK k).
Qed.

Lemma wp_intr_disable (Q : Z -> S -> Prop) s :
  Q (get_rflags s) (set_rflags (no_irq (get_rflags s)) s) -> wp intr_disable Q s.
Proof. intros HQ. unfold intr_disable. by wp_steps. Qed.

Lemma wp_holding lk (Q : bool -> S -> Prop) s :
  Q (negb (sl_locked (lget lk s) =? 0) && (sl_cpu (lget lk s) =? get_cpu_id)) s ->
  wp (spinlock_holding lk) Q s.
Proof.
  intros HQ. unfold spinlock_holding. wp_step. apply wp_intr_disable.
  wp_steps. unfold intr_restore. wp_steps.
  by rewrite !lget_flags, set_set_rflags, set_get_rflags.
Qed.

Lemma wp_acquire lk (Q : unit -> S -> Prop) s :
  lock_idle lk s ->
  Q tt (lset lk (Spinlock 1 get_cpu_id (get_rflags s))
         (set_rflags (no_irq (get_rflags s)) s)) ->
  wp (spinlock_acquire lk) Q s.
Proof.
  unfold lock_idle. intros Hidle HQ. unfold spinlock_acquire. wp_step.
  apply wp_intr_disable. wp_step. apply wp_holding. rewrite !lget_flags, Hidle. simpl.
  wp_steps. rewrite lget_flags, Hidle. simpl. by wp_step.
Qed.

Lemma wp_acquire_irqsave lk (Q : Z -> S -> Prop) s :
  lock_idle lk s ->
  Q (get_rflags s) (lset lk (Spinlock 1 get_cpu_id (no_irq (get_rflags s)))
                     (set_rflags (no_irq (get_rflags s)) s)) ->
  wp (spinlock_acquire_irqsave lk) Q s.
Proof.
  unfold lock_idle. intros Hidle HQ. unfold spinlock_acquire_irqsave. wp_step.
  apply wp_intr_disable. wp_step. apply wp_acquire.
  - unfold lock_idle. by rewrite lget_flags.
  - wp_step. by rewrite get_set_rflags, set_set_rflags, no_irq_idem.
Qed.

(** A lock after a release: free, with the flags it last saved. *)
Definition rest_lock (flags : Z) : spinlock := Spinlock 0 (-1) (no_irq flags).

(** The lock is held by this CPU. *)
Definition lock_held lk s : Prop :=
  sl_locked (lget lk s) <> 0 /\ sl_cpu (lget lk s) = get_cpu_id.

Lemma wp_release lk (Q : unit -> S -> Prop) s :
  lock_held lk s ->
  Q tt (set_rflags (sl_intr_save (lget lk s))
         (lset lk (Spinlock 0 (-1) (sl_intr_save (lget lk s))) s)) ->
  wp (spinlock_release lk) Q s.
Proof.
  intros [Hl Hc] HQ. unfold spinlock_release. wp_step. apply wp_holding.
  rewrite Hc, Z.eqb_refl, (proj2 (Z.eqb_neq _ _) Hl). simpl. wp_steps.
  unfold intr_restore. by wp_step.
Qed.

Lemma wp_release_irqrestore lk flags (Q : unit -> S -> Prop) s :
  lock_held lk s ->
  Q tt (set_rflags flags (lset lk (Spinlock 0 (-1) (sl_intr_save (lget lk s))) s)) ->
  wp (spinlock_release_irqrestore lk flags) Q s.
Proof.
  intros Hh HQ. unfold spinlock_release_irqrestore. wp_step.
  apply wp_release; [done|]. unfold intr_restore. wp_step. by rewrite set_set_rflags.
Qed.

Lemma acquire_held_panics lk s :
  lock_held lk s -> spinlock_acquire lk s = Fault F_panic_lock.
Proof.
  intros [Hl Hc].
  unfold spinlock_acquire, spinlock_holding, intr_disable, intr_restore, bind, gets, modify, ret.
  rewrite !lget_flags, Hc, Z.eqb_refl, (proj2 (Z.eqb_neq _ _) Hl). done.
Qed.

Lemma acquire_irqsave_held_panics lk s :
  lock_held lk s -> spinlock_acquire_irqsave lk s = Fault F_panic_lock.
Proof.
  intros [Hl Hc]. unfold spinlock_acquire_irqsave, bind, intr_disable, gets, modify, ret, bind.
  rewrite acquire_held_panics; [done|]. split; by rewrite lget_flags.
Qed.
End spinlock.
