(* ===== verification/SpinlockSpec.v ===== *)
(** * Nested critical sections

    A kernel path is a nest of critical sections, entered with
    [spinlock_acquire_irqsave] or with the plain [spinlock_acquire].  Whatever
    the nest, the interrupt state at the end is the one at the beginning and
    every lock is free again, provided no lock is taken inside its own
    section; taking one again panics. *)

From stdpp Require Import base numbers list gmap.
From S2P Require Import Prelude Spinlock.

(** A machine with the CPU flags and a table of locks. *)
Record machine := Machine { m_flags : Z; m_locks : gmap nat spinlock }.

#[global] Program Instance machine_flags : HasFlags machine := {
  get_rflags := m_flags;
  set_rflags r s := Machine r (m_locks s)
}.
Next Obligation. done. Qed.
Next Obligation. done. Qed.
Next Obligation. by intros []. Qed.

Definition the_lock (i : nat) (s : machine) : spinlock :=
  default spinlock_init (m_locks s !! i).

#[global] Program Definition lock (i : nat) : lockref machine := {|
  lget s := the_lock i s;
  lset l s := Machine (m_flags s) (<[i := l]> (m_locks s))
|}.
Next Obligation. intros i l s. unfold the_lock. simpl. by rewrite lookup_insert_eq. Qed.
Next Obligation. intros i l l' s. simpl. by rewrite insert_insert_eq. Qed.
Next Obligation. done. Qed.
Next Obligation. done. Qed.
Next Obligation. done. Qed.

(** ** Nests of critical sections *)

Inductive path :=
  | Skip
  | Seq (p q : path)
  | IrqSection (i : nat) (body : path)
  | PlainSection (i : nat) (body : path).

Fixpoint run_path (p : path) : M machine unit :=
  match p with
  | Skip => ret tt
  | Seq p q => run_path p ;;; run_path q
  | IrqSection i body =>
      flags <- spinlock_acquire_irqsave (lock i) ;;
      run_path body ;;;
      spinlock_release_irqrestore (lock i) flags
  | PlainSection i body =>
      spinlock_acquire (lock i) ;;;
      run_path body ;;;
      spinlock_release (lock i)
  end.

(** No section is entered while its own lock is held. *)
Fixpoint no_reentry (held : list nat) (p : path) : Prop :=
  match p with
  | Skip => True
  | Seq p q => no_reentry held p /\ no_reentry held q
  | IrqSection i body | PlainSection i body =>
      i ∉ held /\ no_reentry (i :: held) body
  end.

(** The locks in [held] are as they were, the others are free. *)
Definition balanced (held : list nat) (s s' : machine) : Prop :=
  m_flags s' = m_flags s /\
  (forall i, i ∈ held -> the_lock i s' = the_lock i s) /\
  (forall i, i ∉ held -> lock_idle (lock i) s').

Lemma the_lock_insert i j l f m :
  the_lock j (Machine f (<[i := l]> m)) =
  if decide (i = j) then l else the_lock j (Machine f m).
Proof. unfold the_lock. simpl. rewrite lookup_insert. by case_decide. Qed.

Lemma enter_others_idle i held l f s :
  (forall j, j ∉ held -> lock_idle (lock j) s) ->
  forall j, j ∉ i :: held -> lock_idle (lock j) (Machine f (<[i := l]> (m_locks s))).
Proof.
  intros Hidle j [Hji Hj]%not_elem_of_cons. unfold lock_idle. simpl.
  rewrite the_lock_insert. case_decide; [by subst|]. by apply (Hidle j).
Qed.

Lemma leave_balanced i held l f s s1 x :
  i ∉ held -> balanced (i :: held) (Machine f (<[i := l]> (m_locks s))) s1 ->
  the_lock i s1 = l /\
  balanced held s (Machine (m_flags s) (<[i := Spinlock 0 (-1) x]> (m_locks s1))).
Proof.
  intros Hi (_ & H1 & I1). split.
  { rewrite H1 by left. rewrite the_lock_insert. by case_decide. }
  split_and!; [done| |].
  - intros j Hj. rewrite the_lock_insert. case_decide; [by subst|].
    change (the_lock j (Machine _ (m_locks s1))) with (the_lock j s1).
    rewrite H1 by (by right). rewrite the_lock_insert. by case_decide.
  - intros j Hj. unfold lock_idle. simpl. rewrite the_lock_insert.
    case_decide; [done|]. apply (I1 j). apply not_elem_of_cons. naive_solver.
Qed.

Lemma run_path_balanced p held s :
  no_reentry held p -> (forall i, i ∉ held -> lock_idle (lock i) s) ->
  wp (run_path p) (fun _ => balanced held s) s.
Proof.
  revert held s. induction p as [|p IHp q IHq|i p IH|i p IH];
    simpl; intros held s Hok Hidle.
  - wp_step. by split_and!.
  - destruct Hok as [Hp Hq]. wp_step. wp_use IHp; [done|done|].
    intros [] s1 (F1 & H1 & I1). wp_use (IHq held s1); [done|done|].
    intros [] s2 (F2 & H2 & I2). split_and!; [congruence| |done].
    intros i Hi. rewrite H2, H1 by done. done.
  - destruct Hok as [Hi Hp]. wp_step. apply wp_acquire_irqsave; [by apply Hidle|].
    wp_step. wp_use (IH (i :: held)); [done|by apply enter_others_idle|].
    intros [] s1 Hb.
    eapply (leave_balanced _ _ _ _ s _ (sl_intr_save (the_lock i s1))) in Hb as [Hl Hb];
      [|done].
    apply wp_release_irqrestore; [|exact Hb]. unfold lock_held. simpl. by rewrite Hl.
  - destruct Hok as [Hi Hp]. wp_step. apply wp_acquire; [by apply Hidle|].
    wp_step. wp_use (IH (i :: held)); [done|by apply enter_others_idle|].
    intros [] s1 Hb.
    eapply (leave_balanced _ _ _ _ s _ (m_flags s)) in Hb as [Hl Hb]; [|done].
    apply wp_release; simpl; rewrite ?Hl; [|exact Hb].
    unfold lock_held. simpl. by rewrite Hl.
Qed.

(** C38: any nest of critical sections, on any locks, that never re-enters a
    lock runs to the end without a panic and without spinning; the CPU flags
    (the interrupt flag among them) are then what they were and every lock is
    free. *)
Theorem critical_sections_restore_interrupts (p : path) (s : machine) :
  no_reentry [] p -> (forall i, lock_idle (lock i) s) ->
  exists s', run_path p s = Ok (tt, s') /\ get_rflags s' = get_rflags s /\
    forall i, lock_idle (lock i) s'.
Proof.
  intros Hok Hidle. pose proof (run_path_balanced p [] s Hok ltac:(auto)) as H.
  apply wp_run in H. destruct H as ([] & s' & E & F & _ & I).
  exists s'. split_and!; [done|done|]. intros i. apply I. apply not_elem_of_nil.
Qed.

Lemma critical_sections_restore_interrupts_witness :
  exists s', run_path (IrqSection 0 (Seq (PlainSection 1 Skip) (IrqSection 2 Skip)))
      (Machine 0x246 ∅) = Ok (tt, s') /\
    get_rflags s' = get_rflags (Machine 0x246 ∅) /\ forall i, lock_idle (lock i) s'.
Proof.
  apply critical_sections_restore_interrupts.
  - simpl. set_solver.
  - intros i. reflexivity.
Defined.

(** Entering a critical section whose lock this CPU already holds panics
    ("recursive lock detected"), whether or not interrupts are saved. *)
Theorem critical_section_reentry_panics (i : nat) (p : path) (s : machine) :
  lock_idle (lock i) s ->
  run_path (IrqSection i (IrqSection i p)) s = Fault F_panic_lock /\
  run_path (PlainSection i (IrqSection i p)) s = Fault F_panic_lock.
Proof.
  intros Hidle. split.
  - assert (H : wp (spinlock_acquire_irqsave (lock i)) (fun _ => lock_held (lock i)) s).
    { apply wp_acquire_irqsave; [done|]. unfold lock_held. by rewrite lget_lset. }
    apply wp_run in H. destruct H as (f & s1 & E & Hh).
    simpl. unfold bind. rewrite E. by rewrite acquire_irqsave_held_panics.
  - assert (H : wp (spinlock_acquire (lock i)) (fun _ => lock_held (lock i)) s).
    { apply wp_acquire; [done|]. unfold lock_held. by rewrite lget_lset. }
    apply wp_run in H. destruct H as (f & s1 & E & Hh).
    simpl. unfold bind. rewrite E. by rewrite acquire_irqsave_held_panics.
Qed.

Lemma critical_section_reentry_panics_witness :
  run_path (IrqSection 3 (IrqSection 3 Skip)) (Machine 0x202 ∅) = Fault F_panic_lock /\
  run_path (PlainSection 3 (IrqSection 3 Skip)) (Machine 0x202 ∅) = Fault F_panic_lock.
Proof. apply (critical_section_reentry_panics 3 Skip). reflexivity. Defined.
