(* ===== verification/Kernel.v ===== *)
(** * The kernel state around a component

    Most components keep their own structures and call three services: the
    interrupt flags of the CPU (through spinlocks), the kernel heap and the
    virtual file system.  [kst A E] is the state such a component runs in: the
    flags, the open-file objects of [vfs.c], the component's own structures
    [A], and an environment [E] that answers for the services.  The services
    are interfaces: [KernelHeap] is what callers rely on of [kmalloc] and
    [kfree]; [VnodeLayer] is what the open-file layer relies on of path lookup
    and of the file-system drivers' operation tables. *)

From stdpp Require Import base numbers list gmap strings.
From S2P Require Import Prelude Spinlock.

(** ** Error numbers ([sys/errno.h]) *)
Definition ENOENT : Z := 2.
Definition EIO : Z := 5.
Definition EBADF : Z := 9.
Definition ENOMEM : Z := 12.
Definition EFAULT : Z := 14.
Definition EEXIST : Z := 17.
Definition ENODEV : Z := 19.
Definition ENOTDIR : Z := 20.
Definition EINVAL : Z := 22.
Definition ENOSPC : Z := 28.
Definition EROFS : Z := 30.
Definition ENAMETOOLONG : Z := 63.
Definition ENOSYS : Z := 78.

(** ** Service interfaces *)

(** [kmalloc n] gives the (unspecified) contents of a fresh block of [n]
    bytes, or [None] for a null pointer; a request of zero bytes gives null.
    [kfree] of a block obtained from it always succeeds. *)
Class KernelHeap (E : Type) := {
  kmalloc : Z -> E -> option (list Z) * E;
  kfree : E -> E;
  kmalloc_length n e b e' :
    kmalloc n e = (Some b, e') -> Z.of_nat (length b) = n /\ 0 < n
}.

(** A vnode is named by its address.  An operation of a driver's table is
    [None] when the table or the entry is a null pointer.  [vl_read] returns
    the bytes it stored in the caller's buffer with its result. *)
Class VnodeLayer (E : Type) := {
  vl_lookup : string -> E -> res ((Z * Z) * E);
  vl_create : string -> Z -> E -> res (Z * E);
  vl_unref : Z -> E -> res (unit * E);
  vl_mode : Z -> E -> Z;
  vl_size : Z -> E -> Z;
  vl_size_locked : Z -> E -> res (Z * E);
  vl_update_atime : Z -> E -> E;
  vl_update_mtime : Z -> E -> E;
  vl_read : Z -> option (Z -> Z -> E -> res ((Z * list Z) * E));
  vl_write : Z -> option (list Z -> Z -> E -> res (Z * E));
  vl_truncate : Z -> option (Z -> E -> res (Z * E));
  vl_sync : Z -> option (E -> res (Z * E))
}.

(** ** Open files ([vfs_file_t]) *)

Record vfs_file := File {
  f_vnode : Z;
  f_offset : Z;
  f_flags : Z;
  f_refcount : Z;
  f_lock : spinlock
}.

Definition file0 : vfs_file := File 0 0 0 0 spinlock_init.
Definition f_set_offset (o : Z) (f : vfs_file) : vfs_file :=
  File (f_vnode f) o (f_flags f) (f_refcount f) (f_lock f).
Definition f_set_refcount (n : Z) (f : vfs_file) : vfs_file :=
  File (f_vnode f) (f_offset f) (f_flags f) n (f_lock f).
Definition f_set_lock (l : spinlock) (f : vfs_file) : vfs_file :=
  File (f_vnode f) (f_offset f) (f_flags f) (f_refcount f) l.

(** ** The state *)

Record kst (A E : Type) := Kst {
  k_flags : Z;
  k_files : gmap Z vfs_file;
  k_reads : Z;
  k_writes : Z;
  k_stats_lock : spinlock;
  k_obj : A;
  k_env : E
}.
Arguments Kst {A E} _ _ _ _ _ _ _.
Arguments k_flags {A E} _.
Arguments k_files {A E} _.
Arguments k_reads {A E} _.
Arguments k_writes {A E} _.
Arguments k_stats_lock {A E} _.
Arguments k_obj {A E} _.
Arguments k_env {A E} _.

(** A pointer argument to the component's object, which may be null. *)
Inductive ptr := PNull | PObj.

Section kst.
Context {A E : Type}.
Implicit Types (s : kst A E).

Definition set_files (m : gmap Z vfs_file) s : kst A E :=
  Kst (k_flags s) m (k_reads s) (k_writes s) (k_stats_lock s) (k_obj s) (k_env s).
Definition set_obj (a : A) s : kst A E :=
  Kst (k_flags s) (k_files s) (k_reads s) (k_writes s) (k_stats_lock s) a (k_env s).
Definition set_env (e : E) s : kst A E :=
  Kst (k_flags s) (k_files s) (k_reads s) (k_writes s) (k_stats_lock s) (k_obj s) e.
Definition count_read s : kst A E :=
  Kst (k_flags s) (k_files s) (u64 (k_reads s + 1)) (k_writes s) (k_stats_lock s) (k_obj s) (k_env s).
Definition count_write s : kst A E :=
  Kst (k_flags s) (k_files s) (k_reads s) (u64 (k_writes s + 1)) (k_stats_lock s) (k_obj s) (k_env s).

#[global] Program Instance kst_flags : HasFlags (kst A E) := {
  get_rflags := k_flags;
  set_rflags r s := Kst r (k_files s) (k_reads s) (k_writes s) (k_stats_lock s) (k_obj s) (k_env s)
}.
Next Obligation. done. Qed.
Next Obligation. done. Qed.
Next Obligation. by intros []. Qed.

(** A call of a service. *)
Definition env {X : Type} (f : E -> res (X * E)) : M (kst A E) X :=
  fun s => match f (k_env s) with
           | Ok (x, e) => Ok (x, set_env e s)
           | Fault g => Fault g
           end.
Definition env_pure {X : Type} (f : E -> X * E) : M (kst A E) X :=
  env (fun e => Ok (f e)).

Lemma wp_env {X : Type} (f : E -> res (X * E)) x e (Q : X -> kst A E -> Prop) s :
  f (k_env s) = Ok (x, e) -> Q x (set_env e s) -> wp (env f) Q s.
Proof. unfold wp, env. by intros ->. Qed.

(** The component's object. *)
Definition obj {X : Type} (f : A -> X) : M (kst A E) X := gets (fun s => f (k_obj s)).
Definition upd (f : A -> A) : M (kst A E) unit :=
  modify (fun s => set_obj (f (k_obj s)) s).

(** A lock that lives in the component's object. *)
Program Definition obj_lock (get : A -> spinlock) (set : spinlock -> A -> A)
    (Hgs : forall l a, get (set l a) = l)
    (Hss : forall l l' a, set l (set l' a) = set l a) : lockref (kst A E) := {|
  lget s := get (k_obj s);
  lset l s := set_obj (set l (k_obj s)) s
|}.
Next Obligation. intros. simpl. apply Hgs. Qed.
Next Obligation. intros. unfold set_obj. simpl. by rewrite Hss. Qed.
Next Obligation. done. Qed.
Next Obligation. done. Qed.
Next Obligation. done. Qed.

(** [vfs_stats_lock]. *)
Program Definition stats_lock : lockref (kst A E) := {|
  lget s := k_stats_lock s;
  lset l s := Kst (k_flags s) (k_files s) (k_reads s) (k_writes s) l (k_obj s) (k_env s)
|}.
Next Obligation. done. Qed.
Next Obligation. done. Qed.
Next Obligation. done. Qed.
Next Obligation. done. Qed.
Next Obligation. done. Qed.

(** The lock of an open file. *)
Definition file_at (p : Z) s : vfs_file := default file0 (k_files s !! p).

Program Definition file_lock (p : Z) : lockref (kst A E) := {|
  lget s := f_lock (file_at p s);
  lset l s := set_files (<[p := f_set_lock l (file_at p s)]> (k_files s)) s
|}.
Next Obligation. intros. unfold file_at. simpl. by rewrite lookup_insert_eq. Qed.
Next Obligation.
  intros. unfold set_files, file_at. simpl. rewrite lookup_insert_eq, insert_insert_eq. done.
Qed.
Next Obligation. done. Qed.
Next Obligation. done. Qed.
Next Obligation. done. Qed.
End kst.

(** ** The critical section of a component's lock

    A component whose object has one lock takes it with interrupts off, works
    on the object, and gives both back.  [inside s a] is the state of such a
    section entered from [s], with the object now [a]; [outside s a] is the
    state after it. *)

Class HasLock (A : Type) := {
  lk_get : A -> spinlock;
  lk_set : spinlock -> A -> A;
  lk_get_set l a : lk_get (lk_set l a) = l;
  lk_set_set l l' a : lk_set l (lk_set l' a) = lk_set l a
}.

Section locked.
Context {A E : Type} `{HasLock A}.
Implicit Types (s : kst A E) (a : A).

Definition the_lock_of : lockref (kst A E) := obj_lock lk_get lk_set lk_get_set lk_set_set.
Definition lock_obj : M (kst A E) Z := spinlock_acquire_irqsave the_lock_of.
Definition unlock_obj (flags : Z) : M (kst A E) unit :=
  spinlock_release_irqrestore the_lock_of flags.

Definition inside s a : kst A E :=
  Kst (no_irq (k_flags s)) (k_files s) (k_reads s) (k_writes s) (k_stats_lock s)
    (lk_set (Spinlock 1 get_cpu_id (no_irq (k_flags s))) a) (k_env s).

Definition outside s a : kst A E :=
  Kst (k_flags s) (k_files s) (k_reads s) (k_writes s) (k_stats_lock s)
    (lk_set (rest_lock (k_flags s)) a) (k_env s).

Definition obj_idle s : Prop := sl_locked (lk_get (k_obj s)) = 0.

Lemma outside_idle s a : obj_idle (outside s a).
Proof. unfold obj_idle. simpl. by rewrite lk_get_set. Qed.

Lemma wp_lock_obj (Q : Z -> kst A E -> Prop) s :
  obj_idle s -> Q (k_flags s) (inside s (k_obj s)) -> wp lock_obj Q s.
Proof. intros Hi HQ. unfold lock_obj. by apply wp_acquire_irqsave. Qed.

Lemma wp_unlock_obj (Q : unit -> kst A E -> Prop) s a :
  Q tt (outside s a) -> wp (unlock_obj (k_flags s)) Q (inside s a).
Proof.
  intros HQ. unfold unlock_obj. apply wp_release_irqrestore.
  - unfold lock_held. simpl. by rewrite lk_get_set.
  - revert HQ. unfold outside, set_obj, rest_lock. simpl. by rewrite lk_get_set, lk_set_set.
Qed.

Lemma wp_upd_in (f : A -> A) (Q : unit -> kst A E -> Prop) s a :
  (forall l, f (lk_set l a) = lk_set l (f a)) ->
  Q tt (inside s (f a)) -> wp (upd f) Q (inside s a).
Proof. intros Hf HQ. unfold upd. wp_step. unfold set_obj. simpl. by rewrite Hf. Qed.

Lemma wp_obj_in {X : Type} (g : A -> X) (Q : X -> kst A E -> Prop) s a :
  (forall l, g (lk_set l a) = g a) ->
  Q (g a) (inside s a) -> wp (obj g) Q (inside s a).
Proof. intros Hg HQ. unfold obj. wp_step. simpl. by rewrite Hg. Qed.

Lemma wp_obj {X : Type} (g : A -> X) (Q : X -> kst A E -> Prop) s :
  Q (g (k_obj s)) s -> wp (obj g) Q s.
Proof. done. Qed.
End locked.

(** Symbolic execution in and around a critical section. *)
Ltac ba_step :=
  lazymatch goal with
  | |- wp (bind _ _) _ _ => apply wp_bind
  | |- wp (ret _) _ _ => apply wp_ret
  | |- wp (obj _) _ (inside _ _) => apply wp_obj_in; [reflexivity|]
  | |- wp (upd _) _ (inside _ _) => apply wp_upd_in; [reflexivity|]
  | |- wp (unlock_obj _) _ (inside _ _) => apply wp_unlock_obj
  | |- wp (obj _) _ _ => apply wp_obj
  end; cbv beta.
Ltac ba_steps := repeat ba_step.

(** ** Running a component inside a larger one *)

Record lens (A B : Type) := Lens {
  view : A -> B;
  put : B -> A -> A;
  view_put b a : view (put b a) = b;
  put_put b b' a : put b (put b' a) = put b a;
  put_view a : put (view a) a = a
}.
Arguments view {A B} _ _.
Arguments put {A B} _ _ _.

Definition zoom {A B E X : Type} (l : lens A B) (m : M (kst B E) X) : M (kst A E) X :=
  fun s => match m (
             Kst (k_flags s) (k_files s) (k_reads s) (k_writes s) (k_stats_lock s)
               (view l (k_obj s)) (k_env s))
           with
           | Ok (x, s') =>
               Ok (x, Kst (k_flags s') (k_files s') (k_reads s') (k_writes s') (k_stats_lock s')
                        (put l (k_obj s') (k_obj s)) (k_env s'))
           | Fault f => Fault f
           end.
