(* ===== verification/VfsFile.v ===== *)
(** * Open files ([sys/src/libfs/vfs.c], the [vfs_file_t] operations)

    [vfs_open], [vfs_close], [vfs_read], [vfs_write], [vfs_seek],
    [vfs_file_dup] and [vfs_fsync], above the vnode layer.  A file pointer is
    its address in [k_files]; a null or dangling one faults where the code
    dereferences it. *)

From stdpp Require Import base numbers list gmap strings.
From S2P Require Import Prelude Spinlock Kernel.

Definition VFS_O_RDONLY : Z := 0x0000.
Definition VFS_O_WRONLY : Z := 0x0001.
Definition VFS_O_RDWR : Z := 0x0002.
Definition VFS_O_APPEND : Z := 0x0008.
Definition VFS_O_CREAT : Z := 0x0200.
Definition VFS_O_TRUNC : Z := 0x0400.
Definition VFS_O_EXCL : Z := 0x0800.

Inductive whence := VFS_SEEK_SET | VFS_SEEK_CUR | VFS_SEEK_END | VFS_SEEK_BAD.

Definition sizeof_vfs_file : Z := 56.

(** A C condition [flags & mask]. *)
Definition has_flag (flags mask : Z) : bool := negb (Z.land flags mask =? 0).

(** A fresh non-null address for an object of a table. *)
Definition fresh_addr {B : Type} (m : gmap Z B) : Z :=
  1 + map_fold (fun k _ acc => Z.max (Z.abs k) acc) 0 m.

Section vfs_file.
Context {A E : Type} `{KernelHeap E} `{VnodeLayer E}.
Abbreviation K := (M (kst A E)).

Definition the_file (p : Z) : K vfs_file :=
  m <- gets k_files ;;
  match m !! p with Some f => ret f | None => throw F_null end.

Definition upd_file (p : Z) (g : vfs_file -> vfs_file) : K unit :=
  f <- the_file p ;;
  modify (fun s => set_files (<[p := g f]> (k_files s)) s).

Definition vfs_open (path : option string) (flags mode : Z) : K (Z * Z) :=
  match path with
  | None => ret (-EINVAL, NULL)
  | Some path =>
      res <- env (vl_lookup path) ;;
      let '(r0, v0) := res in
      found <- (
        if r0 =? 0 then
          if has_flag flags VFS_O_CREAT && has_flag flags VFS_O_EXCL then
            env (vl_unref v0) ;;; ret (inr (-EEXIST))
          else ret (inl v0)
        else if r0 =? -ENOENT then
          if has_flag flags VFS_O_CREAT then
            r1 <- env (vl_create path mode) ;;
            if negb (r1 =? 0) then ret (inr r1)
            else
              res <- env (vl_lookup path) ;;
              let '(r2, v2) := res in
              if negb (r2 =? 0) then ret (inr r2) else ret (inl v2)
          else ret (inr (-ENOENT))
        else ret (inr r0)) ;;
      match found with
      | inr r => ret (r, NULL)
      | inl vnode =>
          b <- env_pure (kmalloc sizeof_vfs_file) ;;
          match b with
          | None => env (vl_unref vnode) ;;; ret (-ENOMEM, NULL)
          | Some _ =>
              p <- gets (fun s => fresh_addr (k_files s)) ;;
              modify (fun s => set_files
                (<[p := File vnode 0 flags 1 spinlock_init]> (k_files s)) s) ;;;
              rt <- (
                if has_flag flags VFS_O_TRUNC then
                  match vl_truncate vnode with
                  | Some tr => env (tr 0)
                  | None => ret 0
                  end
                else ret 0) ;;
              if negb (rt =? 0) then
                modify (fun s => set_files (delete p (k_files s)) s) ;;;
                env_pure (fun e => (tt, kfree e)) ;;;
                env (vl_unref vnode) ;;;
                ret (rt, NULL)
              else ret (0, p)
          end
      end
  end.

Definition vfs_close (file : Z) : K Z :=
  if file =? NULL then ret (-EINVAL)
  else
    flags <- spinlock_acquire_irqsave (file_lock file) ;;
    upd_file file (fun f => f_set_refcount (u32 (f_refcount f - 1)) f) ;;;
    f <- the_file file ;;
    if 0 <? f_refcount f then
      spinlock_release_irqrestore (file_lock file) flags ;;;
      ret 0
    else
      spinlock_release_irqrestore (file_lock file) flags ;;;
      f <- the_file file ;;
      env (vl_unref (f_vnode f)) ;;;
      modify (fun s => set_files (delete file (k_files s)) s) ;;;
      env_pure (fun e => (tt, kfree e)) ;;;
      ret 0.

(** [file->f_offset] read and written under [f_lock]. *)
Definition get_offset (file : Z) : K Z :=
  flags <- spinlock_acquire_irqsave (file_lock file) ;;
  f <- the_file file ;;
  spinlock_release_irqrestore (file_lock file) flags ;;;
  ret (f_offset f).

Definition set_offset (file offset : Z) : K unit :=
  flags <- spinlock_acquire_irqsave (file_lock file) ;;
  upd_file file (f_set_offset offset) ;;;
  spinlock_release_irqrestore (file_lock file) flags.

Definition bump_stats (g : kst A E -> kst A E) : K unit :=
  flags <- spinlock_acquire_irqsave stats_lock ;;
  modify g ;;;
  spinlock_release_irqrestore stats_lock flags.

(** The caller's buffer is not null; the bytes stored in it come back with the
    result. *)
Definition vfs_read (file count : Z) : K (Z * list Z) :=
  if file =? NULL then ret (-EINVAL, [])
  else
    f <- the_file file ;;
    if negb (has_flag (f_flags f) (Z.lor VFS_O_RDONLY VFS_O_RDWR)) then
      ret (-EBADF, [])
    else
      match vl_read (f_vnode f) with
      | None => ret (-ENOSYS, [])
      | Some read =>
          offset <- get_offset file ;;
          res <- env (read count offset) ;;
          let '(bytes, buf) := res in
          (if 0 <? bytes then
             set_offset file (s64 (offset + bytes)) ;;;
             env_pure (fun e => (tt, vl_update_atime (f_vnode f) e)) ;;;
             bump_stats count_read
           else ret tt) ;;;
          ret (bytes, buf)
      end.

Definition vfs_write (file : Z) (buf : list Z) : K Z :=
  if file =? NULL then ret (-EINVAL)
  else
    f <- the_file file ;;
    if negb (has_flag (f_flags f) (Z.lor VFS_O_WRONLY VFS_O_RDWR)) then ret (-EBADF)
    else
      match vl_write (f_vnode f) with
      | None => ret (-ENOSYS)
      | Some write =>
          offset <- (if has_flag (f_flags f) VFS_O_APPEND
                     then env (vl_size_locked (f_vnode f))
                     else get_offset file) ;;
          bytes <- env (write buf offset) ;;
          (if 0 <? bytes then
             set_offset file (s64 (offset + bytes)) ;;;
             env_pure (fun e => (tt, vl_update_mtime (f_vnode f) e)) ;;;
             bump_stats count_write
           else ret tt) ;;;
          ret bytes
      end.

(** [f_vnode->v_size] is read without the vnode's lock here. *)
Definition vfs_seek (file offset : Z) (w : whence) : K Z :=
  if file =? NULL then ret (-EINVAL)
  else
    flags <- spinlock_acquire_irqsave (file_lock file) ;;
    f <- the_file file ;;
    e <- gets k_env ;;
    let new_offset :=
      match w with
      | VFS_SEEK_SET => Some offset
      | VFS_SEEK_CUR => Some (s64 (f_offset f + offset))
      | VFS_SEEK_END => Some (s64 (vl_size (f_vnode f) e + offset))
      | VFS_SEEK_BAD => None
      end in
    match new_offset with
    | None => spinlock_release_irqrestore (file_lock file) flags ;;; ret (-EINVAL)
    | Some new_offset =>
        if new_offset <? 0 then
          spinlock_release_irqrestore (file_lock file) flags ;;; ret (-EINVAL)
        else
          upd_file file (f_set_offset new_offset) ;;;
          spinlock_release_irqrestore (file_lock file) flags ;;;
          ret new_offset
    end.

Definition vfs_file_dup (file : Z) : K Z :=
  if file =? NULL then ret NULL
  else
    flags <- spinlock_acquire_irqsave (file_lock file) ;;
    upd_file file (fun f => f_set_refcount (u32 (f_refcount f + 1)) f) ;;;
    spinlock_release_irqrestore (file_lock file) flags ;;;
    ret file.

Definition vfs_fsync (file : Z) : K Z :=
  if file =? NULL then ret (-EINVAL)
  else
    f <- the_file file ;;
    match vl_sync (f_vnode f) with
    | None => ret (-ENOSYS)
    | Some sync => env sync
    end.
End vfs_file.
