(* ===== verification/VfsFileFacts.v ===== *)
(** * Open files: specifications of the operations

    Each operation on an open, unlocked file is described by the state it
    ends in; the file's lock is free again and the interrupt flags are those
    of the caller.  [BlockStore] states what a driver's [read], [write] and
    [sync] promise: a byte store per vnode. *)

From stdpp Require Import base numbers list list_numbers gmap strings.
From S2P Require Import Prelude Spinlock Kernel VfsFile.

(** What the drivers promise: vnode [v] holds the bytes [contents v]; [read]
    and [write] never fault, transfer a prefix of what is asked, and only
    [write] changes the bytes, at the offset given; an error is a negative
    [int]. *)
Class BlockStore (E : Type) `{KernelHeap E} `{VnodeLayer E} := {
  contents : Z -> E -> Z -> Z;
  store_read v rd n off e :
    vl_read v = Some rd ->
    exists r buf e', rd n off e = Ok ((r, buf), e') /\
      contents v e' = contents v e /\ Z.of_nat (length buf) <= Z.max 0 n /\ - 2 ^ 31 <= r /\
      (0 < r -> Z.of_nat (length buf) = r /\
         forall i, 0 <= i < r -> buf !! Z.to_nat i = Some (contents v e (off + i)));
  store_write v wr buf off e :
    vl_write v = Some wr ->
    exists r e', wr buf off e = Ok (r, e') /\ - 2 ^ 31 <= r <= Z.of_nat (length buf) /\
      forall x, contents v e' x =
        if (off <=? x) && (x <? off + r)
        then default 0 (buf !! Z.to_nat (x - off)) else contents v e x;
  store_sync v sy e :
    vl_sync v = Some sy ->
    exists r e', sy e = Ok (r, e') /\ contents v e' = contents v e;
  store_unref v w e :
    exists e', vl_unref w e = Ok (tt, e') /\ contents v e' = contents v e;
  store_atime v w e : contents v (vl_update_atime w e) = contents v e;
  store_mtime v w e : contents v (vl_update_mtime w e) = contents v e;
  store_kfree v e : contents v (kfree e) = contents v e
}.

(** Drivers that transfer everything they are asked for between the bytes
    [lo] and [hi] of their device, and whose flush succeeds. *)
Definition reads_fully {E} (lo hi : Z) (rd : Z -> Z -> E -> res ((Z * list Z) * E)) : Prop :=
  forall n off e, 0 <= n -> lo <= off -> off + n <= hi ->
    exists buf e', rd n off e = Ok ((n, buf), e').

Definition writes_fully {E} (lo hi : Z) (wr : list Z -> Z -> E -> res (Z * E)) : Prop :=
  forall buf off e, lo <= off -> off + Z.of_nat (length buf) <= hi ->
    exists e', wr buf off e = Ok (Z.of_nat (length buf), e').

Definition syncs_fully {E} (sy : E -> res (Z * E)) : Prop :=
  forall e, exists e', sy e = Ok (0, e').

Section facts.
Context {A E : Type} `{KernelHeap E} `{VnodeLayer E}.
Implicit Types (s : kst A E) (f : vfs_file).

Definition put_file (p : Z) f s : kst A E := set_files (<[p := f]> (k_files s)) s.

Record file_open (p : Z) f s : Prop := {
  fo_ptr : p <> NULL;
  fo_file : k_files s !! p = Some f;
  fo_idle : sl_locked (f_lock f) = 0
}.

(** The file as it is after a critical section of its lock. *)
Definition rested s f : vfs_file := f_set_lock (rest_lock (k_flags s)) f.

Lemma file_at_open p f s : k_files s !! p = Some f -> file_at p s = f.
Proof. intros Hf. unfold file_at. by rewrite Hf. Qed.

(** Inside the critical section of file [p], whose contents are now [f]. *)
Definition fheld s p f : kst A E :=
  Kst (no_irq (k_flags s))
    (<[p := f_set_lock (Spinlock 1 get_cpu_id (no_irq (k_flags s))) f]> (k_files s))
    (k_reads s) (k_writes s) (k_stats_lock s) (k_obj s) (k_env s).

Lemma wp_facquire (Q : Z -> kst A E -> Prop) p f s :
  file_open p f s -> Q (k_flags s) (fheld s p f) ->
  wp (spinlock_acquire_irqsave (file_lock p)) Q s.
Proof.
  intros [Hp Hf Hi] HQ. apply wp_acquire_irqsave.
  - unfold lock_idle. simpl. by rewrite (file_at_open _ _ _ Hf).
  - revert HQ. unfold fheld, file_at. simpl. unfold file_at. simpl. by rewrite Hf.
Qed.

Lemma wp_frelease (Q : unit -> kst A E -> Prop) p f s :
  Q tt (put_file p (rested s f) s) ->
  wp (spinlock_release_irqrestore (file_lock p) (k_flags s)) Q (fheld s p f).
Proof.
  intros HQ. apply wp_release_irqrestore.
  - unfold lock_held. simpl. unfold file_at. simpl. by rewrite lookup_insert_eq.
  - revert HQ. unfold put_file, set_files, rested, rest_lock. simpl. unfold file_at. simpl.
    by rewrite !lookup_insert_eq, insert_insert_eq.
Qed.

Lemma wp_the_file (Q : vfs_file -> kst A E -> Prop) p f s :
  k_files s !! p = Some f -> Q f s -> wp (the_file p) Q s.
Proof. intros Hf HQ. unfold the_file. wp_step. wp_step. by rewrite Hf. Qed.

Lemma wp_the_file_held (Q : vfs_file -> kst A E -> Prop) p f s :
  Q (f_set_lock (Spinlock 1 get_cpu_id (no_irq (k_flags s))) f) (fheld s p f) ->
  wp (the_file p) Q (fheld s p f).
Proof. intros HQ. eapply wp_the_file; [|exact HQ]. simpl. by rewrite lookup_insert_eq. Qed.

Lemma wp_upd_file_held (Q : unit -> kst A E -> Prop) p g f s :
  (forall l, g (f_set_lock l f) = f_set_lock l (g f)) ->
  Q tt (fheld s p (g f)) -> wp (upd_file p g) Q (fheld s p f).
Proof.
  intros Hg HQ. unfold upd_file. wp_step. apply wp_the_file_held. wp_step.
  revert HQ. unfold fheld, set_files. simpl. by rewrite insert_insert_eq, Hg.
Qed.

Lemma wp_get_offset (Q : Z -> kst A E -> Prop) p f s :
  file_open p f s -> Q (f_offset f) (put_file p (rested s f) s) -> wp (get_offset p) Q s.
Proof.
  intros Ho HQ. unfold get_offset. wp_step. eapply wp_facquire; [done|].
  wp_step. apply wp_the_file_held. wp_step. apply wp_frelease. by wp_step.
Qed.

Lemma wp_set_offset (Q : unit -> kst A E -> Prop) p f s off :
  file_open p f s -> Q tt (put_file p (rested s (f_set_offset off f)) s) ->
  wp (set_offset p off) Q s.
Proof.
  intros Ho HQ. unfold set_offset. wp_step. eapply wp_facquire; [done|].
  wp_step. apply wp_upd_file_held; [done|]. by apply wp_frelease.
Qed.

Lemma put_put p f f' s : put_file p f (put_file p f' s) = put_file p f s.
Proof. unfold put_file, set_files. simpl. by rewrite insert_insert_eq. Qed.

(** [vfs_stats_lock] taken and released around a counter. *)
Definition stats_rest s : kst A E :=
  Kst (k_flags s) (k_files s) (k_reads s) (k_writes s) (rest_lock (k_flags s)) (k_obj s) (k_env s).

Definition stats_idle s : Prop := sl_locked (k_stats_lock s) = 0.

Lemma wp_bump_read (Q : unit -> kst A E -> Prop) s :
  stats_idle s -> Q tt (stats_rest (count_read s)) -> wp (bump_stats count_read) Q s.
Proof.
  intros Hi HQ. unfold bump_stats. wp_step. apply wp_acquire_irqsave; [done|].
  wp_step. wp_step. apply wp_release_irqrestore; [done|]. exact HQ.
Qed.

Lemma wp_bump_write (Q : unit -> kst A E -> Prop) s :
  stats_idle s -> Q tt (stats_rest (count_write s)) -> wp (bump_stats count_write) Q s.
Proof.
  intros Hi HQ. unfold bump_stats. wp_step. apply wp_acquire_irqsave; [done|].
  wp_step. wp_step. apply wp_release_irqrestore; [done|]. exact HQ.
Qed.

(** ** The operations *)

Lemma wp_vfs_seek_set (Q : Z -> kst A E -> Prop) p f s off :
  file_open p f s ->
  (if off <? 0 then Q (-EINVAL) (put_file p (rested s f) s)
   else Q off (put_file p (rested s (f_set_offset off f)) s)) ->
  wp (vfs_seek p off VFS_SEEK_SET) Q s.
Proof.
  intros Ho HQ. unfold vfs_seek. rewrite (proj2 (Z.eqb_neq _ _) (fo_ptr _ _ _ Ho)).
  wp_step. eapply wp_facquire; [done|]. wp_step. apply wp_the_file_held. wp_step. wp_step.
  destruct (off <? 0).
  - wp_step. apply wp_frelease. by wp_step.
  - wp_step. apply wp_upd_file_held; [done|]. wp_step. apply wp_frelease. by wp_step.
Qed.

Lemma vfs_read_not_rdwr p f s n :
  file_open p f s -> has_flag (f_flags f) VFS_O_RDWR = false ->
  vfs_read p n s = Ok ((-EBADF, []), s).
Proof.
  intros [Hp Hf _] Hfl. unfold vfs_read, bind, the_file, gets.
  rewrite (proj2 (Z.eqb_neq _ _) Hp). unfold bind. rewrite Hf. unfold ret.
  change (Z.lor VFS_O_RDONLY VFS_O_RDWR) with VFS_O_RDWR. by rewrite Hfl.
Qed.

(** The state after a transfer of [n] bytes from offset [off]. *)
Definition moved (p : Z) f (n : Z) (e : E) s : kst A E :=
  set_env e (put_file p (rested s (f_set_offset (s64 (f_offset f + n)) f)) s).

Lemma wp_vfs_read (Q : Z * list Z -> kst A E -> Prop) p f s n rd r buf e :
  file_open p f s -> stats_idle s -> has_flag (f_flags f) VFS_O_RDWR = true ->
  vl_read (f_vnode f) = Some rd -> rd n (f_offset f) (k_env s) = Ok ((r, buf), e) ->
  (if 0 <? r
   then Q (r, buf) (stats_rest (count_read (moved p f r (vl_update_atime (f_vnode f) e) s)))
   else Q (r, buf) (set_env e (put_file p (rested s f) s))) ->
  wp (vfs_read p n) Q s.
Proof.
  intros Ho Hst Hfl Hrd Hrun HQ. unfold vfs_read.
  rewrite (proj2 (Z.eqb_neq _ _) (fo_ptr _ _ _ Ho)). wp_step.
  eapply wp_the_file; [apply Ho|].
  change (Z.lor VFS_O_RDONLY VFS_O_RDWR) with VFS_O_RDWR. rewrite Hfl, Hrd. simpl.
  wp_step. eapply wp_get_offset; [done|]. wp_step. eapply wp_env; [done|].
  cbv iota beta. wp_step. destruct (0 <? r); [|by wp_steps].
  wp_step. eapply (wp_set_offset _ p (rested s f)).
  { split; [apply Ho| |done]. simpl. by rewrite lookup_insert_eq. }
  wp_step. eapply wp_env; [done|]. apply wp_bump_read; [done|]. wp_step.
  revert HQ. unfold moved, put_file, set_files, set_env, stats_rest. simpl.
  by rewrite insert_insert_eq.
Qed.

Lemma wp_vfs_write (Q : Z -> kst A E -> Prop) p f s buf wr r e :
  file_open p f s -> stats_idle s ->
  has_flag (f_flags f) (Z.lor VFS_O_WRONLY VFS_O_RDWR) = true ->
  has_flag (f_flags f) VFS_O_APPEND = false ->
  vl_write (f_vnode f) = Some wr -> wr buf (f_offset f) (k_env s) = Ok (r, e) ->
  (if 0 <? r
   then Q r (stats_rest (count_write (moved p f r (vl_update_mtime (f_vnode f) e) s)))
   else Q r (set_env e (put_file p (rested s f) s))) ->
  wp (vfs_write p buf) Q s.
Proof.
  intros Ho Hst Hfl Hap Hwr Hrun HQ. unfold vfs_write.
  rewrite (proj2 (Z.eqb_neq _ _) (fo_ptr _ _ _ Ho)). wp_step.
  eapply wp_the_file; [apply Ho|]. rewrite Hfl, Hwr, Hap. cbn [negb].
  wp_step. eapply wp_get_offset; [done|]. wp_step. eapply wp_env; [done|].
  destruct (0 <? r); wp_step; [|by wp_steps].
  wp_step. eapply (wp_set_offset _ p (rested s f)).
  { split; [apply Ho| |done]. simpl. by rewrite lookup_insert_eq. }
  wp_step. eapply wp_env; [done|]. apply wp_bump_write; [done|]. wp_step.
  revert HQ. unfold moved, put_file, set_files, set_env, stats_rest. simpl.
  by rewrite insert_insert_eq.
Qed.

Lemma wp_vfs_close (Q : Z -> kst A E -> Prop) p f s e :
  file_open p f s -> 0 < f_refcount f < 2 ^ 32 ->
  vl_unref (f_vnode f) (k_env s) = Ok (tt, e) ->
  (if f_refcount f =? 1
   then Q 0 (set_env (kfree e) (set_files (delete p (k_files s)) s))
   else Q 0 (put_file p (rested s (f_set_refcount (f_refcount f - 1) f)) s)) ->
  wp (vfs_close p) Q s.
Proof.
  intros Ho Hrc Hun HQ. unfold vfs_close.
  rewrite (proj2 (Z.eqb_neq _ _) (fo_ptr _ _ _ Ho)). wp_step.
  eapply wp_facquire; [done|]. wp_step. apply wp_upd_file_held; [done|]. wp_step.
  apply wp_the_file_held. simpl f_refcount.
  assert (Hu : u32 (f_refcount f - 1) = f_refcount f - 1).
  { unfold u32. apply Z.mod_small. lia. }
  rewrite Hu. destruct (Z.eqb_spec (f_refcount f) 1) as [E1|E1].
  - rewrite (proj2 (Z.ltb_ge _ _)) by lia. wp_step. apply wp_frelease. wp_step.
    eapply wp_the_file; [simpl; by rewrite lookup_insert_eq|]. wp_step.
    eapply wp_env; [done|]. wp_step. wp_step. wp_step. eapply wp_env; [done|]. wp_step.
    revert HQ. unfold put_file, set_files, set_env. simpl.
    by rewrite delete_insert_eq.
  - rewrite (proj2 (Z.ltb_lt _ _)) by lia. wp_step. apply wp_frelease. by wp_step.
Qed.
End facts.

(** ** Transfers at a given offset, on a byte store *)

(** [s'] is [s] with file [p] moved: still open on the same vnode, nothing of
    the component's object or of the caller's flags changed. *)
Record moved_from {A E : Type} (p : Z) (f : vfs_file) (s s' : kst A E) (f' : vfs_file) : Prop := {
  mv_open : file_open p f' s';
  mv_vnode : f_vnode f' = f_vnode f;
  mv_flags : f_flags f' = f_flags f;
  mv_refs : f_refcount f' = f_refcount f;
  mv_files : k_files s' = <[p := f']> (k_files s);
  mv_irq : k_flags s' = k_flags s;
  mv_obj : k_obj s' = k_obj s;
  mv_stats : stats_idle s'
}.

Section transfers.
Context {A E : Type} `{BlockStore E}.
Implicit Types (s : kst A E) (f : vfs_file).

Lemma wp_seek_at (Q : Z -> kst A E -> Prop) p f s off :
  file_open p f s -> stats_idle s ->
  (forall f' s', moved_from p f s s' f' -> k_env s' = k_env s ->
     (0 <= off -> f_offset f' = off) -> Q (if off <? 0 then -EINVAL else off) s') ->
  wp (vfs_seek p off VFS_SEEK_SET) Q s.
Proof.
  intros Ho Hst HQ. pose proof (fo_ptr _ _ _ Ho). eapply wp_vfs_seek_set; [done|].
  assert (Hmv : forall o, moved_from p f s (put_file p (rested s (f_set_offset o f)) s)
    (rested s (f_set_offset o f))).
  { intros o. split; try done. split; [done|simpl; by rewrite lookup_insert_eq|done]. }
  destruct (Z.ltb_spec off 0).
  - apply (HQ (rested s f)); [|done|lia]. specialize (Hmv (f_offset f)). by destruct f.
  - by apply (HQ _ _ (Hmv off)).
Qed.

Lemma wp_read_here (Q : Z * list Z -> kst A E -> Prop) p f s n rd :
  file_open p f s -> stats_idle s -> has_flag (f_flags f) VFS_O_RDWR = true ->
  vl_read (f_vnode f) = Some rd ->
  (forall r buf f' s', moved_from p f s s' f' ->
     contents (f_vnode f) (k_env s') = contents (f_vnode f) (k_env s) ->
     Z.of_nat (length buf) <= Z.max 0 n -> - 2 ^ 31 <= r ->
     (0 < r -> f_offset f' = s64 (f_offset f + r) /\ Z.of_nat (length buf) = r /\
        forall i, 0 <= i < r ->
          buf !! Z.to_nat i = Some (contents (f_vnode f) (k_env s) (f_offset f + i))) ->
     (forall lo hi, reads_fully lo hi rd -> 0 <= n -> lo <= f_offset f ->
        f_offset f + n <= hi -> r = n) -> Q (r, buf) s') ->
  wp (vfs_read p n) Q s.
Proof.
  intros Ho Hst Hfl Hrd HQ. pose proof (fo_ptr _ _ _ Ho).
  destruct (store_read _ _ n (f_offset f) (k_env s) Hrd) as (r & buf & e & Er & Hc & Hl & Hlow & Hd).
  assert (Hfull : forall lo hi, reads_fully lo hi rd -> 0 <= n -> lo <= f_offset f ->
    f_offset f + n <= hi -> r = n).
  { intros lo hi Hf Hn Hlo Hhi. destruct (Hf n _ (k_env s) Hn Hlo Hhi) as (? & ? & ?). congruence. }
  eapply wp_vfs_read; [done..|]. destruct (Z.ltb_spec 0 r) as [Hr|Hr].
  - apply (HQ r buf (rested s (f_set_offset (s64 (f_offset f + r)) f)));
      [split; try done|simpl; by rewrite store_atime|done|done| |done].
    + split; [done|simpl; by rewrite lookup_insert_eq|done].
    + intros _. simpl. split; [done|]. by apply Hd.
  - apply (HQ r buf (rested s f)); [split; try done|done|done|done|lia|done].
    split; [done|simpl; by rewrite lookup_insert_eq|done].
Qed.

Lemma wp_write_here (Q : Z -> kst A E -> Prop) p f s buf wr :
  file_open p f s -> stats_idle s -> f_flags f = VFS_O_RDWR ->
  vl_write (f_vnode f) = Some wr ->
  (forall r f' s', moved_from p f s s' f' -> - 2 ^ 31 <= r <= Z.of_nat (length buf) ->
     (forall x, contents (f_vnode f) (k_env s') x =
        if (f_offset f <=? x) && (x <? f_offset f + r)
        then default 0 (buf !! Z.to_nat (x - f_offset f))
        else contents (f_vnode f) (k_env s) x) ->
     (forall lo hi, writes_fully lo hi wr -> lo <= f_offset f ->
        f_offset f + Z.of_nat (length buf) <= hi -> r = Z.of_nat (length buf)) -> Q r s') ->
  wp (vfs_write p buf) Q s.
Proof.
  intros Ho Hst Hfl Hwr HQ. pose proof (fo_ptr _ _ _ Ho).
  destruct (store_write _ _ buf (f_offset f) (k_env s) Hwr) as (r & e & Er & Hl & Hc).
  assert (Hfull : forall lo hi, writes_fully lo hi wr -> lo <= f_offset f ->
    f_offset f + Z.of_nat (length buf) <= hi -> r = Z.of_nat (length buf)).
  { intros lo hi Hf Hlo Hhi. destruct (Hf buf _ (k_env s) Hlo Hhi) as (? & ?). congruence. }
  eapply wp_vfs_write; [done|done|by rewrite Hfl|by rewrite Hfl|done|done|].
  destruct (Z.ltb_spec 0 r) as [Hr|Hr].
  - apply (HQ r (rested s (f_set_offset (s64 (f_offset f + r)) f)));
      [split; try done|done|simpl; by rewrite store_mtime|done].
    split; [done|simpl; by rewrite lookup_insert_eq|done].
  - apply (HQ r (rested s f)); [split; try done|done|done|done].
    split; [done|simpl; by rewrite lookup_insert_eq|done].
Qed.

Lemma moved_trans p f f1 f2 s s1 s2 :
  moved_from p f s s1 f1 -> moved_from p f1 s1 s2 f2 -> moved_from p f s s2 f2.
Proof.
  intros [] []. split; try done; try congruence.
  rewrite mv_files1, mv_files0. by rewrite insert_insert_eq.
Qed.

(** Closing the only reference. *)
Lemma wp_close_here (Q : Z -> kst A E -> Prop) p f s :
  file_open p f s -> f_refcount f = 1 ->
  (forall e, contents (f_vnode f) e = contents (f_vnode f) (k_env s) ->
     Q 0 (set_env e (set_files (delete p (k_files s)) s))) ->
  wp (vfs_close p) Q s.
Proof.
  intros Ho Hr HQ. destruct (store_unref (f_vnode f) (f_vnode f) (k_env s)) as (e & He & Hc).
  apply (wp_vfs_close _ p f s e); [done|lia|done|]. rewrite Hr. simpl. apply HQ.
  by rewrite store_kfree.
Qed.
End transfers.

(** ** A concrete environment

    An instance of the service interfaces: a heap that grants requests of up
    to a limit, and one device node, "/dev/rd0", that is a byte store without
    end.  It shows that the interfaces can be met and runs the examples. *)

Record ramdev := RamDev { rd_store : gmap Z Z; rd_limit : Z }.

Definition rd_byte (e : ramdev) (x : Z) : Z := default 0 (rd_store e !! x).

Fixpoint store_bytes (m : gmap Z Z) (off : Z) (buf : list Z) : gmap Z Z :=
  match buf with
  | [] => m
  | c :: buf => <[off := c]> (store_bytes m (off + 1) buf)
  end.

Lemma store_bytes_lookup m off buf x :
  store_bytes m off buf !! x =
    if (off <=? x) && (x <? off + Z.of_nat (length buf))
    then buf !! Z.to_nat (x - off) else m !! x.
Proof.
  revert off. induction buf as [|c buf IH]; intros off; simpl.
  - by destruct (Z.leb_spec off x), (Z.ltb_spec x (off + Z.of_nat 0)); simpl; try done; exfalso; lia.
  - rewrite lookup_insert. case_decide as Hx.
    + subst. rewrite Z.leb_refl, (proj2 (Z.ltb_lt _ _)) by lia. by rewrite Z.sub_diag.
    + rewrite IH. destruct (decide (off < x < off + 1 + Z.of_nat (length buf))).
      * rewrite !(proj2 (Z.leb_le _ _)), !(proj2 (Z.ltb_lt _ _)) by lia. simpl.
        by replace (Z.to_nat (x - off)) with (S (Z.to_nat (x - (off + 1)))) by lia.
      * destruct (Z.leb_spec (off + 1) x), (Z.leb_spec off x),
          (Z.ltb_spec x (off + 1 + Z.of_nat (length buf))),
          (Z.ltb_spec x (off + Z.of_nat (S (length buf)))); simpl; try done; exfalso; lia.
Qed.

#[global] Program Instance ramdev_heap : KernelHeap ramdev := {
  kmalloc n e :=
    (if (0 <? n) && (n <=? rd_limit e) then Some (replicate (Z.to_nat n) 170) else None, e);
  kfree e := e
}.
Next Obligation.
  simpl. intros n e b e'. destruct ((0 <? n) && (n <=? rd_limit e)) eqn:Hn; [|done].
  apply andb_true_iff in Hn as [Hn _]. apply Z.ltb_lt in Hn.
  intros [= <- <-]. rewrite length_replicate. lia.
Qed.

Definition rd_name : string := "/dev/rd0".
Definition rd_vnode : Z := 1.

#[global] Instance ramdev_vnodes : VnodeLayer ramdev := {
  vl_lookup path e :=
    if bool_decide (path = rd_name) then Ok ((0, rd_vnode), e) else Ok ((-ENOENT, 0), e);
  vl_create _ _ e := Ok (-EROFS, e);
  vl_unref _ e := Ok (tt, e);
  vl_mode _ _ := 0x6000;
  vl_size _ _ := 0;
  vl_size_locked _ e := Ok (0, e);
  vl_update_atime _ e := e;
  vl_update_mtime _ e := e;
  vl_read _ := Some (fun n off e => Ok ((Z.max 0 n, rd_byte e <$> seqZ off n), e));
  vl_write _ := Some (fun buf off e =>
    Ok (Z.of_nat (length buf), RamDev (store_bytes (rd_store e) off buf) (rd_limit e)));
  vl_truncate _ := None;
  vl_sync _ := Some (fun e => Ok (0, e))
}.

#[global] Program Instance ramdev_store : BlockStore ramdev := {
  contents _ e x := rd_byte e x
}.
Next Obligation.
  simpl. intros v rd n off e [= <-]. eexists _, _, _. split_and!; [done|done| |lia|].
  - rewrite length_fmap, length_seqZ. lia.
  - intros Hr. rewrite length_fmap, length_seqZ. split; [lia|]. intros i Hi.
    rewrite list_lookup_fmap, lookup_seqZ_lt by lia. simpl. f_equal. f_equal. lia.
Qed.
Next Obligation.
  simpl. intros v wr buf off e [= <-]. eexists _, _. split_and!; [done|lia|done|].
  intros x. unfold rd_byte. simpl. rewrite store_bytes_lookup. by case_match.
Qed.
Next Obligation. simpl. intros v sy e [= <-]. eauto. Qed.
Next Obligation. simpl. eauto. Qed.
Next Obligation. done. Qed.
Next Obligation. done. Qed.
Next Obligation. done. Qed.
