(* ===== verification/VfsFileSpec.v ===== *)
(** * Open files: theorems

    What a client of [vfs_open] and its companions can rely on: the data it
    wrote comes back, and a file object lives exactly as long as it has
    references; and that the access check of [vfs_read] refuses every file
    that was not opened read-write. *)

From stdpp Require Import base numbers list list_numbers gmap strings.
From S2P Require Import Prelude Spinlock Kernel VfsFile VfsFileFacts.

Lemma fresh_addr_bound {B : Type} (m : gmap Z B) k x :
  m !! k = Some x -> Z.abs k < fresh_addr m.
Proof.
  unfold fresh_addr. revert k x.
  apply (map_fold_weak_ind (fun acc m => forall k x, m !! k = Some x -> Z.abs k < 1 + acc)).
  - intros k x. by rewrite lookup_empty.
  - intros i x m' acc Hi IH k y. rewrite lookup_insert. case_decide as Hk.
    + subst. lia.
    + intros Hy. specialize (IH _ _ Hy). lia.
Qed.

Lemma fresh_addr_pos {B : Type} (m : gmap Z B) : 0 < fresh_addr m.
Proof.
  unfold fresh_addr. apply (map_fold_weak_ind (fun acc _ => 0 < 1 + acc)); [lia|].
  intros. lia.
Qed.

Lemma fresh_addr_None {B : Type} (m : gmap Z B) : m !! fresh_addr m = None.
Proof.
  destruct (m !! fresh_addr m) eqn:Hm; [|done].
  apply fresh_addr_bound in Hm. pose proof (fresh_addr_pos m). lia.
Qed.

Section theorems.
Context {A E : Type} `{KernelHeap E} `{VnodeLayer E}.
Implicit Types (s : kst A E).

(** A successful [vfs_open] adds one file object, at offset 0 with one
    reference, and changes nothing else of the state outside the services. *)
Lemma vfs_open_inv path flags mode p s s' :
  vfs_open path flags mode s = Ok ((0, p), s') ->
  exists v e, p = fresh_addr (k_files s) /\ k_files s !! p = None /\ p <> NULL /\
    s' = set_env e (put_file p (File v 0 flags 1 spinlock_init) s).
Proof.
  destruct path as [path|]; [|done]. simpl.
  unfold bind, env_pure, env, gets, modify, ret. intros Hrun.
  repeat (case_match; simplify_eq; try done); simpl;
    (eexists _, _; split_and!;
      [done|apply fresh_addr_None|pose proof (fresh_addr_pos (k_files s)); unfold NULL; lia|
       reflexivity]).
Qed.

(** [vfs_read] accepts a file only when the flag word has the
    [VFS_O_RDWR] bit, because [VFS_O_RDONLY] is 0: a file opened with
    [VFS_O_RDONLY] (or any flags without [VFS_O_RDWR]) opens, and every read
    of it then fails with [-EBADF] without reaching the driver. *)
Theorem vfs_read_only_file_unreadable path flags mode p n s s' :
  has_flag flags VFS_O_RDWR = false ->
  vfs_open path flags mode s = Ok ((0, p), s') ->
  vfs_read p n s' = Ok ((-EBADF, []), s').
Proof.
  intros Hfl Hop. apply vfs_open_inv in Hop as (v & e & _ & _ & Hp & ->).
  apply (vfs_read_not_rdwr p (File v 0 flags 1 spinlock_init)); [|done].
  split; [done|simpl; by rewrite lookup_insert_eq|done].
Qed.

(** ** References *)

(** [n] calls of an operation on the same file. *)
Fixpoint times (n : nat) (m : M (kst A E) Z) : M (kst A E) unit :=
  match n with O => ret tt | S n' => m ;;; times n' m end.

Lemma wp_vfs_dup (Q : Z -> kst A E -> Prop) p f s :
  file_open p f s -> 0 <= f_refcount f < 2 ^ 32 - 1 ->
  Q p (put_file p (rested s (f_set_refcount (f_refcount f + 1) f)) s) ->
  wp (vfs_file_dup p) Q s.
Proof.
  intros Ho Hr HQ. unfold vfs_file_dup.
  rewrite (proj2 (Z.eqb_neq _ _) (fo_ptr _ _ _ Ho)). wp_step.
  eapply wp_facquire; [done|]. wp_step. apply wp_upd_file_held; [done|].
  wp_step. apply wp_frelease. wp_step. revert HQ.
  unfold u32. by rewrite Z.mod_small by lia.
Qed.

Lemma put_open p f s : p <> NULL -> file_open p (rested s f) (put_file p (rested s f) s).
Proof. intros Hp. split; [done|simpl; by rewrite lookup_insert_eq|done]. Qed.

Lemma wp_dups n (Q : unit -> kst A E -> Prop) p f s :
  file_open p f s -> 0 <= f_refcount f -> f_refcount f + Z.of_nat n < 2 ^ 32 ->
  (forall l, (n = O -> l = f_lock f) -> sl_locked l = 0 -> Q tt (put_file p
     (File (f_vnode f) (f_offset f) (f_flags f) (f_refcount f + Z.of_nat n) l) s)) ->
  wp (times n (vfs_file_dup p)) Q s.
Proof.
  revert f s. induction n as [|n IH]; intros f s Ho Hr Hn HQ; simpl.
  - wp_step. specialize (HQ (f_lock f) (fun _ => eq_refl) (fo_idle _ _ _ Ho)).
    revert HQ. unfold put_file, set_files. rewrite Z.add_0_r, insert_id.
    + by destruct s.
    + rewrite (fo_file _ _ _ Ho). by destruct f.
  - wp_step. apply (wp_vfs_dup _ p f); [done|lia|].
    apply (IH (rested s (f_set_refcount (f_refcount f + 1) f)));
      [apply put_open, Ho|simpl; lia|simpl; lia|].
    intros l _ Hl. rewrite put_put. simpl.
    replace (f_refcount f + 1 + Z.of_nat n) with (f_refcount f + Z.of_nat (S n)) by lia.
    by apply HQ.
Qed.

Lemma wp_closes n (Q : unit -> kst A E -> Prop) p f s :
  file_open p f s -> Z.of_nat n < f_refcount f < 2 ^ 32 ->
  (exists e, vl_unref (f_vnode f) (k_env s) = Ok (tt, e)) ->
  (forall l, sl_locked l = 0 -> Q tt (put_file p
     (File (f_vnode f) (f_offset f) (f_flags f) (f_refcount f - Z.of_nat n) l) s)) ->
  wp (times n (vfs_close p)) Q s.
Proof.
  revert f s. induction n as [|n IH]; intros f s Ho Hr Hun HQ; simpl.
  - wp_step. specialize (HQ (f_lock f) (fo_idle _ _ _ Ho)).
    revert HQ. unfold put_file, set_files. rewrite Z.sub_0_r, insert_id.
    + by destruct s.
    + rewrite (fo_file _ _ _ Ho). by destruct f.
  - wp_step. destruct Hun as [e He]. apply (wp_vfs_close _ p f s e); [done|lia|done|].
    rewrite (proj2 (Z.eqb_neq _ _)) by lia.
    apply (IH (rested s (f_set_refcount (f_refcount f - 1) f)));
      [apply put_open, Ho|simpl; lia|simpl; eauto|].
    intros l Hl. rewrite put_put. simpl.
    replace (f_refcount f - 1 - Z.of_nat n) with (f_refcount f - Z.of_nat (S n)) by lia.
    by apply HQ.
Qed.

(** reference counting of open files: after [n] calls of [vfs_file_dup]
    on a file with one reference, [n] calls of [vfs_close] leave the object
    in place with one reference, and one more call releases the vnode once
    and removes the object; the interrupt flags are those of the caller. *)
Theorem vfs_dup_close_balanced (n : nat) p f s e :
  file_open p f s -> f_refcount f = 1 -> Z.of_nat n < 2 ^ 32 - 1 ->
  vl_unref (f_vnode f) (k_env s) = Ok (tt, e) ->
  exists s1 s2,
    times n (vfs_file_dup p) s = Ok (tt, s1) /\
    (exists s1', times n (vfs_close p) s1 = Ok (tt, s1') /\
       f_refcount <$> (k_files s1' !! p) = Some 1 /\ k_env s1' = k_env s) /\
    times (n + 1) (vfs_close p) s1 = Ok (tt, s2) /\
    k_files s2 = delete p (k_files s) /\ k_env s2 = kfree e /\ k_flags s2 = k_flags s.
Proof.
  intros Ho Hr Hn Hun. pose proof (fo_ptr _ _ _ Ho) as Hp.
  assert (Hd : wp (times n (vfs_file_dup p)) (fun _ s1 => exists l, sl_locked l = 0 /\
    s1 = put_file p (File (f_vnode f) (f_offset f) (f_flags f) (1 + Z.of_nat n) l) s) s).
  { eapply wp_dups; [done|lia|lia|]. intros l _ Hl. exists l. by rewrite Hr. }
  apply wp_run in Hd as ([] & s1 & Hd & l & Hl & Hs1).
  set (f1 := File _ _ _ _ l) in Hs1.
  assert (Ho1 : file_open p f1 s1).
  { subst s1. split; [done|simpl; by rewrite lookup_insert_eq|done]. }
  assert (Hc : wp (times n (vfs_close p)) (fun _ s2 => exists l', sl_locked l' = 0 /\
    s2 = put_file p (File (f_vnode f) (f_offset f) (f_flags f) 1 l') s1) s1).
  { eapply (wp_closes n _ p f1); [done|simpl; lia|subst s1; simpl; eauto|].
    intros l' Hl'. exists l'. simpl. by replace (1 + Z.of_nat n - Z.of_nat n) with 1 by lia. }
  apply wp_run in Hc as ([] & s1' & Hc & l' & Hl' & Hs1').
  assert (Hlast : wp (vfs_close p)
    (fun _ s2 => s2 = set_env (kfree e) (set_files (delete p (k_files s1')) s1')) s1').
  { subst s1'. eapply wp_vfs_close.
    - split; [done|simpl; by rewrite lookup_insert_eq|done].
    - simpl. lia.
    - subst s1. exact Hun.
    - done. }
  apply wp_run in Hlast as (r & s2 & Hlast & Hs2).
  assert (Happ : forall m (k : M (kst A E) Z) (s0 : kst A E),
    times (m + 1) k s0 = bind (times m k) (fun _ => k ;;; ret tt) s0).
  { intros m k. induction m as [|m IH]; intros s0; simpl; [done|]. unfold bind.
    destruct (k s0) as [[a s3]|]; [|done]. rewrite IH. done. }
  exists s1, s2. split_and!; [done| | |..].
  - exists s1'. split_and!; [done| |by subst].
    subst s1'. simpl. by rewrite lookup_insert_eq.
  - rewrite Happ. unfold bind. rewrite Hc, Hlast. done.
  - subst. simpl. by rewrite !delete_insert_eq.
  - by subst.
  - by subst.
Qed.
End theorems.

(** ** Data *)

Section data.
Context {A E : Type} `{BlockStore E}.
Implicit Types (s : kst A E).

(** Bytes read back from a store that holds [buf] at [off]. *)
Lemma stored_prefix (buf data : list Z) (c : Z -> Z) off r :
  r <= Z.of_nat (length buf) -> Z.of_nat (length data) = r ->
  (forall i, 0 <= i < r -> data !! Z.to_nat i = Some (
     if (off <=? off + i) && (off + i <? off + Z.of_nat (length buf))
     then default 0 (buf !! Z.to_nat (off + i - off)) else c (off + i))) ->
  data = take (Z.to_nat r) buf.
Proof.
  intros Hr Hl Hd. apply list_eq. intros i. destruct (decide (Z.of_nat i < r)) as [Hlt|Hge].
  - rewrite lookup_take_lt by lia. specialize (Hd (Z.of_nat i) ltac:(lia)).
    rewrite Nat2Z.id in Hd. rewrite Hd, (proj2 (Z.leb_le _ _)), (proj2 (Z.ltb_lt _ _)) by lia.
    simpl. replace (Z.to_nat (off + Z.of_nat i - off)) with i by lia.
    destruct (lookup_lt_is_Some_2 buf i) as [x Hx]; [lia|]. by rewrite Hx.
  - rewrite lookup_take_ge, lookup_ge_None_2 by lia. done.
Qed.

(** Write [buf] at [off], go back, and read as many bytes. *)
Definition write_then_read (p off : Z) (buf : list Z) : M (kst A E) (Z * (Z * list Z)) :=
  vfs_seek p off VFS_SEEK_SET ;;;
  w <- vfs_write p buf ;;
  vfs_seek p off VFS_SEEK_SET ;;;
  r <- vfs_read p (Z.of_nat (length buf)) ;;
  ret (w, r).

(** C28: data written through a read-write file comes back: when the driver
    accepted the whole buffer, whatever a read at the same offset returns is
    a prefix of it, and the file offset has advanced by its length; and when
    the driver transfers all it is asked for around the place, the write
    accepts the whole buffer and the read returns exactly it. *)
Theorem vfs_write_read_roundtrip p f s off buf rd wr :
  file_open p f s -> stats_idle s -> f_flags f = VFS_O_RDWR -> 0 <= off ->
  vl_read (f_vnode f) = Some rd -> vl_write (f_vnode f) = Some wr ->
  exists w r data s', write_then_read p off buf s = Ok ((w, (r, data)), s') /\
    (w = Z.of_nat (length buf) -> 0 < r ->
       data = take (Z.to_nat r) buf /\
       f_offset <$> (k_files s' !! p) = Some (s64 (off + r))) /\
    (forall lo hi, lo <= off -> off + Z.of_nat (length buf) <= hi ->
       writes_fully lo hi wr -> reads_fully lo hi rd ->
       w = Z.of_nat (length buf) /\ r = Z.of_nat (length buf) /\ data = buf) /\
    k_flags s' = k_flags s.
Proof.
  intros Ho Hst Hfl Hoff Hrd Hwr. set (n := Z.of_nat (length buf)).
  enough (Hall : wp (write_then_read p off buf) (fun '(w, (r, data)) s' =>
    (w = n -> 0 < r -> data = take (Z.to_nat r) buf /\
       f_offset <$> (k_files s' !! p) = Some (s64 (off + r))) /\
    (forall lo hi, lo <= off -> off + n <= hi -> writes_fully lo hi wr -> reads_fully lo hi rd ->
       w = n /\ r = n) /\ Z.of_nat (length data) <= n /\ k_flags s' = k_flags s) s).
  { apply wp_run in Hall as ([w [r data]] & s' & Hrun & Hpre & Hfull & Hld & Hk).
    exists w, r, data, s'. split_and!; [done|done| |done]. intros lo hi Hlo Hhi Hfw Hfr.
    destruct (Hfull lo hi Hlo Hhi Hfw Hfr) as [-> ->]. split_and!; [done..|].
    destruct (decide (0 < n)) as [Hn|Hn].
    - destruct (Hpre eq_refl Hn) as [-> _]. apply take_ge. lia.
    - destruct data, buf; simpl in *; lia || done. }
  unfold write_then_read. wp_step. eapply wp_seek_at; [done..|].
  intros f1 s1 M1 E1 O1. wp_step.
  eapply wp_write_here; [apply M1|apply M1|by rewrite (mv_flags _ _ _ _ _ M1)|
    by rewrite (mv_vnode _ _ _ _ _ M1)|].
  intros w f2 s2 M2 Hw Hc Hfw. pose proof (moved_trans _ _ _ _ _ _ _ M1 M2) as M12.
  wp_step. eapply wp_seek_at; [apply M2|apply M2|]. intros f3 s3 M3 E3 O3.
  pose proof (moved_trans _ _ _ _ _ _ _ M12 M3) as M13. wp_step.
  eapply wp_read_here; [apply M3|apply M3|by rewrite (mv_flags _ _ _ _ _ M13), Hfl|
    by rewrite (mv_vnode _ _ _ _ _ M13)|].
  intros r data f4 s4 M4 _ Hlen _ Hr Hfr. rewrite (O1 Hoff) in Hfw. rewrite (O3 Hoff) in Hfr.
  wp_step. split_and!; [|by eauto using Nat2Z.is_nonneg|lia|by rewrite (mv_irq _ _ _ _ _ M4),
    (mv_irq _ _ _ _ _ M13)].
  intros -> Hr0. destruct (Hr Hr0) as (Hoff4 & Hl & Hd).
  rewrite (fo_file _ _ _ (mv_open _ _ _ _ _ M4)). simpl. rewrite Hoff4, (O3 Hoff).
  split; [|done]. rewrite (O1 Hoff), (O3 Hoff) in *.
  rewrite (mv_vnode _ _ _ _ _ M13), E3 in Hd. rewrite (mv_vnode _ _ _ _ _ M1) in Hc.
  eapply stored_prefix; [lia|done|]. intros i Hi. rewrite Hd by done. by rewrite Hc.
Qed.
End data.

(** ** Examples on the concrete environment *)

Definition demo_start : kst unit ramdev :=
  Kst 0x202 ∅ 0 0 spinlock_init tt (RamDev ∅ 4096).
Definition demo_file (flags : Z) : vfs_file := File rd_vnode 0 flags 1 spinlock_init.
Definition demo_open (flags : Z) : kst unit ramdev :=
  Kst 0x202 {[ 1 := demo_file flags ]} 0 0 spinlock_init tt (RamDev ∅ 4096).

Lemma demo_file_open flags : file_open 1 (demo_file flags) (demo_open flags).
Proof. by split. Qed.

Lemma vfs_read_only_file_unreadable_witness :
  vfs_open (Some rd_name) VFS_O_RDONLY 0 demo_start = Ok ((0, 1), demo_open VFS_O_RDONLY) /\
  vfs_read 1 8 (demo_open VFS_O_RDONLY) = Ok ((-EBADF, []), demo_open VFS_O_RDONLY).
Proof.
  split; [reflexivity|].
  apply (vfs_read_only_file_unreadable (Some rd_name) VFS_O_RDONLY 0 1 8 demo_start).
  - reflexivity.
  - reflexivity.
Defined.

Lemma vfs_dup_close_balanced_witness :
  exists s1 s2,
    times 3 (vfs_file_dup 1) (demo_open VFS_O_RDWR) = Ok (tt, s1) /\
    (exists s1', times 3 (vfs_close 1) s1 = Ok (tt, s1') /\
       f_refcount <$> (k_files s1' !! 1) = Some 1 /\
       k_env s1' = k_env (demo_open VFS_O_RDWR)) /\
    times (3 + 1) (vfs_close 1) s1 = Ok (tt, s2) /\
    k_files s2 = delete 1 (k_files (demo_open VFS_O_RDWR)) /\
    k_env s2 = kfree (RamDev ∅ 4096) /\ k_flags s2 = k_flags (demo_open VFS_O_RDWR).
Proof.
  apply (vfs_dup_close_balanced 3 1 (demo_file VFS_O_RDWR) (demo_open VFS_O_RDWR)
           (RamDev ∅ 4096)).
  - apply demo_file_open.
  - reflexivity.
  - lia.
  - reflexivity.
Defined.

Lemma vfs_write_read_roundtrip_witness :
  exists s', write_then_read 1 512 [1; 2; 3] (demo_open VFS_O_RDWR) = Ok ((3, (3, [1; 2; 3])), s') /\
    f_offset <$> (k_files s' !! 1) = Some 515 /\ k_flags s' = 0x202.
Proof.
  edestruct (vfs_write_read_roundtrip 1 (demo_file VFS_O_RDWR) (demo_open VFS_O_RDWR) 512 [1; 2; 3])
    as (w & r & data & s' & Hrun & Hpre & Hfull & Hk);
    [apply demo_file_open|reflexivity|reflexivity|lia|reflexivity|reflexivity|].
  destruct (Hfull 0 1024) as (-> & -> & ->); [lia|simpl; lia| | |].
  - intros buf off e _ _. eexists. reflexivity.
  - intros n off e Hn _ _. do 2 eexists. rewrite Z.max_r by lia. reflexivity.
  - exists s'. split_and!; [exact Hrun| |exact Hk].
    destruct Hpre as [_ Hoff]; [reflexivity|simpl; lia|]. exact Hoff.
Defined.

Example write_then_read_runs :
  exists s', write_then_read 1 512 [1; 2; 3] (demo_open VFS_O_RDWR) =
    Ok ((3, (3, [1; 2; 3])), s').
Proof. eexists. vm_compute. reflexivity. Qed.

(** ** Device files

    Components that keep a structure on a block device open it by name, seek,
    transfer bytes, and close it.  This is what they rely on, for any
    component: the device opens, and the bytes of a structure are stored. *)

(** Byte [x] of [b] is stored from [base] on, for every [x] below [n]. *)
Definition stored (c : Z -> Z) (base : Z) (b : list Z) (n : Z) : Prop :=
  forall x, 0 <= x < n -> b !! Z.to_nat x = Some (c (base + x)).

Section device.
Context {A E : Type} `{KernelHeap E} `{VnodeLayer E}.
Implicit Types (s : kst A E).

(** The device file of a write is open read-write with one reference. *)
Record dev_open (p : Z) (f : vfs_file) s : Prop := {
  do_open : file_open p f s;
  do_stats : stats_idle s;
  do_flags : f_flags f = VFS_O_RDWR;
  do_refs : f_refcount f = 1
}.

Lemma dev_moved p f f' s s' : dev_open p f s -> moved_from p f s s' f' -> dev_open p f' s'.
Proof. intros [] []. split; congruence || done. Qed.

(** The device opens with [flags], as file [p] of
    vnode [v]; its state is then [s1]. *)
Definition device_opens (flags : Z) (device : string) s (p v : Z) s1 : Prop :=
  vfs_open (Some device) flags 0 s = Ok ((0, p), s1) /\
  f_vnode <$> (k_files s1 !! p) = Some v.

Lemma device_opens_inv flags device s p v s1 :
  device_opens flags device s p v s1 ->
  exists e, k_files s !! p = None /\ p <> NULL /\
    s1 = set_env e (put_file p (File v 0 flags 1 spinlock_init) s).
Proof.
  intros [Hop Hv]. apply vfs_open_inv in Hop as (v' & e & _ & Hn & Hp & ->).
  simpl in Hv. rewrite lookup_insert_eq in Hv. simplify_eq/=. by exists e.
Qed.

Lemma opened_file p v flags e s :
  p <> NULL -> file_open p (File v 0 flags 1 spinlock_init)
    (set_env e (put_file p (File v 0 flags 1 spinlock_init) s)).
Proof. intros Hp. split; [done|simpl; by rewrite lookup_insert_eq|done]. Qed.

End device.
