(* ===== verification/BlkAlloc.v ===== *)
(** * The block allocator ([sys/src/libfs/blkalloc.c], [blkalloc.h])

    One bit per block of a file system, a hint where to search, a lock, and
    the position of the bitmap on the device.  Every operation runs in
    [kst blk_allocator E]; its pointer argument may be null ([PNull]).  The
    bitmap pointer is [None] when null.  Serial debug output is left out. *)

From stdpp Require Import base numbers list gmap strings.
From S2P Require Import Prelude Bitmap Spinlock Kernel VfsFile.

(** The field of [struct vfs_mount] the allocator reads. *)
Record vfs_mount := Mount { mnt_device : option string }.

Record blk_allocator := BlkAllocator {
  ba_total_blocks : Z;
  ba_used_blocks : Z;
  ba_first_data_block : Z;
  ba_first_free : Z;
  ba_block_size : Z;
  ba_bitmap : option (list Z);
  ba_bitmap_size : Z;
  ba_lock : spinlock;
  ba_mount : option vfs_mount;
  ba_bitmap_block : Z;
  ba_bitmap_blocks : Z;
  ba_dirty : bool
}.

Record blk_alloc_stats := BlkAllocStats {
  bs_total_blocks : Z;
  bs_used_blocks : Z;
  bs_free_blocks : Z;
  bs_first_free : Z;
  bs_fragmentation : Z
}.

(** ** Field assignment *)

Definition with_bitmap (b : option (list Z)) (a : blk_allocator) : blk_allocator :=
  BlkAllocator (ba_total_blocks a) (ba_used_blocks a) (ba_first_data_block a)
    (ba_first_free a) (ba_block_size a) b (ba_bitmap_size a) (ba_lock a)
    (ba_mount a) (ba_bitmap_block a) (ba_bitmap_blocks a) (ba_dirty a).
Definition with_used (n : Z) (a : blk_allocator) : blk_allocator :=
  BlkAllocator (ba_total_blocks a) n (ba_first_data_block a)
    (ba_first_free a) (ba_block_size a) (ba_bitmap a) (ba_bitmap_size a) (ba_lock a)
    (ba_mount a) (ba_bitmap_block a) (ba_bitmap_blocks a) (ba_dirty a).
Definition with_hint (n : Z) (a : blk_allocator) : blk_allocator :=
  BlkAllocator (ba_total_blocks a) (ba_used_blocks a) (ba_first_data_block a)
    n (ba_block_size a) (ba_bitmap a) (ba_bitmap_size a) (ba_lock a)
    (ba_mount a) (ba_bitmap_block a) (ba_bitmap_blocks a) (ba_dirty a).
Definition with_lock (l : spinlock) (a : blk_allocator) : blk_allocator :=
  BlkAllocator (ba_total_blocks a) (ba_used_blocks a) (ba_first_data_block a)
    (ba_first_free a) (ba_block_size a) (ba_bitmap a) (ba_bitmap_size a) l
    (ba_mount a) (ba_bitmap_block a) (ba_bitmap_blocks a) (ba_dirty a).
Definition with_mount (m : option vfs_mount) (blk : Z) (a : blk_allocator) : blk_allocator :=
  BlkAllocator (ba_total_blocks a) (ba_used_blocks a) (ba_first_data_block a)
    (ba_first_free a) (ba_block_size a) (ba_bitmap a) (ba_bitmap_size a) (ba_lock a)
    m blk (ba_bitmap_blocks a) (ba_dirty a).
Definition with_dirty (d : bool) (a : blk_allocator) : blk_allocator :=
  BlkAllocator (ba_total_blocks a) (ba_used_blocks a) (ba_first_data_block a)
    (ba_first_free a) (ba_block_size a) (ba_bitmap a) (ba_bitmap_size a) (ba_lock a)
    (ba_mount a) (ba_bitmap_block a) (ba_bitmap_blocks a) d.

#[global] Instance blk_allocator_lock : HasLock blk_allocator := {
  lk_get := ba_lock;
  lk_set := with_lock;
  lk_get_set _ _ := eq_refl;
  lk_set_set _ _ _ := eq_refl
}.

Section blkalloc.
Context {E : Type} `{KernelHeap E} `{VnodeLayer E}.
Abbreviation K := (M (kst blk_allocator E)).

(** The bytes behind [alloc->ba_bitmap]. *)
Definition ba_bytes : K (list Z) :=
  b <- obj ba_bitmap ;;
  match b with Some b => ret b | None => throw F_null end.
Definition ba_test (i : Z) : K bool := b <- ba_bytes ;; lift (bitmap_test_bit b i).
Definition ba_set (i : Z) : K unit :=
  b <- ba_bytes ;; b' <- lift (bitmap_set_bit b i) ;; upd (with_bitmap (Some b')).
Definition ba_clear (i : Z) : K unit :=
  b <- ba_bytes ;; b' <- lift (bitmap_clear_bit b i) ;; upd (with_bitmap (Some b')).

(** [memset(buf, 0, n)] on a buffer. *)
Definition memset0 (n : Z) (b : list Z) : res (list Z) :=
  if n <=? Z.of_nat (length b) then
    Ok (replicate (Z.to_nat n) 0 ++ drop (Z.to_nat n) b)
  else Fault F_oob.

(** ** Creation *)

Definition blk_alloc_init (alloc : ptr) (total_blocks first_data_block block_size : Z) : K Z :=
  match alloc with
  | PNull => ret (-EINVAL)
  | PObj =>
      if (total_blocks =? 0) || (block_size =? 0) then ret (-EINVAL)
      else if total_blocks <=? first_data_block then ret (-EINVAL)
      else
        let bitmap_size := u32 (total_blocks + 7) / 8 in
        b <- env_pure (kmalloc bitmap_size) ;;
        upd (with_bitmap b) ;;;
        match b with
        | None => ret (-ENOMEM)
        | Some b =>
            b0 <- lift (memset0 bitmap_size b) ;;
            upd (fun _ => BlkAllocator total_blocks 0 first_data_block first_data_block
              block_size (Some b0) bitmap_size spinlock_init None 0
              (u32 (u32 (bitmap_size + block_size) - 1) / block_size) false) ;;;
            ret 0
        end
  end.

(** ** Allocation *)

(** The block is free: take it. *)
Definition take_block (flags block : Z) : K Z :=
  ba_set block ;;;
  upd (fun a => with_used (u32 (ba_used_blocks a + 1)) a) ;;;
  upd (with_hint (u32 (block + 1))) ;;;
  upd (with_dirty true) ;;;
  unlock_obj flags ;;;
  ret block.

Definition scan_blocks (flags from to : Z) : K (unit + Z) :=
  for_range from to tt (fun block _ =>
    t <- ba_test block ;;
    if negb t then b <- take_block flags block ;; ret (inr b) else ret (inl tt)).

Definition blk_alloc (alloc : ptr) : K Z :=
  match alloc with
  | PNull => ret 0
  | PObj =>
      flags <- lock_obj ;;
      used <- obj ba_used_blocks ;;
      total <- obj ba_total_blocks ;;
      if total <=? used then unlock_obj flags ;;; ret 0
      else
        start <- obj ba_first_free ;;
        r <- scan_blocks flags start total ;;
        match r with
        | inr block => ret block
        | inl _ =>
            first <- obj ba_first_data_block ;;
            r <- scan_blocks flags first start ;;
            match r with
            | inr block => ret block
            | inl _ => unlock_obj flags ;;; ret 0
            end
        end
  end.

Definition blk_alloc_specific (alloc : ptr) (block_num : Z) : K Z :=
  match alloc with
  | PNull => ret (-EINVAL)
  | PObj =>
      total <- obj ba_total_blocks ;;
      if total <=? block_num then ret (-EINVAL)
      else
        flags <- lock_obj ;;
        t <- ba_test block_num ;;
        if t then unlock_obj flags ;;; ret (-EEXIST)
        else
          ba_set block_num ;;;
          upd (fun a => with_used (u32 (ba_used_blocks a + 1)) a) ;;;
          upd (with_dirty true) ;;;
          hint <- obj ba_first_free ;;
          (if block_num <? hint then upd (with_hint (u32 (block_num + 1))) else ret tt) ;;;
          unlock_obj flags ;;;
          ret 0
  end.

(** The search loop: locals [(found, start_block)]; the condition
    [found < count] ends it early. *)
Definition find_run (count from to : Z) : K (Z * Z) :=
  r <- for_range from to (0, 0) (fun block '(found, start_block) =>
    if negb (found <? count) then ret (inr (found, start_block))
    else
      t <- ba_test block ;;
      if negb t then
        ret (inl (u32 (found + 1), if found =? 0 then block else start_block))
      else ret (inl (0, start_block))) ;;
  match r with inl x => ret x | inr x => ret x end.

(** [blocks] is the caller's array of [count] entries (its length is checked on
    every store); the result is the return value and the array. *)
Definition blk_alloc_contiguous (alloc : ptr) (count : Z) (blocks : option (list Z)) :
    K (Z * list Z) :=
  match alloc, blocks with
  | PNull, _ => ret (0, default [] blocks)
  | _, None => ret (0, [])
  | PObj, Some blocks =>
      if count =? 0 then ret (0, blocks)
      else
        flags <- lock_obj ;;
        total <- obj ba_total_blocks ;;
        used <- obj ba_used_blocks ;;
        let available := u32 (total - used) in
        if available =? 0 then unlock_obj flags ;;; ret (0, blocks)
        else
          let count := if available <? count then available else count in
          first <- obj ba_first_data_block ;;
          run <- find_run count first total ;;
          let '(found, start_block) := run in
          if found =? 0 then unlock_obj flags ;;; ret (0, blocks)
          else
            out <- for_each 0 found blocks (fun i out =>
              let block := u32 (start_block + i) in
              ba_set block ;;;
              lift (awrite out i block)) ;;
            upd (fun a => with_used (u32 (ba_used_blocks a + found)) a) ;;;
            upd (with_hint (u32 (start_block + found))) ;;;
            upd (with_dirty true) ;;;
            unlock_obj flags ;;;
            ret (found, out)
  end.

(** ** Release *)

Definition blk_free (alloc : ptr) (block_num : Z) : K Z :=
  match alloc with
  | PNull => ret (-EINVAL)
  | PObj =>
      total <- obj ba_total_blocks ;;
      first <- obj ba_first_data_block ;;
      if total <=? block_num then ret (-EINVAL)
      else if block_num <? first then ret (-EINVAL)
      else
        flags <- lock_obj ;;
        t <- ba_test block_num ;;
        if negb t then unlock_obj flags ;;; ret (-EINVAL)
        else
          ba_clear block_num ;;;
          upd (fun a => with_used (u32 (ba_used_blocks a - 1)) a) ;;;
          upd (with_dirty true) ;;;
          hint <- obj ba_first_free ;;
          (if block_num <? hint then upd (with_hint block_num) else ret tt) ;;;
          unlock_obj flags ;;;
          ret 0
  end.

Definition blk_free_multiple (alloc : ptr) (blocks : option (list Z)) (count : Z) : K Z :=
  match alloc, blocks with
  | PNull, _ | _, None => ret 0
  | PObj, Some blocks =>
      if count =? 0 then ret 0
      else
        for_each 0 count 0 (fun i freed =>
          b <- lift (aread blocks i) ;;
          r <- blk_free alloc b ;;
          ret (if r =? 0 then u32 (freed + 1) else freed))
  end.

(** ** Queries *)

Definition blk_is_allocated (alloc : ptr) (block_num : Z) : K bool :=
  match alloc with
  | PNull => ret false
  | PObj =>
      total <- obj ba_total_blocks ;;
      if total <=? block_num then ret false
      else
        flags <- lock_obj ;;
        allocated <- ba_test block_num ;;
        unlock_obj flags ;;;
        ret allocated
  end.

(** Locals: [(fragments, in_free_region)]. *)
Definition blk_alloc_fragmentation (alloc : ptr) : K Z :=
  match alloc with
  | PNull => ret 0
  | PObj =>
      used <- obj ba_used_blocks ;;
      if used =? 0 then ret 0
      else
        first <- obj ba_first_data_block ;;
        total <- obj ba_total_blocks ;;
        r <- for_each first total (0, false) (fun i '(fragments, in_free) =>
          t <- ba_test i ;;
          let is_free := negb t in
          if is_free && negb in_free then ret (fragments, true)
          else if negb is_free && in_free then ret (u32 (fragments + 1), false)
          else ret (fragments, in_free)) ;;
        max_fragments <- obj ba_used_blocks ;;
        if max_fragments =? 0 then ret 0
        else ret (u32 (r.1 * 100) / max_fragments)
  end.

Definition blk_alloc_get_stats (alloc : ptr) (stats : ptr) : K (option blk_alloc_stats) :=
  match alloc, stats with
  | PNull, _ | _, PNull => ret None
  | PObj, PObj =>
      flags <- lock_obj ;;
      total <- obj ba_total_blocks ;;
      used <- obj ba_used_blocks ;;
      hint <- obj ba_first_free ;;
      frag <- blk_alloc_fragmentation alloc ;;
      unlock_obj flags ;;;
      ret (Some (BlkAllocStats total used (u32 (total - used)) hint frag))
  end.

Definition blk_alloc_mark_dirty (alloc : ptr) : K unit :=
  match alloc with
  | PNull => ret tt
  | PObj =>
      flags <- lock_obj ;;
      upd (with_dirty true) ;;;
      unlock_obj flags
  end.

(** Locals: [(max_size, max_start, current_size, current_start)]. *)
Definition region_step (i : Z) (l : Z * Z * (Z * Z)) : K (Z * Z * (Z * Z)) :=
  let '(max_size, max_start, (current_size, current_start)) := l in
  t <- ba_test i ;;
  if negb t then
    ret (max_size, max_start,
         (u32 (current_size + 1), if current_size =? 0 then i else current_start))
  else if max_size <? current_size then
    ret (current_size, current_start, (0, current_start))
  else ret (max_size, max_start, (0, current_start)).

(** The result is [(max_size, max_start)]. *)
Definition blk_alloc_largest_free_region (alloc : ptr) : K (Z * Z) :=
  match alloc with
  | PNull => ret (0, 0)
  | PObj =>
      flags <- lock_obj ;;
      first <- obj ba_first_data_block ;;
      total <- obj ba_total_blocks ;;
      r <- for_each first total (0, 0, (0, 0)) region_step ;;
      let '(max_size, max_start, (current_size, current_start)) := r in
      let res := if max_size <? current_size then (current_size, current_start)
                 else (max_size, max_start) in
      unlock_obj flags ;;;
      ret res
  end.

(** The calls that compute the printed values; the printing is left out. *)
Definition blk_alloc_debug_print (alloc : ptr) : K unit :=
  match alloc with
  | PNull => ret tt
  | PObj =>
      flags <- lock_obj ;;
      blk_alloc_fragmentation alloc ;;;
      blk_alloc_largest_free_region alloc ;;;
      unlock_obj flags
  end.

Definition count_used (total : Z) : K Z :=
  for_each 0 total 0 (fun i n =>
    t <- ba_test i ;;
    ret (if t then u32 (n + 1) else n)).

Definition blk_alloc_validate (alloc : ptr) : K Z :=
  match alloc with
  | PNull => ret (-EINVAL)
  | PObj =>
      flags <- lock_obj ;;
      total <- obj ba_total_blocks ;;
      actual_used <- count_used total ;;
      used <- obj ba_used_blocks ;;
      if negb (actual_used =? used) then unlock_obj flags ;;; ret (-EFAULT)
      else
        first <- obj ba_first_data_block ;;
        r <- for_range 0 first tt (fun i _ =>
          t <- ba_test i ;;
          if negb t then unlock_obj flags ;;; ret (inr (-EFAULT)) else ret (inl tt)) ;;
        match r with
        | inr e => ret e
        | inl _ => unlock_obj flags ;;; ret 0
        end
  end.

(** ** Formatting *)

Definition blk_alloc_format (alloc : ptr) (reserved_blocks : Z) : K Z :=
  match alloc with
  | PNull => ret (-EINVAL)
  | PObj =>
      total <- obj ba_total_blocks ;;
      if total <? reserved_blocks then ret (-EINVAL)
      else
        flags <- lock_obj ;;
        size <- obj ba_bitmap_size ;;
        b <- ba_bytes ;;
        b0 <- lift (memset0 size b) ;;
        upd (with_bitmap (Some b0)) ;;;
        upd (with_used 0) ;;;
        for_each 0 reserved_blocks tt (fun i _ =>
          ba_set i ;;;
          upd (fun a => with_used (u32 (ba_used_blocks a + 1)) a)) ;;;
        upd (with_hint reserved_blocks) ;;;
        upd (with_dirty true) ;;;
        unlock_obj flags ;;;
        ret 0
  end.

(** ** The bitmap on the device *)

(** [(offset, size, disk_offset)] of the [i]-th bitmap block. *)
Definition bitmap_chunk (a : blk_allocator) (bitmap_block i : Z) : Z * Z * Z :=
  let block_num := u32 (bitmap_block + i) in
  let offset := u32 (i * ba_block_size a) in
  let size := ba_block_size a in
  let size :=
    if i =? u32 (ba_bitmap_blocks a - 1) then
      let remaining := u32 (ba_bitmap_size a - offset) in
      if remaining <? size then remaining else size
    else size in
  (offset, size, s64 (block_num * ba_block_size a)).

(** [n] bytes at [buf + off], for a call that reads them. *)
Definition slice (buf : list Z) (off n : Z) : res (list Z) :=
  if off + n <=? Z.of_nat (length buf) then
    Ok (take (Z.to_nat n) (drop (Z.to_nat off) buf))
  else Fault F_oob.

(** [data] stored at [buf + off]. *)
Definition blit (buf : list Z) (off : Z) (data : list Z) : res (list Z) :=
  if off + Z.of_nat (length data) <=? Z.of_nat (length buf) then
    Ok (take (Z.to_nat off) buf ++ data ++ drop (Z.to_nat off + length data) buf)
  else Fault F_oob.

Definition write_chunk (dev_file i : Z) : K (unit + Z) :=
  a <- obj id ;;
  let '(offset, size, disk_offset) := bitmap_chunk a (ba_bitmap_block a) i in
  seek_result <- vfs_seek dev_file disk_offset VFS_SEEK_SET ;;
  if seek_result <? 0 then
    vfs_close dev_file ;;; ret (inr (s32 seek_result))
  else
    b <- ba_bytes ;;
    data <- lift (slice b offset size) ;;
    written <- vfs_write dev_file data ;;
    if negb (written =? size) then
      vfs_close dev_file ;;;
      ret (inr (if written <? 0 then s32 written else -EIO))
    else ret (inl tt).

(** After the device is open: write, flush, close, mark clean. *)
Definition sync_bitmap (dev_file : Z) : K Z :=
  nblocks <- obj ba_bitmap_blocks ;;
  w <- for_range 0 nblocks tt (fun i _ => write_chunk dev_file i) ;;
  match w with
  | inr e => ret e
  | inl _ =>
      r <- vfs_fsync dev_file ;;
      if negb (r =? 0) then vfs_close dev_file ;;; ret r
      else
        vfs_close dev_file ;;;
        flags <- lock_obj ;;
        upd (with_dirty false) ;;;
        unlock_obj flags ;;;
        ret 0
  end.

Definition blk_alloc_sync (alloc : ptr) : K Z :=
  match alloc with
  | PNull => ret (-EINVAL)
  | PObj =>
      flags <- lock_obj ;;
      dirty <- obj ba_dirty ;;
      if negb dirty then unlock_obj flags ;;; ret 0
      else
        mnt <- obj ba_mount ;;
        match mnt with
        | None => unlock_obj flags ;;; ret (-EINVAL)
        | Some mnt =>
            match mnt_device mnt with
            | None => unlock_obj flags ;;; ret (-EINVAL)
            | Some device =>
                unlock_obj flags ;;;
                opened <- vfs_open (Some device) VFS_O_RDWR 0 ;;
                let '(r, dev_file) := opened in
                if negb (r =? 0) then ret r else sync_bitmap dev_file
            end
        end
  end.

Definition read_chunk (dev_file bitmap_block i : Z) : K (unit + Z) :=
  a <- obj id ;;
  let '(offset, size, disk_offset) := bitmap_chunk a bitmap_block i in
  seek_result <- vfs_seek dev_file disk_offset VFS_SEEK_SET ;;
  if seek_result <? 0 then
    vfs_close dev_file ;;; ret (inr (s32 seek_result))
  else
    got <- vfs_read dev_file size ;;
    let '(bytes_read, data) := got in
    b <- ba_bytes ;;
    b' <- lift (blit b offset data) ;;
    upd (with_bitmap (Some b')) ;;;
    if negb (bytes_read =? size) then
      vfs_close dev_file ;;;
      ret (inr (if bytes_read <? 0 then s32 bytes_read else -EIO))
    else ret (inl tt).

(** The used count and the hint, recomputed from the bitmap. *)
Definition recount : K unit :=
  upd (with_used 0) ;;;
  total <- obj ba_total_blocks ;;
  for_each 0 total tt (fun i _ =>
    t <- ba_test i ;;
    if t then upd (fun a => with_used (u32 (ba_used_blocks a + 1)) a) else ret tt) ;;;
  first <- obj ba_first_data_block ;;
  upd (with_hint first) ;;;
  for_range first total tt (fun i _ =>
    t <- ba_test i ;;
    if negb t then upd (with_hint i) ;;; ret (inr tt) else ret (inl tt)) ;;;
  upd (with_dirty false).

(** After the device is open: read, close, recompute the derived fields. *)
Definition load_bitmap (dev_file bitmap_block : Z) : K Z :=
  nblocks <- obj ba_bitmap_blocks ;;
  w <- for_range 0 nblocks tt (fun i _ => read_chunk dev_file bitmap_block i) ;;
  match w with
  | inr e => ret e
  | inl _ =>
      vfs_close dev_file ;;;
      flags <- lock_obj ;;
      recount ;;;
      unlock_obj flags ;;;
      ret 0
  end.

Definition blk_alloc_load (alloc : ptr) (mount : option vfs_mount) (bitmap_block : Z) : K Z :=
  match alloc, mount with
  | PNull, _ | _, None => ret (-EINVAL)
  | PObj, Some mnt =>
      flags <- lock_obj ;;
      upd (with_mount (Some mnt) bitmap_block) ;;;
      unlock_obj flags ;;;
      match mnt_device mnt with
      | None => ret (-EINVAL)
      | Some device =>
          opened <- vfs_open (Some device) VFS_O_RDONLY 0 ;;
          let '(r, dev_file) := opened in
          if negb (r =? 0) then ret r else load_bitmap dev_file bitmap_block
      end
  end.

Definition blk_alloc_destroy (alloc : ptr) : K unit :=
  match alloc with
  | PNull => ret tt
  | PObj =>
      a <- obj id ;;
      (if ba_dirty a && negb (bool_decide (ba_mount a = None)) then
         blk_alloc_sync alloc ;;; ret tt
       else ret tt) ;;;
      b <- obj ba_bitmap ;;
      match b with
      | None => ret tt
      | Some _ =>
          env_pure (fun e => (tt, kfree e)) ;;;
          upd (with_bitmap None)
      end
  end.
End blkalloc.
