(* ===== verification/BlkAllocFacts.v ===== *)
(** * Block allocator: invariant and specifications of the operations

    The critical sections are those of [ba_lock]: see [inside] and [outside]. *)

From stdpp Require Import base numbers list gmap strings list_numbers.
From S2P Require Import Prelude Bitmap Spinlock Kernel VfsFile BlkAlloc.

Record ba_inv (a : blk_allocator) (b : list Z) : Prop := {
  bi_total : 0 < ba_total_blocks a < 2 ^ 32 - 7;
  bi_first : 0 <= ba_first_data_block a < ba_total_blocks a;
  bi_hint : 0 <= ba_first_free a <= ba_total_blocks a;
  bi_bsize : 0 < ba_block_size a < 2 ^ 32;
  bi_bitmap : ba_bitmap a = Some b;
  bi_bytes : bytes_ok b;
  bi_size : ba_bitmap_size a = (ba_total_blocks a + 7) / 8;
  bi_length : Z.of_nat (length b) = ba_bitmap_size a;
  bi_used : ba_used_blocks a = used_bits b (ba_total_blocks a)
}.

(** The reserved blocks are marked, as after [blk_alloc_format]. *)
Definition reserved_ok (a : blk_allocator) (b : list Z) : Prop :=
  forall i, 0 <= i < ba_first_data_block a -> bit b i = true.

Lemma bi_nbits a b : ba_inv a b -> ba_total_blocks a <= nbits b.
Proof. intros Hi. destruct Hi. unfold nbits. rewrite bi_length0, bi_size0. dlia. Qed.

Lemma bi_used_bounds a b : ba_inv a b -> 0 <= ba_used_blocks a <= ba_total_blocks a.
Proof.
  intros Hi. rewrite (bi_used _ _ Hi). apply count_bounds.
  pose proof (bi_total _ _ Hi). lia.
Qed.

Lemma u32_id x : 0 <= x < 2 ^ 32 -> u32 x = x.
Proof. intros. unfold u32. by apply Z.mod_small. Qed.

Lemma used_pos b n i : 0 <= i < n -> bit b i = true -> 0 < used_bits b n.
Proof.
  intros Hi Hb. pose proof (free_bits_lt b n i Hi Hb).
  rewrite free_used_bits in * by lia. lia.
Qed.

Lemma used_lt b n i : 0 <= i < n -> bit b i = false -> used_bits b n < n.
Proof. apply count_miss. Qed.

(** ** Changes of the allocator *)

Definition marked (p : Z) (b : list Z) (hint : Z) (a : blk_allocator) : blk_allocator :=
  with_dirty true (with_hint hint
    (with_used (ba_used_blocks a + 1) (with_bitmap (Some (set_bit b p)) a))).

Definition unmarked (p : Z) (b : list Z) (hint : Z) (a : blk_allocator) : blk_allocator :=
  with_dirty true (with_hint hint
    (with_used (ba_used_blocks a - 1) (with_bitmap (Some (clear_bit b p)) a))).

Lemma inv_with_lock l a b : ba_inv a b -> ba_inv (with_lock l a) b.
Proof. intros []. by split. Qed.

Lemma inv_with_dirty d a b : ba_inv a b -> ba_inv (with_dirty d a) b.
Proof. intros []. by split. Qed.

Lemma inv_marked a b p hint :
  ba_inv a b -> 0 <= p < ba_total_blocks a -> bit b p = false ->
  0 <= hint <= ba_total_blocks a -> ba_inv (marked p b hint a) (set_bit b p).
Proof.
  intros Hi Hp Hb Hh. pose proof (bi_nbits _ _ Hi). destruct Hi.
  split; simpl; try done.
  - by apply bytes_ok_set_bit.
  - by rewrite length_set_bit.
  - rewrite used_bits_set by lia || done. lia.
Qed.

Lemma inv_unmarked a b p hint :
  ba_inv a b -> 0 <= p < ba_total_blocks a -> bit b p = true ->
  0 <= hint <= ba_total_blocks a -> ba_inv (unmarked p b hint a) (clear_bit b p).
Proof.
  intros Hi Hp Hb Hh. pose proof (bi_nbits _ _ Hi). destruct Hi.
  split; simpl; try done.
  - by apply bytes_ok_clear_bit.
  - by rewrite length_clear_bit.
  - rewrite used_bits_clear by lia || done. lia.
Qed.

Section specs.
Context {E : Type} `{KernelHeap E} `{VnodeLayer E}.
Implicit Types (s : kst blk_allocator E) (a : blk_allocator) (b : list Z).

Lemma wp_ba_bytes_in (Q : list Z -> kst blk_allocator E -> Prop) s a b :
  ba_bitmap a = Some b -> Q b (inside s a) -> wp ba_bytes Q (inside s a).
Proof.
  intros Hb HQ. unfold ba_bytes. wp_step. apply wp_obj_in; [done|]. by rewrite Hb.
Qed.

Lemma wp_ba_test_in (Q : bool -> kst blk_allocator E -> Prop) s a b i :
  ba_bitmap a = Some b -> 0 <= i < nbits b ->
  Q (bit b i) (inside s a) -> wp (ba_test i) Q (inside s a).
Proof.
  intros Hb Hi HQ. unfold ba_test. wp_step. apply (wp_ba_bytes_in _ s a b); [done|].
  eapply wp_lift; [by apply bitmap_test_bit_ok|done].
Qed.

Lemma wp_ba_set_in (Q : unit -> kst blk_allocator E -> Prop) s a b i :
  ba_bitmap a = Some b -> 0 <= i < nbits b ->
  Q tt (inside s (with_bitmap (Some (set_bit b i)) a)) -> wp (ba_set i) Q (inside s a).
Proof.
  intros Hb Hi HQ. unfold ba_set. wp_step. apply (wp_ba_bytes_in _ s a b); [done|].
  wp_step. eapply wp_lift; [by apply bitmap_set_bit_ok|]. by apply wp_upd_in.
Qed.

Lemma wp_ba_clear_in (Q : unit -> kst blk_allocator E -> Prop) s a b i :
  ba_bitmap a = Some b -> 0 <= i < nbits b ->
  Q tt (inside s (with_bitmap (Some (clear_bit b i)) a)) -> wp (ba_clear i) Q (inside s a).
Proof.
  intros Hb Hi HQ. unfold ba_clear. wp_step. apply (wp_ba_bytes_in _ s a b); [done|].
  wp_step. eapply wp_lift; [by apply bitmap_clear_bit_ok|]. by apply wp_upd_in.
Qed.

End specs.

Section ops.
Context {E : Type} `{KernelHeap E} `{VnodeLayer E}.
Implicit Types (s : kst blk_allocator E) (a : blk_allocator) (b : list Z).

(** ** [blk_alloc] *)

Lemma wp_take_block (Q : Z -> kst blk_allocator E -> Prop) s a b p :
  ba_inv a b -> 0 <= p < ba_total_blocks a -> bit b p = false ->
  Q p (outside s (marked p b (p + 1) a)) ->
  wp (take_block (k_flags s) p) Q (inside s a).
Proof.
  intros Hi Hp Hb HQ. unfold take_block. pose proof (bi_nbits _ _ Hi).
  pose proof (bi_total _ _ Hi). pose proof (used_lt _ _ _ Hp Hb) as Hu.
  rewrite <- (bi_used _ _ Hi) in Hu. pose proof (bi_used_bounds _ _ Hi).
  ba_step. apply (wp_ba_set_in _ s a b); [apply Hi|lia|]. ba_steps. simpl.
  by rewrite !u32_id by lia.
Qed.

Lemma wp_scan_blocks (Q : unit + Z -> kst blk_allocator E -> Prop) s a b from to :
  ba_inv a b -> 0 <= from -> to <= ba_total_blocks a ->
  match first_clear (bit b) from to with
  | Some p => Q (inr p) (outside s (marked p b (p + 1) a))
  | None => Q (inl tt) (inside s a)
  end ->
  wp (scan_blocks (k_flags s) from to) Q (inside s a).
Proof.
  intros Hi Hf Ht HQ. unfold scan_blocks. pose proof (bi_nbits _ _ Hi).
  eapply wp_mono.
  - apply (wp_for_range
      (fun i _ s' => s' = inside s a /\ forall q, from <= q < i -> bit b q = true)
      (fun p s' => s' = outside s (marked p b (p + 1) a) /\
         first_clear (bit b) from to = Some p)).
    + split; [done|lia].
    + intros i [] ? Hr (-> & Hq). ba_step.
      apply (wp_ba_test_in _ s a b); [apply Hi|lia|].
      destruct (bit b i) eqn:Eb; simpl; ba_step.
      * split; [done|]. intros q Hq'. destruct (decide (q = i)) as [->|]; [done|].
        apply Hq. lia.
      * apply (wp_take_block _ s a b); [done|lia|done|]. ba_step. split; [done|].
        apply first_clear_Some. auto.
  - intros [[]|p] s'.
    + intros [-> Hq]. replace (first_clear (bit b) from to) with (@None Z) in HQ; [done|].
      symmetry. apply first_clear_None. intros q Hq'. apply Hq. lia.
    + intros [-> Hs]. by rewrite Hs in HQ.
Qed.

(** The block [blk_alloc] takes: the first free one from the hint on, else
    the first free data block below it. *)
Definition next_block a b : option Z :=
  if ba_total_blocks a <=? ba_used_blocks a then None
  else
    match first_clear (bit b) (ba_first_free a) (ba_total_blocks a) with
    | Some p => Some p
    | None => first_clear (bit b) (ba_first_data_block a) (ba_first_free a)
    end.

Lemma wp_blk_alloc (Q : Z -> kst blk_allocator E -> Prop) s b :
  ba_inv (k_obj s) b -> obj_idle s ->
  match next_block (k_obj s) b with
  | Some p => Q p (outside s (marked p b (p + 1) (k_obj s)))
  | None => Q 0 (outside s (k_obj s))
  end -> wp (blk_alloc PObj) Q s.
Proof.
  intros Hi Hidle HQ. unfold blk_alloc, next_block in *. ba_step.
  apply wp_lock_obj; [done|]. set (a := k_obj s) in *. ba_steps.
  destruct (_ <=? _); [by ba_steps|].
  pose proof (bi_hint _ _ Hi). pose proof (bi_first _ _ Hi). ba_steps.
  apply (wp_scan_blocks _ s a b); [done|lia|lia|].
  destruct (first_clear (bit b) (ba_first_free a) _); [by ba_steps|]. ba_steps.
  apply (wp_scan_blocks _ s a b); [done|lia|lia|].
  destruct (first_clear (bit b) (ba_first_data_block a) _); by ba_steps.
Qed.

(** ** [blk_alloc_specific], [blk_free], [blk_is_allocated] *)

Definition hint_after_specific a p : Z :=
  if p <? ba_first_free a then p + 1 else ba_first_free a.

Lemma wp_blk_alloc_specific (Q : Z -> kst blk_allocator E -> Prop) s b p :
  ba_inv (k_obj s) b -> obj_idle s -> 0 <= p ->
  (if ba_total_blocks (k_obj s) <=? p then Q (-EINVAL) s
   else if bit b p then Q (-EEXIST) (outside s (k_obj s))
   else Q 0 (outside s (marked p b (hint_after_specific (k_obj s) p) (k_obj s)))) ->
  wp (blk_alloc_specific PObj p) Q s.
Proof.
  intros Hi Hidle Hp HQ. unfold blk_alloc_specific, hint_after_specific in *. ba_steps.
  set (a := k_obj s) in *. pose proof (bi_nbits _ _ Hi). pose proof (bi_total _ _ Hi).
  destruct (Z.leb_spec (ba_total_blocks a) p) as [|Hlt]; [by ba_step|].
  ba_step. apply wp_lock_obj; [done|]. ba_step.
  apply (wp_ba_test_in _ s a b); [apply Hi|lia|].
  destruct (bit b p) eqn:Eb; [by ba_steps|].
  pose proof (used_lt b _ p (conj Hp Hlt) Eb) as Hu. rewrite <- (bi_used _ _ Hi) in Hu.
  pose proof (bi_used_bounds _ _ Hi).
  ba_step. apply (wp_ba_set_in _ s a b); [apply Hi|lia|]. ba_steps. cbn [ba_used_blocks with_bitmap].
  rewrite !u32_id by lia. cbn [ba_first_free with_used with_dirty with_bitmap].
  destruct (p <? ba_first_free a); by ba_steps.
Qed.

Definition hint_after_free a p : Z :=
  if p <? ba_first_free a then p else ba_first_free a.

Lemma wp_blk_free (Q : Z -> kst blk_allocator E -> Prop) s b p :
  ba_inv (k_obj s) b -> obj_idle s -> 0 <= p ->
  (if ba_total_blocks (k_obj s) <=? p then Q (-EINVAL) s
   else if p <? ba_first_data_block (k_obj s) then Q (-EINVAL) s
   else if bit b p
   then Q 0 (outside s (unmarked p b (hint_after_free (k_obj s) p) (k_obj s)))
   else Q (-EINVAL) (outside s (k_obj s))) ->
  wp (blk_free PObj p) Q s.
Proof.
  intros Hi Hidle Hp HQ. unfold blk_free, hint_after_free in *. ba_steps.
  set (a := k_obj s) in *. pose proof (bi_nbits _ _ Hi). pose proof (bi_total _ _ Hi).
  destruct (Z.leb_spec (ba_total_blocks a) p) as [|Hlt]; [by ba_step|].
  destruct (p <? ba_first_data_block a); [by ba_step|].
  ba_step. apply wp_lock_obj; [done|]. ba_step.
  apply (wp_ba_test_in _ s a b); [apply Hi|lia|].
  destruct (bit b p) eqn:Eb; simpl; [|by ba_steps].
  pose proof (used_pos b _ p (conj Hp Hlt) Eb) as Hu. rewrite <- (bi_used _ _ Hi) in Hu.
  pose proof (bi_used_bounds _ _ Hi).
  ba_step. apply (wp_ba_clear_in _ s a b); [apply Hi|lia|]. ba_steps. simpl in *.
  rewrite u32_id by lia.
  destruct (p <? ba_first_free a); by ba_steps.
Qed.

Lemma wp_blk_is_allocated (Q : bool -> kst blk_allocator E -> Prop) s b p :
  ba_inv (k_obj s) b -> obj_idle s -> 0 <= p ->
  (if ba_total_blocks (k_obj s) <=? p then Q false s
   else Q (bit b p) (outside s (k_obj s))) ->
  wp (blk_is_allocated PObj p) Q s.
Proof.
  intros Hi Hidle Hp HQ. unfold blk_is_allocated. ba_steps.
  pose proof (bi_nbits _ _ Hi).
  destruct (Z.leb_spec (ba_total_blocks (k_obj s)) p) as [|Hlt]; [by ba_step|].
  ba_step. apply wp_lock_obj; [done|]. ba_step.
  apply (wp_ba_test_in _ s (k_obj s) b); [apply Hi|lia|]. by ba_steps.
Qed.
End ops.

(** ** Block allocator: runs of blocks

    The operations that loop over the bitmap: [blk_alloc_contiguous],
    [blk_alloc_format], [blk_alloc_validate], [blk_alloc_fragmentation] and
    [blk_alloc_largest_free_region]. *)

(** ** Marking a run *)

Fixpoint set_range (b : list Z) (start : Z) (n : nat) : list Z :=
  match n with
  | O => b
  | S n' => set_bit (set_range b start n') (start + Z.of_nat n')
  end.

Definition free_run (b : list Z) (start n : Z) : Prop :=
  forall j, start <= j < start + n -> bit b j = false.

Lemma length_set_range b start n : length (set_range b start n) = length b.
Proof. induction n as [|n IH]; simpl; [done|]. by rewrite length_set_bit. Qed.

Lemma nbits_set_range b start n : nbits (set_range b start n) = nbits b.
Proof. unfold nbits. by rewrite length_set_range. Qed.

Lemma bytes_ok_set_range b start n : bytes_ok b -> bytes_ok (set_range b start n).
Proof. intros Hb. induction n as [|n IH]; simpl; [done|]. by apply bytes_ok_set_bit. Qed.

Lemma bit_set_range b start n j :
  0 <= start -> start + Z.of_nat n <= nbits b -> 0 <= j ->
  bit (set_range b start n) j =
    ((start <=? j) && (j <? start + Z.of_nat n)) || bit b j.
Proof.
  intros Hs Hn Hj. induction n as [|n IH]; simpl set_range.
  - replace (start + Z.of_nat 0) with start by lia.
    by destruct (Z.leb_spec start j), (Z.ltb_spec j start); simpl; try lia.
  - rewrite bit_set_bit by (rewrite ?nbits_set_range; lia). rewrite IH by lia.
    destruct (Z.eqb_spec j (start + Z.of_nat n)) as [->|Hne].
    + by rewrite (proj2 (Z.leb_le _ _)), (proj2 (Z.ltb_lt _ _)) by lia.
    + f_equal. f_equal. apply eq_true_iff_eq. rewrite !Z.ltb_lt. lia.
Qed.

Lemma used_bits_set_range b start n total :
  0 <= start -> start + Z.of_nat n <= total -> total <= nbits b ->
  free_run b start (Z.of_nat n) ->
  used_bits (set_range b start n) total = used_bits b total + Z.of_nat n.
Proof.
  intros Hs Hn Ht. induction n as [|n IH]; intros Hf; simpl set_range; [lia|].
  rewrite used_bits_set; [|lia|rewrite nbits_set_range; lia|].
  - rewrite IH; [lia|lia|]. intros j Hj. apply Hf. lia.
  - rewrite bit_set_range by lia. rewrite (Hf (start + Z.of_nat n)) by lia.
    destruct (Z.ltb_spec (start + Z.of_nat n) (start + Z.of_nat n)); [lia|].
    by rewrite andb_false_r.
Qed.

Lemma bit_zeros n i : 0 <= i < 8 * Z.of_nat n -> bit (replicate n 0) i = false.
Proof.
  intros Hi. unfold bit. rewrite lookup_replicate_2 by dlia. apply Z.bits_0.
Qed.

Lemma used_bits_zeros n total :
  total <= 8 * Z.of_nat n -> used_bits (replicate n 0) total = 0.
Proof. intros Ht. apply count_none. intros i Hi. apply bit_zeros. lia. Qed.

Lemma bytes_ok_zeros n : bytes_ok (replicate n 0).
Proof. apply Forall_replicate. unfold byte_ok. lia. Qed.

Lemma memset0_ok b : memset0 (Z.of_nat (length b)) b = Ok (replicate (length b) 0).
Proof.
  unfold memset0. rewrite Z.leb_refl, Nat2Z.id, drop_all, app_nil_r. done.
Qed.

(** ** The search for a run *)

(** What the loop of [blk_alloc_contiguous] knows before block [i]. *)
Definition run_state (b : list Z) (count from i found start : Z) : Prop :=
  0 <= found <= count /\ from <= i - found /\ free_run b (i - found) found /\
  (0 < found -> start = i - found) /\
  (from = i - found \/ bit b (i - found - 1) = true) /\
  (forall q, from <= q -> q + count <= i -> free_run b q count ->
     found = count /\ q = i - found).

(** The lowest run of [count] free blocks in the range, or none and the free
    run at the end of the range. *)
Definition run_found (b : list Z) (count from to found start : Z) : Prop :=
  (found = count /\ from <= start /\ start + count <= to /\ free_run b start count /\
    forall q, from <= q < start -> ~ free_run b q count) \/
  (found < count /\ 0 <= found /\ from <= to - found /\
    free_run b (to - found) found /\ (0 < found -> start = to - found) /\
    (from = to - found \/ bit b (to - found - 1) = true) /\
    forall q, from <= q -> q + count <= to -> ~ free_run b q count).

Lemma run_state_step b count from i found start :
  0 < count -> found < count -> run_state b count from i found start ->
  (bit b i = false ->
   run_state b count from (i + 1) (found + 1) (if found =? 0 then i else start)) /\
  (bit b i = true -> run_state b count from (i + 1) 0 start).
Proof.
  intros Hc Hlt (Hf & Hfr & Hrun & Hst & Hl & Hno). split; intros Hb.
  - split_and!; [lia|lia|lia| | | |].
    + intros j Hj. destruct (decide (j = i)) as [->|]; [done|]. apply Hrun. lia.
    + intros _. destruct (Z.eqb_spec found 0); lia.
    + by replace (i + 1 - (found + 1)) with (i - found) by lia.
    + intros q Hq Hqc Hr. destruct (decide (q + count = i + 1)) as [Heq|Hne].
      * destruct (decide (q < i - found)) as [Hlow|]; [|lia].
        destruct Hl as [Hl|Hl]; [lia|]. rewrite Hr in Hl by lia. done.
      * destruct (Hno q) as [? _]; [lia|lia|done|lia].
  - split_and!; [lia|lia|lia| |lia| |].
    + intros j Hj. lia.
    + right. by replace (i + 1 - 0 - 1) with i by lia.
    + intros q Hq Hqc Hr. destruct (decide (q + count = i + 1)) as [Heq|Hne].
      * rewrite Hr in Hb by lia. done.
      * destruct (Hno q) as [? _]; [lia|lia|done|lia].
Qed.

Lemma run_state_full b count from to i start :
  0 < count -> i <= to -> run_state b count from i count start ->
  run_found b count from to count start.
Proof.
  intros Hc Hi (Hf & Hfr & Hrun & Hst & Hl & Hno). left.
  rewrite (Hst Hc) in *. split_and!; [done|lia|lia|done|].
  intros q Hq Hr. destruct (Hno q) as [_ Heq]; [lia|lia|done|lia].
Qed.

Lemma run_state_end b count from to found start :
  0 < count -> run_state b count from to found start ->
  run_found b count from to found start.
Proof.
  intros Hc Hst. destruct (decide (found = count)) as [->|Hne].
  - by eapply run_state_full.
  - destruct Hst as (Hf & Hfr & Hrun & Hst & Hl & Hno). right.
    split_and!; try lia; try done. intros q Hq Hqc Hr.
    destruct (Hno q) as [? _]; [lia|lia|done|lia].
Qed.

Section runs.
Context {E : Type} `{KernelHeap E} `{VnodeLayer E}.
Implicit Types (s : kst blk_allocator E) (a : blk_allocator) (b : list Z).

Lemma wp_find_run (Q : Z * Z -> kst blk_allocator E -> Prop) s a b count from :
  ba_inv a b -> 0 < count < 2 ^ 32 -> 0 <= from <= ba_total_blocks a ->
  (forall found start, run_found b count from (ba_total_blocks a) found start ->
     Q (found, start) (inside s a)) ->
  wp (find_run count from (ba_total_blocks a)) Q (inside s a).
Proof.
  intros Hi Hc Hf HQ. unfold find_run. pose proof (bi_nbits _ _ Hi). ba_step.
  eapply wp_mono.
  - apply (wp_for_range
      (fun i '(found, start) s' => s' = inside s a /\ run_state b count from i found start)
      (fun '(found, start) s' => s' = inside s a /\
         run_found b count from (ba_total_blocks a) found start)).
    + split; [done|]. split_and!; [lia|lia|lia| |lia|left; lia|]; intros j Hj; lia.
    + intros i [found start] ? Hr (-> & Hst).
      destruct (Z.ltb_spec found count) as [Hlt|Hge]; simpl.
      * destruct (run_state_step _ _ _ _ _ _ (proj1 Hc) Hlt Hst) as [Hs1 Hs2].
        ba_step. apply (wp_ba_test_in _ s a b); [apply Hi|lia|].
        destruct (bit b i) eqn:Eb; simpl; ba_step; [by split; auto|].
        destruct Hst as (? & _). rewrite u32_id by lia. by split; auto.
      * ba_step. split; [done|]. assert (found = count) as -> by (destruct Hst; lia).
        apply (run_state_full _ _ _ _ i); [lia|lia|done].
  - intros [[found start]|[found start]] s'; intros (-> & Hst); ba_step.
    + apply HQ. apply run_state_end; [lia|]. by rewrite Z.max_r in Hst by lia.
    + by apply HQ.
Qed.

(** ** [blk_alloc_contiguous] *)

Definition marked_run (start : Z) (n : nat) (b : list Z) (a : blk_allocator) : blk_allocator :=
  with_dirty true (with_hint (start + Z.of_nat n)
    (with_used (ba_used_blocks a + Z.of_nat n)
      (with_bitmap (Some (set_range b start n)) a))).

Lemma inv_marked_run a b start n :
  ba_inv a b -> 0 <= start -> start + Z.of_nat n <= ba_total_blocks a ->
  free_run b start (Z.of_nat n) -> ba_inv (marked_run start n b a) (set_range b start n).
Proof.
  intros Hi Hs Hn Hr. pose proof (bi_nbits _ _ Hi). destruct Hi.
  split; simpl; try done; try lia.
  - by apply bytes_ok_set_range.
  - by rewrite length_set_range.
  - rewrite used_bits_set_range by lia || done. lia.
Qed.

Lemma wp_mark_loop (Q : list Z -> kst blk_allocator E -> Prop) s a b start (n : nat) blocks :
  ba_inv a b -> 0 <= start -> start + Z.of_nat n <= ba_total_blocks a ->
  (n <= length blocks)%nat ->
  Q (seqZ start (Z.of_nat n) ++ drop n blocks)
    (inside s (with_bitmap (Some (set_range b start n)) a)) ->
  wp (for_each 0 (Z.of_nat n) blocks (fun i out =>
        let block := u32 (start + i) in
        ba_set block ;;; lift (awrite out i block))) Q (inside s a).
Proof.
  intros Hi Hs Hn Hlen HQ. pose proof (bi_nbits _ _ Hi). pose proof (bi_total _ _ Hi).
  eapply wp_mono.
  - apply (wp_for_each (fun i out s' =>
      s' = inside s (with_bitmap (Some (set_range b start (Z.to_nat i))) a) /\
      out = seqZ start i ++ drop (Z.to_nat i) blocks)).
    + split; [|done]. unfold inside, with_lock, with_bitmap. simpl.
      by rewrite <- (bi_bitmap _ _ Hi).
    + intros i out ? Hr (-> & ->). cbv zeta. rewrite u32_id by lia. ba_step.
      apply (wp_ba_set_in _ s _ (set_range b start (Z.to_nat i)));
        [done|rewrite nbits_set_range; lia|].
      assert (Hl : length (seqZ start i) = Z.to_nat i) by apply length_seqZ.
      eapply wp_lift.
      { apply awrite_ok. rewrite length_app, Hl, length_drop. lia. }
      replace (Z.to_nat (i + 1)) with (S (Z.to_nat i)) by lia. split.
      * simpl. by replace (start + Z.of_nat (Z.to_nat i)) with (start + i) by lia.
      * rewrite insert_app_r_alt by lia. rewrite Hl, Nat.sub_diag.
        destruct (lookup_lt_is_Some_2 blocks (Z.to_nat i)) as [x Hx]; [lia|].
        rewrite (drop_S _ _ _ Hx). simpl.
        rewrite (seqZ_app start i 1) by lia. by rewrite <- app_assoc.
  - rewrite Z.max_r by lia. intros out s' (-> & ->). by rewrite Nat2Z.id in *.
Qed.

(** The number of blocks asked for, cut down to the number available. *)
Definition run_want a count : Z :=
  Z.min count (ba_total_blocks a - ba_used_blocks a).

Lemma wp_blk_alloc_contiguous (Q : Z * list Z -> kst blk_allocator E -> Prop) s b count blocks :
  ba_inv (k_obj s) b -> obj_idle s -> 0 < count < 2 ^ 32 -> count <= Z.of_nat (length blocks) ->
  (run_want (k_obj s) count = 0 -> Q (0, blocks) (outside s (k_obj s))) ->
  (forall found start,
     0 < run_want (k_obj s) count ->
     run_found b (run_want (k_obj s) count) (ba_first_data_block (k_obj s))
       (ba_total_blocks (k_obj s)) found start ->
     if found =? 0 then Q (0, blocks) (outside s (k_obj s))
     else Q (found, seqZ start found ++ drop (Z.to_nat found) blocks)
            (outside s (marked_run start (Z.to_nat found) b (k_obj s)))) ->
  wp (blk_alloc_contiguous PObj count (Some blocks)) Q s.
Proof.
  intros Hi Hidle Hc Hlen HQ0 HQ. unfold blk_alloc_contiguous.
  rewrite (proj2 (Z.eqb_neq count 0)) by lia. ba_step. apply wp_lock_obj; [done|].
  set (a := k_obj s) in *. ba_steps. pose proof (bi_used_bounds _ _ Hi).
  pose proof (bi_total _ _ Hi). pose proof (bi_first _ _ Hi).
  unfold run_want in *. rewrite u32_id by lia.
  destruct (Z.eqb_spec (ba_total_blocks a - ba_used_blocks a) 0) as [E0|E0].
  { ba_steps. apply HQ0. lia. }
  ba_steps. replace (if _ <? count then _ else count)
    with (Z.min count (ba_total_blocks a - ba_used_blocks a))
    by (destruct (Z.ltb_spec (ba_total_blocks a - ba_used_blocks a) count); lia).
  set (w := Z.min count _) in *.
  apply (wp_find_run _ s a b); [done|lia|lia|]. intros found start Hrun.
  specialize (HQ found start ltac:(lia) Hrun).
  destruct (Z.eqb_spec found 0) as [E1|E1]; [by ba_steps|].
  assert (Hfr : 0 < found <= w /\ ba_first_data_block a <= start /\
    start + found <= ba_total_blocks a).
  { destruct Hrun as [(-> & ? & ? & _)|(? & ? & ? & _ & Hst & _)]; [lia|].
    rewrite Hst by lia. lia. }
  ba_step. replace found with (Z.of_nat (Z.to_nat found)) at 1 by lia.
  apply (wp_mark_loop _ s a b); [done|lia|lia|lia|]. ba_steps.
  unfold marked_run in HQ. rewrite Z2Nat.id in * by lia.
  cbn [ba_used_blocks with_bitmap]. rewrite !u32_id by lia. exact HQ.
Qed.

(** ** [blk_alloc_validate] *)

Lemma wp_count_used (Q : Z -> kst blk_allocator E -> Prop) s a b :
  ba_inv a b ->
  Q (used_bits b (ba_total_blocks a)) (inside s a) ->
  wp (count_used (ba_total_blocks a)) Q (inside s a).
Proof.
  intros Hi HQ. pose proof (bi_nbits _ _ Hi). pose proof (bi_total _ _ Hi).
  unfold count_used. eapply wp_mono.
  - apply (wp_for_each (fun i n s' => s' = inside s a /\ n = used_bits b i)); [done|].
    intros i n ? Hr (-> & ->). ba_step. apply (wp_ba_test_in _ s a b); [apply Hi|lia|].
    ba_step. split; [done|]. unfold used_bits. rewrite count_succ by lia.
    pose proof (count_bounds (bit b) i ltac:(lia)).
    destruct (bit b i); [|lia]. apply u32_id. lia.
  - intros n s' (-> & ->). by rewrite Z.max_r by lia.
Qed.

Lemma wp_blk_alloc_validate (Q : Z -> kst blk_allocator E -> Prop) s b :
  ba_inv (k_obj s) b -> obj_idle s ->
  Q (match first_clear (bit b) 0 (ba_first_data_block (k_obj s)) with
     | None => 0 | Some _ => -EFAULT end) (outside s (k_obj s)) ->
  wp (blk_alloc_validate PObj) Q s.
Proof.
  intros Hi Hidle HQ. unfold blk_alloc_validate. ba_step. apply wp_lock_obj; [done|].
  set (a := k_obj s) in *. ba_steps. pose proof (bi_nbits _ _ Hi).
  pose proof (bi_first _ _ Hi). apply (wp_count_used _ s a b); [done|]. ba_steps.
  rewrite (bi_used _ _ Hi), Z.eqb_refl. simpl. ba_steps. eapply wp_mono.
  - apply (wp_for_range
      (fun i _ s' => s' = inside s a /\ forall q, 0 <= q < i -> bit b q = true)
      (fun e s' => s' = outside s a /\ e = -EFAULT /\
         exists p, first_clear (bit b) 0 (ba_first_data_block a) = Some p)).
    + split; [done|lia].
    + intros i [] ? Hr (-> & Hq). ba_step.
      apply (wp_ba_test_in _ s a b); [apply Hi|lia|].
      destruct (bit b i) eqn:Eb; simpl; ba_steps.
      * split; [done|]. intros q Hq'. destruct (decide (q = i)) as [->|]; [done|].
        apply Hq. lia.
      * split_and!; [done|done|]. exists i. apply first_clear_Some. auto.
  - intros [[]|e] s'.
    + intros (-> & Hq). ba_steps.
      by rewrite (proj2 (first_clear_None _ _ _)) in HQ by (intros q ?; apply Hq; lia).
    + intros (-> & -> & p & Hp). ba_step. by rewrite Hp in HQ.
Qed.

(** ** [blk_alloc_format] *)

Definition formatted (n : Z) (b : list Z) (a : blk_allocator) : blk_allocator :=
  with_dirty true (with_hint n (with_used n
    (with_bitmap (Some (set_range (replicate (length b) 0) 0 (Z.to_nat n))) a))).

Lemma inv_formatted a b n :
  ba_inv a b -> 0 <= n <= ba_total_blocks a ->
  ba_inv (formatted n b a) (set_range (replicate (length b) 0) 0 (Z.to_nat n)).
Proof.
  intros Hi Hn. pose proof (bi_nbits _ _ Hi) as Hnb. destruct Hi.
  assert (Hl : nbits (replicate (length b) 0) = nbits b).
  { unfold nbits. by rewrite length_replicate. }
  split; simpl; try done.
  - apply bytes_ok_set_range, bytes_ok_zeros.
  - by rewrite length_set_range, length_replicate.
  - rewrite used_bits_set_range; [|lia|lia|lia|].
    + rewrite used_bits_zeros by (unfold nbits in Hnb; lia). lia.
    + intros j Hj. apply bit_zeros. unfold nbits in Hnb. lia.
Qed.

Lemma wp_blk_alloc_format (Q : Z -> kst blk_allocator E -> Prop) s b n :
  ba_inv (k_obj s) b -> obj_idle s -> 0 <= n ->
  (if ba_total_blocks (k_obj s) <? n then Q (-EINVAL) s
   else Q 0 (outside s (formatted n b (k_obj s)))) ->
  wp (blk_alloc_format PObj n) Q s.
Proof.
  intros Hi Hidle Hn HQ. unfold blk_alloc_format. ba_steps. set (a := k_obj s) in *.
  destruct (Z.ltb_spec (ba_total_blocks a) n); [by ba_step|].
  ba_step. apply wp_lock_obj; [done|]. fold a. ba_steps.
  apply (wp_ba_bytes_in _ s a b); [apply Hi|]. ba_step.
  eapply wp_lift; [rewrite <- (bi_length _ _ Hi); apply memset0_ok|]. ba_steps.
  pose proof (bi_nbits _ _ Hi) as Hnb. pose proof (bi_total _ _ Hi). eapply wp_mono.
  - apply (wp_for_each (fun i _ s' => s' = inside s (with_used i
      (with_bitmap (Some (set_range (replicate (length b) 0) 0 (Z.to_nat i))) a)))); [done|].
    intros i [] ? Hr ->. ba_step.
    eapply wp_ba_set_in; [done| |].
    { rewrite nbits_set_range. unfold nbits in *. rewrite length_replicate. lia. }
    ba_steps. cbn [ba_used_blocks with_bitmap with_used]. rewrite u32_id by lia.
    replace (Z.to_nat (i + 1)) with (S (Z.to_nat i)) by lia. cbn [set_range].
    by replace (0 + Z.of_nat (Z.to_nat i)) with i by lia.
  - intros [] s' ->. rewrite Z.max_r by lia. by ba_steps.
Qed.

(** ** [blk_alloc_fragmentation] *)

(** A used block right after a free one. *)
Definition fragment_end a b i : bool :=
  (ba_first_data_block a <? i) && bit b i && negb (bit b (i - 1)).

Lemma wp_fragmentation (Q : Z -> kst blk_allocator E -> Prop) s a b :
  ba_inv a b ->
  Q (if ba_used_blocks a =? 0 then 0
     else u32 (count (fragment_end a b) (ba_total_blocks a) * 100) / ba_used_blocks a)
    (inside s a) ->
  wp (blk_alloc_fragmentation PObj) Q (inside s a).
Proof.
  intros Hi HQ. unfold blk_alloc_fragmentation. ba_steps.
  destruct (Z.eqb_spec (ba_used_blocks a) 0) as [|Hu]; [by ba_steps|].
  pose proof (bi_nbits _ _ Hi). pose proof (bi_total _ _ Hi). pose proof (bi_first _ _ Hi).
  ba_steps. eapply wp_mono.
  - apply (wp_for_each (fun i '(n, fr) s' => s' = inside s a /\
      n = count (fragment_end a b) i /\
      fr = (ba_first_data_block a <? i) && negb (bit b (i - 1)))).
    + split_and!; [done| |].
      * symmetry. apply count_none. intros j Hj. unfold fragment_end.
        rewrite (proj2 (Z.ltb_ge _ _)) by lia. done.
      * by rewrite Z.ltb_irrefl.
    + intros i [n fr] ? Hr (-> & -> & Hfr). ba_step.
      apply (wp_ba_test_in _ s a b); [apply Hi|lia|]. cbv zeta.
      pose proof (count_bounds (fragment_end a b) i ltac:(lia)).
      assert (E1 : (ba_first_data_block a <? i + 1) = true) by (apply Z.ltb_lt; lia).
      assert (E2 : i + 1 - 1 = i) by lia.
      assert (E3 : fragment_end a b i = bit b i && fr).
      { unfold fragment_end. rewrite Hfr. by destruct (_ <? i), (bit b i), (bit b (i - 1)). }
      destruct (bit b i) eqn:Eb, fr; simpl; ba_step;
        rewrite count_succ, E1, E2, Eb, E3 by lia; simpl;
        rewrite ?u32_id by lia; split_and!; done || lia.
  - intros [n fr] s' (-> & -> & _). ba_steps.
    rewrite (proj2 (Z.eqb_neq _ _) Hu). ba_step. by rewrite Z.max_r by lia.
Qed.

(** ** [blk_alloc_largest_free_region] *)

(** [(size, start)] is a free run of the range and none is longer. *)
Definition largest_run (b : list Z) (from to size start : Z) : Prop :=
  0 <= size /\
  (0 < size -> from <= start /\ start + size <= to /\ free_run b start size) /\
  (forall q n, from <= q -> q + n <= to -> free_run b q n -> n <= size).

Definition region_state (b : list Z) (from i : Z) (l : Z * Z * (Z * Z)) : Prop :=
  let '(ms, mst, (cs, cst)) := l in
  0 <= ms <= i - from /\ 0 <= cs /\ from <= i - cs /\
  (0 < ms -> from <= mst /\ mst + ms <= i /\ free_run b mst ms) /\
  (0 < cs -> cst = i - cs) /\ free_run b (i - cs) cs /\
  (from = i - cs \/ bit b (i - cs - 1) = true) /\
  (forall q n, from <= q -> q + n <= i -> free_run b q n -> n <= Z.max ms cs).

Lemma region_state_free b from i ms mst cs cst :
  from <= i -> bit b i = false -> region_state b from i (ms, mst, (cs, cst)) ->
  region_state b from (i + 1) (ms, mst, (cs + 1, if cs =? 0 then i else cst)).
Proof.
  intros Hfi Hb (Hms & Hcs & Hf & Hm & Hc & Hrun & Hl & Hno).
  split_and!; try lia.
  - intros Hp. specialize (Hm Hp). split_and!; [lia|lia|apply Hm].
  - intros _. destruct (Z.eqb_spec cs 0); lia.
  - intros j Hj. destruct (decide (j = i)) as [->|]; [done|]. apply Hrun. lia.
  - by replace (i + 1 - (cs + 1)) with (i - cs) by lia.
  - intros q n Hq Hn Hr. destruct (decide (q + n = i + 1)) as [Heq|].
    + destruct (decide (q < i - cs)) as [Hlow|]; [|lia].
      destruct Hl as [Hl|Hl]; [lia|]. rewrite Hr in Hl by lia. done.
    + specialize (Hno q n Hq ltac:(lia) Hr). lia.
Qed.

Lemma region_state_used b from i ms mst cs cst :
  from <= i -> bit b i = true -> region_state b from i (ms, mst, (cs, cst)) ->
  region_state b from (i + 1)
    (if ms <? cs then (cs, cst, (0, cst)) else (ms, mst, (0, cst))).
Proof.
  intros Hfi Hb (Hms & Hcs & Hf & Hm & Hc & Hrun & Hl & Hno).
  assert (Hno' : forall q n, from <= q -> q + n <= i + 1 -> free_run b q n -> n <= Z.max ms cs).
  { intros q n Hq Hn Hr. destruct (decide (q + n = i + 1)) as [Heq|];
      [|by apply (Hno q); try lia].
    destruct (decide (0 < n)); [|lia]. rewrite Hr in Hb by lia. done. }
  destruct (Z.ltb_spec ms cs) as [Hlt|Hge]; split_and!; try lia.
  - intros Hp. rewrite (Hc Hp). split_and!; [lia|lia|done].
  - intros j Hj. lia.
  - right. by replace (i + 1 - 0 - 1) with i by lia.
  - intros q n Hq Hn Hr. specialize (Hno' q n Hq Hn Hr). lia.
  - intros Hp. specialize (Hm Hp). split_and!; [lia|lia|apply Hm].
  - intros j Hj. lia.
  - right. by replace (i + 1 - 0 - 1) with i by lia.
  - intros q n Hq Hn Hr. specialize (Hno' q n Hq Hn Hr). lia.
Qed.

Lemma wp_largest_free_region (Q : Z * Z -> kst blk_allocator E -> Prop) s b :
  ba_inv (k_obj s) b -> obj_idle s ->
  (forall size start, largest_run b (ba_first_data_block (k_obj s))
     (ba_total_blocks (k_obj s)) size start -> Q (size, start) (outside s (k_obj s))) ->
  wp (blk_alloc_largest_free_region PObj) Q s.
Proof.
  intros Hi Hidle HQ. unfold blk_alloc_largest_free_region. ba_step.
  apply wp_lock_obj; [done|]. set (a := k_obj s) in *. ba_steps.
  pose proof (bi_nbits _ _ Hi). pose proof (bi_total _ _ Hi). pose proof (bi_first _ _ Hi).
  set (first := ba_first_data_block a) in *. eapply wp_mono.
  - apply (wp_for_each (fun i l s' => s' = inside s a /\ region_state b first i l)).
    + split; [done|]. split_and!; [lia|lia|lia|lia|lia|lia| |left; lia|]; intros q; intros; lia.
    + intros i [[ms mst] [cs cst]] ? Hr (-> & Hst). unfold region_step. ba_step.
      apply (wp_ba_test_in _ s a b); [apply Hi|lia|].
      destruct (bit b i) eqn:Eb; simpl.
      * pose proof (region_state_used _ _ _ _ _ _ _ (proj1 Hr) Eb Hst) as Hu.
        destruct (ms <? cs); by ba_step.
      * ba_step. split; [done|]. assert (0 <= cs <= i) by (destruct Hst; lia).
        rewrite u32_id by lia. apply region_state_free; [lia|done|done].
  - rewrite Z.max_r by lia. intros [[ms mst] [cs cst]] s' (-> & Hst). ba_steps.
    destruct Hst as (Hms & Hcs & Hf & Hm & Hc & Hrun & Hl & Hno).
    destruct (Z.ltb_spec ms cs) as [Hlt|Hge]; apply HQ; split_and!; try lia.
    + intros Hp. rewrite (Hc Hp). split_and!; [lia|lia|done].
    + intros q n Hq Hn Hr. specialize (Hno q n Hq Hn Hr). lia.
    + done.
    + intros q n Hq Hn Hr. specialize (Hno q n Hq Hn Hr). lia.
Qed.

(** ** [blk_alloc_init] *)

Lemma wp_blk_alloc_init (Q : Z -> kst blk_allocator E -> Prop) s total first bsize :
  0 <= first < total -> total < 2 ^ 32 - 7 -> 0 < bsize < 2 ^ 32 ->
  match kmalloc ((total + 7) / 8) (k_env s) with
  | (None, e) => Q (-ENOMEM) (set_env e (set_obj (with_bitmap None (k_obj s)) s))
  | (Some b, e) =>
      forall a, ba_inv a (replicate (length b) 0) ->
        ba_used_blocks a = 0 -> ba_first_data_block a = first -> ba_total_blocks a = total ->
        ba_first_free a = first -> ba_lock a = spinlock_init -> Q 0 (set_env e (set_obj a s))
  end -> wp (blk_alloc_init PObj total first bsize) Q s.
Proof.
  intros Hf Ht Hb HQ. unfold blk_alloc_init.
  rewrite (proj2 (Z.eqb_neq total 0)), (proj2 (Z.eqb_neq bsize 0)),
    (proj2 (Z.leb_gt total first)) by lia. simpl orb. cbv zeta iota.
  rewrite (u32_id (total + 7)) by lia.
  destruct (kmalloc ((total + 7) / 8) (k_env s)) as [[b|] e] eqn:Ek.
  - ba_step. eapply wp_env; [by rewrite Ek|]. ba_step. unfold upd at 1. wp_step. ba_step.
    pose proof (kmalloc_length _ _ _ _ Ek) as [Hlen _].
    eapply wp_lift; [rewrite <- Hlen; apply memset0_ok|].
    ba_step. unfold upd. wp_step. ba_step.
    apply HQ; try done. split; simpl; try done; try lia.
    + apply bytes_ok_zeros.
    + by rewrite length_replicate.
    + rewrite used_bits_zeros; [done|]. rewrite Hlen. dlia.
  - ba_step. eapply wp_env; [by rewrite Ek|]. ba_step. unfold upd at 1. wp_step. by ba_step.
Qed.
End runs.
