(* ===== verification/BlkAllocDisk.v ===== *)
(** * Block allocator: the bitmap on the device

    [blk_alloc_sync] and [blk_alloc_load] over a device that is a byte store:
    the write loop leaves the bitmap at its place on the device, and the read
    loop, through a file that can be read, brings it back. *)

From stdpp Require Import base numbers list list_numbers gmap strings.
From S2P Require Import Prelude Bitmap Spinlock Kernel VfsFile VfsFileFacts BlkAlloc BlkAllocFacts.
From S2P Require Import VfsFileSpec BlkAllocFacts.

(** The bitmap fits on the device at its place, within the widths used. *)
Record disk_ok (a : blk_allocator) (blk : Z) : Prop := {
  dk_blocks : ba_bitmap_blocks a = (ba_bitmap_size a + ba_block_size a - 1) / ba_block_size a;
  dk_width : ba_bitmap_size a + ba_block_size a < 2 ^ 32;
  dk_blk : 0 <= blk;
  dk_end : blk + ba_bitmap_blocks a < 2 ^ 32;
  dk_offset : (blk + ba_bitmap_blocks a) * ba_block_size a < 2 ^ 63
}.

(** The bitmap [b] has the shape the allocator's geometry asks for, whatever
    its counters say. *)
Record ba_geo (a : blk_allocator) (b : list Z) : Prop := {
  ge_total : 0 < ba_total_blocks a < 2 ^ 32 - 7;
  ge_first : 0 <= ba_first_data_block a < ba_total_blocks a;
  ge_bsize : 0 < ba_block_size a < 2 ^ 32;
  ge_bytes : bytes_ok b;
  ge_size : ba_bitmap_size a = (ba_total_blocks a + 7) / 8;
  ge_length : Z.of_nat (length b) = ba_bitmap_size a
}.

Lemma inv_geo a b : ba_inv a b -> ba_geo a b.
Proof. intros []. by split. Qed.

Lemma ge_nbits a b : ba_geo a b -> ba_total_blocks a <= nbits b.
Proof. intros []. unfold nbits. rewrite ge_length0, ge_size0. dlia. Qed.

Lemma with_bitmap_id a b : ba_bitmap a = Some b -> with_bitmap (Some b) a = a.
Proof. by destruct a; simpl; intros ->. Qed.

Definition chunk_off (a : blk_allocator) (i : Z) : Z := Z.min (i * ba_block_size a) (ba_bitmap_size a).

Lemma chunk_range a b blk i :
  ba_geo a b -> disk_ok a blk -> 0 <= i < ba_bitmap_blocks a ->
  i * ba_block_size a < ba_bitmap_size a /\
  bitmap_chunk a blk i =
    (i * ba_block_size a, chunk_off a (i + 1) - i * ba_block_size a,
     blk * ba_block_size a + i * ba_block_size a) /\
  0 < chunk_off a (i + 1) - i * ba_block_size a.
Proof.
  intros Hi Hd Hr. pose proof (ge_bsize _ _ Hi). destruct Hd.
  assert (Hs : 0 < ba_bitmap_size a).
  { rewrite (ge_size _ _ Hi). pose proof (ge_total _ _ Hi). dlia. }
  set (bs := ba_block_size a) in *. set (sz := ba_bitmap_size a) in *.
  set (nb := ba_bitmap_blocks a) in *.
  assert (Hnb : nb * bs < sz + bs /\ sz <= nb * bs).
  { rewrite dk_blocks0. pose proof (Z.div_mod (sz + bs - 1) bs ltac:(lia)) as Hdm.
    pose proof (Z.mod_pos_bound (sz + bs - 1) bs ltac:(lia)). nia. }
  assert (Hlt : i * bs < sz) by nia.
  assert (Hin : 0 <= i * bs) by nia.
  assert (Hb64 : 0 <= (blk + i) * bs < 2 ^ 63) by nia.
  unfold chunk_off. fold bs sz. split_and!; [done| |nia].
  unfold bitmap_chunk. fold bs sz nb. rewrite !(u32_id (blk + i)), !(u32_id (i * bs)),
    (u32_id (nb - 1)) by lia.
  assert (E64 : s64 ((blk + i) * bs) = blk * bs + i * bs).
  { unfold s64. rewrite Z.mod_small by lia. lia. }
  rewrite E64, (u32_id (sz - i * bs)) by lia.
  destruct (Z.eqb_spec i (nb - 1)) as [->|Hne].
  - destruct (Z.ltb_spec (sz - (nb - 1) * bs) bs); do 2 f_equal; lia.
  - assert ((i + 1) * bs <= sz) by nia. do 2 f_equal. lia.
Qed.

Lemma chunk_off_last a b blk :
  ba_geo a b -> disk_ok a blk -> chunk_off a (ba_bitmap_blocks a) = ba_bitmap_size a.
Proof.
  intros Hi Hd. pose proof (ge_bsize _ _ Hi). destruct Hd. unfold chunk_off.
  rewrite dk_blocks0.
  pose proof (Z.div_mod (ba_bitmap_size a + ba_block_size a - 1) (ba_block_size a) ltac:(lia)).
  pose proof (Z.mod_pos_bound (ba_bitmap_size a + ba_block_size a - 1) (ba_block_size a)
    ltac:(lia)). nia.
Qed.

Lemma stored_write c c' base b off (m : Z) data :
  stored c base b off -> 0 <= off -> 0 <= m -> off + m <= Z.of_nat (length b) ->
  data = take (Z.to_nat m) (drop (Z.to_nat off) b) ->
  (forall x, c' x = if (base + off <=? x) && (x <? base + off + m)
     then default 0 (data !! Z.to_nat (x - (base + off))) else c x) ->
  stored c' base b (off + m).
Proof.
  intros Hs Hoff Hm Hlen -> Hc x Hx. rewrite Hc.
  destruct (decide (off <= x)) as [Hge|Hlt].
  - rewrite (proj2 (Z.leb_le _ _)), (proj2 (Z.ltb_lt _ _)) by lia. simpl.
    rewrite lookup_take_lt, lookup_drop by lia.
    replace (Z.to_nat off + Z.to_nat (base + x - (base + off)))%nat with (Z.to_nat x) by lia.
    destruct (lookup_lt_is_Some_2 b (Z.to_nat x)) as [y Hy]; [lia|]. by rewrite Hy.
  - rewrite (proj2 (Z.leb_gt _ _)) by lia. simpl. apply Hs. lia.
Qed.

Section disk.
Context {E : Type} `{BlockStore E}.
Implicit Types (s : kst blk_allocator E) (a : blk_allocator) (b : list Z).

Lemma wp_ba_bytes (Q : list Z -> kst blk_allocator E -> Prop) s b :
  ba_bitmap (k_obj s) = Some b -> Q b s -> wp ba_bytes Q s.
Proof. intros Hb HQ. unfold ba_bytes. wp_step. unfold obj. wp_step. by rewrite Hb. Qed.

Lemma disk_blocks_nonneg a b blk : ba_geo a b -> disk_ok a blk -> 0 <= ba_bitmap_blocks a.
Proof.
  intros Hi Hd. rewrite (dk_blocks _ _ Hd). pose proof (ge_bsize _ _ Hi).
  apply Z.div_pos; [|lia]. rewrite (ge_size _ _ Hi). pose proof (ge_total _ _ Hi). dlia.
Qed.

(** The bytes of the device that hold the bitmap. *)
Definition bitmap_start (a : blk_allocator) (blk : Z) : Z := blk * ba_block_size a.
Definition bitmap_end (a : blk_allocator) (blk : Z) : Z :=
  blk * ba_block_size a + ba_bitmap_size a.

(** An error return: the file is closed, the allocator as it was. *)
Definition failed (p : Z) s s' (r : Z) : Prop :=
  r <> 0 /\ k_flags s' = k_flags s /\ k_obj s' = k_obj s /\
  k_files s' = delete p (k_files s).

Lemma wp_write_chunk (Q : unit + Z -> kst blk_allocator E -> Prop) p f s b i wr :
  ba_inv (k_obj s) b -> disk_ok (k_obj s) (ba_bitmap_block (k_obj s)) ->
  0 <= i < ba_bitmap_blocks (k_obj s) -> dev_open p f s -> vl_write (f_vnode f) = Some wr ->
  let base := ba_bitmap_block (k_obj s) * ba_block_size (k_obj s) in
  stored (contents (f_vnode f) (k_env s)) base b (chunk_off (k_obj s) i) ->
  (forall s' f', moved_from p f s s' f' ->
     stored (contents (f_vnode f) (k_env s')) base b (chunk_off (k_obj s) (i + 1)) ->
     Q (inl tt) s') ->
  (forall s' r, failed p s s' r ->
     ~ writes_fully base (base + ba_bitmap_size (k_obj s)) wr -> Q (inr r) s') ->
  wp (write_chunk p i) Q s.
Proof.
  intros Hi Hd Hr Ho Hwr base Hst HQ HE. unfold write_chunk. wp_step. unfold obj. wp_step.
  set (a := k_obj s) in *.
  destruct (chunk_range a b _ i (inv_geo _ _ Hi) Hd Hr) as (Hlt & Ech & Hpos).
  unfold id. rewrite Ech.
  pose proof (bi_bsize _ _ Hi). pose proof (dk_blk _ _ Hd).
  set (off := i * ba_block_size a) in *. set (m := chunk_off a (i + 1) - off) in *.
  assert (Hoff0 : 0 <= off) by nia. assert (Hbase : 0 <= base) by nia.
  assert (Hoffi : chunk_off a i = off) by (unfold chunk_off; fold off; lia).
  assert (Hom : off + m <= Z.of_nat (length b)).
  { rewrite (bi_length _ _ Hi). unfold m, chunk_off. lia. }
  wp_step. eapply wp_seek_at; [apply Ho|apply Ho|]. intros f1 s1 M1 E1 O1.
  fold base. rewrite (proj2 (Z.ltb_ge (base + off) 0)), (proj2 (Z.ltb_ge (base + off) 0)) by lia.
  pose proof (dev_moved _ _ _ _ _ Ho M1) as Ho1.
  wp_step. eapply wp_ba_bytes; [rewrite (mv_obj _ _ _ _ _ M1); apply Hi|].
  wp_step. eapply wp_lift; [unfold slice; by rewrite (proj2 (Z.leb_le _ _)) by lia|].
  set (data := take _ _).
  assert (Hld : Z.of_nat (length data) = m).
  { unfold data. rewrite length_take, length_drop. lia. }
  wp_step. eapply wp_write_here; [apply Ho1|apply Ho1|apply Ho1|
    by rewrite (mv_vnode _ _ _ _ _ M1)|].
  intros w f2 s2 M2 Hw Hc Hfull. pose proof (dev_moved _ _ _ _ _ Ho1 M2) as Ho2.
  pose proof (moved_trans _ _ _ _ _ _ _ M1 M2) as M12.
  destruct (Z.eqb_spec w m) as [->|Hne]; simpl.
  - wp_step. eapply HQ; [done|]. rewrite Hoffi in Hst.
    replace (chunk_off a (i + 1)) with (off + m) by lia.
    rewrite (mv_vnode _ _ _ _ _ M1), E1, (O1 ltac:(lia)) in Hc.
    eapply stored_write; [exact Hst|lia|lia|lia|done|done].
  - wp_step. eapply wp_close_here; [apply Ho2|apply Ho2|]. intros e _. wp_step. apply HE.
    split_and!; [|by rewrite <- (mv_irq _ _ _ _ _ M12)|by rewrite <- (mv_obj _ _ _ _ _ M12)|].
    + unfold EIO. destruct (Z.ltb_spec w 0); [rewrite s32_id; lia|lia].
    + simpl. rewrite (mv_files _ _ _ _ _ M12). by rewrite delete_insert_eq.
    + intros Hall. apply Hne. rewrite <- Hld. apply (Hfull _ _ Hall); rewrite (O1 ltac:(lia)); [lia|].
      unfold m, chunk_off in *. lia.
Qed.

(** ** Writing *)

Definition synced (p : Z) (v : Z) (b : list Z) s s' : Prop :=
  k_flags s' = k_flags s /\
  k_obj s' = with_lock (rest_lock (k_flags s)) (with_dirty false (k_obj s)) /\
  k_files s' = delete p (k_files s) /\
  stored (contents v (k_env s'))
    (ba_bitmap_block (k_obj s) * ba_block_size (k_obj s)) b (ba_bitmap_size (k_obj s)).

Lemma wp_write_loop p f s b wr :
  ba_inv (k_obj s) b -> disk_ok (k_obj s) (ba_bitmap_block (k_obj s)) ->
  dev_open p f s -> vl_write (f_vnode f) = Some wr ->
  wp (for_range 0 (ba_bitmap_blocks (k_obj s)) tt (fun i _ => write_chunk p i))
    (fun r s' => match r with
       | inl _ => exists f', moved_from p f s s' f' /\
           stored (contents (f_vnode f) (k_env s'))
             (ba_bitmap_block (k_obj s) * ba_block_size (k_obj s)) b (ba_bitmap_size (k_obj s))
       | inr e => failed p s s' e /\ ~ writes_fully
           (bitmap_start (k_obj s) (ba_bitmap_block (k_obj s)))
           (bitmap_end (k_obj s) (ba_bitmap_block (k_obj s))) wr
       end) s.
Proof.
  intros Hi Hd Ho Hwr. set (a := k_obj s) in *.
  set (base := ba_bitmap_block a * ba_block_size a).
  pose proof (disk_blocks_nonneg _ _ _ (inv_geo _ _ Hi) Hd) as Hnb.
  eapply wp_mono.
  - apply (wp_for_range (fun i _ s' => exists f', moved_from p f s s' f' /\
        stored (contents (f_vnode f) (k_env s')) base b (chunk_off a i))
      (fun e s' => failed p s s' e /\ ~ writes_fully base (base + ba_bitmap_size a) wr)).
    + exists f. split.
      * split; try apply Ho; try done. rewrite insert_id; [done|apply Ho].
      * unfold chunk_off. intros x Hx. lia.
    + intros i [] s1 Hr (f1 & M1 & Hst). pose proof (mv_obj _ _ _ _ _ M1) as Ea.
      fold a in Ea. pose proof (mv_vnode _ _ _ _ _ M1) as Ev.
      eapply (wp_write_chunk _ p f1 s1 b i wr); rewrite ?Ea, ?Ev; try done.
      * by eapply dev_moved.
      * intros s2 f2 M2 Hst2. exists f2. split; [by eapply moved_trans|done].
      * intros s2 r (Hr0 & Hk & Hob & Hfi) Hnf. split; [|done]. split_and!; [done| | |].
        -- by rewrite Hk, (mv_irq _ _ _ _ _ M1).
        -- by rewrite Hob, Ea.
        -- rewrite Hfi, (mv_files _ _ _ _ _ M1). by rewrite delete_insert_eq.
  - intros [[]|e] s'; [|done]. intros (f' & M & Hst). exists f'. split; [done|].
    rewrite Z.max_r in Hst by lia. by rewrite (chunk_off_last a b _ (inv_geo _ _ Hi) Hd) in Hst.
Qed.

Lemma wp_sync_bitmap p f s b wr sy :
  ba_inv (k_obj s) b -> disk_ok (k_obj s) (ba_bitmap_block (k_obj s)) -> obj_idle s ->
  dev_open p f s -> vl_write (f_vnode f) = Some wr -> vl_sync (f_vnode f) = Some sy ->
  wp (sync_bitmap p) (fun r s' =>
    if r =? 0 then synced p (f_vnode f) b s s'
    else failed p s s' r /\ ~ (writes_fully
      (bitmap_start (k_obj s) (ba_bitmap_block (k_obj s)))
      (bitmap_end (k_obj s) (ba_bitmap_block (k_obj s))) wr /\ syncs_fully sy)) s.
Proof.
  intros Hi Hd Hidle Ho Hwr Hsy. unfold sync_bitmap. wp_step. unfold obj at 1. wp_step.
  wp_step. wp_use wp_write_loop; [done..|]. intros [[]|e] s1.
  2: { intros [Hf Hnf]. wp_step. destruct (Z.eqb_spec e 0); [by destruct Hf|tauto]. }
  intros (f1 & M1 & Hst). pose proof (dev_moved _ _ _ _ _ Ho M1) as Ho1.
  destruct (store_sync (f_vnode f) sy (k_env s1) Hsy) as (r & e & Er & Hc).
  wp_step. unfold vfs_fsync.
  rewrite (proj2 (Z.eqb_neq _ _) (fo_ptr _ _ _ (do_open _ _ _ Ho1))). wp_step.
  eapply wp_the_file; [apply Ho1|]. rewrite (mv_vnode _ _ _ _ _ M1), Hsy.
  eapply wp_env; [done|].
  assert (Hfile : file_open p f1 (set_env e s1)) by (destruct (do_open _ _ _ Ho1); by split).
  destruct (Z.eqb_spec r 0) as [->|Hr]; simpl.
  - wp_step. eapply wp_close_here; [done|apply Ho1|]. intros e2 Hc2. wp_step.
    apply wp_lock_obj; [unfold obj_idle; simpl; by rewrite (mv_obj _ _ _ _ _ M1)|].
    ba_steps. rewrite Z.eqb_refl. unfold synced. simpl.
    rewrite (mv_obj _ _ _ _ _ M1), (mv_irq _ _ _ _ _ M1), (mv_files _ _ _ _ _ M1).
    rewrite delete_insert_eq.
    split_and!; [done|done|done|].
    rewrite (mv_vnode _ _ _ _ _ M1) in Hc2. simpl in Hc2. by rewrite Hc2, Hc.
  - wp_step. eapply wp_close_here; [done|apply Ho1|]. intros e2 Hc2. wp_step.
    rewrite (proj2 (Z.eqb_neq _ _) Hr). unfold failed. simpl.
    rewrite (mv_obj _ _ _ _ _ M1), (mv_irq _ _ _ _ _ M1), (mv_files _ _ _ _ _ M1).
    split; [split_and!; [done..|]; by rewrite delete_insert_eq|].
    intros [_ Hsf]. destruct (Hsf (k_env s1)). congruence.
Qed.

(** ** Reading *)

(** The state of the read loop: the first [n] bytes of the bitmap are in. *)
Record loading (p : Z) (f : vfs_file) (b : list Z) s (n : Z) s' : Prop := {
  ld_file : exists f', dev_open p f' s' /\ f_vnode f' = f_vnode f /\
    k_files s' = <[p := f']> (k_files s);
  ld_irq : k_flags s' = k_flags s;
  ld_cont : contents (f_vnode f) (k_env s') = contents (f_vnode f) (k_env s);
  ld_cur : exists cur, k_obj s' = with_bitmap (Some cur) (k_obj s) /\
    length cur = length b /\ take (Z.to_nat n) cur = take (Z.to_nat n) b
}.

Lemma blit_prefix cur b off data :
  length cur = length b -> 0 <= off -> off + Z.of_nat (length data) <= Z.of_nat (length b) ->
  take (Z.to_nat off) cur = take (Z.to_nat off) b ->
  data = take (length data) (drop (Z.to_nat off) b) ->
  exists cur', blit cur off data = Ok cur' /\ length cur' = length b /\
    take (Z.to_nat (off + Z.of_nat (length data))) cur' =
    take (Z.to_nat (off + Z.of_nat (length data))) b.
Proof.
  intros Hl Hoff Hle Hpre Hd. unfold blit. rewrite (proj2 (Z.leb_le _ _)) by lia.
  eexists. split; [done|]. split.
  { rewrite !length_app, length_take, length_drop. lia. }
  rewrite app_assoc, take_app_length'.
  - rewrite Hpre, Hd at 1. rewrite take_take_drop. f_equal. lia.
  - rewrite length_app, length_take. lia.
Qed.

Lemma stored_data c base b off (m : Z) data :
  stored c base b (Z.of_nat (length b)) -> 0 <= off -> off + m <= Z.of_nat (length b) ->
  Z.of_nat (length data) = m ->
  (forall i, 0 <= i < m -> data !! Z.to_nat i = Some (c (base + off + i))) ->
  data = take (length data) (drop (Z.to_nat off) b).
Proof.
  intros Hs Hoff Hle Hl Hd. apply list_eq. intros i.
  destruct (decide (i < length data)%nat) as [Hi|Hi].
  - rewrite lookup_take_lt, lookup_drop by done.
    specialize (Hd (Z.of_nat i) ltac:(lia)). rewrite Nat2Z.id in Hd. rewrite Hd.
    specialize (Hs (off + Z.of_nat i) ltac:(lia)).
    replace (Z.to_nat off + i)%nat with (Z.to_nat (off + Z.of_nat i)) by lia.
    rewrite Hs. do 2 f_equal. lia.
  - rewrite lookup_take_ge, lookup_ge_None_2 by lia. done.
Qed.

Lemma wp_read_chunk p f s b blk i rd s1 :
  ba_geo (k_obj s) b -> disk_ok (k_obj s) blk -> 0 <= i < ba_bitmap_blocks (k_obj s) ->
  vl_read (f_vnode f) = Some rd ->
  stored (contents (f_vnode f) (k_env s)) (blk * ba_block_size (k_obj s)) b
    (ba_bitmap_size (k_obj s)) ->
  loading p f b s (chunk_off (k_obj s) i) s1 ->
  wp (read_chunk p blk i) (fun r s2 => match r with
    | inl _ => loading p f b s (chunk_off (k_obj s) (i + 1)) s2
    | inr e => (e <> 0 /\ k_flags s2 = k_flags s /\ k_files s2 = delete p (k_files s)) /\
        ~ reads_fully (bitmap_start (k_obj s) blk) (bitmap_end (k_obj s) blk) rd
    end) s1.
Proof.
  intros Hi Hd Hr Hrd Hst [(f1 & Ho1 & Ev & Efi) Eirq Ec (cur & Eob & Hlc & Hpre)].
  set (a := k_obj s) in *. unfold read_chunk. wp_step. unfold obj at 1. wp_step. unfold id.
  rewrite Eob.
  change (bitmap_chunk (with_bitmap (Some cur) a) blk i) with (bitmap_chunk a blk i).
  destruct (chunk_range a b _ i Hi Hd Hr) as (Hlt & Ech & Hpos). rewrite Ech.
  pose proof (ge_bsize _ _ Hi). pose proof (dk_blk _ _ Hd).
  set (off := i * ba_block_size a) in *. set (m := chunk_off a (i + 1) - off) in *.
  assert (Hoff0 : 0 <= off) by nia. assert (Hbase : 0 <= blk * ba_block_size a) by nia.
  assert (Hoffi : chunk_off a i = off) by (unfold chunk_off; fold off; lia).
  assert (Hom : off + m <= Z.of_nat (length b)).
  { rewrite (ge_length _ _ Hi). unfold m, chunk_off. lia. }
  rewrite Hoffi in Hpre. wp_step. eapply wp_seek_at; [apply Ho1|apply Ho1|].
  intros f2 s2 M2 E2 O2. pose proof (dev_moved _ _ _ _ _ Ho1 M2) as Ho2.
  rewrite !(proj2 (Z.ltb_ge (blk * ba_block_size a + off) 0)) by lia. wp_step.
  eapply wp_read_here; [apply Ho2|apply Ho2|by rewrite (do_flags _ _ _ Ho2)|
    by rewrite (mv_vnode _ _ _ _ _ M2), Ev|].
  intros r data f3 s3 M3 Hc3 Hlen Hlow Hdata Hfull. pose proof (dev_moved _ _ _ _ _ Ho2 M3) as Ho3.
  pose proof (moved_trans _ _ _ _ _ _ _ M2 M3) as M23. wp_step.
  assert (Eob3 : k_obj s3 = with_bitmap (Some cur) a) by (by rewrite (mv_obj _ _ _ _ _ M23)).
  eapply wp_ba_bytes; [by rewrite Eob3|]. wp_step.
  rewrite (mv_vnode _ _ _ _ _ M2), Ev, E2, Ec, (O2 ltac:(lia)) in *.
  destruct (Z.eqb_spec r m) as [->|Hne].
  - destruct (Hdata Hpos) as (_ & Hld & Hby).
    destruct (blit_prefix cur b off data) as (cur' & Eb & Hl' & Hp'); [done|done|lia|done| |].
    { eapply stored_data; [rewrite (ge_length _ _ Hi); exact Hst|lia|exact Hom|done|done]. }
    eapply wp_lift; [exact Eb|]. wp_step. unfold upd. wp_step. cbn [negb]. wp_step. split.
    + exists f3. split_and!; [destruct Ho3 as [[] ? ? ?]; by split|
        by rewrite (mv_vnode _ _ _ _ _ M23)|simpl].
      rewrite (mv_files _ _ _ _ _ M23), Efi. by rewrite insert_insert_eq.
    + simpl. by rewrite (mv_irq _ _ _ _ _ M23).
    + simpl. done.
    + exists cur'. split_and!; [simpl; by rewrite Eob3|done|].
      rewrite Hld in Hp'. by replace (chunk_off a (i + 1)) with (off + m) by lia.
  - assert (Hbl : exists cur', blit cur off data = Ok cur').
    { unfold blit. rewrite (proj2 (Z.leb_le _ _)) by lia. eauto. }
    destruct Hbl as [cur' Eb]. eapply wp_lift; [exact Eb|]. wp_step. unfold upd. wp_step. cbn [negb].
    wp_step. eapply wp_close_here; [destruct Ho3 as [[] ? ? ?]; by split|apply Ho3|].
    intros e _. wp_step. simpl. split; [split_and!; [|by rewrite (mv_irq _ _ _ _ _ M23)|]|].
    + unfold EIO. destruct (Z.ltb_spec r 0); [rewrite s32_id; lia|lia].
    + rewrite (mv_files _ _ _ _ _ M23), Efi. by rewrite !delete_insert_eq.
    + intros Hall. apply Hne. apply (Hfull _ _ Hall); unfold bitmap_start, bitmap_end.
      all: fold a; rewrite ?E2, ?(O2 ltac:(lia)); unfold m, chunk_off; lia.
Qed.

Lemma wp_recount (Q : unit -> kst blk_allocator E -> Prop) s a b :
  ba_bitmap a = Some b -> 0 < ba_total_blocks a < 2 ^ 32 - 7 ->
  ba_total_blocks a <= nbits b -> 0 <= ba_first_data_block a < ba_total_blocks a ->
  Q tt (inside s (with_dirty false (with_hint
    (default (ba_first_data_block a)
       (first_clear (bit b) (ba_first_data_block a) (ba_total_blocks a)))
    (with_used (used_bits b (ba_total_blocks a)) a)))) ->
  wp recount Q (inside s a).
Proof.
  intros Hb Ht Hn Hf HQ. unfold recount. ba_steps.
  cbn [ba_total_blocks with_used]. eapply wp_mono.
  - apply (wp_for_each (fun i _ s' => s' = inside s (with_used (used_bits b i) a))); [done|].
    intros i [] ? Hr ->. ba_step. apply (wp_ba_test_in _ s _ b); [done|lia|].
    unfold used_bits. rewrite count_succ by lia.
    pose proof (count_bounds (bit b) i ltac:(lia)).
    destruct (bit b i); ba_step; cbn [ba_used_blocks with_used];
      [by rewrite u32_id by lia|by rewrite Z.add_0_r].
  - rewrite Z.max_r by lia. intros [] s' ->. ba_steps.
    cbn [ba_first_data_block with_used]. set (a1 := with_used _ a).
    set (first := ba_first_data_block a) in *. eapply wp_mono.
    + apply (wp_for_range (fun i _ s' => s' = inside s (with_hint first a1) /\
          forall q, first <= q < i -> bit b q = true)
        (fun _ s' => exists p, first_clear (bit b) first (ba_total_blocks a) = Some p /\
          s' = inside s (with_hint p a1))).
      * split; [done|lia].
      * intros i [] ? Hr (-> & Hq). ba_step. apply (wp_ba_test_in _ s _ b); [done|lia|].
        destruct (bit b i) eqn:Eb; simpl; ba_steps.
        -- split; [done|]. intros q Hq'. destruct (decide (q = i)) as [->|]; [done|].
           apply Hq. lia.
        -- exists i. split; [|done]. apply first_clear_Some. auto.
    + intros [[]|[]] s'.
      * intros (-> & Hq). ba_step.
        by rewrite (proj2 (first_clear_None _ _ _)) in HQ by (intros q ?; apply Hq; lia).
      * intros (p & Hp & ->). ba_step. by rewrite Hp in HQ.
Qed.

(** The allocator after a successful load of [b]. *)
Definition reloaded (b : list Z) (a : blk_allocator) : blk_allocator :=
  with_dirty false (with_hint
    (default (ba_first_data_block a)
       (first_clear (bit b) (ba_first_data_block a) (ba_total_blocks a)))
    (with_used (used_bits b (ba_total_blocks a)) (with_bitmap (Some b) a))).

Lemma inv_reloaded a b : ba_geo a b -> ba_inv (reloaded b a) b.
Proof.
  intros []. split; simpl; try done.
  destruct (first_clear _ _ _) as [p|] eqn:Hp; simpl; [|lia].
  apply first_clear_Some in Hp. lia.
Qed.

Lemma wp_load_bitmap p f s b cur blk rd :
  ba_geo (k_obj s) b -> ba_bitmap (k_obj s) = Some cur -> length cur = length b ->
  disk_ok (k_obj s) blk -> obj_idle s -> dev_open p f s -> vl_read (f_vnode f) = Some rd ->
  stored (contents (f_vnode f) (k_env s)) (blk * ba_block_size (k_obj s)) b
    (ba_bitmap_size (k_obj s)) ->
  wp (load_bitmap p blk) (fun r s' =>
    k_flags s' = k_flags s /\ k_files s' = delete p (k_files s) /\
    if r =? 0 then k_obj s' = with_lock (rest_lock (k_flags s)) (reloaded b (k_obj s))
    else ~ reads_fully (bitmap_start (k_obj s) blk) (bitmap_end (k_obj s) blk) rd) s.
Proof.
  intros Hi Hcur Hlc Hd Hidle Ho Hrd Hst. unfold load_bitmap. set (a := k_obj s) in *.
  pose proof (disk_blocks_nonneg _ _ _ Hi Hd) as Hnb.
  wp_step. unfold obj at 1. wp_step. wp_step. fold a. eapply wp_mono.
  - apply (wp_for_range (fun i _ s' => loading p f b s (chunk_off a i) s')
      (fun e s' => (e <> 0 /\ k_flags s' = k_flags s /\ k_files s' = delete p (k_files s)) /\
         ~ reads_fully (bitmap_start a blk) (bitmap_end a blk) rd)).
    + split; [|done|done|].
      * exists f. split_and!; [destruct Ho as [[] ? ? ?]; by split|done|].
        rewrite insert_id; [done|apply Ho].
      * exists cur. split_and!; [by rewrite with_bitmap_id|done|]. unfold chunk_off.
        pose proof (dk_width _ _ Hd). pose proof (ge_bsize _ _ Hi).
        pose proof (ge_length _ _ Hi).
        replace (Z.to_nat (Z.min (0 * ba_block_size a) (ba_bitmap_size a))) with 0%nat by lia.
        done.
    + intros i [] s1 Hr Hl. by eapply wp_read_chunk.
  - rewrite Z.max_r by lia. rewrite (chunk_off_last a b _ Hi Hd).
    intros [[]|e] s1.
    2: { intros [(He & Hk & Hf) Hnf]. wp_step. by rewrite (proj2 (Z.eqb_neq _ _) He). }
    intros [(f1 & Ho1 & Ev & Efi) Eirq Ec (cur' & Eob & Hl' & Hpre)].
    assert (cur' = b) as ->.
    { pose proof (ge_length _ _ Hi). rewrite !take_ge in Hpre by lia. done. }
    wp_step. eapply wp_close_here; [apply Ho1|apply Ho1|]. intros e _. wp_step.
    apply wp_lock_obj; [unfold obj_idle; simpl; by rewrite Eob|]. wp_step. simpl k_obj.
    rewrite Eob. pose proof (ge_nbits _ _ Hi).
    apply (wp_recount _ _ _ b); [done|apply Hi|done|apply Hi|]. wp_step.
    apply wp_unlock_obj. wp_step. simpl. rewrite Eirq, Efi, delete_insert_eq. done.
Qed.
End disk.
