(* ===== verification/BlkAllocSpec.v ===== *)
(** * Block allocator: theorems

    The allocator refines a set of free blocks: every call takes blocks from
    the set or puts one back, and no sequence of calls hands out a block that
    is still owned.  Further: what the searches return, what the bitmap on the
    device holds, and where the code departs from its comments. *)

From stdpp Require Import base numbers list list_numbers gmap strings.
From S2P Require Import Prelude Bitmap Spinlock Kernel VfsFile VfsFileFacts VfsFileSpec.
From S2P Require Import BlkAlloc BlkAllocFacts BlkAllocDisk.

(** ** The abstract allocator *)

Definition free_set (total : Z) (b : list Z) : gset Z :=
  list_to_set (filter (fun i => bit b i = false) (seqZ 0 total)).

Lemma elem_of_free_set total b i :
  i ∈ free_set total b <-> 0 <= i < total /\ bit b i = false.
Proof.
  unfold free_set. rewrite elem_of_list_to_set, list_elem_of_filter, elem_of_seqZ.
  split; intros [? ?]; split; done || lia.
Qed.

Inductive bcall :=
  | BAlloc
  | BSpecific (p : Z)
  | BContiguous (n : Z)
  | BFree (p : Z).

(** A reply: the return value and the blocks handed out. *)
Definition reply : Type := Z * list Z.

Definition astep (first total : Z) (F : gset Z) (c : bcall) (r : reply) (F' : gset Z) : Prop :=
  match c with
  | BAlloc =>
      (F = ∅ /\ r = (0, []) /\ F' = F) \/
      (exists p, p ∈ F /\ r = (p, [p]) /\ F' = F ∖ {[p]})
  | BSpecific p =>
      (p ∈ F /\ r = (0, [p]) /\ F' = F ∖ {[p]}) \/
      (p ∉ F /\ r.1 < 0 /\ r.2 = [] /\ F' = F)
  | BContiguous n =>
      exists start, r.2 = seqZ start r.1 /\ 0 <= r.1 <= n /\
        (forall i, i ∈ r.2 -> i ∈ F) /\ F' = F ∖ list_to_set r.2 /\
        (forall q, first <= q -> (forall i, q <= i < q + n -> i ∈ F) -> r.1 = n)
  | BFree p =>
      (first <= p < total /\ p ∉ F /\ r = (0, []) /\ F' = F ∪ {[p]}) \/
      (~ (first <= p < total /\ p ∉ F) /\ r = (-EINVAL, []) /\ F' = F)
  end.

Definition call_ok (c : bcall) : Prop :=
  match c with
  | BAlloc => True
  | BSpecific p | BFree p => 0 <= p < 2 ^ 32
  | BContiguous n => 0 < n < 2 ^ 32
  end.

Section spec.
Context {E : Type} `{KernelHeap E} `{VnodeLayer E}.
Implicit Types (s : kst blk_allocator E) (a : blk_allocator) (b : list Z).

Definition run_call (c : bcall) : M (kst blk_allocator E) reply :=
  match c with
  | BAlloc =>
      r <- blk_alloc PObj ;; ret (r, if r =? 0 then [] else [r])
  | BSpecific p =>
      r <- blk_alloc_specific PObj p ;; ret (r, if r =? 0 then [p] else [])
  | BContiguous n =>
      r <- blk_alloc_contiguous PObj n (Some (replicate (Z.to_nat n) 0)) ;;
      ret (r.1, take (Z.to_nat r.1) r.2)
  | BFree p => r <- blk_free PObj p ;; ret (r, [])
  end.

(** The state between calls: the invariant, the lock free, the reserved blocks
    (block 0 among them) marked. *)
Record valid s b : Prop := {
  va_inv : ba_inv (k_obj s) b;
  va_idle : obj_idle s;
  va_reserved : reserved_ok (k_obj s) b;
  va_first : 0 < ba_first_data_block (k_obj s)
}.

Definition same_geometry a a' : Prop :=
  ba_total_blocks a' = ba_total_blocks a /\
  ba_first_data_block a' = ba_first_data_block a.

Lemma valid_outside s a b :
  ba_inv a b -> reserved_ok a b -> 0 < ba_first_data_block a -> valid (outside s a) b.
Proof. intros Hi Hr Hf. split; [by apply inv_with_lock|done|done|done]. Qed.

Lemma next_block_None a b :
  ba_inv a b -> reserved_ok a b -> next_block a b = None ->
  free_set (ba_total_blocks a) b = ∅.
Proof.
  intros Hi Hres Hn. apply set_eq. intros i. rewrite elem_of_free_set.
  split; [|set_solver]. intros [Hr Hb]. exfalso. unfold next_block in Hn.
  destruct (Z.leb_spec (ba_total_blocks a) (ba_used_blocks a)) as [Hle|Hgt].
  - pose proof (used_lt _ _ _ Hr Hb). rewrite (bi_used _ _ Hi) in Hle. lia.
  - destruct (first_clear _ (ba_first_free a) _) eqn:Hfc; [done|].
    rewrite first_clear_None in Hfc, Hn.
    destruct (decide (ba_first_free a <= i)); [by rewrite Hfc in Hb by lia|].
    destruct (decide (ba_first_data_block a <= i)); [by rewrite Hn in Hb by lia|].
    by rewrite Hres in Hb by lia.
Qed.

Lemma next_block_Some a b p :
  ba_inv a b -> next_block a b = Some p -> 0 <= p < ba_total_blocks a /\ bit b p = false.
Proof.
  intros Hi Hn. pose proof (bi_first _ _ Hi). pose proof (bi_hint _ _ Hi).
  unfold next_block in Hn. destruct (_ <=? _); [done|].
  destruct (first_clear _ (ba_first_free a) _) eqn:Hfc.
  - simplify_eq. apply first_clear_Some in Hfc. split; [lia|apply Hfc].
  - apply first_clear_Some in Hn. split; [lia|apply Hn].
Qed.

Lemma free_set_marked total b p :
  total <= nbits b -> 0 <= p < total ->
  free_set total (set_bit b p) = free_set total b ∖ {[p]}.
Proof.
  intros Hn Hp. apply set_eq. intros i.
  rewrite elem_of_difference, elem_of_singleton, !elem_of_free_set. split.
  - intros [Hi Hb]. rewrite bit_set_bit in Hb by lia. by destruct (Z.eqb_spec i p).
  - intros [[Hi Hb] Hne]. rewrite bit_set_bit by lia.
    by rewrite (proj2 (Z.eqb_neq i p) Hne).
Qed.

Lemma free_set_unmarked total b p :
  total <= nbits b -> 0 <= p < total ->
  free_set total (clear_bit b p) = free_set total b ∪ {[p]}.
Proof.
  intros Hn Hp. apply set_eq. intros i.
  rewrite elem_of_union, elem_of_singleton, !elem_of_free_set. split.
  - intros [Hi Hb]. rewrite bit_clear_bit in Hb by lia. destruct (Z.eqb_spec i p); auto.
  - intros [[Hi Hb]|Heq].
    + rewrite bit_clear_bit by lia. by destruct (i =? p).
    + subst i. rewrite bit_clear_bit by lia. by rewrite Z.eqb_refl.
Qed.

Lemma free_set_run total b start n :
  total <= nbits b -> 0 <= start -> start + Z.of_nat n <= total ->
  free_set total (set_range b start n) =
  free_set total b ∖ list_to_set (seqZ start (Z.of_nat n)).
Proof.
  intros Hn Hs Ht. apply set_eq. intros i.
  rewrite elem_of_difference, elem_of_list_to_set, elem_of_seqZ, !elem_of_free_set.
  split.
  - intros [Hi Hb]. rewrite bit_set_range in Hb by lia. apply orb_false_iff in Hb as [Hb1 Hb2].
    split; [done|]. apply andb_false_iff in Hb1 as [?%Z.leb_gt|?%Z.ltb_ge]; lia.
  - intros [[Hi Hb] Hne]. split; [done|]. rewrite bit_set_range, Hb by lia.
    destruct (Z.leb_spec start i), (Z.ltb_spec i (start + Z.of_nat n)); simpl; done || lia.
Qed.

Lemma reserved_marked a b p : ba_inv a b -> 0 <= p < ba_total_blocks a ->
  reserved_ok a b -> reserved_ok a (set_bit b p).
Proof.
  intros Hi Hp Hr i Hi'. pose proof (bi_nbits _ _ Hi). rewrite bit_set_bit by lia.
  destruct (i =? p); [done|]. by apply Hr.
Qed.

(** What a call leaves behind, in one line. *)
Definition call_post first total F s (c : bcall) (r : reply) s' : Prop :=
  k_flags s' = k_flags s /\ same_geometry (k_obj s) (k_obj s') /\
  exists b', valid s' b' /\ astep first total F c r (free_set total b').

Lemma run_alloc_sim s b :
  valid s b ->
  wp (run_call BAlloc) (call_post (ba_first_data_block (k_obj s)) (ba_total_blocks (k_obj s))
    (free_set (ba_total_blocks (k_obj s)) b) s BAlloc) s.
Proof.
  intros [Hi Hidle Hres Hf]. pose proof (bi_nbits _ _ Hi). simpl. wp_step.
  apply (wp_blk_alloc _ _ b); [done|done|].
  destruct (next_block (k_obj s) b) as [p|] eqn:Hn; wp_step.
  - destruct (next_block_Some _ _ _ Hi Hn) as [Hp Hb].
    assert (p <> 0). { intros ->. by rewrite Hres in Hb by lia. }
    rewrite (proj2 (Z.eqb_neq p 0)) by done. split_and!; [done|done|].
    exists (set_bit b p). split.
    + apply valid_outside; [apply inv_marked; [done|done|done|lia]| |done].
      by apply (reserved_marked (k_obj s)).
    + right. exists p. rewrite elem_of_free_set, free_set_marked by lia. done.
  - split_and!; [done|done|]. exists b. split; [by apply valid_outside|].
    left. by rewrite (next_block_None _ _ Hi Hres Hn).
Qed.

Lemma run_specific_sim s b p :
  valid s b -> 0 <= p ->
  wp (run_call (BSpecific p)) (call_post (ba_first_data_block (k_obj s))
    (ba_total_blocks (k_obj s)) (free_set (ba_total_blocks (k_obj s)) b) s (BSpecific p)) s.
Proof.
  intros Hv Hp. pose proof Hv as [Hi Hidle Hres Hf]. pose proof (bi_hint _ _ Hi).
  pose proof (bi_nbits _ _ Hi). simpl. wp_step.
  apply (wp_blk_alloc_specific _ _ b); [done|done|done|].
  destruct (Z.leb_spec (ba_total_blocks (k_obj s)) p) as [Hge|Hlt]; [|destruct (bit b p) eqn:Eb];
    wp_step; (split_and!; [done|done|]).
  - exists b. split; [done|]. right. rewrite elem_of_free_set. unfold EINVAL. simpl.
    split_and!; [lia|lia|done|done].
  - exists b. split; [by apply valid_outside|]. right. rewrite elem_of_free_set, Eb.
    unfold EEXIST. simpl. split_and!; [naive_solver|lia|done|done].
  - exists (set_bit b p). split.
    + apply valid_outside; [|by apply (reserved_marked (k_obj s))|done].
      apply inv_marked; [done|lia|done|]. unfold hint_after_specific.
      destruct (Z.ltb_spec p (ba_first_free (k_obj s))); lia.
    + left. rewrite elem_of_free_set, free_set_marked by lia. done.
Qed.

Lemma run_free_sim s b p :
  valid s b -> 0 <= p ->
  wp (run_call (BFree p)) (call_post (ba_first_data_block (k_obj s))
    (ba_total_blocks (k_obj s)) (free_set (ba_total_blocks (k_obj s)) b) s (BFree p)) s.
Proof.
  intros Hv Hp. pose proof Hv as [Hi Hidle Hres Hf]. pose proof (bi_hint _ _ Hi).
  pose proof (bi_nbits _ _ Hi). simpl. wp_step.
  apply (wp_blk_free _ _ b); [done|done|done|].
  destruct (Z.leb_spec (ba_total_blocks (k_obj s)) p) as [Hge|Hlt];
    [|destruct (Z.ltb_spec p (ba_first_data_block (k_obj s)));
      [|destruct (bit b p) eqn:Eb]]; wp_step; (split_and!; [done|done|]).
  - exists b. split; [done|]. right. split_and!; [lia|done|done].
  - exists b. split; [done|]. right. split_and!; [lia|done|done].
  - exists (clear_bit b p). split.
    + apply valid_outside; [|intros i Hi'|done].
      * apply inv_unmarked; [done|lia|done|]. unfold hint_after_free.
        destruct (Z.ltb_spec p (ba_first_free (k_obj s))); lia.
      * simpl in Hi'. rewrite bit_clear_bit, (proj2 (Z.eqb_neq _ _)) by lia. by apply Hres.
    + left. rewrite elem_of_free_set, Eb, free_set_unmarked by lia. naive_solver.
  - exists b. split; [by apply valid_outside|]. right.
    split_and!; [|done|done]. rewrite elem_of_free_set, Eb. intros [? Hn]. apply Hn. lia.
Qed.

Lemma free_run_count a b q n :
  ba_inv a b -> 0 <= q -> 0 <= n -> q + n <= ba_total_blocks a -> free_run b q n ->
  n <= ba_total_blocks a - ba_used_blocks a.
Proof.
  intros Hi Hq Hn Hle Hr. rewrite (bi_used _ _ Hi).
  pose proof (used_bits_set_range b q (Z.to_nat n) (ba_total_blocks a) Hq) as Hu.
  rewrite Z2Nat.id in Hu by lia. specialize (Hu Hle (bi_nbits _ _ Hi) Hr).
  pose proof (count_bounds (bit (set_range b q (Z.to_nat n))) (ba_total_blocks a) ltac:(lia)).
  unfold used_bits in *. lia.
Qed.

Lemma run_found_complete a b n found start :
  ba_inv a b -> 0 < n ->
  run_found b (run_want a n) (ba_first_data_block a) (ba_total_blocks a) found start ->
  forall q, ba_first_data_block a <= q ->
    (forall i, q <= i < q + n -> i ∈ free_set (ba_total_blocks a) b) -> found = n.
Proof.
  intros Hi Hn Hrun q Hq Hall. pose proof (bi_first _ _ Hi).
  assert (Hr : free_run b q n) by (intros j Hj; by apply Hall, elem_of_free_set in Hj as [_ ?]).
  assert (Hle : q + n <= ba_total_blocks a).
  { pose proof (Hall (q + n - 1) ltac:(lia)) as He%elem_of_free_set. lia. }
  pose proof (free_run_count _ _ q n Hi ltac:(lia) ltac:(lia) Hle Hr) as Hc.
  assert (Hw : run_want a n = n) by (unfold run_want; lia). rewrite Hw in Hrun.
  destruct Hrun as [(-> & _)|(_ & _ & _ & _ & _ & _ & Hno)]; [done|].
  exfalso. by apply (Hno q).
Qed.

Lemma run_found_range b count from to found start :
  0 < found -> run_found b count from to found start ->
  found <= count /\ from <= start /\ start + found <= to /\ free_run b start found.
Proof.
  intros Hp [(-> & ? & ? & ? & _)|(? & ? & ? & Hr & Hst & _)]; [split_and!; done || lia|].
  rewrite (Hst Hp). split_and!; [lia|lia|lia|done].
Qed.

Lemma run_contiguous_sim s b n :
  valid s b -> 0 < n < 2 ^ 32 ->
  wp (run_call (BContiguous n)) (call_post (ba_first_data_block (k_obj s))
    (ba_total_blocks (k_obj s)) (free_set (ba_total_blocks (k_obj s)) b) s (BContiguous n)) s.
Proof.
  intros Hv Hn. pose proof Hv as [Hi Hidle Hres Hf]. pose proof (bi_nbits _ _ Hi). simpl. wp_step.
  apply (wp_blk_alloc_contiguous _ _ b); [done|done|done|rewrite length_replicate; lia| |].
  - intros Hw. wp_step. split_and!; [done|done|]. exists b. split; [by apply valid_outside|].
    exists 0. simpl. rewrite take_0. split_and!; [done|lia|lia|set_solver|set_solver|].
    intros q Hq Hall. exfalso. unfold run_want in Hw.
    pose proof (bi_used_bounds _ _ Hi). pose proof (Hall q ltac:(lia)) as [? Hb]%elem_of_free_set.
    pose proof (used_lt b (ba_total_blocks (k_obj s)) q ltac:(lia) Hb) as Hu.
    rewrite <- (bi_used _ _ Hi) in Hu. lia.
  - intros found start Hw Hrun.
    pose proof (run_found_complete _ _ n found start Hi ltac:(lia) Hrun) as Hcomp.
    destruct (Z.eqb_spec found 0) as [->|Hne]; wp_step; (split_and!; [done|done|]).
    + exists b. split; [by apply valid_outside|]. exists 0. simpl. rewrite take_0.
      split_and!; [done|lia|lia|set_solver|set_solver|done].
    + assert (Hpos : 0 < found) by (destruct Hrun as [(-> & _)|(_ & ? & _)]; lia).
      apply run_found_range in Hrun as (Hle & Hfs & Hend & Hfree); [|done].
      set (fn := Z.to_nat found). assert (Efn : Z.of_nat fn = found) by lia.
      exists (set_range b start fn). split.
      * apply valid_outside; [apply inv_marked_run; rewrite ?Efn; [done|lia|lia|done]| |done].
        intros i Hi'. simpl in Hi'. rewrite bit_set_range by lia. rewrite Hres by done.
        apply orb_true_r.
      * assert (Etk : take fn (seqZ start found ++ drop fn (replicate (Z.to_nat n) 0)) =
          seqZ start found). { apply take_app_length'. by rewrite length_seqZ. }
        exists start. simpl. fold fn. rewrite Etk. unfold run_want in Hle.
        rewrite free_set_run by lia. rewrite Efn.
        split_and!; [done|lia|lia| |done|done].
        intros i Hin%elem_of_seqZ. apply elem_of_free_set. split; [lia|]. apply Hfree. lia.
Qed.

Lemma run_bcall_sim s b c :
  valid s b -> call_ok c ->
  wp (run_call c) (call_post (ba_first_data_block (k_obj s)) (ba_total_blocks (k_obj s))
    (free_set (ba_total_blocks (k_obj s)) b) s c) s.
Proof.
  intros Hv Hc. destruct c; simpl in Hc.
  - by apply run_alloc_sim.
  - apply run_specific_sim; [done|lia].
  - by apply run_contiguous_sim.
  - apply run_free_sim; [done|lia].
Qed.
End spec.
