(* ===== verification/BlkAllocThms.v ===== *)
(** * Block allocator: the properties

    The claims about [blkalloc.c], each with an example on a concrete
    allocator of 20 blocks of 2 bytes, two of them reserved, whose bitmap is
    at block 5 of "/dev/rd0". *)

From stdpp Require Import base numbers list list_numbers gmap strings.
From S2P Require Import Prelude Bitmap Spinlock Kernel VfsFile VfsFileFacts VfsFileSpec.
From S2P Require Import BlkAlloc BlkAllocFacts BlkAllocDisk BlkAllocSpec.

Section theorems.
Context {E : Type} `{KernelHeap E} `{VnodeLayer E}.
Implicit Types (s : kst blk_allocator E) (a : blk_allocator) (b : list Z).

(** C7: every call of the allocator, from a valid state, returns without a
    fault, gives back the lock and the interrupt flags, keeps the state valid
    and the geometry unchanged, and does to the set of free blocks what the
    abstract allocator does. *)
Theorem blk_calls_refine_block_set s b c :
  valid s b -> call_ok c ->
  exists r s' b', run_call c s = Ok (r, s') /\ valid s' b' /\
    k_flags s' = k_flags s /\ same_geometry (k_obj s) (k_obj s') /\
    astep (ba_first_data_block (k_obj s)) (ba_total_blocks (k_obj s))
      (free_set (ba_total_blocks (k_obj s)) b) c r
      (free_set (ba_total_blocks (k_obj s)) b').
Proof.
  intros Hv Hc. pose proof (run_bcall_sim s b c Hv Hc) as Hw.
  apply wp_run in Hw as (r & s' & Hrun & Hk & Hg & b' & Hv' & Hs). by exists r, s', b'.
Qed.

Fixpoint run_calls (cs : list bcall) : M (kst blk_allocator E) (list reply) :=
  match cs with
  | [] => ret []
  | c :: cs => r <- run_call c ;; rs <- run_calls cs ;; ret (r :: rs)
  end.

(** No reply hands out a block that is still owned; freeing gives it up. *)
Fixpoint no_double_grant (owned : gset Z) (cs : list bcall) (rs : list reply) : Prop :=
  match cs, rs with
  | c :: cs, r :: rs =>
      list_to_set r.2 ## owned /\ NoDup r.2 /\
      no_double_grant (match c with
                       | BFree p => owned ∖ {[p]}
                       | _ => owned ∪ list_to_set r.2
                       end) cs rs
  | _, _ => True
  end.

Lemma astep_owned first total F c r F' owned :
  astep first total F c r F' -> owned ## F ->
  list_to_set r.2 ## owned /\ NoDup r.2 /\
  (match c with BFree p => owned ∖ {[p]} | _ => owned ∪ list_to_set r.2 end) ## F'.
Proof.
  intros Hs Ho. destruct c as [|p|n|p]; simpl in Hs.
  - destruct Hs as [(-> & -> & ->)|(p & Hp & -> & ->)]; simpl.
    + split_and!; [set_solver|constructor|set_solver].
    + split_and!; [set_solver|apply NoDup_singleton|set_solver].
  - destruct Hs as [(Hp & -> & ->)|(Hp & _ & -> & ->)]; simpl.
    + split_and!; [set_solver|apply NoDup_singleton|set_solver].
    + split_and!; [set_solver|constructor|set_solver].
  - destruct Hs as (start & -> & _ & Hin & -> & _). split_and!.
    + intros x Hx Ho'. apply elem_of_list_to_set, Hin in Hx. by apply (Ho x).
    + apply NoDup_seqZ.
    + set_solver.
  - destruct Hs as [(_ & Hp & -> & ->)|(_ & -> & ->)]; simpl;
      (split_and!; [set_solver|constructor|set_solver]).
Qed.

Lemma run_calls_safe cs s b owned :
  valid s b -> Forall call_ok cs -> owned ## free_set (ba_total_blocks (k_obj s)) b ->
  wp (run_calls cs) (fun rs s' => no_double_grant owned cs rs /\ length rs = length cs /\
    k_flags s' = k_flags s /\ exists b', valid s' b') s.
Proof.
  intros Hv Hcs. revert s b owned Hv. induction Hcs as [|c cs Hc Hcs IH]; intros s b owned Hv Ho;
    simpl.
  - wp_step. split_and!; [done..|by exists b].
  - wp_step. wp_use run_bcall_sim; [done|done|]. intros r s1 (Hk & Hg & b1 & Hv1 & Hs).
    destruct (astep_owned _ _ _ _ _ _ _ Hs Ho) as (Hd & Hnd & Ho1).
    destruct Hg as [Hg _]. rewrite <- Hg in Ho1.
    wp_step. wp_use IH; [done|done|]. intros rs s2 (Hds & Hl & Hk2 & Hv2). wp_step.
    split_and!; [done|done|done|simpl; lia|congruence|done].
Qed.

(** C13: no sequence of allocations and releases, of whatever kind, hands out
    a block that is still owned, every call returns, the interrupt flags are
    restored, and [blk_alloc_validate] accepts the state at the end. *)
Theorem blk_sequence_no_double_grant cs s b :
  valid s b -> Forall call_ok cs ->
  exists rs s', run_calls cs s = Ok (rs, s') /\ length rs = length cs /\
    no_double_grant ∅ cs rs /\ k_flags s' = k_flags s /\
    exists s'', blk_alloc_validate PObj s' = Ok (0, s'').
Proof.
  intros Hv Hcs. pose proof (run_calls_safe cs s b ∅ Hv Hcs ltac:(set_solver)) as Hw.
  apply wp_run in Hw as (rs & s' & Hrun & Hd & Hl & Hk & b' & Hv').
  exists rs, s'. split_and!; [done..|].
  assert (Hva : wp (blk_alloc_validate PObj) (fun r _ => r = 0) s').
  { apply (wp_blk_alloc_validate _ _ b'); [apply Hv'|apply Hv'|].
    by rewrite (proj2 (first_clear_None _ _ _) (va_reserved _ _ Hv')). }
  apply wp_run in Hva as (r & s'' & Hr & ->). by exists s''.
Qed.

(** [blk_alloc_contiguous] for [n] blocks, cut down to the number of free
    blocks, returns the lowest run of that length among the data blocks; when
    there is none it returns the free run that ends at the last block, however
    short (nothing if the last block is used), not the longest one. *)
Theorem blk_alloc_contiguous_first_run s b n blocks :
  ba_inv (k_obj s) b -> obj_idle s -> 0 < n < 2 ^ 32 -> n <= Z.of_nat (length blocks) ->
  exists found start s',
    blk_alloc_contiguous PObj n (Some blocks) s =
      Ok ((found, seqZ start found ++ drop (Z.to_nat found) blocks), s') /\
    k_flags s' = k_flags s /\ obj_idle s' /\
    ba_bitmap (k_obj s') = Some (set_range b start (Z.to_nat found)) /\
    (run_want (k_obj s) n = 0 -> found = 0) /\
    (0 < run_want (k_obj s) n ->
     run_found b (run_want (k_obj s) n) (ba_first_data_block (k_obj s))
       (ba_total_blocks (k_obj s)) found start).
Proof.
  intros Hi Hidle Hn Hl.
  assert (Hw : wp (blk_alloc_contiguous PObj n (Some blocks)) (fun r s' =>
    exists found start, r = (found, seqZ start found ++ drop (Z.to_nat found) blocks) /\
    k_flags s' = k_flags s /\ obj_idle s' /\
    ba_bitmap (k_obj s') = Some (set_range b start (Z.to_nat found)) /\
    (run_want (k_obj s) n = 0 -> found = 0) /\
    (0 < run_want (k_obj s) n -> run_found b (run_want (k_obj s) n)
       (ba_first_data_block (k_obj s)) (ba_total_blocks (k_obj s)) found start)) s).
  { apply (wp_blk_alloc_contiguous _ _ b); [done..| |].
    - intros Hw. exists 0, 0. split_and!; [done|done|done|apply Hi|done|lia].
    - intros found start Hw Hrun. destruct (Z.eqb_spec found 0) as [->|].
      + exists 0, start. split_and!; [done|done|done|apply Hi|done|done].
      + exists found, start. split_and!; [done..|lia|done]. }
  apply wp_run in Hw as (r & s' & Hrun & found & start & -> & ?). by exists found, start, s'.
Qed.

(** [blk_alloc_largest_free_region] returns a free run of data blocks, and
    no free run of data blocks is longer; the allocator is unchanged. *)
Theorem blk_largest_free_region_maximal s b :
  ba_inv (k_obj s) b -> obj_idle s ->
  exists size start, blk_alloc_largest_free_region PObj s =
      Ok ((size, start), outside s (k_obj s)) /\
    largest_run b (ba_first_data_block (k_obj s)) (ba_total_blocks (k_obj s)) size start.
Proof.
  intros Hi Hidle.
  assert (Hw : wp (blk_alloc_largest_free_region PObj) (fun r s' => s' = outside s (k_obj s) /\
    largest_run b (ba_first_data_block (k_obj s)) (ba_total_blocks (k_obj s)) r.1 r.2) s).
  { by apply (wp_largest_free_region _ _ b). }
  apply wp_run in Hw as ([size start] & s' & Hrun & -> & Hl). by exists size, start.
Qed.

Lemma fragment_ends_used a b n :
  0 <= n -> count (fragment_end a b) n <= used_bits b n.
Proof.
  intros Hn. pattern n. apply natlike_ind; [by rewrite count_0| |done].
  clear n Hn. intros n Hn IH. unfold used_bits in *.
  rewrite <- Z.add_1_r, !count_succ by lia.
  unfold fragment_end at 2. destruct (bit b n); simpl;
    rewrite ?andb_false_r; simpl; [|lia]. destruct (_ && _); lia.
Qed.

(** C39: the statistics agree with the bitmap: used and free blocks add up to
    the total, and the fragmentation is a percentage, also where the 32-bit
    product by 100 wraps. *)
Theorem blk_alloc_stats_consistent s b :
  ba_inv (k_obj s) b -> obj_idle s ->
  exists st, blk_alloc_get_stats PObj PObj s = Ok (Some st, outside s (k_obj s)) /\
    bs_total_blocks st = ba_total_blocks (k_obj s) /\
    bs_used_blocks st = used_bits b (ba_total_blocks (k_obj s)) /\
    bs_free_blocks st = free_bits b (ba_total_blocks (k_obj s)) /\
    0 <= bs_fragmentation st <= 100.
Proof.
  intros Hi Hidle. pose proof (bi_total _ _ Hi). pose proof (bi_used_bounds _ _ Hi).
  enough (Hw : wp (blk_alloc_get_stats PObj PObj) (fun r s' => s' = outside s (k_obj s) /\
    exists st, r = Some st /\ bs_total_blocks st = ba_total_blocks (k_obj s) /\
    bs_used_blocks st = used_bits b (ba_total_blocks (k_obj s)) /\
    bs_free_blocks st = free_bits b (ba_total_blocks (k_obj s)) /\
    0 <= bs_fragmentation st <= 100) s).
  { apply wp_run in Hw as (r & s' & Hrun & -> & st & -> & Hst). by exists st. }
  unfold blk_alloc_get_stats. ba_step. apply wp_lock_obj; [done|]. ba_steps.
  apply (wp_fragmentation _ s (k_obj s) b); [done|]. ba_steps. split; [done|].
  eexists. split; [done|]. simpl. rewrite u32_id by lia. rewrite free_used_bits by lia.
  rewrite (bi_used _ _ Hi) in *. split_and!; [done|done|done|..];
    (destruct (Z.eqb_spec (used_bits b (ba_total_blocks (k_obj s))) 0) as [|Hne]; [lia|]);
    set (c := count _ _); set (u := used_bits _ _) in *;
    assert (Hc : 0 <= c <= u) by (split; [apply count_bounds|apply fragment_ends_used]; lia);
    assert (Hu : 0 <= u32 (c * 100) <= c * 100)
      by (unfold u32; split; [apply Z.mod_pos_bound|apply Z.mod_le]; lia).
  - apply Z.div_pos; lia.
  - apply Z.div_le_upper_bound; lia.
Qed.

(** [blk_alloc_format] with at least the reserved blocks makes the state
    valid and [blk_alloc_validate] accept it; with fewer, validation fails
    with [-EFAULT]. *)
Theorem blk_alloc_format_validates s b n :
  ba_inv (k_obj s) b -> obj_idle s -> 0 < ba_first_data_block (k_obj s) ->
  0 <= n <= ba_total_blocks (k_obj s) ->
  exists s' b' s'', blk_alloc_format PObj n s = Ok (0, s') /\
    k_flags s' = k_flags s /\ ba_inv (k_obj s') b' /\ ba_used_blocks (k_obj s') = n /\
    blk_alloc_validate PObj s' =
      Ok (if ba_first_data_block (k_obj s) <=? n then 0 else -EFAULT, s'') /\
    (ba_first_data_block (k_obj s) <= n -> valid s' b').
Proof.
  intros Hi Hidle Hf Hn. pose proof (bi_nbits _ _ Hi) as Hnb. pose proof (bi_first _ _ Hi).
  set (b' := set_range (replicate (length b) 0) 0 (Z.to_nat n)).
  assert (Hbit : forall i, 0 <= i < ba_total_blocks (k_obj s) -> bit b' i = (i <? n)).
  { intros i Hr. unfold b', nbits in *.
    rewrite bit_set_range by (unfold nbits; rewrite ?length_replicate; lia).
    rewrite bit_zeros, orb_false_r by lia. rewrite (proj2 (Z.leb_le 0 i)) by lia. simpl.
    by rewrite Z2Nat.id by lia. }
  assert (Hw : wp (blk_alloc_format PObj n) (fun r s' => r = 0 /\
    s' = outside s (formatted n b (k_obj s))) s).
  { apply (wp_blk_alloc_format _ _ b); [done|done|lia|].
    by rewrite (proj2 (Z.ltb_ge _ _)) by lia. }
  apply wp_run in Hw as (r & s' & Hrun & -> & ->).
  pose proof (inv_formatted _ _ n Hi Hn) as Hi'. fold b' in Hi'.
  set (s' := outside s _) in *.
  assert (Hv : wp (blk_alloc_validate PObj) (fun r _ =>
    r = if ba_first_data_block (k_obj s) <=? n then 0 else -EFAULT) s').
  { apply (wp_blk_alloc_validate _ _ b'); [by apply inv_with_lock|done|].
    change (ba_first_data_block (k_obj s')) with (ba_first_data_block (k_obj s)).
    destruct (first_clear _ _ _) as [p|] eqn:Hp.
    - apply first_clear_Some in Hp as (Hp & Hb & _). rewrite Hbit in Hb by lia.
      apply Z.ltb_ge in Hb. by rewrite (proj2 (Z.leb_gt _ _)) by lia.
    - rewrite first_clear_None in Hp.
      specialize (Hp (ba_first_data_block (k_obj s) - 1) ltac:(lia)).
      rewrite Hbit in Hp by lia. apply Z.ltb_lt in Hp.
      by rewrite (proj2 (Z.leb_le _ _)) by lia. }
  apply wp_run in Hv as (r & s'' & Hvr & ->).
  exists s', b', s''. split_and!; [done|done|by apply inv_with_lock|done|done|].
  intros Hle. split; [by apply inv_with_lock|done| |done].
  intros i Hi2. simpl in Hi2. rewrite Hbit by lia. apply Z.ltb_lt. lia.
Qed.

(** [blk_alloc_init] leaves the reserved blocks unmarked, so a new
    allocator is refused by [blk_alloc_validate] until it is formatted or
    loaded, and marking one reserved block with [blk_alloc_specific] makes the
    next [blk_alloc] hand out a reserved block. *)
Theorem blk_alloc_init_reserved_unprotected s total first bsize bytes e :
  3 <= first < total -> total < 2 ^ 32 - 7 -> 0 < bsize < 2 ^ 32 ->
  kmalloc ((total + 7) / 8) (k_env s) = (Some bytes, e) ->
  exists s1, blk_alloc_init PObj total first bsize s = Ok (0, s1) /\
    (exists s2, blk_alloc_validate PObj s1 = Ok (-EFAULT, s2)) /\
    exists s3 s4, blk_alloc_specific PObj 0 s1 = Ok (0, s3) /\
      blk_alloc PObj s3 = Ok (1, s4) /\ 1 < ba_first_data_block (k_obj s4).
Proof.
  intros Hf Ht Hb Hk.
  set (z := replicate (length bytes) 0).
  assert (Hw : wp (blk_alloc_init PObj total first bsize) (fun r s1 => r = 0 /\
    ba_inv (k_obj s1) z /\ ba_used_blocks (k_obj s1) = 0 /\
    ba_first_data_block (k_obj s1) = first /\
    ba_total_blocks (k_obj s1) = total /\ ba_first_free (k_obj s1) = first /\ obj_idle s1) s).
  { apply wp_blk_alloc_init; [lia|lia|done|]. rewrite Hk. intros a Hi Hu Hfd Htot Hff Hlk.
    split_and!; try done. unfold obj_idle. simpl. by rewrite Hlk. }
  apply wp_run in Hw as (r & s1 & Hrun & -> & Hi & Hu & Hfd & Htot & Hff & Hidle).
  pose proof (bi_nbits _ _ Hi) as Hnb.
  assert (Hz : forall i, 0 <= i < total -> bit z i = false).
  { intros i Hi2. apply bit_zeros. unfold nbits, z in Hnb. rewrite length_replicate in Hnb. lia. }
  exists s1. split_and!; [done| |].
  - assert (Hv : wp (blk_alloc_validate PObj) (fun r _ => r = -EFAULT) s1).
    { apply (wp_blk_alloc_validate _ _ z); [done|done|]. rewrite Hfd.
      destruct (first_clear (bit z) 0 first) eqn:Hc; [done|].
      rewrite first_clear_None in Hc. specialize (Hc 0 ltac:(lia)). by rewrite Hz in Hc by lia. }
    apply wp_run in Hv as (r & s2 & Hr & ->). by exists s2.
  - assert (Hs : wp (blk_alloc_specific PObj 0) (fun r s3 => r = 0 /\
      s3 = outside s1 (marked 0 z 1 (k_obj s1))) s1).
    { apply (wp_blk_alloc_specific _ _ z); [done|done|lia|]. unfold hint_after_specific.
      rewrite Htot, Hff, (proj2 (Z.leb_gt _ _)), Hz, (proj2 (Z.ltb_lt _ _)) by lia. done. }
    apply wp_run in Hs as (r & s3 & Hr & -> & ->).
    assert (Hi3 : ba_inv (marked 0 z 1 (k_obj s1)) (set_bit z 0)).
    { apply inv_marked; [done|lia|apply Hz; lia|lia]. }
    assert (Ha : wp (blk_alloc PObj) (fun r s4 => r = 1 /\
      ba_first_data_block (k_obj s4) = first) (outside s1 (marked 0 z 1 (k_obj s1)))).
    { apply (wp_blk_alloc _ _ (set_bit z 0)); [by apply inv_with_lock|done|].
      unfold next_block. simpl. rewrite Htot, Hu, (proj2 (Z.leb_gt _ _)) by lia.
      rewrite (proj2 (first_clear_Some _ _ _ 1)); [done|]. split_and!; [lia|lia| |lia].
      rewrite bit_set_bit by lia. simpl. apply Hz. lia. }
    apply wp_run in Ha as (r & s4 & Hr4 & -> & Hf4).
    eexists _, s4. split_and!; [done|done|lia].
Qed.

(** [blk_alloc_debug_print] holds [ba_lock] when it calls
    [blk_alloc_largest_free_region], which takes it again: it panics on every
    allocator. *)
Theorem blk_alloc_debug_print_panics s b :
  ba_inv (k_obj s) b -> obj_idle s ->
  blk_alloc_debug_print PObj s = Fault F_panic_lock.
Proof.
  intros Hi Hidle. unfold blk_alloc_debug_print.
  assert (Hw : wp (flags <- lock_obj ;; blk_alloc_fragmentation PObj)
    (fun _ s' => s' = inside s (k_obj s)) s).
  { wp_step. apply wp_lock_obj; [done|]. by apply (wp_fragmentation _ s (k_obj s) b). }
  revert Hw. unfold wp, bind. destruct (lock_obj s) as [[flags s1]|]; [|done].
  destruct (blk_alloc_fragmentation PObj s1) as [[r s2]|]; [|done]. intros ->.
  unfold blk_alloc_largest_free_region, bind, lock_obj.
  rewrite acquire_irqsave_held_panics; [done|]. done.
Qed.
End theorems.

Section disk.
Context {E : Type} `{BlockStore E}.
Implicit Types (s : kst blk_allocator E) (a : blk_allocator) (b : list Z).

(** The whole of [blk_alloc_sync], for a dirty allocator whose device opens. *)
Lemma wp_blk_alloc_sync s b device p v s1 wr sy :
  ba_inv (k_obj s) b -> obj_idle s -> ba_dirty (k_obj s) = true ->
  ba_mount (k_obj s) = Some (Mount (Some device)) ->
  disk_ok (k_obj s) (ba_bitmap_block (k_obj s)) ->
  device_opens VFS_O_RDWR device (outside s (k_obj s)) p v s1 -> stats_idle s ->
  vl_write v = Some wr -> vl_sync v = Some sy ->
  wp (blk_alloc_sync PObj) (fun r s' =>
    if r =? 0 then synced p v b s1 s'
    else failed p s1 s' r /\ ~ (writes_fully
      (bitmap_start (k_obj s) (ba_bitmap_block (k_obj s)))
      (bitmap_end (k_obj s) (ba_bitmap_block (k_obj s))) wr /\ syncs_fully sy)) s.
Proof.
  intros Hi Hidle Hd Hm Hdk Hop Hst Hwr Hsy.
  pose proof (device_opens_inv _ _ _ _ _ _ Hop) as (e & Hn & Hp & Hs1). destruct Hop as [Hop _].
  assert (Hi1 : ba_inv (k_obj s1) b) by (subst s1; by apply inv_with_lock).
  assert (Hdk1 : disk_ok (k_obj s1) (ba_bitmap_block (k_obj s1))).
  { subst s1. by destruct Hdk. }
  assert (Hdev : dev_open p (File v 0 VFS_O_RDWR 1 spinlock_init) s1).
  { subst s1. split; [by apply opened_file|done|done|done]. }
  unfold blk_alloc_sync. ba_step. apply wp_lock_obj; [done|]. ba_steps. rewrite Hd. cbn [negb].
  ba_steps. rewrite Hm. cbn [mnt_device]. ba_steps. eapply wp_eq; [exact Hop|].
  cbn [negb Z.eqb].
  pose proof (wp_sync_bitmap p _ s1 b wr sy Hi1 Hdk1 ltac:(subst s1; done) Hdev Hwr Hsy) as Hw.
  by subst s1.
Qed.

(** What [synced] leaves, seen from the state before the device was opened. *)
Lemma synced_closed s b device p v s1 s' :
  device_opens VFS_O_RDWR device (outside s (k_obj s)) p v s1 -> synced p v b s1 s' ->
  k_flags s' = k_flags s /\ k_files s' = k_files s /\
  k_obj s' = with_lock (rest_lock (k_flags s))
    (with_dirty false (with_lock (rest_lock (k_flags s)) (k_obj s))) /\
  stored (contents v (k_env s'))
    (ba_bitmap_block (k_obj s) * ba_block_size (k_obj s)) b (ba_bitmap_size (k_obj s)).
Proof.
  intros Hop (Hk & Hob & Hfi & Hsto).
  pose proof (device_opens_inv _ _ _ _ _ _ Hop) as (e & Hn & Hp & ->).
  simpl in *. by rewrite delete_insert_id in Hfi by done.
Qed.

(** [blk_alloc_sync] of a dirty allocator whose device opens: if it
    returns 0, the device holds the bitmap, byte for byte, at the bitmap's
    block and the allocator is clean; otherwise the allocator is still dirty.
    Either way the file is closed, the flags are restored and the allocator
    keeps its invariant. *)
Theorem blk_alloc_sync_stores_bitmap s b device p v s1 wr sy :
  ba_inv (k_obj s) b -> obj_idle s -> stats_idle s -> ba_dirty (k_obj s) = true ->
  ba_mount (k_obj s) = Some (Mount (Some device)) ->
  disk_ok (k_obj s) (ba_bitmap_block (k_obj s)) ->
  device_opens VFS_O_RDWR device (outside s (k_obj s)) p v s1 ->
  vl_write v = Some wr -> vl_sync v = Some sy ->
  exists r s', blk_alloc_sync PObj s = Ok (r, s') /\
    k_flags s' = k_flags s /\ k_files s' = k_files s /\
    ba_inv (k_obj s') b /\ obj_idle s' /\
    (if r =? 0
     then ba_dirty (k_obj s') = false /\
       stored (contents v (k_env s'))
         (ba_bitmap_block (k_obj s) * ba_block_size (k_obj s)) b (ba_bitmap_size (k_obj s))
     else ba_dirty (k_obj s') = true).
Proof.
  intros Hi Hidle Hst Hd Hm Hdk Hop Hwr Hsy.
  pose proof (wp_blk_alloc_sync s b device p v s1 wr sy Hi Hidle Hd Hm Hdk Hop Hst Hwr Hsy) as Hall.
  apply wp_run in Hall as (r & s' & Hrun & Hres). exists r, s'. split; [done|].
  destruct (r =? 0); unfold obj_idle.
  - apply (synced_closed _ _ _ _ _ _ _ Hop) in Hres as (Hk & Hfi & Hob & Hsto). rewrite Hob.
    split_and!; [done|done| |done|done|done].
    by apply inv_with_lock, inv_with_dirty, inv_with_lock.
  - pose proof (device_opens_inv _ _ _ _ _ _ Hop) as (e & Hn & Hp & Hs1).
    destruct Hres as [(_ & Hk & Hob & Hfi) _]. rewrite Hk, Hob, Hfi.
    subst s1. simpl in *. rewrite delete_insert_id by done.
    split_and!; [done|done|by apply inv_with_lock|done|done].
Qed.

Lemma wp_read_chunk_badf p f s b blk :
  ba_inv (k_obj s) b -> disk_ok (k_obj s) blk -> 0 < ba_bitmap_blocks (k_obj s) ->
  file_open p f s -> stats_idle s ->
  has_flag (f_flags f) VFS_O_RDWR = false -> f_refcount f = 1 ->
  wp (read_chunk p blk 0) (fun r s' => r = inr (-EBADF) /\ k_flags s' = k_flags s /\
    k_files s' = delete p (k_files s) /\ k_obj s' = k_obj s) s.
Proof.
  intros Hi Hdk Hnb Ho Hst Hfl Hrc. set (a := k_obj s) in *.
  unfold read_chunk. wp_step. unfold obj. wp_step. unfold id. fold a.
  destruct (chunk_range a b blk 0 (inv_geo _ _ Hi) Hdk ltac:(lia)) as (Hlt & Ech & Hpos). rewrite Ech.
  pose proof (dk_blk _ _ Hdk). pose proof (bi_bsize _ _ Hi).
  assert (Hbase : 0 <= blk * ba_block_size a + 0 * ba_block_size a) by nia.
  wp_step. eapply wp_seek_at; [exact Ho|done|]. intros f2 s2 M2 E2 _.
  rewrite !(proj2 (Z.ltb_ge (blk * ba_block_size a + 0 * ba_block_size a) 0)) by lia. wp_step.
  eapply wp_eq.
  { eapply vfs_read_not_rdwr; [apply M2|]. by rewrite (mv_flags _ _ _ _ _ M2). }
  assert (Hob2 : k_obj s2 = a) by apply M2. cbv iota beta. wp_step.
  eapply (wp_ba_bytes _ _ b); [rewrite Hob2; apply Hi|]. wp_step.
  eapply wp_lift.
  { unfold blit. simpl. rewrite (proj2 (Z.leb_le _ _)) by lia. done. }
  wp_step. unfold upd. wp_step. rewrite (proj2 (Z.eqb_neq (-EBADF) _)) by (unfold EBADF; lia).
  cbn [negb]. wp_step. simpl Z.to_nat. simpl app. rewrite with_bitmap_id.
  2: { rewrite Hob2. simpl. rewrite drop_0. apply Hi. }
  eapply wp_close_here.
  - destruct (mv_open _ _ _ _ _ M2). by split.
  - by rewrite (mv_refs _ _ _ _ _ M2).
  - intros e2 _. wp_step. simpl. split_and!; [done|apply M2| |done].
    rewrite (mv_files _ _ _ _ _ M2). by rewrite delete_insert_eq.
Qed.

(** [blk_alloc_load] never succeeds: it opens the device [VFS_O_RDONLY],
    so the first read is refused and it returns [-EBADF]; the bitmap, the used
    count and the hint are those of before, only the mount is recorded. *)
Theorem blk_alloc_load_always_fails s b blk device p v s1 :
  ba_inv (k_obj s) b -> obj_idle s -> stats_idle s -> disk_ok (k_obj s) blk ->
  device_opens VFS_O_RDONLY device
    (outside s (with_mount (Some (Mount (Some device))) blk (k_obj s))) p v s1 ->
  exists s', blk_alloc_load PObj (Some (Mount (Some device))) blk s = Ok (-EBADF, s') /\
    k_flags s' = k_flags s /\ k_files s' = k_files s /\
    k_obj s' = with_lock (rest_lock (k_flags s))
      (with_mount (Some (Mount (Some device))) blk (k_obj s)).
Proof.
  intros Hi Hidle Hst Hdk Hop. set (a := k_obj s) in *.
  pose proof (device_opens_inv _ _ _ _ _ _ Hop) as (e & Hn & Hp & Hs1). destruct Hop as [Hop _].
  set (mnt := Some (Mount (Some device))) in *.
  assert (Hnb : 0 < ba_bitmap_blocks a).
  { rewrite (dk_blocks _ _ Hdk). pose proof (bi_bsize _ _ Hi).
    apply Z.div_str_pos. rewrite (bi_size _ _ Hi). pose proof (bi_total _ _ Hi). dlia. }
  enough (Hw : wp (load_bitmap p blk) (fun r s' => r = -EBADF /\ k_flags s' = k_flags s /\
    k_files s' = k_files s /\ k_obj s' = k_obj s1) s1).
  { assert (Hall : wp (blk_alloc_load PObj mnt blk) (fun r s' => r = -EBADF /\
      k_flags s' = k_flags s /\ k_files s' = k_files s /\ k_obj s' = k_obj s1) s).
    { unfold blk_alloc_load, mnt. ba_step. apply wp_lock_obj; [done|]. ba_steps.
      cbn [mnt_device]. ba_step. eapply wp_eq; [exact Hop|]. cbn [negb Z.eqb]. exact Hw. }
    apply wp_run in Hall as (r & s' & Hrun & -> & Hk & Hfi & Hob). exists s'.
    split; [done|]. by rewrite Hob, Hs1. }
  pose proof (opened_file p v VFS_O_RDONLY e (outside s (with_mount mnt blk a)) Hp) as Ho.
  rewrite <- Hs1 in Ho.
  assert (Hi1 : ba_inv (k_obj s1) b) by (subst s1; destruct Hi; by split).
  assert (Hdk1 : disk_ok (k_obj s1) blk) by (subst s1; by destruct Hdk).
  unfold load_bitmap. wp_step. unfold obj at 1. wp_step.
  replace (ba_bitmap_blocks (k_obj s1)) with (ba_bitmap_blocks a) by (by subst s1).
  replace (for_range 0 (ba_bitmap_blocks a) tt _)
    with (for_up (S (Z.to_nat (ba_bitmap_blocks a - 1))) 0 tt (fun i (_ : unit) => read_chunk p blk i))
    by (unfold for_range; f_equal; lia).
  wp_step. simpl for_up. wp_step.
  wp_use wp_read_chunk_badf; [exact Hi1|exact Hdk1| |exact Ho|by subst s1|done|done|].
  { by replace (ba_bitmap_blocks (k_obj s1)) with (ba_bitmap_blocks a) by (by subst s1). }
  intros ? s2 (-> & Hk & Hf & Hob). wp_steps. split_and!; [done| | |done].
  - rewrite Hk. by subst s1.
  - rewrite Hf. subst s1. simpl. by rewrite delete_insert_id.
Qed.

(** Two allocators that manage the same blocks of the same device. *)
Definition same_shape a a' : Prop :=
  ba_total_blocks a' = ba_total_blocks a /\ ba_first_data_block a' = ba_first_data_block a /\
  ba_block_size a' = ba_block_size a /\ ba_bitmap_size a' = ba_bitmap_size a /\
  ba_bitmap_blocks a' = ba_bitmap_blocks a.

Lemma geo_shape a a' b : ba_geo a b -> same_shape a a' -> ba_geo a' b.
Proof. intros [] (E1 & E2 & E3 & E4 & E5). split; by rewrite ?E1, ?E2, ?E3, ?E4. Qed.

Lemma disk_shape a a' blk : disk_ok a blk -> same_shape a a' -> disk_ok a' blk.
Proof. intros [] (E1 & E2 & E3 & E4 & E5). split; rewrite ?E3, ?E4, ?E5; done. Qed.

(** The hint the load loop leaves: the least free data block, or the first
    data block when none is free. *)
Definition hint_exact (b : list Z) a (hint : Z) : Prop :=
  (ba_first_data_block a <= hint < ba_total_blocks a /\ bit b hint = false /\
     forall q, ba_first_data_block a <= q < hint -> bit b q = true) \/
  (hint = ba_first_data_block a /\
     forall q, ba_first_data_block a <= q < ba_total_blocks a -> bit b q = true).

Lemma reloaded_hint a b : hint_exact b a (ba_first_free (reloaded b a)).
Proof.
  unfold hint_exact, reloaded. simpl.
  destruct (first_clear _ _ _) as [q|] eqn:Hq; simpl.
  - apply first_clear_Some in Hq. left. tauto.
  - rewrite first_clear_None in Hq. by right.
Qed.

(** C29: on a device whose driver transfers what it is asked for within the
    bitmap's bytes and whose flush succeeds, [blk_alloc_sync] of a dirty,
    mounted allocator returns 0, and from then on, as long as those bytes stay on
    the device, the load loop run on a read-write file of it, in any allocator of the
    same geometry with whatever bitmap, count and hint, returns 0, closes the
    file and leaves exactly the stored bitmap, its used count and the least
    free data block as the hint. ([blk_alloc_load] itself opens the device
    read-only and never reaches this: [blk_alloc_load_always_fails].) *)
Theorem bitmap_sync_load_roundtrip s b device p v s1 wr sy rd :
  let blk := ba_bitmap_block (k_obj s) in
  let lo := bitmap_start (k_obj s) blk in
  let hi := bitmap_end (k_obj s) blk in
  ba_inv (k_obj s) b -> obj_idle s -> stats_idle s -> ba_dirty (k_obj s) = true ->
  ba_mount (k_obj s) = Some (Mount (Some device)) -> disk_ok (k_obj s) blk ->
  device_opens VFS_O_RDWR device (outside s (k_obj s)) p v s1 ->
  vl_write v = Some wr -> vl_sync v = Some sy -> vl_read v = Some rd ->
  writes_fully lo hi wr -> syncs_fully sy -> reads_fully lo hi rd ->
  exists s', blk_alloc_sync PObj s = Ok (0, s') /\ ba_dirty (k_obj s') = false /\
    forall t q cur,
      (forall x, lo <= x < hi -> contents v (k_env t) x = contents v (k_env s') x) ->
      dev_open q (File v 0 VFS_O_RDWR 1 spinlock_init) t -> obj_idle t ->
      same_shape (k_obj s) (k_obj t) ->
      ba_bitmap (k_obj t) = Some cur -> length cur = length b ->
      exists t', load_bitmap q blk t = Ok (0, t') /\
        k_flags t' = k_flags t /\ k_files t' = delete q (k_files t) /\
        ba_bitmap (k_obj t') = Some b /\
        ba_used_blocks (k_obj t') = used_bits b (ba_total_blocks (k_obj s)) /\
        hint_exact b (k_obj s) (ba_first_free (k_obj t')) /\
        ba_dirty (k_obj t') = false /\ ba_inv (k_obj t') b.
Proof.
  intros blk lo hi Hi Hidle Hst Hd Hm Hdk Hop Hwr Hsy Hrd Hfw Hfs Hfr.
  pose proof (wp_blk_alloc_sync s b device p v s1 wr sy Hi Hidle Hd Hm Hdk Hop Hst Hwr Hsy) as Hall.
  apply wp_run in Hall as (r & s' & Hrun & Hres).
  destruct (Z.eqb_spec r 0) as [->|]; [|by destruct Hres as [_ []]].
  apply (synced_closed _ _ _ _ _ _ _ Hop) in Hres as (_ & _ & Hob & Hsto).
  exists s'. split; [done|]. rewrite Hob. split; [done|].
  intros t q cur Hc Ho Hit Hsh Hcur Hl.
  pose proof (geo_shape _ _ _ (inv_geo _ _ Hi) Hsh) as Hgt.
  pose proof (disk_shape _ _ _ Hdk Hsh) as Hdt.
  pose proof Hsh as (E1 & E2 & E3 & E4 & E5).
  assert (Hw : wp (load_bitmap q blk) (fun r t' => k_flags t' = k_flags t /\
    k_files t' = delete q (k_files t) /\
    if r =? 0 then k_obj t' = with_lock (rest_lock (k_flags t)) (reloaded b (k_obj t))
    else ~ reads_fully (bitmap_start (k_obj t) blk) (bitmap_end (k_obj t) blk) rd) t).
  { apply (wp_load_bitmap q _ t b cur blk rd Hgt Hcur Hl Hdt Hit Ho Hrd). simpl f_vnode.
    rewrite E3, E4. intros x Hx. rewrite (Hsto x Hx), Hc; [done|].
    unfold lo, hi, bitmap_start, bitmap_end. fold blk. lia. }
  apply wp_run in Hw as (r & t' & Hrt & Hk & Hf & Hres). exists t'.
  destruct (Z.eqb_spec r 0) as [->|].
  2: { exfalso. apply Hres. unfold bitmap_start, bitmap_end. rewrite E3, E4. apply Hfr. }
  split_and!; [done..| | | | |]; rewrite Hres.
  - done.
  - simpl. by rewrite E1.
  - pose proof (reloaded_hint (k_obj t) b) as Hh. unfold hint_exact in *. rewrite E1, E2 in Hh.
    exact Hh.
  - done.
  - by apply inv_with_lock, inv_reloaded.
Qed.
End disk.

(** ** Examples *)

Definition demo_mount : vfs_mount := Mount (Some rd_name).
Definition demo_ba : blk_allocator :=
  BlkAllocator 20 2 2 2 2 (Some [3; 0; 0]) 3 spinlock_init (Some demo_mount) 5 2 true.
Definition demo_blk : kst blk_allocator ramdev :=
  Kst 0x202 ∅ 0 0 spinlock_init demo_ba (RamDev ∅ 4096).

Lemma demo_ba_inv : ba_inv demo_ba [3; 0; 0].
Proof.
  split; simpl; try done; try lia.
  repeat constructor; unfold byte_ok; lia.
Qed.

Lemma demo_blk_valid : valid demo_blk [3; 0; 0].
Proof.
  split; [apply demo_ba_inv|done| |done].
  intros i Hi. simpl in Hi. assert (i = 0 \/ i = 1) as [-> | ->] by lia; done.
Qed.

Lemma demo_disk_ok : disk_ok demo_ba 5.
Proof. split; simpl; done || lia. Qed.

Lemma blk_calls_refine_block_set_witness :
  exists r s' b', run_call (BContiguous 3) demo_blk = Ok (r, s') /\ valid s' b' /\
    k_flags s' = 0x202 /\ same_geometry demo_ba (k_obj s') /\
    astep 2 20 (free_set 20 [3; 0; 0]) (BContiguous 3) r (free_set 20 b').
Proof.
  apply (blk_calls_refine_block_set demo_blk [3; 0; 0] (BContiguous 3)).
  - apply demo_blk_valid.
  - simpl. lia.
Defined.

Lemma blk_sequence_no_double_grant_witness :
  exists rs s', run_calls [BAlloc; BContiguous 4; BFree 2; BAlloc; BSpecific 9] demo_blk =
      Ok (rs, s') /\ length rs = 5%nat /\
    no_double_grant ∅ [BAlloc; BContiguous 4; BFree 2; BAlloc; BSpecific 9] rs /\
    k_flags s' = 0x202 /\ exists s'', blk_alloc_validate PObj s' = Ok (0, s'').
Proof.
  apply (blk_sequence_no_double_grant
    [BAlloc; BContiguous 4; BFree 2; BAlloc; BSpecific 9] demo_blk [3; 0; 0]).
  - apply demo_blk_valid.
  - repeat constructor; simpl; lia.
Defined.

Lemma blk_alloc_contiguous_first_run_witness :
  exists found start s',
    blk_alloc_contiguous PObj 3 (Some [0; 0; 0]) demo_blk =
      Ok ((found, seqZ start found ++ drop (Z.to_nat found) [0; 0; 0]), s') /\
    k_flags s' = 0x202 /\ obj_idle s' /\
    ba_bitmap (k_obj s') = Some (set_range [3; 0; 0] start (Z.to_nat found)) /\
    (run_want demo_ba 3 = 0 -> found = 0) /\
    (0 < run_want demo_ba 3 -> run_found [3; 0; 0] (run_want demo_ba 3) 2 20 found start).
Proof.
  apply (blk_alloc_contiguous_first_run demo_blk [3; 0; 0] 3 [0; 0; 0]).
  - apply demo_ba_inv.
  - reflexivity.
  - lia.
  - simpl. lia.
Defined.

Lemma blk_largest_free_region_maximal_witness :
  exists size start, blk_alloc_largest_free_region PObj demo_blk =
      Ok ((size, start), outside demo_blk demo_ba) /\
    largest_run [3; 0; 0] 2 20 size start.
Proof.
  apply (blk_largest_free_region_maximal demo_blk [3; 0; 0]).
  - apply demo_ba_inv.
  - reflexivity.
Defined.

Lemma blk_alloc_stats_consistent_witness :
  exists st, blk_alloc_get_stats PObj PObj demo_blk = Ok (Some st, outside demo_blk demo_ba) /\
    bs_total_blocks st = 20 /\ bs_used_blocks st = used_bits [3; 0; 0] 20 /\
    bs_free_blocks st = free_bits [3; 0; 0] 20 /\ 0 <= bs_fragmentation st <= 100.
Proof.
  apply (blk_alloc_stats_consistent demo_blk [3; 0; 0]).
  - apply demo_ba_inv.
  - reflexivity.
Defined.

Lemma blk_alloc_format_validates_witness :
  exists s' b' s'', blk_alloc_format PObj 4 demo_blk = Ok (0, s') /\
    k_flags s' = 0x202 /\ ba_inv (k_obj s') b' /\ ba_used_blocks (k_obj s') = 4 /\
    blk_alloc_validate PObj s' = Ok (if 2 <=? 4 then 0 else -EFAULT, s'') /\
    (2 <= 4 -> valid s' b').
Proof.
  apply (blk_alloc_format_validates demo_blk [3; 0; 0] 4).
  - apply demo_ba_inv.
  - reflexivity.
  - simpl. lia.
  - simpl. lia.
Defined.

Lemma blk_alloc_init_reserved_unprotected_witness :
  exists s1, blk_alloc_init PObj 64 8 512 demo_blk = Ok (0, s1) /\
    (exists s2, blk_alloc_validate PObj s1 = Ok (-EFAULT, s2)) /\
    exists s3 s4, blk_alloc_specific PObj 0 s1 = Ok (0, s3) /\
      blk_alloc PObj s3 = Ok (1, s4) /\ 1 < ba_first_data_block (k_obj s4).
Proof.
  apply (blk_alloc_init_reserved_unprotected demo_blk 64 8 512
    (replicate 8 170) (RamDev ∅ 4096)).
  - lia.
  - lia.
  - lia.
  - reflexivity.
Defined.

Lemma blk_alloc_debug_print_panics_witness :
  blk_alloc_debug_print PObj demo_blk = Fault F_panic_lock.
Proof.
  apply (blk_alloc_debug_print_panics demo_blk [3; 0; 0]).
  - apply demo_ba_inv.
  - reflexivity.
Defined.

(** The state after the device is opened from [s] with [flags]. *)
Definition after_open (flags : Z) (s : kst blk_allocator ramdev) : kst blk_allocator ramdev :=
  set_env (RamDev ∅ 4096) (put_file 1 (File rd_vnode 0 flags 1 spinlock_init) s).

Lemma blk_alloc_sync_stores_bitmap_witness :
  exists r s', blk_alloc_sync PObj demo_blk = Ok (r, s') /\
    k_flags s' = 0x202 /\ k_files s' = ∅ /\ ba_inv (k_obj s') [3; 0; 0] /\ obj_idle s' /\
    (if r =? 0
     then ba_dirty (k_obj s') = false /\
       stored (contents rd_vnode (k_env s')) (5 * 2) [3; 0; 0] 3
     else ba_dirty (k_obj s') = true).
Proof.
  eapply (blk_alloc_sync_stores_bitmap demo_blk [3; 0; 0] rd_name 1 rd_vnode
    (after_open VFS_O_RDWR (outside demo_blk demo_ba))).
  - apply demo_ba_inv.
  - reflexivity.
  - reflexivity.
  - reflexivity.
  - reflexivity.
  - apply demo_disk_ok.
  - split; reflexivity.
  - reflexivity.
  - reflexivity.
Defined.

Example blk_alloc_sync_runs :
  exists s', blk_alloc_sync PObj demo_blk = Ok (0, s') /\
    rd_byte (k_env s') <$> seqZ 9 5 = [0; 3; 0; 0; 0].
Proof. eexists. split; vm_compute; reflexivity. Qed.

Lemma blk_alloc_load_always_fails_witness :
  exists s', blk_alloc_load PObj (Some demo_mount) 5 demo_blk = Ok (-EBADF, s') /\
    k_flags s' = 0x202 /\ k_files s' = ∅ /\
    k_obj s' = with_lock (rest_lock 0x202) (with_mount (Some demo_mount) 5 demo_ba).
Proof.
  apply (blk_alloc_load_always_fails demo_blk [3; 0; 0] 5 rd_name 1 rd_vnode
    (after_open VFS_O_RDONLY (outside demo_blk (with_mount (Some demo_mount) 5 demo_ba)))).
  - apply demo_ba_inv.
  - reflexivity.
  - reflexivity.
  - apply demo_disk_ok.
  - split; reflexivity.
Defined.

(** A fresh allocator of the same geometry, before its bitmap is read, on the
    device the bitmap was stored on. *)
Definition demo_synced : kst blk_allocator ramdev :=
  match blk_alloc_sync PObj demo_blk with Ok (_, s') => s' | Fault _ => demo_blk end.
Definition demo_blank : blk_allocator :=
  BlkAllocator 20 0 2 2 2 (Some [9; 9; 9]) 3 spinlock_init None 0 2 false.
Definition demo_reopened : kst blk_allocator ramdev :=
  put_file 1 (File rd_vnode 0 VFS_O_RDWR 1 spinlock_init) (set_obj demo_blank demo_synced).

Lemma bitmap_sync_load_roundtrip_witness :
  exists t', load_bitmap 1 5 demo_reopened = Ok (0, t') /\
    ba_bitmap (k_obj t') = Some [3; 0; 0] /\ ba_used_blocks (k_obj t') = 2 /\
    hint_exact [3; 0; 0] demo_ba (ba_first_free (k_obj t')).
Proof.
  destruct (bitmap_sync_load_roundtrip demo_blk [3; 0; 0] rd_name 1 rd_vnode
    (after_open VFS_O_RDWR (outside demo_blk demo_ba)) _ _ _
    demo_ba_inv eq_refl eq_refl eq_refl eq_refl demo_disk_ok ltac:(split; reflexivity)
    eq_refl eq_refl eq_refl ltac:(intros buf off e _ _; eexists; reflexivity)
    ltac:(intros e; eexists; reflexivity)
    ltac:(intros n off e Hn _ _; do 2 eexists; rewrite Z.max_r by lia; reflexivity))
    as (s' & Hs & _ & Hload).
  destruct (Hload demo_reopened 1 [9; 9; 9]) as (t' & Ht & _ & _ & Hb & Hu & Hh & _ & _).
  - intros x _. unfold demo_reopened, demo_synced. rewrite Hs. reflexivity.
  - split; [split|..]; reflexivity || done.
  - reflexivity.
  - split_and!; reflexivity.
  - reflexivity.
  - reflexivity.
  - exists t'. split_and!; [exact Ht|exact Hb|rewrite Hu; reflexivity|exact Hh].
Defined.

Example load_bitmap_runs :
  match load_bitmap 1 5 demo_reopened with
  | Ok (r, t') => Some (r, ba_first_free (k_obj t'))
  | Fault _ => None
  end = Some (0, 2).
Proof. vm_compute. reflexivity. Qed.
