(* ===== verification/InodeAlloc.v ===== *)
(** * The inode allocator ([sys/src/libfs/inode.c], first part)

    One bit per inode; inode numbers start at 1, and 0 is the failure value.
    The allocator refines the set of inode numbers in use. *)

From stdpp Require Import base numbers list list_numbers gmap strings.
From S2P Require Import Prelude Bitmap Spinlock Kernel VfsFile VfsFileFacts.
From S2P Require Import BlkAlloc BlkAllocFacts.

Record inode_alloc_t := InodeAlloc {
  ia_bitmap : option (list Z);
  ia_total : Z;
  ia_used : Z;
  ia_first_free : Z;
  ia_lock : spinlock
}.

Definition ia_set_bitmap (b : option (list Z)) (a : inode_alloc_t) : inode_alloc_t :=
  InodeAlloc b (ia_total a) (ia_used a) (ia_first_free a) (ia_lock a).
Definition ia_set_used (n : Z) (a : inode_alloc_t) : inode_alloc_t :=
  InodeAlloc (ia_bitmap a) (ia_total a) n (ia_first_free a) (ia_lock a).
Definition ia_set_hint (n : Z) (a : inode_alloc_t) : inode_alloc_t :=
  InodeAlloc (ia_bitmap a) (ia_total a) (ia_used a) n (ia_lock a).
Definition ia_set_lock (l : spinlock) (a : inode_alloc_t) : inode_alloc_t :=
  InodeAlloc (ia_bitmap a) (ia_total a) (ia_used a) (ia_first_free a) l.

#[global] Instance inode_alloc_lock : HasLock inode_alloc_t := {
  lk_get := ia_lock;
  lk_set := ia_set_lock;
  lk_get_set _ _ := eq_refl;
  lk_set_set _ _ _ := eq_refl
}.

Section inode_alloc.
Context {E : Type} `{KernelHeap E}.
Abbreviation K := (M (kst inode_alloc_t E)).

Definition ia_bytes : K (list Z) :=
  b <- obj ia_bitmap ;;
  match b with Some b => ret b | None => throw F_null end.
Definition ia_test (i : Z) : K bool := b <- ia_bytes ;; lift (bitmap_test_bit b i).

Definition inode_alloc_init (alloc : ptr) (total_inodes : Z) : K Z :=
  match alloc with
  | PNull => ret (-EINVAL)
  | PObj =>
      if total_inodes =? 0 then ret (-EINVAL)
      else
        let bitmap_bytes := u32 (total_inodes + 7) / 8 in
        b <- env_pure (kmalloc bitmap_bytes) ;;
        upd (ia_set_bitmap b) ;;;
        match b with
        | None => ret (-ENOMEM)
        | Some b =>
            b0 <- lift (memset0 bitmap_bytes b) ;;
            upd (fun _ => InodeAlloc (Some b0) total_inodes 0 0 spinlock_init) ;;;
            ret 0
        end
  end.

Definition inode_alloc_destroy (alloc : ptr) : K unit :=
  match alloc with
  | PNull => ret tt
  | PObj =>
      b <- obj ia_bitmap ;;
      match b with
      | None => ret tt
      | Some _ => env_pure (fun e => (tt, kfree e)) ;;; upd (ia_set_bitmap None)
      end
  end.

(** One of the two loops of [inode_alloc]. *)
Definition scan_inodes (flags from to : Z) : K (unit + Z) :=
  for_range from to tt (fun ino _ =>
    t <- ia_test ino ;;
    if negb t then
      b <- ia_bytes ;;
      b' <- lift (bitmap_set_bit b ino) ;;
      upd (ia_set_bitmap (Some b')) ;;;
      upd (fun a => ia_set_used (u32 (ia_used a + 1)) a) ;;;
      upd (ia_set_hint (u32 (ino + 1))) ;;;
      unlock_obj flags ;;;
      ret (inr (u32 (ino + 1)))
    else ret (inl tt)).

Definition inode_alloc (alloc : ptr) : K Z :=
  match alloc with
  | PNull => ret 0
  | PObj =>
      flags <- lock_obj ;;
      used <- obj ia_used ;;
      total <- obj ia_total ;;
      if total <=? used then unlock_obj flags ;;; ret 0
      else
        start <- obj ia_first_free ;;
        r <- scan_inodes flags start total ;;
        match r with
        | inr ino => ret ino
        | inl _ =>
            r <- scan_inodes flags 0 start ;;
            match r with
            | inr ino => ret ino
            | inl _ => unlock_obj flags ;;; ret 0
            end
        end
  end.

Definition inode_free (alloc : ptr) (ino : Z) : K Z :=
  match alloc with
  | PNull => ret (-EINVAL)
  | PObj =>
      total <- obj ia_total ;;
      if (ino =? 0) || (total <? ino) then ret (-EINVAL)
      else
        let index := u32 (ino - 1) in
        flags <- lock_obj ;;
        t <- ia_test index ;;
        if negb t then unlock_obj flags ;;; ret (-EINVAL)
        else
          b <- ia_bytes ;;
          b' <- lift (bitmap_clear_bit b index) ;;
          upd (ia_set_bitmap (Some b')) ;;;
          upd (fun a => ia_set_used (u32 (ia_used a - 1)) a) ;;;
          hint <- obj ia_first_free ;;
          (if index <? hint then upd (ia_set_hint index) else ret tt) ;;;
          unlock_obj flags ;;;
          ret 0
  end.

Definition inode_is_allocated (alloc : ptr) (ino : Z) : K bool :=
  match alloc with
  | PNull => ret false
  | PObj =>
      total <- obj ia_total ;;
      if (ino =? 0) || (total <? ino) then ret false
      else
        let index := u32 (ino - 1) in
        flags <- lock_obj ;;
        t <- ia_test index ;;
        unlock_obj flags ;;;
        ret t
  end.

(** The values stored through the three out-pointers. *)
Definition inode_alloc_stats (alloc : ptr) : K (option (Z * Z * Z)) :=
  match alloc with
  | PNull => ret None
  | PObj =>
      flags <- lock_obj ;;
      total <- obj ia_total ;;
      used <- obj ia_used ;;
      unlock_obj flags ;;;
      ret (Some (total, used, u32 (total - used)))
  end.

(** ** Invariant and specifications *)

Record ia_inv (a : inode_alloc_t) (b : list Z) : Prop := {
  ii_total : 0 < ia_total a < 2 ^ 32 - 7;
  ii_hint : 0 <= ia_first_free a <= ia_total a;
  ii_bitmap : ia_bitmap a = Some b;
  ii_bytes : bytes_ok b;
  ii_length : ia_total a <= nbits b;
  ii_used : ia_used a = used_bits b (ia_total a)
}.

Implicit Types (s : kst inode_alloc_t E) (a : inode_alloc_t) (b : list Z).

Lemma ii_used_bounds a b : ia_inv a b -> 0 <= ia_used a <= ia_total a.
Proof. intros Hi. rewrite (ii_used _ _ Hi). apply count_bounds. pose proof (ii_total _ _ Hi). lia. Qed.

Definition taken i b hint a : inode_alloc_t :=
  ia_set_hint hint (ia_set_used (ia_used a + 1) (ia_set_bitmap (Some (set_bit b i)) a)).
Definition given i b hint a : inode_alloc_t :=
  ia_set_hint hint (ia_set_used (ia_used a - 1) (ia_set_bitmap (Some (clear_bit b i)) a)).

Lemma ia_inv_lock l a b : ia_inv a b -> ia_inv (ia_set_lock l a) b.
Proof. intros []. by split. Qed.

Lemma ia_inv_taken a b i hint :
  ia_inv a b -> 0 <= i < ia_total a -> bit b i = false -> 0 <= hint <= ia_total a ->
  ia_inv (taken i b hint a) (set_bit b i).
Proof.
  intros [] Hi Hb Hh. split; simpl; try done.
  - by apply bytes_ok_set_bit.
  - by rewrite nbits_set_bit.
  - rewrite used_bits_set; [lia|done|done|done].
Qed.

Lemma ia_inv_given a b i hint :
  ia_inv a b -> 0 <= i < ia_total a -> bit b i = true -> 0 <= hint <= ia_total a ->
  ia_inv (given i b hint a) (clear_bit b i).
Proof.
  intros [] Hi Hb Hh. split; simpl; try done.
  - by apply bytes_ok_clear_bit.
  - by rewrite nbits_clear_bit.
  - rewrite used_bits_clear; [lia|done|done|done].
Qed.

Lemma wp_ia_bytes_in (Q : list Z -> kst inode_alloc_t E -> Prop) s a b :
  ia_bitmap a = Some b -> Q b (inside s a) -> wp ia_bytes Q (inside s a).
Proof. intros Hb HQ. unfold ia_bytes. ba_steps. by rewrite Hb. Qed.

Lemma wp_ia_test_in (Q : bool -> kst inode_alloc_t E -> Prop) s a b i :
  ia_bitmap a = Some b -> 0 <= i < nbits b -> Q (bit b i) (inside s a) ->
  wp (ia_test i) Q (inside s a).
Proof.
  intros Hb Hi HQ. unfold ia_test. ba_step. apply (wp_ia_bytes_in _ s a b); [done|].
  eapply wp_lift; [by apply bitmap_test_bit_ok|done].
Qed.

Lemma wp_scan_inodes (Q : unit + Z -> kst inode_alloc_t E -> Prop) s a b from to :
  ia_inv a b -> 0 <= from -> to <= ia_total a ->
  match first_clear (bit b) from to with
  | Some i => Q (inr (i + 1)) (outside s (taken i b (i + 1) a))
  | None => Q (inl tt) (inside s a)
  end -> wp (scan_inodes (k_flags s) from to) Q (inside s a).
Proof.
  intros Hi Hf Ht HQ. unfold scan_inodes. pose proof (ii_length _ _ Hi).
  pose proof (ii_total _ _ Hi). pose proof (ii_used_bounds _ _ Hi). eapply wp_mono.
  - apply (wp_for_range
      (fun i _ s' => s' = inside s a /\ forall q, from <= q < i -> bit b q = true)
      (fun r s' => exists i, r = i + 1 /\ s' = outside s (taken i b (i + 1) a) /\
         first_clear (bit b) from to = Some i)).
    + split; [done|lia].
    + intros i [] ? Hr (-> & Hq). ba_step.
      apply (wp_ia_test_in _ s a b); [apply Hi|lia|].
      destruct (bit b i) eqn:Eb; simpl.
      * ba_step. split; [done|]. intros q Hq'. destruct (decide (q = i)) as [->|]; [done|].
        apply Hq. lia.
      * pose proof (used_lt b (ia_total a) i ltac:(lia) Eb) as Hu.
        rewrite <- (ii_used _ _ Hi) in Hu.
        ba_step. apply (wp_ia_bytes_in _ s a b); [apply Hi|]. ba_step.
        eapply wp_lift; [apply bitmap_set_bit_ok; lia|]. ba_steps.
        cbn [ia_used ia_set_bitmap]. rewrite !u32_id by lia.
        exists i. split_and!; [done|done|]. apply first_clear_Some. auto.
  - intros [[]|r] s'.
    + intros [-> Hq]. by rewrite (proj2 (first_clear_None _ _ _)) in HQ
        by (intros q Hq'; apply Hq; lia).
    + intros (i & -> & -> & Hs). by rewrite Hs in HQ.
Qed.

Definition next_inode a b : option Z :=
  if ia_total a <=? ia_used a then None
  else match first_clear (bit b) (ia_first_free a) (ia_total a) with
       | Some i => Some i
       | None => first_clear (bit b) 0 (ia_first_free a)
       end.

Lemma wp_inode_alloc (Q : Z -> kst inode_alloc_t E -> Prop) s b :
  ia_inv (k_obj s) b -> obj_idle s ->
  match next_inode (k_obj s) b with
  | Some i => Q (i + 1) (outside s (taken i b (i + 1) (k_obj s)))
  | None => Q 0 (outside s (k_obj s))
  end -> wp (inode_alloc PObj) Q s.
Proof.
  intros Hi Hidle HQ. unfold inode_alloc, next_inode in *. ba_step.
  apply wp_lock_obj; [done|]. set (a := k_obj s) in *. ba_steps.
  destruct (_ <=? _); [by ba_steps|]. pose proof (ii_hint _ _ Hi). ba_steps.
  apply (wp_scan_inodes _ s a b); [done|lia|lia|].
  destruct (first_clear (bit b) (ia_first_free a) _); [by ba_steps|]. ba_steps.
  apply (wp_scan_inodes _ s a b); [done|lia|lia|].
  destruct (first_clear (bit b) 0 _); by ba_steps.
Qed.

Lemma wp_inode_free (Q : Z -> kst inode_alloc_t E -> Prop) s b ino :
  ia_inv (k_obj s) b -> obj_idle s -> 0 <= ino ->
  (if (ino =? 0) || (ia_total (k_obj s) <? ino) then Q (-EINVAL) s
   else if bit b (ino - 1)
   then Q 0 (outside s (given (ino - 1) b
          (if ino - 1 <? ia_first_free (k_obj s) then ino - 1 else ia_first_free (k_obj s))
          (k_obj s)))
   else Q (-EINVAL) (outside s (k_obj s))) ->
  wp (inode_free PObj ino) Q s.
Proof.
  intros Hi Hidle H0 HQ. unfold inode_free. ba_steps. set (a := k_obj s) in *.
  pose proof (ii_length _ _ Hi). pose proof (ii_total _ _ Hi).
  destruct (Z.eqb_spec ino 0); [cbn [orb] in *; by ba_step|].
  destruct (Z.ltb_spec (ia_total a) ino); [cbn [orb] in *; by ba_step|].
  cbn [orb] in *. rewrite u32_id by lia. ba_step. apply wp_lock_obj; [done|]. ba_step.
  apply (wp_ia_test_in _ s a b); [apply Hi|lia|].
  destruct (bit b (ino - 1)) eqn:Eb; cbn [negb]; [|by ba_steps].
  pose proof (used_pos b (ia_total a) (ino - 1) ltac:(lia) Eb) as Hu.
  rewrite <- (ii_used _ _ Hi) in Hu. pose proof (ii_used_bounds _ _ Hi).
  ba_step. apply (wp_ia_bytes_in _ s a b); [apply Hi|]. ba_step.
  eapply wp_lift; [apply bitmap_clear_bit_ok; lia|]. ba_steps.
  cbn [ia_used ia_set_bitmap ia_first_free ia_set_used]. rewrite u32_id by lia.
  destruct (ino - 1 <? ia_first_free a); by ba_steps.
Qed.

Lemma wp_inode_is_allocated (Q : bool -> kst inode_alloc_t E -> Prop) s b ino :
  ia_inv (k_obj s) b -> obj_idle s -> 0 <= ino ->
  (if (ino =? 0) || (ia_total (k_obj s) <? ino) then Q false s
   else Q (bit b (ino - 1)) (outside s (k_obj s))) ->
  wp (inode_is_allocated PObj ino) Q s.
Proof.
  intros Hi Hidle H0 HQ. unfold inode_is_allocated. ba_steps.
  pose proof (ii_length _ _ Hi). pose proof (ii_total _ _ Hi).
  destruct (Z.eqb_spec ino 0); [cbn [orb] in *; by ba_step|].
  destruct (Z.ltb_spec (ia_total (k_obj s)) ino); [cbn [orb] in *; by ba_step|].
  cbn [orb] in *. rewrite u32_id by lia. ba_step. apply wp_lock_obj; [done|]. ba_step.
  apply (wp_ia_test_in _ s (k_obj s) b); [apply Hi|lia|]. by ba_steps.
Qed.
End inode_alloc.

(** ** Refinement of a set of inode numbers *)

Definition used_set (total : Z) (b : list Z) : gset Z :=
  list_to_set (filter (fun n => bit b (n - 1) = true) (seqZ 1 total)).

Lemma elem_of_used_set total b n :
  n ∈ used_set total b <-> 1 <= n <= total /\ bit b (n - 1) = true.
Proof.
  unfold used_set. rewrite elem_of_list_to_set, list_elem_of_filter, elem_of_seqZ.
  split; intros [? ?]; split; done || lia.
Qed.

Inductive icall := IAlloc | IFree (ino : Z).

Definition istep (total : Z) (U : gset Z) (c : icall) (r : Z) (U' : gset Z) : Prop :=
  match c with
  | IAlloc =>
      (r = 0 /\ (forall n, 1 <= n <= total -> n ∈ U) /\ U' = U) \/
      (1 <= r <= total /\ r ∉ U /\ U' = U ∪ {[r]})
  | IFree ino =>
      (ino ∈ U /\ r = 0 /\ U' = U ∖ {[ino]}) \/ (ino ∉ U /\ r = -EINVAL /\ U' = U)
  end.

Inductive isteps (total : Z) : gset Z -> list icall -> list Z -> gset Z -> Prop :=
  | isteps_nil U : isteps total U [] [] U
  | isteps_cons U c r U1 cs rs U2 :
      istep total U c r U1 -> isteps total U1 cs rs U2 ->
      isteps total U (c :: cs) (r :: rs) U2.

Section refinement.
Context {E : Type} `{KernelHeap E}.
Implicit Types (s : kst inode_alloc_t E) (a : inode_alloc_t) (b : list Z).

Definition run_icall (c : icall) : M (kst inode_alloc_t E) Z :=
  match c with
  | IAlloc => inode_alloc PObj
  | IFree ino => inode_free PObj ino
  end.

Fixpoint run_icalls (cs : list icall) : M (kst inode_alloc_t E) (list Z) :=
  match cs with
  | [] => ret []
  | c :: cs => r <- run_icall c ;; rs <- run_icalls cs ;; ret (r :: rs)
  end.

Definition icall_ok (c : icall) : Prop :=
  match c with IAlloc => True | IFree ino => 0 <= ino < 2 ^ 64 end.

Lemma next_inode_Some a b i :
  ia_inv a b -> next_inode a b = Some i -> 0 <= i < ia_total a /\ bit b i = false.
Proof.
  intros Hi Hn. pose proof (ii_hint _ _ Hi). unfold next_inode in Hn.
  destruct (_ <=? _); [done|]. destruct (first_clear _ (ia_first_free a) _) eqn:Hf.
  - simplify_eq. apply first_clear_Some in Hf. split; [lia|apply Hf].
  - apply first_clear_Some in Hn. split; [lia|apply Hn].
Qed.

Lemma next_inode_None a b :
  ia_inv a b -> next_inode a b = None -> forall i, 0 <= i < ia_total a -> bit b i = true.
Proof.
  intros Hi Hn i Hr. destruct (bit b i) eqn:Hb; [done|]. exfalso. unfold next_inode in Hn.
  destruct (Z.leb_spec (ia_total a) (ia_used a)) as [Hle|Hgt].
  - pose proof (used_lt _ _ _ Hr Hb). rewrite (ii_used _ _ Hi) in Hle. lia.
  - destruct (first_clear _ (ia_first_free a) _) eqn:Hf; [done|].
    rewrite first_clear_None in Hf, Hn.
    destruct (decide (ia_first_free a <= i)); [by rewrite Hf in Hb by lia|].
    by rewrite Hn in Hb by lia.
Qed.

Lemma used_set_taken total b i :
  total <= nbits b -> 0 <= i < total ->
  used_set total (set_bit b i) = used_set total b ∪ {[i + 1]}.
Proof.
  intros Hn Hi. apply set_eq. intros n.
  rewrite elem_of_union, elem_of_singleton, !elem_of_used_set. split.
  - intros [Hr Hb]. rewrite bit_set_bit in Hb by lia.
    destruct (Z.eqb_spec (n - 1) i); [right; lia|auto].
  - intros [[Hr Hb]|Heq].
    + split; [done|]. rewrite bit_set_bit, Hb by lia. by destruct (_ =? _).
    + split; [lia|]. rewrite bit_set_bit, (proj2 (Z.eqb_eq (n - 1) i)) by lia. done.
Qed.

Lemma used_set_given total b i :
  total <= nbits b -> 0 <= i < total ->
  used_set total (clear_bit b i) = used_set total b ∖ {[i + 1]}.
Proof.
  intros Hn Hi. apply set_eq. intros n.
  rewrite elem_of_difference, elem_of_singleton, !elem_of_used_set. split.
  - intros [Hr Hb]. rewrite bit_clear_bit in Hb by lia.
    destruct (Z.eqb_spec (n - 1) i); [done|]. split; [auto|lia].
  - intros [[Hr Hb] Hne]. split; [done|].
    rewrite bit_clear_bit, (proj2 (Z.eqb_neq (n - 1) i)) by lia. done.
Qed.

Record ia_valid (total : Z) s b : Prop := {
  iv_inv : ia_inv (k_obj s) b;
  iv_idle : obj_idle s;
  iv_total : ia_total (k_obj s) = total
}.

Lemma run_icall_sim total s b c :
  ia_valid total s b -> icall_ok c ->
  wp (run_icall c) (fun r s' => k_flags s' = k_flags s /\
    exists b', ia_valid total s' b' /\ istep total (used_set total b) c r (used_set total b')) s.
Proof.
  intros [Hi Hidle Ht] Hc. subst total. pose proof (ii_length _ _ Hi). destruct c as [|ino]; simpl.
  - apply (wp_inode_alloc _ _ b); [done|done|].
    destruct (next_inode (k_obj s) b) as [i|] eqn:Hn; (split; [done|]).
    + destruct (next_inode_Some _ _ _ Hi Hn) as [Hr Hb]. exists (set_bit b i). split.
      * split; [|done|done]. apply ia_inv_lock, ia_inv_taken; done || lia.
      * right. rewrite elem_of_used_set, used_set_taken by lia.
        replace (i + 1 - 1) with i by lia. rewrite Hb. split_and!; [lia|lia|naive_solver|done].
    + exists b. split; [split; [by apply ia_inv_lock|done|done]|]. left.
      split_and!; [done| |done]. intros n Hr. apply elem_of_used_set. split; [done|].
      apply (next_inode_None _ _ Hi Hn). lia.
  - simpl in Hc. apply (wp_inode_free _ _ b); [done|done|lia|].
    destruct (Z.eqb_spec ino 0) as [->|Hne]; cbn [orb].
    { split; [done|]. exists b. split; [by split|]. right. rewrite elem_of_used_set.
      split_and!; [lia|done|done]. }
    destruct (Z.ltb_spec (ia_total (k_obj s)) ino).
    { split; [done|]. exists b. split; [by split|]. right. rewrite elem_of_used_set.
      split_and!; [lia|done|done]. }
    destruct (bit b (ino - 1)) eqn:Eb; (split; [done|]).
    + exists (clear_bit b (ino - 1)). split.
      * split; [|done|done]. pose proof (ii_hint _ _ Hi). apply ia_inv_lock, ia_inv_given;
          [done|lia|done|]. destruct (Z.ltb_spec (ino - 1) (ia_first_free (k_obj s))); lia.
      * left. rewrite elem_of_used_set, used_set_given by lia.
        replace (ino - 1 + 1) with ino by lia. split_and!; [lia|lia|done|done|done].
    + exists b. split; [split; [by apply ia_inv_lock|done|done]|]. right.
      rewrite elem_of_used_set, Eb. split_and!; [naive_solver|done|done].
Qed.

Lemma run_icalls_sim total cs s b :
  ia_valid total s b -> Forall icall_ok cs ->
  wp (run_icalls cs) (fun rs s' => k_flags s' = k_flags s /\
    exists b', ia_valid total s' b' /\
      isteps total (used_set total b) cs rs (used_set total b')) s.
Proof.
  intros Hv Hcs. revert s b Hv. induction Hcs as [|c cs Hc Hcs IH]; intros s b Hv; simpl.
  - wp_step. split; [done|]. exists b. split; [done|constructor].
  - wp_step. wp_use run_icall_sim; [done|done|]. intros r s1 (Hk & b1 & Hv1 & Hs).
    wp_step. wp_use IH; [done|]. intros rs s2 (Hk2 & b2 & Hv2 & Hss). wp_step.
    split; [congruence|]. exists b2. split; [done|]. by econstructor.
Qed.

(** C15: the inode allocator refines the set of inode numbers in use: any
    sequence of [inode_alloc] and [inode_free] returns without a fault and
    with the interrupt flags restored; an allocation returns a number from 1
    to the total that was not in use, or 0 only when all are; a release
    succeeds exactly for a number in use; and [inode_is_allocated] then tells
    membership, for every 64-bit argument. *)
Theorem inode_calls_refine_number_set total cs s b :
  ia_valid total s b -> Forall icall_ok cs ->
  exists rs s' U', run_icalls cs s = Ok (rs, s') /\ k_flags s' = k_flags s /\
    isteps total (used_set total b) cs rs U' /\
    forall ino, 0 <= ino < 2 ^ 64 ->
      exists s'', inode_is_allocated PObj ino s' = Ok (bool_decide (ino ∈ U'), s'').
Proof.
  intros Hv Hcs. pose proof (run_icalls_sim total cs s b Hv Hcs) as Hw.
  apply wp_run in Hw as (rs & s' & Hrun & Hk & b' & [Hi Hidle Ht] & Hs).
  exists rs, s', (used_set total b'). split_and!; [done..|]. intros ino Hr.
  assert (Hw : wp (inode_is_allocated PObj ino)
    (fun r _ => r = bool_decide (ino ∈ used_set total b')) s').
  { apply (wp_inode_is_allocated _ _ b'); [done|done|lia|]. rewrite Ht.
    destruct (Z.eqb_spec ino 0) as [->|]; cbn [orb];
      [|destruct (Z.ltb_spec total ino)]; symmetry.
    - apply bool_decide_eq_false. rewrite elem_of_used_set. lia.
    - apply bool_decide_eq_false. rewrite elem_of_used_set. lia.
    - destruct (bit b' (ino - 1)) eqn:Eb.
      + apply bool_decide_eq_true, elem_of_used_set. split; [lia|done].
      + apply bool_decide_eq_false. rewrite elem_of_used_set, Eb. naive_solver. }
  apply wp_run in Hw as (r & s'' & Hr' & ->). by exists s''.
Qed.
End refinement.

Definition demo_ia : kst inode_alloc_t ramdev :=
  Kst 0x202 ∅ 0 0 spinlock_init (InodeAlloc (Some [5; 0]) 12 2 1 spinlock_init) (RamDev ∅ 4096).

Lemma demo_ia_valid : ia_valid 12 demo_ia [5; 0].
Proof.
  split; [split; simpl; try done; try lia|done|done].
  repeat constructor; unfold byte_ok; lia.
Qed.

Lemma inode_calls_refine_number_set_witness :
  exists rs s' U', run_icalls [IAlloc; IFree 3; IAlloc; IFree 9] demo_ia = Ok (rs, s') /\
    k_flags s' = 0x202 /\
    isteps 12 (used_set 12 [5; 0]) [IAlloc; IFree 3; IAlloc; IFree 9] rs U' /\
    forall ino, 0 <= ino < 2 ^ 64 ->
      exists s'', inode_is_allocated PObj ino s' = Ok (bool_decide (ino ∈ U'), s'').
Proof.
  apply (inode_calls_refine_number_set 12 [IAlloc; IFree 3; IAlloc; IFree 9] demo_ia [5; 0]).
  - apply demo_ia_valid.
  - repeat constructor; simpl; lia.
Defined.

Example inode_calls_run :
  exists s', run_icalls [IAlloc; IFree 3; IAlloc; IFree 9] demo_ia = Ok ([2; 0; 3; -EINVAL], s').
Proof. eexists. vm_compute. reflexivity. Qed.
