(* ===== verification/InodeCache.v ===== *)
(** * The inode cache ([sys/src/libfs/inode.c], second part)

    In-memory inodes live in a heap of objects named by their address
    ([ic_heap]); the cache is a table of 256 singly linked chains through
    [i_next].  Loops over a chain take as fuel one more than the number of
    objects; the specifications show that it is always enough. *)

From stdpp Require Import base numbers list gmap strings.
From S2P Require Import Prelude Spinlock Kernel VfsFile.

Definition INODE_FLAG_DIRTY : Z := 0x0001.
Definition INODE_FLAG_VALID : Z := 0x0004.
Definition INODE_HASH_SIZE : Z := 256.
Definition INODE_DIRECT_BLOCKS : Z := 12.
Definition sizeof_inode : Z := 208.

Record disk_inode := DiskInode {
  di_mode : Z; di_nlink : Z; di_uid : Z; di_gid : Z;
  di_size : Z; di_atime : Z; di_mtime : Z; di_ctime : Z;
  di_blocks : Z; di_flags : Z;
  di_block : list Z;
  di_indirect : Z; di_dindirect : Z; di_tindirect : Z;
  di_generation : Z
}.

Definition zero_disk_inode : disk_inode :=
  DiskInode 0 0 0 0 0 0 0 0 0 0 (replicate 12 0) 0 0 0 0.

Record inode := Inode {
  i_ino : Z;
  i_refcount : Z;
  i_flags : Z;
  i_disk : disk_inode;
  i_vnode : Z;
  i_mount : Z;
  i_lock : spinlock;
  i_next : Z
}.

Definition inode0 : inode := Inode 0 0 0 zero_disk_inode 0 0 spinlock_init 0.
Definition i_set_refcount (n : Z) (i : inode) : inode :=
  Inode (i_ino i) n (i_flags i) (i_disk i) (i_vnode i) (i_mount i) (i_lock i) (i_next i).
Definition i_set_flags (f : Z) (i : inode) : inode :=
  Inode (i_ino i) (i_refcount i) f (i_disk i) (i_vnode i) (i_mount i) (i_lock i) (i_next i).
Definition i_set_disk (d : disk_inode) (i : inode) : inode :=
  Inode (i_ino i) (i_refcount i) (i_flags i) d (i_vnode i) (i_mount i) (i_lock i) (i_next i).
Definition i_set_lock (l : spinlock) (i : inode) : inode :=
  Inode (i_ino i) (i_refcount i) (i_flags i) (i_disk i) (i_vnode i) (i_mount i) l (i_next i).
Definition i_set_next (n : Z) (i : inode) : inode :=
  Inode (i_ino i) (i_refcount i) (i_flags i) (i_disk i) (i_vnode i) (i_mount i) (i_lock i) n.

Record icache := ICache {
  ic_heap : gmap Z inode;
  ic_hash : list Z;
  ic_lock : spinlock
}.

Definition ic_set_heap (m : gmap Z inode) (c : icache) : icache :=
  ICache m (ic_hash c) (ic_lock c).
Definition ic_set_hash (h : list Z) (c : icache) : icache :=
  ICache (ic_heap c) h (ic_lock c).
Definition ic_set_lock (l : spinlock) (c : icache) : icache :=
  ICache (ic_heap c) (ic_hash c) l.

(** [inode_hash_lock]. *)
#[global] Instance icache_lock : HasLock icache := {
  lk_get := ic_lock;
  lk_set := ic_set_lock;
  lk_get_set _ _ := eq_refl;
  lk_set_set _ _ _ := eq_refl
}.

Definition inode_hash_func (ino : Z) : Z := ino mod INODE_HASH_SIZE.

(** The address of a chain pointer: a table slot or the [i_next] of an inode. *)
Inductive cell := Head (h : Z) | NextOf (p : Z).

Section inode_cache.
Context {E : Type} `{KernelHeap E}.
Abbreviation K := (M (kst icache E)).

Definition inode_at (p : Z) (s : kst icache E) : inode :=
  default inode0 (ic_heap (k_obj s) !! p).
Definition put_inode (p : Z) (i : inode) (c : icache) : icache :=
  ic_set_heap (<[p := i]> (ic_heap c)) c.

Program Definition inode_lock (p : Z) : lockref (kst icache E) := {|
  lget s := i_lock (inode_at p s);
  lset l s := set_obj (put_inode p (i_set_lock l (inode_at p s)) (k_obj s)) s
|}.
Next Obligation. intros. unfold inode_at. simpl. by rewrite lookup_insert_eq. Qed.
Next Obligation.
  intros. unfold set_obj, inode_at, put_inode, ic_set_heap. simpl.
  by rewrite lookup_insert_eq, insert_insert_eq.
Qed.
Next Obligation. done. Qed.
Next Obligation. done. Qed.
Next Obligation. done. Qed.

Definition the_inode (p : Z) : K inode :=
  m <- obj ic_heap ;;
  match m !! p with Some i => ret i | None => throw F_null end.
Definition upd_inode (p : Z) (g : inode -> inode) : K unit :=
  i <- the_inode p ;; upd (put_inode p (g i)).

Definition read_cell (c : cell) : K Z :=
  match c with
  | Head h => t <- obj ic_hash ;; lift (aread t h)
  | NextOf p => i <- the_inode p ;; ret (i_next i)
  end.
Definition write_cell (c : cell) (v : Z) : K unit :=
  match c with
  | Head h => t <- obj ic_hash ;; t' <- lift (awrite t h v) ;; upd (ic_set_hash t')
  | NextOf p => upd_inode p (i_set_next v)
  end.

Definition chain_fuel : K nat := obj (fun c => S (size (ic_heap c))).

Definition inode_cache_init : K Z :=
  upd (ic_set_hash (replicate (Z.to_nat INODE_HASH_SIZE) NULL)) ;;; ret 0.

Definition inode_alloc_mem (mnt ino : Z) : K Z :=
  b <- env_pure (kmalloc sizeof_inode) ;;
  match b with
  | None => ret NULL
  | Some _ =>
      p <- obj (fun c => fresh_addr (ic_heap c)) ;;
      upd (put_inode p (Inode ino 1 INODE_FLAG_VALID zero_disk_inode 0 mnt spinlock_init 0)) ;;;
      let hash := inode_hash_func ino in
      flags <- lock_obj ;;
      head <- read_cell (Head hash) ;;
      upd_inode p (i_set_next head) ;;;
      write_cell (Head hash) p ;;;
      unlock_obj flags ;;;
      ret p
  end.

(** The loop of [inode_free_mem]. *)
Fixpoint unlink (fuel : nat) (current : cell) (target : Z) : K unit :=
  match fuel with
  | O => throw F_fuel
  | S fuel =>
      v <- read_cell current ;;
      if v =? NULL then ret tt
      else if v =? target then
        i <- the_inode target ;; write_cell current (i_next i)
      else unlink fuel (NextOf v) target
  end.

Definition inode_free_mem (p : Z) : K unit :=
  if p =? NULL then ret tt
  else
    i <- the_inode p ;;
    let hash := inode_hash_func (i_ino i) in
    flags <- lock_obj ;;
    fuel <- chain_fuel ;;
    unlink fuel (Head hash) p ;;;
    unlock_obj flags ;;;
    upd (fun c => ic_set_heap (delete p (ic_heap c)) c) ;;;
    env_pure (fun e => (tt, kfree e)).

(** The search loop of [inode_get]: the inode found, or null. *)
Fixpoint find_cached (fuel : nat) (p mnt ino : Z) : K Z :=
  match fuel with
  | O => throw F_fuel
  | S fuel =>
      if p =? NULL then ret NULL
      else
        i <- the_inode p ;;
        if (i_ino i =? ino) && (i_mount i =? mnt) then ret p
        else find_cached fuel (i_next i) mnt ino
  end.

(** The reference taken on a cached inode, under its own lock. *)
Definition take_ref (p : Z) : K unit :=
  spinlock_acquire (inode_lock p) ;;;
  upd_inode p (fun i => i_set_refcount (u32 (i_refcount i + 1)) i) ;;;
  spinlock_release (inode_lock p).

(** The result pointer comes back with the return value. *)
Definition inode_get (mnt ino : Z) : K (Z * Z) :=
  if (mnt =? NULL) || (ino =? 0) then ret (-EINVAL, NULL)
  else
    let hash := inode_hash_func ino in
    flags <- lock_obj ;;
    fuel <- chain_fuel ;;
    head <- read_cell (Head hash) ;;
    p <- find_cached fuel head mnt ino ;;
    if negb (p =? NULL) then
      take_ref p ;;;
      unlock_obj flags ;;;
      ret (0, p)
    else
      unlock_obj flags ;;;
      p <- inode_alloc_mem mnt ino ;;
      if p =? NULL then ret (-ENOMEM, NULL) else ret (0, p).

(** A field update under the inode's own lock. *)
Definition locked_upd (p : Z) (g : inode -> inode) : K unit :=
  flags <- spinlock_acquire_irqsave (inode_lock p) ;;
  upd_inode p g ;;;
  spinlock_release_irqrestore (inode_lock p) flags.

Definition inode_ref (p : Z) : K unit :=
  if p =? NULL then ret tt
  else locked_upd p (fun i => i_set_refcount (u32 (i_refcount i + 1)) i).

Definition inode_mark_dirty (p : Z) : K unit :=
  if p =? NULL then ret tt
  else locked_upd p (fun i => i_set_flags (Z.lor (i_flags i) INODE_FLAG_DIRTY) i).

Definition inode_sync (p : Z) : K Z :=
  if p =? NULL then ret (-EINVAL)
  else
    flags <- spinlock_acquire_irqsave (inode_lock p) ;;
    i <- the_inode p ;;
    if negb (has_flag (i_flags i) INODE_FLAG_DIRTY) then
      spinlock_release_irqrestore (inode_lock p) flags ;;; ret 0
    else
      upd_inode p (fun i => i_set_flags (Z.ldiff (i_flags i) INODE_FLAG_DIRTY) i) ;;;
      spinlock_release_irqrestore (inode_lock p) flags ;;;
      ret 0.

Definition inode_put (p : Z) : K unit :=
  if p =? NULL then ret tt
  else
    flags <- spinlock_acquire_irqsave (inode_lock p) ;;
    i <- the_inode p ;;
    if 0 <? i_refcount i then
      upd_inode p (fun i => i_set_refcount (u32 (i_refcount i - 1)) i) ;;;
      i <- the_inode p ;;
      if i_refcount i =? 0 then
        flags <- (
          if has_flag (i_flags i) INODE_FLAG_DIRTY then
            spinlock_release_irqrestore (inode_lock p) flags ;;;
            inode_sync p ;;;
            spinlock_acquire_irqsave (inode_lock p)
          else ret flags) ;;
        spinlock_release_irqrestore (inode_lock p) flags ;;;
        inode_free_mem p
      else spinlock_release_irqrestore (inode_lock p) flags
    else spinlock_release_irqrestore (inode_lock p) flags.

(** The inner loop of [inode_sync_all], from inode [p] on; the flags of the
    last acquisition of [inode_hash_lock] come back. *)
Fixpoint sync_chain (fuel : nat) (p flags : Z) : K Z :=
  match fuel with
  | O => throw F_fuel
  | S fuel =>
      if p =? NULL then ret flags
      else
        i <- the_inode p ;;
        flags <- (
          if has_flag (i_flags i) INODE_FLAG_DIRTY then
            inode_ref p ;;;
            unlock_obj flags ;;;
            inode_sync p ;;;
            flags <- lock_obj ;;
            inode_put p ;;;
            ret flags
          else ret flags) ;;
        i <- the_inode p ;;
        sync_chain fuel (i_next i) flags
  end.

Definition inode_sync_all : K Z :=
  flags <- lock_obj ;;
  flags <- for_each 0 INODE_HASH_SIZE flags (fun h flags =>
    fuel <- chain_fuel ;;
    p <- read_cell (Head h) ;;
    sync_chain fuel p flags) ;;
  unlock_obj flags ;;;
  ret 0.
End inode_cache.
