(* ===== verification/InodeCacheSpec.v ===== *)
(** * The inode cache: theorems

    The table of chains refines a map from (mount, inode number) to an
    in-memory inode and its number of references. *)

From stdpp Require Import base numbers list gmap strings.
From S2P Require Import Prelude Spinlock Kernel VfsFile VfsFileSpec VfsFileFacts BlkAllocFacts.
From S2P Require Import InodeCache.

(** ** Chains *)

Fixpoint chain (m : gmap Z inode) (head : Z) (l : list Z) : Prop :=
  match l with
  | [] => head = NULL
  | p :: l => head = p /\ p <> NULL /\ exists i, m !! p = Some i /\ chain m (i_next i) l
  end.

Lemma chain_ext m m' head l :
  chain m head l ->
  (forall p, p ∈ l -> i_next <$> m' !! p = i_next <$> m !! p) -> chain m' head l.
Proof.
  revert head. induction l as [|p l IH]; intros head; simpl; [done|].
  intros (-> & Hp & i & Hi & Hc) Heq. pose proof (Heq p ltac:(left)) as Hp'.
  rewrite Hi in Hp'. destruct (m' !! p) as [i'|] eqn:Hi'; simpl in Hp'; [|done].
  simplify_eq. split_and!; [done|done|]. exists i'. split; [done|].
  rewrite Hp'. apply IH; [done|]. intros q Hq. apply Heq. by right.
Qed.

Lemma chain_insert_other m p i head l :
  p ∉ l -> chain m head l -> chain (<[p := i]> m) head l.
Proof.
  intros Hp Hc. eapply chain_ext; [done|]. intros q Hq. by rewrite lookup_insert_ne by set_solver.
Qed.

Lemma chain_delete_other m p head l : p ∉ l -> chain m head l -> chain (delete p m) head l.
Proof.
  intros Hp Hc. eapply chain_ext; [done|]. intros q Hq. by rewrite lookup_delete_ne by set_solver.
Qed.

Lemma chain_update m p i i' head l :
  m !! p = Some i -> i_next i' = i_next i -> chain m head l -> chain (<[p := i']> m) head l.
Proof.
  intros Hi Hn Hc. eapply chain_ext; [done|]. intros q Hq. rewrite lookup_insert.
  case_decide; [|done]. subst. rewrite Hi. simpl. by rewrite Hn.
Qed.

Lemma chain_in m head l p : chain m head l -> p ∈ l -> is_Some (m !! p) /\ p <> NULL.
Proof.
  revert head. induction l as [|q l IH]; intros head; simpl; [set_solver|].
  intros (-> & Hq & i & Hi & Hc) [->|Hin]%elem_of_cons; [by eauto|by eapply IH].
Qed.

Lemma chain_length m head l :
  chain m head l -> NoDup l -> (length l <= size m)%nat.
Proof.
  intros Hc Hn. rewrite <- size_dom, <- (size_list_to_set (C := gset Z) l Hn).
  apply subseteq_size. intros p Hp%elem_of_list_to_set.
  by apply elem_of_dom, (chain_in _ _ _ _ Hc Hp).
Qed.

(** ** The invariant *)

Record node_ok (i : inode) : Prop := {
  nd_refs : 0 < i_refcount i < 2 ^ 32;
  nd_idle : sl_locked (i_lock i) = 0;
  nd_ino : 0 < i_ino i < 2 ^ 64
}.

Record ic_ok (c : icache) (ch : Z -> list Z) : Prop := {
  ok_hash : length (ic_hash c) = 256%nat;
  ok_chain h : 0 <= h < 256 -> exists head, ic_hash c !! Z.to_nat h = Some head /\
    chain (ic_heap c) head (ch h) /\ NoDup (ch h) /\
    forall p, p ∈ ch h -> exists i, ic_heap c !! p = Some i /\ inode_hash_func (i_ino i) = h;
  ok_node p i : ic_heap c !! p = Some i ->
    p ∈ ch (inode_hash_func (i_ino i)) /\ node_ok i;
  ok_unique p q i j : ic_heap c !! p = Some i -> ic_heap c !! q = Some j ->
    i_ino i = i_ino j -> i_mount i = i_mount j -> p = q
}.

Lemma hash_range ino : 0 <= inode_hash_func ino < 256.
Proof. unfold inode_hash_func, INODE_HASH_SIZE. apply Z.mod_pos_bound. lia. Qed.

Lemma ok_ptr c ch p i : ic_ok c ch -> ic_heap c !! p = Some i -> p <> NULL.
Proof.
  intros Hok Hp. destruct (ok_node _ _ Hok _ _ Hp) as [Hin _].
  destruct (ok_chain _ _ Hok _ (hash_range (i_ino i))) as (head & _ & Hc & _).
  by apply (chain_in _ _ _ _ Hc Hin).
Qed.

Section specs.
Context {E : Type} `{KernelHeap E}.
Implicit Types (s : kst icache E) (c : icache).

(** ** Symbolic steps inside the table's critical section *)

Lemma wp_the_inode_in (Q : inode -> kst icache E -> Prop) s c p i :
  ic_heap c !! p = Some i -> Q i (inside s c) -> wp (the_inode p) Q (inside s c).
Proof. intros Hi HQ. unfold the_inode. ba_steps. rewrite Hi. by ba_step. Qed.

Lemma wp_upd_inode_in (Q : unit -> kst icache E -> Prop) s c p i g :
  ic_heap c !! p = Some i -> Q tt (inside s (put_inode p (g i) c)) ->
  wp (upd_inode p g) Q (inside s c).
Proof.
  intros Hi HQ. unfold upd_inode. ba_step. eapply wp_the_inode_in; [done|]. by ba_step.
Qed.

Lemma wp_read_head_in (Q : Z -> kst icache E -> Prop) s c h v :
  0 <= h -> ic_hash c !! Z.to_nat h = Some v -> Q v (inside s c) ->
  wp (read_cell (Head h)) Q (inside s c).
Proof.
  intros Hh Hv HQ. simpl. ba_steps. eapply wp_lift; [|done].
  unfold aread. rewrite decide_True by done. by rewrite Hv.
Qed.

Lemma wp_write_head_in (Q : unit -> kst icache E -> Prop) s c h v :
  0 <= h < Z.of_nat (length (ic_hash c)) ->
  Q tt (inside s (ic_set_hash (<[Z.to_nat h := v]> (ic_hash c)) c)) ->
  wp (write_cell (Head h) v) Q (inside s c).
Proof.
  intros Hh HQ. simpl. ba_steps. eapply wp_lift; [unfold awrite; by rewrite decide_True|].
  by ba_step.
Qed.

(** The search finds the inode of the chain with the wanted identity. *)
Lemma wp_find_cached (Q : Z -> kst icache E -> Prop) fuel s c mnt ino head l :
  chain (ic_heap c) head l -> (length l < fuel)%nat ->
  (forall p i, p ∈ l -> ic_heap c !! p = Some i -> i_ino i = ino -> i_mount i = mnt ->
     Q p (inside s c)) ->
  ((forall p i, p ∈ l -> ic_heap c !! p = Some i -> ~ (i_ino i = ino /\ i_mount i = mnt)) ->
     Q NULL (inside s c)) ->
  wp (find_cached fuel head mnt ino) Q (inside s c).
Proof.
  revert fuel head. induction l as [|p l IH]; intros [|fuel] head Hc Hf HQ HN;
    simpl in Hf; try lia; simpl in Hc.
  - subst. simpl. ba_step. apply HN. set_solver.
  - destruct Hc as (-> & Hp & i & Hi & Hc). simpl. rewrite (proj2 (Z.eqb_neq _ _) Hp).
    ba_step. eapply wp_the_inode_in; [done|].
    destruct ((i_ino i =? ino) && (i_mount i =? mnt)) eqn:Em.
    + ba_step. apply andb_true_iff in Em as [?%Z.eqb_eq ?%Z.eqb_eq].
      eapply HQ; [left|done|done|done].
    + eapply IH; [done|lia| |].
      * intros q j Hq. apply (HQ q j). by right.
      * intros Hno. apply HN. intros q j [->|Hq]%elem_of_cons Hj; [|by apply (Hno q j)].
        rewrite Hi in Hj. simplify_eq. intros [Ei Em']. by rewrite Ei, Em', !Z.eqb_refl in Em.
Qed.

(** ** Unlinking *)

Definition cell_value c (k : cell) : option Z :=
  match k with
  | Head h => ic_hash c !! Z.to_nat h
  | NextOf p => i_next <$> ic_heap c !! p
  end.
Definition cell_ok c (k : cell) : Prop :=
  match k with Head h => 0 <= h < Z.of_nat (length (ic_hash c)) | NextOf p => is_Some (ic_heap c !! p) end.
Definition set_cell (k : cell) (v : Z) c : icache :=
  match k with
  | Head h => ic_set_hash (<[Z.to_nat h := v]> (ic_hash c)) c
  | NextOf p => ic_set_heap (alter (i_set_next v) p (ic_heap c)) c
  end.

Lemma wp_read_cell_in (Q : Z -> kst icache E -> Prop) s c k v :
  cell_ok c k -> cell_value c k = Some v -> Q v (inside s c) ->
  wp (read_cell k) Q (inside s c).
Proof.
  intros Hk Hv HQ. destruct k as [h|p]; simpl in *.
  - ba_steps. eapply wp_lift; [|done]. unfold aread. rewrite decide_True by lia. by rewrite Hv.
  - destruct Hk as [i Hi]. rewrite Hi in Hv. simplify_eq/=. ba_step.
    eapply wp_the_inode_in; [done|]. by ba_step.
Qed.

Lemma wp_write_cell_in (Q : unit -> kst icache E -> Prop) s c k v :
  cell_ok c k -> Q tt (inside s (set_cell k v c)) -> wp (write_cell k v) Q (inside s c).
Proof.
  intros Hk HQ. destruct k as [h|p].
  - by apply wp_write_head_in.
  - destruct Hk as [i Hi]. simpl. eapply wp_upd_inode_in; [done|]. revert HQ. simpl.
    unfold put_inode. replace (alter (i_set_next v) p (ic_heap c))
      with (<[p := i_set_next v i]> (ic_heap c)); [done|].
    apply map_eq. intros q. rewrite lookup_insert. case_decide.
    + subst. by rewrite lookup_alter_eq, Hi.
    + by rewrite lookup_alter_ne.
Qed.

(** The cell [unlink] writes: the last one before the target. *)
Definition cell_before (k : cell) (l1 : list Z) : cell :=
  match last l1 with Some p => NextOf p | None => k end.

Lemma wp_unlink (Q : unit -> kst icache E -> Prop) fuel s c k head l1 t l2 it :
  cell_ok c k -> cell_value c k = Some head -> chain (ic_heap c) head (l1 ++ t :: l2) ->
  NoDup (l1 ++ t :: l2) -> (length l1 < fuel)%nat -> ic_heap c !! t = Some it ->
  Q tt (inside s (set_cell (cell_before k l1) (i_next it) c)) ->
  wp (unlink fuel k t) Q (inside s c).
Proof.
  revert fuel k head. induction l1 as [|p l1 IH]; intros [|fuel] k head Hk Hv Hc Hnd Hf Ht HQ;
    simpl in Hf; try lia; simpl.
  - simpl in Hc. destruct Hc as (-> & Hp & i & Hi & Hc). ba_step.
    eapply wp_read_cell_in; [done|done|].
    rewrite (proj2 (Z.eqb_neq _ _) Hp), Z.eqb_refl. ba_step.
    eapply wp_the_inode_in; [done|]. by apply wp_write_cell_in.
  - simpl in Hc. destruct Hc as (-> & Hp & i & Hi & Hc). ba_step.
    eapply wp_read_cell_in; [done|done|]. simpl in Hnd. apply NoDup_cons in Hnd as [Hnin Hnd].
    assert (p <> t) by set_solver.
    rewrite (proj2 (Z.eqb_neq _ _) Hp), (proj2 (Z.eqb_neq p t)) by done.
    eapply (IH fuel (NextOf p) (i_next i)); [by eexists|simpl; by rewrite Hi|done|done|lia|done|].
    revert HQ. unfold cell_before. destruct l1 as [|q l1]; [done|].
    rewrite last_cons_cons. destruct (last (q :: l1)) eqn:Hl; [done|by apply last_None in Hl].
Qed.
End specs.

(** ** Preservation of the invariant *)

Lemma chain_splice m head l1 t l2 it :
  chain m head (l1 ++ t :: l2) -> NoDup (l1 ++ t :: l2) -> m !! t = Some it ->
  match last l1 with
  | None => chain m (i_next it) l2
  | Some q => chain (alter (i_set_next (i_next it)) q m) head (l1 ++ l2)
  end.
Proof.
  intros Hc Hnd Ht. revert head Hc. induction l1 as [|p l1 IH]; intros head Hc.
  - simpl in *. destruct Hc as (-> & _ & i & Hi & Hc). rewrite Ht in Hi. by simplify_eq.
  - simpl in Hc. destruct Hc as (-> & Hp & i & Hi & Hc). simpl in Hnd.
    apply NoDup_cons in Hnd as [Hnin Hnd]. specialize (IH Hnd _ Hc).
    destruct l1 as [|q l1].
    + simpl in *. split_and!; [done|done|]. exists (i_set_next (i_next it) i).
      rewrite lookup_alter_eq, Hi. split; [done|]. simpl.
      destruct Hc as (_ & _ & j & Hj & Hc). rewrite Ht in Hj. simplify_eq.
      eapply chain_ext; [done|]. intros x Hx. rewrite lookup_alter_ne by set_solver. done.
    + rewrite last_cons_cons. destruct (last (q :: l1)) as [z|] eqn:Hl;
        [|by apply last_None in Hl].
      assert (Hz : z <> p).
      { apply last_Some_elem_of in Hl. set_solver. }
      split_and!; [done|done|]. exists i. by rewrite lookup_alter_ne by done.
Qed.

(** Objects of [m'] are objects of [m], up to the chain pointer. *)
Definition relinked (m m' : gmap Z inode) : Prop :=
  forall p i', m' !! p = Some i' -> exists i, m !! p = Some i /\ i' = i_set_next (i_next i') i.

Definition freed (t : Z) (it : inode) (l1 : list Z) (c : icache) : icache :=
  let c' := set_cell (cell_before (Head (inode_hash_func (i_ino it))) l1) (i_next it) c in
  ic_set_heap (delete t (ic_heap c')) c'.

Lemma freed_relinked t it l1 c : relinked (ic_heap c) (ic_heap (freed t it l1 c)).
Proof.
  intros p i'. unfold freed, cell_before. destruct (last l1) as [q|]; simpl;
    rewrite lookup_delete_Some; intros [_ Hp].
  - destruct (decide (q = p)) as [->|].
    + rewrite lookup_alter_eq in Hp. destruct (ic_heap c !! p) as [i|]; [|done].
      simplify_eq/=. by exists i.
    + rewrite lookup_alter_ne in Hp by done. exists i'. split; [done|by destruct i'].
  - exists i'. split; [done|by destruct i'].
Qed.

Lemma freed_other t it l1 c p :
  p ∉ l1 -> p <> t -> ic_heap (freed t it l1 c) !! p = ic_heap c !! p.
Proof.
  intros Hp Ht. unfold freed, cell_before. destruct (last l1) as [q|] eqn:Hl; simpl;
    rewrite lookup_delete_ne by done; [|done].
  apply last_Some_elem_of in Hl. by rewrite lookup_alter_ne by set_solver.
Qed.

Definition set_chain (h : Z) (l : list Z) (ch : Z -> list Z) : Z -> list Z :=
  fun h' => if h' =? h then l else ch h'.

Lemma freed_ok c ch t it l1 l2 :
  ic_ok c ch -> ic_heap c !! t = Some it ->
  ch (inode_hash_func (i_ino it)) = l1 ++ t :: l2 ->
  ic_ok (freed t it l1 c) (set_chain (inode_hash_func (i_ino it)) (l1 ++ l2) ch).
Proof.
  intros Hok Ht Hch. set (h := inode_hash_func (i_ino it)) in *.
  pose proof (hash_range (i_ino it)) as Hh. fold h in Hh.
  pose proof (freed_relinked t it l1 c) as Hrl.
  assert (Hdead : ic_heap (freed t it l1 c) !! t = None) by (simpl; apply lookup_delete_eq).
  destruct (ok_chain _ _ Hok h Hh) as (head & Hhead & Hc & Hnd & Hin). rewrite Hch in Hc, Hnd, Hin.
  assert (Hother : forall h' p, 0 <= h' < 256 -> h' <> h -> p ∈ ch h' -> p ∉ l1 ++ t :: l2).
  { intros h' p Hr Hne Hp Hp2. destruct (ok_chain _ _ Hok h' Hr) as (_ & _ & _ & _ & Hin').
    destruct (Hin' p Hp) as (i & Hi & Ei). destruct (Hin p Hp2) as (j & Hj & Ej).
    rewrite Hi in Hj. simplify_eq. }
  split.
  - unfold freed, cell_before. destruct (last l1); simpl; [apply Hok|].
    rewrite length_insert. apply Hok.
  - intros h' Hr. unfold set_chain. destruct (Z.eqb_spec h' h) as [->|Hne].
    + pose proof (chain_splice _ _ _ _ _ _ Hc Hnd Ht) as Hsp.
      assert (Hnd' : NoDup (l1 ++ l2)).
      { eapply sublist_NoDup; [exact Hnd|]. apply sublist_app; [done|by apply sublist_cons]. }
      assert (Ht' : t ∉ l1 ++ l2).
      { apply NoDup_app in Hnd as (_ & Hd & Hn2). apply NoDup_cons in Hn2. set_solver. }
      exists (match last l1 with None => i_next it | Some _ => head end).
      split_and!.
      * unfold freed, cell_before. fold h. destruct (last l1); simpl; [done|].
        rewrite list_lookup_insert_eq; [done|]. rewrite (ok_hash _ _ Hok). lia.
      * unfold freed, cell_before. fold h. destruct (last l1) as [q|] eqn:Hl; simpl;
          (apply chain_delete_other; [done|]); [done|].
        apply last_None in Hl. by subst.
      * done.
      * intros p Hp. assert (Hp2 : p ∈ l1 ++ t :: l2) by set_solver.
        destruct (Hin p Hp2) as (i & Hi & Ei).
        destruct (ic_heap (freed t it l1 c) !! p) as [i'|] eqn:Hi'.
        -- exists i'. split; [done|]. destruct (Hrl _ _ Hi') as (j & Hj & ->).
           rewrite Hi in Hj. by simplify_eq.
        -- exfalso. assert (p <> t) by (intros ->; done). revert Hi'.
           unfold freed, cell_before. destruct (last l1) as [q|]; simpl;
             rewrite lookup_delete_ne by done; [|by rewrite Hi].
           destruct (decide (q = p)) as [->|]; [by rewrite lookup_alter_eq, Hi|].
           by rewrite lookup_alter_ne, Hi by done.
    + destruct (ok_chain _ _ Hok h' Hr) as (head' & Hhead' & Hc' & Hnd' & Hin').
      exists head'.
      assert (Hsame : forall p, p ∈ ch h' -> ic_heap (freed t it l1 c) !! p = ic_heap c !! p).
      { intros p Hp. pose proof (Hother h' p Hr Hne Hp). apply freed_other; set_solver. }
      split_and!; [|eapply chain_ext; [done|]; intros p Hp; by rewrite Hsame|done|
        intros p Hp; rewrite Hsame by done; by apply Hin'].
      unfold freed, cell_before. fold h. destruct (last l1); simpl; [done|].
      rewrite list_lookup_insert_ne; [done|]. lia.
  - intros p i' Hp. destruct (Hrl _ _ Hp) as (i & Hi & ->). simpl.
    destruct (ok_node _ _ Hok _ _ Hi) as [Hin2 [? ? ?]]. split; [|by split].
    unfold set_chain. destruct (Z.eqb_spec (inode_hash_func (i_ino i)) h) as [Eh|]; [|done].
    rewrite Eh, Hch in Hin2. assert (p <> t) by (intros ->; congruence). set_solver.
  - intros p q i j Hp Hq. destruct (Hrl _ _ Hp) as (i0 & Hi0 & ->).
    destruct (Hrl _ _ Hq) as (j0 & Hj0 & ->). simpl. by apply (ok_unique _ _ Hok).
Qed.

(** A new inode at the front of its chain. *)
Definition added (p : Z) (i : inode) (c : icache) : icache :=
  ic_set_hash (<[Z.to_nat (inode_hash_func (i_ino i)) := p]> (ic_hash c))
    (put_inode p i c).

Lemma added_ok c ch p i head :
  ic_ok c ch -> ic_heap c !! p = None -> p <> NULL ->
  ic_hash c !! Z.to_nat (inode_hash_func (i_ino i)) = Some head -> i_next i = head ->
  node_ok i ->
  (forall q j, ic_heap c !! q = Some j -> ~ (i_ino j = i_ino i /\ i_mount j = i_mount i)) ->
  ic_ok (added p i c)
    (set_chain (inode_hash_func (i_ino i)) (p :: ch (inode_hash_func (i_ino i))) ch).
Proof.
  intros Hok Hp Hp0 Hhead Hnext Hnode Huniq. set (h := inode_hash_func (i_ino i)) in *.
  pose proof (hash_range (i_ino i)) as Hh. fold h in Hh.
  assert (Hnot : forall h', 0 <= h' < 256 -> p ∉ ch h').
  { intros h' Hr Hin. destruct (ok_chain _ _ Hok h' Hr) as (_ & _ & _ & _ & Hi).
    destruct (Hi p Hin) as (j & Hj & _). congruence. }
  split.
  - simpl. rewrite length_insert. apply Hok.
  - intros h' Hr. destruct (ok_chain _ _ Hok h' Hr) as (head' & Hhead' & Hc & Hnd & Hin).
    simpl. fold h. unfold set_chain. destruct (Z.eqb_spec h' h) as [->|Hne].
    + rewrite Hhead in Hhead'. simplify_eq. exists p. split_and!.
      * rewrite list_lookup_insert_eq; [done|]. rewrite (ok_hash _ _ Hok). lia.
      * simpl. split_and!; [done|done|]. exists i. rewrite lookup_insert_eq. split; [done|].
        apply chain_insert_other; [by apply Hnot|done].
      * apply NoDup_cons. split; [by apply Hnot|done].
      * intros q [->|Hq]%elem_of_cons; [exists i; by rewrite lookup_insert_eq|].
        rewrite lookup_insert_ne; [by apply Hin|]. intros ->. by apply (Hnot h).
    + exists head'. split_and!.
      * rewrite list_lookup_insert_ne; [done|lia].
      * apply chain_insert_other; [by apply Hnot|done].
      * done.
      * intros q Hq. rewrite lookup_insert_ne; [by apply Hin|]. intros ->. by apply (Hnot h').
  - intros q j. simpl. rewrite lookup_insert. case_decide as Hpq.
    + intros [= <-]. subst q. split; [|done]. unfold set_chain. fold h. rewrite Z.eqb_refl. left.
    + intros Hj. destruct (ok_node _ _ Hok _ _ Hj) as [Hin Hn]. split; [|done].
      unfold set_chain. fold h. destruct (Z.eqb_spec (inode_hash_func (i_ino j)) h) as [<-|];
        [by right|done].
  - intros q r j k. simpl. rewrite !lookup_insert. repeat case_decide; subst; intros; simplify_eq;
      try done; try (exfalso; eapply Huniq; by eauto).
    by apply (ok_unique _ _ Hok q r j k).
Qed.

(** A field update that keeps the identity and the links. *)
Lemma update_ok c ch p i i' :
  ic_ok c ch -> ic_heap c !! p = Some i ->
  i_ino i' = i_ino i -> i_mount i' = i_mount i -> i_next i' = i_next i -> node_ok i' ->
  ic_ok (put_inode p i' c) ch.
Proof.
  intros Hok Hp Hi Hm Hn Hnode. split.
  - apply Hok.
  - intros h Hr. destruct (ok_chain _ _ Hok h Hr) as (head & Hhead & Hc & Hnd & Hin).
    exists head. split_and!; [done|by eapply chain_update|done|].
    intros q Hq. simpl. rewrite lookup_insert. case_decide; [|by apply Hin]. subst.
    destruct (Hin _ Hq) as (j & Hj & Ej). rewrite Hp in Hj. simplify_eq.
    exists i'. by rewrite Hi.
  - intros q j. simpl. rewrite lookup_insert. case_decide; [|apply Hok]. intros [= <-]. subst.
    rewrite Hi. split; [by apply (ok_node _ _ Hok _ _ Hp)|done].
  - intros q r j k. simpl. rewrite !lookup_insert.
    repeat case_decide; subst; intros; simplify_eq; try done;
      eapply (ok_unique _ _ Hok); eauto; congruence.
Qed.

Lemma lock_ok l c ch : ic_ok c ch -> ic_ok (ic_set_lock l c) ch.
Proof. intros [? Hc ? ?]. split; simpl; done || apply Hc. Qed.

(** ** The operations *)

Section operations.
Context {E : Type} `{KernelHeap E}.
Implicit Types (s : kst icache E) (c : icache) (i : inode).

(** Inside the critical section of inode [p], which is now [i]. *)
Definition iheld s p i : kst icache E :=
  Kst (no_irq (k_flags s)) (k_files s) (k_reads s) (k_writes s) (k_stats_lock s)
    (put_inode p (i_set_lock (Spinlock 1 get_cpu_id (no_irq (k_flags s))) i) (k_obj s)) (k_env s).

Definition irest s i : inode := i_set_lock (rest_lock (k_flags s)) i.

Lemma put_put_inode p i j c : put_inode p i (put_inode p j c) = put_inode p i c.
Proof. unfold put_inode, ic_set_heap. simpl. by rewrite insert_insert_eq. Qed.

Lemma wp_iacquire (Q : Z -> kst icache E -> Prop) p i s :
  ic_heap (k_obj s) !! p = Some i -> sl_locked (i_lock i) = 0 ->
  Q (k_flags s) (iheld s p i) -> wp (spinlock_acquire_irqsave (inode_lock p)) Q s.
Proof.
  intros Hi Hidle HQ. apply wp_acquire_irqsave.
  - unfold lock_idle. simpl. unfold inode_at. by rewrite Hi.
  - revert HQ. unfold iheld. simpl. unfold inode_at. simpl. by rewrite Hi.
Qed.

Lemma wp_irelease (Q : unit -> kst icache E -> Prop) p i s :
  Q tt (set_obj (put_inode p (irest s i) (k_obj s)) s) ->
  wp (spinlock_release_irqrestore (inode_lock p) (k_flags s)) Q (iheld s p i).
Proof.
  intros HQ. apply wp_release_irqrestore.
  - unfold lock_held. simpl. unfold inode_at. simpl. by rewrite lookup_insert_eq.
  - revert HQ. unfold irest, rest_lock, set_obj. simpl. unfold inode_at. simpl.
    rewrite lookup_insert_eq, put_put_inode. done.
Qed.

Lemma wp_the_inode_held (Q : inode -> kst icache E -> Prop) p i s :
  Q (i_set_lock (Spinlock 1 get_cpu_id (no_irq (k_flags s))) i) (iheld s p i) ->
  wp (the_inode p) Q (iheld s p i).
Proof. intros HQ. unfold the_inode. ba_steps. simpl. rewrite lookup_insert_eq. by ba_step. Qed.

Lemma wp_upd_inode_held (Q : unit -> kst icache E -> Prop) p g i s :
  (forall l, g (i_set_lock l i) = i_set_lock l (g i)) ->
  Q tt (iheld s p (g i)) -> wp (upd_inode p g) Q (iheld s p i).
Proof.
  intros Hg HQ. unfold upd_inode. ba_step. apply wp_the_inode_held. unfold upd. wp_step.
  revert HQ. unfold iheld, set_obj. simpl. by rewrite put_put_inode, Hg.
Qed.

Lemma wp_inode_sync (Q : Z -> kst icache E -> Prop) p i s :
  p <> NULL -> ic_heap (k_obj s) !! p = Some i -> sl_locked (i_lock i) = 0 ->
  Q 0 (set_obj (put_inode p (irest s
    (if has_flag (i_flags i) INODE_FLAG_DIRTY
     then i_set_flags (Z.ldiff (i_flags i) INODE_FLAG_DIRTY) i else i)) (k_obj s)) s) ->
  wp (inode_sync p) Q s.
Proof.
  intros Hp Hi Hidle HQ. unfold inode_sync. rewrite (proj2 (Z.eqb_neq _ _) Hp). ba_step.
  eapply wp_iacquire; [done|done|]. ba_step. apply wp_the_inode_held. simpl.
  destruct (has_flag (i_flags i) INODE_FLAG_DIRTY); simpl.
  - ba_step. apply wp_upd_inode_held; [done|]. ba_step. apply wp_irelease. by ba_step.
  - ba_step. apply wp_irelease. by ba_step.
Qed.

Lemma wp_inode_ref (Q : unit -> kst icache E -> Prop) p i s :
  p <> NULL -> ic_heap (k_obj s) !! p = Some i -> node_ok i -> i_refcount i + 1 < 2 ^ 32 ->
  Q tt (set_obj (put_inode p (irest s (i_set_refcount (i_refcount i + 1) i)) (k_obj s)) s) ->
  wp (inode_ref p) Q s.
Proof.
  intros Hp Hi [Hr Hidle _] Hov HQ. unfold inode_ref, locked_upd.
  rewrite (proj2 (Z.eqb_neq _ _) Hp). ba_step. eapply wp_iacquire; [done|done|]. ba_step.
  apply wp_upd_inode_held; [done|]. apply wp_irelease. by rewrite u32_id by lia.
Qed.

(** Where the inode is in its chain. *)
Lemma chain_split c ch p i :
  ic_ok c ch -> ic_heap c !! p = Some i ->
  exists l1 l2, ch (inode_hash_func (i_ino i)) = l1 ++ p :: l2.
Proof.
  intros Hok Hp. destruct (ok_node _ _ Hok _ _ Hp) as [Hin _].
  apply list_elem_of_split in Hin as (l1 & l2 & ->). eauto.
Qed.

Lemma freed_put p i i0 l1 c0 :
  p ∉ l1 -> i_ino i = i_ino i0 -> i_next i = i_next i0 ->
  freed p i l1 (put_inode p i c0) = freed p i0 l1 c0.
Proof.
  intros Hp Hi Hn. unfold freed, cell_before. rewrite Hi, Hn.
  destruct (last l1) as [q|] eqn:Hl; unfold ic_set_heap, ic_set_hash, put_inode; simpl.
  - assert (q <> p) by (apply last_Some_elem_of in Hl; set_solver). f_equal.
    rewrite alter_insert_ne by done. by rewrite delete_insert_eq.
  - f_equal. by rewrite delete_insert_eq.
Qed.

(** [inode_free_mem] of an inode of a good cache whose fields other than the
    links and the number may have changed. *)
Lemma wp_inode_free_mem (Q : unit -> kst icache E -> Prop) p i s c0 i0 ch l1 l2 :
  ic_ok c0 ch -> ic_heap c0 !! p = Some i0 -> i_ino i = i_ino i0 -> i_next i = i_next i0 ->
  ch (inode_hash_func (i_ino i0)) = l1 ++ p :: l2 ->
  k_obj s = put_inode p i c0 -> obj_idle s ->
  Q tt (set_env (kfree (k_env s))
         (set_obj (ic_set_lock (rest_lock (k_flags s)) (freed p i0 l1 c0)) s)) ->
  wp (inode_free_mem p) Q s.
Proof.
  intros Hok Hp Hino Hnext Hch Hob Hidle HQ. unfold inode_free_mem.
  pose proof (ok_ptr _ _ _ _ Hok Hp) as Hp0. rewrite (proj2 (Z.eqb_neq _ _) Hp0).
  assert (Hi : ic_heap (k_obj s) !! p = Some i) by (rewrite Hob; apply lookup_insert_eq).
  set (h := inode_hash_func (i_ino i0)) in *.
  pose proof (hash_range (i_ino i0)) as Hh. fold h in Hh.
  destruct (ok_chain _ _ Hok h Hh) as (head & Hhead & Hc & Hnd & _). rewrite Hch in Hc, Hnd.
  ba_step. unfold the_inode at 1. ba_steps. rewrite Hi. ba_step. rewrite Hino. fold h.
  ba_step. apply wp_lock_obj; [done|]. ba_step. unfold chain_fuel. ba_steps.
  eapply (wp_unlink _ _ _ _ (Head h) head l1 p l2 i).
  - simpl. rewrite Hob. simpl. rewrite (ok_hash _ _ Hok). lia.
  - simpl. by rewrite Hob.
  - rewrite Hob. simpl. by eapply chain_update.
  - done.
  - assert (Hl : (length (l1 ++ p :: l2) <= size (ic_heap (k_obj s)))%nat).
    { eapply (chain_length _ head); [|done]. rewrite Hob. simpl. by eapply chain_update. }
    rewrite length_app in Hl. simpl in Hl. lia.
  - done.
  - assert (Hpl : p ∉ l1).
    { apply NoDup_app in Hnd as (_ & Hd & _). intros Hin. apply (Hd p Hin). left. }
    pose proof (freed_put p i i0 l1 c0 Hpl Hino Hnext) as Ef.
    ba_steps. unfold upd. wp_step. eapply wp_env; [done|]. revert HQ.
    rewrite <- Ef, <- Hob. unfold freed, set_env, set_obj, ic_set_lock. rewrite Hino. fold h.
    unfold cell_before. destruct (last l1); done.
Qed.

(** [inode_put] of a live inode: the last reference removes it. *)
Definition put_result s p i l1 : kst icache E :=
  if i_refcount i =? 1
  then set_env (kfree (k_env s))
         (set_obj (ic_set_lock (rest_lock (k_flags s)) (freed p i l1 (k_obj s))) s)
  else set_obj (put_inode p (irest s (i_set_refcount (i_refcount i - 1) i)) (k_obj s)) s.

Lemma wp_inode_put (Q : unit -> kst icache E -> Prop) p i s ch l1 l2 :
  ic_ok (k_obj s) ch -> obj_idle s -> ic_heap (k_obj s) !! p = Some i ->
  ch (inode_hash_func (i_ino i)) = l1 ++ p :: l2 ->
  Q tt (put_result s p i l1) -> wp (inode_put p) Q s.
Proof.
  intros Hok Hidle Hi Hch HQ. pose proof (ok_ptr _ _ _ _ Hok Hi) as Hp.
  destruct (ok_node _ _ Hok _ _ Hi) as [_ [Hr Hil _]]. unfold inode_put.
  rewrite (proj2 (Z.eqb_neq _ _) Hp). ba_step. eapply wp_iacquire; [done|done|]. ba_step.
  apply wp_the_inode_held. cbn [i_refcount i_set_lock].
  rewrite (proj2 (Z.ltb_lt 0 _)) by lia. ba_step. apply wp_upd_inode_held; [done|]. ba_step.
  apply wp_the_inode_held. cbn [i_refcount i_set_lock i_set_refcount].
  rewrite u32_id by lia. unfold put_result in HQ.
  destruct (Z.eqb_spec (i_refcount i) 1) as [E1|E1].
  2: { rewrite (proj2 (Z.eqb_neq (i_refcount i - 1) 0)) by lia. by apply wp_irelease. }
  rewrite (proj2 (Z.eqb_eq (i_refcount i - 1) 0)) by lia.
  set (i1 := i_set_refcount (i_refcount i - 1) i) in *.
  cbn [i_flags i_set_lock]. change (i_flags i1) with (i_flags i).
  destruct (has_flag (i_flags i) INODE_FLAG_DIRTY) eqn:Hd; ba_step.
  - ba_step. apply wp_irelease. ba_step.
    eapply (wp_inode_sync _ _ (irest s i1)); [done|simpl; apply lookup_insert_eq|done|].
    eapply wp_iacquire; [simpl; apply lookup_insert_eq|done|]. cbn [k_flags set_obj]. ba_step.
    eapply (wp_irelease _ p _ (set_obj _ (set_obj _ s))).
    eapply (wp_inode_free_mem _ p _ _ (k_obj s) i ch l1 l2);
      [done|done| | |done|simpl; by rewrite !put_put_inode|done|done];
      by destruct (has_flag _ _).
  - ba_step. ba_step. apply wp_irelease.
    eapply (wp_inode_free_mem _ p _ _ (k_obj s) i ch l1 l2);
      [done|done| | |done|done|done|done]; done.
Qed.

(** ** [inode_get] *)

Lemma wp_inode_alloc_mem (Q : Z -> kst icache E -> Prop) s ch mnt ino :
  ic_ok (k_obj s) ch -> obj_idle s -> 0 < ino < 2 ^ 64 ->
  match kmalloc sizeof_inode (k_env s) with
  | (None, e) => Q NULL (set_env e s)
  | (Some _, e) =>
      let p := fresh_addr (ic_heap (k_obj s)) in
      forall head, ic_hash (k_obj s) !! Z.to_nat (inode_hash_func ino) = Some head ->
      Q p (set_env e (set_obj (ic_set_lock (rest_lock (k_flags s))
             (added p (Inode ino 1 INODE_FLAG_VALID zero_disk_inode 0 mnt spinlock_init head)
               (k_obj s))) s))
  end -> wp (inode_alloc_mem mnt ino) Q s.
Proof.
  intros Hok Hidle Hino HQ. unfold inode_alloc_mem. ba_step.
  destruct (kmalloc sizeof_inode (k_env s)) as [[b|] e] eqn:Hk.
  2: { eapply wp_env; [by rewrite Hk|]. cbv iota beta. by ba_step. }
  eapply wp_env; [by rewrite Hk|]. cbv iota beta. ba_steps. set (p := fresh_addr _) in *.
  unfold upd at 1. wp_step. ba_step. apply wp_lock_obj; [done|]. simpl k_obj.
  pose proof (hash_range ino) as Hh. set (h := inode_hash_func ino) in *.
  destruct (ok_chain _ _ Hok h Hh) as (head & Hhead & _).
  ba_step. eapply wp_read_head_in; [lia|exact Hhead|]. ba_step.
  eapply wp_upd_inode_in; [simpl; apply lookup_insert_eq|]. ba_step.
  apply wp_write_head_in; [simpl; rewrite (ok_hash _ _ Hok); lia|]. ba_steps.
  specialize (HQ head Hhead). revert HQ. unfold added. simpl. fold h.
  rewrite put_put_inode. done.
Qed.

(** The inode of a mount and number, if it is in the cache. *)
Definition cached c mnt ino p i : Prop :=
  ic_heap c !! p = Some i /\ i_mount i = mnt /\ i_ino i = ino.

Lemma wp_take_ref_in (Q : unit -> kst icache E -> Prop) s c p i :
  ic_heap c !! p = Some i -> sl_locked (i_lock i) = 0 -> 0 <= i_refcount i < 2 ^ 32 - 1 ->
  Q tt (inside s (put_inode p (irest s (i_set_refcount (i_refcount i + 1) i)) c)) ->
  wp (take_ref p) Q (inside s c).
Proof.
  intros Hi Hil Hr HQ. unfold take_ref. wp_step. apply wp_acquire.
  { unfold lock_idle. simpl. unfold inode_at. simpl. by rewrite Hi. }
  wp_step. unfold upd_inode, the_inode, obj, upd. wp_steps. simpl. rewrite lookup_insert_eq.
  wp_steps. apply wp_release.
  { unfold lock_held. simpl. unfold inode_at. simpl. by rewrite lookup_insert_eq. }
  revert HQ. unfold inside, set_obj, irest, rest_lock, put_inode, ic_set_heap. simpl.
  unfold inode_at. simpl. rewrite Hi. rewrite !lookup_insert_eq, !insert_insert_eq. simpl.
  rewrite u32_id by lia. unfold put_inode, ic_set_heap. simpl. by rewrite insert_insert_eq.
Qed.

Lemma wp_inode_get (Q : Z * Z -> kst icache E -> Prop) s ch mnt ino :
  ic_ok (k_obj s) ch -> obj_idle s -> mnt <> NULL -> 0 < ino < 2 ^ 64 ->
  (forall p i, cached (k_obj s) mnt ino p i -> i_refcount i + 1 < 2 ^ 32) ->
  (forall p i, cached (k_obj s) mnt ino p i ->
     Q (0, p) (outside s (put_inode p (irest s (i_set_refcount (i_refcount i + 1) i)) (k_obj s)))) ->
  ((forall p i, ~ cached (k_obj s) mnt ino p i) ->
     wp (inode_alloc_mem mnt ino) (fun p s' =>
       Q (if p =? NULL then (-ENOMEM, NULL) else (0, p)) s') (outside s (k_obj s))) ->
  wp (inode_get mnt ino) Q s.
Proof.
  intros Hok Hidle Hm Hino Hov HQ HN. unfold inode_get.
  rewrite (proj2 (Z.eqb_neq _ _) Hm), (proj2 (Z.eqb_neq ino 0)) by lia. cbn [orb].
  ba_step. apply wp_lock_obj; [done|]. unfold chain_fuel. ba_steps.
  pose proof (hash_range ino) as Hh.
  destruct (ok_chain _ _ Hok _ Hh) as (head & Hhead & Hc & Hnd & Hin).
  eapply wp_read_head_in; [lia|exact Hhead|]. ba_step.
  eapply (wp_find_cached _ _ _ _ _ _ _ _ Hc).
  { pose proof (chain_length _ _ _ Hc Hnd). lia. }
  - intros p i _ Hi Ei Em. rewrite (proj2 (Z.eqb_neq _ _) (ok_ptr _ _ _ _ Hok Hi)). cbn [negb].
    assert (Hca : cached (k_obj s) mnt ino p i) by done.
    specialize (Hov _ _ Hca). destruct (ok_node _ _ Hok _ _ Hi) as [_ [Hr Hil _]].
    ba_step. apply (wp_take_ref_in _ _ _ _ i); [done|done|lia|]. ba_steps. by apply HQ.
  - intros Hno. simpl. ba_step. apply wp_unlock_obj. wp_step. eapply wp_mono.
    + apply HN. intros p i (Hi & Em & Ei).
      destruct (ok_node _ _ Hok _ _ Hi) as [Hpin _]. rewrite Ei in Hpin.
      by apply (Hno p i).
    + intros p s' Hq. cbv beta in Hq. destruct (p =? NULL); by ba_step.
Qed.
End operations.

(** ** Refinement of a map of references *)

(** [(mount, number)] to [(address, references)]. *)
Definition refmap : Type := gmap (Z * Z) (Z * Z).

Definition represents (c : icache) (m : refmap) : Prop :=
  forall mnt ino p n, m !! (mnt, ino) = Some (p, n) <->
    exists i, ic_heap c !! p = Some i /\ i_mount i = mnt /\ i_ino i = ino /\ i_refcount i = n.

Inductive ccall := CGet (mnt ino : Z) | CPut (p : Z).

Definition cstep (m : refmap) (c : ccall) (r : Z * Z) (m' : refmap) : Prop :=
  match c with
  | CGet mnt ino =>
      (exists p n, m !! (mnt, ino) = Some (p, n) /\ r = (0, p) /\
         m' = <[(mnt, ino) := (p, n + 1)]> m) \/
      (m !! (mnt, ino) = None /\ r = (-ENOMEM, NULL) /\ m' = m) \/
      (exists p, m !! (mnt, ino) = None /\ r = (0, p) /\ p <> NULL /\
         (forall k n, m !! k <> Some (p, n)) /\ m' = <[(mnt, ino) := (p, 1)]> m)
  | CPut p =>
      exists k n, m !! k = Some (p, n) /\ r = (0, NULL) /\
        m' = if n =? 1 then delete k m else <[k := (p, n - 1)]> m
  end.

(** A reference count that stays within its width; a pointer that is live. *)
Definition ccall_ok (m : refmap) (c : ccall) : Prop :=
  match c with
  | CGet mnt ino => mnt <> NULL /\ 0 < ino < 2 ^ 64 /\
      forall p n, m !! (mnt, ino) = Some (p, n) -> n + 1 < 2 ^ 32
  | CPut p => exists k n, m !! k = Some (p, n)
  end.

Lemma represents_put c ch m p i i' :
  ic_ok c ch -> represents c m -> ic_heap c !! p = Some i ->
  i_ino i' = i_ino i -> i_mount i' = i_mount i ->
  represents (put_inode p i' c) (<[(i_mount i, i_ino i) := (p, i_refcount i')]> m).
Proof.
  intros Hok Hm Hp Hi Hmn mnt ino q n. simpl. rewrite (lookup_insert m), (lookup_insert (ic_heap c)).
  case_decide as Hk; [simplify_eq|].
  - split.
    + intros Heq. simplify_eq. exists i'. by rewrite decide_True.
    + intros (j & Hj & E1 & E2 & <-). case_decide; [by simplify_eq|].
      assert (p = q) by (apply (ok_unique _ _ Hok p q i j); congruence). done.
  - rewrite (Hm mnt ino q n). split; intros (j & Hj & E1 & E2 & E3).
    + exists j. rewrite decide_False; [done|]. intros ->. rewrite Hp in Hj. by simplify_eq.
    + case_decide; [|by exists j]. simplify_eq. by rewrite Hi, Hmn in Hk.
Qed.

Lemma represents_added c ch m p i :
  ic_ok c ch -> represents c m -> ic_heap c !! p = None ->
  m !! (i_mount i, i_ino i) = None ->
  represents (added p i c) (<[(i_mount i, i_ino i) := (p, i_refcount i)]> m).
Proof.
  intros Hok Hm Hp Hnone mnt ino q n. simpl. rewrite (lookup_insert m), (lookup_insert (ic_heap c)).
  case_decide as Hk; [simplify_eq|].
  - split.
    + intros Heq. simplify_eq. exists i. by rewrite decide_True.
    + intros (j & Hj & E1 & E2 & <-). case_decide; [by simplify_eq|].
      exfalso. assert (Hs : m !! (i_mount i, i_ino i) = Some (q, i_refcount j)).
      { apply Hm. by exists j. } congruence.
  - rewrite (Hm mnt ino q n). split; intros (j & Hj & E1 & E2 & E3).
    + exists j. rewrite decide_False; [done|]. intros ->. congruence.
    + case_decide; [by simplify_eq|by exists j].
Qed.

Lemma represents_freed c ch m p i l1 :
  ic_ok c ch -> represents c m -> ic_heap c !! p = Some i -> p ∉ l1 ->
  represents (freed p i l1 c) (delete (i_mount i, i_ino i) m).
Proof.
  intros Hok Hm Hp Hpl mnt ino q n. rewrite (lookup_delete m).
  assert (Hq : forall j, q <> p -> ic_heap c !! q = Some j ->
    exists x, ic_heap (freed p i l1 c) !! q = Some (i_set_next x j)).
  { intros j Hqp Hj. unfold freed, cell_before. destruct (last l1) as [z|]; simpl;
      rewrite lookup_delete_ne by done.
    - destruct (decide (z = q)) as [->|].
      + rewrite lookup_alter_eq, Hj. eauto.
      + rewrite lookup_alter_ne, Hj by done. exists (i_next j). by destruct j.
    - rewrite Hj. exists (i_next j). by destruct j. }
  assert (Hback : forall j, ic_heap (freed p i l1 c) !! q = Some j -> q <> p /\
    exists j0, ic_heap c !! q = Some j0 /\ j = i_set_next (i_next j) j0).
  { intros j Hj. split; [|by apply freed_relinked in Hj].
    intros ->. simpl in Hj. by rewrite lookup_delete_eq in Hj. }
  case_decide as Hk.
  - simplify_eq. split; [done|]. intros (j & Hj & E1 & E2 & E3).
    destruct (Hback j Hj) as (Hqp & j0 & Hj0 & Ej). rewrite Ej in E1, E2. simpl in E1, E2.
    exfalso. apply Hqp. symmetry. by apply (ok_unique _ _ Hok p q i j0).
  - rewrite (Hm mnt ino q n). split.
    + intros (j & Hj & E1 & E2 & E3). destruct (decide (q = p)) as [->|Hqp].
      { rewrite Hp in Hj. simplify_eq. }
      destruct (Hq j Hqp Hj) as [x Hx]. by exists (i_set_next x j).
    + intros (j & Hj & E1 & E2 & E3). destruct (Hback j Hj) as (_ & j0 & Hj0 & Ej).
      exists j0. rewrite Ej in E1, E2, E3. done.
Qed.

Section refinement.
Context {E : Type} `{KernelHeap E}.
Implicit Types (s : kst icache E).

Definition run_ccall (c : ccall) : M (kst icache E) (Z * Z) :=
  match c with
  | CGet mnt ino => inode_get mnt ino
  | CPut p => inode_put p ;;; ret (0, NULL)
  end.

(** The cache between calls stands for the map [m]. *)
Definition cache_is s (m : refmap) : Prop :=
  (exists ch, ic_ok (k_obj s) ch) /\ obj_idle s /\ represents (k_obj s) m.

Lemma refs_of c m mnt ino p i :
  represents c m -> cached c mnt ino p i -> m !! (mnt, ino) = Some (p, i_refcount i).
Proof. intros Hm (Hi & Em & Ei). apply Hm. by exists i. Qed.

Lemma run_get_sim s m mnt ino :
  cache_is s m -> ccall_ok m (CGet mnt ino) ->
  wp (inode_get mnt ino) (fun r s' => k_flags s' = k_flags s /\
    exists m', cache_is s' m' /\ cstep m (CGet mnt ino) r m') s.
Proof.
  intros ((ch & Hok) & Hidle & Hm) (Hmnt & Hino & Hov).
  apply (wp_inode_get _ _ ch); [done|done|done|done| | |].
  - intros p i Hc. by apply (Hov p), (refs_of _ _ _ _ _ _ Hm).
  - intros p i Hc. pose proof (refs_of _ _ _ _ _ _ Hm Hc) as Hr. destruct Hc as (Hi & Em & Ei).
    specialize (Hov _ _ Hr). split; [done|]. destruct (ok_node _ _ Hok _ _ Hi) as [_ [? ? ?]].
    set (i' := irest s _). exists (<[(mnt, ino) := (p, i_refcount i + 1)]> m). split.
    + split_and!; [|done|].
      * exists ch. simpl. apply lock_ok. eapply update_ok; [done|done|done|done|done|].
        split; simpl; done || lia.
      * simpl. subst mnt ino. by apply (represents_put _ ch _ _ i i').
    + left. by exists p, (i_refcount i).
  - intros Hnone.
    assert (Hmn : m !! (mnt, ino) = None).
    { destruct (m !! (mnt, ino)) as [[p n]|] eqn:Hs; [|done].
      apply Hm in Hs as (i & Hi & Em & Ei & _). by destruct (Hnone p i). }
    apply (wp_inode_alloc_mem _ _ ch); [by apply lock_ok|done|done|].
    destruct (kmalloc sizeof_inode _) as [[b|] e].
    + cbv zeta beta. set (c := k_obj (outside s (k_obj s))). set (p := fresh_addr (ic_heap c)).
      intros head Hhead. pose proof (fresh_addr_pos (ic_heap c)) as Hp. fold p in Hp.
      rewrite (proj2 (Z.eqb_neq p NULL)) by (unfold NULL; lia).
      set (i := Inode _ _ _ _ _ _ _ _). split; [done|].
      assert (Hfr : ic_heap c !! p = None) by apply fresh_addr_None.
      exists (<[(mnt, ino) := (p, 1)]> m). split.
      * split_and!; [|done|].
        -- exists (set_chain (inode_hash_func (i_ino i)) (p :: ch (inode_hash_func (i_ino i))) ch).
           simpl. apply lock_ok. eapply (added_ok c); [by apply lock_ok|done|unfold NULL; lia|
             exact Hhead|done| |].
           ++ split; simpl; done || lia.
           ++ intros q j Hj [E1 E2]. apply (Hnone q j). by split_and!.
        -- simpl. change (represents (added p i c) (<[(i_mount i, i_ino i) := (p, i_refcount i)]> m)).
           eapply represents_added; [by apply (lock_ok _ _ ch)|done|done|done].
      * right. right. exists p. split_and!; [done|done|unfold NULL; lia| |done].
        intros [mnt' ino'] n Hs. apply Hm in Hs as (j & Hj & _).
        change (ic_heap (k_obj s) !! p = None) in Hfr. congruence.
    + split; [done|]. exists m. split; [|by right; left].
      split_and!; [exists ch; by apply lock_ok|done|done].
Qed.

Lemma run_put_sim s m p :
  cache_is s m -> ccall_ok m (CPut p) ->
  wp (inode_put p) (fun _ s' => k_flags s' = k_flags s /\
    exists m', cache_is s' m' /\ cstep m (CPut p) (0, NULL) m') s.
Proof.
  intros ((ch & Hok) & Hidle & Hm) ([mnt ino] & n & Hk).
  pose proof Hk as (i & Hi & Em & Ei & En)%Hm.
  destruct (chain_split _ _ _ _ Hok Hi) as (l1 & l2 & Hch).
  destruct (ok_node _ _ Hok _ _ Hi) as [_ [? ? ?]].
  apply (wp_inode_put _ p i s ch l1 l2); [done..|]. unfold put_result. rewrite En.
  destruct (Z.eqb_spec n 1) as [->|Hn1]; (split; [done|]).
  - exists (delete (mnt, ino) m). split; [|by exists (mnt, ino), 1].
    split_and!; [|done|].
    + eexists. simpl. apply lock_ok. by apply (freed_ok _ ch _ _ l1 l2).
    + subst mnt ino. destruct (ok_chain _ _ Hok _ (hash_range (i_ino i))) as (hd & _ & Hc & Hnd & _).
      rewrite Hch in Hc, Hnd. eapply (represents_freed (k_obj s)); [done|done|done|].
      apply NoDup_app in Hnd as (_ & Hd & _). intros Hin. apply (Hd p Hin). left.
  - exists (<[(mnt, ino) := (p, n - 1)]> m). split.
    + split_and!; [|done|].
      * exists ch. simpl. eapply update_ok; [done|done|done|done|done|]. split; simpl; done || lia.
      * subst mnt ino n. simpl. set (i' := irest s _).
        by apply (represents_put _ ch _ _ i i').
    + exists (mnt, ino), n. by rewrite (proj2 (Z.eqb_neq n 1)).
Qed.

(** C8: the hash table of in-memory inodes refines a map from (mount, inode
    number) to a unique object and its reference count: [inode_get] returns
    the object already there with one more reference, or adds a fresh one
    with one reference; [inode_put] drops a reference, and the last one
    unlinks and frees the object.  Every call ends, within the fuel, with the
    flags restored and the chains well formed. *)
Theorem inode_cache_refines_map s m c :
  cache_is s m -> ccall_ok m c ->
  exists r s' m', run_ccall c s = Ok (r, s') /\ cache_is s' m' /\ cstep m c r m' /\
    k_flags s' = k_flags s.
Proof.
  intros Hc Hok.
  assert (Hw : wp (run_ccall c) (fun r s' => k_flags s' = k_flags s /\
    exists m', cache_is s' m' /\ cstep m c r m') s).
  { destruct c as [mnt ino|p]; simpl; [by apply run_get_sim|].
    wp_step. wp_use run_put_sim; [done|done|]. intros [] s' Hs. by wp_step. }
  apply wp_run in Hw as (r & s' & Hr & Hk & m' & Hc' & Hs). by exists r, s', m'.
Qed.
End refinement.

(** A cache with inode 300 of mount 7 in bucket 44, referenced twice. *)
Definition demo_cache : kst icache ramdev :=
  Kst 0x202 ∅ 0 0 spinlock_init
    (ICache {[ 9 := Inode 300 2 INODE_FLAG_VALID zero_disk_inode 0 7 spinlock_init NULL ]}
       (<[44%nat := 9]> (replicate 256 NULL)) spinlock_init) (RamDev ∅ 4096).

Lemma demo_cache_is : cache_is demo_cache {[ (7, 300) := (9, 2) ]}.
Proof.
  split_and!; [|done|].
  - exists (fun h => if h =? 44 then [9] else []). split.
    + done.
    + intros h Hh. destruct (Z.eqb_spec h 44) as [->|Hne].
      * exists 9. split_and!; [done| |by apply NoDup_singleton|].
        -- simpl. split_and!; [done|done|]. eexists. split; [reflexivity|done].
        -- intros p ->%list_elem_of_singleton. eexists. split; reflexivity.
      * exists NULL. split_and!; [|done|by apply NoDup_nil|set_solver].
        change (<[44%nat := 9]> (replicate 256 NULL) !! Z.to_nat h = Some NULL).
        rewrite list_lookup_insert_ne by lia. apply lookup_replicate. split; [done|lia].
    + intros p i. simpl. intros [<- <-]%lookup_singleton_Some. split; [set_solver|by split].
    + intros p q i j. simpl.
      intros [<- _]%lookup_singleton_Some [<- _]%lookup_singleton_Some. done.
  - intros mnt ino p n. split.
    + intros [Hk Hv]%lookup_singleton_Some. simplify_eq. eexists. split_and!; reflexivity.
    + simpl. intros (i & [<- <-]%lookup_singleton_Some & <- & <- & <-). reflexivity.
Qed.

Lemma inode_cache_refines_map_witness :
  exists r s' m', run_ccall (CGet 7 300) demo_cache = Ok (r, s') /\ cache_is s' m' /\
    cstep {[ (7, 300) := (9, 2) ]} (CGet 7 300) r m' /\ k_flags s' = 0x202.
Proof.
  apply (inode_cache_refines_map demo_cache {[ (7, 300) := (9, 2) ]} (CGet 7 300)).
  - apply demo_cache_is.
  - simpl. split_and!; [done|lia|lia|]. intros p n [_ Hv]%lookup_singleton_Some.
    simplify_eq. lia.
Defined.

Example inode_cache_runs :
  exists s', bind (inode_get 7 44) (fun _ => bind (inode_put 9) (fun _ => inode_put 9))
    demo_cache = Ok (tt, s') /\ map_to_list (i_ino <$> ic_heap (k_obj s')) = [(10, 44)] /\
    ic_hash (k_obj s') !! 44%nat = Some 10.
Proof. eexists. split_and!; vm_compute; reflexivity. Qed.
