(* ===== verification/InodeBlocks.v ===== *)
(** * Blocks of an inode ([sys/src/libfs/inode.c], third part)

    The operations that map file blocks to disk blocks join the inode cache
    and the block allocator of the inode's mount ([mnt_private]); each half
    runs on its part of the state through [zoom]. *)

From stdpp Require Import base numbers list list_numbers gmap strings.
From S2P Require Import Prelude Bitmap Spinlock Kernel VfsFile VfsFileFacts.
From S2P Require Import BlkAlloc BlkAllocFacts BlkAllocSpec BlkAllocThms.
From S2P Require Import InodeCache InodeCacheSpec.

Definition fsstate : Type := icache * blk_allocator.

Program Definition in_cache : lens fsstate icache :=
  Lens fsstate icache fst (fun c st => (c, st.2)) _ _ _.
Next Obligation. done. Qed.
Next Obligation. done. Qed.
Next Obligation. by intros []. Qed.

Program Definition in_alloc : lens fsstate blk_allocator :=
  Lens fsstate blk_allocator snd (fun a st => (st.1, a)) _ _ _.
Next Obligation. done. Qed.
Next Obligation. done. Qed.
Next Obligation. by intros []. Qed.

Definition d_set_block (l : list Z) (d : disk_inode) : disk_inode :=
  DiskInode (di_mode d) (di_nlink d) (di_uid d) (di_gid d) (di_size d) (di_atime d)
    (di_mtime d) (di_ctime d) (di_blocks d) (di_flags d) l (di_indirect d) (di_dindirect d)
    (di_tindirect d) (di_generation d).
Definition d_set_blocks (n : Z) (d : disk_inode) : disk_inode :=
  DiskInode (di_mode d) (di_nlink d) (di_uid d) (di_gid d) (di_size d) (di_atime d)
    (di_mtime d) (di_ctime d) n (di_flags d) (di_block d) (di_indirect d) (di_dindirect d)
    (di_tindirect d) (di_generation d).
Definition d_set_size (n : Z) (d : disk_inode) : disk_inode :=
  DiskInode (di_mode d) (di_nlink d) (di_uid d) (di_gid d) n (di_atime d)
    (di_mtime d) (di_ctime d) (di_blocks d) (di_flags d) (di_block d) (di_indirect d)
    (di_dindirect d) (di_tindirect d) (di_generation d).

Section inode_blocks.
Context {E : Type} `{KernelHeap E} `{VnodeLayer E}.
Abbreviation K := (M (kst fsstate E)).

(** [mnt->mnt_private] of a mount; [None] when the mount pointer is null. *)
Context (mnt_private : Z -> option ptr).

Definition upd_disk (p : Z) (g : disk_inode -> disk_inode) : K unit :=
  zoom in_cache (upd_inode p (fun i => i_set_disk (g (i_disk i)) i)).

(** [disk_block] comes back with the return value. *)
Definition inode_get_block (p file_block : Z) : K (Z * option Z) :=
  if p =? NULL then ret (-EINVAL, None)
  else if file_block <? INODE_DIRECT_BLOCKS then
    i <- zoom in_cache (the_inode p) ;;
    b <- lift (aread (di_block (i_disk i)) file_block) ;;
    ret (0, Some b)
  else ret (-ENOSYS, None).

(** [inode->i_mount->mnt_private]. *)
Definition mount_alloc (i : inode) : K ptr :=
  match mnt_private (i_mount i) with Some a => ret a | None => throw F_null end.

Definition inode_alloc_block (p file_block : Z) : K (Z * option Z) :=
  if p =? NULL then ret (-EINVAL, None)
  else
    i <- zoom in_cache (the_inode p) ;;
    alloc <- mount_alloc i ;;
    new_block <- zoom in_alloc (blk_alloc alloc) ;;
    if new_block =? 0 then ret (-ENOSPC, None)
    else
      (if file_block <? INODE_DIRECT_BLOCKS then
         i <- zoom in_cache (the_inode p) ;;
         l <- lift (awrite (di_block (i_disk i)) file_block new_block) ;;
         upd_disk p (d_set_block l)
       else ret tt) ;;;
      upd_disk p (fun d => d_set_blocks (u32 (di_blocks d + 1)) d) ;;;
      zoom in_cache (inode_mark_dirty p) ;;;
      ret (0, Some new_block).

(** One iteration of the loop of [inode_truncate_blocks]. *)
Definition truncate_block (alloc : ptr) (p i : Z) : K unit :=
  n <- zoom in_cache (the_inode p) ;;
  b <- lift (aread (di_block (i_disk n)) i) ;;
  if negb (b =? 0) then
    zoom in_alloc (blk_free alloc b) ;;;
    l <- lift (awrite (di_block (i_disk n)) i 0) ;;
    upd_disk p (d_set_block l)
  else ret tt.

Definition inode_truncate_blocks (p : Z) : K Z :=
  n <- zoom in_cache (the_inode p) ;;
  alloc <- mount_alloc n ;;
  for_each 0 INODE_DIRECT_BLOCKS tt (fun i _ => truncate_block alloc p i) ;;;
  upd_disk p (d_set_size 0) ;;;
  upd_disk p (d_set_blocks 0) ;;;
  zoom in_cache (inode_mark_dirty p) ;;;
  ret 0.

(** ** Specifications *)

Implicit Types (s : kst fsstate E).

(** The part of the state one component sees, and its return into the whole. *)
Definition part {A B : Type} (l : lens A B) (s : kst A E) : kst B E :=
  Kst (k_flags s) (k_files s) (k_reads s) (k_writes s) (k_stats_lock s) (view l (k_obj s)) (k_env s).
Definition whole {A B : Type} (l : lens A B) (s : kst A E) (s' : kst B E) : kst A E :=
  Kst (k_flags s') (k_files s') (k_reads s') (k_writes s') (k_stats_lock s')
    (put l (k_obj s') (k_obj s)) (k_env s').

Lemma wp_zoom {A B X : Type} (l : lens A B) (m : M (kst B E) X) (Q : X -> kst A E -> Prop)
    (s0 : kst A E) :
  wp m (fun x (t : kst B E) => Q x (whole l s0 t)) (part l s0) -> wp (zoom l m) Q s0.
Proof. unfold wp, zoom, part, whole. by destruct (m _) as [[x s']|]. Qed.

Definition inode_of s p : option inode := ic_heap (k_obj s).1 !! p.

Lemma wp_zoom_the_inode (Q : inode -> kst fsstate E -> Prop) s p i :
  inode_of s p = Some i -> Q i s -> wp (zoom in_cache (the_inode p)) Q s.
Proof.
  intros Hi HQ. apply wp_zoom. unfold the_inode, obj. wp_steps. simpl.
  change (ic_heap (k_obj s).1 !! p = Some i) in Hi. rewrite Hi. wp_step.
  revert HQ. unfold whole, part. simpl. by destruct s as [? ? ? ? ? [] ?].
Qed.

Definition with_inode p i s : kst fsstate E :=
  set_obj (put_inode p i (k_obj s).1, (k_obj s).2) s.

Lemma wp_upd_disk (Q : unit -> kst fsstate E -> Prop) s p i g :
  inode_of s p = Some i -> Q tt (with_inode p (i_set_disk (g (i_disk i)) i) s) ->
  wp (upd_disk p g) Q s.
Proof.
  intros Hi HQ. apply wp_zoom. unfold upd_inode, the_inode, obj, upd. wp_steps. simpl.
  change (ic_heap (k_obj s).1 !! p = Some i) in Hi. rewrite Hi. wp_steps. exact HQ.
Qed.

Lemma wp_zoom_mark_dirty (Q : unit -> kst fsstate E -> Prop) s p i :
  p <> NULL -> inode_of s p = Some i -> sl_locked (i_lock i) = 0 ->
  Q tt (with_inode p (i_set_lock (rest_lock (k_flags s))
         (i_set_flags (Z.lor (i_flags i) INODE_FLAG_DIRTY) i)) s) ->
  wp (zoom in_cache (inode_mark_dirty p)) Q s.
Proof.
  intros Hp Hi Hl HQ. apply wp_zoom. unfold inode_mark_dirty, locked_upd.
  rewrite (proj2 (Z.eqb_neq _ _) Hp). ba_step. eapply wp_iacquire; [exact Hi|done|]. ba_step.
  apply wp_upd_inode_held; [done|]. eapply (wp_irelease _ p _ (part in_cache s)). exact HQ.
Qed.

(** ** Truncation *)

(** The blocks of the list that are in use, as a set. *)
Definition block_set (l : list Z) : gset Z := list_to_set (filter (.≠ 0) l).

Lemma block_set_cons b l : block_set (b :: l) = (if b =? 0 then ∅ else {[b]}) ∪ block_set l.
Proof.
  unfold block_set. rewrite filter_cons. destruct (Z.eqb_spec b 0) as [->|Hb].
  - rewrite decide_False by naive_solver. set_solver.
  - rewrite decide_True by done. done.
Qed.

(** The blocks an inode refers to belong to it: data blocks, in use, each once. *)
Record owns (first total : Z) (F : gset Z) (l : list Z) : Prop := {
  ow_range b : b ∈ block_set l -> first <= b < total /\ b ∉ F;
  ow_once : NoDup (filter (.≠ 0) l)
}.

Definition alloc_valid s b : Prop := valid (part in_alloc s) b.

Lemma owns_tail first total F b l :
  owns first total F (b :: l) -> owns first total (F ∪ (if b =? 0 then ∅ else {[b]})) l.
Proof.
  intros [Hr Ho]. rewrite filter_cons in Ho. split.
  - intros c Hc. destruct (Hr c) as [Hc1 Hc2]; [rewrite block_set_cons; set_solver|].
    split; [done|]. destruct (Z.eqb_spec b 0) as [->|Hb]; [set_solver|].
    rewrite decide_True in Ho by done. apply NoDup_cons in Ho as [Hnin _].
    unfold block_set in Hc. rewrite elem_of_list_to_set in Hc. set_solver.
  - case_decide; [by apply NoDup_cons in Ho as [_ ?]|done].
Qed.

(** What the loop has done before entry [k]. *)
Record truncating s0 (b0 : list Z) p i0 (k : nat) s : Prop := {
  tr_irq : k_flags s = k_flags s0;
  tr_geo : same_geometry (k_obj s0).2 (k_obj s).2;
  tr_inode : (k_obj s).1 = put_inode p (i_set_disk (d_set_block
    (replicate k 0 ++ drop k (di_block (i_disk i0))) (i_disk i0)) i0) (k_obj s0).1;
  tr_alloc : exists b, alloc_valid s b /\
    free_set (ba_total_blocks (k_obj s0).2) b =
      free_set (ba_total_blocks (k_obj s0).2) b0 ∪ block_set (take k (di_block (i_disk i0))) /\
    owns (ba_first_data_block (k_obj s0).2) (ba_total_blocks (k_obj s0).2)
      (free_set (ba_total_blocks (k_obj s0).2) b) (drop k (di_block (i_disk i0)))
}.

Lemma wp_truncate_block s0 b0 p i0 (k : nat) s :
  length (di_block (i_disk i0)) = 12%nat -> (k < 12)%nat ->
  truncating s0 b0 p i0 k s ->
  wp (truncate_block PObj p (Z.of_nat k)) (fun _ s' => truncating s0 b0 p i0 (S k) s') s.
Proof.
  intros Hlen Hk [Hirq Hgeo Hin (b & Hv & Hfree & Hown)]. set (l := di_block (i_disk i0)) in *.
  destruct (lookup_lt_is_Some_2 l k) as [x Hx]; [lia|].
  set (i := i_set_disk _ i0) in Hin.
  assert (Hi : inode_of s p = Some i) by (unfold inode_of; rewrite Hin; apply lookup_insert_eq).
  assert (Hread : aread (di_block (i_disk i)) (Z.of_nat k) = Ok x).
  { simpl. unfold aread. rewrite decide_True, Nat2Z.id by lia. fold l.
    rewrite lookup_app_r by (rewrite length_replicate; lia).
    by rewrite length_replicate, Nat.sub_diag, lookup_drop, Nat.add_0_r, Hx. }
  assert (Hset : <[k := 0]> (replicate k 0 ++ drop k l) = replicate (S k) 0 ++ drop (S k) l).
  { rewrite (drop_S l x k Hx), insert_app_r_alt by (rewrite length_replicate; lia).
    rewrite length_replicate, Nat.sub_diag. simpl.
    by rewrite (cons_middle 0), app_assoc, <- replicate_cons_app. }
  rewrite (drop_S l x k Hx) in Hown.
  assert (Htake : block_set (take (S k) l) =
    block_set (take k l) ∪ (if x =? 0 then ∅ else {[x]})).
  { rewrite (take_S_r _ _ _ Hx). unfold block_set. rewrite filter_app, list_to_set_app_L. f_equal.
    rewrite filter_cons, filter_nil. destruct (Z.eqb_spec x 0) as [->|].
    - by rewrite decide_False by naive_solver.
    - rewrite decide_True by done. set_solver. }
  unfold truncate_block. wp_step. eapply wp_zoom_the_inode; [done|]. wp_step.
  eapply wp_lift; [exact Hread|]. destruct (Z.eqb_spec x 0) as [->|Hx0]; simpl negb; cbv iota.
  - wp_step. split; [done|done| |].
    + rewrite list_insert_id in Hset; [by rewrite Hin; unfold i; fold l; rewrite Hset|].
      rewrite lookup_app_r by (rewrite length_replicate; lia).
      by rewrite length_replicate, Nat.sub_diag, lookup_drop, Nat.add_0_r.
    + fold l. exists b. split_and!; [done|by rewrite Htake, union_empty_r_L|].
      by apply owns_tail in Hown; simpl in Hown; rewrite union_empty_r_L in Hown.
  - destruct Hgeo as [Ht Hf].
    destruct (ow_range _ _ _ _ Hown x) as [Hxr Hxf].
    { rewrite block_set_cons, (proj2 (Z.eqb_neq _ _) Hx0). set_solver. }
    wp_step. apply wp_zoom. pose proof Hv as [Hbi Hbidle Hbres Hbf].
    pose proof (bi_nbits _ _ Hbi) as Hnb. pose proof (bi_hint _ _ Hbi) as Hh. simpl in Hnb, Hbf, Hh.
    rewrite Ht in Hnb. rewrite Hf in Hbf.
    assert (Hbx : bit b x = true).
    { destruct (bit b x) eqn:Eb; [done|]. exfalso. apply Hxf, elem_of_free_set. split; [lia|done]. }
    apply (wp_blk_free _ _ b); [done|done|lia|]. simpl k_obj. simpl view.
    rewrite Ht, Hf, (proj2 (Z.leb_gt _ x)), (proj2 (Z.ltb_ge x _)), Hbx by lia.
    wp_step. eapply wp_lift.
    { unfold awrite. rewrite decide_True; [done|]. simpl. fold l.
      rewrite length_app, length_replicate, length_drop. lia. }
    eapply wp_upd_disk; [exact Hi|]. simpl.
    split; [done|by split| |].
    + simpl. rewrite Hin, put_put_inode. unfold i, i_set_disk, d_set_block. simpl. fold l.
      by rewrite Nat2Z.id, Hset.
    + fold l. exists (clear_bit b x). split_and!.
      * unfold alloc_valid, part. simpl. apply (valid_outside (part in_alloc s)).
        -- apply inv_unmarked; simpl; rewrite ?Ht; [done|lia|done|]. unfold hint_after_free.
           rewrite Ht in Hh. destruct (Z.ltb_spec x (ba_first_free (k_obj s).2)); lia.
        -- intros j Hj. simpl in Hj. rewrite bit_clear_bit by lia.
           rewrite (proj2 (Z.eqb_neq j x)) by lia. by apply Hbres.
        -- simpl. rewrite Hf. lia.
      * rewrite free_set_unmarked by lia. rewrite Hfree, Htake.
        by rewrite assoc_L by apply _.
      * apply owns_tail in Hown. rewrite (proj2 (Z.eqb_neq _ _) Hx0) in Hown.
        by rewrite free_set_unmarked by lia.
Qed.

(** Writing an inode back unchanged. *)
Lemma put_same_inode s p i :
  inode_of s p = Some i ->
  put_inode p (i_set_disk (d_set_block (replicate 0 0 ++ drop 0 (di_block (i_disk i)))
    (i_disk i)) i) (k_obj s).1 = (k_obj s).1.
Proof.
  unfold inode_of, put_inode, ic_set_heap. intros Hi.
  destruct (k_obj s).1 as [m h l]; simpl in *.
  rewrite insert_id; [done|]. rewrite Hi. by destruct i as [? ? ? [] ? ? ? ?].
Qed.

(** An inode in memory, unlocked, whose mount has the allocator. *)
Record inode_here s p i : Prop := {
  ih_ptr : p <> NULL;
  ih_inode : inode_of s p = Some i;
  ih_idle : sl_locked (i_lock i) = 0;
  ih_blocks : length (di_block (i_disk i)) = 12%nat;
  ih_mount : mnt_private (i_mount i) = Some PObj
}.

(** C36: truncating an inode gives back its direct blocks: when the twelve
    direct entries name data blocks in use, each at most once, the free set of
    the allocator grows by exactly those, the entries are zeroed, size and
    block count are 0 and the inode is dirty; the allocator stays valid and
    the interrupt flags are restored.  The three indirect pointers are neither
    followed nor cleared: they are those of before. *)
Theorem inode_truncate_frees_blocks s b p i :
  inode_here s p i -> alloc_valid s b ->
  owns (ba_first_data_block (k_obj s).2) (ba_total_blocks (k_obj s).2)
    (free_set (ba_total_blocks (k_obj s).2) b) (di_block (i_disk i)) ->
  exists s' b' i', inode_truncate_blocks p s = Ok (0, s') /\ k_flags s' = k_flags s /\
    alloc_valid s' b' /\
    free_set (ba_total_blocks (k_obj s).2) b' =
      free_set (ba_total_blocks (k_obj s).2) b ∪ block_set (di_block (i_disk i)) /\
    inode_of s' p = Some i' /\ di_block (i_disk i') = replicate 12 0 /\
    di_size (i_disk i') = 0 /\ di_blocks (i_disk i') = 0 /\
    di_indirect (i_disk i') = di_indirect (i_disk i) /\
    di_dindirect (i_disk i') = di_dindirect (i_disk i) /\
    di_tindirect (i_disk i') = di_tindirect (i_disk i) /\
    has_flag (i_flags i') INODE_FLAG_DIRTY = true.
Proof.
  intros [Hp Hi Hl Hlen Hm] Hv Hown. set (l := di_block (i_disk i)) in *.
  enough (Hw : wp (inode_truncate_blocks p) (fun r s' => r = 0 /\ exists i',
    k_flags s' = k_flags s /\ (exists b', alloc_valid s' b' /\
      free_set (ba_total_blocks (k_obj s).2) b' =
      free_set (ba_total_blocks (k_obj s).2) b ∪ block_set l) /\
    inode_of s' p = Some i' /\ di_block (i_disk i') = replicate 12 0 /\
    di_size (i_disk i') = 0 /\ di_blocks (i_disk i') = 0 /\
    di_indirect (i_disk i') = di_indirect (i_disk i) /\
    di_dindirect (i_disk i') = di_dindirect (i_disk i) /\
    di_tindirect (i_disk i') = di_tindirect (i_disk i) /\
    has_flag (i_flags i') INODE_FLAG_DIRTY = true) s).
  { apply wp_run in Hw as (r & s' & Hr & -> & i' & Hk & (b' & Hb' & Hf) & Hrest).
    exists s', b', i'. naive_solver. }
  unfold inode_truncate_blocks. wp_step. eapply wp_zoom_the_inode; [done|]. wp_step.
  unfold mount_alloc. rewrite Hm. wp_step. wp_step. eapply wp_mono.
  { apply (wp_for_each (fun k _ s' => truncating s b p i (Z.to_nat k) s')).
    - split; [done|done| |].
      + by rewrite put_same_inode.
      + exists b. simpl. rewrite drop_0. split_and!; [done| |done].
        unfold block_set. simpl. by rewrite union_empty_r_L.
    - intros k [] s1 Hk Ht. replace k with (Z.of_nat (Z.to_nat k)) at 1 by lia.
      replace (Z.to_nat (k + 1)) with (S (Z.to_nat k)) by lia.
      apply wp_truncate_block; [done| |done]. unfold INODE_DIRECT_BLOCKS in Hk. lia. }
  intros [] s1 [Hirq Hgeo Hin (b1 & Hv1 & Hf1 & _)]. change (Z.to_nat _) with 12%nat in *.
  fold l in Hin, Hf1. rewrite take_ge in Hf1 by lia. rewrite drop_ge, app_nil_r in Hin by lia.
  set (i1 := i_set_disk _ i) in Hin.
  assert (Hi1 : inode_of s1 p = Some i1) by (unfold inode_of; rewrite Hin; apply lookup_insert_eq).
  wp_step. eapply wp_upd_disk; [exact Hi1|]. wp_step.
  eapply wp_upd_disk; [unfold inode_of; simpl; apply lookup_insert_eq|]. wp_step.
  eapply wp_zoom_mark_dirty; [done|unfold inode_of; simpl; apply lookup_insert_eq|done|].
  wp_step. split; [done|]. eexists. split; [exact Hirq|]. split; [by exists b1|].
  split; [unfold inode_of; simpl; apply lookup_insert_eq|]. split_and!; [done..|].
  - unfold has_flag. simpl. apply negb_true_iff, Z.eqb_neq. intros Hz.
    assert (Hb0 : Z.testbit (Z.land (Z.lor (i_flags i) INODE_FLAG_DIRTY) INODE_FLAG_DIRTY) 0 = true)
      by (by rewrite Z.land_spec, Z.lor_spec, orb_true_r).
    by rewrite Hz in Hb0.
Qed.

(** [inode_alloc_block] on a valid allocator, before the mapping is stored. *)
Lemma wp_zoom_blk_alloc (Q : Z -> kst fsstate E -> Prop) s b :
  alloc_valid s b ->
  (forall r s', k_flags s' = k_flags s -> (k_obj s').1 = (k_obj s).1 ->
     same_geometry (k_obj s).2 (k_obj s').2 ->
     (exists b', alloc_valid s' b' /\
       ((free_set (ba_total_blocks (k_obj s).2) b = ∅ /\ r = 0) \/
        (r ∈ free_set (ba_total_blocks (k_obj s).2) b /\ r <> 0 /\
         free_set (ba_total_blocks (k_obj s).2) b' =
           free_set (ba_total_blocks (k_obj s).2) b ∖ {[r]}))) -> Q r s') ->
  wp (zoom in_alloc (blk_alloc PObj)) Q s.
Proof.
  intros Hv HQ. apply wp_zoom. pose proof (run_alloc_sim _ _ Hv) as Hsim. simpl in Hsim.
  apply wp_bind_inv in Hsim. eapply wp_mono; [exact Hsim|]. intros r s' Hs.
  unfold wp, ret in Hs. destruct Hs as (Hk & Hg & b' & Hv' & Hstep).
  apply HQ; [done|done|done|]. exists b'. split; [by destruct s'|].
  simpl in Hstep. destruct Hstep as [(Hem & Hr & _)|(q & Hq & Hr & Hf)].
  - left. split; [done|]. by injection Hr.
  - right. injection Hr as -> Hr0. split_and!; [done| |done]. intros ->. by rewrite Z.eqb_refl in Hr0.
Qed.

(** Mapping a direct block: [inode_alloc_block] takes a block that was
    free, stores it, and [inode_get_block] then returns it; it fails with
    [-ENOSPC], changing nothing, exactly when no block is free. *)
Theorem inode_block_roundtrip s b p i fb :
  inode_here s p i -> alloc_valid s b -> 0 <= fb < 12 ->
  exists r s', inode_alloc_block p fb s = Ok (r, s') /\ k_flags s' = k_flags s /\
    ((free_set (ba_total_blocks (k_obj s).2) b = ∅ /\ r = (-ENOSPC, None) /\
      inode_of s' p = Some i) \/
     exists d b', r = (0, Some d) /\ d ∈ free_set (ba_total_blocks (k_obj s).2) b /\
       alloc_valid s' b' /\
       free_set (ba_total_blocks (k_obj s).2) b' =
         free_set (ba_total_blocks (k_obj s).2) b ∖ {[d]} /\
       inode_get_block p fb s' = Ok ((0, Some d), s')).
Proof.
  intros [Hp Hi Hl Hlen Hm] Hv Hfb.
  enough (Hw : wp (inode_alloc_block p fb) (fun r s' => k_flags s' = k_flags s /\
    ((free_set (ba_total_blocks (k_obj s).2) b = ∅ /\ r = (-ENOSPC, None) /\
      inode_of s' p = Some i) \/
     exists d b', r = (0, Some d) /\ d ∈ free_set (ba_total_blocks (k_obj s).2) b /\
       alloc_valid s' b' /\
       free_set (ba_total_blocks (k_obj s).2) b' =
         free_set (ba_total_blocks (k_obj s).2) b ∖ {[d]} /\
       exists i', inode_of s' p = Some i' /\
         aread (di_block (i_disk i')) fb = Ok d)) s).
  { apply wp_run in Hw as (r & s' & Hr & Hk & Hc). exists r, s'. split_and!; [done|done|].
    destruct Hc as [Hc|(d & b' & Hd & Hin & Hv' & Hf & i' & Hi' & Ha)]; [by left|right].
    exists d, b'. split_and!; [done..|].
    assert (Hg : wp (inode_get_block p fb) (fun r t => r = (0, Some d) /\ t = s') s').
    { unfold inode_get_block, INODE_DIRECT_BLOCKS. rewrite (proj2 (Z.eqb_neq _ _) Hp).
      rewrite (proj2 (Z.ltb_lt fb 12)) by lia. wp_step. eapply wp_zoom_the_inode; [done|].
      wp_step. eapply wp_lift; [done|]. by wp_step. }
    apply wp_run in Hg as (? & ? & Hg & -> & ->). done. }
  unfold inode_alloc_block. rewrite (proj2 (Z.eqb_neq _ _) Hp). wp_step.
  eapply wp_zoom_the_inode; [done|]. wp_step. unfold mount_alloc. rewrite Hm. wp_step. wp_step.
  apply (wp_zoom_blk_alloc _ _ b); [done|]. intros d s1 Hk1 Hc1 _ (b' & Hv' & Hcase).
  assert (Hi1 : inode_of s1 p = Some i) by (unfold inode_of; by rewrite Hc1).
  destruct Hcase as [[Hem ->]|(Hd & Hd0 & Hf)].
  { simpl. wp_step. split; [done|]. left. done. }
  rewrite (proj2 (Z.eqb_neq _ _) Hd0). unfold INODE_DIRECT_BLOCKS.
  rewrite (proj2 (Z.ltb_lt fb 12)) by lia. wp_step. wp_step.
  eapply wp_zoom_the_inode; [done|]. wp_step.
  eapply wp_lift; [apply awrite_ok; rewrite Hlen; lia|]. eapply wp_upd_disk; [exact Hi1|]. wp_step.
  eapply wp_upd_disk; [unfold inode_of; simpl; apply lookup_insert_eq|]. wp_step.
  eapply wp_zoom_mark_dirty; [done|unfold inode_of; simpl; apply lookup_insert_eq|done|].
  wp_step. split; [done|]. right. exists d, b'. split_and!; [done..|]. eexists. split.
  - unfold inode_of. simpl. apply lookup_insert_eq.
  - simpl. apply aread_ok; [lia|]. apply list_lookup_insert_eq. lia.
Qed.

(** A block allocated for a file block past the direct ones is recorded
    nowhere: [inode_alloc_block] reports success and takes it from the
    allocator, but no entry of the block list changes and [inode_get_block]
    fails with [-ENOSYS] for the same file block. *)
Theorem inode_alloc_block_leaks_indirect s b p i fb :
  inode_here s p i -> alloc_valid s b -> 12 <= fb ->
  free_set (ba_total_blocks (k_obj s).2) b <> ∅ ->
  exists d s' b' i', inode_alloc_block p fb s = Ok ((0, Some d), s') /\
    alloc_valid s' b' /\
    free_set (ba_total_blocks (k_obj s).2) b' =
      free_set (ba_total_blocks (k_obj s).2) b ∖ {[d]} /\
    d ∈ free_set (ba_total_blocks (k_obj s).2) b /\
    inode_of s' p = Some i' /\ di_block (i_disk i') = di_block (i_disk i) /\
    inode_get_block p fb s' = Ok ((-ENOSYS, None), s').
Proof.
  intros [Hp Hi Hl Hlen Hm] Hv Hfb Hne.
  enough (Hw : wp (inode_alloc_block p fb) (fun r s' => exists d b' i', r = (0, Some d) /\
    alloc_valid s' b' /\
    free_set (ba_total_blocks (k_obj s).2) b' =
      free_set (ba_total_blocks (k_obj s).2) b ∖ {[d]} /\
    d ∈ free_set (ba_total_blocks (k_obj s).2) b /\
    inode_of s' p = Some i' /\ di_block (i_disk i') = di_block (i_disk i)) s).
  { apply wp_run in Hw as (r & s' & Hr & d & b' & i' & -> & Hv' & Hf & Hd & Hi' & Hb).
    exists d, s', b', i'. split_and!; [done..|].
    unfold inode_get_block, INODE_DIRECT_BLOCKS. rewrite (proj2 (Z.eqb_neq _ _) Hp).
    by rewrite (proj2 (Z.ltb_ge fb 12)) by lia. }
  unfold inode_alloc_block. rewrite (proj2 (Z.eqb_neq _ _) Hp). wp_step.
  eapply wp_zoom_the_inode; [done|]. wp_step. unfold mount_alloc. rewrite Hm. wp_step. wp_step.
  apply (wp_zoom_blk_alloc _ _ b); [done|]. intros d s1 Hk1 Hc1 _ (b' & Hv' & Hcase).
  assert (Hi1 : inode_of s1 p = Some i) by (unfold inode_of; by rewrite Hc1).
  destruct Hcase as [[Hem _]|(Hd & Hd0 & Hf)]; [done|].
  rewrite (proj2 (Z.eqb_neq _ _) Hd0). unfold INODE_DIRECT_BLOCKS.
  rewrite (proj2 (Z.ltb_ge fb 12)) by lia. wp_step. wp_step. wp_step.
  eapply wp_upd_disk; [exact Hi1|]. wp_step.
  eapply wp_zoom_mark_dirty; [done|unfold inode_of; simpl; apply lookup_insert_eq|done|].
  wp_step. exists d, b'. eexists. split_and!; [done|done|done|done| |].
  - unfold inode_of. simpl. apply lookup_insert_eq.
  - done.
Qed.
End inode_blocks.

(** ** Examples: an inode of mount 7 with blocks 5 and 9 on the allocator of
    20 blocks *)

Definition demo_inode : inode :=
  Inode 300 1 INODE_FLAG_VALID
    (d_set_block (5 :: 0 :: 9 :: replicate 9 0) zero_disk_inode) 0 7 spinlock_init NULL.
Definition demo_fs : kst fsstate ramdev :=
  Kst 0x202 ∅ 0 0 spinlock_init
    (ICache {[ 9 := demo_inode ]} (<[44%nat := 9]> (replicate 256 NULL)) spinlock_init,
     BlkAllocator 20 4 2 2 2 (Some [35; 2; 0]) 3 spinlock_init None 5 2 true)
    (RamDev ∅ 4096).
Definition demo_private (mnt : Z) : option ptr := if mnt =? 7 then Some PObj else None.

Lemma demo_fs_valid : alloc_valid demo_fs [35; 2; 0].
Proof.
  split; [split; simpl; try done; try lia|done| |done].
  - repeat constructor; unfold byte_ok; lia.
  - intros i Hi. simpl in Hi. assert (i = 0 \/ i = 1) as [-> | ->] by lia; done.
Qed.

Lemma demo_here : inode_here demo_private demo_fs 9 demo_inode.
Proof. by split. Qed.

Lemma inode_truncate_frees_blocks_witness :
  exists s' b' i', inode_truncate_blocks demo_private 9 demo_fs = Ok (0, s') /\
    k_flags s' = 0x202 /\ alloc_valid s' b' /\
    free_set 20 b' = free_set 20 [35; 2; 0] ∪ block_set (5 :: 0 :: 9 :: replicate 9 0) /\
    inode_of s' 9 = Some i' /\ di_block (i_disk i') = replicate 12 0 /\
    di_size (i_disk i') = 0 /\ di_blocks (i_disk i') = 0 /\
    di_indirect (i_disk i') = di_indirect (i_disk demo_inode) /\
    di_dindirect (i_disk i') = di_dindirect (i_disk demo_inode) /\
    di_tindirect (i_disk i') = di_tindirect (i_disk demo_inode) /\
    has_flag (i_flags i') INODE_FLAG_DIRTY = true.
Proof.
  apply (inode_truncate_frees_blocks demo_private demo_fs [35; 2; 0] 9 demo_inode).
  - apply demo_here.
  - apply demo_fs_valid.
  - split.
    + intros b Hb. change (b ∈ block_set (5 :: 0 :: 9 :: replicate 9 0)) in Hb.
      assert (b = 5 \/ b = 9) as [-> | ->].
      { revert Hb. unfold block_set. rewrite elem_of_list_to_set. simpl. set_solver. }
      all: split; [simpl; lia|]; rewrite elem_of_free_set; by intros [_ ?].
    + simpl. repeat constructor; set_solver.
Defined.

Lemma inode_block_roundtrip_witness :
  exists r s', inode_alloc_block demo_private 9 1 demo_fs = Ok (r, s') /\ k_flags s' = 0x202 /\
    ((free_set 20 [35; 2; 0] = ∅ /\ r = (-ENOSPC, None) /\ inode_of s' 9 = Some demo_inode) \/
     exists d b', r = (0, Some d) /\ d ∈ free_set 20 [35; 2; 0] /\ alloc_valid s' b' /\
       free_set 20 b' = free_set 20 [35; 2; 0] ∖ {[d]} /\
       inode_get_block 9 1 s' = Ok ((0, Some d), s')).
Proof.
  apply (inode_block_roundtrip demo_private demo_fs [35; 2; 0] 9 demo_inode 1).
  - apply demo_here.
  - apply demo_fs_valid.
  - lia.
Defined.

Lemma inode_alloc_block_leaks_indirect_witness :
  exists d s' b' i', inode_alloc_block demo_private 9 12 demo_fs = Ok ((0, Some d), s') /\
    alloc_valid s' b' /\ free_set 20 b' = free_set 20 [35; 2; 0] ∖ {[d]} /\
    d ∈ free_set 20 [35; 2; 0] /\
    inode_of s' 9 = Some i' /\ di_block (i_disk i') = di_block (i_disk demo_inode) /\
    inode_get_block 9 12 s' = Ok ((-ENOSYS, None), s').
Proof.
  apply (inode_alloc_block_leaks_indirect demo_private demo_fs [35; 2; 0] 9 demo_inode 12).
  - apply demo_here.
  - apply demo_fs_valid.
  - lia.
  - intros He. assert (Hin : 3 ∈ free_set 20 [35; 2; 0]) by (apply elem_of_free_set; done).
    simpl in He. rewrite He in Hin. set_solver.
Defined.
