(* ===== verification/Mmu.v ===== *)
(** * Page tables ([sys/src/libmem/mmu.c])

    The machine as the memory-management code sees it: the 64-bit words of
    physical memory, reached through the direct map, the control register
    [cr3], the translations the processor has cached ([tlb]), the physical
    memory manager and the static variables of [mmu.c] and [paging.c].  Page
    tables and [page_directory_t] objects are words of that memory. *)

From stdpp Require Import base numbers list list_numbers gmap.
From S2P Require Import Prelude Pmm.

Definition PAGE_PRESENT : Z := Z.shiftl 1 0.
Definition PAGE_WRITE : Z := Z.shiftl 1 1.
Definition PAGE_USER : Z := Z.shiftl 1 2.
Definition PAGE_WRITETHROUGH : Z := Z.shiftl 1 3.
Definition PAGE_CACHE_DISABLE : Z := Z.shiftl 1 4.
Definition PAGE_HUGE : Z := Z.shiftl 1 7.
Definition PAGE_GLOBAL : Z := Z.shiftl 1 8.
Definition PAGE_NX : Z := Z.shiftl 1 63.
Definition PAGE_ADDR_MASK : Z := 0x000FFFFFFFFFF000.

Definition PML4_INDEX (addr : Z) : Z := Z.land (Z.shiftr addr 39) 0x1FF.
Definition PDPT_INDEX (addr : Z) : Z := Z.land (Z.shiftr addr 30) 0x1FF.
Definition PD_INDEX (addr : Z) : Z := Z.land (Z.shiftr addr 21) 0x1FF.
Definition PT_INDEX (addr : Z) : Z := Z.land (Z.shiftr addr 12) 0x1FF.

(** A flag test [x & f] used as a condition. *)
Definition flag (x f : Z) : bool := negb (Z.land x f =? 0).

(** [ram] maps the index of a 64-bit word of physical memory to its contents;
    words it does not list hold 0.  [direct_map] is the virtual address at
    which the boot loader mapped physical address 0. *)
Record machine := Machine {
  ram : gmap Z Z;
  ram_words : Z;
  direct_map : Z;
  cr3 : Z;
  tlb : gmap Z Z;
  frames : pmm;
  mmu_hhdm_offset : Z;
  kernel_pd : Z;
  current_pd : Z;
  page_fault_handler : Z;
  kernel_directory : Z
}.

Definition set_ram (r : gmap Z Z) (s : machine) : machine :=
  Machine r (ram_words s) (direct_map s) (cr3 s) (tlb s) (frames s) (mmu_hhdm_offset s)
    (kernel_pd s) (current_pd s) (page_fault_handler s) (kernel_directory s).
Definition set_cr3 (c : Z) (s : machine) : machine :=
  Machine (ram s) (ram_words s) (direct_map s) c (tlb s) (frames s) (mmu_hhdm_offset s)
    (kernel_pd s) (current_pd s) (page_fault_handler s) (kernel_directory s).
Definition set_tlb (t : gmap Z Z) (s : machine) : machine :=
  Machine (ram s) (ram_words s) (direct_map s) (cr3 s) t (frames s) (mmu_hhdm_offset s)
    (kernel_pd s) (current_pd s) (page_fault_handler s) (kernel_directory s).
Definition set_frames (p : pmm) (s : machine) : machine :=
  Machine (ram s) (ram_words s) (direct_map s) (cr3 s) (tlb s) p (mmu_hhdm_offset s)
    (kernel_pd s) (current_pd s) (page_fault_handler s) (kernel_directory s).
Definition set_hhdm (o : Z) (s : machine) : machine :=
  Machine (ram s) (ram_words s) (direct_map s) (cr3 s) (tlb s) (frames s) o
    (kernel_pd s) (current_pd s) (page_fault_handler s) (kernel_directory s).
Definition set_kernel_pd (p : Z) (s : machine) : machine :=
  Machine (ram s) (ram_words s) (direct_map s) (cr3 s) (tlb s) (frames s) (mmu_hhdm_offset s)
    p (current_pd s) (page_fault_handler s) (kernel_directory s).
Definition set_current_pd (p : Z) (s : machine) : machine :=
  Machine (ram s) (ram_words s) (direct_map s) (cr3 s) (tlb s) (frames s) (mmu_hhdm_offset s)
    (kernel_pd s) p (page_fault_handler s) (kernel_directory s).
Definition set_handler (h : Z) (s : machine) : machine :=
  Machine (ram s) (ram_words s) (direct_map s) (cr3 s) (tlb s) (frames s) (mmu_hhdm_offset s)
    (kernel_pd s) (current_pd s) h (kernel_directory s).
Definition set_kernel_directory (p : Z) (s : machine) : machine :=
  Machine (ram s) (ram_words s) (direct_map s) (cr3 s) (tlb s) (frames s) (mmu_hhdm_offset s)
    (kernel_pd s) (current_pd s) (page_fault_handler s) p.

Abbreviation MM := (M machine).

(** ** Memory access *)

(** The word index of a virtual address of the direct map; every access of
    the code is to an aligned [uint64_t]. *)
Definition word_at (s : machine) (a : Z) : option Z :=
  let o := a - direct_map s in
  if (0 <=? o) && (o mod 8 =? 0) && (o / 8 <? ram_words s) then Some (o / 8) else None.

Definition load (a : Z) : MM Z := fun s =>
  if a =? NULL then Fault F_null
  else match word_at s a with
       | Some w => Ok (default 0 (ram s !! w), s)
       | None => Fault F_oob
       end.

Definition store (a v : Z) : MM unit := fun s =>
  if a =? NULL then Fault F_null
  else match word_at s a with
       | Some w => Ok (tt, set_ram (<[w := v]> (ram s)) s)
       | None => Fault F_oob
       end.

(** [table[index]] of a [uint64_t *]. *)
Definition entry (table index : Z) : Z := u64 (table + 8 * index).

(** [memset(a, 0, PAGE_SIZE)] and [memcpy(d, s, PAGE_SIZE)], word by word. *)
Definition zero_page (a : Z) : MM unit :=
  for_each 0 512 tt (fun k _ => store (entry a k) 0).
Definition copy_page (d a : Z) : MM unit :=
  for_each 0 512 tt (fun k _ => v <- load (entry a k) ;; store (entry d k) v).

(** A call into the physical memory manager. *)
Definition in_frames {A : Type} (m : M pmm A) : MM A := fun s =>
  match m (frames s) with
  | Ok (a, p) => Ok (a, set_frames p s)
  | Fault f => Fault f
  end.

(** ** Processor instructions *)

(** Writing [cr3] drops the cached translations that are not global. *)
Definition write_cr3 (c : Z) : MM unit :=
  modify (fun s => set_tlb (filter (fun kv => flag kv.2 PAGE_GLOBAL = true) (tlb s)) (set_cr3 c s)).

(** [invlpg] drops the cached translation of the page of [virt]. *)
Definition mmu_flush_tlb_single (virt : Z) : MM unit :=
  modify (fun s => set_tlb (delete (virt / PAGE_SIZE) (tlb s)) s).

Definition mmu_flush_tlb_all : MM unit := c <- gets cr3 ;; write_cr3 c.

(** ** Operations *)

Definition phys_to_virt (phys : Z) : MM Z := gets (fun s => u64 (phys + mmu_hhdm_offset s)).
Definition virt_to_phys (virt : Z) : MM Z := gets (fun s => u64 (virt - mmu_hhdm_offset s)).

Definition get_next_level (table index : Z) (create : bool) (flags : Z) : MM Z :=
  e <- load (entry table index) ;;
  ok <- (if negb (flag e PAGE_PRESENT) then
           if negb create then ret false
           else
             new_table <- in_frames pmm_alloc ;;
             if new_table =? NULL then ret false
             else
               zero_page new_table ;;;
               p <- virt_to_phys new_table ;;
               store (entry table index) (Z.lor (Z.lor p flags) PAGE_PRESENT) ;;;
               ret true
         else ret true) ;;
  if negb ok then ret NULL
  else
    e <- load (entry table index) ;;
    phys_to_virt (Z.land e PAGE_ADDR_MASK).

(** Fields of a [page_directory_t]. *)
Definition pd_pml4 (pd : Z) : Z := pd.
Definition pd_phys_addr (pd : Z) : Z := u64 (pd + 8).

Definition mmu_init (hhdm : option Z) : MM unit :=
  match hhdm with
  | None => ret tt
  | Some offset =>
      modify (set_hhdm offset) ;;;
      current_cr3 <- gets cr3 ;;
      pd <- in_frames pmm_alloc ;;
      modify (set_kernel_pd pd) ;;;
      if pd =? NULL then ret tt
      else
        v <- phys_to_virt current_cr3 ;;
        store (pd_pml4 pd) v ;;;
        store (pd_phys_addr pd) current_cr3 ;;;
        modify (set_current_pd pd) ;;;
        modify (set_handler NULL)
  end.

Definition mmu_create_address_space : MM Z :=
  pd <- in_frames pmm_alloc ;;
  if pd =? NULL then ret NULL
  else
    pml4 <- in_frames pmm_alloc ;;
    if pml4 =? NULL then in_frames (pmm_free pd) ;;; ret NULL
    else
      zero_page pml4 ;;;
      kpd <- gets kernel_pd ;;
      (if kpd =? NULL then ret tt
       else
         kernel_pml4 <- load (pd_pml4 kpd) ;;
         if kernel_pml4 =? NULL then ret tt
         else
           for_each 256 512 tt (fun i _ =>
             v <- load (entry kernel_pml4 i) ;; store (entry pml4 i) v)) ;;;
      store (pd_pml4 pd) pml4 ;;;
      p <- virt_to_phys pml4 ;;
      store (pd_phys_addr pd) p ;;;
      ret pd.

(** One entry of a page directory, of a PDPT and of the PML4, in the loops of
    [mmu_destroy_address_space]. *)
Definition destroy_pd_entry (pd_table pd_idx : Z) : MM unit :=
  e <- load (entry pd_table pd_idx) ;;
  if negb (flag e PAGE_PRESENT) then ret tt
  else if flag e PAGE_HUGE then ret tt
  else
    pt <- phys_to_virt (Z.land e PAGE_ADDR_MASK) ;;
    in_frames (pmm_free pt).

Definition destroy_pdpt_entry (pdpt pdpt_idx : Z) : MM unit :=
  e <- load (entry pdpt pdpt_idx) ;;
  if negb (flag e PAGE_PRESENT) then ret tt
  else if flag e PAGE_HUGE then ret tt
  else
    pd_table <- phys_to_virt (Z.land e PAGE_ADDR_MASK) ;;
    for_each 0 512 tt (fun pd_idx _ => destroy_pd_entry pd_table pd_idx) ;;;
    in_frames (pmm_free pd_table).

Definition destroy_pml4_entry (pml4 pml4_idx : Z) : MM unit :=
  e <- load (entry pml4 pml4_idx) ;;
  if negb (flag e PAGE_PRESENT) then ret tt
  else
    pdpt <- phys_to_virt (Z.land e PAGE_ADDR_MASK) ;;
    for_each 0 512 tt (fun pdpt_idx _ => destroy_pdpt_entry pdpt pdpt_idx) ;;;
    in_frames (pmm_free pdpt).

(** [pd == NULL || pd->pml4 == NULL], with the table when it is false. *)
Definition root_of (pd : Z) : MM (option Z) :=
  if pd =? NULL then ret None
  else
    pml4 <- load (pd_pml4 pd) ;;
    ret (if pml4 =? NULL then None else Some pml4).

Definition mmu_destroy_address_space (pd : Z) : MM unit :=
  root <- root_of pd ;;
  match root with
  | None => ret tt
  | Some pml4 =>
      for_each 0 256 tt (fun pml4_idx _ => destroy_pml4_entry pml4 pml4_idx) ;;;
      p <- load (pd_pml4 pd) ;;
      in_frames (pmm_free p) ;;;
      in_frames (pmm_free pd)
  end.

Definition mmu_switch_address_space (pd : Z) : MM unit :=
  if pd =? NULL then ret tt
  else
    p <- load (pd_phys_addr pd) ;;
    write_cr3 p ;;;
    modify (set_current_pd pd).

Definition mmu_get_current_address_space : MM Z := gets current_pd.

Definition mmu_map_page (pd virt phys flags : Z) : MM bool :=
  root <- root_of pd ;;
  match root with
  | None => ret false
  | Some pml4 =>
      let virt := page_align_down virt in
      let phys := page_align_down phys in
      let table_flags := Z.lor PAGE_WRITE (Z.land flags PAGE_USER) in
      pdpt <- get_next_level pml4 (PML4_INDEX virt) true table_flags ;;
      if pdpt =? NULL then ret false
      else
        pd_table <- get_next_level pdpt (PDPT_INDEX virt) true table_flags ;;
        if pd_table =? NULL then ret false
        else
          pt <- get_next_level pd_table (PD_INDEX virt) true table_flags ;;
          if pt =? NULL then ret false
          else
            store (entry pt (PT_INDEX virt)) (Z.lor (Z.lor phys flags) PAGE_PRESENT) ;;;
            mmu_flush_tlb_single virt ;;;
            ret true
  end.

(** The present entry [table[index]] leads to the next table, as an address. *)
Definition descend (table index : Z) : MM (option Z) :=
  e <- load (entry table index) ;;
  if negb (flag e PAGE_PRESENT) then ret None
  else
    v <- phys_to_virt (Z.land e PAGE_ADDR_MASK) ;;
    ret (Some v).

(** The three descents that [mmu_unmap_page] and [mmu_get_physical_address]
    begin with; [None] is their early return. *)
Definition find_pt (pml4 virt : Z) : MM (option Z) :=
  r <- descend pml4 (PML4_INDEX virt) ;;
  match r with
  | None => ret None
  | Some pdpt =>
      r <- descend pdpt (PDPT_INDEX virt) ;;
      match r with
      | None => ret None
      | Some pd_table => descend pd_table (PD_INDEX virt)
      end
  end.

Definition mmu_unmap_page (pd virt : Z) : MM bool :=
  root <- root_of pd ;;
  match root with
  | None => ret false
  | Some pml4 =>
      let virt := page_align_down virt in
      r <- find_pt pml4 virt ;;
      match r with
      | None => ret false
      | Some pt =>
          store (entry pt (PT_INDEX virt)) 0 ;;;
          mmu_flush_tlb_single virt ;;;
          ret true
      end
  end.

Definition mmu_get_physical_address (pd virt : Z) : MM Z :=
  root <- root_of pd ;;
  match root with
  | None => ret 0
  | Some pml4 =>
      let page_offset := Z.land virt 0xFFF in
      let virt := page_align_down virt in
      r <- find_pt pml4 virt ;;
      match r with
      | None => ret 0
      | Some pt =>
          e <- load (entry pt (PT_INDEX virt)) ;;
          if negb (flag e PAGE_PRESENT) then ret 0
          else ret (Z.lor (Z.land e PAGE_ADDR_MASK) page_offset)
      end
  end.

Definition mmu_is_mapped (pd virt : Z) : MM bool :=
  p <- mmu_get_physical_address pd virt ;; ret (negb (p =? 0)).

Definition mmu_set_page_fault_handler (handler : Z) : MM unit := modify (set_handler handler).

(** [invoke h a e] is a call of the code at address [h]. *)
Definition mmu_handle_page_fault (invoke : Z -> Z -> Z -> MM unit) (fault_addr error_code : Z)
    : MM unit :=
  h <- gets page_fault_handler ;;
  if h =? NULL then ret tt else invoke h fault_addr error_code.

Definition mmu_phys_to_virt (phys : Z) : MM Z := phys_to_virt phys.
Definition mmu_virt_to_phys (virt : Z) : MM Z := virt_to_phys virt.
