(* ===== verification/PageTree.v ===== *)
(** * Page-table trees

    The reference for the page-table code: how the processor walks four
    levels of tables ([hw_walk]), and the shape of the user half of an address
    space as a finite map from positions to frames ([tree]).  A position is a
    level (3 for the PML4 down to 0 for a page table) and the common prefix of
    the virtual page numbers below it.  Memory is seen here as a function from
    a frame and an entry index to a 64-bit word. *)

From stdpp Require Import base numbers list gmap.
From S2P Require Import Prelude Mmu.

Definition frame_of (e : Z) : Z := Z.land e PAGE_ADDR_MASK / 4096.

(** The entry of a virtual page number in the table of level [l], and the
    position of the table of level [l] above it. *)
Definition slot (l : nat) (vpn : Z) : Z := (vpn / 512 ^ Z.of_nat l) mod 512.
Definition pos (l : nat) (vpn : Z) : Z := vpn / 512 ^ Z.of_nat (S l).

(** The walk of the processor from frame [f] at level [l]: the level and the
    value of the entry that maps the page, if there is one. *)
Fixpoint hw_walk (m : Z -> Z -> Z) (l : nat) (f vpn : Z) : option (nat * Z) :=
  let e := m f (slot l vpn) in
  if flag e PAGE_PRESENT then
    match l with
    | O => Some (O, e)
    | S l' => if flag e PAGE_HUGE then Some (l, e) else hw_walk m l' (frame_of e) vpn
    end
  else None.

(** Virtual page numbers of the user half: PML4 entries below 256. *)
Definition user_page (vpn : Z) : Prop := 0 <= vpn < 2 ^ 35.

Abbreviation tables := (gmap (nat * Z) Z).
Implicit Types (tb : tables) (m : Z -> Z -> Z) (l : nat).

(** Entry [i] of the table at position [(S l, v)] is in the user half. *)
Definition user_slot l (v i : Z) : Prop := 0 <= i < 512 /\ (l = 2%nat -> i < 256).

(** What entry [e] must be for the child table [c]. *)
Definition links (e : Z) (c : option Z) : Prop :=
  match c with
  | Some g => flag e PAGE_PRESENT = true /\ flag e PAGE_HUGE = false /\ frame_of e = g
  | None => flag e PAGE_PRESENT = false
  end.

Record tree m (root : Z) tb : Prop := {
  t_root : tb !! (3%nat, 0) = Some root;
  t_top v f : tb !! (3%nat, v) = Some f -> v = 0;
  t_levels l v f : tb !! (l, v) = Some f -> (l <= 3)%nat;
  t_inj p q f : tb !! p = Some f -> tb !! q = Some f -> p = q;
  t_parent l v f : tb !! (l, v) = Some f -> (l < 3)%nat -> is_Some (tb !! (S l, v / 512));
  t_link l v f i : tb !! (S l, v) = Some f -> user_slot l v i ->
    links (m f i) (tb !! (l, 512 * v + i))
}.

(** ** Positions *)

Lemma pos_S l vpn : 0 <= vpn -> pos l vpn / 512 = pos (S l) vpn.
Proof.
  intros Hv. unfold pos. rewrite Z.div_div by lia. f_equal.
  rewrite (Nat2Z.inj_succ (S l)), Z.pow_succ_r by lia. lia.
Qed.

Lemma pos_slot l vpn : 0 <= vpn -> 512 * pos (S l) vpn + slot (S l) vpn = pos l vpn.
Proof.
  intros Hv. rewrite <- pos_S by done. unfold slot. fold (pos l vpn). dlia.
Qed.

Lemma slot_range l vpn : 0 <= slot l vpn < 512.
Proof. apply Z.mod_pos_bound. lia. Qed.

Lemma user_slot_of l vpn : user_page vpn -> (l <= 2)%nat -> user_slot l (pos (S l) vpn) (slot (S l) vpn).
Proof.
  intros Hv Hl. split; [apply slot_range|]. intros ->. unfold slot, user_page in *.
  change (512 ^ Z.of_nat 3) with (2 ^ 27). dlia.
Qed.

Lemma pos_top vpn : user_page vpn -> pos 3 vpn = 0.
Proof. unfold user_page, pos. change (512 ^ Z.of_nat 4) with (2 ^ 36). intros. dlia. Qed.

Lemma pos_0_slot vpn : 512 * pos 0 vpn + slot 0 vpn = vpn.
Proof. unfold pos, slot. change (512 ^ Z.of_nat 1) with 512. change (512 ^ Z.of_nat 0) with 1. dlia. Qed.

Lemma pos_0_eq v1 v2 : pos 0 v1 = pos 0 v2 -> slot 0 v1 = slot 0 v2 -> v1 = v2.
Proof. intros. rewrite <- (pos_0_slot v1), <- (pos_0_slot v2). lia. Qed.

(** ** The walk in a tree *)

(** The page-table entry of a page, when its page table exists. *)
Definition leaf m tb (vpn : Z) : option Z :=
  f ← tb !! (0%nat, pos 0 vpn);
  let e := m f (slot 0 vpn) in
  if flag e PAGE_PRESENT then Some e else None.

Lemma ancestors m root tb vpn l f :
  tree m root tb -> 0 <= vpn -> tb !! (0%nat, pos 0 vpn) = Some f -> (l <= 3)%nat ->
  is_Some (tb !! (l, pos l vpn)).
Proof.
  intros Ht Hv Hf. induction l as [|l IH]; intros Hl; [done|].
  destruct IH as [g Hg]; [lia|]. rewrite <- pos_S by done.
  by apply (t_parent _ _ _ Ht _ _ _ Hg).
Qed.

Lemma no_table m root tb vpn l :
  tree m root tb -> 0 <= vpn -> (l <= 3)%nat -> tb !! (l, pos l vpn) = None ->
  tb !! (0%nat, pos 0 vpn) = None.
Proof.
  intros Ht Hv Hl Hn. apply eq_None_not_Some. intros [f Hf].
  destruct (ancestors m root tb vpn l f); congruence.
Qed.

Lemma hw_walk_tree m root tb l f vpn :
  tree m root tb -> user_page vpn -> (l <= 3)%nat -> tb !! (l, pos l vpn) = Some f ->
  hw_walk m l f vpn = pair 0%nat <$> leaf m tb vpn.
Proof.
  intros Ht Hv. pose proof Hv as [Hv0 _]. revert f. induction l as [|l IH]; intros f Hl Hf.
  - unfold leaf. rewrite Hf. simpl. by destruct (flag _ _).
  - pose proof (t_link _ _ _ Ht _ _ _ _ Hf (user_slot_of l vpn Hv ltac:(lia))) as Hk.
    rewrite pos_slot in Hk by done. unfold links in Hk. simpl.
    destruct (tb !! (l, pos l vpn)) as [g|] eqn:Hg.
    + destruct Hk as (-> & -> & Hfr). rewrite Hfr. apply IH; [lia|done].
    + rewrite Hk. unfold leaf. destruct (tb !! (0%nat, pos 0 vpn)) as [h|] eqn:Hh; [|done].
      destruct (ancestors m root tb vpn l h Ht) as [g' Hg']; [done..|lia|congruence].
Qed.

Lemma hw_walk_leaf m root tb vpn :
  tree m root tb -> user_page vpn ->
  hw_walk m 3 root vpn = pair 0%nat <$> leaf m tb vpn.
Proof.
  intros Ht Hv. apply (hw_walk_tree m root tb); [done..|].
  rewrite pos_top by done. apply (t_root _ _ _ Ht).
Qed.

(** ** Changes *)

(** Two memories agree on the entries of the tables. *)
Definition agree tb m m' : Prop :=
  forall p f i, tb !! p = Some f -> 0 <= i < 512 -> m' f i = m f i.

Lemma tree_agree m m' root tb : tree m root tb -> agree tb m m' -> tree m' root tb.
Proof.
  intros [] Ha. split; try done. intros l v f i Hf Hi.
  rewrite (Ha _ _ _ Hf) by apply Hi. by apply t_link0.
Qed.

Lemma leaf_agree m m' tb vpn : agree tb m m' -> leaf m' tb vpn = leaf m tb vpn.
Proof.
  intros Ha. unfold leaf. destruct (tb !! (0%nat, pos 0 vpn)) as [f|] eqn:Hf; [|done]. simpl.
  by rewrite (Ha _ _ _ Hf) by apply slot_range.
Qed.

(** A new, empty table [g] under entry [i] of the table [f]. *)
Lemma tree_link m m' root tb l v f i g e :
  tree m root tb -> tb !! (S l, v) = Some f -> user_slot l v i -> (l <= 2)%nat ->
  (forall p, tb !! p <> Some g) -> tb !! (l, 512 * v + i) = None ->
  links e (Some g) ->
  m' f i = e ->
  (forall h j, 0 <= j < 512 -> h <> f \/ j <> i -> m' h j = if h =? g then 0 else m h j) ->
  tree m' root (<[(l, 512 * v + i) := g]> tb) /\
  (forall vpn, leaf m' (<[(l, 512 * v + i) := g]> tb) vpn = leaf m tb vpn).
Proof.
  intros Ht Hf Hi Hl Hg Hnew Hlink He Hm. pose proof Ht as [Hroot Htop Hlev Hinj Hpar Hk].
  assert (Hfg : f <> g) by (intros ->; by eapply Hg).
  assert (Hother : forall p h j, tb !! p = Some h -> 0 <= j < 512 -> (p <> (S l, v) \/ j <> i) ->
    m' h j = m h j).
  { intros p h j Hp Hj Hne. rewrite Hm; [|done|].
    - destruct (Z.eqb_spec h g) as [->|]; [by destruct (Hg p)|done].
    - destruct Hne as [Hne|]; [left; intros ->; by apply Hne, (Hinj _ _ f)|by right]. }
  assert (Hzero : forall j, 0 <= j < 512 -> m' g j = 0).
  { intros j Hj. rewrite Hm; [by rewrite Z.eqb_refl|done|by left]. }
  split.
  - split.
    + rewrite lookup_insert_ne; [done|]. intros [= -> ?]. lia.
    + intros w h. rewrite lookup_insert_ne; [apply Htop|]. intros [= -> ?]. lia.
    + intros k w h [[[= <- <-] <-]|[_ Hh]]%lookup_insert_Some; [lia|by eapply Hlev].
    + intros p q h. rewrite !lookup_insert_Some.
      intros [[<- <-]|[Hp1 Hp2]] [[<- Hh]|[Hq1 Hq2]]; [done|by destruct (Hg q)| |by eapply Hinj].
      subst h. by destruct (Hg p).
    + intros k w h [[[= <- <-] <-]|[_ Hh]]%lookup_insert_Some Hk3.
      * destruct Hi as [Hi _]. replace ((512 * v + i) / 512) with v by dlia.
        exists f. rewrite lookup_insert_ne; [done|]. intros [= ? ?]. lia.
      * destruct (Hpar _ _ _ Hh Hk3) as [h' Hh'].
        destruct (decide ((l, 512 * v + i) = (S k, w / 512))) as [->|Hne];
          [rewrite lookup_insert_eq; by eexists|]. rewrite lookup_insert_ne by done. by eexists.
    + intros k w h j Hh Hj. apply lookup_insert_Some in Hh as [[[= Hlk <-] <-]|[Hne Hh]].
      * rewrite Hzero by apply Hj.
        rewrite lookup_insert_ne by (intros [= ? ?]; lia).
        destruct (tb !! (k, _)) as [h|] eqn:Ek; [|done]. exfalso.
        destruct (Hpar _ _ _ Ek) as [h' Hh']; [lia|].
        destruct Hj as [Hj _]. replace ((512 * (512 * v + i) + j) / 512) with (512 * v + i) in Hh' by dlia.
        rewrite <- Hlk, Hnew in Hh'. done.
      * destruct (decide ((S k, w) = (S l, v) /\ j = i)) as [[[= -> ->] ->]|Hn].
        -- rewrite lookup_insert_eq. rewrite Hf in Hh. injection Hh as <-. by rewrite He.
        -- rewrite (Hother _ _ _ Hh) by (try apply Hj; tauto || (destruct (decide (j = i)); tauto)).
           rewrite lookup_insert_ne; [by apply Hk|].
           intros [= -> Heq]. apply Hn. destruct Hj as [Hj _], Hi as [Hi _]. split; [f_equal|]; lia.
  - intros vpn. unfold leaf. destruct (decide ((l, 512 * v + i) = (0%nat, pos 0 vpn))) as [Heq|Hne].
    + rewrite <- Heq, lookup_insert_eq, Hnew. simpl. by rewrite Hzero by apply slot_range.
    + rewrite lookup_insert_ne by done. destruct (tb !! (0%nat, pos 0 vpn)) as [h|] eqn:Hh; [|done].
      simpl. rewrite (Hother _ _ _ Hh); [done|apply slot_range|]. left. intros [=].
Qed.

(** A new value of one page-table entry. *)
Lemma tree_leaf m m' root tb vpn f e :
  tree m root tb -> tb !! (0%nat, pos 0 vpn) = Some f ->
  m' f (slot 0 vpn) = e ->
  (forall h j, 0 <= j < 512 -> h <> f \/ j <> slot 0 vpn -> m' h j = m h j) ->
  tree m' root tb /\
  (forall w, leaf m' tb w =
    if w =? vpn then (if flag e PAGE_PRESENT then Some e else None) else leaf m tb w).
Proof.
  intros Ht Hf He Hm. pose proof Ht as [Hroot Htop Hlev Hinj Hpar Hk]. split.
  - split; try done. intros l v h i Hh Hi. rewrite Hm; [by apply Hk|apply Hi|].
    left. intros ->. by pose proof (Hinj _ _ _ Hh Hf).
  - intros w. unfold leaf. destruct (Z.eqb_spec w vpn) as [->|Hne].
    + by rewrite Hf; simpl; rewrite He.
    + destruct (tb !! (0%nat, pos 0 w)) as [h|] eqn:Hh; [|done]. simpl.
      rewrite Hm; [done|apply slot_range|].
      destruct (decide (slot 0 w = slot 0 vpn)) as [Hs|]; [left|by right].
      intros ->. pose proof (Hinj _ _ _ Hh Hf) as [= Hp]. by apply Hne, pos_0_eq.
Qed.
