(* ===== verification/MmuFacts.v ===== *)
(** * Page tables: memory access and one level of the tree

    The addresses of the direct map, loads and stores as operations on table
    entries, frames taken from the physical memory manager, and the
    specification of [get_next_level] and [descend] on a page-table tree. *)

From stdpp Require Import base numbers list list_numbers gmap.
From S2P Require Import Prelude Bitmap Pmm PmmFacts PmmSpec Mmu PageTree.

Implicit Types (s : machine) (f i : Z).

Definition word s f i : Z := default 0 (ram s !! (512 * f + i)).
Definition frame_addr s f : Z := direct_map s + 4096 * f.
Definition in_ram s f : Prop := 0 <= f < total_pages (frames s).
Definition free s : gset Z := abs_free (frames s).

(** The direct map covers the memory the allocator manages, and the three
    copies of its base agree. *)
Record mm_ok s : Prop := {
  mm_pmm : pmm_inv (frames s);
  mm_hhdm : mmu_hhdm_offset s = direct_map s;
  mm_off : hhdm_offset (frames s) = direct_map s;
  mm_ram : 512 * total_pages (frames s) <= ram_words s;
  mm_phys : total_pages (frames s) < 2 ^ 40
}.

(** What the operations below never change. *)
Record same_machine s s' : Prop := {
  sm_words : ram_words s' = ram_words s;
  sm_direct : direct_map s' = direct_map s;
  sm_cr3 : cr3 s' = cr3 s;
  sm_hhdm : mmu_hhdm_offset s' = mmu_hhdm_offset s;
  sm_layout : same_layout (frames s) (frames s')
}.

#[global] Instance same_machine_refl : Reflexive same_machine.
Proof. intros s. by split. Qed.
#[global] Instance same_machine_trans : Transitive same_machine.
Proof. intros s1 s2 s3 [] []. split; try congruence. by eapply same_layout_trans. Qed.

Lemma mm_ok_same s s' : mm_ok s -> same_machine s s' -> pmm_inv (frames s') -> mm_ok s'.
Proof. intros [] [? ? ? ? (_ & Ht & Ho & _)] Hp. split; [done|congruence..|lia|lia]. Qed.

Lemma in_ram_same s s' f : same_machine s s' -> in_ram s' f <-> in_ram s f.
Proof. intros [_ _ _ _ (_ & Ht & _)]. unfold in_ram. by rewrite Ht. Qed.

Lemma frame_addr_same s s' f : same_machine s s' -> frame_addr s' f = frame_addr s f.
Proof. intros [_ Hd _ _ _]. unfold frame_addr. by rewrite Hd. Qed.

(** ** Addresses *)

Section addresses.
Context (s : machine) (Hs : mm_ok s).

Lemma direct_map_range : 0 < direct_map s /\ direct_map s + 4096 * total_pages (frames s) <= 2 ^ 64.
Proof. destruct Hs as [[_ _ _ _ _ _ Ho] _ <- _ _]. unfold PAGE_SIZE in Ho. lia. Qed.

Lemma entry_frame f i : in_ram s f -> 0 <= i < 512 ->
  entry (frame_addr s f) i = direct_map s + 8 * (512 * f + i).
Proof.
  unfold in_ram, entry, frame_addr, u64. intros Hf Hi. pose proof direct_map_range.
  rewrite Z.mod_small; lia.
Qed.

Lemma word_at_entry f i : in_ram s f -> 0 <= i < 512 ->
  word_at s (entry (frame_addr s f) i) = Some (512 * f + i).
Proof.
  intros Hf Hi. rewrite entry_frame by done. unfold word_at, in_ram in *.
  pose proof (mm_ram _ Hs).
  replace (direct_map s + 8 * (512 * f + i) - direct_map s) with ((512 * f + i) * 8) by lia.
  rewrite Z_mod_mult, Z_div_mult by lia.
  by rewrite (proj2 (Z.leb_le _ _)), (proj2 (Z.ltb_lt _ _)) by lia.
Qed.

Lemma entry_not_null f i : in_ram s f -> 0 <= i < 512 ->
  (entry (frame_addr s f) i =? NULL) = false.
Proof.
  intros Hf Hi. rewrite entry_frame by done. unfold in_ram in *.
  pose proof direct_map_range. apply Z.eqb_neq. unfold NULL. lia.
Qed.

Lemma frame_addr_not_null f : in_ram s f -> (frame_addr s f =? NULL) = false.
Proof.
  intros Hf. unfold in_ram, frame_addr, NULL in *. pose proof direct_map_range. apply Z.eqb_neq. lia.
Qed.

Lemma frame_addr_entry f : in_ram s f -> frame_addr s f = entry (frame_addr s f) 0.
Proof. intros Hf. rewrite entry_frame by done. unfold frame_addr. lia. Qed.

Lemma wp_load_entry (Q : Z -> machine -> Prop) f i :
  in_ram s f -> 0 <= i < 512 -> Q (word s f i) s -> wp (load (entry (frame_addr s f) i)) Q s.
Proof.
  intros Hf Hi HQ. unfold wp, load. by rewrite entry_not_null, word_at_entry by done.
Qed.

Lemma virt_to_phys_frame f : in_ram s f -> u64 (frame_addr s f - mmu_hhdm_offset s) = 4096 * f.
Proof.
  unfold in_ram. intros Hf. rewrite (mm_hhdm _ Hs). unfold frame_addr, u64.
  pose proof (inv_total _ (mm_pmm _ Hs)). rewrite Z.mod_small; lia.
Qed.

Lemma phys_to_virt_frame f : in_ram s f -> u64 (4096 * f + mmu_hhdm_offset s) = frame_addr s f.
Proof.
  unfold in_ram. intros Hf. rewrite (mm_hhdm _ Hs). unfold frame_addr, u64.
  pose proof direct_map_range. rewrite Z.mod_small; lia.
Qed.

Lemma page_addr_frame f : page_addr (frames s) f = frame_addr s f.
Proof. unfold page_addr, frame_addr, PAGE_SIZE. by rewrite (mm_off _ Hs). Qed.
End addresses.

(** One entry of memory changed. *)
Definition put_word s f i (e : Z) : machine := set_ram (<[512 * f + i := e]> (ram s)) s.

Lemma wp_store_entry (Q : unit -> machine -> Prop) s f i e :
  mm_ok s -> in_ram s f -> 0 <= i < 512 ->
  Q tt (put_word s f i e) -> wp (store (entry (frame_addr s f) i) e) Q s.
Proof.
  intros Hs Hf Hi HQ. unfold wp, store. by rewrite entry_not_null, word_at_entry by done.
Qed.

Lemma word_put s f i e h j : 0 <= i < 512 -> 0 <= j < 512 ->
  word (put_word s f i e) h j = if decide (h = f /\ j = i) then e else word s h j.
Proof.
  intros Hi Hj. unfold word, put_word. simpl. case_decide as Hd.
  - destruct Hd as [-> ->]. by rewrite lookup_insert_eq.
  - rewrite lookup_insert_ne; [done|]. lia.
Qed.

(** ** Entry values *)

Lemma addr_mask_frame e : Z.land e PAGE_ADDR_MASK = 4096 * frame_of e.
Proof.
  unfold frame_of. apply Z_div_exact_full_2; [lia|].
  change 4096 with (2 ^ 12). rewrite <- Z.land_ones by lia. rewrite <- Z.land_assoc.
  change (Z.land PAGE_ADDR_MASK (Z.ones 12)) with 0. apply Z.land_0_r.
Qed.

Lemma frame_of_range e : 0 <= frame_of e < 2 ^ 40.
Proof.
  unfold frame_of. change PAGE_ADDR_MASK with (Z.land (Z.lnot 0xFFF) (Z.ones 52)).
  rewrite Z.land_assoc, Z.land_ones by lia.
  pose proof (Z.mod_pos_bound (Z.land e (Z.lnot 0xFFF)) (2 ^ 52)). dlia.
Qed.

(** The frame of an entry built from a page address and flags. *)
Lemma frame_of_entry f fl : 0 <= f < 2 ^ 40 -> Z.land fl PAGE_ADDR_MASK = 0 ->
  frame_of (Z.lor (Z.lor (4096 * f) fl) PAGE_PRESENT) = f.
Proof.
  intros Hf Hfl. unfold frame_of. rewrite !Z.land_lor_distr_l, Hfl, Z.lor_0_r.
  change (Z.land PAGE_PRESENT PAGE_ADDR_MASK) with 0. rewrite Z.lor_0_r.
  rewrite Z.mul_comm. change 4096 with (2 ^ 12). rewrite <- Z.shiftl_mul_pow2 by lia.
  rewrite <- Z.shiftr_div_pow2 by lia. rewrite Z.shiftr_land, Z.shiftr_shiftl_l by lia.
  change (12 - 12) with 0. rewrite Z.shiftl_0_r.
  change (Z.shiftr PAGE_ADDR_MASK 12) with (Z.ones 40). rewrite Z.land_ones by lia.
  apply Z.mod_small. lia.
Qed.

Lemma flag_testbit e n : 0 <= n -> flag e (Z.shiftl 1 n) = Z.testbit e n.
Proof.
  intros Hn. unfold flag. rewrite Z.shiftl_1_l. destruct (Z.eqb_spec (Z.land e (2 ^ n)) 0) as [E|E]; simpl.
  - symmetry. assert (Hb : Z.testbit (Z.land e (2 ^ n)) n = false) by (by rewrite E, Z.bits_0).
    rewrite Z.land_spec, Z.pow2_bits_true, andb_true_r in Hb by done. done.
  - symmetry. destruct (Z.testbit e n) eqn:Eb; [done|]. exfalso. apply E.
    apply Z.bits_inj'. intros k Hk. rewrite Z.land_spec, Z.bits_0.
    destruct (decide (k = n)) as [->|Hne]; [by rewrite Eb|].
    by rewrite Z.pow2_bits_false, andb_false_r by lia.
Qed.

Lemma flag_present e fl : flag (Z.lor (Z.lor e fl) PAGE_PRESENT) PAGE_PRESENT = true.
Proof.
  unfold PAGE_PRESENT. rewrite flag_testbit by lia. rewrite !Z.lor_spec.
  change (Z.testbit (Z.shiftl 1 0) 0) with true. by rewrite orb_true_r.
Qed.

Lemma testbit_frame f n : 0 <= n < 12 -> Z.testbit (4096 * f) n = false.
Proof.
  intros Hn. rewrite Z.mul_comm. change 4096 with (2 ^ 12). apply Z.mul_pow2_bits_low; lia.
Qed.

(** The flags [mmu_map_page] gives to intermediate tables. *)
Definition table_flags (flags : Z) : Z := Z.lor PAGE_WRITE (Z.land flags PAGE_USER).

Lemma table_flags_mask flags : Z.land (table_flags flags) PAGE_ADDR_MASK = 0.
Proof.
  unfold table_flags. rewrite Z.land_lor_distr_l, <- Z.land_assoc.
  change (Z.land PAGE_USER PAGE_ADDR_MASK) with 0. by rewrite Z.land_0_r.
Qed.

Lemma table_entry_links f flags : 0 <= f < 2 ^ 40 ->
  links (Z.lor (Z.lor (4096 * f) (table_flags flags)) PAGE_PRESENT) (Some f).
Proof.
  intros Hf. split_and!; [apply flag_present| |].
  - unfold PAGE_HUGE, table_flags. rewrite flag_testbit by lia.
    rewrite !Z.lor_spec, testbit_frame, Z.land_spec by lia.
    change (Z.testbit PAGE_USER 7) with false. by rewrite andb_false_r.
  - apply frame_of_entry; [done|apply table_flags_mask].
Qed.

(** ** Frames *)

Lemma elem_of_free s f : f ∈ free s -> in_ram s f.
Proof. unfold free. rewrite elem_of_abs_free. intros [? _]. done. Qed.

Lemma wp_alloc_frame (Q : Z -> machine -> Prop) s :
  mm_ok s ->
  (free s = ∅ -> Q NULL s) ->
  (forall p f, f ∈ free s -> pmm_inv p -> same_layout (frames s) p ->
     abs_free p = free s ∖ {[f]} -> Q (frame_addr s f) (set_frames p s)) ->
  wp (in_frames pmm_alloc) Q s.
Proof.
  intros Hs Hno Hyes. pose proof (sim_alloc _ (mm_pmm _ Hs)) as Hsim.
  simpl in Hsim. apply wp_bind_inv in Hsim. pose proof (pmm_alloc_wp _ (mm_pmm _ Hs)) as Hw.
  unfold wp, in_frames, ret in *. destruct (pmm_alloc (frames s)) as [[a p]|]; [|done].
  destruct Hsim as (r & Hg & Hi & Hl & Hst).
  inversion Hst as [F f Hf E1 E2 E3|E1 E2 E3| | | | | |]; subst r.
  - simpl in Hg. unfold granted in Hg. destruct (a =? NULL); [done|]. injection Hg as ->.
    rewrite (page_addr_frame s Hs). by apply (Hyes p f).
  - simpl in Hg. unfold granted in Hg. destruct (Z.eqb_spec a NULL) as [->|]; [|done].
    destruct (find_free_ref (frames s)) as [q|].
    + destruct Hw as (_ & Hq & _). apply elem_of_abs_free in Hq. rewrite <- E1 in Hq. set_solver.
    + destruct Hw as [_ ->]. specialize (Hno (eq_sym E1)). by destruct s.
Qed.

Lemma wp_zero_page (Q : unit -> machine -> Prop) s f :
  mm_ok s -> in_ram s f ->
  (forall r, (forall h j, 0 <= j < 512 -> word (set_ram r s) h j = if h =? f then 0 else word s h j) ->
     Q tt (set_ram r s)) ->
  wp (zero_page (frame_addr s f)) Q s.
Proof.
  intros Hs Hf HQ. unfold zero_page. eapply wp_mono.
  - apply (wp_for_each (fun k _ s' => exists r, s' = set_ram r s /\
      forall h j, 0 <= j < 512 ->
        word s' h j = if (h =? f) && (j <? k) then 0 else word s h j)).
    + exists (ram s). split; [by destruct s|]. intros h j Hj.
      by rewrite (proj2 (Z.ltb_ge j 0)), andb_false_r by lia.
    + intros k [] s1 Hk (r & -> & Hr).
      change (frame_addr s f) with (frame_addr (set_ram r s) f).
      apply wp_store_entry; [by destruct Hs; split|done|lia|].
      eexists. split; [reflexivity|]. intros h j Hj. rewrite word_put by lia. rewrite Hr by done.
      destruct (Z.eqb_spec h f), (Z.ltb_spec j k), (Z.ltb_spec j (k + 1)); case_decide; simpl;
        done || lia || (exfalso; lia).
  - intros [] s1 (r & -> & Hr). apply HQ. intros h j Hj. rewrite Hr by done.
    rewrite (proj2 (Z.ltb_lt j _)) by lia. by rewrite andb_true_r.
Qed.
