(* ===== verification/MmuSpec.v ===== *)
(** * Specification of the page-table code

    An address space is a [page_directory_t] whose PML4 is the root of a
    page-table tree ([space]).  [mmu_map_page] and [mmu_unmap_page] refine
    updates of the map from virtual pages to page-table entries that the
    processor's walk computes, and [mmu_get_physical_address] computes that
    walk. *)

From stdpp Require Import base numbers list list_numbers gmap.
From S2P Require Import Prelude Bitmap Pmm PmmFacts PmmInit PmmSpec Mmu PageTree MmuFacts.

Implicit Types (s : machine) (tb : tables).

Record space s (pd d root : Z) tb : Prop := {
  sp_mm : mm_ok s;
  sp_tree : tree (word s) root tb;
  sp_alloc p f : tb !! p = Some f -> in_ram s f /\ f ∉ free s;
  sp_pd : pd = frame_addr s d;
  sp_pd_ram : in_ram s d /\ d ∉ free s;
  sp_pd_apart p : tb !! p <> Some d;
  sp_pml4 : word s d 0 = frame_addr s root
}.

(** Words that user-half tables do not use. *)
Definition outside tb (root f i : Z) : Prop :=
  (forall p, tb !! p <> Some f) \/ (f = root /\ 256 <= i).

(** The tables of a space may have grown, by frames that were free, and no
    other memory in use has changed, the kernel half of the PML4 included. *)
Record evolves s tb s' tb' (root : Z) : Prop := {
  ev_machine : same_machine s s';
  ev_sub : tb ⊆ tb';
  ev_free f : f ∈ free s <-> f ∈ free s' \/ exists p, tb' !! p = Some f /\ tb !! p = None;
  ev_words f i : in_ram s f -> f ∉ free s -> outside tb root f i -> 0 <= i < 512 ->
    word s' f i = word s f i
}.

(** The space has got new tables and maps what it mapped. *)
Record grown s tb s' tb' (root : Z) : Prop := {
  gr_evolves : evolves s tb s' tb' root;
  gr_tlb : tlb s' = tlb s;
  gr_leaf vpn : leaf (word s') tb' vpn = leaf (word s) tb vpn
}.

Lemma evolves_refl s tb root : evolves s tb s tb root.
Proof.
  split; try done. intros f. split; [by left|]. intros [?|(p & H1 & H2)]; [done|congruence].
Qed.

Lemma grown_refl s tb root : grown s tb s tb root.
Proof. split; try done. apply evolves_refl. Qed.

Section space.
Context (pd d root : Z).

Lemma evolves_trans s1 tb1 s2 tb2 s3 tb3 :
  evolves s1 tb1 s2 tb2 root -> evolves s2 tb2 s3 tb3 root -> evolves s1 tb1 s3 tb3 root.
Proof.
  intros [Hm1 Hs1 Hf1 Hw1] [Hm2 Hs2 Hf2 Hw2]. split.
  - by etransitivity.
  - by etransitivity.
  - intros f. rewrite Hf1, Hf2. split.
    + intros [[Hf|(p & Hp & Hn)]|(p & Hp & Hn)]; [by left| |].
      * right. exists p. split; [done|]. apply eq_None_not_Some. intros [g Hg].
        pose proof (lookup_weaken _ _ _ _ Hg Hs1). congruence.
      * right. exists p. split; [by eapply lookup_weaken|done].
    + intros [Hf|(p & Hp & Hn)]; [by left; left|].
      destruct (tb2 !! p) as [g|] eqn:Eg; [|left; right; by exists p].
      right. exists p. split; [|done]. rewrite (lookup_weaken _ _ _ _ Eg Hs2) in Hp. congruence.
  - intros f i Hf Hfree Ho Hi.
    assert (Hout : outside tb2 root f i).
    { destruct Ho as [Ho|Ho]; [left|by right]. intros p Hp.
      destruct (tb1 !! p) as [g|] eqn:Eg.
      - rewrite (lookup_weaken _ _ _ _ Eg Hs1) in Hp. injection Hp as ->. by apply (Ho p).
      - apply Hfree, Hf1. right. by exists p. }
    rewrite Hw2, Hw1; try done; [by apply (in_ram_same s1 s2 f Hm1)|].
    intros Hin. apply Hfree, Hf1. by left.
Qed.

Lemma grown_trans s1 tb1 s2 tb2 s3 tb3 :
  grown s1 tb1 s2 tb2 root -> grown s2 tb2 s3 tb3 root -> grown s1 tb1 s3 tb3 root.
Proof.
  intros [He1 Ht1 Hl1] [He2 Ht2 Hl2].
  split; [by eapply evolves_trans|congruence|]. intros vpn. by rewrite Hl2.
Qed.

(** ** Descending *)

Lemma wp_descend (Q : option Z -> machine -> Prop) s tb l v f i :
  space s pd d root tb -> tb !! (S l, v) = Some f -> user_slot l v i ->
  Q (frame_addr s <$> tb !! (l, 512 * v + i)) s ->
  wp (descend (frame_addr s f) i) Q s.
Proof.
  intros Hsp Hf Hi HQ. pose proof (sp_mm _ _ _ _ _ Hsp) as Hmm.
  destruct (sp_alloc _ _ _ _ _ Hsp _ _ Hf) as [Hram _].
  pose proof (t_link _ _ _ (sp_tree _ _ _ _ _ Hsp) _ _ _ _ Hf Hi) as Hk. unfold links in Hk.
  unfold descend. wp_step. apply wp_load_entry; [done|done|apply Hi|].
  destruct (tb !! (l, _)) as [g|] eqn:Hg.
  - destruct Hk as (-> & _ & Hfr). simpl negb. cbv iota. unfold phys_to_virt. wp_steps.
    rewrite addr_mask_frame, Hfr, phys_to_virt_frame; [done|done|].
    by destruct (sp_alloc _ _ _ _ _ Hsp _ _ Hg).
  - rewrite Hk. simpl negb. cbv iota. by wp_step.
Qed.

(** ** Creating a table *)

Lemma space_new_table s tb l v f i g p r flags :
  space s pd d root tb -> tb !! (S l, v) = Some f -> user_slot l v i -> (l <= 2)%nat ->
  tb !! (l, 512 * v + i) = None ->
  g ∈ free s -> pmm_inv p -> same_layout (frames s) p -> abs_free p = free s ∖ {[g]} ->
  (forall h j, 0 <= j < 512 ->
     word (set_ram r (set_frames p s)) h j = if h =? g then 0 else word s h j) ->
  let s' := put_word (set_ram r (set_frames p s)) f i
              (Z.lor (Z.lor (4096 * g) (table_flags flags)) PAGE_PRESENT) in
  let tb' := <[(l, 512 * v + i) := g]> tb in
  space s' pd d root tb' /\ grown s tb s' tb' root.
Proof.
  intros Hsp Hf Hi Hl Hnew Hg Hp Hlay Hfree Hr s' tb'.
  pose proof Hsp as [Hmm Htree Halloc Hpd [Hdr Hdf] Hapart Hpml4].
  destruct (Halloc _ _ Hf) as [Hfr Hff]. pose proof (elem_of_free _ _ Hg) as Hgr.
  assert (Hsame : same_machine s s') by (by split).
  assert (Hngt : forall q, tb !! q <> Some g) by (intros q Hq; by apply Halloc in Hq as [_ []]).
  assert (Hgf : g <> f) by (intros ->; done).
  assert (Hlinks : links (Z.lor (Z.lor (4096 * g) (table_flags flags)) PAGE_PRESENT) (Some g)).
  { apply table_entry_links. unfold in_ram in Hgr. pose proof (mm_phys _ Hmm). lia. }
  assert (Hw : forall h j, 0 <= j < 512 -> h <> f \/ j <> i ->
    word s' h j = if h =? g then 0 else word s h j).
  { intros h j Hj Hne. unfold s'. rewrite word_put by (try apply Hi; done).
    rewrite decide_False by tauto. by apply Hr. }
  destruct (tree_link (word s) (word s') root tb l v f i g
    (Z.lor (Z.lor (4096 * g) (table_flags flags)) PAGE_PRESENT)) as [Htree' Hleaf']; try done.
  { unfold s'. rewrite word_put by apply Hi. by rewrite decide_True. }
  assert (Hfree' : free s' = free s ∖ {[g]}) by done.
  split.
  - split.
    + by eapply mm_ok_same.
    + exact Htree'.
    + intros q h [[<- <-]|[_ Hq]]%lookup_insert_Some; rewrite Hfree';
        rewrite (in_ram_same s s') by done; [set_solver|].
      destruct (Halloc _ _ Hq). set_solver.
    + by rewrite Hpd, (frame_addr_same s s').
    + rewrite (in_ram_same s s') by done. rewrite Hfree'. set_solver.
    + intros q [[<- <-]|[_ Hq]]%lookup_insert_Some; [done|by eapply Hapart].
    + rewrite Hw; [|done|left; intros ->; by eapply Hapart].
      rewrite (proj2 (Z.eqb_neq d g)) by (intros ->; done). by rewrite (frame_addr_same s s').
  - split; [|done|exact Hleaf']. split; [done| | |].
    + by apply insert_subseteq.
    + intros h. rewrite Hfree', elem_of_difference, elem_of_singleton.
      split.
      * intros Hh. destruct (decide (h = g)) as [->|]; [right|by left].
        exists (l, 512 * v + i). unfold tb'. by rewrite lookup_insert_eq.
      * intros [[? _]|(q & Hq & Hn)]; [done|].
        apply lookup_insert_Some in Hq as [[_ <-]|[_ Hq]]; [done|congruence].
    + intros h j Hh Hhf Ho Hj. rewrite Hw; [by rewrite (proj2 (Z.eqb_neq h g)) by (intros ->; done)|done|].
      destruct (decide (h = f)) as [->|]; [|by left]. right. intros ->.
      destruct Ho as [Ho|[-> Ho]]; [by apply (Ho (S l, v))|].
      pose proof (t_inj _ _ _ Htree _ _ _ Hf (t_root _ _ _ Htree)) as [= -> _].
      destruct Hi as [_ Hi]. specialize (Hi eq_refl). lia.
Qed.

Lemma wp_next_level (Q : Z -> machine -> Prop) s tb l v f i flags :
  space s pd d root tb -> tb !! (S l, v) = Some f -> user_slot l v i -> (l <= 2)%nat ->
  (tb !! (l, 512 * v + i) = None -> free s = ∅ -> Q NULL s) ->
  (forall s' tb' g, space s' pd d root tb' -> grown s tb s' tb' root ->
     tb' !! (l, 512 * v + i) = Some g -> Q (frame_addr s' g) s') ->
  wp (get_next_level (frame_addr s f) i true (table_flags flags)) Q s.
Proof.
  intros Hsp Hf Hi Hl Hno Hyes. pose proof (sp_mm _ _ _ _ _ Hsp) as Hmm.
  destruct (sp_alloc _ _ _ _ _ Hsp _ _ Hf) as [Hram Hff].
  pose proof (t_link _ _ _ (sp_tree _ _ _ _ _ Hsp) _ _ _ _ Hf Hi) as Hk. unfold links in Hk.
  pose proof (proj1 Hi) as Hi512. unfold get_next_level. wp_step. apply wp_load_entry; try done.
  destruct (tb !! (l, 512 * v + i)) as [g|] eqn:Hg.
  - destruct Hk as (-> & _ & Hfr). cbn [negb]. wp_steps. cbn [negb]. wp_step.
    apply wp_load_entry; try done. unfold phys_to_virt. wp_step.
    destruct (sp_alloc _ _ _ _ _ Hsp _ _ Hg) as [Hgr _].
    rewrite addr_mask_frame, Hfr, phys_to_virt_frame by done.
    apply (Hyes s tb); [done|apply grown_refl|done].
  - rewrite Hk. cbn [negb]. wp_steps. apply wp_alloc_frame; [done| |].
    { intros He. cbn. by apply Hno. }
    intros p g Hgf Hp Hlay Hfree. pose proof (elem_of_free _ _ Hgf) as Hgr.
    rewrite frame_addr_not_null by done. wp_step.
    assert (Hmm1 : mm_ok (set_frames p s)) by (eapply mm_ok_same; [exact Hmm|by split|done]).
    assert (Hgr1 : in_ram (set_frames p s) g).
    { by rewrite (in_ram_same s) by (by split). }
    change (frame_addr s g) with (frame_addr (set_frames p s) g).
    apply wp_zero_page; [done|done|]. intros r Hr. unfold virt_to_phys. wp_steps.
    pose proof (virt_to_phys_frame _ Hmm1 g Hgr1) as Hv. simpl in Hv. simpl mmu_hhdm_offset.
    rewrite Hv. clear Hv.
    change (frame_addr s f) with (frame_addr (set_ram r (set_frames p s)) f).
    assert (Hmm2 : mm_ok (set_ram r (set_frames p s))) by (by destruct Hmm1; split).
    apply wp_store_entry; [done| |done|].
    { by rewrite (in_ram_same s) by (by split). }
    destruct (space_new_table s tb l v f i g p r flags Hsp Hf Hi Hl Hg Hgf Hp Hlay Hfree Hr) as [Hsp' Hgr'].
    set (s' := put_word _ _ _ _) in *. wp_step. cbn [negb]. wp_step.
    destruct (sp_alloc _ _ _ _ _ Hsp' (S l, v) f) as [Hfr' _].
    { rewrite lookup_insert_ne; [done|]. intros [= ? ?]. lia. }
    change (frame_addr (set_ram r (set_frames p s)) f) with (frame_addr s' f).
    pose proof (sp_mm _ _ _ _ _ Hsp') as Hmm'.
    apply wp_load_entry; [done|done|done|]. unfold phys_to_virt. wp_step.
    rewrite addr_mask_frame. unfold s' at 1. rewrite word_put, decide_True by done.
    rewrite frame_of_entry.
    + destruct (sp_alloc _ _ _ _ _ Hsp' (l, 512 * v + i) g) as [Hgr'' _]; [by rewrite lookup_insert_eq|].
      rewrite phys_to_virt_frame by done. eapply Hyes; [done|done|]. by rewrite lookup_insert_eq.
    + unfold in_ram in Hgr. pose proof (mm_phys _ Hmm). lia.
    + apply table_flags_mask.
Qed.
(** ** Indices *)

(** A user address and its virtual page number. *)
Definition user_addr (virt : Z) : Prop := 0 <= virt < 2 ^ 47.
Definition vpn_of (virt : Z) : Z := virt / 4096.

Lemma user_vpn virt : user_addr virt -> user_page (vpn_of virt).
Proof. unfold user_addr, user_page, vpn_of. intros. dlia. Qed.

Lemma index_slot virt (l : nat) : 0 <= virt < 2 ^ 64 ->
  Z.land (Z.shiftr (page_align_down virt) (12 + 9 * Z.of_nat l)) 0x1FF = slot l (vpn_of virt).
Proof.
  intros Hv. rewrite page_align_down_eq by done. unfold slot, vpn_of, PAGE_SIZE.
  change 0x1FF with (Z.ones 9). rewrite Z.land_ones by lia. change (2 ^ 9) with 512. f_equal.
  rewrite Z.shiftr_div_pow2, Z.pow_add_r, (Z.pow_mul_r 2 9) by lia.
  change (2 ^ 12) with 4096. change (2 ^ 9) with 512.
  rewrite <- Z.div_div by lia. f_equal. dlia.
Qed.

Lemma page_align_down_vpn virt : 0 <= virt < 2 ^ 64 -> page_align_down virt / 4096 = vpn_of virt.
Proof. intros Hv. rewrite page_align_down_eq by done. unfold vpn_of, PAGE_SIZE. dlia. Qed.

Lemma indices virt : user_addr virt ->
  PML4_INDEX (page_align_down virt) = slot 3 (vpn_of virt) /\
  PDPT_INDEX (page_align_down virt) = slot 2 (vpn_of virt) /\
  PD_INDEX (page_align_down virt) = slot 1 (vpn_of virt) /\
  PT_INDEX (page_align_down virt) = slot 0 (vpn_of virt).
Proof.
  unfold user_addr. intros Hv.
  split_and!; [apply (index_slot virt 3)|apply (index_slot virt 2)|
    apply (index_slot virt 1)|apply (index_slot virt 0)]; lia.
Qed.

(** ** The root *)

Lemma wp_root_of (Q : option Z -> machine -> Prop) s tb :
  space s pd d root tb -> Q (Some (frame_addr s root)) s -> wp (root_of pd) Q s.
Proof.
  intros [Hmm Ht Ha -> [Hd _] _ Hpml4] HQ. unfold root_of, pd_pml4.
  rewrite frame_addr_not_null by done. rewrite frame_addr_entry by done.
  wp_step. apply wp_load_entry; [done|done|lia|]. wp_step.
  rewrite Hpml4, frame_addr_not_null; [done|done|].
  destruct (Ha _ _ (t_root _ _ _ Ht)). done.
Qed.

(** ** Writing a page-table entry *)

Record updated s tb s' tb' (vpn : Z) (o : option Z) : Prop := {
  up_evolves : evolves s tb s' tb' root;
  up_tlb : tlb s' = delete vpn (tlb s);
  up_leaf w : leaf (word s') tb' w = if w =? vpn then o else leaf (word s) tb w
}.

Lemma wp_set_leaf {A : Type} (k : MM A) (Q : A -> machine -> Prop) s tb s1 tb1 f e virt :
  space s pd d root tb -> grown s tb s1 tb1 root -> space s1 pd d root tb1 ->
  user_addr virt -> tb1 !! (0%nat, pos 0 (vpn_of virt)) = Some f ->
  (forall s', space s' pd d root tb1 ->
     updated s tb s' tb1 (vpn_of virt) (if flag e PAGE_PRESENT then Some e else None) ->
     wp k Q s') ->
  wp (store (entry (frame_addr s1 f) (slot 0 (vpn_of virt))) e ;;;
      mmu_flush_tlb_single (page_align_down virt) ;;; k) Q s1.
Proof.
  intros Hsp Hgr Hsp1 Hv Hf HQ. pose proof Hsp1 as [Hmm Ht Ha Hpd Hd Hap Hp4].
  destruct (Ha _ _ Hf) as [Hfr Hff]. pose proof (slot_range 0 (vpn_of virt)) as Hsl.
  wp_step. apply wp_store_entry; try done. unfold mmu_flush_tlb_single. wp_steps.
  set (s' := set_tlb _ _).
  assert (Hw : forall h j, 0 <= j < 512 -> h <> f \/ j <> slot 0 (vpn_of virt) ->
    word s' h j = word s1 h j).
  { intros h j Hj Hne. change (word s' h j) with
      (word (put_word s1 f (slot 0 (vpn_of virt)) e) h j).
    rewrite word_put by done. by rewrite decide_False by tauto. }
  destruct (tree_leaf (word s1) (word s') root tb1 (vpn_of virt) f e) as [Ht' Hl']; try done.
  { change (word s' f (slot 0 (vpn_of virt))) with
      (word (put_word s1 f (slot 0 (vpn_of virt)) e) f (slot 0 (vpn_of virt))).
    rewrite word_put by done. by rewrite decide_True. }
  apply HQ.
  - split; try done.
    + by destruct Hmm; split.
    + rewrite Hw; [done|lia|]. left. intros ->. by eapply Hap.
  - destruct Hgr as [[Hsm Hsub Hfree Hwords] Htlb Hleaf]. split; [split| |].
    + etransitivity; [exact Hsm|]. by split.
    + done.
    + exact Hfree.
    + intros h i Hh Hhf Ho Hi. rewrite <- Hwords by done. apply Hw; [done|]. left. intros ->.
      destruct (tb !! (0%nat, pos 0 (vpn_of virt))) as [g|] eqn:Eg.
      * rewrite (lookup_weaken _ _ _ _ Eg Hsub) in Hf. injection Hf as ->.
        destruct Ho as [Ho|[-> Ho]]; [by eapply Ho|].
        by pose proof (t_inj _ _ _ (sp_tree _ _ _ _ _ Hsp) _ _ _ Eg
          (t_root _ _ _ (sp_tree _ _ _ _ _ Hsp))).
      * apply Hhf, Hfree. right. by eexists.
    + simpl. rewrite Htlb. unfold PAGE_SIZE, user_addr in *. by rewrite page_align_down_vpn by lia.
    + intros w. rewrite Hl'. by rewrite Hleaf.
Qed.

(** ** Mapping *)

Definition pte (phys flags : Z) : Z := Z.lor (Z.lor (page_align_down phys) flags) PAGE_PRESENT.

Lemma wp_map_page (Q : bool -> machine -> Prop) s tb virt phys flags :
  space s pd d root tb -> user_addr virt ->
  (forall s' tb', space s' pd d root tb' -> grown s tb s' tb' root -> free s' = ∅ ->
     tb !! (0%nat, pos 0 (vpn_of virt)) = None -> Q false s') ->
  (forall s' tb', space s' pd d root tb' ->
     updated s tb s' tb' (vpn_of virt) (Some (pte phys flags)) -> Q true s') ->
  wp (mmu_map_page pd virt phys flags) Q s.
Proof.
  intros Hsp Hv Hno Hyes. pose proof (user_vpn _ Hv) as Hu. pose proof Hu as [Hu0 _].
  unfold mmu_map_page. wp_step. apply (wp_root_of _ _ tb); [done|]. cbv zeta iota.
  destruct (indices _ Hv) as (-> & -> & -> & ->). fold (table_flags flags).
  pose proof (t_root _ _ _ (sp_tree _ _ _ _ _ Hsp)) as Hroot.
  rewrite <- (pos_top (vpn_of virt)) in Hroot by done.
  wp_step. apply (wp_next_level _ _ tb 2 (pos 3 (vpn_of virt))); [done|done|by apply user_slot_of; [|lia]|lia| |].
  { rewrite pos_slot by done. intros Hn He. cbn. apply (Hno s tb); [done|apply grown_refl|done|].
    by eapply (no_table _ _ _ _ 2); [apply Hsp| |lia|]. }
  intros s1 tb1 f1 Hsp1 Hg1 Hf1. rewrite pos_slot in Hf1 by done.
  destruct (sp_alloc _ _ _ _ _ Hsp1 _ _ Hf1) as [Hr1 _].
  rewrite frame_addr_not_null by (done || apply Hsp1). wp_step.
  apply (wp_next_level _ _ tb1 1 (pos 2 (vpn_of virt))); [done|done|by apply user_slot_of; [|lia]|lia| |].
  { rewrite pos_slot by done. intros Hn He. cbn. apply (Hno s1 tb1); [done..|].
    eapply lookup_weaken_None; [|apply Hg1]. by eapply (no_table _ _ _ _ 1); [apply Hsp1| |lia|]. }
  intros s2 tb2 f2 Hsp2 Hg2 Hf2. rewrite pos_slot in Hf2 by done.
  destruct (sp_alloc _ _ _ _ _ Hsp2 _ _ Hf2) as [Hr2 _].
  pose proof (grown_trans _ _ _ _ _ _ Hg1 Hg2) as Hg12.
  rewrite frame_addr_not_null by (done || apply Hsp2). wp_step.
  apply (wp_next_level _ _ tb2 0 (pos 1 (vpn_of virt))); [done|done|by apply user_slot_of; [|lia]|lia| |].
  { rewrite pos_slot by done. intros Hn He. cbn. apply (Hno s2 tb2); [done..|].
    eapply lookup_weaken_None; [exact Hn|apply Hg12]. }
  intros s3 tb3 f3 Hsp3 Hg3 Hf3. rewrite pos_slot in Hf3 by done.
  destruct (sp_alloc _ _ _ _ _ Hsp3 _ _ Hf3) as [Hr3 _].
  pose proof (grown_trans _ _ _ _ _ _ Hg12 Hg3) as Hg13.
  rewrite frame_addr_not_null by (done || apply Hsp3). fold (pte phys flags).
  apply (wp_set_leaf (ret true) Q s tb s3 tb3 f3 (pte phys flags) virt); try done.
  intros s' Hs' Hup. unfold pte in Hup at 1. rewrite flag_present in Hup. wp_step.
  by apply (Hyes s' tb3).
Qed.

(** ** Walking and unmapping *)

Lemma wp_find_pt (Q : option Z -> machine -> Prop) s tb virt :
  space s pd d root tb -> user_addr virt ->
  Q (frame_addr s <$> tb !! (0%nat, pos 0 (vpn_of virt))) s ->
  wp (find_pt (frame_addr s root) (page_align_down virt)) Q s.
Proof.
  intros Hsp Hv HQ. pose proof (user_vpn _ Hv) as Hu. pose proof Hu as [Hu0 _].
  unfold find_pt. destruct (indices _ Hv) as (-> & -> & -> & _).
  pose proof (sp_tree _ _ _ _ _ Hsp) as Ht. pose proof (t_root _ _ _ Ht) as Hroot.
  rewrite <- (pos_top (vpn_of virt)) in Hroot by done.
  wp_step. eapply wp_descend; [done|done|by apply user_slot_of; [|lia]|]. rewrite pos_slot by done.
  destruct (tb !! (2%nat, pos 2 (vpn_of virt))) as [f2|] eqn:H2; simpl;
    [|wp_step; by rewrite (no_table _ _ _ _ 2 Ht) in HQ by (done || lia)].
  wp_step. eapply wp_descend; [done|done|by apply user_slot_of; [|lia]|]. rewrite pos_slot by done.
  destruct (tb !! (1%nat, pos 1 (vpn_of virt))) as [f1|] eqn:H1; simpl;
    [|wp_step; by rewrite (no_table _ _ _ _ 1 Ht) in HQ by (done || lia)].
  eapply wp_descend; [done|done|by apply user_slot_of; [|lia]|]. by rewrite pos_slot by done.
Qed.

Lemma wp_unmap_page (Q : bool -> machine -> Prop) s tb virt :
  space s pd d root tb -> user_addr virt ->
  (tb !! (0%nat, pos 0 (vpn_of virt)) = None -> Q false s) ->
  (forall s', space s' pd d root tb -> updated s tb s' tb (vpn_of virt) None -> Q true s') ->
  wp (mmu_unmap_page pd virt) Q s.
Proof.
  intros Hsp Hv Hno Hyes. unfold mmu_unmap_page. wp_step. apply (wp_root_of _ _ tb); [done|].
  cbv zeta iota. wp_step. apply (wp_find_pt _ _ tb); [done|done|].
  destruct (tb !! (0%nat, _)) as [f|] eqn:Hf; simpl; [|wp_step; by apply Hno].
  destruct (indices _ Hv) as (_ & _ & _ & ->).
  apply (wp_set_leaf (ret true) Q s tb s tb f 0 virt); [done|apply grown_refl|done..|].
  intros s' Hs' Hup. wp_step. by apply Hyes.
Qed.

Lemma wp_get_physical (Q : Z -> machine -> Prop) s tb virt :
  space s pd d root tb -> user_addr virt ->
  Q (match leaf (word s) tb (vpn_of virt) with
     | Some e => Z.lor (Z.land e PAGE_ADDR_MASK) (Z.land virt 0xFFF)
     | None => 0
     end) s ->
  wp (mmu_get_physical_address pd virt) Q s.
Proof.
  intros Hsp Hv HQ. unfold mmu_get_physical_address. wp_step. apply (wp_root_of _ _ tb); [done|].
  cbv zeta iota. wp_step. apply (wp_find_pt _ _ tb); [done|done|]. unfold leaf in HQ.
  destruct (tb !! (0%nat, _)) as [f|] eqn:Hf; simpl in HQ |- *; [|by wp_step].
  destruct (indices _ Hv) as (_ & _ & _ & ->). destruct (sp_alloc _ _ _ _ _ Hsp _ _ Hf) as [Hr _].
  wp_step. apply wp_load_entry; [apply Hsp|done|apply slot_range|].
  destruct (flag _ _); simpl; by wp_step.
Qed.
End space.

(** ** Creating address spaces

    [mmu_init] adopts the boot loader's page tables ([booted]) and
    [mmu_create_address_space] then makes spaces with an empty user half that
    share the kernel half. *)


(** The kernel directory [kd] with the PML4 [kr] is in place. *)
Record booted s (kd kr : Z) : Prop := {
  bt_mm : mm_ok s;
  bt_pd : kernel_pd s = frame_addr s kd;
  bt_kd : in_ram s kd /\ kd ∉ free s;
  bt_kr : in_ram s kr /\ kr ∉ free s;
  bt_pml4 : word s kd 0 = frame_addr s kr
}.

Lemma wp_free_frame (Q : unit -> machine -> Prop) s f :
  mm_ok s -> in_ram s f ->
  (forall p, pmm_inv p -> same_layout (frames s) p -> abs_free p = free s ∪ {[f]} ->
     Q tt (set_frames p s)) ->
  wp (in_frames (pmm_free (frame_addr s f))) Q s.
Proof.
  intros Hs Hf HQ. pose proof (sim_free _ (frame_addr s f) (mm_pmm _ Hs)) as Hsim.
  simpl in Hsim. apply wp_bind_inv in Hsim. unfold wp, in_frames, ret in *.
  destruct (pmm_free _ (frames s)) as [[[] p]|]; [|done].
  destruct Hsim as (r & Hg & Hi & Hl & Hst).
  assert (Hidx : addr_index (frames s) (frame_addr s f) = f).
  { rewrite <- (page_addr_frame s Hs). unfold addr_index.
    rewrite <- (Z.add_0_r (page_addr _ _)) at 1. apply page_addr_index; [apply Hs|done|done]. }
  inversion Hst as [ | | | |F a Ha Hlt E1 E2 E3 E4|F a Hskip E1 E2 E3 E4| |].
  - rewrite Hidx in E4. by apply HQ.
  - exfalso. destruct Hskip as [Hn|Hn].
    + pose proof (frame_addr_not_null s Hs f Hf) as Hnn. by rewrite Hn in Hnn.
    + rewrite Hidx in Hn. unfold in_ram in Hf. lia.
Qed.

Lemma difference_singleton_empty (X : gset Z) (x : Z) : x ∈ X -> X ∖ {[x]} = ∅ -> X = {[x]}.
Proof.
  intros Hx He. apply set_eq. intros y. rewrite elem_of_singleton. split; [|by intros ->].
  intros Hy. destruct (decide (y = x)) as [|Hne]; [done|].
  assert (Hd : y ∈ X ∖ {[x]}) by (by rewrite elem_of_difference, elem_of_singleton).
  rewrite He in Hd. by apply not_elem_of_empty in Hd.
Qed.

(** A PML4 alone: no user table below it. *)
Lemma tree_root (m : Z -> Z -> Z) (root : Z) :
  (forall i, 0 <= i < 256 -> flag (m root i) PAGE_PRESENT = false) ->
  tree m root {[ (3%nat, 0) := root ]}.
Proof.
  intros Hm. split.
  - by rewrite lookup_singleton_eq.
  - by intros v f [[= <-] _]%lookup_singleton_Some.
  - intros l v f [[= <- _] _]%lookup_singleton_Some. lia.
  - intros p q f [<- _]%lookup_singleton_Some [<- _]%lookup_singleton_Some. done.
  - intros l v f [[= <- _] _]%lookup_singleton_Some. lia.
  - intros l v f i [[= <- <-] <-]%lookup_singleton_Some [Hi Hi2].
    rewrite lookup_singleton_ne by done. apply Hm. specialize (Hi2 eq_refl). lia.
Qed.

Lemma leaf_root (m : Z -> Z -> Z) (root vpn : Z) : leaf m {[ (3%nat, 0) := root ]} vpn = None.
Proof. unfold leaf. by rewrite lookup_singleton_ne. Qed.

(** The loop that shares the kernel half. *)
Lemma wp_copy_kernel (Q : unit -> machine -> Prop) s kr root :
  mm_ok s -> in_ram s kr -> in_ram s root -> kr <> root ->
  (forall r, (forall h j, 0 <= j < 512 -> word (set_ram r s) h j =
       if (h =? root) && (256 <=? j) then word s kr j else word s h j) -> Q tt (set_ram r s)) ->
  wp (for_each 256 512 tt (fun i _ =>
        v <- load (entry (frame_addr s kr) i) ;; store (entry (frame_addr s root) i) v)) Q s.
Proof.
  intros Hs Hk Hr Hne HQ. eapply wp_mono.
  - apply (wp_for_each (fun k _ s' => exists r, s' = set_ram r s /\
      forall h j, 0 <= j < 512 -> word s' h j =
        if (h =? root) && (256 <=? j) && (j <? k) then word s kr j else word s h j)).
    + exists (ram s). split; [by destruct s|]. intros h j Hj.
      destruct (Z.leb_spec 256 j), (Z.ltb_spec j 256); rewrite ?andb_false_r; done || lia.
    + intros k [] s1 Hk1 (r & -> & Hw). assert (Hs1 : mm_ok (set_ram r s)) by (by destruct Hs; split).
      change (frame_addr s kr) with (frame_addr (set_ram r s) kr).
      change (frame_addr s root) with (frame_addr (set_ram r s) root).
      wp_step. apply wp_load_entry; [done|done|lia|]. apply wp_store_entry; [done|done|lia|].
      eexists. split; [reflexivity|]. intros h j Hj. rewrite word_put by lia. rewrite !Hw by lia.
      rewrite (proj2 (Z.eqb_neq kr root)) by done. simpl.
      destruct (Z.eqb_spec h root), (Z.leb_spec 256 j), (Z.ltb_spec j k), (Z.ltb_spec j (k + 1));
        case_decide as Hd; simpl; try done; try lia; try (exfalso; lia).
      destruct Hd as [_ ->]. done.
  - intros [] s1 (r & -> & Hw). apply HQ. intros h j Hj. rewrite Hw by done.
    rewrite (proj2 (Z.ltb_lt j _)) by lia. by rewrite andb_true_r.
Qed.

(** What a new space looks like. *)
Record created s s' (d root kr : Z) : Prop := {
  cr_machine : same_machine s s';
  cr_fresh : d ∈ free s /\ root ∈ free s /\ d <> root;
  cr_free : free s' = free s ∖ {[d; root]};
  cr_user i : 0 <= i < 256 -> word s' root i = 0;
  cr_kernel i : 256 <= i < 512 -> word s' root i = word s kr i;
  cr_phys : word s' d 1 = 4096 * root;
  cr_others f i : f ∉ free s -> 0 <= i < 512 -> word s' f i = word s f i
}.

Lemma wp_create (Q : Z -> machine -> Prop) s kd kr :
  booted s kd kr ->
  (forall s', same_machine s s' -> mm_ok s' -> free s' = free s -> (size (free s) < 2)%nat ->
     (forall f i, word s' f i = word s f i) -> Q NULL s') ->
  (forall s' d root, space s' (frame_addr s' d) d root {[ (3%nat, 0) := root ]} ->
     created s s' d root kr -> Q (frame_addr s' d) s') ->
  wp mmu_create_address_space Q s.
Proof.
  intros [Hmm Hkpd [Hkd Hkdf] [Hkr Hkrf] Hp4] Hno Hyes. unfold mmu_create_address_space.
  wp_step. apply wp_alloc_frame; [done| |].
  { intros He. cbn. apply Hno; try done. rewrite He, size_empty. lia. }
  intros p1 d Hd Hp1 Hl1 Hf1. pose proof (elem_of_free _ _ Hd) as Hdr.
  rewrite frame_addr_not_null by done. set (s1 := set_frames p1 s).
  assert (Hsm1 : same_machine s s1) by (by split).
  assert (Hmm1 : mm_ok s1) by (by eapply mm_ok_same). wp_step.
  apply wp_alloc_frame; [done| |].
  { change (free s1) with (abs_free p1). rewrite Hf1. intros He. cbn. wp_step.
    change (frame_addr s d) with (frame_addr s1 d).
    apply wp_free_frame; [done|by rewrite (in_ram_same s)|]. intros p2 Hp2 Hl2 Hf2. wp_step.
    assert (Hsm2 : same_machine s (set_frames p2 s1)) by (etransitivity; [exact Hsm1|by split]).
    change (free s1) with (abs_free p1) in Hf2. rewrite Hf1 in Hf2.
    assert (Hfs : free s = {[d]}) by (by apply difference_singleton_empty).
    apply Hno; [done|by eapply mm_ok_same| |rewrite Hfs, size_singleton; lia|done].
    change (free (set_frames p2 s1)) with (abs_free p2). rewrite Hf2, Hfs. clear. set_solver. }
  intros p2 root Hroot Hp2 Hl2 Hf2. change (free s1) with (abs_free p1) in Hroot, Hf2.
  rewrite Hf1 in Hroot, Hf2. apply elem_of_difference in Hroot as [Hroot Hne].
  rewrite elem_of_singleton in Hne. pose proof (elem_of_free _ _ Hroot) as Hrr.
  set (s2 := set_frames p2 s1). assert (Hsm2 : same_machine s s2).
  { etransitivity; [exact Hsm1|]. by split. }
  assert (Hmm2 : mm_ok s2) by (by eapply mm_ok_same).
  change (frame_addr s1 root) with (frame_addr s2 root).
  rewrite frame_addr_not_null by (done || by rewrite (in_ram_same s)). wp_step.
  apply wp_zero_page; [done|by rewrite (in_ram_same s)|]. intros r3 Hw3. set (s3 := set_ram r3 s2) in *.
  assert (Hsm3 : same_machine s s3) by (by destruct Hsm2; split).
  assert (Hmm3 : mm_ok s3) by (by eapply mm_ok_same). wp_steps.
  change (kernel_pd s3) with (kernel_pd s). rewrite Hkpd, frame_addr_not_null by done. wp_step.
  unfold pd_pml4 at 1. change (frame_addr s kd) with (frame_addr s3 kd).
  rewrite frame_addr_entry by (done || by rewrite (in_ram_same s)).
  apply wp_load_entry; [done|by rewrite (in_ram_same s)|lia|].
  assert (Hkdr : kd <> root) by (intros ->; done). assert (Hkrr : kr <> root) by (intros ->; done).
  rewrite Hw3, (proj2 (Z.eqb_neq kd root)) by (done || lia).
  change (word s2 kd 0) with (word s kd 0). rewrite Hp4.
  change (frame_addr s kr) with (frame_addr s3 kr).
  rewrite frame_addr_not_null by (done || by rewrite (in_ram_same s)).
  change (frame_addr s2 root) with (frame_addr s3 root).
  apply wp_copy_kernel; [done|by rewrite (in_ram_same s)..|done|].
  intros r4 Hw4. set (s4 := set_ram r4 s3) in *.
  assert (Hsm4 : same_machine s s4) by (by destruct Hsm3; split).
  assert (Hmm4 : mm_ok s4) by (by eapply mm_ok_same). wp_step.
  unfold pd_pml4. change (frame_addr s d) with (frame_addr s4 d) at 1.
  rewrite frame_addr_entry by (done || by rewrite (in_ram_same s)).
  apply wp_store_entry; [done|by rewrite (in_ram_same s)|lia|].
  set (s5 := put_word _ _ _ _).
  assert (Hsm5 : same_machine s s5) by (by destruct Hsm4; split).
  assert (Hmm5 : mm_ok s5) by (by eapply mm_ok_same). unfold virt_to_phys. wp_steps.
  change (frame_addr s3 root) with (frame_addr s5 root).
  rewrite virt_to_phys_frame by (done || by rewrite (in_ram_same s)).
  replace (pd_phys_addr (frame_addr s d)) with (entry (frame_addr s5 d) 1) by done.
  apply wp_store_entry; [done|by rewrite (in_ram_same s)|lia|]. wp_step.
  set (s6 := put_word _ _ _ _).
  assert (Hsm6 : same_machine s s6) by (by destruct Hsm5; split).
  assert (Hfree6 : free s6 = free s ∖ {[d; root]}) by (change (free s6) with (abs_free p2); rewrite Hf2; clear; set_solver).
  assert (Hw6 : forall h j, 0 <= j < 512 -> h <> d -> word s6 h j =
    if h =? root then (if 256 <=? j then word s kr j else 0) else word s h j).
  { intros h j Hj Hhd. unfold s6. rewrite word_put, decide_False by (lia || tauto).
    unfold s5. rewrite word_put, decide_False by (lia || tauto). rewrite Hw4 by done.
    rewrite !Hw3 by done. rewrite (proj2 (Z.eqb_neq kr root)) by done.
    destruct (Z.eqb_spec h root), (Z.leb_spec 256 j); done. }
  assert (Hd0 : word s6 d 0 = frame_addr s6 root).
  { unfold s6. rewrite word_put, decide_False by lia. unfold s5. rewrite word_put, decide_True by lia. done. }
  change (frame_addr s d) with (frame_addr s6 d). apply (Hyes s6 d root).
  - split.
    + by eapply mm_ok_same.
    + apply tree_root. intros i Hi. rewrite Hw6 by (lia || done). rewrite Z.eqb_refl.
      by rewrite (proj2 (Z.leb_gt 256 i)) by lia.
    + intros p f [_ <-]%lookup_singleton_Some. rewrite (in_ram_same s) by done.
      rewrite Hfree6. split; [done|set_solver].
    + done.
    + rewrite (in_ram_same s) by done. rewrite Hfree6. split; [done|set_solver].
    + intros p [_ Hp]%lookup_singleton_Some. done.
    + done.
  - split; try done.
    + intros i Hi. rewrite Hw6, Z.eqb_refl by (lia || done). by rewrite (proj2 (Z.leb_gt 256 i)) by lia.
    + intros i Hi. rewrite Hw6, Z.eqb_refl by (lia || done). by rewrite (proj2 (Z.leb_le 256 i)) by lia.
    + unfold s6. rewrite word_put, decide_True by lia. done.
    + intros f i Hf Hi. rewrite Hw6 by (lia || (intros ->; done)).
      by rewrite (proj2 (Z.eqb_neq f root)) by (intros ->; done).
Qed.

(** [mmu_init] on a machine whose [cr3] holds the address of the table [kr]. *)
Lemma wp_mmu_init (Q : unit -> machine -> Prop) s kr :
  pmm_inv (frames s) -> hhdm_offset (frames s) = direct_map s ->
  512 * total_pages (frames s) <= ram_words s -> total_pages (frames s) < 2 ^ 40 ->
  in_ram s kr -> kr ∉ free s -> cr3 s = 4096 * kr -> free s <> ∅ ->
  (forall s' kd, booted s' kd kr -> Q tt s') ->
  wp (mmu_init (Some (direct_map s))) Q s.
Proof.
  intros Hp Ho Hr Ht Hkr Hkrf Hcr Hfree HQ. unfold mmu_init. wp_steps.
  set (s0 := set_hhdm _ s). assert (Hmm0 : mm_ok s0) by (by split).
  apply wp_alloc_frame; [done|done|]. intros p kd Hkd Hpi Hl Hf.
  change (free s0) with (free s) in Hkd, Hf. pose proof (elem_of_free _ _ Hkd) as Hkdr.
  set (s1 := set_frames p s0). wp_steps.
  assert (Hkd0 : in_ram s0 kd) by done. rewrite (frame_addr_not_null s0 Hmm0 kd Hkd0).
  set (s2 := set_kernel_pd _ s1). assert (Hsm2 : same_machine s0 s2) by (by split).
  assert (Hmm2 : mm_ok s2) by (by eapply mm_ok_same). unfold phys_to_virt. wp_steps.
  change (cr3 s0) with (cr3 s). rewrite Hcr. rewrite phys_to_virt_frame by (done || by rewrite (in_ram_same s0)).
  unfold pd_pml4. change (frame_addr s0 kd) with (frame_addr s2 kd) at 1.
  rewrite frame_addr_entry by (done || by rewrite (in_ram_same s0)).
  apply wp_store_entry; [done|by rewrite (in_ram_same s0)|lia|]. set (s3 := put_word _ _ _ _).
  assert (Hsm3 : same_machine s0 s3) by (by destruct Hsm2; split).
  assert (Hmm3 : mm_ok s3) by (by eapply mm_ok_same). wp_step.
  replace (pd_phys_addr (frame_addr s0 kd)) with (entry (frame_addr s3 kd) 1) by done.
  apply wp_store_entry; [done|by rewrite (in_ram_same s0)|lia|]. wp_steps.
  apply (HQ _ kd). set (s5 := set_handler _ _).
  assert (Hsm5 : same_machine s0 s5) by (by destruct Hsm3; split).
  assert (Hfree5 : free s5 = free s ∖ {[kd]}) by done. split.
  - by eapply mm_ok_same.
  - done.
  - rewrite (in_ram_same s0) by done. split; [done|]. rewrite Hfree5. set_solver.
  - rewrite (in_ram_same s0) by done. split; [done|]. rewrite Hfree5. set_solver.
  - change (word s5 kd 0) with (word (put_word s3 kd 1 (4096 * kr)) kd 0).
    rewrite word_put, decide_False by lia. unfold s3. rewrite word_put, decide_True by lia. done.
Qed.
