(* ===== verification/MmuThms.v ===== *)
(** * Theorems on the page-table code

    The properties of [mmu.c], each with a witness on the small machine of
    [PmmSpec.v] extended with memory and page tables. *)

From stdpp Require Import base numbers list list_numbers gmap.
From S2P Require Import Prelude Bitmap Pmm PmmFacts PmmInit PmmSpec.
From S2P Require Import Mmu PageTree MmuFacts MmuSpec.

Implicit Types (s : machine) (tb : tables).

(** The walk of the processor in a space. *)
Definition walk s (root vpn : Z) : option (nat * Z) := hw_walk (word s) 3 root vpn.

Lemma walk_space s pd d root tb vpn :
  space s pd d root tb -> user_page vpn -> walk s root vpn = pair 0%nat <$> leaf (word s) tb vpn.
Proof. intros Hs Hv. by apply hw_walk_leaf; [apply Hs|]. Qed.

Lemma walk_updated pd d root s tb s' tb' vpn o w :
  space s pd d root tb -> space s' pd d root tb' -> updated root s tb s' tb' vpn o -> user_page w ->
  walk s' root w = if w =? vpn then pair 0%nat <$> o else walk s root w.
Proof.
  intros Hs Hs' Hu Hw. rewrite (walk_space s' pd d root tb') by done.
  rewrite (up_leaf _ _ _ _ _ _ _ Hu). destruct (w =? vpn); [done|]. symmetry. by eapply walk_space.
Qed.

Lemma walk_grown pd d root s tb s' tb' w :
  space s pd d root tb -> space s' pd d root tb' -> grown s tb s' tb' root -> user_page w ->
  walk s' root w = walk s root w.
Proof.
  intros Hs Hs' Hg Hw. rewrite (walk_space s' pd d root tb'), (walk_space s pd d root tb) by done.
  by rewrite (gr_leaf _ _ _ _ _ Hg).
Qed.

(** ** A machine with one address space *)

(** The boot loader's PML4 is in frame 0. *)
Definition base_machine : machine :=
  Machine ∅ 8192 demo_off 0 {[ 16 := 7; 17 := 9 ]} demo 0 0 0 0 0.

Definition after {A : Type} (m : MM A) (a : A) (s : machine) : A * machine :=
  match m s with Ok r => r | Fault _ => (a, s) end.

Lemma after_wp {A : Type} (m : MM A) (a : A) (Q : A -> machine -> Prop) s :
  wp m Q s -> Q (after m a s).1 (after m a s).2.
Proof. unfold wp, after. by destruct (m s) as [[]|]. Qed.

Lemma after_ok {A : Type} (m : MM A) (a b : A) s s' : m s = Ok (b, s') -> (after m a s).1 = b.
Proof. unfold after. by intros ->. Qed.

Definition demo_machine : machine := (after (mmu_init (Some demo_off)) tt base_machine).2.
Definition demo_result : Z * machine := after mmu_create_address_space NULL demo_machine.
Definition demo_pd : Z := demo_result.1.
Definition demo_space : machine := demo_result.2.

Lemma demo_booted : exists kd, booted demo_machine kd 0.
Proof.
  assert (Hw : wp (mmu_init (Some (direct_map base_machine)))
    (fun _ s => exists kd, booted s kd 0) base_machine).
  { apply (wp_mmu_init _ _ 0); try done.
    - apply demo_inv.
    - intros s' kd Hb. by exists kd. }
  exact (after_wp _ tt _ _ Hw).
Qed.

Lemma demo_is_space : exists d root, demo_pd = frame_addr demo_space d /\
  space demo_space demo_pd d root {[ (3%nat, 0) := root ]}.
Proof.
  destruct demo_booted as [kd Hb].
  assert (Hw : wp mmu_create_address_space (fun pd s => pd = NULL \/ exists d root,
    pd = frame_addr s d /\ space s pd d root {[ (3%nat, 0) := root ]}) demo_machine).
  { apply (wp_create _ _ kd 0); [exact Hb|by left|].
    intros s' d root Hs _. right. exists d, root. split; [reflexivity|exact Hs]. }
  destruct (after_wp _ NULL _ _ Hw) as [Hnull|Hd]; [exfalso|exact Hd].
  assert (Hnn : (demo_pd =? NULL) = false) by (vm_compute; reflexivity).
  apply Z.eqb_neq in Hnn. exact (Hnn Hnull).
Qed.

(** ** Mapping *)

(** C6: For an address of the user half (below [2^47]) in a space whose user
    half holds no large pages, [mmu_map_page] refines an update of the
    translation the processor computes: when it returns true exactly the page of [virt] is mapped anew,
    to [phys] with the flags given, and its cached translation is dropped;
    when it returns false every translation of the user half is as before and
    no frame is free.  The tables remain a tree; the frames it takes become
    tables of this space (none leaks) and no other memory in use changes.  (It
    takes the entry of a large page for a table:
    [huge_page_taken_for_table].) *)
Theorem mmu_map_page_refines_walk s pd d root tb virt phys flags :
  space s pd d root tb -> user_addr virt ->
  exists b s' tb', mmu_map_page pd virt phys flags s = Ok (b, s') /\
    space s' pd d root tb' /\
    (forall vpn, user_page vpn -> walk s' root vpn =
       if b && (vpn =? vpn_of virt) then Some (0%nat, pte phys flags) else walk s root vpn) /\
    (if b : bool then tlb s' = delete (vpn_of virt) (tlb s) else free s' = ∅) /\
    evolves s tb s' tb' root.
Proof.
  intros Hsp Hv.
  enough (Hw : wp (mmu_map_page pd virt phys flags) (fun (b : bool) s' => exists tb',
    space s' pd d root tb' /\
    (forall vpn, user_page vpn -> walk s' root vpn =
       if b && (vpn =? vpn_of virt) then Some (0%nat, pte phys flags) else walk s root vpn) /\
    (if b : bool then tlb s' = delete (vpn_of virt) (tlb s) else free s' = ∅) /\
    evolves s tb s' tb' root) s).
  { apply wp_run in Hw as (b & s' & Hr & tb' & H). by exists b, s', tb'. }
  apply (wp_map_page pd d root _ _ tb); [done|done| |].
  - intros s' tb' Hs' Hg He _. exists tb'. split_and!; [done| |done|].
    + intros vpn Hu. by eapply walk_grown.
    + apply Hg.
  - intros s' tb' Hs' Hu. exists tb'. split_and!; [done| |apply Hu|].
    + intros vpn Hvpn. by rewrite (walk_updated pd d root s tb s' tb' _ _ _ Hsp Hs' Hu Hvpn).
    + apply Hu.
Qed.

Lemma mmu_map_page_refines_walk_witness : exists d root b s' tb',
  mmu_map_page demo_pd 0x400123 0x9000 7 demo_space = Ok (b, s') /\
  space s' demo_pd d root tb' /\
  (forall vpn, user_page vpn -> walk s' root vpn =
     if b && (vpn =? 0x400) then Some (0%nat, 0x9007) else walk demo_space root vpn).
Proof.
  destruct demo_is_space as (d & root & _ & Hs). exists d, root.
  destruct (mmu_map_page_refines_walk demo_space demo_pd d root _ 0x400123 0x9000 7 Hs)
    as (b & s' & tb' & Hr & Hs' & Hw & _); [by split|].
  exists b, s', tb'. split; [exact Hr|]. split; [exact Hs'|exact Hw].
Defined.

(** [mmu_unmap_page] removes exactly the translation of the page of [virt]
    and its cached copy; it returns false, changing nothing, only where the
    page was not mapped.  No frame is allocated or freed. *)
Theorem mmu_unmap_page_refines_walk s pd d root tb virt :
  space s pd d root tb -> user_addr virt ->
  exists b s', mmu_unmap_page pd virt s = Ok (b, s') /\ space s' pd d root tb /\
    (forall vpn, user_page vpn -> walk s' root vpn =
       if vpn =? vpn_of virt then None else walk s root vpn) /\
    (if b : bool then tlb s' = delete (vpn_of virt) (tlb s) else s' = s) /\
    evolves s tb s' tb root.
Proof.
  intros Hsp Hv.
  enough (Hw : wp (mmu_unmap_page pd virt) (fun (b : bool) s' => space s' pd d root tb /\
    (forall vpn, user_page vpn -> walk s' root vpn =
       if vpn =? vpn_of virt then None else walk s root vpn) /\
    (if b : bool then tlb s' = delete (vpn_of virt) (tlb s) else s' = s) /\
    evolves s tb s' tb root) s).
  { apply wp_run in Hw as (b & s' & Hr & H). by exists b, s'. }
  apply (wp_unmap_page pd d root _ _ tb); [done|done| |].
  - intros Hn. split_and!; [done| |done|].
    + intros vpn Hu. rewrite (walk_space s pd d root tb) by done.
      destruct (Z.eqb_spec vpn (vpn_of virt)) as [->|]; [|done]. unfold leaf. by rewrite Hn.
    + apply evolves_refl.
  - intros s' Hs' Hu. split_and!; [done| |apply Hu|].
    + intros vpn Hvpn. by rewrite (walk_updated pd d root s tb s' tb _ _ _ Hsp Hs' Hu Hvpn).
    + apply Hu.
Qed.

Lemma mmu_unmap_page_refines_walk_witness : exists d root b s',
  mmu_unmap_page demo_pd 0x400123 demo_space = Ok (b, s') /\
  (forall vpn, user_page vpn -> walk s' root vpn =
     if vpn =? 0x400 then None else walk demo_space root vpn) /\ d <> root.
Proof.
  destruct demo_is_space as (d & root & _ & Hs). exists d, root.
  destruct (mmu_unmap_page_refines_walk demo_space demo_pd d root _ 0x400123 Hs)
    as (b & s' & Hr & _ & Hw & _); [by split|].
  exists b, s'. split; [exact Hr|]. split; [exact Hw|]. intros ->.
  apply (sp_pd_apart _ _ _ _ _ Hs (3%nat, 0)). apply lookup_singleton_eq.
Defined.

(** ** Lookup *)

(** The physical address of a walk's 4 KiB entry. *)
Definition translate (w : option (nat * Z)) (virt : Z) : Z :=
  match w with Some (_, e) => 4096 * frame_of e + virt mod 4096 | None => 0 end.

Lemma lor_offset x k : 0 <= k < 4096 -> Z.lor (4096 * x) k = 4096 * x + k.
Proof.
  intros Hk. rewrite <- Z.lxor_lor, <- Z.add_nocarry_lxor; [done| |];
    apply Z.bits_inj'; intros n Hn; rewrite Z.land_spec, Z.bits_0;
    (destruct (decide (n < 12)); [by rewrite testbit_frame by lia|]);
    rewrite (Z.bits_above_log2 k); rewrite ?andb_false_r; try done; try lia;
    (destruct (decide (k = 0)) as [->|]; [simpl; lia|]);
    apply Z.log2_lt_pow2; try lia; (assert (2 ^ 12 <= 2 ^ n) by (apply Z.pow_le_mono_r; lia)); lia.
Qed.

Lemma get_physical_walk s pd d root tb virt :
  space s pd d root tb -> user_addr virt ->
  mmu_get_physical_address pd virt s = Ok (translate (walk s root (vpn_of virt)) virt, s).
Proof.
  intros Hsp Hv. pose proof (user_vpn _ Hv) as Hu. pose proof (wp_get_physical pd d root
    (fun v s' => (v, s') = (translate (walk s root (vpn_of virt)) virt, s)) s tb virt Hsp Hv) as Hw.
  apply wp_run in Hw; [by destruct Hw as (v & s' & -> & ->)|].
  rewrite (walk_space s pd d root tb) by done. f_equal. unfold translate.
  destruct (leaf (word s) tb (vpn_of virt)) as [e|]; simpl; [|done].
  rewrite addr_mask_frame. change 0xFFF with (Z.ones 12). rewrite Z.land_ones by lia.
  apply lor_offset, Z.mod_pos_bound. lia.
Qed.

(** C35: For an address of the user half in a space whose user half holds no
    large pages, [mmu_get_physical_address] computes the translation of the
    processor: the frame of the walk's entry with the offset of the address,
    or 0 where the page is not mapped; memory is unchanged.  After a successful
    [mmu_map_page] of that address to a 52-bit physical address, with flags
    outside the address bits, it returns the address just mapped.  (Where a
    large page is mapped it returns 0: [huge_page_taken_for_table].) *)
Theorem mmu_lookup_is_walk s pd d root tb virt :
  space s pd d root tb -> user_addr virt ->
  mmu_get_physical_address pd virt s = Ok (translate (walk s root (vpn_of virt)) virt, s) /\
  (forall phys flags s', 0 <= phys < 2 ^ 52 -> Z.land flags PAGE_ADDR_MASK = 0 ->
     mmu_map_page pd virt phys flags s = Ok (true, s') ->
     mmu_get_physical_address pd virt s' = Ok (4096 * (phys / 4096) + virt mod 4096, s')).
Proof.
  intros Hsp Hv. pose proof (user_vpn _ Hv) as Hu.
  split; [by eapply get_physical_walk|]. intros phys flags s' Hp Hfl Hmap.
  assert (Hw : wp (mmu_map_page pd virt phys flags) (fun (b : bool) s' => b = true -> exists tb',
    space s' pd d root tb' /\ walk s' root (vpn_of virt) = Some (0%nat, pte phys flags)) s).
  { apply (wp_map_page pd d root _ _ tb); [done|done|done|].
    intros s1 tb1 Hs1 Hup _. exists tb1. split; [done|].
    rewrite (walk_updated pd d root s tb s1 tb1 _ _ _ Hsp Hs1 Hup Hu). by rewrite Z.eqb_refl. }
  unfold wp in Hw. rewrite Hmap in Hw. destruct (Hw eq_refl) as (tb' & Hs' & Hwalk).
  rewrite (get_physical_walk _ _ _ _ _ _ Hs' Hv), Hwalk. simpl. unfold pte. rewrite page_align_down_eq by lia.
  unfold PAGE_SIZE. rewrite frame_of_entry by (done || dlia). done.
Qed.

Lemma mmu_lookup_is_walk_witness : exists root,
  mmu_get_physical_address demo_pd 0x400123 demo_space =
    Ok (translate (walk demo_space root 0x400) 0x400123, demo_space) /\
  mmu_get_physical_address demo_pd 0x400123
    (after (mmu_map_page demo_pd 0x400123 0x9000 7) false demo_space).2 =
  Ok (0x9123, (after (mmu_map_page demo_pd 0x400123 0x9000 7) false demo_space).2).
Proof.
  destruct demo_is_space as (d & root & _ & Hs). exists root.
  destruct (mmu_lookup_is_walk demo_space demo_pd d root _ 0x400123 Hs) as [Hget Hmap]; [by split|].
  split; [exact Hget|]. apply (Hmap 0x9000 7); [by split|reflexivity|].
  assert (Hok : (after (mmu_map_page demo_pd 0x400123 0x9000 7) false demo_space).1 = true)
    by (vm_compute; reflexivity).
  revert Hok. unfold after. destruct (mmu_map_page _ _ _ _ demo_space) as [[b s']|]; simpl;
    [by intros ->|done].
Defined.

(** ** New address spaces *)

(** [mmu_create_address_space] returns a space whose user half maps
    nothing and whose kernel half is the kernel's, built in two frames that
    were free, with every other word in use unchanged; it fails only when
    fewer than two frames are free, and then gives back what it took. *)
Theorem mmu_create_shares_kernel_half s kd kr :
  booted s kd kr ->
  exists pd s', mmu_create_address_space s = Ok (pd, s') /\ same_machine s s' /\
    ((pd = NULL /\ (size (free s) < 2)%nat /\ free s' = free s /\
      forall f i, word s' f i = word s f i) \/
     exists d root tb, space s' pd d root tb /\ created s s' d root kr /\
       forall vpn, user_page vpn -> walk s' root vpn = None).
Proof.
  intros Hb.
  enough (Hw : wp mmu_create_address_space (fun pd s' => same_machine s s' /\
    ((pd = NULL /\ (size (free s) < 2)%nat /\ free s' = free s /\
      forall f i, word s' f i = word s f i) \/
     exists d root tb, space s' pd d root tb /\ created s s' d root kr /\
       forall vpn, user_page vpn -> walk s' root vpn = None)) s).
  { apply wp_run in Hw as (pd & s' & Hr & H). by exists pd, s'. }
  apply (wp_create _ _ kd kr); [done| |].
  - intros s' Hsm _ Hf Hsz Hw. split; [done|]. left. done.
  - intros s' d root Hs Hc. split; [apply Hc|]. right. exists d, root, {[ (3%nat, 0) := root ]}.
    split_and!; [done|done|]. intros vpn Hu.
    rewrite (walk_space _ _ _ _ _ _ Hs Hu). by rewrite leaf_root.
Qed.

Lemma mmu_create_shares_kernel_half_witness : exists kd pd s',
  mmu_create_address_space demo_machine = Ok (pd, s') /\ same_machine demo_machine s' /\
  booted demo_machine kd 0.
Proof.
  destruct demo_booted as [kd Hb]. exists kd.
  destruct (mmu_create_shares_kernel_half demo_machine kd 0 Hb) as (pd & s' & Hr & Hsm & _).
  exists pd, s'. split; [exact Hr|]. split; [exact Hsm|exact Hb].
Defined.

(** ** Huge pages *)

(** The 2 MiB page at 0x400000 is mapped to physical memory from 0 on, through
    a PML4, a PDPT and a page directory in frames 8, 10 and 11. *)
Definition huge_machine : machine :=
  put_word (put_word (put_word (put_word demo_space 11 2 0x83) 10 0 0xB003) 8 0 0xA003)
    9 0 (frame_addr demo_space 8).

(** The page-table code takes a huge page for a page table: the processor
    translates 0x400000 to physical address 0, [mmu_get_physical_address]
    says that it is not mapped, and [mmu_map_page] overwrites the first word
    of the mapped memory. *)
Example huge_page_taken_for_table :
  let s := huge_machine in
  let pd := frame_addr demo_space 9 in
  walk s 8 0x400 = Some (1%nat, 0x83) /\
  (after (mmu_get_physical_address pd 0x400000) 1 s).1 = 0 /\
  word s 0 0 = 0 /\
  word (after (mmu_map_page pd 0x400000 0x9000 7) false s).2 0 0 = 0x9007.
Proof. vm_compute. split_and!; reflexivity. Qed.
