(* ===== verification/Paging.v ===== *)
(** * Address spaces ([sys/src/libmem/paging.c])

    Ranges of pages, cloning and tear-down of the user half, above the page
    tables of [Mmu.v].  The dump of an address space to the serial line is
    left out. *)

From stdpp Require Import base numbers list list_numbers gmap.
From S2P Require Import Prelude Pmm Mmu.

Record memory_region_t := MemoryRegion {
  mr_base : Z; mr_length : Z; mr_flags : Z
}.

Inductive region_type_t :=
  | REGION_TYPE_KERNEL_CODE
  | REGION_TYPE_KERNEL_DATA
  | REGION_TYPE_KERNEL_STACK
  | REGION_TYPE_USER_CODE
  | REGION_TYPE_USER_DATA
  | REGION_TYPE_USER_STACK
  | REGION_TYPE_MMIO
  | REGION_TYPE_FRAMEBUFFER.

Definition paging_init : MM unit :=
  pd <- mmu_get_current_address_space ;; modify (set_kernel_directory pd).

(** [base + i * PAGE_SIZE]. *)
Definition nth_page (base i : Z) : Z := u64 (base + u64 (i * PAGE_SIZE)).

Definition paging_map_range (pd virt_base phys_base num_pages flags : Z) : MM bool :=
  if pd =? NULL then ret false
  else
    let virt_base := page_align_down virt_base in
    let phys_base := page_align_down phys_base in
    r <- for_range 0 num_pages tt (fun i _ =>
      ok <- mmu_map_page pd (nth_page virt_base i) (nth_page phys_base i) flags ;;
      if negb ok then
        for_each 0 i tt (fun j _ => mmu_unmap_page pd (nth_page virt_base j) ;;; ret tt) ;;;
        ret (inr false)
      else ret (inl tt)) ;;
    match r with inr b => ret b | inl _ => ret true end.

Definition paging_unmap_range (pd virt_base num_pages : Z) : MM bool :=
  if pd =? NULL then ret false
  else
    let virt_base := page_align_down virt_base in
    for_each 0 num_pages tt (fun i _ =>
      mmu_unmap_page pd (nth_page virt_base i) ;;; ret tt) ;;;
    ret true.

Definition paging_map_region (pd : Z) (region : option memory_region_t) : MM bool :=
  if pd =? NULL then ret false
  else match region with
  | None => ret false
  | Some r =>
      let num_pages := u64 (u64 (mr_length r + PAGE_SIZE) - 1) / PAGE_SIZE in
      phys_base <- in_frames (pmm_alloc_contiguous num_pages) ;;
      if phys_base =? NULL then ret false
      else
        phys_addr <- mmu_virt_to_phys phys_base ;;
        ok <- paging_map_range pd (mr_base r) phys_addr num_pages (mr_flags r) ;;
        if negb ok then
          in_frames (pmm_free_contiguous phys_base num_pages) ;;; ret false
        else ret true
  end.

Definition paging_identity_map (pd phys_base num_pages flags : Z) : MM bool :=
  paging_map_range pd phys_base phys_base num_pages flags.

Definition paging_is_range_mapped (pd virt_base num_pages : Z) : MM bool :=
  if pd =? NULL then ret false
  else
    let virt_base := page_align_down virt_base in
    r <- for_range 0 num_pages tt (fun i _ =>
      ok <- mmu_is_mapped pd (nth_page virt_base i) ;;
      if negb ok then ret (inr false) else ret (inl tt)) ;;
    match r with inr b => ret b | inl _ => ret true end.

Definition paging_create_kernel_address_space : MM Z := mmu_create_address_space.

Definition paging_create_user_address_space : MM Z :=
  pd <- mmu_create_address_space ;;
  if pd =? NULL then ret NULL else ret pd.

(** One page-table entry in the innermost loop of
    [paging_clone_address_space]; [inr NULL] is its [return NULL]. *)
Definition clone_page (new_pd pml4_idx pdpt_idx pd_idx pt pt_idx : Z) : MM (unit + Z) :=
  e <- load (entry pt pt_idx) ;;
  if negb (flag e PAGE_PRESENT) then ret (inl tt)
  else
    let src_page_phys := Z.land e PAGE_ADDR_MASK in
    let flags := Z.land e (u64 (Z.lnot PAGE_ADDR_MASK)) in
    new_page <- in_frames pmm_alloc ;;
    if new_page =? NULL then
      mmu_destroy_address_space new_pd ;;; ret (inr NULL)
    else
      src_page_virt <- mmu_phys_to_virt src_page_phys ;;
      copy_page new_page src_page_virt ;;;
      new_phys <- mmu_virt_to_phys new_page ;;
      let virt := Z.lor (Z.lor (Z.lor (Z.shiftl pml4_idx 39) (Z.shiftl pdpt_idx 30))
                    (Z.shiftl pd_idx 21)) (Z.shiftl pt_idx 12) in
      ok <- mmu_map_page new_pd virt new_phys flags ;;
      if negb ok then
        in_frames (pmm_free new_page) ;;;
        mmu_destroy_address_space new_pd ;;;
        ret (inr NULL)
      else ret (inl tt).

Definition clone_pt (new_pd pml4_idx pdpt_idx pd_table pd_idx : Z) : MM (unit + Z) :=
  e <- load (entry pd_table pd_idx) ;;
  if negb (flag e PAGE_PRESENT) then ret (inl tt)
  else if flag e PAGE_HUGE then ret (inl tt)
  else
    pt <- mmu_phys_to_virt (Z.land e PAGE_ADDR_MASK) ;;
    for_range 0 512 tt (fun pt_idx _ => clone_page new_pd pml4_idx pdpt_idx pd_idx pt pt_idx).

Definition clone_pd (new_pd pml4_idx pdpt pdpt_idx : Z) : MM (unit + Z) :=
  e <- load (entry pdpt pdpt_idx) ;;
  if negb (flag e PAGE_PRESENT) then ret (inl tt)
  else if flag e PAGE_HUGE then ret (inl tt)
  else
    pd_table <- mmu_phys_to_virt (Z.land e PAGE_ADDR_MASK) ;;
    for_range 0 512 tt (fun pd_idx _ => clone_pt new_pd pml4_idx pdpt_idx pd_table pd_idx).

Definition clone_pdpt (new_pd src_pml4 pml4_idx : Z) : MM (unit + Z) :=
  e <- load (entry src_pml4 pml4_idx) ;;
  if negb (flag e PAGE_PRESENT) then ret (inl tt)
  else
    pdpt <- mmu_phys_to_virt (Z.land e PAGE_ADDR_MASK) ;;
    for_range 0 512 tt (fun pdpt_idx _ => clone_pd new_pd pml4_idx pdpt pdpt_idx).

Definition paging_clone_address_space (src : Z) : MM Z :=
  root <- root_of src ;;
  match root with
  | None => ret NULL
  | Some src_pml4 =>
      new_pd <- mmu_create_address_space ;;
      if new_pd =? NULL then ret NULL
      else
        r <- for_range 0 256 tt (fun pml4_idx _ => clone_pdpt new_pd src_pml4 pml4_idx) ;;
        match r with inr v => ret v | inl _ => ret new_pd end
  end.

Definition paging_switch_directory (pd : Z) : MM unit :=
  if pd =? NULL then ret tt else mmu_switch_address_space pd.

Definition paging_get_kernel_directory : MM Z := gets kernel_directory.
Definition paging_get_current_directory : MM Z := mmu_get_current_address_space.

(** The [default] branch is for values outside the enumeration. *)
Definition paging_get_flags_for_region_type (type : option region_type_t) : Z :=
  match type with
  | Some REGION_TYPE_KERNEL_CODE => Z.lor PAGE_PRESENT PAGE_GLOBAL
  | Some REGION_TYPE_KERNEL_DATA => Z.lor (Z.lor PAGE_PRESENT PAGE_WRITE) PAGE_GLOBAL
  | Some REGION_TYPE_KERNEL_STACK =>
      Z.lor (Z.lor (Z.lor PAGE_PRESENT PAGE_WRITE) PAGE_GLOBAL) PAGE_NX
  | Some REGION_TYPE_USER_CODE => Z.lor PAGE_PRESENT PAGE_USER
  | Some REGION_TYPE_USER_DATA | Some REGION_TYPE_USER_STACK =>
      Z.lor (Z.lor (Z.lor PAGE_PRESENT PAGE_WRITE) PAGE_USER) PAGE_NX
  | Some REGION_TYPE_MMIO =>
      Z.lor (Z.lor (Z.lor PAGE_PRESENT PAGE_WRITE) PAGE_CACHE_DISABLE) PAGE_WRITETHROUGH
  | Some REGION_TYPE_FRAMEBUFFER =>
      Z.lor (Z.lor PAGE_PRESENT PAGE_WRITE) PAGE_CACHE_DISABLE
  | None => PAGE_PRESENT
  end.

Definition paging_protect_range (pd virt_base num_pages flags : Z) : MM bool :=
  if pd =? NULL then ret false
  else
    let virt_base := page_align_down virt_base in
    r <- for_range 0 num_pages tt (fun i _ =>
      let virt := nth_page virt_base i in
      mapped <- mmu_is_mapped pd virt ;;
      if negb mapped then ret (inl tt)
      else
        phys <- mmu_get_physical_address pd virt ;;
        ok <- mmu_unmap_page pd virt ;;
        if negb ok then ret (inr false)
        else
          ok <- mmu_map_page pd virt phys flags ;;
          if negb ok then ret (inr false) else ret (inl tt)) ;;
    match r with
    | inr b => ret b
    | inl _ => mmu_flush_tlb_all ;;; ret true
    end.

(** The loops of [paging_free_user_pages], innermost first; their locals are
    [(pages_freed, tables_freed)]. *)
Definition free_pt_entry (pt pt_idx : Z) (n : Z * Z) : MM (Z * Z) :=
  e <- load (entry pt pt_idx) ;;
  if negb (flag e PAGE_PRESENT) then ret n
  else
    page_virt <- mmu_phys_to_virt (Z.land e PAGE_ADDR_MASK) ;;
    in_frames (pmm_free page_virt) ;;;
    ret (u64 (n.1 + 1), n.2).

Definition free_pd_entry (pd_table pd_idx : Z) (n : Z * Z) : MM (Z * Z) :=
  e <- load (entry pd_table pd_idx) ;;
  if negb (flag e PAGE_PRESENT) then ret n
  else if flag e PAGE_HUGE then ret n
  else
    pt <- mmu_phys_to_virt (Z.land e PAGE_ADDR_MASK) ;;
    n <- for_each 0 512 n (fun pt_idx n => free_pt_entry pt pt_idx n) ;;
    in_frames (pmm_free pt) ;;;
    ret (n.1, u64 (n.2 + 1)).

Definition free_pdpt_entry (pdpt pdpt_idx : Z) (n : Z * Z) : MM (Z * Z) :=
  e <- load (entry pdpt pdpt_idx) ;;
  if negb (flag e PAGE_PRESENT) then ret n
  else if flag e PAGE_HUGE then ret n
  else
    pd_table <- mmu_phys_to_virt (Z.land e PAGE_ADDR_MASK) ;;
    n <- for_each 0 512 n (fun pd_idx n => free_pd_entry pd_table pd_idx n) ;;
    in_frames (pmm_free pd_table) ;;;
    ret (n.1, u64 (n.2 + 1)).

Definition free_pml4_entry (pml4 pml4_idx : Z) (n : Z * Z) : MM (Z * Z) :=
  e <- load (entry pml4 pml4_idx) ;;
  if negb (flag e PAGE_PRESENT) then ret n
  else
    pdpt <- mmu_phys_to_virt (Z.land e PAGE_ADDR_MASK) ;;
    n <- for_each 0 512 n (fun pdpt_idx n => free_pdpt_entry pdpt pdpt_idx n) ;;
    in_frames (pmm_free pdpt) ;;;
    store (entry pml4 pml4_idx) 0 ;;;
    ret (n.1, u64 (n.2 + 1)).

(** The counters the code prints come back as the result. *)
Definition paging_free_user_pages (pd : Z) : MM (Z * Z) :=
  root <- root_of pd ;;
  match root with
  | None => ret (0, 0)
  | Some pml4 => for_each 0 256 (0, 0) (fun pml4_idx n => free_pml4_entry pml4 pml4_idx n)
  end.
