(* ===== verification/PagingThms.v ===== *)
(** * Theorems on ranges of pages ([paging.c])

    [paging_map_range] and [paging_protect_range] as updates of the
    translation the processor computes on a whole range. *)

From stdpp Require Import base numbers list list_numbers gmap.
From S2P Require Import Prelude Bitmap Pmm PmmFacts PmmInit PmmSpec.
From S2P Require Import Mmu PageTree MmuFacts MmuSpec MmuThms Paging.

Implicit Types (s : machine) (tb : tables).

(** [n] pages from [virt] on lie in the user half. *)
Definition range_ok (virt n : Z) : Prop := 0 <= virt /\ 0 <= n /\ vpn_of virt + n <= 2 ^ 35.

Definition in_pages (first n vpn : Z) : bool := (first <=? vpn) && (vpn <? first + n).

Lemma nth_page_user virt n i : range_ok virt n -> 0 <= i < n ->
  user_addr (nth_page (page_align_down virt) i) /\
  vpn_of (nth_page (page_align_down virt) i) = vpn_of virt + i.
Proof.
  unfold range_ok, user_addr, vpn_of. intros (Hv & Hn & Hr) Hi.
  pose proof (Z.div_mod virt 4096 ltac:(lia)) as Hdm. pose proof (Z.mod_pos_bound virt 4096 ltac:(lia)).
  rewrite page_align_down_eq by lia. unfold nth_page, PAGE_SIZE, u64.
  rewrite (Z.mod_small (i * 4096)) by lia. rewrite Z.mod_small by lia.
  replace (4096 * (virt / 4096) + i * 4096) with ((virt / 4096 + i) * 4096) by lia.
  rewrite Z_div_mult by lia. split; [lia|done].
Qed.

Section ranges.
Context (pd d root : Z).

(** A state reached from [s] in which the space translates as [W] says. *)
Definition reached s tb (W : Z -> option (nat * Z)) s' : Prop :=
  exists tb', space s' pd d root tb' /\ evolves s tb s' tb' root /\
    forall vpn, user_page vpn -> walk s' root vpn = W vpn.

Lemma reached_ext s tb (W W' : Z -> option (nat * Z)) s' :
  reached s tb W s' -> (forall vpn, user_page vpn -> W vpn = W' vpn) -> reached s tb W' s'.
Proof.
  intros (tb' & Hs & He & Hw) HW. exists tb'. split_and!; [done..|].
  intros vpn Hu. by rewrite Hw, HW.
Qed.

Lemma reached_refl s tb : space s pd d root tb -> reached s tb (walk s root) s.
Proof. intros Hs. exists tb. split_and!; [done|apply evolves_refl|done]. Qed.

Lemma reached_map (Q : bool -> machine -> Prop) s tb (W : Z -> option (nat * Z)) s1 virt phys flags :
  reached s tb W s1 -> user_addr virt ->
  (forall s', reached s tb W s' -> free s' = ∅ -> Q false s') ->
  (forall s', reached s tb (fun vpn =>
     if vpn =? vpn_of virt then Some (0%nat, pte phys flags) else W vpn) s' -> Q true s') ->
  wp (mmu_map_page pd virt phys flags) Q s1.
Proof.
  intros (tb1 & Hs1 & He & Hw) Hv Hno Hyes. apply (wp_map_page pd d root _ _ tb1); [done|done| |].
  - intros s' tb' Hs' Hg Hf _. apply Hno; [|done]. exists tb'.
    split_and!; [done|eapply evolves_trans; [exact He|apply Hg]|]. intros vpn Hu.
    rewrite (walk_grown pd d root s1 tb1 s' tb' vpn Hs1 Hs' Hg Hu). by apply Hw.
  - intros s' tb' Hs' Hup. apply Hyes. exists tb'.
    split_and!; [done|eapply evolves_trans; [exact He|apply Hup]|]. intros vpn Hu.
    rewrite (walk_updated pd d root s1 tb1 s' tb' _ _ vpn Hs1 Hs' Hup Hu), Hw by done. done.
Qed.

Lemma reached_unmap (Q : bool -> machine -> Prop) s tb (W : Z -> option (nat * Z)) s1 virt :
  reached s tb W s1 -> user_addr virt ->
  (forall s' b, (b = false -> W (vpn_of virt) = None) ->
     reached s tb (fun vpn => if vpn =? vpn_of virt then None else W vpn) s' ->
     free s' = free s1 -> Q b s') ->
  wp (mmu_unmap_page pd virt) Q s1.
Proof.
  intros (tb1 & Hs1 & He & Hw) Hv HQ. pose proof (user_vpn _ Hv) as Hvu.
  apply (wp_unmap_page pd d root _ _ tb1); [done|done| |].
  - intros Hn. assert (HW : W (vpn_of virt) = None).
    { rewrite <- Hw by done. rewrite (walk_space s1 pd d root tb1) by done. unfold leaf. by rewrite Hn. }
    apply HQ; [done| |done]. exists tb1. split_and!; [done|done|]. intros vpn Hu. rewrite Hw by done.
    destruct (Z.eqb_spec vpn (vpn_of virt)) as [->|]; done.
  - intros s' Hs' Hup. apply HQ; [done| |].
    + exists tb1. split_and!; [done|eapply evolves_trans; [exact He|apply Hup]|]. intros vpn Hu.
      rewrite (walk_updated pd d root s1 tb1 s' tb1 _ _ vpn Hs1 Hs' Hup Hu), Hw by done. done.
    + apply set_eq. intros f. rewrite (ev_free _ _ _ _ _ (up_evolves _ _ _ _ _ _ _ Hup) f).
      split; [by left|]. intros [?|(p & H1 & H2)]; [done|congruence].
Qed.

(** ** Mapping a range *)

(** The translation after [n] pages of the range have been mapped. *)
Definition mapped_to (virt phys flags n : Z) (W : Z -> option (nat * Z)) (vpn : Z) : option (nat * Z) :=
  if in_pages (vpn_of virt) n vpn
  then Some (0%nat, pte (nth_page (page_align_down phys) (vpn - vpn_of virt)) flags)
  else W vpn.
Definition unmapped_on (virt n : Z) (W : Z -> option (nat * Z)) (vpn : Z) : option (nat * Z) :=
  if in_pages (vpn_of virt) n vpn then None else W vpn.

Lemma in_pages_S first n vpn : 0 <= n ->
  in_pages first (n + 1) vpn = (vpn =? first + n) || in_pages first n vpn.
Proof.
  intros Hn. unfold in_pages.
  destruct (Z.leb_spec first vpn), (Z.ltb_spec vpn (first + (n + 1))), (Z.ltb_spec vpn (first + n)),
    (Z.eqb_spec vpn (first + n)); simpl; done || lia.
Qed.

Lemma in_pages_0 first vpn : in_pages first 0 vpn = false.
Proof. unfold in_pages. destruct (Z.leb_spec first vpn), (Z.ltb_spec vpn (first + 0)); done || lia. Qed.

Lemma wp_unmap_pages s tb W s1 virt n i :
  range_ok virt n -> 0 <= i <= n -> reached s tb W s1 ->
  wp (for_each 0 i tt (fun j _ => mmu_unmap_page pd (nth_page (page_align_down virt) j) ;;; ret tt))
    (fun _ s' => reached s tb (unmapped_on virt i W) s' /\ free s' = free s1) s1.
Proof.
  intros Hr Hi Hre. eapply wp_mono.
  - apply (wp_for_each (fun j _ s' => reached s tb (unmapped_on virt j W) s' /\ free s' = free s1)).
    + split; [|done]. eapply reached_ext; [exact Hre|]. intros vpn _. unfold unmapped_on.
      by rewrite in_pages_0.
    + intros j [] s2 Hj [H2 Hf]. destruct (nth_page_user virt n j Hr) as [Hu Hvp]; [lia|].
      wp_step. eapply reached_unmap; [exact H2|done|]. intros s3 b _ H3 Hf3. wp_step.
      split; [|congruence]. eapply reached_ext; [exact H3|]. intros vpn _. rewrite Hvp.
      unfold unmapped_on. rewrite in_pages_S by lia. by destruct (vpn =? vpn_of virt + j).
  - intros [] s2 H2. by replace (Z.max 0 i) with i in H2 by lia.
Qed.

Lemma wp_map_range s tb virt phys n flags :
  space s pd d root tb -> range_ok virt n ->
  wp (paging_map_range pd virt phys n flags) (fun b s' =>
    if b : bool then reached s tb (mapped_to virt phys flags n (walk s root)) s'
    else free s' = ∅ /\ exists k, 0 <= k < n /\
      reached s tb (unmapped_on virt k (walk s root)) s') s.
Proof.
  intros Hs Hr. unfold paging_map_range.
  assert (Hnn : (pd =? NULL) = false).
  { destruct Hs as [Hmm _ _ -> [Hd _] _ _]. by apply frame_addr_not_null. }
  rewrite Hnn. cbv zeta. wp_step. eapply wp_mono.
  - apply (wp_for_range
      (fun i _ s' => reached s tb (mapped_to virt phys flags i (walk s root)) s')
      (fun (b : bool) s' => b = false /\ free s' = ∅ /\ exists k, 0 <= k < n /\
        reached s tb (unmapped_on virt k (walk s root)) s')).
    + eapply reached_ext; [by apply reached_refl|]. intros vpn _. unfold mapped_to.
      by rewrite in_pages_0.
    + intros i [] s1 Hi H1. destruct (nth_page_user virt n i Hr) as [Hu Hvp]; [lia|].
      wp_step. eapply reached_map; [exact H1|done| |].
      * intros s2 H2 Hf2. cbn [negb]. wp_step. eapply wp_mono.
        { eapply (wp_unmap_pages s tb); [exact Hr|lia|exact H2]. }
        intros [] s3 [H3 Hf3]. wp_step. split_and!; [done|congruence|]. exists i. split; [done|].
        eapply reached_ext; [exact H3|]. intros vpn _. unfold unmapped_on, mapped_to.
        by destruct (in_pages _ i vpn).
      * intros s2 H2. cbn [negb]. wp_step. eapply reached_ext; [exact H2|]. intros vpn _.
        rewrite Hvp. unfold mapped_to. rewrite in_pages_S by lia.
        destruct (Z.eqb_spec vpn (vpn_of virt + i)) as [->|]; simpl; [|done].
        by replace (vpn_of virt + i - vpn_of virt) with i by lia.
  - destruct Hr as (_ & Hn & _). intros [[]|b] s1 H1; wp_step.
    + by replace (Z.max 0 n) with n in H1 by lia.
    + by destruct H1 as (-> & H1).
Qed.
(** ** Changing the protection of a range *)

Lemma reached_lookup (Q : Z -> machine -> Prop) s tb (W : Z -> option (nat * Z)) s1 virt :
  reached s tb W s1 -> user_addr virt -> Q (translate (W (vpn_of virt)) virt) s1 ->
  wp (mmu_get_physical_address pd virt) Q s1.
Proof.
  intros (tb1 & Hs1 & _ & Hw) Hv HQ. eapply wp_eq; [by eapply get_physical_walk|].
  by rewrite Hw by (by apply user_vpn).
Qed.

(** Unmapping and mapping again a page that is mapped cannot fail. *)
Lemma reached_remap {A : Type} (k : bool -> MM A) (Q : A -> machine -> Prop) s tb
    (W : Z -> option (nat * Z)) s1 virt phys flags :
  reached s tb W s1 -> user_addr virt -> W (vpn_of virt) <> None ->
  (forall s', reached s tb (fun vpn =>
     if vpn =? vpn_of virt then Some (0%nat, pte phys flags) else W vpn) s' -> wp (k true) Q s') ->
  wp (ok <- mmu_unmap_page pd virt ;;
      if negb ok then k false
      else ok <- mmu_map_page pd virt phys flags ;; k ok) Q s1.
Proof.
  intros (tb1 & Hs1 & He & Hw) Hv HW HQ. pose proof (user_vpn _ Hv) as Hvu.
  assert (Htab : tb1 !! (0%nat, pos 0 (vpn_of virt)) <> None).
  { intros Hn. apply HW. rewrite <- Hw by done. rewrite (walk_space s1 pd d root tb1) by done.
    unfold leaf. by rewrite Hn. }
  wp_step. apply (wp_unmap_page pd d root _ _ tb1); [done|done|done|]. intros s2 Hs2 Hup.
  cbn [negb]. wp_step. apply (wp_map_page pd d root _ _ tb1); [done|done|done|].
  intros s3 tb3 Hs3 Hup3. apply HQ. exists tb3. split_and!; [done| |].
  - eapply evolves_trans; [exact He|]. eapply evolves_trans; [apply Hup|apply Hup3].
  - intros vpn Hu. rewrite (walk_updated pd d root s2 tb1 s3 tb3 _ _ vpn Hs2 Hs3 Hup3 Hu).
    rewrite (walk_updated pd d root s1 tb1 s2 tb1 _ _ vpn Hs1 Hs2 Hup Hu), Hw by done.
    by destruct (vpn =? vpn_of virt).
Qed.

(** Frame 0 is not told from an unmapped page. *)
Definition reprotect (flags : Z) (w : option (nat * Z)) : option (nat * Z) :=
  match w with
  | Some (l, e) => if frame_of e =? 0 then w else Some (0%nat, pte (4096 * frame_of e) flags)
  | None => None
  end.
Definition protected (virt flags n : Z) (W : Z -> option (nat * Z)) (vpn : Z) : option (nat * Z) :=
  if in_pages (vpn_of virt) n vpn then reprotect flags (W vpn) else W vpn.

Lemma nth_page_offset virt n i : range_ok virt n -> 0 <= i < n ->
  nth_page (page_align_down virt) i mod 4096 = 0.
Proof.
  intros Hr Hi. destruct (nth_page_user virt n i Hr Hi) as [Hu Hv].
  unfold range_ok, user_addr, vpn_of in *. destruct Hr as (Hv0 & Hn & Hb).
  pose proof (Z.div_mod virt 4096 ltac:(lia)). pose proof (Z.mod_pos_bound virt 4096 ltac:(lia)).
  rewrite page_align_down_eq by lia. unfold nth_page, PAGE_SIZE, u64.
  rewrite (Z.mod_small (i * 4096)), (Z.mod_small _ (2 ^ 64)) by lia.
  replace (4096 * (virt / 4096) + i * 4096) with ((virt / 4096 + i) * 4096) by lia.
  apply Z_mod_mult.
Qed.

Lemma protected_step virt flags i (W : Z -> option (nat * Z)) vpn (w : option (nat * Z)) :
  0 <= i -> w = reprotect flags (W (vpn_of virt + i)) ->
  (if vpn =? vpn_of virt + i then w else protected virt flags i W vpn) =
  protected virt flags (i + 1) W vpn.
Proof.
  intros Hi ->. unfold protected. rewrite in_pages_S by lia.
  by destruct (Z.eqb_spec vpn (vpn_of virt + i)) as [->|].
Qed.

Lemma wp_protect_range s tb virt n flags :
  space s pd d root tb -> range_ok virt n ->
  wp (paging_protect_range pd virt n flags) (fun b s' => b = true /\
    reached s tb (protected virt flags n (walk s root)) s' /\
    forall vpn e, tlb s' !! vpn = Some e -> flag e PAGE_GLOBAL = true) s.
Proof.
  intros Hs Hr. unfold paging_protect_range.
  assert (Hnn : (pd =? NULL) = false).
  { destruct Hs as [Hmm _ _ -> [Hd _] _ _]. by apply frame_addr_not_null. }
  rewrite Hnn. cbv zeta. wp_step. eapply wp_mono.
  - apply (wp_for_range
      (fun i _ s' => reached s tb (protected virt flags i (walk s root)) s') (fun (_ : bool) _ => False)).
    + eapply reached_ext; [by apply reached_refl|]. intros vpn _. unfold protected.
      by rewrite in_pages_0.
    + intros i [] s1 Hi H1. destruct (nth_page_user virt n i Hr) as [Hu Hvp]; [lia|].
      pose proof (nth_page_offset virt n i Hr Hi) as Hoff.
      assert (HWi : protected virt flags i (walk s root) (vpn_of virt + i) = walk s root (vpn_of virt + i)).
      { unfold protected, in_pages. by rewrite (proj2 (Z.ltb_ge _ _)), andb_false_r by lia. }
      unfold mmu_is_mapped. wp_steps. eapply reached_lookup; [exact H1|done|]. wp_step.
      rewrite Hvp, HWi. unfold translate at 1. rewrite Hoff.
      destruct (walk s root (vpn_of virt + i)) as [[l e]|] eqn:Ew.
      * rewrite Z.add_0_r. destruct (Z.eqb_spec (4096 * frame_of e) 0) as [E0|E0]; cbn [negb].
        -- wp_step. eapply reached_ext; [exact H1|]. intros vpn _.
           rewrite <- (protected_step virt flags i _ vpn (Some (l, e))); [|lia|].
           ++ destruct (Z.eqb_spec vpn (vpn_of virt + i)) as [->|]; [by rewrite HWi|done].
           ++ rewrite Ew. simpl. by rewrite (proj2 (Z.eqb_eq _ _)) by lia.
        -- wp_step. eapply reached_lookup; [exact H1|done|]. rewrite Hvp, HWi. unfold translate.
           rewrite Hoff, Z.add_0_r.
           apply (reached_remap (fun ok => if negb ok then ret (inr false) else ret (inl tt)) _ s tb
             (protected virt flags i (walk s root))); [done|done| |].
           { by rewrite Hvp, HWi. }
           intros s2 H2. cbn [negb]. wp_step. eapply reached_ext; [exact H2|]. intros vpn _.
           rewrite Hvp. apply protected_step; [lia|]. rewrite Ew. simpl.
           by rewrite (proj2 (Z.eqb_neq _ _)) by lia.
      * cbn [negb Z.eqb]. wp_step. eapply reached_ext; [exact H1|]. intros vpn _.
        rewrite <- (protected_step virt flags i _ vpn None); [|lia|by rewrite Ew].
        destruct (Z.eqb_spec vpn (vpn_of virt + i)) as [->|]; [by rewrite HWi|done].
  - destruct Hr as (_ & Hn & _). intros [[]|b] s1 H1; [|done].
    replace (Z.max 0 n) with n in H1 by lia. unfold mmu_flush_tlb_all, write_cr3. wp_steps.
    split_and!; [done| |].
    + destruct H1 as (tb1 & Hs1 & He & Hw). exists tb1. split_and!; [|by destruct He as [[]]; split|done].
      destruct Hs1 as [[] ]. by split.
    + intros vpn e. simpl. rewrite map_lookup_filter_Some. by intros [_ ?].
Qed.
End ranges.

(** C34: [paging_map_range] of a range of the user half, in a space whose user
    half holds no large pages: either it returns true and every page of the
    range is mapped to the corresponding physical page, or it runs out of
    frames, returns false and some first pages of the range are unmapped, also
    those that were mapped before the call; every other translation of the
    user half, and all memory outside the tables, is as before.  So it is all
    or nothing where no page of the range was mapped: a failure then leaves
    every translation as it was. *)
Theorem paging_map_range_all_or_nothing s pd d root tb virt phys n flags :
  space s pd d root tb -> range_ok virt n ->
  exists (b : bool) s', paging_map_range pd virt phys n flags s = Ok (b, s') /\
    (b = true -> reached pd d root s tb (mapped_to virt phys flags n (walk s root)) s') /\
    (b = false -> free s' = ∅ /\ exists k, 0 <= k < n /\
       reached pd d root s tb (unmapped_on virt k (walk s root)) s' /\
       ((forall vpn, in_pages (vpn_of virt) n vpn = true -> walk s root vpn = None) ->
        reached pd d root s tb (walk s root) s')).
Proof.
  intros Hs Hr. pose proof (wp_map_range pd d root s tb virt phys n flags Hs Hr) as Hw.
  apply wp_run in Hw as (b & s' & Hrun & Hb). exists b, s'. split; [done|].
  destruct b; (split; [|done]) || (split; [done|]); intros _; [exact Hb|].
  destruct Hb as (Hf & k & Hk & Hre). split; [done|]. exists k. split_and!; [lia|lia|done|].
  intros Hnone. eapply reached_ext; [exact Hre|]. intros vpn _. unfold unmapped_on.
  destruct (in_pages (vpn_of virt) k vpn) eqn:E; [|done]. symmetry. apply Hnone.
  revert E. unfold in_pages. rewrite !andb_true_iff, !Z.leb_le, !Z.ltb_lt. lia.
Qed.

Lemma paging_map_range_all_or_nothing_witness : exists d root s',
  paging_map_range demo_pd 0x400000 0x9000 3 7 demo_space = Ok (true, s') /\
  reached demo_pd d root demo_space {[ (3%nat, 0) := root ]}
    (mapped_to 0x400000 0x9000 7 3 (walk demo_space root)) s'.
Proof.
  destruct demo_is_space as (d & root & _ & Hs). exists d, root.
  destruct (paging_map_range_all_or_nothing demo_space demo_pd d root _ 0x400000 0x9000 3 7 Hs)
    as (b & s' & Hr & Ht & _); [by split_and!|].
  assert (Hok : (after (paging_map_range demo_pd 0x400000 0x9000 3 7) false demo_space).1 = true)
    by (vm_compute; reflexivity).
  pose proof (eq_trans (eq_sym Hok) (after_ok _ false _ _ _ Hr)) as Hb. destruct Hb.
  exists s'. split; [exact Hr|]. by apply Ht.
Defined.

(** [paging_protect_range] always succeeds: every mapped page of the range
    keeps its frame and gets the new flags, a page that is not mapped stays
    so, everything outside the range is as before, and only global
    translations stay cached.  (A page mapped to frame 0 counts as not
    mapped.) *)
Theorem paging_protect_range_keeps_frames s pd d root tb virt n flags :
  space s pd d root tb -> range_ok virt n ->
  exists s', paging_protect_range pd virt n flags s = Ok (true, s') /\
    reached pd d root s tb (protected virt flags n (walk s root)) s' /\
    forall vpn e, tlb s' !! vpn = Some e -> flag e PAGE_GLOBAL = true.
Proof.
  intros Hs Hr. pose proof (wp_protect_range pd d root s tb virt n flags Hs Hr) as Hw.
  apply wp_run in Hw as (b & s' & Hrun & -> & Hre & Ht). by exists s'.
Qed.

Lemma paging_protect_range_keeps_frames_witness : exists d root s',
  paging_protect_range demo_pd 0x400000 3 5 demo_space = Ok (true, s') /\
  reached demo_pd d root demo_space {[ (3%nat, 0) := root ]}
    (protected 0x400000 5 3 (walk demo_space root)) s'.
Proof.
  destruct demo_is_space as (d & root & _ & Hs). exists d, root.
  destruct (paging_protect_range_keeps_frames demo_space demo_pd d root _ 0x400000 3 5 Hs)
    as (s' & Hr & Hre & _); [by split_and!|].
  exists s'. split; [exact Hr|exact Hre].
Defined.
