(* ===== verification/VfsPath.v ===== *)
(** * Paths ([sys/src/libfs/vfs.c], path functions)

    A C string argument is the list of its characters, without the final
    NUL; a pointer into it that only moves forward is the suffix it points to.
    The destination buffer is an array of [VFS_MAX_PATH] characters with
    arbitrary initial contents, and every access to it is checked. *)

From stdpp Require Import base numbers list.
From S2P Require Import Prelude Kernel.

Definition VFS_MAX_PATH : Z := 4096.
Definition VFS_MAX_NAME : Z := 256.
Definition VFS_SUCCESS : Z := 0.
Definition DENTRY_HASH_SIZE : Z := 512.
Definition VNODE_HASH_SIZE : Z := 256.
Definition SLASH : Z := 47.
Definition DOT : Z := 46.

(** The byte at a string pointer: NUL at the end. *)
Definition deref (src : list Z) : Z := match src with [] => 0 | c :: _ => c end.
Definition strlen (str : list Z) : Z := Z.of_nat (length str).

(** ** Buffers *)

Abbreviation B := (M (list Z)).
Definition bread (i : Z) : B Z := b <- gets id ;; lift (aread b i).
Definition bwrite (i c : Z) : B unit := b <- gets id ;; b' <- lift (awrite b i c) ;; modify (fun _ => b').

(** [memcpy(dst, src, n)] of a whole string. *)
Fixpoint bcopy (i : Z) (src : list Z) : B unit :=
  match src with
  | [] => ret tt
  | c :: src => bwrite i c ;;; bcopy (i + 1) src
  end.

(** ** Hashing *)

Definition vnode_hash_func (dev ino : Z) : Z := Z.lxor (u32 dev) (u32 ino) mod VNODE_HASH_SIZE.

(** [c = *path++] is a signed [char] promoted to [int] and added to a
    [uint32_t]. *)
Definition char_to_int (c : Z) : Z := if c <? 128 then c else c - 256.
Definition dentry_hash_func (path : list Z) : Z :=
  fold_left (fun hash c => u32 (u32 (u32 (Z.shiftl hash 5) + hash) + u32 (char_to_int c))) path 5381
    mod DENTRY_HASH_SIZE.

(** ** Normalisation *)

Definition vfs_is_absolute_path (path : option (list Z)) : bool :=
  match path with None => false | Some p => deref p =? SLASH end.

Fixpoint skip_slashes (src : list Z) : list Z :=
  match src with
  | c :: rest => if c =? SLASH then skip_slashes rest else src
  | [] => []
  end.

(** The component at [src] and the position after it. *)
Fixpoint take_component (src : list Z) : list Z * list Z :=
  match src with
  | c :: rest =>
      if c =? SLASH then ([], src)
      else let '(comp, rest') := take_component rest in (c :: comp, rest')
  | [] => ([], [])
  end.

(** [while (dst > normalized && *(dst - 1) != '/') dst--]. *)
Fixpoint back_to_slash (fuel : nat) (dst : Z) : B Z :=
  match fuel with
  | O => throw F_fuel
  | S fuel =>
      if 0 <? dst then
        c <- bread (dst - 1) ;;
        if negb (c =? SLASH) then back_to_slash fuel (dst - 1) else ret dst
      else ret dst
  end.

(** One component; [inr] is an error return. *)
Definition put_component (component : list Z) (dst : Z) : B (Z + Z) :=
  if (strlen component =? 1) && (deref component =? DOT) then ret (inl dst)
  else if (strlen component =? 2) && (deref component =? DOT) && (deref (tail component) =? DOT) then
    if 1 <? dst then
      d <- back_to_slash (S (Z.to_nat dst)) (dst - 1) ;; ret (inl d)
    else ret (inl dst)
  else
    dst <- (if 1 <? dst then bwrite dst SLASH ;;; ret (dst + 1) else ret dst) ;;
    if VFS_MAX_PATH <=? dst + strlen component then ret (inr (-ENAMETOOLONG))
    else bcopy dst component ;;; ret (inl (dst + strlen component)).

(** The main loop; each iteration consumes a character of the path. *)
Fixpoint normalize_loop (fuel : nat) (src : list Z) (dst : Z) : B (Z + Z) :=
  match fuel with
  | O => throw F_fuel
  | S fuel =>
      if deref src =? 0 then ret (inl dst)
      else
        let src := skip_slashes src in
        if deref src =? 0 then ret (inl dst)
        else
          let '(component, src) := take_component src in
          r <- put_component component dst ;;
          match r with
          | inl dst => normalize_loop fuel src dst
          | inr e => ret (inr e)
          end
  end.

(** The state is the buffer [normalized], which is never null. *)
Definition vfs_normalize_path (path : option (list Z)) : B Z :=
  match path with
  | None => ret (-EINVAL)
  | Some p =>
      if negb (vfs_is_absolute_path path) then ret (-EINVAL)
      else if VFS_MAX_PATH <=? strlen p then ret (-ENAMETOOLONG)
      else
        bwrite 0 SLASH ;;;
        r <- normalize_loop (S (length p)) p 1 ;;
        match r with
        | inr e => ret e
        | inl dst =>
            dst <- (if dst =? 0 then bwrite dst SLASH ;;; ret (dst + 1) else ret dst) ;;
            dst <- (if 1 <? dst then
                      c <- bread (dst - 1) ;; ret (if c =? SLASH then dst - 1 else dst)
                    else ret dst) ;;
            bwrite dst 0 ;;;
            ret VFS_SUCCESS
        end
  end.

(** The C string at the start of a buffer. *)
Fixpoint cstr (b : list Z) : list Z :=
  match b with
  | [] => []
  | c :: b => if c =? 0 then [] else c :: cstr b
  end.

(** ** Base name, directory name, file names *)

(** The offset of the last [ch], as [strrchr]. *)
Fixpoint strrchr_from (i : Z) (p : list Z) (ch : Z) (save : option Z) : option Z :=
  match p with
  | [] => save
  | c :: p => strrchr_from (i + 1) p ch (if c =? ch then Some i else save)
  end.
Definition strrchr (p : list Z) (ch : Z) : option Z := strrchr_from 0 p ch None.

Definition vfs_basename (path : option (list Z)) : option (list Z) :=
  match path with
  | None => None
  | Some p =>
      match strrchr p SLASH with
      | Some i => Some (drop (Z.to_nat (i + 1)) p)
      | None => Some p
      end
  end.

(** The state is the buffer; [false] is a null result.  [strncpy] of a prefix
    without NUL copies it as it is. *)
Definition vfs_dirname (path : option (list Z)) (bufsize : Z) : B bool :=
  match path with
  | None => ret false
  | Some p =>
      if bufsize =? 0 then ret false
      else match strrchr p SLASH with
      | None => bwrite 0 DOT ;;; bwrite 1 0 ;;; ret true
      | Some i =>
          let len := if i =? 0 then 1 else i in
          if bufsize <=? len then ret false
          else
            bcopy 0 (take (Z.to_nat len) p) ;;;
            bwrite len 0 ;;;
            ret true
      end
  end.

Definition vfs_is_valid_filename (name : option (list Z)) : bool :=
  match name with
  | None => false
  | Some n =>
      if deref n =? 0 then false
      else if VFS_MAX_NAME <=? strlen n then false
      else if existsb (fun c => (c =? SLASH) || (c =? 0)) n then false
      else if bool_decide (n = [DOT]) || bool_decide (n = [DOT; DOT]) then false
      else true
  end.

(** [strncmp(a, b, n) == 0]. *)
Fixpoint strncmp_eq (n : nat) (a b : list Z) : bool :=
  match n with
  | O => true
  | S n =>
      if negb (deref a =? deref b) then false
      else if deref a =? 0 then true
      else strncmp_eq n (tail a) (tail b)
  end.

(** [u1] and [u2] are the uninitialised local buffers. *)
Definition vfs_path_is_under (u1 u2 : list Z) (path root : option (list Z)) : res bool :=
  match path, root with
  | Some _, Some _ =>
      match vfs_normalize_path path u1 with
      | Fault f => Fault f
      | Ok (r1, norm_path) =>
          if negb (r1 =? 0) then Ok false
          else match vfs_normalize_path root u2 with
          | Fault f => Fault f
          | Ok (r2, norm_root) =>
              if negb (r2 =? 0) then Ok false
              else
                let root_len := strlen (cstr norm_root) in
                if negb (strncmp_eq (Z.to_nat root_len) norm_path norm_root) then Ok false
                else match aread norm_path root_len with
                     | Fault f => Fault f
                     | Ok c => Ok ((c =? 0) || (c =? SLASH))
                     end
          end
      end
  | _, _ => Ok false
  end.
