(* ===== verification/VfsPathSpec.v ===== *)
(** * Specification of path normalisation

    The reference splits a path at slashes and resolves [.] and [..] on a
    stack of names.  [vfs_normalize_path] is safe on every path, agrees with
    the reference on the paths in which no name follows a [..] that leaves
    the stack non-empty ([steady]), and differs from it on others. *)

From stdpp Require Import base numbers list.
From S2P Require Import Prelude Kernel VfsPath.

Implicit Types (b src comp s t : list Z) (l cs : list (list Z)).

(** ** Reference *)

(** The non-empty components of a path. *)
Fixpoint components_from (cur : list Z) (p : list Z) : list (list Z) :=
  match p with
  | [] => match cur with [] => [] | _ => [cur] end
  | c :: p =>
      if c =? SLASH then match cur with [] => components_from [] p | _ => cur :: components_from [] p end
      else components_from (cur ++ [c]) p
  end.
Definition components (p : list Z) : list (list Z) := components_from [] p.

Definition resolve_one l comp : list (list Z) :=
  if decide (comp = [DOT]) then l
  else if decide (comp = [DOT; DOT]) then removelast l
  else l ++ [comp].
Definition resolve cs : list (list Z) := fold_left resolve_one cs [].

Definition flat l : list Z := flat_map (cons SLASH) l.
Definition render l : list Z := match l with [] => [SLASH] | _ => flat l end.

(** No name follows a [..] that leaves names on the stack: [up] says that the
    last component, dots apart, was a [..]. *)
Fixpoint steady (up : bool) l cs : Prop :=
  match cs with
  | [] => True
  | c :: cs =>
      if decide (c = [DOT]) then steady up l cs
      else if decide (c = [DOT; DOT]) then steady true (removelast l) cs
      else (up = false \/ l = []) /\ steady false (l ++ [c]) cs
  end.

(** ** Splitting *)

Definition name (c : list Z) : Prop := c <> [] /\ Forall (fun x => x <> SLASH /\ x <> 0) c.

Lemma components_skip p : components (skip_slashes p) = components p.
Proof.
  unfold components. induction p as [|c p IH]; simpl; [done|].
  destruct (Z.eqb_spec c SLASH) as [->|Hc]; simpl; [done|].
  by rewrite (proj2 (Z.eqb_neq _ _) Hc).
Qed.

Lemma take_component_app p comp rest : take_component p = (comp, rest) -> p = comp ++ rest.
Proof.
  revert comp rest. induction p as [|c p IH]; intros comp rest; simpl; [by intros [= <- <-]|].
  destruct (c =? SLASH); [by intros [= <- <-]|].
  destruct (take_component p) as [comp' rest'] eqn:E. intros [= <- <-]. simpl. f_equal. by apply IH.
Qed.

Lemma components_take cur p comp rest :
  take_component p = (comp, rest) ->
  components_from cur p =
    match cur ++ comp with [] => components rest | _ => (cur ++ comp) :: components rest end.
Proof.
  revert cur comp rest. induction p as [|c p IH]; intros cur comp rest; simpl.
  { intros [= <- <-]. rewrite app_nil_r. by destruct cur. }
  destruct (Z.eqb_spec c SLASH) as [->|Hc].
  - intros [= <- <-]. rewrite app_nil_r. unfold components. simpl. by destruct cur.
  - destruct (take_component p) as [comp' rest'] eqn:E. intros [= <- <-].
    rewrite (IH _ _ _ eq_refl), <- app_assoc. done.
Qed.

Lemma take_component_name p comp rest :
  Forall (fun x => x <> 0) p -> deref p <> 0 -> deref p <> SLASH -> take_component p = (comp, rest) ->
  name comp /\ (rest = [] \/ deref rest = SLASH) /\ (length comp + length rest = length p)%nat.
Proof.
  intros Hp H0 Hs Ht. assert (Hlen : (length comp + length rest = length p)%nat).
  { by rewrite (take_component_app _ _ _ Ht), length_app. }
  assert (Hall : Forall (fun x => x <> SLASH /\ x <> 0) comp /\ (rest = [] \/ deref rest = SLASH)).
  { clear H0 Hs Hlen. revert comp rest Ht Hp. induction p as [|c p IH]; intros comp rest; simpl.
    { intros [= <- <-] _. by split; [constructor|left]. }
    destruct (Z.eqb_spec c SLASH) as [->|Hc].
    - intros [= <- <-] _. by split; [constructor|right].
    - destruct (take_component p) as [comp' rest'] eqn:E. intros [= <- <-] Hp.
      inversion Hp as [|?? Hc0 Hp']; subst. destruct (IH _ _ eq_refl Hp') as [Hn Hr].
      split; [by constructor|done]. }
  destruct Hall as [Hall Hr]. split_and!; [|done|done]. split; [|done]. intros ->.
  destruct p as [|c p]; [done|]. simpl in *. rewrite (proj2 (Z.eqb_neq _ _) Hs) in Ht.
  by destruct (take_component p).
Qed.

Lemma skip_slashes_length p : (length (skip_slashes p) <= length p)%nat.
Proof. induction p as [|c p IH]; simpl; [lia|]. destruct (c =? SLASH); simpl; lia. Qed.

Lemma skip_slashes_deref p : deref (skip_slashes p) <> SLASH.
Proof. induction p as [|c p IH]; simpl; [done|]. by destruct (Z.eqb_spec c SLASH). Qed.

Lemma skip_slashes_Forall (P : Z -> Prop) p : Forall P p -> Forall P (skip_slashes p).
Proof. induction 1 as [|c p Hc Hp IH]; simpl; [done|]. destruct (c =? SLASH); [done|by constructor]. Qed.

(** ** Buffers *)

(** The first [dst] characters of the buffer are [s]. *)
Definition holds b (dst : Z) s : Prop :=
  length b = Z.to_nat VFS_MAX_PATH /\ dst = Z.of_nat (length s) /\ take (length s) b = s.

Lemma wp_bwrite (Q : unit -> list Z -> Prop) b dst s c :
  holds b dst s -> dst < VFS_MAX_PATH ->
  (forall b', holds b' (dst + 1) (s ++ [c]) -> Q tt b') -> wp (bwrite dst c) Q b.
Proof.
  intros (Hl & -> & Ht) Hd HQ. unfold VFS_MAX_PATH in *. unfold bwrite. wp_steps.
  eapply wp_lift; [unfold awrite; rewrite decide_True by (unfold id; lia); reflexivity|].
  wp_step. apply HQ. unfold id. rewrite Nat2Z.id. split_and!.
  - by rewrite length_insert.
  - rewrite length_app. simpl. lia.
  - rewrite length_app. simpl. rewrite Nat.add_1_r.
    rewrite (take_S_r _ _ c); [|apply list_lookup_insert_eq; lia].
    rewrite take_insert_ge by lia. by rewrite Ht.
Qed.

Lemma wp_bread (Q : Z -> list Z -> Prop) b dst s c :
  holds b dst (s ++ [c]) -> Q c b -> wp (bread (dst - 1)) Q b.
Proof.
  intros (Hl & -> & Ht) HQ. rewrite length_app in *. simpl in *. unfold bread. wp_steps.
  eapply wp_lift; [|exact HQ]. unfold aread. rewrite decide_True by lia.
  replace (Z.to_nat (Z.of_nat (length s + 1) - 1)) with (length s) by lia.
  assert (Hlk : take (length s + 1) b !! length s = Some c).
  { rewrite Ht. by apply list_lookup_middle. }
  unfold id. apply lookup_take_Some in Hlk as [-> _]. done.
Qed.

Lemma holds_prefix b dst s t : holds b dst (s ++ t) -> holds b (Z.of_nat (length s)) s.
Proof.
  intros (Hl & _ & Ht). split_and!; [done|done|]. rewrite length_app in Ht.
  assert (Hp : take (length s) (take (length s + length t) b) = s) by (by rewrite Ht, take_app_length).
  rewrite take_take in Hp. by rewrite Nat.min_l in Hp by lia.
Qed.

Lemma wp_bcopy (Q : unit -> list Z -> Prop) b dst s t :
  holds b dst s -> dst + strlen t <= VFS_MAX_PATH ->
  (forall b', holds b' (dst + strlen t) (s ++ t) -> Q tt b') -> wp (bcopy dst t) Q b.
Proof.
  unfold strlen. revert b dst s. induction t as [|c t IH]; intros b dst s Hh Hd HQ; simpl in *.
  - wp_step. apply HQ. by rewrite app_nil_r, Z.add_0_r.
  - wp_step. eapply wp_bwrite; [done|lia|]. intros b' Hh'.
    apply (IH b' _ (s ++ [c])); [done|lia|]. intros b'' Hh''. apply HQ.
    replace (dst + Z.of_nat (S (length t))) with (dst + 1 + Z.of_nat (length t)) by lia.
    by rewrite <- app_assoc in Hh''.
Qed.

(** Dropping back over a name to the slash before it. *)
Lemma wp_back_to_slash (Q : Z -> list Z -> Prop) fuel b dst s t :
  holds b dst (s ++ SLASH :: t) -> Forall (fun x => x <> SLASH) t -> (length t < fuel)%nat ->
  Q (Z.of_nat (length s) + 1) b -> wp (back_to_slash fuel dst) Q b.
Proof.
  revert b dst fuel. induction t as [|c t IH] using rev_ind; intros b dst fuel Hh Ht Hf HQ.
  - destruct fuel as [|fuel]; [simpl in Hf; lia|]. simpl. pose proof Hh as (_ & Hd & _).
    rewrite length_app in Hd. simpl in Hd. rewrite (proj2 (Z.ltb_lt 0 dst)) by lia.
    wp_step. eapply wp_bread; [exact Hh|]. rewrite Z.eqb_refl. cbn [negb]. wp_step.
    by replace dst with (Z.of_nat (length s) + 1) by lia.
  - rewrite length_app in Hf. simpl in Hf. destruct fuel as [|fuel]; [lia|]. simpl.
    apply Forall_app in Ht as [Ht Hc]. rewrite Forall_singleton in Hc.
    rewrite app_comm_cons, app_assoc in Hh. pose proof Hh as (_ & Hd & _).
    rewrite length_app in Hd. simpl in Hd. rewrite (proj2 (Z.ltb_lt 0 dst)) by lia.
    wp_step. eapply wp_bread; [exact Hh|]. rewrite (proj2 (Z.eqb_neq _ _) Hc). cbn [negb].
    apply holds_prefix in Hh. replace (dst - 1) with (Z.of_nat (length (s ++ SLASH :: t))) by lia.
    apply IH; [done|done|lia|done].
Qed.

(** ** One component *)

Definition rooted s : Prop := exists s', s = SLASH :: s'.
Definition no_slash t : Prop := Forall (fun x => x <> SLASH) t.

Lemma last_slash s : rooted s -> exists p t, s = p ++ SLASH :: t /\ no_slash t.
Proof.
  intros [s' ->]. induction s' as [|c s' IH] using rev_ind; [by exists [], []; split; [|constructor]|].
  destruct (decide (c = SLASH)) as [->|Hc].
  - exists (SLASH :: s'), []. split; [done|constructor].
  - destruct IH as (p & t & Heq & Ht). exists p, (t ++ [c]).
    split; [by rewrite app_comm_cons, Heq, <- app_assoc|]. apply Forall_app. split; [done|by constructor].
Qed.

Lemma slash_split_unique p1 t1 p2 t2 :
  p1 ++ SLASH :: t1 = p2 ++ SLASH :: t2 -> no_slash t1 -> no_slash t2 -> p1 = p2.
Proof.
  revert p2. induction p1 as [|x p1 IH]; intros [|y p2]; simpl; intros Heq H1 H2; simplify_eq.
  - done.
  - apply Forall_app in H1 as [_ H1]. by inversion H1.
  - apply Forall_app in H2 as [_ H2]. by inversion H2.
  - f_equal. by apply IH.
Qed.

(** What a component does to the string in the buffer. *)
Definition after_component s comp s' : Prop :=
  if decide (comp = [DOT]) then s' = s
  else if decide (comp = [DOT; DOT]) then
    (s = [SLASH] /\ s' = s) \/
    exists p t c, s = (p ++ SLASH :: t) ++ [c] /\ no_slash t /\ s' = p ++ [SLASH]
  else s' = (if decide (s = [SLASH]) then s else s ++ [SLASH]) ++ comp.

Lemma is_dot comp : (strlen comp =? 1) && (deref comp =? DOT) = bool_decide (comp = [DOT]).
Proof.
  unfold strlen. destruct comp as [|x [|y comp]]; cbn [length deref]; [done| |].
  - change (Z.of_nat 1 =? 1) with true. cbn [andb].
    destruct (Z.eqb_spec x DOT) as [->|]; [by rewrite bool_decide_eq_true_2|].
    rewrite bool_decide_eq_false_2; congruence.
  - rewrite bool_decide_eq_false_2 by done.
    by rewrite (proj2 (Z.eqb_neq (Z.of_nat (S (S (length comp)))) 1)) by lia.
Qed.

Lemma is_dotdot comp :
  (strlen comp =? 2) && (deref comp =? DOT) && (deref (tail comp) =? DOT) = bool_decide (comp = [DOT; DOT]).
Proof.
  unfold strlen. destruct comp as [|x [|y [|z comp]]]; cbn [length deref tail]; [done| | |].
  - rewrite bool_decide_eq_false_2 by done. done.
  - change (Z.of_nat 2 =? 2) with true.
    destruct (Z.eqb_spec x DOT) as [->|], (Z.eqb_spec y DOT) as [->|]; cbn [andb];
      [by rewrite bool_decide_eq_true_2|rewrite bool_decide_eq_false_2; congruence..].
  - rewrite bool_decide_eq_false_2 by done.
    by rewrite (proj2 (Z.eqb_neq (Z.of_nat (S (S (S (length comp))))) 2)) by lia.
Qed.

Lemma singleton_rooted s : rooted s -> length s = 1%nat -> s = [SLASH].
Proof. intros [[|x s'] ->]; simpl; [done|lia]. Qed.

(** An upper bound of the string after a component of [k] characters. *)
Definition grown_length s (k : Z) : Z := if decide (s = [SLASH]) then 1 + k else strlen s + 1 + k.

Lemma wp_put_name (Q : Z + Z -> list Z -> Prop) b s comp :
  holds b (strlen s) s -> rooted s -> grown_length s (strlen comp) < VFS_MAX_PATH ->
  (forall b' s', holds b' (strlen s') s' ->
     s' = (if decide (s = [SLASH]) then s else s ++ [SLASH]) ++ comp -> Q (inl (strlen s')) b') ->
  wp (dst <- (if 1 <? strlen s then bwrite (strlen s) SLASH ;;; ret (strlen s + 1) else ret (strlen s)) ;;
      if VFS_MAX_PATH <=? dst + strlen comp then ret (inr (-ENAMETOOLONG))
      else bcopy dst comp ;;; ret (inl (dst + strlen comp))) Q b.
Proof.
  intros Hh Hr Hb HQ. unfold grown_length in Hb. wp_step. case_decide as Hd.
  - subst s. change (1 <? strlen [SLASH]) with false. cbv iota. wp_step.
    change (strlen [SLASH]) with 1 in *. rewrite (proj2 (Z.leb_gt _ _)) by lia. wp_step.
    eapply wp_bcopy; [exact Hh|lia|]. intros b' Hh'. wp_step.
    change (1 + strlen comp) with (strlen [SLASH] + strlen comp) in *.
    unfold strlen in *. rewrite <- Nat2Z.inj_add, <- length_app in *. by eapply HQ.
  - assert (Hlen : 1 < strlen s).
    { destruct Hr as [[|x s'] ->]; [done|]. unfold strlen. simpl. lia. }
    rewrite (proj2 (Z.ltb_lt _ _) Hlen). wp_step. eapply wp_bwrite; [exact Hh| |].
    { unfold strlen in *. lia. }
    intros b1 Hh1. wp_step. rewrite (proj2 (Z.leb_gt _ _)) by lia. wp_step.
    eapply wp_bcopy; [exact Hh1|lia|]. intros b2 Hh2. wp_step.
    replace (strlen s + 1 + strlen comp) with (strlen ((s ++ [SLASH]) ++ comp)) in *
      by (unfold strlen; rewrite !length_app; simpl; lia). by eapply HQ.
Qed.

Lemma wp_put_component (Q : Z + Z -> list Z -> Prop) b s comp :
  holds b (strlen s) s -> rooted s -> name comp -> grown_length s (strlen comp) < VFS_MAX_PATH ->
  (forall b' s', holds b' (strlen s') s' -> rooted s' ->
     strlen s' <= grown_length s (strlen comp) -> after_component s comp s' -> Q (inl (strlen s')) b') ->
  wp (put_component comp (strlen s)) Q b.
Proof.
  intros Hh Hr [Hne Hn] Hb HQ. unfold put_component. rewrite is_dot, is_dotdot.
  assert (Hpos : 1 <= strlen s) by (destruct Hr as [s' ->]; unfold strlen; simpl; lia).
  assert (Hgl : strlen s <= grown_length s (strlen comp)).
  { unfold grown_length. case_decide; [subst; change (strlen [SLASH]) with 1|]; unfold strlen in *; lia. }
  unfold after_component in HQ. case_bool_decide as E1; cbv iota.
  { wp_step. apply (HQ b s); [done|done|done|]. by rewrite decide_True. }
  case_bool_decide as E2; cbv iota.
  - destruct (Z.ltb_spec 1 (strlen s)) as [Hlt|Hge].
    + destruct s as [|c s' _] using rev_ind; [done|].
      assert (Hr' : rooted s').
      { destruct s' as [|x s']; [unfold strlen in Hlt; simpl in Hlt; lia|].
        destruct Hr as [s2 Heq]. injection Heq as -> _. by eexists. }
      destruct (last_slash _ Hr') as (p & t & -> & Ht). wp_step.
      assert (Hlen : strlen ((p ++ SLASH :: t) ++ [c]) - 1 = strlen (p ++ SLASH :: t)).
      { unfold strlen. rewrite length_app. simpl. lia. }
      rewrite Hlen. pose proof (holds_prefix _ _ _ _ Hh) as Hh'.
      eapply wp_back_to_slash; [exact Hh'|exact Ht| |].
      { unfold strlen. rewrite !length_app. simpl. lia. }
      wp_step. replace (Z.of_nat (length p) + 1) with (strlen (p ++ [SLASH]))
        by (unfold strlen; rewrite length_app; simpl; lia).
      apply HQ.
      * rewrite <- (app_assoc p [SLASH] t) in Hh' || change (SLASH :: t) with ([SLASH] ++ t) in Hh'.
        rewrite app_assoc in Hh'. by apply holds_prefix in Hh'.
      * destruct Hr' as [s2 Heq]. destruct p as [|x p]; [by eexists|].
        injection Heq as -> _. by eexists.
      * transitivity (strlen ((p ++ SLASH :: t) ++ [c])); [|done]. unfold strlen.
        rewrite !length_app. simpl. lia.
      * rewrite decide_False, decide_True by done. right. by exists p, t, c.
    + assert (s = [SLASH]) as -> by (apply singleton_rooted; [done|unfold strlen in *; lia]).
      wp_step. apply HQ; [done|done|done|]. rewrite decide_False, decide_True by done. by left.
  - apply wp_put_name; [done|done|done|]. intros b' s' Hh' Hs'. apply HQ; [done| | |].
    + subst s'. destruct Hr as [s2 ->]. case_decide; by eexists.
    + subst s'. unfold grown_length. case_decide; [subst s|]; unfold strlen; rewrite !length_app; simpl; lia.
    + by rewrite !decide_False by done.
Qed.

(** ** The stack of names in the buffer *)

(** After a [..] a slash follows the names. *)
Definition shape (up : bool) l s : Prop :=
  if up then s = flat l ++ [SLASH] else s = render l.

Lemma flat_app l1 l2 : flat (l1 ++ l2) = flat l1 ++ flat l2.
Proof. apply flat_map_app. Qed.

Lemma flat_snoc l x : flat (l ++ [x]) = flat l ++ SLASH :: x.
Proof. rewrite flat_app. simpl. by rewrite app_nil_r. Qed.

Lemma render_snoc l x : render (l ++ [x]) = flat l ++ SLASH :: x.
Proof. rewrite <- flat_snoc. by destruct l. Qed.

Lemma name_no_slash x : name x -> no_slash x.
Proof. intros [_ Hx]. eapply Forall_impl; [exact Hx|]. by intros c [? _]. Qed.

Lemma shape_pop up l s s' :
  Forall name l -> shape up l s -> after_component s [DOT; DOT] s' -> shape true (removelast l) s'.
Proof.
  intros Hn Hsh Ha. unfold after_component in Ha. rewrite decide_False, decide_True in Ha by done.
  destruct l as [|x l _] using rev_ind.
  - assert (s = [SLASH]) as -> by (by destruct up).
    destruct Ha as [[_ ->]|(p & t & c & Heq & _)]; [done|]. exfalso.
    apply (f_equal length) in Heq. rewrite !length_app in Heq. simpl in Heq. lia.
  - rewrite removelast_last. apply Forall_app in Hn as [Hn Hx]. rewrite Forall_singleton in Hx.
    pose proof (name_no_slash _ Hx) as Hxs. destruct Hx as [Hx0 _].
    destruct x as [|c x _] using rev_ind; [done|]. apply Forall_app in Hxs as [Hxs Hc].
    assert (Hs : exists q d, s = (flat l ++ SLASH :: q) ++ [d] /\ no_slash q).
    { destruct up; simpl in Hsh; subst s.
      - rewrite flat_snoc. exists (x ++ [c]), SLASH. split; [done|]. apply Forall_app. by split.
      - rewrite render_snoc. exists x, c. split; [by rewrite <- app_assoc|done]. }
    destruct Hs as (q & d & -> & Hq).
    destruct Ha as [[Heq _]|(p & t & d' & Heq & Ht & ->)].
    + apply (f_equal length) in Heq. rewrite !length_app in Heq. simpl in Heq. lia.
    + apply app_inj_tail in Heq as [Heq _]. simpl. f_equal. symmetry.
      by eapply slash_split_unique.
Qed.

Lemma flat_not_root l : Forall name l -> l <> [] -> flat l <> [SLASH].
Proof.
  intros Hn Hl Heq. destruct l as [|x l]; [done|]. simpl in Heq. injection Heq as Heq.
  inversion Hn as [|?? [Hx _] _]; subst. by destruct x.
Qed.

Lemma shape_step up l s comp s' cs :
  Forall name l -> name comp -> shape up l s -> after_component s comp s' ->
  steady up l (comp :: cs) ->
  exists up', shape up' (resolve_one l comp) s' /\ Forall name (resolve_one l comp) /\
    steady up' (resolve_one l comp) cs.
Proof.
  intros Hn Hc Hsh Ha Hst. simpl in Hst. unfold resolve_one.
  destruct (decide (comp = [DOT])) as [->|E1].
  { unfold after_component in Ha. rewrite decide_True in Ha by done. subst s'. by exists up. }
  destruct (decide (comp = [DOT; DOT])) as [->|E2].
  { exists true. split_and!; [by eapply shape_pop| |done].
    destruct l as [|x l _] using rev_ind; [done|]. rewrite removelast_last.
    by apply Forall_app in Hn as [? _]. }
  destruct Hst as [Hup Hst]. exists false.
  unfold after_component in Ha. rewrite !decide_False in Ha by done. subst s'. split_and!.
  - simpl. rewrite render_snoc. destruct (decide (l = [])) as [->|Hl].
    + assert (s = [SLASH]) as -> by (by destruct up). by rewrite decide_True.
    + destruct Hup as [->|]; [|done]. simpl in Hsh. subst s. destruct l as [|x l]; [done|].
      rewrite decide_False by (by apply (flat_not_root (x :: l))). by rewrite <- app_assoc.
  - apply Forall_app. by split; [|constructor].
  - done.
Qed.

Definition nonzero s : Prop := Forall (fun x => x <> 0) s.

Lemma after_nonzero s comp s' :
  nonzero s -> name comp -> after_component s comp s' -> nonzero s'.
Proof.
  intros Hs [_ Hc] Ha. unfold after_component in Ha. case_decide; [by subst|]. case_decide.
  - destruct Ha as [[_ ->]|(p & t & c & -> & _ & ->)]; [done|]. apply Forall_app in Hs as [Hs _].
    apply Forall_app in Hs as [Hp _]. apply Forall_app. by split; [|constructor].
  - subst s'. apply Forall_app. split.
    + case_decide; [done|]. apply Forall_app. by split; [|constructor].
    + eapply Forall_impl; [exact Hc|]. by intros x [_ ?].
Qed.

(** ** The loop *)

Lemma wp_normalize_loop (Q : Z + Z -> list Z -> Prop) fuel src s b n :
  nonzero src -> (length src < fuel)%nat -> n < VFS_MAX_PATH ->
  src = [] \/ deref src = SLASH ->
  (s = [SLASH] /\ strlen src <= n) \/ strlen s + strlen src <= n ->
  holds b (strlen s) s -> rooted s -> nonzero s -> 1 <= n ->
  (forall b' s', holds b' (strlen s') s' -> rooted s' -> nonzero s' -> strlen s' <= n ->
     (forall up l, Forall name l -> shape up l s -> steady up l (components src) ->
        let l' := fold_left resolve_one (components src) l in
        exists up', shape up' l' s' /\ Forall name l') -> Q (inl (strlen s')) b') ->
  wp (normalize_loop fuel src (strlen s)) Q b.
Proof.
  revert src s b. induction fuel as [|fuel IH]; intros src s b Hnz Hf Hn Hsrc Hb Hh Hr Hsz Hn1 HQ; [lia|].
  assert (Hend : components src = [] -> Q (inl (strlen s)) b).
  { intros Hc. apply HQ; try done.
    - destruct Hb as [[-> _]|Hb]; [done|]. unfold strlen in *. lia.
    - intros up l Hl Hsh _. rewrite Hc. by exists up. }
  simpl. destruct (Z.eqb_spec (deref src) 0) as [E0|E0].
  { wp_step. apply Hend. destruct src as [|c src]; [done|]. simpl in E0. inversion Hnz; congruence. }
  rewrite <- components_skip in HQ, Hend. pose proof (skip_slashes_deref src) as Hns.
  assert (Hshort : (length (skip_slashes src) < length src)%nat).
  { destruct Hsrc as [->|Hs]; [done|]. destruct src as [|c src]; [done|]. simpl in Hs. subst c. simpl.
    pose proof (skip_slashes_length src). lia. }
  pose proof (skip_slashes_Forall _ _ Hnz) as Hnz1. set (src1 := skip_slashes src) in *.
  destruct (Z.eqb_spec (deref src1) 0) as [E1|E1].
  { wp_step. apply Hend. destruct src1 as [|c src1]; [done|]. simpl in E1. inversion Hnz1; congruence. }
  destruct (take_component src1) as [comp rest] eqn:Ht.
  destruct (take_component_name _ _ _ Hnz1 E1 Hns Ht) as (Hname & Hrest & Hlen).
  pose proof (components_take [] _ _ _ Ht) as Hcomps. fold (components src1) in Hcomps. simpl in Hcomps.
  assert (Hgl : grown_length s (strlen comp) + strlen rest <= n).
  { unfold grown_length, strlen in *. destruct (decide (s = [SLASH])) as [->|Hs1].
    - simpl in Hb. destruct Hb as [[_ Hb]|Hb]; lia.
    - destruct Hb as [[? _]|Hb]; [done|]. lia. }
  wp_step. apply wp_put_component; [done|done|done|unfold strlen in *; lia|].
  intros b1 s1 Hh1 Hr1 Hl1 Ha1.
  apply IH; [| |done|done|right; unfold strlen in *; lia|done|done|exact (after_nonzero _ _ _ Hsz Hname Ha1)|done|].
  - rewrite (take_component_app _ _ _ Ht) in Hnz1. by apply Forall_app in Hnz1 as [_ ?].
  - destruct Hname as [Hne _]. lia.
  - intros b2 s2 Hh2 Hr2 Hz2 Hl2 Hstep. apply HQ; [done..|]. intros up l Hl Hsh Hst.
    destruct comp as [|x comp]; [by destruct Hname|]. rewrite Hcomps in Hst |- *.
    destruct (shape_step _ _ _ _ _ _ Hl Hname Hsh Ha1 Hst) as (up1 & Hsh1 & Hl1' & Hst1).
    apply (Hstep up1); done.
Qed.

(** ** The result *)

Lemma cstr_holds b s : nonzero s -> take (length (s ++ [0])) b = s ++ [0] -> cstr b = s.
Proof.
  revert b. induction s as [|c s IH]; intros [|x b] Hz Ht; simpl in *; simplify_eq; [done|].
  inversion Hz as [|?? Hc Hs]; subst. rewrite (proj2 (Z.eqb_neq _ _) Hc). f_equal. by apply IH.
Qed.

(** What the string in the buffer is after a trailing slash is dropped. *)
Definition stripped s : list Z :=
  if (1 <? strlen s) && (default 0 (last s) =? SLASH) then removelast s else s.

Lemma stripped_shape up l s : Forall name l -> shape up l s -> stripped s = render l.
Proof.
  intros Hn Hsh. unfold stripped. destruct l as [|x l _] using rev_ind.
  { assert (s = [SLASH]) as -> by (by destruct up). done. }
  apply Forall_app in Hn as [_ Hx]. rewrite Forall_singleton in Hx.
  pose proof (name_no_slash _ Hx) as Hxs. destruct Hx as [Hx0 _].
  destruct x as [|c x _] using rev_ind; [done|]. apply Forall_app in Hxs as [_ Hc].
  rewrite Forall_singleton in Hc. rewrite render_snoc. destruct up; simpl in Hsh; subst s.
  - rewrite last_snoc, removelast_last, flat_snoc. simpl. rewrite andb_true_r.
    rewrite (proj2 (Z.ltb_lt _ _)); [done|]. unfold strlen. rewrite !length_app. simpl. lia.
  - rewrite render_snoc, app_comm_cons, app_assoc, last_snoc. simpl.
    by rewrite (proj2 (Z.eqb_neq _ _) Hc), andb_false_r.
Qed.

Lemma stripped_rooted s : rooted s -> rooted (stripped s) /\ strlen (stripped s) <= strlen s.
Proof.
  intros Hr. unfold stripped. destruct (Z.ltb_spec 1 (strlen s)) as [Hl|]; [|done].
  destruct (_ =? SLASH); [|done]. simpl. destruct s as [|c s _] using rev_ind; [done|].
  rewrite removelast_last. destruct Hr as [s' Heq]. unfold strlen in *. rewrite length_app in *. simpl in *.
  split; [|lia]. destruct s as [|x s]; [simpl in Hl; lia|]. injection Heq as -> _. by eexists.
Qed.

Lemma stripped_nonzero s : nonzero s -> nonzero (stripped s).
Proof.
  intros Hs. unfold stripped. destruct (_ && _); [|done].
  destruct s as [|c s _] using rev_ind; [done|]. rewrite removelast_last.
  by apply Forall_app in Hs as [? _].
Qed.

(** The last steps: dropping the slash and writing the NUL. *)
Lemma wp_finish (Q : Z -> list Z -> Prop) b s :
  holds b (strlen s) s -> rooted s -> nonzero s -> strlen s < VFS_MAX_PATH ->
  (forall b', length b' = Z.to_nat VFS_MAX_PATH -> cstr b' = stripped s -> Q VFS_SUCCESS b') ->
  wp (dst <- (if 1 <? strlen s then
                c <- bread (strlen s - 1) ;; ret (if c =? SLASH then strlen s - 1 else strlen s)
              else ret (strlen s)) ;;
      bwrite dst 0 ;;; ret VFS_SUCCESS) Q b.
Proof.
  intros Hh Hr Hz Hl HQ. wp_step.
  assert (Hfin : forall dst, holds b dst (stripped s) -> wp (bwrite dst 0 ;;; ret VFS_SUCCESS) Q b).
  { intros dst Hd. pose proof Hd as (_ & Hdl & _). destruct (stripped_rooted _ Hr) as [_ Hle].
    wp_step. eapply wp_bwrite; [exact Hd|unfold strlen in *; lia|]. intros b' (Hlen & _ & Ht). wp_step.
    apply HQ; [done|]. apply cstr_holds; [by apply stripped_nonzero|done]. }
  unfold stripped in Hfin. destruct (Z.ltb_spec 1 (strlen s)) as [H1|H1]; simpl in Hfin.
  - destruct s as [|c s _] using rev_ind; [done|]. rewrite last_snoc, removelast_last in Hfin. simpl in Hfin.
    wp_step. eapply wp_bread; [exact Hh|]. wp_step. apply Hfin. destruct (c =? SLASH); [|done].
    replace (strlen (s ++ [c]) - 1) with (Z.of_nat (length s));
      [by apply holds_prefix in Hh|unfold strlen; rewrite length_app; simpl; lia].
  - wp_step. by apply Hfin.
Qed.

(** What [vfs_normalize_path] leaves in its buffer. *)
Lemma wp_normalize_path b p :
  length b = Z.to_nat VFS_MAX_PATH -> nonzero p ->
  wp (vfs_normalize_path (Some p)) (fun r b' =>
    (deref p <> SLASH /\ r = -EINVAL /\ b' = b) \/
    (deref p = SLASH /\ VFS_MAX_PATH <= strlen p /\ r = -ENAMETOOLONG /\ b' = b) \/
    (deref p = SLASH /\ r = VFS_SUCCESS /\ length b' = Z.to_nat VFS_MAX_PATH /\
     rooted (cstr b') /\ strlen (cstr b') <= strlen p /\
     (steady false [] (components p) -> cstr b' = render (resolve (components p))))) b.
Proof.
  intros Hb Hz.
  unfold vfs_normalize_path, vfs_is_absolute_path.
  destruct (Z.eqb_spec (deref p) SLASH) as [Ha|Ha]; cbn [negb]; [|wp_step; by left].
  destruct (Z.leb_spec VFS_MAX_PATH (strlen p)) as [Hl|Hl]; [wp_step; right; by left|].
  wp_step. eapply (wp_bwrite _ _ 0 []); [by split_and!|done|]. intros b1 Hh1. wp_step.
  change (holds b1 1 [SLASH]) in Hh1. change 1 with (strlen [SLASH]).
  assert (Hp1 : 1 <= strlen p) by (destruct p; [done|unfold strlen; simpl; lia]).
  eapply wp_normalize_loop; [done|lia|exact Hl|by right|by left|exact Hh1|by eexists|
    by constructor|done|].
  intros b2 s2 Hh2 Hr2 Hz2 Hl2 Hstep. cbv iota. wp_step.
  assert (Hne : (strlen s2 =? 0) = false).
  { apply Z.eqb_neq. destruct Hr2 as [s' ->]. unfold strlen. simpl. lia. }
  rewrite Hne. wp_step. apply wp_finish; [done|done|done|lia|].
  intros b3 Hb3 Hc3. right; right. destruct (stripped_rooted _ Hr2) as [Hr3 Hl3].
  rewrite Hc3. split_and!; [done|done|done|done|lia|]. intros Hst.
  destruct (Hstep false [] (Forall_nil_2 _) eq_refl Hst) as (up & Hsh & Hn).
  by apply (stripped_shape up).
Qed.

(** C30: [vfs_normalize_path] on an absolute path shorter than the buffer
    never writes outside the 4096 bytes, ends, and leaves a NUL-terminated
    absolute path no longer than the input; when no name follows a [..] that
    leaves names on the stack, it is the path the reference resolves to.  A
    path that is not absolute, or too long, is refused with the buffer
    untouched. *)
Theorem vfs_normalize_path_spec b p :
  length b = Z.to_nat VFS_MAX_PATH -> nonzero p ->
  exists r b', vfs_normalize_path (Some p) b = Ok (r, b') /\
    ((deref p <> SLASH /\ r = -EINVAL /\ b' = b) \/
     (deref p = SLASH /\ VFS_MAX_PATH <= strlen p /\ r = -ENAMETOOLONG /\ b' = b) \/
     (deref p = SLASH /\ r = VFS_SUCCESS /\ length b' = Z.to_nat VFS_MAX_PATH /\
      rooted (cstr b') /\ strlen (cstr b') <= strlen p /\
      (steady false [] (components p) -> cstr b' = render (resolve (components p))))).
Proof.
  intros Hb Hz. destruct (proj1 (wp_run _ _ _) (wp_normalize_path b p Hb Hz)) as (r & b' & Hr & H). by exists r, b'.
Qed.


Lemma vfs_normalize_path_spec_witness :
  (* "/usr//./lib/" *)
  let p := [47; 117; 115; 114; 47; 47; 46; 47; 108; 105; 98; 47] in
  exists r b', vfs_normalize_path (Some p) (replicate 4096 255) = Ok (r, b') /\ r = VFS_SUCCESS /\
    cstr b' = render [[117; 115; 114]; [108; 105; 98]].
Proof.
  intros p.
  destruct (vfs_normalize_path_spec (replicate 4096 255) p) as (r & b' & Hr & H);
    [by rewrite length_replicate|by repeat constructor|].
  exists r, b'. split; [exact Hr|].
  destruct H as [[Hd _]|[(_ & Hl & _)|(_ & Hs & _ & _ & _ & Hc)]]; [done|by vm_compute in Hl|].
  split; [exact Hs|]. rewrite Hc; [by vm_compute|]. vm_compute. tauto.
Defined.

(** where a name follows a [..] that leaves names on the stack the result
    is not the resolved path: "/a/b/../c" becomes "/a//c", and a later [..]
    then removes only the empty name, so "/a/b/../c/../.." becomes "/a" and
    not "/".  And no path but "/" itself is under "/". *)
Theorem vfs_dotdot_misresolved :
  let norm p := match vfs_normalize_path (Some p) (replicate 4096 0) with
                | Ok (_, b) => cstr b | Fault _ => [] end in
  let abc := [47; 97; 47; 98; 47; 46; 46; 47; 99] in
  norm abc = [47; 97; 47; 47; 99] /\ render (resolve (components abc)) = [47; 97; 47; 99] /\
  norm (abc ++ [47; 46; 46; 47; 46; 46]) = [47; 97] /\
  render (resolve (components (abc ++ [47; 46; 46; 47; 46; 46]))) = [47] /\
  vfs_path_is_under (replicate 4096 0) (replicate 4096 0) (Some [47; 97]) (Some [47]) = Ok false.
Proof. vm_compute. tauto. Qed.
