(* ===== verification/Superblock.v ===== *)
(** * Superblocks ([sys/src/libfs/inode.c], last part)

    Superblock structures live in a heap of objects named by their address;
    [dirty_superblocks] is the array of 32 pointers with its count and lock.
    On the device a superblock is the 100 bytes of its fields, little-endian,
    without padding. *)

From stdpp Require Import base numbers list list_numbers gmap strings.
From S2P Require Import Prelude Spinlock Kernel VfsFile BlkAlloc.

Definition SB_FLAG_DIRTY : Z := 0x01.
Definition SB_STATE_CLEAN : Z := 0x0001.
Definition SB_ERRORS_CONTINUE : Z := 1.
Definition sizeof_superblock : Z := 100.
Definition MAX_DIRTY : Z := 32.

Record superblock := Superblock {
  sb_magic : Z;
  sb_block_size : Z;
  sb_total_blocks : Z;
  sb_free_blocks : Z;
  sb_total_inodes : Z;
  sb_free_inodes : Z;
  sb_first_data_block : Z;
  sb_inode_table_block : Z;
  sb_block_bitmap_block : Z;
  sb_inode_bitmap_block : Z;
  sb_mount_time : Z;
  sb_write_time : Z;
  sb_mount_count : Z;
  sb_max_mount_count : Z;
  sb_state : Z;
  sb_errors : Z;
  sb_flags : Z;
  sb_padding : Z;
  sb_reserved : list Z
}.

Definition sb_set_flags (f : Z) (b : superblock) : superblock :=
  Superblock (sb_magic b) (sb_block_size b) (sb_total_blocks b) (sb_free_blocks b)
    (sb_total_inodes b) (sb_free_inodes b) (sb_first_data_block b) (sb_inode_table_block b)
    (sb_block_bitmap_block b) (sb_inode_bitmap_block b) (sb_mount_time b) (sb_write_time b)
    (sb_mount_count b) (sb_max_mount_count b) (sb_state b) (sb_errors b) f (sb_padding b)
    (sb_reserved b).

(** ** The bytes of a superblock *)

Fixpoint le (n : nat) (x : Z) : list Z :=
  match n with O => [] | S n => x mod 256 :: le n (x / 256) end.
Definition unle (b : list Z) : Z := foldr (fun c acc => c + 256 * acc) 0 b.

Definition sb_words (b : superblock) : list Z :=
  [sb_magic b; sb_block_size b; sb_total_blocks b; sb_free_blocks b; sb_total_inodes b;
   sb_free_inodes b; sb_first_data_block b; sb_inode_table_block b; sb_block_bitmap_block b;
   sb_inode_bitmap_block b; sb_mount_time b; sb_write_time b].
Definition sb_halves (b : superblock) : list Z :=
  [sb_mount_count b; sb_max_mount_count b; sb_state b; sb_errors b; sb_flags b; sb_padding b].

Definition sb_encode (b : superblock) : list Z :=
  (sb_words b ≫= le 4) ++ (sb_halves b ≫= le 2) ++ (sb_reserved b ≫= le 4).

Definition field (b : list Z) (off : nat) (n : nat) : Z := unle (take n (drop off b)).
Definition sb_decode (b : list Z) : superblock :=
  Superblock (field b 0 4) (field b 4 4) (field b 8 4) (field b 12 4) (field b 16 4)
    (field b 20 4) (field b 24 4) (field b 28 4) (field b 32 4) (field b 36 4) (field b 40 4)
    (field b 44 4) (field b 48 2) (field b 50 2) (field b 52 2) (field b 54 2) (field b 56 2)
    (field b 58 2)
    [field b 60 4; field b 64 4; field b 68 4; field b 72 4; field b 76 4; field b 80 4;
     field b 84 4; field b 88 4; field b 92 4; field b 96 4].

(** ** State *)

Record sbtab := SbTab {
  st_heap : gmap Z superblock;
  st_dirty : list Z;
  st_count : Z;
  st_lock : spinlock
}.
Definition st_set_heap (m : gmap Z superblock) (t : sbtab) : sbtab :=
  SbTab m (st_dirty t) (st_count t) (st_lock t).
Definition st_set_dirty (d : list Z) (n : Z) (t : sbtab) : sbtab :=
  SbTab (st_heap t) d n (st_lock t).
Definition st_set_lock (l : spinlock) (t : sbtab) : sbtab :=
  SbTab (st_heap t) (st_dirty t) (st_count t) l.

(** [dirty_sb_lock]. *)
#[global] Instance sbtab_lock : HasLock sbtab := {
  lk_get := st_lock;
  lk_set := st_set_lock;
  lk_get_set _ _ := eq_refl;
  lk_set_set _ _ _ := eq_refl
}.

Section superblock.
Context {E : Type} `{KernelHeap E} `{VnodeLayer E}.
Abbreviation K := (M (kst sbtab E)).

Definition the_sb (p : Z) : K superblock :=
  m <- obj st_heap ;;
  match m !! p with Some b => ret b | None => throw F_null end.
Definition put_sb (p : Z) (b : superblock) (t : sbtab) : sbtab :=
  st_set_heap (<[p := b]> (st_heap t)) t.
Definition upd_sb (p : Z) (g : superblock -> superblock) : K unit :=
  b <- the_sb p ;; upd (put_sb p (g b)).

(** [dirty_superblocks[i]]. *)
Definition read_dirty (i : Z) : K Z := d <- obj st_dirty ;; lift (aread d i).
Definition write_dirty (i v : Z) : K unit :=
  d <- obj st_dirty ;; d' <- lift (awrite d i v) ;;
  upd (fun t => st_set_dirty d' (st_count t) t).

Definition superblock_init (p block_size total_blocks total_inodes : Z) : K Z :=
  if p =? NULL then ret (-EINVAL)
  else
    upd_sb p (fun _ => Superblock 0 block_size total_blocks total_blocks total_inodes total_inodes
      0 0 0 0 0 0 0 0 SB_STATE_CLEAN SB_ERRORS_CONTINUE 0 0 (replicate 10 0)) ;;;
    ret 0.

Definition superblock_read (mnt : option vfs_mount) (block p : Z) : K Z :=
  match mnt with
  | None => ret (-EINVAL)
  | Some mnt =>
      if p =? NULL then ret (-EINVAL)
      else match mnt_device mnt with
      | None => ret (-EINVAL)
      | Some device =>
          opened <- vfs_open (Some device) VFS_O_RDONLY 0 ;;
          let '(r, dev_file) := opened in
          if negb (r =? 0) then ret r
          else
            seek_result <- vfs_seek dev_file (block * 512) VFS_SEEK_SET ;;
            if seek_result <? 0 then
              vfs_close dev_file ;;; ret (s32 seek_result)
            else
              res <- vfs_read dev_file sizeof_superblock ;;
              let '(bytes_read, buf) := res in
              upd_sb p (fun b => sb_decode (buf ++ drop (length buf) (sb_encode b))) ;;;
              vfs_close dev_file ;;;
              if negb (bytes_read =? sizeof_superblock) then
                ret (if bytes_read <? 0 then s32 bytes_read else -EIO)
              else ret 0
      end
  end.

Definition superblock_write (mnt : option vfs_mount) (block p : Z) : K Z :=
  match mnt with
  | None => ret (-EINVAL)
  | Some mnt =>
      if p =? NULL then ret (-EINVAL)
      else match mnt_device mnt with
      | None => ret (-EINVAL)
      | Some device =>
          opened <- vfs_open (Some device) VFS_O_RDWR 0 ;;
          let '(r, dev_file) := opened in
          if negb (r =? 0) then ret r
          else
            b <- the_sb p ;;
            seek_result <- vfs_seek dev_file (s64 (block * sb_block_size b)) VFS_SEEK_SET ;;
            if seek_result <? 0 then
              vfs_close dev_file ;;; ret (s32 seek_result)
            else
              b <- the_sb p ;;
              bytes_written <- vfs_write dev_file (sb_encode b) ;;
              if negb (bytes_written =? sizeof_superblock) then
                vfs_close dev_file ;;;
                ret (if bytes_written <? 0 then s32 bytes_written else -EIO)
              else
                r <- vfs_fsync dev_file ;;
                vfs_close dev_file ;;;
                ret r
      end
  end.

Definition superblock_validate (p expected_magic : Z) : K bool :=
  if p =? NULL then ret false
  else
    b <- the_sb p ;;
    ret ((sb_magic b =? expected_magic) && (0 <? sb_block_size b) && (0 <? sb_total_blocks b) &&
         (0 <? sb_total_inodes b)).

(** The index of [p] in the dirty list: the search loops of [superblock_sync]
    and [superblock_mark_dirty]. *)
Definition find_dirty (p : Z) : K (option Z) :=
  n <- obj st_count ;;
  r <- for_range 0 n tt (fun i _ =>
    q <- read_dirty i ;;
    if q =? p then ret (inr i) else ret (inl tt)) ;;
  match r with inr i => ret (Some i) | inl _ => ret None end.

Definition clear_dirty (b : superblock) : superblock :=
  sb_set_flags (Z.ldiff (sb_flags b) SB_FLAG_DIRTY) b.

Definition superblock_sync (mnt : option vfs_mount) (block p : Z) : K Z :=
  if p =? NULL then ret (-EINVAL)
  else match mnt with
  | None => ret (-EINVAL)
  | Some _ =>
      flags <- lock_obj ;;
      b <- the_sb p ;;
      if negb (has_flag (sb_flags b) SB_FLAG_DIRTY) then unlock_obj flags ;;; ret 0
      else
        unlock_obj flags ;;;
        r <- superblock_write mnt block p ;;
        if negb (r =? 0) then ret r
        else
          flags <- lock_obj ;;
          upd_sb p clear_dirty ;;;
          found <- find_dirty p ;;
          match found with
          | None => ret tt
          | Some i =>
              n <- obj st_count ;;
              for_each i (n - 1) tt (fun j _ => v <- read_dirty (j + 1) ;; write_dirty j v) ;;;
              upd (fun t => st_set_dirty (st_dirty t) (st_count t - 1) t)
          end ;;;
          unlock_obj flags ;;;
          ret 0
  end.

Definition superblock_sync_all : K Z :=
  flags <- lock_obj ;;
  n <- obj st_count ;;
  for_each 0 n tt (fun i _ =>
    p <- read_dirty i ;;
    if p =? NULL then ret tt
    else
      b <- the_sb p ;;
      if has_flag (sb_flags b) SB_FLAG_DIRTY then upd_sb p clear_dirty else ret tt) ;;;
  upd (fun t => st_set_dirty (st_dirty t) 0 t) ;;;
  unlock_obj flags ;;;
  ret 0.

Definition superblock_mark_dirty (p : Z) : K unit :=
  if p =? NULL then ret tt
  else
    flags <- lock_obj ;;
    upd_sb p (fun b => sb_set_flags (Z.lor (sb_flags b) SB_FLAG_DIRTY) b) ;;;
    found <- find_dirty p ;;
    n <- obj st_count ;;
    match found with
    | None =>
        if n <? MAX_DIRTY then
          write_dirty n p ;;;
          upd (fun t => st_set_dirty (st_dirty t) (n + 1) t)
        else ret tt
    | Some _ => ret tt
    end ;;;
    unlock_obj flags.
End superblock.
