(* ===== verification/SuperblockSpec.v ===== *)
(** * Specification of superblocks

    What [superblock_write] leaves on the device decodes to the superblock
    that was written, and what [superblock_sync_all] does to the structures in
    memory and to the device. *)

From stdpp Require Import base numbers list list_numbers gmap strings.
From S2P Require Import Prelude Spinlock Kernel VfsFile VfsFileFacts VfsFileSpec.
From S2P Require Import BlkAlloc Superblock.

(** ** Encoding *)

Record sb_ok (b : superblock) : Prop := {
  sbo_words : Forall (fun x => 0 <= x < 2 ^ 32) (sb_words b);
  sbo_halves : Forall (fun x => 0 <= x < 2 ^ 16) (sb_halves b);
  sbo_reserved : Forall (fun x => 0 <= x < 2 ^ 32) (sb_reserved b);
  sbo_length : length (sb_reserved b) = 10%nat
}.

Lemma unle_le n x : 0 <= x < 256 ^ Z.of_nat n -> unle (le n x) = x.
Proof.
  revert x. induction n as [|n IH]; intros x Hx.
  - change (256 ^ Z.of_nat 0) with 1 in Hx. simpl. lia.
  - rewrite Nat2Z.inj_succ, Z.pow_succ_r in Hx by lia. simpl. fold (unle (le n (x / 256))).
    rewrite IH; [pose proof (Z.div_mod x 256); lia|]. split; [apply Z.div_pos; lia|].
    apply Z.div_lt_upper_bound; lia.
Qed.

Lemma sb_encode_length b : sb_ok b -> length (sb_encode b) = 100%nat.
Proof.
  intros [_ _ _ Hl]. unfold sb_encode. destruct b as [? ? ? ? ? ? ? ? ? ? ? ? ? ? ? ? ? ? r]. simpl in Hl.
  do 10 (destruct r as [|? r]; [done|]). destruct r; [|done]. reflexivity.
Qed.

Lemma sb_decode_encode b : sb_ok b -> sb_decode (sb_encode b) = b.
Proof.
  intros [Hw Hh Hr Hl]. destruct b as [? ? ? ? ? ? ? ? ? ? ? ? ? ? ? ? ? ? r].
  unfold sb_words, sb_halves in *. simpl in *.
  do 10 (destruct r as [|? r]; [done|]). destruct r; [|done].
  repeat match goal with Hf : Forall _ (_ :: _) |- _ => apply Forall_cons in Hf as [? Hf] end.
  unfold sb_decode. f_equal; try (refine (unle_le 4 _ _); assumption); try (refine (unle_le 2 _ _); assumption).
  repeat (apply (f_equal2 cons); [refine (unle_le 4 _ _); assumption|]). done.
Qed.

(** ** Writing to the device *)

Section disk.
Context {E : Type} `{BlockStore E}.
Implicit Types (s : kst sbtab E) (b : superblock).

Lemma wp_the_sb (Q : superblock -> kst sbtab E -> Prop) s p b :
  st_heap (k_obj s) !! p = Some b -> Q b s -> wp (the_sb p) Q s.
Proof. intros Hb HQ. unfold the_sb. wp_step. unfold obj. wp_step. by rewrite Hb. Qed.

Lemma stored_fmap (c : Z -> Z) base (l : list Z) n :
  Z.of_nat (length l) = n -> stored c base l n -> c <$> seqZ base n = l.
Proof.
  intros Hl Hs. apply list_eq. intros i. rewrite list_lookup_fmap.
  destruct (decide (Z.of_nat i < n)) as [Hi|Hi].
  - rewrite lookup_seqZ_lt by lia. simpl. specialize (Hs (Z.of_nat i)). rewrite Nat2Z.id in Hs.
    by rewrite Hs by lia.
  - rewrite lookup_seqZ_ge by lia. simpl. symmetry. apply lookup_ge_None. lia.
Qed.

(** [superblock_write] through a device that opens: it returns without a
    fault, the device file is closed, memory and the interrupt flags are as
    before, and if it returns 0 the 100 bytes of the device from
    [block * sb_block_size] on decode to the superblock. *)
Theorem superblock_write_stores s p b device fp v s1 block wr sy :
  st_heap (k_obj s) !! p = Some b -> p <> NULL -> sb_ok b -> stats_idle s ->
  0 <= block -> block * sb_block_size b < 2 ^ 63 ->
  device_opens VFS_O_RDWR device s fp v s1 -> vl_write v = Some wr -> vl_sync v = Some sy ->
  exists r s', superblock_write (Some (Mount (Some device))) block p s = Ok (r, s') /\
    k_flags s' = k_flags s /\ k_files s' = k_files s /\ k_obj s' = k_obj s /\
    (r = 0 -> sb_decode (contents v (k_env s') <$> seqZ (block * sb_block_size b) 100) = b).
Proof.
  intros Hb Hp Hok Hst Hblk Hoff Hop Hwr Hsy.
  pose proof (device_opens_inv _ _ _ _ _ _ Hop) as (e & Hn & Hfp & Hs1). destruct Hop as [Hop _].
  assert (Hbs : 0 <= sb_block_size b).
  { pose proof (sbo_words _ Hok) as Hw. unfold sb_words in Hw.
    apply Forall_cons in Hw as [_ Hw]. apply Forall_cons in Hw as [Hw _]. lia. }
  set (base := block * sb_block_size b) in *. assert (Hbase : 0 <= base) by (unfold base; nia).
  assert (Hdev : dev_open fp (File v 0 VFS_O_RDWR 1 spinlock_init) s1).
  { subst s1. split; [by apply opened_file|done|done|done]. }
  assert (Hb1 : st_heap (k_obj s1) !! p = Some b) by (by subst s1).
  enough (Hall : wp (superblock_write (Some (Mount (Some device))) block p) (fun r s' =>
    k_flags s' = k_flags s1 /\ k_files s' = delete fp (k_files s1) /\ k_obj s' = k_obj s1 /\
    (r = 0 -> sb_decode (contents v (k_env s') <$> seqZ base 100) = b)) s).
  { apply wp_run in Hall as (r & s' & Hrun & Hk & Hfi & Hob & Hr). exists r, s'.
    rewrite Hk, Hfi, Hob. subst s1. simpl. rewrite delete_insert_id by done. by split_and!. }
  unfold superblock_write. rewrite (proj2 (Z.eqb_neq _ _) Hp). cbn [mnt_device]. wp_step.
  eapply wp_eq; [exact Hop|]. cbn [negb Z.eqb]. wp_step. eapply wp_the_sb; [exact Hb1|].
  fold base. replace (s64 base) with base by (unfold s64; rewrite Z.mod_small; lia).
  wp_step. eapply wp_seek_at; [apply Hdev|apply Hdev|]. intros f2 s2 M2 E2 O2.
  rewrite !(proj2 (Z.ltb_ge base 0)) by lia. pose proof (dev_moved _ _ _ _ _ Hdev M2) as Hdev2.
  wp_step. eapply wp_the_sb; [by rewrite (mv_obj _ _ _ _ _ M2)|]. wp_step.
  eapply wp_write_here; [apply Hdev2|apply Hdev2|apply Hdev2|by rewrite (mv_vnode _ _ _ _ _ M2)|].
  intros w f3 s3 M3 Hw Hc _. pose proof (dev_moved _ _ _ _ _ Hdev2 M3) as Hdev3.
  pose proof (moved_trans _ _ _ _ _ _ _ M2 M3) as M23. rewrite sb_encode_length in Hw by done.
  assert (Hclosed : forall e', k_flags (set_env e' (set_files (delete fp (k_files s3)) s3)) = k_flags s1 /\
    delete fp (k_files s3) = delete fp (k_files s1) /\ k_obj s3 = k_obj s1).
  { intros e'. simpl. rewrite (mv_irq _ _ _ _ _ M23), (mv_files _ _ _ _ _ M23), (mv_obj _ _ _ _ _ M23).
    by rewrite delete_insert_eq. }
  unfold sizeof_superblock. destruct (Z.eqb_spec w 100) as [->|Hne]; cbn [negb].
  - wp_step. unfold vfs_fsync.
    rewrite (proj2 (Z.eqb_neq _ _) (fo_ptr _ _ _ (do_open _ _ _ Hdev3))). wp_step.
    eapply wp_the_file; [apply Hdev3|]. rewrite (mv_vnode _ _ _ _ _ M23). simpl f_vnode. rewrite Hsy.
    destruct (store_sync v sy (k_env s3) Hsy) as (r & e3 & Er & Hc3).
    eapply wp_env; [exact Er|]. wp_step.
    eapply (wp_close_here _ fp f3); [destruct (do_open _ _ _ Hdev3); by split|apply Hdev3|].
    intros e4 Hc4. wp_step. destruct (Hclosed e4) as (Hk & Hfi & Hob).
    split_and!; [exact Hk|exact Hfi|exact Hob|]. intros ->.
    rewrite (mv_vnode _ _ _ _ _ M23) in Hc4. simpl in Hc4. simpl k_env.
    rewrite Hc4, Hc3. rewrite (stored_fmap _ base (sb_encode b)); [by apply sb_decode_encode| |].
    + by rewrite sb_encode_length.
    + intros x Hx. rewrite (mv_vnode _ _ _ _ _ M2), (O2 ltac:(lia)) in Hc. simpl in Hc.
      rewrite Hc, (proj2 (Z.leb_le _ _)), (proj2 (Z.ltb_lt _ _)) by lia. simpl.
      replace (base + x - base) with x by lia.
      destruct (lookup_lt_is_Some_2 (sb_encode b) (Z.to_nat x)) as [y Hy];
        [rewrite sb_encode_length by done; lia|]. by rewrite Hy.
  - wp_step. eapply (wp_close_here _ fp f3); [apply Hdev3|apply Hdev3|].
    intros e4 _. wp_step. destruct (Hclosed e4) as (Hk & Hfi & Hob).
    split_and!; [exact Hk|exact Hfi|exact Hob|]. unfold EIO.
    destruct (Z.ltb_spec w 0); [rewrite s32_id; lia|lia].
Qed.
End disk.

(** ** Synchronising all superblocks *)

Lemma clear_clean b : has_flag (sb_flags b) SB_FLAG_DIRTY = false -> clear_dirty b = b.
Proof.
  unfold has_flag, clear_dirty, SB_FLAG_DIRTY. intros Hf. apply negb_false_iff, Z.eqb_eq in Hf.
  assert (Hd : Z.ldiff (sb_flags b) 1 = sb_flags b).
  { apply Z.bits_inj'. intros n Hn. rewrite Z.ldiff_spec.
    assert (Hb : Z.testbit (Z.land (sb_flags b) 1) n = false) by (by rewrite Hf, Z.bits_0).
    rewrite Z.land_spec in Hb. destruct (Z.testbit (sb_flags b) n), (Z.testbit 1 n); done. }
  rewrite Hd. by destruct b.
Qed.

Lemma clear_clear b : clear_dirty (clear_dirty b) = clear_dirty b.
Proof.
  unfold clear_dirty, sb_set_flags. simpl. f_equal. apply Z.bits_inj'. intros n Hn.
  rewrite !Z.ldiff_spec.
  by destruct (Z.testbit _ n), (Z.testbit _ n).
Qed.

Section sync_all.
Context {E : Type} `{KernelHeap E} `{VnodeLayer E}.
Implicit Types (s : kst sbtab E).

(** The pointers on the dirty list. *)
Definition tracked (t : sbtab) : list Z := take (Z.to_nat (st_count t)) (st_dirty t).

Record tab_ok (t : sbtab) : Prop := {
  tb_size : length (st_dirty t) = Z.to_nat MAX_DIRTY;
  tb_count : 0 <= st_count t <= MAX_DIRTY;
  tb_live p : p ∈ tracked t -> p <> NULL /\ is_Some (st_heap t !! p)
}.

Definition cleared_on (l : list Z) (m : gmap Z superblock) (m' : gmap Z superblock) : Prop :=
  forall p, m' !! p = if decide (p ∈ l) then clear_dirty <$> m !! p else m !! p.

(** [superblock_sync_all] returns 0 with every superblock of the dirty
    list marked clean and the list empty, but it writes nothing: the device,
    and everything else outside the list, is as before. *)
Theorem superblock_sync_all_writes_nothing s :
  tab_ok (k_obj s) -> obj_idle s ->
  exists s', superblock_sync_all s = Ok (0, s') /\ k_flags s' = k_flags s /\
    k_env s' = k_env s /\ k_files s' = k_files s /\ st_count (k_obj s') = 0 /\
    cleared_on (tracked (k_obj s)) (st_heap (k_obj s)) (st_heap (k_obj s')).
Proof.
  intros Hok Hidle. pose proof Hok as [Hsz Hct Hlive]. set (t := k_obj s) in *.
  enough (Hw : wp superblock_sync_all (fun r s' => exists m, r = 0 /\
    s' = outside s (st_set_dirty (st_dirty t) 0 (st_set_heap m t)) /\
    cleared_on (tracked t) (st_heap t) m) s).
  { apply wp_run in Hw as (r & s' & Hr & m & -> & -> & Hm). by eexists. }
  unfold superblock_sync_all. ba_step. apply wp_lock_obj; [done|]. fold t. ba_steps. eapply wp_mono.
  - apply (wp_for_each (fun i _ s' => exists m, s' = inside s (st_set_heap m t) /\
      cleared_on (take (Z.to_nat i) (st_dirty t)) (st_heap t) m)).
    + exists (st_heap t). split; [by destruct t|]. done.
    + intros i [] s1 Hi (m & -> & Hm).
      destruct (lookup_lt_is_Some_2 (st_dirty t) (Z.to_nat i)) as [p Hp]; [unfold MAX_DIRTY in *; lia|].
      assert (Htr : p ∈ tracked t).
      { unfold tracked. apply list_elem_of_lookup. exists (Z.to_nat i). rewrite lookup_take_lt; [done|lia]. }
      destruct (Hlive _ Htr) as [Hnn [b Hb]].
      unfold read_dirty. ba_steps. eapply wp_lift.
      { unfold aread. simpl. rewrite decide_True by lia. by rewrite Hp. }
      rewrite (proj2 (Z.eqb_neq _ _) Hnn).
      assert (Hmp : exists b', m !! p = Some b' /\ clear_dirty b' = clear_dirty b).
      { rewrite Hm, Hb. case_decide; [|by eexists]. simpl. eexists. split; [done|]. apply clear_clear. }
      destruct Hmp as (b' & Hb' & Hcl).
      assert (Hnext : forall m', (forall q, m' !! q = if decide (q = p) then Some (clear_dirty b) else m !! q) ->
        cleared_on (take (Z.to_nat (i + 1)) (st_dirty t)) (st_heap t) m').
      { intros m' Hm' q. rewrite Hm', Hm. replace (Z.to_nat (i + 1)) with (S (Z.to_nat i)) by lia.
        rewrite (take_S_r _ _ _ Hp). destruct (decide (q = p)) as [->|Hq].
        - rewrite decide_True by set_solver. by rewrite Hb.
        - destruct (decide (q ∈ take (Z.to_nat i) (st_dirty t))).
          + by rewrite decide_True by set_solver.
          + rewrite decide_False; [done|]. rewrite elem_of_app, list_elem_of_singleton. tauto. }
      ba_step. unfold the_sb. ba_steps. simpl st_heap. rewrite Hb'. ba_step.
      destruct (has_flag (sb_flags b') SB_FLAG_DIRTY) eqn:Hd.
      * unfold upd_sb, the_sb. ba_steps. simpl st_heap. rewrite Hb'. ba_steps.
        exists (<[p := clear_dirty b']> m). split; [done|]. apply Hnext. intros q.
        rewrite lookup_insert, Hcl. by destruct (decide (p = q)), (decide (q = p)); congruence || done.
      * ba_step. exists m. split; [done|]. apply Hnext. intros q.
        destruct (decide (q = p)) as [->|]; [|done]. by rewrite Hb', <- Hcl, (clear_clean _ Hd).
  - intros [] s1 (m & -> & Hm). ba_steps. exists m. split_and!; [done|done|].
    replace (Z.max 0 (st_count t)) with (st_count t) in Hm by lia. done.
Qed.
End sync_all.

(** ** A table with two superblocks, one of them dirty *)

Definition demo_sb : superblock :=
  Superblock 0x55455349 1024 8192 8000 256 255 40 3 1 2 0 0 1 20 SB_STATE_CLEAN
    SB_ERRORS_CONTINUE SB_FLAG_DIRTY 0 (replicate 10 0).
Definition demo_sbs : kst sbtab ramdev :=
  Kst 0x202 ∅ 0 0 spinlock_init
    (SbTab {[ 16 := demo_sb; 32 := clear_dirty demo_sb ]} (16 :: replicate 31 0) 1 spinlock_init)
    (RamDev ∅ 4096).

Lemma demo_sb_ok : sb_ok demo_sb.
Proof. split; [by repeat constructor..|done]. Qed.

Lemma superblock_write_stores_witness :
  exists r s', superblock_write (Some (Mount (Some rd_name))) 1 16 demo_sbs = Ok (r, s') /\
    k_flags s' = 0x202 /\ k_files s' = ∅ /\ k_obj s' = k_obj demo_sbs /\
    (r = 0 -> sb_decode (contents rd_vnode (k_env s') <$> seqZ 1024 100) = demo_sb).
Proof.
  apply (superblock_write_stores demo_sbs 16 demo_sb rd_name 1 rd_vnode
    (set_env (RamDev ∅ 4096) (put_file 1 (File rd_vnode 0 VFS_O_RDWR 1 spinlock_init) demo_sbs)) 1
    (fun buf off e => Ok (Z.of_nat (length buf), RamDev (store_bytes (rd_store e) off buf) (rd_limit e)))
    (fun e => Ok (0, e))).
  - reflexivity.
  - discriminate.
  - apply demo_sb_ok.
  - reflexivity.
  - lia.
  - simpl. lia.
  - split; reflexivity.
  - reflexivity.
  - reflexivity.
Defined.

Lemma superblock_sync_all_writes_nothing_witness :
  exists s', superblock_sync_all demo_sbs = Ok (0, s') /\ k_flags s' = 0x202 /\
    k_env s' = RamDev ∅ 4096 /\ k_files s' = ∅ /\ st_count (k_obj s') = 0 /\
    cleared_on [16] (st_heap (k_obj demo_sbs)) (st_heap (k_obj s')).
Proof.
  apply (superblock_sync_all_writes_nothing demo_sbs).
  - split; [reflexivity|unfold MAX_DIRTY; simpl; lia|].
    intros p Hp. change (p ∈ [16]) in Hp. apply list_elem_of_singleton in Hp as ->.
    split; [discriminate|]. by eexists.
  - reflexivity.
Defined.
