(* ===== verification/Kmalloc.v ===== *)
(** * The kernel heap ([sys/src/libmem/kmalloc.c], [sys/src/libmem/kfree.c])

    A slab allocator above the physical memory manager.  A slab is one page:
    a [slab_t] header, a bitmap of its free objects and the objects.  Headers,
    bitmaps and objects are words of the memory of [Mmu.v], so an object that
    lies outside its page overlaps whatever is there.  The array [caches] and
    the flag [kmalloc_initialized] are the allocator's own variables. *)

From stdpp Require Import base numbers list list_numbers gmap strings.
From S2P Require Import Prelude Pmm Mmu.

Definition CACHE_COUNT : Z := 10.
Definition KMALLOC_MIN_SIZE : Z := 16.
Definition KMALLOC_ZERO : Z := Z.shiftl 1 0.

(** [next], [objects], [free_count], [total_count] and [free_bitmap]. *)
Definition sizeof_slab : Z := 32.

Definition cache_sizes : list Z := [16; 32; 64; 128; 256; 512; 1024; 2048; 4096; 8192].

Record cache := Cache {
  c_name : string;
  c_object_size : Z;
  c_align : Z;
  c_objects_per_slab : Z;
  c_partial : Z;
  c_full : Z;
  c_empty : Z;
  c_alloc_count : Z;
  c_free_count : Z
}.

(** The lists of a cache, for the functions that take a [slab_t **]. *)
Inductive slab_list := Partial | Full | Empty.

Definition head_of (w : slab_list) (c : cache) : Z :=
  match w with Partial => c_partial c | Full => c_full c | Empty => c_empty c end.
Definition set_head (w : slab_list) (p : Z) (c : cache) : cache :=
  Cache (c_name c) (c_object_size c) (c_align c) (c_objects_per_slab c)
    (match w with Partial => p | _ => c_partial c end)
    (match w with Full => p | _ => c_full c end)
    (match w with Empty => p | _ => c_empty c end)
    (c_alloc_count c) (c_free_count c).
Definition count_alloc (c : cache) : cache :=
  Cache (c_name c) (c_object_size c) (c_align c) (c_objects_per_slab c)
    (c_partial c) (c_full c) (c_empty c) (u64 (c_alloc_count c + 1)) (c_free_count c).
Definition count_free (c : cache) : cache :=
  Cache (c_name c) (c_object_size c) (c_align c) (c_objects_per_slab c)
    (c_partial c) (c_full c) (c_empty c) (c_alloc_count c) (u64 (c_free_count c + 1)).

Record heap := Heap {
  mach : machine;
  caches : list cache;
  kmalloc_initialized : bool
}.

Abbreviation HM := (M heap).

(** A call into the memory below. *)
Definition in_mach {A : Type} (m : MM A) : HM A := fun s =>
  match m (mach s) with
  | Ok (a, m') => Ok (a, Heap m' (caches s) (kmalloc_initialized s))
  | Fault f => Fault f
  end.

(** [caches[i]]. *)
Definition the_cache (i : Z) : HM cache := l <- gets caches ;; lift (aread l i).
Definition upd_cache (i : Z) (g : cache -> cache) : HM unit :=
  c <- the_cache i ;;
  l <- gets caches ;;
  l' <- lift (awrite l i (g c)) ;;
  modify (fun s => Heap (mach s) l' (kmalloc_initialized s)).

(** ** Fields of a slab header

    The two [uint32_t] counters share the third word. *)

Definition load_field (slab off : Z) : HM Z := in_mach (load (u64 (slab + off))).
Definition store_field (slab off v : Z) : HM unit := in_mach (store (u64 (slab + off)) v).

Definition slab_next (slab : Z) : HM Z := load_field slab 0.
Definition set_slab_next (slab p : Z) : HM unit := store_field slab 0 p.
Definition slab_objects (slab : Z) : HM Z := load_field slab 8.
Definition slab_free_count (slab : Z) : HM Z := w <- load_field slab 16 ;; ret (u32 w).
Definition set_slab_free_count (slab n : Z) : HM unit :=
  w <- load_field slab 16 ;; store_field slab 16 (u32 n + 2 ^ 32 * (w / 2 ^ 32)).
Definition slab_total_count (slab : Z) : HM Z := w <- load_field slab 16 ;; ret (w / 2 ^ 32).
Definition set_slab_total_count (slab n : Z) : HM unit :=
  w <- load_field slab 16 ;; store_field slab 16 (u32 w + 2 ^ 32 * u32 n).
Definition slab_free_bitmap (slab : Z) : HM Z := load_field slab 24.

(** [slab->free_bitmap[i]]. *)
Definition bitmap_word (slab i : Z) : HM Z :=
  b <- slab_free_bitmap slab ;; in_mach (load (entry b i)).
Definition set_bitmap_word (slab i v : Z) : HM unit :=
  b <- slab_free_bitmap slab ;; in_mach (store (entry b i) v).

(** [memset(a, 0, n)] for a multiple of eight bytes. *)
Definition zero_words (a n : Z) : HM unit :=
  for_each 0 (n / 8) tt (fun k _ => in_mach (store (entry a k) 0)).

(** ** [kmalloc.c] *)

Definition get_cache_index (size : Z) : Z :=
  match list_find (fun c => size <= c) cache_sizes with
  | Some (i, _) => Z.of_nat i
  | None => -1
  end.

(** [(x + align - 1) & ~(align - 1)] on [size_t]. *)
Definition align_up (x align : Z) : Z :=
  Z.land (u64 (u64 (x + align) - 1)) (u64 (Z.lnot (align - 1))).

Definition calculate_objects_per_slab (object_size align : Z) : Z :=
  let header_base := sizeof_slab in
  let estimated_objects := 200 in
  let bitmap_size := (estimated_objects + 63) / 64 * 8 in
  let header_total := header_base + bitmap_size in
  let aligned_start := align_up header_total align in
  let usable_size := u64 (PAGE_SIZE - aligned_start) in
  let objects := u32 (usable_size / object_size) in
  let objects := if 256 <? objects then 256 else objects in
  if objects <? 1 then 1 else objects.

Definition cache_init (name : string) (object_size align : Z) : cache :=
  Cache name object_size align (calculate_objects_per_slab object_size align)
    NULL NULL NULL 0 0.

Definition bitmap_words (c : cache) : Z := u32 (c_objects_per_slab c + 63) / 64.

Definition slab_create (ci : Z) : HM Z :=
  page <- in_mach (in_frames pmm_alloc) ;;
  if page =? NULL then ret NULL
  else
    let slab := page in
    set_slab_next slab NULL ;;;
    c <- the_cache ci ;;
    set_slab_total_count slab (c_objects_per_slab c) ;;;
    set_slab_free_count slab (c_objects_per_slab c) ;;;
    let bitmap_size := bitmap_words c in
    store_field slab 24 (u64 (slab + sizeof_slab)) ;;;
    for_each 0 bitmap_size tt (fun i _ => set_bitmap_word slab i UINT64_MAX) ;;;
    let extra_bits := u64 (bitmap_size * 64 - c_objects_per_slab c) in
    (if (0 <? extra_bits) && (extra_bits <? 64) then
       let valid_bits := u64 (64 - extra_bits) in
       let mask := if valid_bits =? 64 then UINT64_MAX
                   else u64 (u64 (Z.shiftl 1 valid_bits) - 1) in
       set_bitmap_word slab (bitmap_size - 1) mask
     else ret tt) ;;;
    let header_size := sizeof_slab + bitmap_size * 8 in
    store_field slab 8 (u64 (page + align_up header_size (c_align c))) ;;;
    ret slab.

(** The loop over the bits of one word of the bitmap. *)
Definition find_bit (i bits objects : Z) : HM (unit + Z) :=
  for_range 0 64 tt (fun bit _ =>
    if flag bits (u64 (Z.shiftl 1 bit)) then
      let index := s32 (i * 64 + bit) in
      if u32 index <? objects then ret (inr index) else ret (inl tt)
    else ret (inl tt)).

Definition slab_find_free (slab ci : Z) : HM Z :=
  c <- the_cache ci ;;
  r <- for_range 0 (bitmap_words c) tt (fun i _ =>
    w <- bitmap_word slab i ;;
    if negb (w =? 0) then
      bits <- bitmap_word slab i ;;
      find_bit i bits (c_objects_per_slab c)
    else ret (inl tt)) ;;
  match r with inr index => ret index | inl _ => ret (-1) end.

Definition slab_mark_allocated (slab index : Z) : HM unit :=
  w <- bitmap_word slab (index / 64) ;;
  set_bitmap_word slab (index / 64)
    (Z.land w (u64 (Z.lnot (Z.shiftl 1 (index mod 64))))) ;;;
  n <- slab_free_count slab ;;
  set_slab_free_count slab (u32 (n - 1)).

(** The slab [cache_alloc] works on: the first partial one, else the first
    empty one, else a new one. *)
Definition pick_slab (ci : Z) : HM Z :=
  c <- the_cache ci ;;
  if c_partial c =? NULL then
    if negb (c_empty c =? NULL) then
      let slab := c_empty c in
      n <- slab_next slab ;;
      upd_cache ci (set_head Empty n) ;;;
      set_slab_next slab NULL ;;;
      upd_cache ci (set_head Partial slab) ;;;
      ret slab
    else
      slab <- slab_create ci ;;
      if slab =? NULL then ret NULL
      else upd_cache ci (set_head Partial slab) ;;; ret slab
  else ret (c_partial c).

Definition cache_alloc (ci flags : Z) : HM Z :=
  slab <- pick_slab ci ;;
  if slab =? NULL then ret NULL
  else
    obj_index <- slab_find_free slab ci ;;
    if obj_index <? 0 then ret NULL
    else
      w <- bitmap_word slab (obj_index / 64) ;;
      if negb (flag w (u64 (Z.shiftl 1 (obj_index mod 64)))) then ret NULL
      else
        c <- the_cache ci ;;
        o <- slab_objects slab ;;
        let obj := u64 (o + u64 (obj_index * c_object_size c)) in
        slab_mark_allocated slab obj_index ;;;
        n <- slab_free_count slab ;;
        (if n =? 0 then
           nx <- slab_next slab ;;
           upd_cache ci (set_head Partial nx) ;;;
           c <- the_cache ci ;;
           set_slab_next slab (c_full c) ;;;
           upd_cache ci (set_head Full slab)
         else ret tt) ;;;
        upd_cache ci count_alloc ;;;
        (if flag flags KMALLOC_ZERO then zero_words obj (c_object_size c) else ret tt) ;;;
        ret obj.

Definition cache_names : list string :=
  ["kmalloc-16"; "kmalloc-32"; "kmalloc-64"; "kmalloc-128"; "kmalloc-256";
   "kmalloc-512"; "kmalloc-1024"; "kmalloc-2048"; "kmalloc-4096"; "kmalloc-8192"]%string.

Definition kmalloc_init : HM unit :=
  i <- gets kmalloc_initialized ;;
  if i : bool then ret tt
  else
    for_each 0 CACHE_COUNT tt (fun i _ =>
      name <- lift (aread cache_names i) ;;
      size <- lift (aread cache_sizes i) ;;
      upd_cache i (fun _ => cache_init name size size)) ;;;
    modify (fun s => Heap (mach s) (caches s) true).

Definition kmalloc_flags (size flags : Z) : HM Z :=
  i <- gets kmalloc_initialized ;;
  (if negb i then kmalloc_init else ret tt) ;;;
  if size =? 0 then ret NULL
  else
    let cache_idx := get_cache_index size in
    if cache_idx <? 0 then
      let num_pages := u64 (u64 (size + PAGE_SIZE) - 1) / PAGE_SIZE in
      p <- in_mach (in_frames (pmm_alloc_contiguous num_pages)) ;;
      (if negb (p =? NULL) && flag flags KMALLOC_ZERO
       then zero_words p (u64 (num_pages * PAGE_SIZE)) else ret tt) ;;;
      ret p
    else cache_alloc cache_idx flags.

Definition kmalloc (size : Z) : HM Z := kmalloc_flags size 0.

Definition kmalloc_aligned (size align : Z) : HM Z :=
  if align <=? KMALLOC_MIN_SIZE then kmalloc size
  else
    let required := if align <? size then size else align in
    let cache_idx := get_cache_index required in
    if cache_idx <? 0 then
      let num_pages := u64 (u64 (size + PAGE_SIZE) - 1) / PAGE_SIZE in
      in_mach (in_frames (pmm_alloc_contiguous num_pages))
    else
      n <- lift (aread cache_sizes cache_idx) ;;
      kmalloc n.

(** A loop along a list of slabs: the body leaves with [inr] or goes on to the
    next slab.  A list visits a page at most once, so the number of pages
    bounds its length. *)
Fixpoint walk_slabs {R : Type} (fuel : nat) (slab : Z) (body : Z -> HM (unit + R))
    : HM (unit + R) :=
  match fuel with
  | O => throw F_fuel
  | S fuel =>
      if slab =? NULL then ret (inl tt)
      else
        r <- body slab ;;
        match r with
        | inr v => ret (inr v)
        | inl _ => n <- slab_next slab ;; walk_slabs fuel n body
        end
  end.

Definition for_slabs {R : Type} (slab : Z) (body : Z -> HM (unit + R)) : HM (unit + R) :=
  n <- gets (fun s => total_pages (frames (mach s))) ;;
  walk_slabs (S (Z.to_nat n)) slab body.

(** The test [slab <= ptr < slab + PAGE_SIZE] on [uintptr_t]. *)
Definition in_slab_page (slab ptr : Z) : bool :=
  (slab <=? ptr) && (ptr <? u64 (slab + PAGE_SIZE)).

Definition kmalloc_size (ptr : Z) : HM Z :=
  if ptr =? NULL then ret 0
  else
    r <- for_range 0 CACHE_COUNT tt (fun i _ =>
      c <- the_cache i ;;
      let body slab : HM (unit + Z) :=
        if in_slab_page slab ptr then ret (inr (c_object_size c)) else ret (inl tt) in
      r <- for_slabs (c_partial c) body ;;
      match r with
      | inr n => ret (inr n)
      | inl _ => for_slabs (c_full c) body
      end) ;;
    match r with inr n => ret n | inl _ => ret 0 end.

(** ** [kfree.c] *)

Definition slab_mark_free (slab index : Z) : HM unit :=
  w <- bitmap_word slab (index / 64) ;;
  set_bitmap_word slab (index / 64) (Z.lor w (u64 (Z.shiftl 1 (index mod 64)))) ;;;
  n <- slab_free_count slab ;;
  set_slab_free_count slab (u32 (n + 1)).

(** The body of the two loops of [find_allocation]: [Some (slab, index)] is a
    [return true], [None] a [return false]. *)
Definition examine_slab (c : cache) (ptr slab : Z) : HM (unit + option (Z * Z)) :=
  if in_slab_page slab ptr then
    o <- slab_objects slab ;;
    if ptr <? o then ret (inr None)
    else
      let offset := u64 (ptr - o) in
      if negb (offset mod c_object_size c =? 0) then ret (inr None)
      else
        let index := s32 (offset / c_object_size c) in
        if (0 <=? index) && (u32 index <? c_objects_per_slab c)
        then ret (inr (Some (slab, index)))
        else ret (inl tt)
  else ret (inl tt).

(** The result is [(cache, slab, index)] of a [return true]. *)
Definition find_allocation (ptr : Z) : HM (option (Z * Z * Z)) :=
  if ptr =? NULL then ret None
  else
    r <- for_range 0 CACHE_COUNT tt (fun i _ =>
      c <- the_cache i ;;
      r <- for_slabs (c_partial c) (examine_slab c ptr) ;;
      r <- match r with
           | inr v => ret (inr v)
           | inl _ => for_slabs (c_full c) (examine_slab c ptr)
           end ;;
      match r with
      | inr (Some (slab, index)) => ret (inr (Some (i, slab, index)))
      | inr None => ret (inr None)
      | inl _ => ret (inl tt)
      end) ;;
    match r with inr v => ret v | inl _ => ret None end.

(** The loop of [slab_remove_from_list]: the slab before [slab]. *)
Fixpoint find_pred (fuel : nat) (current slab : Z) : HM Z :=
  match fuel with
  | O => throw F_fuel
  | S fuel =>
      if current =? NULL then ret NULL
      else
        n <- slab_next current ;;
        if n =? slab then ret current else find_pred fuel n slab
  end.

Definition slab_remove_from_list (ci : Z) (w : slab_list) (slab : Z) : HM unit :=
  c <- the_cache ci ;;
  if head_of w c =? slab then
    n <- slab_next slab ;; upd_cache ci (set_head w n)
  else
    tp <- gets (fun s => total_pages (frames (mach s))) ;;
    current <- find_pred (S (Z.to_nat tp)) (head_of w c) slab ;;
    if negb (current =? NULL) then
      n <- slab_next slab ;; set_slab_next current n
    else ret tt.

Definition is_object_free (slab index : Z) : HM bool :=
  w <- bitmap_word slab (index / 64) ;;
  ret (flag w (u64 (Z.shiftl 1 (index mod 64)))).

(** [while (temp != NULL && empty_count < 2)]: at most two steps. *)
Definition count_empty (p : Z) : HM Z :=
  if p =? NULL then ret 0
  else
    n <- slab_next p ;;
    if n =? NULL then ret 1
    else slab_next n ;;; ret 2.

Definition cache_free (ci slab obj_index : Z) : HM unit :=
  already <- is_object_free slab obj_index ;;
  if already : bool then ret tt
  else
    slab_mark_free slab obj_index ;;;
    upd_cache ci count_free ;;;
    n <- slab_free_count slab ;;
    t <- slab_total_count slab ;;
    if n =? 1 then
      slab_remove_from_list ci Full slab ;;;
      c <- the_cache ci ;;
      set_slab_next slab (c_partial c) ;;;
      upd_cache ci (set_head Partial slab)
    else if n =? t then
      slab_remove_from_list ci Partial slab ;;;
      c <- the_cache ci ;;
      empty_count <- count_empty (c_empty c) ;;
      if empty_count <? 2 then
        set_slab_next slab (c_empty c) ;;;
        upd_cache ci (set_head Empty slab)
      else in_mach (in_frames (pmm_free slab))
    else ret tt.

Definition kfree_validate (ptr : Z) : HM bool :=
  if ptr =? NULL then ret true
  else r <- find_allocation ptr ;; ret (bool_decide (r <> None)).

Definition kfree (ptr : Z) : HM unit :=
  if ptr =? NULL then ret tt
  else
    r <- find_allocation ptr ;;
    match r with
    | Some (ci, slab, index) => cache_free ci slab index
    | None => in_mach (in_frames (pmm_free ptr))
    end.
