(* ===== verification/KmallocFacts.v ===== *)
(** * The kernel heap: slabs in memory

    Size classes, the layout of a slab in its page, chains of slabs, and the
    invariant of the heap; the specifications of the operations that work on
    one slab or walk a list. *)

From stdpp Require Import base numbers list list_numbers gmap strings.
From S2P Require Import Prelude Bitmap Pmm PmmFacts PmmSpec Mmu PageTree MmuFacts Kmalloc.

(** ** Size classes *)

Definition csize (ci : Z) : Z := 2 ^ (ci + 4).
Definition nobjs (ci : Z) : Z := nth (Z.to_nat ci) [252; 126; 63; 31; 15; 7; 3; 1; 1; 256] 0.
Definition hdr (ci : Z) : Z := nth (Z.to_nat ci) [64; 64; 64; 128; 256; 512; 1024; 2048; 4096; 8192] 0.
Definition nwords (ci : Z) : Z := nth (Z.to_nat ci) [4; 2; 1; 1; 1; 1; 1; 1; 1; 4] 0.

Definition some_class (ci : Z) : Prop := 0 <= ci < 10.
Definition small_class (ci : Z) : Prop := 0 <= ci < 8.

(** Case analysis on a class. *)
Ltac each_class ci H :=
  assert (H' : ci = 0 \/ ci = 1 \/ ci = 2 \/ ci = 3 \/ ci = 4 \/ ci = 5 \/ ci = 6 \/ ci = 7
    \/ ci = 8 \/ ci = 9) by (unfold some_class, small_class in H; lia);
  repeat destruct H' as [H'|H']; subst ci.

Lemma small_some ci : small_class ci -> some_class ci.
Proof. unfold small_class, some_class. lia. Qed.

Lemma class_header ci : some_class ci ->
  32 + 8 * nwords ci <= hdr ci /\ hdr ci mod 8 = 0 /\ 1 <= nwords ci <= 4 /\
  64 * (nwords ci - 1) < nobjs ci <= 64 * nwords ci /\ 16 <= csize ci /\ csize ci mod 8 = 0.
Proof. intros H. each_class ci H; vm_compute; repeat split; congruence. Qed.

(** In a small class every object lies in the page, at a multiple of its size. *)
Lemma class_fits ci : small_class ci ->
  hdr ci + nobjs ci * csize ci <= 4096 /\ hdr ci mod csize ci = 0 /\ 4096 mod csize ci = 0.
Proof. intros H. each_class ci H; vm_compute; repeat split; try congruence; unfold small_class in H; lia. Qed.

(** In the two largest classes none does: they start at the end of the page. *)
Lemma class_large ci : some_class ci -> ~ small_class ci -> PAGE_SIZE <= hdr ci.
Proof. intros H Hn. each_class ci H; unfold small_class in Hn; vm_compute; try congruence; lia. Qed.

Lemma class_objects ci : some_class ci ->
  calculate_objects_per_slab (csize ci) (csize ci) = nobjs ci.
Proof. intros H. each_class ci H; reflexivity. Qed.

Lemma class_align ci : some_class ci ->
  align_up (sizeof_slab + nwords ci * 8) (csize ci) = hdr ci.
Proof. intros H. each_class ci H; reflexivity. Qed.

Lemma class_index n : 0 < n <= 2048 ->
  exists ci, get_cache_index n = ci /\ small_class ci /\ n <= csize ci /\
    (forall cj, small_class cj -> n <= csize cj -> ci <= cj).
Proof.
  intros Hn. unfold get_cache_index, cache_sizes, small_class. simpl.
  repeat case_decide; try lia; simpl; eexists; (split; [reflexivity|]);
    (split; [lia|]); (split; [unfold csize; simpl; lia|]); intros cj Hj Hc; simpl;
    (assert (cj = 0 \/ cj = 1 \/ cj = 2 \/ cj = 3 \/ cj = 4 \/ cj = 5 \/ cj = 6 \/ cj = 7) as Hcj by lia;
     repeat destruct Hcj as [->|Hcj]; try subst cj; unfold csize in Hc; simpl in Hc; lia).
Qed.

(** ** Memory access *)

Implicit Types (s : heap) (f h ci : Z).

Definition hw s f k : Z := word (mach s) f k.
Definition addr s f : Z := frame_addr (mach s) f.
Definition hput s f k v : heap := Heap (put_word (mach s) f k v) (caches s) (kmalloc_initialized s).
Definition hcaches s l : heap := Heap (mach s) l (kmalloc_initialized s).

(** The base state of all operations. *)
Definition hm s : Prop := mm_ok (mach s).
Definition owned_frame s f : Prop := in_ram (mach s) f.

Lemma hput_mach s f k v : mach (hput s f k v) = put_word (mach s) f k v.
Proof. done. Qed.

Lemma hm_put s f k v : hm s -> hm (hput s f k v).
Proof. intros []. by split. Qed.

Lemma hw_put s f k v h j : 0 <= k < 512 -> 0 <= j < 512 ->
  hw (hput s f k v) h j = if decide (h = f /\ j = k) then v else hw s h j.
Proof. apply word_put. Qed.

Lemma addr_field s f k : hm s -> in_ram (mach s) f -> 0 <= k < 512 ->
  u64 (addr s f + 8 * k) = entry (addr s f) k.
Proof. done. Qed.

Lemma wp_in_mach {A : Type} (m : MM A) (Q : A -> heap -> Prop) s :
  wp m (fun a m' => Q a (Heap m' (caches s) (kmalloc_initialized s))) (mach s) ->
  wp (in_mach m) Q s.
Proof. unfold wp, in_mach. by destruct (m (mach s)) as [[a m']|]. Qed.

Lemma heap_eta s : Heap (mach s) (caches s) (kmalloc_initialized s) = s.
Proof. by destruct s. Qed.

Section access.
Context (s : heap) (Hs : hm s) (f : Z) (Hf : in_ram (mach s) f).

Lemma wp_load_field k off (Q : Z -> heap -> Prop) :
  off = 8 * k -> 0 <= k < 512 -> Q (hw s f k) s -> wp (load_field (addr s f) off) Q s.
Proof.
  intros -> Hk HQ. unfold load_field. rewrite addr_field by done. apply wp_in_mach.
  apply wp_load_entry; [done..|]. by rewrite heap_eta.
Qed.

Lemma wp_store_field k off v (Q : unit -> heap -> Prop) :
  off = 8 * k -> 0 <= k < 512 -> Q tt (hput s f k v) -> wp (store_field (addr s f) off v) Q s.
Proof.
  intros -> Hk HQ. unfold store_field. rewrite addr_field by done. apply wp_in_mach.
  by apply wp_store_entry.
Qed.

Lemma wp_slab_next (Q : Z -> heap -> Prop) : Q (hw s f 0) s -> wp (slab_next (addr s f)) Q s.
Proof. by apply wp_load_field. Qed.

Lemma wp_set_slab_next p (Q : unit -> heap -> Prop) :
  Q tt (hput s f 0 p) -> wp (set_slab_next (addr s f) p) Q s.
Proof. by apply wp_store_field. Qed.

Lemma wp_slab_objects (Q : Z -> heap -> Prop) : Q (hw s f 1) s -> wp (slab_objects (addr s f)) Q s.
Proof. by apply wp_load_field. Qed.

Lemma wp_slab_free_count (Q : Z -> heap -> Prop) :
  Q (u32 (hw s f 2)) s -> wp (slab_free_count (addr s f)) Q s.
Proof. intros HQ. unfold slab_free_count. wp_step. apply (wp_load_field 2); [done..|]. by wp_step. Qed.

Lemma wp_slab_total_count (Q : Z -> heap -> Prop) :
  Q (hw s f 2 / 2 ^ 32) s -> wp (slab_total_count (addr s f)) Q s.
Proof. intros HQ. unfold slab_total_count. wp_step. apply (wp_load_field 2); [done..|]. by wp_step. Qed.

Lemma wp_set_free_count n (Q : unit -> heap -> Prop) :
  Q tt (hput s f 2 (u32 n + 2 ^ 32 * (hw s f 2 / 2 ^ 32))) ->
  wp (set_slab_free_count (addr s f) n) Q s.
Proof.
  intros HQ. unfold set_slab_free_count. wp_step. apply (wp_load_field 2); [done..|].
  by apply (wp_store_field 2).
Qed.

Lemma wp_set_total_count n (Q : unit -> heap -> Prop) :
  Q tt (hput s f 2 (u32 (hw s f 2) + 2 ^ 32 * u32 n)) ->
  wp (set_slab_total_count (addr s f) n) Q s.
Proof.
  intros HQ. unfold set_slab_total_count. wp_step. apply (wp_load_field 2); [done..|].
  by apply (wp_store_field 2).
Qed.

(** The bitmap begins behind the header. *)
Context (Hb : hw s f 3 = addr s f + 32).

Lemma bitmap_entry i : 0 <= i < 508 -> entry (addr s f + 32) i = entry (addr s f) (4 + i).
Proof. intros Hi. unfold entry. f_equal. lia. Qed.

Lemma wp_bitmap_word i (Q : Z -> heap -> Prop) :
  0 <= i < 508 -> Q (hw s f (4 + i)) s -> wp (bitmap_word (addr s f) i) Q s.
Proof.
  intros Hi HQ. unfold bitmap_word, slab_free_bitmap. wp_step. apply (wp_load_field 3); [done..|].
  rewrite Hb, bitmap_entry by done. apply wp_in_mach. apply wp_load_entry; [done|done|lia|].
  by rewrite heap_eta.
Qed.

Lemma wp_set_bitmap_word i v (Q : unit -> heap -> Prop) :
  0 <= i < 508 -> Q tt (hput s f (4 + i) v) -> wp (set_bitmap_word (addr s f) i v) Q s.
Proof.
  intros Hi HQ. unfold set_bitmap_word, slab_free_bitmap. wp_step. apply (wp_load_field 3); [done..|].
  rewrite Hb, bitmap_entry by done. apply wp_in_mach. apply wp_store_entry; [done|done|lia|done].
Qed.
End access.

(** Caches. *)
Lemma aread_at {A : Type} (l : list A) i x :
  0 <= i -> l !! Z.to_nat i = Some x -> aread l i = Ok x.
Proof. intros Hi Hx. unfold aread. by rewrite decide_True, Hx by done. Qed.

Lemma wp_the_cache s ci c (Q : cache -> heap -> Prop) :
  0 <= ci -> caches s !! Z.to_nat ci = Some c -> Q c s -> wp (the_cache ci) Q s.
Proof.
  intros Hi Hc HQ. unfold the_cache. wp_step. wp_step. eapply wp_lift; [by apply aread_at|done].
Qed.

Lemma wp_upd_cache s ci c g (Q : unit -> heap -> Prop) :
  0 <= ci -> caches s !! Z.to_nat ci = Some c ->
  Q tt (hcaches s (<[Z.to_nat ci := g c]> (caches s))) -> wp (upd_cache ci g) Q s.
Proof.
  intros Hi Hc HQ. unfold upd_cache. wp_step. eapply wp_the_cache; [done..|]. wp_step. wp_step. wp_step.
  apply (wp_lift _ (<[Z.to_nat ci := g c]> (caches s))).
  { unfold awrite. rewrite decide_True; [done|]. split; [done|].
    apply lookup_lt_Some in Hc. lia. }
  by wp_step.
Qed.

(** ** The bitmap of a slab *)

(** Object [i] of the slab in frame [f] is free. *)
Definition obit s f i : bool := Z.testbit (hw s f (4 + i / 64)) (i mod 64).

Definition fobjs s f (n : Z) : gset Z :=
  list_to_set (filter (fun i => obit s f i = true) (seqZ 0 n)).
Definition nfree s f (n : Z) : Z := Z.of_nat (size (fobjs s f n)).

Lemma elem_of_fobjs s f n i : i ∈ fobjs s f n <-> 0 <= i < n /\ obit s f i = true.
Proof.
  unfold fobjs. rewrite elem_of_list_to_set, list_elem_of_filter, elem_of_seqZ.
  rewrite Z.add_0_l. tauto.
Qed.

Lemma fobjs_range s f n : fobjs s f n ⊆ range_set 0 n.
Proof. intros i. rewrite elem_of_fobjs, elem_of_range_set. lia. Qed.

Lemma size_range_set n : 0 <= n -> Z.of_nat (size (range_set 0 n)) = n.
Proof.
  intros Hn. unfold range_set. rewrite size_list_to_set by apply NoDup_seqZ.
  rewrite length_seqZ. lia.
Qed.

Lemma nfree_le s f n : 0 <= n -> 0 <= nfree s f n <= n.
Proof.
  intros Hn. unfold nfree. pose proof (subseteq_size _ _ (fobjs_range s f n)).
  pose proof (size_range_set n Hn). lia.
Qed.

Lemma nfree_zero s f n : nfree s f n = 0 -> forall i, 0 <= i < n -> obit s f i = false.
Proof.
  unfold nfree. intros H i Hi. destruct (obit s f i) eqn:E; [|done].
  assert (He : fobjs s f n ≡ ∅) by (apply size_empty_inv; lia).
  exfalso. assert (i ∈ fobjs s f n) by (by apply elem_of_fobjs). set_solver.
Qed.

Lemma nfree_pos s f n : 0 < nfree s f n -> exists i, 0 <= i < n /\ obit s f i = true.
Proof.
  unfold nfree. intros H. destruct (set_choose_or_empty (fobjs s f n)) as [[i Hi]|He].
  - exists i. by apply elem_of_fobjs.
  - apply size_empty_iff in He. lia.
Qed.

Lemma nfree_full s f n : 0 <= n -> nfree s f n = n -> forall i, 0 <= i < n -> obit s f i = true.
Proof.
  unfold nfree. intros Hn H i Hi. pose proof (size_range_set n Hn).
  assert (He : fobjs s f n ≡ range_set 0 n).
  { apply set_subseteq_size_equiv; [apply fobjs_range|lia]. }
  assert (Hr : i ∈ range_set 0 n) by (apply elem_of_range_set; lia).
  rewrite <- He in Hr. apply elem_of_fobjs in Hr. tauto.
Qed.

Lemma nfree_all s f n : 0 <= n -> (forall i, 0 <= i < n -> obit s f i = true) -> nfree s f n = n.
Proof.
  intros Hn H. rewrite <- (size_range_set n Hn) at 2. unfold nfree. do 2 f_equal.
  apply set_eq. intros i. rewrite elem_of_fobjs, elem_of_range_set. split; [lia|].
  intros Hi. split; [lia|]. apply H. lia.
Qed.

Lemma nfree_ext s s' f n :
  (forall i, 0 <= i < n -> obit s' f i = obit s f i) -> nfree s' f n = nfree s f n.
Proof.
  intros H. unfold nfree. do 2 f_equal. apply set_eq. intros i. rewrite !elem_of_fobjs.
  split; intros [Hi Hb]; (split; [done|]); [by rewrite <- H|by rewrite H].
Qed.

(** One bit changed. *)
Definition obit_changed s s' f n i (b : bool) : Prop :=
  forall j, 0 <= j < n -> obit s' f j = if decide (j = i) then b else obit s f j.

Lemma nfree_taken s s' f n i :
  obit_changed s s' f n i false -> 0 <= i < n -> obit s f i = true ->
  nfree s' f n = nfree s f n - 1.
Proof.
  intros Hc Hi Hb. assert (He : fobjs s' f n = fobjs s f n ∖ {[i]}).
  { apply set_eq. intros j. rewrite elem_of_difference, !elem_of_fobjs, elem_of_singleton.
    split.
    - intros [Hj Hjb]. rewrite Hc in Hjb by done. by case_decide.
    - intros [[Hj Hjb] Hne]. split; [done|]. rewrite Hc by done. by rewrite decide_False. }
  unfold nfree. rewrite He. rewrite size_difference, size_singleton.
  2: { intros j. rewrite elem_of_singleton, elem_of_fobjs. by intros ->. }
  assert (Hin : i ∈ fobjs s f n) by (by apply elem_of_fobjs).
  assert (size (fobjs s f n) <> 0%nat); [|lia].
  intros E. apply size_empty_iff in E. set_solver.
Qed.

Lemma nfree_given s s' f n i :
  obit_changed s s' f n i true -> 0 <= i < n -> obit s f i = false ->
  nfree s' f n = nfree s f n + 1.
Proof.
  intros Hc Hi Hb. assert (He : fobjs s' f n = {[i]} ∪ fobjs s f n).
  { apply set_eq. intros j. rewrite elem_of_union, !elem_of_fobjs, elem_of_singleton.
    split.
    - intros [Hj Hjb]. rewrite Hc in Hjb by done. case_decide; [by left|by right].
    - intros [->|[Hj Hjb]]; (split; [done|]); rewrite Hc by done; by case_decide. }
  unfold nfree. rewrite He. rewrite size_union, size_singleton; [lia|].
  intros j. rewrite elem_of_singleton, elem_of_fobjs. intros -> [_ ?]. congruence.
Qed.

(** Tests and updates of one bit of a word. *)
Lemma u64_shiftl1 b : 0 <= b < 64 -> u64 (Z.shiftl 1 b) = 2 ^ b.
Proof.
  intros Hb. rewrite Z.shiftl_mul_pow2, Z.mul_1_l by lia. apply u64_id. split; [lia|].
  apply Z.pow_lt_mono_r; lia.
Qed.

Lemma flag_bit w b : 0 <= b < 64 -> flag w (u64 (Z.shiftl 1 b)) = Z.testbit w b.
Proof.
  intros Hb. rewrite u64_shiftl1 by done. unfold flag.
  destruct (Z.testbit w b) eqn:E.
  - apply negb_true_iff, Z.eqb_neq. intros H.
    assert (Z.testbit (Z.land w (2 ^ b)) b = true); [|rewrite H, Z.bits_0 in *; done].
    by rewrite Z.land_spec, E, Z.pow2_bits_true by lia.
  - apply negb_false_iff, Z.eqb_eq. apply Z.bits_inj'. intros k Hk.
    rewrite Z.land_spec, Z.bits_0, Z.pow2_bits_eqb by lia.
    destruct (Z.eqb_spec b k) as [->|]; [by rewrite E|by rewrite andb_false_r].
Qed.

Lemma testbit_u64 x k : 0 <= k < 64 -> Z.testbit (u64 x) k = Z.testbit x k.
Proof. intros Hk. unfold u64. rewrite Z.mod_pow2_bits_low; [done|lia]. Qed.

Lemma testbit_mask_out w b k : 0 <= b < 64 -> 0 <= k < 64 ->
  Z.testbit (Z.land w (u64 (Z.lnot (Z.shiftl 1 b)))) k =
    if decide (k = b) then false else Z.testbit w k.
Proof.
  intros Hb Hk. rewrite Z.land_spec, testbit_u64, Z.lnot_spec, Z.shiftl_mul_pow2, Z.mul_1_l,
    Z.pow2_bits_eqb by lia.
  case_decide; [subst; by rewrite Z.eqb_refl, andb_false_r|].
  rewrite (proj2 (Z.eqb_neq b k)) by lia. by rewrite andb_true_r.
Qed.

Lemma testbit_mask_in w b k : 0 <= b < 64 -> 0 <= k < 64 ->
  Z.testbit (Z.lor w (u64 (Z.shiftl 1 b))) k =
    if decide (k = b) then true else Z.testbit w k.
Proof.
  intros Hb Hk. rewrite Z.lor_spec, u64_shiftl1, Z.pow2_bits_eqb by lia.
  case_decide; [subst; by rewrite Z.eqb_refl, orb_true_r|].
  rewrite (proj2 (Z.eqb_neq b k)) by lia. by rewrite orb_false_r.
Qed.

(** ** A slab in its frame *)

Record slab_ok s ci f : Prop := {
  so_ram : in_ram (mach s) f;
  so_used : f ∉ free (mach s);
  so_objects : hw s f 1 = u64 (addr s f + hdr ci);
  so_counts : hw s f 2 = nfree s f (nobjs ci) + 2 ^ 32 * nobjs ci;
  so_bitmap : hw s f 3 = addr s f + 32
}.

Lemma nobjs_range ci : some_class ci -> 1 <= nobjs ci <= 256.
Proof. intros H. pose proof (class_header ci H). lia. Qed.

Lemma slab_free_count_eq s ci f : some_class ci -> slab_ok s ci f ->
  u32 (hw s f 2) = nfree s f (nobjs ci).
Proof.
  intros Hci Hf. rewrite (so_counts _ _ _ Hf). unfold u32. pose proof (nobjs_range ci Hci).
  pose proof (nfree_le s f (nobjs ci)). rewrite Z.mul_comm, Z_mod_plus_full, Z.mod_small; lia.
Qed.

Lemma slab_total_count_eq s ci f : some_class ci -> slab_ok s ci f -> hw s f 2 / 2 ^ 32 = nobjs ci.
Proof.
  intros Hci Hf. rewrite (so_counts _ _ _ Hf). pose proof (nobjs_range ci Hci).
  pose proof (nfree_le s f (nobjs ci)). rewrite Z.mul_comm, Z_div_plus, Z.div_small; lia.
Qed.

(** The static fields of a cache. *)
Record cache_static ci (c : cache) : Prop := {
  cs_size : c_object_size c = csize ci;
  cs_align : c_align c = csize ci;
  cs_objects : c_objects_per_slab c = nobjs ci
}.

Lemma bitmap_words_eq ci c : some_class ci -> cache_static ci c -> bitmap_words c = nwords ci.
Proof.
  intros Hci [_ _ Ho]. unfold bitmap_words. rewrite Ho. each_class ci Hci; reflexivity.
Qed.

Lemma obit_split s f i b : 0 <= b < 64 -> obit s f (i * 64 + b) = Z.testbit (hw s f (4 + i)) b.
Proof.
  intros Hb. unfold obit. rewrite (Z.add_comm (i * 64)), Z_div_plus, Z_mod_plus by lia.
  by rewrite Z.div_small, Z.mod_small, Z.add_0_l by lia.
Qed.

(** ** [slab_find_free]: the first free object *)

Lemma find_bit_wp s f i n : 0 <= i < 4 -> 0 <= n <= 256 ->
  wp (find_bit i (hw s f (4 + i)) n) (fun r s' => s' = s /\
    match r with
    | inr k => 64 * i <= k < n /\ obit s f k = true
    | inl _ => forall k, 64 * i <= k < 64 * i + 64 -> k < n -> obit s f k = false
    end) s.
Proof.
  intros Hi Hn. unfold find_bit.
  eapply wp_mono; [apply (wp_for_range
    (fun b _ s' => s' = s /\ forall k, 64 * i <= k < 64 * i + b -> k < n -> obit s f k = false)
    (fun k s' => s' = s /\ 64 * i <= k < n /\ obit s f k = true))|].
  - split; [done|lia].
  - intros b [] s' Hb [-> Hk]. rewrite flag_bit by lia.
    assert (Hs32 : s32 (i * 64 + b) = i * 64 + b) by (apply s32_id; lia).
    rewrite Hs32. unfold u32. rewrite Z.mod_small by lia.
    rewrite <- obit_split by lia.
    destruct (obit s f (i * 64 + b)) eqn:E.
    + destruct (Z.ltb_spec (i * 64 + b) n); wp_step.
      * split; [done|]. split; [lia|done].
      * split; [done|]. intros k Hk1 Hk2. apply Hk; lia.
    + wp_step. split; [done|]. intros k Hk1 Hk2.
      destruct (decide (k = i * 64 + b)) as [->|]; [done|]. apply Hk; lia.
  - intros [[]|k] s' [-> H]; (split; [done|]); [|done].
    intros k Hk1 Hk2. apply H; lia.
Qed.

Lemma slab_find_free_wp s ci c f (Q : Z -> heap -> Prop) :
  hm s -> some_class ci -> caches s !! Z.to_nat ci = Some c -> cache_static ci c ->
  slab_ok s ci f -> 0 < nfree s f (nobjs ci) ->
  (forall k, 0 <= k < nobjs ci -> obit s f k = true -> Q k s) ->
  wp (slab_find_free (addr s f) ci) Q s.
Proof.
  intros Hs Hci Hc Hst Hf Hn HQ. unfold slab_find_free. wp_step.
  apply (wp_the_cache _ _ c); [unfold some_class in Hci; lia|done|].
  rewrite (bitmap_words_eq ci) by done. rewrite (cs_objects _ _ Hst).
  pose proof (class_header ci Hci) as (_ & _ & Hw & Ho & _). wp_step.
  eapply wp_mono; [apply (wp_for_range
    (fun i _ s' => s' = s /\ forall k, 0 <= k < 64 * i -> k < nobjs ci -> obit s f k = false)
    (fun k s' => s' = s /\ 0 <= k < nobjs ci /\ obit s f k = true))|].
  - split; [done|lia].
  - intros i [] s' Hi [-> Hk]. wp_step.
    apply wp_bitmap_word; [done|apply Hf|apply Hf|lia|].
    destruct (Z.eqb_spec (hw s f (4 + i)) 0) as [E|E]; cbn [negb].
    + wp_step. split; [done|]. intros k Hk1 Hk2. destruct (decide (k < 64 * i)); [by apply Hk; lia|].
      replace k with (i * 64 + (k - 64 * i)) by lia. rewrite obit_split, E, Z.bits_0 by lia. done.
    + wp_step. apply wp_bitmap_word; [done|apply Hf|apply Hf|lia|].
      eapply wp_mono; [apply find_bit_wp; lia|].
      intros [[]|k] s' [-> H]; (split; [done|]).
      * intros k Hk1 Hk2. destruct (decide (k < 64 * i)); [apply Hk; lia|apply H; lia].
      * destruct H. split; [lia|done].
  - intros [[]|k] s' [-> H].
    + exfalso. destruct (nfree_pos _ _ _ Hn) as (k & Hk1 & Hk2).
      rewrite H in Hk2 by lia. done.
    + destruct H as [Hk1 Hk2]. wp_step. by apply HQ.
Qed.

(** ** What a sequence of stores changes

    [stored W s s']: [s'] is [s] after stores to words that satisfy [W]. *)
Record stored (W : Z -> Z -> Prop) s s' : Prop := {
  st_hm : hm s';
  st_mach : same_machine (mach s) (mach s');
  st_frames : frames (mach s') = frames (mach s);
  st_caches : caches s' = caches s;
  st_init : kmalloc_initialized s' = kmalloc_initialized s;
  st_words h k : 0 <= k < 512 -> ~ W h k -> hw s' h k = hw s h k
}.

Lemma stored_refl W s : hm s -> stored W s s.
Proof. by split. Qed.

Lemma stored_trans W s1 s2 s3 : stored W s1 s2 -> stored W s2 s3 -> stored W s1 s3.
Proof.
  intros H1 H2. split.
  - apply H2.
  - etrans; [apply H1|apply H2].
  - etrans; [apply H2|apply H1].
  - etrans; [apply H2|apply H1].
  - etrans; [apply H2|apply H1].
  - intros h k Hk Hw. etrans; [by apply H2|by apply H1].
Qed.

Lemma stored_weaken (W W' : Z -> Z -> Prop) s s' :
  (forall h k, W h k -> W' h k) -> stored W s s' -> stored W' s s'.
Proof. intros H []. split; try done. eauto. Qed.

Lemma stored_put (W : Z -> Z -> Prop) s f k v :
  hm s -> 0 <= k < 512 -> W f k -> stored W s (hput s f k v).
Proof.
  intros Hs Hk HW. split; [by apply hm_put|done..|].
  intros h j Hj Hn. rewrite hw_put by done. rewrite decide_False; [done|]. intros [-> ->]. done.
Qed.

Lemma stored_more (W : Z -> Z -> Prop) s0 s f k v :
  stored W s0 s -> 0 <= k < 512 -> W f k -> stored W s0 (hput s f k v).
Proof. intros H Hk HW. eapply stored_trans; [done|]. by apply stored_put; [apply H|..]. Qed.

Lemma stored_addr W s s' f : stored W s s' -> addr s' f = addr s f.
Proof. intros []. by apply frame_addr_same. Qed.

Lemma stored_in_ram W s s' f : stored W s s' -> in_ram (mach s') f <-> in_ram (mach s) f.
Proof. intros []. by apply in_ram_same. Qed.

Lemma stored_free W s s' : stored W s s' -> free (mach s') = free (mach s).
Proof. intros []. unfold free. congruence. Qed.

(** A slab whose words have not changed. *)
Lemma obit_ext s s' ci f i : some_class ci -> 0 <= i < nobjs ci ->
  (forall k, 4 <= k < 4 + nwords ci -> hw s' f k = hw s f k) -> obit s' f i = obit s f i.
Proof.
  intros Hci Hi H. pose proof (class_header ci Hci). unfold obit. rewrite H; [done|]. dlia.
Qed.

Lemma slab_ok_ext s s' ci f : some_class ci -> same_machine (mach s) (mach s') ->
  f ∉ free (mach s') -> (forall k, 1 <= k < 4 + nwords ci -> hw s' f k = hw s f k) ->
  slab_ok s ci f -> slab_ok s' ci f.
Proof.
  intros Hci Hm Hn Hw [Hr Hu Ho Hc Hb]. pose proof (class_header ci Hci).
  assert (Ha : addr s' f = addr s f) by (by apply frame_addr_same).
  split; [by apply (in_ram_same _ _ _ Hm)|done|..]; rewrite ?Ha, ?Hw by lia; [done| |done].
  rewrite Hc. rewrite (nfree_ext s s'); [done|].
  intros i Hi. apply (obit_ext _ _ ci); [done..|]. intros k Hk. apply Hw. lia.
Qed.

Lemma nfree_same s s' ci f : some_class ci ->
  (forall k, 4 <= k < 4 + nwords ci -> hw s' f k = hw s f k) ->
  nfree s' f (nobjs ci) = nfree s f (nobjs ci).
Proof. intros Hci H. apply nfree_ext. intros i Hi. by apply (obit_ext _ _ ci). Qed.

(** The words of the header of a slab that marking an object may change. *)
Definition mark_words ci f : Z -> Z -> Prop := fun h k => h = f /\ 2 <= k < 4 + nwords ci.

Record marked s s' ci f i (b : bool) : Prop := {
  mk_stored : stored (mark_words ci f) s s';
  mk_ok : slab_ok s' ci f;
  mk_bits : obit_changed s s' f (nobjs ci) i b
}.

(** Storing the new word of the bitmap and the new count. *)
Lemma marked_intro s ci f i (b : bool) w n :
  hm s -> some_class ci -> slab_ok s ci f -> 0 <= i < nobjs ci ->
  (forall k, 0 <= k < 64 -> Z.testbit w k =
     if decide (k = i mod 64) then b else Z.testbit (hw s f (4 + i / 64)) k) ->
  n = nfree s f (nobjs ci) + (if b then 1 else -1) -> obit s f i = negb b ->
  marked s (hput (hput s f (4 + i / 64) w) f 2 (n + 2 ^ 32 * nobjs ci)) ci f i b.
Proof.
  intros Hs Hci Hf Hi Hw Hn Hb. pose proof (class_header ci Hci) as (_ & _ & Hnw & Ho & _).
  assert (Hk : 0 <= i / 64 < nwords ci) by dlia.
  set (s' := hput _ f 2 _).
  assert (Hbits : obit_changed s s' f (nobjs ci) i b).
  { intros j Hj. unfold obit, s'. assert (0 <= j / 64 < nwords ci) by dlia.
    rewrite !hw_put by lia.
    rewrite (decide_False (P := f = f /\ 4 + j / 64 = 2)) by (intros [_ ?]; lia).
    destruct (decide (j / 64 = i / 64)) as [E|E].
    - rewrite decide_True by (split; [done|lia]). rewrite Hw by dlia. rewrite <- E.
      destruct (decide (j = i)) as [->|]; [by rewrite decide_True|].
      rewrite decide_False by dlia. done.
    - rewrite decide_False by lia. rewrite decide_False by congruence. done. }
  assert (Hst : stored (mark_words ci f) s s').
  { unfold s'. apply stored_more; [apply stored_put; [done|lia|split; [done|lia]]|lia|split; [done|lia]]. }
  split; [done| |done]. destruct Hf as [Hr Hu Hoo Hc Hbm].
  split; [done|done|..].
  - unfold s'. rewrite !hw_put by lia. rewrite !decide_False by lia. done.
  - unfold s' at 1. rewrite hw_put by lia. rewrite decide_True by done. f_equal. rewrite Hn.
    destruct b; [rewrite (nfree_given s s' f _ i); [lia|..]|rewrite (nfree_taken s s' f _ i); [lia|..]]; done.
  - unfold s'. rewrite !hw_put by lia. rewrite !decide_False by lia. done.
Qed.

Section marking.
Context s ci f i (Hs : hm s) (Hci : some_class ci) (Hf : slab_ok s ci f) (Hi : 0 <= i < nobjs ci).

Lemma u32_small n : 0 <= n <= 256 -> u32 n = n.
Proof. intros H. unfold u32. apply Z.mod_small. lia. Qed.

Lemma word_index : 0 <= i / 64 < nwords ci /\ nwords ci <= 4.
Proof. pose proof (class_header ci Hci). split; [dlia|lia]. Qed.

(** After the bitmap word is stored, the count is still the old one. *)
Lemma count_after_bitmap w : hw (hput s f (4 + i / 64) w) f 2 = hw s f 2.
Proof.
  pose proof word_index. rewrite hw_put by lia. by rewrite decide_False by lia.
Qed.

Lemma slab_mark_allocated_wp (Q : unit -> heap -> Prop) :
  obit s f i = true -> (forall s', marked s s' ci f i false -> Q tt s') ->
  wp (slab_mark_allocated (addr s f) i) Q s.
Proof.
  intros Hb HQ. pose proof word_index. unfold slab_mark_allocated.
  pose proof (nfree_le s f (nobjs ci)). pose proof (nobjs_range ci Hci).
  assert (Hpos : 0 < nfree s f (nobjs ci)).
  { destruct (decide (nfree s f (nobjs ci) = 0)) as [E|]; [|lia].
    rewrite (nfree_zero _ _ _ E) in Hb by done. done. }
  wp_step. apply wp_bitmap_word; [done|apply Hf|apply Hf|lia|].
  wp_step. apply wp_set_bitmap_word; [done|apply Hf|apply Hf|lia|].
  set (w := Z.land _ _). set (s1 := hput s f _ w).
  wp_step. change (addr s f) with (addr s1 f).
  apply wp_slab_free_count; [by apply hm_put|apply Hf|].
  apply wp_set_free_count; [by apply hm_put|apply Hf|].
  unfold s1. rewrite count_after_bitmap, (slab_free_count_eq _ ci), (slab_total_count_eq _ ci) by done.
  apply HQ. rewrite (u32_small (nfree _ _ _ - 1)) by lia. rewrite u32_small by lia.
  apply marked_intro; [done..| |lia|done]. intros k Hk. apply testbit_mask_out; [dlia|done].
Qed.

Lemma slab_mark_free_wp (Q : unit -> heap -> Prop) :
  obit s f i = false -> (forall s', marked s s' ci f i true -> Q tt s') ->
  wp (slab_mark_free (addr s f) i) Q s.
Proof.
  intros Hb HQ. pose proof word_index. unfold slab_mark_free.
  pose proof (nfree_le s f (nobjs ci)). pose proof (nobjs_range ci Hci).
  assert (Hlt : nfree s f (nobjs ci) < nobjs ci).
  { destruct (decide (nfree s f (nobjs ci) = nobjs ci)) as [E|]; [|lia].
    rewrite (nfree_full s f (nobjs ci)) in Hb by (done || lia). done. }
  wp_step. apply wp_bitmap_word; [done|apply Hf|apply Hf|lia|].
  wp_step. apply wp_set_bitmap_word; [done|apply Hf|apply Hf|lia|].
  set (w := Z.lor _ _). set (s1 := hput s f _ w).
  wp_step. change (addr s f) with (addr s1 f).
  apply wp_slab_free_count; [by apply hm_put|apply Hf|].
  apply wp_set_free_count; [by apply hm_put|apply Hf|].
  unfold s1. rewrite count_after_bitmap, (slab_free_count_eq _ ci), (slab_total_count_eq _ ci) by done.
  apply HQ. rewrite (u32_small (nfree _ _ _ + 1)) by lia. rewrite u32_small by lia.
  apply marked_intro; [done..| |lia|done]. intros k Hk. apply testbit_mask_in; [dlia|done].
Qed.
End marking.

(** ** [slab_create] *)

(** [s'] is [s] with the page [f] taken from the free pages and made into a
    slab of class [ci] that is on no list. *)
Record slab_born s s' ci f : Prop := {
  sb_new : f ∈ free (mach s);
  sb_hm : hm s';
  sb_mach : same_machine (mach s) (mach s');
  sb_free : free (mach s') = free (mach s) ∖ {[f]};
  sb_caches : caches s' = caches s;
  sb_init : kmalloc_initialized s' = kmalloc_initialized s;
  sb_words h k : 0 <= k < 512 -> h <> f -> hw s' h k = hw s h k;
  sb_slab : slab_ok s' ci f;
  sb_next : hw s' f 0 = NULL;
  sb_bits : nfree s' f (nobjs ci) = nobjs ci
}.

(** The bitmap of a new slab: ones, the last word masked. *)
Definition fresh_bits s f n : Prop := forall i, 0 <= i < n -> obit s f i = true.

Lemma ones_loop s ci f (Q : unit -> heap -> Prop) :
  hm s -> some_class ci -> in_ram (mach s) f -> hw s f 3 = addr s f + 32 ->
  (forall s', stored (fun h k => h = f /\ 4 <= k < 4 + nwords ci) s s' ->
     (forall k, 0 <= k < nwords ci -> hw s' f (4 + k) = UINT64_MAX) -> Q tt s') ->
  wp (for_each 0 (nwords ci) tt (fun i _ => set_bitmap_word (addr s f) i UINT64_MAX)) Q s.
Proof.
  intros Hs Hci Hf Hb HQ. pose proof (class_header ci Hci) as (_ & _ & Hw & _).
  eapply wp_mono; [apply (wp_for_each (fun i _ s' =>
    stored (fun h k => h = f /\ 4 <= k < 4 + nwords ci) s s' /\
    forall k, 0 <= k < i -> hw s' f (4 + k) = UINT64_MAX))|].
  - split; [by apply stored_refl|lia].
  - intros i [] s' Hi [Hst Hk]. rewrite <- (stored_addr _ _ _ f Hst).
    apply wp_set_bitmap_word; [apply Hst|by apply (stored_in_ram _ _ _ f Hst)| |lia|].
    { rewrite (st_words _ _ _ Hst), (stored_addr _ _ _ f Hst); [done|lia|lia]. }
    split; [apply stored_more; [done|lia|split; [done|lia]]|].
    intros k Hk'. rewrite hw_put by lia. case_decide; [done|]. apply Hk. lia.
  - intros [] s' [Hst Hk]. apply HQ; [done|]. intros k Hk'. apply Hk. lia.
Qed.

Lemma UINT64_MAX_bits k : 0 <= k < 64 -> Z.testbit UINT64_MAX k = true.
Proof. intros Hk. change UINT64_MAX with (Z.ones 64). apply Z.ones_spec_low. lia. Qed.

(** The mask of the last word. *)
Definition last_word (ci : Z) : Z :=
  let extra := 64 * nwords ci - nobjs ci in
  if (0 <? extra) && (extra <? 64) then Z.ones (64 - extra) else UINT64_MAX.

Lemma last_word_bits ci k : some_class ci -> 0 <= k -> 64 * (nwords ci - 1) + k < nobjs ci ->
  Z.testbit (last_word ci) k = true.
Proof.
  intros Hci Hk Hn. pose proof (class_header ci Hci) as (_ & _ & Hw & Ho & _).
  unfold last_word. destruct (_ && _); [|apply UINT64_MAX_bits; lia].
  apply Z.ones_spec_low. lia.
Qed.

Lemma mask_step ci f s (Q : unit -> heap -> Prop) :
  hm s -> some_class ci -> in_ram (mach s) f -> hw s f 3 = addr s f + 32 ->
  hw s f (4 + (nwords ci - 1)) = UINT64_MAX ->
  (forall s', stored (fun h k => h = f /\ 4 <= k < 4 + nwords ci) s s' ->
     (forall k, 0 <= k < nwords ci - 1 -> hw s' f (4 + k) = hw s f (4 + k)) ->
     hw s' f (4 + (nwords ci - 1)) = last_word ci -> Q tt s') ->
  let extra_bits := u64 (nwords ci * 64 - nobjs ci) in
  wp (if (0 <? extra_bits) && (extra_bits <? 64) then
        let valid_bits := u64 (64 - extra_bits) in
        let mask := if valid_bits =? 64 then UINT64_MAX
                    else u64 (u64 (Z.shiftl 1 valid_bits) - 1) in
        set_bitmap_word (addr s f) (nwords ci - 1) mask
      else ret tt) Q s.
Proof.
  intros Hs Hci Hf Hb Hl HQ. pose proof (class_header ci Hci) as (_ & _ & Hw & Ho & _). cbv zeta.
  rewrite (u64_id (nwords ci * 64 - nobjs ci)) by lia.
  replace (nwords ci * 64 - nobjs ci) with (64 * nwords ci - nobjs ci) by lia.
  destruct ((0 <? _) && _) eqn:E.
  - apply andb_true_iff in E as E2. destruct E2 as [E1 E2].
    apply Z.ltb_lt in E1, E2. rewrite (u64_id (64 - _)) by lia.
    rewrite (proj2 (Z.eqb_neq _ _)) by lia.
    apply wp_set_bitmap_word; [done..|lia|]. apply HQ.
    + apply stored_put; [done|lia|split; [done|lia]].
    + intros k Hk. rewrite hw_put by lia. by rewrite decide_False by lia.
    + rewrite hw_put by lia. rewrite decide_True by done. unfold last_word. rewrite E.
      rewrite u64_shiftl1 by lia. rewrite Z.ones_equiv, Z.sub_1_r. apply u64_id.
      pose proof (Z.pow_pos_nonneg 2 (64 - (64 * nwords ci - nobjs ci))).
      pose proof (Z.pow_lt_mono_r 2 (64 - (64 * nwords ci - nobjs ci)) 64). lia.
  - wp_step. apply HQ; [by apply stored_refl|done|]. unfold last_word. by rewrite E.
Qed.

Lemma nwords_bits s ci f : some_class ci ->
  (forall k, 0 <= k < nwords ci - 1 -> hw s f (4 + k) = UINT64_MAX) ->
  hw s f (4 + (nwords ci - 1)) = last_word ci -> fresh_bits s f (nobjs ci).
Proof.
  intros Hci Hk Hl i Hi. pose proof (class_header ci Hci) as (_ & _ & Hw & Ho & _). unfold obit.
  destruct (decide (i / 64 = nwords ci - 1)) as [E|E].
  - rewrite E, Hl. apply last_word_bits; [done|dlia|dlia].
  - rewrite Hk by dlia. apply UINT64_MAX_bits. dlia.
Qed.

(** The header fields, up to the bitmap pointer. *)
Lemma slab_fields_wp {X : Type} s ci f (K : HM X) (Q : X -> heap -> Prop) :
  hm s -> some_class ci -> in_ram (mach s) f ->
  (forall s', stored (fun h k => h = f) s s' -> hw s' f 0 = NULL ->
     hw s' f 2 = nobjs ci + 2 ^ 32 * nobjs ci -> hw s' f 3 = addr s f + 32 -> wp K Q s') ->
  wp (set_slab_total_count (addr s f) (nobjs ci) ;;;
      set_slab_free_count (addr s f) (nobjs ci) ;;;
      store_field (addr s f) 24 (u64 (addr s f + sizeof_slab)) ;;; K) Q (hput s f 0 NULL).
Proof.
  intros Hs Hci Hr HK. pose proof (nobjs_range ci Hci). set (s1 := hput s f 0 NULL).
  assert (S1 : stored (fun h _ => h = f) s s1) by (apply stored_put; [done|lia|done]).
  wp_step. change (addr s f) with (addr s1 f). apply wp_set_total_count; [apply S1|done|].
  set (s2 := hput s1 f 2 _).
  assert (S2 : stored (fun h _ => h = f) s s2) by (apply stored_more; [done|lia|done]).
  wp_step. change (addr s1 f) with (addr s2 f). apply wp_set_free_count; [apply S2|done|].
  set (s3 := hput s2 f 2 _).
  assert (S3 : stored (fun h _ => h = f) s s3) by (apply stored_more; [done|lia|done]).
  wp_step. change (addr s2 f) with (addr s3 f).
  apply (wp_store_field _ (st_hm _ _ _ S3) f Hr 3); [done|lia|].
  apply HK; [by apply stored_more|..].
  - unfold s3, s2, s1. rewrite !hw_put by lia. by rewrite !decide_False, decide_True by lia.
  - rewrite hw_put, decide_False by lia. unfold s3. rewrite hw_put, decide_True by (done || lia).
    unfold s2. rewrite hw_put, decide_True by (done || lia). rewrite !u32_small by lia. do 2 f_equal.
    rewrite Z.mul_comm, Z_div_plus by lia. unfold u32.
    rewrite Z.div_small; [lia|]. apply Z.mod_pos_bound. lia.
  - rewrite hw_put, decide_True by (done || lia). apply u64_id. unfold in_ram in Hr.
    pose proof (direct_map_range (mach s) Hs). unfold addr, frame_addr, sizeof_slab in *.
    change (direct_map (mach s3)) with (direct_map (mach s)). lia.
Qed.

(** A page taken from the allocator, as a state of the heap. *)
Definition with_frames s (p : pmm) : heap :=
  Heap (set_frames p (mach s)) (caches s) (kmalloc_initialized s).

Lemma with_frames_ok s p : hm s -> pmm_inv p -> same_layout (frames (mach s)) p ->
  hm (with_frames s p) /\ same_machine (mach s) (mach (with_frames s p)).
Proof.
  intros Hs Hp Hl. assert (Hsm : same_machine (mach s) (mach (with_frames s p))) by (by split).
  split; [|done]. by apply (mm_ok_same (mach s)).
Qed.

Lemma slab_born_intro s p s' ci f :
  some_class ci -> f ∈ free (mach s) -> hm (with_frames s p) -> same_layout (frames (mach s)) p ->
  abs_free p = free (mach s) ∖ {[f]} -> stored (fun h _ => h = f) (with_frames s p) s' ->
  hw s' f 0 = NULL -> hw s' f 1 = u64 (addr s f + hdr ci) ->
  hw s' f 2 = nobjs ci + 2 ^ 32 * nobjs ci -> hw s' f 3 = addr s f + 32 ->
  fresh_bits s' f (nobjs ci) -> slab_born s s' ci f.
Proof.
  intros Hci Hf Hs0 Hl Hfree St E0 E1 E2 E3 Hb. pose proof (nobjs_range ci Hci).
  assert (Hn : nfree s' f (nobjs ci) = nobjs ci) by (apply nfree_all; [lia|done]).
  assert (Ha : addr s' f = addr s f) by apply (stored_addr _ _ _ f St).
  assert (Hfr : free (mach s') = free (mach s) ∖ {[f]}) by (by rewrite (stored_free _ _ _ St)).
  split; try done.
  - apply St.
  - etrans; [|apply St]. by split.
  - apply St.
  - apply St.
  - intros h k Hk Hh. by rewrite (st_words _ _ _ St).
  - split; [|rewrite Hfr; set_solver|by rewrite Ha|by rewrite Hn|by rewrite Ha].
    apply (stored_in_ram _ _ _ _ St). apply (in_ram_same (mach s)); [by split|].
    apply (elem_of_free (mach s)), Hf.
Qed.

Lemma slab_create_wp s ci c (Q : Z -> heap -> Prop) :
  hm s -> some_class ci -> caches s !! Z.to_nat ci = Some c -> cache_static ci c ->
  (free (mach s) = ∅ -> Q NULL s) ->
  (forall s' f, slab_born s s' ci f -> Q (addr s f) s') ->
  wp (slab_create ci) Q s.
Proof.
  intros Hs Hci Hc Hst Hno Hyes. unfold slab_create. wp_step. apply wp_in_mach.
  assert (Hci0 : 0 <= ci) by (unfold some_class in Hci; lia).
  pose proof (class_header ci Hci) as (Hh & _ & Hw & Ho & _).
  apply wp_alloc_frame; [done|..].
  { intros He. simpl. wp_step. rewrite heap_eta. by apply Hno. }
  intros p f Hf Hp Hl Hfree.
  pose proof (elem_of_free _ _ Hf) as Hr0. rewrite (frame_addr_not_null _ Hs f Hr0).
  destruct (with_frames_ok s p Hs Hp Hl) as [Hs0 Hsm].
  change (Heap _ _ _) with (with_frames s p). set (s0 := with_frames s p) in *.
  assert (Hr : in_ram (mach s0) f) by (by apply (in_ram_same _ _ _ Hsm)).
  change (frame_addr (mach s) f) with (addr s0 f).
  wp_step. apply wp_set_slab_next; [done..|].
  wp_step. apply (wp_the_cache _ _ c); [done..|].
  rewrite (cs_objects _ _ Hst), (cs_align _ _ Hst), (bitmap_words_eq ci) by done. cbv zeta.
  apply slab_fields_wp; [done..|]. intros s1 S1 E0 E2 E3.
  wp_step. rewrite <- (stored_addr _ _ _ f S1) in E3 |- *.
  apply ones_loop; [apply S1|done|by apply (stored_in_ram _ _ _ f S1)|done|].
  intros s2 S2 Hones. wp_step. rewrite <- (stored_addr _ _ _ f S2).
  assert (S02 : stored (fun h _ => h = f) s0 s2)
    by (eapply stored_trans, stored_weaken, S2; [done|]; by intros ? ? [-> _]).
  apply mask_step; [apply S2|done|by apply (stored_in_ram _ _ _ f S02)| |by apply Hones; lia|].
  { rewrite (st_words _ _ _ S2), (stored_addr _ _ _ f S2) by lia. done. }
  intros s3 S3 Hk Hlast. wp_step. rewrite <- (stored_addr _ _ _ f S3).
  assert (S03 : stored (fun h _ => h = f) s0 s3)
    by (eapply stored_trans, stored_weaken, S3; [done|]; by intros ? ? [-> _]).
  assert (S13 := stored_trans _ _ _ _ S2 S3).
  apply (wp_store_field _ (st_hm _ _ _ S3) f (proj2 (stored_in_ram _ _ _ f S03) Hr) 1); [done|lia|]. wp_step.
  rewrite (stored_addr _ _ _ f S03), class_align by done. apply Hyes.
  apply (slab_born_intro s p); [done..| | | | | |]; [by apply stored_more| | | | |].
  1-4: rewrite hw_put by lia; try (rewrite decide_True by done; done);
    rewrite decide_False, (st_words _ _ _ S13) by lia; try done.
  { by rewrite E3, (stored_addr _ _ _ f S1). }
  apply (nwords_bits _ ci); [done|intros k Hk'|]; rewrite hw_put, decide_False by lia; [|done].
  rewrite Hk by done. apply Hones. lia.
Qed.
