(* ===== verification/KmallocSpec.v ===== *)
(** * The kernel heap: lists of slabs and the invariant

    Chains of slabs through their [next] fields, the loops along them, the
    removal of a slab, and [heap_ok], the invariant of the whole allocator. *)

From stdpp Require Import base numbers list list_numbers gmap strings.
From S2P Require Import Prelude Bitmap Pmm PmmFacts PmmSpec Mmu PageTree MmuFacts MmuSpec Kmalloc KmallocFacts.

Implicit Types (s : heap) (f h ci : Z) (fs : list Z).

(** ** Chains *)

(** [fs] are the frames of the slabs reached from the pointer [p]. *)
Fixpoint chain s (p : Z) (fs : list Z) : Prop :=
  match fs with
  | [] => p = NULL
  | f :: fs => p = addr s f /\ in_ram (mach s) f /\ chain s (hw s f 0) fs
  end.

Lemma slab_chain_ext s s' p fs :
  same_machine (mach s) (mach s') -> (forall f, f ∈ fs -> hw s' f 0 = hw s f 0) ->
  chain s p fs -> chain s' p fs.
Proof.
  intros Hm. revert p. induction fs as [|f fs IH]; intros p Hw; simpl; [done|].
  intros (-> & Hr & Hc). split; [symmetry; by apply frame_addr_same|].
  split; [by apply (in_ram_same _ _ _ Hm)|].
  rewrite Hw by set_solver. apply IH; [|done]. intros g Hg. apply Hw. set_solver.
Qed.

Lemma chain_app s p l1 f l2 :
  chain s p (l1 ++ f :: l2) -> in_ram (mach s) f /\ chain s (hw s f 0) l2.
Proof.
  revert p. induction l1 as [|a l1 IH]; intros p; simpl; [tauto|]. intros (_ & _ & H). eauto.
Qed.

Lemma addr_inj s f h : addr s f = addr s h -> f = h.
Proof. unfold addr, frame_addr. lia. Qed.

Lemma addr_nz s f : hm s -> in_ram (mach s) f -> (addr s f =? NULL) = false.
Proof. intros Hs Hf. by apply frame_addr_not_null. Qed.

Lemma chain_null s fs : hm s -> chain s NULL fs -> fs = [].
Proof.
  intros Hs. destruct fs as [|f fs]; [done|]. intros (E & Hr & _).
  pose proof (addr_nz s f Hs Hr) as Hn. rewrite <- E in Hn. done.
Qed.

(** A list without repetition is shorter than the number of pages. *)
Lemma frames_bound s fs : hm s -> NoDup fs -> (forall f, f ∈ fs -> in_ram (mach s) f) ->
  (length fs <= Z.to_nat (total_pages (frames (mach s))))%nat.
Proof.
  intros Hs Hnd Hr. set (n := total_pages (frames (mach s))).
  assert (Hn : 0 <= n) by apply (inv_total _ (mm_pmm _ Hs)).
  rewrite <- (size_list_to_set (C := gset Z) fs) by done.
  assert (Hsub : (list_to_set fs : gset Z) ⊆ range_set 0 n).
  { intros f. rewrite elem_of_list_to_set, elem_of_range_set. intros Hf. apply Hr in Hf.
    unfold in_ram in Hf. fold n in Hf. lia. }
  apply subseteq_size in Hsub. pose proof (size_range_set n Hn). lia.
Qed.

Lemma chain_in_ram s p fs f : chain s p fs -> f ∈ fs -> in_ram (mach s) f.
Proof.
  revert p. induction fs as [|a fs IH]; intros p; simpl; [set_solver|].
  intros (_ & Ha & Hc) [->|Hf]%elem_of_cons; [done|eauto].
Qed.

(** ** Loops along a chain *)

(** The first early exit of a loop body that computes [R] on the frames. *)
Fixpoint first_exit {X : Type} (R : Z -> unit + X) (fs : list Z) : unit + X :=
  match fs with
  | [] => inl tt
  | f :: fs => match R f with inr v => inr v | inl _ => first_exit R fs end
  end.

Lemma walk_slabs_wp {X : Type} s fuel p fs (body : Z -> HM (unit + X)) (R : Z -> unit + X)
    (Q : unit + X -> heap -> Prop) :
  hm s -> chain s p fs -> (length fs < fuel)%nat ->
  (forall f, f ∈ fs -> wp (body (addr s f)) (fun r s' => s' = s /\ r = R f) s) ->
  Q (first_exit R fs) s -> wp (walk_slabs fuel p body) Q s.
Proof.
  intros Hs. revert p fuel. induction fs as [|f fs IH]; intros p fuel Hc Hl Hb HQ;
    (destruct fuel as [|fuel]; [simpl in Hl; lia|]); simpl in *.
  - subst p. by apply wp_ret.
  - destruct Hc as (-> & Hr & Hc). rewrite addr_nz by done.
    wp_step. eapply wp_mono; [apply Hb; set_solver|]. intros r s' [-> ->].
    destruct (R f) as [[]|v]; [|by apply wp_ret].
    wp_step. apply wp_slab_next; [done..|]. apply IH; [done|lia| |done].
    intros g Hg. apply Hb. set_solver.
Qed.

Lemma for_slabs_wp {X : Type} s p fs (body : Z -> HM (unit + X)) (R : Z -> unit + X)
    (Q : unit + X -> heap -> Prop) :
  hm s -> chain s p fs -> NoDup fs ->
  (forall f, f ∈ fs -> wp (body (addr s f)) (fun r s' => s' = s /\ r = R f) s) ->
  Q (first_exit R fs) s -> wp (for_slabs p body) Q s.
Proof.
  intros Hs Hc Hnd Hb HQ. unfold for_slabs. wp_step. wp_step.
  apply (walk_slabs_wp s _ _ fs _ R); [done..| |done|done].
  pose proof (frames_bound s fs Hs Hnd (fun f => chain_in_ram s p fs f Hc)). lia.
Qed.

Lemma first_exit_none {X : Type} (R : Z -> unit + X) fs :
  (forall f, f ∈ fs -> R f = inl tt) -> first_exit R fs = inl tt.
Proof.
  induction fs as [|f fs IH]; intros H; simpl; [done|].
  rewrite H by set_solver. apply IH. set_solver.
Qed.

Lemma first_exit_one {X : Type} (R : Z -> unit + X) fs f v :
  f ∈ fs -> R f = inr v -> (forall g, g ∈ fs -> g <> f -> R g = inl tt) ->
  first_exit R fs = inr v.
Proof.
  induction fs as [|g fs IH]; intros Hf Hv H; simpl; [set_solver|].
  destruct (decide (g = f)) as [->|Hne]; [by rewrite Hv|].
  rewrite H by set_solver. apply IH; [set_solver|done|]. intros. apply H; set_solver.
Qed.

(** ** Removing a slab from a list *)

Lemma find_pred_wp s fuel p l0 a f l2 (Q : Z -> heap -> Prop) :
  hm s -> chain s p (l0 ++ a :: f :: l2) -> NoDup (l0 ++ a :: f :: l2) ->
  (length l0 < fuel)%nat -> Q (addr s a) s -> wp (find_pred fuel p (addr s f)) Q s.
Proof.
  intros Hs. revert p fuel. induction l0 as [|b l0 IH]; intros p fuel Hc Hnd Hl HQ;
    (destruct fuel as [|fuel]; [simpl in Hl; lia|]); simpl in *;
    destruct Hc as (-> & Hr & Hc); rewrite addr_nz by done; wp_step;
    (apply wp_slab_next; [done..|]).
  - destruct Hc as (-> & _). rewrite Z.eqb_refl. by apply wp_ret.
  - assert (Hne : hw s b 0 <> addr s f).
    { apply NoDup_cons in Hnd as [_ Hnd]. clear IH HQ.
      destruct l0 as [|d l0]; simpl in *; destruct Hc as (-> & _); intros E%addr_inj; subst.
      - apply NoDup_cons in Hnd as [Hnd _]. set_solver.
      - apply NoDup_cons in Hnd as [Hnd _]. set_solver. }
    rewrite (proj2 (Z.eqb_neq _ _) Hne).
    apply IH; [done|by apply NoDup_cons in Hnd as [_ ?]|lia|done].
Qed.

(** [s'] up to the array of caches. *)
Definition moved (W : Z -> Z -> Prop) s s' : Prop := stored W s (hcaches s' (caches s)).

Lemma moved_caches W s l : hm s -> moved W s (hcaches s l).
Proof. intros Hs. unfold moved, hcaches. simpl. rewrite heap_eta. by apply stored_refl. Qed.

Lemma moved_stored W s s' : stored W s s' -> moved W s s'.
Proof.
  intros H. unfold moved. rewrite <- (st_caches _ _ _ H). unfold hcaches. by rewrite heap_eta.
Qed.

Lemma set_head_same w c : set_head w (head_of w c) c = c.
Proof. by destruct w, c. Qed.

Lemma chain_replace s s' p l0 a f l2 :
  same_machine (mach s) (mach s') -> NoDup (l0 ++ a :: f :: l2) ->
  hw s' a 0 = hw s f 0 -> (forall h, h <> a -> hw s' h 0 = hw s h 0) ->
  chain s p (l0 ++ a :: f :: l2) -> chain s' p (l0 ++ a :: l2).
Proof.
  intros Hm Hnd Ha Hw. revert p Hnd. induction l0 as [|b l0 IH]; intros p Hnd; simpl in *.
  - intros (-> & Hr & _ & _ & Hc). split; [symmetry; by apply frame_addr_same|].
    split; [by apply (in_ram_same _ _ _ Hm)|]. rewrite Ha. eapply slab_chain_ext; [done| |done].
    intros g Hg. apply Hw. intros ->. apply NoDup_cons in Hnd as [Hnd _]. set_solver.
  - intros (-> & Hr & Hc). split; [symmetry; by apply frame_addr_same|].
    split; [by apply (in_ram_same _ _ _ Hm)|]. apply NoDup_cons in Hnd as [Hb Hnd].
    rewrite Hw by set_solver. by apply IH.
Qed.

Lemma slab_remove_wp s ci c w l1 f l2 (Q : unit -> heap -> Prop) :
  hm s -> 0 <= ci -> caches s !! Z.to_nat ci = Some c ->
  chain s (head_of w c) (l1 ++ f :: l2) -> NoDup (l1 ++ f :: l2) ->
  (forall s' p, moved (fun h k => h ∈ l1 /\ k = 0) s s' ->
     caches s' = <[Z.to_nat ci := set_head w p c]> (caches s) -> chain s' p (l1 ++ l2) -> Q tt s') ->
  wp (slab_remove_from_list ci w (addr s f)) Q s.
Proof.
  intros Hs Hci Hc Hch Hnd HQ. unfold slab_remove_from_list. wp_step.
  apply (wp_the_cache _ _ c); [done..|].
  destruct (chain_app _ _ _ _ _ Hch) as [Hr Hch2].
  destruct l1 as [|b l1].
  { simpl in *. destruct Hch as (-> & _ & Hch). rewrite Z.eqb_refl. wp_step.
    apply wp_slab_next; [done..|]. apply (wp_upd_cache _ _ c); [done..|].
    apply (HQ _ (hw s f 0)); [by apply moved_caches|done|]. by apply (slab_chain_ext s). }
  assert (Hne : head_of w c <> addr s f).
  { simpl in *. destruct Hch as (-> & _). intros E%addr_inj. subst.
    apply NoDup_cons in Hnd as [Hnd _]. set_solver. }
  rewrite (proj2 (Z.eqb_neq _ _) Hne). wp_step. wp_step. wp_step.
  assert (exists l0 a, b :: l1 = l0 ++ [a]) as (l0 & a & E).
  { destruct (exists_last (l := b :: l1)) as (l0 & a & E); [discriminate|eauto]. }
  rewrite E, <- app_assoc in Hch, Hnd. simpl in Hch, Hnd.
  destruct (chain_app _ _ _ _ _ Hch) as [Hra _].
  apply (find_pred_wp s _ _ l0 a f l2); [done..| |].
  { pose proof (frames_bound s _ Hs Hnd (fun f => chain_in_ram s _ _ f Hch)) as Hb.
    rewrite length_app in Hb. lia. }
  rewrite addr_nz by done. cbn [negb]. wp_step. apply wp_slab_next; [done..|].
  apply wp_set_slab_next; [done..|]. apply (HQ _ (head_of w c)).
  - apply moved_stored, stored_put; [done|lia|]. rewrite E. split; [set_solver|done].
  - rewrite set_head_same, list_insert_id; done.
  - rewrite E, <- app_assoc. eapply (chain_replace s); [done|done| |..|done].
    + rewrite hw_put by lia. by rewrite decide_True.
    + intros h Hh. rewrite hw_put by lia. by rewrite decide_False by tauto.
Qed.

(** ** The kernel heap: invariant and operations

    [heap_ok s G]: the slabs of every class lie on the three lists that [G]
    gives for it, no page is on two lists, and each list holds the slabs it is
    named for.  Allocation and release preserve it and change the set of live
    blocks by one. *)

(** ** Invariant *)

Record glists := GL { gp : list Z; gf : list Z; ge : list Z }.
Definition gall (g : glists) : list Z := gp g ++ gf g ++ ge g.
Abbreviation ghost := (Z -> glists).

Implicit Types (G : ghost) (g : glists).

Definition gupd G ci g : ghost := fun cj => if decide (cj = ci) then g else G cj.

Lemma gupd_eq G ci g : gupd G ci g ci = g.
Proof. unfold gupd. by rewrite decide_True. Qed.
Lemma gupd_ne G ci g cj : cj <> ci -> gupd G ci g cj = G cj.
Proof. intros. unfold gupd. by rewrite decide_False. Qed.

Record cache_ok s ci (c : cache) g : Prop := {
  co_static : cache_static ci c;
  co_partial : chain s (c_partial c) (gp g);
  co_full : chain s (c_full c) (gf g);
  co_empty : chain s (c_empty c) (ge g);
  co_nodup : NoDup (gall g);
  co_slab f : f ∈ gall g -> slab_ok s ci f;
  co_some f : f ∈ gp g -> 0 < nfree s f (nobjs ci);
  co_none f : f ∈ gf g -> nfree s f (nobjs ci) = 0;
  co_all f : f ∈ ge g -> nfree s f (nobjs ci) = nobjs ci;
  co_cached : (length (ge g) <= 2)%nat
}.

Record heap_ok s G : Prop := {
  ho_hm : hm s;
  ho_init : kmalloc_initialized s = true;
  ho_top : direct_map (mach s) + 4096 * total_pages (frames (mach s)) < 2 ^ 64;
  ho_cache ci : some_class ci ->
    exists c, caches s !! Z.to_nat ci = Some c /\ cache_ok s ci c (G ci);
  ho_disjoint ci cj f : some_class ci -> some_class cj -> f ∈ gall (G ci) -> f ∈ gall (G cj) -> ci = cj;
  ho_small ci : some_class ci -> ~ small_class ci -> gall (G ci) = []
}.

Lemma top_same (m m' : machine) : same_machine m m' ->
  direct_map m' + 4096 * total_pages (frames m') = direct_map m + 4096 * total_pages (frames m).
Proof. intros [_ -> _ _ (_ & -> & _)]. done. Qed.

(** Page [f] belongs to the heap. *)
Definition owned G f : Prop := exists ci, some_class ci /\ f ∈ gall (G ci).

(** A cache none of whose slabs had its header written. *)
Lemma cache_ok_ext s s' ci c g : some_class ci -> same_machine (mach s) (mach s') ->
  (forall f k, f ∈ gall g -> 0 <= k < 4 + nwords ci -> hw s' f k = hw s f k) ->
  (forall f, f ∈ gall g -> f ∉ free (mach s')) ->
  cache_ok s ci c g -> cache_ok s' ci c g.
Proof.
  intros Hci Hm Hw Hu [Hst Hp Hf He Hnd Hs Hso Hno Hal Hca].
  pose proof (class_header ci Hci) as (_ & _ & Hnw & _).
  assert (Hn : forall f, f ∈ gall g -> nfree s' f (nobjs ci) = nfree s f (nobjs ci)).
  { intros f Hin. apply nfree_same; [done|]. intros k Hk. apply Hw; [done|lia]. }
  unfold gall in *. split; [done|..]; try done.
  1-3: eapply slab_chain_ext; [done| |done]; intros f Hin; apply Hw; [set_solver|lia].
  - intros f Hin. eapply slab_ok_ext; [done|done|by apply Hu| |by apply Hs].
    intros k Hk. apply Hw; [done|lia].
  - intros f Hin. rewrite Hn by set_solver. by apply Hso.
  - intros f Hin. rewrite Hn by set_solver. by apply Hno.
  - intros f Hin. rewrite Hn by set_solver. by apply Hal.
Qed.

(** One class changed. *)
Lemma heap_ok_update s s' G ci c' g' :
  heap_ok s G -> small_class ci -> hm s' -> same_machine (mach s) (mach s') ->
  kmalloc_initialized s' = kmalloc_initialized s ->
  caches s' = <[Z.to_nat ci := c']> (caches s) -> cache_ok s' ci c' g' ->
  (forall f, f ∈ gall g' -> f ∈ gall (G ci) \/ f ∈ free (mach s)) ->
  (forall f cj k, some_class cj -> cj <> ci -> f ∈ gall (G cj) -> 0 <= k < 512 -> hw s' f k = hw s f k) ->
  (forall f cj, some_class cj -> cj <> ci -> f ∈ gall (G cj) -> f ∉ free (mach s')) ->
  heap_ok s' (gupd G ci g').
Proof.
  intros [Hs Hi Ht Hc Hd Hsm] Hci Hs' Hm Hi' Hca Hok Hnew Hw Hu.
  assert (Hforeign : forall f cj, some_class cj -> cj <> ci -> f ∈ gall g' -> f ∈ gall (G cj) -> False).
  { intros f cj Hcj Hne Hf1 Hf2. destruct (Hnew f Hf1) as [Hf|Hf].
    - apply Hne. eapply Hd; eauto. by apply small_some.
    - destruct (Hc cj Hcj) as (c & _ & Hcok). by apply (so_used _ _ _ (co_slab _ _ _ _ Hcok f Hf2)). }
  split; [done|congruence|by rewrite (top_same _ _ Hm)|..].
  - intros cj Hcj. destruct (decide (cj = ci)) as [->|Hne].
    + destruct (Hc ci Hcj) as (c & Hl & _). exists c'. rewrite gupd_eq. split; [|done].
      rewrite Hca, list_lookup_insert_eq; [done|]. by eapply lookup_lt_Some.
    + destruct (Hc cj Hcj) as (c & Hl & Hcok). exists c. rewrite gupd_ne by done.
      split; [|eapply cache_ok_ext; eauto].
      2: { pose proof (class_header cj Hcj). intros. eapply Hw; eauto. lia. }
      rewrite Hca, list_lookup_insert_ne; [done|]. unfold some_class, small_class in *. lia.
  - intros cj ck f Hcj Hck. unfold gupd. repeat case_decide; subst; try done; intros H1 H2.
    + exfalso. by eapply (Hforeign f ck).
    + exfalso. by eapply (Hforeign f cj).
    + by eapply Hd.
  - intros cj Hcj Hn. rewrite gupd_ne by (intros ->; done). by apply Hsm.
Qed.

(** ** Live blocks *)

Definition obj_addr s ci f i : Z := addr s f + hdr ci + i * csize ci.

Definition live s G (a n : Z) : Prop :=
  exists ci f i, small_class ci /\ f ∈ gall (G ci) /\ 0 <= i < nobjs ci /\
    obit s f i = false /\ a = obj_addr s ci f i /\ n = csize ci.

Lemma obj_in_page s ci f i : small_class ci -> 0 <= i < nobjs ci ->
  addr s f + 32 <= obj_addr s ci f i /\ obj_addr s ci f i + csize ci <= addr s f + 4096.
Proof.
  intros Hci Hi. pose proof (class_fits ci Hci) as (Hfit & _).
  pose proof (class_header ci (small_some ci Hci)) as (Hh & _ & Hw & _ & Hsz & _).
  unfold obj_addr. split; nia.
Qed.

Lemma same_page s f h a : addr s f <= a < addr s f + 4096 -> addr s h <= a < addr s h + 4096 -> f = h.
Proof. unfold addr, frame_addr. lia. Qed.

(** The object at an address is determined. *)
Lemma obj_addr_inj s G ci f i cj h j a : heap_ok s G ->
  small_class ci -> small_class cj -> f ∈ gall (G ci) -> h ∈ gall (G cj) ->
  0 <= i < nobjs ci -> 0 <= j < nobjs cj ->
  obj_addr s ci f i <= a < obj_addr s ci f i + csize ci ->
  obj_addr s cj h j <= a < obj_addr s cj h j + csize cj ->
  ci = cj /\ f = h /\ i = j.
Proof.
  intros Ho Hci Hcj Hf Hh Hi Hj Ha Hb.
  pose proof (obj_in_page s ci f i Hci Hi). pose proof (obj_in_page s cj h j Hcj Hj).
  assert (f = h) as <- by (apply (same_page s f h a); lia).
  assert (ci = cj) as <- by (eapply (ho_disjoint _ _ Ho); eauto using small_some).
  split; [done|]. split; [done|]. unfold obj_addr in *.
  pose proof (class_header ci (small_some ci Hci)) as (_ & _ & _ & _ & Hsz & _). nia.
Qed.

(** Live blocks do not overlap, and each lies in one page of the heap. *)
Lemma live_disjoint s G a n b m : heap_ok s G -> live s G a n -> live s G b m ->
  (a = b /\ n = m) \/ a + n <= b \/ b + m <= a.
Proof.
  intros Ho (ci & f & i & Hci & Hf & Hi & _ & -> & ->) (cj & h & j & Hcj & Hh & Hj & _ & -> & ->).
  pose proof (class_header ci (small_some ci Hci)) as (_ & _ & _ & _ & Hsz & _).
  pose proof (class_header cj (small_some cj Hcj)) as (_ & _ & _ & _ & Hsz' & _).
  destruct (decide (obj_addr s ci f i + csize ci <= obj_addr s cj h j)); [by right; left|].
  destruct (decide (obj_addr s cj h j + csize cj <= obj_addr s ci f i)); [by right; right|].
  left. destruct (obj_addr_inj s G ci f i cj h j (Z.max (obj_addr s ci f i) (obj_addr s cj h j)))
    as (<- & <- & <-); try done; lia.
Qed.

Lemma live_in_page s G a n : heap_ok s G -> live s G a n ->
  exists f, owned G f /\ in_ram (mach s) f /\ f ∉ free (mach s) /\ addr s f <= a /\ a + n <= addr s f + 4096.
Proof.
  intros Ho (ci & f & i & Hci & Hf & Hi & _ & -> & ->). exists f.
  destruct (ho_cache _ _ Ho ci (small_some ci Hci)) as (c & _ & Hc).
  pose proof (co_slab _ _ _ _ Hc f Hf) as Hslab. pose proof (obj_in_page s ci f i Hci Hi).
  split; [exists ci; split; [by apply small_some|done]|]. split; [apply Hslab|].
  split; [apply Hslab|lia].
Qed.

(** Blocks are aligned to their size. *)
Lemma live_aligned s G a n : heap_ok s G -> live s G a n -> a mod n = 0.
Proof.
  intros Ho (ci & f & i & Hci & Hf & Hi & _ & -> & ->).
  destruct (class_fits ci Hci) as (_ & Hh & Hp).
  pose proof (class_header ci (small_some ci Hci)) as (_ & _ & _ & _ & Hsz & _).
  unfold obj_addr, addr, frame_addr. rewrite Z_mod_plus_full.
  assert (Hd : direct_map (mach s) mod 4096 = 0).
  { rewrite <- (mm_off _ (ho_hm _ _ Ho)). apply (inv_hhdm _ (mm_pmm _ (ho_hm _ _ Ho))). }
  apply Z.mod_divide in Hh, Hp, Hd; [|lia..]. apply Z.mod_divide; [lia|].
  repeat apply Z.divide_add_r; [by etrans|by apply Z.divide_mul_l|done].
Qed.

(** The live blocks after one class changed: those of the other classes, and
    the objects of class [ci] that satisfy [P]. *)
Lemma live_change s s' G ci g' (P : Z -> Z -> Prop) :
  heap_ok s G -> small_class ci -> same_machine (mach s) (mach s') ->
  (forall f cj k, some_class cj -> cj <> ci -> f ∈ gall (G cj) -> 0 <= k < 512 -> hw s' f k = hw s f k) ->
  (forall f i, 0 <= i < nobjs ci -> f ∈ gall g' /\ obit s' f i = false <-> P f i) ->
  forall a n, live s' (gupd G ci g') a n <->
    (exists cj f i, cj <> ci /\ small_class cj /\ f ∈ gall (G cj) /\ 0 <= i < nobjs cj /\
       obit s f i = false /\ a = obj_addr s cj f i /\ n = csize cj) \/
    (exists f i, 0 <= i < nobjs ci /\ P f i /\ a = obj_addr s ci f i /\ n = csize ci).
Proof.
  intros Ho Hci Hm Hw HP a n.
  assert (Ha : forall cj f i, obj_addr s' cj f i = obj_addr s cj f i).
  { intros. unfold obj_addr. f_equal. f_equal. by apply frame_addr_same. }
  assert (Hb : forall cj f i, small_class cj -> cj <> ci -> f ∈ gall (G cj) -> 0 <= i < nobjs cj ->
    obit s' f i = obit s f i).
  { intros cj f i Hcj Hne Hf Hi. pose proof (class_header cj (small_some _ Hcj)).
    apply (obit_ext _ _ cj); [by apply small_some|done|]. intros k Hk.
    apply (Hw f cj); [by apply small_some|done|done|lia]. }
  unfold live. split.
  - intros (cj & f & i & Hcj & Hf & Hi & Hbit & -> & ->). rewrite Ha.
    destruct (decide (cj = ci)) as [->|Hne].
    + right. rewrite gupd_eq in Hf. exists f, i. split; [done|]. split; [|done]. by apply HP.
    + left. rewrite gupd_ne in Hf by done. exists cj, f, i. rewrite (Hb cj) in Hbit by done. done.
  - intros [(cj & f & i & Hne & Hcj & Hf & Hi & Hbit & -> & ->)|(f & i & Hi & Hp & -> & ->)].
    + exists cj, f, i. rewrite gupd_ne, (Hb cj), Ha by done. done.
    + apply HP in Hp as [Hf Hbit]; [|done]. exists ci, f, i. rewrite gupd_eq, Ha. done.
Qed.

(** The same description of the live blocks before the change. *)
Lemma live_split s G ci : small_class ci -> forall a n, live s G a n <->
    (exists cj f i, cj <> ci /\ small_class cj /\ f ∈ gall (G cj) /\ 0 <= i < nobjs cj /\
       obit s f i = false /\ a = obj_addr s cj f i /\ n = csize cj) \/
    (exists f i, 0 <= i < nobjs ci /\ (f ∈ gall (G ci) /\ obit s f i = false) /\
       a = obj_addr s ci f i /\ n = csize ci).
Proof.
  intros Hci a n. unfold live. split.
  - intros (cj & f & i & Hcj & Hf & Hi & Hb & -> & ->).
    destruct (decide (cj = ci)) as [->|Hne]; [right|left]; naive_solver.
  - intros [(cj & f & i & Hne & Hcj & Hf & Hi & Hb & -> & ->)|(f & i & Hi & [Hf Hb] & -> & ->)].
    + exists cj, f, i. done.
    + exists ci, f, i. done.
Qed.

Lemma live_same s s' G ci g' :
  heap_ok s G -> small_class ci -> same_machine (mach s) (mach s') ->
  (forall f cj k, some_class cj -> cj <> ci -> f ∈ gall (G cj) -> 0 <= k < 512 -> hw s' f k = hw s f k) ->
  (forall f i, 0 <= i < nobjs ci ->
     f ∈ gall g' /\ obit s' f i = false <-> f ∈ gall (G ci) /\ obit s f i = false) ->
  forall a n, live s' (gupd G ci g') a n <-> live s G a n.
Proof.
  intros Ho Hci Hm Hw HP a n. rewrite (live_split s G ci) by done. by apply live_change.
Qed.

Lemma ho_used s G cj h : heap_ok s G -> some_class cj -> h ∈ gall (G cj) -> h ∉ free (mach s).
Proof.
  intros Ho Hcj Hh. destruct (ho_cache _ _ Ho cj Hcj) as (c & _ & Hc).
  apply (so_used _ _ _ (co_slab _ _ _ _ Hc h Hh)).
Qed.

(** ** Choosing a slab *)

Record picked s G s' G' ci f : Prop := {
  pk_ok : heap_ok s' G';
  pk_head : exists rest, gp (G' ci) = f :: rest;
  pk_live a n : live s' G' a n <-> live s G a n;
  pk_mach : same_machine (mach s) (mach s');
  pk_body h k : 1 <= k < 512 -> h ∉ free (mach s) -> hw s' h k = hw s h k;
  pk_other h k : 0 <= k < 512 -> h ∉ free (mach s) -> ~ owned G h -> hw s' h k = hw s h k;
  pk_free h : h ∈ free (mach s') -> h ∈ free (mach s);
  pk_owned h : owned G' h -> owned G h \/ h ∈ free (mach s);
  pk_mono cj h : some_class cj -> h ∈ gall (G cj) -> h ∈ gall (G' cj)
}.

Lemma owned_gupd G ci g h : some_class ci ->
  owned (gupd G ci g) h -> h ∈ gall g \/ (exists cj, some_class cj /\ cj <> ci /\ h ∈ gall (G cj)).
Proof.
  intros Hci (cj & Hcj & Hh). unfold gupd in Hh. case_decide; [by left|right; eauto].
Qed.

Lemma set_head_static w p ci c : cache_static ci c -> cache_static ci (set_head w p c).
Proof. intros []. by split. Qed.

(** An empty slab becomes the partial one. *)
Lemma pick_empty s G ci c f el :
  heap_ok s G -> small_class ci -> caches s !! Z.to_nat ci = Some c -> cache_ok s ci c (G ci) ->
  gp (G ci) = [] -> ge (G ci) = f :: el ->
  let s' := hcaches (hput s f 0 NULL)
    (<[Z.to_nat ci := set_head Partial (addr s f) (set_head Empty (hw s f 0) c)]> (caches s)) in
  picked s G s' (gupd G ci (GL [f] (gf (G ci)) el)) ci f.
Proof.
  intros Ho Hci Hc Hcok Hgp Hge s'. pose proof (small_some ci Hci) as Hsc.
  pose proof (co_nodup _ _ _ _ Hcok) as Hnd. unfold gall in Hnd. rewrite Hgp, Hge in Hnd. simpl in Hnd.
  assert (Hin : f ∈ gall (G ci)) by (unfold gall; rewrite Hge; set_solver).
  pose proof (co_slab _ _ _ _ Hcok f Hin) as Hf.
  assert (Hs' : hm s') by apply (hm_put s f 0 NULL), (ho_hm _ _ Ho).
  assert (Hm : same_machine (mach s) (mach s')) by (by split).
  assert (Hw : forall h k, 0 <= k < 512 -> hw s' h k = if decide (h = f /\ k = 0) then NULL else hw s h k).
  { intros h k Hk. apply hw_put; lia. }
  assert (Hbody : forall h k, 1 <= k < 512 -> hw s' h k = hw s h k).
  { intros h k Hk. rewrite Hw, decide_False by lia. done. }
  assert (Hn : forall h, nfree s' h (nobjs ci) = nfree s h (nobjs ci)).
  { intros h. pose proof (class_header ci Hsc). apply nfree_same; [done|]. intros k Hk. apply Hbody. lia. }
  set (g' := GL [f] (gf (G ci)) el).
  assert (Hmem : forall h, h ∈ gall g' <-> h ∈ gall (G ci)).
  { intros h. unfold gall, g'. rewrite Hgp, Hge. simpl. set_solver. }
  assert (Hother : forall h cj k, some_class cj -> cj <> ci -> h ∈ gall (G cj) -> 0 <= k < 512 ->
    hw s' h k = hw s h k).
  { intros h cj k Hcj Hne Hh Hk. rewrite Hw by done. rewrite decide_False; [done|]. intros [-> ->].
    apply Hne. eapply (ho_disjoint _ _ Ho); eauto. }
  assert (Hcok' : cache_ok s' ci (set_head Partial (addr s f) (set_head Empty (hw s f 0) c)) g').
  { pose proof (co_empty _ _ _ _ Hcok) as Hce. rewrite Hge in Hce. destruct Hce as (_ & Hr & Hce).
    pose proof (co_cached _ _ _ _ Hcok) as Hl. rewrite Hge in Hl. simpl in Hl.
    assert (Hnf : f ∉ gf (G ci) /\ f ∉ el).
    { apply NoDup_app in Hnd as (_ & Hx & Hy). apply NoDup_cons in Hy as [Hy _].
      split; [|done]. intros Hz. apply (Hx f Hz). set_solver. }
    split; simpl.
    - apply set_head_static, set_head_static, Hcok.
    - split; [done|]. split; [done|]. rewrite Hw by lia. by rewrite decide_True.
    - eapply slab_chain_ext; [done| |apply Hcok]. intros h Hh. rewrite Hw, decide_False by (lia || set_solver). done.
    - eapply slab_chain_ext; [done| |done]. intros h Hh. rewrite Hw, decide_False by (lia || set_solver). done.
    - unfold gall, g'. simpl. by rewrite Permutation_middle.
    - intros h Hh. eapply slab_ok_ext; [done|done| | |by apply (co_slab _ _ _ _ Hcok), Hmem].
      + by apply (so_used _ _ _ (co_slab _ _ _ _ Hcok h (proj1 (Hmem h) Hh))).
      + intros k Hk. pose proof (class_header ci Hsc). apply Hbody. lia.
    - intros h ->%list_elem_of_singleton. rewrite Hn, (co_all _ _ _ _ Hcok) by (rewrite Hge; set_solver).
      pose proof (nobjs_range ci Hsc). lia.
    - intros h Hh. rewrite Hn. by apply (co_none _ _ _ _ Hcok).
    - intros h Hh. rewrite Hn. apply (co_all _ _ _ _ Hcok). rewrite Hge. set_solver.
    - lia. }
  split.
  - eapply (heap_ok_update s s' G ci);
      [done|done|done|done|done|reflexivity|done|by intros h Hh%Hmem; left|done|].
    intros h cj Hcj _ Hh. by apply (ho_used s G cj).
  - exists []. by rewrite gupd_eq.
  - apply live_same; [done..|]. intros h i Hi. rewrite Hmem.
    rewrite (obit_ext s s' ci); [done|done|done|]. intros k Hk. pose proof (class_header ci Hsc). apply Hbody. lia.
  - done.
  - intros h k Hk _. by apply Hbody.
  - intros h k Hk _ Hno. rewrite Hw, decide_False by (done || (intros [-> ->]; apply Hno; exists ci; done)). done.
  - done.
  - intros h [Hh|(cj & Hcj & _ & Hh)]%owned_gupd; [|by left; exists cj|done].
    left. exists ci. split; [done|]. by apply Hmem.
  - intros cj h Hcj Hh. unfold gupd. case_decide; [subst; by apply Hmem|done].
Qed.

(** A new slab becomes the partial one. *)
Lemma pick_born s s1 G ci c f :
  heap_ok s G -> small_class ci -> caches s !! Z.to_nat ci = Some c -> cache_ok s ci c (G ci) ->
  gp (G ci) = [] -> ge (G ci) = [] -> slab_born s s1 ci f ->
  let s' := hcaches s1 (<[Z.to_nat ci := set_head Partial (addr s f) c]> (caches s)) in
  picked s G s' (gupd G ci (GL [f] (gf (G ci)) [])) ci f.
Proof.
  intros Ho Hci Hc Hcok Hgp Hge [Bnew Bhm Bm Bfree Bca Bin Bw Bslab Bnext Bbits] s'.
  pose proof (small_some ci Hci) as Hsc. set (g' := GL [f] (gf (G ci)) []).
  pose proof (co_nodup _ _ _ _ Hcok) as Hnd. unfold gall in Hnd. rewrite Hgp, Hge in Hnd. simpl in Hnd.
  assert (Hmem : forall h, h ∈ gall g' <-> h = f \/ h ∈ gall (G ci)).
  { intros h. unfold gall, g'. rewrite Hgp, Hge. simpl. set_solver. }
  assert (Hnew : forall cj h, some_class cj -> h ∈ gall (G cj) -> h <> f).
  { intros cj h Hcj Hh ->. by apply (ho_used s G cj f). }
  assert (Hfree : forall h, h ∈ free (mach s') <-> h ∈ free (mach s) /\ h <> f).
  { intros h. change (free (mach s')) with (free (mach s1)). rewrite Bfree. set_solver. }
  assert (Hw : forall h k, 0 <= k < 512 -> h <> f -> hw s' h k = hw s h k) by done.
  assert (Hn : forall h, h <> f -> nfree s' h (nobjs ci) = nfree s h (nobjs ci)).
  { intros h Hh. pose proof (class_header ci Hsc). apply nfree_same; [done|]. intros k Hk. apply Hw; [lia|done]. }
  assert (Hslab' : slab_ok s' ci f).
  { apply (slab_ok_ext s1); [done|by split|apply Bslab|done|done]. }
  assert (Hcok' : cache_ok s' ci (set_head Partial (addr s f) c) g').
  { split; simpl.
    - apply set_head_static, Hcok.
    - split; [symmetry; by apply frame_addr_same|]. split; [apply Hslab'|done].
    - eapply slab_chain_ext; [done| |apply Hcok]. intros h Hh. apply Hw; [lia|].
      apply (Hnew ci); [done|]. unfold gall. set_solver.
    - pose proof (co_empty _ _ _ _ Hcok) as He. by rewrite Hge in He.
    - unfold gall, g'. simpl. apply NoDup_cons. split; [|done]. intros Hx.
      apply (Hnew ci f); [done| |done]. unfold gall. rewrite Hgp, Hge. done.
    - intros h [->|Hh]%Hmem; [done|]. pose proof (Hnew ci h Hsc Hh) as Hne.
      eapply slab_ok_ext; [done|done| | |by apply (co_slab _ _ _ _ Hcok)].
      + rewrite Hfree. intros [Hx _]. by apply (ho_used s G ci h).
      + intros k Hk. pose proof (class_header ci Hsc). apply Hw; [lia|done].
    - intros h ->%list_elem_of_singleton. pose proof (nobjs_range ci Hsc).
      change (nfree s' f (nobjs ci)) with (nfree s1 f (nobjs ci)). lia.
    - intros h Hh. rewrite Hn; [by apply (co_none _ _ _ _ Hcok)|].
      apply (Hnew ci); [done|]. unfold gall. set_solver.
    - set_solver.
    - lia. }
  split.
  - eapply (heap_ok_update s s' G ci);
      [done|done|done|done|done|reflexivity|done| | |].
    + intros h [->|Hh]%Hmem; [by right|by left].
    + intros h cj k Hcj Hne Hh Hk. apply Hw; [done|by apply (Hnew cj)].
    + intros h cj Hcj Hne Hh [Hx _]%Hfree. by apply (ho_used s G cj h).
  - exists []. by rewrite gupd_eq.
  - apply live_same; [done..| |].
    { intros h cj k Hcj Hne Hh Hk. apply Hw; [done|by apply (Hnew cj)]. }
    intros h i Hi. rewrite Hmem. split.
    + intros [[->|Hh] Hb].
      { pose proof (nobjs_range ci Hsc). change (obit s1 f i = false) in Hb.
        rewrite (nfree_full s1 f (nobjs ci)) in Hb; [done|lia|done|done]. }
      split; [done|]. rewrite (obit_ext s s' ci) in Hb; [done|done|done|]. intros k Hk.
      pose proof (class_header ci Hsc). apply Hw; [lia|by apply (Hnew ci)].
    + intros [Hh Hb]. split; [by right|]. rewrite (obit_ext s s' ci); [done|done|done|]. intros k Hk.
      pose proof (class_header ci Hsc). apply Hw; [lia|by apply (Hnew ci)].
  - done.
  - intros h k Hk Hh. apply Hw; [lia|]. intros ->. done.
  - intros h k Hk Hh _. apply Hw; [done|]. intros ->. done.
  - by intros h [Hh _]%Hfree.
  - intros h [[->|Hh]%Hmem|(cj & Hcj & _ & Hh)]%owned_gupd; [by right| | |done]; left.
    + by exists ci.
    + by exists cj.
  - intros cj h Hcj Hh. unfold gupd. case_decide; [subst; apply Hmem; by right|done].
Qed.

Lemma pick_slab_wp s G ci (Q : Z -> heap -> Prop) :
  heap_ok s G -> small_class ci ->
  (free (mach s) = ∅ -> Q NULL s) ->
  (forall s' G' f, picked s G s' G' ci f -> Q (addr s f) s') ->
  wp (pick_slab ci) Q s.
Proof.
  intros Ho Hci Hno Hyes. pose proof (small_some ci Hci) as Hsc.
  assert (Hci0 : 0 <= ci) by (unfold small_class in Hci; lia).
  destruct (ho_cache _ _ Ho ci Hsc) as (c & Hc & Hcok). pose proof (ho_hm _ _ Ho) as Hs.
  unfold pick_slab. wp_step. apply (wp_the_cache _ _ c); [done..|].
  pose proof (co_partial _ _ _ _ Hcok) as Hp. pose proof (co_empty _ _ _ _ Hcok) as He.
  destruct (gp (G ci)) as [|f rest] eqn:Egp; simpl in Hp.
  - rewrite Hp. simpl. destruct (ge (G ci)) as [|f el] eqn:Ege; simpl in He.
    + rewrite He. simpl. wp_step. apply (slab_create_wp s ci c); [done..|apply Hcok| |].
      * intros Hf. simpl. wp_step. by apply Hno.
      * intros s1 f Hb. rewrite addr_nz; [|done|by apply elem_of_free, Hb].
        wp_step. eapply wp_upd_cache; [done|rewrite (sb_caches _ _ _ _ Hb); done|]. wp_step.
        rewrite (sb_caches _ _ _ _ Hb). by eapply Hyes, pick_born.
    + destruct He as (Ep & Hr & Hch). rewrite Ep, addr_nz by done. cbn [negb]. wp_step.
      apply wp_slab_next; [done..|]. wp_step. apply (wp_upd_cache _ _ c); [done..|].
      wp_step. apply (wp_set_slab_next (hcaches s _) Hs f Hr). wp_step.
      assert (Hlt : (Z.to_nat ci < length (caches s))%nat) by (by eapply lookup_lt_Some).
      apply (wp_upd_cache _ _ (set_head Empty (hw s f 0) c)); [done| |].
      { simpl. by rewrite list_lookup_insert_eq. }
      wp_step. simpl. rewrite list_insert_insert_eq. eapply Hyes.
      exact (pick_empty s G ci c f el Ho Hci Hc Hcok Egp Ege).
  - destruct Hp as (Ep & Hr & _). rewrite Ep, addr_nz by done. wp_step.
    apply (Hyes s G f). split; try done; [by exists rest|by left].
Qed.

(** Stores to the objects of a slab leave the heap as it is. *)
Lemma heap_ok_data s s' G ci f : heap_ok s G -> small_class ci -> f ∈ gall (G ci) ->
  stored (fun h k => h = f /\ 4 + nwords ci <= k) s s' ->
  heap_ok s' G /\ forall a n, live s' G a n <-> live s G a n.
Proof.
  intros Ho Hci Hf St.
  assert (Hw : forall cj h k, some_class cj -> h ∈ gall (G cj) -> 0 <= k < 4 + nwords cj -> hw s' h k = hw s h k).
  { intros cj h k Hcj Hh Hk. pose proof (class_header cj Hcj). apply (st_words _ _ _ St); [lia|].
    intros [-> Hk']. assert (cj = ci) as -> by (eapply (ho_disjoint _ _ Ho); eauto using small_some). lia. }
  split.
  - split; [apply St|by rewrite (st_init _ _ _ St), (ho_init _ _ Ho)|
      by rewrite (top_same _ _ (st_mach _ _ _ St)); apply Ho| |apply Ho|apply Ho].
    intros cj Hcj. destruct (ho_cache _ _ Ho cj Hcj) as (c & Hc & Hcok). exists c.
    rewrite (st_caches _ _ _ St). split; [done|].
    eapply cache_ok_ext; [done|apply St|eauto| |done].
    intros h Hh. rewrite (stored_free _ _ _ St). by apply (ho_used s G cj).
  - assert (Hob : forall cj h i, small_class cj -> h ∈ gall (G cj) -> 0 <= i < nobjs cj -> obit s' h i = obit s h i).
    { intros cj h i Hcj Hh Hi. apply (obit_ext _ _ cj); [by apply small_some|done|]. intros k Hk.
      apply (Hw cj); [by apply small_some|done|lia]. }
    assert (Ha : forall cj h i, obj_addr s' cj h i = obj_addr s cj h i).
    { intros. unfold obj_addr. by rewrite (stored_addr _ _ _ h St). }
    intros a n. unfold live. split; intros (cj & h & i & Hcj & Hh & Hi & Hb & -> & ->);
      exists cj, h, i; rewrite ?Ha, ?(Hob cj) by done; rewrite ?(Hob cj) in Hb by done; done.
Qed.
