(* ===== verification/KmallocOps.v ===== *)
(** * The kernel heap: allocation and release

    The operations of a class change one slab and relink its lists;
    [slab_update] is the common argument.  Then [cache_alloc], the search for
    the owner of a pointer, and [cache_free]. *)

From stdpp Require Import base numbers list list_numbers gmap strings.
From S2P Require Import Prelude Bitmap Pmm PmmFacts PmmSpec Mmu PageTree MmuFacts MmuSpec.
From S2P Require Import Kmalloc KmallocFacts KmallocSpec.

Implicit Types (s : heap) (f h ci : Z) (G : ghost) (g : glists).

(** ** One slab changed *)

Record relinked s s' G ci (c' : cache) g' f : Prop := {
  rl_hm : hm s';
  rl_mach : same_machine (mach s) (mach s');
  rl_init : kmalloc_initialized s' = kmalloc_initialized s;
  rl_caches : caches s' = <[Z.to_nat ci := c']> (caches s);
  rl_static : cache_static ci c';
  rl_words h k : 0 <= k < 512 -> ~ (h = f /\ k < 4 + nwords ci) -> ~ (h ∈ gall (G ci) /\ k = 0) ->
    hw s' h k = hw s h k;
  rl_free h : h ∈ free (mach s') -> h ∈ free (mach s) \/ (h = f /\ f ∉ gall g');
  rl_nodup : NoDup (gall g');
  rl_partial : chain s' (c_partial c') (gp g');
  rl_full : chain s' (c_full c') (gf g');
  rl_empty : chain s' (c_empty c') (ge g');
  rl_rest h : h <> f -> (h ∈ gp g' <-> h ∈ gp (G ci)) /\ (h ∈ gf g' <-> h ∈ gf (G ci)) /\
    (h ∈ ge g' <-> h ∈ ge (G ci));
  rl_slab : f ∈ gall g' -> slab_ok s' ci f;
  rl_some : f ∈ gp g' -> 0 < nfree s' f (nobjs ci);
  rl_none : f ∈ gf g' -> nfree s' f (nobjs ci) = 0;
  rl_all : f ∈ ge g' -> nfree s' f (nobjs ci) = nobjs ci;
  rl_cached : (length (ge g') <= 2)%nat
}.

Section slab_update.
Context s s' G ci c' g' f (Ho : heap_ok s G) (Hci : small_class ci) (Hf : f ∈ gall (G ci))
  (Hr : relinked s s' G ci c' g' f).

#[local] Definition Hsc : some_class ci := small_some ci Hci.

Lemma rl_gall h : h <> f -> h ∈ gall g' <-> h ∈ gall (G ci).
Proof.
  intros Hh. destruct (rl_rest _ _ _ _ _ _ _ Hr h Hh) as (H1 & H2 & H3).
  unfold gall. by rewrite !elem_of_app, H1, H2, H3.
Qed.

Lemma rl_body h k : h <> f -> 1 <= k < 512 -> hw s' h k = hw s h k.
Proof. intros Hh Hk. apply (rl_words _ _ _ _ _ _ _ Hr); [lia|tauto|lia]. Qed.

Lemma rl_obit h i : h <> f -> 0 <= i < nobjs ci -> obit s' h i = obit s h i.
Proof.
  intros Hh Hi. pose proof (class_header ci Hsc). apply (obit_ext _ _ ci); [apply Hsc|done|].
  intros k Hk. apply rl_body; [done|lia].
Qed.

Lemma rl_foreign h cj k : some_class cj -> cj <> ci -> h ∈ gall (G cj) -> 0 <= k < 512 ->
  hw s' h k = hw s h k.
Proof.
  intros Hcj Hne Hh Hk.
  assert (Hn : h ∉ gall (G ci)) by (intros Hx; apply Hne; by eapply (ho_disjoint _ _ Ho); eauto using Hsc).
  apply (rl_words _ _ _ _ _ _ _ Hr); [done|intros [-> _]; done|tauto].
Qed.

Lemma rl_nfree h : h <> f -> nfree s' h (nobjs ci) = nfree s h (nobjs ci).
Proof. intros Hh. apply nfree_ext. intros i Hi. by apply rl_obit. Qed.

Lemma slab_update_ok : heap_ok s' (gupd G ci g').
Proof.
  destruct (ho_cache _ _ Ho ci Hsc) as (c & Hc & Hcok).
  assert (Hcok' : cache_ok s' ci c' g').
  { split; try apply Hr.
    - intros h Hh. destruct (decide (h = f)) as [->|Hne]; [by apply Hr|].
      apply (rl_gall h Hne) in Hh. pose proof (class_header ci Hsc).
      eapply slab_ok_ext; [apply Hsc|apply Hr| | |by apply (co_slab _ _ _ _ Hcok)].
      + intros [Hx|[-> _]]%(rl_free _ _ _ _ _ _ _ Hr); [|done]. by apply (ho_used s G ci h Ho Hsc).
      + intros k Hk. apply rl_body; [done|lia].
    - intros h Hh. destruct (decide (h = f)) as [->|Hne]; [by apply Hr|].
      rewrite rl_nfree by done. apply (co_some _ _ _ _ Hcok). by apply (rl_rest _ _ _ _ _ _ _ Hr h Hne).
    - intros h Hh. destruct (decide (h = f)) as [->|Hne]; [by apply Hr|].
      rewrite rl_nfree by done. apply (co_none _ _ _ _ Hcok). by apply (rl_rest _ _ _ _ _ _ _ Hr h Hne).
    - intros h Hh. destruct (decide (h = f)) as [->|Hne]; [by apply Hr|].
      rewrite rl_nfree by done. apply (co_all _ _ _ _ Hcok). by apply (rl_rest _ _ _ _ _ _ _ Hr h Hne). }
  eapply (heap_ok_update s s' G ci c'); [done|done|apply Hr|apply Hr|apply Hr|apply Hr|done|..].
  - intros h Hh. left. destruct (decide (h = f)) as [->|Hne]; [done|]. by apply rl_gall.
  - intros h cj k. apply rl_foreign.
  - intros h cj Hcj Hne Hh [Hx|[-> _]]%(rl_free _ _ _ _ _ _ _ Hr).
    + by apply (ho_used s G cj h Ho Hcj).
    + apply Hne. eapply (ho_disjoint _ _ Ho); [done|apply Hsc|done|done].
Qed.

(** The objects of class [ci] in use afterwards. *)
Lemma slab_update_objs h i : 0 <= i < nobjs ci ->
  h ∈ gall g' /\ obit s' h i = false <->
  (h <> f /\ h ∈ gall (G ci) /\ obit s h i = false) \/ (h = f /\ f ∈ gall g' /\ obit s' f i = false).
Proof.
  intros Hi. destruct (decide (h = f)) as [->|Hne]; [tauto|].
  rewrite rl_gall, rl_obit by done. tauto.
Qed.

(** Object [k] of slab [f] was taken. *)
Lemma slab_update_taken k : f ∈ gall g' -> 0 <= k < nobjs ci ->
  obit_changed s s' f (nobjs ci) k false ->
  forall a n, live s' (gupd G ci g') a n <->
    live s G a n \/ (a = obj_addr s ci f k /\ n = csize ci).
Proof.
  intros Hfg Hk Hb a n. rewrite (live_change s s' G ci g' _ Ho Hci (rl_mach _ _ _ _ _ _ _ Hr) rl_foreign slab_update_objs).
  rewrite (live_split s G ci Hci). split.
  - intros [H|(h & i & Hi & [(Hne & Hh & Hbit)|(-> & _ & Hbit)] & -> & ->)]; [by left; left| |].
    + left. right. exists h, i. done.
    + rewrite Hb in Hbit by done. case_decide; [subst; by right|]. left. right. exists f, i. done.
  - intros [[H|(h & i & Hi & [Hh Hbit] & -> & ->)]|[-> ->]]; [by left| |].
    + right. exists h, i. split; [done|]. split; [|done]. destruct (decide (h = f)) as [->|]; [|by left].
      right. split; [done|]. split; [done|]. rewrite Hb by done. by case_decide.
    + right. exists f, k. split; [done|]. split; [|done]. right. rewrite Hb, decide_True by done. done.
Qed.

(** Object [k] of slab [f] was given back. *)
Lemma slab_update_given k : 0 <= k < nobjs ci -> obit s f k = false ->
  (f ∈ gall g' -> obit_changed s s' f (nobjs ci) k true) ->
  (f ∉ gall g' -> forall i, 0 <= i < nobjs ci -> i <> k -> obit s f i = true) ->
  forall a n, live s' (gupd G ci g') a n <-> live s G a n /\ a <> obj_addr s ci f k.
Proof.
  intros Hk Hbk Hb Hgone a n.
  assert (Hlive : live s G (obj_addr s ci f k) (csize ci)) by (by exists ci, f, k).
  rewrite (live_change s s' G ci g' _ Ho Hci (rl_mach _ _ _ _ _ _ _ Hr) rl_foreign slab_update_objs).
  assert (Hinj : forall cj h i, small_class cj -> h ∈ gall (G cj) -> 0 <= i < nobjs cj ->
    obj_addr s cj h i = obj_addr s ci f k -> cj = ci /\ h = f /\ i = k).
  { intros cj h i Hcj Hh Hi E. pose proof (class_header cj (small_some _ Hcj)).
    pose proof (class_header ci Hsc).
    apply (obj_addr_inj s G cj h i ci f k (obj_addr s ci f k)); try done; lia. }
  rewrite (live_split s G ci Hci). split.
  - intros [(cj & h & i & Hne & Hcj & Hh & Hi & Hbit & -> & ->)|
            (h & i & Hi & [(Hne & Hh & Hbit)|(-> & Hfg & Hbit)] & -> & ->)].
    + split; [left; by exists cj, h, i|]. intros E. by apply (Hinj cj h i) in E as (-> & _).
    + split; [right; by exists h, i|]. intros E. by apply (Hinj ci h i) in E as (_ & -> & _).
    + rewrite (Hb Hfg) in Hbit by done. case_decide; [done|]. split; [right; by exists f, i|].
      intros E. by apply (Hinj ci f i) in E as (_ & _ & ->).
  - intros [[H|(h & i & Hi & [Hh Hbit] & -> & ->)] Hne]; [by left|]. right. exists h, i.
    split; [done|]. split; [|done]. destruct (decide (h = f)) as [->|]; [|by left].
    assert (i <> k) by congruence. right. split; [done|].
    destruct (decide (f ∈ gall g')) as [Hfg|Hfg].
    + split; [done|]. rewrite (Hb Hfg) by done. by case_decide.
    + rewrite (Hgone Hfg) in Hbit by done. done.
Qed.
End slab_update.

(** ** [cache_alloc] *)

Lemma objects_pointer s ci f : hm s -> small_class ci -> in_ram (mach s) f ->
  u64 (addr s f + hdr ci) = addr s f + hdr ci.
Proof.
  intros Hs Hci Hr. pose proof (class_fits ci Hci) as (Hfit & _).
  pose proof (class_header ci (small_some _ Hci)) as (Hh & _ & _ & Ho & Hsz & _).
  pose proof (direct_map_range (mach s) Hs). unfold in_ram, addr, frame_addr in *.
  pose proof (nobjs_range ci (small_some _ Hci)).
  assert (0 < nobjs ci * csize ci) by (apply Z.mul_pos_pos; lia). apply u64_id. lia.
Qed.

Lemma object_pointer s ci f i : hm s -> small_class ci -> in_ram (mach s) f -> 0 <= i < nobjs ci ->
  u64 (u64 (addr s f + hdr ci) + u64 (i * csize ci)) = obj_addr s ci f i.
Proof.
  intros Hs Hci Hr Hi. rewrite objects_pointer by done.
  pose proof (class_header ci (small_some _ Hci)) as (Hh & _ & Hw & _ & Hsz & _).
  pose proof (obj_in_page s ci f i Hci Hi) as Hp. unfold obj_addr in *.
  pose proof (direct_map_range (mach s) Hs). unfold in_ram, addr, frame_addr in *.
  assert (0 <= i * csize ci) by (apply Z.mul_nonneg_nonneg; lia).
  rewrite (u64_id (i * csize ci)) by lia. rewrite u64_id by lia. lia.
Qed.

(** The slab at the head of the partial list, after object [k] was marked. *)
Section after_mark.
Context s s1 G ci c f rest k (Ho : heap_ok s G) (Hci : small_class ci)
  (Hc : caches s !! Z.to_nat ci = Some c) (Hcok : cache_ok s ci c (G ci))
  (Hgp : gp (G ci) = f :: rest) (Hk : 0 <= k < nobjs ci) (Hbit : obit s f k = true)
  (Hm : marked s s1 ci f k false).

Lemma am_words h j : 0 <= j < 512 -> ~ (h = f /\ 2 <= j < 4 + nwords ci) -> hw s1 h j = hw s h j.
Proof. intros Hj Hn. by apply (st_words _ _ _ (mk_stored _ _ _ _ _ _ Hm)). Qed.

Lemma am_in : f ∈ gall (G ci).
Proof. unfold gall. rewrite Hgp. set_solver. Qed.

Lemma am_nodup : NoDup (f :: rest ++ gf (G ci) ++ ge (G ci)).
Proof. pose proof (co_nodup _ _ _ _ Hcok) as H. unfold gall in H. by rewrite Hgp in H. Qed.

Lemma am_stays : nfree s1 f (nobjs ci) <> 0 ->
  relinked s (hcaches s1 (<[Z.to_nat ci := count_alloc c]> (caches s))) G ci (count_alloc c) (G ci) f.
Proof.
  intros Hnz. pose proof (mk_stored _ _ _ _ _ _ Hm) as St. set (s' := hcaches _ _).
  pose proof am_nodup as Hnd. pose proof (nobjs_range ci (small_some _ Hci)).
  assert (Hch : forall p fs, chain s p fs -> chain s' p fs).
  { intros p fs. apply slab_chain_ext; [apply St|]. intros h Hh. apply am_words; lia. }
  split; try done; try apply St; try apply Hcok.
  - destruct (co_static _ _ _ _ Hcok). by split.
  - intros h j Hj Hn1 Hn2. apply am_words; [done|]. intros [-> ?]. apply Hn1. split; [done|lia].
  - intros h Hh. left. by rewrite <- (stored_free _ _ _ St).
  - apply Hch, Hcok.
  - apply Hch, Hcok.
  - apply Hch, Hcok.
  - intros _. apply (slab_ok_ext s1); [by apply small_some|by split|apply Hm|done|apply Hm].
  - intros _. pose proof (nfree_le s1 f (nobjs ci)).
    change (nfree s' f (nobjs ci)) with (nfree s1 f (nobjs ci)). lia.
  - intros Hx. exfalso. rewrite NoDup_cons in Hnd. set_solver.
  - intros Hx. exfalso. rewrite NoDup_cons in Hnd. set_solver.
Qed.

Lemma am_full : nfree s1 f (nobjs ci) = 0 ->
  let c' := count_alloc (set_head Full (addr s f) (set_head Partial (hw s1 f 0) c)) in
  relinked s (hcaches (hput s1 f 0 (c_full c)) (<[Z.to_nat ci := c']> (caches s))) G ci
    c' (GL rest (f :: gf (G ci)) (ge (G ci))) f.
Proof.
  intros Hz c'. pose proof (mk_stored _ _ _ _ _ _ Hm) as St. set (s' := hcaches _ _).
  pose proof am_nodup as Hnd. pose proof (nobjs_range ci (small_some _ Hci)).
  pose proof (proj1 (NoDup_cons _ _) Hnd) as [Hnf _].
  pose proof (class_header ci (small_some _ Hci)) as (_ & _ & Hnw & _).
  assert (Hm' : same_machine (mach s) (mach s')) by (etrans; [apply St|by split]).
  assert (Hw : forall h j, 0 <= j < 512 -> hw s' h j = if decide (h = f /\ j = 0) then c_full c else hw s1 h j).
  { intros h j Hj. apply hw_put; lia. }
  assert (Hch : forall p fs, f ∉ fs -> chain s p fs -> chain s' p fs).
  { intros p fs Hf. apply slab_chain_ext; [done|]. intros h Hh. rewrite Hw, decide_False by (lia || set_solver).
    apply am_words; lia. }
  pose proof (co_partial _ _ _ _ Hcok) as Hp. rewrite Hgp in Hp. destruct Hp as (_ & Hr & Hp).
  assert (Hin : in_ram (mach s') f) by (by apply (in_ram_same _ _ _ Hm')).
  split; simpl; try done.
  - apply hm_put, St.
  - apply St.
  - destruct (co_static _ _ _ _ Hcok). by split.
  - intros h j Hj Hn1 Hn2. rewrite Hw by done. rewrite decide_False by (intros [-> ->]; apply Hn1; lia).
    apply am_words; [done|]. intros [-> ?]. apply Hn1. split; [done|lia].
  - intros h Hh. left. by rewrite <- (stored_free _ _ _ St).
  - unfold gall. simpl. by rewrite <- Permutation_middle.
  - apply Hch; [set_solver|]. by rewrite am_words by lia.
  - split; [symmetry; by apply frame_addr_same|]. split; [done|].
    rewrite Hw, decide_True by (done || lia). apply Hch; [set_solver|apply Hcok].
  - apply Hch; [set_solver|apply Hcok].
  - intros h Hne. rewrite Hgp. set_solver.
  - intros _. apply (slab_ok_ext s1); [by apply small_some|by split|apply Hm| |apply Hm].
    pose proof (class_header ci (small_some _ Hci)). intros j Hj. rewrite Hw, decide_False by lia. done.
  - set_solver.
  - intros _. rewrite <- Hz. pose proof (class_header ci (small_some _ Hci)).
    apply nfree_same; [by apply small_some|]. intros j Hj.
    rewrite Hw, decide_False by lia. done.
  - set_solver.
  - apply Hcok.
Qed.
End after_mark.

(** Zeroing an object. *)
Lemma zero_words_wp s f o n (Q : unit -> heap -> Prop) :
  hm s -> in_ram (mach s) f -> 0 <= o -> 0 <= n -> o + n / 8 <= 512 ->
  (forall s', stored (fun h k => h = f /\ o <= k < o + n / 8) s s' ->
     (forall k, o <= k < o + n / 8 -> hw s' f k = 0) -> Q tt s') ->
  wp (zero_words (addr s f + 8 * o) n) Q s.
Proof.
  intros Hs Hr Ho Hn Hlim HQ. unfold zero_words.
  eapply wp_mono; [apply (wp_for_each (fun i _ s' =>
    stored (fun h k => h = f /\ o <= k < o + n / 8) s s' /\ forall k, o <= k < o + i -> hw s' f k = 0))|].
  - split; [by apply stored_refl|lia].
  - intros i [] s' Hi [St Hz].
    assert (He : entry (addr s f + 8 * o) i = entry (addr s' f) (o + i)).
    { rewrite (stored_addr _ _ _ f St). unfold entry. f_equal. lia. }
    rewrite He. apply wp_in_mach. apply wp_store_entry;
      [apply St|by apply (stored_in_ram _ _ _ f St)|lia|].
    change (Heap (put_word _ f (o + i) 0) _ _) with (hput s' f (o + i) 0).
    split; [apply stored_more; [done|lia|lia]|].
    intros k Hk. rewrite hw_put by lia. case_decide; [done|]. apply Hz. lia.
  - intros [] s' [St Hz]. apply HQ; [done|]. intros k Hk. apply Hz. lia.
Qed.

Lemma obj_word_split s ci f i : small_class ci -> 0 <= i < nobjs ci ->
  let o := (hdr ci + i * csize ci) / 8 in
  obj_addr s ci f i = addr s f + 8 * o /\ 8 * (csize ci / 8) = csize ci /\
  hdr ci <= 8 * o /\ 4 + nwords ci <= o /\ o + csize ci / 8 <= 512.
Proof.
  intros Hci Hi o. pose proof (class_header ci (small_some _ Hci)) as (Hh & Hm & _ & _ & Hsz & Hm').
  pose proof (obj_in_page s ci f i Hci Hi) as Hp. unfold obj_addr in *.
  assert (0 <= i * csize ci) by (apply Z.mul_nonneg_nonneg; lia).
  assert (H8 : (hdr ci + i * csize ci) mod 8 = 0).
  { rewrite Z.add_mod, Z.mul_mod, Hm, Hm', Z.mul_0_r by lia. done. }
  subst o. revert H8 Hm'. generalize (i * csize ci) (csize ci) H Hp Hh Hsz. clear. intros x y. intros. dlia.
Qed.

(** What an allocation of [n] bytes at [a] does to the heap. *)
Record allocated s G s' G' (a n : Z) (zero : bool) : Prop := {
  al_ok : heap_ok s' G';
  al_live b m : live s' G' b m <-> live s G b m \/ (b = a /\ m = n);
  al_new m : ~ live s G a m;
  al_mach : same_machine (mach s) (mach s');
  al_free h : h ∈ free (mach s') -> h ∈ free (mach s);
  al_owned h : owned G' h -> owned G h \/ h ∈ free (mach s);
  al_data h k : 0 <= k < 512 -> h ∉ free (mach s) ->
    (forall cj, some_class cj -> h ∈ gall (G cj) -> hdr cj <= 8 * k) ->
    ~ (zero = true /\ a <= addr s h + 8 * k < a + n) -> hw s' h k = hw s h k;
  al_zero h k : zero = true -> 0 <= k < 512 -> a <= addr s h + 8 * k < a + n -> hw s' h k = 0
}.

(** Taking object [k] of the slab at the head of the partial list, up to the
    zeroing. *)
Lemma taken_live s s' G ci c' g' f k : heap_ok s G -> small_class ci -> f ∈ gall (G ci) ->
  relinked s s' G ci c' g' f -> f ∈ gall g' -> free (mach s') = free (mach s) ->
  0 <= k < nobjs ci -> obit s f k = true -> obit_changed s s' f (nobjs ci) k false ->
  allocated s G s' (gupd G ci g') (obj_addr s ci f k) (csize ci) false.
Proof.
  intros Ho Hci Hf Hr Hg Hfree Hk Hbit Hb.
  pose proof (small_some ci Hci) as Hsc'. pose proof (class_header ci Hsc') as (Hh & _ & Hnw & _ & Hsz & _).
  split; try done.
  - by eapply slab_update_ok.
  - by eapply slab_update_taken.
  - intros m (cj & h & i & Hcj & Hin & Hi & Hbi & E & _).
    pose proof (class_header cj (small_some _ Hcj)).
    destruct (obj_addr_inj s G ci f k cj h i (obj_addr s ci f k)) as (<- & <- & <-); try done; try lia.
    congruence.
  - apply Hr.
  - by rewrite Hfree.
  - intros h [Hin|(cj & Hcj & _ & Hin)]%owned_gupd; [| |done]; left.
    + exists ci. split; [done|]. destruct (decide (h = f)) as [->|Hne]; [done|].
      by apply (rl_gall s s' G ci c' g' f Hr h Hne).
    + by exists cj.
  - intros h j Hj _ Hd _. apply (rl_words _ _ _ _ _ _ _ Hr); [done|..].
    + intros [-> Hlt]. specialize (Hd ci Hsc' Hf). lia.
    + intros [Hin ->]. specialize (Hd ci Hsc' Hin). lia.
Qed.

(** Zeroing the new block. *)
Lemma allocated_zero s G s1 G1 s' ci f k : small_class ci -> f ∈ gall (G1 ci) -> 0 <= k < nobjs ci ->
  let o := (hdr ci + k * csize ci) / 8 in
  allocated s G s1 G1 (obj_addr s ci f k) (csize ci) false ->
  stored (fun h j => h = f /\ o <= j < o + csize ci / 8) s1 s' ->
  (forall j, o <= j < o + csize ci / 8 -> hw s' f j = 0) ->
  allocated s G s' G1 (obj_addr s ci f k) (csize ci) true.
Proof.
  intros Hci Hf Hk o Hal St Hz. destruct (obj_word_split s ci f k Hci Hk) as (Ea & E8 & Hh & Hlo & Hhi).
  fold o in Ea, Hh, Hlo, Hhi.
  destruct (heap_ok_data s1 s' G1 ci f) as [Hok Hlive]; [apply Hal|done|done|..].
  { eapply stored_weaken, St. intros h j [-> Hj]. split; [done|lia]. }
  assert (Hword : forall h j, 0 <= j < 512 -> obj_addr s ci f k <= addr s h + 8 * j < obj_addr s ci f k + csize ci ->
    h = f /\ o <= j < o + csize ci / 8).
  { intros h j Hj Hb. pose proof (obj_in_page s ci f k Hci Hk).
    assert (h = f) as -> by (apply (same_page s h f (addr s h + 8 * j)); lia). split; [done|lia]. }
  split.
  - done.
  - intros b m. rewrite Hlive. apply Hal.
  - apply Hal.
  - etrans; [apply Hal|apply St].
  - intros h. rewrite (stored_free _ _ _ St). apply Hal.
  - apply Hal.
  - intros h j Hj Hn Hd Hz'. rewrite (st_words _ _ _ St) by (done || (intros [-> Hin]; apply Hz'; split; [done|lia])).
    apply (al_data _ _ _ _ _ _ _ Hal); [done..|]. by intros [? _].
  - intros h j _ Hj Hb. destruct (Hword h j Hj Hb) as [-> Hr]. by apply Hz.
Qed.

(** An allocation from the state the slab was picked in. *)
Lemma allocated_picked s G s1 G1 s' G' ci f a n z : picked s G s1 G1 ci f ->
  allocated s1 G1 s' G' a n z -> allocated s G s' G' a n z.
Proof.
  intros Hp Hal. assert (Ha : forall h, addr s1 h = addr s h) by (intros h; by apply frame_addr_same, Hp).
  split.
  - apply Hal.
  - intros b m. rewrite (al_live _ _ _ _ _ _ _ Hal), (pk_live _ _ _ _ _ _ Hp). done.
  - intros m Hl. apply (al_new _ _ _ _ _ _ _ Hal m). by apply (pk_live _ _ _ _ _ _ Hp).
  - etrans; [apply Hp|apply Hal].
  - intros h Hh. by apply (pk_free _ _ _ _ _ _ Hp), (al_free _ _ _ _ _ _ _ Hal).
  - intros h Hh. apply (al_owned _ _ _ _ _ _ _ Hal) in Hh as [Hh|Hh].
    + by apply (pk_owned _ _ _ _ _ _ Hp).
    + right. by apply (pk_free _ _ _ _ _ _ Hp).
  - intros h k Hk Hn Hd Hz. rewrite (al_data _ _ _ _ _ _ _ Hal); [|done|..].
    + destruct (decide (k = 0)) as [->|]; [|apply (pk_body _ _ _ _ _ _ Hp); [lia|done]].
      apply (pk_other _ _ _ _ _ _ Hp); [done|done|]. intros (cj & Hcj & Hh).
      specialize (Hd cj Hcj Hh). pose proof (class_header cj Hcj). lia.
    + intros Hx. by apply Hn, (pk_free _ _ _ _ _ _ Hp).
    + intros cj Hcj Hh. destruct (pk_owned _ _ _ _ _ _ Hp h) as [(ck & Hck & Hx)|]; [by exists cj| |done].
      assert (cj = ck) as -> by (eapply (ho_disjoint _ _ (pk_ok _ _ _ _ _ _ Hp)); eauto using pk_mono).
      by apply Hd.
    + by rewrite Ha.
  - intros h k Hz Hk Hr. apply (al_zero _ _ _ _ _ _ _ Hal); [done|done|]. by rewrite Ha.
Qed.

Lemma marked_obit s s1 s2 ci f k b : some_class ci -> marked s s1 ci f k b ->
  (forall j, 4 <= j < 4 + nwords ci -> hw s2 f j = hw s1 f j) -> obit_changed s s2 f (nobjs ci) k b.
Proof.
  intros Hci Hm Hw j Hj. rewrite <- (mk_bits _ _ _ _ _ _ Hm) by done. by apply (obit_ext _ _ ci).
Qed.

(** The list movement and the count of [cache_alloc]. *)
Lemma alloc_finish {X : Type} s s1 G ci c f rest k (K : HM X) (Q : X -> heap -> Prop) :
  heap_ok s G -> small_class ci -> caches s !! Z.to_nat ci = Some c -> cache_ok s ci c (G ci) ->
  gp (G ci) = f :: rest -> 0 <= k < nobjs ci -> obit s f k = true -> marked s s1 ci f k false ->
  (forall s' G', allocated s G s' G' (obj_addr s ci f k) (csize ci) false -> f ∈ gall (G' ci) -> wp K Q s') ->
  wp (n <- slab_free_count (addr s f) ;;
      (if n =? 0 then
         nx <- slab_next (addr s f) ;;
         upd_cache ci (set_head Partial nx) ;;;
         c <- the_cache ci ;;
         set_slab_next (addr s f) (c_full c) ;;;
         upd_cache ci (set_head Full (addr s f))
       else ret tt) ;;;
      upd_cache ci count_alloc ;;; K) Q s1.
Proof.
  intros Ho Hci Hc Hcok Hgp Hk Hbit Hm HQ. pose proof (mk_stored _ _ _ _ _ _ Hm) as St.
  assert (Hci0 : 0 <= ci) by (unfold small_class in Hci; lia).
  pose proof (small_some ci Hci) as Hsc'. pose proof (class_header ci Hsc') as (_ & _ & Hnw & _).
  assert (Hf : f ∈ gall (G ci)) by (unfold gall; rewrite Hgp; set_solver).
  assert (Hr1 : in_ram (mach s1) f) by apply Hm.
  assert (Hc1 : caches s1 !! Z.to_nat ci = Some c) by (by rewrite (st_caches _ _ _ St)).
  assert (Hlt : (Z.to_nat ci < length (caches s))%nat) by (by eapply lookup_lt_Some).
  rewrite <- (stored_addr _ _ _ f St). wp_step. apply wp_slab_free_count; [apply St|done|].
  rewrite (slab_free_count_eq _ ci) by (done || apply Hm). wp_step.
  destruct (Z.eqb_spec (nfree s1 f (nobjs ci)) 0) as [E|E].
  - wp_step. apply wp_slab_next; [apply St|done|]. wp_step. apply (wp_upd_cache _ _ c); [done..|].
    rewrite (st_caches _ _ _ St). wp_step.
    apply (wp_the_cache _ _ (set_head Partial (hw s1 f 0) c));
      [done|by simpl; rewrite list_lookup_insert_eq|].
    wp_step. apply (wp_set_slab_next (hcaches s1 _) (st_hm _ _ _ St) f Hr1).
    apply (wp_upd_cache _ _ (set_head Partial (hw s1 f 0) c));
      [done|by simpl; rewrite list_lookup_insert_eq|].
    simpl. rewrite list_insert_insert_eq.
    wp_step. eapply wp_upd_cache; [done|by simpl; rewrite list_lookup_insert_eq|]. simpl.
    rewrite list_insert_insert_eq, (stored_addr _ _ _ f St).
    apply (HQ _ (gupd G ci (GL rest (f :: gf (G ci)) (ge (G ci))))).
    + eapply taken_live; [done..|by eapply (am_full s s1 G ci c f rest k)| | | | |]; try done.
      * unfold gall. set_solver.
      * apply (stored_free _ _ _ St).
      * eapply marked_obit; [done..|]. intros j Hj. etrans; [apply (hw_put s1); lia|].
        by rewrite decide_False by lia.
    + rewrite gupd_eq. unfold gall. set_solver.
  - wp_step. wp_step. apply (wp_upd_cache _ _ c); [done..|]. rewrite (st_caches _ _ _ St).
    apply (HQ _ (gupd G ci (G ci))).
    + eapply taken_live; [done..|by eapply (am_stays s s1 G ci c f rest k)| | | | |]; try done.
      * apply (stored_free _ _ _ St).
      * by eapply marked_obit.
    + by rewrite gupd_eq.
Qed.

Lemma cache_alloc_wp s G ci flags (Q : Z -> heap -> Prop) :
  heap_ok s G -> small_class ci ->
  (free (mach s) = ∅ -> Q NULL s) ->
  (forall s' G' a, allocated s G s' G' a (csize ci) (flag flags KMALLOC_ZERO) -> Q a s') ->
  wp (cache_alloc ci flags) Q s.
Proof.
  intros Ho0 Hci Hno Hyes. unfold cache_alloc. wp_step.
  apply (pick_slab_wp s G); [done..|by intros He; simpl; wp_step; apply Hno|].
  intros s1 G1 f Hp. pose proof (pk_ok _ _ _ _ _ _ Hp) as Ho. pose proof (small_some ci Hci) as Hsc'.
  destruct (pk_head _ _ _ _ _ _ Hp) as [rest Hgp]. destruct (ho_cache _ _ Ho ci Hsc') as (c & Hc & Hcok).
  assert (Hf : f ∈ gall (G1 ci)) by (unfold gall; rewrite Hgp; set_solver).
  pose proof (co_slab _ _ _ _ Hcok f Hf) as Hslab. pose proof (ho_hm _ _ Ho) as Hs.
  assert (Hci0 : 0 <= ci) by (unfold small_class in Hci; lia).
  replace (addr s f) with (addr s1 f) by apply (frame_addr_same _ _ f (pk_mach _ _ _ _ _ _ Hp)).
  rewrite addr_nz by (done || apply Hslab).
  wp_step. apply (slab_find_free_wp s1 ci c); [done..|apply Hcok|done| |].
  { apply (co_some _ _ _ _ Hcok). rewrite Hgp. set_solver. }
  intros k Hk Hbit. rewrite (proj2 (Z.ltb_ge k 0)) by lia.
  pose proof (class_header ci Hsc') as (_ & _ & Hnw & Hno' & Hsz & _).
  wp_step. apply wp_bitmap_word; [done|apply Hslab|apply Hslab|dlia|].
  rewrite flag_bit by dlia. fold (obit s1 f k). rewrite Hbit. cbn [negb].
  wp_step. apply (wp_the_cache _ _ c); [done..|]. wp_step. apply wp_slab_objects; [done|apply Hslab|].
  rewrite (so_objects _ _ _ Hslab), (cs_size _ _ (co_static _ _ _ _ Hcok)).
  rewrite object_pointer by (done || apply Hslab). cbv zeta.
  wp_step. apply (slab_mark_allocated_wp s1 ci); [done..|]. intros s2 Hm.
  eapply alloc_finish; [done..|]. intros s3 G3 Hal Hf3.
  destruct (flag flags KMALLOC_ZERO).
  - wp_step. destruct (obj_word_split s1 ci f k Hci Hk) as (Ea & E8 & Hh & Hlo & Hhi).
    assert (Ha : addr s3 f = addr s1 f) by apply frame_addr_same, Hal.
    rewrite Ea, <- Ha. apply zero_words_wp; [apply (ho_hm _ _ (al_ok _ _ _ _ _ _ _ Hal))| |lia|lia|done|].
    { apply (in_ram_same _ _ _ (al_mach _ _ _ _ _ _ _ Hal)), Hslab. }
    intros s4 St Hz. wp_step. rewrite Ha, <- Ea.
    eapply Hyes, allocated_picked; [done|]. by eapply allocated_zero.
  - wp_step. wp_step. by eapply Hyes, allocated_picked.
Qed.
