(* ===== verification/KmallocFree.v ===== *)
(** * The kernel heap: release

    The search for the slab of a pointer, and [cache_free]. *)

From stdpp Require Import base numbers list list_numbers gmap strings.
From S2P Require Import Prelude Bitmap Pmm PmmFacts PmmSpec Mmu PageTree MmuFacts MmuSpec.
From S2P Require Import Kmalloc KmallocFacts KmallocSpec KmallocOps.

Implicit Types (s : heap) (f h ci : Z) (G : ghost) (g : glists).

(** ** [find_allocation] *)

Section search.
Context s G (Ho : heap_ok s G).

Lemma in_slab_page_eq h a : in_ram (mach s) h ->
  in_slab_page (addr s h) a = bool_decide (addr s h <= a < addr s h + 4096).
Proof.
  intros Hr. pose proof (ho_top _ _ Ho). unfold in_slab_page, in_ram, addr, frame_addr, PAGE_SIZE in *.
  pose proof (direct_map_range (mach s) (ho_hm _ _ Ho)). rewrite u64_id by lia.
  case_bool_decide; lia.
Qed.

Lemma examine_out ci c h a : slab_ok s ci h -> ~ (addr s h <= a < addr s h + 4096) ->
  wp (examine_slab c a (addr s h)) (fun r s' => s' = s /\ r = inl tt) s.
Proof.
  intros Hh Hn. unfold examine_slab. rewrite in_slab_page_eq by apply Hh.
  rewrite bool_decide_eq_false_2 by done. by wp_step.
Qed.

Lemma examine_hit ci c f i : small_class ci -> cache_static ci c -> slab_ok s ci f -> 0 <= i < nobjs ci ->
  wp (examine_slab c (obj_addr s ci f i) (addr s f))
    (fun r s' => s' = s /\ r = inr (Some (addr s f, i))) s.
Proof.
  intros Hci Hst Hf Hi. pose proof (obj_in_page s ci f i Hci Hi) as Hp.
  pose proof (class_header ci (small_some _ Hci)) as (Hh & _ & Hnw & _ & Hsz & _).
  pose proof (nobjs_range ci (small_some _ Hci)).
  unfold examine_slab. rewrite in_slab_page_eq by apply Hf. rewrite bool_decide_eq_true_2 by lia.
  wp_step. apply wp_slab_objects; [apply Ho|apply Hf|].
  rewrite (so_objects _ _ _ Hf), objects_pointer by (done || apply Ho || apply Hf).
  unfold obj_addr at 1. assert (0 <= i * csize ci) by (apply Z.mul_nonneg_nonneg; lia).
  rewrite (proj2 (Z.ltb_ge _ _)) by lia. rewrite (cs_size _ _ Hst), (cs_objects _ _ Hst).
  replace (u64 (obj_addr s ci f i - (addr s f + hdr ci))) with (i * csize ci).
  2: { unfold obj_addr in *. rewrite u64_id by lia. lia. }
  rewrite Z_mod_mult, Z_div_mult by lia. cbn [negb Z.eqb]. rewrite s32_id by lia.
  rewrite (proj2 (Z.leb_le 0 i)) by lia. rewrite u32_small by lia. rewrite (proj2 (Z.ltb_lt i _)) by lia.
  simpl. by wp_step.
Qed.

(** Searching the two lists of a class: the exits of the loop body are [R]. *)
Lemma search_class ci c a (R : Z -> unit + option (Z * Z)) (Q : unit + option (Z * Z) -> heap -> Prop) :
  some_class ci -> cache_ok s ci c (G ci) ->
  (forall h, h ∈ gall (G ci) -> wp (examine_slab c a (addr s h)) (fun r s' => s' = s /\ r = R h) s) ->
  Q (first_exit R (gp (G ci) ++ gf (G ci))) s ->
  wp (r <- for_slabs (c_partial c) (examine_slab c a) ;;
      match r with
      | inr v => ret (inr v)
      | inl _ => for_slabs (c_full c) (examine_slab c a)
      end) Q s.
Proof.
  intros Hci Hcok HR HQ. pose proof (co_nodup _ _ _ _ Hcok) as Hnd.
  unfold gall in *. apply NoDup_app in Hnd as (Hnd1 & _ & Hnd). apply NoDup_app in Hnd as (Hnd2 & _ & _).
  wp_step. apply (for_slabs_wp s _ (gp (G ci)) _ R); [apply Ho|apply Hcok|done|intros h Hh; apply HR; set_solver|].
  assert (Happ : first_exit R (gp (G ci) ++ gf (G ci)) =
    match first_exit R (gp (G ci)) with inr v => inr v | inl _ => first_exit R (gf (G ci)) end).
  { clear. induction (gp (G ci)) as [|h l IH]; simpl; [done|]. by destruct (R h). }
  rewrite Happ in HQ. destruct (first_exit R (gp (G ci))) as [[]|v]; [|by wp_step].
  apply (for_slabs_wp s _ (gf (G ci)) _ R); [apply Ho|apply Hcok|done|intros h Hh; apply HR; set_solver|done].
Qed.

(** [a] is in no page of class [ci]. *)
Definition outside_class ci a : Prop :=
  forall h, h ∈ gall (G ci) -> ~ (addr s h <= a < addr s h + 4096).

Lemma search_out ci c a (Q : unit + option (Z * Z) -> heap -> Prop) :
  some_class ci -> cache_ok s ci c (G ci) -> outside_class ci a -> Q (inl tt) s ->
  wp (r <- for_slabs (c_partial c) (examine_slab c a) ;;
      match r with
      | inr v => ret (inr v)
      | inl _ => for_slabs (c_full c) (examine_slab c a)
      end) Q s.
Proof.
  intros Hci Hcok Hout HQ. apply (search_class ci c a (fun _ => inl tt)); [done..| |].
  - intros h Hh. eapply examine_out; [by apply (co_slab _ _ _ _ Hcok)|by apply Hout].
  - by rewrite first_exit_none.
Qed.

Lemma find_allocation_out a (Q : option (Z * Z * Z) -> heap -> Prop) :
  a <> NULL -> (forall ci, some_class ci -> outside_class ci a) -> Q None s ->
  wp (find_allocation a) Q s.
Proof.
  intros Ha Hout HQ. unfold find_allocation. rewrite (proj2 (Z.eqb_neq _ _) Ha). wp_step.
  eapply wp_mono; [apply (wp_for_range (fun _ _ s' => s' = s) (fun _ _ => False)); [done|]|].
  - intros ci [] s' Hci ->. assert (Hsc' : some_class ci) by (unfold some_class, CACHE_COUNT in *; lia).
    destruct (ho_cache _ _ Ho ci Hsc') as (c & Hc & Hcok).
    wp_step. apply (wp_the_cache _ _ c); [lia|done|].
    assert (Hs := search_out ci c a (fun r s' => s' = s /\ r = inl tt) Hsc' Hcok (Hout ci Hsc') (conj eq_refl eq_refl)).
    apply wp_bind_inv in Hs. wp_step. eapply wp_mono; [exact Hs|].
    intros r s' Hr. wp_step. eapply wp_mono; [exact Hr|]. intros r' s'' [-> ->]. by wp_step.
  - intros [[]|v] s' E; [|done]. simpl in E. subst. by wp_step.
Qed.

Lemma find_allocation_hit ci f i (Q : option (Z * Z * Z) -> heap -> Prop) :
  small_class ci -> f ∈ gp (G ci) ++ gf (G ci) -> 0 <= i < nobjs ci ->
  Q (Some (ci, addr s f, i)) s -> wp (find_allocation (obj_addr s ci f i)) Q s.
Proof.
  intros Hci Hf Hi HQ. set (a := obj_addr s ci f i). pose proof (small_some ci Hci) as Hsc'.
  assert (Hfa : f ∈ gall (G ci)) by (unfold gall; set_solver).
  pose proof (obj_in_page s ci f i Hci Hi) as Hp. fold a in Hp.
  pose proof (class_header ci Hsc') as (_ & _ & _ & _ & Hsz & _).
  assert (Hout : forall cj h, some_class cj -> h ∈ gall (G cj) -> h <> f -> ~ (addr s h <= a < addr s h + 4096)).
  { intros cj h Hcj Hh Hne Hr. apply Hne. apply (same_page s h f a); lia. }
  unfold find_allocation. rewrite (proj2 (Z.eqb_neq a NULL)).
  2: { destruct (ho_cache _ _ Ho ci Hsc') as (c & _ & Hcok).
       pose proof (direct_map_range (mach s) (ho_hm _ _ Ho)).
       pose proof (so_ram _ _ _ (co_slab _ _ _ _ Hcok f Hfa)).
       unfold addr, frame_addr, in_ram, NULL in *. lia. }
  wp_step. eapply wp_mono; [apply (wp_for_range (fun j _ s' => s' = s /\ j <= ci)
    (fun v s' => s' = s /\ v = Some (ci, addr s f, i)))|].
  - split; [done|]. unfold some_class in Hsc'. lia.
  - intros cj [] s' Hcj [-> Hle]. assert (Hcj' : some_class cj) by (unfold some_class, CACHE_COUNT in *; lia).
    destruct (ho_cache _ _ Ho cj Hcj') as (c & Hc & Hcok). wp_step. apply (wp_the_cache _ _ c); [lia|done|].
    destruct (decide (cj = ci)) as [->|Hne].
    + assert (Hs : wp (r <- for_slabs (c_partial c) (examine_slab c a) ;;
        match r with inr v => ret (inr v) | inl _ => for_slabs (c_full c) (examine_slab c a) end)
        (fun r s' => s' = s /\ r = inr (Some (addr s f, i))) s).
      { apply (search_class ci c a (fun h => if decide (h = f) then inr (Some (addr s f, i)) else inl tt)); [done..| |].
        - intros h Hh. case_decide as E; [subst h|].
          + eapply examine_hit; [done|apply Hcok|by apply (co_slab _ _ _ _ Hcok)|done].
          + eapply examine_out; [by apply (co_slab _ _ _ _ Hcok)|by eapply Hout].
        - split; [done|]. apply (first_exit_one _ _ f); [done|by rewrite decide_True|].
          intros h _ Hh. by rewrite decide_False. }
      apply wp_bind_inv in Hs. wp_step. eapply wp_mono; [exact Hs|].
      intros r s' Hr. wp_step. eapply wp_mono; [exact Hr|]. intros r' s'' [-> ->]. by wp_step.
    + assert (Hoc : outside_class cj a).
      { intros h Hh. eapply Hout; eauto. intros ->. apply Hne. eapply (ho_disjoint _ _ Ho); eauto. }
      assert (Hs := search_out cj c a (fun r s' => s' = s /\ r = inl tt) Hcj' Hcok Hoc (conj eq_refl eq_refl)).
      apply wp_bind_inv in Hs. wp_step. eapply wp_mono; [exact Hs|].
      intros r s' Hr. wp_step. eapply wp_mono; [exact Hr|]. intros r' s'' [-> ->]. wp_step. split; [done|lia].
  - intros [[]|v] s' [-> Hv]; [|subst; by wp_step]. exfalso. unfold some_class, CACHE_COUNT in *. lia.
Qed.
End search.

(** ** [cache_free] *)

(** Object [k] of slab [f] is marked free, the release is counted, and the
    slab was taken out of the list [w], now [l1 ++ l2] from [p]. *)
Record unlinked s s' ci (c : cache) f k (w : slab_list) p (l1 l2 : list Z) : Prop := {
  ul_hm : hm s';
  ul_mach : same_machine (mach s) (mach s');
  ul_frames : frames (mach s') = frames (mach s);
  ul_init : kmalloc_initialized s' = kmalloc_initialized s;
  ul_caches : caches s' = <[Z.to_nat ci := set_head w p (count_free c)]> (caches s);
  ul_words h j : 0 <= j < 512 -> ~ (h = f /\ 2 <= j < 4 + nwords ci) -> ~ (h ∈ l1 /\ j = 0) ->
    hw s' h j = hw s h j;
  ul_chain : chain s' p (l1 ++ l2);
  ul_slab : slab_ok s' ci f;
  ul_bits : obit_changed s s' f (nobjs ci) k true
}.

(** A release of the block at [a]. *)
Record released s G s' G' (a : Z) : Prop := {
  re_ok : heap_ok s' G';
  re_live b m : live s' G' b m <-> live s G b m /\ b <> a;
  re_mach : same_machine (mach s) (mach s');
  re_free h : h ∈ free (mach s') -> h ∈ free (mach s) \/ owned G h;
  re_owned h : owned G' h -> owned G h;
  re_data h j : 0 <= j < 512 -> (forall cj, some_class cj -> h ∈ gall (G cj) -> hdr cj <= 8 * j) ->
    hw s' h j = hw s h j
}.

Section release.
Context s G ci c f k (Ho : heap_ok s G) (Hci : small_class ci)
  (Hc : caches s !! Z.to_nat ci = Some c) (Hcok : cache_ok s ci c (G ci))
  (Hf : f ∈ gall (G ci)) (Hk : 0 <= k < nobjs ci) (Hbit : obit s f k = false).

Lemma released_intro s' c' g' : relinked s s' G ci c' g' f ->
  (f ∈ gall g' -> obit_changed s s' f (nobjs ci) k true) ->
  (f ∉ gall g' -> forall i, 0 <= i < nobjs ci -> i <> k -> obit s f i = true) ->
  released s G s' (gupd G ci g') (obj_addr s ci f k).
Proof.
  intros Hr Hb Hgone. pose proof (small_some ci Hci) as Hsc'.
  pose proof (class_header ci Hsc') as (Hh & _ & Hnw & _).
  split.
  - by eapply slab_update_ok.
  - by eapply slab_update_given.
  - apply Hr.
  - intros h [Hh'|[-> _]]%(rl_free _ _ _ _ _ _ _ Hr); [by left|right; by exists ci].
  - intros h [Hin|(cj & Hcj & _ & Hin)]%owned_gupd; [| |done].
    + exists ci. split; [done|]. destruct (decide (h = f)) as [->|Hne]; [done|].
      by apply (rl_gall s s' G ci c' g' f Hr h Hne).
    + by exists cj.
  - intros h j Hj Hd. apply (rl_words _ _ _ _ _ _ _ Hr); [done|..].
    + intros [-> Hlt]. specialize (Hd ci Hsc' Hf). lia.
    + intros [Hin ->]. specialize (Hd ci Hsc' Hin). lia.
Qed.

Lemma unlinked_nfree s' w p l1 l2 : unlinked s s' ci c f k w p l1 l2 ->
  nfree s' f (nobjs ci) = nfree s f (nobjs ci) + 1.
Proof. intros Hu. by eapply nfree_given; [apply Hu|..]. Qed.

Lemma count_free_static : cache_static ci (count_free c).
Proof. destruct (co_static _ _ _ _ Hcok). by split. Qed.

(** The chain of a list that has neither [f] nor a slab of [l1]. *)
Lemma unlinked_chain s' w p l1 l2 q fs : unlinked s s' ci c f k w p l1 l2 ->
  (forall h, h ∈ fs -> h ∉ l1) -> chain s q fs -> chain s' q fs.
Proof.
  intros Hu Hd. apply slab_chain_ext; [apply Hu|]. intros h Hh. apply (ul_words _ _ _ _ _ _ _ _ _ _ Hu); [lia|lia|].
  intros [Hx _]. by apply (Hd h).
Qed.

(** The slab stays on the partial list. *)
Lemma release_stays s1 : marked s s1 ci f k true -> f ∈ gp (G ci) ->
  relinked s (hcaches s1 (<[Z.to_nat ci := count_free c]> (caches s))) G ci (count_free c) (G ci) f.
Proof.
  intros Hm Hgp. pose proof (mk_stored _ _ _ _ _ _ Hm) as St. set (s' := hcaches _ _).
  pose proof (co_nodup _ _ _ _ Hcok) as Hnd. unfold gall in Hnd. apply NoDup_app in Hnd as (_ & Hx & _).
  assert (Hch : forall q fs, chain s q fs -> chain s' q fs).
  { intros q fs. apply slab_chain_ext; [apply St|]. intros h Hh. apply (st_words _ _ _ St); [lia|].
    intros [_ ?]. lia. }
  assert (Hn : nfree s1 f (nobjs ci) = nfree s f (nobjs ci) + 1) by (by eapply nfree_given; [apply Hm|..]).
  split; try done; try apply St; try apply Hcok.
  - apply count_free_static.
  - intros h j Hj Hn1 Hn2. apply (st_words _ _ _ St); [done|]. intros [-> ?]. apply Hn1. split; [done|lia].
  - intros h Hh. left. by rewrite <- (stored_free _ _ _ St).
  - apply Hch, Hcok.
  - apply Hch, Hcok.
  - apply Hch, Hcok.
  - intros _. apply (slab_ok_ext s1); [by apply small_some|by split|apply Hm|done|apply Hm].
  - intros _. pose proof (nobjs_range ci (small_some _ Hci)). pose proof (nfree_le s f (nobjs ci)).
    change (nfree s' f (nobjs ci)) with (nfree s1 f (nobjs ci)). lia.
  - intros Hy. exfalso. apply (Hx f Hgp). set_solver.
  - intros Hy. exfalso. apply (Hx f Hgp). set_solver.
Qed.

(** What linking [f] back in front of a list whose head is [q] changes. *)
Section push.
Context s3 w p l1 l2 (Hu : unlinked s s3 ci c f k w p l1 l2) (Hl : forall h, h ∈ l1 -> h ∈ gall (G ci) /\ h <> f)
  (q : Z) (c4 : cache) (Hst : cache_static ci c4).

Let s4 := hcaches (hput s3 f 0 q) (<[Z.to_nat ci := c4]> (caches s)).

Lemma push_words h j : 0 <= j < 512 -> hw s4 h j = if decide (h = f /\ j = 0) then q else hw s3 h j.
Proof. intros Hj. apply hw_put; lia. Qed.

Lemma push_body h j : 1 <= j < 512 -> hw s4 h j = hw s3 h j.
Proof. intros Hj. rewrite push_words, decide_False by lia. done. Qed.

Lemma push_slab : slab_ok s4 ci f.
Proof.
  pose proof (class_header ci (small_some _ Hci)).
  apply (slab_ok_ext s3); [by apply small_some|by split|apply Hu| |apply Hu].
  intros j Hj. apply push_body. lia.
Qed.

Lemma push_bits : obit_changed s s4 f (nobjs ci) k true.
Proof.
  pose proof (class_header ci (small_some _ Hci)).
  intros j Hj. rewrite <- (ul_bits _ _ _ _ _ _ _ _ _ _ Hu) by done.
  apply (obit_ext _ _ ci); [by apply small_some|done|]. intros m Hm. apply push_body. lia.
Qed.

Lemma push_nfree : nfree s4 f (nobjs ci) = nfree s f (nobjs ci) + 1.
Proof. by apply (nfree_given s s4 f _ k); [apply push_bits|..]. Qed.

Lemma push_mach : same_machine (mach s) (mach s4).
Proof. etrans; [apply Hu|by split]. Qed.

Lemma push_chain r fs : f ∉ fs -> chain s3 r fs -> chain s4 r fs.
Proof.
  intros Hn. apply slab_chain_ext; [by split|]. intros h Hh. rewrite push_words by lia.
  rewrite decide_False; [done|]. by intros [-> _].
Qed.

Lemma push_head fs : f ∉ fs -> chain s3 q fs -> chain s4 (addr s f) (f :: fs).
Proof.
  intros Hn Hch. split; [symmetry; by apply frame_addr_same, push_mach|].
  split; [apply push_slab|]. rewrite push_words, decide_True by (done || lia). by apply push_chain.
Qed.

Lemma push_relinked g' : f ∈ gall g' -> NoDup (gall g') ->
  chain s4 (c_partial c4) (gp g') -> chain s4 (c_full c4) (gf g') -> chain s4 (c_empty c4) (ge g') ->
  (forall h, h <> f -> (h ∈ gp g' <-> h ∈ gp (G ci)) /\ (h ∈ gf g' <-> h ∈ gf (G ci)) /\
    (h ∈ ge g' <-> h ∈ ge (G ci))) ->
  f ∉ gf g' -> (f ∈ ge g' -> nfree s4 f (nobjs ci) = nobjs ci) -> (length (ge g') <= 2)%nat ->
  relinked s s4 G ci c4 g' f.
Proof.
  intros Hg Hnd H1 H2 H3 Hr Hnf Hall Hlen. pose proof (class_header ci (small_some _ Hci)) as (_ & _ & Hnw & _).
  split; try done.
  - apply hm_put, Hu.
  - apply push_mach.
  - apply Hu.
  - intros h j Hj Hn1 Hn2. rewrite push_words by done.
    rewrite decide_False by (intros [-> ->]; apply Hn1; split; [done|lia]).
    apply (ul_words _ _ _ _ _ _ _ _ _ _ Hu); [done|..].
    + intros [-> ?]. apply Hn1. split; [done|lia].
    + intros [Hx ->]. apply Hn2. split; [by apply Hl|done].
  - intros h Hh. left. change (free (mach s4)) with (free (mach s3)) in Hh. unfold free in *.
    by rewrite (ul_frames _ _ _ _ _ _ _ _ _ _ Hu) in Hh.
  - intros _. apply push_slab.
  - intros _. rewrite push_nfree. pose proof (nobjs_range ci (small_some _ Hci)).
    pose proof (nfree_le s f (nobjs ci)). lia.
Qed.
End push.
End release.

Lemma unlink_wp s s1 G ci c f k w l1 l2 (Q : unit -> heap -> Prop) :
  heap_ok s G -> small_class ci -> caches s !! Z.to_nat ci = Some c -> marked s s1 ci f k true ->
  chain s (head_of w c) (l1 ++ f :: l2) -> NoDup (l1 ++ f :: l2) ->
  (forall s' p, unlinked s s' ci c f k w p l1 l2 -> Q tt s') ->
  wp (slab_remove_from_list ci w (addr s f)) Q (hcaches s1 (<[Z.to_nat ci := count_free c]> (caches s))).
Proof.
  intros Ho Hci Hc Hm Hch Hnd HQ. pose proof (mk_stored _ _ _ _ _ _ Hm) as St. set (s2 := hcaches _ _).
  assert (Hci0 : 0 <= ci) by (unfold small_class in Hci; lia).
  pose proof (small_some ci Hci) as Hsc'. pose proof (class_header ci Hsc') as (_ & _ & Hnw & _).
  assert (Hlt : (Z.to_nat ci < length (caches s))%nat) by (by eapply lookup_lt_Some).
  assert (Hm2 : same_machine (mach s) (mach s2)) by apply St.
  replace (addr s f) with (addr s2 f) by (by apply frame_addr_same).
  apply (slab_remove_wp s2 ci (count_free c) w l1 f l2); [apply St|done| | |done|].
  { simpl. by rewrite list_lookup_insert_eq. }
  { assert (E : head_of w (count_free c) = head_of w c) by (by destruct w). rewrite E.
    eapply slab_chain_ext; [done| |done]. intros h Hh. apply (st_words _ _ _ St); [lia|]. intros [_ ?]. lia. }
  intros s3 p Hmv Hca Hch3. apply (HQ s3 p).
  assert (Hm3 : same_machine (mach s1) (mach s3)) by apply Hmv.
  assert (Hw : forall h j, 0 <= j < 512 -> ~ (h ∈ l1 /\ j = 0) -> hw s3 h j = hw s1 h j).
  { intros h j Hj Hn. by apply (st_words _ _ _ Hmv). }
  split.
  - apply Hmv.
  - etrans; [apply St|done].
  - etrans; [apply (st_frames _ _ _ Hmv)|apply St].
  - etrans; [apply (st_init _ _ _ Hmv)|apply St].
  - rewrite Hca. simpl. by rewrite list_insert_insert_eq.
  - intros h j Hj Hn1 Hn2. rewrite Hw by done. by apply (st_words _ _ _ St).
  - done.
  - apply (slab_ok_ext s1); [done|done| | |apply Hm].
    + intros Hx. apply (so_used _ _ _ (mk_ok _ _ _ _ _ _ Hm)).
      pose proof (stored_free _ _ _ Hmv) as E. change (free (mach s3) = free (mach s1)) in E. by rewrite <- E.
    + intros j Hj. apply Hw; lia.
  - eapply marked_obit; [done..|]. intros j Hj. apply Hw; lia.
Qed.

Lemma count_empty_wp s p el (Q : Z -> heap -> Prop) : hm s -> chain s p el -> (length el <= 2)%nat ->
  Q (Z.of_nat (length el)) s -> wp (count_empty p) Q s.
Proof.
  intros Hs Hch Hl HQ. unfold count_empty. destruct el as [|f [|h [|? ?]]]; simpl in *; [| | |lia].
  - subst p. simpl. by wp_step.
  - destruct Hch as (-> & Hr & E). rewrite addr_nz by done. wp_step. apply wp_slab_next; [done..|].
    rewrite E. simpl. by wp_step.
  - destruct Hch as (-> & Hr & E & Hr' & _). rewrite addr_nz by done. wp_step.
    apply wp_slab_next; [done..|]. rewrite E, addr_nz by done. wp_step.
    apply wp_slab_next; [done..|]. by wp_step.
Qed.

(** The slab was full: it goes to the front of the partial list. *)
Lemma release_to_partial s s3 G ci c f k p l1 l2 :
  heap_ok s G -> small_class ci -> cache_ok s ci c (G ci) -> gf (G ci) = l1 ++ f :: l2 ->
  0 <= k < nobjs ci -> obit s f k = false -> unlinked s s3 ci c f k Full p l1 l2 ->
  let c4 := set_head Partial (addr s f) (set_head Full p (count_free c)) in
  relinked s (hcaches (hput s3 f 0 (c_partial c)) (<[Z.to_nat ci := c4]> (caches s))) G ci c4
    (GL (f :: gp (G ci)) (l1 ++ l2) (ge (G ci))) f.
Proof.
  intros Ho Hci Hcok Egf Hk Hbit Hu c4. pose proof (co_nodup _ _ _ _ Hcok) as Hnd.
  unfold gall in Hnd. rewrite Egf in Hnd.
  assert (Hperm : gp (G ci) ++ (l1 ++ f :: l2) ++ ge (G ci) ≡ₚ f :: gp (G ci) ++ (l1 ++ l2) ++ ge (G ci)).
  { rewrite <- !app_assoc. simpl. by rewrite <- !Permutation_middle. }
  rewrite Hperm in Hnd. pose proof (proj1 (NoDup_cons _ _) Hnd) as [Hnf Hnd'].
  apply NoDup_app in Hnd' as (_ & Hd1 & Hnd2). apply NoDup_app in Hnd2 as (_ & Hd2 & _).
  assert (Hch : forall q fs, (forall h, h ∈ fs -> h ∉ l1) -> chain s q fs -> chain s3 q fs).
  { intros q fs. by eapply unlinked_chain. }
  pose proof (ul_chain _ _ _ _ _ _ _ _ _ _ Hu) as Hp.
  eapply push_relinked; try done.
  - intros h Hh. unfold gall. rewrite Egf. split; [set_solver|]. intros ->. set_solver.
  - apply set_head_static, set_head_static. by eapply count_free_static.
  - unfold gall. set_solver.
  - eapply push_head; try done; [set_solver|]. apply Hch; [|apply Hcok].
    intros h Hh Hx. apply (Hd1 h Hh). set_solver.
  - eapply push_chain; [set_solver|done].
  - eapply push_chain; [set_solver|]. apply Hch; [|apply Hcok].
    intros h Hh Hx. apply (Hd2 h); set_solver.
  - intros h Hh. rewrite Egf. set_solver.
  - set_solver.
  - set_solver.
  - apply Hcok.
Qed.

(** The slab is empty and goes to the empty list. *)
Lemma release_to_empty s s3 G ci c f k p l1 l2 :
  heap_ok s G -> small_class ci -> cache_ok s ci c (G ci) -> gp (G ci) = l1 ++ f :: l2 ->
  0 <= k < nobjs ci -> obit s f k = false -> unlinked s s3 ci c f k Partial p l1 l2 ->
  nfree s f (nobjs ci) + 1 = nobjs ci -> (length (ge (G ci)) < 2)%nat ->
  let c4 := set_head Empty (addr s f) (set_head Partial p (count_free c)) in
  relinked s (hcaches (hput s3 f 0 (c_empty c)) (<[Z.to_nat ci := c4]> (caches s))) G ci c4
    (GL (l1 ++ l2) (gf (G ci)) (f :: ge (G ci))) f.
Proof.
  intros Ho Hci Hcok Egp Hk Hbit Hu Hn Hlen c4. pose proof (co_nodup _ _ _ _ Hcok) as Hnd.
  unfold gall in Hnd. rewrite Egp in Hnd.
  assert (Hperm : (l1 ++ f :: l2) ++ gf (G ci) ++ ge (G ci) ≡ₚ f :: (l1 ++ l2) ++ gf (G ci) ++ ge (G ci)).
  { by rewrite <- Permutation_middle. }
  rewrite Hperm in Hnd. pose proof (proj1 (NoDup_cons _ _) Hnd) as [Hnf Hnd'].
  apply NoDup_app in Hnd' as (_ & Hd1 & Hnd2). apply NoDup_app in Hnd2 as (_ & Hd2 & _).
  assert (Hch : forall q fs, (forall h, h ∈ fs -> h ∉ l1) -> chain s q fs -> chain s3 q fs).
  { intros q fs. by eapply unlinked_chain. }
  pose proof (ul_chain _ _ _ _ _ _ _ _ _ _ Hu) as Hp.
  eapply push_relinked; try done.
  - intros h Hh. unfold gall. rewrite Egp. split; [set_solver|]. intros ->. set_solver.
  - apply set_head_static, set_head_static. by eapply count_free_static.
  - unfold gall. set_solver.
  - unfold gall. simpl. rewrite (app_assoc (l1 ++ l2)), <- Permutation_middle, <- app_assoc. done.
  - eapply push_chain; [set_solver|done].
  - eapply push_chain; [set_solver|]. apply Hch; [|apply Hcok].
    intros h Hh Hx. apply (Hd1 h); set_solver.
  - eapply push_head; try done; [set_solver|]. apply Hch; [|apply Hcok].
    intros h Hh Hx. apply (Hd1 h); set_solver.
  - intros h Hh. rewrite Egp. set_solver.
  - set_solver.
  - intros _. erewrite push_nfree; done.
Qed.

(** The slab is empty and its page goes back to the allocator of pages. *)
Lemma release_page s s3 G ci c f k p l1 l2 pm :
  heap_ok s G -> small_class ci -> cache_ok s ci c (G ci) -> gp (G ci) = l1 ++ f :: l2 ->
  0 <= k < nobjs ci -> obit s f k = false -> unlinked s s3 ci c f k Partial p l1 l2 ->
  pmm_inv pm -> same_layout (frames (mach s3)) pm -> abs_free pm = free (mach s3) ∪ {[f]} ->
  relinked s (with_frames s3 pm) G ci (set_head Partial p (count_free c))
    (GL (l1 ++ l2) (gf (G ci)) (ge (G ci))) f.
Proof.
  intros Ho Hci Hcok Egp Hk Hbit Hu Hpm Hl Hfree. pose proof (co_nodup _ _ _ _ Hcok) as Hnd.
  unfold gall in Hnd. rewrite Egp in Hnd.
  assert (Hperm : (l1 ++ f :: l2) ++ gf (G ci) ++ ge (G ci) ≡ₚ f :: (l1 ++ l2) ++ gf (G ci) ++ ge (G ci)).
  { by rewrite <- Permutation_middle. }
  rewrite Hperm in Hnd. pose proof (proj1 (NoDup_cons _ _) Hnd) as [Hnf Hnd'].
  pose proof Hnd' as Hnd0. apply NoDup_app in Hnd' as (_ & Hd1 & _).
  destruct (with_frames_ok s3 pm (ul_hm _ _ _ _ _ _ _ _ _ _ Hu) Hpm Hl) as [Hs4 Hm4].
  assert (Hch : forall q fs, (forall h, h ∈ fs -> h ∉ l1) -> chain s q fs -> chain (with_frames s3 pm) q fs).
  { intros q fs Hd Hx. apply (slab_chain_ext s3); [done|done|]. by eapply unlinked_chain. }
  assert (Hgone : f ∉ gall (GL (l1 ++ l2) (gf (G ci)) (ge (G ci)))) by done.
  split; simpl; try done.
  - etrans; [apply Hu|done].
  - apply Hu.
  - apply Hu.
  - apply set_head_static. by eapply count_free_static.
  - intros h j Hj Hn1 Hn2. apply (ul_words _ _ _ _ _ _ _ _ _ _ Hu); [done|..].
    + intros [-> ?]. apply Hn1. split; [done|lia].
    + intros [Hx ->]. apply Hn2. split; [|done]. unfold gall. rewrite Egp. set_solver.
  - intros h Hh. change (free (set_frames pm (mach s3))) with (abs_free pm) in Hh.
    rewrite Hfree in Hh. unfold free in *. rewrite (ul_frames _ _ _ _ _ _ _ _ _ _ Hu) in Hh. set_solver.
  - apply (slab_chain_ext s3); [done|done|apply Hu].
  - apply Hch; [|apply Hcok]. intros h Hh Hx. apply (Hd1 h); set_solver.
  - apply Hch; [|apply Hcok]. intros h Hh Hx. apply (Hd1 h); set_solver.
  - intros h Hh. rewrite Egp. set_solver.
  - intros Hx. exfalso. apply Hgone. unfold gall. set_solver.
  - intros Hx. exfalso. apply Hgone. unfold gall. set_solver.
  - intros Hx. exfalso. apply Hgone. unfold gall. set_solver.
  - apply Hcok.
Qed.

Lemma live_on_list s G ci c f k : small_class ci -> cache_ok s ci c (G ci) -> f ∈ gall (G ci) ->
  0 <= k < nobjs ci -> obit s f k = false -> f ∈ gp (G ci) ++ gf (G ci).
Proof.
  intros Hci Hcok Hf Hk Hb. unfold gall in Hf. rewrite app_assoc, elem_of_app in Hf.
  destruct Hf as [Hf|Hf]; [done|]. exfalso. pose proof (co_all _ _ _ _ Hcok f Hf) as Hn.
  rewrite (nfree_full s f (nobjs ci)) in Hb; [done|lia|done|done].
Qed.

(** The one object of an otherwise free slab. *)
Lemma last_object s f n k : 0 <= k < n -> obit s f k = false -> nfree s f n + 1 = n ->
  forall i, 0 <= i < n -> i <> k -> obit s f i = true.
Proof.
  intros Hk Hb Hn i Hi Hne. destruct (obit s f i) eqn:E; [done|]. exfalso.
  assert (Hsub : fobjs s f n ⊆ range_set 0 n ∖ {[i; k]}).
  { intros j. rewrite elem_of_fobjs, elem_of_difference, elem_of_range_set, elem_of_union, !elem_of_singleton.
    intros [Hj Hjb]. split; [lia|]. intros [->| ->]; congruence. }
  apply subseteq_size in Hsub. rewrite size_difference in Hsub.
  2: { intros j. rewrite elem_of_union, !elem_of_singleton, elem_of_range_set. lia. }
  rewrite size_union, !size_singleton in Hsub by set_solver.
  pose proof (size_range_set n). unfold nfree in Hn. lia.
Qed.

(** The list movement of [cache_free], after the object is marked free. *)
Section movement.
Context s s1 G ci c f k (Ho : heap_ok s G) (Hci : small_class ci)
  (Hc : caches s !! Z.to_nat ci = Some c) (Hcok : cache_ok s ci c (G ci))
  (Hf : f ∈ gall (G ci)) (Hk : 0 <= k < nobjs ci) (Hbit : obit s f k = false)
  (Hm : marked s s1 ci f k true) (Q : unit -> heap -> Prop)
  (HQ : forall s' G', released s G s' G' (obj_addr s ci f k) -> Q tt s').

Let s2 := hcaches s1 (<[Z.to_nat ci := count_free c]> (caches s)).

Lemma move_lookup (x : cache) : <[Z.to_nat ci := x]> (caches s) !! Z.to_nat ci = Some x.
Proof. apply list_lookup_insert_eq. by eapply lookup_lt_Some. Qed.

Lemma class_nonneg : 0 <= ci.
Proof. unfold small_class in Hci. lia. Qed.

Lemma gp_nodup : NoDup (gp (G ci)) /\ NoDup (gf (G ci)).
Proof.
  pose proof (co_nodup _ _ _ _ Hcok) as Hnd. unfold gall in Hnd.
  apply NoDup_app in Hnd as (H1 & _ & Hnd). by apply NoDup_app in Hnd as (H2 & _ & _).
Qed.

Lemma was_full_wp : f ∈ gf (G ci) ->
  wp (slab_remove_from_list ci Full (addr s f) ;;;
      c <- the_cache ci ;;
      set_slab_next (addr s f) (c_partial c) ;;;
      upd_cache ci (set_head Partial (addr s f))) Q s2.
Proof.
  intros Hgf. apply list_elem_of_split in Hgf as (l1 & l2 & Egf). pose proof (proj2 gp_nodup) as Hnd.
  rewrite Egf in Hnd. pose proof class_nonneg.
  wp_step. apply (unlink_wp s s1 G ci c f k Full l1 l2); [done..|rewrite <- Egf; apply Hcok|done|].
  intros s3 p Hu. pose proof (ul_caches _ _ _ _ _ _ _ _ _ _ Hu) as Ec. wp_step.
  apply (wp_the_cache _ _ (set_head Full p (count_free c))); [done|by rewrite Ec, move_lookup|].
  assert (Ha : addr s3 f = addr s f) by apply (frame_addr_same _ _ _ (ul_mach _ _ _ _ _ _ _ _ _ _ Hu)).
  rewrite <- Ha. wp_step. apply wp_set_slab_next; [apply Hu|apply (ul_slab _ _ _ _ _ _ _ _ _ _ Hu)|].
  eapply wp_upd_cache; [done|by simpl; rewrite Ec, move_lookup|].
  simpl. rewrite Ec, list_insert_insert_eq, Ha.
  eapply HQ. eapply released_intro; [done..|by eapply release_to_partial| |].
  - intros _. by eapply push_bits.
  - intros Hx. exfalso. apply Hx. unfold gall. set_solver.
Qed.

Lemma is_empty_wp : f ∈ gp (G ci) -> nfree s f (nobjs ci) + 1 = nobjs ci ->
  wp (slab_remove_from_list ci Partial (addr s f) ;;;
      c <- the_cache ci ;;
      empty_count <- count_empty (c_empty c) ;;
      if empty_count <? 2 then
        set_slab_next (addr s f) (c_empty c) ;;;
        upd_cache ci (set_head Empty (addr s f))
      else in_mach (in_frames (pmm_free (addr s f)))) Q s2.
Proof.
  intros Hgp Hn. apply list_elem_of_split in Hgp as (l1 & l2 & Egp). pose proof (proj1 gp_nodup) as Hnd.
  rewrite Egp in Hnd. pose proof class_nonneg.
  wp_step. apply (unlink_wp s s1 G ci c f k Partial l1 l2); [done..|rewrite <- Egp; apply Hcok|done|].
  intros s3 p Hu. pose proof (ul_caches _ _ _ _ _ _ _ _ _ _ Hu) as Ec. wp_step.
  apply (wp_the_cache _ _ (set_head Partial p (count_free c))); [done|by rewrite Ec, move_lookup|].
  assert (Ha : addr s3 f = addr s f) by apply (frame_addr_same _ _ _ (ul_mach _ _ _ _ _ _ _ _ _ _ Hu)).
  rewrite <- Ha. wp_step. pose proof (co_cached _ _ _ _ Hcok) as Hl.
  apply (count_empty_wp s3 _ (ge (G ci))); [apply Hu| |done|].
  { eapply unlinked_chain; [done| |apply Hcok]. intros h Hh Hx.
    pose proof (co_nodup _ _ _ _ Hcok) as Hnd'. unfold gall in Hnd'.
    apply NoDup_app in Hnd' as (_ & Hd & _). apply (Hd h); [rewrite Egp|]; set_solver. }
  destruct (Z.ltb_spec (Z.of_nat (length (ge (G ci)))) 2) as [Hlen|Hlen].
  - wp_step. apply wp_set_slab_next; [apply Hu|apply (ul_slab _ _ _ _ _ _ _ _ _ _ Hu)|].
    eapply wp_upd_cache; [done|by simpl; rewrite Ec, move_lookup|].
    simpl. rewrite Ec, list_insert_insert_eq, Ha. eapply HQ.
    eapply released_intro; [done..|eapply release_to_empty; try done; lia| |].
    + intros _. by eapply push_bits.
    + intros Hx. exfalso. apply Hx. unfold gall. set_solver.
  - apply wp_in_mach. apply wp_free_frame; [apply Hu|apply (ul_slab _ _ _ _ _ _ _ _ _ _ Hu)|].
    intros pm Hpm Hlay Hfree. eapply (HQ (with_frames s3 pm)).
    eapply released_intro; [done..|by eapply release_page| |].
    + intros Hx. exfalso. pose proof (co_nodup _ _ _ _ Hcok) as Hnd'. unfold gall in *. simpl in Hx.
      rewrite Egp, <- app_assoc in Hnd'. simpl in Hnd'. rewrite <- Permutation_middle in Hnd'.
      apply NoDup_cons in Hnd' as [Hnf _]. apply Hnf. by rewrite app_assoc.
    + intros _. by apply last_object.
Qed.
End movement.

Lemma cache_free_wp s G ci f k (Q : unit -> heap -> Prop) :
  heap_ok s G -> small_class ci -> f ∈ gall (G ci) -> 0 <= k < nobjs ci -> obit s f k = false ->
  (forall s' G', released s G s' G' (obj_addr s ci f k) -> Q tt s') ->
  wp (cache_free ci (addr s f) k) Q s.
Proof.
  intros Ho Hci Hf Hk Hbit HQ. pose proof (small_some ci Hci) as Hsc'.
  destruct (ho_cache _ _ Ho ci Hsc') as (c & Hc & Hcok). pose proof (ho_hm _ _ Ho) as Hs.
  pose proof (class_nonneg ci Hci).
  pose proof (co_slab _ _ _ _ Hcok f Hf) as Hslab. pose proof (class_header ci Hsc') as (_ & _ & Hnw & Hno & _).
  unfold cache_free, is_object_free. wp_step. wp_step. apply wp_bitmap_word; [done|apply Hslab|apply Hslab|dlia|].
  wp_step. rewrite flag_bit by dlia. fold (obit s f k). rewrite Hbit.
  wp_step. apply (slab_mark_free_wp s ci); [done..|]. intros s1 Hm. pose proof (mk_stored _ _ _ _ _ _ Hm) as St.
  wp_step. apply (wp_upd_cache _ _ c); [done|by rewrite (st_caches _ _ _ St)|]. rewrite (st_caches _ _ _ St).
  set (s2 := hcaches s1 _). assert (Hs2 : hm s2) by apply St.
  assert (Ha2 : addr s2 f = addr s f) by apply (stored_addr _ _ _ f St).
  assert (Hslab2 : slab_ok s2 ci f) by (apply (slab_ok_ext s1); [done|by split|apply Hm|done|apply Hm]).
  assert (Hn2 : nfree s2 f (nobjs ci) = nfree s f (nobjs ci) + 1) by (by eapply nfree_given; [apply Hm|..]).
  rewrite <- Ha2. wp_step. apply wp_slab_free_count; [done|apply Hslab2|].
  wp_step. apply wp_slab_total_count; [done|apply Hslab2|].
  rewrite (slab_free_count_eq _ ci), (slab_total_count_eq _ ci), Hn2 by done. rewrite Ha2.
  pose proof (live_on_list s G ci c f k Hci Hcok Hf Hk Hbit) as Hon. rewrite elem_of_app in Hon.
  destruct (Z.eqb_spec (nfree s f (nobjs ci) + 1) 1) as [E1|E1].
  - assert (Hgf : f ∈ gf (G ci)).
    { destruct Hon as [Hx|]; [|done]. pose proof (co_some _ _ _ _ Hcok f Hx). lia. }
    by eapply was_full_wp.
  - assert (Hgp : f ∈ gp (G ci)).
    { destruct Hon as [|Hx]; [done|]. pose proof (co_none _ _ _ _ Hcok f Hx). lia. }
    destruct (Z.eqb_spec (nfree s f (nobjs ci) + 1) (nobjs ci)) as [E2|E2].
    + by eapply is_empty_wp.
    + wp_step. eapply HQ. eapply released_intro; [done..|by eapply release_stays| |done].
      intros _. apply Hm.
Qed.

Lemma kfree_live_wp s G a n (Q : unit -> heap -> Prop) :
  heap_ok s G -> live s G a n -> (forall s' G', released s G s' G' a -> Q tt s') -> wp (kfree a) Q s.
Proof.
  intros Ho (ci & f & k & Hci & Hf & Hk & Hb & -> & ->) HQ. unfold kfree.
  destruct (ho_cache _ _ Ho ci (small_some _ Hci)) as (c & Hc & Hcok).
  assert (Hnz : obj_addr s ci f k <> NULL).
  { pose proof (obj_in_page s ci f k Hci Hk). pose proof (direct_map_range (mach s) (ho_hm _ _ Ho)).
    pose proof (so_ram _ _ _ (co_slab _ _ _ _ Hcok f Hf)). unfold addr, frame_addr, in_ram, NULL in *. lia. }
  rewrite (proj2 (Z.eqb_neq _ _) Hnz). wp_step.
  apply (find_allocation_hit s G Ho ci f k); [done|by eapply live_on_list|done|].
  by eapply cache_free_wp.
Qed.
