(* ===== verification/KmallocThms.v ===== *)
(** * The kernel heap: theorems

    The abstract heap is a finite map from the address of a live block to its
    size.  The calls of the interface refine it; every state reached by calls
    that release only live blocks keeps the blocks apart, in pages of its own,
    and answers the next call.  Then the behaviour outside of this contract:
    requests of more than 2048 bytes and repeated releases. *)

From stdpp Require Import base numbers list list_numbers gmap strings.
From S2P Require Import Prelude Bitmap Pmm PmmFacts PmmSpec Mmu PageTree MmuFacts MmuSpec MmuThms.
From S2P Require Import Kmalloc KmallocFacts KmallocSpec KmallocOps KmallocFree.

Implicit Types (s : heap) (f h ci : Z) (G : ghost).

(** ** Initialisation *)

Definition no_slabs : ghost := fun _ => GL [] [] [].

Definition boot_cache ci : cache :=
  cache_init (nth (Z.to_nat ci) cache_names EmptyString) (csize ci) (csize ci).

Record heap_boot s : Prop := {
  hb_hm : hm s;
  hb_init : kmalloc_initialized s = false;
  hb_top : direct_map (mach s) + 4096 * total_pages (frames (mach s)) < 2 ^ 64;
  hb_caches : length (caches s) = 10%nat
}.

Lemma boot_cache_static ci : some_class ci -> cache_static ci (boot_cache ci).
Proof. intros H. split; [done|done|]. simpl. by apply class_objects. Qed.

Lemma kmalloc_init_wp s (Q : unit -> heap -> Prop) : heap_boot s ->
  (forall s', mach s' = mach s -> heap_ok s' no_slabs -> Q tt s') -> wp kmalloc_init Q s.
Proof.
  intros [Hs Hi Ht Hl] HQ. unfold kmalloc_init. wp_step. wp_step. rewrite Hi. wp_step.
  eapply wp_mono; [apply (wp_for_each (fun i _ s' => mach s' = mach s /\ length (caches s') = 10%nat /\
    forall ci, 0 <= ci < i -> caches s' !! Z.to_nat ci = Some (boot_cache ci)))|].
  - split; [done|]. split; [done|lia].
  - intros i [] s' Hci (Hm & Hl' & Hd). unfold CACHE_COUNT in Hci.
    assert (Hsc' : some_class i) by done.
    assert (Hn : aread cache_names i = Ok (nth (Z.to_nat i) cache_names EmptyString) /\
                 aread cache_sizes i = Ok (csize i)).
    { clear -Hsc'. each_class i Hsc'; done. }
    destruct Hn as [Hn1 Hn2].
    wp_step. eapply wp_lift; [done|]. wp_step. eapply wp_lift; [done|].
    destruct (lookup_lt_is_Some_2 (caches s') (Z.to_nat i)) as [c Hc]; [lia|].
    apply (wp_upd_cache _ _ c); [lia|done|].
    split; [done|]. split; [simpl; by rewrite length_insert|]. intros ci Hci'. simpl.
    destruct (decide (ci = i)) as [->|]; [rewrite list_lookup_insert_eq by lia; done|].
    rewrite list_lookup_insert_ne by lia. apply Hd. lia.
  - intros [] s' (Hm & Hl' & Hd). wp_step. apply HQ; [done|].
    split; simpl; unfold hm; simpl; rewrite ?Hm; [done|done|done| |set_solver|done].
    intros ci Hci. exists (boot_cache ci). split; [apply Hd; unfold some_class, CACHE_COUNT in *; lia|].
    split; try done; [by apply boot_cache_static|by apply NoDup_nil|set_solver|set_solver|set_solver|set_solver|simpl; lia].
Qed.

(** ** The abstract heap *)

Inductive hcall :=
  | HAlloc (n flags : Z)
  | HAligned (n align : Z)
  | HFree (a : Z).

(** Requests of 1 to 2048 bytes; releases of live blocks or null. *)
Definition hcall_ok (H : gmap Z Z) (c : hcall) : Prop :=
  match c with
  | HAlloc n _ => 0 < n <= 2048
  | HAligned n al => 0 < n <= 2048 /\ 0 < al <= 2048
  | HFree a => a = NULL \/ is_Some (H !! a)
  end.

Definition run_hcall (c : hcall) : HM Z :=
  match c with
  | HAlloc n fl => kmalloc_flags n fl
  | HAligned n al => kmalloc_aligned n al
  | HFree a => kfree a ;;; ret 0
  end.

(** The least size class that holds the request. *)
Definition class_for (c : hcall) : Z :=
  match c with
  | HAlloc n _ => get_cache_index n
  | HAligned n al => get_cache_index (if al <=? 16 then n else Z.max n al)
  | HFree _ => 0
  end.

(** The abstract heap after a call with result [r]. *)
Definition hpost (H : gmap Z Z) (c : hcall) (r : Z) : gmap Z Z :=
  match c with
  | HFree a => delete a H
  | _ => if r =? NULL then H else <[r := csize (class_for c)]> H
  end.

Definition apart (a n b m : Z) : Prop := a + n <= b \/ b + m <= a.

(** [r] is null or the address of a block of [size] bytes that holds [n]
    bytes, aligned to its size, apart from every live block. *)
Definition fresh_block (H : gmap Z Z) (n size r : Z) : Prop :=
  r = NULL \/ (n <= size /\ r mod size = 0 /\ forall b m, H !! b = Some m -> apart r size b m).

Definition hstep (H : gmap Z Z) (c : hcall) (r : Z) : Prop :=
  match c with
  | HAlloc n _ => fresh_block H n (csize (class_for c)) r
  | HAligned n al => fresh_block H n (csize (class_for c)) r /\ (al <= 16 \/ al <= csize (class_for c))
  | HFree _ => r = 0
  end.

(** The 64-bit word of memory at address [a] of the direct map. *)
Definition peek s a : Z := default 0 (ram (mach s) !! ((a - direct_map (mach s)) / 8)).

(** [H] lists the live blocks of the heap. *)
Definition heap_rel s G (H : gmap Z Z) : Prop :=
  heap_ok s G /\ forall a n, H !! a = Some n <-> live s G a n.

Lemma peek_frame s h k : 0 <= k < 512 -> peek s (addr s h + 8 * k) = hw s h k.
Proof.
  intros Hk. unfold peek, hw, word, addr, frame_addr. do 2 f_equal. dlia.
Qed.

(** A word inside a live block. *)
Lemma live_word s G a n b : heap_ok s G -> live s G a n -> a <= b < a + n -> (b - a) mod 8 = 0 ->
  exists h k, b = addr s h + 8 * k /\ 0 <= k < 512 /\ owned G h /\
    (forall cj, some_class cj -> h ∈ gall (G cj) -> hdr cj <= 8 * k).
Proof.
  intros Ho (ci & f & i & Hci & Hf & Hi & _ & -> & ->) Hb Hm.
  destruct (obj_word_split s ci f i Hci Hi) as (Ea & E8 & Hh & Hlo & Hhi).
  set (o := (hdr ci + i * csize ci) / 8) in *. exists f, (o + (b - obj_addr s ci f i) / 8).
  pose proof (class_header ci (small_some _ Hci)) as (_ & _ & Hnw & _).
  split; [rewrite Ea in *; dlia|]. split; [dlia|].
  split; [exists ci; split; [by apply small_some|done]|].
  intros cj Hcj Hin. assert (cj = ci) as -> by (eapply (ho_disjoint _ _ Ho); eauto using small_some).
  dlia.
Qed.

Lemma kmalloc_flags_wp s G n fl (Q : Z -> heap -> Prop) :
  heap_ok s G -> 0 < n <= 2048 ->
  (free (mach s) = ∅ -> Q NULL s) ->
  (forall s' G' a, allocated s G s' G' a (csize (get_cache_index n)) (flag fl KMALLOC_ZERO) -> Q a s') ->
  wp (kmalloc_flags n fl) Q s.
Proof.
  intros Ho Hn Hno Hyes. destruct (class_index n Hn) as (ci & Eci & Hci & _). rewrite Eci in Hyes.
  unfold kmalloc_flags. wp_step. wp_step. rewrite (ho_init _ _ Ho). cbn [negb]. wp_step. wp_step.
  rewrite (proj2 (Z.eqb_neq n 0)) by lia. rewrite Eci.
  rewrite (proj2 (Z.ltb_ge ci 0)) by (unfold small_class in Hci; lia).
  by apply (cache_alloc_wp s G).
Qed.

Lemma cache_sizes_read ci : small_class ci -> aread cache_sizes ci = Ok (csize ci).
Proof. intros H. apply small_some in H. each_class ci H; done. Qed.

Lemma get_cache_index_csize ci : small_class ci -> get_cache_index (csize ci) = ci.
Proof. intros H. apply small_some in H. each_class ci H; done. Qed.

Lemma csize_small ci : small_class ci -> 0 < csize ci <= 2048.
Proof. intros H. apply small_some in H as Hs. each_class ci Hs; unfold small_class in H;
  try lia; split; vm_compute; congruence. Qed.

Lemma kmalloc_aligned_wp s G n al (Q : Z -> heap -> Prop) :
  heap_ok s G -> 0 < n <= 2048 -> 0 < al <= 2048 ->
  (free (mach s) = ∅ -> Q NULL s) ->
  (forall s' G' a, allocated s G s' G' a (csize (class_for (HAligned n al))) false -> Q a s') ->
  wp (kmalloc_aligned n al) Q s.
Proof.
  intros Ho Hn Hal Hno Hyes. unfold kmalloc_aligned, KMALLOC_MIN_SIZE, kmalloc. simpl in Hyes.
  destruct (Z.leb_spec al 16); [by eapply kmalloc_flags_wp|].
  replace (if al <? n then n else al) with (Z.max n al) by (destruct (Z.ltb_spec al n); lia).
  destruct (class_index (Z.max n al)) as (ci & Eci & Hci & _); [lia|]. rewrite Eci in *.
  rewrite (proj2 (Z.ltb_ge ci 0)) by (unfold small_class in Hci; lia).
  wp_step. eapply wp_lift; [by apply cache_sizes_read|].
  eapply kmalloc_flags_wp; [done|by apply csize_small|done|]. by rewrite get_cache_index_csize.
Qed.

(** ** Refinement *)

(** What every call keeps: the words of the blocks that stay live, and the
    memory and the pages that belong neither to the heap nor to the free
    pages. *)
Record call_frame s G (H : gmap Z Z) s' G' (H' : gmap Z Z) : Prop := {
  cf_blocks a m b : H !! a = Some m -> H' !! a = Some m -> a <= b < a + m -> (b - a) mod 8 = 0 ->
    peek s' b = peek s b;
  cf_others h k : h ∉ free (mach s) -> ~ owned G h -> 0 <= k < 512 ->
    hw s' h k = hw s h k /\ h ∉ free (mach s') /\ ~ owned G' h
}.

Lemma peek_same s s' G H a m b : heap_rel s G H -> same_machine (mach s) (mach s') ->
  H !! a = Some m -> a <= b < a + m -> (b - a) mod 8 = 0 ->
  (forall h k, b = addr s h + 8 * k -> 0 <= k < 512 -> owned G h ->
     (forall cj, some_class cj -> h ∈ gall (G cj) -> hdr cj <= 8 * k) -> hw s' h k = hw s h k) ->
  peek s' b = peek s b.
Proof.
  intros [Ho Hl] Hm Ha Hb H8 Hw. apply Hl in Ha.
  destruct (live_word s G a m b Ho Ha Hb H8) as (h & k & -> & Hk & Hown & Hd).
  rewrite (peek_frame s h k Hk), <- (Hw h k) by done.
  replace (addr s h) with (addr s' h) by (by apply frame_addr_same). by apply peek_frame.
Qed.

Lemma allocated_refines s G H s' G' n size (z : bool) a : heap_rel s G H -> allocated s G s' G' a size z ->
  n <= size -> a <> NULL /\ heap_rel s' G' (<[a := size]> H) /\ fresh_block H n size a /\
  call_frame s G H s' G' (<[a := size]> H).
Proof.
  intros Hrel Hal Hn. pose proof Hrel as [Ho Hl].
  assert (Ha : live s' G' a size) by (apply (al_live _ _ _ _ _ _ _ Hal); by right).
  assert (Hnew : H !! a = None).
  { destruct (H !! a) as [m|] eqn:E; [|done]. apply Hl in E. by apply (al_new _ _ _ _ _ _ _ Hal) in E. }
  assert (Hap : forall b m, H !! b = Some m -> apart a size b m).
  { intros b m Hb. assert (Hlb : live s' G' b m) by (apply (al_live _ _ _ _ _ _ _ Hal); left; by apply Hl).
    destruct (live_disjoint _ _ _ _ _ _ (al_ok _ _ _ _ _ _ _ Hal) Ha Hlb) as [[-> _]|Hd]; [congruence|done]. }
  split.
  { destruct (live_in_page _ _ _ _ (al_ok _ _ _ _ _ _ _ Hal) Ha) as (f & _ & Hr & _ & Hlo & _).
    pose proof (addr_nz s' f (ho_hm _ _ (al_ok _ _ _ _ _ _ _ Hal)) Hr) as Hz.
    pose proof (direct_map_range (mach s') (ho_hm _ _ (al_ok _ _ _ _ _ _ _ Hal))).
    unfold in_ram, addr, frame_addr, NULL in *. lia. }
  split; [split; [apply Hal|]|].
  { intros b m. rewrite (al_live _ _ _ _ _ _ _ Hal), <- Hl. rewrite lookup_insert_Some.
    split; [intros [[<- <-]|[_ Hb]]; tauto|]. intros [Hb|[-> ->]]; [|by left].
    right. split; [congruence|done]. }
  split; [right; split; [done|split; [by eapply live_aligned; [apply Hal|]|done]]|].
  split.
  - intros b m c Hb _ Hc H8. eapply (peek_same s s' G H); [done|apply Hal|done..|].
    intros h k -> Hk (cj & Hcj & Hh) Hd. apply (al_data _ _ _ _ _ _ _ Hal); [done| |done|].
    + by apply (ho_used s G cj).
    + intros [_ Hin]. destruct (Hap b m Hb); lia.
  - intros h k Hn1 Hn2 Hk. split; [|split].
    + destruct (decide (z = true /\ a <= addr s h + 8 * k < a + size)) as [[_ Hin]|Hout].
      2: { apply (al_data _ _ _ _ _ _ _ Hal); [done|done| |done]. intros cj Hcj Hh. exfalso. apply Hn2. by exists cj. }
      exfalso. destruct (live_in_page _ _ _ _ (al_ok _ _ _ _ _ _ _ Hal) Ha) as (f & Hown & Hr & _ & Hlo & Hhi).
      replace (addr s h) with (addr s' h) in Hin by apply frame_addr_same, Hal.
      assert (h = f) as -> by (apply (same_page s' h f (addr s' h + 8 * k)); lia).
      apply (al_owned _ _ _ _ _ _ _ Hal) in Hown. tauto.
    + intros Hx. by apply Hn1, (al_free _ _ _ _ _ _ _ Hal).
    + intros Hx. apply (al_owned _ _ _ _ _ _ _ Hal) in Hx. tauto.
Qed.

Lemma released_refines s G H s' G' a : heap_rel s G H -> released s G s' G' a ->
  heap_rel s' G' (delete a H) /\ call_frame s G H s' G' (delete a H).
Proof.
  intros Hrel Hre. pose proof Hrel as [Ho Hl]. split; [split; [apply Hre|]|split].
  - intros b m. rewrite (re_live _ _ _ _ _ Hre), <- Hl, lookup_delete_Some. intuition congruence.
  - intros b m c Hb _ Hc H8. eapply (peek_same s s' G H); [done|apply Hre|done..|].
    intros h k -> Hk _ Hd. by apply (re_data _ _ _ _ _ Hre).
  - intros h k Hn1 Hn2 Hk. split; [|split].
    + apply (re_data _ _ _ _ _ Hre); [done|]. intros cj Hcj Hh. exfalso. apply Hn2. by exists cj.
    + intros Hx. apply (re_free _ _ _ _ _ Hre) in Hx. tauto.
    + intros Hx. by apply Hn2, (re_owned _ _ _ _ _ Hre).
Qed.

Lemma call_frame_refl s G H : call_frame s G H s G H.
Proof. by split. Qed.

Lemma null_not_live s G H : heap_rel s G H -> H !! NULL = None.
Proof.
  intros [Ho Hl]. destruct (H !! NULL) as [m|] eqn:E; [|done]. apply Hl in E.
  destruct (live_in_page _ _ _ _ Ho E) as (f & _ & Hr & _ & Hlo & _).
  pose proof (direct_map_range (mach s) (ho_hm _ _ Ho)). unfold in_ram, addr, frame_addr, NULL in *. lia.
Qed.

Lemma hcall_wp s G H c : heap_rel s G H -> hcall_ok H c ->
  wp (run_hcall c) (fun r s' => exists G', heap_rel s' G' (hpost H c r) /\ hstep H c r /\
    call_frame s G H s' G' (hpost H c r) /\
    ((exists a, c = HFree a) \/ (r = NULL -> free (mach s) = ∅ /\ s' = s))) s.
Proof.
  intros Hrel Hc. pose proof Hrel as [Ho Hl]. destruct c as [n fl|n al|a]; simpl in *.
  - eapply kmalloc_flags_wp; [done..|intros He|intros s' G' a Hal].
    + exists G. split; [done|]. split; [by left|]. split; [apply call_frame_refl|]. by right.
    + destruct (class_index n Hc) as (ci & Eci & Hci & Hle & _).
      destruct (allocated_refines s G H s' G' n _ _ a Hrel Hal) as (Hnz & H1 & H2 & H3); [by rewrite Eci|].
      exists G'. rewrite (proj2 (Z.eqb_neq _ _) Hnz). split; [done|]. split; [done|]. split; [done|]. by right.
  - destruct Hc as [Hn Hal]. eapply kmalloc_aligned_wp; [done..|intros He|intros s' G' a Ha].
    + exists G. split; [done|]. split; [split; [by left|]|]. 2: { split; [apply call_frame_refl|]. by right. }
      destruct (Z.leb_spec al 16); [by left|right].
      destruct (class_index (Z.max n al)) as (ci & -> & _ & Hle & _); lia.
    + simpl in Ha. set (q := if al <=? 16 then n else Z.max n al) in *.
      assert (Hq : 0 < q <= 2048 /\ n <= q /\ (al <= 16 \/ al <= q)) by (unfold q; destruct (Z.leb_spec al 16); lia).
      destruct Hq as (Hq1 & Hq2 & Hq3). destruct (class_index q Hq1) as (ci & Eci & _ & Hle & _).
      destruct (allocated_refines s G H s' G' n _ _ a Hrel Ha) as (Hnz & H1 & H2 & H3); [rewrite Eci; lia|].
      exists G'. rewrite (proj2 (Z.eqb_neq _ _) Hnz). split; [done|].
      split; [split; [done|rewrite Eci; lia]|]. split; [done|]. by right.
  - wp_step. destruct Hc as [->|[m Hm]].
    + unfold kfree. simpl. wp_steps. exists G. rewrite delete_id by (by eapply null_not_live).
      split; [done|]. split; [done|]. split; [apply call_frame_refl|]. left. by exists NULL.
    + eapply kfree_live_wp; [done|by apply Hl|]. intros s' G' Hre. wp_step. exists G'.
      destruct (released_refines s G H s' G' a Hrel Hre) as [H1 H2]. split; [done|]. split; [done|].
      split; [done|]. left. by exists a.
Qed.

(** ** Reachable states *)

(** States reached from a boot state by calls that keep the contract, with
    the live blocks. *)
Inductive kreach (s0 : heap) : heap -> gmap Z Z -> Prop :=
  | kr_init s : kmalloc_init s0 = Ok (tt, s) -> kreach s0 s ∅
  | kr_call s H c r s' : kreach s0 s H -> hcall_ok H c -> run_hcall c s = Ok (r, s') ->
      kreach s0 s' (hpost H c r).

Lemma init_rel s G : heap_ok s no_slabs -> G = no_slabs -> heap_rel s G ∅.
Proof.
  intros Ho ->. split; [done|]. intros a n. rewrite lookup_empty. split; [done|].
  intros (ci & f & i & _ & Hf & _). unfold no_slabs, gall in Hf. set_solver.
Qed.

Lemma kreach_rel s0 s H : heap_boot s0 -> kreach s0 s H -> exists G, heap_rel s G H.
Proof.
  intros Hb Hr. induction Hr as [s Hi|s H c r s' Hr IH Hc Hrun].
  - exists no_slabs. apply init_rel; [|done].
    assert (Hw : wp kmalloc_init (fun _ s' => heap_ok s' no_slabs) s0) by (by apply kmalloc_init_wp).
    unfold wp in Hw. by rewrite Hi in Hw.
  - destruct IH as [G Hrel]. pose proof (hcall_wp s G H c Hrel Hc) as Hw. unfold wp in Hw.
    rewrite Hrun in Hw. destruct Hw as (G' & Hrel' & _). by exists G'.
Qed.

(** ** A booted machine *)

Definition zero_cache : cache := Cache EmptyString 0 0 0 0 0 0 0 0.
Definition boot_heap : heap := Heap demo_machine (replicate 10 zero_cache) false.

Lemma boot_heap_ok : heap_boot boot_heap.
Proof.
  destruct demo_booted as [kd [Hm _ _ _ _]].
  split; [exact Hm|done| |done].
  assert (E : total_pages (frames demo_machine) = 16) by (vm_compute; reflexivity).
  assert (E2 : direct_map demo_machine = demo_off) by (vm_compute; reflexivity).
  change (direct_map demo_machine + 4096 * total_pages (frames demo_machine) < 2 ^ 64).
  rewrite E, E2. unfold demo_off. lia.
Qed.

Definition hafter {A : Type} (m : HM A) (a : A) (s : heap) : A * heap :=
  match m s with Ok r => r | Fault _ => (a, s) end.

Lemma hafter_run {A : Type} (m : HM A) (a : A) (Q : A -> heap -> Prop) s :
  wp m Q s -> m s = Ok ((hafter m a s).1, (hafter m a s).2) /\ Q (hafter m a s).1 (hafter m a s).2.
Proof. unfold wp, hafter. by destruct (m s) as [[]|]. Qed.

Definition demo_heap : heap := (hafter kmalloc_init tt boot_heap).2.

Lemma demo_heap_init : kmalloc_init boot_heap = Ok (tt, demo_heap) /\ heap_ok demo_heap no_slabs.
Proof.
  assert (Hw : wp kmalloc_init (fun _ s' => heap_ok s' no_slabs) boot_heap)
    by (apply kmalloc_init_wp; [apply boot_heap_ok|done]).
  apply (hafter_run _ tt) in Hw. destruct Hw as [E Ho].
  split; [|exact Ho]. rewrite E. unfold demo_heap. by destruct (hafter kmalloc_init tt boot_heap).1.
Qed.

(** ** Theorems *)

(** C2: for requests of 1 to 2048 bytes with alignments of at most 2048 the
    slab allocator refines a finite map from addresses to block sizes: from a
    state that represents [H], such a request, or the release of a live block
    or of null, ends without a fault in a state that represents the next map.
    (The classes of 4096 and 8192 bytes are outside: their blocks leave the
    page granted, see [kmalloc_page_request_outside].)  A block handed out holds the request,
    is aligned to its size and is apart from every live block; null is returned
    only when no page is free, and then nothing has changed; blocks that stay
    live keep their contents, and no other memory in use is written. *)
Theorem kheap_refines_block_map s G H c :
  heap_rel s G H -> hcall_ok H c ->
  exists r s' G', run_hcall c s = Ok (r, s') /\ heap_rel s' G' (hpost H c r) /\ hstep H c r /\
    call_frame s G H s' G' (hpost H c r) /\
    ((exists a, c = HFree a) \/ (r = NULL -> free (mach s) = ∅ /\ s' = s)).
Proof.
  intros Hrel Hc. pose proof (hcall_wp s G H c Hrel Hc) as Hw. apply wp_run in Hw.
  destruct Hw as (r & s' & E & G' & Hw). by exists r, s', G'.
Qed.

Lemma kheap_refines_block_map_witness :
  exists r s' G', run_hcall (HAligned 100 64) demo_heap = Ok (r, s') /\
    heap_rel s' G' (hpost ∅ (HAligned 100 64) r) /\ r mod 128 = 0.
Proof.
  destruct (kheap_refines_block_map demo_heap no_slabs ∅ (HAligned 100 64)) as (r & s' & G' & H1 & H2 & H3 & _).
  - apply init_rel; [apply demo_heap_init|reflexivity].
  - simpl. lia.
  - exists r, s', G'. split; [exact H1|]. split; [exact H2|].
    destruct H3 as [[->|(_ & H3 & _)] _]; [reflexivity|]. exact H3.
Defined.

(** C18: in every state reached from boot by requests of 1 to 2048 bytes, with
    alignments of at most 2048, and releases of live blocks or of null, the
    heap is consistent: the partial, full and empty lists of every cache are
    linked as they should be and share no page, the counts and bitmaps of their
    slabs agree, and the objects marked as handed out are exactly the live
    blocks ([heap_rel]); the live blocks are pairwise apart, each lies inside
    one page that is in use, and the next such call returns. *)
Theorem kheap_reachable_safe s0 s H :
  heap_boot s0 -> kreach s0 s H ->
  (exists G, heap_rel s G H) /\
  (forall a n b m, H !! a = Some n -> H !! b = Some m -> a = b \/ apart a n b m) /\
  (forall a n, H !! a = Some n -> exists f, in_ram (mach s) f /\ f ∉ free (mach s) /\
     addr s f <= a /\ a + n <= addr s f + PAGE_SIZE) /\
  (forall c, hcall_ok H c -> exists r s', run_hcall c s = Ok (r, s')).
Proof.
  intros Hb Hr. destruct (kreach_rel s0 s H Hb Hr) as [G [Ho Hl]].
  split; [by exists G|]. split; [|split].
  - intros a n b m Ha Hb'. apply Hl in Ha, Hb'.
    destruct (live_disjoint _ _ _ _ _ _ Ho Ha Hb') as [[-> _]|Hd]; [by left|by right].
  - intros a n Ha. apply Hl in Ha. destruct (live_in_page _ _ _ _ Ho Ha) as (f & _ & Hx). by exists f.
  - intros c Hc. pose proof (hcall_wp s G H c (conj Ho Hl) Hc) as Hw. apply wp_run in Hw.
    destruct Hw as (r & s' & E & _). by exists r, s'.
Qed.

Lemma kheap_reachable_safe_witness :
  exists r s', run_hcall (HAlloc 24 0) demo_heap = Ok (r, s') /\
    forall c, hcall_ok (hpost ∅ (HAlloc 24 0) r) c -> exists r' s'', run_hcall c s' = Ok (r', s'').
Proof.
  assert (Hr : kreach boot_heap demo_heap ∅) by (apply kr_init, demo_heap_init).
  destruct (kheap_reachable_safe boot_heap demo_heap ∅ boot_heap_ok Hr) as (_ & _ & _ & Hp).
  destruct (Hp (HAlloc 24 0)) as (r & s' & E); [simpl; lia|]. exists r, s'. split; [exact E|].
  apply (kheap_reachable_safe boot_heap s' (hpost ∅ (HAlloc 24 0) r) boot_heap_ok).
  eapply kr_call; [exact Hr| |exact E]. simpl; lia.
Defined.

(** ** Requests of more than 2048 bytes *)

Lemma large_index n : 2048 < n <= 4096 -> get_cache_index n = 8.
Proof. intros Hn. unfold get_cache_index, cache_sizes. simpl. by repeat (case_decide; [lia|]); case_decide; [|lia]. Qed.

Lemma huge_index n : 8192 < n -> get_cache_index n = -1.
Proof. intros Hn. unfold get_cache_index, cache_sizes. simpl. by repeat (case_decide; [lia|]). Qed.

(** The list movement of [cache_alloc] for the only object of a slab. *)
Lemma page_class_finish s c f k (r : Z) (Q : Z -> heap -> Prop) :
  hm s -> caches s !! 8%nat = Some c -> slab_ok s 8 f -> (forall s', free (mach s') = free (mach s) -> Q r s') ->
  wp (n <- slab_free_count (addr s f) ;;
      (if n =? 0 then
         nx <- slab_next (addr s f) ;;
         upd_cache 8 (set_head Partial nx) ;;;
         c <- the_cache 8 ;;
         set_slab_next (addr s f) (c_full c) ;;;
         upd_cache 8 (set_head Full (addr s f))
       else ret tt) ;;;
      upd_cache 8 count_alloc ;;;
      (if flag 0 KMALLOC_ZERO then zero_words (obj_addr s 8 f k) (c_object_size c) else ret tt) ;;;
      ret r) Q s.
Proof.
  intros Hs Hc Hslab HQ. pose proof (so_ram _ _ _ Hslab) as Hr.
  assert (Hlt : (8 < length (caches s))%nat) by (by eapply lookup_lt_Some).
  change (flag 0 KMALLOC_ZERO) with false. wp_step. apply wp_slab_free_count; [done..|]. wp_step.
  destruct (_ =? 0).
  - wp_step. apply wp_slab_next; [done..|]. wp_step. apply (wp_upd_cache _ _ c); [lia|done|]. wp_step.
    eapply wp_the_cache; [lia|by simpl; rewrite list_lookup_insert_eq|]. wp_step.
    apply (wp_set_slab_next (hcaches s _) Hs f Hr).
    eapply wp_upd_cache; [lia|by simpl; rewrite list_lookup_insert_eq|].
    wp_step. eapply wp_upd_cache; [lia|by simpl; rewrite list_insert_insert_eq, list_lookup_insert_eq|].
    wp_steps. by apply HQ.
  - wp_step. wp_step. apply (wp_upd_cache _ _ c); [lia|done|]. wp_steps. by apply HQ.
Qed.

Lemma page_class_alloc s G n (Q : Z -> heap -> Prop) :
  heap_ok s G -> 2048 < n <= 4096 ->
  (free (mach s) = ∅ -> Q NULL s) ->
  (forall f s', f ∈ free (mach s) -> free (mach s') = free (mach s) ∖ {[f]} ->
     Q (u64 (addr s f + PAGE_SIZE)) s') ->
  wp (kmalloc n) Q s.
Proof.
  intros Ho Hn Hno Hyes. assert (H8 : some_class 8) by (unfold some_class; lia).
  assert (Hg : gall (G 8) = []) by (apply (ho_small _ _ Ho); [done|unfold small_class; lia]).
  unfold gall in Hg. apply app_eq_nil in Hg as [Hgp Hg]. apply app_eq_nil in Hg as [_ Hge].
  destruct (ho_cache _ _ Ho 8 H8) as (c & Hc & Hcok). pose proof (co_static _ _ _ _ Hcok) as Hst.
  pose proof (co_partial _ _ _ _ Hcok) as Hp. pose proof (co_empty _ _ _ _ Hcok) as He.
  rewrite Hgp in Hp. rewrite Hge in He. simpl in Hp, He. assert (H08 : 0 <= 8) by lia.
  unfold kmalloc, kmalloc_flags. wp_step. wp_step. rewrite (ho_init _ _ Ho). cbn [negb]. wp_step. wp_step.
  rewrite (proj2 (Z.eqb_neq n 0)) by lia. rewrite large_index by done. cbn [Z.ltb Z.compare].
  unfold cache_alloc, pick_slab. wp_step. wp_step. apply (wp_the_cache _ _ c); [done..|].
  rewrite Hp, He. cbn [Z.eqb NULL negb]. wp_step.
  apply (slab_create_wp s 8 c); [apply Ho|done|done|done|..].
  { intros Hf. cbn [Z.eqb NULL]. wp_step. cbn [Z.eqb NULL]. wp_step. by apply Hno. }
  intros s1 f [Bnew Bhm Bm Bfree Bca Bin Bw Bslab Bnext Bbits].
  rewrite addr_nz; [|apply Ho|by apply elem_of_free].
  wp_step. apply (wp_upd_cache _ _ c); [done|by rewrite Bca|]. wp_step.
  rewrite addr_nz; [|apply Ho|by apply elem_of_free]. rewrite Bca. set (s2 := hcaches s1 _).
  assert (Hlt : (Z.to_nat 8 < length (caches s))%nat) by (by eapply lookup_lt_Some).
  assert (Hc2 : caches s2 !! Z.to_nat 8 = Some (set_head Partial (addr s f) c)).
  { simpl. by rewrite list_lookup_insert_eq. }
  assert (Hslab2 : slab_ok s2 8 f) by (apply (slab_ok_ext s1); [done|by split|apply Bslab|done|done]).
  replace (addr s f) with (addr s2 f) in * by (by apply frame_addr_same).
  wp_step. apply (slab_find_free_wp s2 8 (set_head Partial (addr s2 f) c)); [done|done|done| |done| |].
  { by apply set_head_static. }
  { change (nfree s2 f (nobjs 8)) with (nfree s1 f (nobjs 8)). by rewrite Bbits. }
  intros k Hk Hbit. assert (k = 0) as -> by (change (nobjs 8) with 1 in Hk; lia).
  cbn [Z.ltb Z.compare]. wp_step. apply wp_bitmap_word; [done|apply Hslab2|apply Hslab2|done|].
  rewrite flag_bit by done. change (Z.testbit (hw s2 f (4 + 0 / 64)) (0 mod 64)) with (obit s2 f 0).
  rewrite Hbit. cbn [negb]. wp_step. apply (wp_the_cache _ _ _ _ H08 Hc2).
  wp_step. apply wp_slab_objects; [done|apply Hslab2|]. cbv zeta.
  wp_step. apply (slab_mark_allocated_wp s2 8); [done..|]. intros s3 Hm.
  pose proof (mk_stored _ _ _ _ _ _ Hm) as St. rewrite <- (stored_addr _ _ _ f St).
  change (c_object_size (set_head Partial (addr s3 f) c)) with (c_object_size c).
  eapply (page_class_finish s3 (set_head Partial (addr s2 f) c) f 0);
    [apply St|by rewrite (st_caches _ _ _ St)|apply Hm|].
  intros s4 Hf4. rewrite (so_objects _ _ _ Hslab2).
  replace (u64 (u64 (addr s2 f + hdr 8) + u64 (0 * c_object_size c))) with (u64 (addr s f + PAGE_SIZE)).
  { apply Hyes; [done|]. rewrite Hf4, (stored_free _ _ _ St). done. }
  replace (addr s2 f) with (addr s f) by (symmetry; by apply frame_addr_same).
  change (hdr 8) with PAGE_SIZE. change (u64 (0 * c_object_size c)) with 0. rewrite Z.add_0_r.
  symmetry. apply Zmod_mod.
Qed.

(** a request of 2049 to 4096 bytes takes a page [f] for the slab and
    returns the address of the page behind it, which stays as it was: if it was
    free it can be handed out again, otherwise it is somebody else's. *)
Theorem kmalloc_page_request_outside s G n :
  heap_ok s G -> 2048 < n <= 4096 ->
  exists r s', kmalloc n s = Ok (r, s') /\
    ((r = NULL /\ free (mach s) = ∅) \/
     exists f, f ∈ free (mach s) /\ r = u64 (addr s (f + 1)) /\
       forall h, h <> f -> h ∈ free (mach s') <-> h ∈ free (mach s)).
Proof.
  intros Ho Hn. assert (Hw : wp (kmalloc n) (fun r s' => (r = NULL /\ free (mach s) = ∅) \/
     exists f, f ∈ free (mach s) /\ r = u64 (addr s (f + 1)) /\
       forall h, h <> f -> h ∈ free (mach s') <-> h ∈ free (mach s)) s).
  { apply (page_class_alloc s G); [done..|by left|]. intros f s' Hf Hfree. right. exists f.
    split; [done|]. split; [f_equal; unfold addr, frame_addr, PAGE_SIZE; lia|].
    intros h Hh. rewrite Hfree. set_solver. }
  apply wp_run in Hw. destruct Hw as (r & s' & E & Hx). by exists r, s'.
Qed.

Lemma kmalloc_page_request_outside_witness :
  exists r s', kmalloc 4096 demo_heap = Ok (r, s') /\
    exists f, f ∈ free (mach demo_heap) /\ r = u64 (addr demo_heap (f + 1)).
Proof.
  destruct (kmalloc_page_request_outside demo_heap no_slabs 4096) as (r & s' & E & Hx);
    [apply demo_heap_init|lia|].
  exists r, s'. split; [exact E|]. destruct Hx as [[_ He]|(f & Hf & Er & _)].
  - exfalso. assert (Hb : bool_decide (free (mach demo_heap) = ∅) = false) by (vm_compute; reflexivity).
    apply bool_decide_eq_false in Hb. exact (Hb He).
  - exists f. split; [exact Hf|exact Er].
Defined.

(** ** Requests of more than 8192 bytes *)

(** Pages were taken from the free ones: the heap does not notice. *)
Lemma heap_ok_frames s G p : heap_ok s G -> pmm_inv p -> same_layout (frames (mach s)) p ->
  abs_free p ⊆ free (mach s) -> heap_ok (with_frames s p) G.
Proof.
  intros Ho Hp Hl Hsub. destruct (with_frames_ok s p (ho_hm _ _ Ho) Hp Hl) as [Hs' Hm].
  split; [done|apply Ho|by rewrite (top_same _ _ Hm); apply Ho| |apply Ho|apply Ho].
  intros ci Hci. destruct (ho_cache _ _ Ho ci Hci) as (c & Hc & Hcok). exists c. split; [done|].
  eapply cache_ok_ext; [done|done|done| |done].
  intros f Hf Hx. apply (ho_used s G ci f Ho Hci Hf). by apply Hsub.
Qed.

Lemma alloc_pages_wp s n (Q : Z -> heap -> Prop) : hm s -> 0 < n < 2 ^ 64 ->
  ((forall p, ~ range_set p n ⊆ free (mach s)) -> forall pm, pmm_inv pm -> same_layout (frames (mach s)) pm ->
     abs_free pm = free (mach s) -> Q NULL (with_frames s pm)) ->
  (forall p pm, range_set p n ⊆ free (mach s) -> pmm_inv pm -> same_layout (frames (mach s)) pm ->
     abs_free pm = free (mach s) ∖ range_set p n -> Q (addr s p) (with_frames s pm)) ->
  wp (in_mach (in_frames (pmm_alloc_contiguous n))) Q s.
Proof.
  intros Hs Hn Hno Hyes. apply wp_in_mach.
  assert (Hsim : wp (run_call (CallAllocN n)) (simulates (frames (mach s)) (CallAllocN n)) (frames (mach s))).
  { apply sim_alloc_n; [apply Hs|lia]. }
  simpl in Hsim. apply wp_bind_inv in Hsim. unfold wp, in_frames, ret in *.
  destruct (pmm_alloc_contiguous n (frames (mach s))) as [[a pm]|]; [|done].
  destruct Hsim as (r & Hg & Hi & Hl & Hst).
  change (Heap _ _ _) with (with_frames s pm).
  inversion Hst as [ | |F p m Hm Hsub E1 E2 E3 E4|F m Hnone E1 E2 E3 E4| | | |]; subst r.
  - simpl in Hg. unfold granted in Hg. destruct (a =? NULL); [done|]. injection Hg as ->.
    rewrite (page_addr_frame (mach s) Hs). by apply Hyes.
  - simpl in Hg. unfold granted in Hg. destruct (Z.eqb_spec a NULL) as [->|]; [|done].
    apply Hno; [|done..]. intros p. apply Hnone. lia.
Qed.

Lemma kfree_foreign_wp s G p (Q : unit -> heap -> Prop) : heap_ok s G -> in_ram (mach s) p -> ~ owned G p ->
  (forall s', free (mach s') = free (mach s) ∪ {[p]} -> Q tt s') -> wp (kfree (addr s p)) Q s.
Proof.
  intros Ho Hp Hown HQ. unfold kfree. rewrite addr_nz by (done || apply Ho). wp_step.
  apply (find_allocation_out s G Ho).
  - intros E. pose proof (addr_nz s p (ho_hm _ _ Ho) Hp) as Hn. by rewrite E in Hn.
  - intros ci Hci h Hh Hr. apply Hown. exists ci. split; [done|].
    assert (p = h) as -> by (apply (same_page s p h (addr s p)); lia). done.
  - apply wp_in_mach. apply wp_free_frame; [apply Ho|done|]. intros pm _ _ Hf. by apply HQ.
Qed.

(** a request of more than 8192 bytes takes as many consecutive pages as
    it needs; [kfree] of the block gives back the first of them only, so the
    others are lost. *)
Theorem kfree_large_leaks s G n a s1 :
  heap_ok s G -> 8192 < n < 2 ^ 64 - 4096 -> kmalloc n s = Ok (a, s1) -> a <> NULL ->
  let np := (n + 4095) / 4096 in
  exists p s2, a = addr s p /\ 2 < np /\ range_set p np ⊆ free (mach s) /\
    kfree a s1 = Ok (tt, s2) /\ free (mach s2) = free (mach s) ∖ range_set (p + 1) (np - 1).
Proof.
  intros Ho Hn Hrun Hnz np. assert (Hnp : 2 < np /\ np < 2 ^ 64) by (unfold np; split; dlia).
  assert (Hw : wp (kmalloc n) (fun r s' => r = NULL \/ exists p, r = addr s p /\ range_set p np ⊆ free (mach s) /\
      heap_ok s' G /\ same_machine (mach s) (mach s') /\ free (mach s') = free (mach s) ∖ range_set p np) s).
  { unfold kmalloc, kmalloc_flags. wp_step. wp_step. rewrite (ho_init _ _ Ho). cbn [negb]. wp_step. wp_step.
    rewrite (proj2 (Z.eqb_neq n 0)) by lia. rewrite huge_index by lia. cbn [Z.ltb Z.compare]. unfold PAGE_SIZE.
    rewrite !u64_id by (rewrite ?u64_id by lia; lia). replace (n + 4096 - 1) with (n + 4095) by lia. fold np.
    wp_step. apply alloc_pages_wp; [apply Ho|lia|..].
    - intros _ pm _ _ _. cbn [Z.eqb NULL negb andb]. wp_steps. by left.
    - intros p pm Hsub Hpm Hl Hf. change (flag 0 KMALLOC_ZERO) with false. rewrite andb_false_r. wp_steps.
      right. exists p. split; [done|]. split; [done|].
      split; [apply heap_ok_frames; [done..|rewrite Hf; set_solver]|]. by split. }
  unfold wp in Hw. rewrite Hrun in Hw. destruct Hw as [|(p & -> & Hsub & Ho1 & Hm & Hf)]; [done|].
  assert (Hp : p ∈ free (mach s)) by (apply Hsub, elem_of_range_set; lia).
  assert (Hr : in_ram (mach s) p) by (by apply elem_of_free).
  assert (Hw : wp (kfree (addr s p)) (fun _ s2 => free (mach s2) = free (mach s1) ∪ {[p]}) s1).
  { replace (addr s p) with (addr s1 p) by (by apply frame_addr_same).
    apply (kfree_foreign_wp s1 G); [done|by apply (in_ram_same _ _ _ Hm)| |done].
    intros (ci & Hci & Hin). by apply (ho_used s G ci p). }
  apply wp_run in Hw. destruct Hw as ([] & s2 & E & Hf2). exists p, s2.
  split; [done|]. split; [lia|]. split; [done|]. split; [done|]. rewrite Hf2, Hf.
  apply set_eq. intros q. rewrite elem_of_union, !elem_of_difference, elem_of_singleton, !elem_of_range_set.
  destruct (decide (q = p)) as [->|]; [|split; intros; [|left]; intuition lia]. split; [|by right]. intros _. split; [done|lia].
Qed.

Definition large_demo : Z * heap := hafter (kmalloc 10000) NULL demo_heap.

Lemma kfree_large_leaks_witness :
  exists p s2, large_demo.1 = addr demo_heap p /\ kfree large_demo.1 large_demo.2 = Ok (tt, s2) /\
    free (mach s2) = free (mach demo_heap) ∖ range_set (p + 1) 2.
Proof.
  assert (Hrun : kmalloc 10000 demo_heap = Ok (large_demo.1, large_demo.2)).
  { unfold large_demo, hafter.
    assert (Hb : match kmalloc 10000 demo_heap with Ok _ => true | Fault _ => false end = true)
      by (vm_compute; reflexivity).
    destruct (kmalloc 10000 demo_heap) as [[a s]|]; [reflexivity|discriminate Hb]. }
  assert (Hnz : (large_demo.1 =? NULL) = false) by (vm_compute; reflexivity).
  destruct (kfree_large_leaks demo_heap no_slabs 10000 large_demo.1 large_demo.2) as (p & s2 & Ea & _ & _ & E & Hf).
  - apply demo_heap_init.
  - lia.
  - exact Hrun.
  - apply Z.eqb_neq. exact Hnz.
  - exists p, s2. split; [exact Ea|]. split; [exact E|exact Hf].
Defined.

(** ** Releasing a block twice *)

Definition twice : HM (Z * Z * Z) :=
  a <- kmalloc 16 ;;
  kfree a ;;; kfree a ;;;
  page <- in_mach (in_frames pmm_alloc) ;;
  b <- kmalloc 16 ;;
  ret (a, page, b).

(** The second release of the only block of a slab is not noticed: the
    slab is on the empty list, which is not searched, and its page goes back to
    the page allocator.  The page is then handed out while the heap allocates
    from it. *)
Theorem kfree_twice_frees_slab_page :
  exists a page b s', twice demo_heap = Ok ((a, page, b), s') /\
    page <= b < page + PAGE_SIZE /\ page <> NULL.
Proof.
  assert (Hb : match twice demo_heap with
               | Ok ((_, page, b), _) => (page <=? b) && (b <? page + PAGE_SIZE) && negb (page =? NULL)
               | Fault _ => false end = true) by (vm_compute; reflexivity).
  destruct (twice demo_heap) as [[[[a page] b] s']|]; [|discriminate].
  apply andb_true_iff in Hb as [Hb Hn]. apply andb_true_iff in Hb as [H1 H2].
  apply Z.leb_le in H1. apply Z.ltb_lt in H2. apply negb_true_iff, Z.eqb_neq in Hn.
  by exists a, page, b, s'.
Qed.
