(* ===== verification/KLogic.v ===== *)
(** * Reasoning about code between plain spinlocks

    The process and scheduler code keeps its data under spinlocks that are
    taken with [spinlock_acquire] and given back before the function goes on.
    A lock is named by its address.  [ev held m Q] is the weakest precondition
    of [m] run with the locks [held] taken and all others free, as a predicate
    on the data, the environment and the interrupt flags.  [Allocator] is what this code relies on
    of [kmalloc] and [kfree]. *)

From stdpp Require Import base numbers list gmap.
From S2P Require Import Prelude Spinlock Kernel.

Record guarded (D : Type) := Guarded { g_locks : gmap Z spinlock; g_data : D }.
Arguments Guarded {D} _ _.
Arguments g_locks {D} _.
Arguments g_data {D} _.

(** [kmalloc n] is null or the address of a block that was not live; [kfree]
    of a live block ends its life. *)
Class Allocator (E : Type) := {
  al_live : E -> gset Z;
  al_alloc : Z -> E -> Z * E;
  al_free : Z -> E -> E;
  al_alloc_spec n e a e' : al_alloc n e = (a, e') ->
    (a = NULL /\ al_live e' = al_live e) \/
    (0 < a < 2 ^ 64 /\ a ∉ al_live e /\ al_live e' = {[a]} ∪ al_live e);
  al_free_spec a e : a ∈ al_live e -> al_live (al_free a e) = al_live e ∖ {[a]}
}.

Section klogic.
Context {D E : Type}.
Abbreviation K := (M (kst (guarded D) E)).
Implicit Types (s : kst (guarded D) E) (held : list Z).

Definition lock_of (l : Z) s : spinlock := default spinlock_init (g_locks (k_obj s) !! l).
Definition with_locks (m : gmap Z spinlock) s : kst (guarded D) E :=
  set_obj (Guarded m (g_data (k_obj s))) s.

Program Definition spin (l : Z) : lockref (kst (guarded D) E) := {|
  lget s := lock_of l s;
  lset v s := with_locks (<[l := v]> (g_locks (k_obj s))) s
|}.
Next Obligation. intros. unfold lock_of. simpl. by rewrite lookup_insert_eq. Qed.
Next Obligation. intros. unfold with_locks, set_obj. simpl. by rewrite insert_insert_eq. Qed.
Next Obligation. done. Qed.
Next Obligation. done. Qed.
Next Obligation. done. Qed.

(** A critical section. *)
Definition with_lock {X : Type} (l : Z) (m : K X) : K X :=
  spinlock_acquire (spin l) ;;;
  x <- m ;;
  spinlock_release (spin l) ;;;
  ret x.

(** The same with [spinlock_acquire_irqsave] and [spinlock_release_irqrestore]. *)
Definition with_lock_irq {X : Type} (l : Z) (m : K X) : K X :=
  flags <- spinlock_acquire_irqsave (spin l) ;;
  x <- m ;;
  spinlock_release_irqrestore (spin l) flags ;;;
  ret x.

(** [spinlock_init] of the lock of a new object. *)
Definition init_lock (l : Z) : K unit :=
  modify (fun s => with_locks (<[l := spinlock_init]> (g_locks (k_obj s))) s).

Definition data {X : Type} (f : D -> X) : K X := gets (fun s => f (g_data (k_obj s))).
Definition set_data (f : D -> D) : K unit :=
  modify (fun s => set_obj (Guarded (g_locks (k_obj s)) (f (g_data (k_obj s)))) s).

(** Every lock but those of [held] is free. *)
Definition idle held s : Prop := forall l, l ∉ held -> sl_locked (lock_of l s) = 0.

(** [ev held m Q d e fl]: run with the data [d], the environment [e] and the
    flags [fl], the locks [held] taken and all others free, [m] ends without a
    fault in a result, data, environment and flags that satisfy [Q]; the locks
    are as before. *)
Definition ev {X : Type} held (m : K X) (Q : X -> D -> E -> Z -> Prop) (d : D) (e : E) (fl : Z) : Prop :=
  forall s, idle held s -> g_data (k_obj s) = d -> k_env s = e -> k_flags s = fl ->
    wp m (fun x s' =>
      (idle held s' /\ (forall l, l ∈ held -> lock_of l s' = lock_of l s) /\ k_files s' = k_files s) /\
      Q x (g_data (k_obj s')) (k_env s') (k_flags s')) s.

Implicit Types (d : D) (e : E) (fl : Z).

Lemma ev_ret {X : Type} held (x : X) (Q : X -> D -> E -> Z -> Prop) d e fl :
  Q x d e fl -> ev held (ret x) Q d e fl.
Proof. by intros HQ s Hi <- <- <-. Qed.

Lemma ev_bind {X Y : Type} held (m : K X) (k : X -> K Y) Q d e fl :
  ev held m (fun x d' e' fl' => ev held (k x) Q d' e' fl') d e fl -> ev held (bind m k) Q d e fl.
Proof.
  intros Hm s Hi Hd He Hf. apply wp_bind. eapply wp_mono; [by apply Hm|].
  intros x s1 [(Hi1 & Hh & Ho) HR]. eapply wp_mono; [by apply HR|]. intros y s2 [(Hi2 & Hh2 & Ho2) HQ].
  split; [|done]. split; [done|]. split; [|by rewrite Ho2]. intros l Hl. by rewrite Hh2, Hh.
Qed.

Lemma ev_mono {X : Type} held (m : K X) (Q Q' : X -> D -> E -> Z -> Prop) d e fl :
  ev held m Q' d e fl -> (forall x d' e' fl', Q' x d' e' fl' -> Q x d' e' fl') -> ev held m Q d e fl.
Proof.
  intros Hm HQ s Hi Hd He Hf. eapply wp_mono; [by apply Hm|]. intros x s' [Hs Hq]. split; [done|by apply HQ].
Qed.

Lemma ev_data {X : Type} held (f : D -> X) (Q : X -> D -> E -> Z -> Prop) d e fl :
  Q (f d) d e fl -> ev held (data f) Q d e fl.
Proof. by intros HQ s Hi <- <- <-. Qed.

Lemma ev_set held (f : D -> D) (Q : unit -> D -> E -> Z -> Prop) d e fl :
  Q tt (f d) e fl -> ev held (set_data f) Q d e fl.
Proof. by intros HQ s Hi <- <- <-. Qed.

Lemma ev_env {X : Type} held (f : E -> X * E) (Q : X -> D -> E -> Z -> Prop) d e fl :
  Q (f e).1 d (f e).2 fl -> ev held (env_pure f) Q d e fl.
Proof.
  intros HQ s Hi <- <- <-. apply (wp_env _ (f (k_env s)).1 (f (k_env s)).2); [|done].
  by rewrite <- surjective_pairing.
Qed.

Lemma ev_get_env held (Q : E -> D -> E -> Z -> Prop) d e fl : Q e d e fl -> ev held (gets k_env) Q d e fl.
Proof. by intros HQ s Hi <- <- <-. Qed.

Lemma ev_lift {X : Type} held (r : res X) x (Q : X -> D -> E -> Z -> Prop) d e fl :
  r = Ok x -> Q x d e fl -> ev held (lift r) Q d e fl.
Proof. intros -> HQ s Hi <- <- <-. by apply wp_ret. Qed.

Lemma ev_intr_disable held (Q : Z -> D -> E -> Z -> Prop) d e fl :
  Q fl d e (no_irq fl) -> ev held intr_disable Q d e fl.
Proof. by intros HQ s Hi <- <- <-. Qed.

Lemma ev_intr_restore held flags (Q : unit -> D -> E -> Z -> Prop) d e fl :
  Q tt d e flags -> ev held (intr_restore flags) Q d e fl.
Proof. by intros HQ s Hi <- <- <-. Qed.

(** A critical section gives back the flags it was entered with. *)
Lemma ev_lock {X : Type} held l (m : K X) Q d e fl :
  l ∉ held -> ev (l :: held) m (fun x d' e' _ => Q x d' e' fl) d e (no_irq fl) ->
  ev held (with_lock l m) Q d e fl.
Proof.
  intros Hl Hm s Hi Hd He <-. unfold with_lock. apply wp_bind. apply wp_acquire; [by apply Hi|].
  set (s1 := lset (spin l) _ _).
  assert (Hl1 : lock_of l s1 = Spinlock 1 get_cpu_id (k_flags s)) by (unfold s1; apply (lget_lset (spin l))).
  assert (Hother : forall k, k <> l -> lock_of k s1 = lock_of k s).
  { intros k Hk. unfold s1, lock_of. simpl. by rewrite lookup_insert_ne. }
  assert (Hi1 : idle (l :: held) s1).
  { intros k Hk. rewrite Hother by set_solver. apply Hi. set_solver. }
  apply wp_bind. eapply wp_mono; [by apply Hm|]. intros x s2 [(Hi2 & Hh2 & Ho2) HQ].
  apply wp_bind. assert (Hl2 : lock_of l s2 = lock_of l s1) by (apply Hh2; set_solver).
  apply wp_release.
  { unfold lock_held. change (lget (spin l) s2) with (lock_of l s2). by rewrite Hl2, Hl1. }
  apply wp_ret. change (lget (spin l) s2) with (lock_of l s2). rewrite Hl2, Hl1. simpl.
  split; [|done]. split; [|split; [|by rewrite Ho2]].
  - intros k Hk. unfold lock_of. simpl. destruct (decide (k = l)) as [->|Hne].
    + by rewrite lookup_insert_eq.
    + rewrite lookup_insert_ne by done. apply Hi2. set_solver.
  - intros k Hk. assert (Hne : k <> l) by (intros ->; done). unfold lock_of. simpl.
    rewrite lookup_insert_ne by done. etrans; [|by apply Hother]. apply Hh2. set_solver.
Qed.

Lemma ev_lock_irq {X : Type} held l (m : K X) Q d e fl :
  l ∉ held -> ev (l :: held) m (fun x d' e' _ => Q x d' e' fl) d e (no_irq fl) ->
  ev held (with_lock_irq l m) Q d e fl.
Proof.
  intros Hl Hm. unfold with_lock_irq, spinlock_acquire_irqsave, spinlock_release_irqrestore.
  assert (Heq : ev held (flags <- intr_disable ;; x <- with_lock l m ;; intr_restore flags ;;; ret x) Q d e fl).
  { apply ev_bind, ev_intr_disable, ev_bind, ev_lock; [done|].
    rewrite no_irq_idem. eapply ev_mono; [exact Hm|]. intros x d' e' fl' HQ.
    by apply ev_bind, ev_intr_restore, ev_ret. }
  intros s Hi Hd He Hf. specialize (Heq s Hi Hd He Hf). revert Heq.
  unfold wp, with_lock, bind. destruct (intr_disable s) as [[flags s1]|]; [|done].
  destruct (spinlock_acquire (spin l) s1) as [[[] s2]|]; [|done]. simpl.
  destruct (m s2) as [[x s3]|]; [|done].
  destruct (spinlock_release (spin l) s3) as [[[] s4]|]; done.
Qed.

Lemma ev_init_lock held l (Q : unit -> D -> E -> Z -> Prop) d e fl :
  l ∉ held -> Q tt d e fl -> ev held (init_lock l) Q d e fl.
Proof.
  intros Hl HQ s Hi <- <- <-. unfold init_lock. apply wp_modify. split; [|done].
  split; [|split; [|done]]; intros k Hk; unfold lock_of, with_locks; simpl.
  - destruct (decide (k = l)) as [->|Hne]; [by rewrite lookup_insert_eq|].
    rewrite lookup_insert_ne by done. by apply Hi.
  - rewrite lookup_insert_ne; [done|]. by intros ->.
Qed.

(** The result of a run from a state with every lock free. *)
Lemma ev_run {X : Type} (m : K X) Q d e fl s :
  ev [] m Q d e fl -> idle [] s -> g_data (k_obj s) = d -> k_env s = e -> k_flags s = fl ->
  exists x s', m s = Ok (x, s') /\ idle [] s' /\ k_files s' = k_files s /\
    Q x (g_data (k_obj s')) (k_env s') (k_flags s').
Proof.
  intros Hm Hi Hd He Hf. destruct (proj1 (wp_run _ _ _) (Hm s Hi Hd He Hf)) as (x & s' & Hr & (H1 & _ & H2) & HQ).
  by exists x, s'.
Qed.

(** A loop [do { ... } while (again)] whose body tells whether it goes round
    again; [fuel] bounds its iterations. *)
Fixpoint do_while {X : Type} (fuel : nat) (body : K (unit + X)) : K X :=
  match fuel with
  | O => throw F_fuel
  | S fuel => r <- body ;; match r with inr x => ret x | inl _ => do_while fuel body end
  end.

(** [n] bounds the iterations left: each round that goes on lowers it. *)
Lemma ev_do_while {X : Type} held (I : nat -> D -> E -> Z -> Prop) (body : K (unit + X)) Q n fuel d e fl :
  (n < fuel)%nat -> I n d e fl ->
  (forall k d e fl, I k d e fl -> ev held body (fun r d e fl =>
     match r with inr x => Q x d e fl | inl _ => exists j, (j < k)%nat /\ I j d e fl end) d e fl) ->
  ev held (do_while fuel body) Q d e fl.
Proof.
  revert n d e fl. induction fuel as [|fuel IH]; intros n d e fl Hn HI Hb; [lia|]. simpl.
  apply ev_bind. eapply ev_mono; [by apply Hb|]. intros [[]|x] d' e' fl'.
  - intros (j & Hj & HIj). eapply IH; [|done|done]. lia.
  - intros HQ. by apply ev_ret.
Qed.
End klogic.
Arguments ev {D E X} held m Q d e fl.

(** Symbolic execution. *)
Ltac ev_step :=
  lazymatch goal with
  | |- ev _ (bind _ _) _ _ _ _ => apply ev_bind
  | |- ev _ (ret _) _ _ _ _ => apply ev_ret
  | |- ev _ (data _) _ _ _ _ => apply ev_data
  | |- ev _ (set_data _) _ _ _ _ => apply ev_set
  | |- ev _ (env_pure _) _ _ _ _ => apply ev_env
  | |- ev _ intr_disable _ _ _ _ => apply ev_intr_disable
  | |- ev _ (intr_restore _) _ _ _ _ => apply ev_intr_restore
  | |- ev _ (gets k_env) _ _ _ _ => apply ev_get_env
  end; cbv beta.
Ltac ev_steps := repeat ev_step.
Tactic Notation "ev_use" uconstr(lem) := eapply ev_mono; [eapply lem|].
