(* ===== verification/Proc.v ===== *)
(** * Processes and threads ([sys/src/libuserland/proc.c])

    The objects [struct process] and [struct proc] live at heap addresses; the
    queues and hash chains of [sys/queue.h] are the lists of their members in
    order.  Removing an object from a queue it is not on is undefined in C and
    faults here.  The scheduler's data ([amd64/cpu/scheduler.c]) is part of the
    same state.  Fields that no function here reads are left out; the sizes of
    the two structures are parameters, as the layout is the compiler's. *)

From stdpp Require Import base numbers list gmap strings.
From S2P Require Import Prelude Spinlock Kernel KLogic.

Definition PID_MAX : Z := 99999.
Definition TID_MASK : Z := 0x7ffff.
Definition PS_EXEC : Z := 0x2.
Definition PS_EMBRYO : Z := 0x20000.
Definition PS_ZOMBIE : Z := 0x40000.
Definition SIDL : Z := 1.
Definition SRUN : Z := 2.
Definition SSLEEP : Z := 3.
Definition SSTOP : Z := 4.
Definition SDEAD : Z := 6.
Definition SONPROC : Z := 7.
Definition MAXCOMLEN : nat := 24.
Definition PROCESS_KERNEL_STACK_SIZE : Z := 16 * 1024.
Definition USER_STACK_TOP : Z := 0x00007FFFFFFFF000.

Record process := Process {
  ps_refcnt : Z;
  ps_pid : Z;
  ps_comm : string;
  ps_mainproc : Z;
  ps_threads : list Z;
  ps_threadcnt : Z;
  ps_vmspace : Z;
  ps_flags : Z;
  ps_xexit : Z
}.

Record proc := Proc {
  p_p : Z;
  p_vmspace : Z;
  p_tid : Z;
  p_name : string;
  p_kstack : Z;
  p_kstack_top : Z;
  p_ustack_top : Z;
  p_stat : Z;
  p_flag : Z;
  p_runpri : Z;
  p_cpu_state : Z;
  p_cpticks : Z;
  p_slptime : Z;
  p_runtime : Z
}.

(** After [memset(p, 0, sizeof *p)]. *)
Definition process0 : process := Process 0 0 "" NULL [] 0 NULL 0 0.
Definition proc0 : proc := Proc NULL NULL 0 "" NULL 0 0 0 0 0 NULL 0 0 0.

Definition ps_set_threads (l : list Z) (n m : Z) (p : process) : process :=
  Process (ps_refcnt p) (ps_pid p) (ps_comm p) m l n (ps_vmspace p) (ps_flags p) (ps_xexit p).
Definition ps_set_flags (f : Z) (p : process) : process :=
  Process (ps_refcnt p) (ps_pid p) (ps_comm p) (ps_mainproc p) (ps_threads p) (ps_threadcnt p)
    (ps_vmspace p) f (ps_xexit p).
Definition ps_set_xexit (x : Z) (p : process) : process :=
  Process (ps_refcnt p) (ps_pid p) (ps_comm p) (ps_mainproc p) (ps_threads p) (ps_threadcnt p)
    (ps_vmspace p) (ps_flags p) x.
Definition ps_set_refcnt (n : Z) (p : process) : process :=
  Process n (ps_pid p) (ps_comm p) (ps_mainproc p) (ps_threads p) (ps_threadcnt p)
    (ps_vmspace p) (ps_flags p) (ps_xexit p).

Definition p_set_stat (x : Z) (p : proc) : proc :=
  Proc (p_p p) (p_vmspace p) (p_tid p) (p_name p) (p_kstack p) (p_kstack_top p) (p_ustack_top p)
    x (p_flag p) (p_runpri p) (p_cpu_state p) (p_cpticks p) (p_slptime p) (p_runtime p).
Definition p_set_runpri (x : Z) (p : proc) : proc :=
  Proc (p_p p) (p_vmspace p) (p_tid p) (p_name p) (p_kstack p) (p_kstack_top p) (p_ustack_top p)
    (p_stat p) (p_flag p) x (p_cpu_state p) (p_cpticks p) (p_slptime p) (p_runtime p).
Definition p_set_cpticks (x : Z) (p : proc) : proc :=
  Proc (p_p p) (p_vmspace p) (p_tid p) (p_name p) (p_kstack p) (p_kstack_top p) (p_ustack_top p)
    (p_stat p) (p_flag p) (p_runpri p) (p_cpu_state p) x (p_slptime p) (p_runtime p).
Definition p_set_slptime (x : Z) (p : proc) : proc :=
  Proc (p_p p) (p_vmspace p) (p_tid p) (p_name p) (p_kstack p) (p_kstack_top p) (p_ustack_top p)
    (p_stat p) (p_flag p) (p_runpri p) (p_cpu_state p) (p_cpticks p) x (p_runtime p).
Definition p_set_runtime (x : Z) (p : proc) : proc :=
  Proc (p_p p) (p_vmspace p) (p_tid p) (p_name p) (p_kstack p) (p_kstack_top p) (p_ustack_top p)
    (p_stat p) (p_flag p) (p_runpri p) (p_cpu_state p) (p_cpticks p) (p_slptime p) x.

(** [scheduler_stats_t] and [scheduler_data_t]. *)
Record sched_stats := SchedStats {
  total_tasks : Z;
  ready_tasks : Z;
  running_tasks : Z;
  blocked_tasks : Z;
  context_switches : Z;
  total_ticks : Z
}.

Record sched := Sched {
  queues : list (list Z);
  blocked_list : list Z;
  sleeping_list : list Z;
  terminated_list : list Z;
  idle_task : Z;
  idle_process : Z;
  timer_frequency : Z;
  time_slice_ticks : Z;
  running : bool;
  sstats : sched_stats
}.

Record psys := PSys {
  processes : gmap Z process;
  procs : gmap Z proc;
  allprocess : list Z;
  zombprocess : list Z;
  allproc : list Z;
  pidhashtbl : list (list Z);
  tidhashtbl : list (list Z);
  nextpid : Z;
  nexttid : Z;
  curproc : Z;
  scheduler : sched;
  pit_ticks : Z;
  pit_frequency : Z;
  cpu_cr3 : Z
}.

Definition set_processes (m : gmap Z process) (d : psys) : psys :=
  PSys m (procs d) (allprocess d) (zombprocess d) (allproc d) (pidhashtbl d) (tidhashtbl d)
    (nextpid d) (nexttid d) (curproc d) (scheduler d) (pit_ticks d) (pit_frequency d) (cpu_cr3 d).
Definition set_procs (m : gmap Z proc) (d : psys) : psys :=
  PSys (processes d) m (allprocess d) (zombprocess d) (allproc d) (pidhashtbl d) (tidhashtbl d)
    (nextpid d) (nexttid d) (curproc d) (scheduler d) (pit_ticks d) (pit_frequency d) (cpu_cr3 d).
Definition set_allprocess (l z : list Z) (d : psys) : psys :=
  PSys (processes d) (procs d) l z (allproc d) (pidhashtbl d) (tidhashtbl d)
    (nextpid d) (nexttid d) (curproc d) (scheduler d) (pit_ticks d) (pit_frequency d) (cpu_cr3 d).
Definition set_allproc (l : list Z) (d : psys) : psys :=
  PSys (processes d) (procs d) (allprocess d) (zombprocess d) l (pidhashtbl d) (tidhashtbl d)
    (nextpid d) (nexttid d) (curproc d) (scheduler d) (pit_ticks d) (pit_frequency d) (cpu_cr3 d).
Definition set_pidhash (t : list (list Z)) (d : psys) : psys :=
  PSys (processes d) (procs d) (allprocess d) (zombprocess d) (allproc d) t (tidhashtbl d)
    (nextpid d) (nexttid d) (curproc d) (scheduler d) (pit_ticks d) (pit_frequency d) (cpu_cr3 d).
Definition set_tidhash (t : list (list Z)) (d : psys) : psys :=
  PSys (processes d) (procs d) (allprocess d) (zombprocess d) (allproc d) (pidhashtbl d) t
    (nextpid d) (nexttid d) (curproc d) (scheduler d) (pit_ticks d) (pit_frequency d) (cpu_cr3 d).
Definition set_nextpid (n : Z) (d : psys) : psys :=
  PSys (processes d) (procs d) (allprocess d) (zombprocess d) (allproc d) (pidhashtbl d) (tidhashtbl d)
    n (nexttid d) (curproc d) (scheduler d) (pit_ticks d) (pit_frequency d) (cpu_cr3 d).
Definition set_nexttid (n : Z) (d : psys) : psys :=
  PSys (processes d) (procs d) (allprocess d) (zombprocess d) (allproc d) (pidhashtbl d) (tidhashtbl d)
    (nextpid d) n (curproc d) (scheduler d) (pit_ticks d) (pit_frequency d) (cpu_cr3 d).
Definition set_curproc (p : Z) (d : psys) : psys :=
  PSys (processes d) (procs d) (allprocess d) (zombprocess d) (allproc d) (pidhashtbl d) (tidhashtbl d)
    (nextpid d) (nexttid d) p (scheduler d) (pit_ticks d) (pit_frequency d) (cpu_cr3 d).
Definition set_scheduler (x : sched) (d : psys) : psys :=
  PSys (processes d) (procs d) (allprocess d) (zombprocess d) (allproc d) (pidhashtbl d) (tidhashtbl d)
    (nextpid d) (nexttid d) (curproc d) x (pit_ticks d) (pit_frequency d) (cpu_cr3 d).
Definition set_cpu_cr3 (c : Z) (d : psys) : psys :=
  PSys (processes d) (procs d) (allprocess d) (zombprocess d) (allproc d) (pidhashtbl d) (tidhashtbl d)
    (nextpid d) (nexttid d) (curproc d) (scheduler d) (pit_ticks d) (pit_frequency d) c.
Definition set_pit_ticks (n : Z) (d : psys) : psys :=
  PSys (processes d) (procs d) (allprocess d) (zombprocess d) (allproc d) (pidhashtbl d) (tidhashtbl d)
    (nextpid d) (nexttid d) (curproc d) (scheduler d) n (pit_frequency d) (cpu_cr3 d).

(** The static locks of [proc.c]; a process is locked at its own address
    ([ps_lock] is its first field). *)
Definition pid_alloc_lock : Z := -1.
Definition tid_alloc_lock : Z := -2.
Definition allprocess_lock : Z := -3.
Definition allproc_lock : Z := -4.
Definition pidhash_lock : Z := -5.
Definition tidhash_lock : Z := -6.

(** ** Queues *)

Fixpoint unlink (x : Z) (l : list Z) : list Z :=
  match l with
  | [] => []
  | y :: l => if decide (y = x) then l else y :: unlink x l
  end.

Definition queue_remove (x : Z) (l : list Z) : res (list Z) :=
  if decide (x ∈ l) then Ok (unlink x l) else Fault F_oob.

(** Address spaces ([paging_create_user_address_space]; the two calls of
    [process_free] that tear one down; [phys_addr]). *)
Class AddressSpaces (E : Type) `{Allocator E} := {
  as_create : E -> Z * E;
  as_destroy : Z -> E -> E;
  as_phys : Z -> E -> Z;
  as_create_live e a e' : as_create e = (a, e') -> al_live e' = al_live e;
  as_destroy_live a e : al_live (as_destroy a e) = al_live e
}.

Section proc.
Context {E : Type} `{AddressSpaces E} (sizeof_process sizeof_proc : Z).
Abbreviation K := (M (kst (guarded psys) E)).

(** A field access through a pointer. *)
Definition the_process (ps : Z) : K process :=
  m <- data processes ;;
  match m !! ps with Some p => ret p | None => throw (if ps =? NULL then F_null else F_oob) end.
Definition the_proc (p : Z) : K proc :=
  m <- data procs ;;
  match m !! p with Some t => ret t | None => throw (if p =? NULL then F_null else F_oob) end.
Definition upd_process (ps : Z) (f : process -> process) : K unit :=
  p <- the_process ps ;; set_data (fun d => set_processes (<[ps := f p]> (processes d)) d).
Definition upd_proc (p : Z) (f : proc -> proc) : K unit :=
  t <- the_proc p ;; set_data (fun d => set_procs (<[p := f t]> (procs d)) d).

Definition kmalloc_ (n : Z) : K Z := env_pure (al_alloc n).
Definition kfree_ (a : Z) : K unit := env_pure (fun e => (tt, if a =? NULL then e else al_free a e)).

(** [LIST_FOREACH(ps, list, ps_hash) if (ps->ps_pid == pid) return ps], for
    either kind of object. *)
Fixpoint find_id {A : Type} (get : Z -> K A) (idof : A -> Z) (id : Z) (l : list Z) : K Z :=
  match l with
  | [] => ret NULL
  | x :: l => o <- get x ;; if idof o =? id then ret x else find_id get idof id l
  end.
Definition find_pid : Z -> list Z -> K Z := find_id the_process ps_pid.
Definition find_tid : Z -> list Z -> K Z := find_id the_proc p_tid.

(** [PIDHASH] and [TIDHASH]: the mask is 127. *)
Definition hash_slot (id : Z) : Z := Z.land id 127.

Definition prfind (pid : Z) : K Z :=
  with_lock pidhash_lock (
    t <- data pidhashtbl ;;
    l <- lift (aread t (hash_slot pid)) ;;
    find_pid pid l).

Definition tfind (tid : Z) : K Z :=
  with_lock tidhash_lock (
    t <- data tidhashtbl ;;
    l <- lift (aread t (hash_slot tid)) ;;
    find_tid tid l).

(** A try that fails finds another process, so one more than their number
    bounds the loop. *)
Definition allocpid : K Z :=
  with_lock pid_alloc_lock (
    n <- data (fun d => size (processes d)) ;;
    do_while (S n) (
      pid <- data nextpid ;;
      set_data (set_nextpid (pid + 1)) ;;;
      (if PID_MAX <? pid + 1 then set_data (set_nextpid 1) else ret tt) ;;;
      r <- prfind pid ;;
      ret (if negb (r =? NULL) then inl tt else inr pid))).

Definition alloctid : K Z :=
  with_lock tid_alloc_lock (
    n <- data (fun d => size (procs d)) ;;
    do_while (S n) (
      tid <- data nexttid ;;
      set_data (set_nexttid (Z.land (tid + 1) TID_MASK)) ;;;
      (if Z.land (tid + 1) TID_MASK =? 0 then set_data (set_nexttid 1) else ret tt) ;;;
      r <- tfind tid ;;
      ret (if negb (r =? NULL) then inl tt else inr tid))).

(** [LIST_INSERT_HEAD] into a chain. *)
Definition pid_insert (pid ps : Z) : K unit :=
  with_lock pidhash_lock (
    t <- data pidhashtbl ;;
    l <- lift (aread t (hash_slot pid)) ;;
    t' <- lift (awrite t (hash_slot pid) (ps :: l)) ;;
    set_data (set_pidhash t')).

Definition tid_insert (tid p : Z) : K unit :=
  with_lock tidhash_lock (
    t <- data tidhashtbl ;;
    l <- lift (aread t (hash_slot tid)) ;;
    t' <- lift (awrite t (hash_slot tid) (p :: l)) ;;
    set_data (set_tidhash t')).

(** [LIST_REMOVE(ps, ps_hash)]: the chain the object is on. *)
Definition hash_remove (x : Z) (t : list (list Z)) : res (list (list Z)) :=
  if decide (Exists (fun l => x ∈ l) t) then Ok (map (unlink x) t) else Fault F_oob.

(** [LIST_REMOVE(ps, ps_list)]: [ps_list] links [allprocess] or [zombprocess]. *)
Definition ps_list_remove (ps : Z) : K unit :=
  a <- data allprocess ;;
  z <- data zombprocess ;;
  if decide (ps ∈ a ++ z) then set_data (set_allprocess (unlink ps a) (unlink ps z)) else throw F_oob.

Definition short_name (name : string) : string := String.substring 0 (MAXCOMLEN - 1) name.

Definition process_alloc (name : string) : K Z :=
  ps <- kmalloc_ sizeof_process ;;
  if ps =? NULL then ret NULL
  else
    set_data (fun d => set_processes (<[ps := process0]> (processes d)) d) ;;;
    upd_process ps (ps_set_refcnt 1) ;;;
    pid <- allocpid ;;
    upd_process ps (fun p => Process (ps_refcnt p) pid (short_name name) (ps_mainproc p) [] 0
      (ps_vmspace p) (ps_flags p) (ps_xexit p)) ;;;
    vm <- env_pure as_create ;;
    if vm =? NULL then
      set_data (fun d => set_processes (delete ps (processes d)) d) ;;;
      kfree_ ps ;;;
      ret NULL
    else
      upd_process ps (fun p => Process (ps_refcnt p) (ps_pid p) (ps_comm p) (ps_mainproc p) (ps_threads p)
        (ps_threadcnt p) vm PS_EMBRYO (ps_xexit p)) ;;;
      with_lock allprocess_lock (
        set_data (fun d => set_allprocess (ps :: allprocess d) (zombprocess d) d)) ;;;
      pid_insert pid ps ;;;
      ret ps.

Definition process_free (ps : Z) : K unit :=
  if ps =? NULL then ret tt
  else
    busy <- with_lock ps (p <- the_process ps ;; ret (0 <? ps_threadcnt p)) ;;
    if busy : bool then ret tt
    else
      with_lock allprocess_lock (ps_list_remove ps) ;;;
      with_lock pidhash_lock (
        t <- data pidhashtbl ;;
        t' <- lift (hash_remove ps t) ;;
        set_data (set_pidhash t')) ;;;
      p <- the_process ps ;;
      (if negb (ps_vmspace p =? NULL) then env_pure (fun e => (tt, as_destroy (ps_vmspace p) e)) else ret tt) ;;;
      set_data (fun d => set_processes (delete ps (processes d)) d) ;;;
      kfree_ ps.

Definition proc_alloc (ps : Z) (name : option string) : K Z :=
  if ps =? NULL then ret NULL
  else
    p <- kmalloc_ sizeof_proc ;;
    if p =? NULL then ret NULL
    else
      pr <- the_process ps ;;
      set_data (fun d => set_procs (<[p := proc0]> (procs d)) d) ;;;
      tid <- alloctid ;;
      kstack <- kmalloc_ PROCESS_KERNEL_STACK_SIZE ;;
      if kstack =? NULL then
        set_data (fun d => set_procs (delete p (procs d)) d) ;;;
        kfree_ p ;;;
        ret NULL
      else
        let nm := short_name (match name with Some n => n | None => ps_comm pr end) in
        upd_proc p (fun t => Proc ps (ps_vmspace pr) tid nm kstack
          (u64 (kstack + PROCESS_KERNEL_STACK_SIZE)) USER_STACK_TOP SIDL 0 (p_runpri t) (p_cpu_state t)
          (p_cpticks t) (p_slptime t) (p_runtime t)) ;;;
        with_lock ps (
          upd_process ps (fun r => ps_set_threads (ps_threads r ++ [p]) (u32 (ps_threadcnt r + 1))
            (if ps_mainproc r =? NULL then p else ps_mainproc r) r)) ;;;
        with_lock allproc_lock (set_data (fun d => set_allproc (allproc d ++ [p]) d)) ;;;
        tid_insert tid p ;;;
        ret p.

Definition proc_free (p : Z) : K unit :=
  if p =? NULL then ret tt
  else
    t <- the_proc p ;;
    let ps := p_p t in
    if ps =? NULL then ret tt
    else
      threadcnt <- with_lock ps (
        r <- the_process ps ;;
        l <- lift (queue_remove p (ps_threads r)) ;;
        upd_process ps (ps_set_threads l (u32 (ps_threadcnt r - 1))
          (if ps_mainproc r =? p then hd NULL l else ps_mainproc r)) ;;;
        ret (u32 (ps_threadcnt r - 1))) ;;
      (if threadcnt =? 0 then
         upd_process ps (fun r => ps_set_flags (Z.lor (ps_flags r) PS_ZOMBIE) r) ;;;
         with_lock allprocess_lock (
           ps_list_remove ps ;;;
           set_data (fun d => set_allprocess (allprocess d) (ps :: zombprocess d) d))
       else ret tt) ;;;
      with_lock allproc_lock (
        l <- data allproc ;;
        l' <- lift (queue_remove p l) ;;
        set_data (set_allproc l')) ;;;
      with_lock tidhash_lock (
        h <- data tidhashtbl ;;
        h' <- lift (hash_remove p h) ;;
        set_data (set_tidhash h')) ;;;
      kfree_ (p_kstack t) ;;;
      set_data (fun d => set_procs (delete p (procs d)) d) ;;;
      kfree_ p.

Definition process_addref (ps : Z) : K unit :=
  upd_process ps (fun p => ps_set_refcnt (u32 (ps_refcnt p + 1)) p).

Definition process_release (ps : Z) : K unit :=
  p <- the_process ps ;;
  upd_process ps (ps_set_refcnt (u32 (ps_refcnt p - 1))) ;;;
  if u32 (ps_refcnt p - 1) =? 0 then process_free ps else ret tt.

(** [proc_init]: the chains are empty, or the kernel halts without memory. *)
Definition proc_init : K unit :=
  a <- kmalloc_ (128 * 8) ;;
  b <- kmalloc_ (128 * 8) ;;
  if (a =? NULL) || (b =? NULL) then throw F_spin
  else
    set_data (set_pidhash (replicate 128 [])) ;;;
    set_data (set_tidhash (replicate 128 [])).
End proc.
