(* ===== verification/ProcFacts.v ===== *)
(** * Facts about the process tables

    Queues with the removal of a member; [id_table], the meaning of a hash
    table of objects with unique numbers; the search for an unused number,
    which ends because every try that fails finds another object. *)

From stdpp Require Import base numbers list list_numbers gmap strings.
From S2P Require Import Prelude Spinlock Kernel KLogic Proc.

(** ** Queues *)

Lemma unlink_perm x l : x ∈ l -> l ≡ₚ x :: unlink x l.
Proof.
  induction l as [|y l IH]; intros Hx; [by apply elem_of_nil in Hx|]. simpl.
  destruct (decide (y = x)) as [->|Hne]; [done|].
  apply elem_of_cons in Hx as [->|Hx]; [done|]. rewrite (IH Hx) at 1. by apply Permutation_swap.
Qed.

Lemma unlink_absent x l : x ∉ l -> unlink x l = l.
Proof.
  induction l as [|y l IH]; intros Hx; [done|]. simpl. apply not_elem_of_cons in Hx as [Hne Hx].
  rewrite decide_False by done. by rewrite IH.
Qed.

Lemma unlink_elem x y l : NoDup l -> y ∈ unlink x l <-> y ∈ l /\ y <> x.
Proof.
  intros Hnd. destruct (decide (x ∈ l)) as [Hx|Hx].
  - pose proof (unlink_perm x l Hx) as Hp. generalize dependent (unlink x l). intros u Hp.
    assert (Hnx : x ∉ u) by (rewrite Hp in Hnd; by apply NoDup_cons in Hnd as [? _]).
    rewrite Hp, elem_of_cons.
    split; [intros Hy; split; [by right|by intros ->]|]. by intros [[->|Hy] Hne].
  - rewrite unlink_absent by done. split; [|by intros [? _]]. intros Hy. split; [done|by intros ->].
Qed.

Lemma unlink_nodup x l : NoDup l -> NoDup (unlink x l).
Proof.
  intros Hnd. destruct (decide (x ∈ l)) as [Hx|Hx]; [|by rewrite unlink_absent].
  rewrite (unlink_perm x l Hx) in Hnd. by apply NoDup_cons in Hnd as [_ ?].
Qed.

Lemma unlink_length x l : x ∈ l -> length l = S (length (unlink x l)).
Proof. intros Hx. exact (Permutation_length (unlink_perm x l Hx)). Qed.

(** A list and a set with the same members. *)
Definition lists (l : list Z) (X : gset Z) : Prop := NoDup l /\ forall x, x ∈ l <-> x ∈ X.

Lemma lists_cons x l X : lists l X -> x ∉ X -> lists (x :: l) ({[x]} ∪ X).
Proof.
  intros [Hnd Hm] Hx. split; [constructor; [by rewrite Hm|done]|]. intros y.
  rewrite elem_of_cons, elem_of_union, elem_of_singleton. by rewrite Hm.
Qed.

Lemma lists_snoc x l X : lists l X -> x ∉ X -> lists (l ++ [x]) ({[x]} ∪ X).
Proof.
  intros Hl Hx. destruct (lists_cons x l X Hl Hx) as [Hnd Hm].
  assert (Hp : l ++ [x] ≡ₚ x :: l) by (by rewrite Permutation_app_comm).
  split; [by rewrite Hp|]. intros y. by rewrite Hp.
Qed.

Lemma lists_unlink x l X : lists l X -> lists (unlink x l) (X ∖ {[x]}).
Proof.
  intros [Hnd Hm]. split; [by apply unlink_nodup|]. intros y.
  rewrite unlink_elem, elem_of_difference, elem_of_singleton by done. by rewrite Hm.
Qed.

Lemma lists_perm l l' X : l ≡ₚ l' -> lists l X -> lists l' X.
Proof. intros Hp [Hnd Hm]. split; [by rewrite <- Hp|]. intros y. rewrite <- Hp. apply Hm. Qed.

Lemma lists_length l X : lists l X -> length l = size X.
Proof.
  intros [Hnd Hm]. rewrite <- (size_list_to_set (C := gset Z)) by done. f_equal.
  apply set_eq. intros x. rewrite elem_of_list_to_set. apply Hm.
Qed.

(** ** Tables of numbered objects *)

Section table.
Context {A : Type} (idof : A -> Z) (max : Z).

(** [tbl] chains the objects of [on], each with a number of its own. *)
Record id_table (objs : gmap Z A) (tbl : list (list Z)) (on : gset Z) : Prop := {
  it_len : length tbl = 128%nat;
  it_nodup i l : tbl !! i = Some l -> NoDup l;
  it_mem i l x : tbl !! i = Some l ->
    (x ∈ l <-> x ∈ on /\ exists o, objs !! x = Some o /\ Z.to_nat (hash_slot (idof o)) = i);
  it_in x : x ∈ on -> x <> NULL /\ exists o, objs !! x = Some o /\ 1 <= idof o <= max;
  it_inj x y o o' : x ∈ on -> y ∈ on -> objs !! x = Some o -> objs !! y = Some o' -> idof o = idof o' -> x = y
}.

(** The number [id] is in use. *)
Definition used (objs : gmap Z A) (on : gset Z) (id x : Z) : Prop :=
  x ∈ on /\ exists o, objs !! x = Some o /\ idof o = id.

(** What a search returns. *)
Definition found (objs : gmap Z A) (on : gset Z) (id r : Z) : Prop :=
  (r <> NULL /\ used objs on id r) \/ (r = NULL /\ forall x, ~ used objs on id x).

Lemma hash_slot_bound id : 0 <= id -> 0 <= hash_slot id < 128.
Proof.
  intros Hid. unfold hash_slot. change 127 with (Z.ones 7). rewrite Z.land_ones by lia.
  apply Z.mod_pos_bound. lia.
Qed.

Lemma id_table_read objs tbl on id :
  id_table objs tbl on -> 0 <= id ->
  exists l, tbl !! Z.to_nat (hash_slot id) = Some l /\ aread tbl (hash_slot id) = Ok l.
Proof.
  intros Ht Hid. pose proof (hash_slot_bound id Hid) as Hb.
  destruct (lookup_lt_is_Some_2 tbl (Z.to_nat (hash_slot id))) as [l Hl]; [rewrite (it_len _ _ _ Ht); lia|].
  exists l. split; [done|]. unfold aread. rewrite decide_True by lia. by rewrite Hl.
Qed.

Lemma id_table_write objs tbl on id l :
  id_table objs tbl on -> 0 <= id -> awrite tbl (hash_slot id) l = Ok (<[Z.to_nat (hash_slot id) := l]> tbl).
Proof.
  intros Ht Hid. pose proof (hash_slot_bound id Hid) as Hb. unfold awrite.
  rewrite decide_True; [done|]. rewrite (it_len _ _ _ Ht). lia.
Qed.

(** The objects that are not in the table do not matter. *)
Lemma id_table_objs objs objs' tbl on :
  id_table objs tbl on -> (forall x, x ∈ on -> idof <$> objs' !! x = idof <$> objs !! x) ->
  id_table objs' tbl on.
Proof.
  intros Ht Heq.
  assert (Hget : forall x o, x ∈ on -> objs' !! x = Some o -> exists o', objs !! x = Some o' /\ idof o' = idof o).
  { intros x o Hx Ho. specialize (Heq x Hx). rewrite Ho in Heq. destruct (objs !! x) as [o'|]; [|done].
    simpl in Heq. exists o'. split; [done|congruence]. }
  assert (Hput : forall x o, x ∈ on -> objs !! x = Some o -> exists o', objs' !! x = Some o' /\ idof o' = idof o).
  { intros x o Hx Ho. specialize (Heq x Hx). rewrite Ho in Heq. destruct (objs' !! x) as [o'|]; [|done].
    simpl in Heq. exists o'. split; [done|congruence]. }
  split; [apply Ht|apply Ht| | |].
  - intros i l x Hl. rewrite (it_mem _ _ _ Ht i l x Hl). split; intros [Hx (o & Ho & Hi)]; split; try done.
    + destruct (Hput x o Hx Ho) as (o' & Ho' & E). exists o'. by rewrite E.
    + destruct (Hget x o Hx Ho) as (o' & Ho' & E). exists o'. by rewrite E.
  - intros x Hx. destruct (it_in _ _ _ Ht x Hx) as (Hn & o & Ho & Hr). split; [done|].
    destruct (Hput x o Hx Ho) as (o' & Ho' & E). exists o'. by rewrite E.
  - intros x y o o' Hx Hy Ho Ho' E. destruct (Hget x o Hx Ho) as (a & Ha & Ea).
    destruct (Hget y o' Hy Ho') as (b & Hb & Eb). eapply (it_inj _ _ _ Ht x y a b); [done..|congruence].
Qed.

Lemma id_table_insert objs tbl on x o l :
  id_table objs tbl on -> x ∉ on -> x <> NULL -> objs !! x = Some o -> 1 <= idof o <= max ->
  (forall y, ~ used objs on (idof o) y) ->
  tbl !! Z.to_nat (hash_slot (idof o)) = Some l ->
  id_table objs (<[Z.to_nat (hash_slot (idof o)) := x :: l]> tbl) ({[x]} ∪ on).
Proof.
  intros Ht Hx Hn Ho Hr Hfree Hl. set (h := Z.to_nat (hash_slot (idof o))) in *.
  assert (Hlt : (h < length tbl)%nat) by (by apply lookup_lt_Some in Hl).
  split.
  - rewrite length_insert. apply Ht.
  - intros i k Hk. apply list_lookup_insert_Some in Hk as [(<- & <- & _)|[_ Hk]]; [|by apply (it_nodup _ _ _ Ht i)].
    constructor; [|by apply (it_nodup _ _ _ Ht h)]. rewrite (it_mem _ _ _ Ht h l x Hl). by intros [? _].
  - intros i k y Hk. rewrite elem_of_union, elem_of_singleton.
    apply list_lookup_insert_Some in Hk as [(<- & <- & _)|[Hne Hk]].
    + rewrite elem_of_cons, (it_mem _ _ _ Ht h l y Hl). split.
      * intros [->|[Hy He]]; [split; [by left|by exists o]|split; [by right|done]].
      * intros [[->|Hy] He]; [by left|by right].
    + rewrite (it_mem _ _ _ Ht i k y Hk). split; [intros [Hy He]; split; [by right|done]|].
      intros [[->|Hy] He]; [|done]. destruct He as (o' & Ho' & Hi). exfalso. apply Hne.
      replace o' with o in Hi by congruence. done.
  - intros y Hy. apply elem_of_union in Hy as [->%elem_of_singleton|Hy]; [|by apply (it_in _ _ _ Ht)].
    split; [done|by exists o].
  - intros y z oy oz Hy Hz Hoy Hoz E.
    apply elem_of_union in Hy as [->%elem_of_singleton|Hy], Hz as [->%elem_of_singleton|Hz]; [done| | |].
    + replace oy with o in * by congruence. destruct (Hfree z). split; [done|by exists oz].
    + replace oz with o in * by congruence. destruct (Hfree y). split; [done|by exists oy].
    + by eapply (it_inj _ _ _ Ht y z oy oz).
Qed.

(** [LIST_REMOVE] from its chain. *)
Lemma id_table_remove objs tbl on x :
  id_table objs tbl on -> x ∈ on -> hash_remove x tbl = Ok (map (unlink x) tbl).
Proof.
  intros Ht Hx. destruct (it_in _ _ _ Ht x Hx) as (_ & o & Ho & Hr).
  destruct (id_table_read objs tbl on (idof o) Ht) as (l & Hl & _); [lia|].
  unfold hash_remove. rewrite decide_True; [done|]. apply Exists_exists. exists l.
  split; [by eapply list_elem_of_lookup_2|]. rewrite (it_mem _ _ _ Ht _ _ x Hl). split; [done|by exists o].
Qed.

Lemma id_table_unlink objs tbl on x :
  id_table objs tbl on -> id_table objs (map (unlink x) tbl) (on ∖ {[x]}).
Proof.
  intros Ht.
  assert (Hin : forall i l, map (unlink x) tbl !! i = Some l -> exists k, tbl !! i = Some k /\ l = unlink x k).
  { intros i l Hl. apply list_lookup_fmap_Some in Hl as (k & -> & Hk). by exists k. }
  split.
  - rewrite length_map. apply Ht.
  - intros i l Hl. destruct (Hin i l Hl) as (k & Hk & ->). apply unlink_nodup. by apply (it_nodup _ _ _ Ht i).
  - intros i l y Hl. destruct (Hin i l Hl) as (k & Hk & ->).
    rewrite unlink_elem by (by apply (it_nodup _ _ _ Ht i)). rewrite (it_mem _ _ _ Ht i k y Hk).
    rewrite elem_of_difference, elem_of_singleton. tauto.
  - intros y Hy. apply (it_in _ _ _ Ht). by apply elem_of_difference in Hy as [? _].
  - intros y z oy oz Hy Hz. apply elem_of_difference in Hy as [Hy _], Hz as [Hz _].
    by apply (it_inj _ _ _ Ht).
Qed.

(** ** The search for an unused number *)

(** The [j]-th number tried, from [n]. *)
Definition cyc (n : Z) (j : nat) : Z := (n - 1 + Z.of_nat j) mod max + 1.

Lemma cyc_bound n j : 0 < max -> 1 <= cyc n j <= max.
Proof. intros Hm. unfold cyc. pose proof (Z.mod_pos_bound (n - 1 + Z.of_nat j) max Hm). lia. Qed.

Lemma cyc_0 n : 1 <= n <= max -> cyc n 0 = n.
Proof. intros Hn. unfold cyc. rewrite Z.mod_small by lia. lia. Qed.

Lemma cyc_S n j : 0 < max -> cyc n (S j) = cyc n j mod max + 1.
Proof.
  intros Hm. unfold cyc. rewrite Zplus_mod_idemp_l. f_equal. f_equal. lia.
Qed.

Lemma cyc_inj n i j : Z.of_nat i < max -> Z.of_nat j < max -> cyc n i = cyc n j -> i = j.
Proof.
  unfold cyc. intros Hi Hj E. assert (Hm : 0 < max) by lia.
  assert (E' : (n - 1 + Z.of_nat i) mod max = (n - 1 + Z.of_nat j) mod max) by lia. clear E.
  pose proof (Z.div_mod (n - 1 + Z.of_nat i) max ltac:(lia)).
  pose proof (Z.div_mod (n - 1 + Z.of_nat j) max ltac:(lia)).
  set (a := (n - 1 + Z.of_nat i) / max) in *. set (b := (n - 1 + Z.of_nat j) / max) in *.
  assert (a = b) by nia. subst a. nia.
Qed.

(** No more objects than numbers. *)
Lemma id_table_size objs tbl on : 0 <= max -> id_table objs tbl on -> Z.of_nat (size on) <= max.
Proof.
  intros Hm Ht. set (ids := map (fun x => default 0 (idof <$> objs !! x)) (elements on)).
  assert (Hid : forall x, x ∈ on -> exists o, objs !! x = Some o /\ default 0 (idof <$> objs !! x) = idof o).
  { intros x Hx. destruct (it_in _ _ _ Ht x Hx) as (_ & o & Ho & _). exists o. by rewrite Ho. }
  assert (Hnd : NoDup ids).
  { unfold ids. apply NoDup_fmap_2_strong; [|apply NoDup_elements]. intros x y Hx%elem_of_elements Hy%elem_of_elements.
    destruct (Hid x Hx) as (o & Ho & ->), (Hid y Hy) as (o' & Ho' & ->). by apply (it_inj _ _ _ Ht x y). }
  assert (Hlen : length ids = size on) by (unfold ids; by rewrite length_map).
  assert (Hsub : ids ⊆ seqZ 1 max).
  { intros c Hc. unfold ids in Hc. apply list_elem_of_fmap in Hc as (x & -> & Hx%elem_of_elements).
    apply elem_of_seqZ. destruct (it_in _ _ _ Ht x Hx) as (_ & o & Ho & Hb). rewrite Ho. simpl. lia. }
  pose proof (submseteq_length _ _ (NoDup_submseteq _ _ Hnd Hsub)) as Hsm.
  rewrite length_seqZ in Hsm. lia.
Qed.

(** The numbers tried without success are those of as many objects. *)
Lemma tries_bounded objs on n k :
  Z.of_nat k <= max -> (forall j, (j < k)%nat -> exists x, used objs on (cyc n j) x) -> (k <= size on)%nat.
Proof.
  intros Hk Hused.
  set (ids := list_to_set (map (fun x => default 0 (idof <$> objs !! x)) (elements on)) : gset Z).
  assert (Hsz : (size ids <= size on)%nat).
  { unfold ids. change (size on) with (length (elements on)).
    rewrite <- (length_map (fun x => default 0 (idof <$> objs !! x)) (elements on)).
    induction (map (fun x => default 0 (idof <$> objs !! x)) (elements on)) as [|y l IH]; simpl.
    - done.
    - rewrite size_union_alt, size_singleton. etrans; [|apply le_n_S, IH].
      apply le_n_S. apply subseteq_size. set_solver. }
  etrans; [|exact Hsz]. set (cs := map (cyc n) (seq 0 k)).
  assert (Hnd : NoDup cs).
  { unfold cs. apply NoDup_fmap_2_strong; [|apply NoDup_seq]. intros i j Hi Hj.
    apply elem_of_seq in Hi, Hj. apply cyc_inj; lia. }
  assert (Hl : length cs = k) by (unfold cs; by rewrite length_map, length_seq).
  rewrite <- Hl, <- (size_list_to_set (C := gset Z)) by done. apply subseteq_size.
  intros c Hc. rewrite elem_of_list_to_set in Hc. unfold cs in Hc.
  apply list_elem_of_fmap in Hc as (j & -> & Hj). apply elem_of_seq in Hj.
  destruct (Hused j) as (x & Hx & o & Ho & E); [lia|]. unfold ids. rewrite elem_of_list_to_set.
  apply list_elem_of_fmap. exists x. split; [by rewrite Ho|]. by apply elem_of_elements.
Qed.
End table.

(** ** The process tables: numbers and searches

    [prfind] and [tfind] return the object with the number, or null;
    [allocpid] and [alloctid] end with a number nobody has. *)

Section numbers.
Context {E : Type} `{AddressSpaces E}.
Abbreviation K := (M (kst (guarded psys) E)).
Implicit Types (d : psys) (e : E) (fl : Z) (held : list Z).

Lemma ev_the_process held ps r (Q : process -> psys -> E -> Z -> Prop) d e fl :
  processes d !! ps = Some r -> Q r d e fl -> ev held (the_process ps) Q d e fl.
Proof. intros Hr HQ. unfold the_process. ev_steps. rewrite Hr. by apply ev_ret. Qed.

Lemma ev_the_proc held p t (Q : proc -> psys -> E -> Z -> Prop) d e fl :
  procs d !! p = Some t -> Q t d e fl -> ev held (the_proc p) Q d e fl.
Proof. intros Ht HQ. unfold the_proc. ev_steps. rewrite Ht. by apply ev_ret. Qed.

Lemma ev_upd_process held ps r f (Q : unit -> psys -> E -> Z -> Prop) d e fl :
  processes d !! ps = Some r -> Q tt (set_processes (<[ps := f r]> (processes d)) d) e fl ->
  ev held (upd_process ps f) Q d e fl.
Proof. intros Hr HQ. unfold upd_process. ev_step. eapply ev_the_process; [done|]. by ev_step. Qed.

Lemma ev_upd_proc held p t f (Q : unit -> psys -> E -> Z -> Prop) d e fl :
  procs d !! p = Some t -> Q tt (set_procs (<[p := f t]> (procs d)) d) e fl ->
  ev held (upd_proc p f) Q d e fl.
Proof. intros Ht HQ. unfold upd_proc. ev_step. eapply ev_the_proc; [done|]. by ev_step. Qed.

Lemma ev_find_id {A : Type} (get : Z -> K A) (idof : A -> Z) (objs : gmap Z A) id l held
    (Q : Z -> psys -> E -> Z -> Prop) d e fl :
  (forall x o (R : A -> psys -> E -> Z -> Prop), objs !! x = Some o -> R o d e fl -> ev held (get x) R d e fl) ->
  (forall x, x ∈ l -> is_Some (objs !! x)) ->
  (forall r, (r ∈ l /\ exists o, objs !! r = Some o /\ idof o = id) \/
     (r = NULL /\ forall x o, x ∈ l -> objs !! x = Some o -> idof o <> id) -> Q r d e fl) ->
  ev held (find_id get idof id l) Q d e fl.
Proof.
  intros Hget. induction l as [|x l IH]; intros Hin HQ; simpl.
  - apply ev_ret, HQ. right. split; [done|]. intros x o Hx. by apply elem_of_nil in Hx.
  - destruct (Hin x) as [o Ho]; [by left|]. ev_step. apply (Hget x o); [done|].
    destruct (Z.eqb_spec (idof o) id) as [Hid|Hid].
    + apply ev_ret, HQ. left. split; [by left|by exists o].
    + apply IH; [intros y Hy; apply Hin; by right|]. intros r [[Hr He]|[-> Hn]]; apply HQ.
      * left. split; [by right|done].
      * right. split; [done|]. intros y o' Hy Ho'. apply elem_of_cons in Hy as [->|Hy]; [congruence|by eapply Hn].
Qed.

(** A search in a table. *)
Lemma ev_search {A : Type} (get : Z -> K A) (idof : A -> Z) max (objs : gmap Z A) tbl on id held
    (Q : Z -> psys -> E -> Z -> Prop) d e fl :
  (forall x o (R : A -> psys -> E -> Z -> Prop), objs !! x = Some o -> R o d e fl -> ev held (get x) R d e fl) ->
  id_table idof max objs tbl on -> 0 <= id ->
  (forall r, found idof objs on id r -> Q r d e fl) ->
  ev held (l <- lift (aread tbl (hash_slot id)) ;; find_id get idof id l) Q d e fl.
Proof.
  intros Hget Ht Hid HQ. destruct (id_table_read _ _ _ _ _ _ Ht Hid) as (l & Hl & Hr). ev_step.
  eapply ev_lift; [done|]. eapply ev_find_id; [done| |].
  - intros x Hx. apply (it_mem _ _ _ _ _ Ht _ _ _ Hl) in Hx as [_ (o & Ho & _)]. by exists o.
  - intros r [[Hin (o & Ho & Eo)]|[-> Hn]]; apply HQ.
    + apply (it_mem _ _ _ _ _ Ht _ _ _ Hl) in Hin as [Hon _]. left.
      split; [by apply (it_in _ _ _ _ _ Ht)|]. split; [done|by exists o].
    + right. split; [done|]. intros x [Hx (o & Ho & Eo)]. eapply (Hn x o); [|done|done].
      apply (it_mem _ _ _ _ _ Ht _ _ _ Hl). split; [done|]. exists o. split; [done|by rewrite Eo].
Qed.

Definition pid_table d on := id_table ps_pid PID_MAX (processes d) (pidhashtbl d) on.
Definition tid_table d on := id_table p_tid TID_MASK (procs d) (tidhashtbl d) on.

Lemma tids_bounded d on : tid_table d on -> Z.of_nat (size on) <= TID_MASK.
Proof. apply id_table_size. done. Qed.

Lemma ev_prfind held pid on (Q : Z -> psys -> E -> Z -> Prop) d e fl :
  pidhash_lock ∉ held -> pid_table d on -> 0 <= pid ->
  (forall r, found ps_pid (processes d) on pid r -> Q r d e fl) -> ev held (prfind pid) Q d e fl.
Proof.
  intros Hl Ht Hid HQ. unfold prfind. apply ev_lock; [done|]. do 2 ev_step. unfold find_pid.
  eapply ev_search; [|done|done|done]. intros x o R. apply ev_the_process.
Qed.

Lemma ev_tfind held tid on (Q : Z -> psys -> E -> Z -> Prop) d e fl :
  tidhash_lock ∉ held -> tid_table d on -> 0 <= tid ->
  (forall r, found p_tid (procs d) on tid r -> Q r d e fl) -> ev held (tfind tid) Q d e fl.
Proof.
  intros Hl Ht Hid HQ. unfold tfind. apply ev_lock; [done|]. do 2 ev_step. unfold find_tid.
  eapply ev_search; [|done|done|done]. intros x o R. apply ev_the_proc.
Qed.

(** The loop of both allocators: [next] and [set] are the counter, [find] the
    search.  [j] tries have failed. *)
Lemma ev_alloc_id {A : Type} (idof : A -> Z) max (objs : gmap Z A) on (body : K (unit + Z))
    (next : psys -> Z) (set : Z -> psys -> psys) held fuel (Q : Z -> psys -> E -> Z -> Prop) d e fl :
  (forall n, next (set n d) = n) -> set (next d) d = d ->
  0 < max -> 1 <= next d <= max -> Z.of_nat (size on) < max -> (size on < fuel)%nat ->
  (forall n, 1 <= n <= max -> ev held body (fun r d' e' fl' =>
     d' = set (n mod max + 1) d /\ e' = e /\ fl' = fl /\
     match r with inr id => id = n /\ forall x, ~ used idof objs on n x
                | inl _ => exists x, used idof objs on n x end) (set n d) e fl) ->
  (forall id n, 1 <= id <= max -> (forall x, ~ used idof objs on id x) -> 1 <= n <= max ->
     Q id (set n d) e fl) ->
  ev held (do_while fuel body) Q d e fl.
Proof.
  intros Hget Hset Hm Hn Hsz Hfuel Hbody HQ.
  set (I := fun k d' e' fl' => exists j, (j + k = size on)%nat /\ d' = set (cyc max (next d) j) d /\ e' = e /\ fl' = fl /\
    forall i, (i < j)%nat -> exists x, used idof objs on (cyc max (next d) i) x).
  apply (ev_do_while held I _ Q (size on)); [lia| |].
  - exists 0%nat. split; [lia|]. rewrite cyc_0, Hset by done. split_and!; [done..|]. intros i Hi. lia.
  - intros k d' e' fl' (j & Hjk & -> & -> & -> & Hused).
    pose proof (cyc_bound max (next d) j Hm) as Hb. eapply ev_mono; [by apply Hbody|].
    intros [[]|id] d2 e2 fl2 (-> & -> & -> & Hr).
    + assert (Hused' : forall i, (i < S j)%nat -> exists x, used idof objs on (cyc max (next d) i) x).
      { intros i Hi. destruct (decide (i = j)) as [->|Hne]; [done|]. apply Hused. lia. }
      assert (Hle : (S j <= size on)%nat) by (apply (tries_bounded idof max objs on (next d) (S j)); [lia|done]).
      exists (k - 1)%nat. split; [lia|]. exists (S j). rewrite cyc_S by done. split_and!; [lia|done..].
    + destruct Hr as [-> Hfree]. apply HQ; [done|done|]. rewrite <- cyc_S by done. by apply cyc_bound.
Qed.

Lemma ev_allocpid held on (Q : Z -> psys -> E -> Z -> Prop) d e fl :
  pid_alloc_lock ∉ held -> pidhash_lock ∉ held -> pid_table d on -> 1 <= nextpid d <= PID_MAX ->
  Z.of_nat (size on) < PID_MAX -> (size on <= size (processes d))%nat ->
  (forall pid n, 1 <= pid <= PID_MAX -> (forall x, ~ used ps_pid (processes d) on pid x) ->
     1 <= n <= PID_MAX -> Q pid (set_nextpid n d) e fl) ->
  ev held allocpid Q d e fl.
Proof.
  intros Hl1 Hl2 Ht Hn Hsz Hle HQ. unfold allocpid. apply ev_lock; [done|]. do 2 ev_step.
  eapply (ev_alloc_id ps_pid PID_MAX (processes d) on _ nextpid set_nextpid);
    [done|by destruct d|done|done|done|lia| |done].
  intros n Hb. do 4 ev_step. simpl.
  assert (Hnext : (if PID_MAX <? n + 1 then 1 else n + 1) = n mod PID_MAX + 1).
  { destruct (Z.ltb_spec PID_MAX (n + 1)).
    - replace n with PID_MAX by lia. by rewrite Z.mod_same.
    - rewrite Z.mod_small by lia. lia. }
  assert (Hset : forall Q', Q' tt (set_nextpid (n mod PID_MAX + 1) d) e (no_irq fl) ->
    ev (pid_alloc_lock :: held) (if PID_MAX <? n + 1 then set_data (set_nextpid 1) else ret tt) Q'
      (set_nextpid (n + 1) (set_nextpid n d)) e (no_irq fl)).
  { intros Q'. rewrite <- Hnext. destruct (PID_MAX <? n + 1); intros; by ev_step. }
  ev_step. apply Hset. ev_step. eapply ev_prfind; [set_solver|exact Ht|lia|]. simpl.
  intros r [[Hr Hu]|[-> Hfree]]; ev_step.
  - rewrite (proj2 (Z.eqb_neq r NULL)) by done. split_and!; [done..|by exists r].
  - split_and!; done.
Qed.

Lemma ev_alloctid held on (Q : Z -> psys -> E -> Z -> Prop) d e fl :
  tid_alloc_lock ∉ held -> tidhash_lock ∉ held -> tid_table d on -> 1 <= nexttid d <= TID_MASK ->
  Z.of_nat (size on) < TID_MASK -> (size on <= size (procs d))%nat ->
  (forall tid n, 1 <= tid <= TID_MASK -> (forall x, ~ used p_tid (procs d) on tid x) ->
     1 <= n <= TID_MASK -> Q tid (set_nexttid n d) e fl) ->
  ev held alloctid Q d e fl.
Proof.
  intros Hl1 Hl2 Ht Hn Hsz Hle HQ. unfold alloctid. apply ev_lock; [done|]. do 2 ev_step.
  eapply (ev_alloc_id p_tid TID_MASK (procs d) on _ nexttid set_nexttid);
    [done|by destruct d|done|done|done|lia| |done].
  intros n Hb. do 4 ev_step. simpl.
  assert (Hland : Z.land (n + 1) TID_MASK = (n + 1) mod 2 ^ 19).
  { change TID_MASK with (Z.ones 19). by rewrite Z.land_ones. }
  assert (Hnext : (if Z.land (n + 1) TID_MASK =? 0 then 1 else Z.land (n + 1) TID_MASK) = n mod TID_MASK + 1).
  { rewrite Hland. unfold TID_MASK in *. destruct (Z.eqb_spec ((n + 1) mod 2 ^ 19) 0); dlia. }
  assert (Hset : forall Q', Q' tt (set_nexttid (n mod TID_MASK + 1) d) e (no_irq fl) ->
    ev (tid_alloc_lock :: held) (if Z.land (n + 1) TID_MASK =? 0 then set_data (set_nexttid 1) else ret tt) Q'
      (set_nexttid (Z.land (n + 1) TID_MASK) (set_nexttid n d)) e (no_irq fl)).
  { intros Q'. rewrite <- Hnext. destruct (Z.land (n + 1) TID_MASK =? 0); intros; by ev_step. }
  ev_step. apply Hset. ev_step. eapply ev_tfind; [set_solver|exact Ht|lia|]. simpl.
  intros r [[Hr Hu]|[-> Hfree]]; ev_step.
  - rewrite (proj2 (Z.eqb_neq r NULL)) by done. split_and!; [done..|by exists r].
  - split_and!; done.
Qed.
End numbers.
