(* ===== verification/ProcInv.v ===== *)
(** * The invariant of the process tables and the operations that keep it *)

From stdpp Require Import base numbers list gmap strings.
From S2P Require Import Prelude Spinlock Kernel KLogic Proc ProcFacts.

(** Every thread is on the list of its process, in order of creation, and the
    main thread is the oldest one left. *)
Record threads_inv (P : gmap Z process) (T : gmap Z proc) : Prop := {
  ti_list ps r : P !! ps = Some r ->
    NoDup (ps_threads r) /\ ps_threadcnt r = Z.of_nat (length (ps_threads r)) /\
    ps_mainproc r = hd NULL (ps_threads r) /\
    forall p, p ∈ ps_threads r <-> exists t, T !! p = Some t /\ p_p t = ps;
  ti_owner p t : T !! p = Some t -> is_Some (P !! p_p t)
}.

(** The objects and the kernel stacks are distinct live blocks of the heap. *)
Record blocks_inv (P : gmap Z process) (T : gmap Z proc) (live : gset Z) : Prop := {
  bi_process ps r : P !! ps = Some r -> ps ∈ live /\ T !! ps = None;
  bi_proc p t : T !! p = Some t ->
    p ∈ live /\ p_kstack t ∈ live /\ p_kstack t <> NULL /\ T !! p_kstack t = None /\ P !! p_kstack t = None;
  bi_stack p q t u : T !! p = Some t -> T !! q = Some u -> p_kstack t = p_kstack u -> p = q
}.

Record tables_inv (d : psys) : Prop := {
  tb_pids : pid_table d (dom (processes d));
  tb_tids : tid_table d (dom (procs d));
  tb_nextpid : 1 <= nextpid d <= PID_MAX;
  tb_nexttid : 1 <= nexttid d <= TID_MASK;
  tb_process : lists (allprocess d ++ zombprocess d) (dom (processes d));
  tb_proc : lists (allproc d) (dom (procs d))
}.

Record pinv {E : Type} `{Allocator E} (d : psys) (e : E) : Prop := {
  pi_tables : tables_inv d;
  pi_threads : threads_inv (processes d) (procs d);
  pi_blocks : blocks_inv (processes d) (procs d) (al_live e)
}.

(** The parts of the state that belong to the scheduler. *)
Definition sched_part (d : psys) : sched * Z * Z * Z * Z :=
  (scheduler d, curproc d, pit_ticks d, pit_frequency d, cpu_cr3 d).

Section facts.
Implicit Types (P : gmap Z process) (T : gmap Z proc).

Lemma threads_bound P T ps r :
  threads_inv P T -> P !! ps = Some r -> (length (ps_threads r) <= size T)%nat.
Proof.
  intros HI Hr. destruct (ti_list _ _ HI ps r Hr) as (Hnd & _ & _ & Hm).
  rewrite <- (size_list_to_set (C := gset Z)), <- size_dom by done. apply subseteq_size.
  intros p Hp. apply elem_of_list_to_set, Hm in Hp as (t & Ht & _). by eapply elem_of_dom_2.
Qed.

Lemma threads_new_process P T ps r :
  threads_inv P T -> P !! ps = None -> ps_threads r = [] -> ps_threadcnt r = 0 -> ps_mainproc r = NULL ->
  threads_inv (<[ps := r]> P) T.
Proof.
  intros HI Hps Hl Hc Hm. split.
  - intros q x Hx. apply lookup_insert_Some in Hx as [[<- <-]|[Hne Hx]]; [|by apply (ti_list _ _ HI)].
    rewrite Hl, Hc, Hm. split_and!; [constructor|done|done|]. intros p.
    split; [intros Hp; by apply elem_of_nil in Hp|]. intros (t & Ht & E).
    destruct (ti_owner _ _ HI p t Ht) as [x Hx]. congruence.
  - intros p t Ht. destruct (ti_owner _ _ HI p t Ht) as [x Hx]. rewrite lookup_insert_is_Some'. right. by exists x.
Qed.

Lemma threads_drop_process P T ps r :
  threads_inv P T -> P !! ps = Some r -> ps_threads r = [] -> threads_inv (delete ps P) T.
Proof.
  intros HI Hr Hl. split.
  - intros q x Hx. apply lookup_delete_Some in Hx as [_ Hx]. by apply (ti_list _ _ HI).
  - intros p t Ht. rewrite lookup_delete_is_Some. split; [|by apply (ti_owner _ _ HI p t)]. intros E.
    destruct (ti_list _ _ HI ps r Hr) as (_ & _ & _ & Hm). rewrite Hl in Hm.
    assert (Hin : p ∈ []) by (apply Hm; by exists t). by apply elem_of_nil in Hin.
Qed.

Lemma hd_snoc (l : list Z) (m p : Z) : m = hd NULL l -> (forall x, x ∈ l -> x <> NULL) ->
  (if m =? NULL then p else m) = hd NULL (l ++ [p]).
Proof.
  intros -> Hn. destruct l as [|x l]; [done|]. simpl. rewrite (proj2 (Z.eqb_neq x NULL)); [done|].
  apply Hn. by left.
Qed.

Lemma threads_new_proc P T ps r p t :
  threads_inv P T -> P !! ps = Some r -> T !! p = None -> p_p t = ps -> (forall x, is_Some (T !! x) -> x <> NULL) ->
  Z.of_nat (size T) < 2 ^ 32 - 1 ->
  threads_inv (<[ps := ps_set_threads (ps_threads r ++ [p]) (u32 (ps_threadcnt r + 1))
                  (if ps_mainproc r =? NULL then p else ps_mainproc r) r]> P) (<[p := t]> T).
Proof.
  intros HI Hr Hp Ht Hnn Hsz. destruct (ti_list _ _ HI ps r Hr) as (Hnd & Hc & Hm & Hmem).
  assert (Hpl : p ∉ ps_threads r) by (rewrite Hmem; intros (x & Hx & _); congruence).
  pose proof (threads_bound P T ps r HI Hr) as Hb. split.
  - intros q x Hx. apply lookup_insert_Some in Hx as [[<- <-]|[Hne Hx]]; simpl.
    + split_and!.
      * apply NoDup_app. split_and!; [done| |apply NoDup_singleton]. intros y Hy Hyp. apply list_elem_of_singleton in Hyp as ->. done.
      * rewrite Hc, length_app. simpl. unfold u32. rewrite Z.mod_small by lia. lia.
      * apply hd_snoc; [done|]. intros y (ty & Hy & _)%Hmem. by apply Hnn.
      * intros y. rewrite elem_of_app, list_elem_of_singleton, Hmem. split.
        -- intros [(ty & Hy & E)| ->]; [exists ty; split; [|done]; rewrite lookup_insert_ne; congruence|].
           exists t. by rewrite lookup_insert_eq.
        -- intros (ty & Hy & E). apply lookup_insert_Some in Hy as [[<- <-]|[Hyn Hy]]; [by right|left; by exists ty].
    + destruct (ti_list _ _ HI q x Hx) as (Hnd' & Hc' & Hm' & Hmem'). split_and!; [done..|].
      intros y. rewrite Hmem'. split.
      * intros (ty & Hy & E). exists ty. split; [|done]. rewrite lookup_insert_ne; congruence.
      * intros (ty & Hy & E). apply lookup_insert_Some in Hy as [[<- <-]|[Hyn Hy]]; [congruence|by exists ty].
  - intros q x Hx. apply lookup_insert_Some in Hx as [[<- <-]|[Hne Hx]].
    + rewrite Ht, lookup_insert_eq. by eexists.
    + rewrite lookup_insert_is_Some'. right. by apply (ti_owner _ _ HI q x).
Qed.

Lemma hd_unlink (l : list Z) m p : m = hd NULL l -> p ∈ l ->
  (if m =? p then hd NULL (unlink p l) else m) = hd NULL (unlink p l).
Proof.
  intros -> Hp. destruct l as [|x l]; [by apply elem_of_nil in Hp|]. simpl.
  destruct (Z.eqb_spec x p) as [->|Hne]; [done|]. by rewrite decide_False.
Qed.

Lemma threads_drop_proc P T ps r p t r' :
  threads_inv P T -> P !! ps = Some r -> T !! p = Some t -> p_p t = ps ->
  Z.of_nat (size T) < 2 ^ 32 -> ps_threads r' = unlink p (ps_threads r) ->
  ps_threadcnt r' = u32 (ps_threadcnt r - 1) ->
  ps_mainproc r' = (if ps_mainproc r =? p then hd NULL (unlink p (ps_threads r)) else ps_mainproc r) ->
  threads_inv (<[ps := r']> P) (delete p T).
Proof.
  intros HI Hr Ht Hps Hsz El Ec Em. destruct (ti_list _ _ HI ps r Hr) as (Hnd & Hc & Hm & Hmem).
  assert (Hpl : p ∈ ps_threads r) by (rewrite Hmem; by exists t).
  pose proof (threads_bound P T ps r HI Hr) as Hb. pose proof (unlink_length p (ps_threads r) Hpl) as Hlen. split.
  - intros q x Hx. apply lookup_insert_Some in Hx as [[<- <-]|[Hne Hx]].
    + rewrite El, Ec, Em. split_and!.
      * by apply unlink_nodup.
      * rewrite Hc, Hlen. unfold u32. rewrite Z.mod_small by lia. lia.
      * by apply hd_unlink.
      * intros y. rewrite unlink_elem, Hmem by done. setoid_rewrite lookup_delete_Some. naive_solver.
    + destruct (ti_list _ _ HI q x Hx) as (Hnd' & Hc' & Hm' & Hmem'). split_and!; [done..|].
      intros y. rewrite Hmem'. setoid_rewrite lookup_delete_Some. split; [|naive_solver].
      intros (ty & Hy & E). exists ty. split_and!; [|done..]. intros ->. congruence.
  - intros q x Hx. apply lookup_delete_Some in Hx as [_ Hx]. rewrite lookup_insert_is_Some'. right.
    by apply (ti_owner _ _ HI q x).
Qed.

(** A process record may change otherwise, and a thread record too. *)
Lemma threads_set_process P T ps r r' :
  threads_inv P T -> P !! ps = Some r -> ps_threads r' = ps_threads r -> ps_threadcnt r' = ps_threadcnt r ->
  ps_mainproc r' = ps_mainproc r -> threads_inv (<[ps := r']> P) T.
Proof.
  intros HI Hr El Ec Em. split.
  - intros q x Hx. apply lookup_insert_Some in Hx as [[<- <-]|[Hne Hx]]; [|by apply (ti_list _ _ HI)].
    rewrite El, Ec, Em. by apply (ti_list _ _ HI).
  - intros p t Ht. rewrite lookup_insert_is_Some'. right. by apply (ti_owner _ _ HI p t).
Qed.

Lemma threads_set_proc P T p t t' :
  threads_inv P T -> T !! p = Some t -> p_p t' = p_p t -> threads_inv P (<[p := t']> T).
Proof.
  intros HI Ht E.
  assert (Hex : forall y ps, (exists u, T !! y = Some u /\ p_p u = ps) <->
                             (exists u, <[p := t']> T !! y = Some u /\ p_p u = ps)).
  { intros y ps. destruct (decide (y = p)) as [->|Hne].
    - rewrite lookup_insert_eq. naive_solver congruence.
    - by rewrite lookup_insert_ne. }
  split.
  - intros q x Hx. destruct (ti_list _ _ HI q x Hx) as (Hnd & Hc & Hm & Hmem). split_and!; [done..|].
    intros y. by rewrite Hmem, Hex.
  - intros q x Hx. apply lookup_insert_Some in Hx as [[<- <-]|[Hne Hx]]; [rewrite E|]; by eapply (ti_owner _ _ HI).
Qed.

Lemma blocks_new_process P T live ps r :
  blocks_inv P T live -> ps ∉ live -> blocks_inv (<[ps := r]> P) T ({[ps]} ∪ live).
Proof.
  intros HI Hps. assert (HT : T !! ps = None).
  { apply eq_None_not_Some. intros [t Ht]. by destruct (bi_proc _ _ _ HI ps t Ht) as [? _]. }
  split.
  - intros q x Hx. apply lookup_insert_Some in Hx as [[<- <-]|[Hne Hx]].
    + split; [set_solver|done].
    + destruct (bi_process _ _ _ HI q x Hx) as [Hl Hn]. split; [set_solver|done].
  - intros p t Ht. destruct (bi_proc _ _ _ HI p t Ht) as (H1 & H2 & H3 & H4 & H5).
    split_and!; [set_solver..|done|done|]. rewrite lookup_insert_ne; [done|]. by intros ->.
  - apply (bi_stack _ _ _ HI).
Qed.

Lemma blocks_drop_process P T live ps r :
  blocks_inv P T live -> P !! ps = Some r -> blocks_inv (delete ps P) T (live ∖ {[ps]}).
Proof.
  intros HI Hr. destruct (bi_process _ _ _ HI ps r Hr) as [Hl Hn]. split.
  - intros q x Hx. apply lookup_delete_Some in Hx as [Hne Hx].
    destruct (bi_process _ _ _ HI q x Hx). split; [set_solver|done].
  - intros p t Ht. destruct (bi_proc _ _ _ HI p t Ht) as (H1 & H2 & H3 & H4 & H5).
    assert (p <> ps) by congruence. assert (p_kstack t <> ps) by congruence.
    split_and!; [set_solver..|done|done|]. by rewrite lookup_delete_ne.
  - apply (bi_stack _ _ _ HI).
Qed.

Lemma blocks_new_proc P T live p t :
  blocks_inv P T live -> p ∉ live -> p_kstack t ∉ {[p]} ∪ live -> p_kstack t <> NULL ->
  blocks_inv P (<[p := t]> T) ({[p_kstack t]} ∪ ({[p]} ∪ live)).
Proof.
  intros HI Hp Hk Hnn.
  assert (HPn : forall x, x ∉ live -> P !! x = None).
  { intros x Hx. apply eq_None_not_Some. intros [r Hr]. by destruct (bi_process _ _ _ HI x r Hr). }
  assert (HTn : forall x, x ∉ live -> T !! x = None).
  { intros x Hx. apply eq_None_not_Some. intros [r Hr]. by destruct (bi_proc _ _ _ HI x r Hr). }
  split.
  - intros q x Hx. destruct (bi_process _ _ _ HI q x Hx) as [Hl Hn]. split; [set_solver|].
    rewrite lookup_insert_ne; [done|]. by intros <-.
  - intros q x Hx. apply lookup_insert_Some in Hx as [[<- <-]|[Hne Hx]].
    + split_and!; [set_solver..|done| |by apply HPn; set_solver].
      rewrite lookup_insert_ne by set_solver. apply HTn. set_solver.
    + destruct (bi_proc _ _ _ HI q x Hx) as (H1 & H2 & H3 & H4 & H5). split_and!; [set_solver..|done| |done].
      rewrite lookup_insert_ne; [done|]. by intros ->.
  - intros q q' x x' Hx Hx' E.
    apply lookup_insert_Some in Hx as [[<- <-]|[Hne Hx]], Hx' as [[<- <-]|[Hne' Hx']]; [done| | |].
    + destruct (bi_proc _ _ _ HI q' x' Hx') as (_ & H2 & _). exfalso. apply Hk. rewrite E. by apply elem_of_union_r.
    + destruct (bi_proc _ _ _ HI q x Hx) as (_ & H2 & _). exfalso. apply Hk. rewrite <- E. by apply elem_of_union_r.
    + by eapply (bi_stack _ _ _ HI).
Qed.

Lemma blocks_drop_proc P T live p t :
  blocks_inv P T live -> T !! p = Some t -> blocks_inv P (delete p T) ((live ∖ {[p_kstack t]}) ∖ {[p]}).
Proof.
  intros HI Ht. destruct (bi_proc _ _ _ HI p t Ht) as (K1 & K2 & K3 & K4 & K5). split.
  - intros q x Hx. destruct (bi_process _ _ _ HI q x Hx) as [Hl Hn].
    assert (q <> p) by congruence. assert (q <> p_kstack t) by congruence.
    split; [set_solver|]. by rewrite lookup_delete_ne.
  - intros q x Hx. apply lookup_delete_Some in Hx as [Hne Hx].
    destruct (bi_proc _ _ _ HI q x Hx) as (H1 & H2 & H3 & H4 & H5).
    assert (q <> p_kstack t) by congruence. assert (p_kstack x <> p) by congruence.
    assert (p_kstack x <> p_kstack t) by (intros E; apply Hne; by eapply (bi_stack _ _ _ HI)).
    split_and!; [set_solver..|done| |done]. rewrite lookup_delete_None. by right.
  - intros q q' x x' [_ Hx]%lookup_delete_Some [_ Hx']%lookup_delete_Some. by apply (bi_stack _ _ _ HI).
Qed.

Lemma blocks_set_process P T live ps r r' :
  blocks_inv P T live -> P !! ps = Some r -> blocks_inv (<[ps := r']> P) T live.
Proof.
  intros HI Hr. split.
  - intros q x Hx. apply lookup_insert_Some in Hx as [[<- <-]|[Hne Hx]]; by eapply (bi_process _ _ _ HI).
  - intros p t Ht. destruct (bi_proc _ _ _ HI p t Ht) as (H1 & H2 & H3 & H4 & H5). split_and!; try done.
    rewrite lookup_insert_ne; congruence.
  - apply (bi_stack _ _ _ HI).
Qed.

Lemma blocks_set_proc P T live p t t' :
  blocks_inv P T live -> T !! p = Some t -> p_kstack t' = p_kstack t -> blocks_inv P (<[p := t']> T) live.
Proof.
  intros HI Ht E.
  assert (Hold : forall q x, <[p := t']> T !! q = Some x -> exists y, T !! q = Some y /\ p_kstack x = p_kstack y).
  { intros q x Hx. apply lookup_insert_Some in Hx as [[<- <-]|[Hne Hx]]; [by exists t|by exists x]. }
  assert (Hnone : forall q, T !! q = None -> <[p := t']> T !! q = None).
  { intros q Hq. rewrite lookup_insert_ne; congruence. }
  split.
  - intros q x Hx. destruct (bi_process _ _ _ HI q x Hx). split; [done|by apply Hnone].
  - intros q x Hx. destruct (Hold q x Hx) as (y & Hy & ->).
    destruct (bi_proc _ _ _ HI q y Hy) as (H1 & H2 & H3 & H4 & H5). split_and!; [done..| |done]. by apply Hnone.
  - intros q q' x x' Hx Hx'. destruct (Hold q x Hx) as (y & Hy & ->), (Hold q' x' Hx') as (y' & Hy' & ->).
    by apply (bi_stack _ _ _ HI).
Qed.
End facts.
