(* ===== verification/ProcOps.v ===== *)
(** * What the operations on processes and threads do *)

From stdpp Require Import base numbers list gmap strings.
From S2P Require Import Prelude Spinlock Kernel KLogic Proc ProcFacts ProcInv.

Section ops.
Context {E : Type} `{AddressSpaces E} (sizeof_process sizeof_proc : Z).
Abbreviation K := (M (kst (guarded psys) E)).
Implicit Types (d : psys) (e : E) (fl : Z) (held : list Z).

Lemma ev_pid_insert held pid ps r on (Q : unit -> psys -> E -> Z -> Prop) d e fl :
  pidhash_lock ∉ held -> pid_table d on -> ps ∉ on -> ps <> NULL -> processes d !! ps = Some r ->
  ps_pid r = pid -> 1 <= pid <= PID_MAX -> (forall y, ~ used ps_pid (processes d) on pid y) ->
  (forall t', id_table ps_pid PID_MAX (processes d) t' ({[ps]} ∪ on) -> Q tt (set_pidhash t' d) e fl) ->
  ev held (pid_insert pid ps) Q d e fl.
Proof.
  intros Hl Ht Hon Hn Hr <- Hb Hfree HQ. unfold pid_insert. apply ev_lock; [done|]. do 2 ev_step.
  destruct (id_table_read _ _ _ _ _ (ps_pid r) Ht) as (l & Hc & Hrd); [lia|]. ev_step.
  eapply ev_lift; [done|]. ev_step. eapply ev_lift; [eapply id_table_write; [done|lia]|]. ev_step.
  apply HQ. by apply id_table_insert.
Qed.

Lemma ev_tid_insert held tid p t on (Q : unit -> psys -> E -> Z -> Prop) d e fl :
  tidhash_lock ∉ held -> tid_table d on -> p ∉ on -> p <> NULL -> procs d !! p = Some t ->
  p_tid t = tid -> 1 <= tid <= TID_MASK -> (forall y, ~ used p_tid (procs d) on tid y) ->
  (forall t', id_table p_tid TID_MASK (procs d) t' ({[p]} ∪ on) -> Q tt (set_tidhash t' d) e fl) ->
  ev held (tid_insert tid p) Q d e fl.
Proof.
  intros Hl Ht Hon Hn Hr <- Hb Hfree HQ. unfold tid_insert. apply ev_lock; [done|]. do 2 ev_step.
  destruct (id_table_read _ _ _ _ _ (p_tid t) Ht) as (l & Hc & Hrd); [lia|]. ev_step.
  eapply ev_lift; [done|]. ev_step. eapply ev_lift; [eapply id_table_write; [done|lia]|]. ev_step.
  apply HQ. by apply id_table_insert.
Qed.

(** The new block is not one of the objects. *)
Lemma fresh_block d e a : pinv d e -> a ∉ al_live e ->
  processes d !! a = None /\ procs d !! a = None.
Proof.
  intros HI Ha. split; apply eq_None_not_Some; intros [x Hx].
  - by destruct (bi_process _ _ _ (pi_blocks _ _ HI) a x Hx).
  - by destruct (bi_proc _ _ _ (pi_blocks _ _ HI) a x Hx).
Qed.

Lemma used_mono {A : Type} (idof : A -> Z) (objs objs' : gmap Z A) on id x :
  (forall y, y ∈ on -> idof <$> objs' !! y = idof <$> objs !! y) ->
  used idof objs' on id x -> used idof objs on id x.
Proof.
  intros Heq [Hx (o & Ho & Ei)]. split; [done|]. specialize (Heq x Hx). rewrite Ho in Heq.
  destruct (objs !! x) as [o'|]; [|done]. exists o'. simpl in Heq. split; [done|congruence].
Qed.

Lemma insert_other {A : Type} (idof : A -> Z) (objs : gmap Z A) a x (y : Z) :
  objs !! a = None -> y ∈ dom objs -> idof <$> <[a := x]> objs !! y = idof <$> objs !! y.
Proof. intros Ha Hy%elem_of_dom. rewrite lookup_insert_ne; [done|]. intros ->. destruct Hy. congruence. Qed.

Lemma tables_new_process d ps r t' n :
  tables_inv d -> processes d !! ps = None -> 1 <= n <= PID_MAX ->
  id_table ps_pid PID_MAX (<[ps := r]> (processes d)) t' ({[ps]} ∪ dom (processes d)) ->
  tables_inv (set_pidhash t' (set_allprocess (ps :: allprocess d) (zombprocess d)
    (set_processes (<[ps := r]> (processes d)) (set_nextpid n d)))).
Proof.
  intros HT Hps Hn Ht'. split; simpl.
  - unfold pid_table. simpl. by rewrite dom_insert_L.
  - apply HT.
  - done.
  - apply HT.
  - rewrite dom_insert_L. apply (lists_cons ps _ _ (tb_process _ HT)). by apply not_elem_of_dom.
  - apply HT.
Qed.

Lemma nextpid_id d : set_nextpid (nextpid d) d = d.
Proof. by destruct d. Qed.

Lemma pinv_nextpid d e n : pinv d e -> 1 <= n <= PID_MAX -> pinv (set_nextpid n d) e.
Proof. intros [HT ? ?] Hn. split; [|done..]. destruct HT. by split. Qed.

Lemma pinv_live d e e' : al_live e' = al_live e -> pinv d e -> pinv d e'.
Proof. intros El [? ? Hb]. split; [done..|by rewrite El]. Qed.

Lemma ev_process_alloc name (Q : Z -> psys -> E -> Z -> Prop) d e fl :
  pinv d e -> Z.of_nat (size (processes d)) < PID_MAX ->
  (forall n e', pinv (set_nextpid n d) e' -> Q NULL (set_nextpid n d) e' fl) ->
  (forall ps pid vm d' e', ps <> NULL -> processes d !! ps = None -> procs d !! ps = None ->
     1 <= pid <= PID_MAX -> (forall x, ~ used ps_pid (processes d) (dom (processes d)) pid x) ->
     processes d' = <[ps := Process 1 pid (short_name name) NULL [] 0 vm PS_EMBRYO 0]> (processes d) ->
     procs d' = procs d -> sched_part d' = sched_part d -> pinv d' e' -> Q ps d' e' fl) ->
  ev [] (process_alloc sizeof_process name) Q d e fl.
Proof.
  intros HI Hsz Hnull Hok. unfold process_alloc, kmalloc_. do 2 ev_step.
  destruct (al_alloc sizeof_process e) as [ps e1] eqn:Hal. simpl.
  destruct (al_alloc_spec _ _ _ _ Hal) as [[-> Hlive]|(Hr & Hfresh & Hlive)].
  { simpl. ev_step. rewrite <- (nextpid_id d). apply Hnull. rewrite nextpid_id. by eapply pinv_live. }
  assert (Hn : ps <> NULL) by (unfold NULL; lia). rewrite (proj2 (Z.eqb_neq ps NULL)) by done.
  destruct (fresh_block d e ps HI Hfresh) as [HPn HTn]. pose proof (tb_pids _ (pi_tables _ _ HI)) as Hpt.
  do 3 ev_step. eapply ev_upd_process; [apply lookup_insert_eq|]. simpl. rewrite insert_insert_eq.
  ev_step. eapply (ev_allocpid _ (dom (processes d))); [set_solver..| | | | |].
  { eapply id_table_objs; [exact Hpt|]. intros x Hx. by apply insert_other. }
  { apply (tb_nextpid _ (pi_tables _ _ HI)). }
  { by rewrite size_dom. }
  { simpl. rewrite map_size_insert_None, size_dom by done. lia. }
  simpl. intros pid n Hpid Hfree Hnb. ev_step. eapply ev_upd_process; [apply lookup_insert_eq|]. simpl.
  rewrite insert_insert_eq. do 2 ev_step. destruct (as_create e1) as [vm e2] eqn:Has. simpl.
  pose proof (as_create_live _ _ _ Has) as Hl2. destruct (Z.eqb_spec vm NULL) as [->|Hvm].
  - do 2 ev_step. simpl. rewrite delete_insert_id by done. unfold kfree_. do 2 ev_step. simpl.
    rewrite (proj2 (Z.eqb_neq ps NULL)) by done. ev_step.
    match goal with |- Q _ ?x _ _ => replace x with (set_nextpid n d) by (by destruct d) end.
    apply Hnull. apply pinv_nextpid; [|done]. eapply pinv_live; [|exact HI].
    rewrite al_free_spec by (rewrite Hl2, Hlive; set_solver). rewrite Hl2, Hlive. set_solver.
  - ev_step. eapply ev_upd_process; [apply lookup_insert_eq|]. simpl. rewrite insert_insert_eq.
    set (r := Process 1 pid _ _ _ _ _ _ _).
    ev_step. apply ev_lock; [set_solver|]. ev_step. simpl. ev_step.
    eapply (ev_pid_insert _ _ ps r (dom (processes d)));
      [set_solver| |by apply not_elem_of_dom|done|apply lookup_insert_eq|done|done| |].
    { eapply id_table_objs; [exact Hpt|]. intros x Hx. by apply insert_other. }
    { intros y Hy. apply (Hfree y). eapply used_mono; [|exact Hy]. intros z Hz. simpl.
      rewrite !(insert_other ps_pid (processes d) ps _ z) by done. done. }
    simpl. intros t' Ht'. ev_step. eapply (Hok ps pid vm); [done..| | | | |].
    { intros y Hy. apply (Hfree y). eapply used_mono; [|exact Hy]. intros z Hz. simpl.
      by rewrite (insert_other ps_pid (processes d) ps _ z). }
    { done. } { done. } { done. }
    pose proof (tables_new_process d ps r t' n (pi_tables _ _ HI) HPn Hnb Ht') as HT. split.
    + exact HT.
    + simpl. by apply threads_new_process; [apply HI|..].
    + simpl. rewrite Hl2, Hlive. by apply blocks_new_process; [apply HI|].
Qed.

Lemma ev_ps_list_remove held ps (Q : unit -> psys -> E -> Z -> Prop) d e fl X :
  lists (allprocess d ++ zombprocess d) X -> ps ∈ X ->
  Q tt (set_allprocess (unlink ps (allprocess d)) (unlink ps (zombprocess d)) d) e fl ->
  ev held (ps_list_remove ps) Q d e fl.
Proof.
  intros [_ Hm] Hps HQ. unfold ps_list_remove. ev_steps. rewrite decide_True by (by apply Hm). by ev_step.
Qed.

Lemma unlink_app x (l k : list Z) : NoDup (l ++ k) -> unlink x l ++ unlink x k = unlink x (l ++ k).
Proof.
  induction l as [|y l IH]; intros Hnd; [done|]. simpl in *. apply NoDup_cons in Hnd as [Hy Hnd].
  destruct (decide (y = x)) as [->|Hne]; [|simpl; by rewrite IH].
  rewrite (unlink_absent x k); [done|]. intros Hx. apply Hy. apply elem_of_app. by right.
Qed.

Lemma ev_process_free_busy ps r (Q : unit -> psys -> E -> Z -> Prop) d e fl :
  pinv d e -> processes d !! ps = Some r -> ps_threads r <> [] -> Q tt d e fl ->
  ev [] (process_free ps) Q d e fl.
Proof.
  intros HI Hr Hl HQ. unfold process_free.
  assert (Hn : ps <> NULL) by (eapply (it_in _ _ _ _ _ (tb_pids _ (pi_tables _ _ HI))); by eapply elem_of_dom_2).
  rewrite (proj2 (Z.eqb_neq ps NULL)) by done. ev_step. apply ev_lock; [set_solver|]. ev_step.
  eapply ev_the_process; [done|]. ev_step. destruct (ti_list _ _ (pi_threads _ _ HI) ps r Hr) as (_ & Hc & _).
  rewrite (proj2 (Z.ltb_lt _ _)); [by ev_step|]. rewrite Hc. destruct (ps_threads r); [done|simpl; lia].
Qed.

Lemma ev_process_free ps r (Q : unit -> psys -> E -> Z -> Prop) d e fl :
  pinv d e -> processes d !! ps = Some r -> ps_threads r = [] ->
  (forall d' e', processes d' = delete ps (processes d) -> procs d' = procs d ->
     sched_part d' = sched_part d -> al_live e' = al_live e ∖ {[ps]} -> pinv d' e' -> Q tt d' e' fl) ->
  ev [] (process_free ps) Q d e fl.
Proof.
  intros HI Hr Hl HQ. unfold process_free. pose proof (pi_tables _ _ HI) as HT.
  assert (Hd : ps ∈ dom (processes d)) by (by eapply elem_of_dom_2).
  assert (Hn : ps <> NULL) by (by eapply (it_in _ _ _ _ _ (tb_pids _ HT))).
  rewrite (proj2 (Z.eqb_neq ps NULL)) by done. ev_step. apply ev_lock; [set_solver|]. ev_step.
  eapply ev_the_process; [done|]. ev_step. destruct (ti_list _ _ (pi_threads _ _ HI) ps r Hr) as (_ & Hc & _).
  rewrite Hl in Hc. rewrite Hc. simpl. ev_step. apply ev_lock; [set_solver|].
  eapply ev_ps_list_remove; [apply HT|done|]. ev_step. apply ev_lock; [set_solver|]. do 2 ev_step. simpl.
  ev_step. eapply ev_lift; [eapply id_table_remove; [apply (tb_pids _ HT)|done]|]. ev_step. ev_step.
  eapply ev_the_process; [done|]. ev_step.
  assert (Hlive : forall e1, al_live e1 = al_live e -> forall fl1,
    fl1 = fl -> ev [] (set_data (fun d => set_processes (delete ps (processes d)) d) ;;; kfree_ ps) Q
      (set_pidhash (map (unlink ps) (pidhashtbl d))
        (set_allprocess (unlink ps (allprocess d)) (unlink ps (zombprocess d)) d)) e1 fl1).
  { intros e1 He1 fl1 ->. do 2 ev_step. unfold kfree_. ev_step. simpl.
    rewrite (proj2 (Z.eqb_neq ps NULL)) by done.
    assert (Hlv : al_live (al_free ps e1) = al_live e ∖ {[ps]}).
    { rewrite al_free_spec, He1; [done|]. rewrite He1. by apply (bi_process _ _ _ (pi_blocks _ _ HI) ps r). }
    apply HQ; [done..|]. split; simpl.
    - split; simpl.
      + unfold pid_table. simpl. rewrite dom_delete_L. eapply id_table_objs; [apply id_table_unlink, HT|].
        intros x [_ Hx]%elem_of_difference. rewrite lookup_delete_ne; [done|]. intros ->.
        by apply Hx, elem_of_singleton.
      + apply HT.
      + apply HT.
      + apply HT.
      + rewrite unlink_app by apply HT. rewrite dom_delete_L. apply lists_unlink, HT.
      + apply HT.
    - eapply threads_drop_process; [apply HI|done|done].
    - rewrite Hlv. eapply blocks_drop_process; [apply HI|done]. }
  destruct (Z.eqb_spec (ps_vmspace r) NULL) as [Hv|Hv]; cbn [negb]; ev_step; apply Hlive; try done.
  simpl. apply as_destroy_live.
Qed.

(** The thread [proc_alloc] sets up. *)
Definition new_thread (ps : Z) (r : process) (tid kstack : Z) (name : option string) : proc :=
  Proc ps (ps_vmspace r) tid (short_name (match name with Some n => n | None => ps_comm r end)) kstack
    (u64 (kstack + PROCESS_KERNEL_STACK_SIZE)) USER_STACK_TOP SIDL 0 0 NULL 0 0 0.

(** The process with one thread more. *)
Definition with_thread (p : Z) (r : process) : process :=
  ps_set_threads (ps_threads r ++ [p]) (u32 (ps_threadcnt r + 1))
    (if ps_mainproc r =? NULL then p else ps_mainproc r) r.

(** The process with one thread less: a zombie after its last one. *)
Definition without_thread (p : Z) (r : process) : process :=
  let l := unlink p (ps_threads r) in
  let r' := ps_set_threads l (u32 (ps_threadcnt r - 1)) (if ps_mainproc r =? p then hd NULL l else ps_mainproc r) r in
  match l with [] => ps_set_flags (Z.lor (ps_flags r) PS_ZOMBIE) r' | _ => r' end.

Lemma nexttid_id d : set_nexttid (nexttid d) d = d.
Proof. by destruct d. Qed.

Lemma pinv_nexttid d e n : pinv d e -> 1 <= n <= TID_MASK -> pinv (set_nexttid n d) e.
Proof. intros [HT ? ?] Hn. split; [|done..]. destruct HT. by split. Qed.

Lemma dom_update {A : Type} (m : gmap Z A) k a b : m !! k = Some a -> dom (<[k := b]> m) = dom m.
Proof. intros Hk. rewrite dom_insert_L. apply elem_of_dom_2 in Hk. set_solver. Qed.

Lemma lists_nonnull d e : pinv d e -> forall x, is_Some (procs d !! x) -> x <> NULL.
Proof. intros HI x Hx%elem_of_dom. by apply (it_in _ _ _ _ _ (tb_tids _ (pi_tables _ _ HI))). Qed.

(** Only the threads of a process change. *)
Lemma pid_table_update d ps r r' tbl :
  id_table ps_pid PID_MAX (processes d) tbl (dom (processes d)) -> processes d !! ps = Some r ->
  ps_pid r' = ps_pid r ->
  id_table ps_pid PID_MAX (<[ps := r']> (processes d)) tbl (dom (<[ps := r']> (processes d))).
Proof.
  intros Ht Hr Er. rewrite (dom_update _ _ _ _ Hr). eapply id_table_objs; [done|]. intros x Hx.
  destruct (decide (x = ps)) as [->|Hne]; [rewrite lookup_insert_eq, Hr; simpl; congruence|].
  by rewrite lookup_insert_ne.
Qed.

Lemma tables_new_proc d ps r r' p t t' n :
  tables_inv d -> processes d !! ps = Some r -> ps_pid r' = ps_pid r -> procs d !! p = None ->
  1 <= n <= TID_MASK ->
  id_table p_tid TID_MASK (<[p := t]> (procs d)) t' ({[p]} ∪ dom (procs d)) ->
  tables_inv (set_tidhash t' (set_allproc (allproc d ++ [p])
    (set_processes (<[ps := r']> (processes d)) (set_procs (<[p := t]> (procs d)) (set_nexttid n d))))).
Proof.
  intros HT Hr Er Hp Hn Ht'. split; simpl.
  - unfold pid_table. simpl. by eapply pid_table_update; [apply HT|..].
  - unfold tid_table. simpl. by rewrite dom_insert_L.
  - apply HT.
  - done.
  - rewrite (dom_update _ _ _ _ Hr). apply HT.
  - rewrite dom_insert_L. apply (lists_snoc p _ _ (tb_proc _ HT)). by apply not_elem_of_dom.
Qed.

Lemma ev_proc_alloc ps r name (Q : Z -> psys -> E -> Z -> Prop) d e fl :
  pinv d e -> processes d !! ps = Some r -> Z.of_nat (size (procs d)) < TID_MASK ->
  (forall n e', pinv (set_nexttid n d) e' -> Q NULL (set_nexttid n d) e' fl) ->
  (forall p tid kstack d' e', p <> NULL -> processes d !! p = None -> procs d !! p = None ->
     1 <= tid <= TID_MASK -> (forall x, ~ used p_tid (procs d) (dom (procs d)) tid x) ->
     procs d' = <[p := new_thread ps r tid kstack name]> (procs d) ->
     processes d' = <[ps := with_thread p r]> (processes d) ->
     sched_part d' = sched_part d -> pinv d' e' -> Q p d' e' fl) ->
  ev [] (proc_alloc sizeof_proc ps name) Q d e fl.
Proof.
  intros HI Hr Hsz Hnull Hok. unfold proc_alloc, kmalloc_. pose proof (pi_tables _ _ HI) as HT.
  assert (Hpn : ps <> NULL) by (eapply (it_in _ _ _ _ _ (tb_pids _ HT)); by eapply elem_of_dom_2).
  rewrite (proj2 (Z.eqb_neq ps NULL)) by done. do 2 ev_step.
  destruct (al_alloc sizeof_proc e) as [p e1] eqn:Hal. simpl.
  destruct (al_alloc_spec _ _ _ _ Hal) as [[-> Hlive]|(Hrg & Hfresh & Hlive)].
  { simpl. ev_step. rewrite <- (nexttid_id d). apply Hnull. rewrite nexttid_id. by eapply pinv_live. }
  assert (Hn : p <> NULL) by (unfold NULL; lia). rewrite (proj2 (Z.eqb_neq p NULL)) by done.
  destruct (fresh_block d e p HI Hfresh) as [HPn HTn].
  ev_step. eapply ev_the_process; [done|]. do 2 ev_step. ev_step.
  eapply (ev_alloctid _ (dom (procs d))); [set_solver..| | | | |].
  { eapply id_table_objs; [apply HT|]. intros x Hx. by apply insert_other. }
  { apply (tb_nexttid _ HT). }
  { by rewrite size_dom. }
  { simpl. rewrite map_size_insert_None, size_dom by done. lia. }
  simpl. intros tid n Htid Hfree Hnb.
  assert (Hfree' : forall y, ~ used p_tid (procs d) (dom (procs d)) tid y).
  { intros y Hy. apply (Hfree y). eapply used_mono; [|exact Hy]. intros z Hz.
    by rewrite (insert_other p_tid (procs d) p _ z). }
  do 2 ev_step. destruct (al_alloc PROCESS_KERNEL_STACK_SIZE e1) as [ks e2] eqn:Hal2. simpl.
  destruct (al_alloc_spec _ _ _ _ Hal2) as [[-> Hl2]|(Hrg2 & Hf2 & Hl2)].
  - simpl. do 2 ev_step. simpl. rewrite delete_insert_id by done. unfold kfree_. do 2 ev_step. simpl.
    rewrite (proj2 (Z.eqb_neq p NULL)) by done. ev_step.
    match goal with |- Q _ ?x _ _ => replace x with (set_nexttid n d) by (by destruct d) end.
    apply Hnull. apply pinv_nexttid; [|done]. eapply pinv_live; [|exact HI].
    rewrite al_free_spec by (rewrite Hl2, Hlive; set_solver). rewrite Hl2, Hlive. set_solver.
  - assert (Hkn : ks <> NULL) by (unfold NULL; lia). rewrite (proj2 (Z.eqb_neq ks NULL)) by done.
    ev_step. eapply ev_upd_proc; [apply lookup_insert_eq|]. simpl. rewrite insert_insert_eq.
    change (Proc ps _ _ _ _ _ _ _ _ _ _ _ _ _) with (new_thread ps r tid ks name).
    set (t := new_thread ps r tid ks name).
    ev_step. apply ev_lock; [set_solver|]. eapply ev_upd_process; [exact Hr|]. simpl.
    change (ps_set_threads _ _ _ _) with (with_thread p r).
    ev_step. apply ev_lock; [set_solver|]. ev_step. simpl. ev_step.
    eapply (ev_tid_insert _ _ p t (dom (procs d)));
      [set_solver| |by apply not_elem_of_dom|done|apply lookup_insert_eq|done|done| |].
    { eapply id_table_objs; [apply HT|]. intros x Hx. by apply insert_other. }
    { intros y Hy. apply (Hfree' y). eapply used_mono; [|exact Hy]. intros z Hz. simpl.
      by rewrite (insert_other p_tid (procs d) p _ z). }
    simpl. intros t' Ht'. ev_step. eapply (Hok p tid ks); [done..|].
    pose proof (tables_new_proc d ps r (with_thread p r) p t t' n HT Hr eq_refl HTn Hnb Ht') as HT'. split.
    + exact HT'.
    + simpl. apply threads_new_proc; [apply HI|done|done|done|by eapply lists_nonnull|unfold TID_MASK in Hsz; lia].
    + simpl. rewrite Hl2, Hlive. eapply blocks_set_process; [|done].
      change ks with (p_kstack t). apply blocks_new_proc; [apply HI|done| |done]. simpl. by rewrite <- Hlive.
Qed.

(** The first half of [proc_free]: the thread leaves its process, which goes to
    the zombies with its last thread. *)
Definition leave_process (p : Z) (t : proc) : K unit :=
  let ps := p_p t in
  threadcnt <- with_lock ps (
    r <- the_process ps ;;
    l <- lift (queue_remove p (ps_threads r)) ;;
    upd_process ps (ps_set_threads l (u32 (ps_threadcnt r - 1))
      (if ps_mainproc r =? p then hd NULL l else ps_mainproc r)) ;;;
    ret (u32 (ps_threadcnt r - 1))) ;;
  if threadcnt =? 0 then
    upd_process ps (fun r => ps_set_flags (Z.lor (ps_flags r) PS_ZOMBIE) r) ;;;
    with_lock allprocess_lock (
      ps_list_remove ps ;;;
      set_data (fun d => set_allprocess (allprocess d) (ps :: zombprocess d) d))
  else ret tt.

(** The second half. *)
Definition discard_thread (p : Z) (t : proc) : K unit :=
  with_lock allproc_lock (
    l <- data allproc ;;
    l' <- lift (queue_remove p l) ;;
    set_data (set_allproc l')) ;;;
  with_lock tidhash_lock (
    h <- data tidhashtbl ;;
    h' <- lift (hash_remove p h) ;;
    set_data (set_tidhash h')) ;;;
  kfree_ (p_kstack t) ;;;
  set_data (fun d => set_procs (delete p (procs d)) d) ;;;
  kfree_ p.

Lemma bind_assoc {X Y Z' : Type} (m : K X) (f : X -> K Y) (g : Y -> K Z') s :
  bind (bind m f) g s = bind m (fun x => bind (f x) g) s.
Proof. unfold bind. by destruct (m s) as [[]|]. Qed.

Lemma ev_ext {X : Type} held (m m' : K X) Q d e fl :
  (forall s, m s = m' s) -> ev held m Q d e fl -> ev held m' Q d e fl.
Proof. intros Hm Hev s. unfold wp. rewrite <- Hm. apply Hev. Qed.

Lemma ev_leave_process p t r (Q : unit -> psys -> E -> Z -> Prop) d e fl :
  pinv d e -> procs d !! p = Some t -> processes d !! p_p t = Some r ->
  (forall a z, lists (a ++ z) (dom (processes d)) ->
     Q tt (set_allprocess a z (set_processes (<[p_p t := without_thread p r]> (processes d)) d)) e fl) ->
  ev [] (leave_process p t) Q d e fl.
Proof.
  intros HI Ht Hr HQ. unfold leave_process. pose proof (pi_tables _ _ HI) as HT. set (ps := p_p t) in *.
  destruct (ti_list _ _ (pi_threads _ _ HI) ps r Hr) as (Hnd & Hc & Hm & Hmem).
  assert (Hin : p ∈ ps_threads r) by (rewrite Hmem; by exists t).
  pose proof (unlink_length p _ Hin) as Hlen. pose proof (threads_bound _ _ _ _ (pi_threads _ _ HI) Hr) as Hb.
  assert (Hcnt : u32 (ps_threadcnt r - 1) = Z.of_nat (length (unlink p (ps_threads r))) \/ 2 ^ 32 <= Z.of_nat (length (ps_threads r))).
  { destruct (decide (2 ^ 32 <= Z.of_nat (length (ps_threads r)))); [by right|left]. unfold u32.
    rewrite Z.mod_small by lia. lia. }
  assert (Hsz : Z.of_nat (size (procs d)) <= TID_MASK).
  { rewrite <- size_dom. pose proof (tb_tids _ HT) as Htt.
    apply Z.le_ngt. intros Hgt. pose proof (tids_bounded d (dom (procs d)) Htt). lia. }
  destruct Hcnt as [Hcnt|Hcnt]; [|unfold TID_MASK in Hsz; lia].
  ev_step. apply ev_lock; [set_solver|]. ev_step. eapply ev_the_process; [done|]. ev_step.
  eapply ev_lift; [unfold queue_remove; by rewrite decide_True|]. ev_step.
  eapply ev_upd_process; [done|]. ev_step. unfold without_thread in HQ.
  destruct (unlink p (ps_threads r)) as [|q l] eqn:Hl.
  - rewrite (proj2 (Z.eqb_eq _ 0)) by (by rewrite Hcnt). ev_step.
    eapply ev_upd_process; [apply lookup_insert_eq|]. simpl.
    rewrite insert_insert_eq. apply ev_lock; [set_solver|]. ev_step.
    assert (Hd : ps ∈ dom (processes d)) by (by eapply elem_of_dom_2).
    eapply ev_ps_list_remove; [apply HT|done|]. ev_step. simpl.
    apply HQ. eapply lists_perm; [apply Permutation_middle|]. rewrite unlink_app by apply HT.
    rewrite (union_difference_singleton_L ps (dom (processes d))) by done.
    apply lists_cons; [apply lists_unlink, HT|set_solver].
  - rewrite (proj2 (Z.eqb_neq _ 0)) by (rewrite Hcnt; simpl; lia). ev_step.
    match goal with |- Q _ ?x _ _ => replace x with
      (set_allprocess (allprocess d) (zombprocess d) x) by (by destruct d) end.
    apply HQ, HT.
Qed.

Lemma ev_discard_thread p t ps r r' a z (Q : unit -> psys -> E -> Z -> Prop) d e fl :
  pinv d e -> procs d !! p = Some t -> p_p t = ps -> processes d !! ps = Some r -> r' = without_thread p r ->
  lists (a ++ z) (dom (processes d)) ->
  (forall d' e', procs d' = delete p (procs d) -> processes d' = <[ps := r']> (processes d) ->
     sched_part d' = sched_part d -> pinv d' e' -> Q tt d' e' fl) ->
  ev [] (discard_thread p t) Q (set_allprocess a z (set_processes (<[ps := r']> (processes d)) d)) e fl.
Proof.
  intros HI Ht Hps Hr -> Haz HQ. unfold discard_thread. pose proof (pi_tables _ _ HI) as HT.
  assert (Hd : p ∈ dom (procs d)) by (by eapply elem_of_dom_2).
  assert (Hn : p <> NULL) by (by eapply (it_in _ _ _ _ _ (tb_tids _ HT))).
  destruct (bi_proc _ _ _ (pi_blocks _ _ HI) p t Ht) as (B1 & B2 & B3 & B4 & B5).
  ev_step. apply ev_lock; [set_solver|]. do 2 ev_step. simpl. ev_step.
  eapply ev_lift; [unfold queue_remove; rewrite decide_True; [done|by apply (tb_proc _ HT)]|]. ev_step. simpl.
  ev_step. apply ev_lock; [set_solver|]. do 2 ev_step. simpl. ev_step.
  eapply ev_lift; [eapply id_table_remove; [apply (tb_tids _ HT)|done]|]. ev_step. simpl.
  unfold kfree_. do 2 ev_step. simpl. rewrite (proj2 (Z.eqb_neq (p_kstack t) NULL)) by done. do 2 ev_step. simpl.
  ev_step. simpl. rewrite (proj2 (Z.eqb_neq p NULL)) by done.
  assert (Hlive : al_live (al_free p (al_free (p_kstack t) e)) = (al_live e ∖ {[p_kstack t]}) ∖ {[p]}).
  { rewrite al_free_spec, al_free_spec; [done|done|]. rewrite al_free_spec by done.
    apply elem_of_difference. split; [done|]. rewrite elem_of_singleton. congruence. }
  assert (Hpid : ps_pid (without_thread p r) = ps_pid r)
    by (unfold without_thread; by destruct (unlink p (ps_threads r))).
  apply HQ; [done..|]. split; simpl.
  - split; simpl.
    + unfold pid_table. simpl. by eapply pid_table_update; [apply HT|..].
    + unfold tid_table. simpl. rewrite dom_delete_L. eapply id_table_objs; [apply id_table_unlink, HT|].
      intros x [_ Hx]%elem_of_difference. rewrite lookup_delete_ne; [done|]. intros ->.
      by apply Hx, elem_of_singleton.
    + apply HT.
    + apply HT.
    + by rewrite (dom_update _ _ _ _ Hr).
    + rewrite dom_delete_L. apply lists_unlink, HT.
  - eapply (threads_drop_proc _ _ ps r p t); [apply HI|done|done|done| | | |].
    + pose proof (tids_bounded d (dom (procs d)) (tb_tids _ HT)) as Hb. rewrite size_dom in Hb.
      unfold TID_MASK in Hb. lia.
    + unfold without_thread. by destruct (unlink p (ps_threads r)).
    + unfold without_thread. by destruct (unlink p (ps_threads r)).
    + unfold without_thread. by destruct (unlink p (ps_threads r)).
  - rewrite Hlive. eapply blocks_set_process; [|done]. by apply blocks_drop_proc; [apply HI|].
Qed.

Lemma ev_proc_free p t r (Q : unit -> psys -> E -> Z -> Prop) d e fl :
  pinv d e -> procs d !! p = Some t -> processes d !! p_p t = Some r ->
  (forall d' e', procs d' = delete p (procs d) -> processes d' = <[p_p t := without_thread p r]> (processes d) ->
     sched_part d' = sched_part d -> pinv d' e' -> Q tt d' e' fl) ->
  ev [] (proc_free p) Q d e fl.
Proof.
  intros HI Ht Hr HQ. unfold proc_free. pose proof (pi_tables _ _ HI) as HT.
  assert (Hn : p <> NULL) by (eapply (it_in _ _ _ _ _ (tb_tids _ HT)); by eapply elem_of_dom_2).
  assert (Hpn : p_p t <> NULL) by (eapply (it_in _ _ _ _ _ (tb_pids _ HT)); by eapply elem_of_dom_2).
  rewrite (proj2 (Z.eqb_neq p NULL)) by done. ev_step. eapply ev_the_proc; [done|]. cbv zeta.
  rewrite (proj2 (Z.eqb_neq (p_p t) NULL)) by done.
  apply (ev_ext _ (leave_process p t ;;; discard_thread p t)).
  { intros s. unfold leave_process. cbv zeta. by rewrite bind_assoc. }
  ev_step. eapply ev_leave_process; [done..|]. intros a z Haz.
  eapply ev_discard_thread; [exact HI|done..].
Qed.
End ops.
