(* ===== verification/SimpleHeap.v ===== *)
(** * A heap and address spaces for running the process code

    The smallest things that keep the promises of [Allocator] and
    [AddressSpaces]: a block is placed after the highest live one. *)

From stdpp Require Import base numbers list gmap strings.
From S2P Require Import Prelude Spinlock Kernel KLogic Proc.

Definition simple_heap := list Z.

Definition above (l : simple_heap) : Z := foldr Z.max 0 l + 16.

Lemma above_max (l : simple_heap) x : x ∈ l -> x < above l.
Proof.
  unfold above. induction l as [|y l IH]; intros Hx; [by apply elem_of_nil in Hx|]. simpl.
  apply elem_of_cons in Hx as [->|Hx]; [lia|]. specialize (IH Hx). lia.
Qed.

Lemma above_pos (l : simple_heap) : 0 < above l.
Proof. unfold above. induction l; simpl; lia. Qed.

#[export] Program Instance simple_allocator : Allocator simple_heap := {
  al_live l := list_to_set l;
  al_alloc n l := if above l <? 2 ^ 64 then (above l, above l :: l) else (NULL, l);
  al_free a l := filter (fun x => x <> a) l
}.
Next Obligation.
  simpl. intros _ l a l'. destruct (Z.ltb_spec (above l) (2 ^ 64)); intros [= <- <-]; [right|by left].
  split; [pose proof (above_pos l); lia|]. split; [|set_solver].
  rewrite elem_of_list_to_set. intros Hx%above_max. lia.
Qed.
Next Obligation.
  intros a l _. apply set_eq. intros x. rewrite elem_of_difference, !elem_of_list_to_set, list_elem_of_filter.
  set_solver.
Qed.

#[export] Program Instance simple_spaces : AddressSpaces simple_heap := {
  as_create l := (1, l);
  as_destroy _ l := l;
  as_phys _ _ := 0x1000
}.
Next Obligation. simpl. by intros l a l' [= _ <-]. Qed.
Next Obligation. done. Qed.

(** A machine at start-up, with the timer at 100 Hz. *)
Definition psys_boot : psys :=
  PSys ∅ ∅ [] [] [] [] [] 1 1 NULL
    (Sched [] [] [] [] NULL NULL 0 0 false (SchedStats 0 0 0 0 0 0)) 0 100 0.
Definition boot_state : kst (guarded psys) simple_heap :=
  Kst 0x202 ∅ 0 0 spinlock_init (Guarded ∅ psys_boot) [].

Definition after {X : Type} (m : M (kst (guarded psys) simple_heap) X)
    (s : kst (guarded psys) simple_heap) : kst (guarded psys) simple_heap :=
  match m s with Ok (_, s') => s' | Fault _ => s end.
