(* ===== verification/ProcThms.v ===== *)
(** * What the process tables promise

    Seen from outside, the tables are three maps: the number of every process,
    the number of every thread, and the threads of every process in order.
    The calls refine this view from every state they can reach. *)

From stdpp Require Import base numbers list gmap strings.
From S2P Require Import Prelude Spinlock Kernel KLogic Proc ProcFacts ProcInv ProcOps SimpleHeap.

Record ptab := PTab {
  pt_pid : gmap Z Z;
  pt_tid : gmap Z Z;
  pt_threads : gmap Z (list Z)
}.

Inductive pcall :=
  | CProcessAlloc (name : string)
  | CProcessFree (ps : Z)
  | CProcAlloc (ps : Z) (name : option string)
  | CProcFree (p : Z)
  | CPrfind (pid : Z)
  | CTfind (tid : Z).

(** The object with the number, or null. *)
Definition names (m : gmap Z Z) (id r : Z) : Prop :=
  (r <> NULL /\ m !! r = Some id) \/ (r = NULL /\ forall x, m !! x <> Some id).

(** The meaning of the calls on the view. *)
Inductive pspec : pcall -> ptab -> Z -> ptab -> Prop :=
  | ps_alloc_null name T : pspec (CProcessAlloc name) T NULL T
  | ps_alloc name T ps pid :
      ps <> NULL -> pt_pid T !! ps = None -> pt_tid T !! ps = None ->
      1 <= pid <= PID_MAX -> (forall x, pt_pid T !! x <> Some pid) ->
      pspec (CProcessAlloc name) T ps
        (PTab (<[ps := pid]> (pt_pid T)) (pt_tid T) (<[ps := []]> (pt_threads T)))
  | ps_free_busy ps T l : pt_threads T !! ps = Some l -> l <> [] -> pspec (CProcessFree ps) T 0 T
  | ps_free ps T : pt_threads T !! ps = Some [] ->
      pspec (CProcessFree ps) T 0 (PTab (delete ps (pt_pid T)) (pt_tid T) (delete ps (pt_threads T)))
  | ps_thread_null ps name T : pspec (CProcAlloc ps name) T NULL T
  | ps_thread ps name T l p tid :
      p <> NULL -> pt_pid T !! p = None -> pt_tid T !! p = None ->
      1 <= tid <= TID_MASK -> (forall x, pt_tid T !! x <> Some tid) -> pt_threads T !! ps = Some l ->
      pspec (CProcAlloc ps name) T p
        (PTab (pt_pid T) (<[p := tid]> (pt_tid T)) (<[ps := l ++ [p]]> (pt_threads T)))
  | ps_thread_free p ps l T :
      pt_threads T !! ps = Some l -> p ∈ l ->
      pspec (CProcFree p) T 0 (PTab (pt_pid T) (delete p (pt_tid T)) (<[ps := unlink p l]> (pt_threads T)))
  | ps_prfind pid T r : names (pt_pid T) pid r -> pspec (CPrfind pid) T r T
  | ps_tfind tid T r : names (pt_tid T) tid r -> pspec (CTfind tid) T r T.

(** The calls a caller may make: on live objects, and while there are numbers
    left. *)
Definition permits (c : pcall) (T : ptab) : Prop :=
  match c with
  | CProcessAlloc _ => Z.of_nat (size (pt_pid T)) < PID_MAX
  | CProcessFree ps => is_Some (pt_pid T !! ps)
  | CProcAlloc ps _ => is_Some (pt_pid T !! ps) /\ Z.of_nat (size (pt_tid T)) < TID_MASK
  | CProcFree p => is_Some (pt_tid T !! p)
  | CPrfind id | CTfind id => 0 <= id
  end.

Definition view_of (d : psys) : ptab :=
  PTab (ps_pid <$> processes d) (p_tid <$> procs d) (ps_threads <$> processes d).

Section thms.
Context {E : Type} `{AddressSpaces E} (sizeof_process sizeof_proc : Z).
Abbreviation K := (M (kst (guarded psys) E)).
Implicit Types (d : psys) (e : E) (s : kst (guarded psys) E).

Definition prun (c : pcall) : K Z :=
  match c with
  | CProcessAlloc name => process_alloc sizeof_process name
  | CProcessFree ps => process_free ps ;;; ret 0
  | CProcAlloc ps name => proc_alloc sizeof_proc ps name
  | CProcFree p => proc_free p ;;; ret 0
  | CPrfind pid => prfind pid
  | CTfind tid => tfind tid
  end.

Definition the_data s : psys := g_data (k_obj s).

Lemma used_view {A : Type} (idof : A -> Z) (objs : gmap Z A) id x :
  used idof objs (dom objs) id x <-> (idof <$> objs) !! x = Some id.
Proof.
  unfold used. rewrite lookup_fmap, fmap_Some. split.
  - intros [_ (o & Ho & Ei)]. by exists o.
  - intros (o & Ho & ->). split; [by eapply elem_of_dom_2|by exists o].
Qed.

Lemma found_names {A : Type} (idof : A -> Z) (objs : gmap Z A) id r :
  found idof objs (dom objs) id r -> names (idof <$> objs) id r.
Proof.
  intros [[Hr Hu]|[-> Hf]]; [left; split; [done|by apply used_view]|right; split; [done|]].
  intros x Hx. apply (Hf x). by apply used_view.
Qed.

Lemma fmap_None {A : Type} (f : A -> Z) (m : gmap Z A) x : m !! x = None -> (f <$> m) !! x = None.
Proof. intros Hx. by rewrite lookup_fmap, Hx. Qed.

Lemma fmap_update {A B : Type} (f : A -> B) (m : gmap Z A) k a b :
  m !! k = Some a -> f b = f a -> f <$> <[k := b]> m = f <$> m.
Proof. intros Hk Ef. rewrite fmap_insert, Ef. apply insert_id. by rewrite lookup_fmap, Hk. Qed.

Lemma without_thread_threads p r : ps_threads (without_thread p r) = unlink p (ps_threads r).
Proof. unfold without_thread. by destruct (unlink p (ps_threads r)). Qed.
Lemma without_thread_pid p r : ps_pid (without_thread p r) = ps_pid r.
Proof. unfold without_thread. by destruct (unlink p (ps_threads r)). Qed.

Lemma prun_refines c d e fl :
  pinv d e -> permits c (view_of d) ->
  ev [] (prun c) (fun r d' e' fl' => pinv d' e' /\ fl' = fl /\ pspec c (view_of d) r (view_of d')) d e fl.
Proof.
  intros HI Hp. destruct c as [name|ps|ps name|p|pid|tid]; simpl in *.
  - rewrite map_size_fmap in Hp. eapply ev_process_alloc; [done|done| |].
    + intros n e' HI'. split_and!; [done..|]. apply ps_alloc_null.
    + intros ps pid vm d' e' Hn HPn HTn Hb Hf HP HT _ HI'. split_and!; [done..|].
      unfold view_of. rewrite HP, HT, !fmap_insert. simpl. apply (ps_alloc _ (view_of d)); [done| | |done|].
      * by apply fmap_None.
      * by apply fmap_None.
      * intros x Hx. apply (Hf x). by apply used_view.
  - rewrite lookup_fmap, fmap_is_Some in Hp. destruct Hp as [r Hr]. ev_step.
    destruct (decide (ps_threads r = [])) as [Hl|Hl].
    + eapply ev_process_free; [done..|]. intros d' e' HP HT _ _ HI'. ev_step. split_and!; [done..|].
      unfold view_of. rewrite HP, HT, !fmap_delete. apply (ps_free _ (view_of d)). simpl.
      by rewrite lookup_fmap, Hr, <- Hl.
    + eapply ev_process_free_busy; [done..|]. ev_step. split_and!; [done..|].
      apply (ps_free_busy _ (view_of d) (ps_threads r)); [|done]. simpl. by rewrite lookup_fmap, Hr.
  - destruct Hp as [Hp Hsz]. rewrite lookup_fmap, fmap_is_Some in Hp. destruct Hp as [r Hr].
    rewrite map_size_fmap in Hsz. eapply ev_proc_alloc; [done..| |].
    + intros n e' HI'. split_and!; [done..|]. apply ps_thread_null.
    + intros p tid ks d' e' Hn HPn HTn Hb Hf HT HP _ HI'. split_and!; [done..|].
      unfold view_of. rewrite HP, HT, !fmap_insert. simpl.
      replace (<[ps := ps_pid r]> (ps_pid <$> processes d)) with (ps_pid <$> processes d)
        by (symmetry; apply insert_id; by rewrite lookup_fmap, Hr).
      apply (ps_thread _ _ (view_of d)); [done| | |done| |].
      * by apply fmap_None.
      * by apply fmap_None.
      * intros x Hx. apply (Hf x). by apply used_view.
      * simpl. by rewrite lookup_fmap, Hr.
  - rewrite lookup_fmap, fmap_is_Some in Hp. destruct Hp as [t Ht].
    destruct (ti_owner _ _ (pi_threads _ _ HI) p t Ht) as [r Hr]. ev_step.
    eapply ev_proc_free; [done..|]. intros d' e' HT HP _ HI'. ev_step. split_and!; [done..|].
    unfold view_of. rewrite HP, HT, fmap_delete.
    rewrite (fmap_update ps_pid _ _ r) by (done || apply without_thread_pid).
    rewrite fmap_insert, without_thread_threads.
    apply (ps_thread_free p (p_p t) (ps_threads r) (view_of d)).
    + simpl. by rewrite lookup_fmap, Hr.
    + apply (ti_list _ _ (pi_threads _ _ HI) _ r Hr). by exists t.
  - eapply ev_prfind; [set_solver|apply (tb_pids _ (pi_tables _ _ HI))|done|]. intros r Hf.
    split_and!; [done..|]. constructor. by apply found_names.
  - eapply ev_tfind; [set_solver|apply (tb_tids _ (pi_tables _ _ HI))|done|]. intros r Hf.
    split_and!; [done..|]. constructor. by apply found_names.
Qed.

Lemma empty_table {A : Type} (idof : A -> Z) max : id_table idof max ∅ (replicate 128 []) ∅.
Proof.
  assert (Hl : forall i l, replicate 128 ([] : list Z) !! i = Some l -> l = []).
  { intros i l Hl. by apply lookup_replicate in Hl as [-> _]. }
  split; [apply length_replicate| | | |].
  - intros i l ->%Hl. constructor.
  - intros i l x ->%Hl. split; [intros Hx; by apply elem_of_nil in Hx|]. intros [Hx _]. set_solver.
  - set_solver.
  - set_solver.
Qed.

(** The tables before [proc_init]. *)
Record blank d : Prop := {
  bl_processes : processes d = ∅;
  bl_procs : procs d = ∅;
  bl_allprocess : allprocess d = [];
  bl_zombprocess : zombprocess d = [];
  bl_allproc : allproc d = [];
  bl_nextpid : nextpid d = 1;
  bl_nexttid : nexttid d = 1
}.

Lemma proc_init_inv s s' : idle [] s -> blank (the_data s) -> proc_init s = Ok (tt, s') ->
  idle [] s' /\ pinv (the_data s') (k_env s') /\ procs (the_data s') = ∅ /\ processes (the_data s') = ∅ /\
  sched_part (the_data s') = sched_part (the_data s).
Proof.
  intros Hi [HP HT Ha Hz Hap Hnp Hnt]. unfold proc_init, bind, kmalloc_, env_pure, env, set_data, modify.
  destruct (al_alloc _ _) as [a e1]. simpl. destruct (al_alloc _ _) as [b e2]. simpl.
  destruct ((a =? NULL) || (b =? NULL)); simpl; [done|]. intros [= <-]. split; [exact Hi|].
  unfold the_data in *. simpl. split_and!; [|done..]. split; simpl.
  - split; simpl; rewrite ?HP, ?HT, ?Ha, ?Hz, ?Hap, ?Hnp, ?Hnt, ?dom_empty_L; try (done || lia).
    + unfold pid_table. simpl. rewrite HP. apply empty_table.
    + unfold tid_table. simpl. rewrite HT. apply empty_table.
    + split; [constructor|set_solver].
    + split; [constructor|set_solver].
  - rewrite HP, HT. split; set_solver.
  - rewrite HP, HT. split; set_solver.
Qed.

(** Reachable from a blank state by [proc_init] and the calls. *)
Inductive preach : kst (guarded psys) E -> Prop :=
  | pr_init s s' : idle [] s -> blank (the_data s) -> proc_init s = Ok (tt, s') -> preach s'
  | pr_call c s r s' : preach s -> permits c (view_of (the_data s)) -> prun c s = Ok (r, s') -> preach s'.

Lemma preach_inv s : preach s -> idle [] s /\ pinv (the_data s) (k_env s).
Proof.
  induction 1 as [s s' Hi Hb Hrun|c s r s' _ [Hi HI] Hp Hrun].
  - by destruct (proc_init_inv s s' Hi Hb Hrun) as (? & ? & _).
  - destruct (ev_run _ _ _ _ _ s (prun_refines c (the_data s) (k_env s) (k_flags s) HI Hp) Hi eq_refl eq_refl eq_refl)
      as (r' & s2 & Hrun' & Hi2 & _ & HI2 & _). rewrite Hrun in Hrun'. by simplify_eq.
Qed.

(** C5: From every state that [proc_init] and earlier calls can reach, a call
    of the process and thread operations on live objects ends without a fault
    (no lock is left held, no queue operation meets an object that is not on
    its list, the searches for a number end), gives the interrupt flags back,
    and acts on the maps of process numbers, thread numbers and threads as the
    abstract table says: numbers in use are never given out again, [prfind]
    and [tfind] return the one object with the number, a process with threads
    is not freed, threads keep their order. *)
Theorem process_calls_refine_table s c :
  preach s -> permits c (view_of (the_data s)) ->
  exists r s', prun c s = Ok (r, s') /\ preach s' /\ k_flags s' = k_flags s /\
    pspec c (view_of (the_data s)) r (view_of (the_data s')).
Proof.
  intros Hs Hp. destruct (preach_inv s Hs) as [Hi HI].
  destruct (ev_run _ _ _ _ _ s (prun_refines c _ _ _ HI Hp) Hi eq_refl eq_refl eq_refl)
    as (r & s' & Hrun & _ & _ & HI' & Hfl & Hspec).
  exists r, s'. split_and!; [done| |done|done]. by eapply pr_call.
Qed.

(** C27: The search for a process number ends: while fewer than [PID_MAX]
    processes exist, [allocpid] returns a number from 1 to [PID_MAX] that no
    process has, and changes nothing but the counter. *)
Theorem allocpid_terminates s :
  preach s -> Z.of_nat (size (processes (the_data s))) < PID_MAX ->
  exists pid n s', allocpid s = Ok (pid, s') /\ 1 <= pid <= PID_MAX /\
    (forall ps r, processes (the_data s) !! ps = Some r -> ps_pid r <> pid) /\
    the_data s' = set_nextpid n (the_data s) /\ 1 <= n <= PID_MAX /\ k_env s' = k_env s /\ k_flags s' = k_flags s.
Proof.
  intros Hs Hsz. destruct (preach_inv s Hs) as [Hi HI]. pose proof (pi_tables _ _ HI) as HT.
  set (d := the_data s) in *.
  destruct (ev_run (E := E) allocpid (fun pid d' e' fl' => 1 <= pid <= PID_MAX /\
    (forall ps r, processes d !! ps = Some r -> ps_pid r <> pid) /\
    (exists n, d' = set_nextpid n d /\ 1 <= n <= PID_MAX) /\ e' = k_env s /\ fl' = k_flags s)
    d (k_env s) (k_flags s) s) as (pid & s' & Hrun & _ & _ & Hb & Hf & (n & Hn & Hnb) & He & Hfl);
    [|done..|].
  - eapply (ev_allocpid _ (dom (processes d))); [set_solver..|apply HT|apply HT|by rewrite size_dom|by rewrite size_dom|].
    intros pid n Hb Hf Hnb. split_and!; [lia..| |by exists n|done|done]. intros ps r Hr Hpid. apply (Hf ps).
    split; [by eapply elem_of_dom_2|by exists r].
  - exists pid, n, s'. split_and!; done || lia.
Qed.
End thms.

(** The tables after start-up. *)
Lemma simple_reach : preach 512 512 (after proc_init boot_state).
Proof.
  eapply (pr_init 512 512 boot_state); [|by split|done].
  intros l _. unfold lock_of. simpl. by rewrite lookup_empty.
Defined.

Lemma process_calls_refine_table_witness :
  exists r s', prun 512 512 (CProcessAlloc "init") (after proc_init boot_state) = Ok (r, s') /\
    preach 512 512 s' /\ k_flags s' = k_flags (after proc_init boot_state) /\
    pspec (CProcessAlloc "init") (view_of (the_data (after proc_init boot_state))) r (view_of (the_data s')).
Proof. apply process_calls_refine_table; [apply simple_reach|vm_compute; reflexivity]. Defined.

Lemma allocpid_terminates_witness :
  exists pid n s', allocpid (after proc_init boot_state) = Ok (pid, s') /\ 1 <= pid <= PID_MAX /\
    (forall ps r, processes (the_data (after proc_init boot_state)) !! ps = Some r -> ps_pid r <> pid) /\
    the_data s' = set_nextpid n (the_data (after proc_init boot_state)) /\ 1 <= n <= PID_MAX /\
    k_env s' = k_env (after proc_init boot_state) /\ k_flags s' = k_flags (after proc_init boot_state).
Proof. eapply (allocpid_terminates 512 512); [apply simple_reach|vm_compute; reflexivity]. Defined.
