(* ===== verification/Sched.v ===== *)
(** * The scheduler ([amd64/cpu/scheduler.c])

    Five ready queues, one for each priority, and the lists of blocked,
    sleeping and terminated threads, all linked through [p_runq].  A thread is
    on one of them at most: linking it a second time, or removing it from one
    it is not on, breaks the links in C and faults here.  Switching to another
    thread is the end of the model of a call: the result tells whether and to
    whom the CPU goes; what the assembly routine does with the registers is not
    modelled. *)

From stdpp Require Import base numbers list gmap strings.
From S2P Require Import Prelude Spinlock Kernel KLogic Proc.

Definition SCHEDULER_TIME_SLICE_MS : Z := 20.
Definition TASK_PRIORITY_IDLE : Z := 0.

Inductive task_state := TASK_STATE_READY | TASK_STATE_RUNNING | TASK_STATE_BLOCKED
  | TASK_STATE_SLEEPING | TASK_STATE_TERMINATED.

(** Setters. *)
Definition set_queues (q : list (list Z)) (x : sched) : sched :=
  Sched q (blocked_list x) (sleeping_list x) (terminated_list x) (idle_task x) (idle_process x)
    (timer_frequency x) (time_slice_ticks x) (running x) (sstats x).
Definition set_blocked (l : list Z) (x : sched) : sched :=
  Sched (queues x) l (sleeping_list x) (terminated_list x) (idle_task x) (idle_process x)
    (timer_frequency x) (time_slice_ticks x) (running x) (sstats x).
Definition set_sleeping (l : list Z) (x : sched) : sched :=
  Sched (queues x) (blocked_list x) l (terminated_list x) (idle_task x) (idle_process x)
    (timer_frequency x) (time_slice_ticks x) (running x) (sstats x).
Definition set_terminated (l : list Z) (x : sched) : sched :=
  Sched (queues x) (blocked_list x) (sleeping_list x) l (idle_task x) (idle_process x)
    (timer_frequency x) (time_slice_ticks x) (running x) (sstats x).
Definition set_idle (t p : Z) (x : sched) : sched :=
  Sched (queues x) (blocked_list x) (sleeping_list x) (terminated_list x) t p
    (timer_frequency x) (time_slice_ticks x) (running x) (sstats x).
Definition set_running (b : bool) (x : sched) : sched :=
  Sched (queues x) (blocked_list x) (sleeping_list x) (terminated_list x) (idle_task x) (idle_process x)
    (timer_frequency x) (time_slice_ticks x) b (sstats x).
Definition set_sstats (t : sched_stats) (x : sched) : sched :=
  Sched (queues x) (blocked_list x) (sleeping_list x) (terminated_list x) (idle_task x) (idle_process x)
    (timer_frequency x) (time_slice_ticks x) (running x) t.

Definition add_total (n : Z) (t : sched_stats) : sched_stats :=
  SchedStats (u64 (total_tasks t + n)) (ready_tasks t) (running_tasks t) (blocked_tasks t)
    (context_switches t) (total_ticks t).
Definition add_ready (n : Z) (t : sched_stats) : sched_stats :=
  SchedStats (total_tasks t) (u64 (ready_tasks t + n)) (running_tasks t) (blocked_tasks t)
    (context_switches t) (total_ticks t).
Definition add_running (n : Z) (t : sched_stats) : sched_stats :=
  SchedStats (total_tasks t) (ready_tasks t) (u64 (running_tasks t + n)) (blocked_tasks t)
    (context_switches t) (total_ticks t).
Definition set_running_tasks (n : Z) (t : sched_stats) : sched_stats :=
  SchedStats (total_tasks t) (ready_tasks t) n (blocked_tasks t) (context_switches t) (total_ticks t).
Definition add_blocked (n : Z) (t : sched_stats) : sched_stats :=
  SchedStats (total_tasks t) (ready_tasks t) (running_tasks t) (u64 (blocked_tasks t + n))
    (context_switches t) (total_ticks t).
Definition count_switch (t : sched_stats) : sched_stats :=
  SchedStats (total_tasks t) (ready_tasks t) (running_tasks t) (blocked_tasks t)
    (u64 (context_switches t + 1)) (total_ticks t).
Definition count_tick (t : sched_stats) : sched_stats :=
  SchedStats (total_tasks t) (ready_tasks t) (running_tasks t) (blocked_tasks t)
    (context_switches t) (u64 (total_ticks t + 1)).

(** Every thread linked through [p_runq]. *)
Definition linked (x : sched) : list Z :=
  concat (queues x) ++ blocked_list x ++ sleeping_list x ++ terminated_list x.

(** How a call of [scheduler_switch_to_next] ends. *)
Inductive switch_result :=
  | SwOff                     (* the scheduler is not running *)
  | SwSame                    (* the same thread goes on *)
  | SwContext (old new : Z)   (* the registers of both are exchanged *)
  | SwInitial (new : Z)       (* the CPU goes to a thread for good *)
  | SwNone.                   (* no saved registers: the caller goes on *)

Definition proc_to_task_state (p : proc) : task_state :=
  if p_stat p =? SRUN then TASK_STATE_READY
  else if p_stat p =? SONPROC then TASK_STATE_RUNNING
  else if p_stat p =? SSTOP then TASK_STATE_BLOCKED
  else if p_stat p =? SSLEEP then TASK_STATE_SLEEPING
  else if p_stat p =? SDEAD then TASK_STATE_TERMINATED
  else TASK_STATE_READY.

Section sched.
Context {E : Type} `{AddressSpaces E} (sizeof_process sizeof_proc : Z).
Abbreviation K := (M (kst (guarded psys) E)).

Definition sdata {X : Type} (f : sched -> X) : K X := data (fun d => f (scheduler d)).
Definition set_sched (f : sched -> sched) : K unit :=
  set_data (fun d => set_scheduler (f (scheduler d)) d).
Definition stat (f : sched_stats -> sched_stats) : K unit :=
  set_sched (fun x => set_sstats (f (sstats x)) x).

Definition proc_get_current : K Z := data curproc.
Definition proc_set_current (p : Z) : K unit := set_data (set_curproc p).
Definition proc_get_priority (p : proc) : Z := p_runpri p.
Definition proc_set_priority (p priority : Z) : K unit := upd_proc p (p_set_runpri (u8 priority)).

(** [TAILQ_INSERT_TAIL] and [TAILQ_REMOVE] on the lists linked by [p_runq]. *)
Definition fresh_link (p : Z) : K unit :=
  l <- sdata linked ;; if decide (p ∈ l) then throw F_oob else ret tt.

Definition ready_insert (priority p : Z) : K unit :=
  fresh_link p ;;;
  q <- sdata queues ;;
  l <- lift (aread q priority) ;;
  q' <- lift (awrite q priority (l ++ [p])) ;;
  set_sched (set_queues q').

Definition ready_remove (priority p : Z) : K unit :=
  q <- sdata queues ;;
  l <- lift (aread q priority) ;;
  l' <- lift (queue_remove p l) ;;
  q' <- lift (awrite q priority l') ;;
  set_sched (set_queues q').

Definition blocked_insert (p : Z) : K unit :=
  fresh_link p ;;; set_sched (fun x => set_blocked (blocked_list x ++ [p]) x).
Definition blocked_remove (p : Z) : K unit :=
  l <- sdata blocked_list ;; l' <- lift (queue_remove p l) ;; set_sched (set_blocked l').
Definition sleeping_insert (p : Z) : K unit :=
  fresh_link p ;;; set_sched (fun x => set_sleeping (sleeping_list x ++ [p]) x).
Definition sleeping_remove (p : Z) : K unit :=
  l <- sdata sleeping_list ;; l' <- lift (queue_remove p l) ;; set_sched (set_sleeping l').
Definition terminated_insert (p : Z) : K unit :=
  fresh_link p ;;; set_sched (fun x => set_terminated (terminated_list x ++ [p]) x).
Definition terminated_remove (p : Z) : K unit :=
  l <- sdata terminated_list ;; l' <- lift (queue_remove p l) ;; set_sched (set_terminated l').

(** [for (i = 4; i >= 0; i--)]: the head of the first queue that has one. *)
Definition first_ready (q : list (list Z)) : Z :=
  fold_right (fun i p => match nth i q [] with [] => p | t :: _ => t end) NULL [4%nat; 3%nat; 2%nat; 1%nat; 0%nat].

Definition scheduler_pick_next_task : K Z := sdata (fun x => first_ready (queues x)).

Definition load_cr3 (p : proc) : K unit :=
  if negb (p_vmspace p =? NULL) then
    e <- gets k_env ;; set_data (set_cpu_cr3 (as_phys (p_vmspace p) e))
  else ret tt.

(** The thread that ran is put at the end of its queue. *)
Definition put_back (old_task : Z) : K unit :=
  if negb (old_task =? NULL) then
    t <- the_proc old_task ;;
    if p_stat t =? SONPROC then
      upd_proc old_task (fun t => p_set_cpticks 0 (p_set_stat SRUN t)) ;;;
      ready_insert (proc_get_priority t) old_task ;;;
      stat (add_ready 1) ;;;
      stat (add_running (-1))
    else ret tt
  else ret tt.

Definition scheduler_switch_to_next : K switch_result :=
  r <- sdata running ;;
  if negb r then ret SwOff
  else
    flags <- intr_disable ;;
    old_task <- proc_get_current ;;
    picked <- scheduler_pick_next_task ;;
    idle <- sdata idle_task ;;
    let new_task := if picked =? NULL then idle else picked in
    if old_task =? new_task then
      (if negb (old_task =? NULL) then upd_proc old_task (p_set_cpticks 0) else ret tt) ;;;
      intr_restore flags ;;;
      ret SwSame
    else
      put_back old_task ;;;
      t <- the_proc new_task ;;
      (if p_stat t =? SRUN then
         ready_remove (proc_get_priority t) new_task ;;;
         stat (add_ready (-1))
       else ret tt) ;;;
      upd_proc new_task (fun t => p_set_cpticks 0 (p_set_stat SONPROC t)) ;;;
      stat (add_running 1) ;;;
      proc_set_current new_task ;;;
      stat count_switch ;;;
      t <- the_proc new_task ;;
      load_cr3 t ;;;
      old_state <- (if negb (old_task =? NULL) then t <- the_proc old_task ;; ret (p_cpu_state t)
                    else ret NULL) ;;
      if negb (old_state =? NULL) && negb (p_cpu_state t =? NULL) then ret (SwContext old_task new_task)
      else if (old_state =? NULL) && negb (p_cpu_state t =? NULL) then ret (SwInitial new_task)
      else intr_restore flags ;;; ret SwNone.

Definition scheduler_yield : K switch_result :=
  r <- sdata running ;;
  c <- proc_get_current ;;
  if negb r || (c =? NULL) then ret SwOff else scheduler_switch_to_next.

Definition scheduler_init (frequency : Z) : K unit :=
  set_sched (fun _ => Sched (replicate 5 []) [] [] [] NULL NULL frequency
    (u32 (SCHEDULER_TIME_SLICE_MS * frequency) / 1000) false (SchedStats 0 0 0 0 0 0)) ;;;
  proc_init ;;;
  ps <- process_alloc sizeof_process "idle" ;;
  set_sched (set_idle NULL ps) ;;;
  if negb (ps =? NULL) then
    t <- proc_alloc sizeof_proc ps (Some "idle"%string) ;;
    set_sched (set_idle t ps) ;;;
    if negb (t =? NULL) then proc_set_priority t TASK_PRIORITY_IDLE else ret tt
  else ret tt.

Definition scheduler_create_task (name : string) (priority : Z) : K Z :=
  ps <- process_alloc sizeof_process name ;;
  if ps =? NULL then ret NULL
  else
    p <- proc_alloc sizeof_proc ps (Some name) ;;
    if p =? NULL then process_free ps ;;; ret NULL
    else
      proc_set_priority p priority ;;;
      upd_proc p (p_set_stat SRUN) ;;;
      idle <- sdata idle_task ;;
      (if negb (p =? idle) then
         ready_insert priority p ;;;
         stat (add_total 1) ;;;
         stat (add_ready 1)
       else ret tt) ;;;
      ret p.

Definition scheduler_destroy_task (p : Z) : K unit :=
  idle <- sdata idle_task ;;
  if (p =? NULL) || (p =? idle) then ret tt
  else
    t <- the_proc p ;;
    (match proc_to_task_state t with
     | TASK_STATE_READY => ready_remove (proc_get_priority t) p ;;; stat (add_ready (-1))
     | TASK_STATE_BLOCKED => blocked_remove p ;;; stat (add_blocked (-1))
     | TASK_STATE_SLEEPING => sleeping_remove p
     | _ => ret tt
     end) ;;;
    stat (add_total (-1)) ;;;
    proc_free p ;;;
    if negb (p_p t =? NULL) then
      r <- the_process (p_p t) ;;
      if ps_threadcnt r =? 0 then process_free (p_p t) else ret tt
    else ret tt.

Definition scheduler_exit_task (exit_code : Z) : K switch_result :=
  p <- proc_get_current ;;
  if p =? NULL then ret SwOff
  else
    t <- the_proc p ;;
    upd_proc p (p_set_stat SDEAD) ;;;
    upd_process (p_p t) (ps_set_xexit (s32 exit_code)) ;;;
    terminated_insert p ;;;
    proc_set_current NULL ;;;
    scheduler_switch_to_next.

Definition scheduler_block_task (p : Z) : K switch_result :=
  if p =? NULL then ret SwOff
  else
    t <- the_proc p ;;
    if p_stat t =? SSTOP then ret SwOff
    else
      (if p_stat t =? SRUN then
         ready_remove (proc_get_priority t) p ;;; stat (add_ready (-1))
       else ret tt) ;;;
      upd_proc p (p_set_stat SSTOP) ;;;
      blocked_insert p ;;;
      stat (add_blocked 1) ;;;
      c <- proc_get_current ;;
      if p =? c then scheduler_yield else ret SwOff.

Definition scheduler_unblock_task (p : Z) : K unit :=
  if p =? NULL then ret tt
  else
    t <- the_proc p ;;
    if negb (p_stat t =? SSTOP) then ret tt
    else
      blocked_remove p ;;;
      stat (add_blocked (-1)) ;;;
      upd_proc p (fun t => p_set_cpticks 0 (p_set_stat SRUN t)) ;;;
      ready_insert (proc_get_priority t) p ;;;
      stat (add_ready 1).

(** [(pit_get_ticks() * 1000) / pit_get_frequency()]. *)
Definition current_time : K Z :=
  n <- data pit_ticks ;;
  f <- data pit_frequency ;;
  if f =? 0 then throw F_oob else ret (u64 (n * 1000) / f).

Definition scheduler_sleep_task (p milliseconds : Z) : K switch_result :=
  if p =? NULL then ret SwOff
  else
    now <- current_time ;;
    upd_proc p (p_set_slptime (u64 (now + milliseconds))) ;;;
    t <- the_proc p ;;
    (if p_stat t =? SRUN then
       ready_remove (proc_get_priority t) p ;;; stat (add_ready (-1))
     else ret tt) ;;;
    upd_proc p (p_set_stat SSLEEP) ;;;
    sleeping_insert p ;;;
    c <- proc_get_current ;;
    if p =? c then scheduler_yield else ret SwOff.

Definition scheduler_start : K unit :=
  r <- sdata running ;;
  if r : bool then ret tt
  else
    set_sched (set_running true) ;;;
    picked <- scheduler_pick_next_task ;;
    idle <- sdata idle_task ;;
    let first_task := if picked =? NULL then idle else picked in
    if negb (first_task =? NULL) then
      proc_set_current first_task ;;;
      upd_proc first_task (p_set_stat SONPROC) ;;;
      stat (set_running_tasks 1) ;;;
      t <- the_proc first_task ;;
      load_cr3 t
    else ret tt.

Definition scheduler_stop : K unit := set_sched (set_running false).

(** The loops of [scheduler_tick] fetch the next element before they work on
    one, so they visit the elements the list had at the start. *)
Fixpoint reap (l : list Z) : K unit :=
  match l with
  | [] => ret tt
  | p :: l => terminated_remove p ;;; scheduler_destroy_task p ;;; reap l
  end.

Fixpoint wake (now : Z) (l : list Z) : K unit :=
  match l with
  | [] => ret tt
  | p :: l =>
      t <- the_proc p ;;
      (if p_slptime t <=? now then
         sleeping_remove p ;;;
         upd_proc p (fun t => p_set_cpticks 0 (p_set_stat SRUN t)) ;;;
         ready_insert (proc_get_priority t) p ;;;
         stat (add_ready 1)
       else ret tt) ;;;
      wake now l
  end.

Definition scheduler_tick : K switch_result :=
  stat count_tick ;;;
  dead <- sdata terminated_list ;;
  reap dead ;;;
  now <- current_time ;;
  asleep <- sdata sleeping_list ;;
  wake now asleep ;;;
  current <- proc_get_current ;;
  idle <- sdata idle_task ;;
  if negb (current =? NULL) && negb (current =? idle) then
    upd_proc current (fun t => p_set_runtime (u64 (p_runtime t + 1)) (p_set_cpticks (u32 (p_cpticks t + 1)) t)) ;;;
    t <- the_proc current ;;
    slice <- sdata time_slice_ticks ;;
    if slice <=? p_cpticks t then scheduler_switch_to_next else ret SwOff
  else ret SwOff.

(** The timer interrupt: [pit_handler] counts it. *)
Definition scheduler_timer_handler : K switch_result :=
  set_data (fun d => set_pit_ticks (u64 (pit_ticks d + 1)) d) ;;;
  scheduler_tick.

Definition scheduler_add_forked_task (p : Z) : K Z :=
  if p =? NULL then ret NULL
  else
    t <- the_proc p ;;
    ready_insert (proc_get_priority t) p ;;;
    stat (add_total 1) ;;;
    stat (add_ready 1) ;;;
    ret p.

(** The end of [sys_fork]: the child is made ready, then queued. *)
Definition fork_publish (p : Z) : K Z :=
  upd_proc p (p_set_stat SRUN) ;;; scheduler_add_forked_task p.

Definition scheduler_set_priority (p priority : Z) : K unit :=
  if p =? NULL then ret tt
  else
    t <- the_proc p ;;
    if proc_get_priority t =? priority then ret tt
    else if p_stat t =? SRUN then
      ready_remove (proc_get_priority t) p ;;;
      proc_set_priority p priority ;;;
      ready_insert priority p
    else proc_set_priority p priority.

Definition scheduler_get_priority (p : Z) : K Z :=
  if p =? NULL then ret TASK_PRIORITY_IDLE else t <- the_proc p ;; ret (proc_get_priority t).
Definition scheduler_get_current_task : K Z := proc_get_current.
Definition scheduler_get_task_by_tid (tid : Z) : K Z := tfind tid.
Definition scheduler_get_stats : K sched_stats := sdata sstats.
End sched.
