(* ===== verification/SchedFacts.v ===== *)
(** * The scheduler's lists

    [home_of t] is the list a thread in its state belongs on; [linv] says that
    every list holds exactly the threads whose home it is, once each.  Moving
    a thread from one list to another keeps it. *)

From stdpp Require Import base numbers list gmap strings.
From S2P Require Import Prelude Spinlock Kernel KLogic Proc ProcFacts Sched.

Inductive home := HReady (i : nat) | HBlocked | HSleeping | HDead.

#[export] Instance home_eq_dec : EqDecision home.
Proof. solve_decision. Defined.

Definition home_of (t : proc) : option home :=
  if p_stat t =? SRUN then Some (HReady (Z.to_nat (p_runpri t)))
  else if p_stat t =? SSTOP then Some HBlocked
  else if p_stat t =? SSLEEP then Some HSleeping
  else if p_stat t =? SDEAD then Some HDead
  else None.

(** The lists. *)
Record rlists := RL { rl_ready : list (list Z); rl_blocked : list Z; rl_sleeping : list Z; rl_dead : list Z }.
Definition lists_of (x : sched) : rlists := RL (queues x) (blocked_list x) (sleeping_list x) (terminated_list x).

Definition members (L : rlists) (h : home) : list Z :=
  match h with
  | HReady i => nth i (rl_ready L) []
  | HBlocked => rl_blocked L
  | HSleeping => rl_sleeping L
  | HDead => rl_dead L
  end.

Definition set_members (h : home) (l : list Z) (L : rlists) : rlists :=
  match h with
  | HReady i => RL (<[i := l]> (rl_ready L)) (rl_blocked L) (rl_sleeping L) (rl_dead L)
  | HBlocked => RL (rl_ready L) l (rl_sleeping L) (rl_dead L)
  | HSleeping => RL (rl_ready L) (rl_blocked L) l (rl_dead L)
  | HDead => RL (rl_ready L) (rl_blocked L) (rl_sleeping L) l
  end.

Definition enq (h : home) (p : Z) (L : rlists) : rlists := set_members h (members L h ++ [p]) L.
Definition deq (h : home) (p : Z) (L : rlists) : rlists := set_members h (unlink p (members L h)) L.

Definition valid_home (h : home) : Prop := match h with HReady i => (i < 5)%nat | _ => True end.

Record linv (T : gmap Z proc) (L : rlists) : Prop := {
  li_len : length (rl_ready L) = 5%nat;
  li_nodup h : NoDup (members L h);
  li_mem h p : p ∈ members L h <-> exists t, T !! p = Some t /\ home_of t = Some h;
  li_pri p t : T !! p = Some t -> 0 <= p_runpri t < 5
}.

Section facts.
Implicit Types (T : gmap Z proc) (L : rlists).

Lemma nth_insert_eq {A : Type} (l : list A) i x y : (i < length l)%nat -> nth i (<[i := x]> l) y = x.
Proof.
  intros Hi. apply nth_lookup_Some. by apply list_lookup_insert_eq.
Qed.

Lemma nth_insert_ne {A : Type} (l : list A) i j x y : i <> j -> nth j (<[i := x]> l) y = nth j l y.
Proof. intros Hne. by rewrite !nth_lookup, list_lookup_insert_ne. Qed.

Lemma members_set L h l h' :
  length (rl_ready L) = 5%nat -> valid_home h ->
  members (set_members h l L) h' = if decide (h' = h) then l else members L h'.
Proof.
  intros Hlen Hv. destruct (decide (h' = h)) as [->|Hne].
  - destruct h; simpl; [|done..]. apply nth_insert_eq. simpl in Hv. lia.
  - destruct h as [i| | |], h' as [j| | |]; simpl; try done. apply nth_insert_ne. congruence.
Qed.

Lemma set_members_len L h l : length (rl_ready (set_members h l L)) = length (rl_ready L).
Proof. destruct h; simpl; [apply length_insert|done..]. Qed.

Lemma home_valid T L p t h : linv T L -> T !! p = Some t -> home_of t = Some h -> valid_home h.
Proof.
  intros HL Ht Hh. pose proof (li_pri _ _ HL p t Ht). unfold home_of in Hh.
  repeat case_match; simplify_eq; simpl; lia.
Qed.

(** A thread that leaves its list for a state that has none. *)
Lemma linv_deq T L p t t' h :
  linv T L -> T !! p = Some t -> home_of t = Some h -> home_of t' = None -> 0 <= p_runpri t' < 5 ->
  linv (<[p := t']> T) (deq h p L).
Proof.
  intros HL Ht Hh Hh' Hp'. pose proof (home_valid _ _ _ _ _ HL Ht Hh) as Hv. unfold deq. split.
  - rewrite set_members_len. apply HL.
  - intros h'. rewrite members_set by (done || apply HL). case_decide; [apply unlink_nodup|]; apply HL.
  - intros h' q. rewrite members_set by (done || apply HL).
    assert (Hq : (exists u, <[p := t']> T !! q = Some u /\ home_of u = Some h') <->
                 (q <> p /\ exists u, T !! q = Some u /\ home_of u = Some h')).
    { destruct (decide (q = p)) as [->|Hne]; [rewrite lookup_insert_eq|rewrite lookup_insert_ne by done]; naive_solver. }
    rewrite Hq, <- (li_mem _ _ HL). case_decide as Hd.
    + subst h'. rewrite unlink_elem by apply HL. tauto.
    + split; [|tauto]. intros Hin. split; [|done]. intros ->. apply (li_mem _ _ HL) in Hin as (u & Hu & Hhu). congruence.
  - intros q u Hu. apply lookup_insert_Some in Hu as [[<- <-]|[_ Hu]]; [done|by eapply (li_pri _ _ HL)].
Qed.

(** A thread that enters a list from a state that has none. *)
Lemma linv_enq T L p t t' h :
  linv T L -> T !! p = Some t -> home_of t = None -> home_of t' = Some h -> 0 <= p_runpri t' < 5 ->
  linv (<[p := t']> T) (enq h p L).
Proof.
  intros HL Ht Hh Hh' Hp'. assert (Hv : valid_home h).
  { unfold home_of in Hh'. repeat case_match; simplify_eq; simpl; lia. }
  assert (Hn : forall h', p ∉ members L h').
  { intros h' Hin. apply (li_mem _ _ HL) in Hin as (u & Hu & Hhu). congruence. }
  unfold enq. split.
  - rewrite set_members_len. apply HL.
  - intros h'. rewrite members_set by (done || apply HL). case_decide; [|apply HL].
    apply NoDup_app. split_and!; [apply HL| |apply NoDup_singleton]. intros x Hx Hxp.
    apply list_elem_of_singleton in Hxp as ->. by apply (Hn h).
  - intros h' q. rewrite members_set by (done || apply HL).
    assert (Hq : (exists u, <[p := t']> T !! q = Some u /\ home_of u = Some h') <->
                 (q = p /\ h' = h) \/ (q <> p /\ q ∈ members L h')).
    { rewrite (li_mem _ _ HL).
      destruct (decide (q = p)) as [->|Hne]; [rewrite lookup_insert_eq|rewrite lookup_insert_ne by done]; naive_solver. }
    rewrite Hq. case_decide as Hd.
    + subst h'. rewrite elem_of_app, list_elem_of_singleton. split; [|tauto].
      destruct (decide (q = p)); [tauto|]. intros [?|?]; [tauto|done].
    + split; [|tauto]. intros Hin. right. split; [|done]. intros ->. by apply (Hn h').
  - intros q u Hu. apply lookup_insert_Some in Hu as [[<- <-]|[_ Hu]]; [done|by eapply (li_pri _ _ HL)].
Qed.

(** A thread that stays where it is. *)
Lemma linv_keep T L p t t' :
  linv T L -> T !! p = Some t -> home_of t' = home_of t -> 0 <= p_runpri t' < 5 -> linv (<[p := t']> T) L.
Proof.
  intros HL Ht Hh Hp'. split; [apply HL|apply HL| |].
  - intros h q. rewrite (li_mem _ _ HL).
    destruct (decide (q = p)) as [->|Hne]; [rewrite lookup_insert_eq|rewrite lookup_insert_ne by done]; naive_solver congruence.
  - intros q u Hu. apply lookup_insert_Some in Hu as [[<- <-]|[_ Hu]]; [done|by eapply (li_pri _ _ HL)].
Qed.

(** From one list to another. *)
Lemma linv_move T L p t t' h h' :
  linv T L -> T !! p = Some t -> home_of t = Some h -> home_of t' = Some h' -> 0 <= p_runpri t' < 5 ->
  linv (<[p := t']> T) (enq h' p (deq h p L)).
Proof.
  intros HL Ht Hh Hh' Hp'. pose proof (li_pri _ _ HL p t Ht) as Hpr.
  rewrite <- (insert_insert_eq T p t' (p_set_stat SONPROC t)).
  eapply linv_enq; [|apply lookup_insert_eq|done|done|done].
  by eapply linv_deq.
Qed.

(** New and discarded threads are on no list. *)
Lemma linv_new T L p t :
  linv T L -> T !! p = None -> home_of t = None -> 0 <= p_runpri t < 5 -> linv (<[p := t]> T) L.
Proof.
  intros HL Ht Hh Hp'. split; [apply HL|apply HL| |].
  - intros h q. rewrite (li_mem _ _ HL).
    destruct (decide (q = p)) as [->|Hne]; [rewrite lookup_insert_eq|rewrite lookup_insert_ne by done]; naive_solver congruence.
  - intros q u Hu. apply lookup_insert_Some in Hu as [[<- <-]|[_ Hu]]; [done|by eapply (li_pri _ _ HL)].
Qed.

Lemma linv_delete T L p t : linv T L -> T !! p = Some t -> home_of t = None -> linv (delete p T) L.
Proof.
  intros HL Ht Hh. split; [apply HL|apply HL| |].
  - intros h q. rewrite (li_mem _ _ HL).
    destruct (decide (q = p)) as [->|Hne]; [rewrite lookup_delete_eq|rewrite lookup_delete_ne by done]; naive_solver congruence.
  - intros q u Hu. apply lookup_delete_Some in Hu as [_ Hu]. by eapply (li_pri _ _ HL).
Qed.

Lemma linv_home T L p t h : linv T L -> T !! p = Some t -> home_of t = Some h -> p ∈ members L h.
Proof. intros HL Ht Hh. apply (li_mem _ _ HL). by exists t. Qed.

Lemma elem_of_linked L p :
  length (rl_ready L) = 5%nat ->
  p ∈ concat (rl_ready L) ++ rl_blocked L ++ rl_sleeping L ++ rl_dead L <-> exists h, p ∈ members L h.
Proof.
  intros Hlen. rewrite !elem_of_app. split.
  - intros [Hc|[Hb|[Hs|Hd]]]; [|by exists HBlocked|by exists HSleeping|by exists HDead].
    apply list_elem_of_In, in_concat in Hc as (l & Hl & Hp). apply (In_nth _ _ []) in Hl as (i & Hi & <-).
    exists (HReady i). by apply list_elem_of_In.
  - intros [[i| | |] Hp]; simpl in Hp; [left|tauto..]. apply list_elem_of_In, in_concat.
    destruct (decide (i < 5)%nat) as [Hi|Hi].
    + exists (nth i (rl_ready L) []). split; [apply nth_In; lia|by apply list_elem_of_In].
    + rewrite nth_overflow in Hp by lia. by apply elem_of_nil in Hp.
Qed.

Lemma unlinked T L p t : linv T L -> T !! p = Some t -> home_of t = None ->
  p ∉ concat (rl_ready L) ++ rl_blocked L ++ rl_sleeping L ++ rl_dead L.
Proof.
  intros HL Ht Hh Hp. apply elem_of_linked in Hp as [h Hp]; [|apply HL].
  apply (li_mem _ _ HL) in Hp as (u & Hu & Hhu). congruence.
Qed.

(** The lengths the statistics count. *)
Lemma concat_len_insert (qs : list (list Z)) i l l' :
  qs !! i = Some l -> Z.of_nat (length (concat (<[i := l']> qs))) =
    Z.of_nat (length (concat qs)) - Z.of_nat (length l) + Z.of_nat (length l').
Proof.
  revert i. induction qs as [|q qs IH]; intros [|i] Hi; simplify_eq/=; rewrite !length_app.
  - lia.
  - specialize (IH i Hi). lia.
Qed.

Lemma nth_lookup_lt {A : Type} (l : list A) i y : (i < length l)%nat -> l !! i = Some (nth i l y).
Proof. intros Hi. rewrite nth_lookup. by destruct (lookup_lt_is_Some_2 l i Hi) as [x ->]. Qed.

Lemma enq_ready_len L i p : length (rl_ready L) = 5%nat -> (i < 5)%nat ->
  Z.of_nat (length (concat (rl_ready (enq (HReady i) p L)))) = Z.of_nat (length (concat (rl_ready L))) + 1.
Proof.
  intros Hl Hi. simpl. rewrite (concat_len_insert _ i (nth i (rl_ready L) [])) by (apply nth_lookup_lt; lia).
  rewrite length_app. simpl. lia.
Qed.

Lemma deq_ready_len L i p : length (rl_ready L) = 5%nat -> (i < 5)%nat -> p ∈ nth i (rl_ready L) [] ->
  Z.of_nat (length (concat (rl_ready (deq (HReady i) p L)))) = Z.of_nat (length (concat (rl_ready L))) - 1.
Proof.
  intros Hl Hi Hp. simpl. rewrite (concat_len_insert _ i (nth i (rl_ready L) [])) by (apply nth_lookup_lt; lia).
  pose proof (unlink_length p _ Hp). lia.
Qed.
End facts.

(** ** What the scheduler's operations do to its lists

    [sput] is the state with the scheduler's parts replaced.  [sinv] is the
    invariant; [next_of], [switch_procs] and [switch_lists] are the switch as a
    function. *)

Definition sput (T : gmap Z proc) (L : rlists) (st : sched_stats) (cur c3 : Z) (d : psys) : psys :=
  let x := scheduler d in
  PSys (processes d) T (allprocess d) (zombprocess d) (allproc d) (pidhashtbl d) (tidhashtbl d)
    (nextpid d) (nexttid d) cur
    (Sched (rl_ready L) (rl_blocked L) (rl_sleeping L) (rl_dead L) (idle_task x) (idle_process x)
       (timer_frequency x) (time_slice_ticks x) (running x) st)
    (pit_ticks d) (pit_frequency d) c3.

Lemma sput_id d : sput (procs d) (lists_of (scheduler d)) (sstats (scheduler d)) (curproc d) (cpu_cr3 d) d = d.
Proof. destruct d as [????????? ? x ???]. by destruct x. Qed.

Lemma set_procs_sput T d :
  set_procs T d = sput T (lists_of (scheduler d)) (sstats (scheduler d)) (curproc d) (cpu_cr3 d) d.
Proof. destruct d as [????????? ? x ???]. by destruct x. Qed.

Lemma sput_sput T L st cur c3 T' L' st' cur' c3' d :
  sput T L st cur c3 (sput T' L' st' cur' c3' d) = sput T L st cur c3 d.
Proof. done. Qed.

(** The counters agree with the lists. *)
Definition counts (L : rlists) (st : sched_stats) : Prop :=
  ready_tasks st = u64 (Z.of_nat (length (concat (rl_ready L)))) /\
  blocked_tasks st = u64 (Z.of_nat (length (rl_blocked L))).

(** Only the current thread is running; the idle thread never waits. *)
Record cinv (T : gmap Z proc) (cur idle : Z) : Prop := {
  ci_one p t : T !! p = Some t -> p_stat t = SONPROC -> p = cur;
  ci_cur : cur = NULL \/ exists t, T !! cur = Some t /\ p_stat t <> SDEAD;
  ci_idle : exists t, T !! idle = Some t /\ (p_stat t = SIDL \/ p_stat t = SRUN \/ p_stat t = SONPROC);
  ci_null : T !! NULL = None
}.

Record sinv (d : psys) : Prop := {
  si_lists : linv (procs d) (lists_of (scheduler d));
  si_counts : counts (lists_of (scheduler d)) (sstats (scheduler d));
  si_cur : cinv (procs d) (curproc d) (idle_task (scheduler d))
}.

Lemma sinv_sput T L st cur c3 d :
  linv T L -> counts L st -> cinv T cur (idle_task (scheduler d)) -> sinv (sput T L st cur c3 d).
Proof. intros HL Hc HC. destruct L. by split. Qed.

Definition next_of (d : psys) : Z :=
  let p := first_ready (queues (scheduler d)) in if p =? NULL then idle_task (scheduler d) else p.

Definition ready_thread (t : proc) : proc := p_set_cpticks 0 (p_set_stat SRUN t).
Definition running_thread (t : proc) : proc := p_set_cpticks 0 (p_set_stat SONPROC t).
Definition prio (t : proc) : nat := Z.to_nat (p_runpri t).

(** The thread that ran joins the end of its queue. *)
Definition back_procs (old : Z) (T : gmap Z proc) : gmap Z proc :=
  match T !! old with
  | Some t => if p_stat t =? SONPROC then <[old := ready_thread t]> T else T
  | None => T
  end.
Definition back_lists (old : Z) (T : gmap Z proc) (L : rlists) : rlists :=
  match T !! old with
  | Some t => if p_stat t =? SONPROC then enq (HReady (prio t)) old L else L
  | None => L
  end.

(** The next one leaves its queue. *)
Definition take_procs (new : Z) (T : gmap Z proc) : gmap Z proc :=
  match T !! new with Some t => <[new := running_thread t]> T | None => T end.
Definition take_lists (new : Z) (T : gmap Z proc) (L : rlists) : rlists :=
  match T !! new with
  | Some t => if p_stat t =? SRUN then deq (HReady (prio t)) new L else L
  | None => L
  end.

Definition switch_procs (d : psys) : gmap Z proc :=
  let old := curproc d in
  if old =? next_of d then alter (p_set_cpticks 0) old (procs d)
  else take_procs (next_of d) (back_procs old (procs d)).
Definition switch_lists (d : psys) : rlists :=
  let old := curproc d in let L := lists_of (scheduler d) in
  if old =? next_of d then L
  else take_lists (next_of d) (back_procs old (procs d)) (back_lists old (procs d) L).

(** ** The choice of the next thread *)

Lemma first_ready_spec (q : list (list Z)) :
  length q = 5%nat -> (forall i p, p ∈ nth i q [] -> p <> NULL) ->
  (first_ready q = NULL /\ forall i, nth i q [] = []) \/
  (exists i p l, nth i q [] = p :: l /\ first_ready q = p /\ p <> NULL /\ forall j, (i < j)%nat -> nth j q [] = []).
Proof.
  intros Hl Hn. destruct q as [|a [|b [|c [|d [|f [|]]]]]]; try done. unfold first_ready. simpl.
  assert (Hout : forall j, (4 < j)%nat -> nth j [a; b; c; d; f] [] = []) by (intros j Hj; apply nth_overflow; simpl; lia).
  assert (Hhd : forall i x l, nth i [a; b; c; d; f] [] = x :: l -> x <> NULL).
  { intros i x l Hi. apply (Hn i). rewrite Hi. by left. }
  destruct f as [|x f]; [|right; exists 4%nat, x, f; split_and!; try done; by apply (Hhd 4%nat x f)].
  destruct d as [|x d]; [|right; exists 3%nat, x, d; split_and!; try done; [by apply (Hhd 3%nat x d)|]].
  2: { intros j Hj. destruct (decide (j = 4)%nat) as [->|]; [done|apply Hout; lia]. }
  destruct c as [|x c]; [|right; exists 2%nat, x, c; split_and!; try done; [by apply (Hhd 2%nat x c)|]].
  2: { intros j Hj. destruct j as [|[|[|[|[|j]]]]]; try (done || lia). by destruct j. }
  destruct b as [|x b]; [|right; exists 1%nat, x, b; split_and!; try done; [by apply (Hhd 1%nat x b)|]].
  2: { intros j Hj. destruct j as [|[|[|[|[|j]]]]]; try (done || lia). by destruct j. }
  destruct a as [|x a]; [|right; exists 0%nat, x, a; split_and!; try done; [by apply (Hhd 0%nat x a)|]].
  2: { intros j Hj. destruct j as [|[|[|[|[|j]]]]]; try (done || lia). by destruct j. }
  left. split; [done|]. intros j. destruct j as [|[|[|[|[|j]]]]]; try done. by destruct j.
Qed.

Section ops.
Context {E : Type} `{AddressSpaces E}.
Abbreviation K := (M (kst (guarded psys) E)).
Implicit Types (d : psys) (e : E) (fl : Z) (held : list Z).

Lemma ev_open {X : Type} held (m : K X) Q d e fl :
  ev held m Q (sput (procs d) (lists_of (scheduler d)) (sstats (scheduler d)) (curproc d) (cpu_cr3 d) d) e fl ->
  ev held m Q d e fl.
Proof. by rewrite sput_id. Qed.

Lemma ev_stat held f (Q : unit -> psys -> E -> Z -> Prop) T L st cur c3 d e fl :
  Q tt (sput T L (f st) cur c3 d) e fl -> ev held (stat f) Q (sput T L st cur c3 d) e fl.
Proof. intros HQ. unfold stat, set_sched. by ev_step. Qed.

Lemma ev_sdata {X : Type} held (f : sched -> X) (Q : X -> psys -> E -> Z -> Prop) d e fl :
  Q (f (scheduler d)) d e fl -> ev held (sdata f) Q d e fl.
Proof. intros HQ. unfold sdata. by ev_step. Qed.

Lemma ev_fresh_link held p (Q : unit -> psys -> E -> Z -> Prop) d e fl :
  p ∉ linked (scheduler d) -> Q tt d e fl -> ev held (fresh_link p) Q d e fl.
Proof.
  intros Hp HQ. unfold fresh_link. ev_step. apply ev_sdata. rewrite decide_False by done. by ev_step.
Qed.

Lemma aread_nth (q : list (list Z)) i : length q = 5%nat -> 0 <= i < 5 -> aread q i = Ok (nth (Z.to_nat i) q []).
Proof.
  intros Hl Hi. unfold aread. rewrite decide_True by lia.
  rewrite (nth_lookup_lt q (Z.to_nat i) []) by lia. done.
Qed.

Lemma awrite_queue (q : list (list Z)) i l : length q = 5%nat -> 0 <= i < 5 -> awrite q i l = Ok (<[Z.to_nat i := l]> q).
Proof. intros Hl Hi. unfold awrite. rewrite decide_True; [done|]. rewrite Hl. lia. Qed.

Lemma ev_ready_insert held i p (Q : unit -> psys -> E -> Z -> Prop) T L st cur c3 d e fl :
  length (rl_ready L) = 5%nat -> 0 <= i < 5 ->
  p ∉ concat (rl_ready L) ++ rl_blocked L ++ rl_sleeping L ++ rl_dead L ->
  Q tt (sput T (enq (HReady (Z.to_nat i)) p L) st cur c3 d) e fl ->
  ev held (ready_insert i p) Q (sput T L st cur c3 d) e fl.
Proof.
  intros Hl Hi Hp HQ. unfold ready_insert. ev_step. apply ev_fresh_link; [done|]. ev_step. apply ev_sdata. simpl.
  ev_step. eapply ev_lift; [by apply aread_nth|]. ev_step. eapply ev_lift; [by apply awrite_queue|].
  unfold set_sched. by ev_step.
Qed.

Lemma ev_ready_remove held i p (Q : unit -> psys -> E -> Z -> Prop) T L st cur c3 d e fl :
  length (rl_ready L) = 5%nat -> 0 <= i < 5 -> p ∈ members L (HReady (Z.to_nat i)) ->
  Q tt (sput T (deq (HReady (Z.to_nat i)) p L) st cur c3 d) e fl ->
  ev held (ready_remove i p) Q (sput T L st cur c3 d) e fl.
Proof.
  intros Hl Hi Hp HQ. unfold ready_remove. ev_step. apply ev_sdata. simpl.
  ev_step. eapply ev_lift; [by apply aread_nth|]. ev_step.
  eapply ev_lift; [unfold queue_remove; by rewrite decide_True|]. ev_step. eapply ev_lift; [by apply awrite_queue|].
  unfold set_sched. by ev_step.
Qed.

Lemma ev_upd_thread held p t f (Q : unit -> psys -> E -> Z -> Prop) T L st cur c3 d e fl :
  T !! p = Some t -> Q tt (sput (<[p := f t]> T) L st cur c3 d) e fl ->
  ev held (upd_proc p f) Q (sput T L st cur c3 d) e fl.
Proof. intros Ht HQ. by eapply ev_upd_proc. Qed.

Lemma ev_blocked_insert held p (Q : unit -> psys -> E -> Z -> Prop) T L st cur c3 d e fl :
  p ∉ concat (rl_ready L) ++ rl_blocked L ++ rl_sleeping L ++ rl_dead L ->
  Q tt (sput T (enq HBlocked p L) st cur c3 d) e fl ->
  ev held (blocked_insert p) Q (sput T L st cur c3 d) e fl.
Proof.
  intros Hp HQ. unfold blocked_insert, set_sched. ev_step. apply ev_fresh_link; [done|]. by ev_step.
Qed.

Lemma ev_sleeping_insert held p (Q : unit -> psys -> E -> Z -> Prop) T L st cur c3 d e fl :
  p ∉ concat (rl_ready L) ++ rl_blocked L ++ rl_sleeping L ++ rl_dead L ->
  Q tt (sput T (enq HSleeping p L) st cur c3 d) e fl ->
  ev held (sleeping_insert p) Q (sput T L st cur c3 d) e fl.
Proof.
  intros Hp HQ. unfold sleeping_insert, set_sched. ev_step. apply ev_fresh_link; [done|]. by ev_step.
Qed.

Lemma ev_terminated_insert held p (Q : unit -> psys -> E -> Z -> Prop) T L st cur c3 d e fl :
  p ∉ concat (rl_ready L) ++ rl_blocked L ++ rl_sleeping L ++ rl_dead L ->
  Q tt (sput T (enq HDead p L) st cur c3 d) e fl ->
  ev held (terminated_insert p) Q (sput T L st cur c3 d) e fl.
Proof.
  intros Hp HQ. unfold terminated_insert, set_sched. ev_step. apply ev_fresh_link; [done|]. by ev_step.
Qed.

Lemma ev_blocked_remove held p (Q : unit -> psys -> E -> Z -> Prop) T L st cur c3 d e fl :
  p ∈ rl_blocked L -> Q tt (sput T (deq HBlocked p L) st cur c3 d) e fl ->
  ev held (blocked_remove p) Q (sput T L st cur c3 d) e fl.
Proof.
  intros Hp HQ. unfold blocked_remove, set_sched. ev_step. apply ev_sdata. ev_step.
  eapply ev_lift; [unfold queue_remove; by rewrite decide_True|]. by ev_step.
Qed.

Lemma ev_sleeping_remove held p (Q : unit -> psys -> E -> Z -> Prop) T L st cur c3 d e fl :
  p ∈ rl_sleeping L -> Q tt (sput T (deq HSleeping p L) st cur c3 d) e fl ->
  ev held (sleeping_remove p) Q (sput T L st cur c3 d) e fl.
Proof.
  intros Hp HQ. unfold sleeping_remove, set_sched. ev_step. apply ev_sdata. ev_step.
  eapply ev_lift; [unfold queue_remove; by rewrite decide_True|]. by ev_step.
Qed.

Lemma ev_terminated_remove held p (Q : unit -> psys -> E -> Z -> Prop) T L st cur c3 d e fl :
  p ∈ rl_dead L -> Q tt (sput T (deq HDead p L) st cur c3 d) e fl ->
  ev held (terminated_remove p) Q (sput T L st cur c3 d) e fl.
Proof.
  intros Hp HQ. unfold terminated_remove, set_sched. ev_step. apply ev_sdata. ev_step.
  eapply ev_lift; [unfold queue_remove; by rewrite decide_True|]. by ev_step.
Qed.

Lemma ev_load_cr3 held t (Q : unit -> psys -> E -> Z -> Prop) T L st cur c3 d e fl :
  (forall c3', Q tt (sput T L st cur c3' d) e fl) -> ev held (load_cr3 t) Q (sput T L st cur c3 d) e fl.
Proof.
  intros HQ. unfold load_cr3. destruct (negb (p_vmspace t =? NULL)); ev_steps; apply HQ.
Qed.
End ops.
