(* ===== verification/SchedSwitch.v ===== *)
(** * The switch to the next thread *)

From stdpp Require Import base numbers list gmap strings.
From S2P Require Import Prelude Spinlock Kernel KLogic Proc ProcFacts Sched SchedFacts.

(** ** Counters *)

Lemma u64_add a b : u64 (u64 a + b) = u64 (a + b).
Proof. unfold u64. by rewrite Zplus_mod_idemp_l. Qed.

Lemma counts_enq_ready L st i p : length (rl_ready L) = 5%nat -> (i < 5)%nat ->
  counts L st -> counts (enq (HReady i) p L) (add_ready 1 st).
Proof.
  intros Hl Hi [Hr Hb]. split; [|done]. rewrite enq_ready_len by done. simpl. by rewrite Hr, u64_add.
Qed.

Lemma counts_deq_ready L st i p : length (rl_ready L) = 5%nat -> (i < 5)%nat -> p ∈ members L (HReady i) ->
  counts L st -> counts (deq (HReady i) p L) (add_ready (-1) st).
Proof.
  intros Hl Hi Hp [Hr Hb]. split; [|done]. rewrite deq_ready_len by done. simpl. by rewrite Hr, u64_add.
Qed.

Lemma counts_enq_blocked L st p : counts L st -> counts (enq HBlocked p L) (add_blocked 1 st).
Proof.
  intros [Hr Hb]. split; [done|]. simpl. rewrite Hb, u64_add, length_app. simpl. f_equal. lia.
Qed.

Lemma counts_deq_blocked L st p : p ∈ rl_blocked L -> counts L st -> counts (deq HBlocked p L) (add_blocked (-1) st).
Proof.
  intros Hp [Hr Hb]. split; [done|]. simpl. rewrite Hb, u64_add, (unlink_length p _ Hp). f_equal. lia.
Qed.

(** ** Homes of threads *)

Lemma home_srun t : p_stat t = SRUN -> home_of t = Some (HReady (prio t)).
Proof. intros Hs. unfold home_of. by rewrite Hs. Qed.
Lemma home_sstop t : p_stat t = SSTOP -> home_of t = Some HBlocked.
Proof. intros Hs. unfold home_of. by rewrite Hs. Qed.
Lemma home_ssleep t : p_stat t = SSLEEP -> home_of t = Some HSleeping.
Proof. intros Hs. unfold home_of. by rewrite Hs. Qed.
Lemma home_sdead t : p_stat t = SDEAD -> home_of t = Some HDead.
Proof. intros Hs. unfold home_of. by rewrite Hs. Qed.
Lemma home_sonproc t : p_stat t = SONPROC -> home_of t = None.
Proof. intros Hs. unfold home_of. by rewrite Hs. Qed.
Lemma home_sidl t : p_stat t = SIDL -> home_of t = None.
Proof. intros Hs. unfold home_of. by rewrite Hs. Qed.
Lemma home_ready_inv t i : home_of t = Some (HReady i) -> p_stat t = SRUN /\ prio t = i.
Proof.
  unfold home_of, prio. destruct (Z.eqb_spec (p_stat t) SRUN); [by intros [= <-]|]. repeat case_match; congruence.
Qed.

Lemma prio_lt T L p t : linv T L -> T !! p = Some t -> (prio t < 5)%nat.
Proof. intros HL Ht. pose proof (li_pri _ _ HL p t Ht). unfold prio. lia. Qed.

Lemma ready_nonnull d i p : sinv d -> p ∈ nth i (queues (scheduler d)) [] -> p <> NULL.
Proof.
  intros HS Hp ->. apply (li_mem _ _ (si_lists _ HS) (HReady i)) in Hp as (t & Ht & _).
  by rewrite (ci_null _ _ _ (si_cur _ HS)) in Ht.
Qed.

(** ** The next thread *)

Inductive next_is (d : psys) : Prop :=
  | next_ready i l t : nth i (queues (scheduler d)) [] = next_of d :: l ->
      (forall j, (i < j)%nat -> nth j (queues (scheduler d)) [] = []) ->
      procs d !! next_of d = Some t -> p_stat t = SRUN -> prio t = i -> next_is d
  | next_idle t : (forall j, nth j (queues (scheduler d)) [] = []) -> next_of d = idle_task (scheduler d) ->
      procs d !! next_of d = Some t -> (p_stat t = SIDL \/ p_stat t = SONPROC) -> next_is d.

Lemma next_spec d : sinv d -> next_is d.
Proof.
  intros HS. pose proof (si_lists _ HS) as HL.
  destruct (first_ready_spec (queues (scheduler d))) as [[Hnull He]|(i & p & l & Hq & Hf & Hn & Hj)].
  - apply HL.
  - intros i p. by apply ready_nonnull.
  - assert (Hnx : next_of d = idle_task (scheduler d)) by (unfold next_of; by rewrite Hnull).
    destruct (ci_idle _ _ _ (si_cur _ HS)) as (t & Ht & Hst).
    eapply (next_idle d t); [done|done|by rewrite Hnx|]. destruct Hst as [?|[Hr|?]]; [by left| |by right].
    pose proof (linv_home _ _ _ _ _ HL Ht (home_srun t Hr)) as Hin. simpl in Hin. rewrite He in Hin.
    by apply elem_of_nil in Hin.
  - assert (Hnx : next_of d = p) by (unfold next_of; rewrite Hf; by rewrite (proj2 (Z.eqb_neq p NULL))).
    assert (Hin : p ∈ members (lists_of (scheduler d)) (HReady i)) by (simpl; rewrite Hq; by left).
    apply (li_mem _ _ HL) in Hin as (t & Ht & Hh). apply home_ready_inv in Hh as [Hs Hp].
    eapply (next_ready d i l t); [by rewrite Hnx|done|by rewrite Hnx|done|done].
Qed.

Lemma next_live d : sinv d -> next_of d <> NULL /\ exists t, procs d !! next_of d = Some t.
Proof.
  intros HS. assert (Hex : exists t, procs d !! next_of d = Some t) by (destruct (next_spec d HS); by eexists).
  split; [|done]. intros Hn. destruct Hex as [t Ht]. rewrite Hn in Ht.
  by rewrite (ci_null _ _ _ (si_cur _ HS)) in Ht.
Qed.

(** ** Putting the old thread back *)

Lemma back_linv old T L : linv T L -> linv (back_procs old T) (back_lists old T L).
Proof.
  intros HL. unfold back_procs, back_lists. destruct (T !! old) as [t|] eqn:Ht; [|done].
  destruct (Z.eqb_spec (p_stat t) SONPROC) as [Hs|Hs]; [|done].
  eapply linv_enq; [done|done|by apply home_sonproc|by apply (home_srun (ready_thread t))|exact (li_pri _ _ HL old t Ht)].
Qed.

Lemma back_lookup_ne old T p : p <> old -> back_procs old T !! p = T !! p.
Proof.
  intros Hne. unfold back_procs. destruct (T !! old) as [t|]; [|done]. case_match; [|done].
  by rewrite lookup_insert_ne.
Qed.

(** ** The current thread *)

Definition never_waits (t : proc) : Prop := p_stat t = SIDL \/ p_stat t = SRUN \/ p_stat t = SONPROC.

Lemma cinv_set T cur idle p t t' :
  cinv T cur idle -> T !! p = Some t -> (p_stat t' = SONPROC -> p = cur) -> (p = cur -> p_stat t' <> SDEAD) ->
  (p = idle -> never_waits t') -> cinv (<[p := t']> T) cur idle.
Proof.
  intros HC Ht Hone Hcur Hidle. split.
  - intros q u Hu. apply lookup_insert_Some in Hu as [[<- <-]|[_ Hu]]; [done|by apply (ci_one _ _ _ HC)].
  - destruct (ci_cur _ _ _ HC) as [?|(u & Hu & Hs)]; [by left|right].
    destruct (decide (p = cur)) as [->|Hne]; [exists t'; rewrite lookup_insert_eq; auto|].
    exists u. by rewrite lookup_insert_ne.
  - destruct (ci_idle _ _ _ HC) as (u & Hu & Hs).
    destruct (decide (p = idle)) as [->|Hne]; [exists t'; rewrite lookup_insert_eq; split; [done|by apply Hidle]|].
    exists u. by rewrite lookup_insert_ne.
  - rewrite lookup_insert_ne; [apply (ci_null _ _ _ HC)|]. intros ->. by rewrite (ci_null _ _ _ HC) in Ht.
Qed.

Lemma cinv_run T cur idle p t t' :
  cinv T cur idle -> (forall q u, T !! q = Some u -> p_stat u = SONPROC -> q = p) -> T !! p = Some t ->
  p_stat t' = SONPROC -> cinv (<[p := t']> T) p idle.
Proof.
  intros HC Hno Ht Hs'. split.
  - intros q u Hu Hs. apply lookup_insert_Some in Hu as [[<- <-]|[_ Hu]]; [done|]. by apply (Hno q u).
  - right. exists t'. rewrite lookup_insert_eq, Hs'. done.
  - destruct (ci_idle _ _ _ HC) as (u & Hu & Hs).
    destruct (decide (p = idle)) as [->|Hne]; [exists t'; rewrite lookup_insert_eq; auto|].
    exists u. by rewrite lookup_insert_ne.
  - rewrite lookup_insert_ne; [apply (ci_null _ _ _ HC)|]. intros ->. by rewrite (ci_null _ _ _ HC) in Ht.
Qed.

Lemma cinv_new T cur idle p t :
  cinv T cur idle -> T !! p = None -> p <> NULL -> p_stat t <> SONPROC -> cinv (<[p := t]> T) cur idle.
Proof.
  intros HC Ht Hn Hs. split.
  - intros q u Hu Hq. apply lookup_insert_Some in Hu as [[<- <-]|[_ Hu]]; [done|by apply (ci_one _ _ _ HC q u)].
  - destruct (ci_cur _ _ _ HC) as [?|(u & Hu & Hq)]; [by left|right]. exists u. rewrite lookup_insert_ne; [done|congruence].
  - destruct (ci_idle _ _ _ HC) as (u & Hu & Hq). exists u. rewrite lookup_insert_ne; [done|congruence].
  - rewrite lookup_insert_ne by done. apply (ci_null _ _ _ HC).
Qed.

Lemma cinv_delete T cur idle p :
  cinv T cur idle -> p <> cur -> p <> idle -> cinv (delete p T) cur idle.
Proof.
  intros HC Hc Hi. split.
  - intros q u [_ Hu]%lookup_delete_Some. by apply (ci_one _ _ _ HC).
  - destruct (ci_cur _ _ _ HC) as [?|(u & Hu & Hq)]; [by left|right]. exists u. by rewrite lookup_delete_ne.
  - destruct (ci_idle _ _ _ HC) as (u & Hu & Hq). exists u. by rewrite lookup_delete_ne.
  - rewrite lookup_delete_None. right. apply (ci_null _ _ _ HC).
Qed.

(** Nobody runs: the scheduler has no current thread. *)
Lemma cinv_no_current T cur idle :
  cinv T cur idle -> (forall t, T !! cur = Some t -> p_stat t <> SONPROC) -> cinv T NULL idle.
Proof.
  intros HC Hn. split; [|by left|apply HC|apply HC].
  intros p t Ht Hs. pose proof (ci_one _ _ _ HC p t Ht Hs) as ->. by destruct (Hn t Ht).
Qed.

Lemma back_cinv T cur idle : cinv T cur idle ->
  cinv (back_procs cur T) cur idle /\ forall q u, back_procs cur T !! q = Some u -> p_stat u <> SONPROC.
Proof.
  intros HC. unfold back_procs. destruct (T !! cur) as [t|] eqn:Ht.
  - destruct (Z.eqb_spec (p_stat t) SONPROC) as [Hs|Hs].
    + split; [eapply cinv_set; [done|done|done|done|]; intros _; right; by left|].
      intros q u Hu. apply lookup_insert_Some in Hu as [[<- <-]|[Hne Hu]]; [done|].
      intros Hq. by rewrite (ci_one _ _ _ HC q u Hu Hq) in Hne.
    + split; [done|]. intros q u Hu Hq. pose proof (ci_one _ _ _ HC q u Hu Hq) as ->. congruence.
  - split; [done|]. intros q u Hu Hq. pose proof (ci_one _ _ _ HC q u Hu Hq) as ->. congruence.
Qed.

(** A switch keeps the invariant. *)
Lemma sinv_switch d st c3 :
  sinv d -> counts (switch_lists d) st ->
  sinv (sput (switch_procs d) (switch_lists d) st (next_of d) c3 d).
Proof.
  intros HS Hc. destruct (next_live d HS) as [Hnn [tn Htn]]. pose proof (si_lists _ HS) as HL.
  unfold switch_procs, switch_lists in *. destruct (Z.eqb_spec (curproc d) (next_of d)) as [Heq|Hne].
  - rewrite <- Heq in *. assert (Hal : alter (p_set_cpticks 0) (curproc d) (procs d) =
      <[curproc d := p_set_cpticks 0 tn]> (procs d)).
    { apply map_eq. intros i. destruct (decide (i = curproc d)) as [->|Hi].
      - by rewrite lookup_insert_eq, lookup_alter_eq, Htn.
      - by rewrite lookup_insert_ne, lookup_alter_ne. }
    rewrite Hal. apply sinv_sput.
    + eapply linv_keep; [done|done|done|]. exact (li_pri _ _ HL _ _ Htn).
    + done.
    + eapply cinv_set; [apply HS|done|done| |].
      * intros _. destruct (ci_cur _ _ _ (si_cur _ HS)) as [?|(u & Hu & Hs)]; [done|]. by simplify_eq/=.
      * intros Hi. destruct (ci_idle _ _ _ (si_cur _ HS)) as (u & Hu & Hs). rewrite <- Hi in Hu. by simplify_eq/=.
  - pose proof (back_linv (curproc d) _ _ HL) as HL1. destruct (back_cinv _ _ _ (si_cur _ HS)) as [HC1 Hno].
    assert (Htn1 : back_procs (curproc d) (procs d) !! next_of d = Some tn) by (by rewrite back_lookup_ne).
    unfold take_procs, take_lists in *. rewrite Htn1 in *. apply sinv_sput; [|done|].
    2: { eapply cinv_run; [done| |done|done]. intros q u Hu Hs. by destruct (Hno q u Hu). }
    pose proof (li_pri _ _ HL _ _ Htn) as Hp.
    destruct (Z.eqb_spec (p_stat tn) SRUN) as [Hs|Hs].
    + by eapply linv_deq; [done|done|apply home_srun|..].
    + eapply linv_keep; [done|done| |done]. destruct (next_spec d HS) as [i l t _ _ Ht Hst _|t _ _ Ht Hst]; simplify_eq.
      destruct Hst as [Hst|Hst]; [by rewrite (home_sidl tn)|by destruct (Hno _ _ Htn1)].
Qed.

Section switch.
Context {E : Type} `{AddressSpaces E}.
Implicit Types (d : psys) (e : E) (fl : Z) (held : list Z).

Lemma ev_put_back held old (Q : unit -> psys -> E -> Z -> Prop) T L st cur c3 d e fl :
  linv T L -> T !! NULL = None -> old = NULL \/ is_Some (T !! old) -> counts L st ->
  (forall st', counts (back_lists old T L) st' -> Q tt (sput (back_procs old T) (back_lists old T L) st' cur c3 d) e fl) ->
  ev held (put_back old) Q (sput T L st cur c3 d) e fl.
Proof.
  intros HL Hnull Hold Hc HQ. unfold put_back, back_procs, back_lists in *.
  destruct (Z.eqb_spec old NULL) as [->|Hn]; cbn [negb]; [rewrite Hnull in HQ; ev_step; by apply HQ|].
  destruct Hold as [?|[t Ht]]; [done|]. rewrite Ht in HQ. ev_step. eapply ev_the_proc; [done|].
  destruct (Z.eqb_spec (p_stat t) SONPROC) as [Hs|Hs]; [|ev_step; by apply HQ].
  pose proof (li_pri _ _ HL old t Ht) as Hp. ev_step. eapply ev_upd_thread; [done|]. ev_step.
  apply ev_ready_insert; [apply HL|done|eapply unlinked; [done|done|by apply home_sonproc]|].
  ev_step. apply ev_stat. apply ev_stat. apply HQ.
  destruct (counts_enq_ready L st (prio t) old) as [C1 C2]; [apply HL|unfold prio; lia|done|]. by split.
Qed.

Lemma ev_switch held (Q : switch_result -> psys -> E -> Z -> Prop) d e fl :
  sinv d -> running (scheduler d) = true ->
  (forall r st c3 fl', counts (switch_lists d) st -> (r = SwSame <-> curproc d = next_of d) ->
     (forall n, curproc d <> next_of d -> procs d !! next_of d = Some n -> p_cpu_state n <> NULL ->
        r = SwContext (curproc d) (next_of d) \/ r = SwInitial (next_of d)) ->
     Q r (sput (switch_procs d) (switch_lists d) st (next_of d) c3 d) e fl') ->
  ev held scheduler_switch_to_next Q d e fl.
Proof.
  intros HS Hrun HQ. destruct (next_live d HS) as [Hnn [tn Htn]]. pose proof (si_lists _ HS) as HL.
  unfold scheduler_switch_to_next. ev_step. apply ev_sdata. rewrite Hrun. cbn [negb]. ev_steps.
  unfold proc_get_current, scheduler_pick_next_task. do 2 ev_step. apply ev_sdata. ev_step. apply ev_sdata.
  change (if _ =? NULL then _ else _) with (next_of d).
  unfold switch_procs, switch_lists in HQ.
  destruct (Z.eqb_spec (curproc d) (next_of d)) as [Heq|Hne].
  - rewrite Heq. rewrite (proj2 (Z.eqb_neq (next_of d) NULL)) by done. cbn [negb]. ev_step.
    eapply ev_upd_proc; [done|]. ev_step. ev_step. ev_step.
    assert (Hsame : set_procs (<[next_of d := p_set_cpticks 0 tn]> (procs d)) d =
      sput (alter (p_set_cpticks 0) (curproc d) (procs d)) (lists_of (scheduler d)) (sstats (scheduler d))
        (next_of d) (cpu_cr3 d) d).
    { rewrite set_procs_sput, Heq. f_equal. apply map_eq. intros i. destruct (decide (i = next_of d)) as [->|Hi].
      - by rewrite lookup_insert_eq, lookup_alter_eq, Htn.
      - by rewrite lookup_insert_ne, lookup_alter_ne. }
    rewrite Hsame. apply HQ; [apply HS|done|done].
  - ev_step. apply ev_open.
    eapply ev_put_back; [done|apply (si_cur _ HS)| |apply HS|].
    { destruct (ci_cur _ _ _ (si_cur _ HS)) as [?|(t & Ht & _)]; [by left|right; by exists t]. }
    intros st1 Hc1. set (T1 := back_procs _ _) in *. set (L1 := back_lists _ _ _) in *.
    assert (HL1 : linv T1 L1) by (by apply back_linv).
    assert (Htn1 : T1 !! next_of d = Some tn) by (unfold T1; by rewrite back_lookup_ne).
    unfold take_procs, take_lists in HQ. rewrite Htn1 in HQ.
    ev_step. eapply ev_the_proc; [exact Htn1|]. ev_step.
    pose proof (li_pri _ _ HL1 _ _ Htn1) as Hp. pose proof (prio_lt _ _ _ _ HL1 Htn1) as Hp5.
    assert (Htake : forall Q' : unit -> psys -> E -> Z -> Prop, (forall st2, counts (if p_stat tn =? SRUN then deq (HReady (prio tn)) (next_of d) L1 else L1) st2 ->
        Q' tt (sput T1 (if p_stat tn =? SRUN then deq (HReady (prio tn)) (next_of d) L1 else L1) st2 (curproc d) (cpu_cr3 d) d) e (no_irq fl)) ->
      ev held (if p_stat tn =? SRUN then ready_remove (proc_get_priority tn) (next_of d) ;;; stat (add_ready (-1)) else ret tt)
        Q' (sput T1 L1 st1 (curproc d) (cpu_cr3 d) d) e (no_irq fl)).
    { intros Q' HQ'. destruct (Z.eqb_spec (p_stat tn) SRUN) as [Hs|Hs]; [|ev_step; by apply HQ'].
      pose proof (linv_home _ _ _ _ _ HL1 Htn1 (home_srun tn Hs)) as Hin.
      ev_step. eapply ev_ready_remove; [apply HL1|done|done|]. apply ev_stat. apply HQ'.
      by apply counts_deq_ready; [apply HL1|..]. }
    apply Htake. intros st2 Hc2. clear Htake. set (L2 := if p_stat tn =? SRUN then deq (HReady (prio tn)) (next_of d) L1 else L1) in *.
    ev_step. eapply ev_upd_thread; [done|]. ev_step. apply ev_stat. ev_step. unfold proc_set_current. ev_step.
    ev_step. apply (ev_stat _ _ _ (<[next_of d := running_thread tn]> T1) L2 (add_running 1 st2) (next_of d) (cpu_cr3 d) d). ev_step. eapply ev_the_proc; [apply lookup_insert_eq|].
    ev_step. apply ev_load_cr3. intros c3'.
    assert (Hr : forall r fl' st', r <> SwSame -> counts L2 st' ->
      (p_cpu_state tn <> NULL -> r = SwContext (curproc d) (next_of d) \/ r = SwInitial (next_of d)) -> Q r (sput (<[next_of d := running_thread tn]> T1) L2
      st' (next_of d) c3' d) e fl').
    { intros r fl' st' Hr Hc Hcpu. apply HQ; [done|split; [done|by intros]|]. intros n _ Hn Hcn. apply Hcpu. congruence. }
    assert (Hold : forall Q' : Z -> psys -> E -> Z -> Prop, (forall x, Q' x (sput (<[next_of d := running_thread tn]> T1) L2 (count_switch (add_running 1 st2))
        (next_of d) c3' d) e (no_irq fl)) ->
      ev held (if negb (curproc d =? NULL) then t <- the_proc (curproc d) ;; ret (p_cpu_state t) else ret NULL) Q'
        (sput (<[next_of d := running_thread tn]> T1) L2 (count_switch (add_running 1 st2)) (next_of d) c3' d) e (no_irq fl)).
    { intros Q' HQ'. destruct (Z.eqb_spec (curproc d) NULL) as [|Hcn]; cbn [negb]; [ev_step; apply HQ'|].
      destruct (ci_cur _ _ _ (si_cur _ HS)) as [?|(t & Ht & _)]; [done|]. 
      assert (Hsome : is_Some (<[next_of d := running_thread tn]> T1 !! curproc d)).
      { rewrite lookup_insert_ne by done. unfold T1, back_procs. rewrite Ht.
        case_match; [rewrite lookup_insert_eq|rewrite Ht]; by eexists. }
      destruct Hsome as [u Hu]. ev_step. eapply ev_the_proc; [exact Hu|]. ev_step. apply HQ'. }
    ev_step. apply Hold. intros x. clear Hold.
    cbn [p_cpu_state running_thread p_set_cpticks p_set_stat]. change (p_cpu_state (running_thread tn)) with (p_cpu_state tn).
    destruct (Z.eqb_spec x NULL) as [_|_], (Z.eqb_spec (p_cpu_state tn) NULL) as [Hz|Hz]; cbn [negb andb];
      ev_steps; apply Hr; try done; intros _; [by right|by left].
Qed.
End switch.
