(* ===== verification/SchedOps.v ===== *)
(** * The scheduler's operations keep the invariants *)

From stdpp Require Import base numbers list gmap strings.
From S2P Require Import Prelude Spinlock Kernel KLogic Proc ProcFacts ProcInv ProcOps.
From S2P Require Import Sched SchedFacts SchedSwitch.

(** What the process tables know of a thread. *)
Definition p_key (t : proc) : Z * Z * Z := (p_p t, p_tid t, p_kstack t).
Definition same_keys (T T' : gmap Z proc) : Prop := p_key <$> T' = p_key <$> T.

Section keys.
Implicit Types (T : gmap Z proc).

Lemma same_keys_set T p t t' : T !! p = Some t -> p_key t' = p_key t -> same_keys T (<[p := t']> T).
Proof. intros Ht Hk. unfold same_keys. rewrite fmap_insert, Hk. apply insert_id. by rewrite lookup_fmap, Ht. Qed.

Lemma same_keys_trans T1 T2 T3 : same_keys T1 T2 -> same_keys T2 T3 -> same_keys T1 T3.
Proof. unfold same_keys. congruence. Qed.

Lemma same_keys_sym T T' : same_keys T T' -> same_keys T' T.
Proof. unfold same_keys. congruence. Qed.

Lemma same_keys_lookup T T' p t : same_keys T T' -> T !! p = Some t -> exists t', T' !! p = Some t' /\ p_key t' = p_key t.
Proof.
  intros Hk Ht. apply (f_equal (fun m => m !! p)) in Hk. rewrite !lookup_fmap, Ht in Hk.
  destruct (T' !! p) as [t'|]; [|done]. exists t'. split; [done|]. simpl in Hk. congruence.
Qed.

Lemma same_keys_dom T T' : same_keys T T' -> dom T' = dom T.
Proof. intros Hk. by rewrite <- (dom_fmap_L p_key T'), Hk, dom_fmap_L. Qed.

Lemma back_keys old T : same_keys T (back_procs old T).
Proof.
  unfold back_procs. destruct (T !! old) as [t|] eqn:Ht; [|done]. case_match; [|done]. by eapply same_keys_set.
Qed.

Lemma take_keys new T : same_keys T (take_procs new T).
Proof. unfold take_procs. destruct (T !! new) as [t|] eqn:Ht; [|done]. by eapply same_keys_set. Qed.

Lemma switch_keys d : same_keys (procs d) (switch_procs d).
Proof.
  unfold switch_procs. case_match; [|eapply same_keys_trans; [apply back_keys|apply take_keys]].
  unfold same_keys. apply map_eq. intros i. rewrite !lookup_fmap.
  destruct (decide (i = curproc d)) as [->|Hne]; [rewrite lookup_alter_eq|by rewrite lookup_alter_ne].
  by destruct (procs d !! curproc d).
Qed.
End keys.

Section ops.
Context {E : Type} `{AddressSpaces E} (sizeof_process sizeof_proc : Z).
Abbreviation K := (M (kst (guarded psys) E)).
Implicit Types (d : psys) (e : E) (fl : Z).

Lemma pinv_sput T L st cur c3 d e : pinv d e -> same_keys (procs d) T -> pinv (sput T L st cur c3 d) e.
Proof.
  intros HI Hk. pose proof (same_keys_dom _ _ Hk) as Hd. pose proof (pi_tables _ _ HI) as HT.
  assert (Hold : forall p t, T !! p = Some t -> exists u, procs d !! p = Some u /\ p_p u = p_p t /\ p_kstack u = p_kstack t).
  { intros p t Ht. destruct (same_keys_lookup _ _ p t (same_keys_sym _ _ Hk) Ht) as (u & Hu & Hku).
    exists u. unfold p_key in Hku. naive_solver. }
  assert (Hnew : forall p t, procs d !! p = Some t -> exists u, T !! p = Some u /\ p_p u = p_p t /\ p_kstack u = p_kstack t).
  { intros p t Ht. destruct (same_keys_lookup _ _ p t Hk Ht) as (u & Hu & Hku).
    exists u. unfold p_key in Hku. naive_solver. }
  assert (Hnone : forall p, procs d !! p = None -> T !! p = None).
  { intros p Hp. apply not_elem_of_dom. rewrite Hd. by apply not_elem_of_dom. }
  split; simpl.
  - split; simpl; rewrite ?Hd; try apply HT. unfold tid_table. simpl. eapply id_table_objs; [apply HT|].
    intros x [t Ht]%elem_of_dom. rewrite Ht. destruct (same_keys_lookup _ _ x t Hk Ht) as (u & -> & Hku).
    unfold p_key in Hku. simpl. f_equal. congruence.
  - destruct (pi_threads _ _ HI) as [TL TO]. split.
    + intros ps r Hr. destruct (TL ps r Hr) as (H1 & H2 & H3 & H4). split_and!; [done..|].
      intros p. rewrite H4. split; intros (t & Ht & Hp).
      * destruct (Hnew p t Ht) as (u & Hu & Ep & _). exists u. by rewrite Ep.
      * destruct (Hold p t Ht) as (u & Hu & Ep & _). exists u. by rewrite Ep.
    + intros p t Ht. destruct (Hold p t Ht) as (u & Hu & <- & _). by eapply TO.
  - destruct (pi_blocks _ _ HI) as [BP BT BS]. split.
    + intros ps r Hr. destruct (BP ps r Hr). auto.
    + intros p t Ht. destruct (Hold p t Ht) as (u & Hu & _ & <-).
      destruct (BT p u Hu) as (H1 & H2 & H3 & H4 & H5). split_and!; auto.
    + intros p q t t' Ht Ht' Ek. destruct (Hold p t Ht) as (u & Hu & _ & Ek1), (Hold q t' Ht') as (u' & Hu' & _ & Ek2).
      eapply BS; [done|done|congruence].
Qed.

(** Both invariants. *)
Record kinv d e : Prop := { ki_p : pinv d e; ki_s : sinv d }.

Lemma kinv_sput T L st cur c3 d e :
  kinv d e -> same_keys (procs d) T -> linv T L -> counts L st -> cinv T cur (idle_task (scheduler d)) ->
  kinv (sput T L st cur c3 d) e.
Proof. intros [HP HS] Hk HL Hc HC. split; [by apply pinv_sput|by apply sinv_sput]. Qed.

(** Invariant and the parts of the state no operation but its own changes. *)
Definition same_setup d d' : Prop :=
  idle_task (scheduler d') = idle_task (scheduler d) /\
  time_slice_ticks (scheduler d') = time_slice_ticks (scheduler d) /\
  pit_frequency d' = pit_frequency d.

Definition kept d (d' : psys) (e' : E) : Prop := kinv d' e' /\ same_setup d d'.

Lemma kept_refl d e : kinv d e -> kept d d e.
Proof. intros HK. split; [done|]. by repeat split. Qed.

Lemma ev_switch_kept (Q : switch_result -> psys -> E -> Z -> Prop) d e fl :
  kinv d e ->
  (forall r d' fl', kept d d' e -> (running (scheduler d) = true -> curproc d' = next_of d) -> Q r d' e fl') ->
  ev [] scheduler_switch_to_next Q d e fl.
Proof.
  intros [HP HS] HQ. destruct (running (scheduler d)) eqn:Hr.
  - apply ev_switch; [done|done|]. intros r st c3 fl' Hc _ _. apply HQ; [|done]. split; [|done].
    split; [|by apply sinv_switch]. apply pinv_sput; [done|apply switch_keys].
  - unfold scheduler_switch_to_next. ev_step. apply ev_sdata. rewrite Hr. simpl. ev_step. apply HQ; [|done].
    by apply kept_refl.
Qed.

Lemma ev_yield_kept (Q : switch_result -> psys -> E -> Z -> Prop) d e fl :
  kinv d e -> (forall r d' fl', kept d d' e -> Q r d' e fl') -> ev [] scheduler_yield Q d e fl.
Proof.
  intros HK HQ. unfold scheduler_yield, proc_get_current. ev_step. apply ev_sdata. ev_steps.
  case_match; [ev_step; apply HQ; by apply kept_refl|]. apply ev_switch_kept; [done|]. intros r d' fl' Hk _. by apply HQ.
Qed.

Lemma kept_trans d d1 d2 e1 e2 : kept d d1 e1 -> kept d1 d2 e2 -> kept d d2 e2.
Proof. intros [_ (S1 & S2 & S3)] [HK (R1 & R2 & R3)]. split; [done|]. repeat split; congruence. Qed.

(** A thread leaves the ready queue, if it is on it. *)
Lemma ev_leave_ready held p t (Q : unit -> psys -> E -> Z -> Prop) T L st cur c3 d e fl :
  linv T L -> counts L st -> T !! p = Some t ->
  (forall L' st', counts L' st' ->
     (forall t', home_of t' = None -> 0 <= p_runpri t' < 5 -> p_stat t = SRUN -> linv (<[p := t']> T) L') ->
     (p_stat t <> SRUN -> L' = L) -> Q tt (sput T L' st' cur c3 d) e fl) ->
  ev held (if p_stat t =? SRUN then ready_remove (proc_get_priority t) p ;;; stat (add_ready (-1)) else ret tt)
    Q (sput T L st cur c3 d) e fl.
Proof.
  intros HL Hc Ht HQ. destruct (Z.eqb_spec (p_stat t) SRUN) as [Hs|Hs]; [|ev_step; by apply HQ].
  pose proof (li_pri _ _ HL p t Ht) as Hp. pose proof (linv_home _ _ _ _ _ HL Ht (home_srun t Hs)) as Hin.
  ev_step. eapply ev_ready_remove; [apply HL|done|done|]. apply ev_stat. apply HQ; [|intros; by eapply linv_deq; [..|apply home_srun| |]|done].
  apply counts_deq_ready; [apply HL|by eapply prio_lt|done|done].
Qed.

(** A state in which a thread may start to wait: it is on no waiting list. *)
Definition may_wait (t : proc) : Prop := p_stat t = SIDL \/ p_stat t = SRUN \/ p_stat t = SONPROC.

Lemma may_wait_home t : may_wait t -> p_stat t <> SRUN -> home_of t = None.
Proof. intros [Hs|[Hs|Hs]] Hn; [by apply home_sidl|done|by apply home_sonproc]. Qed.

(** The lists after the thread left the ready queues, with its new home-less
    record: the point from which it is linked again. *)
Lemma leave_ready_linv T L L' p t :
  linv T L -> T !! p = Some t -> may_wait t ->
  (forall t', home_of t' = None -> 0 <= p_runpri t' < 5 -> p_stat t = SRUN -> linv (<[p := t']> T) L') ->
  (p_stat t <> SRUN -> L' = L) -> linv (<[p := p_set_stat SONPROC t]> T) L'.
Proof.
  intros HL Ht Hw H1 H2. pose proof (li_pri _ _ HL p t Ht) as Hp.
  destruct (decide (p_stat t = SRUN)) as [Hs|Hs]; [by apply H1|]. rewrite H2 by done.
  eapply linv_keep; [done|done| |done]. by rewrite (may_wait_home t Hw Hs).
Qed.

Lemma ev_block_kept p t (Q : switch_result -> psys -> E -> Z -> Prop) d e fl :
  kinv d e -> procs d !! p = Some t -> p <> idle_task (scheduler d) -> (may_wait t \/ p_stat t = SSTOP) ->
  (forall r d' fl', kept d d' e -> Q r d' e fl') -> ev [] (scheduler_block_task p) Q d e fl.
Proof.
  intros HK Ht Hidle Hw HQ. pose proof (ki_s _ _ HK) as HS. pose proof (si_lists _ HS) as HL. unfold scheduler_block_task.
  assert (Hn : p <> NULL) by (intros ->; by rewrite (ci_null _ _ _ (si_cur _ HS)) in Ht).
  rewrite (proj2 (Z.eqb_neq p NULL)) by done. ev_step. eapply ev_the_proc; [done|].
  destruct (Z.eqb_spec (p_stat t) SSTOP) as [Hs|Hs]; [ev_step; apply HQ; by apply kept_refl|].
  destruct Hw as [Hw|?]; [|done]. ev_step. apply ev_open.
  apply ev_leave_ready; [done|apply HS|done|]. intros L' st' Hc H1 H2.
  pose proof (leave_ready_linv _ _ _ _ _ HL Ht Hw H1 H2) as HL'.
  pose proof (li_pri _ _ HL p t Ht) as Hp.
  ev_step. eapply ev_upd_thread; [done|]. ev_step. apply ev_blocked_insert.
  { eapply unlinked; [exact HL'|apply lookup_insert_eq|done]. }
  ev_step. apply ev_stat. ev_step. unfold proc_get_current. ev_step.
  set (d1 := sput _ _ _ _ _ _). change (curproc d1) with (curproc d).
  assert (Hk1 : kept d d1 e).
  { split; [|done]. apply kinv_sput; [done|by eapply same_keys_set| | |].
    - rewrite <- (insert_insert_eq (procs d) p _ (p_set_stat SONPROC t)).
      eapply linv_enq; [exact HL'|apply lookup_insert_eq|done|done|done].
    - by apply counts_enq_blocked.
    - eapply cinv_set; [apply HS|done|done|done|]. by intros ->. }
  destruct (p =? curproc d).
  - apply ev_yield_kept; [apply Hk1|]. intros r d' fl' Hk. apply HQ. exact (kept_trans _ _ _ _ _ Hk1 Hk).
  - ev_step. by apply HQ.
Qed.

Lemma ev_current_time held (Q : Z -> psys -> E -> Z -> Prop) d e fl :
  pit_frequency d <> 0 -> Q (u64 (pit_ticks d * 1000) / pit_frequency d) d e fl -> ev held current_time Q d e fl.
Proof.
  intros Hf HQ. unfold current_time. ev_steps. rewrite (proj2 (Z.eqb_neq _ _)) by done. by ev_step.
Qed.

Lemma ev_sleep_kept p t ms (Q : switch_result -> psys -> E -> Z -> Prop) d e fl :
  kinv d e -> procs d !! p = Some t -> p <> idle_task (scheduler d) -> may_wait t -> pit_frequency d <> 0 ->
  (forall r d' fl', kept d d' e -> Q r d' e fl') -> ev [] (scheduler_sleep_task p ms) Q d e fl.
Proof.
  intros HK Ht Hidle Hw Hfr HQ. pose proof (ki_s _ _ HK) as HS. pose proof (si_lists _ HS) as HL.
  unfold scheduler_sleep_task.
  assert (Hn : p <> NULL) by (intros ->; by rewrite (ci_null _ _ _ (si_cur _ HS)) in Ht).
  rewrite (proj2 (Z.eqb_neq p NULL)) by done. ev_step. apply ev_current_time; [done|]. set (when := u64 (_ + ms)).
  pose proof (li_pri _ _ HL p t Ht) as Hp. ev_step. apply ev_open. eapply ev_upd_thread; [done|].
  set (t1 := p_set_slptime when t). set (T1 := <[p := t1]> (procs d)).
  assert (HL1 : linv T1 (lists_of (scheduler d))) by (by eapply linv_keep).
  assert (Ht1 : T1 !! p = Some t1) by apply lookup_insert_eq.
  ev_step. eapply ev_the_proc; [done|]. ev_step. apply ev_leave_ready; [done|apply HS|done|]. intros L' st' Hc H1 H2.
  pose proof (leave_ready_linv _ _ _ _ t1 HL1 Ht1 Hw H1 H2) as HL'.
  ev_step. eapply ev_upd_thread; [done|]. ev_step. apply ev_sleeping_insert.
  { eapply unlinked; [exact HL'|apply lookup_insert_eq|done]. }
  ev_step. unfold proc_get_current. ev_step. set (d1 := sput _ _ _ _ _ _).
  change (curproc d1) with (curproc d).
  assert (Hk1 : kept d d1 e).
  { split; [|done]. apply kinv_sput; [done| | |done|].
    - eapply same_keys_trans; [by eapply (same_keys_set _ p t t1)|by eapply same_keys_set].
    - rewrite <- (insert_insert_eq T1 p _ (p_set_stat SONPROC t1)).
      eapply linv_enq; [exact HL'|apply lookup_insert_eq|done|done|done].
    - unfold T1. rewrite insert_insert_eq. eapply cinv_set; [apply HS|done|done|done|]. by intros ->. }
  destruct (p =? curproc d).
  - apply ev_yield_kept; [apply Hk1|]. intros r d' fl' Hk. apply HQ. exact (kept_trans _ _ _ _ _ Hk1 Hk).
  - ev_step. by apply HQ.
Qed.

Lemma ev_unblock_kept p t (Q : unit -> psys -> E -> Z -> Prop) d e fl :
  kinv d e -> procs d !! p = Some t ->
  (forall d', kept d d' e ->
     (p_stat t = SSTOP -> lists_of (scheduler d') = enq (HReady (prio t)) p (deq HBlocked p (lists_of (scheduler d)))) ->
     (p_stat t <> SSTOP -> d' = d) -> Q tt d' e fl) ->
  ev [] (scheduler_unblock_task p) Q d e fl.
Proof.
  intros HK Ht HQ. pose proof (ki_s _ _ HK) as HS. pose proof (si_lists _ HS) as HL. unfold scheduler_unblock_task.
  assert (Hn : p <> NULL) by (intros ->; by rewrite (ci_null _ _ _ (si_cur _ HS)) in Ht).
  rewrite (proj2 (Z.eqb_neq p NULL)) by done. ev_step. eapply ev_the_proc; [done|].
  destruct (Z.eqb_spec (p_stat t) SSTOP) as [Hs|Hs]; cbn [negb]; [|ev_step; apply HQ; [by apply kept_refl|done..]].
  pose proof (li_pri _ _ HL p t Ht) as Hp. pose proof (linv_home _ _ _ _ _ HL Ht (home_sstop t Hs)) as Hin.
  ev_step. apply ev_open. apply ev_blocked_remove; [done|]. ev_step. apply ev_stat.
  assert (HL' : linv (<[p := p_set_stat SONPROC t]> (procs d)) (deq HBlocked p (lists_of (scheduler d))))
    by (by eapply linv_deq; [done|done|apply home_sstop|..]).
  ev_step. eapply ev_upd_thread; [done|]. ev_step.
  apply ev_ready_insert; [apply HL'|done|eapply unlinked; [exact HL'|apply lookup_insert_eq|done]|].
  apply ev_stat. apply HQ; [|done|done]. split; [|done].
  apply kinv_sput; [done|by eapply same_keys_set| | |].
  - eapply linv_move; [done|done|by apply home_sstop|by apply (home_srun (ready_thread t))|done].
  - apply counts_enq_ready; [apply HL'|unfold proc_get_priority; lia|]. apply counts_deq_blocked; [done|apply HS].
  - eapply cinv_set; [apply HS|done|done|done|]. intros ->.
    destruct (ci_idle _ _ _ (si_cur _ HS)) as (u & Hu & Hst). simplify_eq. rewrite Hs in Hst.
    by destruct Hst as [?|[?|?]].
Qed.

Lemma ev_set_priority_kept p t i (Q : unit -> psys -> E -> Z -> Prop) d e fl :
  kinv d e -> procs d !! p = Some t -> 0 <= i < 5 ->
  (forall d', kept d d' e -> Q tt d' e fl) -> ev [] (scheduler_set_priority p i) Q d e fl.
Proof.
  intros HK Ht Hi HQ. pose proof (ki_s _ _ HK) as HS. pose proof (si_lists _ HS) as HL. unfold scheduler_set_priority.
  assert (Hn : p <> NULL) by (intros ->; by rewrite (ci_null _ _ _ (si_cur _ HS)) in Ht).
  rewrite (proj2 (Z.eqb_neq p NULL)) by done. ev_step. eapply ev_the_proc; [done|].
  destruct (proc_get_priority t =? i); [ev_step; apply HQ; by apply kept_refl|].
  pose proof (li_pri _ _ HL p t Ht) as Hp. assert (Hu8 : u8 i = i) by (unfold u8; apply Z.mod_small; lia).
  assert (HC : cinv (<[p := p_set_runpri (u8 i) t]> (procs d)) (curproc d) (idle_task (scheduler d))).
  { eapply cinv_set; [apply HS|done| | |].
    - intros Hs. by apply (ci_one _ _ _ (si_cur _ HS) p t).
    - intros ->. destruct (ci_cur _ _ _ (si_cur _ HS)) as [?|(u & Hu & Hs)]; [done|]. by simplify_eq.
    - intros ->. destruct (ci_idle _ _ _ (si_cur _ HS)) as (u & Hu & Hs). by simplify_eq. }
  destruct (Z.eqb_spec (p_stat t) SRUN) as [Hs|Hs].
  - pose proof (linv_home _ _ _ _ _ HL Ht (home_srun t Hs)) as Hin.
    assert (HL' : linv (<[p := p_set_stat SONPROC t]> (procs d)) (deq (HReady (prio t)) p (lists_of (scheduler d))))
      by (by eapply linv_deq; [done|done|apply home_srun|..]).
    ev_step. apply ev_open. eapply ev_ready_remove; [apply HL|done|done|]. ev_step. unfold proc_set_priority.
    eapply ev_upd_thread; [done|].
    apply ev_ready_insert; [apply HL'|done|eapply unlinked; [exact HL'|apply lookup_insert_eq|done]|].
    apply HQ. split; [|done]. apply kinv_sput; [done|by eapply same_keys_set| | |done].
    + eapply linv_move; [done|done|by apply home_srun| |simpl; lia].
      rewrite home_srun by done. unfold prio. simpl. by rewrite Hu8.
    + pose proof (counts_enq_ready _ _ (Z.to_nat i) p (li_len _ _ HL') ltac:(lia)
        (counts_deq_ready _ _ (prio t) p (li_len _ _ HL) (prio_lt _ _ _ _ HL Ht) Hin (si_counts _ HS))) as [C1 C2].
      split; [|done]. etrans; [|exact C1]. destruct (si_counts _ HS) as [C _].
      cbn [add_ready ready_tasks]. rewrite C, u64_add, <- Z.add_assoc, u64_add. f_equal. lia.
  - unfold proc_set_priority. apply ev_open. eapply ev_upd_thread; [done|]. apply HQ. split; [|done].
    apply kinv_sput; [done|by eapply same_keys_set| |apply HS|done].
    eapply linv_keep; [done|done| |simpl; lia]. unfold home_of. simpl. by rewrite (proj2 (Z.eqb_neq _ _) Hs).
Qed.
End ops.
Arguments kept {E _} d d' e'.
