(* ===== verification/SchedTick.v ===== *)
(** * Threads that come and go, and the timer *)

From stdpp Require Import base numbers list gmap strings.
From S2P Require Import Prelude Spinlock Kernel KLogic Proc ProcFacts ProcInv ProcOps.
From S2P Require Import Sched SchedFacts SchedSwitch SchedOps.

Section life.
Context {E : Type} `{AddressSpaces E} (sizeof_process sizeof_proc : Z).
Abbreviation K := (M (kst (guarded psys) E)).
Implicit Types (d : psys) (e : E) (fl : Z).

Lemma sinv_ext d d' : procs d' = procs d -> sched_part d' = sched_part d -> sinv d -> sinv d'.
Proof.
  intros HT [= Hs Hc _ _ _] [HL HC HI]. split; rewrite ?HT, ?Hs, ?Hc; done.
Qed.

Lemma same_setup_ext d d' : sched_part d' = sched_part d -> same_setup d d'.
Proof. intros [= Hs _ _ Hf _]. unfold same_setup. by rewrite Hs, Hf. Qed.

Lemma same_setup_trans d1 d2 d3 : same_setup d1 d2 -> same_setup d2 d3 -> same_setup d1 d3.
Proof. intros (A1 & A2 & A3) (B1 & B2 & B3). repeat split; congruence. Qed.

(** A field of a process that the tables do not use. *)
Lemma kinv_set_process d e ps r r' :
  kinv d e -> processes d !! ps = Some r -> ps_pid r' = ps_pid r -> ps_threads r' = ps_threads r ->
  ps_threadcnt r' = ps_threadcnt r -> ps_mainproc r' = ps_mainproc r ->
  kinv (set_processes (<[ps := r']> (processes d)) d) e.
Proof.
  intros [[HT Hth Hb] HS] Hr Ep El Ec Em. split; [split|by eapply (sinv_ext d)]; simpl.
  - destruct HT. split; simpl; rewrite ?(dom_update _ _ _ _ Hr); try done.
    unfold pid_table. simpl. rewrite <- (dom_update (processes d) ps r r' Hr). by eapply pid_table_update.
  - by eapply threads_set_process.
  - by eapply blocks_set_process.
Qed.

(** [scheduler_exit_task] of a running thread. *)
Lemma ev_exit_kept code t (Q : switch_result -> psys -> E -> Z -> Prop) d e fl :
  kinv d e -> procs d !! curproc d = Some t -> p_stat t = SONPROC -> curproc d <> idle_task (scheduler d) ->
  (forall r d' fl', kept d d' e -> Q r d' e fl') -> ev [] (scheduler_exit_task code) Q d e fl.
Proof.
  intros HK Ht Hs Hidle HQ. pose proof (ki_s _ _ HK) as HS. pose proof (si_lists _ HS) as HL.
  unfold scheduler_exit_task, proc_get_current. do 2 ev_step.
  assert (Hn : curproc d <> NULL) by (intros Hc; by rewrite Hc, (ci_null _ _ _ (si_cur _ HS)) in Ht).
  rewrite (proj2 (Z.eqb_neq _ NULL)) by done. ev_step. eapply ev_the_proc; [done|].
  pose proof (li_pri _ _ HL _ _ Ht) as Hp.
  destruct (ti_owner _ _ (pi_threads _ _ (ki_p _ _ HK)) _ _ Ht) as [r Hr].
  ev_step. apply ev_open. eapply ev_upd_thread; [done|]. ev_step. eapply ev_upd_process; [exact Hr|].
  set (d1 := set_processes (<[p_p t := ps_set_xexit (s32 code) r]> (processes d)) d).
  change (set_processes _ _) with
    (sput (<[curproc d := p_set_stat SDEAD t]> (procs d1)) (lists_of (scheduler d1)) (sstats (scheduler d1)) (curproc d1) (cpu_cr3 d1) d1).
  assert (HK1 : kinv d1 e) by (by eapply kinv_set_process).
  ev_step. apply ev_terminated_insert; [eapply unlinked; [exact HL|done|by apply home_sonproc]|].
  ev_step. unfold proc_set_current. ev_step.
  assert (HK2 : kept d (sput (<[curproc d := p_set_stat SDEAD t]> (procs d1)) (enq HDead (curproc d) (lists_of (scheduler d1)))
      (sstats (scheduler d1)) NULL (cpu_cr3 d1) d1) e).
  { split; [|done]. apply kinv_sput; [done|by eapply same_keys_set| |apply HS|].
    - by eapply linv_enq; [exact HL|done|apply home_sonproc|apply home_sdead|].
    - split.
      + intros q u Hu Hq. apply lookup_insert_Some in Hu as [[<- <-]|[Hne Hu]]; [done|].
        by rewrite (ci_one _ _ _ (si_cur _ HS) q u Hu Hq) in Hne.
      + by left.
      + destruct (ci_idle _ _ _ (si_cur _ HS)) as (u & Hu & Hq). exists u. by rewrite lookup_insert_ne.
      + rewrite lookup_insert_ne by done. apply (si_cur _ HS). }
  apply ev_switch_kept; [apply HK2|]. intros r' d' fl' Hk _. apply HQ. exact (kept_trans _ _ _ _ _ HK2 Hk).
Qed.

(** The part of [scheduler_destroy_task] after the thread left its list. *)
Lemma ev_destroy_tail p t (Q : unit -> psys -> E -> Z -> Prop) L st d e fl :
  pinv d e -> procs d !! p = Some t -> linv (delete p (procs d)) L -> counts L st ->
  cinv (procs d) (curproc d) (idle_task (scheduler d)) -> p <> curproc d -> p <> idle_task (scheduler d) ->
  (forall d' e', kept d d' e' -> procs d' = delete p (procs d) -> lists_of (scheduler d') = L ->
     running (scheduler d') = running (scheduler d) ->
     (curproc d', pit_ticks d') = (curproc d, pit_ticks d) -> Q tt d' e' fl) ->
  ev [] (stat (add_total (-1)) ;;;
    proc_free p ;;;
    if negb (p_p t =? NULL) then
      r <- the_process (p_p t) ;;
      if ps_threadcnt r =? 0 then process_free (p_p t) else ret tt
    else ret tt) Q (sput (procs d) L st (curproc d) (cpu_cr3 d) d) e fl.
Proof.
  intros HI Ht HL Hc HC Hcur Hidle HQ. ev_step. apply ev_stat. set (d1 := sput _ _ _ _ _ _).
  assert (HI1 : pinv d1 e) by (by apply pinv_sput).
  destruct (ti_owner _ _ (pi_threads _ _ HI) _ _ Ht) as [r Hr].
  ev_step. eapply ev_proc_free; [exact HI1|exact Ht|exact Hr|]. intros d2 e2 HT2 HP2 Hsp2 HI2.
  assert (Hsc2 : scheduler d2 = scheduler d1 /\ curproc d2 = curproc d /\ pit_ticks d2 = pit_ticks d /\ pit_frequency d2 = pit_frequency d)
    by (injection Hsp2; intros; split_and!; done).
  assert (HS2 : sinv d2).
  { destruct Hsc2 as (Es & Ec & _). destruct L as [? ? ? ?]. split; rewrite ?HT2, ?Es, ?Ec; simpl; [done|done|].
    by apply cinv_delete. }
  assert (Hfin : forall d' e', procs d' = procs d2 -> sched_part d' = sched_part d2 -> pinv d' e' -> Q tt d' e' fl).
  { intros d' e' HT' Hsp' HI'. assert (Hsc' : scheduler d' = scheduler d2 /\ curproc d' = curproc d2 /\ pit_ticks d' = pit_ticks d2 /\ pit_frequency d' = pit_frequency d2)
      by (injection Hsp'; intros; split_and!; done).
    destruct Hsc2 as (Es & Ec & Et & Ef), Hsc' as (Es' & Ec' & Et' & Ef'). apply HQ.
    - split; [split; [done|by eapply sinv_ext]|]. unfold same_setup. rewrite Es', Es, Ef', Ef. done.
    - by rewrite HT', HT2.
    - rewrite Es', Es. by destruct L.
    - by rewrite Es', Es.
    - by rewrite Ec', Ec, Et', Et. }
  assert (Hpn : p_p t <> NULL).
  { eapply (it_in _ _ _ _ _ (tb_pids _ (pi_tables _ _ HI))). by eapply elem_of_dom_2. }
  rewrite (proj2 (Z.eqb_neq _ _)) by done. cbn [negb].
  assert (Hr2 : processes d2 !! p_p t = Some (without_thread p r)) by (rewrite HP2; apply lookup_insert_eq).
  ev_step. eapply ev_the_process; [exact Hr2|].
  destruct (ti_list _ _ (pi_threads _ _ HI2) _ _ Hr2) as (_ & Hcnt & _ & _).
  destruct (Z.eqb_spec (ps_threadcnt (without_thread p r)) 0) as [Hz|Hz].
  - eapply ev_process_free; [done|exact Hr2| |].
    + rewrite Hcnt in Hz. destruct (ps_threads (without_thread p r)); [done|simpl in Hz; lia].
    + intros d3 e3 _ HT3 Hsp3 _ HI3. by apply Hfin.
  - ev_step. by apply Hfin.
Qed.

(** [scheduler_destroy_task] of a thread that waits or is ready. *)
Lemma ev_destroy_kept p t h (Q : unit -> psys -> E -> Z -> Prop) d e fl :
  kinv d e -> procs d !! p = Some t -> home_of t = Some h -> h <> HDead -> p <> curproc d ->
  p <> idle_task (scheduler d) ->
  (forall d' e', kept d d' e' -> Q tt d' e' fl) -> ev [] (scheduler_destroy_task p) Q d e fl.
Proof.
  intros HK Ht Hh Hd Hcur Hidle HQ. pose proof (ki_s _ _ HK) as HS. pose proof (si_lists _ HS) as HL.
  unfold scheduler_destroy_task. ev_step. apply ev_sdata.
  assert (Hn : p <> NULL) by (intros ->; by rewrite (ci_null _ _ _ (si_cur _ HS)) in Ht).
  rewrite (proj2 (Z.eqb_neq p NULL)), (proj2 (Z.eqb_neq p _)) by done. simpl. ev_step.
  eapply ev_the_proc; [done|]. pose proof (li_pri _ _ HL _ _ Ht) as Hp.
  pose proof (linv_home _ _ _ _ _ HL Ht Hh) as Hin.
  assert (HL' : linv (delete p (procs d)) (deq h p (lists_of (scheduler d)))).
  { rewrite <- (delete_insert_eq (procs d) p (p_set_stat SONPROC t)).
    eapply linv_delete; [by eapply linv_deq|apply lookup_insert_eq|done]. }
  assert (Htail : forall st, counts (deq h p (lists_of (scheduler d))) st ->
    ev [] (stat (add_total (-1)) ;;; proc_free p ;;;
      if negb (p_p t =? NULL) then r <- the_process (p_p t) ;; if ps_threadcnt r =? 0 then process_free (p_p t) else ret tt
      else ret tt) Q (sput (procs d) (deq h p (lists_of (scheduler d))) st (curproc d) (cpu_cr3 d) d) e fl).
  { intros st Hc. eapply ev_destroy_tail; [apply HK|done|done|done|apply HS|done|done|]. intros d' e' Hk _ _ _ _. by apply HQ. }
  pose proof (si_counts _ HS) as Hc. ev_step. apply ev_open. unfold proc_to_task_state, home_of in *.
  destruct (Z.eqb_spec (p_stat t) SRUN) as [Es|Es]; [|rewrite (proj2 (Z.eqb_neq _ SONPROC))
    by (intros Eq; rewrite Eq in Hh; discriminate)]; simplify_eq.
  { ev_step. apply ev_ready_remove; [apply HL|done|done|]. apply ev_stat. apply Htail.
    apply counts_deq_ready; [apply HL|exact (prio_lt _ _ _ _ HL Ht)|done|done]. }
  destruct (Z.eqb_spec (p_stat t) SSTOP); simplify_eq.
  { ev_step. apply ev_blocked_remove; [done|]. apply ev_stat. apply Htail. by apply counts_deq_blocked. }
  destruct (Z.eqb_spec (p_stat t) SSLEEP); simplify_eq.
  { apply ev_sleeping_remove; [done|]. by apply Htail. }
  destruct (Z.eqb_spec (p_stat t) SDEAD); simplify_eq.
Qed.

(** The dead threads are discarded; nothing else changes. *)
Definition reaped d d' : Prop :=
  lists_of (scheduler d') = set_members HDead [] (lists_of (scheduler d)) /\
  (forall q t, procs d' !! q = Some t -> procs d !! q = Some t) /\
  (forall q t, procs d !! q = Some t -> p_stat t <> SDEAD -> procs d' !! q = Some t) /\
  running (scheduler d') = running (scheduler d) /\ curproc d' = curproc d /\ pit_ticks d' = pit_ticks d.

Lemma ev_reap_kept l (Q : unit -> psys -> E -> Z -> Prop) d e fl :
  kinv d e -> terminated_list (scheduler d) = l ->
  (forall d' e', kept d d' e' -> reaped d d' -> Q tt d' e' fl) -> ev [] (reap l) Q d e fl.
Proof.
  revert d e. induction l as [|p l IH]; intros d e HK Hl HQ; simpl.
  { ev_step. apply HQ; [by apply kept_refl|]. split_and!; try done. unfold lists_of. by rewrite Hl. }
  pose proof (ki_s _ _ HK) as HS. pose proof (si_lists _ HS) as HL.
  assert (Hin : p ∈ members (lists_of (scheduler d)) HDead) by (simpl; rewrite Hl; by left).
  pose proof Hin as Hmem. apply (li_mem _ _ HL) in Hmem as (t & Ht & Hh).
  assert (Hs : p_stat t = SDEAD).
  { unfold home_of in Hh. repeat case_match; simplify_eq. by apply Z.eqb_eq. }
  pose proof (li_pri _ _ HL _ _ Ht) as Hp.
  assert (Hn : p <> NULL) by (intros ->; by rewrite (ci_null _ _ _ (si_cur _ HS)) in Ht).
  assert (Hidle : p <> idle_task (scheduler d)).
  { intros ->. destruct (ci_idle _ _ _ (si_cur _ HS)) as (u & Hu & Hst). simplify_eq. rewrite Hs in Hst. by destruct Hst as [?|[?|?]]. }
  assert (Hcur : p <> curproc d).
  { intros ->. destruct (ci_cur _ _ _ (si_cur _ HS)) as [?|(u & Hu & Hst)]; [done|]. by simplify_eq. }
  assert (HL' : linv (delete p (procs d)) (deq HDead p (lists_of (scheduler d)))).
  { rewrite <- (delete_insert_eq (procs d) p (p_set_stat SONPROC t)).
    eapply linv_delete; [eapply linv_deq; [exact HL|exact Ht|exact Hh|done|done]|apply lookup_insert_eq|done]. }
  ev_step. apply ev_open. apply ev_terminated_remove; [done|]. ev_step. unfold scheduler_destroy_task.
  ev_step. apply ev_sdata. cbn [scheduler sput idle_task].
  rewrite (proj2 (Z.eqb_neq p NULL)), (proj2 (Z.eqb_neq p _)) by done. cbn [orb]. cbv iota. ev_step.
  eapply ev_the_proc; [exact Ht|]. 
  replace (proc_to_task_state t) with TASK_STATE_TERMINATED by (unfold proc_to_task_state; by rewrite Hs).
  cbv iota. ev_step. ev_step.
  eapply ev_destroy_tail; [apply HK|done|done|apply HS|apply HS|done|done|].
  intros d1 e1 [HK1 Hset] HT1 HL1 Hr1 [= Hc1 Ht1]. apply IH; [done| |].
  - change (terminated_list (scheduler d1)) with (rl_dead (lists_of (scheduler d1))). rewrite HL1. simpl.
    rewrite Hl. simpl. by rewrite decide_True.
  - intros d' e' [HK' Hset'] (R1 & R2 & R3 & R4 & R5 & R6). apply HQ.
    + split; [done|by eapply same_setup_trans].
    + split_and!; [by rewrite R1, HL1| | |congruence..].
      * intros q u Hu. apply R2 in Hu. rewrite HT1 in Hu. by apply lookup_delete_Some in Hu as [_ Hu].
      * intros q u Hu Hq. apply R3; [|done]. rewrite HT1. apply lookup_delete_Some. split; [|done]. intros ->. congruence.
Qed.

(** The sleepers that are due become ready; the others sleep on. *)
Definition woken (now : Z) (l : list Z) d d' : Prop :=
  (forall q t, procs d' !! q = Some t -> p_stat t = SSLEEP -> procs d !! q = Some t /\ (q ∈ l -> now < p_slptime t)) /\
  (forall q t, procs d !! q = Some t -> p_stat t <> SSLEEP -> procs d' !! q = Some t) /\
  (forall q t, procs d !! q = Some t -> q ∈ l -> p_slptime t <= now -> procs d' !! q = Some (ready_thread t)) /\
  terminated_list (scheduler d') = terminated_list (scheduler d) /\
  running (scheduler d') = running (scheduler d) /\ curproc d' = curproc d /\ pit_ticks d' = pit_ticks d.

Lemma ev_wake_kept now l (Q : unit -> psys -> E -> Z -> Prop) d e fl :
  kinv d e -> NoDup l -> (forall q, q ∈ l -> q ∈ sleeping_list (scheduler d)) ->
  (forall d', kept d d' e -> woken now l d d' -> Q tt d' e fl) -> ev [] (wake now l) Q d e fl.
Proof.
  revert d. induction l as [|p l IH]; intros d HK Hnd Hin HQ; simpl.
  { ev_step. apply HQ; [by apply kept_refl|]. split_and!; try done; intros q t Ht; try done.
    - intros _. split; [done|]. intros Hq. by apply elem_of_nil in Hq.
    - intros Hq. by apply elem_of_nil in Hq. }
  pose proof (ki_s _ _ HK) as HS. pose proof (si_lists _ HS) as HL. apply NoDup_cons in Hnd as [Hpl Hnd].
  pose proof (Hin p ltac:(by left)) as Hp. change (p ∈ members (lists_of (scheduler d)) HSleeping) in Hp.
  pose proof Hp as Hmem. apply (li_mem _ _ HL) in Hmem as (t & Ht & Hh).
  assert (Hs : p_stat t = SSLEEP).
  { unfold home_of in Hh. repeat case_match; simplify_eq. by apply Z.eqb_eq. }
  pose proof (li_pri _ _ HL _ _ Ht) as Hpr.
  ev_step. eapply ev_the_proc; [done|]. ev_step.
  destruct (Z.leb_spec (p_slptime t) now) as [Hdue|Hdue].
  - ev_step. apply ev_open. apply ev_sleeping_remove; [done|]. ev_step. eapply ev_upd_thread; [done|].
    assert (HL' : linv (<[p := p_set_stat SONPROC t]> (procs d)) (deq HSleeping p (lists_of (scheduler d))))
      by (by eapply linv_deq; [exact HL|exact Ht|apply home_ssleep|..]).
    ev_step. apply ev_ready_insert; [apply HL'|done|eapply unlinked; [exact HL'|apply lookup_insert_eq|done]|].
    apply ev_stat. set (d1 := sput _ _ _ _ _ _).
    assert (Hk1 : kept d d1 e).
    { split; [|done]. apply kinv_sput; [done|by eapply same_keys_set| | |].
      - eapply linv_move; [exact HL|exact Ht|by apply home_ssleep|by apply (home_srun (ready_thread t))|done].
      - apply counts_enq_ready; [apply HL'|unfold proc_get_priority; lia|apply HS].
      - eapply cinv_set; [apply HS|done|done|done|]. intros _. right. by left. }
    apply IH; [apply Hk1|done| |].
    + intros q Hq. change (q ∈ unlink p (sleeping_list (scheduler d))).
      apply unlink_elem; [exact (li_nodup _ _ HL HSleeping)|]. split; [apply Hin; by right|]. intros ->. done.
    + intros d' Hk (W1 & W2 & W3 & W4 & W5 & W6 & W7). apply HQ; [exact (kept_trans _ _ _ _ _ Hk1 Hk)|].
      split_and!; [| | |done..].
      * intros q u Hu Hq. destruct (W1 q u Hu Hq) as [Hu1 Hdl]. change (<[p := ready_thread t]> (procs d) !! q = Some u) in Hu1.
        apply lookup_insert_Some in Hu1 as [[<- <-]|[Hne Hu1]]; [done|]. split; [done|].
        intros [->|Hl]%elem_of_cons; [done|by apply Hdl].
      * intros q u Hu Hq. apply W2; [|done]. change (<[p := ready_thread t]> (procs d) !! q = Some u).
        rewrite lookup_insert_ne; [done|]. intros ->. congruence.
      * intros q u Hu [->|Hl]%elem_of_cons Hle.
        -- simplify_eq. apply W2; [|done]. apply lookup_insert_eq.
        -- apply W3; [|done|done]. change (<[p := ready_thread t]> (procs d) !! q = Some u).
           rewrite lookup_insert_ne; [done|]. by intros ->.
  - ev_step. apply IH; [done|done|intros q Hq; apply Hin; by right|].
    intros d' Hk (W1 & W2 & W3 & W4 & W5 & W6 & W7). apply HQ; [done|]. split_and!; [|done| |done..].
    + intros q u Hu Hq. destruct (W1 q u Hu Hq) as [Hu1 Hdl]. split; [done|].
      intros [->|Hl]%elem_of_cons; [simplify_eq; lia|by apply Hdl].
    + intros q u Hu [->|Hl]%elem_of_cons Hle; [simplify_eq; lia|by apply W3].
Qed.
End life.
