(* ===== verification/SchedLive.v ===== *)
(** * Whose turn it is: progress and its failures *)

From stdpp Require Import base numbers list gmap strings.
From S2P Require Import Prelude Spinlock Kernel KLogic Proc ProcFacts ProcInv ProcOps ProcThms SimpleHeap.
From S2P Require Import Sched SchedFacts SchedSwitch SchedOps SchedTick SchedThms.

(** The time slice in ticks: at least one. *)
Definition slice (d : psys) : Z := Z.max 1 (time_slice_ticks (scheduler d)).

(** A state in which [p] waits for its turn behind [k] threads of the highest
    priority [i] that has one, and the current thread is no more urgent. *)
Record queued (i : nat) (p : Z) (k : nat) (d : psys) : Prop := {
  wt_inv : sinv d;
  wt_running : running (scheduler d) = true;
  wt_freq : pit_frequency d <> 0;
  wt_dead : terminated_list (scheduler d) = [];
  wt_asleep : sleeping_list (scheduler d) = [];
  wt_cur : curproc d <> idle_task (scheduler d) /\ exists t, procs d !! curproc d = Some t /\
    p_stat t = SONPROC /\ (prio t <= i)%nat;
  wt_slice : slice d < 2 ^ 32;
  wt_queue : exists a b, nth i (queues (scheduler d)) [] = a ++ p :: b /\ length a = k /\ idle_task (scheduler d) ∉ a;
  wt_top j : (i < j)%nat -> nth j (queues (scheduler d)) [] = []
}.

(** The same, with the slice of the current thread not yet over. *)
Definition waiting (i : nat) (p : Z) (k : nat) (d : psys) : Prop :=
  queued i p k d /\ forall t, procs d !! curproc d = Some t -> 0 <= p_cpticks t < slice d.

(** The most switching events before the turn comes. *)
Definition turns (k : nat) (d : psys) : Z :=
  Z.of_nat k * slice d + (slice d - match procs d !! curproc d with Some t => p_cpticks t | None => 0 end).

Section live.
Context {E : Type} `{AddressSpaces E} (sizeof_process sizeof_proc : Z).
Abbreviation K := (M (kst (guarded psys) E)).
Implicit Types (d : psys) (e : E) (fl : Z) (s : kst (guarded psys) E).

(** The next thread is the first of that queue. *)
Lemma queued_next i p k d : queued i p k d ->
  exists x l n, nth i (queues (scheduler d)) [] = x :: l /\ next_of d = x /\ procs d !! x = Some n /\
    p_stat n = SRUN /\ prio n = i /\ curproc d <> x.
Proof.
  intros HW. pose proof (wt_inv _ _ _ _ HW) as HS. destruct (wt_queue _ _ _ _ HW) as (a & b & Hq & _).
  destruct (wt_cur _ _ _ _ HW) as (_ & t & Ht & Hst & _).
  destruct (next_spec d HS) as [j l n Hj Htop Hn Hns Hnp|n He _ _ _].
  - assert (j = i) as ->.
    { destruct (decide (i < j)%nat) as [Hlt|Hlt]; [rewrite (wt_top _ _ _ _ HW j Hlt) in Hj; done|].
      destruct (decide (j < i)%nat) as [Hlt'|Hlt']; [|lia]. rewrite Htop in Hq by done. by destruct a. }
    exists (next_of d), l, n. split_and!; try done. intros Hc. rewrite <- Hc in Hn. simplify_eq. rewrite Hst in Hns. done.
  - rewrite He in Hq. by destruct a.
Qed.

(** A switch brings [p] one place nearer. *)
Lemma queued_switch i p k d st c3 :
  queued i p k d -> counts (switch_lists d) st ->
  let d' := sput (switch_procs d) (switch_lists d) st (next_of d) c3 d in
  curproc d' = p \/ exists k', k = S k' /\ waiting i p k' d' /\ turns k' d' = Z.of_nat k * slice d.
Proof.
  intros HW Hc d'. destruct (queued_next i p k d HW) as (x & l & n & Hq & Hx & Hn & Hns & Hnp & Hcx).
  pose proof (wt_inv _ _ _ _ HW) as HS. pose proof (si_lists _ HS) as HL.
  destruct (wt_queue _ _ _ _ HW) as (a & b & Hqa & Hk & Hidle).
  destruct (wt_cur _ _ _ _ HW) as (Hci & t & Ht & Hst & Hpr).
  assert (HS' : sinv d') by (by apply sinv_switch).
  rewrite Hqa in Hq. destruct a as [|y a]; simplify_eq/=.
  { left. unfold d'. simpl. congruence. }
  right. exists (length a). split; [done|].
  assert (Hne : curproc d =? next_of d = false) by (apply Z.eqb_neq; congruence).
  assert (HT : switch_procs d = <[next_of d := running_thread n]> (<[curproc d := ready_thread t]> (procs d))).
  { unfold switch_procs. rewrite Hne. unfold take_procs. rewrite back_lookup_ne by congruence. rewrite Hn.
    unfold back_procs. by rewrite Ht, Hst. }
  assert (HLs : switch_lists d = deq (HReady (prio n)) (next_of d) (enq (HReady (prio t)) (curproc d) (lists_of (scheduler d)))).
  { unfold switch_lists. rewrite Hne. unfold take_lists. rewrite back_lookup_ne by congruence. rewrite Hn, Hns.
    unfold back_lists. by rewrite Ht, Hst. }
  assert (Hlen : length (queues (scheduler d)) = 5%nat) by apply HL.
  assert (Hi5 : (prio n < 5)%nat) by (by eapply prio_lt).
  assert (Hm : forall h, members (switch_lists d) h = if decide (h = HReady (prio n)) then
      unlink (next_of d) (members (enq (HReady (prio t)) (curproc d) (lists_of (scheduler d))) (HReady (prio n)))
    else members (enq (HReady (prio t)) (curproc d) (lists_of (scheduler d))) h).
  { intros h. rewrite HLs. unfold deq. apply members_set; [unfold enq; rewrite set_members_len; done|done]. }
  assert (He : forall h, members (enq (HReady (prio t)) (curproc d) (lists_of (scheduler d))) h =
    if decide (h = HReady (prio t)) then members (lists_of (scheduler d)) (HReady (prio t)) ++ [curproc d]
    else members (lists_of (scheduler d)) h).
  { intros h. unfold enq. apply members_set; [done|simpl; lia]. }
  assert (Hn' : procs d' !! curproc d' = Some (running_thread n)).
  { unfold d'. simpl. rewrite HT. apply lookup_insert_eq. }
  split; [|unfold turns; rewrite Hn'; unfold slice; simpl; lia].
  split; [|intros u Hu; rewrite Hn' in Hu; simplify_eq/=; unfold slice; lia]. split.
  - done.
  - apply HW.
  - apply HW.
  - change (members (switch_lists d) HDead = []). rewrite Hm, He. apply HW.
  - change (members (switch_lists d) HSleeping = []). rewrite Hm, He. apply HW.
  - split; [unfold d'; simpl; intros Heq; apply Hidle; rewrite <- Heq; by left|].
    by exists (running_thread n).
  - apply HW.
  - exists a, (if decide (prio t = prio n) then b ++ [curproc d] else b). split_and!; [|done|].
    + change (members (switch_lists d) (HReady (prio n)) = a ++ p :: (if decide (prio t = prio n) then b ++ [curproc d] else b)).
      rewrite Hm, decide_True by done. rewrite He.
      destruct (decide (prio t = prio n)) as [Hpe|Hpe].
      * rewrite decide_True by congruence. simpl. rewrite Hpe, Hqa. simpl. rewrite decide_True by done.
        rewrite <- app_assoc. done.
      * rewrite decide_False by congruence. simpl. rewrite Hqa. simpl. by rewrite decide_True.
    + intros Hin. apply Hidle. by right.
  - intros j Hj. change (members (switch_lists d) (HReady j) = []).
    rewrite Hm, decide_False by (intros [= ->]; lia). rewrite He, decide_False by (intros [= ->]; lia).
    by apply (wt_top _ _ _ _ HW).
Qed.

(** A yield or a timer interrupt: the turn comes or the bound shrinks. *)
Definition turn_step (tick : bool) : K switch_result := if tick then scheduler_timer_handler else scheduler_yield.

Definition nearer (i : nat) (p : Z) (m : Z) d : Prop :=
  curproc d = p \/ exists k, waiting i p k d /\ turns k d < m.

Lemma turns_pos i p k d : waiting i p k d -> Z.of_nat k * slice d < turns k d.
Proof.
  intros [HW Hcp]. destruct (wt_cur _ _ _ _ HW) as (_ & t & Ht & _). specialize (Hcp t Ht).
  unfold turns. rewrite Ht. lia.
Qed.

Lemma ev_switch_nearer i p k (Q : switch_result -> psys -> E -> Z -> Prop) d e fl m :
  queued i p k d -> Z.of_nat k * slice d < m ->
  (forall r d' fl', nearer i p m d' -> Q r d' e fl') ->
  ev [] scheduler_switch_to_next Q d e fl.
Proof.
  intros HW Hm HQ. apply ev_switch; [apply HW|apply HW|]. intros r st c3 fl' Hc _ _. apply HQ.
  destruct (queued_switch i p k d st c3 HW Hc) as [Hp|(k' & -> & HW' & Ht)]; [by left|right].
  exists k'. split; [done|]. lia.
Qed.

Lemma queued_ticks n i p k d : queued i p k d -> queued i p k (set_pit_ticks n d).
Proof. intros [HS]. destruct HS. split; [by split|done..]. Qed.

(** A tick counted for the thread that runs. *)
Definition run_tick (t : proc) : proc := p_set_runtime (u64 (p_runtime t + 1)) (p_set_cpticks (u32 (p_cpticks t + 1)) t).
Definition counted (t : proc) d : psys :=
  sput (<[curproc d := run_tick t]> (procs d)) (lists_of (scheduler d)) (count_tick (sstats (scheduler d)))
    (curproc d) (cpu_cr3 d) d.

(** A tick with nobody to discard or wake. *)
Lemma ev_tick_quiet t (Q : switch_result -> psys -> E -> Z -> Prop) d e fl :
  sinv d -> pit_frequency d <> 0 -> terminated_list (scheduler d) = [] -> sleeping_list (scheduler d) = [] ->
  curproc d <> idle_task (scheduler d) -> procs d !! curproc d = Some t ->
  (if time_slice_ticks (scheduler d) <=? u32 (p_cpticks t + 1) then ev [] scheduler_switch_to_next Q (counted t d) e fl
   else Q SwOff (counted t d) e fl) ->
  ev [] scheduler_tick Q d e fl.
Proof.
  intros HS Hf Hdead Hsl Hci Ht HQ. unfold scheduler_tick. ev_step. apply ev_open. apply ev_stat. ev_step. apply ev_sdata.
  cbn [scheduler sput terminated_list lists_of rl_dead]. rewrite Hdead. simpl reap. do 2 ev_step. ev_step.
  apply ev_current_time; [done|]. ev_step. apply ev_sdata. cbn [scheduler sput sleeping_list lists_of rl_sleeping].
  rewrite Hsl. simpl wake. do 2 ev_step. ev_step. unfold proc_get_current. ev_step. ev_step. apply ev_sdata.
  cbn [scheduler sput idle_task curproc].
  assert (Hcn : curproc d <> NULL) by (intros Hc; rewrite Hc, (ci_null _ _ _ (si_cur _ HS)) in Ht; done).
  rewrite (proj2 (Z.eqb_neq _ NULL)), (proj2 (Z.eqb_neq _ (idle_task _))) by done. cbn [negb andb].
  ev_step. eapply ev_upd_thread; [exact Ht|]. ev_step. eapply ev_the_proc; [apply lookup_insert_eq|].
  ev_step. apply ev_sdata. cbn [scheduler sput time_slice_ticks p_cpticks p_set_runtime p_set_cpticks].
  case_match; [exact HQ|]. ev_step. exact HQ.
Qed.

Lemma counted_inv t d : sinv d -> curproc d <> idle_task (scheduler d) -> procs d !! curproc d = Some t ->
  p_stat t = SONPROC -> sinv (counted t d).
Proof.
  intros HS Hci Ht Hst. pose proof (si_lists _ HS) as HL. apply sinv_sput; [|apply HS|].
  - eapply linv_keep; [exact HL|exact Ht|done|]. exact (li_pri _ _ HL _ _ Ht).
  - eapply cinv_set; [apply HS|exact Ht|done|intros _; change (p_stat t <> SDEAD); by rewrite Hst|].
    intros Heq. by destruct (Hci Heq).
Qed.

Lemma ev_turn_step b i p k (Q : switch_result -> psys -> E -> Z -> Prop) d e fl :
  waiting i p k d -> (forall r d' fl', nearer i p (turns k d) d' -> Q r d' e fl') ->
  ev [] (turn_step b) Q d e fl.
Proof.
  intros HWt HQ. pose proof (turns_pos _ _ _ _ HWt) as Hpos. destruct HWt as [HW Hticks]. destruct b; simpl.
  - unfold scheduler_timer_handler. do 2 ev_step. set (n := u64 _).
    apply (queued_ticks n) in HW. set (d0 := set_pit_ticks n d) in *. change (turns k d) with (turns k d0) in *.
    change (slice d) with (slice d0) in Hpos.
    pose proof (wt_inv _ _ _ _ HW) as HS.
    destruct (wt_cur _ _ _ _ HW) as (Hci & t & Ht & Hst & Hpr).
    pose proof (Hticks t Ht) as Hcp. change (slice d) with (slice d0) in Hcp.
    eapply (ev_tick_quiet t); [apply HW..|done|done|]. set (d1 := counted t d0). set (t' := run_tick t) in *.
    assert (Hu : u32 (p_cpticks t + 1) = p_cpticks t + 1).
    { unfold u32. rewrite Z.mod_small; [done|]. pose proof (wt_slice _ _ _ _ HW). lia. }
    assert (HS1 : sinv d1) by (by apply counted_inv).
    assert (Ht1 : procs d1 !! curproc d1 = Some t') by apply lookup_insert_eq.
    assert (HW1 : queued i p k d1).
    { split; try apply HW; [done|]. split; [exact Hci|]. by exists t'. }
    destruct (Z.leb_spec (time_slice_ticks (scheduler d0)) (u32 (p_cpticks t + 1))) as [Hle|Hlt].
    + by eapply ev_switch_nearer; [exact HW1|..].
    + apply HQ. right. exists k. split; [split; [done|]|].
      * intros u Hu0. rewrite Ht1 in Hu0. injection Hu0 as <-. rewrite Hu in Hlt.
        change (0 <= u32 (p_cpticks t + 1) < Z.max 1 (time_slice_ticks (scheduler d0))). rewrite Hu. lia.
      * unfold turns. rewrite Ht1, Ht. unfold t'. simpl. rewrite Hu. change (slice d1) with (slice d0). lia.
  - unfold scheduler_yield, proc_get_current. ev_step. apply ev_sdata. ev_step. ev_step. rewrite (wt_running _ _ _ _ HW).
    destruct (wt_cur _ _ _ _ HW) as (Hci & t & Ht & _).
    assert (Hcn : curproc d <> NULL) by (intros Hc; by rewrite Hc, (ci_null _ _ _ (si_cur _ (wt_inv _ _ _ _ HW))) in Ht).
    rewrite (proj2 (Z.eqb_neq _ NULL)) by done. simpl. by eapply ev_switch_nearer.
Qed.

Fixpoint turn_steps (l : list bool) : K unit :=
  match l with [] => ret tt | b :: l => turn_step b ;;; turn_steps l end.

Lemma turn_steps_reach l i p k s :
  idle [] s -> waiting i p k (the_data s) -> turns k (the_data s) <= Z.of_nat (length l) ->
  exists n s', (n <= length l)%nat /\ turn_steps (take n l) s = Ok (tt, s') /\ curproc (the_data s') = p.
Proof.
  revert k s. induction l as [|b l IH]; intros k s Hi HW Hm.
  - exfalso. pose proof (turns_pos _ _ _ _ HW). simpl in Hm. unfold slice in *. lia.
  - destruct (ev_run (E := E) (turn_step b) (fun r d' e' fl' => nearer i p (turns k (the_data s)) d')
      (the_data s) (k_env s) (k_flags s) s) as (r & s1 & Hr & Hi1 & _ & Hn); [|done..|].
    { eapply ev_turn_step; [done|]. by intros r d' fl' Hn. }
    destruct Hn as [Hp|(k' & HW' & Hlt)].
    + exists 1%nat, s1. split; [simpl; lia|]. simpl. unfold bind. rewrite Hr. done.
    + destruct (IH k' s1 Hi1 HW') as (n & s' & Hle & Hrun & Hp); [simpl in Hm; unfold the_data; lia|].
      exists (S n), s'. split; [simpl; lia|]. simpl. unfold bind. by rewrite Hr.
Qed.

(** C16: Ready threads of the highest priority take turns while an ordinary
    thread has the CPU: in a reachable state in which the scheduler and the
    timer run, nobody sleeps, no ended thread waits to be reaped, and the
    current thread is not the idle thread, is no more urgent than the top
    queue and has not used up its slice ([waiting]), a thread with [k] others
    before it in the top queue, the idle thread not among them, gets the CPU
    within [k + 1] time slices, whatever mix of timer interrupts and voluntary
    yields happens.  (From the idle thread the timer never takes the CPU:
    [scheduler_idle_not_preempted].) *)
Theorem scheduler_round_robin s i p k l :
  sreach sizeof_process sizeof_proc s -> waiting i p k (the_data s) ->
  (Z.of_nat k + 1) * slice (the_data s) <= Z.of_nat (length l) ->
  exists n s', (n <= length l)%nat /\ turn_steps (take n l) s = Ok (tt, s') /\ curproc (the_data s') = p.
Proof.
  intros Hs HWt Hl. destruct (sreach_inv _ _ s Hs) as [Hi _].
  eapply turn_steps_reach; [done|done|]. destruct HWt as [HW Hcp]. destruct (wt_cur _ _ _ _ HW) as (_ & t & Ht & _). specialize (Hcp t Ht).
  unfold turns. rewrite Ht. lia.
Qed.

(** ** Where progress fails *)

(** A thread that neither sleeps nor has ended. *)
Definition awake (t : proc) : Prop := p_stat t <> SSLEEP /\ p_stat t <> SDEAD.

Lemma ev_tick_idle d e fl :
  kinv d e -> pit_frequency d <> 0 -> curproc d = idle_task (scheduler d) ->
  ev [] scheduler_timer_handler (fun r d' e' fl' => kept d d' e' /\ curproc d' = curproc d /\
    forall q t, procs d !! q = Some t -> awake t -> procs d' !! q = Some t) d e fl.
Proof.
  intros HK Hf Hc. unfold scheduler_timer_handler. do 2 ev_step. set (d0 := set_pit_ticks _ d).
  assert (HK0 : kinv d0 e) by (by apply kinv_ticks).
  unfold scheduler_tick. ev_step. apply ev_open. apply ev_stat. set (d1 := sput _ _ _ _ _ _).
  assert (HK1 : kinv d1 e) by (apply kinv_sput; [done|done|apply HK|apply HK|apply HK]).
  ev_step. apply ev_sdata. ev_step. apply ev_reap_kept; [done|done|].
  intros d2 e2 [HK2 Hset2] (R1 & R2 & R3 & R4 & R5 & R6). ev_step.
  apply ev_current_time; [destruct Hset2 as (_ & _ & ->); done|].
  ev_step. apply ev_sdata. ev_step.
  apply ev_wake_kept; [done|exact (li_nodup _ _ (si_lists _ (ki_s _ _ HK2)) HSleeping)|done|].
  intros d3 [HK3 Hset3] (W1 & W2 & W3 & W4 & W5 & W6 & W7).
  assert (Hset : same_setup d d3) by (eapply same_setup_trans; [exact Hset2|exact Hset3]).
  ev_step. unfold proc_get_current. ev_step. ev_step. apply ev_sdata.
  assert (Hcur : curproc d3 = curproc d) by (by rewrite W6, R5).
  assert (Hid : curproc d3 = idle_task (scheduler d3)) by (destruct Hset as (-> & _); by rewrite Hcur).
  rewrite <- Hid, Z.eqb_refl. rewrite andb_false_r. ev_step. split_and!; [by split|done|].
  intros q t Ht [Hs1 Hs2]. apply W2; [|done]. by apply R3.
Qed.

Lemma idle_ticks n s :
  idle [] s -> kinv (the_data s) (k_env s) -> pit_frequency (the_data s) <> 0 ->
  curproc (the_data s) = idle_task (scheduler (the_data s)) ->
  exists s', turn_steps (replicate n true) s = Ok (tt, s') /\ curproc (the_data s') = idle_task (scheduler (the_data s)) /\
    forall q t, procs (the_data s) !! q = Some t -> awake t -> procs (the_data s') !! q = Some t.
Proof.
  revert s. induction n as [|n IH]; intros s Hi HK Hf Hc; [by exists s|].
  destruct (ev_run _ _ _ _ _ s (ev_tick_idle _ _ (k_flags s) HK Hf Hc) Hi eq_refl eq_refl eq_refl)
    as (r & s1 & Hr & Hi1 & _ & [HK1 Hset] & Hc1 & Hth). pose proof Hset as (Hid & _ & Hfr).
  destruct (IH s1) as (s' & Hrun & Hc' & Hth'); [done|done|unfold the_data; congruence|unfold the_data; congruence|].
  exists s'. split_and!; [simpl; unfold bind; by rewrite Hr|unfold the_data in *; congruence|].
  intros q t Ht Haw. apply Hth'; [|done]. by apply Hth.
Qed.

(** The timer never takes the CPU from the idle thread: while it is current,
    any number of timer interrupts leave it current, and every thread that is
    ready stays where it is. *)
Theorem scheduler_idle_not_preempted s n :
  sreach sizeof_process sizeof_proc s -> pit_frequency (the_data s) <> 0 ->
  curproc (the_data s) = idle_task (scheduler (the_data s)) ->
  exists s', turn_steps (replicate n true) s = Ok (tt, s') /\
    curproc (the_data s') = idle_task (scheduler (the_data s)) /\
    forall q t, procs (the_data s) !! q = Some t -> p_stat t = SRUN -> procs (the_data s') !! q = Some t.
Proof.
  intros Hs Hf Hc. destruct (sreach_inv _ _ s Hs) as [Hi HK].
  destruct (idle_ticks n s Hi HK Hf Hc) as (s' & Hrun & Hc' & Hth). exists s'. split_and!; [done|done|].
  intros q t Ht Hst. apply Hth; [done|]. unfold awake. by rewrite Hst.
Qed.

(** A thread that is alone loses the CPU for good at the end of its slice:
    when nobody but the idle thread is ready, the switch goes to the idle
    thread and puts the thread back in its queue, and no further timer
    interrupt brings it back. *)
Theorem scheduler_lone_thread_parked s t n :
  sreach sizeof_process sizeof_proc s -> pit_frequency (the_data s) <> 0 -> running (scheduler (the_data s)) = true ->
  curproc (the_data s) <> idle_task (scheduler (the_data s)) ->
  procs (the_data s) !! curproc (the_data s) = Some t -> p_stat t = SONPROC ->
  (forall j q, q ∈ nth j (queues (scheduler (the_data s))) [] -> q = idle_task (scheduler (the_data s))) ->
  sleeping_list (scheduler (the_data s)) = [] -> terminated_list (scheduler (the_data s)) = [] ->
  time_slice_ticks (scheduler (the_data s)) <= u32 (p_cpticks t + 1) ->
  exists s' t', turn_steps (replicate (S n) true) s = Ok (tt, s') /\
    curproc (the_data s') = idle_task (scheduler (the_data s)) /\
    procs (the_data s') !! curproc (the_data s) = Some t' /\ p_stat t' = SRUN.
Proof.
  intros Hs Hf Hrun Hci Ht Hst He Hsl Hdead Hle. destruct (sreach_inv _ _ s Hs) as [Hi HK].
  set (d := the_data s) in *. pose proof (ki_s _ _ HK) as HS.
  assert (Hev : ev (E := E) [] scheduler_timer_handler (fun r d' e' fl' => kinv d' e' /\ same_setup d d' /\
    curproc d' = idle_task (scheduler d) /\ exists t', procs d' !! curproc d = Some t' /\ p_stat t' = SRUN)
    d (k_env s) (k_flags s)).
  { unfold scheduler_timer_handler. do 2 ev_step. set (d0 := set_pit_ticks _ d).
    assert (HK0 : kinv d0 (k_env s)) by (by apply kinv_ticks).
    eapply (ev_tick_quiet t); [apply HK0|done..|]. rewrite (proj2 (Z.leb_le _ _)) by exact Hle.
    assert (HS1 : sinv (counted t d0)) by (apply counted_inv; [apply HK0|done..]).
    apply ev_switch; [done|done|]. intros r st c3 fl' Hc _ _. set (d1 := counted t d0) in *.
    assert (Hnx : next_of d1 = idle_task (scheduler d)).
    { destruct (next_spec d1 HS1) as [i l n' Hq|n' _ Hnx _ _]; [|done].
      change (nth i (queues (scheduler d)) [] = next_of d1 :: l) in Hq. apply (He i). rewrite Hq. by left. }
    split_and!.
    - split; [apply pinv_sput; [apply pinv_sput; [apply HK0|]|apply switch_keys]|by apply sinv_switch].
      eapply same_keys_set; [exact Ht|done].
    - by repeat split.
    - exact Hnx.
    - change (exists t', switch_procs d1 !! curproc d = Some t' /\ p_stat t' = SRUN).
      unfold switch_procs. change (curproc d1) with (curproc d). rewrite Hnx.
      rewrite (proj2 (Z.eqb_neq _ _)) by done. exists (ready_thread (run_tick t)). split; [|done].
      assert (Hb : back_procs (curproc d) (procs d1) = <[curproc d := ready_thread (run_tick t)]> (procs d1)).
      { unfold back_procs. change (procs d1) with (<[curproc d := run_tick t]> (procs d)). rewrite lookup_insert_eq.
        change (p_stat (run_tick t)) with (p_stat t). by rewrite Hst. }
      unfold take_procs. rewrite Hb. case_match; [rewrite lookup_insert_ne by done|]; apply lookup_insert_eq. }
  destruct (ev_run _ _ _ _ _ s Hev Hi eq_refl eq_refl eq_refl)
    as (r & s1 & Hr & Hi1 & _ & HK1 & (Hid & _ & Hfr) & Hc1 & t' & Ht' & Hst').
  destruct (idle_ticks n s1 Hi1 HK1) as (s' & Hrun' & Hc' & Hth); [unfold the_data; congruence|unfold the_data; congruence|].
  exists s', t'. split_and!; [simpl; unfold bind; by rewrite Hr|unfold the_data in *; congruence| |done].
  apply Hth; [done|]. unfold awake. by rewrite Hst'.
Qed.

(** Blocking a running thread that is still linked. *)
Lemma block_linked_faults s p t :
  procs (the_data s) !! p = Some t -> p <> NULL -> p_stat t = SONPROC -> p ∈ linked (scheduler (the_data s)) ->
  scheduler_block_task p s = Fault F_oob.
Proof.
  intros Ht Hn Hs Hl. unfold scheduler_block_task. rewrite (proj2 (Z.eqb_neq p NULL)) by done.
  assert (Hthe : forall s', procs (the_data s') = procs (the_data s) -> the_proc p s' = Ok (t, s')).
  { intros s' Hp. unfold the_proc, bind, data, gets. change (g_data (k_obj s')) with (the_data s').
    rewrite Hp, Ht. done. }
  unfold bind at 1. rewrite Hthe by done. rewrite Hs. simpl (SONPROC =? SSTOP). simpl (SONPROC =? SRUN). cbv iota.
  unfold bind at 1, ret at 1. unfold bind at 1. unfold upd_proc. unfold bind at 1. rewrite Hthe by done.
  unfold set_data at 1, modify at 1. unfold bind at 1. unfold blocked_insert, bind at 1, fresh_link, bind at 1.
  unfold sdata at 1, data at 1, gets at 1. rewrite decide_True by exact Hl. done.
Qed.

(** A yield when the first ready thread is already current. *)
Lemma ev_yield_same p t d e fl :
  running (scheduler d) = true -> procs d !! p = Some t -> p <> NULL -> curproc d = p ->
  first_ready (queues (scheduler d)) = p ->
  ev (E := E) [] scheduler_yield (fun r d' _ _ => r = SwSame /\ curproc d' = p) d e fl.
Proof.
  intros Hr Ht Hn Hc Hf. unfold scheduler_yield, proc_get_current. ev_step. apply ev_sdata. ev_steps.
  rewrite Hr, Hc, (proj2 (Z.eqb_neq p NULL)) by done. cbn [negb orb]. cbv iota.
  unfold scheduler_switch_to_next, proc_get_current, scheduler_pick_next_task. ev_step. apply ev_sdata. rewrite Hr.
  cbn [negb]. ev_steps. apply ev_sdata. ev_step. apply ev_sdata.
  rewrite Hf, Hc, (proj2 (Z.eqb_neq p NULL)), Z.eqb_refl by done. cbn [negb]. ev_step.
  eapply ev_upd_proc; [done|]. by ev_steps.
Qed.

(** [scheduler_start] makes the first ready thread current without taking it
    off its ready queue: it is linked and running at once, so a yield returns
    to the same thread although others of its priority wait, and blocking the
    thread (as a contended mutex does) links it a second time. *)
Theorem scheduler_start_keeps_first_linked s p :
  sreach sizeof_process sizeof_proc s -> running (scheduler (the_data s)) = false ->
  first_ready (queues (scheduler (the_data s))) = p -> p <> NULL ->
  exists s' t, scheduler_start s = Ok (tt, s') /\ curproc (the_data s') = p /\
    procs (the_data s') !! p = Some t /\ p_stat t = SONPROC /\
    p ∈ nth (prio t) (queues (scheduler (the_data s'))) [] /\
    (exists s2, scheduler_yield s' = Ok (SwSame, s2) /\ curproc (the_data s2) = p) /\
    scheduler_block_task p s' = Fault F_oob.
Proof.
  intros Hs Hr Hfr Hn. destruct (sreach_inv _ _ s Hs) as [Hi HK]. set (d := the_data s) in *.
  pose proof (ki_s _ _ HK) as HS.
  assert (Hnx : next_of d = p) by (unfold next_of; by rewrite Hfr, (proj2 (Z.eqb_neq p NULL))).
  destruct (next_spec d HS) as [i l n Hq _ Hnt Hns Hnp|n He Hid _ _].
  2: { exfalso. apply Hn. rewrite <- Hfr. unfold first_ready. simpl. by rewrite !He. }
  rewrite Hnx in *.
  assert (Hev : ev (E := E) [] scheduler_start (fun _ d' e' fl' => procs d' = <[p := p_set_stat SONPROC n]> (procs d) /\
      curproc d' = p /\ running (scheduler d') = true /\ lists_of (scheduler d') = lists_of (scheduler d))
      d (k_env s) (k_flags s)).
  { unfold scheduler_start, set_sched, scheduler_pick_next_task, proc_set_current. ev_step. apply ev_sdata. rewrite Hr.
    do 2 ev_step. ev_step. apply ev_sdata. ev_step. apply ev_sdata. cbn [scheduler set_scheduler set_running queues idle_task].
    rewrite Hfr, (proj2 (Z.eqb_neq p NULL)) by done. cbn [negb]. cbv zeta.
    rewrite (proj2 (Z.eqb_neq p NULL)) by done. cbn [negb]. ev_step. ev_step. ev_step.
    eapply ev_upd_proc; [exact Hnt|]. ev_step. unfold stat, set_sched. ev_step. ev_step.
    eapply ev_the_proc; [apply lookup_insert_eq|]. unfold load_cr3. case_match; by ev_steps. }
  destruct (ev_run _ _ _ _ _ s Hev Hi eq_refl eq_refl eq_refl) as ([] & s' & Hrun & Hi' & _ & HT & Hc & Hr' & HL).
  change (g_data (k_obj s')) with (the_data s') in *.
  assert (Ht : procs (the_data s') !! p = Some (p_set_stat SONPROC n)) by (rewrite HT; apply lookup_insert_eq).
  assert (Hqs : queues (scheduler (the_data s')) = queues (scheduler d)) by (by apply (f_equal rl_ready) in HL).
  assert (Hin : p ∈ members (lists_of (scheduler (the_data s'))) (HReady i)) by (rewrite HL; simpl; rewrite Hq; by left).
  destruct (ev_run _ _ _ _ _ s' (ev_yield_same p _ _ (k_env s') (k_flags s') Hr' Ht Hn Hc ltac:(by rewrite Hqs)) Hi' eq_refl eq_refl eq_refl)
    as (r & s2 & Hy & _ & _ & -> & Hc2).
  exists s', (p_set_stat SONPROC n). split_and!; [done|done|done|done|by rewrite <- Hnp in Hin|by exists s2|].
  eapply block_linked_faults; [done..|]. change (linked (scheduler (the_data s'))) with
    (concat (rl_ready (lists_of (scheduler (the_data s')))) ++ rl_blocked (lists_of (scheduler (the_data s'))) ++
     rl_sleeping (lists_of (scheduler (the_data s'))) ++ rl_dead (lists_of (scheduler (the_data s')))).
  apply elem_of_linked; [rewrite HL; apply HS|]. by exists (HReady i).
Qed.
End live.

(** ** Runs on the simple heap *)

Module Runs.
Definition step (c : scall) (s : kst (guarded psys) simple_heap) := after (srun 512 512 c) s.

(** Start-up at 100 Hz, then the scheduler runs the idle thread. *)
Definition s_init := after (scheduler_init 512 512 100) boot_state.
Definition s_idle := step CStart s_init.
(** Three threads of priority 2; the first gets the CPU. *)
Definition s_three := step CYield (step (CCreate "c" 2) (step (CCreate "b" 2) (step (CCreate "a" 2) s_idle))).
(** One thread, one tick into its slice of two. *)
Definition s_alone := step CTick (step CYield (step (CCreate "a" 2) s_idle)).

(** A permitted call leads to a reachable state. *)
Lemma step_reach c s : sreach 512 512 s -> admits c (the_data s) -> sreach 512 512 (step c s).
Proof.
  intros Hs Had. destruct (sreach_inv _ _ s Hs) as [Hi HK].
  destruct (ev_run _ _ _ _ _ s (srun_kept 512 512 c _ _ _ HK Had) Hi eq_refl eq_refl eq_refl) as ([] & s' & Hr & _).
  unfold step, after. rewrite Hr. by eapply sr_call.
Qed.

Lemma init_reach : sreach 512 512 s_init.
Proof.
  eapply (sr_init 512 512 100 boot_state); [|by split|done|vm_compute; reflexivity|vm_compute; discriminate].
  intros l _. unfold lock_of. simpl. by rewrite lookup_empty.
Defined.

Lemma idle_reach : sreach 512 512 s_idle.
Proof.
  apply step_reach; [apply init_reach|]. right. split; [|by left]. intros j.
  replace (queues (scheduler (the_data s_init))) with (replicate 5 ([] : list Z)) by (vm_compute; reflexivity).
  by destruct j as [|[|[|[|[|[|j]]]]]].
Qed.

Lemma create_admits name i (s : kst (guarded psys) simple_heap) :
  (0 <=? i) && (i <? 5) && (Z.of_nat (size (processes (the_data s))) <? PID_MAX) &&
  (Z.of_nat (size (procs (the_data s))) <? TID_MASK) = true -> admits (CCreate name i) (the_data s).
Proof. simpl. intros Hb. repeat apply andb_prop in Hb as [Hb ?]. split_and!; lia. Qed.

Lemma three_reach : sreach 512 512 s_three.
Proof.
  apply step_reach; [|done]. do 3 (apply step_reach; [|apply create_admits; vm_compute; reflexivity]). apply idle_reach.
Qed.

Lemma alone_reach : sreach 512 512 s_alone.
Proof.
  apply step_reach; [|vm_compute; discriminate]. apply step_reach; [|done].
  apply step_reach; [apply idle_reach|apply create_admits; vm_compute; reflexivity].
Qed.

(** Two threads wait for the scheduler to start. *)
Definition s_two := step (CCreate "b" 2) (step (CCreate "a" 2) s_init).
Lemma two_reach : sreach 512 512 s_two.
Proof.
  do 2 (apply step_reach; [|apply create_admits; vm_compute; reflexivity]). apply init_reach.
Qed.
End Runs.
Import Runs.

Lemma sched_calls_keep_lists_witness :
  exists s', srun 512 512 (CBlock 160) s_three = Ok (tt, s') /\ sreach 512 512 s' /\ sinv (the_data s') /\
    pinv (the_data s') (k_env s').
Proof.
  apply (sched_calls_keep_lists 512 512); [apply three_reach|].
  split; [vm_compute; discriminate|]. eexists. split; [vm_compute; reflexivity|]. left. right. left. reflexivity.
Defined.

Lemma scheduler_switch_strict_witness :
  exists r s', scheduler_switch_to_next s_three = Ok (r, s') /\
    next_is (the_data s_three) /\ curproc (the_data s') = next_of (the_data s_three) /\
    (forall q t, procs (the_data s_three) !! q = Some t -> p_stat t = SRUN ->
       exists n, procs (the_data s_three) !! next_of (the_data s_three) = Some n /\ p_stat n = SRUN /\ (prio t <= prio n)%nat) /\
    lists_of (scheduler (the_data s')) = switch_lists (the_data s_three) /\
    procs (the_data s') = switch_procs (the_data s_three) /\ sinv (the_data s').
Proof. apply (scheduler_switch_strict 512 512); [apply three_reach|vm_compute; reflexivity]. Defined.

Lemma scheduler_tick_wakes_witness :
  exists r s', scheduler_timer_handler s_three = Ok (r, s') /\ sinv (the_data s') /\
    terminated_list (scheduler (the_data s')) = [] /\
    forall q t, procs (the_data s') !! q = Some t -> p_stat t = SSLEEP ->
      u64 (u64 (pit_ticks (the_data s_three) + 1) * 1000) / pit_frequency (the_data s_three) < p_slptime t.
Proof. apply (scheduler_tick_wakes 512 512); [apply three_reach|vm_compute; discriminate]. Defined.

Lemma three_waiting : waiting 2 208 1 (the_data s_three).
Proof.
  split; [split|].
  - apply (sreach_inv 512 512 s_three three_reach).
  - vm_compute; reflexivity.
  - vm_compute; discriminate.
  - vm_compute; reflexivity.
  - vm_compute; reflexivity.
  - split; [vm_compute; discriminate|]. eexists. split; [vm_compute; reflexivity|]. split; [reflexivity|].
    apply Nat.leb_le. vm_compute. reflexivity.
  - vm_compute; reflexivity.
  - exists [160], []. split; [vm_compute; reflexivity|]. split; [done|]. vm_compute. intros Hin.
    apply list_elem_of_singleton in Hin. discriminate.
  - intros j Hj. replace (queues (scheduler (the_data s_three))) with [[64]; []; [160; 208]; []; []] by (vm_compute; reflexivity).
    destruct j as [|[|[|[|[|[|j]]]]]]; try done; lia.
  - intros t. replace (procs (the_data s_three) !! curproc (the_data s_three)) with (procs (the_data s_three) !! 112)
      by (vm_compute; reflexivity). intros Ht.
    assert (Hb : match procs (the_data s_three) !! 112 with
                 | Some t => (0 <=? p_cpticks t) && (p_cpticks t <? slice (the_data s_three)) | None => true end = true)
      by (vm_compute; reflexivity).
    rewrite Ht in Hb. apply andb_prop in Hb as [? ?]. lia.
Qed.

Lemma scheduler_round_robin_witness :
  exists n s', (n <= length [true; false; true; true])%nat /\
    turn_steps (take n [true; false; true; true]) s_three = Ok (tt, s') /\ curproc (the_data s') = 208.
Proof.
  apply (scheduler_round_robin 512 512 s_three 2 208 1); [apply three_reach|apply three_waiting|vm_compute; discriminate].
Defined.

Lemma scheduler_idle_not_preempted_witness :
  exists s', turn_steps (replicate 3 true) (step (CCreate "a" 2) s_idle) = Ok (tt, s') /\
    curproc (the_data s') = idle_task (scheduler (the_data (step (CCreate "a" 2) s_idle))) /\
    forall q t, procs (the_data (step (CCreate "a" 2) s_idle)) !! q = Some t -> p_stat t = SRUN ->
      procs (the_data s') !! q = Some t.
Proof.
  apply (scheduler_idle_not_preempted 512 512); [|vm_compute; discriminate|vm_compute; reflexivity].
  apply step_reach; [apply idle_reach|apply create_admits; vm_compute; reflexivity].
Defined.

Lemma scheduler_lone_thread_parked_witness :
  exists s' t', turn_steps (replicate 4 true) s_alone = Ok (tt, s') /\
    curproc (the_data s') = idle_task (scheduler (the_data s_alone)) /\
    procs (the_data s') !! curproc (the_data s_alone) = Some t' /\ p_stat t' = SRUN.
Proof.
  eapply (scheduler_lone_thread_parked 512 512 s_alone _ 3);
    [apply alone_reach|vm_compute; discriminate|vm_compute; reflexivity|vm_compute; discriminate
    |vm_compute; reflexivity|reflexivity| |vm_compute; reflexivity|vm_compute; reflexivity|vm_compute; discriminate].
  intros j q. replace (queues (scheduler (the_data s_alone))) with [[64]; []; []; []; []] by (vm_compute; reflexivity).
  replace (idle_task (scheduler (the_data s_alone))) with 64 by (vm_compute; reflexivity).
  destruct j as [|[|[|[|[|[|j]]]]]]; simpl; intros Hq; try (by apply elem_of_nil in Hq).
  by apply list_elem_of_singleton in Hq.
Defined.

Lemma scheduler_start_keeps_first_linked_witness :
  exists s' t, scheduler_start s_two = Ok (tt, s') /\ curproc (the_data s') = 112 /\
    procs (the_data s') !! 112 = Some t /\ p_stat t = SONPROC /\
    112 ∈ nth (prio t) (queues (scheduler (the_data s'))) [] /\
    (exists s2, scheduler_yield s' = Ok (SwSame, s2) /\ curproc (the_data s2) = 112) /\
    scheduler_block_task 112 s' = Fault F_oob.
Proof.
  apply (scheduler_start_keeps_first_linked 512 512); [apply two_reach|vm_compute; reflexivity|vm_compute; reflexivity|discriminate].
Defined.
