(* ===== verification/Mutex.v ===== *)
(** * Mutexes ([sys/kern/kern_mutex.c])

    A mutex keeps its owner, the depth of recursion and the queue of waiting
    threads under a spinlock of its own, which is its first field and so has
    its address.  It works on the scheduler of Sched.v, which runs here on its
    part of a larger state.  The build without [MTX_DEBUG] is modelled.

    Taking a contended mutex can hand the CPU to another thread in the middle
    of [mutex_lock]; the result [Away] is that moment, with the state the other
    thread finds. *)

From stdpp Require Import base numbers list gmap strings.
From S2P Require Import Prelude Spinlock Kernel KLogic Proc Sched.

Definition MTX_RECURSE : Z := 1.
Definition MTX_SPIN : Z := 2.

(** The wait queue: the address of each entry and the thread it holds. *)
Record mutex := Mutex {
  mtx_owner : Z;
  mtx_recurse : Z;
  mtx_type : Z;
  mtx_waitq : list (Z * Z)
}.

Record msys := MSys { ms_psys : psys; ms_mutexes : gmap Z mutex }.

Definition set_mutexes (f : gmap Z mutex -> gmap Z mutex) (d : msys) : msys := MSys (ms_psys d) (f (ms_mutexes d)).

Definition mtx_set_owner (o n : Z) (x : mutex) : mutex := Mutex o n (mtx_type x) (mtx_waitq x).
Definition mtx_set_waitq (q : list (Z * Z)) (x : mutex) : mutex := Mutex (mtx_owner x) (mtx_recurse x) (mtx_type x) q.

Definition sleeps (x : mutex) : bool := Z.land (mtx_type x) MTX_SPIN =? 0.
Definition recursive (x : mutex) : bool := negb (Z.land (mtx_type x) MTX_RECURSE =? 0).

(** The scheduler's part of the state. *)
Program Definition sched_lens : lens (guarded msys) (guarded psys) :=
  Lens _ _ (fun g => Guarded (g_locks g) (ms_psys (g_data g)))
    (fun p g => Guarded (g_locks p) (MSys (g_data p) (ms_mutexes (g_data g)))) _ _ _.
Next Obligation. by intros [? ?] ?. Qed.
Next Obligation. done. Qed.
Next Obligation. by intros [? [? ?]]. Qed.

(** How [mutex_lock] ends. *)
Inductive lock_result :=
  | Locked           (* the caller has the mutex *)
  | Away (p : Z).    (* the CPU went to [p] before the caller got it *)

Section mutex.
Context {E : Type} `{AddressSpaces E}.
Abbreviation K := (M (kst (guarded msys) E)).

Definition in_sched {X : Type} (m : M (kst (guarded psys) E) X) : K X := zoom sched_lens m.

Definition the_mutex (m : Z) : K mutex :=
  t <- data ms_mutexes ;;
  match t !! m with Some x => ret x | None => throw F_oob end.
Definition upd_mutex (m : Z) (f : mutex -> mutex) : K unit :=
  x <- the_mutex m ;; set_data (set_mutexes (<[m := f x]>)).

Definition mtx_waitq_enqueue (m task : Z) : K unit :=
  entry <- env_pure (al_alloc 16) ;;
  if entry =? NULL then throw F_panic
  else upd_mutex m (fun x => mtx_set_waitq (mtx_waitq x ++ [(entry, task)]) x).

Definition mtx_waitq_dequeue (m : Z) : K Z :=
  x <- the_mutex m ;;
  match mtx_waitq x with
  | [] => ret NULL
  | (entry, task) :: q =>
      upd_mutex m (mtx_set_waitq q) ;;;
      env_pure (fun e => (tt, al_free entry e)) ;;;
      ret task
  end.

Definition mtx_waitq_empty (x : mutex) : bool := match mtx_waitq x with [] => true | _ => false end.

Definition mutex_init (m type : Z) : K unit :=
  if m =? NULL then throw F_panic
  else
    modify (lset (spin m) spinlock_init) ;;;
    set_data (set_mutexes (<[m := Mutex NULL 0 type []]>)).

Definition mutex_destroy (m : Z) : K unit :=
  if m =? NULL then throw F_panic
  else
    spinlock_acquire (spin m) ;;;
    x <- the_mutex m ;;
    if negb (mtx_owner x =? NULL) then spinlock_release (spin m) ;;; throw F_panic
    else if negb (mtx_waitq_empty x) then spinlock_release (spin m) ;;; throw F_panic
    else
      spinlock_release (spin m) ;;;
      modify (lset (spin m) (Spinlock 0 0 0)) ;;;
      set_data (set_mutexes (<[m := Mutex NULL 0 0 []]>)).

(** [while (mtx->mtx_owner != NULL)], entered with the spinlock held. *)
Fixpoint lock_loop (fuel : nat) (m current : Z) : K lock_result :=
  match fuel with
  | O => throw F_fuel
  | S fuel =>
      x <- the_mutex m ;;
      if mtx_owner x =? NULL then
        upd_mutex m (mtx_set_owner current 1) ;;;
        spinlock_release (spin m) ;;;
        ret Locked
      else if sleeps x then
        mtx_waitq_enqueue m current ;;;
        r <- in_sched (scheduler_block_task current) ;;
        match r with
        | SwContext _ p | SwInitial p => ret (Away p)
        | _ =>
            spinlock_release (spin m) ;;;
            r <- in_sched scheduler_yield ;;
            match r with
            | SwContext _ p | SwInitial p => ret (Away p)
            | _ => spinlock_acquire (spin m) ;;; lock_loop fuel m current
            end
        end
      else
        spinlock_release (spin m) ;;;
        spinlock_acquire (spin m) ;;;
        lock_loop fuel m current
  end.

Definition mutex_lock (fuel : nat) (m : Z) : K lock_result :=
  if m =? NULL then throw F_panic
  else
    current <- in_sched scheduler_get_current_task ;;
    if current =? NULL then
      x <- the_mutex m ;;
      if sleeps x then throw F_panic
      else spinlock_acquire (spin m) ;;; ret Locked
    else
      spinlock_acquire (spin m) ;;;
      x <- the_mutex m ;;
      if mtx_owner x =? current then
        if recursive x then
          upd_mutex m (fun x => mtx_set_owner (mtx_owner x) (u32 (mtx_recurse x + 1)) x) ;;;
          spinlock_release (spin m) ;;;
          ret Locked
        else spinlock_release (spin m) ;;; throw F_panic
      else lock_loop fuel m current.

Definition mutex_trylock (m : Z) : K bool :=
  if m =? NULL then throw F_panic
  else
    current <- in_sched scheduler_get_current_task ;;
    if current =? NULL then
      x <- the_mutex m ;;
      if sleeps x then throw F_panic else spinlock_try_acquire (spin m)
    else
      spinlock_acquire (spin m) ;;;
      x <- the_mutex m ;;
      if mtx_owner x =? current then
        if recursive x then
          upd_mutex m (fun x => mtx_set_owner (mtx_owner x) (u32 (mtx_recurse x + 1)) x) ;;;
          spinlock_release (spin m) ;;;
          ret true
        else spinlock_release (spin m) ;;; ret false
      else if negb (mtx_owner x =? NULL) then spinlock_release (spin m) ;;; ret false
      else
        upd_mutex m (mtx_set_owner current 1) ;;;
        spinlock_release (spin m) ;;;
        ret true.

Definition mutex_unlock (m : Z) : K unit :=
  if m =? NULL then throw F_panic
  else
    current <- in_sched scheduler_get_current_task ;;
    if current =? NULL then
      x <- the_mutex m ;;
      if sleeps x then throw F_panic else spinlock_release (spin m)
    else
      spinlock_acquire (spin m) ;;;
      x <- the_mutex m ;;
      if negb (mtx_owner x =? current) then spinlock_release (spin m) ;;; throw F_panic
      else if 1 <? mtx_recurse x then
        upd_mutex m (fun x => mtx_set_owner (mtx_owner x) (u32 (mtx_recurse x - 1)) x) ;;;
        spinlock_release (spin m)
      else
        upd_mutex m (mtx_set_owner NULL 0) ;;;
        next_task <- mtx_waitq_dequeue m ;;
        (if negb (next_task =? NULL) then in_sched (scheduler_unblock_task next_task) else ret tt) ;;;
        spinlock_release (spin m).

Definition mutex_owned (m : Z) : K bool :=
  if m =? NULL then ret false
  else
    current <- in_sched scheduler_get_current_task ;;
    if current =? NULL then ret false
    else x <- the_mutex m ;; ret (mtx_owner x =? current).

Definition mutex_locked (m : Z) : K bool :=
  if m =? NULL then ret false else x <- the_mutex m ;; ret (negb (mtx_owner x =? NULL)).

Definition mutex_owner (m : Z) : K Z :=
  if m =? NULL then ret NULL else x <- the_mutex m ;; ret (mtx_owner x).
End mutex.
