(* ===== verification/MutexThms.v ===== *)
(** * What a mutex promises, and where it fails

    Whatever the calls and whoever makes them, at most one thread holds the
    mutex; but the first contended [mutex_lock] gives the CPU away with the
    spinlock of the mutex taken, and every later call panics. *)

From stdpp Require Import base numbers list gmap strings.
From S2P Require Import Prelude Spinlock Kernel KLogic Proc ProcFacts ProcInv ProcOps ProcThms SimpleHeap.
From S2P Require Import Sched SchedFacts SchedSwitch SchedOps SchedTick SchedThms SchedLive Mutex.

Inductive mcall := CLock | CTrylock | CUnlock.

(** A call of a thread and what it returned. *)
Record mevent := MEvent { me_thread : Z; me_call : mcall; me_result : bool }.

(** What the call adds to the thread's hold on the mutex. *)
Definition gain (v : mevent) : Z :=
  match me_call v with
  | CLock | CTrylock => if me_result v then 1 else 0
  | CUnlock => -1
  end.

(** Acquisitions less releases of thread [c]. *)
Definition hold (h : list mevent) (c : Z) : Z :=
  foldr (fun v n => (if me_thread v =? c then gain v else 0) + n) 0 h.

Section exclusion.
Context {E : Type} `{AddressSpaces E}.
Abbreviation K := (M (kst (guarded msys) E)).
Abbreviation state := (kst (guarded msys) E).

Definition mutexes_of (s : state) : gmap Z mutex := ms_mutexes (g_data (k_obj s)).
Definition psys_of (s : state) : psys := ms_psys (g_data (k_obj s)).

(** The scheduler made [c] the current thread. *)
Definition as_thread (c : Z) (s : state) : state :=
  set_obj (Guarded (g_locks (k_obj s)) (MSys (set_curproc c (psys_of s)) (mutexes_of s))) s.

Definition mrun (fuel : nat) (c : mcall) (m : Z) : K bool :=
  match c with
  | CLock => r <- mutex_lock fuel m ;; ret (match r with Locked => true | Away _ => false end)
  | CTrylock => mutex_trylock m
  | CUnlock => mutex_unlock m ;;; ret true
  end.

(** The calls on [m] since it was set up, each made by a thread that is current. *)
Inductive mhist (m : Z) : list mevent -> state -> Prop :=
  | mh_init type s s' : mutex_init m type s = Ok (tt, s') -> mhist m [] s'
  | mh_call h s fuel c call b s' :
      mhist m h s -> c <> NULL -> mrun fuel call m (as_thread c s) = Ok (b, s') ->
      mhist m (MEvent c call b :: h) s'.

(** ** Partial correctness on the mutexes alone *)

Definition mp {X : Type} (m : K X) (Q : X -> state -> Prop) (s : state) : Prop :=
  forall x s', m s = Ok (x, s') -> Q x s'.

Definition keeps {X : Type} (m : K X) : Prop :=
  forall s x s', m s = Ok (x, s') -> mutexes_of s' = mutexes_of s /\ curproc (psys_of s') = curproc (psys_of s).

Lemma mp_bind {X Y : Type} (m : K X) (k : X -> K Y) Q s :
  mp m (fun x s' => mp (k x) Q s') s -> mp (bind m k) Q s.
Proof.
  intros Hm y s2. unfold bind. destruct (m s) as [[x s1]|] eqn:Hx; [|done]. intros Hk. by eapply (Hm x s1).
Qed.

Lemma mp_ret {X : Type} (x : X) (Q : X -> state -> Prop) s : Q x s -> mp (ret x) Q s.
Proof. intros HQ y s' [= <- <-]. done. Qed.

Lemma mp_throw {X : Type} f (Q : X -> state -> Prop) s : mp (throw f) Q s.
Proof. intros y s' [=]. Qed.

Lemma mp_acquire m (Q : unit -> state -> Prop) s :
  (forall s', mutexes_of s' = mutexes_of s -> psys_of s' = psys_of s -> Q tt s') -> mp (spinlock_acquire (spin m)) Q s.
Proof.
  intros HQ [] s'. unfold spinlock_acquire, spinlock_holding, intr_disable, intr_restore, bind, gets, modify, ret, throw.
  repeat case_match; try done; intros [=]; subst; by apply HQ.
Qed.

Lemma mp_release m (Q : unit -> state -> Prop) s :
  (forall s', mutexes_of s' = mutexes_of s -> psys_of s' = psys_of s -> Q tt s') -> mp (spinlock_release (spin m)) Q s.
Proof.
  intros HQ [] s'. unfold spinlock_release, spinlock_holding, intr_disable, intr_restore, bind, gets, modify, ret, throw.
  repeat case_match; try done; intros [=]; subst; by apply HQ.
Qed.

Lemma mp_sched {X : Type} (p : M (kst (guarded psys) E) X) (Q : X -> state -> Prop) s :
  (forall x s', mutexes_of s' = mutexes_of s -> Q x s') -> mp (in_sched p) Q s.
Proof.
  intros HQ x s'. unfold in_sched, zoom. destruct (p _) as [[y s1]|]; [|done]. intros [= <- <-]. by apply HQ.
Qed.

Lemma mp_current (Q : Z -> state -> Prop) s : Q (curproc (psys_of s)) s -> mp (in_sched scheduler_get_current_task) Q s.
Proof. intros HQ x s' [= <- <-]. destruct s as [? ? ? ? ? [? [? ?]] ?]. exact HQ. Qed.

Lemma mp_the_mutex m (Q : mutex -> state -> Prop) s :
  (forall x, mutexes_of s !! m = Some x -> Q x s) -> mp (the_mutex m) Q s.
Proof.
  intros HQ x s'. unfold the_mutex, bind, data, gets. fold (mutexes_of s).
  destruct (mutexes_of s !! m) as [y|] eqn:Hy; [|done]. intros [= <- <-]. by apply HQ.
Qed.

Lemma mp_upd m f (Q : unit -> state -> Prop) s :
  (forall x s', mutexes_of s !! m = Some x -> mutexes_of s' = <[m := f x]> (mutexes_of s) -> Q tt s') ->
  mp (upd_mutex m f) Q s.
Proof.
  intros HQ. unfold upd_mutex. apply mp_bind, mp_the_mutex. intros x Hx [] s' [= <-]. by eapply HQ.
Qed.

(** The owner and the depth; the queue may change. *)
Definition owns (s : state) (m o n : Z) : Prop := exists x, mutexes_of s !! m = Some x /\ mtx_owner x = o /\ mtx_recurse x = n.

Lemma owns_keep s s' m o n : mutexes_of s' = mutexes_of s -> owns s m o n -> owns s' m o n.
Proof. unfold owns. by intros ->. Qed.

Lemma mp_enqueue m task o n (Q : unit -> state -> Prop) s :
  owns s m o n -> (forall s', owns s' m o n -> Q tt s') -> mp (mtx_waitq_enqueue m task) Q s.
Proof.
  intros (x & Hx & Ho & Hn) HQ. unfold mtx_waitq_enqueue. apply mp_bind. unfold env_pure, env. intros a s1.
  destruct (al_alloc 16 (k_env s)) as [a' e1]. intros Hs1. injection Hs1 as <- <-.
  case_match; [apply mp_throw|]. apply mp_upd. intros y s' Hy Hs'. apply HQ.
  change (mutexes_of s !! m = Some y) in Hy.
  change (mutexes_of s' = <[m := mtx_set_waitq (mtx_waitq y ++ [(a', task)]) y]> (mutexes_of s)) in Hs'.
  simplify_eq. eexists. rewrite Hs', lookup_insert_eq. by split_and!.
Qed.

Lemma mp_lock_loop fuel m c o n (Q : lock_result -> state -> Prop) s :
  owns s m o n ->
  (forall s' p, owns s' m o n -> Q (Away p) s') -> (o = NULL -> forall s', owns s' m c 1 -> Q Locked s') ->
  mp (lock_loop fuel m c) Q s.
Proof.
  intros Hown HA HL. revert s Hown. induction fuel as [|fuel IH]; intros s Hown; [apply mp_throw|]. simpl.
  apply mp_bind, mp_the_mutex. intros x Hx. pose proof Hown as (y & Hy & Ho & Hn).
  assert (x = y) as -> by congruence. subst o n. clear Hx.
  destruct (Z.eqb_spec (mtx_owner y) NULL) as [Hz|Hz].
  - apply mp_bind, mp_upd. intros z s1 Hz1 Hs1. apply mp_bind, mp_release. intros s2 H2 _. apply mp_ret, HL; [done|].
    simplify_eq. eexists. rewrite H2, Hs1, lookup_insert_eq. by split_and!.
  - destruct (sleeps y).
    + apply mp_bind. eapply mp_enqueue; [exact Hown|]. intros s1 Ho1. apply mp_bind, mp_sched. intros r s2 H2.
      apply (owns_keep _ s2) in Ho1; [|done].
      destruct r; try (apply mp_ret; by apply HA);
        (apply mp_bind, mp_release; intros s3 H3 _; apply mp_bind, mp_sched; intros r s4 H4;
         assert (Ho4 : owns s4 m (mtx_owner y) (mtx_recurse y)) by (eapply owns_keep; [|exact Ho1]; congruence);
         destruct r; try (apply mp_ret; by apply HA); apply mp_bind, mp_acquire; intros s5 H5 _; apply IH;
         by eapply owns_keep).
    + apply mp_bind, mp_release. intros s3 H3 _. apply mp_bind, mp_acquire. intros s5 H5 _. apply IH.
      eapply owns_keep; [|exact Hown]. congruence.
Qed.

(** What a call that returns has done to owner and depth. *)
Lemma mp_mrun fuel call m c o n (Q : bool -> state -> Prop) s :
  c <> NULL -> curproc (psys_of s) = c -> owns s m o n ->
  (forall s', owns s' m o n -> call <> CUnlock -> Q false s') ->
  (forall s', o = c -> owns s' m c (u32 (n + 1)) -> call <> CUnlock -> Q true s') ->
  (forall s', o = NULL -> owns s' m c 1 -> call <> CUnlock -> Q true s') ->
  (forall s', o = c -> 1 < n -> owns s' m c (u32 (n - 1)) -> call = CUnlock -> Q true s') ->
  (forall s', o = c -> n <= 1 -> owns s' m NULL 0 -> call = CUnlock -> Q true s') ->
  mp (mrun fuel call m) Q s.
Proof.
  intros Hc Hcur Hown Hfail Hrec Hfree Hdown Hrel. pose proof Hown as (y & Hy & Ho & Hn). subst o n. destruct call; simpl.
  - apply mp_bind. unfold mutex_lock. destruct (m =? NULL); [apply mp_throw|]. apply mp_bind, mp_current. rewrite Hcur.
    rewrite (proj2 (Z.eqb_neq c NULL)) by done. apply mp_bind, mp_acquire. intros s1 H1 _.
    apply mp_bind, mp_the_mutex. intros x Hx. rewrite H1 in Hx.
    assert (x = y) as -> by congruence. clear Hx.
    destruct (Z.eqb_spec (mtx_owner y) c) as [Hoc|Hoc].
    + destruct (recursive y); [|apply mp_bind, mp_release; intros; apply mp_throw].
      apply mp_bind, mp_upd. intros z s2 Hz Hs2. apply mp_bind, mp_release. intros s3 H3 _. apply mp_ret, mp_ret, Hrec; [done| |done].
      rewrite H1 in Hz, Hs2. simplify_eq. eexists. rewrite H3, Hs2, lookup_insert_eq. by split_and!.
    + eapply mp_lock_loop; [eapply owns_keep; [exact H1|exact Hown]| |].
      * intros s2 p Ho2. by apply mp_ret, Hfail.
      * intros Hnull s2 Ho2. by apply mp_ret, Hfree.
  - unfold mutex_trylock. destruct (m =? NULL); [apply mp_throw|]. apply mp_bind, mp_current. rewrite Hcur.
    rewrite (proj2 (Z.eqb_neq c NULL)) by done. apply mp_bind, mp_acquire. intros s1 H1 _.
    apply mp_bind, mp_the_mutex. intros x Hx. rewrite H1 in Hx.
    assert (x = y) as -> by congruence. clear Hx.
    assert (Hkeep : forall s2, mutexes_of s2 = mutexes_of s1 -> owns s2 m (mtx_owner y) (mtx_recurse y)).
    { intros s2 H2. eapply owns_keep; [|exact Hown]. congruence. }
    destruct (Z.eqb_spec (mtx_owner y) c) as [Hoc|Hoc].
    + destruct (recursive y).
      * apply mp_bind, mp_upd. intros z s2 Hz Hs2. apply mp_bind, mp_release. intros s3 H3 _. apply mp_ret, Hrec; [done| |done].
        rewrite H1 in Hz, Hs2. simplify_eq. eexists. rewrite H3, Hs2, lookup_insert_eq. by split_and!.
      * apply mp_bind, mp_release. intros s2 H2 _. apply mp_ret, Hfail; [by apply Hkeep|done].
    + destruct (Z.eqb_spec (mtx_owner y) NULL) as [Hz|Hz]; cbn [negb].
      * apply mp_bind, mp_upd. intros z s2 Hz2 Hs2. apply mp_bind, mp_release. intros s3 H3 _. apply mp_ret, Hfree; [done| |done].
        rewrite H1 in Hz2, Hs2. simplify_eq. eexists. rewrite H3, Hs2, lookup_insert_eq. by split_and!.
      * apply mp_bind, mp_release. intros s2 H2 _. apply mp_ret, Hfail; [by apply Hkeep|done].
  - apply mp_bind. unfold mutex_unlock. destruct (m =? NULL); [apply mp_throw|]. apply mp_bind, mp_current. rewrite Hcur.
    rewrite (proj2 (Z.eqb_neq c NULL)) by done. apply mp_bind, mp_acquire. intros s1 H1 _.
    apply mp_bind, mp_the_mutex. intros x Hx. rewrite H1 in Hx.
    assert (x = y) as -> by congruence. clear Hx.
    destruct (Z.eqb_spec (mtx_owner y) c) as [Hoc|Hoc]; cbn [negb]; [|apply mp_bind, mp_release; intros; apply mp_throw].
    destruct (Z.ltb_spec 1 (mtx_recurse y)) as [Hlt|Hle].
    + apply mp_bind, mp_upd. intros z s2 Hz Hs2. apply mp_release. intros s3 H3 _. apply mp_ret, Hdown; [done|done| |done].
      rewrite H1 in Hz, Hs2. simplify_eq. eexists. rewrite H3, Hs2, lookup_insert_eq. by split_and!.
    + apply mp_bind, mp_upd. intros z s2 Hz Hs2. rewrite H1 in Hz, Hs2. simplify_eq.
      assert (Ho2 : owns s2 m NULL 0) by (eexists; rewrite Hs2, lookup_insert_eq; by split_and!).
      assert (Hend : forall s3, owns s3 m NULL 0 -> forall next, mp ((if negb (next =? NULL) then in_sched (scheduler_unblock_task next) else ret tt) ;;;
        spinlock_release (spin m)) (fun _ s' => mp (ret true) Q s') s3).
      { intros s3 Ho3 next. apply mp_bind. case_match; [apply mp_sched; intros [] s4 H4|apply mp_ret];
          (apply mp_release; intros s5 H5 _; apply mp_ret, Hrel; [done|done| |done]; eapply owns_keep; [|exact Ho3]; congruence). }
      apply mp_bind. unfold mtx_waitq_dequeue. apply mp_bind, mp_the_mutex. intros z' Hz'.
      destruct (mtx_waitq z') as [|[a t] q]; [apply mp_ret; by apply Hend|].
      apply mp_bind, mp_upd. intros w s3 Hw Hs3. apply mp_bind. intros [] s4 [= <-]. apply mp_ret. apply Hend.
      destruct Ho2 as (w' & Hw' & Ho' & Hn'). simplify_eq.
      change (mutexes_of (set_env (al_free a (k_env s3)) s3)) with (mutexes_of s3).
      eexists. split; [change (mutexes_of (set_env (al_free a (k_env s3)) s3)) with (mutexes_of s3); rewrite Hs3; apply lookup_insert_eq|]. done.
Qed.

(** The history and the owner agree. *)
Definition agrees (h : list mevent) (o n : Z) : Prop :=
  0 <= n <= Z.of_nat (length h) /\
  ((o = NULL /\ n = 0 /\ forall c, hold h c = 0) \/
   (o <> NULL /\ 0 < n /\ hold h o = n /\ forall c, c <> o -> hold h c = 0)).

Lemma hold_cons v h c : hold (v :: h) c = (if me_thread v =? c then gain v else 0) + hold h c.
Proof. done. Qed.

Lemma hold_other v h c : me_thread v <> c -> hold (v :: h) c = hold h c.
Proof. intros Hne. rewrite hold_cons, (proj2 (Z.eqb_neq _ _)) by done. done. Qed.

Lemma hold_self v h : hold (v :: h) (me_thread v) = gain v + hold h (me_thread v).
Proof. by rewrite hold_cons, Z.eqb_refl. Qed.

(** An event that gains nothing. *)
Lemma agrees_same v h o n : gain v = 0 -> agrees h o n -> agrees (v :: h) o n.
Proof.
  intros Hg [Hn Ha]. assert (Hh : forall c, hold (v :: h) c = hold h c).
  { intros c. rewrite hold_cons, Hg. by destruct (me_thread v =? c). }
  split; [simpl; lia|]. destruct Ha as [(-> & -> & Hz0)|(Ho & Hp & Hh1 & Hz0)]; [left|right]; split_and!; try done.
  - intros c. by rewrite Hh.
  - by rewrite Hh.
  - intros c Hc. rewrite Hh. by apply Hz0.
Qed.

(** The thread [c] now holds the mutex [n] times. *)
Lemma agrees_held v h o n n' :
  me_thread v <> NULL -> agrees h o n -> (o = NULL \/ o = me_thread v) -> n' = n + gain v -> 0 < n' ->
  gain v <= 1 -> agrees (v :: h) (me_thread v) n'.
Proof.
  intros Hv [Hn Ha] Ho -> Hp Hg. split; [simpl; lia|]. right.
  assert (Hz0 : hold h (me_thread v) = n /\ forall c, c <> me_thread v -> hold h c = 0).
  { destruct Ha as [(-> & -> & Hz0)|(Hon & _ & Hh & Hz0)]; [split; [apply Hz0|intros; apply Hz0]|].
    destruct Ho as [->| ->]; [done|]. done. }
  destruct Hz0 as [Hs Hz0]. split_and!; [done|done|rewrite hold_self, Hs; lia|]. intros c Hc.
  rewrite hold_other by congruence. by apply Hz0.
Qed.

Lemma agrees_released v h n :
  agrees h (me_thread v) n -> me_thread v <> NULL -> n <= 1 -> gain v = -1 -> agrees (v :: h) NULL 0.
Proof.
  intros [Hn Ha] Hv Hn1 Hg. destruct Ha as [(? & _)|(_ & Hp & Hh & Hz0)]; [done|].
  split; [simpl; lia|]. left. split_and!; [done..|]. intros c. destruct (decide (me_thread v = c)) as [<-|Hne].
  - rewrite hold_self, Hh, Hg. lia.
  - rewrite hold_other by done. apply Hz0. congruence.
Qed.

Lemma mhist_agrees m h s : mhist m h s -> Z.of_nat (length h) < 2 ^ 32 -> exists o n, owns s m o n /\ agrees h o n.
Proof.
  induction 1 as [type s s' Hrun|h s fuel c call b s' _ IH Hc Hrun]; intros Hlen.
  - exists NULL, 0. split; [|split; [done|by left]]. unfold mutex_init in Hrun. destruct (m =? NULL); [done|].
    unfold bind, modify, set_data, modify in Hrun. injection Hrun as <-. eexists. split; [apply lookup_insert_eq|done].
  - simpl in Hlen. destruct IH as (o & n & Hown & Ha); [lia|]. pose proof Ha as [Hn _].
    set (v := MEvent c call b). cut (mp (mrun fuel call m) (fun b s' => exists o n, owns s' m o n /\ agrees (MEvent c call b :: h) o n) (as_thread c s)).
    { intros Hmp. by apply Hmp in Hrun. }
    eapply mp_mrun; [exact Hc|done|exact Hown|..].
    + intros s1 Ho1 Hcall. exists o, n. split; [done|]. apply agrees_same; [by destruct call|done].
    + intros s1 -> Ho1 Hcall. exists c, (n + 1). replace (u32 (n + 1)) with (n + 1) in Ho1 by (unfold u32; rewrite Z.mod_small; lia).
      split; [done|]. apply (agrees_held (MEvent c call true) h c n); [done|done|by right| |lia|]; by destruct call.
    + intros s1 -> Ho1 Hcall. exists c, 1. split; [done|].
      assert (n = 0) as -> by (destruct Ha as [_ [(_ & ? & _)|(? & _)]]; done).
      apply (agrees_held (MEvent c call true) h NULL 0); [done|done|by left| |lia|]; by destruct call.
    + intros s1 -> Hn1 Ho1 ->. exists c, (n - 1). replace (u32 (n - 1)) with (n - 1) in Ho1 by (unfold u32; rewrite Z.mod_small; lia).
      split; [done|]. by apply (agrees_held (MEvent c CUnlock true) h c n); [done|done|right| |lia|].
    + intros s1 -> Hn1 Ho1 ->. exists NULL, 0. split; [done|]. by eapply (agrees_released (MEvent c CUnlock true)).
Qed.

(** C17: Mutual exclusion: after any history of lock, trylock and unlock calls by
    any threads (fewer than 2^32 of them), a thread has taken the mutex more
    often than it gave it back exactly when it is the owner, as often as the
    depth says; so no two threads hold it. *)
Theorem mutex_mutual_exclusion m h s :
  mhist m h s -> Z.of_nat (length h) < 2 ^ 32 ->
  exists x, mutexes_of s !! m = Some x /\
    (forall c, 0 < hold h c <-> c = mtx_owner x /\ c <> NULL) /\
    (forall c, 0 < hold h c -> hold h c = mtx_recurse x) /\
    (forall c c', 0 < hold h c -> 0 < hold h c' -> c = c').
Proof.
  intros Hh Hlen. destruct (mhist_agrees m h s Hh Hlen) as (o & n & (x & Hx & Ho & Hn) & Ha). exists x. subst o n.
  assert (Hiff : forall c, 0 < hold h c <-> c = mtx_owner x /\ c <> NULL).
  { intros c. destruct Ha as [_ [(Hz & _ & Hz0)|(Hz & Hp & Hh1 & Hz0)]].
    - rewrite Hz0. split; [lia|]. intros [-> Hc]. congruence.
    - split; [|intros [-> _]; lia]. intros Hpos. destruct (decide (c = mtx_owner x)) as [->|Hne]; [done|].
      rewrite Hz0 in Hpos by done. lia. }
  split_and!; [done|done| |].
  - intros c Hpos. destruct Ha as [_ [(Hz & _ & Hz0)|(Hz & Hp & Hh1 & Hz0)]]; [rewrite Hz0 in Hpos; lia|].
    apply Hiff in Hpos as [-> _]. done.
  - intros c c' [-> _]%Hiff [-> _]%Hiff. done.
Qed.
End exclusion.

(** ** Contention *)

Section contention.
Context {E : Type} `{AddressSpaces E}.
Abbreviation state := (kst (guarded msys) E).

Lemma ev_in_sched {X : Type} held (p : M (kst (guarded psys) E) X) (Q : X -> msys -> E -> Z -> Prop) d e fl :
  ev held p (fun x d' e' fl' => Q x (MSys d' (ms_mutexes d)) e' fl') (ms_psys d) e fl ->
  ev held (in_sched p) Q d e fl.
Proof.
  intros Hp s Hi <- <- <-. unfold in_sched, zoom, wp.
  set (s0 := Kst _ _ _ _ _ _ _). specialize (Hp s0 Hi eq_refl eq_refl eq_refl). unfold wp in Hp.
  destruct (p s0) as [[x s1]|]; [|done]. destruct Hp as [(Hi1 & Hh & Hf) HQ]. split; [|exact HQ].
  split; [exact Hi1|]. split; [exact Hh|exact Hf].
Qed.

Lemma ev_the_mutex held m x (Q : mutex -> msys -> E -> Z -> Prop) d e fl :
  ms_mutexes d !! m = Some x -> Q x d e fl -> ev held (the_mutex m) Q d e fl.
Proof. intros Hx HQ. unfold the_mutex. ev_steps. rewrite Hx. by apply ev_ret. Qed.

Lemma ev_upd_mutex held m x f (Q : unit -> msys -> E -> Z -> Prop) d e fl :
  ms_mutexes d !! m = Some x -> Q tt (set_mutexes (<[m := f x]>) d) e fl -> ev held (upd_mutex m f) Q d e fl.
Proof. intros Hx HQ. unfold upd_mutex. ev_step. eapply ev_the_mutex; [done|]. by ev_step. Qed.

(** The current thread blocks: the CPU goes to the next one. *)
Lemma ev_block_current held c t (Q : switch_result -> psys -> E -> Z -> Prop) d e fl :
  sinv d -> running (scheduler d) = true -> curproc d = c -> procs d !! c = Some t -> p_stat t = SONPROC ->
  c <> idle_task (scheduler d) -> (forall n, procs d !! next_of d = Some n -> p_cpu_state n <> NULL) ->
  (forall r d' fl', r = SwContext c (next_of d) \/ r = SwInitial (next_of d) -> curproc d' = next_of d -> Q r d' e fl') ->
  ev held (scheduler_block_task c) Q d e fl.
Proof.
  intros HS Hrun Hc Ht Hst Hidle Hcpu HQ. pose proof (si_lists _ HS) as HL. unfold scheduler_block_task.
  assert (Hn : c <> NULL) by (intros ->; by rewrite (ci_null _ _ _ (si_cur _ HS)) in Ht).
  rewrite (proj2 (Z.eqb_neq c NULL)) by done. ev_step. eapply ev_the_proc; [done|]. rewrite Hst.
  simpl (SONPROC =? SSTOP). simpl (SONPROC =? SRUN). cbv iota. do 2 ev_step. ev_step. apply ev_open.
  eapply ev_upd_thread; [done|]. ev_step.
  apply ev_blocked_insert; [eapply unlinked; [exact HL|exact Ht|by apply home_sonproc]|].
  ev_step. apply ev_stat. ev_step. unfold proc_get_current. ev_step. set (d1 := sput _ _ _ _ _ _).
  change (curproc d1) with (curproc d). rewrite Hc, Z.eqb_refl.
  assert (HS1 : sinv d1).
  { apply sinv_sput.
    - eapply linv_enq; [exact HL|exact Ht|by apply home_sonproc|by apply home_sstop|]. exact (li_pri _ _ HL _ _ Ht).
    - apply counts_enq_blocked, HS.
    - eapply cinv_set; [apply HS|exact Ht|done|done|]. by intros ->. }
  assert (Hnx : next_of d1 = next_of d) by done.
  assert (Hne : c <> next_of d).
  { destruct (next_spec d HS) as [i l n _ _ Hn' Hns _|n _ Hid _ _]; [|congruence].
    intros ->. simplify_eq. rewrite Hst in Hns. done. }
  unfold scheduler_yield, proc_get_current. ev_step. apply ev_sdata. ev_steps.
  change (running (scheduler d1)) with (running (scheduler d)). change (curproc d1) with (curproc d).
  rewrite Hrun, Hc, (proj2 (Z.eqb_neq c NULL)) by done. cbn [negb orb]. cbv iota.
  apply ev_switch; [done|done|]. intros r st c3 fl' _ _ Hr. apply HQ; [|done].
  destruct (next_live d HS) as [_ [n Hn']].
  rewrite <- Hc, <- Hnx. apply (Hr n).
  - change (curproc d <> next_of d). congruence.
  - rewrite Hnx. change (<[c := p_set_stat SSTOP t]> (procs d) !! next_of d = Some n). by rewrite lookup_insert_ne.
  - by apply Hcpu.
Qed.

Lemma get_current_eq (s : state) : in_sched scheduler_get_current_task s = Ok (curproc (psys_of s), s).
Proof. by destruct s as [? ? ? ? ? [? [? ?]] ?]. Qed.

(** A call on a mutex whose spinlock this CPU holds. *)
Lemma mutex_calls_panic fuel m (s : state) :
  m <> NULL -> curproc (psys_of s) <> NULL -> lock_held (spin m) s ->
  mutex_unlock m s = Fault F_panic_lock /\ mutex_trylock m s = Fault F_panic_lock /\
  mutex_lock fuel m s = Fault F_panic_lock.
Proof.
  intros Hm Hc Hl.
  unfold mutex_unlock, mutex_trylock, mutex_lock. rewrite (proj2 (Z.eqb_neq m NULL)) by done.
  unfold bind. rewrite get_current_eq, (proj2 (Z.eqb_neq _ NULL)) by done. by rewrite (acquire_held_panics _ _ Hl).
Qed.

(** A contended [mutex_lock] on a sleeping mutex gives the CPU to the next
    thread inside [scheduler_block_task], before [spinlock_release]: the
    spinlock of the mutex stays taken, and whatever thread runs then, the owner
    included, panics in [mutex_unlock], [mutex_trylock] and [mutex_lock]. *)
Theorem mutex_contended_lock_panics fuel m (s : state) x t :
  idle [] s -> sinv (psys_of s) -> running (scheduler (psys_of s)) = true -> m <> NULL ->
  procs (psys_of s) !! curproc (psys_of s) = Some t -> p_stat t = SONPROC ->
  curproc (psys_of s) <> idle_task (scheduler (psys_of s)) ->
  mutexes_of s !! m = Some x -> sleeps x = true -> mtx_owner x <> NULL -> mtx_owner x <> curproc (psys_of s) ->
  (al_alloc 16 (k_env s)).1 <> NULL ->
  (forall n, procs (psys_of s) !! next_of (psys_of s) = Some n -> p_cpu_state n <> NULL) ->
  exists s', mutex_lock (S fuel) m s = Ok (Away (next_of (psys_of s)), s') /\
    curproc (psys_of s') = next_of (psys_of s) /\
    forall fuel', mutex_unlock m s' = Fault F_panic_lock /\ mutex_trylock m s' = Fault F_panic_lock /\
      mutex_lock fuel' m s' = Fault F_panic_lock.
Proof.
  intros Hi HS Hrun Hm Ht Hst Hci Hx Hsl Ho Hoc Hal Hcpu. set (d := psys_of s) in *. set (c := curproc d) in *.
  assert (Hc : c <> NULL) by (intros Hc; by rewrite Hc, (ci_null _ _ _ (si_cur _ HS)) in Ht).
  assert (Hwp : wp (mutex_lock (S fuel) m) (fun r s' => r = Away (next_of d) /\ curproc (psys_of s') = next_of d /\
    lock_held (spin m) s') s).
  { unfold mutex_lock. rewrite (proj2 (Z.eqb_neq m NULL)) by done. apply wp_bind.
    apply (wp_eq _ c s); [apply get_current_eq|].
    rewrite (proj2 (Z.eqb_neq c NULL)) by done. apply wp_bind, wp_acquire; [apply (Hi m), not_elem_of_nil|].
    set (s1 := lset _ _ _).
    assert (Hl1 : lock_of m s1 = Spinlock 1 get_cpu_id (k_flags s)) by (unfold s1; apply (lget_lset (spin m))).
    assert (Hi1 : idle [m] s1).
    { intros k Hk. assert (Hkm : k <> m) by (intros ->; apply Hk; by left). unfold s1, lock_of. simpl.
      rewrite lookup_insert_ne by done. apply (Hi k). by apply not_elem_of_nil. }
    assert (Hev : ev (E := E) [m] (x <- the_mutex m ;;
      if mtx_owner x =? c then
        if recursive x then
          upd_mutex m (fun x => mtx_set_owner (mtx_owner x) (u32 (mtx_recurse x + 1)) x) ;;;
          spinlock_release (spin m) ;;; ret Locked
        else spinlock_release (spin m) ;;; throw F_panic
      else lock_loop (S fuel) m c) (fun r d' _ _ => r = Away (next_of d) /\ curproc (ms_psys d') = next_of d)
      (g_data (k_obj s1)) (k_env s1) (k_flags s1)).
    { ev_step. eapply ev_the_mutex; [exact Hx|]. rewrite (proj2 (Z.eqb_neq _ _)) by done. simpl lock_loop.
      ev_step. eapply ev_the_mutex; [exact Hx|]. rewrite (proj2 (Z.eqb_neq _ NULL)) by done. rewrite Hsl.
      ev_step. unfold mtx_waitq_enqueue. do 2 ev_step. change (k_env s1) with (k_env s).
      rewrite (proj2 (Z.eqb_neq _ NULL)) by done. eapply ev_upd_mutex; [exact Hx|]. ev_step. apply ev_in_sched.
      eapply (ev_block_current _ c t); [exact HS|done|done|done|done|done|done|].
      intros r d' fl' [->| ->] Hcd; by ev_step. }
    eapply wp_mono; [apply (Hev s1 Hi1 eq_refl eq_refl eq_refl)|]. intros r s' [(_ & Hheld & _) [-> Hcd]].
    split_and!; [done|exact Hcd|]. unfold lock_held. change (lget (spin m) s') with (lock_of m s').
    rewrite Hheld by (by left). by rewrite Hl1. }
  destruct (proj1 (wp_run _ _ _) Hwp) as (r & s' & Hrun' & -> & Hcur & Hl). exists s'. split_and!; [done|done|].
  intros fuel'. apply mutex_calls_panic; [done| |done]. rewrite Hcur. by apply (next_live d HS).
Qed.
End contention.

(** ** Runs *)

Module MutexRuns.
Import Runs.
Definition m_boot : kst (guarded msys) simple_heap :=
  Kst 0x202 ∅ 0 0 spinlock_init (Guarded ∅ (MSys psys_boot ∅)) [].
Definition m_after {X : Type} (m : M (kst (guarded msys) simple_heap) X) (s : kst (guarded msys) simple_heap) :=
  match m s with Ok (_, s') => s' | Fault _ => s end.

(** Thread 112 takes the mutex at 8, thread 160 fails to. *)
Definition m_init := m_after (mutex_init 8 0) m_boot.
Definition m_locked := m_after (mrun 1 CLock 8) (as_thread 112 m_init).
Definition m_tried := m_after (mrun 1 CTrylock 8) (as_thread 160 m_locked).

Lemma tried_hist : mhist 8 [MEvent 160 CTrylock false; MEvent 112 CLock true] m_tried.
Proof.
  apply (mh_call 8 _ m_locked 1); [|done|vm_compute; reflexivity].
  apply (mh_call 8 _ m_init 1); [|done|vm_compute; reflexivity].
  apply (mh_init 8 0 m_boot). vm_compute. reflexivity.
Qed.

(** Three threads as in [s_three]; the next one has saved registers, and the
    last one owns the mutex at 8. *)
Definition saved (t : proc) : proc :=
  Proc (p_p t) (p_vmspace t) (p_tid t) (p_name t) (p_kstack t) (p_kstack_top t) (p_ustack_top t)
    (p_stat t) (p_flag t) (p_runpri t) (p_kstack t) (p_cpticks t) (p_slptime t) (p_runtime t).
Definition next_thread : proc := default proc0 (procs (the_data s_three) !! 160).
Definition d_three : psys := set_procs (<[160 := saved next_thread]> (procs (the_data s_three))) (the_data s_three).
Definition m_three : kst (guarded msys) simple_heap :=
  Kst 0x202 ∅ 0 0 spinlock_init (Guarded ∅ (MSys d_three {[8 := Mutex 208 1 0 []]})) (k_env s_three).

Lemma three_inv : sinv d_three.
Proof.
  pose proof (ki_s _ _ (proj2 (sreach_inv 512 512 s_three three_reach))) as HS.
  assert (Ht : procs (the_data s_three) !! 160 = Some next_thread) by (vm_compute; reflexivity).
  unfold d_three. rewrite set_procs_sput. pose proof (li_pri _ _ (si_lists _ HS) _ _ Ht) as Hp.
  apply sinv_sput; [eapply linv_keep; [apply HS|exact Ht|done|done]|apply HS|].
  eapply cinv_set; [apply HS|exact Ht| | |].
  - intros Hs. by apply (ci_one _ _ _ (si_cur _ HS) 160 next_thread).
  - vm_compute. discriminate.
  - vm_compute. discriminate.
Qed.
End MutexRuns.
Import MutexRuns.

Lemma mutex_mutual_exclusion_witness :
  exists x, mutexes_of m_tried !! 8 = Some x /\
    (forall c, 0 < hold [MEvent 160 CTrylock false; MEvent 112 CLock true] c <-> c = mtx_owner x /\ c <> NULL) /\
    (forall c, 0 < hold [MEvent 160 CTrylock false; MEvent 112 CLock true] c ->
       hold [MEvent 160 CTrylock false; MEvent 112 CLock true] c = mtx_recurse x) /\
    (forall c c', 0 < hold [MEvent 160 CTrylock false; MEvent 112 CLock true] c ->
       0 < hold [MEvent 160 CTrylock false; MEvent 112 CLock true] c' -> c = c').
Proof. apply mutex_mutual_exclusion; [apply tried_hist|vm_compute; reflexivity]. Defined.

Lemma mutex_contended_lock_panics_witness :
  exists s', mutex_lock 1 8 m_three = Ok (Away (next_of (psys_of m_three)), s') /\
    curproc (psys_of s') = next_of (psys_of m_three) /\
    forall fuel', mutex_unlock 8 s' = Fault F_panic_lock /\ mutex_trylock 8 s' = Fault F_panic_lock /\
      mutex_lock fuel' 8 s' = Fault F_panic_lock.
Proof.
  eapply (mutex_contended_lock_panics 0 8 m_three);
    [|apply three_inv|vm_compute; reflexivity|discriminate|vm_compute; reflexivity|reflexivity
    |vm_compute; discriminate|vm_compute; reflexivity|reflexivity|discriminate|vm_compute; discriminate
    |vm_compute; discriminate|].
  - intros l _. unfold lock_of. simpl. by rewrite lookup_empty.
  - intros n Hn. assert (Hb : match procs (psys_of m_three) !! next_of (psys_of m_three) with
      | Some n => negb (p_cpu_state n =? NULL) | None => true end = true) by (vm_compute; reflexivity).
    rewrite Hn in Hb. by apply negb_true_iff, Z.eqb_neq in Hb.
Defined.
