(* ===== verification/Calendar.v ===== *)
(** * Calendar dates ([sys/kern/kern_time.c], [clock_*])

    The two conversions between seconds since 1970 and a date with its time of
    day, and that they are inverse to each other on the years that the date
    record can hold. *)

From stdpp Require Import base numbers list.
From S2P Require Import Prelude.

Definition POSIX_BASE_YEAR : Z := 1970.
Definition SECDAY : Z := 86400.

Record clock_ymdhms := Dt {
  dt_year : Z; dt_mon : Z; dt_day : Z; dt_wday : Z; dt_hour : Z; dt_min : Z; dt_sec : Z
}.

Definition isleap (year : Z) : bool :=
  (Z.rem year 4 =? 0) && (negb (Z.rem year 100 =? 0) || (Z.rem year 400 =? 0)).
Definition daysperyear (leap : bool) : Z := if leap then 366 else 365.
Definition daysinmonth (leap : bool) : list Z :=
  [31; if leap then 29 else 28; 31; 30; 31; 30; 31; 31; 30; 31; 30; 31].

Section calendar.
Context {S : Type}.

(** [while (1)] over the years. *)
Fixpoint find_year (fuel : nat) (days year : Z) : M S (Z * Z) :=
  match fuel with
  | O => throw F_fuel
  | Datatypes.S fuel =>
      let yeardays := daysperyear (isleap year) in
      if days <? yeardays then ret (days, year) else find_year fuel (days - yeardays) (year + 1)
  end.

(** [for (month = 0; month < 12; month++)], over the row of the table. *)
Fixpoint find_month (row : list Z) (days month : Z) : Z * Z :=
  match row with
  | [] => (days, month)
  | n :: row => if days <? n then (days, month) else find_month row (days - n) (month + 1)
  end.

Definition clock_secs_to_ymdhms (secs : Z) : M S clock_ymdhms :=
  let dt_sec := u8 (Z.rem secs 60) in
  let secs := Z.quot secs 60 in
  let dt_min := u8 (Z.rem secs 60) in
  let secs := Z.quot secs 60 in
  let dt_hour := u8 (Z.rem secs 24) in
  let days := s32 (Z.quot secs 24) in
  let dt_wday := u8 (Z.rem (s32 (days + 4)) 7) in
  r <- find_year (Datatypes.S (Z.to_nat (days / 365))) days POSIX_BASE_YEAR ;;
  let '(days, year) := r in
  let '(days, month) := find_month (daysinmonth (isleap year)) days 0 in
  ret (Dt (u16 year) (u8 (month + 1)) (u8 (days + 1)) dt_wday dt_hour dt_min dt_sec).

Definition clock_ymdhms_to_secs (dt : clock_ymdhms) : M S Z :=
  secs <- for_each POSIX_BASE_YEAR (dt_year dt) 0 (fun year secs =>
    ret (secs + (if isleap year then 366 else 365) * SECDAY)) ;;
  secs <- for_each 0 (dt_mon dt - 1) secs (fun month secs =>
    n <- lift (aread (daysinmonth (isleap (dt_year dt))) month) ;;
    ret (secs + n * SECDAY)) ;;
  ret (secs + (dt_day dt - 1) * SECDAY + dt_hour dt * 3600 + dt_min dt * 60 + dt_sec dt).
End calendar.

(** ** The Gregorian calendar *)

(** The days before the first of January of [y], counted from 1970: one day in
    four years, none in a hundred, one in four hundred. *)
Definition year_start (y : Z) : Z := 365 * (y - 1970) + (y - 1969) / 4 - (y - 1901) / 100 + (y - 1601) / 400.

(** The days before month [m] (from 0) of its year. *)
Definition month_start (leap : bool) (m : Z) : Z := foldr Z.add 0 (take (Z.to_nat m) (daysinmonth leap)).

Definition month_days (leap : bool) (m : Z) : Z := daysinmonth leap !!! Z.to_nat m.

Definition day_number (dt : clock_ymdhms) : Z :=
  year_start (dt_year dt) + month_start (isleap (dt_year dt)) (dt_mon dt - 1) + (dt_day dt - 1).

Record valid_date (dt : clock_ymdhms) : Prop := {
  vd_year : 1970 <= dt_year dt < 2 ^ 16;
  vd_mon : 1 <= dt_mon dt <= 12;
  vd_day : 1 <= dt_day dt <= month_days (isleap (dt_year dt)) (dt_mon dt - 1);
  vd_wday : dt_wday dt = (day_number dt + 4) mod 7;
  vd_hour : 0 <= dt_hour dt < 24;
  vd_min : 0 <= dt_min dt < 60;
  vd_sec : 0 <= dt_sec dt < 60
}.

Definition date_secs (dt : clock_ymdhms) : Z :=
  day_number dt * 86400 + dt_hour dt * 3600 + dt_min dt * 60 + dt_sec dt.

(** The first second that the year of a [clock_ymdhms] cannot tell. *)
Definition calendar_end : Z := year_start (2 ^ 16) * 86400.

Lemma year_start_succ y : 1970 <= y -> year_start (y + 1) = year_start y + daysperyear (isleap y).
Proof.
  intros Hy. unfold year_start, daysperyear, isleap. rewrite !Z.rem_mod_nonneg by lia.
  destruct (Z.eqb_spec (y mod 4) 0), (Z.eqb_spec (y mod 100) 0), (Z.eqb_spec (y mod 400) 0); simpl; dlia.
Qed.

Lemma daysperyear_bounds l : 365 <= daysperyear l <= 366.
Proof. destruct l; simpl; lia. Qed.

Lemma year_start_le y y' : 1970 <= y -> y <= y' -> year_start y + 365 * (y' - y) <= year_start y'.
Proof.
  intros Hy. revert y'. apply (Zlt_lower_bound_ind _ y). intros y' IH Hle.
  destruct (decide (y' = y)) as [->|Hne]; [lia|].
  replace y' with (y' - 1 + 1) at 2 by lia. rewrite year_start_succ by lia.
  pose proof (daysperyear_bounds (isleap (y' - 1))). specialize (IH (y' - 1)). lia.
Qed.

(** Every day lies in a year, and in a month of it. *)
Lemma day_in_year n : 0 <= n -> exists y d, 1970 <= y /\ n = year_start y + d /\ 0 <= d < daysperyear (isleap y).
Proof.
  revert n. apply (Zlt_lower_bound_ind _ 0). intros n IH Hn.
  destruct (decide (n = 0)) as [->|Hne]; [by exists 1970, 0|].
  destruct (IH (n - 1)) as (y & d & Hy & Hd & Hb); [lia|].
  destruct (decide (d + 1 < daysperyear (isleap y))); [exists y, (d + 1); lia|].
  exists (y + 1), 0. rewrite year_start_succ by lia. pose proof (daysperyear_bounds (isleap (y + 1))). lia.
Qed.

Lemma day_in_month leap d : 0 <= d < daysperyear leap ->
  exists m e, 0 <= m < 12 /\ d = month_start leap m + e /\ 0 <= e < month_days leap m.
Proof.
  intros Hd.
  assert (Hs : forall row n, 0 <= n < foldr Z.add 0 row ->
    exists m e, (m < length row)%nat /\ n = foldr Z.add 0 (take m row) + e /\ 0 <= e < row !!! m).
  { clear. induction row as [|x row IH]; intros n Hn; simpl in Hn; [lia|].
    destruct (decide (n < x)); [exists 0%nat, n; simpl; lia|].
    destruct (IH (n - x)) as (m & e & Hm & He & Hb); [lia|]. exists (S m), e. simpl. lia. }
  destruct (Hs (daysinmonth leap) d) as (m & e & Hm & He & Hb); [destruct leap; simpl in *; lia|].
  exists (Z.of_nat m), e. unfold month_start, month_days. rewrite Nat2Z.id. destruct leap; simpl in Hm; lia.
Qed.

Lemma month_within leap m e : 0 <= m < 12 -> 0 <= e < month_days leap m ->
  month_days leap m <= 31 /\ 0 <= month_start leap m + e < daysperyear leap.
Proof.
  intros Hm. unfold month_days, month_start. assert (Hi : (Z.to_nat m < 12)%nat) by lia. revert Hi.
  generalize (Z.to_nat m) as i. intros i. do 12 (destruct i as [|i]; [destruct leap; simpl; lia|]). lia.
Qed.

(** ** The loops compute them *)

Section loops.
Context {S : Type}.
Implicit Types s : S.

Lemma find_year_spec fuel b y d s :
  1970 <= b <= y -> 0 <= d < daysperyear (isleap y) ->
  (year_start y + d - year_start b < 365 * Z.of_nat fuel) ->
  find_year fuel (year_start y + d - year_start b) b s = Ok ((d, y), s).
Proof.
  revert b. induction fuel as [|fuel IH]; intros b Hb Hd Hf; [pose proof (year_start_le b y); lia|].
  cbn [find_year]. destruct (Z.ltb_spec (year_start y + d - year_start b) (daysperyear (isleap b))) as [Hlt|Hge].
  - destruct (decide (b = y)) as [->|Hne].
    + by replace (year_start y + d - year_start y) with d by lia.
    + pose proof (year_start_le (b + 1) y). rewrite year_start_succ in * by lia. lia.
  - assert (b <> y) by (intros ->; lia). rewrite <- (IH (b + 1)); [|lia|done|].
    + f_equal; rewrite year_start_succ by lia; lia.
    + rewrite year_start_succ by lia. pose proof (daysperyear_bounds (isleap b)). lia.
Qed.

Lemma find_month_spec leap m e :
  0 <= m < 12 -> 0 <= e < month_days leap m ->
  find_month (daysinmonth leap) (month_start leap m + e) 0 = (e, m).
Proof.
  intros Hm He. unfold month_start, month_days in *.
  assert (Hg : forall row i k, Forall (fun n => 0 <= n) row -> (i < length row)%nat -> 0 <= e < row !!! i ->
    find_month row (foldr Z.add 0 (take i row) + e) k = (e, k + Z.of_nat i)).
  { clear. induction row as [|x row IH]; intros i k Hp Hi He; simpl in *; [lia|].
    apply Forall_cons in Hp as [Hx Hp]. destruct i as [|i]; simpl in *.
    - rewrite Z.add_0_l, (proj2 (Z.ltb_lt e x)) by lia. by rewrite Z.add_0_r.
    - assert (Hs : 0 <= foldr Z.add 0 (take i row)).
      { clear -Hp. revert i. induction Hp; intros [|i]; simpl; [lia..|]. specialize (IHHp i). lia. }
      destruct (Z.ltb_spec (x + foldr Z.add 0 (take i row) + e) x); [lia|].
      replace (x + foldr Z.add 0 (take i row) + e - x) with (foldr Z.add 0 (take i row) + e) by lia.
      rewrite IH by (done || lia). by replace (k + 1 + Z.of_nat i) with (k + Z.of_nat (Datatypes.S i)) by lia. }
  rewrite Hg; [by rewrite Z2Nat.id by lia|destruct leap; repeat constructor; lia|destruct leap; simpl; lia|done].
Qed.

Lemma date_to_secs dt s : valid_date dt -> clock_ymdhms_to_secs dt s = Ok (date_secs dt, s).
Proof.
  intros [Hy Hm Hd _ Hh Hmi Hs]. unfold clock_ymdhms_to_secs.
  assert (Hw : wp (clock_ymdhms_to_secs dt) (fun r s' => r = date_secs dt /\ s' = s) s); [|
    apply wp_run in Hw as (? & ? & Hr & -> & ->); exact Hr].
  unfold clock_ymdhms_to_secs. apply wp_bind. eapply wp_mono.
  { apply (wp_for_each (fun y secs s' => secs = year_start y * SECDAY /\ s' = s)); [done|].
    intros y secs s' Hb [-> ->]. apply wp_ret. split; [|done].
    rewrite year_start_succ by (unfold POSIX_BASE_YEAR in *; lia). unfold daysperyear. destruct (isleap y); lia. }
  intros secs s' [-> ->]. apply wp_bind. eapply wp_mono.
  { apply (wp_for_each (fun m secs s' => secs = (year_start (dt_year dt) + month_start (isleap (dt_year dt)) m) * SECDAY
      /\ s' = s)); [split; [|done]; unfold POSIX_BASE_YEAR; rewrite Z.max_r by lia; unfold month_start; simpl; lia|].
    intros m secs s' Hb [-> ->]. set (row := daysinmonth (isleap (dt_year dt))).
    assert (Hlen : length row = 12%nat) by (by destruct (isleap (dt_year dt))).
    destruct (lookup_lt_is_Some_2 row (Z.to_nat m)) as [n Hn]; [lia|].
    apply wp_bind, (wp_lift _ n); [unfold aread; rewrite decide_True by lia; by rewrite Hn|]. apply wp_ret. split; [|done].
    unfold month_start. fold row. replace (Z.to_nat (m + 1)) with (Datatypes.S (Z.to_nat m)) by lia.
    rewrite (take_S_r _ _ n Hn), foldr_app. simpl.
    assert (Hacc : forall l a, foldr Z.add a l = foldr Z.add 0 l + a) 
      by (induction l as [|x l IH]; intros a; simpl; [lia|rewrite IH; lia]).
    rewrite (Hacc _ (n + 0)). lia. }
  intros secs s' [-> ->]. apply wp_ret. split; [|done].
  unfold date_secs, day_number, SECDAY. rewrite Z.max_r by lia. lia.
Qed.

Lemma valid_date_day_bounds dt : valid_date dt ->
  0 <= month_start (isleap (dt_year dt)) (dt_mon dt - 1) + (dt_day dt - 1) < daysperyear (isleap (dt_year dt)) /\
  0 <= day_number dt < year_start (2 ^ 16) /\ dt_day dt <= 31.
Proof.
  intros [Hy Hm Hd _ _ _ _]. unfold day_number.
  destruct (month_within (isleap (dt_year dt)) (dt_mon dt - 1) (dt_day dt - 1)) as [Hmax Hb]; [lia..|].
  pose proof (year_start_le 1970 (dt_year dt)) as Hlo. pose proof (year_start_le (dt_year dt + 1) (2 ^ 16)) as Hhi.
  rewrite year_start_succ in Hhi by lia. change (year_start 1970) with 0 in Hlo. lia.
Qed.

Lemma time_of_day n h m c : 0 <= n -> 0 <= h < 24 -> 0 <= m < 60 -> 0 <= c < 60 ->
  let t := n * 86400 + h * 3600 + m * 60 + c in
  Z.rem t 60 = c /\ Z.rem (Z.quot t 60) 60 = m /\ Z.rem (Z.quot (Z.quot t 60) 60) 24 = h /\
  Z.quot (Z.quot (Z.quot t 60) 60) 24 = n.
Proof.
  intros Hn Hh Hm Hc t.
  assert (Hq1 : Z.quot t 60 = n * 1440 + h * 60 + m) by (rewrite Z.quot_div_nonneg by lia; dlia).
  assert (Hq2 : Z.quot (Z.quot t 60) 60 = n * 24 + h) by (rewrite Hq1, Z.quot_div_nonneg by lia; dlia).
  rewrite Hq2, Hq1, !Z.rem_mod_nonneg, Z.quot_div_nonneg by lia. split_and!; dlia.
Qed.

Lemma secs_to_date dt s : valid_date dt -> clock_secs_to_ymdhms (date_secs dt) s = Ok (dt, s).
Proof.
  intros Hv. destruct (valid_date_day_bounds dt Hv) as (Hd' & Hn & H31). destruct Hv as [Hy Hm Hd Hw Hh Hmi Hs].
  assert (Hmax : year_start (2 ^ 16) < 2 ^ 31 - 4) by (by vm_compute).
  destruct (time_of_day (day_number dt) (dt_hour dt) (dt_min dt) (dt_sec dt)) as (Hr1 & Hr2 & Hr3 & Hq); [lia..|].
  fold (date_secs dt) in Hr1, Hr2, Hr3, Hq.
  unfold clock_secs_to_ymdhms. rewrite Hr1, Hr2, Hr3, Hq.
  assert (Hn31 : 0 <= day_number dt < 2 ^ 31 - 4) by (split; [lia|]; etrans; [apply Hn|done]).
  rewrite (s32_id (day_number dt)), (s32_id (day_number dt + 4)) by lia. rewrite (Z.rem_mod_nonneg (day_number dt + 4) 7), <- Hw by lia.
  set (d := month_start (isleap (dt_year dt)) (dt_mon dt - 1) + (dt_day dt - 1)) in *.
  assert (Hsplit : day_number dt = year_start (dt_year dt) + d - year_start 1970)
    by (unfold d, day_number; change (year_start 1970) with 0; lia).
  unfold bind, POSIX_BASE_YEAR. rewrite Hsplit at 2.
  rewrite find_year_spec; [|lia|done|rewrite <- Hsplit, Nat2Z.inj_succ, Z2Nat.id by dlia; dlia].
  unfold d. rewrite find_month_spec by lia. unfold ret, u16, u8.
  assert (0 <= dt_wday dt < 7) by (rewrite Hw; dlia).
  rewrite !Z.mod_small, !Z.sub_add by lia. by destruct dt.
Qed.

Lemma secs_have_date t : 0 <= t < calendar_end -> exists dt, valid_date dt /\ date_secs dt = t.
Proof.
  unfold calendar_end. intros Ht.
  destruct (day_in_year (t / 86400)) as (y & d & Hy & Hyd & Hd); [dlia|].
  destruct (day_in_month (isleap y) d Hd) as (m & e & Hm & Hme & He).
  exists (Dt y (m + 1) (e + 1) ((t / 86400 + 4) mod 7) (t / 3600 mod 24) (t / 60 mod 60) (t mod 60)).
  assert (Hdn : year_start y + month_start (isleap y) m + e = t / 86400) by lia.
  assert (Hend : y < 2 ^ 16).
  { destruct (decide (y < 2 ^ 16)) as [|Hge]; [done|]. pose proof (year_start_le (2 ^ 16) y). dlia. }
  split; [constructor|unfold date_secs, day_number]; simpl;
    rewrite ?Z.add_simpl_r; unfold day_number; simpl; rewrite ?Z.add_simpl_r, ?Hdn; dlia.
Qed.
End loops.

(** C32: The two conversions are inverse: every second from 1970 to the end of
    year 65535 has a valid date of the Gregorian calendar, which
    [clock_secs_to_ymdhms] computes (its loop over the years ends) and
    [clock_ymdhms_to_secs] takes back; every valid date comes back from its
    seconds, which are those of the closed formula [date_secs]. *)
Theorem clock_conversions_inverse {S : Type} (s : S) :
  (forall t, 0 <= t < calendar_end -> exists dt, clock_secs_to_ymdhms t s = Ok (dt, s) /\
     valid_date dt /\ clock_ymdhms_to_secs dt s = Ok (t, s)) /\
  (forall dt, valid_date dt -> clock_ymdhms_to_secs dt s = Ok (date_secs dt, s) /\
     clock_secs_to_ymdhms (date_secs dt) s = Ok (dt, s)).
Proof.
  split.
  - intros t Ht. destruct (secs_have_date t Ht) as (dt & Hv & <-). exists dt.
    by rewrite secs_to_date, date_to_secs.
  - intros dt Hv. by rewrite secs_to_date, date_to_secs.
Qed.

(** The leap day of 2024, a Thursday. *)
Example leap_day_2024 : clock_secs_to_ymdhms (S := unit) 1709210096 tt = Ok (Dt 2024 2 29 4 12 34 56, tt).
Proof. by vm_compute. Qed.
