(* ===== verification/Pic.v ===== *)
(** * I/O ports and the interrupt controller ([amd64/include/io.h], [amd64/cpu/pic.c])

    What a device does with an access to an I/O port is a parameter of the
    model, an instance of [Ports].  [Pic8259] states what the two 8259 chips
    promise for their mask registers. *)

From stdpp Require Import base numbers list.
From S2P Require Import Prelude Bitmap.

Class Ports (H : Type) := {
  port_out : Z -> Z -> H -> H;
  port_in : Z -> H -> Z * H
}.

Definition PIC1_COMMAND : Z := 0x20.
Definition PIC1_DATA : Z := 0x21.
Definition PIC2_COMMAND : Z := 0xA0.
Definition PIC2_DATA : Z := 0xA1.
Definition PIC_EOI : Z := 0x20.
Definition PIC_READ_IRR : Z := 0x0A.
Definition PIC_READ_ISR : Z := 0x0B.
Definition ICW1_ICW4 : Z := 0x01.
Definition ICW1_INIT : Z := 0x10.
Definition ICW4_8086 : Z := 0x01.
Definition PIC1_OFFSET : Z := 0x20.
Definition PIC2_OFFSET : Z := 0x28.

Section pic.
Context {H : Type} `{Ports H}.

Definition outb (port value : Z) : M H unit := modify (port_out port value).
Definition inb (port : Z) : M H Z := fun h => Ok (port_in port h).
Definition io_wait : M H unit := outb 0x80 0.

Definition pic_remap (offset1 offset2 : Z) : M H unit :=
  mask1 <- inb PIC1_DATA ;;
  mask2 <- inb PIC2_DATA ;;
  outb PIC1_COMMAND (Z.lor ICW1_INIT ICW1_ICW4) ;;; io_wait ;;;
  outb PIC2_COMMAND (Z.lor ICW1_INIT ICW1_ICW4) ;;; io_wait ;;;
  outb PIC1_DATA offset1 ;;; io_wait ;;;
  outb PIC2_DATA offset2 ;;; io_wait ;;;
  outb PIC1_DATA 0x04 ;;; io_wait ;;;
  outb PIC2_DATA 0x02 ;;; io_wait ;;;
  outb PIC1_DATA ICW4_8086 ;;; io_wait ;;;
  outb PIC2_DATA ICW4_8086 ;;; io_wait ;;;
  outb PIC1_DATA mask1 ;;;
  outb PIC2_DATA mask2.

Definition pic_init : M H unit := pic_remap PIC1_OFFSET PIC2_OFFSET.

Definition pic_send_eoi (irq : Z) : M H unit :=
  (if 8 <=? irq then outb PIC2_COMMAND PIC_EOI else ret tt) ;;;
  outb PIC1_COMMAND PIC_EOI.

(** The port and the bit of an interrupt line. *)
Definition irq_port (irq : Z) : Z * Z := if irq <? 8 then (PIC1_DATA, irq) else (PIC2_DATA, irq - 8).

Definition pic_set_mask (irq : Z) : M H unit :=
  let '(port, irq) := irq_port irq in
  v <- inb port ;;
  outb port (u8 (Z.lor v (Z.shiftl 1 irq))).

Definition pic_clear_mask (irq : Z) : M H unit :=
  let '(port, irq) := irq_port irq in
  v <- inb port ;;
  outb port (u8 (Z.land v (Z.lnot (Z.shiftl 1 irq)))).

Definition pic_get_mask : M H Z :=
  hi <- inb PIC2_DATA ;;
  lo <- inb PIC1_DATA ;;
  ret (u16 (Z.lor (Z.shiftl hi 8) lo)).

Definition pic_set_full_mask (mask : Z) : M H unit :=
  outb PIC1_DATA (Z.land mask 0xFF) ;;;
  outb PIC2_DATA (Z.land (Z.shiftr mask 8) 0xFF).

Definition pic_get_irr : M H Z :=
  outb PIC1_COMMAND PIC_READ_IRR ;;;
  outb PIC2_COMMAND PIC_READ_IRR ;;;
  hi <- inb PIC2_COMMAND ;;
  lo <- inb PIC1_COMMAND ;;
  ret (u16 (Z.lor (Z.shiftl hi 8) lo)).

Definition pic_get_isr : M H Z :=
  outb PIC1_COMMAND PIC_READ_ISR ;;;
  outb PIC2_COMMAND PIC_READ_ISR ;;;
  hi <- inb PIC2_COMMAND ;;
  lo <- inb PIC1_COMMAND ;;
  ret (u16 (Z.lor (Z.shiftl hi 8) lo)).

Definition pic_disable : M H unit := outb PIC1_DATA 0xFF ;;; outb PIC2_DATA 0xFF.
End pic.

(** ** The mask registers

    Outside of an initialisation sequence a data port holds the mask of its
    chip: a byte that reads back as it was written. *)
Class Pic8259 (H : Type) `{Ports H} := {
  pic_mask1 : H -> Z;
  pic_mask2 : H -> Z;
  pic_bytes h : byte_ok (pic_mask1 h) /\ byte_ok (pic_mask2 h);
  pic_in1 h : exists h', port_in PIC1_DATA h = (pic_mask1 h, h') /\ pic_mask1 h' = pic_mask1 h /\ pic_mask2 h' = pic_mask2 h;
  pic_in2 h : exists h', port_in PIC2_DATA h = (pic_mask2 h, h') /\ pic_mask1 h' = pic_mask1 h /\ pic_mask2 h' = pic_mask2 h;
  pic_out1 v h : byte_ok v -> pic_mask1 (port_out PIC1_DATA v h) = v /\ pic_mask2 (port_out PIC1_DATA v h) = pic_mask2 h;
  pic_out2 v h : byte_ok v -> pic_mask2 (port_out PIC2_DATA v h) = v /\ pic_mask1 (port_out PIC2_DATA v h) = pic_mask1 h
}.

(** Interrupt line [irq] is masked. *)
Definition irq_masked {H : Type} `{Pic8259 H} (h : H) (irq : Z) : bool :=
  if irq <? 8 then Z.testbit (pic_mask1 h) irq else Z.testbit (pic_mask2 h) (irq - 8).

Section masks.
Context {H : Type} `{Pic8259 H}.

Lemma lor_bit v i k : 0 <= i < 8 -> 0 <= k < 8 ->
  Z.testbit (u8 (Z.lor v (Z.shiftl 1 i))) k = if decide (k = i) then true else Z.testbit v k.
Proof.
  intros Hi Hk. rewrite u8_testbit, Z.lor_spec, Z.shiftl_1_l by done. case_decide as Hd.
  - by rewrite Hd, Z.pow2_bits_true, orb_true_r by lia.
  - by rewrite Z.pow2_bits_false, orb_false_r by lia.
Qed.

Lemma ldiff_bit v i k : 0 <= i < 8 -> 0 <= k < 8 ->
  Z.testbit (u8 (Z.land v (Z.lnot (Z.shiftl 1 i)))) k = if decide (k = i) then false else Z.testbit v k.
Proof.
  intros Hi Hk. rewrite u8_testbit, Z.land_spec, Z.lnot_spec, Z.shiftl_1_l by lia. case_decide as Hd.
  - by rewrite Hd, Z.pow2_bits_true, andb_false_r by lia.
  - by rewrite Z.pow2_bits_false, andb_true_r by lia.
Qed.

(** A read-modify-write of one mask register. *)
Lemma mask_rmw (f : Z -> Z -> Z) irq (b : bool) (h : H) :
  0 <= irq < 16 -> (forall v i, byte_ok (f v i)) ->
  (forall v i k, 0 <= i < 8 -> 0 <= k < 8 -> Z.testbit (f v i) k = if decide (k = i) then b else Z.testbit v k) ->
  wp (let '(port, i) := irq_port irq in v <- inb port ;; outb port (f v i)) (fun _ h' =>
    forall j, 0 <= j < 16 -> irq_masked h' j = if decide (j = irq) then b else irq_masked h j) h.
Proof.
  intros Hi Hb Hf. unfold irq_port, irq_masked. destruct (Z.ltb_spec irq 8) as [Hlt|Hge].
  - destruct (pic_in1 h) as (h1 & Hin & Hm1 & Hm2). apply wp_bind, (wp_eq _ _ _ _ _ (f_equal Ok Hin)), wp_modify.
    intros j Hj. destruct (pic_out1 (f (pic_mask1 h) irq) h1 (Hb _ _)) as [-> ->]. rewrite Hm2.
    destruct (Z.ltb_spec j 8); [by rewrite Hf by lia|]. by rewrite decide_False by lia.
  - destruct (pic_in2 h) as (h1 & Hin & Hm1 & Hm2). apply wp_bind, (wp_eq _ _ _ _ _ (f_equal Ok Hin)), wp_modify.
    intros j Hj. destruct (pic_out2 (f (pic_mask2 h) (irq - 8)) h1 (Hb _ _)) as [-> ->]. rewrite Hm1.
    destruct (Z.ltb_spec j 8); [by rewrite decide_False by lia|]. rewrite Hf by lia.
    repeat case_decide; done || lia.
Qed.

(** Masking or unmasking one of the sixteen interrupt lines changes that
    line and no other, on whichever chip it is. *)
Theorem pic_mask_one_line irq (h : H) : 0 <= irq < 16 ->
  (exists h', pic_set_mask irq h = Ok (tt, h') /\
     forall j, 0 <= j < 16 -> irq_masked h' j = if decide (j = irq) then true else irq_masked h j) /\
  (exists h', pic_clear_mask irq h = Ok (tt, h') /\
     forall j, 0 <= j < 16 -> irq_masked h' j = if decide (j = irq) then false else irq_masked h j).
Proof.
  intros Hi. split.
  - destruct (proj1 (wp_run _ _ _) (mask_rmw (fun v i => u8 (Z.lor v (Z.shiftl 1 i))) irq true h Hi
      (fun _ _ => u8_ok _) lor_bit)) as ([] & h' & Hr & HQ). by exists h'.
  - destruct (proj1 (wp_run _ _ _) (mask_rmw (fun v i => u8 (Z.land v (Z.lnot (Z.shiftl 1 i)))) irq false h Hi
      (fun _ _ => u8_ok _) ldiff_bit)) as ([] & h' & Hr & HQ). by exists h'.
Qed.
End masks.
