(* ===== verification/Rtc.v ===== *)
(** * The real-time clock ([amd64/cpu/rtc.c])

    The clock chip is reached through two I/O ports.  [rtc_get_time] reads its
    registers until two readings agree; [rtc_set_time] stops the updates and
    writes them.  The state is the static variables of [rtc.c] and the
    hardware behind the ports.  [wait] bounds the polls of
    [rtc_wait_for_update], which the code does not bound. *)

From stdpp Require Import base numbers list gmap.
From S2P Require Import Prelude Pic.

Definition RTC_ADDR_PORT : Z := 0x70.
Definition RTC_DATA_PORT : Z := 0x71.
Definition RTC_REG_SECONDS : Z := 0x00.
Definition RTC_REG_MINUTES : Z := 0x02.
Definition RTC_REG_HOURS : Z := 0x04.
Definition RTC_REG_WEEKDAY : Z := 0x06.
Definition RTC_REG_DAY : Z := 0x07.
Definition RTC_REG_MONTH : Z := 0x08.
Definition RTC_REG_YEAR : Z := 0x09.
Definition RTC_REG_CENTURY : Z := 0x32.
Definition RTC_REG_STATUS_A : Z := 0x0A.
Definition RTC_REG_STATUS_B : Z := 0x0B.
Definition RTC_REG_STATUS_C : Z := 0x0C.
Definition RTC_STATUS_A_UIP : Z := 0x80.
Definition RTC_STATUS_B_SET : Z := 0x80.
Definition RTC_STATUS_B_PIE : Z := 0x40.
Definition RTC_STATUS_B_AIE : Z := 0x20.
Definition RTC_STATUS_B_UIE : Z := 0x10.
Definition RTC_STATUS_B_DM : Z := 0x04.
Definition RTC_STATUS_B_24H : Z := 0x02.
Definition RTC_NMI_DISABLE : Z := 0x80.
Definition IRQ_RTC : Z := 8.

Record rtc_time := RtcTime {
  second : Z; minute : Z; hour : Z; day : Z; month : Z; year : Z; weekday : Z
}.

(** The rows of [timezone_table], without the names. *)
Record timezone_info := Tz { offset_seconds : Z; dst_offset_seconds : Z; has_dst : bool }.
Definition TZ_UTC : Z := 0.
Definition TZ_CET : Z := 1.
Definition TZ_EST : Z := 2.
Definition TZ_PST : Z := 3.
Definition TZ_JST : Z := 4.
Definition TZ_AEST : Z := 5.
Definition timezone_table : list timezone_info :=
  [Tz 0 0 false; Tz 3600 7200 true; Tz (-18000) (-14400) true; Tz (-28800) (-25200) true;
   Tz 32400 32400 false; Tz 36000 39600 true].

Record rtc (H : Type) := Rtc {
  rtc_periodic_handler : Z;
  current_timezone : Z;
  interrupt_handlers : gmap Z Z;
  r_hw : H
}.
Arguments Rtc {H}.
Arguments rtc_periodic_handler {H}.
Arguments current_timezone {H}.
Arguments interrupt_handlers {H}.
Arguments r_hw {H}.

Definition set_hw {H : Type} (h : H) (s : rtc H) : rtc H :=
  Rtc (rtc_periodic_handler s) (current_timezone s) (interrupt_handlers s) h.
Definition set_handler {H : Type} (f : Z) (s : rtc H) : rtc H :=
  Rtc f (current_timezone s) (interrupt_handlers s) (r_hw s).
Definition set_tz {H : Type} (tz : Z) (s : rtc H) : rtc H :=
  Rtc (rtc_periodic_handler s) tz (interrupt_handlers s) (r_hw s).

Definition bcd_to_binary (bcd : Z) : Z := u8 (Z.shiftr bcd 4 * 10 + Z.land bcd 0x0F).
Definition binary_to_bcd (binary : Z) : Z := u8 (Z.lor (Z.shiftl (binary / 10) 4) (binary mod 10)).

Definition is_leap_year (year : Z) : bool :=
  ((year mod 4 =? 0) && negb (year mod 100 =? 0)) || (year mod 400 =? 0).

Definition month_table : list Z := [31; 28; 31; 30; 31; 30; 31; 31; 30; 31; 30; 31].
Definition days_in_month (month year : Z) : Z :=
  if (month <? 1) || (12 <? month) then 0
  else if (month =? 2) && is_leap_year year then 29
  else month_table !!! Z.to_nat (month - 1).

Definition is_dst_europe (t : rtc_time) : bool :=
  if (month t <? 3) || (10 <? month t) then false
  else if (3 <? month t) && (month t <? 10) then true
  else if month t =? 3 then 25 <=? day t else day t <? 25.

Definition is_dst_us (t : rtc_time) : bool :=
  if (month t <? 3) || (11 <? month t) then false
  else if (3 <? month t) && (month t <? 11) then true
  else if month t =? 3 then 8 <=? day t else day t <? 7.

Definition is_dst_australia (t : rtc_time) : bool :=
  if (month t <? 4) || (9 <? month t) then true
  else if (4 <? month t) && (month t <? 10) then false
  else if month t =? 10 then 1 <=? day t else day t <? 7.

Definition needs_dst (tz : Z) (t : rtc_time) : res bool :=
  match aread timezone_table tz with
  | Fault f => Fault f
  | Ok row =>
      Ok (if negb (has_dst row) then false
          else if tz =? TZ_CET then is_dst_europe t
          else if (tz =? TZ_EST) || (tz =? TZ_PST) then is_dst_us t
          else if tz =? TZ_AEST then is_dst_australia t
          else false)
  end.

Definition get_timezone_offset (tz : Z) (t : rtc_time) : res Z :=
  match needs_dst tz t, aread timezone_table tz with
  | Ok dst, Ok row => Ok (if dst then dst_offset_seconds row else offset_seconds row)
  | Fault f, _ | _, Fault f => Fault f
  end.

(** The readings of the registers of one round. *)
Record reading := Reading {
  rd_second : Z; rd_minute : Z; rd_hour : Z; rd_day : Z; rd_month : Z; rd_year : Z
}.
#[global] Instance reading_eq_dec : EqDecision reading.
Proof. solve_decision. Defined.

Section rtc.
Context {H : Type} `{Ports H}.
Abbreviation K := (M (rtc H)).

Definition io {A : Type} (m : M H A) : K A := fun s =>
  match m (r_hw s) with
  | Ok (a, h) => Ok (a, set_hw h s)
  | Fault f => Fault f
  end.

(** On the hardware alone. *)
Definition read_reg (reg : Z) : M H Z :=
  outb RTC_ADDR_PORT (Z.lor RTC_NMI_DISABLE reg) ;;;
  io_wait ;;;
  inb RTC_DATA_PORT.

Definition write_reg (reg value : Z) : M H unit :=
  outb RTC_ADDR_PORT (Z.lor RTC_NMI_DISABLE reg) ;;;
  io_wait ;;;
  outb RTC_DATA_PORT value ;;;
  io_wait.

Definition rtc_read_register (reg : Z) : K Z := io (read_reg reg).
Definition rtc_write_register (reg value : Z) : K unit := io (write_reg reg value).

Fixpoint wait_loop (wait : nat) : M H unit :=
  match wait with
  | O => throw F_spin
  | S wait =>
      a <- read_reg RTC_REG_STATUS_A ;;
      if negb (Z.land a RTC_STATUS_A_UIP =? 0) then wait_loop wait else ret tt
  end.
Definition rtc_wait_for_update (wait : nat) : K unit := io (wait_loop wait).

Definition rtc_is_binary_mode : K bool :=
  status_b <- rtc_read_register RTC_REG_STATUS_B ;;
  ret (negb (Z.land status_b RTC_STATUS_B_DM =? 0)).

Definition rtc_is_24hour_mode : K bool :=
  status_b <- rtc_read_register RTC_REG_STATUS_B ;;
  ret (negb (Z.land status_b RTC_STATUS_B_24H =? 0)).

(** The handler that the interrupt calls, [NULL] for none. *)
Definition rtc_interrupt_handler : K Z :=
  rtc_read_register RTC_REG_STATUS_C ;;;
  f <- gets rtc_periodic_handler ;;
  io (pic_send_eoi IRQ_RTC) ;;;
  ret f.

(** [handler] is the address of [rtc_interrupt_handler]. *)
Definition rtc_init (handler : Z) : K unit :=
  status_b <- rtc_read_register RTC_REG_STATUS_B ;;
  let status_b := u8 (Z.lor status_b RTC_STATUS_B_24H) in
  let status_b := u8 (Z.lor status_b RTC_STATUS_B_DM) in
  let status_b := u8 (Z.land status_b
    (Z.lnot (Z.lor (Z.lor RTC_STATUS_B_PIE RTC_STATUS_B_AIE) RTC_STATUS_B_UIE))) in
  rtc_write_register RTC_REG_STATUS_B status_b ;;;
  rtc_read_register RTC_REG_STATUS_C ;;;
  modify (fun s => Rtc (rtc_periodic_handler s) (current_timezone s)
    (<[u8 (32 + IRQ_RTC) := handler]> (interrupt_handlers s)) (r_hw s)).

Definition read_six : K reading :=
  second <- rtc_read_register RTC_REG_SECONDS ;;
  minute <- rtc_read_register RTC_REG_MINUTES ;;
  hour <- rtc_read_register RTC_REG_HOURS ;;
  day <- rtc_read_register RTC_REG_DAY ;;
  month <- rtc_read_register RTC_REG_MONTH ;;
  year <- rtc_read_register RTC_REG_YEAR ;;
  ret (Reading second minute hour day month year).

(** The loop of [rtc_get_time]: [attempts] more rounds before it gives up. *)
Fixpoint read_stable (wait attempts : nat) : K (option (reading * Z)) :=
  match attempts with
  | O => ret None
  | S attempts =>
      rtc_wait_for_update wait ;;;
      now <- read_six ;;
      century <- rtc_read_register RTC_REG_CENTURY ;;
      rtc_wait_for_update wait ;;;
      last <- read_six ;;
      if decide (now = last) then ret (Some (now, century)) else read_stable wait attempts
  end.

(** [None] is the result -1. *)
Definition rtc_get_time (wait : nat) (time : Z) : K (option rtc_time) :=
  if time =? NULL then ret None
  else
    is_binary <- rtc_is_binary_mode ;;
    is_24h <- rtc_is_24hour_mode ;;
    r <- read_stable wait 101 ;;
    match r with
    | None => ret None
    | Some (Reading second minute hour day month year, century) =>
        let conv x := if is_binary then x else bcd_to_binary x in
        let hour := conv hour in
        let hour :=
          if negb is_24h && negb (Z.land hour 0x80 =? 0)
          then u8 ((Z.land hour 0x7F + 12) mod 24) else hour in
        weekday <- rtc_read_register RTC_REG_WEEKDAY ;;
        ret (Some (RtcTime (conv second) (conv minute) hour (conv day) (conv month)
          (u16 (conv century * 100 + conv year)) weekday))
    end.

Definition rtc_time_ok (t : rtc_time) : bool :=
  negb ((59 <? second t) || (59 <? minute t) || (23 <? hour t) || (day t =? 0) || (31 <? day t) ||
    (month t =? 0) || (12 <? month t) || (year t <? 1970) || (2099 <? year t)).

(** [time] is the structure behind the pointer; [true] is the result 0. *)
Definition rtc_set_time (time : option rtc_time) : K bool :=
  match time with
  | None => ret false
  | Some t =>
      if negb (rtc_time_ok t) then ret false
      else
        is_binary <- rtc_is_binary_mode ;;
        let conv x := if is_binary then x else binary_to_bcd x in
        status_b <- rtc_read_register RTC_REG_STATUS_B ;;
        rtc_write_register RTC_REG_STATUS_B (Z.lor status_b RTC_STATUS_B_SET) ;;;
        rtc_write_register RTC_REG_SECONDS (conv (second t)) ;;;
        rtc_write_register RTC_REG_MINUTES (conv (minute t)) ;;;
        rtc_write_register RTC_REG_HOURS (conv (hour t)) ;;;
        rtc_write_register RTC_REG_DAY (conv (day t)) ;;;
        rtc_write_register RTC_REG_MONTH (conv (month t)) ;;;
        rtc_write_register RTC_REG_YEAR (conv (u8 (year t mod 100))) ;;;
        rtc_write_register RTC_REG_CENTURY (conv (u8 (year t / 100))) ;;;
        rtc_write_register RTC_REG_STATUS_B status_b ;;;
        ret true
  end.

Definition rtc_enable_periodic_interrupt (rate handler : Z) : K bool :=
  if 0x0F <? rate then ret false
  else
    modify (set_handler handler) ;;;
    status_a <- rtc_read_register RTC_REG_STATUS_A ;;
    rtc_write_register RTC_REG_STATUS_A (Z.lor (Z.land status_a 0xF0) rate) ;;;
    status_b <- rtc_read_register RTC_REG_STATUS_B ;;
    rtc_write_register RTC_REG_STATUS_B (Z.lor status_b RTC_STATUS_B_PIE) ;;;
    rtc_read_register RTC_REG_STATUS_C ;;;
    io (pic_clear_mask IRQ_RTC) ;;;
    ret true.

Definition rtc_disable_periodic_interrupt : K unit :=
  io (pic_set_mask IRQ_RTC) ;;;
  status_b <- rtc_read_register RTC_REG_STATUS_B ;;
  rtc_write_register RTC_REG_STATUS_B (u8 (Z.land status_b (Z.lnot RTC_STATUS_B_PIE))) ;;;
  modify (set_handler NULL) ;;;
  rtc_read_register RTC_REG_STATUS_C ;;;
  ret tt.

Definition rtc_set_timezone (tz : Z) : K unit :=
  if tz <? Z.of_nat (length timezone_table) then modify (set_tz tz) else ret tt.

Definition rtc_get_timezone : K Z := gets current_timezone.

(** [time], a local variable, is at some address other than [NULL]. *)
Definition rtc_get_timestamp_tz (wait : nat) (tz : Z) : K Z :=
  r <- rtc_get_time wait 1 ;;
  match r with
  | None => ret 0
  | Some t =>
      timestamp <- for_each 1970 (year t) 0 (fun y ts => ret (ts + (if is_leap_year y then 366 else 365))) ;;
      timestamp <- for_each 1 (month t) timestamp (fun m ts => ret (ts + days_in_month m (year t))) ;;
      let timestamp := timestamp + (day t - 1) in
      let timestamp := timestamp * 86400 + hour t * 3600 + minute t * 60 + second t in
      offset <- lift (get_timezone_offset tz t) ;;
      ret (timestamp + offset)
  end.

Definition rtc_get_timestamp (wait : nat) : K Z :=
  tz <- gets current_timezone ;;
  rtc_get_timestamp_tz wait tz.

Definition rtc_get_time_tz (wait : nat) (time tz : Z) : K (option rtc_time) :=
  r <- rtc_get_time wait time ;;
  match r with
  | None => ret None
  | Some t =>
      rtc_get_timestamp_tz wait TZ_UTC ;;;
      offset <- lift (get_timezone_offset tz t) ;;
      ret (Some (RtcTime (second t) (minute t) (u8 (Z.rem (hour t + Z.quot offset 3600) 24)) (day t) (month t)
        (year t) (weekday t)))
  end.
End rtc.
