(* ===== verification/RtcThms.v ===== *)
(** * What the clock driver promises

    [Cmos] states how the chip answers while its clock does not tick; on such
    a chip the time that was set is read back.  Reading ends on every chip that
    leaves its update cycle within the bound on the polls. *)

From stdpp Require Import base numbers list gmap.
From S2P Require Import Prelude Bitmap Pic Rtc Calendar.

(** [cm_reg h r] is register [r]; the address port selects one.  The bits of
    the update cycle and the interrupt flags (registers A and C) are the
    chip's own. *)
Class Cmos (H : Type) `{Ports H} := {
  cm_sel : H -> Z;
  cm_reg : H -> Z -> Z;
  cm_byte h r : byte_ok (cm_reg h r);
  cm_idle h : Z.land (cm_reg h RTC_REG_STATUS_A) RTC_STATUS_A_UIP = 0;
  cm_select v h : cm_sel (port_out RTC_ADDR_PORT v h) = Z.land v 0x7F /\
    forall r, cm_reg (port_out RTC_ADDR_PORT v h) r = cm_reg h r;
  cm_wait v h : cm_sel (port_out 0x80 v h) = cm_sel h /\ forall r, cm_reg (port_out 0x80 v h) r = cm_reg h r;
  cm_in h : exists h', port_in RTC_DATA_PORT h = (cm_reg h (cm_sel h), h') /\
    forall r, r <> RTC_REG_STATUS_C -> cm_reg h' r = cm_reg h r;
  cm_out v h r : byte_ok v -> r <> RTC_REG_STATUS_A -> r <> RTC_REG_STATUS_C ->
    cm_reg (port_out RTC_DATA_PORT v h) r = if decide (r = cm_sel h) then v else cm_reg h r
}.

(** ** Binary-coded decimals *)

Lemma bcd_roundtrip x : 0 <= x <= 99 -> bcd_to_binary (binary_to_bcd x) = x /\ byte_ok (binary_to_bcd x).
Proof.
  intros Hx. assert (Hall : forallb (fun x => (bcd_to_binary (binary_to_bcd x) =? x) && (0 <=? binary_to_bcd x) &&
    (binary_to_bcd x <? 256)) (seqZ 0 100) = true) by (by vm_compute).
  rewrite forallb_forall in Hall. specialize (Hall x). rewrite <- list_elem_of_In, elem_of_seqZ in Hall.
  unfold byte_ok. destruct (andb_prop _ _ (Hall ltac:(lia))) as [[? ?]%andb_prop ?]. lia.
Qed.

Lemma byte_ok_lor a b : byte_ok a -> byte_ok b -> byte_ok (Z.lor a b).
Proof.
  unfold byte_ok. intros Ha Hb. rewrite <- (Z.mod_small a (2 ^ 8)), <- (Z.mod_small b (2 ^ 8)) by done.
  rewrite <- !Z.land_ones, <- Z.land_lor_distr_l, Z.land_ones by lia. by apply Z.mod_pos_bound.
Qed.

(** ** Termination *)

Section termination.
Context {H : Type} `{Ports H}.

(** Within [wait] polls register A shows the end of the update cycle. *)
Fixpoint settles (wait : nat) (h : H) : bool :=
  match wait with
  | O => false
  | S wait =>
      match read_reg RTC_REG_STATUS_A h with
      | Ok (a, h') => (Z.land a RTC_STATUS_A_UIP =? 0) || settles wait h'
      | Fault _ => false
      end
  end.

Definition returns {A : Type} (m : M (rtc H) A) : Prop := forall s, exists a s', m s = Ok (a, s').

Lemma returns_bind {A B : Type} (m : M (rtc H) A) (k : A -> M (rtc H) B) :
  returns m -> (forall a, returns (k a)) -> returns (bind m k).
Proof. intros Hm Hk s. destruct (Hm s) as (a & s' & Hr). unfold bind. rewrite Hr. apply Hk. Qed.

Lemma returns_ret {A : Type} (a : A) : returns (ret a).
Proof. intros s. by eexists _, _. Qed.

Lemma returns_read r : returns (rtc_read_register r).
Proof.
  intros s. cbv beta iota delta [rtc_read_register io read_reg bind outb inb io_wait modify].
  match goal with |- context [port_in ?p ?h] => destruct (port_in p h) end. by eexists _, _.
Qed.

Lemma returns_wait wait : (forall h, settles wait h = true) -> returns (rtc_wait_for_update wait).
Proof.
  intros Hs s. unfold rtc_wait_for_update, io.
  assert (Hw : exists h', wait_loop wait (r_hw s) = Ok (tt, h')); [|destruct Hw as (h' & Hw); rewrite Hw; by eexists _, _].
  specialize (Hs (r_hw s)). revert Hs. generalize (r_hw s). clear s. induction wait as [|wait IH]; [done|].
  intros h. cbn [settles wait_loop]. unfold bind. destruct (read_reg RTC_REG_STATUS_A h) as [[a h']|]; [|done].
  destruct (Z.land a RTC_STATUS_A_UIP =? 0); simpl; [by eexists|apply IH].
Qed.

Create HintDb returns.
#[local] Hint Resolve returns_ret returns_read returns_wait : returns.

Lemma returns_stable wait n : (forall h, settles wait h = true) -> returns (read_stable wait n).
Proof.
  intros Hs. induction n as [|n IH]; cbn [read_stable]; [apply returns_ret|]. unfold read_six.
  repeat (apply returns_bind; [|intros ?]); auto with returns. case_decide; auto with returns.
Qed.

Lemma returns_get_time wait time : (forall h, settles wait h = true) -> returns (rtc_get_time wait time).
Proof.
  intros Hs. unfold rtc_get_time, rtc_is_binary_mode, rtc_is_24hour_mode. destruct (time =? NULL); [apply returns_ret|].
  apply returns_bind; [apply returns_bind; auto with returns|intros bin].
  apply returns_bind; [apply returns_bind; auto with returns|intros h24].
  apply returns_bind; [by apply returns_stable|]. intros [[[] c]|]; [|apply returns_ret].
  apply returns_bind; auto with returns.
Qed.
End termination.

(** Whatever the chip returns, and however often its registers change
    between two readings, [rtc_get_time] ends, provided the chip never stays in
    its update cycle for [wait] polls. *)
Theorem rtc_get_time_terminates {H : Type} `{Ports H} wait time (s : rtc H) :
  (forall h : H, settles wait h = true) -> exists r s', rtc_get_time wait time s = Ok (r, s').
Proof. intros Hs. by apply returns_get_time. Qed.

(** ** Reading and writing registers of a chip that does not tick *)

Section quiet.
Context {H : Type} `{Cmos H}.
Implicit Types (s : rtc H) (g : Z -> Z).

(** The registers of [s] that are stored are those of [g]. *)
Definition plain (r : Z) : Prop := 0 <= r < 128 /\ r <> RTC_REG_STATUS_A /\ r <> RTC_REG_STATUS_C.
Definition regs s g : Prop := forall r, plain r -> cm_reg (r_hw s) r = g r.

Lemma select_reg r : 0 <= r < 128 -> Z.land (Z.lor RTC_NMI_DISABLE r) 0x7F = r.
Proof.
  intros Hr. apply Z.bits_inj'. intros n Hn. rewrite Z.land_spec, Z.lor_spec.
  change 0x7F with (Z.ones 7). change RTC_NMI_DISABLE with (2 ^ 7). rewrite Z.pow2_bits_eqb by lia.
  destruct (Z_lt_le_dec n 7) as [Hlt|Hge].
  - rewrite Z.ones_spec_low by lia. destruct (Z.eqb_spec 7 n); [lia|]. by rewrite andb_true_r.
  - rewrite Z.ones_spec_high by lia. rewrite andb_false_r. symmetry.
    apply Z.bits_above_log2; [lia|]. destruct (decide (r = 0)) as [->|]; [simpl; lia|].
    assert (Z.log2 r < 7) by (apply Z.log2_lt_pow2; lia). lia.
Qed.

Lemma read_any r s : 0 <= r < 128 ->
  wp (rtc_read_register r) (fun v s' => v = cm_reg (r_hw s) r /\
    (forall q, q <> RTC_REG_STATUS_C -> cm_reg (r_hw s') q = cm_reg (r_hw s) q)) s.
Proof.
  intros Hr. unfold wp, rtc_read_register, io, read_reg, bind, outb, io_wait, modify, inb.
  destruct (cm_select (Z.lor RTC_NMI_DISABLE r) (r_hw s)) as [Hsel Hreg].
  set (h1 := port_out RTC_ADDR_PORT _ _) in *. unfold outb, modify.
  destruct (cm_wait 0 h1) as [Hsel2 Hreg2]. set (h2 := port_out 0x80 0 h1) in *.
  destruct (cm_in h2) as (h3 & Hin & Hreg3). rewrite Hin. simpl.
  rewrite Hsel2, Hsel, select_reg, Hreg2, Hreg by done. split; [done|].
  intros q Hq. by rewrite Hreg3, Hreg2, Hreg.
Qed.

Lemma wp_read_reg r g s (Q : Z -> rtc H -> Prop) : plain r -> regs s g ->
  (forall s', regs s' g -> Q (g r) s') -> wp (rtc_read_register r) Q s.
Proof.
  intros Hr Hg HQ. eapply wp_mono; [apply read_any, Hr|]. intros v s' [-> Hk]. rewrite Hg by done. apply HQ.
  intros q Hq. rewrite Hk by apply Hq. by apply Hg.
Qed.

Lemma wp_wait wait g s (Q : unit -> rtc H -> Prop) : regs s g ->
  (forall s', regs s' g -> Q tt s') -> wp (rtc_wait_for_update (S wait)) Q s.
Proof.
  intros Hg HQ. assert (Hr := read_any RTC_REG_STATUS_A s ltac:(done)).
  apply wp_run in Hr as (a & s' & Hr & -> & Hk). unfold rtc_read_register, io in Hr.
  unfold wp, rtc_wait_for_update, io. cbn [wait_loop]. unfold bind.
  destruct (read_reg RTC_REG_STATUS_A (r_hw s)) as [[a h']|]; [|done]. injection Hr as -> <-.
  rewrite cm_idle. simpl. apply HQ. intros q Hq. rewrite (Hk q) by apply Hq. by apply Hg.
Qed.

Definition upd (r v : Z) g : Z -> Z := fun q => if decide (q = r) then v else g q.

Lemma wp_write_reg r v g s (Q : unit -> rtc H -> Prop) : plain r -> byte_ok v -> regs s g ->
  (forall s', regs s' (upd r v g) -> Q tt s') -> wp (rtc_write_register r v) Q s.
Proof.
  intros Hr Hv Hg HQ. unfold wp, rtc_write_register, io, write_reg, bind, outb, io_wait, modify.
  apply HQ. intros q Hq. simpl. unfold outb, modify.
  destruct (cm_select (Z.lor RTC_NMI_DISABLE r) (r_hw s)) as [Hsel Hreg].
  set (h1 := port_out RTC_ADDR_PORT _ _) in *.
  destruct (cm_wait 0 h1) as [Hsel2 Hreg2]. set (h2 := port_out 0x80 0 h1) in *.
  rewrite (proj2 (cm_wait 0 _)), cm_out, Hsel2, Hsel, select_reg by (done || apply Hr || apply Hq).
  unfold upd. case_decide; [done|]. rewrite Hreg2, Hreg. by apply Hg.
Qed.

(** ** The time that the registers show *)

Definition mode_binary g : bool := negb (Z.land (g RTC_REG_STATUS_B) RTC_STATUS_B_DM =? 0).
Definition mode_24h g : bool := negb (Z.land (g RTC_REG_STATUS_B) RTC_STATUS_B_24H =? 0).
Definition from_reg g (x : Z) : Z := if mode_binary g then x else bcd_to_binary x.
Definition to_reg g (x : Z) : Z := if mode_binary g then x else binary_to_bcd x.

Definition shown_hour g : Z :=
  let h := from_reg g (g RTC_REG_HOURS) in
  if negb (mode_24h g) && negb (Z.land h 0x80 =? 0) then u8 ((Z.land h 0x7F + 12) mod 24) else h.

Definition shown g : rtc_time :=
  RtcTime (from_reg g (g RTC_REG_SECONDS)) (from_reg g (g RTC_REG_MINUTES)) (shown_hour g)
    (from_reg g (g RTC_REG_DAY)) (from_reg g (g RTC_REG_MONTH))
    (u16 (from_reg g (g RTC_REG_CENTURY) * 100 + from_reg g (g RTC_REG_YEAR))) (g RTC_REG_WEEKDAY).

Definition stored_time (t : rtc_time) g : Z -> Z :=
  upd RTC_REG_STATUS_B (g RTC_REG_STATUS_B)
  (upd RTC_REG_CENTURY (to_reg g (u8 (year t / 100)))
  (upd RTC_REG_YEAR (to_reg g (u8 (year t mod 100)))
  (upd RTC_REG_MONTH (to_reg g (month t))
  (upd RTC_REG_DAY (to_reg g (day t))
  (upd RTC_REG_HOURS (to_reg g (hour t))
  (upd RTC_REG_MINUTES (to_reg g (minute t))
  (upd RTC_REG_SECONDS (to_reg g (second t))
  (upd RTC_REG_STATUS_B (Z.lor (g RTC_REG_STATUS_B) RTC_STATUS_B_SET) g)))))))).

Ltac plain_reg := split_and!; done.
Ltac quiet_step :=
  first [ apply wp_bind; quiet_step
        | eapply wp_read_reg; [plain_reg|eassumption|]; intros ? ?
        | eapply wp_wait; [eassumption|]; intros ? ?
        | eapply wp_write_reg; [plain_reg|try done|eassumption|]; [..|intros ? ?] ].

Lemma read_six_quiet g s (Q : reading -> rtc H -> Prop) : regs s g ->
  (forall s', regs s' g -> Q (Reading (g RTC_REG_SECONDS) (g RTC_REG_MINUTES) (g RTC_REG_HOURS) (g RTC_REG_DAY)
     (g RTC_REG_MONTH) (g RTC_REG_YEAR)) s') -> wp read_six Q s.
Proof. intros Hg HQ. unfold read_six. do 6 quiet_step. by apply wp_ret, HQ. Qed.

Lemma get_time_quiet wait time g s : time <> NULL -> regs s g ->
  wp (rtc_get_time (S wait) time) (fun r s' => r = Some (shown g) /\ regs s' g) s.
Proof.
  intros Ht Hg. unfold rtc_get_time. rewrite (proj2 (Z.eqb_neq _ _) Ht).
  apply wp_bind. unfold rtc_is_binary_mode. quiet_step. apply wp_ret.
  apply wp_bind. unfold rtc_is_24hour_mode. quiet_step. apply wp_ret. apply wp_bind.
  cbn [read_stable]. quiet_step. apply wp_bind. eapply read_six_quiet; [eassumption|]. intros ? ?. do 2 quiet_step.
  apply wp_bind. eapply read_six_quiet; [eassumption|]. intros ? ?. rewrite decide_True by done.
  apply wp_ret. quiet_step. by apply wp_ret.
Qed.

Lemma to_reg_byte g x : 0 <= x <= 99 -> byte_ok (to_reg g x).
Proof. intros Hx. unfold to_reg. destruct (mode_binary g); [unfold byte_ok; lia|]. by apply bcd_roundtrip. Qed.

Lemma from_to_reg g x : 0 <= x <= 99 -> from_reg g (to_reg g x) = x.
Proof. intros Hx. unfold to_reg, from_reg. destruct (mode_binary g); [done|]. by apply bcd_roundtrip. Qed.

Definition proper_time (t : rtc_time) : Prop :=
  0 <= second t <= 59 /\ 0 <= minute t <= 59 /\ 0 <= hour t <= 23 /\ 1 <= day t <= 31 /\ 1 <= month t <= 12 /\
  1970 <= year t <= 2099.

Lemma proper_time_ok t : proper_time t -> rtc_time_ok t = true.
Proof.
  intros (? & ? & ? & ? & ? & ?). unfold rtc_time_ok.
  repeat match goal with |- context [?a <? ?b] => rewrite (proj2 (Z.ltb_ge a b)) by lia end.
  by rewrite !(proj2 (Z.eqb_neq _ _)) by lia.
Qed.

Lemma set_time_quiet t g s : proper_time t -> regs s g ->
  wp (rtc_set_time (Some t)) (fun r s' => r = true /\ regs s' (stored_time t g)) s.
Proof.
  intros Hp Hg. unfold rtc_set_time. rewrite proper_time_ok by done. cbn [negb].
  assert (HB : byte_ok (g RTC_REG_STATUS_B)) by (rewrite <- (Hg RTC_REG_STATUS_B) by plain_reg; apply cm_byte).
  destruct Hp as (? & ? & ? & ? & ? & ?).
  apply wp_bind. unfold rtc_is_binary_mode. quiet_step. apply wp_ret. fold (mode_binary g).
  quiet_step. change (fun x => if mode_binary g then x else binary_to_bcd x) with (to_reg g).
  do 9 (quiet_step; [first [done | by apply byte_ok_lor | apply to_reg_byte; unfold u8; dlia] ..|]).
  by apply wp_ret.
Qed.

Lemma shown_stored t g : proper_time t -> mode_24h g = true ->
  shown (stored_time t g) = RtcTime (second t) (minute t) (hour t) (day t) (month t) (year t) (g RTC_REG_WEEKDAY).
Proof.
  intros (? & ? & ? & ? & ? & ?) H24.
  assert (Hm : forall x, from_reg (stored_time t g) x = from_reg g x) by done.
  assert (Hh : shown_hour (stored_time t g) = from_reg g (to_reg g (hour t))).
  { unfold shown_hour. change (mode_24h (stored_time t g)) with (mode_24h g). rewrite H24. cbn [negb andb]. by rewrite Hm. }
  unfold shown. rewrite Hh, !Hm.
  change (stored_time t g RTC_REG_SECONDS) with (to_reg g (second t)).
  change (stored_time t g RTC_REG_MINUTES) with (to_reg g (minute t)).
  change (stored_time t g RTC_REG_DAY) with (to_reg g (day t)).
  change (stored_time t g RTC_REG_MONTH) with (to_reg g (month t)).
  change (stored_time t g RTC_REG_CENTURY) with (to_reg g (u8 (year t / 100))).
  change (stored_time t g RTC_REG_YEAR) with (to_reg g (u8 (year t mod 100))).
  change (stored_time t g RTC_REG_WEEKDAY) with (g RTC_REG_WEEKDAY).
  rewrite !from_to_reg by (unfold u8; dlia). f_equal. unfold u8, u16. dlia.
Qed.

(** ** Time stamps *)

Definition date_of (t : rtc_time) : clock_ymdhms :=
  let d := Dt (year t) (month t) (day t) 0 (hour t) (minute t) (second t) in
  Dt (year t) (month t) (day t) ((day_number d + 4) mod 7) (hour t) (minute t) (second t).

Lemma is_leap_year_isleap y : 0 <= y -> is_leap_year y = isleap y.
Proof.
  intros Hy. unfold is_leap_year, isleap. rewrite !Z.rem_mod_nonneg by lia.
  destruct (Z.eqb_spec (y mod 4) 0), (Z.eqb_spec (y mod 100) 0), (Z.eqb_spec (y mod 400) 0); simpl; done || dlia.
Qed.

Lemma month_start_succ m y : 0 <= y -> 1 <= m <= 12 ->
  month_start (isleap y) m = month_start (isleap y) (m - 1) + days_in_month m y.
Proof.
  intros Hy Hm. unfold days_in_month. rewrite is_leap_year_isleap by done. generalize (isleap y). intros l.
  assert (Hin : m ∈ seqZ 1 12) by (apply elem_of_seqZ; lia). revert m Hm Hin.
  assert (Hall : forall l, Forall (fun m => month_start l m = month_start l (m - 1) +
    (if (m <? 1) || (12 <? m) then 0 else if (m =? 2) && l then 29 else month_table !!! Z.to_nat (m - 1)))
    (seqZ 1 12)) by (intros []; vm_compute; repeat constructor).
  intros m _ Hin. by eapply Forall_forall in Hin; [|apply (Hall l)].
Qed.

Lemma timestamp_quiet wait tz g s : regs s g -> valid_date (date_of (shown g)) -> 0 <= tz < 6 ->
  wp (rtc_get_timestamp_tz (S wait) tz) (fun r s' =>
    (exists o, get_timezone_offset tz (shown g) = Ok o /\ r = date_secs (date_of (shown g)) + o) /\ regs s' g) s.
Proof.
  intros Hg Hv Htz. unfold rtc_get_timestamp_tz. apply wp_bind.
  eapply wp_mono; [by apply get_time_quiet|]. intros r s1 [-> Hg1]. destruct Hv as [Hy Hm Hd _ Hh Hmi Hs].
  set (t := shown g) in *. clearbody t. simpl in *. apply wp_bind. eapply wp_mono.
  { apply (wp_for_each (fun y ts s' => ts = year_start y /\ s' = s1)); [done|].
    intros y ts s' Hb [-> ->]. apply wp_ret. split; [|done].
    rewrite year_start_succ, is_leap_year_isleap by lia. unfold daysperyear. by destruct (isleap y). }
  intros ts s' [-> ->]. apply wp_bind. rewrite Z.max_r by lia. eapply wp_mono.
  { apply (wp_for_each (fun m ts s' => ts = year_start (year t) + month_start (isleap (year t)) (m - 1) /\ s' = s1));
      [split; [unfold month_start; simpl; lia|done]|].
    intros m ts s' Hb [-> ->]. apply wp_ret. split; [|done].
    rewrite Z.add_simpl_r, (month_start_succ m) by lia. lia. }
  intros ts s' [-> ->]. rewrite Z.max_r by lia.
  assert (Ho : exists o, get_timezone_offset tz t = Ok o).
  { unfold get_timezone_offset, needs_dst, aread. rewrite decide_True by lia.
    destruct (lookup_lt_is_Some_2 timezone_table (Z.to_nat tz)) as [row ->]; [simpl; lia|]. by eexists. }
  destruct Ho as [o Ho]. apply wp_bind, (wp_lift _ o); [done|]. apply wp_ret. split; [|done]. exists o. split; [done|].
  unfold date_secs, day_number. simpl. lia.
Qed.
End quiet.

(** C33: On a chip in 24-hour mode, in binary or in decimal mode, the second,
    minute, hour, day, month and year of a valid time that [rtc_set_time]
    stores are those that [rtc_get_time] returns while the clock does not tick.
    The day of the week is not stored: the one returned is the chip's. *)
Theorem rtc_set_get_roundtrip {H : Type} `{Cmos H} wait time t (s : rtc H) :
  time <> NULL -> proper_time t -> mode_24h (cm_reg (r_hw s)) = true ->
  exists s' s'', rtc_set_time (Some t) s = Ok (true, s') /\
    rtc_get_time (S wait) time s' = Ok (Some (RtcTime (second t) (minute t) (hour t) (day t) (month t) (year t)
      (cm_reg (r_hw s) RTC_REG_WEEKDAY)), s'').
Proof.
  intros Ht Hp H24.
  destruct (proj1 (wp_run _ _ _) (set_time_quiet t (cm_reg (r_hw s)) s Hp (fun _ _ => eq_refl)))
    as (r & s' & Hset & -> & Hg).
  destruct (proj1 (wp_run _ _ _) (get_time_quiet wait time _ s' Ht Hg)) as (r & s'' & Hget & -> & _).
  exists s', s''. split; [done|]. by rewrite Hget, shown_stored.
Qed.

(** The time stamp of the driver is that of the calendar functions: if the
    registers show a valid date then [rtc_get_timestamp_tz] returns what
    [clock_ymdhms_to_secs] makes of it, moved by the offset of the time zone. *)
Theorem rtc_timestamp_is_calendar {H : Type} `{Cmos H} wait tz (s : rtc H) :
  let t := shown (cm_reg (r_hw s)) in
  valid_date (date_of t) -> 0 <= tz < 6 ->
  exists o n s', get_timezone_offset tz t = Ok o /\ clock_ymdhms_to_secs (date_of t) s = Ok (n, s) /\
    rtc_get_timestamp_tz (S wait) tz s = Ok (n + o, s').
Proof.
  intros t Hv Htz.
  destruct (proj1 (wp_run _ _ _) (timestamp_quiet wait tz (cm_reg (r_hw s)) s (fun _ _ => eq_refl) Hv Htz))
    as (r & s' & Hr & (o & Ho & ->) & _).
  exists o, (date_secs (date_of t)), s'. by rewrite date_to_secs.
Qed.

(** ** Where the readings are wrong *)

Lemma twelve_hour_values k : 1 <= k <= 12 ->
  bcd_to_binary (Z.lor 0x80 (binary_to_bcd k)) = 80 + k /\ Z.land (80 + k) 0x80 = 0.
Proof.
  intros Hk. assert (Hin : k = 1 \/ k = 2 \/ k = 3 \/ k = 4 \/ k = 5 \/ k = 6 \/ k = 7 \/ k = 8 \/ k = 9 \/ k = 10 \/
    k = 11 \/ k = 12) by lia.
  repeat (destruct Hin as [->|Hin]; [split; reflexivity|]). subst. split; reflexivity.
Qed.

(** In 12-hour mode an afternoon hour is misread.  In decimal mode
    [rtc_get_time] converts the register before it looks at the PM bit: [k] PM
    is returned as hour [80 + k].  In binary mode noon (12 PM) is returned as
    midnight. *)
Theorem rtc_twelve_hour_misread {H : Type} `{Cmos H} wait time (s : rtc H) :
  let g := cm_reg (r_hw s) in
  time <> NULL -> mode_24h g = false ->
  (forall k, mode_binary g = false -> 1 <= k <= 12 -> g RTC_REG_HOURS = Z.lor 0x80 (binary_to_bcd k) ->
     exists t s', rtc_get_time (S wait) time s = Ok (Some t, s') /\ hour t = 80 + k) /\
  (mode_binary g = true -> g RTC_REG_HOURS = Z.lor 0x80 12 ->
     exists t s', rtc_get_time (S wait) time s = Ok (Some t, s') /\ hour t = 0).
Proof.
  intros g Ht H24.
  destruct (proj1 (wp_run _ _ _) (get_time_quiet wait time g s Ht (fun _ _ => eq_refl))) as (r & s' & Hr & -> & _).
  split; [intros k Hbin Hk Hh|intros Hbin Hh]; exists (shown g), s'; (split; [done|]); simpl;
    unfold shown_hour, from_reg; rewrite H24, Hbin, Hh; [|done].
  destruct (twelve_hour_values k Hk) as [-> ->]. done.
Qed.

(** West of Greenwich [rtc_get_time_tz] returns hours that do not exist:
    when the local time is on the day before, the hour is the negative number
    wrapped to eight bits, and the date stays that of UTC. *)
Theorem rtc_local_hour_wraps {H : Type} `{Cmos H} wait time tz o (s : rtc H) :
  let t := shown (cm_reg (r_hw s)) in
  time <> NULL -> valid_date (date_of t) -> 0 <= tz < 6 ->
  get_timezone_offset tz t = Ok o -> - 24 < hour t + Z.quot o 3600 < 0 ->
  exists s', rtc_get_time_tz (S wait) time tz s =
    Ok (Some (RtcTime (second t) (minute t) (256 + hour t + Z.quot o 3600) (day t) (month t) (year t) (weekday t)), s').
Proof.
  intros t Ht Hv Htz Ho Hneg.
  assert (Hw : wp (rtc_get_time_tz (S wait) time tz) (fun r _ => r = Some (RtcTime (second t) (minute t)
    (256 + hour t + Z.quot o 3600) (day t) (month t) (year t) (weekday t))) s);
    [|apply wp_run in Hw as (r & s' & Hr & ->); by exists s'].
  unfold rtc_get_time_tz. apply wp_bind. eapply wp_mono; [apply (get_time_quiet _ _ _ s Ht (fun _ _ => eq_refl))|].
  intros r s1 [-> Hg1]. apply wp_bind. eapply wp_mono; [apply (timestamp_quiet wait TZ_UTC _ s1 Hg1 Hv); unfold TZ_UTC; lia|].
  intros n s2 [_ _]. apply wp_bind. fold t. apply (wp_lift _ o _ _ Ho), wp_ret. do 2 f_equal.
  assert (Hq : Z.rem (hour t + Z.quot o 3600) 24 = hour t + Z.quot o 3600).
  { rewrite <- (Z.opp_involutive (hour t + _)), Z.rem_opp_l, Z.rem_small by lia. done. }
  rewrite Hq. unfold u8. rewrite <- (Z_mod_plus_full _ 1), Z.mod_small; lia.
Qed.

(** ** A chip *)

Module Chip.

Record chip := MkChip { ch_sel : Z; ch_regs : gmap Z Z; ch_mask1 : Z; ch_mask2 : Z }.

Definition raw (h : chip) (r : Z) : Z := u8 (default 0 (ch_regs h !! r)).
Definition value (h : chip) (r : Z) : Z :=
  if r =? RTC_REG_STATUS_A then Z.land (raw h r) 0x7F else raw h r.

#[global] Instance chip_ports : Ports chip := {|
  port_out p v h :=
    if p =? RTC_ADDR_PORT then MkChip (Z.land v 0x7F) (ch_regs h) (ch_mask1 h) (ch_mask2 h)
    else if p =? RTC_DATA_PORT then MkChip (ch_sel h) (<[ch_sel h := v]> (ch_regs h)) (ch_mask1 h) (ch_mask2 h)
    else if p =? PIC1_DATA then MkChip (ch_sel h) (ch_regs h) (u8 v) (ch_mask2 h)
    else if p =? PIC2_DATA then MkChip (ch_sel h) (ch_regs h) (ch_mask1 h) (u8 v)
    else h;
  port_in p h :=
    (if p =? RTC_DATA_PORT then value h (ch_sel h)
     else if p =? PIC1_DATA then u8 (ch_mask1 h)
     else if p =? PIC2_DATA then u8 (ch_mask2 h)
     else 0, h) |}.

Lemma u8_byte v : byte_ok v -> u8 v = v.
Proof. intros Hv. unfold u8. by apply Z.mod_small. Qed.

#[global, program] Instance chip_cmos : Cmos chip := {| cm_sel := ch_sel; cm_reg := value |}.
Next Obligation.
  intros h r. unfold value. destruct (r =? RTC_REG_STATUS_A); [|apply u8_ok].
  unfold byte_ok. change 0x7F with (Z.ones 7). rewrite Z.land_ones by lia. pose proof (Z.mod_pos_bound (raw h r) (2 ^ 7)). lia.
Qed.
Next Obligation.
  intros h. unfold value. simpl. rewrite <- Z.land_assoc. apply Z.land_0_r.
Qed.
Next Obligation. done. Qed.
Next Obligation. done. Qed.
Next Obligation. intros h. by exists h. Qed.
Next Obligation.
  intros v h r Hv HA HC. unfold value, raw. simpl. rewrite (proj2 (Z.eqb_neq _ _) HA). case_decide as Hd.
  - rewrite Hd, lookup_insert_eq. by apply u8_byte.
  - by rewrite lookup_insert_ne.
Qed.

#[global, program] Instance chip_pic : Pic8259 chip := {|
  pic_mask1 h := u8 (ch_mask1 h); pic_mask2 h := u8 (ch_mask2 h) |}.
Next Obligation. intros h. split; apply u8_ok. Qed.
Next Obligation. intros h. by exists h. Qed.
Next Obligation. intros h. by exists h. Qed.
Next Obligation. intros v h Hv. simpl. by rewrite !(u8_byte v). Qed.
Next Obligation. intros v h Hv. simpl. by rewrite !(u8_byte v). Qed.

(** The chip as [rtc_init] leaves it (B is 6), or with status byte [b], at 23:59:58 on the 28th of February
    2024. *)
Definition at_leap (b : Z) : rtc chip :=
  Rtc NULL TZ_UTC ∅ (MkChip 0 (list_to_map [(RTC_REG_STATUS_B, b); (RTC_REG_SECONDS, 58); (RTC_REG_MINUTES, 59);
    (RTC_REG_HOURS, 23); (RTC_REG_DAY, 28); (RTC_REG_MONTH, 2); (RTC_REG_YEAR, 24); (RTC_REG_CENTURY, 20)]) 0xFF 0xFF).
End Chip.

(** ** Witnesses *)

Import Chip.

Lemma chip_settles (h : chip) : settles 1 h = true.
Proof.
  set (h' := port_out 0x80 0 (port_out RTC_ADDR_PORT (Z.lor RTC_NMI_DISABLE RTC_REG_STATUS_A) h)).
  assert (Hr : read_reg RTC_REG_STATUS_A h = Ok (value h' RTC_REG_STATUS_A, h')) by done.
  cbn [settles]. rewrite Hr. pose proof (cm_idle h') as Hi. simpl in Hi. by rewrite Hi.
Qed.

Lemma pic_mask_one_line_witness :
  (exists h', pic_set_mask 9 (r_hw (at_leap 6)) = Ok (tt, h') /\
     forall j, 0 <= j < 16 -> irq_masked h' j = if decide (j = 9) then true else irq_masked (r_hw (at_leap 6)) j) /\
  (exists h', pic_clear_mask 9 (r_hw (at_leap 6)) = Ok (tt, h') /\
     forall j, 0 <= j < 16 -> irq_masked h' j = if decide (j = 9) then false else irq_masked (r_hw (at_leap 6)) j).
Proof. apply (pic_mask_one_line 9 (r_hw (at_leap 6))). lia. Defined.

Lemma rtc_get_time_terminates_witness : exists r s', rtc_get_time 1 1 (at_leap 6) = Ok (r, s').
Proof. apply (rtc_get_time_terminates 1 1 (at_leap 6)). apply chip_settles. Defined.

Lemma rtc_set_get_roundtrip_witness :
  exists s' s'', rtc_set_time (Some (RtcTime 0 30 17 1 3 2024 0)) (at_leap 2) = Ok (true, s') /\
    rtc_get_time 1 1 s' = Ok (Some (RtcTime 0 30 17 1 3 2024 (value (r_hw (at_leap 2)) RTC_REG_WEEKDAY)), s'').
Proof.
  refine (rtc_set_get_roundtrip 0 1 (RtcTime 0 30 17 1 3 2024 0) (at_leap 2) _ _ _); [done| |by vm_compute].
  unfold proper_time. simpl. lia.
Defined.

Lemma rtc_timestamp_is_calendar_witness :
  exists o n s', get_timezone_offset TZ_CET (shown (value (r_hw (at_leap 6)))) = Ok o /\
    clock_ymdhms_to_secs (date_of (shown (value (r_hw (at_leap 6))))) (at_leap 6) = Ok (n, at_leap 6) /\
    rtc_get_timestamp_tz 1 TZ_CET (at_leap 6) = Ok (n + o, s').
Proof.
  refine (rtc_timestamp_is_calendar 0 TZ_CET (at_leap 6) _ _); [|unfold TZ_CET; lia].
  constructor; vm_compute; try (split; congruence); congruence.
Defined.

Lemma rtc_twelve_hour_misread_witness :
  exists t s', rtc_get_time 1 1 (Rtc NULL TZ_UTC ∅ (MkChip 0 {[RTC_REG_HOURS := 0x91]} 0 0)) = Ok (Some t, s') /\
    hour t = 80 + 11.
Proof.
  destruct (rtc_twelve_hour_misread 0 1 (Rtc NULL TZ_UTC ∅ (MkChip 0 {[RTC_REG_HOURS := 0x91]} 0 0))) as [Hd _];
    [done|by vm_compute|].
  apply (Hd 11); [by vm_compute|lia|by vm_compute].
Defined.

Lemma rtc_local_hour_wraps_witness :
  exists s', rtc_get_time_tz 1 1 TZ_EST (Rtc NULL TZ_UTC ∅ (MkChip 0 (<[RTC_REG_HOURS := 3]> (ch_regs (r_hw (at_leap 6)))) 0 0)) =
    Ok (Some (RtcTime 58 59 254 28 2 2024 0), s').
Proof.
  destruct (rtc_local_hour_wraps 0 1 TZ_EST (-18000)
    (Rtc NULL TZ_UTC ∅ (MkChip 0 (<[RTC_REG_HOURS := 3]> (ch_regs (r_hw (at_leap 6)))) 0 0))) as [s' Hs];
    [done| |unfold TZ_EST; lia|by vm_compute|by vm_compute|exists s'; rewrite Hs; by vm_compute].
  constructor; vm_compute; try (split; congruence); congruence.
Defined.
