(* ===== verification/Clock.v ===== *)
(** * The time of day ([sys/kern/kern_time.c], [amd64/cpu/tsc.c])

    The system clock is a boot time plus the time since boot, which is counted
    by the time-stamp counter of the processor.  The counter is a parameter,
    an instance of [Tsc]: every reading may return a new value. *)

From stdpp Require Import base numbers list gmap.
From S2P Require Import Prelude Pic Rtc Calendar.

(** ** Representations of time ([sys/sys/time.h])

    Seconds with a binary fraction ([bintime]), with nanoseconds
    ([timespec]) and with microseconds ([timeval]), and the conversions between
    them.  [time_t] is a signed 64-bit integer. *)

Record bintime_t := Bintime { sec : Z; frac : Z }.
Record timespec := Timespec { tv_sec : Z; tv_nsec : Z }.
Record timeval := Timeval { tvu_sec : Z; tv_usec : Z }.

Definition bintimeaddfrac (bt : bintime_t) (x : Z) : bintime_t :=
  let f := u64 (frac bt + x) in
  Bintime (if f <? frac bt then s64 (sec bt + 1) else sec bt) f.

Definition bintimeadd (bt ct : bintime_t) : bintime_t :=
  let s := s64 (sec bt + sec ct) in
  let f := u64 (frac bt + frac ct) in
  Bintime (if f <? frac bt then s64 (s + 1) else s) f.

Definition bintimesub (bt ct : bintime_t) : bintime_t :=
  let s := s64 (sec bt - sec ct) in
  let f := u64 (frac bt - frac ct) in
  Bintime (if frac bt <? f then s64 (s - 1) else s) f.

Definition FRAC_TO_NSEC (frac : Z) : Z := u32 (Z.shiftr (u64 (Z.shiftr frac 32 * 1000000000)) 32).

Definition BINTIME_TO_TIMESPEC (bt : bintime_t) : timespec := Timespec (sec bt) (FRAC_TO_NSEC (frac bt)).

Definition TIMESPEC_TO_BINTIME (ts : timespec) : bintime_t :=
  Bintime (tv_sec ts) (u64 (u64 (tv_nsec ts) * 18446744073)).

Definition BINTIME_TO_TIMEVAL (bt : bintime_t) : timeval :=
  Timeval (sec bt) (s64 (Z.shiftr (u64 (1000000 * u32 (Z.shiftr (frac bt) 32))) 32)).

Definition TIMEVAL_TO_BINTIME (tv : timeval) : bintime_t :=
  Bintime (tvu_sec tv) (u64 (u64 (tv_usec tv) * 18446744073709)).

Definition USEC_TO_TIMEVAL (us : Z) : timeval := Timeval (us / 1000000) (us mod 1000000).
Definition NSEC_TO_TIMEVAL (ns : Z) : timeval := Timeval (ns / 1000000000) (ns mod 1000000000 / 1000).
Definition NSEC_TO_TIMESPEC (ns : Z) : timespec := Timespec (ns / 1000000000) (ns mod 1000000000).

Definition TIMEVAL_TO_NSEC (tv : timeval) : Z :=
  if tvu_sec tv <? 0 then 0
  else if UINT64_MAX / 1000000000 <? u64 (tvu_sec tv) then UINT64_MAX
  else
    let nsecs := u64 (u64 (tvu_sec tv) * 1000000000) in
    if u64 (UINT64_MAX - nsecs) <? u64 (u64 (tv_usec tv) * 1000) then UINT64_MAX
    else u64 (nsecs + u64 (u64 (tv_usec tv) * 1000)).

Definition TIMESPEC_TO_NSEC (ts : timespec) : Z :=
  if tv_sec ts <? 0 then 0
  else if u64 (UINT64_MAX - u64 (tv_nsec ts)) / 1000000000 <? u64 (tv_sec ts) then UINT64_MAX
  else u64 (u64 (tv_sec ts) * 1000000000 + u64 (tv_nsec ts)).

Definition BINTIME_TO_NSEC (bt : bintime_t) : Z := u64 (u64 (sec bt) * 1000000000 + FRAC_TO_NSEC (frac bt)).

Definition SEC_TO_NSEC (seconds : Z) : Z :=
  if UINT64_MAX / 1000000000 <? seconds then UINT64_MAX else u64 (seconds * 1000000000).
Definition MSEC_TO_NSEC (milliseconds : Z) : Z :=
  if UINT64_MAX / 1000000 <? milliseconds then UINT64_MAX else u64 (milliseconds * 1000000).
Definition USEC_TO_NSEC (microseconds : Z) : Z :=
  if UINT64_MAX / 1000 <? microseconds then UINT64_MAX else u64 (microseconds * 1000).

Definition timespecisvalid (ts : timespec) : bool := (0 <=? tv_nsec ts) && (tv_nsec ts <? 1000000000).

Definition timersub (t u : timeval) : timeval :=
  let s := s64 (tvu_sec t - tvu_sec u) in
  let us := s64 (tv_usec t - tv_usec u) in
  if us <? 0 then Timeval (s64 (s - 1)) (s64 (us + 1000000)) else Timeval s us.

(** [timercmp(t, u, <)]. *)
Definition timerlt (t u : timeval) : bool :=
  if tvu_sec t =? tvu_sec u then tv_usec t <? tv_usec u else tvu_sec t <? tvu_sec u.

(** ** Exact values *)

(** A [bintime] counts in units of 2^-64 seconds. *)
Definition bt_value (bt : bintime_t) : Z := sec bt * 2 ^ 64 + frac bt.
Definition ts_value (ts : timespec) : Z := tv_sec ts * 1000000000 + tv_nsec ts.
Definition tv_value (tv : timeval) : Z := tvu_sec tv * 1000000 + tv_usec tv.

Definition bt_ok (bt : bintime_t) : Prop := - 2 ^ 60 <= sec bt < 2 ^ 60 /\ 0 <= frac bt < 2 ^ 64.
Definition ts_ok (ts : timespec) : Prop := - 2 ^ 59 <= tv_sec ts < 2 ^ 59 /\ 0 <= tv_nsec ts < 1000000000.

Lemma u64_carry x y : 0 <= x < 2 ^ 64 -> 0 <= y < 2 ^ 64 ->
  u64 (x + y) = if u64 (x + y) <? x then x + y - 2 ^ 64 else x + y.
Proof.
  intros Hx Hy. unfold u64. destruct (Z_lt_le_dec (x + y) (2 ^ 64)) as [Hlt|Hge].
  - rewrite (Z.mod_small (x + y)) by lia. destruct (Z.ltb_spec (x + y) x); lia.
  - assert (He : (x + y) mod 2 ^ 64 = x + y - 2 ^ 64).
    { rewrite <- (Z_mod_plus_full _ (-1)), Z.mod_small; lia. }
    rewrite He. destruct (Z.ltb_spec (x + y - 2 ^ 64) x); lia.
Qed.

Lemma u64_borrow x y : 0 <= x < 2 ^ 64 -> 0 <= y < 2 ^ 64 ->
  u64 (x - y) = if x <? u64 (x - y) then x - y + 2 ^ 64 else x - y.
Proof.
  intros Hx Hy. unfold u64. destruct (Z_lt_le_dec x y) as [Hlt|Hge].
  - assert (He : (x - y) mod 2 ^ 64 = x - y + 2 ^ 64).
    { rewrite <- (Z_mod_plus_full _ 1), Z.mod_small; lia. }
    rewrite He. destruct (Z.ltb_spec x (x - y + 2 ^ 64)); lia.
  - rewrite (Z.mod_small (x - y)) by lia. destruct (Z.ltb_spec x (x - y)); lia.
Qed.

Lemma u64_range x : 0 <= u64 x < 2 ^ 64.
Proof. by apply Z.mod_pos_bound. Qed.

Lemma bintimeadd_value bt ct : bt_ok bt -> bt_ok ct ->
  bt_value (bintimeadd bt ct) = bt_value bt + bt_value ct /\ 0 <= frac (bintimeadd bt ct) < 2 ^ 64.
Proof.
  intros [Hs Hf] [Hs' Hf']. unfold bintimeadd, bt_value. simpl.
  pose proof (u64_range (frac bt + frac ct)) as Hr. pose proof (u64_carry _ _ Hf Hf') as Hc.
  destruct (_ <? _); rewrite !s64_id; rewrite ?s64_id by lia; lia.
Qed.

Lemma bintimesub_value bt ct : bt_ok bt -> bt_ok ct ->
  bt_value (bintimesub bt ct) = bt_value bt - bt_value ct /\ 0 <= frac (bintimesub bt ct) < 2 ^ 64.
Proof.
  intros [Hs Hf] [Hs' Hf']. unfold bintimesub, bt_value. simpl.
  pose proof (u64_range (frac bt - frac ct)) as Hr. pose proof (u64_borrow _ _ Hf Hf') as Hc.
  destruct (_ <? _); rewrite !s64_id; rewrite ?s64_id by lia; lia.
Qed.

(** The whole nanoseconds of a fraction, from its upper 32 bits. *)
Lemma FRAC_TO_NSEC_spec f : 0 <= f < 2 ^ 64 ->
  FRAC_TO_NSEC f = f / 2 ^ 32 * 1000000000 / 2 ^ 32 /\ 0 <= FRAC_TO_NSEC f < 1000000000.
Proof.
  intros Hf. unfold FRAC_TO_NSEC, u32, u64. rewrite !Z.shiftr_div_pow2 by lia.
  assert (Hq : 0 <= f / 2 ^ 32 < 2 ^ 32) by dlia.
  rewrite (Z.mod_small (f / 2 ^ 32 * 1000000000)) by lia.
  assert (0 <= f / 2 ^ 32 * 1000000000 / 2 ^ 32 < 1000000000) by dlia. rewrite Z.mod_small; lia.
Qed.

(** ** The clock *)

Class Tsc (H : Type) := { rdtsc : H -> Z * H }.

(** The statics of [kern_time.c], the frequency of [g_tsc_info] and the state
    of the clock chip. *)
Record clock (H : Type) := Clock {
  boottime_bt : bintime_t;
  tsc_at_boot : Z;
  timekeeping_initialized : bool;
  frequency_hz : Z;
  c_rtc : rtc H
}.
Arguments Clock {H}.
Arguments boottime_bt {H}.
Arguments tsc_at_boot {H}.
Arguments timekeeping_initialized {H}.
Arguments frequency_hz {H}.
Arguments c_rtc {H}.

Definition tsc_to_ns (frequency ticks : Z) : Z :=
  if frequency =? 0 then 0 else u64 (ticks * 1000000000) / frequency.

Definition ns_to_tsc (frequency nanoseconds : Z) : Z :=
  if frequency =? 0 then 0 else u64 (nanoseconds * frequency) / 1000000000.

Section clock.
Context {H : Type} `{Ports H} `{Tsc H}.
Abbreviation K := (M (clock H)).

Definition with_rtc {A : Type} (m : M (rtc H) A) : K A := fun s =>
  match m (c_rtc s) with
  | Ok (a, r) => Ok (a, Clock (boottime_bt s) (tsc_at_boot s) (timekeeping_initialized s) (frequency_hz s) r)
  | Fault f => Fault f
  end.

Definition tsc_read : K Z := with_rtc (io (fun h => Ok (rdtsc h))).

Definition set_boottime (bt : bintime_t) (s : clock H) : clock H :=
  Clock bt (tsc_at_boot s) (timekeeping_initialized s) (frequency_hz s) (c_rtc s).

Definition timekeeping_init (wait : nat) : K unit :=
  init <- gets timekeeping_initialized ;;
  if (init : bool) then ret tt
  else
    r <- with_rtc (rtc_get_time wait 1) ;;
    match r with
    | Some _ => ts <- with_rtc (rtc_get_timestamp wait) ;; modify (set_boottime (Bintime ts 0))
    | None => modify (set_boottime (Bintime 0 0))
    end ;;;
    t <- tsc_read ;;
    modify (fun s => Clock (boottime_bt s) t true (frequency_hz s) (c_rtc s)).

(** [tsc_to_ns(tsc_read() - tsc_at_boot)]. *)
Definition nsecuptime : K Z :=
  now <- tsc_read ;;
  boot <- gets tsc_at_boot ;;
  f <- gets frequency_hz ;;
  ret (tsc_to_ns f (u64 (now - boot))).

Definition getnsecuptime : K Z := nsecuptime.
Definition getnsecruntime : K Z := nsecuptime.

Definition binuptime : K bintime_t :=
  ns <- nsecuptime ;;
  ret (Bintime (ns / 1000000000) (u64 (ns mod 1000000000 * 18446744073))).

Definition nanouptime : K timespec := ns <- nsecuptime ;; ret (NSEC_TO_TIMESPEC ns).
Definition microuptime : K timeval := ns <- nsecuptime ;; ret (NSEC_TO_TIMEVAL ns).
Definition getbinuptime : K bintime_t := binuptime.
Definition getnanouptime : K timespec := nanouptime.
Definition getmicrouptime : K timeval := microuptime.
Definition binruntime : K bintime_t := binuptime.
Definition nanoruntime : K timespec := nanouptime.
Definition getbinruntime : K bintime_t := getbinuptime.

Definition bintime : K bintime_t :=
  uptime <- binuptime ;;
  boot <- gets boottime_bt ;;
  ret (bintimeadd boot uptime).

Definition nanotime : K timespec := bt <- bintime ;; ret (BINTIME_TO_TIMESPEC bt).
Definition microtime : K timeval := bt <- bintime ;; ret (BINTIME_TO_TIMEVAL bt).
Definition getnanotime : K timespec := nanotime.
Definition getmicrotime : K timeval := microtime.

Definition binboottime : K bintime_t := gets boottime_bt.
Definition nanoboottime : K timespec := bt <- gets boottime_bt ;; ret (BINTIME_TO_TIMESPEC bt).
Definition microboottime : K timeval := bt <- gets boottime_bt ;; ret (BINTIME_TO_TIMEVAL bt).

Definition gettime : K Z := bt <- bintime ;; ret (sec bt).
Definition getuptime : K Z := bt <- binuptime ;; ret (sec bt).

(** [true] is the result 0, [false] is -1. *)
Definition settime (ts : timespec) : K bool :=
  if negb (timespecisvalid ts) then ret false
  else
    let bt := TIMESPEC_TO_BINTIME ts in
    uptime <- binuptime ;;
    modify (set_boottime (bintimesub bt uptime)) ;;;
    ret true.

(** The new value of [*lasttime] is returned with the answer. *)
Definition ratecheck (lasttime mininterval : timeval) : K (bool * timeval) :=
  tv <- microtime ;;
  if timerlt (timersub tv lasttime) mininterval then ret (false, lasttime) else ret (true, tv).

Definition ppsratecheck (lasttime : timeval) (curpps maxpps : Z) : K (bool * timeval * Z) :=
  tv <- microtime ;;
  if tvu_sec (timersub tv lasttime) =? 0 then
    let curpps := s32 (curpps + 1) in
    ret (curpps <=? maxpps, lasttime, curpps)
  else ret (true, tv, 0).

(** [None] is the result -1. *)
Definition clock_gettime (clock_id : Z) : K (option timespec) :=
  if clock_id =? 0 then ts <- nanotime ;; ret (Some ts)
  else if (clock_id =? 1) || (clock_id =? 4) || (clock_id =? 7) then ts <- nanouptime ;; ret (Some ts)
  else ret None.
End clock.

(** ** What a reading of the clock is *)

Section reading.
Context {H : Type} `{Ports H} `{Tsc H}.
Implicit Types s : clock H.

Definition hw_of s : H := r_hw (c_rtc s).
Definition after_read s : clock H :=
  Clock (boottime_bt s) (tsc_at_boot s) (timekeeping_initialized s) (frequency_hz s)
    (set_hw (rdtsc (hw_of s)).2 (c_rtc s)).

(** The nanoseconds since boot that the next reading of the counter shows. *)
Definition uptime_ns s : Z := tsc_to_ns (frequency_hz s) (u64 ((rdtsc (hw_of s)).1 - tsc_at_boot s)).

Definition ns_bintime (ns : Z) : bintime_t := Bintime (ns / 1000000000) (ns mod 1000000000 * 18446744073).

Lemma uptime_bounds s : 0 < frequency_hz s -> 0 <= uptime_ns s < 2 ^ 64.
Proof.
  intros Hf. unfold uptime_ns, tsc_to_ns. destruct (_ =? 0); [lia|].
  pose proof (u64_range (u64 ((rdtsc (hw_of s)).1 - tsc_at_boot s) * 1000000000)) as Hr. revert Hr. generalize (u64 (u64 ((rdtsc (hw_of s)).1 - tsc_at_boot s) * 1000000000)).
  intros x Hx. split; [apply Z.div_pos; lia|]. apply Z.div_lt_upper_bound; [lia|]. nia.
Qed.

Lemma nsecuptime_eq s : nsecuptime s = Ok (uptime_ns s, after_read s).
Proof.
  unfold nsecuptime, tsc_read, with_rtc, io, bind, gets, ret, uptime_ns, after_read, hw_of.
  by destruct (rdtsc (r_hw (c_rtc s))) as [v h].
Qed.

Lemma binuptime_eq s : 0 < frequency_hz s -> binuptime s = Ok (ns_bintime (uptime_ns s), after_read s).
Proof.
  intros Hf. pose proof (uptime_bounds s Hf). unfold binuptime, bind. rewrite nsecuptime_eq. unfold ret, ns_bintime.
  do 3 f_equal. unfold u64. rewrite Z.mod_small; dlia.
Qed.

Lemma ns_bintime_ok ns : 0 <= ns < 2 ^ 64 -> bt_ok (ns_bintime ns) /\
  1000000000 * bt_value (ns_bintime ns) = ns * 2 ^ 64 - ns mod 1000000000 * 709551616.
Proof. intros Hn. unfold bt_ok, bt_value, ns_bintime. simpl. split; [split|]; dlia. Qed.

(** A [bintime] that is [t] nanoseconds, up to the error of the constant
    2^64 / 10^9 rounded down, shows [t] or [t - 1] as a [timespec]. *)
Lemma shown_timespec bt t e : 0 <= frac bt < 2 ^ 64 ->
  1000000000 * bt_value bt = t * 2 ^ 64 - e * 709551616 -> -1000000000 < e < 2000000000 ->
  (ts_value (BINTIME_TO_TIMESPEC bt) = t \/ ts_value (BINTIME_TO_TIMESPEC bt) = t - 1) /\
  0 <= tv_nsec (BINTIME_TO_TIMESPEC bt) < 1000000000.
Proof.
  intros Hf Hv He. destruct (FRAC_TO_NSEC_spec _ Hf) as [Hn Hb]. split; [|done]. unfold ts_value. simpl. rewrite Hn.
  unfold bt_value in Hv. revert Hv. generalize (sec bt) (frac bt) Hf. clear -He. intros s f Hf Hv. dlia.
Qed.

Lemma settime_eq ts s : ts_ok ts -> 0 < frequency_hz s ->
  settime ts s = Ok (true, set_boottime (bintimesub (TIMESPEC_TO_BINTIME ts) (ns_bintime (uptime_ns s))) (after_read s)).
Proof.
  intros Hts Hf. unfold settime.
  assert (Hv : timespecisvalid ts = true) by (unfold timespecisvalid, ts_ok in *; lia).
  rewrite Hv. cbn [negb]. unfold bind. by rewrite (binuptime_eq s Hf).
Qed.

Lemma nanotime_eq s : 0 < frequency_hz s ->
  nanotime s = Ok (BINTIME_TO_TIMESPEC (bintimeadd (boottime_bt s) (ns_bintime (uptime_ns s))), after_read s).
Proof. intros Hf. unfold nanotime, bintime, bind. by rewrite binuptime_eq. Qed.
End reading.

(** After [settime] the clock shows the time that was set plus the time
    that has passed on the counter since: [nanotime] returns it in nanoseconds,
    rounded down by at most one, and as a proper [timespec]. *)
Theorem settime_nanotime {H : Type} `{Ports H} `{Tsc H} ts (s : clock H) :
  ts_ok ts -> 0 < frequency_hz s ->
  exists s', settime ts s = Ok (true, s') /\
    exists now s'', nanotime s' = Ok (now, s'') /\ 0 <= tv_nsec now < 1000000000 /\
      let t := ts_value ts + (uptime_ns s' - uptime_ns s) in ts_value now = t \/ ts_value now = t - 1.
Proof.
  intros Hts Hf. eexists. split; [by apply settime_eq|]. set (s' := set_boottime _ _).
  assert (Hf' : 0 < frequency_hz s') by done. do 2 eexists. split; [by apply nanotime_eq|].
  destruct (ns_bintime_ok _ (uptime_bounds s Hf)) as [Hu Huv].
  destruct (ns_bintime_ok _ (uptime_bounds s' Hf')) as [Hu' Huv'].
  assert (Hb : bt_ok (TIMESPEC_TO_BINTIME ts) /\
    1000000000 * bt_value (TIMESPEC_TO_BINTIME ts) = ts_value ts * 2 ^ 64 - tv_nsec ts * 709551616).
  { destruct Hts as [Hs Hn]. unfold bt_ok, bt_value, ts_value, TIMESPEC_TO_BINTIME, u64. simpl.
    rewrite (Z.mod_small (tv_nsec ts)) by lia. rewrite Z.mod_small by lia. lia. }
  destruct Hb as [Hb Hbv]. change (boottime_bt s') with (bintimesub (TIMESPEC_TO_BINTIME ts) (ns_bintime (uptime_ns s))).
  destruct (bintimesub_value _ _ Hb Hu) as [Hsv Hsf]. set (b0 := bintimesub _ _) in *.
  assert (Hb0 : bt_ok b0).
  { split; [|done]. destruct Hts as [Hs Hn], Hu as [Hu1 Hu2], Hb as [Hb1 Hb2]. pose proof (uptime_bounds s Hf).
    unfold bt_value in Hsv. assert (0 <= sec (ns_bintime (uptime_ns s)) < 2 ^ 35) by (simpl; dlia).
    change (sec (TIMESPEC_TO_BINTIME ts)) with (tv_sec ts) in *. lia. }
  destruct (bintimeadd_value _ _ Hb0 Hu') as [Hav Haf].
  apply and_comm, (shown_timespec _ _ (tv_nsec ts - uptime_ns s mod 1000000000 + uptime_ns s' mod 1000000000)); [done| |].
  - rewrite Hav, Hsv. lia.
  - destruct Hts as [_ Hn]. pose proof (Z.mod_pos_bound (uptime_ns s) 1000000000).
    pose proof (Z.mod_pos_bound (uptime_ns s') 1000000000). lia.
Qed.

(** The time since boot is wrong after 18446744073 counts of the counter
    (about six seconds at 3 GHz): one count later the product in [tsc_to_ns]
    passes 2^64, and the clock goes back to less than a second. *)
Theorem uptime_wraps {H : Type} `{Ports H} `{Tsc H} (s1 s2 : clock H) :
  0 < frequency_hz s1 < 2 ^ 63 -> frequency_hz s2 = frequency_hz s1 -> tsc_at_boot s2 = tsc_at_boot s1 ->
  (rdtsc (hw_of s1)).1 = tsc_at_boot s1 + 18446744073 ->
  (rdtsc (hw_of s2)).1 = tsc_at_boot s2 + 18446744074 ->
  exists s1' s2', nsecuptime s1 = Ok (18446744073000000000 / frequency_hz s1, s1') /\
    nsecuptime s2 = Ok (290448384 / frequency_hz s1, s2').
Proof.
  intros Hf Hf2 Hb Hc1 Hc2. rewrite !nsecuptime_eq. do 2 eexists. unfold uptime_ns, tsc_to_ns.
  rewrite Hf2, Hc1, Hc2, !Z.add_simpl_l. destruct (Z.eqb_spec (frequency_hz s1) 0); [lia|]. split; repeat f_equal.
Qed.

(** Without wrap the time since boot is exact and in proper form: while
    fewer than 2^64 / 10^9 counts have passed, [nanouptime] is the number of
    counts times 10^9 divided by the frequency, in nanoseconds, rounded down. *)
Theorem nanouptime_exact {H : Type} `{Ports H} `{Tsc H} (s : clock H) c :
  0 < frequency_hz s -> 0 <= tsc_at_boot s < 2 ^ 64 -> (rdtsc (hw_of s)).1 = u64 (tsc_at_boot s + c) ->
  0 <= c <= 18446744073 ->
  exists ts s', nanouptime s = Ok (ts, s') /\ 0 <= tv_nsec ts < 1000000000 /\
    ts_value ts = c * 1000000000 / frequency_hz s.
Proof.
  intros Hf Hb Hc Hcb. unfold nanouptime, bind. rewrite nsecuptime_eq. do 2 eexists. split; [done|].
  assert (Hu : uptime_ns s = c * 1000000000 / frequency_hz s).
  { unfold uptime_ns, tsc_to_ns. destruct (Z.eqb_spec (frequency_hz s) 0); [lia|]. f_equal. rewrite Hc. unfold u64.
    rewrite Zminus_mod_idemp_l, Z.add_simpl_l. rewrite (Z.mod_small c) by lia. rewrite Z.mod_small; lia. }
  unfold NSEC_TO_TIMESPEC, ts_value. simpl. rewrite Hu. dlia.
Qed.

(** Saturating conversions. *)
Lemma TIMESPEC_TO_NSEC_saturates ts : 0 <= tv_sec ts < 2 ^ 63 -> 0 <= tv_nsec ts < 1000000000 ->
  TIMESPEC_TO_NSEC ts = Z.min (ts_value ts) UINT64_MAX.
Proof.
  intros Hs Hn. unfold TIMESPEC_TO_NSEC, ts_value, UINT64_MAX, u64.
  rewrite (proj2 (Z.ltb_ge _ _)) by lia. rewrite (Z.mod_small (tv_nsec ts)), (Z.mod_small (tv_sec ts)) by lia.
  rewrite (Z.mod_small (2 ^ 64 - 1 - tv_nsec ts)) by lia.
  destruct (Z.ltb_spec ((2 ^ 64 - 1 - tv_nsec ts) / 1000000000) (tv_sec ts)); [dlia|]. rewrite Z.mod_small; dlia.
Qed.

(** ** Witnesses: a machine with nothing behind its ports and a counter that
    grows by 1500 with every reading *)

#[global] Instance counter_ports : Ports Z := {| port_out _ _ h := h; port_in _ h := (0, h) |}.
#[global] Instance counter_tsc : Tsc Z := {| rdtsc h := (h, h + 1500) |}.

Definition started (c : Z) : clock Z := Clock (Bintime 1700000000 0) 1000 true 3000000000 (Rtc NULL TZ_UTC ∅ c).

Lemma settime_nanotime_witness :
  exists s', settime (Timespec 1800000000 999999999) (started 600000000) = Ok (true, s') /\
    exists now s'', nanotime s' = Ok (now, s'') /\ 0 <= tv_nsec now < 1000000000 /\
      let t := 1800000000999999999 + (uptime_ns s' - uptime_ns (started 600000000)) in
      ts_value now = t \/ ts_value now = t - 1.
Proof. refine (settime_nanotime (Timespec 1800000000 999999999) (started 600000000) _ _); [|done]. unfold ts_ok. simpl. lia. Defined.

(** The nanosecond that is lost. *)
Example settime_rounds_down :
  match settime (Timespec 1800000000 1) (started 600000000) with
  | Ok (_, s') => match nanotime s' with Ok (now, _) => now | Fault _ => Timespec 0 0 end
  | Fault _ => Timespec 0 0
  end = Timespec 1800000000 500.
Proof. by vm_compute. Qed.

Lemma uptime_wraps_witness :
  exists s1' s2', nsecuptime (started 18446745073) = Ok (18446744073000000000 / 3000000000, s1') /\
    nsecuptime (started 18446745074) = Ok (290448384 / 3000000000, s2').
Proof. refine (uptime_wraps (started 18446745073) (started 18446745074) _ _ _ _ _); by vm_compute. Defined.

Lemma nanouptime_exact_witness :
  exists ts s', nanouptime (started 3000001000) = Ok (ts, s') /\ 0 <= tv_nsec ts < 1000000000 /\
    ts_value ts = 3000000000 * 1000000000 / 3000000000.
Proof. refine (nanouptime_exact (started 3000001000) 3000000000 _ _ _ _); by vm_compute. Defined.
