(* ===== verification/Vmm.v ===== *)
(** * The virtual memory manager ([sys/src/libmem/vmm.c])

    Address spaces with a break and a list of regions, above the page tables
    and the frame allocator.  Every [vmm_address_space_t] and every
    [vmm_region_t] lies in a frame of its own, taken from [pmm_alloc]; the
    objects are kept beside the words of memory, by address, and a list of
    regions is the list of their addresses and contents.  The dump of the
    regions to the serial line is left out. *)

From stdpp Require Import base numbers list list_numbers gmap.
From S2P Require Import Prelude Pmm Mmu Paging.

Definition VMM_KERNEL_HEAP_START : Z := 0xFFFFFFFF90000000.
Definition VMM_KERNEL_HEAP_SIZE : Z := 64 * 1024 * 1024.
Definition VMM_USER_HEAP_START : Z := 0x0000000001000000.
Definition VMM_USER_STACK_TOP : Z := 0x00007FFFFFFFF000.
Definition VMM_USER_STACK_SIZE : Z := 8 * 1024 * 1024.

(** [vmm_region_type_t], by value. *)
Definition VMM_REGION_KERNEL_CODE : Z := 0.
Definition VMM_REGION_KERNEL_DATA : Z := 1.
Definition VMM_REGION_KERNEL_HEAP : Z := 2.
Definition VMM_REGION_KERNEL_STACK : Z := 3.
Definition VMM_REGION_USER_CODE : Z := 4.
Definition VMM_REGION_USER_DATA : Z := 5.
Definition VMM_REGION_USER_HEAP : Z := 6.
Definition VMM_REGION_USER_STACK : Z := 7.
Definition VMM_REGION_SHARED : Z := 8.
Definition VMM_REGION_MMIO : Z := 9.

(** The conversion [(region_type_t)type] of an enumeration value. *)
Definition as_region_type (type : Z) : option region_type_t :=
  [REGION_TYPE_KERNEL_CODE; REGION_TYPE_KERNEL_DATA; REGION_TYPE_KERNEL_STACK; REGION_TYPE_USER_CODE;
   REGION_TYPE_USER_DATA; REGION_TYPE_USER_STACK; REGION_TYPE_MMIO; REGION_TYPE_FRAMEBUFFER] !! Z.to_nat type.

Record vmm_region := VmmRegion {
  virt_start : Z; virt_end : Z; rg_flags : Z; rg_type : Z; cow : bool
}.

Record vmm_address_space := VmmSpace {
  page_dir : Z; regions : list (Z * vmm_region); heap_start : Z; heap_end : Z; brk : Z
}.

Record vmm_stats := VmmStats {
  vst_total_pages : Z; used_pages : Z; cached_pages : Z; page_faults : Z; tlb_flushes : Z
}.

Record vmm := Vmm {
  vm : machine;
  spaces : gmap Z vmm_address_space;
  kernel_space : Z;
  current_space : Z;
  vm_stats : vmm_stats
}.

Definition set_vm (m : machine) (s : vmm) : vmm := Vmm m (spaces s) (kernel_space s) (current_space s) (vm_stats s).
Definition set_spaces (f : gmap Z vmm_address_space -> gmap Z vmm_address_space) (s : vmm) : vmm :=
  Vmm (vm s) (f (spaces s)) (kernel_space s) (current_space s) (vm_stats s).
Definition set_kernel_space (a : Z) (s : vmm) : vmm := Vmm (vm s) (spaces s) a (current_space s) (vm_stats s).
Definition set_current_space (a : Z) (s : vmm) : vmm := Vmm (vm s) (spaces s) (kernel_space s) a (vm_stats s).
Definition set_vstats (f : vmm_stats -> vmm_stats) (s : vmm) : vmm :=
  Vmm (vm s) (spaces s) (kernel_space s) (current_space s) (f (vm_stats s)).

Definition set_regions (f : list (Z * vmm_region) -> list (Z * vmm_region)) (p : vmm_address_space) : vmm_address_space :=
  VmmSpace (page_dir p) (f (regions p)) (heap_start p) (heap_end p) (brk p).
Definition set_brk (b : Z) (p : vmm_address_space) : vmm_address_space :=
  VmmSpace (page_dir p) (regions p) (heap_start p) (heap_end p) b.
Definition set_used (n : Z) (st : vmm_stats) : vmm_stats :=
  VmmStats (vst_total_pages st) n (cached_pages st) (page_faults st) (tlb_flushes st).

Abbreviation VM := (M vmm).

(** A call into the layers below. *)
Definition mm {A : Type} (m : MM A) : VM A := fun s =>
  match m (vm s) with
  | Ok (a, m') => Ok (a, set_vm m' s)
  | Fault f => Fault f
  end.
Definition alloc_frame : VM Z := mm (in_frames pmm_alloc).
Definition free_frame (a : Z) : VM unit := mm (in_frames (pmm_free a)).

Definition the_space (space : Z) : VM vmm_address_space := fun s =>
  match spaces s !! space with Some p => Ok (p, s) | None => Fault F_oob end.
Definition upd_space (space : Z) (f : vmm_address_space -> vmm_address_space) : VM unit :=
  p <- the_space space ;; modify (set_spaces (<[space := f p]>)).

(** ** Regions *)

(** The address of the new region, [NULL] when there is no frame, and its
    contents. *)
Definition vmm_create_region (virt_start virt_end type flags : Z) : VM (Z * vmm_region) :=
  region <- alloc_frame ;;
  ret (region, VmmRegion virt_start virt_end flags type false).

Definition vmm_free_region (region : Z) : VM unit :=
  if negb (region =? NULL) then free_frame region else ret tt.

Definition covers (virt_addr : Z) (r : vmm_region) : bool :=
  (virt_start r <=? virt_addr) && (virt_addr <? virt_end r).

Definition find_region (l : list (Z * vmm_region)) (virt_addr : Z) : option (Z * vmm_region) :=
  List.find (fun r => covers virt_addr r.2) l.

Definition vmm_find_region (space virt_addr : Z) : VM (option (Z * vmm_region)) :=
  if space =? NULL then ret None
  else p <- the_space space ;; ret (find_region (regions p) virt_addr).

Definition vmm_add_region (space : Z) (region : Z * vmm_region) : VM bool :=
  if (space =? NULL) || (region.1 =? NULL) then ret false
  else upd_space space (set_regions (fun l => l ++ [region])) ;;; ret true.

(** The first region that starts at [virt_start], and the list without it. *)
Fixpoint take_region (virt_at : Z) (l : list (Z * vmm_region)) : option (Z * list (Z * vmm_region)) :=
  match l with
  | [] => None
  | r :: l =>
      if virt_start r.2 =? virt_at then Some (r.1, l)
      else match take_region virt_at l with
           | Some (a, l') => Some (a, r :: l')
           | None => None
           end
  end.

Definition vmm_remove_region (space virt_at : Z) : VM bool :=
  if space =? NULL then ret false
  else
    p <- the_space space ;;
    match take_region virt_at (regions p) with
    | None => ret false
    | Some (a, l) =>
        upd_space space (set_regions (fun _ => l)) ;;;
        vmm_free_region a ;;;
        ret true
    end.

(** ** Address spaces *)

Definition vmm_init : VM unit :=
  mm paging_init ;;;
  space <- alloc_frame ;;
  modify (set_kernel_space space) ;;;
  if space =? NULL then ret tt
  else
    pd <- mm paging_get_kernel_directory ;;
    modify (set_spaces (<[space := VmmSpace pd [] VMM_KERNEL_HEAP_START
      (u64 (VMM_KERNEL_HEAP_START + VMM_KERNEL_HEAP_SIZE)) VMM_KERNEL_HEAP_START]>)) ;;;
    modify (set_current_space space) ;;;
    total <- mm (in_frames pmm_get_total_memory) ;;
    modify (set_vstats (fun _ => VmmStats (total / PAGE_SIZE) 0 0 0 0)).

Definition vmm_create_address_space (is_kernel : bool) : VM Z :=
  space <- alloc_frame ;;
  if space =? NULL then ret NULL
  else
    pd <- (if is_kernel then mm paging_create_kernel_address_space else mm paging_create_user_address_space) ;;
    let hs := if is_kernel then VMM_KERNEL_HEAP_START else VMM_USER_HEAP_START in
    let he := if is_kernel then u64 (VMM_KERNEL_HEAP_START + VMM_KERNEL_HEAP_SIZE)
              else u64 (VMM_USER_STACK_TOP - VMM_USER_STACK_SIZE) in
    if pd =? NULL then free_frame space ;;; ret NULL
    else
      modify (set_spaces (<[space := VmmSpace pd [] hs he hs]>)) ;;;
      ret space.

Definition region_pages (r : vmm_region) : Z := u64 (virt_end r - virt_start r) / PAGE_SIZE.

Fixpoint destroy_regions (pd : Z) (l : list (Z * vmm_region)) : VM unit :=
  match l with
  | [] => ret tt
  | r :: l =>
      mm (paging_unmap_range pd (virt_start r.2) (region_pages r.2)) ;;;
      vmm_free_region r.1 ;;;
      destroy_regions pd l
  end.

Definition vmm_destroy_address_space (space : Z) : VM unit :=
  if space =? NULL then ret tt
  else
    p <- the_space space ;;
    destroy_regions (page_dir p) (regions p) ;;;
    mm (mmu_destroy_address_space (page_dir p)) ;;;
    free_frame space ;;;
    modify (set_spaces (delete space)).

(** One page of a region in [vmm_fork_address_space]. *)
Definition fork_page (parent_pd child_pd : Z) (r : vmm_region) (i : Z) : VM unit :=
  let virt := nth_page (virt_start r) i in
  phys <- mm (mmu_get_physical_address parent_pd virt) ;;
  if negb (phys =? 0) then
    let cow_flags := Z.land (rg_flags r) (u64 (Z.lnot PAGE_WRITE)) in
    mm (mmu_map_page child_pd virt phys cow_flags) ;;;
    mm (paging_protect_range parent_pd virt 1 cow_flags) ;;;
    ret tt
  else ret tt.

Definition mark_cow (r : vmm_region) : vmm_region := VmmRegion (virt_start r) (virt_end r) (rg_flags r) (rg_type r) true.

(** The loop over the regions of the parent; [done] are those already
    visited.  [false] is the early return. *)
Fixpoint fork_regions (parent child parent_pd child_pd : Z) (visited l : list (Z * vmm_region)) : VM bool :=
  match l with
  | [] => ret true
  | r :: l =>
      new <- vmm_create_region (virt_start r.2) (virt_end r.2) (rg_type r.2) (rg_flags r.2) ;;
      if new.1 =? NULL then vmm_destroy_address_space child ;;; ret false
      else
        vmm_add_region child (new.1, mark_cow new.2) ;;;
        for_each 0 (region_pages r.2) tt (fun i _ => fork_page parent_pd child_pd r.2 i) ;;;
        let visited := visited ++ [(r.1, mark_cow r.2)] in
        upd_space parent (set_regions (fun _ => visited ++ l)) ;;;
        fork_regions parent child parent_pd child_pd visited l
  end.

Definition vmm_fork_address_space (parent : Z) : VM Z :=
  if parent =? NULL then ret NULL
  else
    child <- vmm_create_address_space false ;;
    if child =? NULL then ret NULL
    else
      pp <- the_space parent ;;
      cp <- the_space child ;;
      ok <- fork_regions parent child (page_dir pp) (page_dir cp) [] (regions pp) ;;
      if negb ok then ret NULL
      else
        pp <- the_space parent ;;
        upd_space child (set_brk (brk pp)) ;;;
        ret child.

Definition count_flush : VM unit :=
  modify (set_vstats (fun st => VmmStats (vst_total_pages st) (used_pages st) (cached_pages st) (page_faults st)
    (u64 (tlb_flushes st + 1)))).
Definition vmm_flush_tlb (virt_addr : Z) : VM unit := mm (mmu_flush_tlb_single virt_addr) ;;; count_flush.
Definition vmm_flush_tlb_all : VM unit := mm mmu_flush_tlb_all ;;; count_flush.

Definition vmm_switch_address_space (space : Z) : VM unit :=
  if space =? NULL then ret tt
  else
    p <- the_space space ;;
    if page_dir p =? NULL then ret tt
    else
      mm (paging_switch_directory (page_dir p)) ;;;
      modify (set_current_space space) ;;;
      vmm_flush_tlb_all.

Definition vmm_get_kernel_space : VM Z := gets kernel_space.
Definition vmm_get_current_space : VM Z := gets current_space.
Definition vmm_get_stats : VM vmm_stats := gets vm_stats.

(** ** Memory *)

(** [(size + PAGE_SIZE - 1) & ~(PAGE_SIZE - 1)]. *)
Definition round_up (size : Z) : Z := Z.land (u64 (size + PAGE_SIZE - 1)) (u64 (Z.lnot (PAGE_SIZE - 1))).

(** The pages [0 .. i) of an attempt are unmapped and their frames freed;
    [by_phys] is the path that passes the physical address to [pmm_free]. *)
Definition roll_back (by_phys : bool) (pd virt_addr i : Z) : VM unit :=
  for_each 0 i tt (fun j _ =>
    let virt := nth_page virt_addr j in
    phys <- mm (mmu_get_physical_address pd virt) ;;
    if negb (phys =? 0) then
      mm (mmu_unmap_page pd virt) ;;;
      if by_phys then free_frame phys
      else a <- mm (mmu_phys_to_virt phys) ;; free_frame a
    else ret tt).

(** The loop of [vmm_alloc] and [vmm_alloc_at]; [false] is [return NULL]. *)
Definition map_new_pages (pd virt_addr num_pages flags : Z) : VM bool :=
  r <- for_range 0 num_pages tt (fun i _ =>
    phys_page <- alloc_frame ;;
    if phys_page =? NULL then
      roll_back false pd virt_addr i ;;; ret (inr false)
    else
      mm (zero_page phys_page) ;;;
      phys <- mm (mmu_virt_to_phys phys_page) ;;
      ok <- mm (mmu_map_page pd (nth_page virt_addr i) phys flags) ;;
      if negb ok then
        free_frame phys_page ;;;
        roll_back true pd virt_addr i ;;;
        ret (inr false)
      else ret (inl tt)) ;;
  match r with inr b => ret b | inl _ => ret true end.

Definition add_used (num_pages : Z) : VM unit :=
  modify (set_vstats (fun st =>
    if used_pages st <=? u64 (used_pages st + num_pages) then set_used (u64 (used_pages st + num_pages)) st else st)).
Definition sub_used (num_pages : Z) : VM unit :=
  modify (set_vstats (fun st =>
    if num_pages <=? used_pages st then set_used (used_pages st - num_pages) st else set_used 0 st)).

Definition vmm_alloc (space size : Z) : VM Z :=
  if (space =? NULL) || (size =? 0) then ret NULL
  else
    let size := round_up size in
    p <- the_space space ;;
    let virt_addr := brk p in
    if heap_end p <? u64 (virt_addr + size) then ret NULL
    else if negb (forallb (fun r => (u64 (virt_addr + size) <=? virt_start r.2) || (virt_end r.2 <=? virt_addr)) (regions p))
    then ret NULL
    else
      let num_pages := size / PAGE_SIZE in
      k <- gets kernel_space ;;
      let flags := Z.lor PAGE_PRESENT PAGE_WRITE in
      let flags := if negb (space =? k) then Z.lor flags PAGE_USER else flags in
      ok <- map_new_pages (page_dir p) virt_addr num_pages flags ;;
      if negb ok then ret NULL
      else
        upd_space space (fun p => if virt_addr =? brk p then set_brk (u64 (brk p + size)) p else p) ;;;
        add_used num_pages ;;;
        region <- vmm_create_region virt_addr (u64 (virt_addr + size))
          (if space =? k then VMM_REGION_KERNEL_HEAP else VMM_REGION_USER_HEAP)
          (Z.lor PAGE_PRESENT PAGE_WRITE) ;;
        (if negb (region.1 =? NULL) then vmm_add_region space region ;;; ret tt else ret tt) ;;;
        ret virt_addr.

Definition vmm_alloc_at (space virt_addr size flags : Z) : VM Z :=
  if (space =? NULL) || (size =? 0) then ret NULL
  else
    let virt_addr := page_align_down virt_addr in
    let num_pages := round_up size / PAGE_SIZE in
    p <- the_space space ;;
    ok <- map_new_pages (page_dir p) virt_addr num_pages flags ;;
    if negb ok then ret NULL
    else add_used num_pages ;;; ret virt_addr.

Definition vmm_free (space ptr size : Z) : VM unit :=
  if (space =? NULL) || (ptr =? NULL) || (size =? 0) then ret tt
  else
    let virt_addr := page_align_down ptr in
    let num_pages := round_up size / PAGE_SIZE in
    p <- the_space space ;;
    roll_back true (page_dir p) virt_addr num_pages ;;;
    sub_used num_pages ;;;
    vmm_remove_region space virt_addr ;;;
    ret tt.

Definition vmm_map_region (space virt_at size type : Z) : VM bool :=
  if (space =? NULL) || (size =? 0) then ret false
  else
    let virt_at := page_align_down virt_at in
    let size := round_up size in
    let flags := paging_get_flags_for_region_type (as_region_type type) in
    let num_pages := size / PAGE_SIZE in
    p <- the_space space ;;
    r <- for_range 0 num_pages tt (fun i _ =>
      phys_page <- alloc_frame ;;
      if phys_page =? NULL then ret (inr false)
      else
        phys <- mm (mmu_virt_to_phys phys_page) ;;
        ok <- mm (mmu_map_page (page_dir p) (nth_page virt_at i) phys flags) ;;
        if negb ok then free_frame phys_page ;;; ret (inr false) else ret (inl tt)) ;;
    match r with
    | inr b => ret b
    | inl _ =>
        region <- vmm_create_region virt_at (u64 (virt_at + size)) type flags ;;
        if region.1 =? NULL then ret false
        else
          vmm_add_region space region ;;;
          modify (set_vstats (fun st => set_used (u64 (used_pages st + num_pages)) st)) ;;;
          ret true
    end.

Definition vmm_unmap_region (space virt_at size : Z) : VM bool :=
  if (space =? NULL) || (size =? 0) then ret false
  else
    let virt_at := page_align_down virt_at in
    let num_pages := round_up size / PAGE_SIZE in
    p <- the_space space ;;
    mm (paging_unmap_range (page_dir p) virt_at num_pages) ;;;
    vmm_remove_region space virt_at ;;;
    sub_used num_pages ;;;
    ret true.

Definition vmm_protect_region (space virt_at size flags : Z) : VM bool :=
  if (space =? NULL) || (size =? 0) then ret false
  else
    let virt_at := page_align_down virt_at in
    let num_pages := round_up size / PAGE_SIZE in
    p <- the_space space ;;
    mm (paging_protect_range (page_dir p) virt_at num_pages flags).

(** [(void * )-1] is [UINT64_MAX]; [increment] is signed. *)
Definition vmm_sbrk (space increment : Z) : VM Z :=
  if space =? NULL then ret UINT64_MAX
  else
    p <- the_space space ;;
    let old_brk := brk p in
    if increment =? 0 then ret old_brk
    else
      let new_brk := u64 (old_brk + increment) in
      if (heap_end p <? new_brk) || (new_brk <? heap_start p) then ret UINT64_MAX
      else if 0 <? increment then
        r <- vmm_alloc space increment ;;
        if r =? NULL then ret UINT64_MAX else ret old_brk
      else
        let free_start := round_up new_brk in
        let free_end := page_align_down old_brk in
        (if free_start <? free_end then vmm_free space free_start (free_end - free_start) else ret tt) ;;;
        upd_space space (set_brk new_brk) ;;;
        ret old_brk.

Definition vmm_handle_page_fault (fault_addr error_code : Z) : VM unit :=
  modify (set_vstats (fun st => VmmStats (vst_total_pages st) (used_pages st) (cached_pages st)
    (u64 (page_faults st + 1)) (tlb_flushes st))) ;;;
  space <- gets current_space ;;
  if space =? NULL then ret tt
  else
    region <- vmm_find_region space fault_addr ;;
    match region with
    | None => ret tt
    | Some (_, region) =>
        if cow region && negb (Z.land error_code 0x2 =? 0) then
          let page_addr := page_align_down fault_addr in
          p <- the_space space ;;
          old_phys <- mm (mmu_get_physical_address (page_dir p) page_addr) ;;
          if old_phys =? 0 then ret tt
          else
            new_page <- alloc_frame ;;
            if new_page =? NULL then ret tt
            else
              old_virt <- mm (mmu_phys_to_virt old_phys) ;;
              mm (copy_page new_page old_virt) ;;;
              mm (mmu_unmap_page (page_dir p) page_addr) ;;;
              let new_flags := Z.lor (rg_flags region) PAGE_WRITE in
              new_phys <- mm (mmu_virt_to_phys new_page) ;;
              ok <- mm (mmu_map_page (page_dir p) page_addr new_phys new_flags) ;;
              if negb ok then free_frame new_page
              else vmm_flush_tlb page_addr
        else ret tt
    end.
