(* ===== verification/VmmFacts.v ===== *)
(** * Frames with data in an address space

    The page-table theorems account for the frames that become tables.  The
    virtual memory manager also maps frames as data: [held m0 tb0 m tb root fs]
    says that machine [m] has come from [m0] by growing the tables from [tb0]
    to [tb] and by taking the frames [fs], which hold zeros, and that no other
    memory in use has changed. *)

From stdpp Require Import base numbers list list_numbers gmap.
From S2P Require Import Prelude Bitmap Pmm PmmFacts PmmInit PmmSpec Mmu PageTree MmuFacts MmuSpec MmuThms Paging PagingThms Vmm.

Implicit Types (m : machine) (tb : tables) (s : vmm) (fs : list Z).

Record held m0 tb0 m tb (root : Z) fs : Prop := {
  hd_machine : same_machine m0 m;
  hd_sub : tb0 ⊆ tb;
  hd_nodup : NoDup fs;
  hd_free f : f ∈ free m0 <-> f ∈ free m \/ f ∈ fs \/ exists p, tb !! p = Some f /\ tb0 !! p = None;
  hd_fresh f : f ∈ fs -> f ∈ free m0 /\ f ∉ free m /\ forall p, tb !! p <> Some f;
  hd_zero f i : f ∈ fs -> 0 <= i < 512 -> word m f i = 0;
  hd_words f i : in_ram m0 f -> f ∉ free m0 -> outside tb0 root f i -> 0 <= i < 512 -> word m f i = word m0 f i
}.

#[global] Instance held_proper m0 tb0 m tb root : Proper (Permutation ==> impl) (held m0 tb0 m tb root).
Proof.
  intros fs fs' Hp [? ? Hn Hf Hfr Hz ?]. split; [done|done|by rewrite <- Hp| | | |done].
  - intros f. by rewrite Hf, Hp.
  - intros f. rewrite <- Hp. apply Hfr.
  - intros f i. rewrite <- Hp. apply Hz.
Qed.

Lemma held_refl m tb root : held m tb m tb root [].
Proof.
  split; try done; [apply NoDup_nil_2| |by intros f Hf%not_elem_of_nil|by intros f i Hf%not_elem_of_nil].
  intros f. split; [by left|]. intros [?|[?%not_elem_of_nil|(p & ? & ?)]]; [done|done|congruence].
Qed.

Section held.
Context (pd d root : Z).

Lemma held_evolves m0 tb0 m tb m' tb' fs :
  space m pd d root tb -> held m0 tb0 m tb root fs -> evolves m tb m' tb' root -> held m0 tb0 m' tb' root fs.
Proof.
  intros Hsp [Hm Hs Hn Hf Hfr Hz Hw] [Hm' Hs' Hf' Hw'].
  assert (Hnew : forall f p, tb' !! p = Some f -> tb !! p = None -> f ∈ free m).
  { intros f p H1 H2. apply Hf'. right. by exists p. }
  assert (Hdata : forall f, f ∈ fs -> in_ram m f /\ f ∉ free m' /\ forall p, tb' !! p <> Some f).
  { intros f Hin. destruct (Hfr f Hin) as (H0 & H1 & H2). split_and!.
    - rewrite (in_ram_same m0 m) by done. by apply elem_of_free.
    - intros Hin'. apply H1, Hf'. by left.
    - intros p Hp. destruct (tb !! p) as [g|] eqn:Hg; [|by apply H1, (Hnew f p)].
      rewrite (lookup_weaken _ _ _ _ Hg Hs') in Hp. injection Hp as ->. by apply (H2 p). }
  split.
  - by etransitivity.
  - by etransitivity.
  - done.
  - intros f. rewrite Hf, Hf'. split.
    + intros [[?|(p & ? & ?)]|[?|(p & Hp & Hp0)]]; [by left| |by right; left|].
      * right. right. exists p. split; [done|]. apply eq_None_not_Some. intros [g Hg].
        pose proof (lookup_weaken _ _ _ _ Hg Hs). congruence.
      * right. right. exists p. split; [by eapply lookup_weaken|done].
    + intros [?|[?|(p & Hp & Hp0)]]; [by left; left|by right; left|].
      destruct (tb !! p) as [g|] eqn:Hg; [|left; right; by exists p].
      right. right. exists p. split; [|done]. rewrite (lookup_weaken _ _ _ _ Hg Hs') in Hp. congruence.
  - intros f Hin. destruct (Hdata f Hin) as (_ & ? & ?). destruct (Hfr f Hin) as (? & _ & _). done.
  - intros f i Hin Hi. destruct (Hdata f Hin) as (Hr & _ & _). destruct (Hfr f Hin) as (_ & H1 & H2).
    rewrite Hw'; [by apply Hz|done|done|by left|done].
  - intros f i Hr Hnf Ho Hi. rewrite Hw'; [by apply Hw|by rewrite (in_ram_same m0 m) by done| | |done].
    + intros Hin. apply Hnf, Hf. by left.
    + destruct Ho as [Ho|Ho]; [left|by right]. intros p Hp. destruct (tb0 !! p) as [g|] eqn:Hg.
      * rewrite (lookup_weaken _ _ _ _ Hg Hs) in Hp. injection Hp as ->. by apply (Ho p).
      * apply Hnf, Hf. right. right. by exists p.
Qed.

(** A free frame [g] is taken and written. *)
Lemma space_take m tb g p r :
  space m pd d root tb -> g ∈ free m -> pmm_inv p -> same_layout (frames m) p -> abs_free p = free m ∖ {[g]} ->
  (forall h j, h <> g -> 0 <= j < 512 -> word (set_ram r (set_frames p m)) h j = word m h j) ->
  space (set_ram r (set_frames p m)) pd d root tb.
Proof.
  intros [Hmm Ht Ha -> [Hd Hdf] Hap Hp4] Hg Hp Hl Hf Hw. set (m' := set_ram r (set_frames p m)) in *.
  assert (Hsm : same_machine m m') by (by split).
  assert (Hf' : free m' = free m ∖ {[g]}) by done.
  assert (Hkeep : forall h j, h ∉ free m -> 0 <= j < 512 -> word m' h j = word m h j).
  { intros h j Hh Hj. apply Hw; [|done]. by intros ->. }
  split.
  - by eapply mm_ok_same.
  - eapply tree_agree; [done|]. intros q h i Hq Hi. apply Hkeep; [|done]. by destruct (Ha _ _ Hq).
  - intros q h Hq. destruct (Ha _ _ Hq). rewrite (in_ram_same m m'), Hf' by done. set_solver.
  - by rewrite (frame_addr_same m m').
  - rewrite (in_ram_same m m'), Hf' by done. set_solver.
  - done.
  - rewrite Hkeep, (frame_addr_same m m') by done. done.
Qed.

Lemma held_take m0 tb0 m tb fs g p r :
  space m pd d root tb -> held m0 tb0 m tb root fs -> g ∈ free m -> abs_free p = free m ∖ {[g]} ->
  same_layout (frames m) p ->
  (forall h j, 0 <= j < 512 -> word (set_ram r (set_frames p m)) h j = if h =? g then 0 else word m h j) ->
  held m0 tb0 (set_ram r (set_frames p m)) tb root (g :: fs).
Proof.
  intros Hsp [Hm Hs Hn Hf Hfr Hz Hw] Hg Hpf Hl Hw'. set (m' := set_ram r (set_frames p m)) in *.
  assert (Hsm : same_machine m m') by (by split).
  assert (Hf' : forall f, f ∈ free m' <-> f ∈ free m /\ f <> g).
  { intros f. change (free m') with (abs_free p). rewrite Hpf. set_solver. }
  assert (Hgt : forall q, tb !! q <> Some g).
  { intros q Hq. by destruct (sp_alloc _ _ _ _ _ Hsp _ _ Hq). }
  assert (Hgfs : g ∉ fs) by (intros Hin; by destruct (Hfr g Hin) as (_ & ? & _)).
  split.
  - by etransitivity.
  - done.
  - by constructor.
  - intros f. rewrite Hf, Hf', elem_of_cons. destruct (decide (f = g)) as [->|]; [|naive_solver].
    split; [by right; left; left|]. intros _. by left.
  - intros f [->|Hin]%elem_of_cons.
    + split_and!; [apply Hf; by left|rewrite Hf'; naive_solver|done].
    + destruct (Hfr f Hin) as (? & ? & ?). split_and!; [done|rewrite Hf'; naive_solver|done].
  - intros f i Hin Hi. rewrite Hw' by done. destruct (Z.eqb_spec f g) as [|Hne]; [done|]. apply Hz; [|done].
    by apply elem_of_cons in Hin as [?|?].
  - intros f i Hr Hnf Ho Hi. rewrite Hw' by done. rewrite (proj2 (Z.eqb_neq f g)); [by apply Hw|].
    intros ->. apply Hnf, Hf. by left.
Qed.

(** A data frame is given back. *)
Lemma space_give m tb g p :
  space m pd d root tb -> (forall q, tb !! q <> Some g) -> g <> d ->
  pmm_inv p -> same_layout (frames m) p -> abs_free p = free m ∪ {[g]} -> space (set_frames p m) pd d root tb.
Proof.
  intros [Hmm Ht Ha -> [Hd Hdf] Hap Hp4] Hg Hgd Hp Hl Hf. set (m' := set_frames p m).
  assert (Hsm : same_machine m m') by (by split).
  assert (Hf' : free m' = free m ∪ {[g]}) by done.
  split; [by eapply mm_ok_same|done| |done| |done|done].
  - intros q h Hq. destruct (Ha _ _ Hq). rewrite (in_ram_same m m'), Hf' by done. split; [done|].
    intros [?|Hq2%elem_of_singleton]%elem_of_union; [done|subst h; by apply (Hg q)].
  - rewrite (in_ram_same m m'), Hf' by done. set_solver.
Qed.

Lemma held_give m0 tb0 m tb fs g p :
  held m0 tb0 m tb root (g :: fs) -> same_layout (frames m) p -> abs_free p = free m ∪ {[g]} ->
  held m0 tb0 (set_frames p m) tb root fs.
Proof.
  intros [Hm Hs Hn Hf Hfr Hz Hw] Hl Hpf. set (m' := set_frames p m).
  assert (Hsm : same_machine m m') by (by split).
  assert (Hf' : forall f, f ∈ free m' <-> f ∈ free m \/ f = g).
  { intros f. change (free m') with (abs_free p). rewrite Hpf. set_solver. }
  apply NoDup_cons in Hn as [Hgfs Hn]. split.
  - by etransitivity.
  - done.
  - done.
  - intros f. rewrite Hf, Hf', elem_of_cons. naive_solver.
  - intros f Hin. destruct (Hfr f) as (? & ? & ?); [by apply elem_of_cons; right|].
    split_and!; [done| |done]. rewrite Hf'. naive_solver.
  - intros f i Hin. apply Hz, elem_of_cons. by right.
  - done.
Qed.
End held.

(** ** Frames that are not given back *)

(** [pmm_free] of a physical address below the direct map does nothing. *)
Lemma wp_free_phys (Q : unit -> machine -> Prop) m phys :
  mm_ok m -> 2 ^ 52 <= direct_map m -> 0 <= phys < 2 ^ 52 -> Q tt m -> wp (in_frames (pmm_free phys)) Q m.
Proof.
  intros Hmm Hd Hp HQ. assert (Hr : pmm_free phys (frames m) = Ok (tt, frames m)).
  { unfold pmm_free. destruct (phys =? NULL); [done|]. unfold bind, gets.
    rewrite (mm_off _ Hmm). pose proof (direct_map_range m Hmm) as Hdr. pose proof (inv_total _ (mm_pmm _ Hmm)) as Htot.
    assert (Hidx : total_pages (frames m) <= u64 (phys - direct_map m) / PAGE_SIZE).
    { unfold u64, PAGE_SIZE. rewrite <- (Z_mod_plus_full _ 1), Z.mod_small by lia.
      apply Z.div_le_lower_bound; lia. }
    by rewrite (proj2 (Z.leb_le _ _) Hidx). }
  unfold wp, in_frames. rewrite Hr. by destruct m.
Qed.

Lemma wp_mm {A : Type} (c : MM A) (Q : A -> vmm -> Prop) s :
  wp c (fun a m' => Q a (set_vm m' s)) (vm s) -> wp (mm c) Q s.
Proof. unfold wp, mm. by destruct (c (vm s)) as [[a m']|]. Qed.

(** ** Mapping and unmapping pages of data ([vmm.c])

    The loops of the virtual memory manager on a user address space: mapping
    new pages, rolling an attempt back, and releasing a range. *)

Implicit Types (W : Z -> option (nat * Z)).

(** The pages from [first] on are the frames [fs]; the others are as in [W]. *)
Definition over (first fl : Z) fs W (vpn : Z) : option (nat * Z) :=
  match (if first <=? vpn then fs !! Z.to_nat (vpn - first) else None) with
  | Some f => Some (0%nat, pte (4096 * f) fl)
  | None => W vpn
  end.

Definition mapped_frame (w : option (nat * Z)) : Z := match w with Some (_, e) => frame_of e | None => 0 end.

(** The pages of the range that a frame other than 0 backs are gone. *)
Definition dropped (first n : Z) W (vpn : Z) : option (nat * Z) :=
  if in_pages first n vpn && negb (mapped_frame (W vpn) =? 0) then None else W vpn.

Lemma over_nil first fl W vpn : over first fl [] W vpn = W vpn.
Proof. unfold over. by destruct (_ <=? _). Qed.

Lemma over_snoc first fl fs f W vpn :
  over first fl (fs ++ [f]) W vpn =
    if vpn =? first + Z.of_nat (length fs) then Some (0%nat, pte (4096 * f) fl) else over first fl fs W vpn.
Proof.
  unfold over. destruct (Z.leb_spec first vpn) as [Hle|Hlt]; [|by destruct (Z.eqb_spec vpn (first + Z.of_nat (length fs))); [lia|]].
  destruct (Z.eqb_spec vpn (first + Z.of_nat (length fs))) as [->|Hne].
  - replace (Z.to_nat (first + Z.of_nat (length fs) - first)) with (length fs) by lia.
    by rewrite lookup_app_r, Nat.sub_diag by lia.
  - destruct (decide (Z.to_nat (vpn - first) < length fs)%nat); [by rewrite lookup_app_l|].
    rewrite lookup_app_r by lia. rewrite (lookup_ge_None_2 fs) by lia.
    by rewrite lookup_ge_None_2 by (simpl; lia).
Qed.

Lemma over_in first fl fs W vpn : in_pages first (Z.of_nat (length fs)) vpn = true ->
  exists f, f ∈ fs /\ fs !! Z.to_nat (vpn - first) = Some f /\ over first fl fs W vpn = Some (0%nat, pte (4096 * f) fl).
Proof.
  unfold in_pages, over. intros [Hle Hlt]%andb_prop. rewrite Hle. apply Z.leb_le in Hle. apply Z.ltb_lt in Hlt.
  destruct (lookup_lt_is_Some_2 fs (Z.to_nat (vpn - first))) as [f Hf]; [lia|].
  exists f. rewrite Hf. split; [by eapply list_elem_of_lookup_2|done].
Qed.

Lemma over_out first fl fs W vpn : in_pages first (Z.of_nat (length fs)) vpn = false -> over first fl fs W vpn = W vpn.
Proof.
  unfold in_pages, over. destruct (Z.leb_spec first vpn); [|done]. destruct (Z.ltb_spec vpn (first + Z.of_nat (length fs))); [done|].
  intros _. by rewrite lookup_ge_None_2 by lia.
Qed.

Lemma frame_of_pte f fl : 0 <= f < 2 ^ 40 -> Z.land fl PAGE_ADDR_MASK = 0 -> frame_of (pte (4096 * f) fl) = f.
Proof.
  intros Hf Hfl. unfold pte. rewrite page_align_down_eq by lia. unfold PAGE_SIZE.
  replace (4096 * f / 4096) with f by dlia. by apply frame_of_entry.
Qed.

Lemma align_aligned virt : 0 <= virt < 2 ^ 64 -> virt mod 4096 = 0 -> page_align_down virt = virt.
Proof. intros Hv Ha. rewrite page_align_down_eq by lia. unfold PAGE_SIZE. dlia. Qed.

(** Pages of an aligned range. *)
Lemma nth_page_aligned virt n i : range_ok virt n -> virt mod 4096 = 0 -> 0 <= i < n ->
  user_addr (nth_page virt i) /\ vpn_of (nth_page virt i) = vpn_of virt + i /\ nth_page virt i mod 4096 = 0.
Proof.
  intros Hr Ha Hi. assert (Hv : page_align_down virt = virt).
  { destruct Hr as (? & ? & ?). apply align_aligned; [|done]. unfold vpn_of in *. dlia. }
  destruct (nth_page_user virt n i Hr Hi) as [Hu Hvp]. rewrite Hv in *. split_and!; [done..|].
  destruct Hr as (? & ? & ?). unfold nth_page, u64, PAGE_SIZE, vpn_of in *. rewrite (Z.mod_small (i * 4096)) by dlia.
  rewrite (Z.mod_small (virt + i * 4096)) by dlia. by rewrite Z_mod_plus_full.
Qed.

Section pages.
Context (pd d root : Z).

Lemma evolves_free m tb m' : evolves m tb m' tb root -> free m' = free m.
Proof.
  intros He. apply set_eq. intros f. rewrite (ev_free _ _ _ _ _ He f). split; [by left|].
  intros [?|(p & ? & ?)]; [done|congruence].
Qed.

Lemma get_physical_aligned m tb virt :
  space m pd d root tb -> user_addr virt -> virt mod 4096 = 0 ->
  mmu_get_physical_address pd virt m = Ok (4096 * mapped_frame (walk m root (vpn_of virt)), m).
Proof.
  intros Hs Hu Ha. rewrite (get_physical_walk m pd d root tb) by done. unfold translate, mapped_frame.
  destruct (walk _ _ _) as [[? e]|]; [|done]. by rewrite Ha, Z.add_0_r.
Qed.

Lemma wp_unmap_mapped (Q : bool -> machine -> Prop) m tb virt :
  space m pd d root tb -> user_addr virt -> mapped_frame (walk m root (vpn_of virt)) <> 0 ->
  (forall m', space m' pd d root tb -> evolves m tb m' tb root -> free m' = free m ->
     (forall vpn, user_page vpn -> walk m' root vpn = if vpn =? vpn_of virt then None else walk m root vpn) -> Q true m') ->
  wp (mmu_unmap_page pd virt) Q m.
Proof.
  intros Hs Hu Hne HQ. apply (wp_unmap_page pd d root _ _ tb); [done|done| |].
  - intros Hn. exfalso. apply Hne. rewrite (walk_space m pd d root tb) by (by try apply user_vpn). unfold leaf. by rewrite Hn.
  - intros m' Hs' Hup. apply HQ; [done|apply Hup|apply (evolves_free m tb), Hup|].
    intros vpn Hv. by rewrite (walk_updated pd d root m tb m' tb _ _ _ Hs Hs' Hup Hv).
Qed.

(** The path of [roll_back] that passes physical addresses to [pmm_free]
    unmaps the range and gives no frame back. *)
Lemma wp_release_by_phys s tb virt n :
  space (vm s) pd d root tb -> 2 ^ 52 <= direct_map (vm s) -> range_ok virt n -> virt mod 4096 = 0 ->
  wp (roll_back true pd virt n) (fun _ s' => exists m', s' = set_vm m' s /\ space m' pd d root tb /\
    evolves (vm s) tb m' tb root /\ free m' = free (vm s) /\
    forall vpn, user_page vpn -> walk m' root vpn = dropped (vpn_of virt) n (walk (vm s) root) vpn) s.
Proof.
  intros Hs Hd Hr Ha. set (W := walk (vm s) root). unfold roll_back. eapply wp_mono.
  { apply (wp_for_each (fun j _ s' => exists m', s' = set_vm m' s /\ space m' pd d root tb /\
      evolves (vm s) tb m' tb root /\ free m' = free (vm s) /\
      forall vpn, user_page vpn -> walk m' root vpn = dropped (vpn_of virt) j W vpn)).
    { exists (vm s). split_and!; [by destruct s|done|apply evolves_refl|done|].
      intros vpn _. unfold dropped. by rewrite in_pages_0. }
    intros j _ s1 Hj (m1 & -> & Hs1 & He1 & Hf1 & Hw1).
    destruct (nth_page_aligned virt n j Hr Ha Hj) as (Hu & Hv & Hal). set (va := nth_page virt j) in *.
    assert (Hwj : walk m1 root (vpn_of va) = W (vpn_of va)).
    { rewrite Hw1 by (by apply user_vpn). unfold dropped, in_pages. rewrite Hv.
      rewrite (proj2 (Z.ltb_ge _ _)) by lia. by rewrite andb_false_r. }
    assert (Hstep : forall vpn, dropped (vpn_of virt) (j + 1) W vpn =
      if (vpn =? vpn_of va) && negb (mapped_frame (W (vpn_of va)) =? 0) then None else dropped (vpn_of virt) j W vpn).
    { intros vpn. unfold dropped. rewrite in_pages_S, Hv by lia. destruct (Z.eqb_spec vpn (vpn_of virt + j)) as [->|]; [|done].
      simpl. destruct (mapped_frame _ =? 0); simpl; [by rewrite andb_false_r|done]. }
    apply wp_bind, wp_mm. apply (wp_eq _ _ _ _ _ (get_physical_aligned m1 tb va Hs1 Hu Hal)). rewrite Hwj.
    destruct (Z.eqb_spec (4096 * mapped_frame (W (vpn_of va))) 0) as [Hz|Hnz]; cbn [negb].
    - apply wp_ret. exists m1. split_and!; [done..|]. intros vpn Hvpn. rewrite Hstep.
      rewrite (proj2 (Z.eqb_eq (mapped_frame (W (vpn_of va))) 0)) by lia. rewrite andb_false_r. by apply Hw1.
    - apply wp_bind, wp_mm. apply (wp_unmap_mapped _ m1 tb); [done|done|rewrite Hwj; lia|].
      intros m2 Hs2 He2 Hf2 Hw2. cbv beta. unfold free_frame. apply wp_mm, wp_free_phys.
      + apply Hs2.
      + simpl. rewrite (sm_direct _ _ (ev_machine _ _ _ _ _ He2)), (sm_direct _ _ (ev_machine _ _ _ _ _ He1)). done.
      + unfold mapped_frame in *. destruct (W (vpn_of va)) as [[? e]|]; [|lia]. pose proof (frame_of_range e). lia.
      + exists m2. split_and!; [done|done|by eapply evolves_trans|by rewrite Hf2|]. intros vpn Hvpn.
        rewrite Hw2, Hstep by done. rewrite (proj2 (Z.eqb_neq (mapped_frame (W (vpn_of va))) 0)) by lia.
        rewrite andb_true_r. destruct (vpn =? vpn_of va); [done|]. by apply Hw1. }
  intros [] s' Hres. destruct Hr as (_ & Hn & _). by rewrite Z.max_r in Hres by lia.
Qed.

(** ** New pages *)

Section attempt.
Context (s : vmm) (tb0 : tables) (virt n fl : Z).
Context (Hs0 : space (vm s) pd d root tb0) (Hd : 2 ^ 52 <= direct_map (vm s)) (Hr : range_ok virt n)
  (Ha : virt mod 4096 = 0) (Hz : 0 ∉ free (vm s)) (Hfl : Z.land fl PAGE_ADDR_MASK = 0).
Abbreviation first := (vpn_of virt).
Abbreviation W0 := (walk (vm s) root).
Context (Hno : forall vpn, in_pages first n vpn = true -> W0 vpn = None).

(** A state of the attempt: the frames [fs] are taken, and the space translates
    as [W]. *)
Definition attempt fs W s' : Prop :=
  exists m' tb, s' = set_vm m' s /\ space m' pd d root tb /\ held (vm s) tb0 m' tb root fs /\
    forall vpn, user_page vpn -> walk m' root vpn = W vpn.

Lemma attempt_frame fs W s' f : attempt fs W s' -> f ∈ fs -> 0 < f < 2 ^ 40.
Proof.
  intros (m' & tb & -> & Hs & Hh & _) Hf. destruct (hd_fresh _ _ _ _ _ _ Hh f Hf) as (Hf0 & _ & _).
  pose proof (elem_of_free _ _ Hf0) as Hram. unfold in_ram in Hram. pose proof (mm_phys _ (sp_mm _ _ _ _ _ Hs0)).
  assert (f <> 0) by (intros ->; done). lia.
Qed.

Lemma in_pages_sub i vpn : 0 <= i <= n -> in_pages first i vpn = true -> in_pages first n vpn = true.
Proof. unfold in_pages. intros Hi [H1 H2]%andb_prop. rewrite H1. simpl. lia. Qed.

(** Rolling back gives every frame back and unmaps its page. *)
Lemma wp_roll_back_frames fs s1 :
  Z.of_nat (length fs) <= n -> attempt fs (over first fl fs W0) s1 ->
  wp (roll_back false pd virt (Z.of_nat (length fs))) (fun _ s' => attempt [] W0 s') s1.
Proof.
  intros Hlen Hat. pose proof (fun f => attempt_frame _ _ _ f Hat) as Hfrm.
  unfold roll_back. eapply wp_mono.
  { apply (wp_for_each (fun j _ s' => attempt (drop (Z.to_nat j) fs)
      (fun vpn => if in_pages first j vpn then None else over first fl fs W0 vpn) s')).
    { destruct Hat as (m' & tb & -> & Hs & Hh & Hw). exists m', tb. split_and!; [done..|].
      intros vpn Hv. rewrite in_pages_0. by apply Hw. }
    intros j _ s2 Hj (m2 & tb & -> & Hs2 & Hh2 & Hw2).
    destruct (nth_page_aligned virt n j Hr Ha ltac:(lia)) as (Hu & Hv & Hal). set (va := nth_page virt j) in *.
    destruct (lookup_lt_is_Some_2 fs (Z.to_nat j)) as [f Hf]; [lia|].
    assert (Hin : f ∈ fs) by (by eapply list_elem_of_lookup_2).
    assert (Hwj : walk m2 root (vpn_of va) = Some (0%nat, pte (4096 * f) fl)).
    { rewrite Hw2 by (by apply user_vpn). rewrite Hv. unfold in_pages, over.
      rewrite (proj2 (Z.ltb_ge (first + j) _)), andb_false_r by lia.
      rewrite (proj2 (Z.leb_le first _)) by lia. by rewrite Z.add_simpl_l, Hf. }
    assert (Hmf : mapped_frame (walk m2 root (vpn_of va)) = f).
    { rewrite Hwj. simpl. apply frame_of_pte; [|done]. specialize (Hfrm f Hin). lia. }
    apply wp_bind, wp_mm. apply (wp_eq _ _ _ _ _ (get_physical_aligned m2 tb va Hs2 Hu Hal)). rewrite Hmf.
    specialize (Hfrm f Hin). rewrite (proj2 (Z.eqb_neq (4096 * f) 0)) by lia. cbn [negb].
    apply wp_bind, wp_mm. apply (wp_unmap_mapped _ m2 tb); [done|done|rewrite Hmf; lia|].
    intros m3 Hs3 He3 Hf3 Hw3. cbv beta. apply wp_bind, wp_mm. unfold mmu_phys_to_virt, phys_to_virt. apply wp_gets.
    rewrite (drop_S _ _ _ Hf) in Hh2. pose proof (held_evolves pd d root _ _ _ _ _ _ _ Hs2 Hh2 He3) as Hh3.
    destruct (hd_fresh _ _ _ _ _ _ Hh3 f) as (Hf0 & Hnf & Hnt); [by apply list_elem_of_here|].
    assert (Hram : in_ram m3 f).
    { rewrite (in_ram_same (vm s) m3) by apply Hh3. by apply elem_of_free. }
    simpl. rewrite phys_to_virt_frame by (apply Hs3 || done). unfold free_frame. apply wp_mm.
    apply wp_free_frame; [apply Hs3|done|]. intros p Hp Hl Hpf. simpl. exists (set_frames p m3), tb.
    split_and!; [done| | |].
    - apply (space_give pd d root m3 tb f); try done. intros ->. by apply (sp_pd_ram _ _ _ _ _ Hs0).
    - replace (Z.to_nat (j + 1)) with (S (Z.to_nat j)) by lia. by eapply held_give.
    - intros vpn Hvpn. change (walk (set_frames p m3) root vpn) with (walk m3 root vpn).
      rewrite Hw3, in_pages_S, Hv by (done || lia). destruct (vpn =? first + j); [done|]. by apply Hw2. }
  intros [] s' (m' & tb & -> & Hs & Hh & Hw). rewrite Z.max_r in * by lia. rewrite Nat2Z.id, drop_all in Hh.
  exists m', tb. split_and!; [done..|]. intros vpn Hv. rewrite Hw by done.
  destruct (in_pages first (Z.of_nat (length fs)) vpn) eqn:Hin; [|by apply over_out].
  symmetry. apply Hno. eapply in_pages_sub; [|done]. lia.
Qed.

(** When a page table is missing, the frame at hand is given back and the
    pages mapped so far are unmapped, but their frames stay taken. *)
Lemma wp_give_up fs g s1 :
  Z.of_nat (length fs) <= n -> attempt (g :: fs) (over first fl fs W0) s1 ->
  wp (free_frame (frame_addr (vm s) g) ;;; roll_back true pd virt (Z.of_nat (length fs)))
    (fun _ s' => attempt fs W0 s') s1.
Proof.
  intros Hlen Hat. pose proof (fun f => attempt_frame _ _ _ f Hat) as Hfrm.
  destruct Hat as (m1 & tb & -> & Hs1 & Hh1 & Hw1).
  destruct (hd_fresh _ _ _ _ _ _ Hh1 g) as (Hf0 & Hnf & Hnt); [by apply list_elem_of_here|].
  apply wp_bind. unfold free_frame. apply wp_mm. simpl.
  rewrite <- (frame_addr_same (vm s) m1) by apply Hh1. apply wp_free_frame.
  { apply Hs1. } { rewrite (in_ram_same (vm s) m1) by apply Hh1. by apply elem_of_free. }
  intros p Hp Hl Hpf. set (m2 := set_frames p m1).
  assert (Hs2 : space m2 pd d root tb).
  { apply (space_give pd d root m1 tb g); try done. intros ->. by apply (sp_pd_ram _ _ _ _ _ Hs0). }
  assert (Hh2 : held (vm s) tb0 m2 tb root fs) by (by eapply held_give).
  eapply wp_mono.
  { apply (wp_release_by_phys (set_vm m2 s) tb); [done| | |done].
    - pose proof (sm_direct _ _ (hd_machine _ _ _ _ _ _ Hh2)) as Hdm. simpl in *. by rewrite Hdm.
    - destruct Hr as (? & ? & ?). split_and!; lia. }
  intros _ s' (m3 & -> & Hs3 & He3 & Hf3 & Hw3). exists m3, tb.
  split_and!; [done|done|exact (held_evolves pd d root _ _ _ _ _ _ _ Hs2 Hh2 He3)|]. intros vpn Hv. rewrite Hw3 by done.
  change (walk (vm (set_vm m2 s)) root) with (walk m1 root). unfold dropped. rewrite Hw1 by done.
  destruct (in_pages first (Z.of_nat (length fs)) vpn) eqn:Hin; [|by apply over_out].
  rewrite (Hno vpn) by (eapply in_pages_sub; [|done]; lia).
  destruct (over_in first fl fs W0 vpn Hin) as (f & Hf & _ & ->). simpl.
  assert (Hfr : 0 < f < 2 ^ 40) by (apply Hfrm; by apply list_elem_of_further).
  rewrite frame_of_pte, (proj2 (Z.eqb_neq f 0)) by (done || lia). done.
Qed.

(** The loop: the pages are mapped to new frames that hold zeros, or the
    space translates as before. *)
Lemma wp_map_new_pages :
  wp (map_new_pages pd virt n fl) (fun b s' => exists fs,
    if b : bool then Z.of_nat (length fs) = n /\ attempt fs (over first fl fs W0) s' else attempt fs W0 s') s.
Proof.
  unfold map_new_pages. apply wp_bind. eapply wp_mono.
  { apply (wp_for_range (fun i _ s' => exists fs, Z.of_nat (length fs) = i /\ attempt fs (over first fl fs W0) s')
      (fun b s' => b = false /\ exists fs, attempt fs W0 s')).
    { exists []. split; [done|]. exists (vm s), tb0. split_and!; [by destruct s|done|apply held_refl|].
      intros vpn _. by rewrite over_nil. }
    intros i _ s1 Hi (fs & Hlen & Hat). destruct Hat as (m1 & tb & -> & Hs1 & Hh1 & Hw1) eqn:E. clear E.
    destruct (nth_page_aligned virt n i Hr Ha Hi) as (Hu & Hv & _). set (va := nth_page virt i) in *.
    apply wp_bind. unfold alloc_frame. apply wp_mm. simpl. apply wp_alloc_frame; [apply Hs1| |].
    { intros _. change (NULL =? NULL) with true. cbv beta iota. apply wp_bind. rewrite <- Hlen.
      eapply wp_mono; [apply wp_roll_back_frames; [lia|by exists m1, tb]|].
      intros [] s' Hs'. apply wp_ret. split; [done|by exists []]. }
    intros p g Hg Hp Hl Hpf. pose proof (elem_of_free _ _ Hg) as Hgr.
    assert (Hgr2 : in_ram (set_frames p m1) g) by (by rewrite (in_ram_same m1) by (by split)).
    assert (Hmm2 : mm_ok (set_frames p m1)) by (eapply mm_ok_same; [apply Hs1|by split|done]).
    rewrite frame_addr_not_null by (apply Hs1 || done). apply wp_bind, wp_mm. simpl.
    change (frame_addr m1 g) with (frame_addr (set_frames p m1) g).
    apply wp_zero_page; [done|done|]. intros r Hwr. set (m2 := set_ram r (set_frames p m1)) in *.
    assert (Hs2 : space m2 pd d root tb) 
      by (apply (space_take pd d root m1 tb g p r); try done; intros h j Hh Hj; rewrite Hwr by done; by destruct (Z.eqb_spec h g)).
    assert (Hh2 : held (vm s) tb0 m2 tb root (g :: fs)) by (by apply (held_take pd d root _ _ m1 tb fs g p r)).
    assert (Hw2 : forall vpn, user_page vpn -> walk m2 root vpn = over first fl fs W0 vpn).
    { intros vpn Hvp. rewrite <- Hw1 by done. rewrite (walk_space m2 pd d root tb), (walk_space m1 pd d root tb) by done.
      f_equal. apply leaf_agree. intros q h j Hq Hj. destruct (sp_alloc _ _ _ _ _ Hs1 _ _ Hq).
      rewrite Hwr by done. by rewrite (proj2 (Z.eqb_neq h g)) by (intros ->; done). }
    apply wp_bind, wp_mm. unfold mmu_virt_to_phys, virt_to_phys. apply wp_gets. simpl.
    pose proof (virt_to_phys_frame _ Hmm2 g Hgr2) as Hvp. simpl in Hvp.
    change (frame_addr (set_frames p m1) g) with (frame_addr m1 g) in *. rewrite Hvp.
    apply wp_bind, wp_mm. simpl. apply (wp_map_page pd d root _ _ tb); [done|done| |].
    - intros m3 tb3 Hs3 Hgw _ _. cbn [negb]. rewrite <- Hlen.
      assert (Hga : frame_addr m1 g = frame_addr (vm s) g) by apply (frame_addr_same (vm s) m1), Hh1. rewrite Hga.
      assert (Hat3 : attempt (g :: fs) (over first fl fs W0) (set_vm m3 s)).
      { exists m3, tb3. split_and!; [done|done|eapply held_evolves; [exact Hs2|done|apply Hgw]|].
        intros vpn Hvpn. rewrite (walk_grown pd d root m2 tb m3 tb3 vpn Hs2 Hs3 Hgw Hvpn). by apply Hw2. }
      pose proof (wp_give_up fs g _ ltac:(lia) Hat3) as Hgu. apply wp_bind_inv in Hgu. apply wp_bind.
      eapply wp_mono; [exact Hgu|]. intros [] s4 Hs4. apply wp_bind. eapply wp_mono; [exact Hs4|].
      intros [] s5 Hs5. apply wp_ret. split; [done|by exists fs].
    - intros m3 tb3 Hs3 Hup. cbn [negb]. apply wp_ret. exists (fs ++ [g]). rewrite length_app. split; [simpl; lia|].
      exists m3, tb3. split_and!; [done|done| |].
      + rewrite <- Permutation_cons_append. eapply held_evolves; [exact Hs2|done|apply Hup].
      + intros vpn Hvpn. rewrite (walk_updated pd d root m2 tb m3 tb3 _ _ _ Hs2 Hs3 Hup Hvpn), over_snoc, Hv, Hlen.
        destruct (vpn =? first + i); [done|]. by apply Hw2. }
  intros [l|b] s' Hres; apply wp_ret.
  - destruct Hres as (fs & Hlen & Hat). exists fs. split; [|done]. rewrite Hlen. destruct Hr as (_ & ? & _). lia.
  - by destruct Hres as [-> Hres].
Qed.
End attempt.
End pages.
