(* ===== verification/VmmThms.v ===== *)
(** * Theorems on the virtual memory manager *)

From stdpp Require Import base numbers list list_numbers gmap.
From S2P Require Import Prelude Bitmap Pmm PmmFacts PmmInit PmmSpec.
From S2P Require Import Mmu PageTree MmuFacts MmuSpec MmuThms Paging PagingThms Vmm VmmFacts.

Implicit Types (m : machine) (tb : tables) (s : vmm) (fs : list Z) (W : Z -> option (nat * Z)).

(** The frame of a region object: in use, neither a table nor the directory. *)
Definition object_frame m tb (d ra : Z) : Prop :=
  exists g, ra = frame_addr m g /\ in_ram m g /\ g ∉ free m /\ (forall q, tb !! q <> Some g) /\ g <> d /\ g <> 0.

(** A user address space: its tables, its heap below the end of the user half,
    and its region objects.  The direct map is in the upper half, and frame 0
    is not handed out. *)
Record user_space s (a : Z) (p : vmm_address_space) (d root : Z) tb : Prop := {
  us_space : spaces s !! a = Some p;
  us_null : a <> NULL;
  us_user : a <> kernel_space s;
  us_tables : space (vm s) (page_dir p) d root tb;
  us_regions ra r : (ra, r) ∈ regions p -> object_frame (vm s) tb d ra;
  us_distinct : NoDup (regions p).*1;
  us_heap : 0 < heap_start p /\ heap_start p <= brk p <= heap_end p /\ heap_end p <= 2 ^ 47;
  us_direct : 2 ^ 52 <= direct_map (vm s);
  us_zero : 0 ∉ free (vm s)
}.

Lemma round_up_spec size : 0 < size < 2 ^ 63 ->
  round_up size mod 4096 = 0 /\ size <= round_up size < size + 4096 /\ round_up size = 4096 * (round_up size / PAGE_SIZE).
Proof.
  intros Hs. unfold round_up, u64. rewrite (Z.mod_small (size + PAGE_SIZE - 1)) by (unfold PAGE_SIZE; lia).
  pose proof (page_align_down_eq (size + PAGE_SIZE - 1)) as Heq. unfold page_align_down, u64 in Heq.
  rewrite Heq by (unfold PAGE_SIZE; lia). unfold PAGE_SIZE. dlia.
Qed.

(** The heap has grown by the pages of [fs]: frames that were free, that hold
    zeros, mapped for user access; other memory in use is unchanged. *)
Record grew s s' (d root first : Z) fs tb : Prop := {
  gw_fresh : NoDup fs /\ forall f, f ∈ fs -> f ∈ free (vm s) /\ f ∉ free (vm s');
  gw_zero f i : f ∈ fs -> 0 <= i < 512 -> word (vm s') f i = 0;
  gw_walk vpn : user_page vpn -> walk (vm s') root vpn = over first 7 fs (walk (vm s) root) vpn;
  gw_words f i : in_ram (vm s) f -> f ∉ free (vm s) -> outside tb root f i -> 0 <= i < 512 ->
    word (vm s') f i = word (vm s) f i
}.

Lemma hw_walk_ext (w1 w2 : Z -> Z -> Z) l f vpn : (forall g i, w1 g i = w2 g i) -> hw_walk w1 l f vpn = hw_walk w2 l f vpn.
Proof. intros He. revert f. induction l as [|l IH]; intros f; simpl; rewrite He; [done|]. by rewrite IH. Qed.

(** No region meets [lo, hi). *)
Definition apart (l : list (Z * vmm_region)) (lo hi : Z) : bool :=
  forallb (fun r => (hi <=? virt_start r.2) || (virt_end r.2 <=? lo)) l.

Section alloc.
Context (s : vmm) (a : Z) (p : vmm_address_space) (d root : Z) (tb : tables).
Context (Hus : user_space s a p d root tb).

Lemma object_frame_held m' tb' fs ra : held (vm s) tb m' tb' root fs -> object_frame (vm s) tb d ra ->
  object_frame m' tb' d ra.
Proof.
  intros Hh (g & -> & Hr & Hnf & Hnt & Hd & Hz). exists g. split_and!; try done.
  - symmetry. apply frame_addr_same, Hh.
  - by rewrite (in_ram_same (vm s) m') by apply Hh.
  - intros Hin. apply Hnf, (hd_free _ _ _ _ _ _ Hh). by left.
  - intros q Hq. destruct (tb !! q) as [h|] eqn:Hh'.
    + rewrite (lookup_weaken _ _ _ _ Hh' (hd_sub _ _ _ _ _ _ Hh)) in Hq. injection Hq as ->. by apply (Hnt q).
    + apply Hnf, (hd_free _ _ _ _ _ _ Hh). right. right. by exists q.
Qed.

(** The space after an attempt that took [fs]. *)
Lemma user_space_held m' tb' fs : held (vm s) tb m' tb' root fs -> space m' (page_dir p) d root tb' ->
  user_space (set_vm m' s) a p d root tb'.
Proof.
  intros Hh Hs. destruct Hus as [Hsp Hn Hu Ht Hr Hnd Hheap Hd Hz]. split; try done.
  - intros ra r Hin. simpl. eapply object_frame_held; [done|]. by eapply Hr.
  - simpl. by rewrite (sm_direct _ _ (hd_machine _ _ _ _ _ _ Hh)).
  - simpl. intros Hin. apply Hz, (hd_free _ _ _ _ _ _ Hh). by left.
Qed.
End alloc.

(** ** Updates of the object of a space *)

Lemma wp_the_space (Q : vmm_address_space -> vmm -> Prop) s a p :
  spaces s !! a = Some p -> Q p s -> wp (the_space a) Q s.
Proof. intros Hp HQ. unfold wp, the_space. by rewrite Hp. Qed.

Lemma wp_upd_space (Q : unit -> vmm -> Prop) s a p f :
  spaces s !! a = Some p -> Q tt (set_spaces (<[a := f p]>) s) -> wp (upd_space a f) Q s.
Proof. intros Hp HQ. unfold upd_space. apply wp_bind. apply (wp_the_space _ _ _ p); [done|]. by apply wp_modify. Qed.

Lemma user_space_brk s a p d root tb b : user_space s a p d root tb -> heap_start p <= b <= heap_end p ->
  user_space (set_spaces (<[a := set_brk b p]>) s) a (set_brk b p) d root tb.
Proof. intros [Hsp Hn Hu Ht Hr Hnd Hheap Hd Hz] Hb. split; try done; [apply lookup_insert_eq|simpl; lia]. Qed.

Lemma user_space_stats s a p d root tb f : user_space s a p d root tb -> user_space (set_vstats f s) a p d root tb.
Proof. by intros []. Qed.

Lemma frame_addr_inj m f g : frame_addr m f = frame_addr m g -> f = g.
Proof. unfold frame_addr. lia. Qed.

(** A new region object, where a frame is left for it. *)
Lemma wp_new_region s a p d root tb lo hi ty fl (v : Z) :
  user_space s a p d root tb ->
  wp (region <- vmm_create_region lo hi ty fl ;;
      (if negb (region.1 =? NULL) then vmm_add_region a region ;;; ret tt else ret tt) ;;;
      ret v) (fun r s' => r = v /\ exists p', user_space s' a p' d root tb /\ brk p' = brk p /\
    page_dir p' = page_dir p /\
    (regions p' = regions p /\ free (vm s) = ∅ \/ exists ra, regions p' = regions p ++ [(ra, VmmRegion lo hi fl ty false)]) /\
    (forall f i, word (vm s') f i = word (vm s) f i) /\ free (vm s') ⊆ free (vm s)) s.
Proof.
  intros Hus. pose proof Hus as [Hsp Hn Hu Ht Hr Hnd Hheap Hd Hz]. unfold vmm_create_region.
  apply wp_bind, wp_bind. unfold alloc_frame. apply wp_mm, wp_alloc_frame; [apply Ht| |].
  - intros He. apply wp_ret. simpl. apply wp_bind, wp_ret, wp_ret. split; [done|]. exists p.
    assert (Hset : set_vm (vm s) s = s) by (by destruct s). rewrite Hset. split_and!; try done. by left.
  - intros pm g Hg Hp Hl Hf. apply wp_ret. simpl. pose proof (elem_of_free _ _ Hg) as Hgr.
    rewrite frame_addr_not_null by (apply Ht || done). cbn [negb].
    set (m' := set_frames pm (vm s)). assert (Hsm : same_machine (vm s) m') by (by split).
    apply wp_bind, wp_bind. unfold vmm_add_region. simpl.
    rewrite (proj2 (Z.eqb_neq a NULL) Hn), frame_addr_not_null by (apply Ht || done). cbn [orb].
    apply wp_bind. apply (wp_upd_space _ _ _ p); [done|]. apply wp_ret, wp_ret, wp_ret. split; [done|].
    assert (Hs' : space m' (page_dir p) d root tb) by (by apply (space_take (page_dir p) d root (vm s) tb g pm (ram (vm s)))).
    assert (Hf' : forall f, f ∈ free m' <-> f ∈ free (vm s) /\ f <> g).
    { intros f. change (free m') with (abs_free pm). rewrite Hf. set_solver. }
    exists (set_regions (fun l => l ++ [(frame_addr (vm s) g, VmmRegion lo hi fl ty false)]) p).
    split_and!; [split; try done| | | | |]; [apply lookup_insert_eq| | | | | | | |].
    + intros ra r Hin. simpl in Hin. apply elem_of_app in Hin as [Hin|Hin].
      * destruct (Hr _ _ Hin) as (h & -> & Hhr & Hhf & Hht & Hhd & Hh0). exists h. split_and!; try done.
        -- by apply (in_ram_same (vm s) m').
        -- change (h ∉ free m'). rewrite Hf'. naive_solver.
      * apply list_elem_of_singleton in Hin as [= -> _]. exists g. split_and!; try done.
        -- by apply (in_ram_same (vm s) m').
        -- change (g ∉ free m'). rewrite Hf'. naive_solver.
        -- intros q Hq. by destruct (sp_alloc _ _ _ _ _ Ht _ _ Hq).
        -- intros ->. by destruct (sp_pd_ram _ _ _ _ _ Ht).
        -- intros ->. done.
    + simpl. rewrite fmap_app. apply NoDup_app. split_and!; [done| |apply NoDup_singleton].
      intros ra Hin%list_elem_of_fmap_1 ->%list_elem_of_singleton. destruct Hin as ([ra r] & Heq & Hin). simpl in Heq. subst ra.
      destruct (Hr _ _ Hin) as (h & Heq & _ & Hhf & _). apply frame_addr_inj in Heq. by subst h.
    + change (0 ∉ free m'). rewrite Hf'. naive_solver.
    + done.
    + done.
    + right. by eexists.
    + done.
    + intros f. change (f ∈ free m' -> f ∈ free (vm s)). rewrite Hf'. naive_solver.
Qed.

(** What [vmm_alloc] refuses: it returns [NULL] and changes nothing. *)
Lemma vmm_alloc_refuses s a p size : spaces s !! a = Some p ->
  heap_end p < u64 (brk p + round_up size) \/ apart (regions p) (brk p) (u64 (brk p + round_up size)) = false ->
  vmm_alloc a size s = Ok (NULL, s).
Proof.
  intros Hp Hc. unfold vmm_alloc. destruct ((a =? NULL) || (size =? 0)); [done|]. unfold bind, the_space. rewrite Hp.
  destruct (Z.ltb_spec (heap_end p) (u64 (brk p + round_up size))); [done|]. destruct Hc as [Hc|Hc]; [lia|].
  unfold apart in Hc. by rewrite Hc.
Qed.

Lemma wp_vmm_alloc s a p d root tb size :
  user_space s a p d root tb -> 0 < size < 2 ^ 63 -> brk p mod 4096 = 0 ->
  brk p + round_up size <= heap_end p -> apart (regions p) (brk p) (brk p + round_up size) = true ->
  (forall vpn, in_pages (vpn_of (brk p)) (round_up size / PAGE_SIZE) vpn = true -> walk (vm s) root vpn = None) ->
  wp (vmm_alloc a size) (fun r s' =>
    (r = NULL /\ spaces s' = spaces s /\ exists tb', user_space s' a p d root tb' /\
       forall vpn, user_page vpn -> walk (vm s') root vpn = walk (vm s) root vpn) \/
    (r = brk p /\ exists p' tb' fs, user_space s' a p' d root tb' /\ grew s s' d root (vpn_of (brk p)) fs tb /\
       Z.of_nat (length fs) = round_up size / PAGE_SIZE /\ brk p' = brk p + round_up size)) s.
Proof.
  intros Hus Hsz Ha Hroom Hap Hno. pose proof Hus as [Hsp Hn Hu Ht Hr Hnd Hheap Hd Hz].
  destruct (round_up_spec size Hsz) as (Hm & Hb & Heq). set (sz := round_up size) in *. set (n := sz / PAGE_SIZE) in *.
  assert (Hu64 : u64 (brk p + sz) = brk p + sz) by (unfold u64; rewrite Z.mod_small; lia).
  unfold vmm_alloc. fold sz. fold n. rewrite (proj2 (Z.eqb_neq a NULL) Hn), (proj2 (Z.eqb_neq size 0)) by lia. cbn [orb].
  apply wp_bind, (wp_the_space _ _ _ p); [done|]. rewrite Hu64. rewrite (proj2 (Z.ltb_ge _ _)) by lia.
  unfold apart in Hap. rewrite Hap. cbn [negb]. apply wp_bind, wp_gets.
  rewrite (proj2 (Z.eqb_neq a (kernel_space s)) Hu). cbn [negb].
  change (Z.lor (Z.lor PAGE_PRESENT PAGE_WRITE) PAGE_USER) with 7. apply wp_bind. eapply wp_mono.
  { apply (wp_map_new_pages (page_dir p) d root s tb (brk p) n 7); try done.
    unfold range_ok, vpn_of. split_and!; [lia|lia|]. dlia. }
  intros b s1 (fs & Hres). destruct b; cbn [negb].
  - destruct Hres as (Hlen & m1 & tb1 & -> & Hs1 & Hh & Hw).
    pose proof (user_space_held s a p d root tb Hus m1 tb1 fs Hh Hs1) as Hus1.
    apply wp_bind, (wp_upd_space _ _ _ p); [done|]. rewrite Z.eqb_refl, Hu64.
    apply wp_bind. unfold add_used. apply wp_modify. set (s2 := set_vstats _ _).
    assert (Hus2 : user_space s2 a (set_brk (brk p + sz) p) d root tb1)
      by (apply user_space_stats, user_space_brk; [done|lia]).
    eapply wp_mono; [by apply (wp_new_region _ _ _ _ _ _ _ _ _ _ _ Hus2)|].
    intros r s3 (-> & p3 & Hus3 & Hbrk & _ & _ & Hword & Hfree). right. split; [done|].
    exists p3, tb1, fs. split_and!; [done| |done|by rewrite Hbrk]. change (vm s2) with m1 in *. split.
    + split; [apply Hh|]. intros f Hf. destruct (hd_fresh _ _ _ _ _ _ Hh f Hf) as (? & ? & _).
      split; [done|]. intros Hin. by apply Hfree in Hin.
    + intros f i Hf Hi. rewrite Hword. by apply (hd_zero _ _ _ _ _ _ Hh).
    + intros vpn Hv. unfold walk. rewrite (hw_walk_ext (word (vm s3)) (word m1)) by done. by apply Hw.
    + intros f i ? ? ? ?. rewrite Hword. by apply (hd_words _ _ _ _ _ _ Hh).
  - destruct Hres as (m1 & tb1 & -> & Hs1 & Hh & Hw). apply wp_ret. left. split_and!; [done..|].
    exists tb1. split; [by eapply user_space_held|done].
Qed.

(** [vmm_alloc] on a user space, with room below the end of the heap and no
    region in the way, ends in one of two ways.  It returns the old break: the
    pages up to the new break are mapped for user access to different frames
    that were free and now hold zeros, and no other translation and no other
    memory in use has changed.  Or it returns [NULL]: the objects are as before
    and the space translates every page as before.  The space stays well
    formed. *)
Theorem vmm_alloc_grows_heap s a p d root tb size :
  user_space s a p d root tb -> 0 < size < 2 ^ 63 -> brk p mod 4096 = 0 ->
  brk p + round_up size <= heap_end p -> apart (regions p) (brk p) (brk p + round_up size) = true ->
  (forall vpn, in_pages (vpn_of (brk p)) (round_up size / PAGE_SIZE) vpn = true -> walk (vm s) root vpn = None) ->
  exists r s', vmm_alloc a size s = Ok (r, s') /\
    ((r = NULL /\ spaces s' = spaces s /\ exists tb', user_space s' a p d root tb' /\
       forall vpn, user_page vpn -> walk (vm s') root vpn = walk (vm s) root vpn) \/
     (r = brk p /\ exists p' tb' fs, user_space s' a p' d root tb' /\ grew s s' d root (vpn_of (brk p)) fs tb /\
       Z.of_nat (length fs) = round_up size / PAGE_SIZE /\ brk p' = brk p + round_up size)).
Proof. intros. by apply wp_run, wp_vmm_alloc. Qed.

(** ** Releasing *)

Lemma take_region_Some virt l ra l' : take_region virt l = Some (ra, l') ->
  exists r l1 l2, l = l1 ++ (ra, r) :: l2 /\ l' = l1 ++ l2 /\ virt_start r = virt.
Proof.
  revert l'. induction l as [|[rb r] l IH]; intros l' Ht; simpl in Ht; [done|].
  destruct (Z.eqb_spec (virt_start r) virt) as [Hv|Hv].
  - injection Ht as -> ->. by exists r, [], l'.
  - destruct (take_region virt l) as [[rc l'']|] eqn:E; [|done]. injection Ht as -> <-.
    destruct (IH _ eq_refl) as (r' & l1 & l2 & -> & -> & Hv'). by exists r', ((rb, r) :: l1), l2.
Qed.

Lemma wp_remove_region s a p d root tb virt :
  user_space s a p d root tb ->
  wp (vmm_remove_region a virt) (fun _ s' => exists p', user_space s' a p' d root tb /\ brk p' = brk p /\
    heap_start p' = heap_start p /\ heap_end p' = heap_end p /\
    (forall f i, word (vm s') f i = word (vm s) f i) /\
    (forall f, f ∈ free (vm s') -> f ∈ free (vm s) \/ exists r, (frame_addr (vm s) f, r) ∈ regions p) /\
    (forall x, x ∈ regions p -> virt_start x.2 <> virt -> x ∈ regions p')) s.
Proof.
  intros Hus. pose proof Hus as [Hsp Hn Hu Ht Hr Hnd Hheap Hd Hz]. unfold vmm_remove_region.
  rewrite (proj2 (Z.eqb_neq a NULL) Hn). apply wp_bind, (wp_the_space _ _ _ p); [done|].
  destruct (take_region virt (regions p)) as [[ra l']|] eqn:E.
  - destruct (take_region_Some _ _ _ _ E) as (r & l1 & l2 & Hl & -> & Hv). rewrite Hl in Hr, Hnd.
    destruct (Hr ra r) as (g & -> & Hgr & Hgf & Hgt & Hgd & Hg0); [apply elem_of_app; right; apply list_elem_of_here|].
    apply wp_bind, (wp_upd_space _ _ _ p); [done|]. apply wp_bind. unfold vmm_free_region.
    rewrite frame_addr_not_null by (apply Ht || done). cbn [negb]. unfold free_frame. apply wp_mm. simpl.
    apply wp_free_frame; [apply Ht|done|]. intros pm Hp Hlay Hf. apply wp_ret.
    set (m' := set_frames pm (vm s)). assert (Hsm : same_machine (vm s) m') by (by split).
    assert (Hf' : forall f, f ∈ free m' <-> f ∈ free (vm s) \/ f = g).
    { intros f. change (free m') with (abs_free pm). rewrite Hf. set_solver. }
    exists (set_regions (fun _ => l1 ++ l2) p).
    rewrite fmap_app, fmap_cons in Hnd. simpl in Hnd.
    split_and!; [split; try done|done|done|done|done| |].
    + apply lookup_insert_eq.
    + by apply (space_give (page_dir p) d root (vm s) tb g).
    + intros rb r' Hin. simpl in Hin.
      assert (Hin' : (rb, r') ∈ l1 ++ (frame_addr (vm s) g, r) :: l2) by (rewrite elem_of_app, elem_of_cons in *; tauto).
      destruct (Hr rb r' Hin') as (h & -> & Hhr & Hhf & Hht & Hhd & Hh0). exists h. split_and!; try done.
      * by apply (in_ram_same (vm s) m').
      * change (h ∉ free m'). rewrite Hf'. intros [?|Hhg]; [done|]. subst h.
        assert (Hfst : frame_addr (vm s) g ∈ l1.*1 ++ l2.*1).
        { rewrite <- fmap_app. by apply (list_elem_of_fmap_2 fst) in Hin. }
        apply NoDup_app in Hnd as (_ & Hd1 & [Hd2 _]%NoDup_cons). apply elem_of_app in Hfst as [Hfst|Hfst]; [|done].
        by apply (Hd1 _ Hfst), list_elem_of_here.
    + simpl. rewrite fmap_app. apply NoDup_app in Hnd as (? & Hd1 & [? ?]%NoDup_cons). apply NoDup_app.
      split_and!; [done| |done]. intros x Hx Hx2. by apply (Hd1 x Hx), list_elem_of_further.
    + change (0 ∉ free m'). rewrite Hf'. naive_solver.
    + intros f. change (f ∈ free m' -> f ∈ free (vm s) \/ exists r, (frame_addr (vm s) f, r) ∈ regions p).
      rewrite Hf', Hl. intros [?| ->]; [by left|]. right. exists r. apply elem_of_app. right. apply list_elem_of_here.
    + intros x. rewrite Hl. simpl. rewrite !elem_of_app, elem_of_cons. intros [?|[->|?]] Hne; [by left|done|by right].
  - apply wp_ret. exists p. split_and!; try done. intros f Hf. by left.
Qed.

Lemma wp_vmm_free s a p d root tb ptr size :
  user_space s a p d root tb -> 0 < size < 2 ^ 63 -> 0 < ptr -> ptr mod 4096 = 0 ->
  range_ok ptr (round_up size / PAGE_SIZE) ->
  wp (vmm_free a ptr size) (fun _ s' => exists p', user_space s' a p' d root tb /\ brk p' = brk p /\
    heap_start p' = heap_start p /\ heap_end p' = heap_end p /\
    (forall vpn, user_page vpn -> walk (vm s') root vpn =
       dropped (vpn_of ptr) (round_up size / PAGE_SIZE) (walk (vm s) root) vpn) /\
    (forall f, f ∈ free (vm s') -> f ∈ free (vm s) \/ exists r, (frame_addr (vm s) f, r) ∈ regions p) /\
    (forall x, x ∈ regions p -> virt_start x.2 <> ptr -> x ∈ regions p')) s.
Proof.
  intros Hus Hsz Hptr Hal Hrange. pose proof Hus as [Hsp Hn Hu Ht Hr Hnd Hheap Hd Hz]. unfold vmm_free.
  rewrite (proj2 (Z.eqb_neq a NULL) Hn), (proj2 (Z.eqb_neq ptr NULL)), (proj2 (Z.eqb_neq size 0)) by (unfold NULL; lia).
  cbn [orb]. rewrite align_aligned by (done || (destruct Hrange as (? & ? & ?); unfold vpn_of in *; dlia)).
  apply wp_bind, (wp_the_space _ _ _ p); [done|]. apply wp_bind.
  eapply wp_mono; [by apply (wp_release_by_phys (page_dir p) d root s tb ptr)|].
  intros _ s1 (m1 & -> & Hs1 & He1 & Hf1 & Hw1).
  pose proof (held_evolves _ _ _ _ _ _ _ _ _ _ Ht (held_refl _ _ _) He1) as Hh1.
  apply wp_bind. unfold sub_used. apply wp_modify. set (s2 := set_vstats _ _).
  assert (Hus2 : user_space s2 a p d root tb) by (by eapply user_space_stats, user_space_held).
  apply wp_bind. eapply wp_mono; [by apply wp_remove_region|].
  intros b s3 (p3 & Hus3 & Hb & Hhs & Hhe & Hword & Hfree & Hreg). apply wp_ret. exists p3. split_and!; try done.
  - intros vpn Hv. unfold walk at 1. rewrite (hw_walk_ext (word (vm s3)) (word m1)) by done. by apply Hw1.
  - intros f Hf. destruct (Hfree f Hf) as [Hin|[r Hin]]; [left|right; exists r].
    + change (vm s2) with m1 in Hin. by rewrite Hf1 in Hin.
    + change (vm s2) with m1 in Hin. by rewrite (frame_addr_same (vm s) m1) in Hin by apply Hh1.
Qed.

(** [vmm_free] unmaps the range but gives no page of it back: it passes
    physical addresses to [pmm_free], which expects addresses of the direct map
    and ignores them.  The only frame that can become free is that of the
    region object. *)
Theorem vmm_free_leaks s a p d root tb ptr size :
  user_space s a p d root tb -> 0 < size < 2 ^ 63 -> 0 < ptr -> ptr mod 4096 = 0 ->
  range_ok ptr (round_up size / PAGE_SIZE) ->
  exists s' p', vmm_free a ptr size s = Ok (tt, s') /\ user_space s' a p' d root tb /\
    (forall vpn, user_page vpn -> walk (vm s') root vpn =
       dropped (vpn_of ptr) (round_up size / PAGE_SIZE) (walk (vm s) root) vpn) /\
    (forall f, f ∈ free (vm s') -> f ∈ free (vm s) \/ exists r, (frame_addr (vm s) f, r) ∈ regions p).
Proof.
  intros Hus Hsz Hptr Hal Hrange.
  destruct (proj1 (wp_run _ _ _) (wp_vmm_free s a p d root tb ptr size Hus Hsz Hptr Hal Hrange))
    as ([] & s' & Hr & p' & ? & _ & _ & _ & ? & ? & _). by exists s', p'.
Qed.

(** ** The break *)

Lemma sbrk_refused s a p r (increment : Z) :
  spaces s !! a = Some p -> 0 <= brk p < 2 ^ 47 -> r ∈ regions p -> covers (brk p) r.2 = true ->
  0 < increment < 2 ^ 62 -> vmm_sbrk a increment s = Ok (UINT64_MAX, s).
Proof.
  intros Hp Hb Hr Hc Hi. unfold vmm_sbrk. destruct (a =? NULL); [done|]. unfold bind at 1, the_space at 1. rewrite Hp.
  rewrite (proj2 (Z.eqb_neq increment 0)) by lia. destruct (_ || _); [done|].
  rewrite (proj2 (Z.ltb_lt 0 increment)) by lia. unfold bind. rewrite (vmm_alloc_refuses s a p); [done..|].
  right. apply not_true_is_false. intros Hall. unfold apart in Hall. rewrite forallb_forall in Hall.
  specialize (Hall r). rewrite <- list_elem_of_In in Hall. specialize (Hall Hr).
  destruct (round_up_spec increment) as (_ & Hup & _); [lia|]. unfold u64 in Hall. rewrite Z.mod_small in Hall by lia.
  unfold covers in Hc. lia.
Qed.

(** Once [vmm_sbrk] has lowered the break into a region, the heap can never
    grow again: the region object still covers the new break, and [vmm_alloc]
    refuses every request because of it. *)
Theorem vmm_sbrk_never_grows_again s a p d root tb r increment :
  user_space s a p d root tb -> r ∈ regions p -> increment < 0 -> heap_start p <= brk p + increment ->
  virt_start r.2 < brk p + increment < virt_end r.2 ->
  exists s', vmm_sbrk a increment s = Ok (brk p, s') /\
    forall i, 0 < i < 2 ^ 62 -> vmm_sbrk a i s' = Ok (UINT64_MAX, s').
Proof.
  intros Hus Hr Hi Hnew Hcov. pose proof Hus as [Hsp Hn Hu Ht Hreg Hnd Hheap Hd Hz]. set (nb := brk p + increment) in *.
  assert (Hw : wp (vmm_sbrk a increment) (fun v s' => v = brk p /\
    exists p', spaces s' !! a = Some p' /\ brk p' = nb /\ r ∈ regions p') s).
  { unfold vmm_sbrk. rewrite (proj2 (Z.eqb_neq a NULL) Hn). apply wp_bind, (wp_the_space _ _ _ p); [done|].
    rewrite (proj2 (Z.eqb_neq increment 0)) by lia. fold nb.
    assert (Hu64 : u64 nb = nb) by (unfold u64; rewrite Z.mod_small; lia). rewrite Hu64.
    rewrite (proj2 (Z.ltb_ge (heap_end p) nb)), (proj2 (Z.ltb_ge nb (heap_start p))), (proj2 (Z.ltb_ge 0 increment)) by lia.
    cbn [orb]. destruct (round_up_spec nb) as (Hm & Hup & _); [lia|].
    assert (Hkeep : wp (if round_up nb <? page_align_down (brk p)
      then vmm_free a (round_up nb) (page_align_down (brk p) - round_up nb) else ret tt)
      (fun _ s' => exists p', spaces s' !! a = Some p' /\ r ∈ regions p') s).
    { destruct (Z.ltb_spec (round_up nb) (page_align_down (brk p))) as [Hlt|Hge]; [|apply wp_ret; by exists p].
      pose proof (page_align_down_eq (brk p) ltac:(lia)) as Hpa. unfold PAGE_SIZE in Hpa.
      set (fe := page_align_down (brk p)) in *. assert (Hfe : fe mod 4096 = 0 /\ fe <= brk p) by dlia.
      destruct (round_up_spec (fe - round_up nb)) as (Hm2 & Hup2 & Heq2); [lia|]. eapply wp_mono.
      { apply (wp_vmm_free s a p d root tb); [done|lia|lia|done|]. unfold range_ok, vpn_of. split_and!; [lia|lia|]. dlia. }
      intros _ s' (p' & Hus' & _ & _ & _ & _ & _ & Hkeep). exists p'. split; [apply Hus'|]. apply Hkeep; [done|]. lia. }
    apply wp_bind. eapply wp_mono; [exact Hkeep|]. intros _ s1 (p1 & Hp1 & Hr1). apply wp_bind, (wp_upd_space _ _ _ p1); [done|].
    apply wp_ret. split; [done|]. exists (set_brk nb p1). split_and!; [apply lookup_insert_eq|done|done]. }
  apply wp_run in Hw as (v & s' & Hrun & -> & p' & Hp' & Hb' & Hr'). exists s'. split; [done|]. intros i Hi'.
  apply (sbrk_refused s' a p' r); [done|lia|done| |done]. unfold covers. lia.
Qed.

(** ** Witnesses: a user space on the machine of [MmuThms.v] *)

Definition fresh_heap (pd : Z) : vmm_address_space := VmmSpace pd [] VMM_USER_HEAP_START 0x2000000 VMM_USER_HEAP_START.
Definition fresh_vmm m (pd : Z) : vmm := Vmm m {[0x5000 := fresh_heap pd]} 0x6000 0x6000 (VmmStats 0 0 0 0 0).

Lemma fresh_user m pd d root tb : space m pd d root tb -> 2 ^ 52 <= direct_map m -> 0 ∉ free m ->
  user_space (fresh_vmm m pd) 0x5000 (fresh_heap pd) d root tb.
Proof.
  intros Hs Hd Hz. split; [apply lookup_singleton_eq|done..| |apply NoDup_nil_2|done|done|done].
  by intros ra r ?%not_elem_of_nil.
Qed.

Definition demo_heap : vmm_address_space := fresh_heap demo_pd.
Definition demo_vmm : vmm := fresh_vmm demo_space demo_pd.

Lemma used_not_free m f : bit (bitmap_mem (frames m)) f = true -> f ∉ free m.
Proof. intros Hb Hin. apply elem_of_abs_free in Hin as [_ Hin]. congruence. Qed.

Lemma empty_space_walk m pd d root : space m pd d root {[ (3%nat, 0) := root ]} ->
  forall vpn, user_page vpn -> walk m root vpn = None.
Proof. intros Hs vpn Hv. rewrite (walk_space _ _ _ _ _ _ Hs Hv). by rewrite leaf_root. Qed.

Lemma demo_user : exists d root, user_space demo_vmm 0x5000 demo_heap d root {[ (3%nat, 0) := root ]} /\
  forall vpn, user_page vpn -> walk demo_space root vpn = None.
Proof.
  assert (Hd : 2 ^ 52 <= direct_map demo_space) by (vm_compute; discriminate).
  assert (Hb : bit (bitmap_mem (frames demo_space)) 0 = true) by (vm_compute; reflexivity).
  destruct demo_is_space as (d & root & _ & Hs). exists d, root. split.
  - exact (fresh_user demo_space demo_pd _ _ _ Hs Hd (used_not_free demo_space 0 Hb)).
  - exact (empty_space_walk _ _ _ _ Hs).
Qed.

Lemma in_pages_user first n vpn : 0 <= first -> first + n <= 2 ^ 35 -> in_pages first n vpn = true -> user_page vpn.
Proof. unfold in_pages, user_page. lia. Qed.

Lemma vmm_alloc_grows_heap_witness : exists r s', vmm_alloc 0x5000 0x1800 demo_vmm = Ok (r, s').
Proof.
  destruct demo_user as (d & root & Hus & Hno).
  destruct (vmm_alloc_grows_heap demo_vmm 0x5000 demo_heap d root _ 0x1800 Hus) as (r & s' & Hr & _);
    [by split|by vm_compute|by vm_compute|by vm_compute| |by exists r, s'].
  intros vpn Hin. apply Hno. eapply in_pages_user; [| |exact Hin]; by vm_compute.
Defined.

Definition state_after {A : Type} (c : VM A) s : vmm := match c s with Ok (_, s') => s' | Fault _ => s end.

Lemma heap_after s a p d root tb size :
  user_space s a p d root tb -> 0 < size < 2 ^ 63 -> brk p mod 4096 = 0 ->
  brk p + round_up size <= heap_end p -> apart (regions p) (brk p) (brk p + round_up size) = true ->
  (forall vpn, in_pages (vpn_of (brk p)) (round_up size / PAGE_SIZE) vpn = true -> walk (vm s) root vpn = None) ->
  match vmm_alloc a size s with Ok (r, _) => negb (r =? NULL) | Fault _ => false end = true ->
  exists p' tb', user_space (state_after (vmm_alloc a size) s) a p' d root tb'.
Proof.
  intros H1 H2 H3 H4 H5 H6 Hok. pose proof (wp_vmm_alloc s a p d root tb size H1 H2 H3 H4 H5 H6) as Hw.
  unfold wp, state_after in *. destruct (vmm_alloc a size s) as [[r s']|]; [|done].
  destruct Hw as [(-> & _)|(_ & p' & tb' & fs & Hus & _)]; [done|by exists p', tb'].
Qed.

Definition grown_vmm : vmm := state_after (vmm_alloc 0x5000 0x1800) demo_vmm.
Definition region_of s (a : Z) : Z * vmm_region :=
  match spaces s !! a with
  | Some p => match regions p with r :: _ => r | [] => (0, VmmRegion 0 0 0 0 false) end
  | None => (0, VmmRegion 0 0 0 0 false)
  end.

(** Two pages and the region object are allocated. *)
Example grown_region_is : (region_of grown_vmm 0x5000).2 = VmmRegion 0x1000000 0x1002000 3 VMM_REGION_USER_HEAP false.
Proof. by vm_compute. Qed.

Lemma region_of_space s a p (b h : Z) : spaces s !! a = Some p ->
  match spaces s !! a with
  | Some p => (brk p =? b) && (heap_start p =? h) && negb (length (regions p) =? 0)%nat
  | None => false end = true ->
  brk p = b /\ region_of s a ∈ regions p /\ heap_start p = h.
Proof.
  intros Hp Hall. unfold region_of. rewrite Hp in Hall |- *.
  apply andb_prop in Hall as [[?%Z.eqb_eq ?%Z.eqb_eq]%andb_prop Hl]. split_and!; [done| |done].
  destruct (regions p); [done|]. apply list_elem_of_here.
Qed.

Lemma grown_user : exists p d root tb, user_space grown_vmm 0x5000 p d root tb /\ brk p = 0x1002000 /\
  region_of grown_vmm 0x5000 ∈ regions p /\ heap_start p = 0x1000000.
Proof.
  destruct demo_user as (d & root & Hus & Hno).
  assert (Hok : match vmm_alloc 0x5000 0x1800 demo_vmm with Ok (r, _) => negb (r =? NULL) | Fault _ => false end = true)
    by (vm_compute; reflexivity).
  destruct (heap_after demo_vmm 0x5000 demo_heap d root _ 0x1800 Hus) as (p & tb & Hus');
    [by split|by vm_compute|by vm_compute|by vm_compute| |exact Hok|].
  { intros vpn Hin. apply Hno. eapply in_pages_user; [| |exact Hin]; by vm_compute. }
  exists p, d, root, tb. split; [exact Hus'|].
  apply (region_of_space grown_vmm 0x5000); [exact (us_space _ _ _ _ _ _ Hus')|]. vm_compute. reflexivity.
Qed.

Lemma vmm_free_leaks_witness : exists s', vmm_free 0x5000 0x1000000 0x1800 grown_vmm = Ok (tt, s').
Proof.
  destruct grown_user as (p & d & root & tb & Hus & _).
  destruct (vmm_free_leaks grown_vmm 0x5000 p d root tb 0x1000000 0x1800 Hus) as (s' & p' & Hr & _);
    [by split|by vm_compute|by vm_compute|by vm_compute|by exists s'].
Defined.

Lemma vmm_sbrk_never_grows_again_witness :
  exists s', vmm_sbrk 0x5000 (-1) grown_vmm = Ok (0x1002000, s') /\ vmm_sbrk 0x5000 1 s' = Ok (UINT64_MAX, s').
Proof.
  destruct grown_user as (p & d & root & tb & Hus & Hb & Hin & Hhs).
  destruct (vmm_sbrk_never_grows_again grown_vmm 0x5000 p d root tb (region_of grown_vmm 0x5000) (-1) Hus) as (s' & Hr & Hn).
  - exact Hin.
  - lia.
  - rewrite Hb, Hhs. lia.
  - rewrite Hb. split; by vm_compute.
  - exists s'. rewrite <- Hb. split; [exact Hr|exact (Hn 1 ltac:(lia))].
Defined.

(** ** User access *)

(** The numbers of [vmm_region_type_t] are taken for those of [region_type_t]:
    [vmm_map_region] maps a user heap and a user stack without user access, and
    user code writable and not executable. *)
Example vmm_region_flags_wrong :
  let fl t := paging_get_flags_for_region_type (as_region_type t) in
  flag (fl VMM_REGION_USER_HEAP) PAGE_USER = false /\ flag (fl VMM_REGION_USER_STACK) PAGE_USER = false /\
  flag (fl VMM_REGION_USER_CODE) PAGE_WRITE = true /\ flag (fl VMM_REGION_USER_CODE) PAGE_NX = true.
Proof. by vm_compute. Qed.

(** The entry that maps the page of [virt] in the space at [a]. *)
Definition heap_entry s (a virt : Z) : Z :=
  match spaces s !! a with
  | Some p =>
      match root_of (page_dir p) (vm s) with
      | Ok (Some pml4, m) =>
          match hw_walk (word m) 3 ((pml4 - direct_map m) / 4096) (vpn_of virt) with Some (_, e) => e | None => 0 end
      | _ => 0
      end
  | None => 0
  end.

(** [vmm_alloc] records its regions without [PAGE_USER]: after
    [vmm_fork_address_space] the parent has no user access to its own heap. *)
Example vmm_fork_drops_user :
  flag (heap_entry grown_vmm 0x5000 0x1000000) PAGE_USER = true /\
  flag (heap_entry (state_after (vmm_fork_address_space 0x5000) grown_vmm) 0x5000 0x1000000) PAGE_PRESENT = true /\
  flag (heap_entry (state_after (vmm_fork_address_space 0x5000) grown_vmm) 0x5000 0x1000000) PAGE_USER = false.
Proof. by vm_compute. Qed.
