(* ===== verification/Fs.v ===== *)
(** * The objects of the file system and vnodes ([libfs/vfs.c], [libfs/include/vfs.h])

    The virtual file system and [tmpfs] link their structures by pointers:
    vnodes, mounts, cached names, tmpfs nodes and directory entries, and the
    strings and file buffers these own.  All of them live in one heap of typed
    objects named by address ([fs_heap]); using a null, freed or differently
    typed address is a fault.  A byte of a file buffer is [None] until it is
    written, since [kmalloc] does not clear memory; a string is the list of its
    characters before the NUL.  [kmalloc] and [kfree] are the interface
    [Allocator]; [TimeSource] is the time-stamp counter.  This file has the
    vnode operations of [vfs.c]; their [release] callback is a parameter. *)

From stdpp Require Import base numbers list gmap.
From S2P Require Import Prelude Spinlock Kernel KLogic VfsPath.

Definition EPERM : Z := 1.
Definition EBUSY : Z := 16.
Definition EISDIR : Z := 21.
Definition ERANGE : Z := 34.
Definition ELOOP : Z := 62.
Definition ENOTEMPTY : Z := 66.

(** File types, written in octal in the header. *)
Definition VFS_IFMT : Z := 0xF000.
Definition VFS_IFDIR : Z := 0x4000.
Definition VFS_IFREG : Z := 0x8000.
Definition VFS_IFLNK : Z := 0xA000.
Definition VNODE_FLAG_DIRTY : Z := 0x0001.
Definition VNODE_FLAG_ROOT : Z := 0x0004.

(** ** Structures *)

Record vnode := Vnode {
  v_ino : Z; v_mode : Z; v_uid : Z; v_gid : Z; v_size : Z; v_nlink : Z; v_rdev : Z;
  v_atime : Z; v_mtime : Z; v_ctime : Z; v_flags : Z; v_refcount : Z;
  v_mount : Z; v_ops : Z; v_private : Z; v_next : Z
}.

Record vfs_mount := Mount {
  mnt_point : Z; mnt_device : Z; mnt_flags : Z; mnt_root : Z; mnt_ops : Z;
  mnt_private : Z; mnt_next : Z
}.

Record vfs_dentry := Dentry {
  d_name : Z; d_vnode : Z; d_parent : Z; d_next : Z; d_hash : Z
}.

Record fs_type_node := FsType { ft_ops : Z; ft_next : Z }.

Record vfs_context := Context_ { cx_cwd : Z; cx_root : Z; cx_umask : Z }.

Record tmpfs_mount := TMount {
  tm_max_size : Z; tm_used_size : Z; tm_next_ino : Z; tm_root : Z; tm_vfs_mount : Z
}.

Record tmpfs_dirent := TDirent { td_name : Z; td_node : Z; td_next : Z }.

(** The union [tn_data] is two words: [tn_ptr] is [file.data], [dir.entries]
    or [symlink.target], and [tn_word] is [file.capacity] or [dir.count]. *)
Record tmpfs_node := TNode {
  tn_ino : Z; tn_type : Z; tn_mode : Z; tn_uid : Z; tn_gid : Z; tn_nlink : Z; tn_size : Z;
  tn_atime : Z; tn_mtime : Z; tn_ctime : Z;
  tn_ptr : Z; tn_word : Z;
  tn_mount : Z
}.

Inductive fsobj :=
  | OVnode (v : vnode)
  | OMount (m : vfs_mount)
  | ODentry (d : vfs_dentry)
  | OFsType (t : fs_type_node)
  | OContext (c : vfs_context)
  | OTmount (t : tmpfs_mount)
  | ONode (n : tmpfs_node)
  | ODirent (t : tmpfs_dirent)
  | OStr (str : list Z)
  | OBuf (b : list (option Z)).

Record vfs_stats := Stats {
  st_lookups : Z; st_cache_hits : Z; st_cache_misses : Z; st_creates : Z; st_deletes : Z
}.

(** The heap and the static variables of [vfs.c]; [fs_last] is the static of
    [vfs_now]. *)
Record fsd := Fsd {
  fs_heap : gmap Z fsobj;
  vnode_hash : list Z;
  fs_last : Z;
  fs_types : Z;
  mount_list : Z;
  root_mount : Z;
  dentry_hash : list Z;
  vfs_counts : vfs_stats
}.

Definition fs_set_heap (h : gmap Z fsobj) (d : fsd) : fsd :=
  Fsd h (vnode_hash d) (fs_last d) (fs_types d) (mount_list d) (root_mount d) (dentry_hash d) (vfs_counts d).
Definition fs_set_vhash (t : list Z) (d : fsd) : fsd :=
  Fsd (fs_heap d) t (fs_last d) (fs_types d) (mount_list d) (root_mount d) (dentry_hash d) (vfs_counts d).
Definition fs_set_last (t : Z) (d : fsd) : fsd :=
  Fsd (fs_heap d) (vnode_hash d) t (fs_types d) (mount_list d) (root_mount d) (dentry_hash d) (vfs_counts d).
Definition fs_set_types (p : Z) (d : fsd) : fsd :=
  Fsd (fs_heap d) (vnode_hash d) (fs_last d) p (mount_list d) (root_mount d) (dentry_hash d) (vfs_counts d).
Definition fs_set_mounts (p : Z) (d : fsd) : fsd :=
  Fsd (fs_heap d) (vnode_hash d) (fs_last d) (fs_types d) p (root_mount d) (dentry_hash d) (vfs_counts d).
Definition fs_set_root (p : Z) (d : fsd) : fsd :=
  Fsd (fs_heap d) (vnode_hash d) (fs_last d) (fs_types d) (mount_list d) p (dentry_hash d) (vfs_counts d).
Definition fs_set_dhash (t : list Z) (d : fsd) : fsd :=
  Fsd (fs_heap d) (vnode_hash d) (fs_last d) (fs_types d) (mount_list d) (root_mount d) t (vfs_counts d).
Definition fs_set_counts (c : vfs_stats) (d : fsd) : fsd :=
  Fsd (fs_heap d) (vnode_hash d) (fs_last d) (fs_types d) (mount_list d) (root_mount d) (dentry_hash d) c.

Definition put_obj (p : Z) (o : fsobj) (d : fsd) : fsd := fs_set_heap (<[p := o]> (fs_heap d)) d.
Definition del_obj (p : Z) (d : fsd) : fsd := fs_set_heap (delete p (fs_heap d)) d.

(** Field updates of vnodes. *)
Definition v_set_refcount (n : Z) (v : vnode) : vnode :=
  Vnode (v_ino v) (v_mode v) (v_uid v) (v_gid v) (v_size v) (v_nlink v) (v_rdev v) (v_atime v)
    (v_mtime v) (v_ctime v) (v_flags v) n (v_mount v) (v_ops v) (v_private v) (v_next v).
Definition v_set_next (n : Z) (v : vnode) : vnode :=
  Vnode (v_ino v) (v_mode v) (v_uid v) (v_gid v) (v_size v) (v_nlink v) (v_rdev v) (v_atime v)
    (v_mtime v) (v_ctime v) (v_flags v) (v_refcount v) (v_mount v) (v_ops v) (v_private v) n.
Definition v_set_size (n : Z) (v : vnode) : vnode :=
  Vnode (v_ino v) (v_mode v) (v_uid v) (v_gid v) n (v_nlink v) (v_rdev v) (v_atime v)
    (v_mtime v) (v_ctime v) (v_flags v) (v_refcount v) (v_mount v) (v_ops v) (v_private v) (v_next v).
Definition v_set_flags (f : Z) (v : vnode) : vnode :=
  Vnode (v_ino v) (v_mode v) (v_uid v) (v_gid v) (v_size v) (v_nlink v) (v_rdev v) (v_atime v)
    (v_mtime v) (v_ctime v) f (v_refcount v) (v_mount v) (v_ops v) (v_private v) (v_next v).
Definition v_set_times (a m c : Z) (v : vnode) : vnode :=
  Vnode (v_ino v) (v_mode v) (v_uid v) (v_gid v) (v_size v) (v_nlink v) (v_rdev v) a m c
    (v_flags v) (v_refcount v) (v_mount v) (v_ops v) (v_private v) (v_next v).
Definition v_set_owner (mode uid gid : Z) (v : vnode) : vnode :=
  Vnode (v_ino v) mode uid gid (v_size v) (v_nlink v) (v_rdev v) (v_atime v)
    (v_mtime v) (v_ctime v) (v_flags v) (v_refcount v) (v_mount v) (v_ops v) (v_private v) (v_next v).

Definition sizeof_vnode : Z := 136.

(** The addresses of locks: that of an object is the object's. *)
Definition vnode_hash_lock (h : Z) : Z := - (h + 1).
Definition mount_list_lock : Z := -1000.
Definition dentry_hash_lock : Z := -1001.
Definition fs_types_lock : Z := -1002.
Definition vfs_stats_lock : Z := -1003.

(** The address of a pointer in a chain of vnodes: a slot of the table or the
    [v_next] of a vnode. *)
Inductive vcell := VHead (h : Z) | VNext (p : Z).

(** [tsc_get_time_ns]. *)
Class TimeSource (E : Type) `{Allocator E} := {
  tsc_get_time_ns : E -> Z * E;
  tsc_live e : al_live (tsc_get_time_ns e).2 = al_live e
}.

Section fs.
Context {E : Type} `{TimeSource E}.
Abbreviation K := (M (kst (guarded fsd) E)).

(** ** Access to objects *)

Definition the_obj (p : Z) : K fsobj :=
  h <- data fs_heap ;;
  match h !! p with Some o => ret o | None => throw F_null end.
Definition the_vnode (p : Z) : K vnode :=
  o <- the_obj p ;; match o with OVnode v => ret v | _ => throw F_null end.
Definition the_mount (p : Z) : K vfs_mount :=
  o <- the_obj p ;; match o with OMount m => ret m | _ => throw F_null end.
Definition the_tmount (p : Z) : K tmpfs_mount :=
  o <- the_obj p ;; match o with OTmount t => ret t | _ => throw F_null end.
Definition the_node (p : Z) : K tmpfs_node :=
  o <- the_obj p ;; match o with ONode n => ret n | _ => throw F_null end.
Definition the_dirent (p : Z) : K tmpfs_dirent :=
  o <- the_obj p ;; match o with ODirent t => ret t | _ => throw F_null end.
Definition the_str (p : Z) : K (list Z) :=
  o <- the_obj p ;; match o with OStr str => ret str | _ => throw F_null end.
Definition the_buf (p : Z) : K (list (option Z)) :=
  o <- the_obj p ;; match o with OBuf b => ret b | _ => throw F_null end.

Definition put (p : Z) (o : fsobj) : K unit := set_data (put_obj p o).
Definition upd_vnode (p : Z) (g : vnode -> vnode) : K unit :=
  v <- the_vnode p ;; put p (OVnode (g v)).
Definition upd_node (p : Z) (g : tmpfs_node -> tmpfs_node) : K unit :=
  n <- the_node p ;; put p (ONode (g n)).

(** [kmalloc(size)] of an object that starts as [o], and [kfree]. *)
Definition new (size : Z) (o : fsobj) : K Z :=
  p <- env_pure (al_alloc size) ;;
  if p =? NULL then ret NULL else put p o ;;; ret p.
Definition free (p : Z) : K unit :=
  _ <- the_obj p ;;
  set_data (del_obj p) ;;;
  env_pure (fun e => (tt, al_free p e)).

Definition heap_fuel : K nat := data (fun d => S (size (fs_heap d))).

(** ** Vnodes *)

Definition vfs_now : K Z :=
  t <- env_pure tsc_get_time_ns ;;
  let now := t / 1000000000 in
  last <- data fs_last ;;
  let now := if now <? last then last else now in
  set_data (fs_set_last now) ;;;
  ret now.

Definition vfs_update_atime (vn : Z) : K unit :=
  if vn =? NULL then ret tt
  else
    now <- vfs_now ;;
    v <- the_vnode vn ;;
    if (v_atime v <? v_mtime v) || (v_atime v + 60 <? now)
    then upd_vnode vn (v_set_times now (v_mtime v) (v_ctime v))
    else ret tt.

Definition vfs_update_mtime (vn : Z) : K unit :=
  if vn =? NULL then ret tt
  else
    now <- vfs_now ;;
    v <- the_vnode vn ;;
    upd_vnode vn (v_set_times (v_atime v) now now).

Definition vnode0 : vnode := Vnode 0 0 0 0 0 0 0 0 0 0 0 0 0 0 0 0.

Definition vfs_vnode_alloc (mnt ino : Z) : K Z :=
  vnode <- new sizeof_vnode (OVnode vnode0) ;;
  if vnode =? NULL then ret NULL
  else
    now <- vfs_now ;;
    put vnode (OVnode (Vnode ino 0 0 0 0 0 0 now now now 0 1 mnt 0 0 0)) ;;;
    init_lock vnode ;;;
    let hash := vnode_hash_func 0 ino in
    with_lock_irq (vnode_hash_lock hash) (
      t <- data vnode_hash ;;
      head <- lift (aread t hash) ;;
      upd_vnode vnode (v_set_next head) ;;;
      t' <- lift (awrite t hash vnode) ;;
      set_data (fs_set_vhash t')) ;;;
    ret vnode.

(** The callback [v_ops->release] of a vnode whose [v_ops] is not null. *)
Context (release : Z -> K unit).

Definition vnode_release (vnode : Z) : K unit :=
  v <- the_vnode vnode ;;
  if v_ops v =? NULL then ret tt else release vnode.

Definition vfs_vnode_free (vnode : Z) : K unit :=
  if vnode =? NULL then ret tt
  else vnode_release vnode ;;; free vnode.

Definition vfs_vnode_ref (vnode : Z) : K unit :=
  if vnode =? NULL then ret tt
  else with_lock_irq vnode (upd_vnode vnode (fun v => v_set_refcount (u32 (v_refcount v + 1)) v)).

Definition read_vcell (c : vcell) : K Z :=
  match c with
  | VHead h => t <- data vnode_hash ;; lift (aread t h)
  | VNext p => v <- the_vnode p ;; ret (v_next v)
  end.
Definition write_vcell (c : vcell) (x : Z) : K unit :=
  match c with
  | VHead h => t <- data vnode_hash ;; t' <- lift (awrite t h x) ;; set_data (fs_set_vhash t')
  | VNext p => upd_vnode p (v_set_next x)
  end.

(** The loop of [vfs_vnode_unref]. *)
Fixpoint vnode_unlink (fuel : nat) (current : vcell) (vnode : Z) : K unit :=
  match fuel with
  | O => throw F_fuel
  | S fuel =>
      c <- read_vcell current ;;
      if c =? NULL then ret tt
      else if c =? vnode then
        v <- the_vnode vnode ;; write_vcell current (v_next v)
      else vnode_unlink fuel (VNext c) vnode
  end.

Definition vfs_vnode_unref (vnode : Z) : K unit :=
  if vnode =? NULL then ret tt
  else
    last <- with_lock_irq vnode (
      v <- the_vnode vnode ;;
      if v_refcount v =? 0 then ret None
      else
        upd_vnode vnode (v_set_refcount (v_refcount v - 1)) ;;;
        ret (if v_refcount v - 1 =? 0 then Some (vnode_hash_func 0 (v_ino v)) else None)) ;;
    match last with
    | Some hash =>
        with_lock_irq (vnode_hash_lock hash) (
          fuel <- heap_fuel ;; vnode_unlink fuel (VHead hash) vnode) ;;;
        vnode_release vnode ;;;
        free vnode
    | None => ret tt
    end.
End fs.
