(* ===== verification/Tmpfs.v ===== *)
(** * The memory file system ([libfs/tmpfs.c], [libfs/include/tmpfs.h])

    A node is a file, a directory or a symbolic link.  A file owns a buffer of
    [capacity] bytes of which [tn_size] are the file; a directory owns a linked
    list of entries, each with a name and the address of a node.  Directory
    operations that the source brackets with [tn_lock] are bracketed here; an
    early return inside is the value of the bracket.  A buffer argument that
    the code fills is returned with the result. *)

From stdpp Require Import base numbers list gmap.
From S2P Require Import Prelude Spinlock Kernel KLogic VfsPath Fs.

Definition TMPFS_DEFAULT_MODE : Z := 0x1ED.   (* 0755 *)
Definition TMPFS_ROOT_INO : Z := 1.
Definition TMPFS_FILE : Z := 1.
Definition TMPFS_DIR : Z := 2.
Definition TMPFS_SYMLINK : Z := 3.

(** The address of [tmpfs_vnode_ops] and [tmpfs_vfs_ops]. *)
Definition tmpfs_vnode_ops : Z := 0x100.
Definition tmpfs_vfs_ops : Z := 0x108.

Definition sizeof_tmpfs_node : Z := 120.
Definition sizeof_tmpfs_dirent : Z := 24.
Definition sizeof_tmpfs_mount : Z := 72.
Definition sizeof_vfs_mount : Z := 88.
Definition sizeof_vfs_dirent : Z := 280.

(** Field updates of nodes. *)
Definition tn_set_nlink (k : Z) (n : tmpfs_node) : tmpfs_node :=
  TNode (tn_ino n) (tn_type n) (tn_mode n) (tn_uid n) (tn_gid n) k (tn_size n)
    (tn_atime n) (tn_mtime n) (tn_ctime n) (tn_ptr n) (tn_word n) (tn_mount n).
Definition tn_set_size (k : Z) (n : tmpfs_node) : tmpfs_node :=
  TNode (tn_ino n) (tn_type n) (tn_mode n) (tn_uid n) (tn_gid n) (tn_nlink n) k
    (tn_atime n) (tn_mtime n) (tn_ctime n) (tn_ptr n) (tn_word n) (tn_mount n).
Definition tn_set_data (p w : Z) (n : tmpfs_node) : tmpfs_node :=
  TNode (tn_ino n) (tn_type n) (tn_mode n) (tn_uid n) (tn_gid n) (tn_nlink n) (tn_size n)
    (tn_atime n) (tn_mtime n) (tn_ctime n) p w (tn_mount n).
Definition tn_set_owner (mode uid gid : Z) (n : tmpfs_node) : tmpfs_node :=
  TNode (tn_ino n) (tn_type n) mode uid gid (tn_nlink n) (tn_size n)
    (tn_atime n) (tn_mtime n) (tn_ctime n) (tn_ptr n) (tn_word n) (tn_mount n).
Definition td_set_next (p : Z) (t : tmpfs_dirent) : tmpfs_dirent := TDirent (td_name t) (td_node t) p.
Definition tm_set_next_ino (k : Z) (t : tmpfs_mount) : tmpfs_mount :=
  TMount (tm_max_size t) (tm_used_size t) k (tm_root t) (tm_vfs_mount t).
Definition tm_set_root (p : Z) (t : tmpfs_mount) : tmpfs_mount :=
  TMount (tm_max_size t) (tm_used_size t) (tm_next_ino t) p (tm_vfs_mount t).

Definition node0 : tmpfs_node := TNode 0 0 0 0 0 0 0 0 0 0 0 0 0.

Record vfs_dirent := VDirent { vd_ino : Z; vd_off : Z; vd_reclen : Z; vd_type : Z; vd_name : list Z }.

Record vfs_stat := VStat {
  st_dev : Z; st_ino : Z; st_mode : Z; st_nlink : Z; st_uid : Z; st_gid : Z; st_rdev : Z;
  st_size : Z; st_blksize : Z; st_blocks : Z; st_atime : Z; st_mtime : Z; st_ctime : Z
}.

(** The address of a pointer in a list of entries: [dir.entries] of a node or
    [td_next] of an entry. *)
Inductive dcell := DHead (dir : Z) | DNext (entry : Z).

Section tmpfs.
Context {E : Type} `{TimeSource E}.
Abbreviation K := (M (kst (guarded fsd) E)).

(** [memcpy] of bytes into a buffer at an offset, and out of one. *)
Definition memcpy_to (p off : Z) (bytes : list (option Z)) : K unit :=
  match bytes with
  | [] => ret tt
  | _ =>
      b <- the_buf p ;;
      if (0 <=? off) && (off + Z.of_nat (length bytes) <=? Z.of_nat (length b))
      then put p (OBuf (take (Z.to_nat off) b ++ bytes ++ drop (Z.to_nat off + length bytes) b))
      else throw F_oob
  end.

Definition memcpy_from (p off len : Z) : K (list (option Z)) :=
  if len =? 0 then ret []
  else
    b <- the_buf p ;;
    if (0 <=? off) && (0 <=? len) && (off + len <=? Z.of_nat (length b))
    then ret (take (Z.to_nat len) (drop (Z.to_nat off) b))
    else throw F_oob.

(** A block of [n] bytes, none of them written yet. *)
Definition kmalloc_buf (n : Z) : K Z := new n (OBuf (replicate (Z.to_nat n) None)).

(** [kmalloc(strlen(s) + 1)] and [strcpy]. *)
Definition kmalloc_str (str : list Z) : K Z := new (strlen str + 1) (OStr str).

(** ** Nodes *)

Definition tmpfs_node_alloc (tm type mode : Z) : K Z :=
  if tm =? NULL then ret NULL
  else
    node <- new sizeof_tmpfs_node (ONode node0) ;;
    if node =? NULL then ret NULL
    else
      ino <- with_lock_irq tm (
        t <- the_tmount tm ;;
        put tm (OTmount (tm_set_next_ino (u64 (tm_next_ino t + 1)) t)) ;;;
        ret (tm_next_ino t)) ;;
      t <- the_tmount tm ;;
      put node (ONode (TNode ino type mode 0 0 1 0 0 0 0 NULL 0 (tm_vfs_mount t))) ;;;
      init_lock node ;;;
      ret node.

(** The loop that frees the entries of a directory. *)
Fixpoint free_entries (fuel : nat) (entry : Z) : K unit :=
  match fuel with
  | O => throw F_fuel
  | S fuel =>
      if entry =? NULL then ret tt
      else
        t <- the_dirent entry ;;
        (if td_name t =? NULL then ret tt else free (td_name t)) ;;;
        free entry ;;;
        free_entries fuel (td_next t)
  end.

Definition tmpfs_node_free (node : Z) : K unit :=
  if node =? NULL then ret tt
  else
    n <- the_node node ;;
    (if (tn_type n =? TMPFS_FILE) || (tn_type n =? TMPFS_SYMLINK) then
       if tn_ptr n =? NULL then ret tt else free (tn_ptr n)
     else if tn_type n =? TMPFS_DIR then
       fuel <- heap_fuel ;; free_entries fuel (tn_ptr n)
     else ret tt) ;;;
    free node.

Definition tmpfs_vnode_to_node (vnode : Z) : K Z :=
  if vnode =? NULL then ret NULL else v <- the_vnode vnode ;; ret (v_private v).

Definition tmpfs_release (vnode : Z) : K unit := ret tt.

Definition vfs_type_of (type : Z) : option Z :=
  if type =? TMPFS_FILE then Some VFS_IFREG
  else if type =? TMPFS_DIR then Some VFS_IFDIR
  else if type =? TMPFS_SYMLINK then Some VFS_IFLNK
  else None.

(** The result and the vnode stored through [vnode]. *)
Definition tmpfs_node_to_vnode (node : Z) : K (Z * Z) :=
  if node =? NULL then ret (- EINVAL, NULL)
  else
    n <- the_node node ;;
    v <- vfs_vnode_alloc (tn_mount n) (tn_ino n) ;;
    if v =? NULL then ret (- ENOMEM, NULL)
    else
      match vfs_type_of (tn_type n) with
      | None => vfs_vnode_free tmpfs_release v ;;; ret (- EINVAL, NULL)
      | Some vfs_type =>
          upd_vnode v (fun w =>
            Vnode (v_ino w) (Z.lor (Z.ldiff (tn_mode n) VFS_IFMT) vfs_type) (tn_uid n) (tn_gid n)
              (tn_size n) (tn_nlink n) (v_rdev w) (tn_atime n) (tn_mtime n) (tn_ctime n)
              (v_flags w) (v_refcount w) (v_mount w) tmpfs_vnode_ops node (v_next w)) ;;;
          ret (0, v)
      end.

(** ** Mounting *)

Definition tmpfs_mount_fs (mountpoint : list Z) (flags : Z) : K (Z * Z) :=
  mount <- new sizeof_vfs_mount (OMount (Mount 0 0 0 0 0 0 0)) ;;
  if mount =? NULL then ret (- ENOMEM, NULL)
  else
    tm <- new sizeof_tmpfs_mount (OTmount (TMount (64 * 1024 * 1024) 0 TMPFS_ROOT_INO NULL mount)) ;;
    if tm =? NULL then free mount ;;; ret (- ENOMEM, NULL)
    else
      init_lock tm ;;;
      root <- tmpfs_node_alloc tm TMPFS_DIR (Z.lor VFS_IFDIR TMPFS_DEFAULT_MODE) ;;
      if root =? NULL then free tm ;;; free mount ;;; ret (- ENOMEM, NULL)
      else
        t <- the_tmount tm ;;
        put tm (OTmount (tm_set_root root t)) ;;;
        r <- tmpfs_node_to_vnode root ;;
        let (rc, root_vnode) := r in
        if negb (rc =? 0) then
          tmpfs_node_free root ;;; free tm ;;; free mount ;;; ret (rc, NULL)
        else
          upd_vnode root_vnode (fun v => v_set_flags (Z.lor (v_flags v) VNODE_FLAG_ROOT) v) ;;;
          point <- kmalloc_str mountpoint ;;
          if point =? NULL then
            vfs_vnode_free tmpfs_release root_vnode ;;; tmpfs_node_free root ;;;
            free tm ;;; free mount ;;; ret (- ENOMEM, NULL)
          else
            put mount (OMount (Mount point NULL flags root_vnode tmpfs_vfs_ops tm 0)) ;;;
            init_lock mount ;;;
            ret (0, mount).

Definition tmpfs_unmount (mnt flags : Z) : K Z :=
  if mnt =? NULL then ret (- EINVAL)
  else
    m <- the_mount mnt ;;
    let tm := mnt_private m in
    if tm =? NULL then ret (- EINVAL)
    else
      t <- the_tmount tm ;;
      (if tm_root t =? NULL then ret tt else tmpfs_node_free (tm_root t)) ;;;
      free tm ;;;
      ret 0.

Definition tmpfs_statfs (mnt : Z) : K Z := ret (- ENOSYS).
Definition tmpfs_sync (mnt : Z) : K Z := ret 0.

(** ** Files *)

Definition tmpfs_read (vnode : Z) (buf : ptr) (count offset : Z) : K (Z * list (option Z)) :=
  match buf with
  | PNull => ret (- EINVAL, [])
  | PObj =>
      if vnode =? NULL then ret (- EINVAL, [])
      else
        node <- tmpfs_vnode_to_node vnode ;;
        if node =? NULL then ret (- EINVAL, [])
        else
          n <- the_node node ;;
          if negb (tn_type n =? TMPFS_FILE) then ret (- EINVAL, [])
          else
            with_lock_irq node (
              n <- the_node node ;;
              if tn_size n <=? offset then ret (0, [])
              else
                let available := u64 (tn_size n - offset) in
                let to_read := if count <? available then count else available in
                bytes <- (if negb (tn_ptr n =? NULL) && (0 <? to_read)
                          then memcpy_from (tn_ptr n) offset to_read else ret []) ;;
                ret (s64 to_read, bytes))
  end.

(** The old data, if any, moved to a new buffer. *)
Definition move_data (n : tmpfs_node) (new_data : Z) : K unit :=
  if tn_ptr n =? NULL then ret tt
  else
    old <- memcpy_from (tn_ptr n) 0 (tn_size n) ;;
    memcpy_to new_data 0 old ;;;
    free (tn_ptr n).

(** The buffer of [tmpfs_write] grown to twice the size needed; [false] when
    there is no memory for it. *)
Definition write_room (node : Z) (n : tmpfs_node) (new_size : Z) : K bool :=
  if tn_word n <? new_size then
    let new_capacity := u64 (new_size * 2) in
    new_data <- kmalloc_buf new_capacity ;;
    if new_data =? NULL then ret false
    else
      move_data n new_data ;;;
      upd_node node (tn_set_data new_data new_capacity) ;;;
      ret true
  else ret true.

(** The buffer of [tmpfs_truncate] grown, with zeros behind the file. *)
Definition truncate_room (node : Z) (n : tmpfs_node) (length : Z) : K bool :=
  if tn_word n <? length then
    new_data <- kmalloc_buf length ;;
    if new_data =? NULL then ret false
    else
      move_data n new_data ;;;
      memcpy_to new_data (tn_size n) (replicate (Z.to_nat (length - tn_size n)) (Some 0)) ;;;
      upd_node node (tn_set_data new_data length) ;;;
      ret true
  else ret true.

Definition tmpfs_write (vnode : Z) (buf : option (list Z)) (offset : Z) : K Z :=
  match buf with
  | None => ret (- EINVAL)
  | Some bytes =>
      let count := Z.of_nat (length bytes) in
      if vnode =? NULL then ret (- EINVAL)
      else
        node <- tmpfs_vnode_to_node vnode ;;
        if node =? NULL then ret (- EINVAL)
        else
          n <- the_node node ;;
          if negb (tn_type n =? TMPFS_FILE) then ret (- EINVAL)
          else
            with_lock_irq node (
              n <- the_node node ;;
              let new_size := u64 (offset + count) in
              room <- write_room node n new_size ;;
              if negb room then ret (- ENOMEM)
              else
                n <- the_node node ;;
                memcpy_to (tn_ptr n) offset (Some <$> bytes) ;;;
                (if tn_size n <? s64 new_size then
                   upd_node node (tn_set_size (s64 new_size)) ;;;
                   upd_vnode vnode (v_set_size (s64 new_size))
                 else ret tt) ;;;
                ret (s64 count))
  end.

Definition tmpfs_truncate (vnode length : Z) : K Z :=
  if (vnode =? NULL) || (length <? 0) then ret (- EINVAL)
  else
    node <- tmpfs_vnode_to_node vnode ;;
    if node =? NULL then ret (- EINVAL)
    else
      n <- the_node node ;;
      if negb (tn_type n =? TMPFS_FILE) then ret (- EINVAL)
      else
        with_lock_irq node (
          n <- the_node node ;;
          done <- (if length =? 0 then
              (if tn_ptr n =? NULL then ret tt else free (tn_ptr n)) ;;;
              upd_node node (fun n => tn_set_size 0 (tn_set_data NULL 0 n)) ;;;
              ret true
            else if length <? u64 (tn_size n) then
              upd_node node (tn_set_size length) ;;; ret true
            else if u64 (tn_size n) <? length then
              room <- truncate_room node n length ;;
              if (room : bool) then upd_node node (tn_set_size length) ;;; ret true else ret false
            else ret true) ;;
          if negb done then ret (- ENOMEM)
          else
            n <- the_node node ;;
            upd_vnode vnode (v_set_size (tn_size n)) ;;;
            ret 0).

(** ** Directories *)

Definition names_equal (a b : list Z) : bool := bool_decide (a = b).

(** The loop of [tmpfs_dirent_find]. *)
Fixpoint dirent_search (fuel : nat) (entry : Z) (name : list Z) : K Z :=
  match fuel with
  | O => throw F_fuel
  | S fuel =>
      if entry =? NULL then ret NULL
      else
        t <- the_dirent entry ;;
        str <- the_str (td_name t) ;;
        if names_equal str name then ret entry else dirent_search fuel (td_next t) name
  end.

Definition tmpfs_dirent_find (dir : Z) (name : option (list Z)) : K Z :=
  match name with
  | None => ret NULL
  | Some name =>
      if dir =? NULL then ret NULL
      else
        n <- the_node dir ;;
        if negb (tn_type n =? TMPFS_DIR) then ret NULL
        else fuel <- heap_fuel ;; dirent_search fuel (tn_ptr n) name
  end.

Definition tmpfs_dirent_add (dir : Z) (name : option (list Z)) (node : Z) : K Z :=
  match name with
  | None => ret (- EINVAL)
  | Some str =>
      if (dir =? NULL) || (node =? NULL) then ret (- EINVAL)
      else
        n <- the_node dir ;;
        if negb (tn_type n =? TMPFS_DIR) then ret (- EINVAL)
        else
          found <- tmpfs_dirent_find dir name ;;
          if negb (found =? NULL) then ret (- EEXIST)
          else
            entry <- new sizeof_tmpfs_dirent (ODirent (TDirent NULL NULL NULL)) ;;
            if entry =? NULL then ret (- ENOMEM)
            else
              td <- kmalloc_str str ;;
              if td =? NULL then free entry ;;; ret (- ENOMEM)
              else
                n <- the_node dir ;;
                put entry (ODirent (TDirent td node (tn_ptr n))) ;;;
                upd_node dir (tn_set_data entry (u32 (tn_word n + 1))) ;;;
                upd_node node (fun n => tn_set_nlink (u32 (tn_nlink n + 1)) n) ;;;
                ret 0
  end.

Definition read_dcell (c : dcell) : K Z :=
  match c with
  | DHead dir => n <- the_node dir ;; ret (tn_ptr n)
  | DNext entry => t <- the_dirent entry ;; ret (td_next t)
  end.
Definition write_dcell (c : dcell) (x : Z) : K unit :=
  match c with
  | DHead dir => upd_node dir (fun n => tn_set_data x (tn_word n) n)
  | DNext entry => t <- the_dirent entry ;; put entry (ODirent (td_set_next x t))
  end.

(** The loop of [tmpfs_dirent_remove], and what it does with the entry found. *)
Definition drop_entry (dir : Z) (prev : dcell) (entry : Z) (t : tmpfs_dirent) : K Z :=
  write_dcell prev (td_next t) ;;;
  upd_node dir (fun n => tn_set_data (tn_ptr n) (u32 (tn_word n - 1)) n) ;;;
  upd_node (td_node t) (fun n => tn_set_nlink (u32 (tn_nlink n - 1)) n) ;;;
  target <- the_node (td_node t) ;;
  (if tn_nlink target =? 0 then tmpfs_node_free (td_node t) else ret tt) ;;;
  free (td_name t) ;;;
  free entry ;;;
  ret 0.

Fixpoint dirent_unlink (fuel : nat) (dir : Z) (prev : dcell) (name : list Z) : K Z :=
  match fuel with
  | O => throw F_fuel
  | S fuel =>
      entry <- read_dcell prev ;;
      if entry =? NULL then ret (- ENOENT)
      else
        t <- the_dirent entry ;;
        str <- the_str (td_name t) ;;
        if names_equal str name then drop_entry dir prev entry t
        else dirent_unlink fuel dir (DNext entry) name
  end.

Definition tmpfs_dirent_remove (dir : Z) (name : option (list Z)) : K Z :=
  match name with
  | None => ret (- EINVAL)
  | Some str =>
      if dir =? NULL then ret (- EINVAL)
      else
        n <- the_node dir ;;
        if negb (tn_type n =? TMPFS_DIR) then ret (- EINVAL)
        else fuel <- heap_fuel ;; dirent_unlink fuel dir (DHead dir) str
  end.

(** The loop of [tmpfs_readdir]: the entry reached and its index. *)
Fixpoint skip_entries (fuel : nat) (entry current offset : Z) : K (Z * Z) :=
  match fuel with
  | O => throw F_fuel
  | S fuel =>
      if (entry =? NULL) || (offset <=? current) then ret (entry, current)
      else t <- the_dirent entry ;; skip_entries fuel (td_next t) (current + 1) offset
  end.

(** The result, the entry filled in and the new offset. *)
Definition tmpfs_readdir (vnode offset : Z) : K (Z * option vfs_dirent * Z) :=
  if vnode =? NULL then ret (- EINVAL, None, offset)
  else
    node <- tmpfs_vnode_to_node vnode ;;
    if node =? NULL then ret (- ENOTDIR, None, offset)
    else
      n <- the_node node ;;
      if negb (tn_type n =? TMPFS_DIR) then ret (- ENOTDIR, None, offset)
      else
        with_lock_irq node (
          n <- the_node node ;;
          fuel <- heap_fuel ;;
          r <- skip_entries fuel (tn_ptr n) 0 offset ;;
          let (entry, current) := r in
          if entry =? NULL then ret (- ENOENT, None, offset)
          else
            t <- the_dirent entry ;;
            target <- the_node (td_node t) ;;
            str <- the_str (td_name t) ;;
            let name_len := if VFS_MAX_NAME <=? strlen str then VFS_MAX_NAME - 1 else strlen str in
            let d_type := match vfs_type_of (tn_type target) with
                          | Some type => Z.shiftr type 12 | None => 0 end in
            ret (0, Some (VDirent (tn_ino target) (current + 1) sizeof_vfs_dirent d_type
                            (take (Z.to_nat name_len) str)), current + 1)).

(** The checks shared by the operations on a directory vnode. *)
Definition dir_node_of (dir : Z) : K (option Z) :=
  node <- tmpfs_vnode_to_node dir ;;
  if node =? NULL then ret None
  else
    n <- the_node node ;;
    if negb (tn_type n =? TMPFS_DIR) then ret None else ret (Some node).

Definition tmpfs_lookup (dir : Z) (name : option (list Z)) : K (Z * Z) :=
  match name with
  | None => ret (- EINVAL, NULL)
  | Some _ =>
      if dir =? NULL then ret (- EINVAL, NULL)
      else
        o <- dir_node_of dir ;;
        match o with
        | None => ret (- ENOTDIR, NULL)
        | Some dir_node =>
            node <- with_lock_irq dir_node (
              entry <- tmpfs_dirent_find dir_node name ;;
              if entry =? NULL then ret None
              else t <- the_dirent entry ;; ret (Some (td_node t))) ;;
            match node with
            | None => ret (- ENOENT, NULL)
            | Some node => tmpfs_node_to_vnode node
            end
        end
  end.

(** [(tmpfs_mount_t * )dir_node->tn_mount->mnt_private]. *)
Definition tmount_of (dir_node : Z) : K Z :=
  n <- the_node dir_node ;;
  m <- the_mount (tn_mount n) ;;
  ret (mnt_private m).

(** A new node added to a directory under its lock, freed again when that
    fails: the common part of [tmpfs_create], [tmpfs_mkdir] and [tmpfs_symlink]. *)
Definition add_new (dir_node : Z) (name : option (list Z)) (node : Z) : K Z :=
  rc <- with_lock_irq dir_node (tmpfs_dirent_add dir_node name node) ;;
  if negb (rc =? 0) then tmpfs_node_free node ;;; ret rc else ret 0.

(** [wanted] says whether [result] is not null. *)
Definition tmpfs_create (dir : Z) (name : option (list Z)) (mode : Z) (wanted : bool) : K (Z * Z) :=
  match name with
  | None => ret (- EINVAL, NULL)
  | Some _ =>
      if dir =? NULL then ret (- EINVAL, NULL)
      else
        o <- dir_node_of dir ;;
        match o with
        | None => ret (- ENOTDIR, NULL)
        | Some dir_node =>
            tm <- tmount_of dir_node ;;
            file <- tmpfs_node_alloc tm TMPFS_FILE mode ;;
            if file =? NULL then ret (- ENOMEM, NULL)
            else
              rc <- add_new dir_node name file ;;
              if negb (rc =? 0) then ret (rc, NULL)
              else if wanted then tmpfs_node_to_vnode file
              else ret (0, NULL)
        end
  end.

Definition tmpfs_mkdir (dir : Z) (name : option (list Z)) (mode : Z) : K Z :=
  match name with
  | None => ret (- EINVAL)
  | Some _ =>
      if dir =? NULL then ret (- EINVAL)
      else
        o <- dir_node_of dir ;;
        match o with
        | None => ret (- ENOTDIR)
        | Some dir_node =>
            tm <- tmount_of dir_node ;;
            new_dir <- tmpfs_node_alloc tm TMPFS_DIR mode ;;
            if new_dir =? NULL then ret (- ENOMEM) else add_new dir_node name new_dir
        end
  end.

Definition tmpfs_rmdir (dir : Z) (name : option (list Z)) : K Z :=
  match name with
  | None => ret (- EINVAL)
  | Some _ =>
      if dir =? NULL then ret (- EINVAL)
      else
        o <- dir_node_of dir ;;
        match o with
        | None => ret (- ENOTDIR)
        | Some dir_node =>
            with_lock_irq dir_node (
              entry <- tmpfs_dirent_find dir_node name ;;
              if entry =? NULL then ret (- ENOENT)
              else
                t <- the_dirent entry ;;
                n <- the_node (td_node t) ;;
                if negb (tn_type n =? TMPFS_DIR) then ret (- ENOTDIR)
                else if 0 <? tn_word n then ret (- ENOTEMPTY)
                else tmpfs_dirent_remove dir_node name)
        end
  end.

Definition tmpfs_unlink (dir : Z) (name : option (list Z)) : K Z :=
  match name with
  | None => ret (- EINVAL)
  | Some _ =>
      if dir =? NULL then ret (- EINVAL)
      else
        o <- dir_node_of dir ;;
        match o with
        | None => ret (- ENOTDIR)
        | Some dir_node => with_lock_irq dir_node (tmpfs_dirent_remove dir_node name)
        end
  end.

Definition tmpfs_link (dir : Z) (name : option (list Z)) (target : Z) : K Z :=
  match name with
  | None => ret (- EINVAL)
  | Some _ =>
      if (dir =? NULL) || (target =? NULL) then ret (- EINVAL)
      else
        o <- dir_node_of dir ;;
        target_node <- tmpfs_vnode_to_node target ;;
        match o with
        | None => ret (- EINVAL)
        | Some dir_node =>
            if target_node =? NULL then ret (- EINVAL)
            else
              n <- the_node target_node ;;
              if tn_type n =? TMPFS_DIR then ret (- EPERM)
              else with_lock_irq dir_node (tmpfs_dirent_add dir_node name target_node)
        end
  end.

Definition tmpfs_symlink (dir : Z) (name target : option (list Z)) : K Z :=
  match name, target with
  | Some _, Some path =>
      if dir =? NULL then ret (- EINVAL)
      else
        o <- dir_node_of dir ;;
        match o with
        | None => ret (- ENOTDIR)
        | Some dir_node =>
            tm <- tmount_of dir_node ;;
            symlink <- tmpfs_node_alloc tm TMPFS_SYMLINK (Z.lor VFS_IFLNK 0x1FF) ;;
            if symlink =? NULL then ret (- ENOMEM)
            else
              str <- kmalloc_str path ;;
              if str =? NULL then
                upd_node symlink (fun n => tn_set_data NULL (tn_word n) n) ;;;
                tmpfs_node_free symlink ;;; ret (- ENOMEM)
              else
                upd_node symlink (fun n => tn_set_size (strlen path) (tn_set_data str (tn_word n) n)) ;;;
                add_new dir_node name symlink
        end
  | _, _ => ret (- EINVAL)
  end.

Definition tmpfs_readlink (vnode : Z) (buf : ptr) (bufsize : Z) : K (Z * list Z) :=
  match buf with
  | PNull => ret (- EINVAL, [])
  | PObj =>
      if (vnode =? NULL) || (bufsize =? 0) then ret (- EINVAL, [])
      else
        node <- tmpfs_vnode_to_node vnode ;;
        if node =? NULL then ret (- EINVAL, [])
        else
          n <- the_node node ;;
          if negb (tn_type n =? TMPFS_SYMLINK) then ret (- EINVAL, [])
          else
            with_lock_irq node (
              n <- the_node node ;;
              if tn_ptr n =? NULL then ret (- EINVAL, [])
              else
                str <- the_str (tn_ptr n) ;;
                let len := if bufsize <=? strlen str then bufsize - 1 else strlen str in
                ret (s32 len, take (Z.to_nat len) str ++ [0]))
  end.

(** ** Attributes *)

Definition tmpfs_getattr (vnode : Z) : K (Z * option vfs_stat) :=
  if vnode =? NULL then ret (- EINVAL, None)
  else
    node <- tmpfs_vnode_to_node vnode ;;
    if node =? NULL then ret (- EINVAL, None)
    else
      n <- the_node node ;;
      v <- the_vnode vnode ;;
      ret (0, Some (VStat 0 (tn_ino n) (v_mode v) (tn_nlink n) (tn_uid n) (tn_gid n) 0
                      (tn_size n) 512 (Z.quot (tn_size n + 511) 512)
                      (tn_atime n) (tn_mtime n) (tn_ctime n))).

Definition tmpfs_setattr (vnode : Z) (stat : option vfs_stat) : K Z :=
  match stat with
  | None => ret (- EINVAL)
  | Some stat =>
      if vnode =? NULL then ret (- EINVAL)
      else
        node <- tmpfs_vnode_to_node vnode ;;
        if node =? NULL then ret (- EINVAL)
        else
          with_lock_irq node (
            upd_node node (tn_set_owner (st_mode stat) (st_uid stat) (st_gid stat)) ;;;
            upd_vnode vnode (v_set_owner (st_mode stat) (st_uid stat) (st_gid stat)) ;;;
            ret 0)
  end.
End tmpfs.

#[global] Arguments tmpfs_dirent_find : simpl never.
#[global] Arguments tmpfs_dirent_add : simpl never.
#[global] Arguments tmpfs_dirent_remove : simpl never.
