(* ===== verification/TmpfsFacts.v ===== *)
(** * tmpfs: execution rules and the shape of the heap

    Rules that run the accesses of [Fs.v] symbolically, and the
    representation of a tmpfs in the heap.  An [anode] is a node with what its
    pointers lead to; [shape h t] says that the heap [h] holds exactly the
    nodes of [t], with disjoint footprints, entries that lead to nodes of [t]
    and distinct names in a directory. *)

From stdpp Require Import base numbers list gmap.
From S2P Require Import Prelude Spinlock Kernel KLogic VfsPath Fs Tmpfs.

(** ** Execution rules *)

Section rules.
Context {E : Type} `{TimeSource E}.
Abbreviation K := (M (kst (guarded fsd) E)).
Implicit Types (d : fsd) (e : E) (fl : Z) (held : list Z).

Lemma ev_the_obj held p o (Q : fsobj -> fsd -> E -> Z -> Prop) d e fl :
  fs_heap d !! p = Some o -> Q o d e fl -> ev held (the_obj p) Q d e fl.
Proof. intros Ho HQ. unfold the_obj. ev_steps. rewrite Ho. by apply ev_ret. Qed.

Lemma ev_the_vnode held p v (Q : vnode -> fsd -> E -> Z -> Prop) d e fl :
  fs_heap d !! p = Some (OVnode v) -> Q v d e fl -> ev held (the_vnode p) Q d e fl.
Proof. intros Ho HQ. unfold the_vnode. ev_step. eapply ev_the_obj; [done|]. by apply ev_ret. Qed.

Lemma ev_the_mount held p m (Q : vfs_mount -> fsd -> E -> Z -> Prop) d e fl :
  fs_heap d !! p = Some (OMount m) -> Q m d e fl -> ev held (the_mount p) Q d e fl.
Proof. intros Ho HQ. unfold the_mount. ev_step. eapply ev_the_obj; [done|]. by apply ev_ret. Qed.

Lemma ev_the_tmount held p t (Q : tmpfs_mount -> fsd -> E -> Z -> Prop) d e fl :
  fs_heap d !! p = Some (OTmount t) -> Q t d e fl -> ev held (the_tmount p) Q d e fl.
Proof. intros Ho HQ. unfold the_tmount. ev_step. eapply ev_the_obj; [done|]. by apply ev_ret. Qed.

Lemma ev_the_node held p n (Q : tmpfs_node -> fsd -> E -> Z -> Prop) d e fl :
  fs_heap d !! p = Some (ONode n) -> Q n d e fl -> ev held (the_node p) Q d e fl.
Proof. intros Ho HQ. unfold the_node. ev_step. eapply ev_the_obj; [done|]. by apply ev_ret. Qed.

Lemma ev_the_dirent held p t (Q : tmpfs_dirent -> fsd -> E -> Z -> Prop) d e fl :
  fs_heap d !! p = Some (ODirent t) -> Q t d e fl -> ev held (the_dirent p) Q d e fl.
Proof. intros Ho HQ. unfold the_dirent. ev_step. eapply ev_the_obj; [done|]. by apply ev_ret. Qed.

Lemma ev_the_str held p str (Q : list Z -> fsd -> E -> Z -> Prop) d e fl :
  fs_heap d !! p = Some (OStr str) -> Q str d e fl -> ev held (the_str p) Q d e fl.
Proof. intros Ho HQ. unfold the_str. ev_step. eapply ev_the_obj; [done|]. by apply ev_ret. Qed.

Lemma ev_the_buf held p b (Q : list (option Z) -> fsd -> E -> Z -> Prop) d e fl :
  fs_heap d !! p = Some (OBuf b) -> Q b d e fl -> ev held (the_buf p) Q d e fl.
Proof. intros Ho HQ. unfold the_buf. ev_step. eapply ev_the_obj; [done|]. by apply ev_ret. Qed.

Lemma ev_put held p o (Q : unit -> fsd -> E -> Z -> Prop) d e fl :
  Q tt (put_obj p o d) e fl -> ev held (put p o) Q d e fl.
Proof. intros HQ. unfold put. by ev_step. Qed.

Lemma ev_upd_node held p n g (Q : unit -> fsd -> E -> Z -> Prop) d e fl :
  fs_heap d !! p = Some (ONode n) -> Q tt (put_obj p (ONode (g n)) d) e fl ->
  ev held (upd_node p g) Q d e fl.
Proof. intros Ho HQ. unfold upd_node. ev_step. eapply ev_the_node; [done|]. by apply ev_put. Qed.

Lemma ev_upd_vnode held p v g (Q : unit -> fsd -> E -> Z -> Prop) d e fl :
  fs_heap d !! p = Some (OVnode v) -> Q tt (put_obj p (OVnode (g v)) d) e fl ->
  ev held (upd_vnode p g) Q d e fl.
Proof. intros Ho HQ. unfold upd_vnode. ev_step. eapply ev_the_vnode; [done|]. by apply ev_put. Qed.

(** [kmalloc] fails, or gives an address that was not live. *)
Lemma ev_new held size o (Q : Z -> fsd -> E -> Z -> Prop) d e fl :
  (forall e', al_live e' = al_live e -> Q NULL d e' fl) ->
  (forall p e', 0 < p -> p ∉ al_live e -> al_live e' = {[p]} ∪ al_live e -> Q p (put_obj p o d) e' fl) ->
  ev held (new size o) Q d e fl.
Proof.
  intros Hnull Hnew. unfold new. ev_step. ev_step. destruct (al_alloc size e) as [p e'] eqn:Ha. simpl.
  destruct (al_alloc_spec _ _ _ _ Ha) as [[-> Hl]|(Hp & Hf & Hl)].
  - rewrite Z.eqb_refl. ev_step. by apply Hnull.
  - destruct (Z.eqb_spec p NULL) as [->|_]; [unfold NULL in Hp; lia|].
    ev_step. apply ev_put. ev_step. apply Hnew; [lia|done..].
Qed.

Lemma ev_free held p o (Q : unit -> fsd -> E -> Z -> Prop) d e fl :
  fs_heap d !! p = Some o -> p ∈ al_live e ->
  (forall e', al_live e' = al_live e ∖ {[p]} -> Q tt (del_obj p d) e' fl) ->
  ev held (free p) Q d e fl.
Proof.
  intros Ho Hl HQ. unfold free. ev_step. eapply ev_the_obj; [done|]. ev_steps.
  simpl. apply HQ. by apply al_free_spec.
Qed.

Lemma ev_heap_fuel held (Q : nat -> fsd -> E -> Z -> Prop) d e fl :
  Q (S (size (fs_heap d))) d e fl -> ev held heap_fuel Q d e fl.
Proof. intros HQ. unfold heap_fuel. by ev_step. Qed.
End rules.

(** ** Nodes and what they own *)

(** An entry of a directory: where it and its name lie, the name, the node. *)
Record dent := Dent { de_addr : Z; de_naddr : Z; de_name : list Z; de_node : Z }.

Inductive body :=
  | BFile (b : option (list (option Z)))
  | BDir (l : list dent)
  | BSym (target : option (list Z)).

Record anode := ANode { an_node : tmpfs_node; an_body : body }.

Definition head_of (l : list dent) : Z := match l with [] => NULL | d :: _ => de_addr d end.

Fixpoint chain (h : gmap Z fsobj) (l : list dent) : Prop :=
  match l with
  | [] => True
  | d :: l' =>
      de_addr d <> NULL /\ de_naddr d <> NULL /\
      h !! de_addr d = Some (ODirent (TDirent (de_naddr d) (de_node d) (head_of l'))) /\
      h !! de_naddr d = Some (OStr (de_name d)) /\ chain h l'
  end.

Definition body_rep (h : gmap Z fsobj) (n : tmpfs_node) (b : body) : Prop :=
  match b with
  | BFile None => tn_type n = TMPFS_FILE /\ tn_ptr n = NULL /\ tn_word n = 0 /\ tn_size n = 0
  | BFile (Some buf) => tn_type n = TMPFS_FILE /\ tn_ptr n <> NULL /\ h !! tn_ptr n = Some (OBuf buf) /\
      tn_word n = Z.of_nat (length buf) /\ 0 <= tn_size n <= Z.of_nat (length buf) /\ tn_size n < 2 ^ 63
  | BDir l => tn_type n = TMPFS_DIR /\ tn_ptr n = head_of l /\ chain h l /\ tn_word n = u32 (Z.of_nat (length l))
  | BSym None => tn_type n = TMPFS_SYMLINK /\ tn_ptr n = NULL
  | BSym (Some str) => tn_type n = TMPFS_SYMLINK /\ tn_ptr n <> NULL /\ h !! tn_ptr n = Some (OStr str)
  end.

Definition dent_foot (l : list dent) : list Z := l ≫= (fun d => [de_naddr d; de_addr d]).

Definition body_foot (n : tmpfs_node) (b : body) : list Z :=
  match b with
  | BFile (Some _) | BSym (Some _) => [tn_ptr n]
  | BDir l => dent_foot l
  | _ => []
  end.

Definition mounted (h : gmap Z fsobj) (n : tmpfs_node) : Prop :=
  exists m t, h !! tn_mount n = Some (OMount m) /\ mnt_private m <> NULL /\
    h !! mnt_private m = Some (OTmount t) /\ tm_vfs_mount t = tn_mount n.

Abbreviation tree := (gmap Z anode).

Record shape (h : gmap Z fsobj) (t : tree) : Prop := {
  sh_node p a : t !! p = Some a -> p <> NULL /\ h !! p = Some (ONode (an_node a));
  sh_body p a : t !! p = Some a -> body_rep h (an_node a) (an_body a);
  sh_all p n : h !! p = Some (ONode n) -> is_Some (t !! p);
  sh_disj p q a b x : t !! p = Some a -> t !! q = Some b ->
    x ∈ body_foot (an_node a) (an_body a) -> x ∈ body_foot (an_node b) (an_body b) -> p = q;
  sh_nodup p a : t !! p = Some a -> NoDup (body_foot (an_node a) (an_body a));
  sh_entry p n l d : t !! p = Some (ANode n (BDir l)) -> d ∈ l -> is_Some (t !! de_node d);
  sh_names p n l : t !! p = Some (ANode n (BDir l)) -> NoDup (de_name <$> l);
  sh_mount p a : t !! p = Some a -> mounted h (an_node a)
}.

Lemma chain_agree h h' l :
  (forall x, x ∈ dent_foot l -> h' !! x = h !! x) -> chain h l -> chain h' l.
Proof.
  unfold dent_foot. induction l as [|d l IH]; simpl; [done|].
  intros Ha (? & ? & Hd & Hs & Hl). split_and!; [done..| | |].
  - rewrite Ha by set_solver. done.
  - rewrite Ha by set_solver. done.
  - apply IH; [|done]. intros x Hx. apply Ha. set_solver.
Qed.

(** A body depends on the heap at its footprint only. *)
Lemma body_rep_agree h h' n b :
  (forall x, x ∈ body_foot n b -> h' !! x = h !! x) -> body_rep h n b -> body_rep h' n b.
Proof.
  destruct b as [[b|]|l|[str|]]; simpl; intros Ha; [|done| | |done].
  - intros (? & ? & Hb & ?). rewrite Ha by set_solver. done.
  - intros (? & ? & Hc & ?). split_and!; [done..| |done]. by eapply chain_agree.
  - intros (? & ? & Hb). rewrite Ha by set_solver. done.
Qed.

Lemma chain_elem h l d : chain h l -> d ∈ l ->
  (exists next, h !! de_addr d = Some (ODirent (TDirent (de_naddr d) (de_node d) next))) /\
  h !! de_naddr d = Some (OStr (de_name d)) /\ de_addr d <> NULL /\ de_naddr d <> NULL.
Proof.
  induction l as [|d' l IH]; simpl; [set_solver|].
  intros (? & ? & Hd & Hs & Hl) [->|Hin]%elem_of_cons; [by eauto|by apply IH].
Qed.

Lemma dent_foot_elem l x :
  x ∈ dent_foot l <-> exists d, d ∈ l /\ (x = de_naddr d \/ x = de_addr d).
Proof. unfold dent_foot. rewrite list_elem_of_bind. set_solver. Qed.

(** What lies in a footprint: a buffer, a string or an entry. *)
Definition is_part (o : fsobj) : Prop :=
  match o with OBuf _ | OStr _ | ODirent _ => True | _ => False end.

Lemma foot_part h n b x : body_rep h n b -> x ∈ body_foot n b ->
  x <> NULL /\ exists o, h !! x = Some o /\ is_part o.
Proof.
  destruct b as [[b|]|l|[str|]]; simpl; intros Hb Hx; try (by apply elem_of_nil in Hx).
  - apply list_elem_of_singleton in Hx as ->. destruct Hb as (? & ? & Hb & ?). split; [done|]. eexists; by split.
  - apply dent_foot_elem in Hx as (d & Hd & Hx). destruct Hb as (_ & _ & Hc & _).
    destruct (chain_elem _ _ _ Hc Hd) as ([next He] & Hs & ? & ?). destruct Hx as [->| ->]; (split; [done|]; eexists; by split).
  - apply list_elem_of_singleton in Hx as ->. destruct Hb as (? & ? & Hb). split; [done|]. eexists; by split.
Qed.

(** ** Changes that keep the shape *)

(** Vnodes, cached names and the like are not part of it. *)
Definition is_core (o : fsobj) : Prop :=
  match o with OVnode _ | ODentry _ | OFsType _ | OContext _ => False | _ => True end.

Definition agree (h h' : gmap Z fsobj) : Prop :=
  forall x o, is_core o -> h !! x = Some o <-> h' !! x = Some o.

Lemma agree_refl h : agree h h.
Proof. done. Qed.

Lemma agree_trans h1 h2 h3 : agree h1 h2 -> agree h2 h3 -> agree h1 h3.
Proof. intros H1 H2 x o Ho. by rewrite (H1 x o Ho), (H2 x o Ho). Qed.

Lemma agree_put h x o :
  ~ is_core o -> (forall o', h !! x = Some o' -> ~ is_core o') -> agree h (<[x := o]> h).
Proof.
  intros Ho Hx y o' Hy. destruct (decide (x = y)) as [<-|Hne].
  - rewrite lookup_insert_eq. split; [intros Hh; by destruct (Hx _ Hh)|]. by intros [= <-].
  - by rewrite lookup_insert_ne.
Qed.

Lemma agree_del h x : (forall o', h !! x = Some o' -> ~ is_core o') -> agree h (delete x h).
Proof.
  intros Hx y o' Hy. destruct (decide (x = y)) as [<-|Hne].
  - rewrite lookup_delete_eq. split; [intros Hh; by destruct (Hx _ Hh)|done].
  - by rewrite lookup_delete_ne.
Qed.

Lemma shape_agree h h' t : agree h h' -> shape h t -> shape h' t.
Proof.
  intros Ha [H1 H2 H3 H4 H5 H6 H7 H8]. split; try done.
  - intros p a Hp. destruct (H1 _ _ Hp) as [? Hn]. split; [done|]. by apply Ha.
  - intros p a Hp. eapply body_rep_agree; [|by apply H2 in Hp]. intros x Hx.
    destruct (foot_part _ _ _ _ (H2 _ _ Hp) Hx) as (_ & o & Ho & Hpart). rewrite Ho. apply Ha; [|done].
    by destruct o.
  - intros p n Hn. apply (H3 p n). by apply Ha.
  - intros p a Hp. destruct (H8 _ _ Hp) as (m & tm & Hm & ? & Ht & ?). exists m, tm.
    split_and!; [by apply Ha|done|by apply Ha|done].
Qed.

Section change.
Context (h : gmap Z fsobj) (t : tree) (Hsh : shape h t).

Lemma foot_alloc p a x : t !! p = Some a -> x ∈ body_foot (an_node a) (an_body a) ->
  exists o, h !! x = Some o /\ is_part o.
Proof. intros Hp Hx. by destruct (foot_part _ _ _ _ (sh_body _ _ Hsh _ _ Hp) Hx). Qed.

(** Node [p] gets the contents [n'], [b']: the heap changes at [p] and at its
    old and new parts only; new parts were free. *)
Lemma shape_replace p n b n' b' h' :
  t !! p = Some (ANode n b) ->
  h' !! p = Some (ONode n') ->
  (forall x, x <> p -> x ∉ body_foot n b -> x ∉ body_foot n' b' -> h' !! x = h !! x) ->
  (forall x, x ∈ body_foot n' b' -> x ∈ body_foot n b \/ h !! x = None) ->
  (forall x, x ∈ body_foot n b -> x ∉ body_foot n' b' -> h' !! x = None) ->
  body_rep h' n' b' -> NoDup (body_foot n' b') -> tn_mount n' = tn_mount n ->
  (forall l d, b' = BDir l -> d ∈ l -> is_Some (t !! de_node d)) ->
  (forall l, b' = BDir l -> NoDup (de_name <$> l)) ->
  shape h' (<[p := ANode n' b']> t).
Proof.
  intros Hp Hn' Hsame Hfresh Hgone Hbody Hnd Hmt Hent Hnames.
  destruct (sh_node _ _ Hsh _ _ Hp) as [Hp0 Hhp].
  assert (Hfoot : forall x o, h !! x = Some o -> ~ is_part o -> x <> p -> h' !! x = Some o).
  { intros x o Hx Ho Hne. rewrite Hsame; [done..| |].
    - intros Hin. destruct (foot_alloc _ _ _ Hp Hin) as (o' & Ho' & ?). congruence.
    - intros Hin. destruct (Hfresh _ Hin) as [Hin'|Hnone]; [|congruence].
      destruct (foot_alloc _ _ _ Hp Hin') as (o' & Ho' & ?). congruence. }
  assert (Hother : forall q a, q <> p -> t !! q = Some a ->
            forall x, x ∈ body_foot (an_node a) (an_body a) ->
              x <> p /\ x ∉ body_foot n b /\ x ∉ body_foot n' b').
  { intros q a Hq Ha x Hx. destruct (foot_alloc _ _ _ Ha Hx) as (o & Ho & Hpart).
    assert (Hnb : x ∉ body_foot n b).
    { intros Hin. apply Hq. by apply (sh_disj _ _ Hsh _ _ _ _ x Ha Hp). }
    split; [|split; [done|]].
    - intros ->. rewrite Hhp in Ho. by injection Ho as <-.
    - intros Hin. destruct (Hfresh _ Hin) as [?|Hnone]; [done|congruence]. }
  split.
  - intros q a. rewrite lookup_insert_Some. intros [[<- <-]|[Hq Ha]]; [done|].
    destruct (sh_node _ _ Hsh _ _ Ha) as [? Hn]. split; [done|]. apply Hfoot; [done|by intros []|done].
  - intros q a. rewrite lookup_insert_Some. intros [[<- <-]|[Hq Ha]]; [done|].
    eapply body_rep_agree; [|by apply (sh_body _ _ Hsh) in Ha]. intros x Hx.
    destruct (Hother q a (not_eq_sym Hq) Ha x Hx) as (? & ? & ?). by apply Hsame.
  - intros q m Hm. destruct (decide (p = q)) as [<-|Hne]; [by rewrite lookup_insert_eq|].
    rewrite lookup_insert_ne by done. destruct (decide (q ∈ body_foot n' b')) as [Hin|Hnin].
    + destruct (foot_part _ _ _ _ Hbody Hin) as (_ & o & Ho & ?). by rewrite Ho in Hm; injection Hm as ->.
    + destruct (decide (q ∈ body_foot n b)) as [Hin|Hnb]; [by rewrite Hgone in Hm|].
      rewrite Hsame in Hm by done. by apply (sh_all _ _ Hsh _ _ Hm).
  - intros q r a c x. rewrite !lookup_insert_Some.
    intros [[<- <-]|[Hq Ha]] [[<- <-]|[Hr Hc]] Hxa Hxc; simpl in *; [done| | |].
    + by destruct (Hother r c (not_eq_sym Hr) Hc x Hxc) as (? & ? & ?).
    + by destruct (Hother q a (not_eq_sym Hq) Ha x Hxa) as (? & ? & ?).
    + by apply (sh_disj _ _ Hsh _ _ _ _ x Ha Hc).
  - intros q a. rewrite lookup_insert_Some. intros [[<- <-]|[Hq Ha]]; [done|]. by apply (sh_nodup _ _ Hsh _ _ Ha).
  - intros q m l d. rewrite lookup_insert_Some. intros [[<- [= <- Hb]]|[Hq Ha]] Hd.
    + rewrite lookup_insert_is_Some. destruct (decide (p = de_node d)); [by left|right]. split; [done|]. by eapply Hent.
    + rewrite lookup_insert_is_Some. destruct (decide (p = de_node d)); [by left|right]. split; [done|].
      by eapply (sh_entry _ _ Hsh).
  - intros q m l. rewrite lookup_insert_Some. intros [[<- [= <- Hb]]|[Hq Ha]]; [by apply Hnames|].
    by eapply (sh_names _ _ Hsh).
  - intros q a. rewrite lookup_insert_Some. intros [[<- <-]|[Hq Ha]].
    + destruct (sh_mount _ _ Hsh _ _ Hp) as (m & tm & Hm & ? & Ht & ?). simpl in *. exists m, tm. rewrite Hmt.
      split_and!; [|done| |done]; (apply Hfoot; [done|by intros []|congruence]).
    + destruct (sh_mount _ _ Hsh _ _ Ha) as (m & tm & Hm & ? & Ht & ?). exists m, tm.
      split_and!; [|done| |done]; (apply Hfoot; [done|by intros []|congruence]).
Qed.

(** A node whose pointers stay. *)
Lemma shape_meta p n b n' :
  t !! p = Some (ANode n b) -> tn_ptr n' = tn_ptr n -> tn_mount n' = tn_mount n ->
  body_rep h n' b ->
  shape (<[p := ONode n']> h) (<[p := ANode n' b]> t).
Proof.
  intros Hp Hptr Hmt Hb. destruct (sh_node _ _ Hsh _ _ Hp) as [Hp0 Hhp].
  assert (Hfoot : body_foot n' b = body_foot n b) by (unfold body_foot; by rewrite Hptr).
  assert (Hnp : p ∉ body_foot n b).
  { intros Hin. destruct (foot_alloc _ _ _ Hp Hin) as (o & Ho & ?). rewrite Hhp in Ho. by injection Ho as <-. }
  eapply shape_replace; [done|by rewrite lookup_insert_eq| | | | | |done| |]; rewrite ?Hfoot.
  - intros x Hx _ _. by rewrite lookup_insert_ne.
  - auto.
  - done.
  - eapply body_rep_agree; [|exact Hb]. intros x Hx. rewrite lookup_insert_ne; [done|]. rewrite Hfoot in Hx. by intros ->.
  - by apply (sh_nodup _ _ Hsh _ _ Hp).
  - intros l d -> Hd. by eapply (sh_entry _ _ Hsh).
  - intros l ->. by eapply (sh_names _ _ Hsh).
Qed.

(** A new node with nothing behind it. *)
Lemma shape_new p n b :
  h !! p = None -> p <> NULL -> body_rep h n b -> body_foot n b = [] -> (forall l, b = BDir l -> l = []) ->
  mounted h n ->
  shape (<[p := ONode n]> h) (<[p := ANode n b]> t).
Proof.
  intros Hp Hp0 Hb Hfoot Hempty (m & tm & Hm & ? & Ht & ?).
  assert (Htp : t !! p = None).
  { destruct (t !! p) as [a|] eqn:Ha; [|done]. destruct (sh_node _ _ Hsh _ _ Ha). congruence. }
  assert (Hkeep : forall x o, h !! x = Some o -> <[p := ONode n]> h !! x = Some o).
  { intros x o Hx. rewrite lookup_insert_ne; [done|congruence]. }
  split.
  - intros q a. rewrite lookup_insert_Some. intros [[<- <-]|[Hq Ha]]; [by rewrite lookup_insert_eq|].
    rewrite lookup_insert_ne by done. by apply (sh_node _ _ Hsh).
  - intros q a. rewrite lookup_insert_Some. intros [[<- <-]|[Hq Ha]].
    + eapply body_rep_agree; [|exact Hb]. intros x. simpl. by rewrite Hfoot; intros ?%elem_of_nil.
    + eapply body_rep_agree; [|by apply (sh_body _ _ Hsh) in Ha]. intros x Hx.
      destruct (foot_alloc _ _ _ Ha Hx) as (o & Ho & _). rewrite Ho. by apply Hkeep.
  - intros q k. rewrite lookup_insert_Some. intros [[<- _]|[Hq Hk]]; [by rewrite lookup_insert_eq|].
    rewrite lookup_insert_ne by done. by apply (sh_all _ _ Hsh _ _ Hk).
  - intros q r a c x. rewrite !lookup_insert_Some.
    intros [[<- <-]|[Hq Ha]] [[<- <-]|[Hr Hc]]; simpl; rewrite ?Hfoot; intros Hxa Hxc;
      try (by apply elem_of_nil in Hxa); try (by apply elem_of_nil in Hxc).
    by apply (sh_disj _ _ Hsh _ _ _ _ x Ha Hc).
  - intros q a. rewrite lookup_insert_Some. intros [[<- <-]|[Hq Ha]]; [|by apply (sh_nodup _ _ Hsh _ _ Ha)].
    simpl. rewrite Hfoot. constructor.
  - intros q k l d. rewrite lookup_insert_Some. intros [[<- [= <- Hd]]|[Hq Ha]] Hin.
    + rewrite (Hempty _ Hd) in Hin. by apply elem_of_nil in Hin.
    + rewrite lookup_insert_is_Some. destruct (decide (p = de_node d)); [by left|right].
      split; [done|]. by eapply (sh_entry _ _ Hsh).
  - intros q k l. rewrite lookup_insert_Some. intros [[<- [= <- Hd]]|[Hq Ha]]; [|by eapply (sh_names _ _ Hsh)].
    rewrite (Hempty _ Hd). constructor.
  - intros q a. rewrite lookup_insert_Some. intros [[<- <-]|[Hq Ha]].
    + exists m, tm. split_and!; [by apply Hkeep|done|by apply Hkeep|done].
    + destruct (sh_mount _ _ Hsh _ _ Ha) as (m' & tm' & ? & ? & ? & ?). exists m', tm'.
      split_and!; [by apply Hkeep|done|by apply Hkeep|done].
Qed.

(** The inode counter of a mount. *)
Lemma shape_tmount tm m0 m1 :
  h !! tm = Some (OTmount m0) -> tm_vfs_mount m1 = tm_vfs_mount m0 -> shape (<[tm := OTmount m1]> h) t.
Proof.
  intros Htm Hv. destruct Hsh as [H1 H2 H3 H4 H5 H6 H7 H8]. split; try done.
  - intros p a Hp. destruct (H1 _ _ Hp) as [? Hn]. split; [done|]. rewrite lookup_insert_ne; [done|congruence].
  - intros p a Hp. eapply body_rep_agree; [|by apply H2 in Hp]. intros x Hx.
    destruct (foot_part _ _ _ _ (H2 _ _ Hp) Hx) as (_ & o & Ho & Hpart). rewrite lookup_insert_ne; [done|].
    intros ->. rewrite Htm in Ho. by injection Ho as <-.
  - intros p n. rewrite lookup_insert_Some. intros [[? ?]|[? Hn]]; [done|by eapply H3].
  - intros p a Hp. destruct (H8 _ _ Hp) as (m & m2 & Hm & ? & Ht & ?).
    destruct (decide (mnt_private m = tm)) as [Heq|Hne].
    + exists m, m1. rewrite Heq, lookup_insert_eq. rewrite Heq, Htm in Ht. injection Ht as <-.
      rewrite lookup_insert_ne by congruence. rewrite Hv. by rewrite <- Heq.
    + exists m, m2. rewrite !lookup_insert_ne by congruence. done.
Qed.

(** A node that no entry names goes, with its parts. *)
Lemma shape_delete p n b h' :
  t !! p = Some (ANode n b) ->
  (forall q k l d, t !! q = Some (ANode k (BDir l)) -> d ∈ l -> q = p \/ de_node d <> p) ->
  h' !! p = None ->
  (forall x, x ∈ body_foot n b -> h' !! x = None) ->
  (forall x, x <> p -> x ∉ body_foot n b -> h' !! x = h !! x) ->
  shape h' (delete p t).
Proof.
  intros Hp Hno Hp' Hgone Hsame. destruct (sh_node _ _ Hsh _ _ Hp) as [Hp0 Hhp].
  assert (Hkeep : forall x o, h !! x = Some o -> ~ is_part o -> x <> p -> h' !! x = Some o).
  { intros x o Hx Ho Hne. rewrite Hsame; [done..|]. intros Hin.
    destruct (foot_alloc _ _ _ Hp Hin) as (o' & ? & ?). congruence. }
  split.
  - intros q a. rewrite lookup_delete_Some. intros [Hq Ha]. destruct (sh_node _ _ Hsh _ _ Ha) as [? Hn].
    split; [done|]. apply Hkeep; [done|by intros []|done].
  - intros q a. rewrite lookup_delete_Some. intros [Hq Ha].
    eapply body_rep_agree; [|by apply (sh_body _ _ Hsh) in Ha]. intros x Hx. apply Hsame.
    + intros ->. destruct (foot_alloc _ _ _ Ha Hx) as (o & Ho & ?). rewrite Hhp in Ho. by injection Ho as <-.
    + intros Hin. apply Hq. by apply (sh_disj _ _ Hsh _ _ _ _ x Hp Ha).
  - intros q k Hk. assert (Hq : q <> p) by congruence. rewrite lookup_delete_ne by done.
    destruct (decide (q ∈ body_foot n b)) as [Hin|Hnin]; [by rewrite Hgone in Hk|].
    rewrite Hsame in Hk by done. by apply (sh_all _ _ Hsh _ _ Hk).
  - intros q r a c x. rewrite !lookup_delete_Some. intros [_ Ha] [_ Hc]. by apply (sh_disj _ _ Hsh _ _ _ _ x Ha Hc).
  - intros q a. rewrite lookup_delete_Some. intros [_ Ha]. by apply (sh_nodup _ _ Hsh _ _ Ha).
  - intros q k l d. rewrite lookup_delete_Some. intros [Hq Ha] Hd. rewrite lookup_delete_ne.
    + by eapply (sh_entry _ _ Hsh).
    + destruct (Hno _ _ _ _ Ha Hd) as [->|Hne]; [done|]. by intros ->.
  - intros q k l. rewrite lookup_delete_Some. intros [Hq Ha]. by eapply (sh_names _ _ Hsh).
  - intros q a. rewrite lookup_delete_Some. intros [Hq Ha].
    destruct (sh_mount _ _ Hsh _ _ Ha) as (m & tm & Hm & ? & Ht & ?). exists m, tm.
    split_and!; [|done| |done]; (apply Hkeep; [done|by intros []|congruence]).
Qed.
End change.

(** ** tmpfs: link counts and directory entries

    [refs h p] counts the entries that name node [p].  The invariant [tfs] of
    a tmpfs adds to its shape that the link count of every node is one more
    than that: the node is born with a count of one, and no entry removed can
    take it to zero.  The specifications of finding, adding and removing an
    entry follow. *)

(** ** Counting entries *)

Definition is_ref (p : Z) (kv : Z * fsobj) : Prop :=
  match kv.2 with ODirent t => td_node t = p | _ => False end.

#[export] Instance is_ref_dec p kv : Decision (is_ref p kv).
Proof. destruct kv as [k []]; unfold is_ref; simpl; apply _. Defined.

Definition refs (h : gmap Z fsobj) (p : Z) : Z := Z.of_nat (size (filter (is_ref p) h)).

Definition weight (p : Z) (o : fsobj) : Z :=
  match o with ODirent t => if td_node t =? p then 1 else 0 | _ => 0 end.

Lemma refs_put h x o p : h !! x = None -> refs (<[x := o]> h) p = refs h p + weight p o.
Proof.
  intros Hx. unfold refs. rewrite map_filter_insert.
  assert (Hnone : filter (is_ref p) h !! x = None) by (apply map_lookup_filter_None; by left).
  assert (Hw : weight p o = if decide (is_ref p (x, o)) then 1 else 0).
  { unfold weight. destruct o; simpl; try done. destruct (Z.eqb_spec (td_node t) p); case_decide; naive_solver. }
  rewrite Hw. case_decide.
  - rewrite map_size_insert_None by done. lia.
  - rewrite delete_id by done. lia.
Qed.

Lemma refs_delete h x o p : h !! x = Some o -> refs (delete x h) p = refs h p - weight p o.
Proof.
  intros Hx. rewrite <- (insert_delete_id h x o Hx) at 2. rewrite refs_put by apply lookup_delete_eq. lia.
Qed.

Lemma refs_replace h x o o' p : h !! x = Some o -> refs (<[x := o']> h) p = refs h p - weight p o + weight p o'.
Proof.
  intros Hx. rewrite <- (insert_delete_eq h x o'), refs_put by apply lookup_delete_eq.
  by rewrite (refs_delete _ _ _ _ Hx).
Qed.

Lemma refs_agree h h' p : agree h h' -> refs h' p = refs h p.
Proof.
  intros Ha. unfold refs. do 2 f_equal. apply map_filter_strong_ext. intros x o.
  split; intros [Hr Ho]; (split; [done|]; apply (Ha x o); [by destruct o|done]).
Qed.

Lemma refs_zero h p x y : refs h p = 0 -> h !! x = Some (ODirent y) -> td_node y <> p.
Proof.
  intros Hz Hx <-. pose proof (refs_delete _ _ _ (td_node y) Hx) as Hd. simpl in Hd. rewrite Z.eqb_refl in Hd.
  unfold refs in *. lia.
Qed.

Lemma refs_nonneg h p : 0 <= refs h p.
Proof. unfold refs. lia. Qed.

Lemma refs_none h p : (forall x y, h !! x = Some (ODirent y) -> td_node y <> p) -> refs h p = 0.
Proof.
  intros Hno. unfold refs. replace (filter (is_ref p) h) with (∅ : gmap Z fsobj); [done|].
  symmetry. apply map_empty. intros x. apply map_lookup_filter_None. right. intros o Ho Hr.
  destruct o; try done. by apply (Hno x t).
Qed.

(** Something that is no entry leaves room below the number of objects. *)
Lemma refs_lt h p x o : h !! x = Some o -> weight p o = 0 -> refs h p < Z.of_nat (size h).
Proof.
  intros Hx Hw. rewrite <- (insert_delete_id h x o Hx), refs_put by apply lookup_delete_eq.
  rewrite map_size_insert_None by apply lookup_delete_eq. rewrite Hw.
  unfold refs. pose proof (map_size_filter (is_ref p) (delete x h)). lia.
Qed.

Lemma u32_add a k : u32 (u32 a + k) = u32 (a + k).
Proof. unfold u32. by rewrite Zplus_mod_idemp_l. Qed.

(** ** The invariant *)

Definition links_ok (h : gmap Z fsobj) : Prop :=
  forall p n, h !! p = Some (ONode n) -> tn_nlink n = u32 (1 + refs h p).

Section tfs.
Context {E : Type} `{TimeSource E}.
Implicit Types (d : fsd) (e : E) (t : tree) (fl : Z) (held : list Z).

Record tfs d e t : Prop := {
  tf_shape : shape (fs_heap d) t;
  tf_links : links_ok (fs_heap d);
  tf_refs x y : fs_heap d !! x = Some (ODirent y) -> is_Some (t !! td_node y);
  tf_heap x o : fs_heap d !! x = Some o -> 0 < x /\ x ∈ al_live e;
  tf_hash : Z.of_nat (length (vnode_hash d)) = VNODE_HASH_SIZE
}.

Lemma tf_fresh d e t p : tfs d e t -> p ∉ al_live e -> fs_heap d !! p = None.
Proof.
  intros Ht Hp. destruct (fs_heap d !! p) as [o|] eqn:Ho; [|done]. by destruct (tf_heap _ _ _ Ht _ _ Ho).
Qed.

Lemma tf_env d e e' t : tfs d e t -> al_live e' = al_live e -> tfs d e' t.
Proof. intros [H1 H2 H3 H4 H5] Hl. split; [done..| |done]. intros x o. rewrite Hl. apply H4. Qed.

(** Blocks that are not part of a tmpfs come and go. *)
Lemma tf_agree d e t h' e' :
  tfs d e t -> agree (fs_heap d) h' ->
  (forall x o, h' !! x = Some o -> 0 < x /\ x ∈ al_live e') ->
  tfs (fs_set_heap h' d) e' t.
Proof.
  intros [H1 H2 H3 H4 H5] Ha Hl. split; simpl; [by eapply shape_agree| | |done..].
  - intros p n Hn. rewrite (refs_agree _ _ _ Ha). apply H2. by apply Ha.
  - intros x y Hx. apply (H3 x). by apply Ha.
Qed.

(** ** Finding an entry *)

Fixpoint lookup_name (name : list Z) (l : list dent) : option dent :=
  match l with
  | [] => None
  | d :: l => if names_equal (de_name d) name then Some d else lookup_name name l
  end.

Lemma names_equal_spec a b : reflect (a = b) (names_equal a b).
Proof. unfold names_equal. case_bool_decide; by constructor. Qed.

Lemma lookup_name_None name l : lookup_name name l = None <-> name ∉ de_name <$> l.
Proof.
  induction l as [|d l IH]; simpl; [set_solver|].
  destruct (names_equal_spec (de_name d) name) as [->|Hne]; [set_solver|]. rewrite IH. set_solver.
Qed.

Lemma lookup_name_Some name l x : lookup_name name l = Some x ->
  exists l1 l2, l = l1 ++ x :: l2 /\ de_name x = name /\ name ∉ de_name <$> l1.
Proof.
  induction l as [|d l IH]; simpl; [done|].
  destruct (names_equal_spec (de_name d) name) as [<-|Hne].
  - intros [= ->]. exists [], l. set_solver.
  - intros Hl. destruct (IH Hl) as (l1 & l2 & -> & ? & ?). exists (d :: l1), l2. set_solver.
Qed.

Lemma chain_dom h l : chain h l -> list_to_set (dent_foot l) ⊆@{gset Z} dom h.
Proof.
  intros Hc x. rewrite elem_of_list_to_set, dent_foot_elem, elem_of_dom.
  intros (d & Hd & Hx). destruct (chain_elem _ _ _ Hc Hd) as ([nx Ha] & Hs & _).
  destruct Hx as [->| ->]; eauto.
Qed.

Lemma dent_foot_length l : length (dent_foot l) = (2 * length l)%nat.
Proof.
  induction l as [|d l IH]; [done|]. unfold dent_foot in *. rewrite bind_cons, length_app, IH. simpl. lia.
Qed.

(** A list of entries is no longer than the heap: the fuel suffices. *)
Lemma chain_fuel h l : chain h l -> NoDup (dent_foot l) -> (2 * length l <= size h)%nat.
Proof.
  intros Hc Hnd. rewrite <- dent_foot_length, <- (size_list_to_set (C := gset Z)) by done.
  rewrite <- size_dom. apply subseteq_size. by apply chain_dom.
Qed.

Lemma ev_dirent_search held fuel name l (Q : Z -> fsd -> E -> Z -> Prop) d e fl :
  chain (fs_heap d) l -> (length l < fuel)%nat ->
  Q (from_option de_addr NULL (lookup_name name l)) d e fl ->
  ev held (dirent_search fuel (head_of l) name) Q d e fl.
Proof.
  revert l. induction fuel as [|fuel IH]; intros l Hc Hl HQ; [lia|].
  destruct l as [|x l]; simpl; [by apply ev_ret|]. destruct Hc as (Hx & Hnx & Hd & Hs & Hc).
  destruct (Z.eqb_spec (de_addr x) NULL) as [|_]; [done|].
  ev_step. eapply ev_the_dirent; [done|]. ev_step. eapply ev_the_str; [done|]. simpl in HQ |- *.
  destruct (names_equal (de_name x) name); [by apply ev_ret|]. apply IH; [done|simpl in Hl; lia|done].
Qed.

Lemma ev_dirent_find held dir name n l (Q : Z -> fsd -> E -> Z -> Prop) d e t fl :
  shape (fs_heap d) t -> t !! dir = Some (ANode n (BDir l)) ->
  Q (from_option de_addr NULL (lookup_name name l)) d e fl ->
  ev held (tmpfs_dirent_find dir (Some name)) Q d e fl.
Proof.
  intros Hsh Hdir HQ. destruct (sh_node _ _ Hsh _ _ Hdir) as [Hd0 Hhd].
  destruct (sh_body _ _ Hsh _ _ Hdir) as (Hty & Hptr & Hc & _). simpl in *.
  unfold tmpfs_dirent_find. destruct (Z.eqb_spec dir NULL) as [|_]; [done|].
  ev_step. eapply ev_the_node; [done|]. rewrite Hty. simpl. ev_step. apply ev_heap_fuel. rewrite Hptr.
  apply ev_dirent_search; [done| |done].
  pose proof (chain_fuel _ _ Hc (sh_nodup _ _ Hsh _ _ Hdir)). lia.
Qed.
End tfs.

(** ** What tmpfs leaves alone

    The virtual file system keeps vnodes, cached names, contexts, mounts and
    strings of its own in the same heap. *)

(** [x] is no part of a node. *)
Definition unowned (t : tree) (x : Z) : Prop :=
  forall p a, t !! p = Some a -> x ∉ body_foot (an_node a) (an_body a).

Definition foreign (t : tree) (x : Z) (o : fsobj) : Prop :=
  match o with
  | ODentry _ | OFsType _ | OContext _ | OMount _ => True
  | OStr _ => unowned t x
  | _ => False
  end.

Definition keeps (h : gmap Z fsobj) (t : tree) (h' : gmap Z fsobj) (t' : tree) : Prop :=
  forall x o, h !! x = Some o -> foreign t x o -> h' !! x = Some o /\ foreign t' x o.

Lemma keeps_refl h t : keeps h t h t.
Proof. done. Qed.

Lemma keeps_trans h1 t1 h2 t2 h3 t3 : keeps h1 t1 h2 t2 -> keeps h2 t2 h3 t3 -> keeps h1 t1 h3 t3.
Proof. intros H1 H2 x o Hx Hf. destruct (H1 _ _ Hx Hf). by apply H2. Qed.

(** Objects of other kinds come, change and go, and nodes take over free
    addresses only. *)
Lemma keeps_put h t h' t' y o :
  keeps h t h' t' -> (forall o0, h !! y = Some o0 -> ~ foreign t y o0) -> keeps h t (<[y := o]> h') t'.
Proof.
  intros Hk Hy x o0 Hx Hf. destruct (Hk _ _ Hx Hf) as [Hx' Hf']. split; [|done].
  rewrite lookup_insert_ne; [done|]. intros ->. by destruct (Hy _ Hx).
Qed.

Lemma keeps_del h t h' t' y :
  keeps h t h' t' -> (forall o0, h !! y = Some o0 -> ~ foreign t y o0) -> keeps h t (delete y h') t'.
Proof.
  intros Hk Hy x o0 Hx Hf. destruct (Hk _ _ Hx Hf) as [Hx' Hf']. split; [|done].
  rewrite lookup_delete_ne; [done|]. intros ->. by destruct (Hy _ Hx).
Qed.

Lemma keeps_node_foot h t h' t' p a :
  keeps h t h' t' ->
  (forall x str, h !! x = Some (OStr str) -> unowned t x -> x ∉ body_foot (an_node a) (an_body a)) ->
  keeps h t h' (<[p := a]> t').
Proof.
  intros Hk Ha x o Hx Hf. destruct (Hk _ _ Hx Hf) as [Hx' Hf']. split; [done|].
  destruct o; simpl in *; try done. intros q b. rewrite lookup_insert_Some.
  intros [[_ <-]|[_ Hq]]; [by eapply Ha|by eapply Hf'].
Qed.

Lemma keeps_del_node h t h' t' p : keeps h t h' t' -> keeps h t h' (delete p t').
Proof.
  intros Hk x o Hx Hf. destruct (Hk _ _ Hx Hf) as [Hx' Hf']. split; [done|].
  destruct o; simpl in *; try done. intros q b [_ Hq]%lookup_delete_Some. by eapply Hf'.
Qed.

(** A node that keeps its footprint. *)
Lemma keeps_same_foot h t h' t' p a a' :
  keeps h t h' t' -> t !! p = Some a -> body_foot (an_node a') (an_body a') = body_foot (an_node a) (an_body a) ->
  keeps h t h' (<[p := a']> t').
Proof. intros Hk Hp Hf. apply keeps_node_foot; [done|]. intros x str _ Hu. rewrite Hf. by eapply Hu. Qed.

(** What lies in the footprint of a node is its own. *)
Lemma foot_owned h t p a x o :
  shape h t -> t !! p = Some a -> x ∈ body_foot (an_node a) (an_body a) -> h !! x = Some o -> ~ foreign t x o.
Proof.
  intros Hsh Hp Hx Ho Hf. destruct (foot_part _ _ _ _ (sh_body _ _ Hsh _ _ Hp) Hx) as (_ & o' & Ho' & Hpart).
  rewrite Ho in Ho'. injection Ho' as <-. destruct o; simpl in Hpart, Hf; try done. by apply (Hf _ _ Hp).
Qed.

Lemma fresh_unowned h t x : shape h t -> h !! x = None -> unowned t x.
Proof.
  intros Hsh Hx p a Hp Hin. destruct (foot_part _ _ _ _ (sh_body _ _ Hsh _ _ Hp) Hin) as (_ & o & Ho & _). congruence.
Qed.

Definition same_vnode (w w' : vnode) : Prop := w' = v_set_size (v_size w') w.

#[export] Instance same_vnode_preorder : PreOrder same_vnode.
Proof.
  split; unfold same_vnode.
  - by intros [].
  - intros w1 w2 w3 -> ->. done.
Qed.

Lemma same_vnode_fields w w' : same_vnode w w' ->
  v_ino w' = v_ino w /\ v_mode w' = v_mode w /\ v_refcount w' = v_refcount w /\ v_ops w' = v_ops w /\
  v_private w' = v_private w /\ v_next w' = v_next w /\ v_mount w' = v_mount w.
Proof. intros ->. done. Qed.

Definition same_static (d d' : fsd) : Prop :=
  fs_types d' = fs_types d /\ mount_list d' = mount_list d /\ root_mount d' = root_mount d /\
  dentry_hash d' = dentry_hash d /\ vfs_counts d' = vfs_counts d.

#[export] Instance same_static_preorder : PreOrder same_static.
Proof. split; [by intros d|]. unfold same_static. intros d1 d2 d3 H1 H2. intuition congruence. Qed.

(** A chain of the vnode table: linked vnodes whose inode hashes to its slot. *)
Fixpoint vlist (h : gmap Z fsobj) (slot : nat) (a : Z) (l : list Z) : Prop :=
  match l with
  | [] => a = NULL
  | v :: l => a = v /\ v <> NULL /\ exists w, h !! v = Some (OVnode w) /\
      vnode_hash_func 0 (v_ino w) = Z.of_nat slot /\ vlist h slot (v_next w) l
  end.

Definition vtable (d : fsd) : Prop :=
  forall slot a, vnode_hash d !! slot = Some a -> exists l, vlist (fs_heap d) slot a l /\ NoDup l.

Lemma vlist_mono h h' slot a l :
  (forall v w, v ∈ l -> h !! v = Some (OVnode w) ->
     exists w', h' !! v = Some (OVnode w') /\ v_ino w' = v_ino w /\ v_next w' = v_next w) ->
  vlist h slot a l -> vlist h' slot a l.
Proof.
  revert a. induction l as [|v l IH]; intros a Hk; simpl; [done|].
  intros (-> & Hv & w & Hw & Hs & Hl). split; [done|]. split; [done|].
  destruct (Hk v w) as (w' & Hw' & Hi & Hn); [by apply elem_of_cons; left|done|]. exists w'. rewrite Hi, Hn.
  split; [done|]. split; [done|]. apply IH; [|done]. intros u x Hu. apply Hk. by apply elem_of_cons; right.
Qed.

Lemma vtable_mono d d' :
  vnode_hash d' = vnode_hash d ->
  (forall v w, fs_heap d !! v = Some (OVnode w) -> exists w', fs_heap d' !! v = Some (OVnode w') /\ same_vnode w w') ->
  vtable d -> vtable d'.
Proof.
  intros Hh Hk Ht slot a Ha. rewrite Hh in Ha. destruct (Ht _ _ Ha) as (l & Hl & Hnd). exists l. split; [|done].
  eapply vlist_mono; [|exact Hl]. intros v w _ Hw. destruct (Hk _ _ Hw) as (w' & Hw' & Hs).
  destruct (same_vnode_fields _ _ Hs) as (? & _ & _ & _ & _ & ? & _). by exists w'.
Qed.

Lemma vlist_elem h slot a l v : vlist h slot a l -> v ∈ l ->
  exists w, h !! v = Some (OVnode w) /\ vnode_hash_func 0 (v_ino w) = Z.of_nat slot.
Proof.
  revert a. induction l as [|u l IH]; intros a; simpl; [by intros _ ?%elem_of_nil|].
  intros (_ & _ & w & Hw & Hs & Hl) [->|Hv]%elem_of_cons; [by exists w|by eapply IH].
Qed.
