(* ===== verification/TmpfsDir.v ===== *)
(** * tmpfs: adding and removing directory entries

    [view t] is what a user of the file system sees of it: files as bytes,
    directories as finite maps from names to nodes, links as paths.  Adding
    and removing an entry insert into and delete from such a map. *)

From stdpp Require Import base numbers list gmap.
From S2P Require Import Prelude Spinlock Kernel KLogic VfsPath Fs Tmpfs TmpfsFacts.

Inductive fnode :=
  | FFile (bytes : list (option Z))
  | FDir (m : gmap (list Z) Z)
  | FSym (target : list Z).

Definition dir_map (l : list dent) : gmap (list Z) Z :=
  list_to_map ((fun d => (de_name d, de_node d)) <$> l).

Definition file_bytes (n : tmpfs_node) (b : option (list (option Z))) : list (option Z) :=
  take (Z.to_nat (tn_size n)) (default [] b).

Definition view_node (a : anode) : fnode :=
  match an_body a with
  | BFile b => FFile (file_bytes (an_node a) b)
  | BDir l => FDir (dir_map l)
  | BSym target => FSym (default [] target)
  end.

Definition view (t : tree) : gmap Z fnode := view_node <$> t.

Lemma view_lookup t p a : t !! p = Some a -> view t !! p = Some (view_node a).
Proof. intros Ha. unfold view. by rewrite lookup_fmap, Ha. Qed.

Lemma view_insert t p a : view (<[p := a]> t) = <[p := view_node a]> (view t).
Proof. unfold view. by rewrite fmap_insert. Qed.

Lemma view_insert_same t p a : view t !! p = Some (view_node a) -> view (<[p := a]> t) = view t.
Proof. intros Hv. rewrite view_insert. by rewrite insert_id. Qed.

Lemma dir_map_lookup name l : dir_map l !! name = de_node <$> lookup_name name l.
Proof.
  unfold dir_map. induction l as [|d l IH]; [done|]. simpl.
  destruct (names_equal_spec (de_name d) name) as [->|Hne]; [by rewrite lookup_insert_eq|].
  by rewrite lookup_insert_ne.
Qed.

Lemma dir_map_remove l1 x l2 : NoDup (de_name <$> l1 ++ x :: l2) ->
  dir_map (l1 ++ l2) = delete (de_name x) (dir_map (l1 ++ x :: l2)).
Proof.
  intros Hnd. apply map_eq. intros k. rewrite dir_map_lookup.
  rewrite fmap_app, fmap_cons in Hnd. apply NoDup_app in Hnd as (Hnd1 & Hdisj & [Hx Hnd2]%NoDup_cons).
  assert (Hl1 : de_name x ∉ de_name <$> l1) by (intros ?; eapply Hdisj; [done|set_solver]).
  destruct (decide (de_name x = k)) as [<-|Hne].
  - rewrite lookup_delete_eq. replace (lookup_name _ (l1 ++ l2)) with (@None dent); [done|].
    symmetry. apply lookup_name_None. rewrite fmap_app. set_solver.
  - rewrite lookup_delete_ne by done. rewrite dir_map_lookup. f_equal.
    clear -Hne. induction l1 as [|y l1 IH]; simpl; [|by rewrite IH].
    by destruct (names_equal_spec (de_name x) k).
Qed.

Lemma dent_foot_app l1 l2 : dent_foot (l1 ++ l2) = dent_foot l1 ++ dent_foot l2.
Proof. unfold dent_foot. by rewrite bind_app. Qed.

Section dir.
Context {E : Type} `{TimeSource E}.
Implicit Types (d : fsd) (e : E) (t : tree) (fl : Z) (held : list Z).

(** A step of the file system: nodes stay, vnodes change in size only, the
    objects of other owners and the static variables but the vnode table stay,
    and the vnode table stays a table. *)
Record step d e t d' e' t' : Prop := {
  sp_tfs : tfs d' e' t';
  sp_vnode v w : fs_heap d !! v = Some (OVnode w) ->
    exists w', fs_heap d' !! v = Some (OVnode w') /\ same_vnode w w';
  sp_node p : is_Some (t !! p) -> is_Some (t' !! p);
  sp_keep : keeps (fs_heap d) t (fs_heap d') t';
  sp_static : same_static d d';
  sp_vtable : vtable d -> vtable d'
}.

Lemma step_refl d e t : tfs d e t -> step d e t d e t.
Proof. intros Ht. split; [done|intros v w Hw; by exists w|done..]. Qed.

Lemma step_trans d e t d1 e1 t1 d2 e2 t2 :
  step d e t d1 e1 t1 -> step d1 e1 t1 d2 e2 t2 -> step d e t d2 e2 t2.
Proof.
  intros [H1 H2 H3 H4 H5 H6] [G1 G2 G3 G4 G5 G6]. split; [done| |by eauto|by eapply keeps_trans|by etrans|by eauto].
  intros v w Hv. destruct (H2 _ _ Hv) as (w1 & Hw1 & Hs). destruct (G2 _ _ Hw1) as (w2 & Hw2 & Hs2).
  exists w2. split; [done|by etrans].
Qed.

(** The environment alone moves on. *)
Lemma step_env d e t d' e' e1 t' : step d e t d' e' t' -> tfs d' e1 t' -> step d e t d' e1 t'.
Proof. intros [H1 H2 H3 H4 H5 H6] Ht. by split. Qed.

Lemma step_same d e t e1 : tfs d e1 t -> step d e t d e1 t.
Proof. intros Ht. split; [done|intros v w Hw; by exists w|done..]. Qed.

(** A core object changes: the vnodes are as before. *)
Lemma step_heap d e t h' e' t' :
  tfs (fs_set_heap h' d) e' t' ->
  (forall v w, fs_heap d !! v = Some (OVnode w) -> h' !! v = Some (OVnode w)) ->
  (forall p, is_Some (t !! p) -> is_Some (t' !! p)) ->
  keeps (fs_heap d) t h' t' ->
  step d e t (fs_set_heap h' d) e' t'.
Proof.
  intros Ht Hv Hp Hk. split; [done| |done|done|done|].
  - intros v w Hw. exists w. split; [by apply Hv|done].
  - apply vtable_mono; [done|]. intros v w Hw. exists w. split; [by apply Hv|done].
Qed.

(** ** Adding an entry *)

(** The entry [x] linked in front of the list of [dir], whose node is [n]. *)
Definition add_dir n (x : dent) (l : list dent) : anode :=
  ANode (tn_set_data (de_addr x) (u32 (tn_word n + 1)) n) (BDir (x :: l)).

Definition add_heap (h : gmap Z fsobj) dir n (x : dent) (l : list dent) : gmap Z fsobj :=
  <[dir := ONode (an_node (add_dir n x l))]>
    (<[de_addr x := ODirent (TDirent (de_naddr x) (de_node x) (head_of l))]>
       (<[de_naddr x := OStr (de_name x)]> h)).

Lemma shape_add h t dir n l x :
  shape h t -> t !! dir = Some (ANode n (BDir l)) ->
  h !! de_addr x = None -> h !! de_naddr x = None -> de_addr x <> de_naddr x ->
  de_addr x <> NULL -> de_naddr x <> NULL ->
  is_Some (t !! de_node x) -> de_name x ∉ de_name <$> l ->
  shape (add_heap h dir n x l) (<[dir := add_dir n x l]> t).
Proof.
  intros Hsh Hdir Ha Hna Hne Hx0 Hn0 Hnode Hname.
  destruct (sh_node _ _ Hsh _ _ Hdir) as [Hd0 Hhd]. simpl in Hhd.
  destruct (sh_body _ _ Hsh _ _ Hdir) as (Hty & Hptr & Hc & Hw). simpl in *.
  assert (Hold : forall y, y ∈ dent_foot l -> is_Some (h !! y) /\ y <> dir).
  { intros y Hy. destruct (foot_alloc _ _ Hsh _ _ y Hdir Hy) as (o & Ho & Hp). split; [by eauto|].
    intros ->. rewrite Hhd in Ho. by injection Ho as <-. }
  assert (Hkeep : forall y, y ∈ dent_foot l -> add_heap h dir n x l !! y = h !! y).
  { intros y Hy. destruct (Hold y Hy) as [[o Ho] Hyd]. unfold add_heap.
    rewrite !lookup_insert_ne; [done|congruence..]. }
  assert (Hfoot : dent_foot (x :: l) = de_naddr x :: de_addr x :: dent_foot l) by done.
  unfold add_dir. eapply shape_replace; [done|done| | | | | | | | |]; simpl; rewrite ?Hfoot.
  - unfold add_heap. by rewrite lookup_insert_eq.
  - intros y Hy Hy1 Hy2. unfold add_heap. rewrite !lookup_insert_ne; [done|set_solver..].
  - intros y Hy. rewrite !elem_of_cons in Hy. destruct Hy as [->|[->|Hy]]; auto.
  - intros y Hy Hny. set_solver.
  - split_and!; [done..| | | |].
    + unfold add_heap. rewrite lookup_insert_ne by congruence. by rewrite lookup_insert_eq.
    + unfold add_heap. rewrite !lookup_insert_ne by congruence. by rewrite lookup_insert_eq.
    + eapply chain_agree; [|done]. done.
    + rewrite Hw, u32_add. f_equal. lia.
  - apply NoDup_cons. split; [|apply NoDup_cons; split].
    + rewrite elem_of_cons. intros [?|Hy]; [congruence|]. destruct (Hold _ Hy) as [[o Ho] _]. congruence.
    + intros Hy. destruct (Hold _ Hy) as [[o Ho] _]. congruence.
    + by apply (sh_nodup _ _ Hsh _ _ Hdir).
  - done.
  - intros l' y [= <-]. rewrite elem_of_cons. intros [->|Hy]; [done|]. by eapply (sh_entry _ _ Hsh).
  - intros l' [= <-]. rewrite fmap_cons. apply NoDup_cons. split; [done|]. by eapply (sh_names _ _ Hsh).
Qed.

(** ** Link counts *)

Definition bump (k : Z) (a : anode) : anode :=
  ANode (tn_set_nlink (u32 (tn_nlink (an_node a) + k)) (an_node a)) (an_body a).

Lemma view_bump k a : view_node (bump k a) = view_node a.
Proof. by destruct a as [n []]. Qed.

Lemma shape_bump h t p a k : shape h t -> t !! p = Some a ->
  shape (<[p := ONode (an_node (bump k a))]> h) (<[p := bump k a]> t).
Proof.
  intros Hsh Hp. destruct a as [n b]. eapply shape_meta; [done|done|done|done|].
  pose proof (sh_body _ _ Hsh _ _ Hp) as Hb. by destruct b as [[]| |[]].
Qed.

(** Entries that name [q] were added or removed, and its count follows. *)
Lemma links_bump h h1 q m k :
  (forall p n1, h1 !! p = Some (ONode n1) -> exists n0, h !! p = Some (ONode n0) /\ tn_nlink n1 = tn_nlink n0) ->
  (forall p, refs h1 p = refs h p + (if q =? p then k else 0)) ->
  h1 !! q = Some (ONode m) -> links_ok h ->
  links_ok (<[q := ONode (tn_set_nlink (u32 (tn_nlink m + k)) m)]> h1).
Proof.
  intros Hnodes Hrefs Hq Hl p n1 Hp. rewrite (refs_replace _ _ _ _ _ Hq). simpl. rewrite Z.sub_0_r, Z.add_0_r, Hrefs.
  apply lookup_insert_Some in Hp as [[<- [= <-]]|[Hne Hp]]; simpl.
  - destruct (Hnodes _ _ Hq) as (n0 & Hn0 & ->). rewrite (Hl _ _ Hn0), Z.eqb_refl, u32_add. f_equal. lia.
  - destruct (Hnodes _ _ Hp) as (n0 & Hn0 & ->). destruct (Z.eqb_spec q p); [done|].
    by rewrite (Hl _ _ Hn0), Z.add_0_r.
Qed.

(** The tree after [x] has been added to [dir]. *)
Definition add_tree t dir n (x : dent) (l : list dent) : tree :=
  let t1 := <[dir := add_dir n x l]> t in
  match t1 !! de_node x with Some a => <[de_node x := bump 1 a]> t1 | None => t1 end.

Lemma view_add t dir n x l :
  view (add_tree t dir n x l) = <[dir := FDir (<[de_name x := de_node x]> (dir_map l))]> (view t).
Proof.
  unfold add_tree. set (t1 := <[dir := _]> t).
  assert (Ht1 : view t1 = <[dir := FDir (<[de_name x := de_node x]> (dir_map l))]> (view t)).
  { unfold t1. by rewrite view_insert. }
  destruct (t1 !! de_node x) as [a|] eqn:Ha; [|done].
  rewrite view_insert_same; [done|]. rewrite view_bump. by apply view_lookup.
Qed.

Lemma refs_add h dir n x l p :
  h !! dir = Some (ONode n) -> h !! de_addr x = None -> h !! de_naddr x = None -> de_addr x <> de_naddr x ->
  refs (add_heap h dir n x l) p = refs h p + (if de_node x =? p then 1 else 0).
Proof.
  intros Hd Ha Hna Hne. unfold add_heap.
  rewrite (refs_replace _ dir (ONode n)) by (rewrite !lookup_insert_ne by congruence; done).
  rewrite refs_put by (rewrite lookup_insert_ne by congruence; done). rewrite refs_put by done. simpl. lia.
Qed.

Lemma tfs_add d e t e' dir n l x a1 :
  tfs d e t -> t !! dir = Some (ANode n (BDir l)) ->
  0 < de_addr x -> 0 < de_naddr x -> de_addr x <> de_naddr x ->
  fs_heap d !! de_addr x = None -> fs_heap d !! de_naddr x = None ->
  al_live e' = {[de_naddr x]} ∪ ({[de_addr x]} ∪ al_live e) ->
  is_Some (t !! de_node x) -> de_name x ∉ de_name <$> l ->
  <[dir := add_dir n x l]> t !! de_node x = Some a1 ->
  step d e t (fs_set_heap (<[de_node x := ONode (an_node (bump 1 a1))]> (add_heap (fs_heap d) dir n x l)) d)
    e' (add_tree t dir n x l).
Proof.
  intros [Hsh Hlk Hrf Hhp Hvh] Hdir Hx0 Hn0 Hne Ha Hna Hl Hnode Hname Ha1.
  assert (Hxa : de_addr x <> NULL) by (unfold NULL; lia).
  assert (Hxn : de_naddr x <> NULL) by (unfold NULL; lia).
  pose proof (shape_add _ _ _ _ _ x Hsh Hdir Ha Hna Hne Hxa Hxn Hnode Hname) as Hs1.
  pose proof (shape_bump _ _ _ _ 1 Hs1 Ha1) as Hs2.
  destruct (sh_node _ _ Hsh _ _ Hdir) as [Hd0 Hhd]. destruct (sh_node _ _ Hs1 _ _ Ha1) as [_ Hm].
  unfold add_tree. rewrite Ha1. apply step_heap; [split; simpl| | |].
  - done.
  - eapply links_bump; [|intros p; by apply refs_add|done|done].
    intros p n1. unfold add_heap. rewrite !lookup_insert_Some.
    intros [[<- [= <-]]|[_ [[_ [=]]|[_ [[_ [=]]|[_ Hp]]]]]]; [by exists n|by exists n1].
  - assert (Hin : forall q, is_Some (t !! q) -> is_Some (<[de_node x:=bump 1 a1]> (<[dir:=add_dir n x l]> t) !! q)).
    { intros q Hq. rewrite !lookup_insert_is_Some'. auto. }
    intros y td. unfold add_heap. rewrite !lookup_insert_Some.
    intros [[_ [=]]|[_ [[_ [=]]|[_ [[_ [= <-]]|[_ [[_ [=]]|[_ Hy]]]]]]]]; [by apply Hin|by apply Hin, (Hrf _ _ Hy)].
  - intros y o. unfold add_heap. rewrite Hl. intros Hy.
    assert (Hcase : y = de_naddr x \/ y = de_addr x \/ exists o', fs_heap d !! y = Some o').
    { destruct (decide (y = de_naddr x)); [by left|]. destruct (decide (y = de_addr x)); [by right; left|].
      right; right. destruct (decide (y = dir)) as [->|]; [by eauto|].
      destruct (decide (y = de_node x)) as [->|].
      - destruct Hnode as [b Hb]. destruct (sh_node _ _ Hsh _ _ Hb). eauto.
      - rewrite !lookup_insert_ne in Hy by done. eauto. }
    destruct Hcase as [->|[->|[o' Ho']]]; [set_solver..|]. destruct (Hhp _ _ Ho'). set_solver.
  - done.
  - intros v w Hv. unfold add_heap. rewrite !lookup_insert_ne; [done|congruence..|].
    intros <-. destruct Hnode as [b Hb]. destruct (sh_node _ _ Hsh _ _ Hb). congruence.
  - intros p Hp. rewrite !lookup_insert_is_Some.
    destruct (decide (de_node x = p)); [by left|right]. split; [done|].
    destruct (decide (dir = p)); [by left|by right].
  - destruct Hnode as [b Hb]. destruct (sh_node _ _ Hsh _ _ Hb) as [_ Hhb].
    assert (Hfoot : forall y str, fs_heap d !! y = Some (OStr str) -> unowned t y -> y ∉ dent_foot (x :: l)).
    { intros y str Hy Hu Hin. rewrite dent_foot_elem in Hin. destruct Hin as (z & [->|Hz]%elem_of_cons & Hyz).
      - destruct Hyz as [->| ->]; congruence.
      - apply (Hu _ _ Hdir). simpl. rewrite dent_foot_elem. by exists z. }
    apply keeps_node_foot; [apply keeps_node_foot|].
    + unfold add_heap. apply keeps_put; [apply keeps_put; [apply keeps_put; [apply keeps_put; [done|]|]|]|];
        try (intros o0 Ho0; congruence).
      * intros o0 Ho0. rewrite Hhd in Ho0. injection Ho0 as <-. by intros [].
      * intros o0 Ho0. rewrite Hhb in Ho0. injection Ho0 as <-. by intros [].
    + done.
    + intros y str Hy Hu. simpl. apply lookup_insert_Some in Ha1 as [[_ <-]|[_ Ha1]]; simpl; [by eapply Hfoot|].
      by apply (Hu _ _ Ha1).
Qed.

(** The three outcomes of [tmpfs_dirent_add]. *)
Lemma ev_dirent_add held dir name node n l (Q : Z -> fsd -> E -> Z -> Prop) d e t fl :
  tfs d e t -> t !! dir = Some (ANode n (BDir l)) -> is_Some (t !! node) ->
  (name ∈ de_name <$> l -> Q (- EEXIST) d e fl) ->
  (forall e', name ∉ de_name <$> l -> tfs d e' t -> Q (- ENOMEM) d e' fl) ->
  (forall d' e' t', name ∉ de_name <$> l -> step d e t d' e' t' ->
     view t' = <[dir := FDir (<[name := node]> (dir_map l))]> (view t) -> Q 0 d' e' fl) ->
  ev held (tmpfs_dirent_add dir (Some name) node) Q d e fl.
Proof.
  intros Ht Hdir Hnode Hex Hmem Hok. pose proof (tf_shape _ _ _ Ht) as Hsh.
  destruct (sh_node _ _ Hsh _ _ Hdir) as [Hd0 Hhd]. simpl in Hhd.
  destruct (sh_body _ _ Hsh _ _ Hdir) as (Hty & Hptr & Hc & Hw). simpl in *.
  destruct Hnode as [a Ha]. destruct (sh_node _ _ Hsh _ _ Ha) as [Ha0 Hha].
  unfold tmpfs_dirent_add. destruct (Z.eqb_spec dir NULL); [done|]. destruct (Z.eqb_spec node NULL); [done|].
  simpl. ev_step. eapply ev_the_node; [done|]. rewrite Hty. simpl. ev_step.
  eapply ev_dirent_find; [done|done|]. destruct (lookup_name name l) as [y|] eqn:Hlook; simpl.
  { destruct (lookup_name_Some _ _ _ Hlook) as (l1 & l2 & -> & <- & _).
    destruct (chain_elem _ _ y Hc) as (_ & _ & Hy0 & _); [set_solver|].
    destruct (Z.eqb_spec (de_addr y) NULL); [done|]. apply ev_ret. apply Hex. rewrite fmap_app. set_solver. }
  apply lookup_name_None in Hlook. ev_step. apply ev_new.
  { intros e1 He1. simpl. apply ev_ret. apply Hmem; [done|]. by eapply tf_env. }
  intros x e1 Hx0 Hxl He1. destruct (Z.eqb_spec x NULL) as [->|_]; [unfold NULL in Hx0; lia|].
  pose proof (tf_fresh _ _ _ _ Ht Hxl) as Hxf. ev_step. unfold kmalloc_str. apply ev_new.
  { intros e2 He2. simpl. ev_step. eapply ev_free; [simpl; by rewrite lookup_insert_eq|rewrite He2, He1; set_solver|].
    intros e3 He3. apply ev_ret. unfold del_obj, put_obj. simpl. rewrite delete_insert_id by done.
    destruct d. apply Hmem; [done|]. eapply tf_env; [done|]. rewrite He3, He2, He1. set_solver. }
  intros y e2 Hy0 Hyl He2. destruct (Z.eqb_spec y NULL) as [->|_]; [unfold NULL in Hy0; lia|].
  assert (Hxy : x <> y) by (rewrite He1 in Hyl; set_solver).
  assert (Hyf : fs_heap d !! y = None) by (apply (tf_fresh _ _ _ _ Ht); rewrite He1 in Hyl; set_solver).
  set (x' := Dent x y name node). ev_step. eapply ev_the_node.
  { simpl. rewrite !lookup_insert_ne by congruence. done. }
  ev_step. apply ev_put. ev_step. eapply ev_upd_node.
  { simpl. rewrite !lookup_insert_ne by congruence. done. }
  ev_step.
  assert (Hheap : put_obj dir (ONode (tn_set_data x (u32 (tn_word n + 1)) n))
                    (put_obj x (ODirent (TDirent y node (tn_ptr n)))
                       (put_obj y (OStr name) (put_obj x (ODirent (TDirent NULL NULL NULL)) d))) =
                  fs_set_heap (add_heap (fs_heap d) dir n x' l) d).
  { unfold put_obj, add_heap, x'. simpl. rewrite <- Hptr.
    rewrite (insert_insert_ne _ y x) by done. by rewrite insert_insert_eq. }
  rewrite Hheap.
  assert (Hs1 : shape (add_heap (fs_heap d) dir n x' l) (<[dir := add_dir n x' l]> t)).
  { apply shape_add; simpl; [done..|unfold NULL; lia|unfold NULL; lia|by eauto|done]. }
  destruct (<[dir := add_dir n x' l]> t !! node) as [a1|] eqn:Ha1.
  2: { apply lookup_insert_None in Ha1 as [? ?]. congruence. }
  destruct (sh_node _ _ Hs1 _ _ Ha1) as [_ Hm]. eapply ev_upd_node; [exact Hm|]. apply ev_ret.
  eapply Hok; [done| |apply (view_add t dir n x' l)].
  apply (tfs_add d e t e2 dir n l x' a1); try done. by rewrite He2, He1.
Qed.
End dir.

(** ** tmpfs: removing directory entries

    [tmpfs_dirent_remove] unlinks the entry through the pointer that leads to
    it.  The link count of the node it names stays positive, so the node is
    never freed. *)

(** The pointer after the entries [pre] of [dir]. *)
Definition cell_of (dir : Z) (pre : list dent) : dcell :=
  match last pre with None => DHead dir | Some y => DNext (de_addr y) end.

(** The heap after the last entry of [pre] leads to [suf]. *)
Definition relinked (h : gmap Z fsobj) (pre suf : list dent) : gmap Z fsobj :=
  match last pre with
  | None => h
  | Some y => <[de_addr y := ODirent (TDirent (de_naddr y) (de_node y) (head_of suf))]> h
  end.

Definition del_dir (n : tmpfs_node) (l : list dent) : anode :=
  ANode (tn_set_data (head_of l) (u32 (tn_word n - 1)) n) (BDir l).

Definition drop_heap (h : gmap Z fsobj) (dir : Z) (n : tmpfs_node) (pre : list dent) (x : dent) (suf : list dent) :=
  delete (de_addr x) (delete (de_naddr x)
    (<[dir := ONode (an_node (del_dir n (pre ++ suf)))]> (relinked h pre suf))).

Lemma dent_foot_cons x l : dent_foot (x :: l) = de_naddr x :: de_addr x :: dent_foot l.
Proof. done. Qed.

Lemma relinked_ne h pre suf y : y ∉ dent_foot pre -> relinked h pre suf !! y = h !! y.
Proof.
  intros Hy. unfold relinked. destruct (last pre) as [z|] eqn:Hz; [|done].
  rewrite lookup_insert_ne; [done|]. intros <-. apply Hy, dent_foot_elem. exists z.
  split; [|by right]. by apply last_Some_elem_of.
Qed.

Lemma chain_suffix h pre suf : chain h (pre ++ suf) -> chain h suf.
Proof. induction pre as [|x pre IH]; simpl; [done|]. intros (_ & _ & _ & _ & Hc). by apply IH. Qed.

Lemma chain_relinked h pre x suf :
  chain h (pre ++ x :: suf) -> NoDup (dent_foot (pre ++ x :: suf)) -> chain (relinked h pre suf) (pre ++ suf).
Proof.
  induction pre as [|y pre IH]; intros Hc Hnd.
  { unfold relinked. simpl in *. tauto. }
  rewrite <- app_comm_cons, dent_foot_cons in Hnd. destruct Hc as (Hy & Hny & Hd & Hs & Hc).
  apply NoDup_cons in Hnd as [Hn1 [Hn2 Hnd]%NoDup_cons].
  assert (Hin : forall z, z ∈ dent_foot pre -> z ∈ dent_foot (pre ++ x :: suf)).
  { intros z. rewrite dent_foot_app. set_solver. }
  destruct pre as [|z pre].
  - rewrite app_nil_l, dent_foot_cons in Hn1, Hn2. unfold relinked. simpl.
    rewrite lookup_insert_eq, lookup_insert_ne by set_solver.
    split_and!; [done..|]. eapply chain_agree; [|by destruct Hc as (_ & _ & _ & _ & Hc)].
    intros w Hw. rewrite lookup_insert_ne; [done|]. set_solver.
  - assert (Hrel : relinked h (y :: z :: pre) suf = relinked h (z :: pre) suf) by done.
    assert (Hkeep : forall w, w ∉ dent_foot ((z :: pre) ++ x :: suf) -> relinked h (z :: pre) suf !! w = h !! w).
    { intros w Hw. apply relinked_ne. intros Hw'. by apply Hw, Hin. }
    rewrite Hrel. change ((y :: z :: pre) ++ suf) with (y :: ((z :: pre) ++ suf)).
    cbn [chain].
    assert (de_naddr y ∉ dent_foot ((z :: pre) ++ x :: suf)) by (intros ?; apply Hn1; rewrite elem_of_cons; auto).
    rewrite !Hkeep by done. split_and!; [done..|]. by apply IH.
Qed.

Lemma shape_drop h t dir n pre x suf :
  shape h t -> t !! dir = Some (ANode n (BDir (pre ++ x :: suf))) ->
  shape (drop_heap h dir n pre x suf) (<[dir := del_dir n (pre ++ suf)]> t).
Proof.
  intros Hsh Hdir. destruct (sh_node _ _ Hsh _ _ Hdir) as [Hd0 Hhd]. simpl in Hhd.
  destruct (sh_body _ _ Hsh _ _ Hdir) as (Hty & Hptr & Hc & Hw). simpl in *.
  pose proof (sh_nodup _ _ Hsh _ _ Hdir) as Hnd. simpl in Hnd.
  assert (Hnotdir : forall y, y ∈ dent_foot (pre ++ x :: suf) -> y <> dir).
  { intros y Hy ->. destruct (foot_alloc _ _ Hsh _ _ dir Hdir Hy) as (o & Ho & Hp). rewrite Hhd in Ho. by injection Ho as <-. }
  rewrite dent_foot_app, dent_foot_cons in Hnd, Hnotdir.
  apply NoDup_app in Hnd as (Hnd1 & Hdisj & [Hx1 [Hx2 Hnd2]%NoDup_cons]%NoDup_cons).
  assert (Hnx : forall y, y ∈ dent_foot (pre ++ suf) -> y <> de_naddr x /\ y <> de_addr x /\ y <> dir).
  { intros y. rewrite dent_foot_app, elem_of_app. intros Hy. split_and!.
    - intros ->. destruct Hy as [Hy|Hy]; [apply (Hdisj _ Hy)|apply Hx1]; rewrite ?elem_of_cons; auto.
    - intros ->. destruct Hy as [Hy|Hy]; [apply (Hdisj _ Hy)|by apply Hx2]. rewrite !elem_of_cons; auto.
    - apply Hnotdir. rewrite elem_of_app, !elem_of_cons. destruct Hy; auto. }
  unfold del_dir. eapply shape_replace; [done|done| | | | | | | | |]; simpl.
  - unfold drop_heap. rewrite !lookup_delete_ne; [by rewrite lookup_insert_eq|apply Hnotdir..];
      rewrite elem_of_app, !elem_of_cons; auto.
  - intros y Hy. rewrite dent_foot_app, dent_foot_cons, !elem_of_app, !elem_of_cons. intros Hy1 _.
    unfold drop_heap. rewrite !lookup_delete_ne, lookup_insert_ne by naive_solver. apply relinked_ne. naive_solver.
  - intros y. rewrite !dent_foot_app, dent_foot_cons. set_solver.
  - intros y. rewrite !dent_foot_app, dent_foot_cons, !elem_of_app, !elem_of_cons. intros Hy Hny.
    unfold drop_heap. destruct (decide (y = de_addr x)) as [->|]; [by rewrite lookup_delete_eq|].
    rewrite lookup_delete_ne by done. destruct (decide (y = de_naddr x)) as [->|]; [by rewrite lookup_delete_eq|].
    naive_solver.
  - split_and!; [done..| |].
    + eapply chain_agree; [|exact (chain_relinked _ _ _ _ Hc (sh_nodup _ _ Hsh _ _ Hdir))].
      intros y Hy. destruct (Hnx y Hy) as (? & ? & ?). unfold drop_heap.
      rewrite !lookup_delete_ne, lookup_insert_ne by done. done.
    + rewrite Hw. unfold Z.sub. rewrite u32_add. f_equal. rewrite !length_app. simpl. lia.
  - rewrite dent_foot_app. apply NoDup_app. split; [done|split; [|done]].
    intros y Hy1 Hy2. apply (Hdisj _ Hy1). rewrite !elem_of_cons. auto.
  - done.
  - intros l y [= <-] Hy. eapply (sh_entry _ _ Hsh); [exact Hdir|].
    rewrite elem_of_app in Hy |- *. rewrite elem_of_cons. destruct Hy; auto.
  - intros l [= <-]. pose proof (sh_names _ _ Hsh _ _ _ Hdir) as Hn. rewrite fmap_app in Hn |- *.
    rewrite fmap_cons in Hn. apply NoDup_app in Hn as (? & Hnn & [? ?]%NoDup_cons).
    apply NoDup_app. split_and!; [done| |done]. intros y Hy1 Hy2. apply (Hnn _ Hy1). rewrite elem_of_cons. auto.
Qed.

Lemma refs_drop h t dir n pre x suf p :
  shape h t -> t !! dir = Some (ANode n (BDir (pre ++ x :: suf))) ->
  refs (drop_heap h dir n pre x suf) p = refs h p + (if de_node x =? p then -1 else 0).
Proof.
  intros Hsh Hdir. destruct (sh_node _ _ Hsh _ _ Hdir) as [Hd0 Hhd]. simpl in Hhd.
  destruct (sh_body _ _ Hsh _ _ Hdir) as (Hty & Hptr & Hc & Hw). simpl in *.
  pose proof (sh_nodup _ _ Hsh _ _ Hdir) as Hnd. simpl in Hnd. rewrite dent_foot_app, dent_foot_cons in Hnd.
  apply NoDup_app in Hnd as (Hnd1 & Hdisj & [Hx1 [Hx2 Hnd2]%NoDup_cons]%NoDup_cons).
  destruct (chain_elem _ _ x Hc) as ([nx Hx] & Hs & Hx0 & Hn0); [set_solver|].
  assert (Hxp : forall y, y = de_addr x \/ y = de_naddr x -> relinked h pre suf !! y = h !! y).
  { intros y Hy. apply relinked_ne. intros Hin. apply (Hdisj _ Hin). destruct Hy as [->| ->]; set_solver. }
  assert (Hrd : relinked h pre suf !! dir = Some (ONode n)).
  { rewrite relinked_ne; [done|]. intros Hin. destruct (foot_alloc _ _ Hsh _ _ dir Hdir) as (o & Ho & Hp).
    - simpl. rewrite dent_foot_app. set_solver.
    - rewrite Hhd in Ho. by injection Ho as <-. }
  assert (Hrel : refs (relinked h pre suf) p = refs h p).
  { unfold relinked. destruct (last pre) as [y|] eqn:Hy; [|done].
    destruct (chain_elem _ _ y Hc) as ([ny Hyh] & _ & _ & _).
    - apply last_Some_elem_of in Hy. set_solver.
    - rewrite (refs_replace _ _ _ _ _ Hyh). simpl. lia. }
  unfold drop_heap.
  rewrite (refs_delete _ _ (ODirent (TDirent (de_naddr x) (de_node x) nx))).
  2: { rewrite lookup_delete_ne by set_solver. rewrite lookup_insert_ne by congruence. rewrite Hxp by auto. done. }
  rewrite (refs_delete _ _ (OStr (de_name x))).
  2: { rewrite lookup_insert_ne by congruence. rewrite Hxp by auto. done. }
  rewrite (refs_replace _ _ _ _ _ Hrd), Hrel. simpl. destruct (de_node x =? p); lia.
Qed.

Section remove.
Context {E : Type} `{TimeSource E}.
Implicit Types (d : fsd) (e : E) (t : tree) (fl : Z) (held : list Z).

Lemma ev_unlink_entry {X : Type} held dir n pre x suf k (Q : X -> fsd -> E -> Z -> Prop) d e t fl :
  shape (fs_heap d) t -> t !! dir = Some (ANode n (BDir (pre ++ x :: suf))) ->
  ev held k Q (put_obj dir (ONode (an_node (del_dir n (pre ++ suf)))) (fs_set_heap (relinked (fs_heap d) pre suf) d)) e fl ->
  ev held (write_dcell (cell_of dir pre) (head_of suf) ;;;
           upd_node dir (fun n => tn_set_data (tn_ptr n) (u32 (tn_word n - 1)) n) ;;; k) Q d e fl.
Proof.
  intros Hsh Hdir HQ. destruct (sh_node _ _ Hsh _ _ Hdir) as [Hd0 Hhd]. simpl in Hhd.
  destruct (sh_body _ _ Hsh _ _ Hdir) as (Hty & Hptr & Hc & Hw). simpl in *.
  ev_step. unfold cell_of, relinked in *. destruct (last pre) as [y|] eqn:Hy; simpl.
  - assert (Hyin : y ∈ pre) by (by apply last_Some_elem_of).
    destruct (chain_elem _ _ y Hc) as ([ny Hyh] & _ & _ & _).
    { rewrite elem_of_app. auto. }
    ev_step. eapply ev_the_dirent; [done|]. apply ev_put. ev_step.
    eapply ev_upd_node; [simpl; rewrite lookup_insert_ne by congruence; done|].
    replace (tn_ptr n) with (head_of (pre ++ suf)); [done|].
    rewrite Hptr. by destruct pre; [apply elem_of_nil in Hyin|].
  - apply last_None in Hy as ->. simpl in *. eapply ev_upd_node; [done|].
    ev_step. eapply ev_upd_node; [simpl; by rewrite lookup_insert_eq|].
    revert HQ. unfold put_obj. simpl. by rewrite insert_insert_eq.
Qed.

Lemma al_free_two (e : E) a b : a ∈ al_live e -> b ∈ al_live e -> a <> b ->
  exists e', al_live e' = al_live e ∖ {[a]} ∖ {[b]}.
Proof.
  intros Ha Hb Hab. exists (al_free b (al_free a e)). rewrite al_free_spec, al_free_spec; [done..|].
  rewrite al_free_spec by done. set_solver.
Qed.

(** The tree after [x] has been removed from [dir]. *)
Definition del_tree t dir n (pre : list dent) (x : dent) (suf : list dent) : tree :=
  let t1 := <[dir := del_dir n (pre ++ suf)]> t in
  match t1 !! de_node x with Some a => <[de_node x := bump (-1) a]> t1 | None => t1 end.

Lemma view_del t dir n pre x suf :
  NoDup (de_name <$> pre ++ x :: suf) ->
  view (del_tree t dir n pre x suf) = <[dir := FDir (delete (de_name x) (dir_map (pre ++ x :: suf)))]> (view t).
Proof.
  intros Hnd. unfold del_tree. set (t1 := <[dir := _]> t).
  assert (Ht1 : view t1 = <[dir := FDir (delete (de_name x) (dir_map (pre ++ x :: suf)))]> (view t)).
  { unfold t1. rewrite view_insert, <- dir_map_remove by done. done. }
  destruct (t1 !! de_node x) as [a|] eqn:Ha; [|done].
  rewrite view_insert_same; [done|]. rewrite view_bump. by apply view_lookup.
Qed.

Lemma drop_heap_elem h t dir n pre x suf y o :
  shape h t -> t !! dir = Some (ANode n (BDir (pre ++ x :: suf))) ->
  drop_heap h dir n pre x suf !! y = Some o ->
  y <> de_addr x /\ y <> de_naddr x /\ exists o', h !! y = Some o' /\
    match o, o' with
    | ONode n1, ONode n0 => tn_nlink n1 = tn_nlink n0
    | ODirent y1, ODirent y0 => td_node y1 = td_node y0
    | ONode _, _ | ODirent _, _ => False
    | _, _ => True
    end.
Proof.
  intros Hsh Hdir. destruct (sh_node _ _ Hsh _ _ Hdir) as [Hd0 Hhd]. simpl in Hhd.
  destruct (sh_body _ _ Hsh _ _ Hdir) as (Hty & Hptr & Hc & Hw). simpl in *.
  unfold drop_heap. rewrite !lookup_delete_Some, lookup_insert_Some. intros (Ha & Hn & Hy).
  split_and!; [by apply not_eq_sym..|]. destruct Hy as [[<- <-]|[_ Hy]]; [by exists (ONode n)|].
  revert Hy. unfold relinked. destruct (last pre) as [z|] eqn:Hz.
  - destruct (chain_elem _ _ z Hc) as ([nz Hzh] & _ & _ & _).
    { apply last_Some_elem_of in Hz. rewrite elem_of_app. auto. }
    rewrite lookup_insert_Some. intros [[<- <-]|[_ Hy]]; [by eexists|]. exists o. by destruct o.
  - intros Hy. exists o. by destruct o.
Qed.

(** Only the entry removed, its name, the one before and the two nodes change. *)
Lemma keeps_drop h t dir n pre x suf a1 :
  shape h t -> t !! dir = Some (ANode n (BDir (pre ++ x :: suf))) ->
  <[dir := del_dir n (pre ++ suf)]> t !! de_node x = Some a1 ->
  keeps h t (<[de_node x := ONode (an_node (bump (-1) a1))]> (drop_heap h dir n pre x suf))
    (<[de_node x := bump (-1) a1]> (<[dir := del_dir n (pre ++ suf)]> t)).
Proof.
  intros Hsh Hdir Ha1. destruct (sh_node _ _ Hsh _ _ Hdir) as [_ Hhd]. simpl in Hhd.
  pose proof (sh_body _ _ Hsh _ _ Hdir) as (Hty & Hptr & Hc & Hw). simpl in Hc.
  assert (Hin : x ∈ pre ++ x :: suf) by (rewrite elem_of_app, elem_of_cons; auto).
  destruct (sh_entry _ _ Hsh _ _ _ x Hdir Hin) as [b Hbn]. destruct (sh_node _ _ Hsh _ _ Hbn) as [_ Hhb].
  assert (Hown : forall z y o0, z ∈ pre ++ x :: suf -> y = de_naddr z \/ y = de_addr z -> h !! y = Some o0 -> ~ foreign t y o0).
  { intros z y o0 Hz Hy. apply (foot_owned h t dir _ y o0 Hsh Hdir). apply dent_foot_elem. by exists z. }
  assert (Hfoot : forall y str, h !! y = Some (OStr str) -> unowned t y -> y ∉ dent_foot (pre ++ suf)).
  { intros y str Hy Hu (z & Hz & Hyz)%dent_foot_elem. apply (Hu _ _ Hdir). simpl. apply dent_foot_elem. exists z.
    split; [|done]. rewrite elem_of_app, elem_of_cons. apply elem_of_app in Hz. tauto. }
  apply keeps_node_foot; [apply keeps_node_foot; [|done]|].
  - unfold drop_heap. apply keeps_put; [apply keeps_del; [apply keeps_del; [apply keeps_put|]|]|].
    + unfold relinked. destruct (last pre) as [z|] eqn:Hz; [|done]. apply keeps_put; [done|]. intros o0.
      apply (Hown z); [|by right]. apply last_Some_elem_of in Hz. rewrite elem_of_app. auto.
    + intros o0 Ho0. rewrite Hhd in Ho0. injection Ho0 as <-. by intros [].
    + intros o0. apply (Hown x); auto.
    + intros o0. apply (Hown x); auto.
    + intros o0 Ho0. rewrite Hhb in Ho0. injection Ho0 as <-. by intros [].
  - intros y str Hy Hu. apply lookup_insert_Some in Ha1 as [[_ <-]|[_ Ha1]]; simpl; [by eapply Hfoot|].
    by apply (Hu _ _ Ha1).
Qed.

Lemma tfs_del d e t e' dir n pre x suf a1 :
  tfs d e t -> t !! dir = Some (ANode n (BDir (pre ++ x :: suf))) ->
  al_live e' = al_live e ∖ {[de_naddr x]} ∖ {[de_addr x]} ->
  <[dir := del_dir n (pre ++ suf)]> t !! de_node x = Some a1 ->
  step d e t
    (fs_set_heap (<[de_node x := ONode (an_node (bump (-1) a1))]> (drop_heap (fs_heap d) dir n pre x suf)) d)
    e' (del_tree t dir n pre x suf).
Proof.
  intros [Hsh Hlk Hrf Hhp Hvh] Hdir Hl Ha1.
  pose proof (shape_drop _ _ _ _ _ _ _ Hsh Hdir) as Hs1.
  pose proof (shape_bump _ _ _ _ (-1) Hs1 Ha1) as Hs2.
  destruct (sh_node _ _ Hs1 _ _ Ha1) as [_ Hm].
  assert (Hkeep : forall y o, drop_heap (fs_heap d) dir n pre x suf !! y = Some o -> 0 < y /\ y ∈ al_live e').
  { intros y o Hy. destruct (drop_heap_elem _ _ _ _ _ _ _ _ _ Hsh Hdir Hy) as (? & ? & o' & Ho' & _).
    destruct (Hhp _ _ Ho'). split; [done|]. rewrite Hl. set_solver. }
  unfold del_tree. rewrite Ha1. apply step_heap; [split; simpl| | |].
  - done.
  - apply (links_bump (fs_heap d)); [|intros p; by eapply refs_drop|done|done].
    intros p n1 Hp. destruct (drop_heap_elem _ _ _ _ _ _ _ _ _ Hsh Hdir Hp) as (_ & _ & [] & Ho' & Heq); try done.
    by eauto.
  - intros y td. rewrite lookup_insert_Some. intros [[_ [=]]|[_ Hy]]. rewrite !lookup_insert_is_Some'.
    destruct (drop_heap_elem _ _ _ _ _ _ _ _ _ Hsh Hdir Hy) as (_ & _ & [] & Ho' & Heq); try done.
    rewrite Heq. right; right. by eapply Hrf.
  - intros y o. rewrite lookup_insert_Some. intros [[<- _]|[_ Hy]]; by eapply Hkeep.
  - done.
  - intros v w Hv. destruct (sh_node _ _ Hsh _ _ Hdir) as [_ Hhd].
    destruct (sh_body _ _ Hsh _ _ Hdir) as (_ & _ & Hc & _). simpl in Hc.
    destruct (chain_elem _ _ x Hc) as ([nx Hx] & Hs & _); [rewrite elem_of_app, elem_of_cons; auto|].
    destruct (sh_entry _ _ Hsh _ _ _ x Hdir) as [b Hb]; [rewrite elem_of_app, elem_of_cons; auto|].
    destruct (sh_node _ _ Hsh _ _ Hb) as [_ Hhb]. unfold drop_heap.
    rewrite lookup_insert_ne, !lookup_delete_ne, lookup_insert_ne by congruence.
    unfold relinked. destruct (last pre) as [z|] eqn:Hz; [|done].
    destruct (chain_elem _ _ z Hc) as ([nz Hzh] & _ & _ & _).
    { apply last_Some_elem_of in Hz. rewrite elem_of_app. auto. }
    rewrite lookup_insert_ne; [done|congruence].
  - intros p Hp. rewrite !lookup_insert_is_Some.
    destruct (decide (de_node x = p)); [by left|right]. split; [done|].
    destruct (decide (dir = p)); [by left|by right].
  - by eapply keeps_drop.
Qed.

(** After a step the count of every node is between one and the number of
    objects. *)
Lemma nlink_pos d e t p n :
  tfs d e t -> Z.of_nat (size (fs_heap d)) < 2 ^ 32 -> fs_heap d !! p = Some (ONode n) -> 0 < tn_nlink n.
Proof.
  intros Ht Hsz Hp. rewrite (tf_links _ _ _ Ht _ _ Hp).
  pose proof (refs_lt _ p _ _ Hp eq_refl). pose proof (refs_nonneg (fs_heap d) p).
  unfold u32. rewrite Z.mod_small by lia. lia.
Qed.

Lemma ev_drop_entry held dir n pre x suf (Q : Z -> fsd -> E -> Z -> Prop) d e t fl :
  tfs d e t -> Z.of_nat (size (fs_heap d)) < 2 ^ 32 ->
  t !! dir = Some (ANode n (BDir (pre ++ x :: suf))) ->
  (forall d' e' t', step d e t d' e' t' ->
     view t' = <[dir := FDir (delete (de_name x) (dir_map (pre ++ x :: suf)))]> (view t) -> Q 0 d' e' fl) ->
  ev held (drop_entry dir (cell_of dir pre) (de_addr x) (TDirent (de_naddr x) (de_node x) (head_of suf))) Q d e fl.
Proof.
  intros Ht Hsz Hdir HQ. pose proof (tf_shape _ _ _ Ht) as Hsh.
  pose proof (shape_drop _ _ _ _ _ _ _ Hsh Hdir) as Hs1.
  assert (Hin : x ∈ pre ++ x :: suf) by (rewrite elem_of_app, elem_of_cons; auto).
  destruct (sh_body _ _ Hsh _ _ Hdir) as (_ & _ & Hc & _). simpl in Hc.
  destruct (chain_elem _ _ x Hc Hin) as ([nx Hx] & Hs & _).
  destruct (sh_node _ _ Hsh _ _ Hdir) as [_ Hhd]. simpl in Hhd.
  destruct (<[dir := del_dir n (pre ++ suf)]> t !! de_node x) as [a1|] eqn:Ha1.
  2: { apply lookup_insert_None in Ha1 as [Hno _]. destruct (sh_entry _ _ Hsh _ _ _ x Hdir Hin) as [? ?]. congruence. }
  destruct (sh_node _ _ Hs1 _ _ Ha1) as [_ Hm]. pose proof Hm as Hm0.
  unfold drop_heap in Hm0. apply lookup_delete_Some in Hm0 as [Hna [Hnn Hm0]%lookup_delete_Some].
  set (h2 := <[dir := ONode (an_node (del_dir n (pre ++ suf)))]> (relinked (fs_heap d) pre suf)) in *.
  assert (Hfinal : forall e', al_live e' = al_live e ∖ {[de_naddr x]} ∖ {[de_addr x]} ->
    step d e t (fs_set_heap (<[de_node x := ONode (an_node (bump (-1) a1))]> (drop_heap (fs_heap d) dir n pre x suf)) d)
      e' (del_tree t dir n pre x suf)).
  { intros e' Hl. by apply tfs_del. }
  assert (Hpart : forall y, y = de_naddr x \/ y = de_addr x -> h2 !! y = fs_heap d !! y).
  { intros y Hy. unfold h2. rewrite lookup_insert_ne by (destruct Hy as [->| ->]; congruence). apply relinked_ne.
    pose proof (sh_nodup _ _ Hsh _ _ Hdir) as Hnd. simpl in Hnd. rewrite dent_foot_app, dent_foot_cons in Hnd.
    apply NoDup_app in Hnd as (_ & Hdisj & _). intros Hy'. apply (Hdisj _ Hy'). rewrite !elem_of_cons.
    destruct Hy; auto. }
  unfold drop_entry. simpl td_next. eapply ev_unlink_entry; [done|done|]. simpl td_node. simpl td_name.
  change (put_obj dir _ _) with (fs_set_heap h2 d).
  ev_step. eapply ev_upd_node; [exact Hm0|]. ev_step.
  eapply ev_the_node; [simpl; by rewrite lookup_insert_eq|]. ev_step.
  assert (Hpos : tn_nlink (an_node (bump (-1) a1)) <> 0).
  { destruct (al_free_two e (de_naddr x) (de_addr x)) as [e0 He0].
    { apply (tf_heap _ _ _ Ht _ _ Hs). } { apply (tf_heap _ _ _ Ht _ _ Hx). } { congruence. }
    pose proof (nlink_pos _ _ _ (de_node x) (an_node (bump (-1) a1)) (sp_tfs _ _ _ _ _ _ (Hfinal e0 He0))) as Hp.
    simpl in Hp. rewrite lookup_insert_eq in Hp. cut (0 < tn_nlink (an_node (bump (-1) a1))); [lia|].
    apply Hp; [|done]. eapply Z.le_lt_trans; [|exact Hsz]. apply Nat2Z.inj_le. rewrite <- !size_dom.
    apply subseteq_size. intros y. rewrite !elem_of_dom. intros [o Hy].
    apply lookup_insert_Some in Hy as [[<- _]|[_ Hy]].
    - destruct (drop_heap_elem _ _ _ _ _ _ _ _ _ Hsh Hdir Hm) as (_ & _ & o' & Ho' & _). eauto.
    - destruct (drop_heap_elem _ _ _ _ _ _ _ _ _ Hsh Hdir Hy) as (_ & _ & o' & Ho' & _). eauto. }
  simpl in Hpos |- *. change (tn_nlink (an_node a1) - 1) with (tn_nlink (an_node a1) + -1).
  destruct (Z.eqb_spec (u32 (tn_nlink (an_node a1) + -1)) 0) as [|_]; [done|]. apply ev_ret. ev_step.
  assert (Hlive : forall y o, fs_heap d !! y = Some o -> y ∈ al_live e) by (intros y o Hy; by destruct (tf_heap _ _ _ Ht _ _ Hy)).
  eapply ev_free; [simpl; rewrite lookup_insert_ne, Hpart by auto; done|by eapply Hlive|].
  intros e1 He1. ev_step.
  eapply ev_free; [simpl; rewrite lookup_delete_ne, lookup_insert_ne, Hpart by (auto; congruence); done| |].
  { rewrite He1. apply elem_of_difference. split; [by eapply Hlive|]. rewrite elem_of_singleton. congruence. }
  intros e2 He2. apply ev_ret. eapply HQ; [|apply view_del; by eapply (sh_names _ _ Hsh)].
  assert (Heq : del_obj (de_addr x) (del_obj (de_naddr x) (put_obj (de_node x)
             (ONode (tn_set_nlink (u32 (tn_nlink (an_node a1) + -1)) (an_node a1))) (fs_set_heap h2 d))) =
     fs_set_heap (<[de_node x := ONode (an_node (bump (-1) a1))]> (drop_heap (fs_heap d) dir n pre x suf)) d).
  { unfold del_obj, put_obj. simpl. unfold drop_heap. fold h2. by rewrite !delete_insert_ne by done. }
  rewrite Heq. apply Hfinal. by rewrite He2, He1.
Qed.

(** The loop reaches the first entry of that name, or the end. *)
Lemma ev_dirent_unlink held fuel dir name n pre suf (Q : Z -> fsd -> E -> Z -> Prop) d e fl :
  (length suf < fuel)%nat -> fs_heap d !! dir = Some (ONode n) -> tn_ptr n = head_of (pre ++ suf) ->
  chain (fs_heap d) (pre ++ suf) ->
  (lookup_name name suf = None -> Q (- ENOENT) d e fl) ->
  (forall s1 x s2, suf = s1 ++ x :: s2 -> de_name x = name ->
     ev held (drop_entry dir (cell_of dir (pre ++ s1)) (de_addr x) (TDirent (de_naddr x) (de_node x) (head_of s2))) Q d e fl) ->
  ev held (dirent_unlink fuel dir (cell_of dir pre) name) Q d e fl.
Proof.
  revert pre suf. induction fuel as [|fuel IH]; intros pre suf Hf Hdir Hptr Hc Hno Hyes; [lia|]. simpl. ev_step.
  assert (Hcell : ev held (read_dcell (cell_of dir pre)) (fun r d' e' fl' => r = head_of suf /\ d' = d /\ e' = e /\ fl' = fl) d e fl).
  { unfold cell_of. destruct (last pre) as [y|] eqn:Hy; simpl; ev_step.
    - apply last_Some in Hy as [pre' ->]. rewrite <- app_assoc in Hc. apply chain_suffix in Hc.
      destruct Hc as (_ & _ & Hd & _). eapply ev_the_dirent; [exact Hd|]. by apply ev_ret.
    - apply last_None in Hy as ->. eapply ev_the_node; [done|]. by apply ev_ret. }
  eapply ev_mono; [exact Hcell|]. intros r d' e' fl' (-> & -> & -> & ->). clear Hcell.
  destruct suf as [|x suf]; simpl; [by apply ev_ret, Hno|].
  destruct (chain_suffix _ _ _ Hc) as (Hx0 & Hnx & Hd & Hs & _).
  destruct (Z.eqb_spec (de_addr x) NULL) as [|_]; [done|].
  ev_step. eapply ev_the_dirent; [done|]. ev_step. eapply ev_the_str; [done|]. simpl in Hno.
  destruct (names_equal_spec (de_name x) name) as [Heq|Hne].
  - specialize (Hyes [] x suf eq_refl Heq). by rewrite app_nil_r in Hyes.
  - replace (DNext (de_addr x)) with (cell_of dir (pre ++ [x])) by (unfold cell_of; by rewrite last_snoc).
    apply (IH (pre ++ [x]) suf); [simpl in Hf; lia|done|by rewrite <- app_assoc..|done|].
    intros s1 y s2 -> Hy. rewrite <- app_assoc. by apply (Hyes (x :: s1)).
Qed.

Lemma ev_dirent_remove held dir name n l (Q : Z -> fsd -> E -> Z -> Prop) d e t fl :
  tfs d e t -> Z.of_nat (size (fs_heap d)) < 2 ^ 32 -> t !! dir = Some (ANode n (BDir l)) ->
  (name ∉ de_name <$> l -> Q (- ENOENT) d e fl) ->
  (forall d' e' t', name ∈ de_name <$> l -> step d e t d' e' t' ->
     view t' = <[dir := FDir (delete name (dir_map l))]> (view t) -> Q 0 d' e' fl) ->
  ev held (tmpfs_dirent_remove dir (Some name)) Q d e fl.
Proof.
  intros Ht Hsz Hdir Hno Hyes. pose proof (tf_shape _ _ _ Ht) as Hsh.
  destruct (sh_node _ _ Hsh _ _ Hdir) as [Hd0 Hhd]. simpl in Hhd.
  destruct (sh_body _ _ Hsh _ _ Hdir) as (Hty & Hptr & Hc & Hw). simpl in *.
  unfold tmpfs_dirent_remove. destruct (Z.eqb_spec dir NULL); [done|].
  ev_step. eapply ev_the_node; [done|]. rewrite Hty. simpl negb. cbn iota. ev_step. apply ev_heap_fuel.
  change (DHead dir) with (cell_of dir []). eapply (ev_dirent_unlink _ _ _ _ n [] l); [|done..| |].
  - pose proof (chain_fuel _ _ Hc (sh_nodup _ _ Hsh _ _ Hdir)). lia.
  - intros Hl. apply Hno. by apply lookup_name_None.
  - intros s1 x s2 -> <-. simpl app. eapply ev_drop_entry; [done..|]. intros d' e' t' Hst Hv.
    eapply Hyes; [|done|done]. rewrite fmap_app, fmap_cons, elem_of_app, elem_of_cons. auto.
Qed.
End remove.
