(* ===== verification/TmpfsOps.v ===== *)
(** * tmpfs: nodes, vnodes and the directory operations

    Allocation of nodes and vnodes, and the specifications of the operations
    on a directory, as steps [dstep] of the file system that a user sees. *)

From stdpp Require Import base numbers list gmap.
From S2P Require Import Prelude Spinlock Kernel KLogic VfsPath Fs Tmpfs TmpfsFacts TmpfsDir.

Definition empty_body (type : Z) : body :=
  if type =? TMPFS_FILE then BFile None else if type =? TMPFS_DIR then BDir [] else BSym None.

Definition tmpfs_type (type : Z) : Prop :=
  type = TMPFS_FILE \/ type = TMPFS_DIR \/ type = TMPFS_SYMLINK.

Section ops.
Context {E : Type} `{TimeSource E}.
Implicit Types (d : fsd) (e : E) (t : tree) (fl : Z) (held : list Z).

(** ** New nodes *)

(** The statics that are not the heap do not matter. *)
Lemma tf_static d d' e t :
  tfs d e t -> fs_heap d' = fs_heap d -> length (vnode_hash d') = length (vnode_hash d) -> tfs d' e t.
Proof. intros [H1 H2 H3 H4 H5] Hh Hv. split; rewrite ?Hh, ?Hv; done. Qed.

Definition new_node ino type mode mount : tmpfs_node := TNode ino type mode 0 0 1 0 0 0 0 NULL 0 mount.

Lemma tfs_new d e t e' p ino type mode mount b :
  tfs d e t -> 0 < p -> p ∉ al_live e -> al_live e' = {[p]} ∪ al_live e ->
  tmpfs_type type -> b = empty_body type -> mounted (fs_heap d) (new_node ino type mode mount) ->
  tfs (put_obj p (ONode (new_node ino type mode mount)) d) e' (<[p := ANode (new_node ino type mode mount) b]> t) /\
  refs (<[p := ONode (new_node ino type mode mount)]> (fs_heap d)) p = 0.
Proof.
  intros Ht Hp0 Hp Hl Htype -> Hm. pose proof (tf_fresh _ _ _ _ Ht Hp) as Hpf.
  destruct Ht as [Hsh Hlk Hrf Hhp Hvh].
  assert (Hnone : t !! p = None).
  { destruct (t !! p) eqn:Ha; [|done]. destruct (sh_node _ _ Hsh _ _ Ha). congruence. }
  assert (Hrefs : refs (fs_heap d) p = 0).
  { apply refs_none. intros x y Hx Hy. destruct (Hrf _ _ Hx) as [? ?]. congruence. }
  assert (Hr : forall q, refs (<[p := ONode (new_node ino type mode mount)]> (fs_heap d)) q = refs (fs_heap d) q).
  { intros q. rewrite refs_put by done. simpl. lia. }
  split; [|by rewrite Hr]. split; simpl.
  - apply shape_new; [done|done|unfold NULL; lia| | | |done]; destruct Htype as [->|[->| ->]]; try done.
    by intros l [= <-].
  - intros q n. rewrite Hr, lookup_insert_Some. intros [[<- [= <-]]|[_ Hq]]; [by rewrite Hrefs|by apply Hlk].
  - intros x y. rewrite lookup_insert_Some. intros [[_ [=]]|[_ Hx]]. rewrite lookup_insert_is_Some'. right. by eapply Hrf.
  - intros x o. rewrite lookup_insert_Some, Hl. intros [[<- _]|[_ Hx]]; [set_solver|]. destruct (Hhp _ _ Hx). set_solver.
  - done.
Qed.

(** A node and its mount keep their places when the inode counter advances. *)
Lemma tfs_ino d e t tm m0 m1 :
  tfs d e t -> fs_heap d !! tm = Some (OTmount m0) -> tm_vfs_mount m1 = tm_vfs_mount m0 ->
  tfs (put_obj tm (OTmount m1) d) e t.
Proof.
  intros [Hsh Hlk Hrf Hhp Hvh] Htm Hv.
  assert (Hr : forall q, refs (<[tm := OTmount m1]> (fs_heap d)) q = refs (fs_heap d) q).
  { intros q. rewrite (refs_replace _ _ _ _ _ Htm). simpl. lia. }
  split; simpl.
  - by eapply shape_tmount.
  - intros q n. rewrite Hr, lookup_insert_Some. intros [[_ [=]]|[_ Hq]]. by apply Hlk.
  - intros x y. rewrite lookup_insert_Some. intros [[_ [=]]|[_ Hx]]. by eapply Hrf.
  - intros x o. rewrite lookup_insert_Some. intros [[<- _]|[_ Hx]]; by eapply Hhp.
  - done.
Qed.

(** [tmpfs_node_alloc] fails, or adds an unnamed, empty node. *)
Lemma ev_node_alloc tm type mode m0 mt (Q : Z -> fsd -> E -> Z -> Prop) d e t fl :
  tfs d e t -> tmpfs_type type -> tm <> NULL -> fs_heap d !! tm = Some (OTmount m0) ->
  fs_heap d !! tm_vfs_mount m0 = Some (OMount mt) -> mnt_private mt = tm ->
  (forall e', tfs d e' t -> Q NULL d e' fl) ->
  (forall p n d' e', p <> NULL -> t !! p = None -> fs_heap d !! p = None ->
     tn_type n = type -> tn_ptr n = NULL -> tn_nlink n = 1 -> tn_mount n = tm_vfs_mount m0 ->
     step d e t d' e' (<[p := ANode n (empty_body type)]> t) -> refs (fs_heap d') p = 0 -> Q p d' e' fl) ->
  ev [] (tmpfs_node_alloc tm type mode) Q d e fl.
Proof.
  intros Ht Htype Htm0 Htm Hmt Hpr Hnull HQ. unfold tmpfs_node_alloc.
  destruct (Z.eqb_spec tm NULL); [done|]. ev_step. apply ev_new.
  { intros e1 He1. simpl. apply ev_ret, Hnull. by eapply tf_env. }
  intros p e1 Hp0 Hp He1. destruct (Z.eqb_spec p NULL) as [->|_]; [unfold NULL in Hp0; lia|].
  pose proof (tf_fresh _ _ _ _ Ht Hp) as Hpf.
  assert (Hptm : p <> tm) by congruence.
  ev_step. apply ev_lock_irq; [set_solver|]. ev_step.
  eapply ev_the_tmount; [simpl; by rewrite lookup_insert_ne|]. ev_step. apply ev_put. apply ev_ret.
  ev_step. eapply ev_the_tmount; [simpl; by rewrite lookup_insert_eq|]. ev_step. apply ev_put.
  ev_step. apply ev_init_lock; [set_solver|]. apply ev_ret.
  set (m1 := tm_set_next_ino (u64 (tm_next_ino m0 + 1)) m0). set (k := new_node (tm_next_ino m0) type mode (tm_vfs_mount m0)).
  assert (Hd : put_obj p (ONode k) (put_obj tm (OTmount m1) (put_obj p (ONode node0) d)) =
               put_obj p (ONode k) (put_obj tm (OTmount m1) d)).
  { unfold put_obj. simpl. rewrite (insert_insert_ne _ tm p) by done. by rewrite insert_insert_eq. }
  cut (Q p (put_obj p (ONode k) (put_obj tm (OTmount m1) d)) e1 fl).
  { rewrite <- Hd. by intros Hgoal. }
  pose proof (tfs_ino _ _ _ _ _ m1 Ht Htm eq_refl) as Ht1.
  destruct (tfs_new _ _ _ e1 p (tm_next_ino m0) type mode (tm_vfs_mount m0) (empty_body type) Ht1 Hp0 Hp He1 Htype eq_refl)
    as [Ht2 Hr].
  { exists mt, m1. unfold put_obj. simpl. rewrite Hpr. rewrite lookup_insert_ne by congruence. by rewrite lookup_insert_eq. }
  assert (Hnone : t !! p = None).
  { destruct (t !! p) eqn:Ha; [|done]. destruct (sh_node _ _ (tf_shape _ _ _ Ht) _ _ Ha). congruence. }
  apply (HQ p k); [unfold NULL; lia|done..| |exact Hr].
  apply (step_heap d e t (<[p := ONode k]> (<[tm := OTmount m1]> (fs_heap d)))); [exact Ht2| | |].
  - intros v w Hv. rewrite !lookup_insert_ne by congruence. done.
  - intros q Hq. rewrite lookup_insert_is_Some'. auto.
  - apply keeps_node_foot.
    + apply keeps_put; [apply keeps_put; [done|]|intros o0 Ho0; congruence].
      intros o0 Ho0. rewrite Htm in Ho0. injection Ho0 as <-. by intros [].
    + intros x str _ _. simpl. destruct Htype as [->|[->| ->]]; apply not_elem_of_nil.
Qed.

(** ** Freeing a node that nothing names *)

Definition leaf (b : body) : Prop := match b with BDir (_ :: _) => False | _ => True end.

(** Vnodes and what others own stay. *)
Definition keeps_vnodes d t d' t' : Prop :=
  (forall v w, fs_heap d !! v = Some (OVnode w) -> fs_heap d' !! v = Some (OVnode w)) /\
  keeps (fs_heap d) t (fs_heap d') t' /\ same_static d d' /\ vnode_hash d' = vnode_hash d.

Section node_free.
Context (d : fsd) (e : E) (t : tree) (p : Z) (n : tmpfs_node) (b : body).
Context (Ht : tfs d e t) (Hp : t !! p = Some (ANode n b)) (Hr : refs (fs_heap d) p = 0).

Lemma tfs_del_node h1 e1 :
  (forall x, x ∈ body_foot n b -> h1 !! x = None) -> h1 !! p = None ->
  (forall x, x <> p -> x ∉ body_foot n b -> h1 !! x = fs_heap d !! x) ->
  (forall q, refs h1 q = refs (fs_heap d) q) ->
  (forall x o, h1 !! x = Some o -> 0 < x /\ x ∈ al_live e1) -> tfs (fs_set_heap h1 d) e1 (delete p t).
Proof using Ht Hp Hr.
  intros Hg Hp1 Hsame Hrefs Hlive. pose proof (tf_shape _ _ _ Ht) as Hsh. destruct Ht as [_ Hlk Hrf Hhp' Hvh].
  assert (Hback : forall x o, h1 !! x = Some o -> fs_heap d !! x = Some o).
  { intros x o Hx. rewrite <- Hsame; [done|congruence|]. intros Hin. rewrite Hg in Hx by done. done. }
  split; simpl; [|intros q k Hq; rewrite Hrefs; by apply Hlk, Hback| |done|done].
  - eapply shape_delete; [done|done| |done..]. intros q k l y Hq Hy. right.
    destruct (sh_body _ _ Hsh _ _ Hq) as (_ & _ & Hc & _). simpl in Hc.
    destruct (chain_elem _ _ _ Hc Hy) as ([nx Hx] & _). by apply (refs_zero _ _ _ _ Hr) in Hx.
  - intros x y Hx%Hback. rewrite lookup_delete_ne; [by eapply Hrf|]. apply not_eq_sym. by eapply refs_zero.
Qed.

Context (held : list Z) (Q : unit -> fsd -> E -> Z -> Prop) (fl : Z).
Context (HQ : forall d' e', tfs d' e' (delete p t) -> keeps_vnodes d t d' (delete p t) -> Q tt d' e' fl).

Lemma ev_free_bare : body_foot n b = [] -> ev held (free p) Q d e fl.
Proof using Ht Hp Hr HQ.
  intros Hf. destruct (sh_node _ _ (tf_shape _ _ _ Ht) _ _ Hp) as [Hp0 Hhp]. simpl in Hhp.
  destruct (tf_heap _ _ _ Ht _ _ Hhp) as [_ Hpl].
  eapply ev_free; [done|done|]. intros e1 He1. unfold del_obj. apply HQ.
  - apply tfs_del_node; rewrite ?Hf; simpl.
    + intros x Hx. by apply elem_of_nil in Hx.
    + by rewrite lookup_delete_eq.
    + intros y Hy _. by rewrite lookup_delete_ne.
    + intros q. rewrite (refs_delete _ _ _ _ Hhp). simpl. lia.
    + intros y o. rewrite lookup_delete_Some, He1. intros [Hy Ho]. destruct (tf_heap _ _ _ Ht _ _ Ho). set_solver.
  - split; [|split; [|done]]; simpl.
    + intros v w Hv. rewrite lookup_delete_ne; [done|congruence].
    + apply keeps_del_node, keeps_del; [done|]. intros o0 Ho0. rewrite Hhp in Ho0. injection Ho0 as <-. by intros [].
Qed.

Lemma ev_free_part x o :
  body_foot n b = [x] -> fs_heap d !! x = Some o -> is_part o -> (forall q, weight q o = 0) ->
  ev held (free x) (fun _ d' e' fl' => ev held (free p) Q d' e' fl') d e fl.
Proof using Ht Hp Hr HQ.
  intros Hf Hx Hpart Hw. destruct (sh_node _ _ (tf_shape _ _ _ Ht) _ _ Hp) as [Hp0 Hhp]. simpl in Hhp.
  destruct (tf_heap _ _ _ Ht _ _ Hhp) as [_ Hpl]. destruct (tf_heap _ _ _ Ht _ _ Hx) as [_ Hxl].
  assert (Hxp : x <> p) by (intros ->; rewrite Hhp in Hx; by injection Hx as <-).
  eapply ev_free; [done|done|]. intros e1 He1.
  eapply ev_free; [simpl; by rewrite lookup_delete_ne|rewrite He1; set_solver|]. intros e2 He2.
  unfold del_obj. simpl. apply (HQ (fs_set_heap (delete p (delete x (fs_heap d))) d)).
  - apply tfs_del_node; rewrite ?Hf.
    + intros y ->%list_elem_of_singleton. rewrite lookup_delete_ne by done. by rewrite lookup_delete_eq.
    + by rewrite lookup_delete_eq.
    + intros y Hy Hyx. rewrite !lookup_delete_ne; [done|set_solver..].
    + intros q. rewrite (refs_delete _ _ (ONode n)) by (rewrite lookup_delete_ne; done).
      rewrite (refs_delete _ _ _ _ Hx), Hw. simpl. lia.
    + intros y o'. rewrite !lookup_delete_Some, He2, He1. intros (Hy & Hy' & Ho).
      destruct (tf_heap _ _ _ Ht _ _ Ho). set_solver.
  - split; [|split; [|done]]; simpl.
    + intros v w Hv. rewrite !lookup_delete_ne; [done| |congruence].
      intros ->. rewrite Hv in Hx. by injection Hx as <-.
    + apply keeps_del_node, keeps_del; [apply keeps_del; [done|]|].
      * intros o0 Ho0. apply (foot_owned (fs_heap d) t p (ANode n b)); [by eapply tf_shape|done| |done].
        simpl. rewrite Hf. by apply elem_of_cons; left.
      * intros o0 Ho0. rewrite Hhp in Ho0. injection Ho0 as <-. by intros [].
Qed.

Lemma ev_node_free : leaf b -> ev held (tmpfs_node_free p) Q d e fl.
Proof using Ht Hp Hr HQ.
  intros Hleaf. pose proof (tf_shape _ _ _ Ht) as Hsh.
  destruct (sh_node _ _ Hsh _ _ Hp) as [Hp0 Hhp]. pose proof (sh_body _ _ Hsh _ _ Hp) as Hb. simpl in Hhp, Hb.
  unfold tmpfs_node_free. destruct (Z.eqb_spec p NULL); [done|]. ev_step. eapply ev_the_node; [done|]. ev_step.
  pose proof ev_free_bare as Hbare. pose proof ev_free_part as Hpart.
  destruct b as [[buf|]|[|]|[str|]]; simpl in Hb, Hbare, Hpart; try done.
  - destruct Hb as (-> & Hn0 & Hbuf & _). simpl. destruct (Z.eqb_spec (tn_ptr n) NULL); [done|].
    by apply (Hpart _ (OBuf buf)).
  - destruct Hb as (-> & -> & _). simpl. apply ev_ret. by apply Hbare.
  - destruct Hb as (-> & -> & _). simpl. ev_step. apply ev_heap_fuel. simpl. apply ev_ret. by apply Hbare.
  - destruct Hb as (-> & Hn0 & Hstr). simpl. destruct (Z.eqb_spec (tn_ptr n) NULL); [done|].
    by apply (Hpart _ (OStr str)).
  - destruct Hb as (-> & ->). simpl. apply ev_ret. by apply Hbare.
Qed.
End node_free.

(** ** Vnodes *)

Definition vnode_of d v p : Prop :=
  v <> NULL /\ exists w, fs_heap d !! v = Some (OVnode w) /\ v_private w = p.

Lemma step_vnode_of d e t d' e' t' v p : step d e t d' e' t' -> vnode_of d v p -> vnode_of d' v p.
Proof.
  intros Hst [Hv (w & Hw & Hp)]. split; [done|]. destruct (sp_vnode _ _ _ _ _ _ Hst _ _ Hw) as (w' & ? & Hs).
  exists w'. split; [done|]. apply same_vnode_fields in Hs as (_ & _ & _ & _ & -> & _). done.
Qed.

Lemma ev_now held (Q : Z -> fsd -> E -> Z -> Prop) d e fl :
  (forall now e', al_live e' = al_live e -> Q now (fs_set_last now d) e' fl) -> ev held vfs_now Q d e fl.
Proof. intros HQ. unfold vfs_now. ev_steps. apply HQ. apply tsc_live. Qed.

Lemma vnode_hash_range ino : 0 <= vnode_hash_func 0 ino < VNODE_HASH_SIZE.
Proof. unfold vnode_hash_func. apply Z.mod_pos_bound. done. Qed.

(** A vnode is added to the heap or changed. *)
Lemma tfs_put_vnode d e t e' v w :
  tfs d e t -> 0 < v -> (forall o, fs_heap d !! v = Some o -> exists w0, o = OVnode w0) ->
  v ∈ al_live e' -> (forall x, x ∈ al_live e -> x ∈ al_live e') -> tfs (put_obj v (OVnode w) d) e' t.
Proof.
  intros Ht Hv0 Hv Hl Hsub. unfold put_obj. eapply tf_agree; [done| |].
  - apply agree_put; [by intros []|]. intros o Ho. destruct (Hv o Ho) as [w0 ->]. by intros [].
  - intros x o. rewrite lookup_insert_Some. intros [[<- _]|[_ Ho]]; [done|].
    destruct (tf_heap _ _ _ Ht _ _ Ho). split; [done|by apply Hsub].
Qed.

(** What [vfs_vnode_alloc] does: a vnode in front of the chain of its inode. *)
Definition vnode_pushed d d' (v ino : Z) (w : vnode) : Prop :=
  exists hd, vnode_hash d !! Z.to_nat (vnode_hash_func 0 ino) = Some hd /\
    fs_heap d' = <[v := OVnode w]> (fs_heap d) /\
    vnode_hash d' = <[Z.to_nat (vnode_hash_func 0 ino) := v]> (vnode_hash d) /\
    v_ino w = ino /\ v_refcount w = 1 /\ v_next w = hd /\ same_static d d'.

Lemma vtable_push d d' v ino w :
  v <> NULL -> fs_heap d !! v = None -> vnode_pushed d d' v ino w -> vtable d -> vtable d'.
Proof.
  intros Hv0 Hv (hd & Hhd & Hh & Hvh & Hi & _ & Hn & _) Ht slot a Ha. rewrite Hvh in Ha.
  assert (Hkeep : forall u x, fs_heap d !! u = Some (OVnode x) ->
    exists x', fs_heap d' !! u = Some (OVnode x') /\ v_ino x' = v_ino x /\ v_next x' = v_next x).
  { intros u x Hu. exists x. rewrite Hh, lookup_insert_ne by congruence. done. }
  apply list_lookup_insert_Some in Ha as [(<- & <- & _)|[Hne Ha]].
  - destruct (Ht _ _ Hhd) as (l & Hl & Hnd). exists (v :: l). split.
    + simpl. split; [done|]. split; [done|]. exists w. rewrite Hh, lookup_insert_eq, Hi, Hn. split; [done|].
      split; [pose proof (vnode_hash_range ino); lia|]. eapply vlist_mono; [|exact Hl]. intros u x _ Hu. rewrite <- ?Hh. by apply Hkeep.
    + apply NoDup_cons. split; [|done]. intros Hin. destruct (vlist_elem _ _ _ _ _ Hl Hin) as (x & Hx & _). congruence.
  - destruct (Ht _ _ Ha) as (l & Hl & Hnd). exists l. split; [|done]. eapply vlist_mono; [|exact Hl]. intros u x _ Hu. rewrite <- ?Hh. by apply Hkeep.
Qed.

Lemma ev_vnode_alloc_raw mnt ino (Q : Z -> fsd -> E -> Z -> Prop) d e fl :
  Z.of_nat (length (vnode_hash d)) = VNODE_HASH_SIZE ->
  (forall e', al_live e' = al_live e -> Q NULL d e' fl) ->
  (forall v w d' e', 0 < v -> v ∉ al_live e -> al_live e' = {[v]} ∪ al_live e -> vnode_pushed d d' v ino w -> Q v d' e' fl) ->
  ev [] (vfs_vnode_alloc mnt ino) Q d e fl.
Proof.
  intros Hlen Hnull HQ. unfold vfs_vnode_alloc. ev_step. apply ev_new.
  { intros e1 He1. simpl. by apply ev_ret, Hnull. }
  intros v e1 Hv0 Hv He1. destruct (Z.eqb_spec v NULL) as [->|_]; [unfold NULL in Hv0; lia|].
  ev_step. apply ev_now. intros now e2 He2.
  ev_step. apply ev_put. ev_step. apply ev_init_lock; [set_solver|]. ev_step.
  apply ev_lock_irq; [set_solver|]. ev_step. ev_step.
  pose proof (vnode_hash_range ino) as Hr.
  destruct (lookup_lt_is_Some_2 (vnode_hash d) (Z.to_nat (vnode_hash_func 0 ino))) as [hd Hhd]; [lia|].
  ev_step. eapply ev_lift.
  { unfold aread. simpl. rewrite decide_True by lia. by rewrite Hhd. }
  ev_step. eapply ev_upd_vnode; [simpl; by rewrite lookup_insert_eq|].
  ev_step. eapply ev_lift.
  { unfold awrite. simpl. rewrite decide_True by lia. done. }
  ev_step. ev_step. eapply HQ; [done|done|by rewrite He2, He1|]. exists hd. simpl. split; [done|].
  split; [rewrite !insert_insert_eq; reflexivity|]. by split_and!.
Qed.

Lemma ev_vnode_alloc mnt ino (Q : Z -> fsd -> E -> Z -> Prop) d e t fl :
  tfs d e t ->
  (forall e', tfs d e' t -> Q NULL d e' fl) ->
  (forall v w d' e', 0 < v -> fs_heap d !! v = None -> tfs d' e' t -> vnode_pushed d d' v ino w -> Q v d' e' fl) ->
  ev [] (vfs_vnode_alloc mnt ino) Q d e fl.
Proof.
  intros Ht Hnull HQ. apply ev_vnode_alloc_raw; [by apply (tf_hash _ _ _ Ht)| |].
  { intros e1 He1. apply Hnull. by eapply tf_env. }
  intros v w d' e' Hv0 Hv Hl Hpush. pose proof (tf_fresh _ _ _ _ Ht Hv) as Hvf. apply (HQ v w); [done..| |done].
  destruct Hpush as (hd & _ & Hh & Hvh & _).
  apply (tf_static (put_obj v (OVnode w) d)); [|done|by rewrite Hvh, length_insert].
  apply (tfs_put_vnode d e t); [done|done|intros o Ho; congruence|rewrite Hl; set_solver|].
  intros x. rewrite Hl. set_solver.
Qed.

Lemma body_type h n b : body_rep h n b -> exists ty, vfs_type_of (tn_type n) = Some ty.
Proof. destruct b as [[]| |[]]; simpl; intros (-> & _); by eexists. Qed.

Definition vnode_type (a : anode) : Z := default 0 (vfs_type_of (tn_type (an_node a))).

Lemma type_bits m ty : vfs_type_of ty <> None ->
  Z.land (Z.lor (Z.ldiff m VFS_IFMT) (default 0 (vfs_type_of ty))) VFS_IFMT = default 0 (vfs_type_of ty).
Proof.
  intros Hty. rewrite Z.land_lor_distr_l.
  assert (Hz : Z.land (Z.ldiff m VFS_IFMT) VFS_IFMT = 0).
  { apply Z.bits_inj'. intros i Hi. rewrite Z.land_spec, Z.ldiff_spec, Z.bits_0.
    destruct (Z.testbit m i), (Z.testbit VFS_IFMT i); done. }
  rewrite Hz, Z.lor_0_l. unfold vfs_type_of in *. repeat case_match; done.
Qed.

(** A vnode as [tmpfs_node_to_vnode] makes it: it leads to [p] and has the
    operations of tmpfs and the file type of [a]. *)
Definition vnode_for (w : vnode) (p : Z) (a : anode) : Prop :=
  v_private w = p /\ v_ops w = tmpfs_vnode_ops /\ Z.land (v_mode w) VFS_IFMT = vnode_type a.

(** A vnode that was not there before. *)
Definition new_vnode d d' t' v : Prop :=
  v <> NULL /\ (forall w, fs_heap d !! v <> Some (OVnode w)) /\
  exists w p a, fs_heap d' !! v = Some (OVnode w) /\ t' !! p = Some a /\ vnode_for w p a /\ v_refcount w = 1.

(** A vnode for node [p]: a new object that leads to it. *)
Lemma ev_node_to_vnode p a (Q : Z * Z -> fsd -> E -> Z -> Prop) d e t fl :
  tfs d e t -> t !! p = Some a ->
  (forall e', tfs d e' t -> Q (- ENOMEM, NULL) d e' fl) ->
  (forall v d' e', step d e t d' e' t -> vnode_of d' v p -> fs_heap d !! v = None ->
     (exists w, fs_heap d' !! v = Some (OVnode w) /\ vnode_for w p a /\ v_refcount w = 1) -> Q (0, v) d' e' fl) ->
  ev [] (tmpfs_node_to_vnode p) Q d e fl.
Proof.
  intros Ht Hp Hmem Hok. pose proof (tf_shape _ _ _ Ht) as Hsh. destruct (sh_node _ _ Hsh _ _ Hp) as [Hp0 Hhp].
  unfold tmpfs_node_to_vnode. destruct (Z.eqb_spec p NULL); [done|]. ev_step. eapply ev_the_node; [done|].
  ev_step. eapply ev_vnode_alloc; [done|..].
  { intros e1 Ht1. simpl. by apply ev_ret, Hmem. }
  intros v w d1 e1 Hv0 Hvf Ht1 Hpush. destruct (Z.eqb_spec v NULL) as [->|Hvn]; [unfold NULL in Hv0; lia|].
  pose proof Hpush as (hd & Hhd & Hh1 & Hvh & Hi & Hrc & Hn & Hstat).
  destruct (body_type _ _ _ (sh_body _ _ Hsh _ _ Hp)) as [ty Hty]. rewrite Hty.
  assert (Hv1 : fs_heap d1 !! v = Some (OVnode w)) by (by rewrite Hh1, lookup_insert_eq).
  ev_step. eapply ev_upd_vnode; [done|]. apply ev_ret.
  match goal with |- Q _ (put_obj _ (OVnode ?x) _) _ _ => set (w2 := x) end.
  assert (Hpush2 : vnode_pushed d (put_obj v (OVnode w2) d1) v (tn_ino (an_node a)) w2).
  { exists hd. simpl. rewrite Hh1, insert_insert_eq. by split_and!. }
  apply Hok.
  - split; [| |done| |exact Hstat|by apply (vtable_push _ _ _ _ _ Hvn Hvf Hpush2)].
    + eapply tfs_put_vnode; [done|done| |by destruct (tf_heap _ _ _ Ht1 _ _ Hv1)|done].
      intros o Ho. rewrite Hv1 in Ho. injection Ho as <-. by eexists.
    + intros v' w' Hw'. exists w'. simpl. rewrite lookup_insert_ne by congruence.
      rewrite Hh1, lookup_insert_ne by congruence. done.
    + simpl. rewrite Hh1, insert_insert_eq. apply keeps_put; [done|intros o0; congruence].
  - split; [done|]. eexists. simpl. by rewrite lookup_insert_eq.
  - done.
  - exists w2. simpl. rewrite lookup_insert_eq. split; [done|]. split; [|done]. split; [done|]. split; [done|].
    unfold vnode_type. simpl. pose proof (type_bits (tn_mode (an_node a)) (tn_type (an_node a))) as Hb.
    rewrite Hty in Hb |- *. by apply Hb.
Qed.

(** ** Adding a new node to a directory *)

Lemma step_keeps d e t d1 e1 t1 d2 e2 t2 :
  step d e t d1 e1 t1 -> tfs d2 e2 t2 -> keeps_vnodes d1 t1 d2 t2 -> (forall q, is_Some (t !! q) -> is_Some (t2 !! q)) ->
  step d e t d2 e2 t2.
Proof.
  intros [H1 H2 H3 H4 H5 H6] Ht (Hk & Hkeep & Hstat & Hvh) Hn. split; [done| |done|by eapply keeps_trans|by etrans|].
  - intros v w Hv. destruct (H2 _ _ Hv) as (w' & Hw' & ?). exists w'. split; [by apply Hk|done].
  - intros Hvt. eapply vtable_mono; [done| |by apply H6]. intros v w Hv. exists w. split; [by apply Hk|done].
Qed.

Lemma step_new_del d e t d1 e1 d2 e2 p a :
  t !! p = None -> step d e t d1 e1 (<[p := a]> t) -> tfs d2 e2 (delete p (<[p := a]> t)) ->
  keeps_vnodes d1 (<[p := a]> t) d2 (delete p (<[p := a]> t)) ->
  step d e t d2 e2 t.
Proof. intros Hp Hst Ht Hk. rewrite delete_insert_id in Ht, Hk by done. by eapply step_keeps. Qed.

Lemma ev_add_new dir name p a n l (Q : Z -> fsd -> E -> Z -> Prop) d e t d1 e1 fl :
  step d e t d1 e1 (<[p := a]> t) -> t !! p = None -> leaf (an_body a) -> refs (fs_heap d1) p = 0 ->
  t !! dir = Some (ANode n (BDir l)) ->
  (forall d' e', name ∈ de_name <$> l -> step d e t d' e' t -> Q (- EEXIST) d' e' fl) ->
  (forall d' e', name ∉ de_name <$> l -> step d e t d' e' t -> Q (- ENOMEM) d' e' fl) ->
  (forall d' e' t', name ∉ de_name <$> l -> step d e t d' e' t' -> is_Some (t' !! p) ->
     view t' = <[dir := FDir (<[name := p]> (dir_map l))]> (<[p := view_node a]> (view t)) -> Q 0 d' e' fl) ->
  ev [] (add_new dir (Some name) p) Q d1 e1 fl.
Proof.
  intros Hst Hp Hleaf Hr Hdir Hex Hmem Hok. pose proof (sp_tfs _ _ _ _ _ _ Hst) as Ht1.
  assert (Hdp : p <> dir) by congruence.
  assert (Hpa : <[p := a]> t !! p = Some (ANode (an_node a) (an_body a))).
  { rewrite lookup_insert_eq. by destruct a. }
  assert (Hdir1 : <[p := a]> t !! dir = Some (ANode n (BDir l))) by (by rewrite lookup_insert_ne).
  unfold add_new. ev_step. apply ev_lock_irq; [set_solver|].
  eapply ev_dirent_add; [exact Ht1|exact Hdir1|by rewrite lookup_insert_eq|..].
  - intros Hin. simpl. ev_step. eapply ev_node_free; [exact Ht1|exact Hpa|done| |done].
    intros d2 e2 Ht2 Hk. apply ev_ret, Hex; [done|]. by eapply step_new_del.
  - intros e2 Hin Ht2. simpl. ev_step. eapply ev_node_free; [exact Ht2|exact Hpa|done| |done].
    intros d3 e3 Ht3 Hk. apply ev_ret, Hmem; [done|]. by eapply step_new_del.
  - intros d2 e2 t2 Hin Hst2 Hv. simpl. apply ev_ret. eapply Hok; [done|by eapply step_trans| |].
    + apply (sp_node _ _ _ _ _ _ Hst2). by rewrite lookup_insert_eq.
    + rewrite Hv, view_insert. done.
Qed.
End ops.

(** ** tmpfs: mounting

    [tmpfs_mount] adds an empty root directory with its mount and vnode to the
    file systems that are there; when memory runs out it takes everything back. *)

(** An object that is no node and no entry, at a free address. *)
Lemma shape_fresh h t x o :
  shape h t -> h !! x = None -> (forall n, o <> ONode n) -> shape (<[x := o]> h) t.
Proof.
  intros Hsh Hx Ho. destruct Hsh as [H1 H2 H3 H4 H5 H6 H7 H8]. split; try done.
  - intros p a Hp. destruct (H1 _ _ Hp) as [? Hn]. split; [done|]. rewrite lookup_insert_ne; [done|congruence].
  - intros p a Hp. eapply body_rep_agree; [|by apply H2 in Hp]. intros y Hy.
    destruct (foot_part _ _ _ _ (H2 _ _ Hp) Hy) as (_ & o' & Ho' & _). rewrite lookup_insert_ne; [done|congruence].
  - intros p n. rewrite lookup_insert_Some. intros [[_ Heq]|[_ Hp]]; [by destruct (Ho n)|by eapply H3].
  - intros p a Hp. destruct (H8 _ _ Hp) as (m & tm & Hm & ? & Ht & ?). exists m, tm.
    rewrite !lookup_insert_ne by congruence. done.
Qed.

Section mount.
Context {E : Type} `{TimeSource E}.
Implicit Types (d : fsd) (e : E) (t : tree) (fl : Z).

Lemma tfs_fresh d e t e' x o :
  tfs d e t -> 0 < x -> fs_heap d !! x = None -> (forall n, o <> ONode n) -> (forall y, o <> ODirent y) ->
  al_live e' = {[x]} ∪ al_live e -> tfs (put_obj x o d) e' t.
Proof.
  intros [Hsh Hlk Hrf Hhp Hvh] Hx0 Hx Ho1 Ho2 Hl.
  assert (Hr : forall q, refs (<[x := o]> (fs_heap d)) q = refs (fs_heap d) q).
  { intros q. rewrite refs_put by done. destruct o; simpl; try lia. by destruct (Ho2 t0). }
  split; simpl.
  - by apply shape_fresh.
  - intros p n. rewrite Hr, lookup_insert_Some. intros [[_ ?]|[_ Hp]]; [by destruct (Ho1 n)|by apply Hlk].
  - intros z y. rewrite lookup_insert_Some. intros [[_ ?]|[_ Hz]]; [by destruct (Ho2 y)|by eapply Hrf].
  - intros z o'. rewrite lookup_insert_Some, Hl. intros [[<- _]|[_ Hz]]; [set_solver|].
    destruct (Hhp _ _ Hz). set_solver.
  - done.
Qed.

(** The objects of a new mount. *)
Definition root_node mount : tmpfs_node :=
  new_node TMPFS_ROOT_INO TMPFS_DIR (Z.lor VFS_IFDIR TMPFS_DEFAULT_MODE) mount.

Definition mount_heap (h : gmap Z fsobj) (mount tm root vn point flags : Z) (w : vnode) (path : list Z) : gmap Z fsobj :=
  <[root := ONode (root_node mount)]>
    (<[point := OStr path]>
      (<[vn := OVnode w]>
        (<[tm := OTmount (TMount (64 * 1024 * 1024) 0 2 root mount)]>
          (<[mount := OMount (Mount point NULL flags vn tmpfs_vfs_ops tm 0)]> h)))).

Lemma tfs_mounted d e t e' mount tm root vn point flags w path :
  tfs d e t -> NoDup [mount; tm; root; vn; point] ->
  (forall x, x ∈ [mount; tm; root; vn; point] -> 0 < x /\ x ∉ al_live e) ->
  al_live e' = {[mount; tm; root; vn; point]} ∪ al_live e ->
  tfs (fs_set_heap (mount_heap (fs_heap d) mount tm root vn point flags w path) d) e'
    (<[root := ANode (root_node mount) (BDir [])]> t).
Proof.
  intros Ht Hnd Hfr Hl. unfold mount_heap.
  assert (Hno : forall x, x ∈ [mount; tm; root; vn; point] -> 0 < x /\ fs_heap d !! x = None).
  { intros x Hx. destruct (Hfr x Hx). split; [done|]. by eapply tf_fresh. }
  rewrite !NoDup_cons in Hnd. destruct Hnd as (Hn1 & Hn2 & Hn3 & Hn4 & _).
  repeat setoid_rewrite elem_of_cons in Hn1. repeat setoid_rewrite elem_of_cons in Hn2.
  repeat setoid_rewrite elem_of_cons in Hn3. repeat setoid_rewrite elem_of_cons in Hn4.
  assert (mount <> tm /\ mount <> root /\ mount <> vn /\ mount <> point /\ tm <> root /\ tm <> vn /\ tm <> point /\
    root <> vn /\ root <> point /\ vn <> point) as (? & ? & ? & ? & ? & ? & ? & ? & ? & ?)
    by tauto.
  destruct (Hno mount) as [Hm0 Hm]; [set_solver|]. destruct (Hno tm) as [Htm0 Htm]; [set_solver|].
  destruct (Hno root) as [Hr0 Hr]; [set_solver|]. destruct (Hno vn) as [Hv0 Hv]; [set_solver|].
  destruct (Hno point) as [Hp0 Hp]; [set_solver|].
  set (h4 := <[point := OStr path]> _).
  assert (Hsh4 : shape h4 t).
  { unfold h4. do 4 (apply shape_fresh; [|rewrite ?lookup_insert_ne by congruence; done|done]).
    by eapply tf_shape. }
  assert (Hr4 : h4 !! root = None).
  { unfold h4. rewrite !lookup_insert_ne by congruence. done. }
  assert (Hrefs4 : forall q, refs h4 q = refs (fs_heap d) q).
  { intros q. unfold h4.
    do 4 (rewrite refs_put by (rewrite ?lookup_insert_ne by congruence; done)). simpl. lia. }
  assert (Hrefs : forall q, refs (<[root := ONode (root_node mount)]> h4) q = refs (fs_heap d) q).
  { intros q. rewrite refs_put by done. rewrite Hrefs4. simpl. lia. }
  split; simpl.
  - apply shape_new; [done|done|unfold NULL; lia|done|done|by intros l [= <-]|].
    exists (Mount point NULL flags vn tmpfs_vfs_ops tm 0), (TMount (64 * 1024 * 1024) 0 2 root mount).
    unfold h4. simpl. split_and!; [|unfold NULL; lia| |done].
    + rewrite !lookup_insert_ne by congruence. by rewrite lookup_insert_eq.
    + rewrite !(lookup_insert_ne _ _ tm) by congruence. by rewrite lookup_insert_eq.
  - intros p n. rewrite Hrefs, lookup_insert_Some. intros [[<- [= <-]]|[_ Hpn]].
    + rewrite (refs_none (fs_heap d) root); [done|]. intros x y Hx Hy. destruct (tf_refs _ _ _ Ht _ _ Hx) as [a Ha].
      rewrite Hy in Ha. destruct (sh_node _ _ (tf_shape _ _ _ Ht) _ _ Ha). congruence.
    + apply (tf_links _ _ _ Ht). revert Hpn. unfold h4. rewrite !lookup_insert_Some. naive_solver.
  - intros x y. rewrite lookup_insert_Some. intros [[_ [=]]|[_ Hx]]. rewrite lookup_insert_is_Some'. right.
    apply (tf_refs _ _ _ Ht x). revert Hx. unfold h4. rewrite !lookup_insert_Some. naive_solver.
  - intros x o Hx. rewrite Hl. assert (Hcase : x ∈ [mount; tm; root; vn; point] \/ is_Some (fs_heap d !! x)).
    { revert Hx. unfold h4. rewrite !lookup_insert_Some, !elem_of_cons. clear. naive_solver. }
    destruct Hcase as [Hin|[o' Ho']].
    + split; [by apply Hno|]. clear -Hin. set_solver.
    + destruct (tf_heap _ _ _ Ht _ _ Ho'). split; [done|]. apply elem_of_union. by right.
  - by apply (tf_hash _ _ _ Ht).
Qed.

(** Equal heaps, by cases on the addresses of [l]. *)
Ltac heap_eq l :=
  apply map_eq; let z := fresh "z" in intros z;
  let rec go l := lazymatch l with
    | nil => idtac
    | ?a :: ?l' => destruct (decide (z = a)) as [->|]; [|go l']
    end in go l; simplify_map_eq; done.

(** The cleanup shared by the error paths: the root node, then the two mount
    structures. *)
Lemma ev_free_root {X : Type} r tm m mt m0 (k : M (kst (guarded fsd) E) X) (Q : X -> fsd -> E -> Z -> Prop) d e fl :
  fs_heap d !! r = Some (ONode (root_node m)) -> fs_heap d !! tm = Some (OTmount m0) ->
  fs_heap d !! m = Some (OMount mt) -> {[r; tm; m]} ⊆ al_live e -> r <> NULL ->
  (forall e', al_live e' = al_live e ∖ {[r]} ∖ {[tm]} ∖ {[m]} -> ev [] k Q (del_obj m (del_obj tm (del_obj r d))) e' fl) ->
  ev [] (tmpfs_node_free r ;;; free tm ;;; free m ;;; k) Q d e fl.
Proof.
  intros Hr Htm Hm Hl Hr0 HQ. assert (r <> tm /\ r <> m /\ tm <> m) as (? & ? & ?) by (split_and!; congruence).
  ev_step. unfold tmpfs_node_free. destruct (Z.eqb_spec r NULL) as [|_]; [done|]. ev_step.
  eapply ev_the_node; [done|]. ev_step. simpl. ev_step. apply ev_heap_fuel. simpl. apply ev_ret.
  eapply ev_free; [done|set_solver|]. intros e1 He1. ev_step.
  eapply ev_free; [simpl; by simplify_map_eq|rewrite He1; set_solver|]. intros e2 He2. ev_step.
  eapply ev_free; [simpl; by simplify_map_eq|rewrite He2, He1; set_solver|]. intros e3 He3.
  apply HQ. by rewrite He3, He2, He1.
Qed.

Lemma ev_tmpfs_mount path flags (Q : Z * Z -> fsd -> E -> Z -> Prop) d e t fl :
  tfs d e t ->
  (forall d' e', tfs d' e' t -> fs_heap d' = fs_heap d -> Q (- ENOMEM, NULL) d' e' fl) ->
  (forall m mt root d' e', tfs d' e' (<[root := ANode (root_node m) (BDir [])]> t) -> t !! root = None ->
     fs_heap d' !! m = Some (OMount mt) -> vnode_of d' (mnt_root mt) root -> Q (0, m) d' e' fl) ->
  ev [] (tmpfs_mount_fs path flags) Q d e fl.
Proof.
  intros Ht Hmem Hok. assert (Hback : forall d' e', fs_heap d' = fs_heap d -> al_live e' = al_live e ->
    length (vnode_hash d') = length (vnode_hash d) -> Q (- ENOMEM, NULL) d' e' fl).
  { intros d' e' Hh Hl Hv. apply Hmem; [|done]. eapply tf_static; [by eapply tf_env|done|done]. }
  clear Hmem. unfold tmpfs_mount_fs. ev_step. apply ev_new.
  { intros e1 He1. simpl. by apply ev_ret, Hback. }
  intros m e1 Hm0 Hm He1. destruct (Z.eqb_spec m NULL) as [->|_]; [unfold NULL in Hm0; lia|].
  pose proof (tf_fresh _ _ _ _ Ht Hm) as Hmf. ev_step. apply ev_new.
  { intros e2 He2. simpl. ev_step. eapply ev_free; [simpl; by rewrite lookup_insert_eq|rewrite He2, He1; set_solver|].
    intros e3 He3. apply ev_ret, Hback; [simpl; by rewrite delete_insert_id| |done].
    rewrite He3, He2, He1. set_solver. }
  intros tm e2 Htm0 Htm He2. rewrite He1 in Htm.
  destruct (Z.eqb_spec tm NULL) as [->|_]; [unfold NULL in Htm0; lia|].
  assert (Htmf : fs_heap d !! tm = None) by (apply (tf_fresh _ _ _ _ Ht); set_solver).
  assert (Hne1 : m <> tm) by set_solver. ev_step. apply ev_init_lock; [set_solver|]. ev_step.
  unfold tmpfs_node_alloc. destruct (Z.eqb_spec tm NULL) as [->|_]; [unfold NULL in Htm0; lia|]. ev_step. apply ev_new.
  { intros e3 He3. simpl. apply ev_ret. simpl. ev_step.
    eapply ev_free; [simpl; by rewrite lookup_insert_eq|rewrite He3, He2, He1; set_solver|]. intros e4 He4. ev_step.
    eapply ev_free; [simpl; by simplify_map_eq|rewrite He4, He3, He2, He1; set_solver|]. intros e5 He5.
    apply ev_ret, Hback; [simpl; heap_eq [m; tm]| |done]. rewrite He5, He4, He3, He2, He1. set_solver. }
  intros r e3 Hr0 Hr He3. rewrite He2, He1 in Hr.
  destruct (Z.eqb_spec r NULL) as [->|Hrn]; [unfold NULL in Hr0; lia|].
  assert (Hrf : fs_heap d !! r = None) by (apply (tf_fresh _ _ _ _ Ht); set_solver).
  assert (Hne2 : m <> r /\ tm <> r) by set_solver. destruct Hne2 as [Hne2 Hne3].
  ev_step. apply ev_lock_irq; [set_solver|]. ev_step. eapply ev_the_tmount; [simpl; by simplify_map_eq|].
  ev_step. apply ev_put. apply ev_ret. ev_step. eapply ev_the_tmount; [simpl; by rewrite lookup_insert_eq|].
  ev_step. apply ev_put. ev_step. apply ev_init_lock; [set_solver|]. apply ev_ret.
  destruct (Z.eqb_spec r NULL) as [|_]; [done|].
  ev_step. eapply ev_the_tmount; [simpl; by simplify_map_eq|]. ev_step. apply ev_put. ev_step.
  unfold tmpfs_node_to_vnode. destruct (Z.eqb_spec r NULL) as [|_]; [done|]. ev_step.
  eapply ev_the_node; [simpl; by simplify_map_eq|]. simpl tn_mount. simpl tn_ino. ev_step.
  apply ev_vnode_alloc_raw; [by apply (tf_hash _ _ _ Ht)|..].
  { intros e4 He4. simpl. apply ev_ret. simpl.
    eapply ev_free_root; [simpl; by simplify_map_eq..|rewrite He4, He3, He2, He1; set_solver|done|].
    intros e7 He7. apply ev_ret, Hback; [simpl; heap_eq [m; tm; r]| |done]. rewrite He7, He4, He3, He2, He1. set_solver. }
  intros v w d1 e4 Hv0 Hv He4 (hd & _ & Hh1 & Hvh1 & _). rewrite He3, He2, He1 in Hv.
  assert (Hlen1 : length (vnode_hash d1) = length (vnode_hash d)) by (rewrite Hvh1; by rewrite length_insert).
  assert (Hvf : fs_heap d !! v = None) by (apply (tf_fresh _ _ _ _ Ht); set_solver).
  assert (Hne4 : m <> v /\ tm <> v /\ r <> v) by set_solver. destruct Hne4 as (Hne4 & Hne5 & Hne6).
  destruct (Z.eqb_spec v NULL) as [->|Hvn]; [unfold NULL in Hv0; lia|]. simpl in Hh1. simpl. ev_step.
  eapply ev_upd_vnode; [rewrite Hh1; by simplify_map_eq|]. apply ev_ret. simpl. ev_step.
  eapply ev_upd_vnode; [simpl; by simplify_map_eq|]. ev_step. unfold kmalloc_str. apply ev_new.
  { intros e5 He5. simpl. ev_step. unfold vfs_vnode_free, vnode_release. destruct (Z.eqb_spec v NULL) as [|_]; [done|].
    ev_step. ev_step. eapply ev_the_vnode; [simpl; by simplify_map_eq|]. simpl. apply ev_ret.
    eapply ev_free; [simpl; by simplify_map_eq|rewrite He5, He4; set_solver|]. intros e6 He6.
    eapply ev_free_root; [simpl; rewrite Hh1; by simplify_map_eq..|
      rewrite He6, He5, He4, He3, He2, He1; set_solver|done|].
    intros e7 He7. apply ev_ret, Hback; [simpl; rewrite Hh1; heap_eq [m; tm; r; v]| |done].
    rewrite He7, He6, He5, He4, He3, He2, He1. clear -Hm Htm Hr Hv Hne1 Hne2 Hne3 Hne4 Hne5 Hne6. set_solver. }
  intros pt e5 Hpt0 Hpt He5. rewrite He4, He3, He2, He1 in Hpt.
  destruct (Z.eqb_spec pt NULL) as [->|Hptn]; [unfold NULL in Hpt0; lia|].
  assert (Hptf : fs_heap d !! pt = None) by (apply (tf_fresh _ _ _ _ Ht); set_solver).
  assert (Hne7 : m <> pt /\ tm <> pt /\ r <> pt /\ v <> pt) by set_solver. destruct Hne7 as (Hne7 & Hne8 & Hne9 & Hne10).
  ev_step. apply ev_put. ev_step. apply ev_init_lock; [set_solver|]. apply ev_ret.
  assert (Hnone : t !! r = None).
  { destruct (t !! r) eqn:Ha; [|done]. destruct (sh_node _ _ (tf_shape _ _ _ Ht) _ _ Ha). congruence. }
  eapply (Hok m _ r); [|done|simpl; by rewrite lookup_insert_eq|].
  2: { split; [done|]. simpl. eexists. split; [simplify_map_eq; done|done]. }
  match goal with |- tfs ?x _ _ => set (dx := x) end.
  assert (exists w1, fs_heap dx = mount_heap (fs_heap d) m tm r v pt flags w1 path) as [w1 Hdx].
  { eexists. unfold dx, mount_heap. simpl. rewrite Hh1. heap_eq [m; tm; r; v; pt]. }
  eapply tf_static; [apply (tfs_mounted d e t e5 m tm r v pt flags w1 path Ht)|done|done].
  - rewrite !NoDup_cons, !not_elem_of_cons. split_and!; try done; [apply not_elem_of_nil..|constructor].
  - intros x. rewrite !elem_of_cons, elem_of_nil. intros Hx.
    clear -Hx Hm Htm Hr Hv Hpt Hm0 Htm0 Hr0 Hv0 Hpt0. set_solver.
  - rewrite He5, He4, He3, He2, He1. clear. set_solver.
Qed.
End mount.
