(* ===== verification/TmpfsThms.v ===== *)
(** * tmpfs: theorems about directories

    [dstep] is the specification of the operations on a directory: finite maps
    from names to nodes, with the errors a caller may see.  Every operation
    refines it and keeps the invariant. *)

From stdpp Require Import base numbers list gmap.
From S2P Require Import Prelude Spinlock Kernel KLogic VfsPath Fs Tmpfs TmpfsFacts TmpfsDir TmpfsOps.

(** Operations on a directory, by the vnodes the caller passes. *)
Inductive dop :=
  | OCreate (name : list Z) (mode : Z) (wanted : bool)
  | OMkdir (name : list Z) (mode : Z)
  | OSymlink (name target : list Z)
  | OLink (name : list Z) (target : Z)
  | OUnlink (name : list Z)
  | ORmdir (name : list Z).

(** The same, by what they mean: make a node, or name the node [q]. *)
Inductive aop :=
  | AMake (name : list Z) (o : fnode)
  | ALink (name : list Z) (q : Z)
  | AUnlink (name : list Z)
  | ARmdir (name : list Z).

Definition added_name (a : aop) : option (list Z) :=
  match a with AMake name _ | ALink name _ => Some name | _ => None end.
Definition removed_name (a : aop) : option (list Z) :=
  match a with AUnlink name | ARmdir name => Some name | _ => None end.
Definition not_dir_error (a : aop) : Z := match a with ALink _ _ => - EINVAL | _ => - ENOTDIR end.

Inductive dstep (fs : gmap Z fnode) (dir : Z) : aop -> Z -> gmap Z fnode -> Prop :=
  | ds_notdir a : (forall m, fs !! dir <> Some (FDir m)) -> dstep fs dir a (not_dir_error a) fs
  | ds_exists a name m : fs !! dir = Some (FDir m) -> added_name a = Some name -> is_Some (m !! name) ->
      dstep fs dir a (- EEXIST) fs
  | ds_nomem a name m : fs !! dir = Some (FDir m) -> added_name a = Some name -> dstep fs dir a (- ENOMEM) fs
  | ds_make name o m p : fs !! dir = Some (FDir m) -> m !! name = None -> fs !! p = None ->
      dstep fs dir (AMake name o) 0 (<[dir := FDir (<[name := p]> m)]> (<[p := o]> fs))
  | ds_make_late name m p : fs !! dir = Some (FDir m) -> m !! name = None -> fs !! p = None ->
      dstep fs dir (AMake name (FFile [])) (- ENOMEM) (<[dir := FDir (<[name := p]> m)]> (<[p := FFile []]> fs))
  | ds_link_dir name q m k : fs !! dir = Some (FDir m) -> fs !! q = Some (FDir k) ->
      dstep fs dir (ALink name q) (- EPERM) fs
  | ds_link name q m : fs !! dir = Some (FDir m) -> m !! name = None -> (forall k, fs !! q <> Some (FDir k)) ->
      dstep fs dir (ALink name q) 0 (<[dir := FDir (<[name := q]> m)]> fs)
  | ds_missing a name m : fs !! dir = Some (FDir m) -> removed_name a = Some name -> m !! name = None ->
      dstep fs dir a (- ENOENT) fs
  | ds_unlink name m : fs !! dir = Some (FDir m) -> is_Some (m !! name) ->
      dstep fs dir (AUnlink name) 0 (<[dir := FDir (delete name m)]> fs)
  | ds_rmdir_file name m q : fs !! dir = Some (FDir m) -> m !! name = Some q -> (forall k, fs !! q <> Some (FDir k)) ->
      dstep fs dir (ARmdir name) (- ENOTDIR) fs
  | ds_rmdir_full name m q k : fs !! dir = Some (FDir m) -> m !! name = Some q -> fs !! q = Some (FDir k) -> k <> ∅ ->
      dstep fs dir (ARmdir name) (- ENOTEMPTY) fs
  | ds_rmdir name m q : fs !! dir = Some (FDir m) -> m !! name = Some q -> fs !! q = Some (FDir ∅) ->
      dstep fs dir (ARmdir name) 0 (<[dir := FDir (delete name m)]> fs).

Section thms.
Context {E : Type} `{TimeSource E}.
Abbreviation K := (M (kst (guarded fsd) E)).
Implicit Types (d : fsd) (e : E) (t : tree) (fl : Z) (held : list Z).

Definition run_dop (dir : Z) (op : dop) : K Z :=
  match op with
  | OCreate name mode wanted => r <- tmpfs_create dir (Some name) mode wanted ;; ret r.1
  | OMkdir name mode => tmpfs_mkdir dir (Some name) mode
  | OSymlink name target => tmpfs_symlink dir (Some name) (Some target)
  | OLink name target => tmpfs_link dir (Some name) target
  | OUnlink name => tmpfs_unlink dir (Some name)
  | ORmdir name => tmpfs_rmdir dir (Some name)
  end.

Definition means d t (op : dop) (a : aop) : Prop :=
  match op with
  | OCreate name _ _ => a = AMake name (FFile [])
  | OMkdir name _ => a = AMake name (FDir ∅)
  | OSymlink name target => a = AMake name (FSym target)
  | OLink name target => exists q, vnode_of d target q /\ is_Some (t !! q) /\ a = ALink name q
  | OUnlink name => a = AUnlink name
  | ORmdir name => a = ARmdir name
  end.

Lemma view_is_dir t p n l : t !! p = Some (ANode n (BDir l)) -> view t !! p = Some (FDir (dir_map l)).
Proof. intros Hp. by rewrite (view_lookup _ _ _ Hp). Qed.

Lemma view_not_dir t p a m : t !! p = Some a -> (forall l, an_body a <> BDir l) -> view t !! p <> Some (FDir m).
Proof.
  intros Hp Hno. rewrite (view_lookup _ _ _ Hp). destruct a as [n []]; simpl in *; try done. by destruct (Hno l).
Qed.

Lemma view_none t p : t !! p = None -> view t !! p = None.
Proof. intros Hp. unfold view. by rewrite lookup_fmap, Hp. Qed.

Lemma dir_map_None name l : name ∉ de_name <$> l -> dir_map l !! name = None.
Proof. intros Hn. rewrite dir_map_lookup. apply lookup_name_None in Hn. by rewrite Hn. Qed.

Lemma dir_map_is_Some name l : name ∈ de_name <$> l -> is_Some (dir_map l !! name).
Proof.
  intros Hn. rewrite dir_map_lookup. destruct (lookup_name name l) eqn:Hl; [by eexists|].
  by apply lookup_name_None in Hl.
Qed.

(** The operation on the node: what a directory vnode leads to. *)
Lemma ev_dir_node_of held dir p a (Q : option Z -> fsd -> E -> Z -> Prop) d e t fl :
  tfs d e t -> vnode_of d dir p -> t !! p = Some a ->
  (forall l, an_body a = BDir l -> Q (Some p) d e fl) ->
  ((forall l, an_body a <> BDir l) -> Q None d e fl) ->
  ev held (dir_node_of dir) Q d e fl.
Proof.
  intros Ht [Hv0 (w & Hw & Hp)] Ha Hdir Hno. pose proof (tf_shape _ _ _ Ht) as Hsh.
  destruct (sh_node _ _ Hsh _ _ Ha) as [Hp0 Hhp]. pose proof (sh_body _ _ Hsh _ _ Ha) as Hb.
  unfold dir_node_of, tmpfs_vnode_to_node. destruct (Z.eqb_spec dir NULL); [done|].
  ev_step. ev_step. eapply ev_the_vnode; [done|]. apply ev_ret. rewrite Hp.
  destruct (Z.eqb_spec p NULL); [done|]. ev_step. eapply ev_the_node; [done|].
  destruct a as [k [[]|l|[]]]; simpl in *; destruct Hb as (-> & _); simpl; apply ev_ret;
    first [by apply Hno|by eapply Hdir].
Qed.

Lemma ev_tmount_of held p a (Q : Z -> fsd -> E -> Z -> Prop) d e t fl :
  tfs d e t -> t !! p = Some a ->
  (forall tm m0 mt, tm <> NULL -> fs_heap d !! tm = Some (OTmount m0) ->
     fs_heap d !! tm_vfs_mount m0 = Some (OMount mt) -> mnt_private mt = tm -> Q tm d e fl) ->
  ev held (tmount_of p) Q d e fl.
Proof.
  intros Ht Ha HQ. pose proof (tf_shape _ _ _ Ht) as Hsh. destruct (sh_node _ _ Hsh _ _ Ha) as [Hp0 Hhp].
  destruct (sh_mount _ _ Hsh _ _ Ha) as (m & t0 & Hm & Hpr & Ht0 & Hv).
  unfold tmount_of. ev_step. eapply ev_the_node; [done|]. ev_step. eapply ev_the_mount; [done|]. apply ev_ret.
  apply (HQ _ t0 m); [done..|by rewrite Hv|done].
Qed.

(** What is shown of each operation. *)
Definition refines d e t (dir : Z) (a : aop) (rc : Z) d' e' : Prop :=
  exists t', step d e t d' e' t' /\ dstep (view t) dir a rc (view t').

Section op.
Context (d : fsd) (e : E) (t : tree) (fl dir p : Z) (n : tmpfs_node) (b : body).
Context (Ht : tfs d e t) (Hv : vnode_of d dir p) (Hp : t !! p = Some (ANode n b)).

Lemma refines_refl a rc : dstep (view t) p a rc (view t) -> refines d e t p a rc d e.
Proof using Ht. intros Hs. exists t. split; [by apply step_refl|done]. Qed.

Lemma refines_notdir a : (forall l, b <> BDir l) -> refines d e t p a (not_dir_error a) d e.
Proof using Ht Hp.
  intros Hno. apply refines_refl, ds_notdir. intros m. by apply (view_not_dir t p (ANode n b)).
Qed.

(** [add_new] of the unnamed node [q]. *)
Lemma ev_make name o q a l d1 e1 (Q : Z -> fsd -> E -> Z -> Prop) :
  b = BDir l -> step d e t d1 e1 (<[q := a]> t) -> t !! q = None -> leaf (an_body a) ->
  refs (fs_heap d1) q = 0 -> view_node a = o ->
  (forall rc d' e', rc <> 0 -> refines d e t p (AMake name o) rc d' e' -> Q rc d' e' fl) ->
  (forall d' e' t', step d e t d' e' t' -> is_Some (t' !! q) -> dir_map l !! name = None ->
     view t' = <[p := FDir (<[name := q]> (dir_map l))]> (<[q := o]> (view t)) -> Q 0 d' e' fl) ->
  ev [] (add_new p (Some name) q) Q d1 e1 fl.
Proof using Hp.
  intros -> Hst Hq Hleaf Hr <- Hfail Hok. pose proof (view_is_dir _ _ _ _ Hp) as Hd.
  eapply ev_add_new; [exact Hst|done|done|done|exact Hp|..].
  - intros d' e' Hin Hst'. apply Hfail; [done|]. exists t. split; [done|].
    eapply ds_exists; [exact Hd|done|by apply dir_map_is_Some].
  - intros d' e' Hin Hst'. apply Hfail; [done|]. exists t. split; [done|]. by eapply ds_nomem.
  - intros d' e' t' Hin Hst' Hq' Hview. eapply Hok; [done|done|by apply dir_map_None|done].
Qed.

Lemma refines_made name o q l d' e' t' :
  b = BDir l -> step d e t d' e' t' -> t !! q = None -> dir_map l !! name = None ->
  view t' = <[p := FDir (<[name := q]> (dir_map l))]> (<[q := o]> (view t)) ->
  refines d e t p (AMake name o) 0 d' e'.
Proof using Hp.
  intros -> Hst Hq Hn Hview. exists t'. split; [done|]. rewrite Hview.
  apply ds_make; [by eapply view_is_dir|done|by apply view_none].
Qed.

(** [tmpfs_create] and the vnode it hands out. *)
Definition creates d e t (dir : Z) (name : list Z) (wanted : bool) (r : Z * Z) d' e' : Prop :=
  exists t', step d e t d' e' t' /\ dstep (view t) dir (AMake name (FFile [])) r.1 (view t') /\
    (r.2 = NULL /\ (wanted = true -> r.1 <> 0) \/ r.1 = 0 /\ new_vnode d d' t' r.2).

Lemma ev_create name mode wanted :
  ev [] (tmpfs_create dir (Some name) mode wanted) (fun r d' e' fl' =>
    creates d e t p name wanted r d' e' /\ fl' = fl) d e fl.
Proof using Ht Hv Hp.
  unfold tmpfs_create. destruct (Z.eqb_spec dir NULL) as [->|_]; [by destruct Hv|].
  ev_step. eapply ev_dir_node_of; [done..| |].
  2: { intros Hno. apply ev_ret. split; [|done]. exists t. split; [by apply step_refl|]. split; [|by left].
       by apply (ds_notdir _ _ (AMake name (FFile []))); intros m; apply (view_not_dir t p (ANode n b)). }
  simpl. intros l Hb. ev_step. eapply ev_tmount_of; [done..|]. intros tm m0 mt Htm0 Htm Hmt Hpr.
  ev_step. eapply ev_node_alloc; [done|by left|done..| |].
  { intros e1 Ht1. simpl. apply ev_ret. split; [|done]. exists t. split; [by apply step_same|]. split; [|by left].
    eapply ds_nomem; [|done]. rewrite Hb in Hp. by eapply view_is_dir. }
  intros q k d1 e1 Hq0 Hq Hqf Hty Hptr Hnl Hmnt Hst Hr. destruct (Z.eqb_spec q NULL); [done|].
  ev_step. eapply (ev_make name (FFile [])); [exact Hb|exact Hst|done|done|done|..].
  - unfold view_node, file_bytes. simpl. by rewrite take_nil.
  - intros rc d' e' Hrc (t' & Hst' & Hd). destruct (Z.eqb_spec rc 0); [done|]. simpl. apply ev_ret. split; [|done].
    exists t'. split; [done|]. split; [done|by left].
  - intros d' e' t' Hst' Hq' Hnone Hview. simpl. rewrite Hb in Hp. destruct wanted; simpl.
    2: { apply ev_ret. split; [|done]. exists t'. split; [done|]. split; [|by left]. rewrite Hview. simpl.
         apply ds_make; [by eapply view_is_dir|done|by apply view_none]. }
    destruct Hq' as [a' Ha']. eapply ev_node_to_vnode; [by eapply sp_tfs|exact Ha'|..].
    + intros e2 Ht2. split; [|done]. exists t'. split; [by eapply step_env|]. split; [|by left].
      rewrite Hview. apply ds_make_late; [by eapply view_is_dir|done|by apply view_none].
    + intros v d2 e2 Hst2 [Hv0 _] Hvf (w & Hw & Hfor & Hrc). split; [|done]. exists t'. split; [by eapply step_trans|].
      split; [rewrite Hview; apply ds_make; [by eapply view_is_dir|done|by apply view_none]|]. right. split; [done|].
      split; [done|]. split; [|by exists w, q, a'].
      intros w0 Hw0. destruct (sp_vnode _ _ _ _ _ _ Hst' _ _ Hw0) as (w1 & Hw1 & _). simpl in Hw1. congruence.
Qed.

Lemma create_refines name mode wanted :
  ev [] (run_dop dir (OCreate name mode wanted)) (fun rc d' e' fl' =>
    refines d e t p (AMake name (FFile [])) rc d' e' /\ fl' = fl) d e fl.
Proof using Ht Hv Hp.
  unfold run_dop. ev_step. eapply ev_mono; [apply ev_create|]. intros r d' e' fl' [(t' & Hst & Hd & _) ->].
  apply ev_ret. split; [|done]. by exists t'.
Qed.

Lemma mkdir_refines name mode :
  ev [] (run_dop dir (OMkdir name mode)) (fun rc d' e' fl' =>
    refines d e t p (AMake name (FDir ∅)) rc d' e' /\ fl' = fl) d e fl.
Proof using Ht Hv Hp.
  unfold run_dop, tmpfs_mkdir. destruct (Z.eqb_spec dir NULL) as [->|_]; [by destruct Hv|].
  ev_step. eapply ev_dir_node_of; [done..| |].
  2: { intros Hno. apply ev_ret. split; [by apply (refines_notdir (AMake name (FDir ∅)))|done]. }
  simpl. intros l Hb. ev_step. eapply ev_tmount_of; [done..|]. intros tm m0 mt Htm0 Htm Hmt Hpr.
  ev_step. eapply ev_node_alloc; [done|by right; left|done..| |].
  { intros e1 Ht1. simpl. apply ev_ret. split; [|done]. exists t. split; [by apply step_same|].
    eapply ds_nomem; [|done]. rewrite Hb in Hp. by eapply view_is_dir. }
  intros q k d1 e1 Hq0 Hq Hqf Hty Hptr Hnl Hmnt Hst Hr. destruct (Z.eqb_spec q NULL); [done|].
  eapply (ev_make name (FDir ∅)); [exact Hb|exact Hst|done..| |].
  - by intros rc d' e' _ Href.
  - intros d' e' t' Hst' Hq' Hnone Hview. split; [by eapply refines_made|done].
Qed.

End op.

(** The target of a new symbolic link. *)
Lemma tfs_target d e t q k str y e2 :
  tfs d e t -> t !! q = Some (ANode k (BSym None)) -> 0 < y -> y ∉ al_live e -> al_live e2 = {[y]} ∪ al_live e ->
  refs (fs_heap d) q = 0 ->
  let k' := tn_set_size (strlen str) (tn_set_data y (tn_word k) k) in
  let d' := put_obj q (ONode k') (put_obj y (OStr str) d) in
  tfs d' e2 (<[q := ANode k' (BSym (Some str))]> t) /\ refs (fs_heap d') q = 0 /\
  keeps_vnodes d t d' (<[q := ANode k' (BSym (Some str))]> t).
Proof.
  intros Ht Hq Hy0 Hy Hl Hr k' d'. pose proof (tf_fresh _ _ _ _ Ht Hy) as Hyf.
  destruct Ht as [Hsh Hlk Hrf Hhp Hvh]. destruct (sh_node _ _ Hsh _ _ Hq) as [Hq0 Hhq]. simpl in Hhq.
  destruct (sh_body _ _ Hsh _ _ Hq) as [Hty _]. simpl in Hty.
  assert (Hyq : y <> q) by congruence.
  assert (Hrefs : forall x, refs (fs_heap d') x = refs (fs_heap d) x).
  { intros x. unfold d', put_obj. simpl. rewrite (refs_replace _ _ (ONode k)) by (rewrite lookup_insert_ne; done).
    rewrite refs_put by done. simpl. lia. }
  split; [|split; [by rewrite Hrefs|]].
  - split.
    + unfold d', put_obj. simpl. eapply shape_replace; [done|done|by rewrite lookup_insert_eq|..]; simpl; try done.
      * intros x Hx _ Hxy. rewrite !lookup_insert_ne; [done|set_solver..].
      * intros x ->%list_elem_of_singleton. by right.
      * intros x Hx. by apply elem_of_nil in Hx.
      * split_and!; [done|unfold NULL; lia|]. rewrite lookup_insert_ne by done. by rewrite lookup_insert_eq.
      * apply NoDup_singleton.
    + intros x m. rewrite Hrefs. unfold d', put_obj. simpl. rewrite !lookup_insert_Some.
      intros [[<- [= <-]]|[_ [[_ [=]]|[_ Hx]]]]; [|by apply Hlk]. simpl. by apply Hlk.
    + intros x m. unfold d', put_obj. simpl. rewrite !lookup_insert_Some.
      intros [[_ [=]]|[_ [[_ [=]]|[_ Hx]]]]. rewrite lookup_insert_is_Some'. right. by eapply Hrf.
    + intros x o. unfold d', put_obj. simpl. rewrite !lookup_insert_Some, Hl.
      intros [[<- _]|[_ [[<- _]|[_ Hx]]]]; [destruct (Hhp _ _ Hhq); set_solver|set_solver|].
      destruct (Hhp _ _ Hx). set_solver.
    + done.
  - unfold d', put_obj. split; [|split; [|done]]; simpl.
    + intros v w Hvw. rewrite !lookup_insert_ne; [done|congruence..].
    + apply keeps_node_foot; [apply keeps_put; [apply keeps_put; [done|intros o0; congruence]|]|].
      * intros o0 Ho0. rewrite Hhq in Ho0. injection Ho0 as <-. by intros [].
      * intros x s Hx _ Hin. apply list_elem_of_singleton in Hin. simpl in Hin. congruence.
Qed.


Lemma symlink_refines d e t fl dir p n b name target :
  tfs d e t -> vnode_of d dir p -> t !! p = Some (ANode n b) ->
  ev [] (run_dop dir (OSymlink name target)) (fun rc d' e' fl' =>
    refines d e t p (AMake name (FSym target)) rc d' e' /\ fl' = fl) d e fl.
Proof.
  intros Ht Hv Hp. unfold run_dop, tmpfs_symlink. destruct (Z.eqb_spec dir NULL) as [->|_]; [by destruct Hv|].
  ev_step. eapply ev_dir_node_of; [done..| |].
  2: { intros Hno. apply ev_ret. split; [by eapply (refines_notdir _ _ _ _ _ _ Ht Hp (AMake name (FSym target)))|done]. }
  simpl. intros l Hb. ev_step. eapply ev_tmount_of; [done..|]. intros tm m0 mt Htm0 Htm Hmt Hpr.
  assert (Hnomem : dstep (view t) p (AMake name (FSym target)) (- ENOMEM) (view t)).
  { eapply ds_nomem; [|done]. rewrite Hb in Hp. by eapply view_is_dir. }
  ev_step. eapply ev_node_alloc; [done|by right; right|done..| |].
  { intros e1 Ht1. simpl. apply ev_ret. split; [|done]. exists t. split; [by apply step_same|done]. }
  intros q k d1 e1 Hq0 Hq Hqf Hty Hptr Hnl Hmnt Hst Hr. destruct (Z.eqb_spec q NULL); [done|].
  pose proof (sp_tfs _ _ _ _ _ _ Hst) as Ht1.
  assert (Hq1 : <[q := ANode k (empty_body TMPFS_SYMLINK)]> t !! q = Some (ANode k (BSym None))).
  { by rewrite lookup_insert_eq. }
  destruct (sh_node _ _ (tf_shape _ _ _ Ht1) _ _ Hq1) as [_ Hhq]. simpl in Hhq.
  ev_step. unfold kmalloc_str. apply ev_new.
  { intros e2 He2. simpl. ev_step. eapply ev_upd_node; [exact Hhq|]. ev_step.
    assert (Hsame : put_obj q (ONode (tn_set_data NULL (tn_word k) k)) d1 = d1).
    { unfold put_obj. replace (tn_set_data NULL (tn_word k) k) with k; [|destruct k; simpl in *; by subst].
      rewrite insert_id by done. by destruct d1. }
    rewrite Hsame. eapply ev_node_free; [by eapply tf_env|exact Hq1|done| |done].
    intros d3 e3 Ht3 Hk. apply ev_ret. split; [|done]. exists t. split; [by eapply step_new_del|done]. }
  intros y e2 Hy0 Hy He2. destruct (Z.eqb_spec y NULL) as [->|_]; [unfold NULL in Hy0; lia|].
  pose proof (tf_fresh _ _ _ _ Ht1 Hy) as Hyf.
  destruct (tfs_target _ _ _ q k target y e2 Ht1 Hq1 Hy0 Hy He2 Hr) as (Ht2 & Hr2 & Hk2).
  ev_step. eapply ev_upd_node; [simpl; rewrite lookup_insert_ne by congruence; exact Hhq|].
  eapply (ev_make d e t fl p n b Hp name (FSym target) q
            (ANode (tn_set_size (strlen target) (tn_set_data y (tn_word k) k)) (BSym (Some target))));
    [exact Hb| |done|done|exact Hr2|done|..].
  - rewrite insert_insert_eq in Ht2, Hk2. eapply step_keeps; [exact Hst|exact Ht2|exact Hk2|].
    intros x Hx. rewrite lookup_insert_is_Some'. auto.
  - by intros rc d' e' _ Href.
  - intros d' e' t' Hst' Hq' Hnone Hview. split; [by eapply refines_made|done].
Qed.

Lemma link_refines d e t fl dir p n b name target q :
  tfs d e t -> vnode_of d dir p -> t !! p = Some (ANode n b) -> vnode_of d target q -> is_Some (t !! q) ->
  ev [] (run_dop dir (OLink name target)) (fun rc d' e' fl' =>
    refines d e t p (ALink name q) rc d' e' /\ fl' = fl) d e fl.
Proof.
  intros Ht Hv Hp [Hv0 (w & Hw & Hq)] [a Ha]. unfold run_dop, tmpfs_link.
  destruct (Z.eqb_spec dir NULL) as [->|_]; [by destruct Hv|]. destruct (Z.eqb_spec target NULL); [done|].
  simpl orb. cbn iota. ev_step.
  assert (Hto : forall (Q : Z -> fsd -> E -> Z -> Prop), Q q d e fl -> ev [] (tmpfs_vnode_to_node target) Q d e fl).
  { intros Q HQ. unfold tmpfs_vnode_to_node. destruct (Z.eqb_spec target NULL); [done|]. ev_step.
    eapply ev_the_vnode; [done|]. rewrite Hq. by apply ev_ret. }
  eapply ev_dir_node_of; [done..| |]; simpl.
  2: { intros Hno. ev_step. apply Hto. apply ev_ret.
       split; [by eapply (refines_notdir _ _ _ _ _ _ Ht Hp (ALink name q))|done]. }
  intros l ->. ev_step. apply Hto. pose proof (view_is_dir _ _ _ _ Hp) as Hd.
  destruct (sh_node _ _ (tf_shape _ _ _ Ht) _ _ Ha) as [Hq0 Hhq].
  pose proof (sh_body _ _ (tf_shape _ _ _ Ht) _ _ Ha) as Hba.
  destruct (Z.eqb_spec q NULL); [done|]. ev_step. eapply ev_the_node; [done|].
  destruct (Z.eqb_spec (tn_type (an_node a)) TMPFS_DIR) as [Hdirq|Hnd].
  { apply ev_ret. split; [|done]. apply refines_refl; [done|].
    destruct a as [k [[]|l'|[]]]; simpl in *; destruct Hba as (Hty & _); rewrite Hty in Hdirq; try done.
    eapply ds_link_dir; [exact Hd|by eapply view_is_dir]. }
  apply ev_lock_irq; [set_solver|]. eapply ev_dirent_add; [done|exact Hp|by eauto|..].
  - intros Hin. split; [|done]. apply refines_refl; [done|].
    eapply ds_exists; [exact Hd|done|by apply dir_map_is_Some].
  - intros e1 Hin Ht1. split; [|done]. exists t. split; [by apply step_same|]. by eapply ds_nomem.
  - intros d' e' t' Hin Hst Hview. split; [|done]. exists t'. split; [done|]. rewrite Hview.
    apply ds_link; [exact Hd|by apply dir_map_None|]. intros m. apply (view_not_dir t q a); [done|].
    intros l' Hb. rewrite Hb in Hba. by destruct Hba.
Qed.

Lemma unlink_refines d e t fl dir p n b name :
  tfs d e t -> Z.of_nat (size (fs_heap d)) < 2 ^ 32 -> vnode_of d dir p -> t !! p = Some (ANode n b) ->
  ev [] (run_dop dir (OUnlink name)) (fun rc d' e' fl' =>
    refines d e t p (AUnlink name) rc d' e' /\ fl' = fl) d e fl.
Proof.
  intros Ht Hsz Hv Hp. unfold run_dop, tmpfs_unlink. destruct (Z.eqb_spec dir NULL) as [->|_]; [by destruct Hv|].
  ev_step. eapply ev_dir_node_of; [done..| |]; simpl.
  2: { intros Hno. apply ev_ret. split; [by eapply (refines_notdir _ _ _ _ _ _ Ht Hp (AUnlink name))|done]. }
  intros l ->. pose proof (view_is_dir _ _ _ _ Hp) as Hd.
  apply ev_lock_irq; [set_solver|]. eapply ev_dirent_remove; [done|done|exact Hp|..].
  - intros Hin. split; [|done]. apply refines_refl; [done|]. eapply ds_missing; [exact Hd|done|by apply dir_map_None].
  - intros d' e' t' Hin Hst Hview. split; [|done]. exists t'. split; [done|]. rewrite Hview.
    apply ds_unlink; [exact Hd|by apply dir_map_is_Some].
Qed.

Lemma dir_map_empty l : dir_map l = ∅ -> l = [].
Proof.
  destruct l as [|x l]; [done|]. intros Hm. assert (Hx : dir_map (x :: l) !! de_name x = Some (de_node x)).
  { rewrite dir_map_lookup. simpl. by destruct (names_equal_spec (de_name x) (de_name x)). }
  by rewrite Hm in Hx.
Qed.

Lemma rmdir_refines d e t fl dir p n b name :
  tfs d e t -> Z.of_nat (size (fs_heap d)) < 2 ^ 32 -> vnode_of d dir p -> t !! p = Some (ANode n b) ->
  ev [] (run_dop dir (ORmdir name)) (fun rc d' e' fl' =>
    refines d e t p (ARmdir name) rc d' e' /\ fl' = fl) d e fl.
Proof.
  intros Ht Hsz Hv Hp. unfold run_dop, tmpfs_rmdir. destruct (Z.eqb_spec dir NULL) as [->|_]; [by destruct Hv|].
  pose proof (tf_shape _ _ _ Ht) as Hsh. ev_step. eapply ev_dir_node_of; [done..| |]; simpl.
  2: { intros Hno. apply ev_ret. split; [by eapply (refines_notdir _ _ _ _ _ _ Ht Hp (ARmdir name))|done]. }
  intros l ->. pose proof (view_is_dir _ _ _ _ Hp) as Hd. destruct (sh_body _ _ Hsh _ _ Hp) as (_ & _ & Hc & _).
  apply ev_lock_irq; [set_solver|]. ev_step. eapply ev_dirent_find; [done|exact Hp|].
  destruct (lookup_name name l) as [x|] eqn:Hlook; simpl.
  2: { apply ev_ret. split; [|done]. apply refines_refl; [done|].
       eapply ds_missing; [exact Hd|done|]. by rewrite dir_map_lookup, Hlook. }
  destruct (lookup_name_Some _ _ _ Hlook) as (l1 & l2 & Hl & Hname & _).
  assert (Hx : x ∈ l) by (rewrite Hl, elem_of_app, elem_of_cons; auto). simpl in Hc.
  destruct (chain_elem _ _ _ Hc Hx) as ([nx Hxh] & _ & Hx0 & _).
  destruct (sh_entry _ _ Hsh _ _ _ x Hp Hx) as [a Ha]. destruct (sh_node _ _ Hsh _ _ Ha) as [_ Hha].
  assert (Hm : dir_map l !! name = Some (de_node x)) by (by rewrite dir_map_lookup, Hlook).
  destruct (Z.eqb_spec (de_addr x) NULL) as [|_]; [done|].
  ev_step. eapply ev_the_dirent; [done|]. ev_step. eapply ev_the_node; [done|].
  pose proof (sh_body _ _ Hsh _ _ Ha) as Hba. destruct (Z.eqb_spec (tn_type (an_node a)) TMPFS_DIR) as [Hty|Hty]; simpl.
  2: { apply ev_ret. split; [|done]. apply refines_refl; [done|]. eapply ds_rmdir_file; [exact Hd|exact Hm|].
       intros k. apply (view_not_dir t (de_node x) a); [done|]. intros l' Hb. rewrite Hb in Hba. by destruct Hba. }
  destruct a as [k [[]|l'|[]]]; simpl in Hba, Hty; destruct Hba as (Hty' & Hba); rewrite Hty' in Hty; try done.
  destruct Hba as (_ & Hc' & Hword). simpl in Hha |- *.
  pose proof (chain_fuel _ _ Hc' (sh_nodup _ _ Hsh _ _ Ha)) as Hlen.
  assert (Hcount : tn_word k = Z.of_nat (length l')) by (rewrite Hword; unfold u32; rewrite Z.mod_small; lia).
  rewrite Hcount. destruct (Z.ltb_spec 0 (Z.of_nat (length l'))) as [Hpos|Hzero].
  - apply ev_ret. split; [|done]. apply refines_refl; [done|].
    eapply ds_rmdir_full; [exact Hd|exact Hm|by eapply view_is_dir|]. intros He%dir_map_empty. subst. simpl in *. lia.
  - assert (l' = []) as -> by (destruct l'; simpl in *; [done|lia]).
    eapply ev_dirent_remove; [done|done|exact Hp|..].
    + intros Hno. exfalso. apply Hno. rewrite <- Hname. by apply list_elem_of_fmap_2.
    + intros d' e' t' Hin Hst Hview. split; [|done]. exists t'. split; [done|]. rewrite Hview.
      eapply ds_rmdir; [exact Hd|exact Hm|]. by apply (view_is_dir t _ k []).
Qed.
End thms.
