(* ===== verification/TmpfsFile.v ===== *)
(** * tmpfs: the contents of files

    A file is the first [tn_size] bytes of its buffer.  Reading gives a
    sublist of them; writing at or before the end replaces bytes and extends
    the file; truncating keeps a prefix.  Writing or growing past the end
    exposes whatever the buffer holds there: bytes never written ([None]) or
    bytes the file had before it was shortened. *)

From stdpp Require Import base numbers list gmap.
From S2P Require Import Prelude Spinlock Kernel KLogic VfsPath Fs Tmpfs TmpfsFacts TmpfsDir TmpfsOps.

Lemma refs_dirents h h' p :
  (forall x y, h !! x = Some (ODirent y) <-> h' !! x = Some (ODirent y)) -> refs h' p = refs h p.
Proof.
  intros Ha. unfold refs. do 2 f_equal. apply map_filter_strong_ext. intros x o.
  split; intros [Hr Ho]; (split; [done|]; destruct o; try done; by apply Ha).
Qed.

(** Bytes put into a buffer at an offset. *)
Definition splice (b : list (option Z)) (off : nat) (bytes : list (option Z)) : list (option Z) :=
  take off b ++ bytes ++ drop (off + length bytes) b.

Lemma splice_length b off bytes : (off + length bytes <= length b)%nat -> length (splice b off bytes) = length b.
Proof. intros. unfold splice. rewrite !length_app, length_take, length_drop. lia. Qed.

Lemma splice_nil b off : splice b off [] = b.
Proof. unfold splice. simpl. rewrite Nat.add_0_r. apply take_drop. Qed.

(** The part of a buffer behind an offset, after a splice there. *)
Lemma splice_take b off bytes size :
  (off + length bytes <= length b)%nat ->
  take (Nat.max size (off + length bytes)) (splice b off bytes) =
  take off b ++ bytes ++ drop (off + length bytes) (take size b).
Proof.
  intros Hlen. unfold splice. rewrite take_app, length_take. rewrite (take_ge (take off b)) by (rewrite length_take; lia).
  f_equal. rewrite take_app. rewrite (take_ge bytes) by lia. f_equal.
  rewrite skipn_firstn_comm. f_equal. lia.
Qed.

Section file.
Context {E : Type} `{TimeSource E}.
Implicit Types (d : fsd) (e : E) (t : tree) (fl : Z) (held : list Z).

(** The buffer of a file is replaced. *)
Lemma tfs_file d e t e' p n o n' o' h' :
  tfs d e t -> t !! p = Some (ANode n (BFile o)) -> h' !! p = Some (ONode n') ->
  (forall x, x <> p -> x ∉ body_foot n (BFile o) -> x ∉ body_foot n' (BFile o') -> h' !! x = fs_heap d !! x) ->
  (forall x, x ∈ body_foot n' (BFile o') -> x ∈ body_foot n (BFile o) \/ fs_heap d !! x = None) ->
  (forall x, x ∈ body_foot n (BFile o) -> x ∉ body_foot n' (BFile o') -> h' !! x = None) ->
  body_rep h' n' (BFile o') -> tn_mount n' = tn_mount n -> tn_nlink n' = tn_nlink n ->
  (forall x o, h' !! x = Some o -> 0 < x /\ x ∈ al_live e') ->
  tfs (fs_set_heap h' d) e' (<[p := ANode n' (BFile o')]> t).
Proof.
  intros Ht Hp Hp' Hsame Hfresh Hgone Hb Hm Hnl Hlive. destruct Ht as [Hsh Hlk Hrf Hhp Hvh].
  destruct (sh_node _ _ Hsh _ _ Hp) as [Hp0 Hpn]. simpl in Hpn.
  assert (Hfoot : forall n o h x, body_rep h n (BFile o) -> x ∈ body_foot n (BFile o) -> exists b, h !! x = Some (OBuf b)).
  { intros n1 [b|] h x Hb1 Hx; simpl in Hx; [|by apply elem_of_nil in Hx].
    apply list_elem_of_singleton in Hx as ->. exists b. by destruct Hb1 as (_ & _ & ? & _). }
  assert (Hsym : forall x o, (o = ODirent (default (TDirent 0 0 0) (match o with ODirent y => Some y | _ => None end)) \/
                   exists k, o = ONode k) -> x <> p -> fs_heap d !! x = Some o <-> h' !! x = Some o).
  { intros x o1 Ho1 Hne. destruct (decide (x ∈ body_foot n' (BFile o'))) as [Hin|Hnin].
    - destruct (Hfoot _ _ _ _ Hb Hin) as [b Hxb]. split; intros Hx.
      + destruct (Hfresh _ Hin) as [Hin'|Hnone]; [|congruence].
        destruct (Hfoot _ _ _ _ (sh_body _ _ Hsh _ _ Hp) Hin') as [b' Hxb']. rewrite Hx in Hxb'. injection Hxb' as ->.
        destruct Ho1 as [?|[? ?]]; done.
      + rewrite Hx in Hxb. injection Hxb as ->. destruct Ho1 as [?|[? ?]]; done.
    - destruct (decide (x ∈ body_foot n (BFile o))) as [Hin|Hno]; [|by rewrite Hsame].
      destruct (Hfoot _ _ _ _ (sh_body _ _ Hsh _ _ Hp) Hin) as [b Hxb]. split; intros Hx.
      + rewrite Hx in Hxb. injection Hxb as ->. destruct Ho1 as [?|[? ?]]; done.
      + rewrite Hgone in Hx; done. }
  assert (Hdir : forall x y, fs_heap d !! x = Some (ODirent y) <-> h' !! x = Some (ODirent y)).
  { intros x y. destruct (decide (x = p)) as [->|Hne]; [|apply Hsym; [by left|done]]. split; congruence. }
  split; simpl.
  - eapply shape_replace; [done|done|done|done|done|done|done| |done|done|done].
    destruct o'; simpl; [apply NoDup_singleton|constructor].
  - intros q k Hq. rewrite (refs_dirents _ _ _ Hdir). destruct (decide (q = p)) as [->|Hne].
    + rewrite Hp' in Hq. injection Hq as <-. rewrite Hnl. by apply Hlk.
    + apply Hlk. apply Hsym; [by right; eauto|done|done].
  - intros x y Hx. apply Hdir in Hx. rewrite lookup_insert_is_Some'. right. by eapply Hrf.
  - done.
  - done.
Qed.

Lemma ev_memcpy_from held x off len b (Q : list (option Z) -> fsd -> E -> Z -> Prop) d e fl :
  fs_heap d !! x = Some (OBuf b) -> 0 <= off -> 0 <= len -> off + len <= Z.of_nat (length b) ->
  Q (take (Z.to_nat len) (drop (Z.to_nat off) b)) d e fl -> ev held (memcpy_from x off len) Q d e fl.
Proof.
  intros Hb Ho Hl Hle HQ. unfold memcpy_from. destruct (Z.eqb_spec len 0) as [->|Hne]; [by apply ev_ret|].
  ev_step. eapply ev_the_buf; [done|]. destruct (Z.leb_spec 0 off); [|lia]. destruct (Z.leb_spec 0 len); [|lia].
  destruct (Z.leb_spec (off + len) (Z.of_nat (length b))); [|lia]. simpl. by apply ev_ret.
Qed.

Lemma ev_memcpy_to held x off bytes b (Q : unit -> fsd -> E -> Z -> Prop) d e fl :
  fs_heap d !! x = Some (OBuf b) -> 0 <= off -> off + Z.of_nat (length bytes) <= Z.of_nat (length b) ->
  Q tt (put_obj x (OBuf (splice b (Z.to_nat off) bytes)) d) e fl -> ev held (memcpy_to x off bytes) Q d e fl.
Proof.
  intros Hb Ho Hle HQ. unfold memcpy_to. destruct bytes as [|c bytes].
  - apply ev_ret. rewrite splice_nil in HQ. unfold put_obj in HQ. rewrite insert_id in HQ by done. by destruct d.
  - ev_step. eapply ev_the_buf; [done|]. destruct (Z.leb_spec 0 off); [|lia].
    destruct (Z.leb_spec (off + Z.of_nat (length (c :: bytes))) (Z.of_nat (length b))); [|lia]. simpl andb. cbn iota.
    by apply ev_put.
Qed.

(** ** Reading *)

Lemma ev_file_node held v p n o (Q : Z -> fsd -> E -> Z -> Prop) d e t fl :
  tfs d e t -> vnode_of d v p -> t !! p = Some (ANode n (BFile o)) ->
  Q p d e fl -> ev held (tmpfs_vnode_to_node v) Q d e fl.
Proof.
  intros Ht [Hv0 (w & Hw & Hwp)] Hp HQ. unfold tmpfs_vnode_to_node. destruct (Z.eqb_spec v NULL); [done|].
  ev_step. eapply ev_the_vnode; [done|]. rewrite Hwp. by apply ev_ret.
Qed.

Lemma ev_read v p n o count off (Q : Z * list (option Z) -> fsd -> E -> Z -> Prop) d e t fl :
  tfs d e t -> vnode_of d v p -> t !! p = Some (ANode n (BFile o)) -> 0 <= off -> 0 <= count ->
  (let bytes := take (Z.to_nat count) (drop (Z.to_nat off) (file_bytes n o)) in
   Q (Z.of_nat (length bytes), bytes) d e fl) ->
  ev [] (tmpfs_read v PObj count off) Q d e fl.
Proof.
  intros Ht Hv Hp Ho Hcnt HQ. pose proof (tf_shape _ _ _ Ht) as Hsh.
  destruct (sh_node _ _ Hsh _ _ Hp) as [Hp0 Hpn]. pose proof (sh_body _ _ Hsh _ _ Hp) as Hb. simpl in Hpn, Hb.
  unfold tmpfs_read. destruct (Z.eqb_spec v NULL) as [->|_]; [by destruct Hv|].
  ev_step. eapply ev_file_node; [done..|]. destruct (Z.eqb_spec p NULL); [done|]. ev_step. eapply ev_the_node; [done|].
  assert (Hty : tn_type n = TMPFS_FILE) by (destruct o; by destruct Hb). rewrite Hty. simpl negb. cbn iota.
  apply ev_lock_irq; [set_solver|]. ev_step. eapply ev_the_node; [done|].
  assert (Hsz : 0 <= tn_size n <= Z.of_nat (length (default [] o)) /\ tn_size n < 2 ^ 63).
  { destruct o; simpl in *; [by destruct Hb as (_ & _ & _ & _ & ? & ?)|]. destruct Hb as (_ & _ & _ & ->). lia. }
  destruct Hsz as [Hsz Hmax]. cbv zeta in HQ. unfold file_bytes in HQ.
  destruct (Z.leb_spec (tn_size n) off) as [Hpast|Hin].
  { apply ev_ret. rewrite drop_ge, take_nil in HQ by (rewrite length_take; lia). done. }
  assert (Hav : u64 (tn_size n - off) = tn_size n - off) by (unfold u64; apply Z.mod_small; lia).
  rewrite Hav. set (r := if count <? tn_size n - off then count else tn_size n - off).
  assert (Hr : r = Z.min count (tn_size n - off)) by (unfold r; destruct (Z.ltb_spec count (tn_size n - off)); lia).
  clearbody r.
  destruct o as [b|]; simpl in *; [|destruct Hb as (_ & _ & _ & Hz); lia].
  destruct Hb as (_ & Hptr & Hbuf & _ & _). ev_step.
  assert (Hsub : take (Z.to_nat count) (drop (Z.to_nat off) (take (Z.to_nat (tn_size n)) b)) =
                 take (Z.to_nat r) (drop (Z.to_nat off) b)).
  { rewrite skipn_firstn_comm, take_take. f_equal. lia. }
  rewrite Hsub in HQ. rewrite length_take, length_drop in HQ. rewrite s64_id by lia.
  replace (Z.of_nat (Z.to_nat r `min` (length b - Z.to_nat off))) with r in HQ by lia.
  destruct (Z.eqb_spec (tn_ptr n) NULL); [done|]. simpl. destruct (Z.ltb_spec 0 r).
  - eapply ev_memcpy_from; [done|lia..|]. by apply ev_ret.
  - apply ev_ret. apply ev_ret. assert (r = 0) as Hr0 by lia. rewrite Hr0 in HQ |- *. exact HQ.
Qed.

(** ** Moving to a larger buffer *)

Definition without {A : Type} (x : Z) (o : option A) (h : gmap Z fsobj) : gmap Z fsobj :=
  match o with Some _ => delete x h | None => h end.
Definition freed {A : Type} (x : Z) (o : option A) (s : gset Z) : gset Z :=
  match o with Some _ => s ∖ {[x]} | None => s end.

Section move.
Context (d : fsd) (e : E) (t : tree) (p : Z) (n : tmpfs_node) (o : option (list (option Z))).
Context (Ht : tfs d e t) (Hp : t !! p = Some (ANode n (BFile o))).

Lemma file_facts :
  p <> NULL /\ fs_heap d !! p = Some (ONode n) /\ tn_type n = TMPFS_FILE /\ 0 <= tn_size n < 2 ^ 63 /\
  tn_size n <= Z.of_nat (length (default [] o)) /\ tn_word n = Z.of_nat (length (default [] o)) /\
  match o with Some b => tn_ptr n <> NULL /\ fs_heap d !! tn_ptr n = Some (OBuf b) | None => tn_ptr n = NULL end.
Proof using Ht Hp.
  pose proof (tf_shape _ _ _ Ht) as Hsh. destruct (sh_node _ _ Hsh _ _ Hp) as [Hp0 Hpn].
  pose proof (sh_body _ _ Hsh _ _ Hp) as Hb. destruct o as [b|]; simpl in *.
  - destruct Hb as (? & ? & ? & ? & ? & ?). split_and!; try done; lia.
  - destruct Hb as (? & ? & Hw & Hz). rewrite Hw, Hz. split_and!; done.
Qed.

Lemma file_bytes_length : Z.of_nat (length (file_bytes n o)) = tn_size n.
Proof using Ht Hp. destruct file_facts as (_ & _ & _ & ? & ? & _). unfold file_bytes. rewrite length_take. lia. Qed.

(** The node and its buffer change; a new buffer was free. *)
Lemma keeps_without h' : keeps (fs_heap d) t h' t -> keeps (fs_heap d) t (without (tn_ptr n) o h') t.
Proof using Ht Hp.
  intros Hk. destruct file_facts as (_ & _ & _ & _ & _ & _ & Hptr). destruct o as [b|]; simpl; [|done].
  apply keeps_del; [done|]. intros o0 Ho0. destruct Hptr as [_ Hb]. rewrite Hb in Ho0. injection Ho0 as <-. by intros [].
Qed.

Lemma keeps_node h' n' o' :
  keeps (fs_heap d) t h' t -> (forall str, fs_heap d !! tn_ptr n' <> Some (OStr str)) ->
  keeps (fs_heap d) t (<[p := ONode n']> h') (<[p := ANode n' (BFile o')]> t).
Proof using Ht Hp.
  intros Hk Hf. destruct file_facts as (_ & Hpn & _). apply keeps_node_foot; [apply keeps_put; [done|]|].
  - intros o0 Ho0. rewrite Hpn in Ho0. injection Ho0 as <-. by intros [].
  - intros x str Hx _. destruct o'; simpl; [|apply not_elem_of_nil]. intros ->%list_elem_of_singleton. by apply (Hf str).
Qed.

Lemma step_moved y cap fb e' :
  fs_heap d !! y = None -> 0 < y -> y ∉ al_live e -> Z.of_nat (length fb) = cap -> tn_size n <= cap ->
  al_live e' = freed (tn_ptr n) o ({[y]} ∪ al_live e) ->
  step d e t
    (fs_set_heap (<[p := ONode (tn_set_data y cap n)]> (without (tn_ptr n) o (<[y := OBuf fb]> (fs_heap d)))) d)
    e' (<[p := ANode (tn_set_data y cap n) (BFile (Some fb))]> t).
Proof using Ht Hp.
  intros Hyf Hy0 Hyl Hcap Hsize Hl. destruct file_facts as (Hp0 & Hpn & Hty & Hsz & Hle & Hw & Hptr).
  assert (Hpy : p <> y) by congruence.
  assert (Hxy : forall b, o = Some b -> tn_ptr n <> y /\ tn_ptr n <> p) by (intros b ->; destruct Hptr; split; congruence).
  assert (Hlook : forall z, without (tn_ptr n) o (<[y := OBuf fb]> (fs_heap d)) !! z =
            if decide (z ∈ body_foot n (BFile o)) then None else if decide (z = y) then Some (OBuf fb) else fs_heap d !! z).
  { intros z. destruct o as [b|]; cbn [without body_foot].
    - destruct (Hxy b eq_refl) as [Hne _]. destruct (decide (z ∈ [tn_ptr n])) as [->%list_elem_of_singleton|Hz].
      + by rewrite lookup_delete_eq.
      + rewrite lookup_delete_ne by set_solver. case_decide; subst; [by rewrite lookup_insert_eq|by rewrite lookup_insert_ne].
    - rewrite decide_False by apply not_elem_of_nil.
      case_decide; subst; [by rewrite lookup_insert_eq|by rewrite lookup_insert_ne]. }
  assert (Hynb : y ∉ body_foot n (BFile o)).
  { destruct o as [b|]; simpl; [|apply not_elem_of_nil]. destruct (Hxy b eq_refl). set_solver. }
  apply step_heap.
  - eapply (tfs_file d e t); [done|done|by rewrite lookup_insert_eq|..]; simpl body_foot.
    + intros z Hzp Hz Hzy. rewrite lookup_insert_ne, Hlook by done. rewrite decide_False by done.
      rewrite decide_False; [done|set_solver].
    + intros z ->%list_elem_of_singleton. by right.
    + intros z Hz Hzy. rewrite lookup_insert_ne, Hlook; [by rewrite decide_True|].
      intros <-. destruct o; [|by apply elem_of_nil in Hz]. apply list_elem_of_singleton in Hz. by destruct (Hxy _ eq_refl).
    + simpl. split_and!; [done|unfold NULL; lia| |done|lia..].
      rewrite lookup_insert_ne, Hlook by done. by rewrite decide_False, decide_True.
    + done.
    + done.
    + intros z o' Hz. rewrite Hl. apply lookup_insert_Some in Hz as [[<- _]|[_ Hz]].
      * destruct (tf_heap _ _ _ Ht _ _ Hpn). split; [done|]. destruct o as [b|]; simpl; [|set_solver].
        destruct (Hxy b eq_refl). set_solver.
      * rewrite Hlook in Hz. destruct (decide (z ∈ body_foot n (BFile o))) as [|Hnz]; [done|].
        assert (Hz' : 0 < z /\ z ∈ {[y]} ∪ al_live e).
        { destruct (decide (z = y)) as [->|]; [set_solver|]. destruct (tf_heap _ _ _ Ht _ _ Hz). set_solver. }
        destruct o as [b|]; simpl in *; set_solver.
  - intros v w Hv. rewrite lookup_insert_ne, Hlook by congruence. rewrite decide_False.
    + rewrite decide_False; [done|congruence].
    + destruct o as [b|]; simpl; [|apply not_elem_of_nil]. destruct Hptr. intros ->%list_elem_of_singleton. congruence.
  - intros q Hq. rewrite lookup_insert_is_Some'. auto.
  - apply keeps_node; [|intros str; simpl; congruence]. apply keeps_without, keeps_put; [done|intros o0; congruence].
Qed.

(** [move_data] copies the file into the new buffer and frees the old one. *)
Lemma ev_move_data {X : Type} held y b0 k (Q : X -> fsd -> E -> Z -> Prop) e1 fl :
  fs_heap d !! y = None -> al_live e1 = {[y]} ∪ al_live e -> tn_size n <= Z.of_nat (length b0) ->
  (forall e2, al_live e2 = freed (tn_ptr n) o ({[y]} ∪ al_live e) ->
     ev held k Q (fs_set_heap (without (tn_ptr n) o
       (<[y := OBuf (splice b0 0 (file_bytes n o))]> (fs_heap d))) d) e2 fl) ->
  ev held (move_data n y ;;; k) Q (put_obj y (OBuf b0) d) e1 fl.
Proof using Ht Hp.
  intros Hyf He1 Hlen HQ. destruct file_facts as (Hp0 & Hpn & Hty & Hsz & Hle & Hw & Hptr).
  unfold move_data. ev_step. destruct o as [b|]; simpl in *.
  - destruct Hptr as [Hx0 Hx]. destruct (Z.eqb_spec (tn_ptr n) NULL); [done|].
    assert (Hxy : tn_ptr n <> y) by congruence. destruct (tf_heap _ _ _ Ht _ _ Hx) as [_ Hxl].
    ev_step. eapply ev_memcpy_from; [simpl; by rewrite lookup_insert_ne|lia..|].
    ev_step. eapply ev_memcpy_to; [simpl; by rewrite lookup_insert_eq|lia|rewrite length_take; simpl; lia|].
    eapply ev_free; [simpl; rewrite !lookup_insert_ne by done; done|rewrite He1; set_solver|].
    intros e2 He2. revert HQ. unfold del_obj, put_obj, file_bytes. simpl. rewrite insert_insert_eq. intros HQ.
    apply HQ. by rewrite He2, He1.
  - destruct (Z.eqb_spec (tn_ptr n) NULL); [|done]. apply ev_ret. revert HQ. unfold file_bytes. simpl.
    rewrite take_nil, splice_nil. intros HQ. by apply HQ.
Qed.
End move.

(** The node is where it was while its data moves. *)
Lemma moved_node d e t p n o y b :
  tfs d e t -> t !! p = Some (ANode n (BFile o)) -> fs_heap d !! y = None ->
  without (tn_ptr n) o (<[y := OBuf b]> (fs_heap d)) !! p = Some (ONode n).
Proof.
  intros Ht Hp Hy. destruct (file_facts _ _ _ _ _ _ Ht Hp) as (_ & Hpn & _ & _ & _ & _ & Hptr).
  destruct o as [b'|]; simpl; [destruct Hptr; rewrite lookup_delete_ne by congruence|];
    (rewrite lookup_insert_ne; [done|congruence]).
Qed.

Lemma splice_front b0 old : (length old <= length b0)%nat -> splice b0 0 old = old ++ drop (length old) b0.
Proof. done. Qed.

Lemma file_bytes_moved y cap n (old rest : list (option Z)) :
  Z.of_nat (length old) = tn_size n -> file_bytes (tn_set_data y cap n) (Some (old ++ rest)) = old.
Proof. intros Hl. unfold file_bytes. simpl. rewrite take_app_length'; [done|lia]. Qed.

(** What [write_room] and [truncate_room] leave: the same file in a buffer of
    at least [need] bytes. *)
Definition roomy d e t p n o need d1 e1 n1 o1 : Prop :=
  step d e t d1 e1 (<[p := ANode n1 (BFile o1)]> t) /\ need <= tn_word n1 /\ tn_size n1 = tn_size n /\
  file_bytes n1 o1 = file_bytes n o.

Lemma roomy_same d e t p n o need :
  tfs d e t -> t !! p = Some (ANode n (BFile o)) -> need <= tn_word n -> roomy d e t p n o need d e n o.
Proof. intros Ht Hp Hle. split; [|done]. rewrite insert_id by done. by apply step_refl. Qed.

Lemma ev_write_room held p n o need (Q : bool -> fsd -> E -> Z -> Prop) d e t fl :
  tfs d e t -> t !! p = Some (ANode n (BFile o)) -> 0 <= need < 2 ^ 63 ->
  (forall e', tfs d e' t -> Q false d e' fl) ->
  (forall d1 e1 n1 o1, roomy d e t p n o need d1 e1 n1 o1 -> Q true d1 e1 fl) ->
  ev held (write_room p n need) Q d e fl.
Proof.
  intros Ht Hp Hneed Hno Hyes. destruct (file_facts _ _ _ _ _ _ Ht Hp) as (Hp0 & Hpn & _ & Hsz & Hle & Hw & Hptr).
  pose proof (file_bytes_length _ _ _ _ _ _ Ht Hp) as Hfb.
  unfold write_room. destruct (Z.ltb_spec (tn_word n) need) as [Hlt|Hge]; [|by apply ev_ret, (Hyes d e n o), roomy_same].
  assert (Hcap : u64 (need * 2) = need * 2) by (unfold u64; apply Z.mod_small; lia). rewrite Hcap.
  ev_step. unfold kmalloc_buf. apply ev_new.
  { intros e1 He1. simpl. apply ev_ret, Hno. by eapply tf_env. }
  intros y e1 Hy0 Hy He1. destruct (Z.eqb_spec y NULL) as [->|_]; [unfold NULL in Hy0; lia|].
  pose proof (tf_fresh _ _ _ _ Ht Hy) as Hyf. set (b0 := replicate (Z.to_nat (need * 2)) None).
  assert (Hb0 : Z.of_nat (length b0) = need * 2) by (unfold b0; rewrite length_replicate; lia).
  eapply (ev_move_data d e t p n o Ht Hp); [done|done|lia|]. intros e2 He2.
  set (fb := splice b0 0 (file_bytes n o)).
  assert (Hfbl : Z.of_nat (length fb) = need * 2) by (unfold fb; rewrite splice_length; lia).
  pose proof (step_moved d e t p n o Ht Hp y (need * 2) fb e2 Hyf Hy0 Hy Hfbl ltac:(lia) He2) as Hst.
  ev_step. eapply ev_upd_node.
  { by apply (moved_node d e t p n o). }
  apply ev_ret. eapply Hyes. split; [exact Hst|]. split; [simpl; lia|]. split; [done|].
  unfold fb. rewrite splice_front by lia. by apply file_bytes_moved.
Qed.

Lemma ev_truncate_room held p n o need (Q : bool -> fsd -> E -> Z -> Prop) d e t fl :
  tfs d e t -> t !! p = Some (ANode n (BFile o)) -> tn_size n <= need < 2 ^ 63 ->
  (forall e', tfs d e' t -> Q false d e' fl) ->
  (forall d1 e1 n1 o1, roomy d e t p n o need d1 e1 n1 o1 ->
     (tn_word n < need -> o1 = Some (file_bytes n o ++ replicate (Z.to_nat (need - tn_size n)) (Some 0))) -> Q true d1 e1 fl) ->
  ev held (truncate_room p n need) Q d e fl.
Proof.
  intros Ht Hp Hneed Hno Hyes. destruct (file_facts _ _ _ _ _ _ Ht Hp) as (Hp0 & Hpn & _ & Hsz & Hle & Hw & Hptr).
  pose proof (file_bytes_length _ _ _ _ _ _ Ht Hp) as Hfb.
  unfold truncate_room. destruct (Z.ltb_spec (tn_word n) need) as [Hlt|Hge].
  2: { apply ev_ret, (Hyes d e n o); [by apply roomy_same|lia]. }
  ev_step. unfold kmalloc_buf. apply ev_new.
  { intros e1 He1. simpl. apply ev_ret, Hno. by eapply tf_env. }
  intros y e1 Hy0 Hy He1. destruct (Z.eqb_spec y NULL) as [->|_]; [unfold NULL in Hy0; lia|].
  pose proof (tf_fresh _ _ _ _ Ht Hy) as Hyf. set (b0 := replicate (Z.to_nat need) None).
  assert (Hb0 : Z.of_nat (length b0) = need) by (unfold b0; rewrite length_replicate; lia).
  eapply (ev_move_data d e t p n o Ht Hp); [done|done|lia|]. intros e2 He2.
  set (zeros := replicate (Z.to_nat (need - tn_size n)) (Some 0)).
  assert (Hz : Z.of_nat (length zeros) = need - tn_size n) by (unfold zeros; rewrite length_replicate; lia).
  assert (Hxy : tn_ptr n <> y \/ o = None) by (destruct o as [b|]; [left; destruct Hptr; congruence|by right]).
  ev_step. eapply ev_memcpy_to; [simpl; destruct o; simpl in *; rewrite ?lookup_delete_ne by naive_solver; by rewrite lookup_insert_eq|lia|rewrite splice_length by lia; lia|].
  set (fb := splice (splice b0 0 (file_bytes n o)) (Z.to_nat (tn_size n)) zeros).
  assert (Hfbeq : fb = file_bytes n o ++ zeros).
  { unfold fb. unfold splice at 1. rewrite splice_front by lia. rewrite take_app_length' by lia. f_equal.
    rewrite drop_ge; [by rewrite app_nil_r|]. rewrite length_app, length_drop. lia. }
  assert (Hfbl : Z.of_nat (length fb) = need) by (rewrite Hfbeq, length_app; lia).
  pose proof (step_moved d e t p n o Ht Hp y need fb e2 Hyf Hy0 Hy Hfbl ltac:(lia) He2) as Hst.
  assert (Hheap : put_obj y (OBuf fb) (fs_set_heap (without (tn_ptr n) o (<[y := OBuf (splice b0 0 (file_bytes n o))]> (fs_heap d))) d)
                = fs_set_heap (without (tn_ptr n) o (<[y := OBuf fb]> (fs_heap d))) d).
  { unfold put_obj. simpl. destruct o; simpl in *; [|by rewrite insert_insert_eq].
    rewrite <- delete_insert_ne by naive_solver. by rewrite insert_insert_eq. }
  rewrite Hheap. ev_step. eapply ev_upd_node; [by apply (moved_node d e t p n o)|].
  apply ev_ret. eapply Hyes.
  - split; [exact Hst|]. split; [simpl; lia|]. split; [done|]. rewrite Hfbeq. by apply file_bytes_moved.
  - intros _. by rewrite Hfbeq.
Qed.

(** ** Writing *)

Lemma step_vsize d e t d1 e1 t1 v w k :
  step d e t d1 e1 t1 -> fs_heap d1 !! v = Some (OVnode w) ->
  step d e t (put_obj v (OVnode (v_set_size k w)) d1) e1 t1.
Proof.
  intros [Ht Hvn Hn Hkp Hst Hvt] Hv. destruct (tf_heap _ _ _ Ht _ _ Hv) as [Hv0 Hvl].
  split; [|intros x w0 Hx|done| |done|].
  - apply (tfs_put_vnode d1 e1); [done..| |done|done]. intros o Ho. rewrite Hv in Ho. injection Ho as <-. by eexists.
  - destruct (Hvn _ _ Hx) as (w' & Hw' & Hpr). simpl. destruct (decide (x = v)) as [->|Hne].
    + rewrite Hv in Hw'. injection Hw' as <-. exists (v_set_size k w). rewrite lookup_insert_eq. split; [done|by etrans].
    + exists w'. by rewrite lookup_insert_ne.
  - eapply keeps_trans; [exact Hkp|]. simpl. apply keeps_put; [done|].
    intros o0 Ho0. rewrite Hv in Ho0. injection Ho0 as <-. by intros [].
  - intros Hvt0. eapply (vtable_mono d1); [done| |by apply Hvt]. intros x w0 Hx. simpl.
    destruct (decide (x = v)) as [->|Hne].
    + rewrite Hv in Hx. injection Hx as <-. exists (v_set_size k w). by rewrite lookup_insert_eq.
    + exists w0. by rewrite lookup_insert_ne.
Qed.

(** Bytes and size of a file change in place. *)
Lemma step_written d e t p n x b b' k :
  tfs d e t -> t !! p = Some (ANode n (BFile (Some b))) -> tn_ptr n = x -> length b' = length b ->
  0 <= k <= Z.of_nat (length b) -> k < 2 ^ 63 ->
  step d e t (put_obj p (ONode (tn_set_size k n)) (put_obj x (OBuf b') d)) e
    (<[p := ANode (tn_set_size k n) (BFile (Some b'))]> t).
Proof.
  intros Ht Hp <- Hlen Hk Hmax. destruct (file_facts _ _ _ _ _ _ Ht Hp) as (Hp0 & Hpn & Hty & _ & _ & Hw & Hx0 & Hx).
  assert (Hxp : tn_ptr n <> p) by congruence. simpl in Hw.
  unfold put_obj. simpl. change (fs_set_heap ?h (fs_set_heap _ d)) with (fs_set_heap h d). apply step_heap.
  - eapply (tfs_file d e t); [done|done|by rewrite lookup_insert_eq|..]; simpl body_foot.
    + intros z Hz Hzx _. rewrite !lookup_insert_ne; [done|set_solver..].
    + auto.
    + done.
    + simpl. rewrite lookup_insert_ne by done. rewrite lookup_insert_eq, Hlen. done.
    + done.
    + done.
    + intros z o. rewrite !lookup_insert_Some. intros [[<- _]|[_ [[<- _]|[_ Hz]]]]; by eapply (tf_heap _ _ _ Ht).
  - intros v w Hv. rewrite !lookup_insert_ne; [done|congruence..].
  - intros q Hq. rewrite lookup_insert_is_Some'. auto.
  - eapply keeps_node; [done|done| |intros str; simpl; congruence].
    apply keeps_put; [done|]. intros o0 Ho0. rewrite Hx in Ho0. injection Ho0 as <-. by intros [].
Qed.

(** The bytes of a file after a write; [hole] is what lies between its old end
    and the offset. *)
Definition written (old : list (option Z)) (off : nat) (bytes : list Z) (hole : list (option Z)) : list (option Z) :=
  take off (old ++ hole) ++ (Some <$> bytes) ++ drop (off + length bytes) old.

Lemma take_split (b : list (option Z)) size off :
  (size <= length b)%nat -> (off <= length b)%nat ->
  take off b = take off (take size b ++ take (off - size) (drop size b)).
Proof.
  intros H1 H2. rewrite take_app, length_take, Nat.min_l by lia. rewrite !take_take, Nat.min_id.
  destruct (decide (off <= size)%nat).
  - replace (off - size)%nat with 0%nat by lia. rewrite take_0, app_nil_r. f_equal. lia.
  - rewrite Nat.min_r by lia. rewrite <- (take_drop size (take off b)) at 1.
    rewrite take_take, skipn_firstn_comm. f_equal. f_equal. lia.
Qed.

Lemma ev_write v p n o bytes off (Q : Z -> fsd -> E -> Z -> Prop) d e t fl :
  tfs d e t -> vnode_of d v p -> t !! p = Some (ANode n (BFile o)) -> 0 <= off ->
  off + Z.of_nat (length bytes) < 2 ^ 63 ->
  (forall e', tfs d e' t -> Q (- ENOMEM) d e' fl) ->
  (forall d' e' t' hole, step d e t d' e' t' ->
     Z.of_nat (length hole) = Z.max 0 (off - Z.of_nat (length (file_bytes n o))) ->
     view t' = <[p := FFile (written (file_bytes n o) (Z.to_nat off) bytes hole)]> (view t) ->
     Q (Z.of_nat (length bytes)) d' e' fl) ->
  ev [] (tmpfs_write v (Some bytes) off) Q d e fl.
Proof.
  intros Ht Hv Hp Ho Hmax Hno Hyes. destruct (file_facts _ _ _ _ _ _ Ht Hp) as (Hp0 & Hpn & Hty & Hsz & _).
  pose proof (file_bytes_length _ _ _ _ _ _ Ht Hp) as Hfb.
  unfold tmpfs_write. destruct (Z.eqb_spec v NULL) as [->|_]; [by destruct Hv|].
  ev_step. eapply ev_file_node; [done..|]. destruct (Z.eqb_spec p NULL); [done|]. ev_step. eapply ev_the_node; [done|].
  rewrite Hty. simpl negb. cbn iota. apply ev_lock_irq; [set_solver|]. ev_step. eapply ev_the_node; [done|].
  set (need := off + Z.of_nat (length bytes)) in *.
  assert (Hu : u64 need = need) by (unfold u64; apply Z.mod_small; lia). rewrite Hu.
  assert (Hs : s64 need = need) by (apply s64_id; lia). rewrite Hs.
  ev_step. eapply ev_write_room; [done|done|lia|..].
  { intros e1 Ht1. simpl. by apply ev_ret, Hno. }
  intros d1 e1 n1 o1 (Hst1 & Hneed & Hsize & Hbytes). simpl negb. cbn iota.
  pose proof (sp_tfs _ _ _ _ _ _ Hst1) as Ht1. set (t1 := <[p := ANode n1 (BFile o1)]> t) in *.
  assert (Hp1 : t1 !! p = Some (ANode n1 (BFile o1))) by (unfold t1; by rewrite lookup_insert_eq).
  destruct (file_facts _ _ _ _ _ _ Ht1 Hp1) as (_ & Hpn1 & _ & Hsz1 & Hle1 & Hw1 & Hptr1).
  ev_step. eapply ev_the_node; [done|]. ev_step.
  rewrite (s64_id (Z.of_nat (length bytes))) by lia.
  assert (Hview1 : forall a, view (<[p := a]> t1) = <[p := view_node a]> (view t)).
  { intros a. unfold t1. by rewrite insert_insert_eq, view_insert. }
  destruct o1 as [b|]; simpl in Hw1, Hle1, Hptr1.
  2: { assert (Hz : bytes = [] /\ off = 0) 
         by (unfold need in *; destruct bytes; simpl in *; [split; [done|lia]|lia]).
       destruct Hz as [-> ->]. simpl. apply ev_ret. ev_step.
       destruct (Z.ltb_spec (tn_size n1) need) as [?|_]; [unfold need in *; simpl in *; lia|]. apply ev_ret, ev_ret.
       apply (Hyes d1 e1 t1 []); [done|simpl; lia|]. unfold t1. rewrite view_insert. f_equal. unfold view_node. simpl.
       by rewrite Hbytes. }
  destruct Hptr1 as [Hx0 Hx]. rewrite <- Hbytes in Hyes, Hfb. rewrite Hsize in *.
  eapply ev_memcpy_to; [exact Hx|lia|rewrite length_fmap; lia|].
  set (b' := splice b (Z.to_nat off) (Some <$> bytes)).
  assert (Hb' : length b' = length b) by (unfold b'; apply splice_length; rewrite length_fmap; lia).
  pose proof (step_written d1 e1 t1 p n1 _ b b' (Z.max (tn_size n) need) Ht1 Hp1 eq_refl Hb' ltac:(lia) ltac:(lia)) as Hst2.
  assert (Hview : view (<[p := ANode (tn_set_size (Z.max (tn_size n) need) n1) (BFile (Some b'))]> t1) =
    <[p := FFile (written (file_bytes n1 (Some b)) (Z.to_nat off) bytes (take (Z.to_nat off - Z.to_nat (tn_size n)) (drop (Z.to_nat (tn_size n)) b)))]> (view t)).
  { rewrite Hview1. f_equal. unfold view_node, file_bytes, written. simpl. f_equal. unfold b'.
    replace (Z.to_nat (Z.max (tn_size n) need)) with (Nat.max (Z.to_nat (tn_size n)) (Z.to_nat off + length (Some <$> bytes)))
      by (rewrite length_fmap; lia).
    rewrite splice_take by (rewrite length_fmap; lia). rewrite Hsize, length_fmap. f_equal. apply take_split; lia. }
  pose proof (step_trans _ _ _ _ _ _ _ _ _ Hst1 Hst2) as Hst.
  assert (Hhole : Z.of_nat (length (take (Z.to_nat off - Z.to_nat (tn_size n)) (drop (Z.to_nat (tn_size n)) b))) =
                  Z.max 0 (off - Z.of_nat (length (file_bytes n1 (Some b))))).
  { rewrite length_take, length_drop, Hfb. lia. }
  ev_step. destruct (Z.ltb_spec (tn_size n) need) as [Hlt|Hge].
  - rewrite Z.max_r in Hst, Hview by lia. ev_step.
    eapply ev_upd_node; [simpl; rewrite lookup_insert_ne by congruence; done|].
    destruct (step_vnode_of _ _ _ _ _ _ _ _ Hst Hv) as [_ (w & Hw & _)].
    eapply ev_upd_vnode; [exact Hw|]. apply ev_ret.
    eapply Hyes; [by eapply step_vsize|exact Hhole|exact Hview].
  - rewrite Z.max_l in Hst, Hview by lia. apply ev_ret, ev_ret. eapply Hyes; [|exact Hhole|exact Hview].
    replace (put_obj (tn_ptr n1) (OBuf b') d1) with
      (put_obj p (ONode (tn_set_size (tn_size n) n1)) (put_obj (tn_ptr n1) (OBuf b') d1)); [done|].
    unfold put_obj. simpl. replace (tn_set_size (tn_size n) n1) with n1 by (destruct n1; simpl in *; by subst).
    rewrite insert_id; [done|]. rewrite lookup_insert_ne by congruence. done.
Qed.

(** ** Truncating *)

(** The last step of [tmpfs_truncate]: the vnode gets the size of the node. *)
Lemma ev_truncate_done v p n1 b1 (Q : Z -> fsd -> E -> Z -> Prop) d e t d1 e1 t1 fl held :
  vnode_of d v p -> step d e t d1 e1 t1 -> t1 !! p = Some (ANode n1 b1) ->
  (forall d', step d e t d' e1 t1 -> Q 0 d' e1 fl) ->
  ev held (n <- the_node p ;; upd_vnode v (v_set_size (tn_size n)) ;;; ret 0) Q d1 e1 fl.
Proof.
  intros Hv Hst Hp HQ. destruct (sh_node _ _ (tf_shape _ _ _ (sp_tfs _ _ _ _ _ _ Hst)) _ _ Hp) as [_ Hpn].
  ev_step. eapply ev_the_node; [done|]. ev_step.
  destruct (step_vnode_of _ _ _ _ _ _ _ _ Hst Hv) as [_ (w & Hw & _)].
  eapply ev_upd_vnode; [exact Hw|]. apply ev_ret, HQ. by apply step_vsize.
Qed.

(** The buffer of a file is freed. *)
Lemma step_emptied d e t p n o e' :
  tfs d e t -> t !! p = Some (ANode n (BFile o)) -> al_live e' = freed (tn_ptr n) o (al_live e) ->
  let n' := tn_set_size 0 (tn_set_data NULL 0 n) in
  step d e t (put_obj p (ONode n') (fs_set_heap (without (tn_ptr n) o (fs_heap d)) d)) e'
    (<[p := ANode n' (BFile None)]> t).
Proof.
  intros Ht Hp Hl n'. destruct (file_facts _ _ _ _ _ _ Ht Hp) as (Hp0 & Hpn & Hty & _ & _ & _ & Hptr).
  assert (Hlook : forall z, without (tn_ptr n) o (fs_heap d) !! z =
            if decide (z ∈ body_foot n (BFile o)) then None else fs_heap d !! z).
  { intros z. destruct o as [b|]; cbn [without body_foot].
    - destruct (decide (z ∈ [tn_ptr n])) as [->%list_elem_of_singleton|Hz]; [by rewrite lookup_delete_eq|].
      rewrite lookup_delete_ne by set_solver. done.
    - by rewrite decide_False by apply not_elem_of_nil. }
  assert (Hpx : p ∉ body_foot n (BFile o)).
  { destruct o; simpl; [|apply not_elem_of_nil]. destruct Hptr. intros ->%list_elem_of_singleton. congruence. }
  unfold put_obj. change (fs_set_heap ?h (fs_set_heap _ d)) with (fs_set_heap h d). apply step_heap; simpl.
  - eapply (tfs_file d e t); [done|done|by rewrite lookup_insert_eq|..].
    + intros z Hz Hzx _. rewrite lookup_insert_ne, Hlook by done. by rewrite decide_False.
    + intros z Hz. by apply elem_of_nil in Hz.
    + intros z Hz _. rewrite lookup_insert_ne, Hlook by (intros ->; done). by rewrite decide_True.
    + done.
    + done.
    + done.
    + intros z o1. rewrite lookup_insert_Some, Hl, Hlook. intros Hz.
      assert (z ∉ body_foot n (BFile o) /\ exists o2, fs_heap d !! z = Some o2) as [Hzx [o2 Ho2]].
      { destruct Hz as [[<- _]|[_ Hz]]; [by eauto|]. case_decide; [done|by eauto]. }
      destruct (tf_heap _ _ _ Ht _ _ Ho2). split; [done|]. destruct o; simpl in *; set_solver.
  - intros v w Hv. rewrite lookup_insert_ne, Hlook by congruence. rewrite decide_False; [done|].
    destruct o; simpl; [|apply not_elem_of_nil]. destruct Hptr. intros ->%list_elem_of_singleton. congruence.
  - intros q Hq. rewrite lookup_insert_is_Some'. auto.
  - eapply keeps_node; [done|done|by eapply keeps_without|].
    intros str Hs. destruct (tf_heap _ _ _ Ht _ _ Hs) as [Hs0 _]. simpl in Hs0. unfold NULL in Hs0. lia.
Qed.

Lemma take_split_eq (b : list (option Z)) size len :
  0 <= size <= len -> len <= Z.of_nat (length b) ->
  take (Z.to_nat len) b =
  take (Z.to_nat len) (take (Z.to_nat size) b ++ take (Z.to_nat (len - size)) (drop (Z.to_nat size) b)).
Proof.
  intros H1 H2. rewrite (take_split b (Z.to_nat size) (Z.to_nat len)) by lia.
  do 3 f_equal. lia.
Qed.

(** The bytes of a file after it is cut or extended to [len] bytes. *)
Definition resized (old : list (option Z)) (len : nat) (fill : list (option Z)) : list (option Z) := take len (old ++ fill).

Lemma ev_truncate v p n o len (Q : Z -> fsd -> E -> Z -> Prop) d e t fl :
  tfs d e t -> vnode_of d v p -> t !! p = Some (ANode n (BFile o)) -> 0 <= len < 2 ^ 63 ->
  (forall e', tfs d e' t -> Q (- ENOMEM) d e' fl) ->
  (forall d' e' t' fill, step d e t d' e' t' ->
     Z.of_nat (length fill) = Z.max 0 (len - Z.of_nat (length (file_bytes n o))) ->
     (tn_word n < len -> fill = replicate (Z.to_nat (len - tn_size n)) (Some 0)) ->
     view t' = <[p := FFile (resized (file_bytes n o) (Z.to_nat len) fill)]> (view t) ->
     Q 0 d' e' fl) ->
  ev [] (tmpfs_truncate v len) Q d e fl.
Proof.
  intros Ht Hv Hp Hlen Hno Hyes. destruct (file_facts _ _ _ _ _ _ Ht Hp) as (Hp0 & Hpn & Hty & Hsz & Hle & Hw & Hptr).
  pose proof (file_bytes_length _ _ _ _ _ _ Ht Hp) as Hfb.
  unfold tmpfs_truncate. destruct (Z.eqb_spec v NULL) as [->|_]; [by destruct Hv|].
  destruct (Z.ltb_spec len 0); [lia|]. simpl orb. cbn iota.
  ev_step. eapply ev_file_node; [done..|]. destruct (Z.eqb_spec p NULL); [done|]. ev_step. eapply ev_the_node; [done|].
  rewrite Hty. simpl negb. cbn iota. apply ev_lock_irq; [set_solver|]. ev_step. eapply ev_the_node; [done|]. ev_step.
  assert (Hu : u64 (tn_size n) = tn_size n) by (unfold u64; apply Z.mod_small; lia). rewrite Hu.
  destruct (Z.eqb_spec len 0) as [->|Hne].
  { assert (Hfree : ev [p] (if tn_ptr n =? NULL then ret tt else free (tn_ptr n)) (fun _ d' e' fl' =>
        d' = fs_set_heap (without (tn_ptr n) o (fs_heap d)) d /\ al_live e' = freed (tn_ptr n) o (al_live e) /\ fl' = no_irq fl) d e (no_irq fl)).
    { destruct o as [b|]; simpl.
      - destruct Hptr as [Hx0 Hx]. destruct (Z.eqb_spec (tn_ptr n) NULL); [done|].
        eapply ev_free; [done|by destruct (tf_heap _ _ _ Ht _ _ Hx)|]. intros e1 He1. done.
      - rewrite Hptr. apply ev_ret. by destruct d. }
    ev_step. eapply ev_mono; [exact Hfree|]. intros _ d1 e1 fl1 (-> & He1 & ->). ev_step.
    pose proof (step_emptied d e t p n o e1 Ht Hp He1) as Hst.
    eapply ev_upd_node; [simpl; destruct o; simpl in *; [rewrite lookup_delete_ne by (destruct Hptr; congruence)|]; exact Hpn|].
    apply ev_ret. simpl negb. cbn iota. eapply (ev_truncate_done v p); [exact Hv|exact Hst|by rewrite lookup_insert_eq|].
    intros d' Hst'. eapply (Hyes _ _ _ []); [exact Hst'|simpl; lia|lia|].
    by rewrite view_insert. }
  destruct (Z.ltb_spec len (tn_size n)) as [Hlt|Hge].
  { ev_step. eapply ev_upd_node; [done|]. apply ev_ret. simpl negb. cbn iota.
    destruct o as [b|]; simpl in *; [|lia]. destruct Hptr as [Hx0 Hx].
    pose proof (step_written d e t p n _ b b len Ht Hp eq_refl eq_refl ltac:(lia) ltac:(lia)) as Hst.
    assert (Hsame : put_obj (tn_ptr n) (OBuf b) d = d) by (unfold put_obj; rewrite insert_id by done; by destruct d).
    rewrite Hsame in Hst. eapply (ev_truncate_done v p); [exact Hv|exact Hst|by rewrite lookup_insert_eq|].
    intros d' Hst'. eapply (Hyes _ _ _ []); [exact Hst'|simpl; lia|lia|].
    rewrite view_insert. f_equal. unfold view_node, file_bytes, resized. simpl. rewrite app_nil_r, take_take. do 2 f_equal. lia. }
  destruct (Z.ltb_spec (tn_size n) len) as [Hgt|Heq].
  2: { apply ev_ret. simpl negb. cbn iota. eapply (ev_truncate_done v p); [exact Hv|by apply step_refl|exact Hp|].
       intros d' Hst'. eapply (Hyes _ _ _ []); [exact Hst'|simpl; lia|lia|]. symmetry. apply insert_id.
       rewrite (view_lookup _ _ _ Hp). unfold view_node, resized. simpl. rewrite app_nil_r, take_ge by lia. done. }
  ev_step. eapply ev_truncate_room; [done|done|lia|..].
  { intros e1 Ht1. apply ev_ret. simpl negb. cbn iota. by apply ev_ret, Hno. }
  intros d1 e1 n1 o1 (Hst1 & Hneed & Hsize & Hbytes) Hfill. ev_step.
  pose proof (sp_tfs _ _ _ _ _ _ Hst1) as Ht1. set (t1 := <[p := ANode n1 (BFile o1)]> t) in *.
  assert (Hp1 : t1 !! p = Some (ANode n1 (BFile o1))) by (unfold t1; by rewrite lookup_insert_eq).
  destruct (file_facts _ _ _ _ _ _ Ht1 Hp1) as (_ & Hpn1 & _ & Hsz1 & Hle1 & Hw1 & Hptr1).
  destruct o1 as [b|]; simpl in Hw1, Hptr1; [|lia]. destruct Hptr1 as [Hx0 Hx].
  pose proof (step_written d1 e1 t1 p n1 _ b b len Ht1 Hp1 eq_refl eq_refl ltac:(lia) ltac:(lia)) as Hst2.
  assert (Hsame : put_obj (tn_ptr n1) (OBuf b) d1 = d1) by (unfold put_obj; rewrite insert_id by done; by destruct d1).
  rewrite Hsame in Hst2. eapply ev_upd_node; [done|]. apply ev_ret. simpl negb. cbn iota.
  eapply (ev_truncate_done v p); [exact Hv|exact (step_trans _ _ _ _ _ _ _ _ _ Hst1 Hst2)|by rewrite lookup_insert_eq|].
  intros d' Hst'. eapply (Hyes _ _ _ (take (Z.to_nat (len - tn_size n)) (drop (Z.to_nat (tn_size n)) b))); [exact Hst'|..].
  - rewrite length_take, length_drop, Hfb. lia.
  - intros Hlt. injection (Hfill Hlt) as ->. rewrite drop_app_length' by lia. apply take_ge. rewrite length_replicate. lia.
  - unfold t1. rewrite insert_insert_eq, view_insert. f_equal. unfold view_node, resized. simpl. rewrite <- Hbytes.
    unfold file_bytes. simpl. f_equal. rewrite Hsize, <- take_split_eq by lia. done.
Qed.
End file.
