(* ===== verification/TmpfsTop.v ===== *)
(** * tmpfs: theorems and a machine to run it on

    The main theorems of the memory file system, and a booted machine with a
    mounted tmpfs on which they are instantiated. *)

From stdpp Require Import base numbers list gmap.
From S2P Require Import Prelude Spinlock Kernel KLogic VfsPath SimpleHeap Fs Tmpfs TmpfsFacts TmpfsDir TmpfsOps TmpfsThms TmpfsFile.

Lemma view_dir_inv t p m : view t !! p = Some (FDir m) -> exists n l, t !! p = Some (ANode n (BDir l)) /\ m = dir_map l.
Proof.
  unfold view. rewrite lookup_fmap. destruct (t !! p) as [[n [o|l|o]]|]; simpl; intros [= <-]. by exists n, l.
Qed.

Lemma view_file_inv t p bytes :
  view t !! p = Some (FFile bytes) -> exists n o, t !! p = Some (ANode n (BFile o)) /\ bytes = file_bytes n o.
Proof.
  unfold view. rewrite lookup_fmap. destruct (t !! p) as [[n [o|l|o]]|]; simpl; intros [= <-]. by exists n, o.
Qed.

Section top.
Context {E : Type} `{TimeSource E}.
Abbreviation K := (M (kst (guarded fsd) E)).
Implicit Types (d : fsd) (e : E) (t : tree) (fl : Z) (held : list Z) (s : kst (guarded fsd) E).

(** A machine between system calls: every lock free, the data a tmpfs. *)
Definition ready s t : Prop := idle [] s /\ tfs (g_data (k_obj s)) (k_env s) t.

Definition sys_step s t s' t' : Prop :=
  step (g_data (k_obj s)) (k_env s) t (g_data (k_obj s')) (k_env s') t' /\ ready s' t' /\ k_flags s' = k_flags s.

Lemma ready_run {X : Type} (m : K X) (P : X -> fsd -> E -> tree -> Prop) s t :
  ready s t ->
  ev [] m (fun x d' e' fl' => (exists t', step (g_data (k_obj s)) (k_env s) t d' e' t' /\ P x d' e' t') /\ fl' = k_flags s)
    (g_data (k_obj s)) (k_env s) (k_flags s) ->
  exists x s' t', m s = Ok (x, s') /\ sys_step s t s' t' /\ P x (g_data (k_obj s')) (k_env s') t'.
Proof.
  intros [Hi Ht] Hev. destruct (ev_run _ _ _ _ _ s Hev Hi eq_refl eq_refl eq_refl)
    as (x & s' & Hr & Hi' & _ & (t' & Hst & HP) & Hfl).
  exists x, s', t'. split; [done|]. split; [|done]. split; [done|]. split; [|done]. split; [done|]. by apply (sp_tfs _ _ _ _ _ _ Hst).
Qed.

(** ** Lookup *)

Lemma ev_lookup dir p n l name (Q : Z * Z -> fsd -> E -> Z -> Prop) d e t fl :
  tfs d e t -> vnode_of d dir p -> t !! p = Some (ANode n (BDir l)) ->
  (dir_map l !! name = None -> Q (- ENOENT, NULL) d e fl) ->
  (forall q e', dir_map l !! name = Some q -> tfs d e' t -> Q (- ENOMEM, NULL) d e' fl) ->
  (forall q a v w d' e', dir_map l !! name = Some q -> t !! q = Some a -> step d e t d' e' t -> vnode_of d' v q ->
     fs_heap d !! v = None -> fs_heap d' !! v = Some (OVnode w) -> vnode_for w q a -> v_refcount w = 1 ->
     Q (0, v) d' e' fl) ->
  ev [] (tmpfs_lookup dir (Some name)) Q d e fl.
Proof.
  intros Ht Hv Hp Hno Hmem Hyes. pose proof (tf_shape _ _ _ Ht) as Hsh. unfold tmpfs_lookup.
  destruct (Z.eqb_spec dir NULL) as [->|_]; [by destruct Hv|]. ev_step.
  eapply ev_dir_node_of; [done..| |]; simpl; [|intros Hnd; by destruct (Hnd l)]. intros _ _.
  ev_step. apply ev_lock_irq; [set_solver|]. ev_step. eapply ev_dirent_find; [done|exact Hp|].
  rewrite dir_map_lookup in Hno, Hmem, Hyes. destruct (lookup_name name l) as [x|] eqn:Hl; simpl in *.
  - destruct (lookup_name_Some _ _ _ Hl) as (l1 & l2 & Heq & _ & _).
    assert (Hx : x ∈ l) by (rewrite Heq, elem_of_app, elem_of_cons; auto).
    destruct (sh_body _ _ Hsh _ _ Hp) as (_ & _ & Hc & _). simpl in Hc.
    destruct (chain_elem _ _ _ Hc Hx) as ([nx Hxh] & _ & Hx0 & _).
    destruct (Z.eqb_spec (de_addr x) NULL); [done|]. ev_step. eapply ev_the_dirent; [done|]. apply ev_ret. simpl.
    destruct (sh_entry _ _ Hsh _ _ _ x Hp Hx) as [a Ha].
    eapply ev_node_to_vnode; [done|exact Ha|..].
    + intros e' Ht'. by eapply Hmem.
    + intros v d' e' Hst Hv' Hvf (w & Hw & Hfor & Hrc). by eapply Hyes.
  - apply ev_ret. by apply ev_ret, Hno.
Qed.

(** ** Reading a directory *)

Lemma ev_skip_entries held fuel l cur off (Q : Z * Z -> fsd -> E -> Z -> Prop) d e fl :
  chain (fs_heap d) l -> (length l < fuel)%nat -> cur <= off ->
  Q (head_of (drop (Z.to_nat (off - cur)) l), Z.min off (cur + Z.of_nat (length l))) d e fl ->
  ev held (skip_entries fuel (head_of l) cur off) Q d e fl.
Proof.
  revert l cur. induction fuel as [|fuel IH]; intros l cur Hc Hf Hle HQ; [lia|]. simpl.
  destruct (Z.leb_spec off cur) as [Hge|Hlt].
  { rewrite orb_true_r. apply ev_ret. assert (off = cur) as -> by lia. rewrite Z.sub_diag in HQ.
    replace (Z.min cur (cur + Z.of_nat (length l))) with cur in HQ by lia. done. }
  destruct l as [|x l]; simpl.
  { apply ev_ret. rewrite drop_nil in HQ.
    replace (Z.min off (cur + Z.of_nat (length (@nil dent)))) with cur in HQ by (simpl; lia). exact HQ. }
  destruct Hc as (Hx0 & _ & Hd & _ & Hc). destruct (Z.eqb_spec (de_addr x) NULL); [done|]. simpl.
  ev_step. eapply ev_the_dirent; [done|]. apply IH; [done|simpl in Hf; lia|lia|].
  replace (Z.to_nat (off - cur)) with (S (Z.to_nat (off - (cur + 1)))) in HQ by lia. simpl in HQ.
  replace (Z.min off (cur + 1 + Z.of_nat (length l))) with (Z.min off (cur + Z.of_nat (S (length l)))) by lia. done.
Qed.

Definition short (name : list Z) : Prop := strlen name < VFS_MAX_NAME.

(** The entry at an index, or the end. *)
Lemma ev_readdir v p n l k (Q : Z * option vfs_dirent * Z -> fsd -> E -> Z -> Prop) d e t fl :
  tfs d e t -> vnode_of d v p -> t !! p = Some (ANode n (BDir l)) -> Forall short (de_name <$> l) ->
  match l !! k with
  | Some x => forall ino ty, Q (0, Some (VDirent ino (Z.of_nat (S k)) sizeof_vfs_dirent ty (de_name x)), Z.of_nat (S k)) d e fl
  | None => Q (- ENOENT, None, Z.of_nat k) d e fl
  end ->
  ev [] (tmpfs_readdir v (Z.of_nat k)) Q d e fl.
Proof.
  intros Ht [Hv0 (w & Hw & Hwp)] Hp Hshort HQ. pose proof (tf_shape _ _ _ Ht) as Hsh.
  destruct (sh_node _ _ Hsh _ _ Hp) as [Hp0 Hpn]. destruct (sh_body _ _ Hsh _ _ Hp) as (Hty & Hptr & Hc & _). simpl in *.
  unfold tmpfs_readdir. destruct (Z.eqb_spec v NULL); [done|]. ev_step. unfold tmpfs_vnode_to_node.
  destruct (Z.eqb_spec v NULL); [done|]. ev_step. eapply ev_the_vnode; [done|]. rewrite Hwp. apply ev_ret.
  destruct (Z.eqb_spec p NULL); [done|]. ev_step. eapply ev_the_node; [done|]. rewrite Hty. simpl negb. cbn iota.
  apply ev_lock_irq; [set_solver|]. ev_step. eapply ev_the_node; [done|]. ev_step. apply ev_heap_fuel.
  ev_step. rewrite Hptr. apply ev_skip_entries; [done| |lia|].
  { pose proof (chain_fuel _ _ Hc (sh_nodup _ _ Hsh _ _ Hp)). lia. }
  rewrite Z.sub_0_r, Nat2Z.id. destruct (l !! k) as [x|] eqn:Hk.
  - pose proof (lookup_lt_Some _ _ _ Hk) as Hlt. rewrite (drop_S _ _ _ Hk). simpl head_of.
    assert (Hx : x ∈ l) by (by eapply list_elem_of_lookup_2).
    destruct (chain_elem _ _ _ Hc Hx) as ([nx Hxh] & Hs & Hx0 & _).
    destruct (Z.eqb_spec (de_addr x) NULL); [done|]. ev_step. eapply ev_the_dirent; [done|]. ev_step. simpl td_node.
    destruct (sh_entry _ _ Hsh _ _ _ x Hp Hx) as [a Ha]. destruct (sh_node _ _ Hsh _ _ Ha) as [_ Hha].
    eapply ev_the_node; [done|]. ev_step. eapply ev_the_str; [done|]. apply ev_ret.
    assert (Hsx : short (de_name x)) by (rewrite Forall_forall in Hshort; apply Hshort; by apply list_elem_of_fmap_2).
    unfold short in Hsx. destruct (Z.leb_spec VFS_MAX_NAME (strlen (de_name x))); [lia|].
    replace (Z.min (Z.of_nat k) (0 + Z.of_nat (length l)) + 1) with (Z.of_nat (S k)) by lia.
    rewrite take_ge by (unfold strlen; lia). apply HQ.
  - apply lookup_ge_None in Hk. rewrite drop_ge by done. simpl. by apply ev_ret.
Qed.

(** A client that lists a directory from the start. *)
Fixpoint list_dir (fuel : nat) (v : Z) (off : Z) : K (list (list Z)) :=
  match fuel with
  | O => throw F_fuel
  | S fuel =>
      r <- tmpfs_readdir v off ;;
      match r with
      | (_, Some de, off') => rest <- list_dir fuel v off' ;; ret (vd_name de :: rest)
      | (_, None, _) => ret []
      end
  end.

Lemma ev_list_dir fuel v p n l k (Q : list (list Z) -> fsd -> E -> Z -> Prop) d e t fl :
  tfs d e t -> vnode_of d v p -> t !! p = Some (ANode n (BDir l)) -> Forall short (de_name <$> l) ->
  (length l - k < fuel)%nat -> Q (de_name <$> drop k l) d e fl ->
  ev [] (list_dir fuel v (Z.of_nat k)) Q d e fl.
Proof.
  intros Ht Hv Hp Hshort. revert k Q. induction fuel as [|fuel IH]; intros k Q Hf HQ.
  { lia. }
  simpl. ev_step. eapply ev_readdir; [done..|]. destruct (l !! k) as [x|] eqn:Hk.
  - pose proof (lookup_lt_Some _ _ _ Hk). intros ino ty. ev_step. apply IH; [lia|]. apply ev_ret. simpl. rewrite (drop_S _ _ _ Hk) in HQ. done.
  - apply ev_ret. apply lookup_ge_None in Hk. rewrite drop_ge in HQ by done. done.
Qed.

(** ** Theorems *)

Lemma means_ev op a s t dir p :
  ready s t -> Z.of_nat (size (fs_heap (g_data (k_obj s)))) < 2 ^ 32 ->
  vnode_of (g_data (k_obj s)) dir p -> is_Some (t !! p) -> means (g_data (k_obj s)) t op a ->
  ev [] (run_dop dir op) (fun rc d' e' fl' =>
    refines (g_data (k_obj s)) (k_env s) t p a rc d' e' /\ fl' = k_flags s)
    (g_data (k_obj s)) (k_env s) (k_flags s).
Proof.
  intros [Hi Ht] Hsz Hv [[n b] Hp] Hm. destruct op; simpl in Hm.
  - rewrite Hm. by eapply create_refines.
  - rewrite Hm. by eapply mkdir_refines.
  - rewrite Hm. by eapply symlink_refines.
  - destruct Hm as (q & Hq & Hqt & ->). by eapply link_refines.
  - rewrite Hm. by eapply unlink_refines.
  - rewrite Hm. by eapply rmdir_refines.
Qed.

(** C19: Every operation on a directory of a mounted tmpfs (create, mkdir,
    symlink, link, unlink, rmdir) ends without a fault, gives back the locks
    and the interrupt flag, keeps the invariant, and does what the
    specification [dstep] says: directories are finite maps from names to
    nodes, with [-EEXIST], [-ENOENT], [-ENOTDIR], [-ENOTEMPTY], [-EPERM] and
    [-ENOMEM] exactly where the map says so. *)
Theorem tmpfs_directory_refines s t dir p op a :
  ready s t -> Z.of_nat (size (fs_heap (g_data (k_obj s)))) < 2 ^ 32 ->
  vnode_of (g_data (k_obj s)) dir p -> is_Some (t !! p) -> means (g_data (k_obj s)) t op a ->
  exists rc s' t', run_dop dir op s = Ok (rc, s') /\ sys_step s t s' t' /\ dstep (view t) p a rc (view t').
Proof.
  intros Hr Hsz Hv Hp Hm.
  apply (ready_run _ (fun rc _ _ t' => dstep (view t) p a rc (view t'))); [done|]. by apply means_ev.
Qed.

(** No operation on a directory frees a node, not even unlink and rmdir of
    the last name: a node is born with a link count of one that no entry
    accounts for, so the count never reaches zero. *)
Theorem tmpfs_never_frees_nodes s t dir p op a :
  ready s t -> Z.of_nat (size (fs_heap (g_data (k_obj s)))) < 2 ^ 32 ->
  vnode_of (g_data (k_obj s)) dir p -> is_Some (t !! p) -> means (g_data (k_obj s)) t op a ->
  exists rc s', run_dop dir op s = Ok (rc, s') /\
    forall q n, fs_heap (g_data (k_obj s)) !! q = Some (ONode n) ->
      q ∈ al_live (k_env s') /\ exists n', fs_heap (g_data (k_obj s')) !! q = Some (ONode n') /\
        tn_nlink n' = u32 (1 + refs (fs_heap (g_data (k_obj s'))) q).
Proof.
  intros Hr Hsz Hv Hp Hm.
  destruct (ready_run _ (fun rc _ _ t' => dstep (view t) p a rc (view t')) s t Hr (means_ev _ _ _ _ _ _ Hr Hsz Hv Hp Hm))
    as (rc & s' & t' & Hrun & (Hst & [_ Ht'] & _) & _).
  exists rc, s'. split; [done|]. intros q n Hq.
  destruct (sp_node _ _ _ _ _ _ Hst q) as [b Hb]; [by apply (sh_all _ _ (tf_shape _ _ _ (proj2 Hr)) _ _ Hq)|].
  destruct (sh_node _ _ (tf_shape _ _ _ Ht') _ _ Hb) as [_ Hn].
  split; [by destruct (tf_heap _ _ _ Ht' _ _ Hn)|]. exists (an_node b). split; [done|]. by apply (tf_links _ _ _ Ht').
Qed.

(** Looking a name up in a directory gives [-ENOENT] when the directory
    does not have it, and otherwise a vnode for the node it maps to (or
    [-ENOMEM]); the file system stays as it was. *)
Theorem tmpfs_lookup_finds s t dir p m name :
  ready s t -> vnode_of (g_data (k_obj s)) dir p -> view t !! p = Some (FDir m) ->
  exists rc v s', tmpfs_lookup dir (Some name) s = Ok ((rc, v), s') /\ sys_step s t s' t /\
    match m !! name with
    | None => rc = - ENOENT
    | Some q => rc = - ENOMEM \/ rc = 0 /\ vnode_of (g_data (k_obj s')) v q
    end.
Proof.
  intros Hr Hv Hd. destruct (view_dir_inv _ _ _ Hd) as (n & l & Hp & ->).
  destruct (ready_run (tmpfs_lookup dir (Some name)) (fun r d' e' t' => t' = t /\ match dir_map l !! name with
      | None => r.1 = - ENOENT | Some q => r.1 = - ENOMEM \/ r.1 = 0 /\ vnode_of d' r.2 q end) s t Hr)
    as ([rc v] & s' & t' & Hrun & Hst & -> & HP); [|by exists rc, v, s'; destruct (dir_map l !! name)].
  destruct Hr as [_ Ht]. eapply ev_lookup; [exact Ht|exact Hv|exact Hp|..].
  - intros Hnone. split; [|done]. exists t. split; [by apply step_refl|]. by rewrite Hnone.
  - intros q e' Hq Ht'. split; [|done]. exists t. split; [by apply step_same|]. rewrite Hq. auto.
  - intros q a v w d' e' Hq _ Hst Hv' _ _ _ _. split; [|done]. exists t. split; [done|]. rewrite Hq. auto.
Qed.

(** C20: A write at or before the end of a file ends without a fault; it either
    has no memory and changes nothing, or replaces and appends exactly the
    bytes given, leaving every other file and directory alone, and a read at
    the same offset gives them back. *)
Theorem tmpfs_write_read s t v p old bytes off :
  ready s t -> vnode_of (g_data (k_obj s)) v p -> view t !! p = Some (FFile old) ->
  0 <= off <= Z.of_nat (length old) -> off + Z.of_nat (length bytes) < 2 ^ 63 ->
  exists rc s' t', tmpfs_write v (Some bytes) off s = Ok (rc, s') /\ sys_step s t s' t' /\
    (rc = - ENOMEM /\ view t' = view t \/
     rc = Z.of_nat (length bytes) /\
     view t' = <[p := FFile (take (Z.to_nat off) old ++ (Some <$> bytes) ++ drop (Z.to_nat off + length bytes) old)]> (view t) /\
     exists s'', tmpfs_read v PObj rc off s' = Ok ((rc, Some <$> bytes), s'') /\ ready s'' t').
Proof.
  intros Hr Hv Hf Hoff Hmax. destruct (view_file_inv _ _ _ Hf) as (n & o & Hp & ->).
  destruct (ready_run (tmpfs_write v (Some bytes) off) (fun rc d' e' t' =>
    rc = - ENOMEM /\ view t' = view t \/ rc = Z.of_nat (length bytes) /\
     view t' = <[p := FFile (take (Z.to_nat off) (file_bytes n o) ++ (Some <$> bytes) ++ drop (Z.to_nat off + length bytes) (file_bytes n o))]> (view t)) s t Hr)
    as (rc & s' & t' & Hrun & Hst & HP).
  { destruct Hr as [_ Ht]. eapply ev_write; [exact Ht|exact Hv|exact Hp|lia|lia|..].
    - intros e' Ht'. split; [|done]. exists t. split; [by apply step_same|]. by left.
    - intros d' e' t' hole Hst Hhole Hview. split; [|done]. exists t'. split; [done|]. right. split; [done|].
      rewrite Hview. assert (hole = []) as -> by (destruct hole; [done|simpl in Hhole; lia]).
      unfold written. by rewrite app_nil_r. }
  exists rc, s', t'. split; [done|]. split; [done|]. destruct HP as [HP|[-> Hview]]; [by left|]. right.
  split; [done|]. split; [done|]. destruct Hst as (Hstep & Hr' & _).
  pose proof (step_vnode_of _ _ _ _ _ _ _ _ Hstep Hv) as Hv'.
  assert (Hp' : exists n' o', t' !! p = Some (ANode n' (BFile o')) /\
    file_bytes n' o' = take (Z.to_nat off) (file_bytes n o) ++ (Some <$> bytes) ++ drop (Z.to_nat off + length bytes) (file_bytes n o)).
  { assert (Hl : view t' !! p = Some (FFile (take (Z.to_nat off) (file_bytes n o) ++ (Some <$> bytes) ++
      drop (Z.to_nat off + length bytes) (file_bytes n o)))) by (by rewrite Hview, lookup_insert_eq).
    destruct (view_file_inv _ _ _ Hl) as (n' & o' & Hp' & Heq). by eauto. }
  destruct Hp' as (n' & o' & Hp' & Hb').
  destruct (ready_run (tmpfs_read v PObj (Z.of_nat (length bytes)) off)
    (fun r _ _ t1 => t1 = t' /\ r = (Z.of_nat (length bytes), Some <$> bytes)) s' t' Hr')
    as (r & s'' & t1 & Hrun' & (_ & Hr'' & _) & -> & ->); [|by exists s''].
  eapply ev_read; [exact (proj2 Hr')|exact Hv'|exact Hp'|lia|lia|]. cbv zeta. split; [|done]. exists t'.
  split; [by apply step_refl, Hr'|]. split; [done|]. rewrite Hb'.
  rewrite drop_app_length' by (rewrite length_take; lia). rewrite Nat2Z.id.
  rewrite take_app_length' by (by rewrite length_fmap). by rewrite length_fmap.
Qed.

(** Truncating a file ends without a fault and keeps its first bytes; only
    when the buffer has to grow are the bytes added zero. *)
Theorem tmpfs_truncate_keeps_prefix s t v p n o len :
  ready s t -> vnode_of (g_data (k_obj s)) v p -> t !! p = Some (ANode n (BFile o)) -> 0 <= len < 2 ^ 63 ->
  exists rc s' t', tmpfs_truncate v len s = Ok (rc, s') /\ sys_step s t s' t' /\
    (rc = - ENOMEM /\ view t' = view t \/
     rc = 0 /\ exists fill, Z.of_nat (length fill) = Z.max 0 (len - tn_size n) /\
       view t' = <[p := FFile (take (Z.to_nat len) (file_bytes n o ++ fill))]> (view t) /\
       (tn_word n < len -> fill = replicate (Z.to_nat (len - tn_size n)) (Some 0))).
Proof.
  intros Hr Hv Hp Hlen. pose proof (file_bytes_length _ _ _ _ _ _ (proj2 Hr) Hp) as Hl.
  apply (ready_run (tmpfs_truncate v len) (fun rc _ _ t' => rc = - ENOMEM /\ view t' = view t \/
     rc = 0 /\ exists fill, Z.of_nat (length fill) = Z.max 0 (len - tn_size n) /\
       view t' = <[p := FFile (take (Z.to_nat len) (file_bytes n o ++ fill))]> (view t) /\
       (tn_word n < len -> fill = replicate (Z.to_nat (len - tn_size n)) (Some 0)))); [done|].
  eapply ev_truncate; [exact (proj2 Hr)|exact Hv|exact Hp|done|..].
  - intros e' Ht'. split; [|done]. exists t. split; [by apply step_same|]. by left.
  - intros d' e' t' fill Hst Hfl Hz Hview. split; [|done]. exists t'. split; [done|]. right. split; [done|].
    exists fill. rewrite Hl in Hfl. done.
Qed.

(** C31: Listing a directory whose names are all shorter than 256 bytes with
    readdir from offset 0 until it reports the end gives every name of the
    directory exactly once, and changes no object.  (A longer name does not fit
    a directory entry: readdir gives its first 255 bytes.) *)
Theorem tmpfs_readdir_enumerates s t v p m fuel :
  ready s t -> vnode_of (g_data (k_obj s)) v p -> view t !! p = Some (FDir m) ->
  map_Forall (fun name _ => short name) m -> (size m < fuel)%nat ->
  exists names s', list_dir fuel v 0 s = Ok (names, s') /\ sys_step s t s' t /\
    NoDup names /\ list_to_set names = dom m.
Proof.
  intros Hr Hv Hd Hshort Hfuel. destruct (view_dir_inv _ _ _ Hd) as (n & l & Hp & ->).
  pose proof (sh_names _ _ (tf_shape _ _ _ (proj2 Hr)) _ _ _ Hp) as Hnd.
  assert (Hdom : list_to_set (de_name <$> l) = dom (dir_map l)).
  { apply set_eq. intros x. rewrite elem_of_list_to_set, elem_of_dom. split; [apply dir_map_is_Some|].
    intros [q Hq]. destruct (decide (x ∈ de_name <$> l)) as [|Hx]; [done|]. apply dir_map_None in Hx. congruence. }
  assert (Hlen : length l = size (dir_map l)).
  { rewrite <- size_dom, <- Hdom, size_list_to_set by done. by rewrite length_fmap. }
  destruct (ready_run (list_dir fuel v 0) (fun r _ _ t' => t' = t /\ r = de_name <$> l) s t Hr)
    as (r & s' & t' & Hrun & Hst & -> & ->); [|by exists (de_name <$> l), s'].
  eapply (ev_list_dir fuel v p n l 0); [exact (proj2 Hr)|done|done| |lia|].
  - apply Forall_forall. intros x Hx. destruct (dir_map_is_Some _ _ Hx) as [q Hq]. by apply (Hshort x q).
  - split; [|done]. exists t. split; [by apply step_refl, Hr|]. by rewrite drop_0.
Qed.

(** Mounting a tmpfs either reports [-ENOMEM] and leaves every object as
    it was, or adds an empty root directory, reached by the root vnode of the
    new mount, to the file systems that are there. *)
Theorem tmpfs_mount_adds_root s t path flags :
  ready s t ->
  exists rc m s', tmpfs_mount_fs path flags s = Ok ((rc, m), s') /\ k_flags s' = k_flags s /\
    (rc = - ENOMEM /\ ready s' t /\ fs_heap (g_data (k_obj s')) = fs_heap (g_data (k_obj s)) \/
     rc = 0 /\ exists root mt t', ready s' t' /\ t !! root = None /\ view t' = <[root := FDir ∅]> (view t) /\
       fs_heap (g_data (k_obj s')) !! m = Some (OMount mt) /\ vnode_of (g_data (k_obj s')) (mnt_root mt) root).
Proof.
  intros [Hi Ht]. assert (Hev : ev [] (tmpfs_mount_fs path flags) (fun r d' e' fl' => fl' = k_flags s /\
    (r.1 = - ENOMEM /\ tfs d' e' t /\ fs_heap d' = fs_heap (g_data (k_obj s)) \/
     r.1 = 0 /\ exists root mt t', tfs d' e' t' /\ t !! root = None /\ view t' = <[root := FDir ∅]> (view t) /\
       fs_heap d' !! r.2 = Some (OMount mt) /\ vnode_of d' (mnt_root mt) root))
    (g_data (k_obj s)) (k_env s) (k_flags s)).
  { eapply ev_tmpfs_mount; [exact Ht|..].
    - intros d' e' Ht' Hh. split; [done|]. by left.
    - intros m mt root d' e' Ht' Hroot Hm Hv. split; [done|]. right. split; [done|].
      exists root, mt, (<[root := ANode (root_node m) (BDir [])]> t). by rewrite view_insert. }
  destruct (ev_run _ _ _ _ _ s Hev Hi eq_refl eq_refl eq_refl) as ([rc m] & s' & Hrun & Hi' & _ & Hfl & HP).
  exists rc, m, s'. split; [done|]. split; [done|]. unfold ready. simpl in HP.
  destruct HP as [(-> & ? & ?)|(-> & root & mt & t' & ? & ? & ? & ? & ?)]; [by left|right].
  split; [done|]. by exists root, mt, t'.
Qed.
End top.

(** ** A machine *)

#[export] Program Instance simple_time : TimeSource simple_heap := { tsc_get_time_ns l := (0, l) }.
Next Obligation. done. Qed.

Abbreviation machine := (kst (guarded fsd) simple_heap).

Definition fs_boot : machine :=
  Kst 0x202 ∅ 0 0 spinlock_init
    (Guarded ∅ (Fsd ∅ (replicate 256 NULL) 0 NULL NULL NULL (replicate 512 NULL) (Stats 0 0 0 0 0))) [].

Definition fs_after {X : Type} (m : M machine X) (s : machine) : machine :=
  match m s with Ok (_, s') => s' | Fault _ => s end.

Lemma idle_computed {D E : Type} (s : kst (guarded D) E) :
  bool_decide (map_Forall (fun _ v => sl_locked v = 0) (g_locks (k_obj s))) = true -> idle [] s.
Proof.
  intros Hd%bool_decide_eq_true l _. unfold lock_of. destruct (g_locks (k_obj s) !! l) as [v|] eqn:Hl; [|done].
  by apply (Hd l v).
Qed.

(** With a tmpfs at ["/"]: the root node is at 48, its vnode at 64. *)
Definition fs_mounted : machine := fs_after (tmpfs_mount_fs [SLASH] 0) fs_boot.
Definition mounted_tree : tree := {[48 := ANode (root_node 16) (BDir [])]}.

Lemma boot_ready : ready fs_boot ∅.
Proof.
  split; [by intros l _|]. split; [|by intros p n ?|by intros x y ?|by intros x o ?|done].
  split; intros; try (by rewrite lookup_empty in *); done.
Qed.

Lemma mounted_ready : ready fs_mounted mounted_tree.
Proof.
  split; [apply idle_computed; vm_compute; reflexivity|].
  assert (exists w, fs_heap (g_data (k_obj fs_mounted)) = mount_heap ∅ 16 32 48 64 80 0 w [SLASH]) as [w Hw].
  { eexists. vm_compute. reflexivity. }
  eapply tf_static; [apply (tfs_mounted (g_data (k_obj fs_boot)) (k_env fs_boot) ∅ (k_env fs_mounted) 16 32 48 64 80 0 w [SLASH])|..].
  - apply boot_ready.
  - apply (bool_decide_unpack _). vm_compute. exact I.
  - intros x Hx. split; [|apply not_elem_of_empty]. repeat (apply elem_of_cons in Hx as [->|Hx]; [lia|]). destruct (not_elem_of_nil _ Hx).
  - vm_compute. reflexivity.
  - exact Hw.
  - vm_compute. reflexivity.
Qed.

Lemma mounted_root : vnode_of (g_data (k_obj fs_mounted)) 64 48.
Proof. split; [unfold NULL; lia|]. eexists. vm_compute. split; reflexivity. Qed.

(** With a file ["f"] in the root: its node is at 96, its vnode at 144. *)
Definition name_f : list Z := [102].
Definition fs_file : machine := fs_after (run_dop 64 (OCreate name_f 0x1A4 true)) fs_mounted.

Lemma file_run : run_dop 64 (OCreate name_f 0x1A4 true) fs_mounted = Ok (0, fs_file).
Proof. vm_compute. reflexivity. Qed.

Lemma ok_inj {S A : Type} (a b : A) (s s' : S) : Ok (a, s) = Ok (b, s') -> a = b /\ s = s'.
Proof. by intros [= -> ->]. Qed.

Lemma file_ready : exists t, ready fs_file t /\ view t = <[48 := FDir {[name_f := 96]}]> {[96 := FFile []]}.
Proof.
  assert (Hsz : Z.of_nat (size (fs_heap (g_data (k_obj fs_mounted)))) < 2 ^ 32) by (apply Z.ltb_lt; vm_compute; reflexivity).
  destruct (ready_run _ (fun rc _ _ t' => dstep (view mounted_tree) 48 (AMake name_f (FFile [])) rc (view t')) _ _ mounted_ready
    (means_ev (OCreate name_f 0x1A4 true) _ _ _ _ _ mounted_ready Hsz mounted_root
       (mk_is_Some _ _ (lookup_singleton_eq _ _)) eq_refl)) as (rc & s' & t' & Hrun & (_ & Hr & _) & Hd).
  destruct (ok_inj _ _ _ _ (eq_trans (eq_sym Hrun) file_run)) as [-> ->]. clear Hrun. exists t'. split; [exact Hr|].
  assert (Hview : view mounted_tree = {[48 := FDir ∅]}) by reflexivity. rewrite Hview in Hd.
  assert (Hin : is_Some (view t' !! 96)).
  { assert (Hn : exists n, fs_heap (g_data (k_obj fs_file)) !! 96 = Some (ONode n)) by (eexists; vm_compute; reflexivity).
    destruct Hn as [n Hn]. destruct (sh_all _ _ (tf_shape _ _ _ (proj2 Hr)) _ _ Hn) as [a Ha].
    rewrite (view_lookup _ _ _ Ha). by eexists. }
  clear Hr Hsz. revert Hin Hd. generalize (view t'). clear. intros fs Hin Hd.
  inversion Hd as [| | |name o m p Hm Hnone Hp Heq1 Heq2 Heq3| | | | | | | |]; subst.
  rewrite lookup_singleton_eq in Hm. injection Hm as <-.
  assert (p = 96) as ->.
  { destruct Hin as [x Hx]. apply lookup_insert_Some in Hx as [[? _]|[_ Hx]]; [done|].
    apply lookup_insert_Some in Hx as [[? _]|[_ Hx]]; [done|]. apply lookup_singleton_Some in Hx as [? _]. done. }
  reflexivity.
Qed.

Lemma file_vnode : vnode_of (g_data (k_obj fs_file)) 144 96 /\ vnode_of (g_data (k_obj fs_file)) 64 48.
Proof. split; (split; [unfold NULL; lia|]; eexists; vm_compute; split; reflexivity). Qed.

Lemma mounted_small : Z.of_nat (size (fs_heap (g_data (k_obj fs_mounted)))) < 2 ^ 32.
Proof. apply Z.ltb_lt. vm_compute. reflexivity. Qed.

Lemma mounted_has_root : is_Some (mounted_tree !! 48).
Proof. eexists. apply lookup_singleton_eq. Qed.

Lemma tmpfs_directory_refines_witness :
  exists rc s' t', run_dop 64 (OMkdir name_f 0) fs_mounted = Ok (rc, s') /\ sys_step fs_mounted mounted_tree s' t' /\
    dstep (view mounted_tree) 48 (AMake name_f (FDir ∅)) rc (view t').
Proof.
  exact (tmpfs_directory_refines fs_mounted mounted_tree 64 48 (OMkdir name_f 0) _ mounted_ready mounted_small
           mounted_root mounted_has_root eq_refl).
Defined.

Lemma tmpfs_never_frees_nodes_witness :
  exists rc s', run_dop 64 (OUnlink name_f) fs_mounted = Ok (rc, s') /\
    forall q n, fs_heap (g_data (k_obj fs_mounted)) !! q = Some (ONode n) ->
      q ∈ al_live (k_env s') /\ exists n', fs_heap (g_data (k_obj s')) !! q = Some (ONode n') /\
        tn_nlink n' = u32 (1 + refs (fs_heap (g_data (k_obj s'))) q).
Proof.
  exact (tmpfs_never_frees_nodes fs_mounted mounted_tree 64 48 (OUnlink name_f) _ mounted_ready mounted_small
           mounted_root mounted_has_root eq_refl).
Defined.

Lemma tmpfs_lookup_finds_witness : exists t rc v s',
  tmpfs_lookup 64 (Some name_f) fs_file = Ok ((rc, v), s') /\ sys_step fs_file t s' t /\
  (rc = - ENOMEM \/ rc = 0 /\ vnode_of (g_data (k_obj s')) v 96).
Proof.
  destruct file_ready as (t & Hr & Hview). exists t.
  rewrite <- (insert_empty name_f 96) in Hview.
  pose proof (tmpfs_lookup_finds fs_file t 64 48 (<[name_f := 96]> ∅) name_f Hr (proj2 file_vnode)) as Hl.
  rewrite lookup_insert_eq in Hl. apply Hl. rewrite Hview. reflexivity.
Defined.

Lemma tmpfs_write_read_witness : exists t rc s' t',
  tmpfs_write 144 (Some [1; 2; 3]) 0 fs_file = Ok (rc, s') /\ sys_step fs_file t s' t' /\
    (rc = - ENOMEM /\ view t' = view t \/
     rc = 3 /\ view t' = <[96 := FFile [Some 1; Some 2; Some 3]]> (view t) /\
     exists s'', tmpfs_read 144 PObj rc 0 s' = Ok ((rc, [Some 1; Some 2; Some 3]), s'') /\ ready s'' t').
Proof.
  destruct file_ready as (t & Hr & Hview). exists t.
  apply (tmpfs_write_read fs_file t 144 96 [] [1; 2; 3] 0 Hr (proj1 file_vnode)); [|simpl; lia..].
  rewrite Hview. reflexivity.
Defined.

Lemma tmpfs_truncate_keeps_prefix_witness : exists t n o rc s' t',
  tmpfs_truncate 144 2 fs_file = Ok (rc, s') /\ sys_step fs_file t s' t' /\
    (rc = - ENOMEM /\ view t' = view t \/
     rc = 0 /\ exists fill, Z.of_nat (length fill) = Z.max 0 (2 - tn_size n) /\
       view t' = <[96 := FFile (take 2 (file_bytes n o ++ fill))]> (view t) /\
       (tn_word n < 2 -> fill = replicate (Z.to_nat (2 - tn_size n)) (Some 0))).
Proof.
  destruct file_ready as (t & Hr & Hview). destruct (view_file_inv t 96 []) as (n & o & Hp & _).
  { rewrite Hview. reflexivity. }
  exists t, n, o. apply (tmpfs_truncate_keeps_prefix fs_file t 144 96 n o 2 Hr (proj1 file_vnode) Hp). lia.
Defined.

Lemma tmpfs_readdir_enumerates_witness : exists t names s',
  list_dir 5 64 0 fs_file = Ok (names, s') /\ sys_step fs_file t s' t /\ NoDup names /\
  list_to_set names = dom ({[name_f := 96]} : gmap (list Z) Z).
Proof.
  destruct file_ready as (t & Hr & Hview). exists t.
  apply (tmpfs_readdir_enumerates fs_file t 64 48 {[name_f := 96]} 5 Hr (proj2 file_vnode)).
  - rewrite Hview. reflexivity.
  - apply map_Forall_singleton. vm_compute. reflexivity.
  - rewrite map_size_singleton. lia.
Defined.

Lemma tmpfs_mount_adds_root_witness :
  exists rc m s', tmpfs_mount_fs [SLASH] 0 fs_boot = Ok ((rc, m), s') /\ k_flags s' = k_flags fs_boot /\
    (rc = - ENOMEM /\ ready s' ∅ /\ fs_heap (g_data (k_obj s')) = fs_heap (g_data (k_obj fs_boot)) \/
     rc = 0 /\ exists root mt t', ready s' t' /\ (∅ : tree) !! root = None /\ view t' = <[root := FDir ∅]> (view ∅) /\
       fs_heap (g_data (k_obj s')) !! m = Some (OMount mt) /\ vnode_of (g_data (k_obj s')) (mnt_root mt) root).
Proof. exact (tmpfs_mount_adds_root fs_boot ∅ [SLASH] 0 boot_ready). Defined.

(** ** What goes wrong *)

Definition read3 (s : machine) : res (Z * list (option Z)) :=
  match tmpfs_read 144 PObj 3 0 s with Ok (r, _) => Ok r | Fault f => Fault f end.

(** A file that is shortened and then extended again within its buffer
    shows its old bytes instead of zeros, and a write past the end of a file
    leaves bytes that were never written between. *)
Theorem tmpfs_exposes_old_bytes :
  read3 (fs_after (tmpfs_write 144 (Some [1; 2; 3]) 0 ;;; tmpfs_truncate 144 1 ;;; tmpfs_truncate 144 3) fs_file) =
    Ok (3, [Some 1; Some 2; Some 3]) /\
  read3 (fs_after (tmpfs_write 144 (Some [9]) 2) fs_file) = Ok (3, [None; None; Some 9]).
Proof. vm_compute. split; reflexivity. Qed.

(** A file that is created and removed again leaves its node allocated, with
    a link count of one and no entry that names it. *)
Example tmpfs_unlink_leaks :
  let s := fs_after (run_dop 64 (OUnlink name_f)) fs_file in
  run_dop 64 (OUnlink name_f) fs_file = Ok (0, s) /\
  option_map (fun o => match o with ONode n => tn_nlink n | _ => 0 end) (fs_heap (g_data (k_obj s)) !! 96) = Some 1 /\
  refs (fs_heap (g_data (k_obj s))) 96 = 0.
Proof. vm_compute. split_and!; reflexivity. Qed.

(** A read at a negative offset reaches in front of the buffer. *)
Example tmpfs_read_negative_offset :
  tmpfs_read 144 PObj 1 (-1) (fs_after (tmpfs_write 144 (Some [1; 2; 3]) 0) fs_file) = Fault F_oob.
Proof. vm_compute. reflexivity. Qed.

(** A directory that is not empty can be unlinked, which orphans what it holds. *)
Example tmpfs_unlink_removes_directory :
  exists d1 s, fs_after (run_dop 64 (OMkdir name_f 0x1ED)) fs_mounted = d1 /\
    (r <- tmpfs_lookup 64 (Some name_f) ;; tmpfs_mkdir r.2 (Some name_f) 0x1ED ;;; run_dop 64 (OUnlink name_f)) d1 = Ok (0, s).
Proof. eexists. eexists. split; [reflexivity|]. vm_compute. reflexivity. Qed.
