(* ===== verification/Vfs.v ===== *)
(** * The name layer of the virtual file system ([libfs/vfs.c])

    File-system types, mounts, the cache of looked-up names, path lookup with
    symbolic links, and the operations that take a path.  They call a file
    system through its table of operations; the only one in the sources is
    that of [tmpfs], and [others] stands for further file-system types.

    A C string is the list of its characters before the NUL.  [junk] is the
    unspecified contents of a local [char] buffer of [VFS_MAX_PATH] bytes.
    [vfs_lookup_internal] calls itself to follow a symbolic link: [nesting] is
    the number of nested calls the kernel stack has room for, and needing more
    is the fault [F_fuel].  An operation that stores through a pointer argument
    returns what it stores with its result. *)

From stdpp Require Import base numbers list gmap.
From S2P Require Import Prelude Spinlock Kernel KLogic VfsFile VfsPath Fs Tmpfs.

Definition EACCES : Z := 13.
Definition VFS_MAX_SYMLINK_DEPTH : Z := 8.
Definition VFS_IFIFO : Z := 0x1000.
Definition VFS_IFCHR : Z := 0x2000.
Definition VFS_IFBLK : Z := 0x6000.
Definition VFS_IFSOCK : Z := 0xC000.
Definition R_OK : Z := 4.
Definition W_OK : Z := 2.
Definition X_OK : Z := 1.

Definition sizeof_fs_type_node : Z := 16.
Definition sizeof_vfs_dentry : Z := 56.
Definition sizeof_vfs_context : Z := 48.

(** "tmpfs". *)
Definition tmpfs_name : list Z := [116; 109; 112; 102; 115].

Definition v_set_rdev (dev : Z) (v : vnode) : vnode :=
  Vnode (v_ino v) (v_mode v) (v_uid v) (v_gid v) (v_size v) (v_nlink v) dev (v_atime v)
    (v_mtime v) (v_ctime v) (v_flags v) (v_refcount v) (v_mount v) (v_ops v) (v_private v) (v_next v).
Definition v_set_nlink (n : Z) (v : vnode) : vnode :=
  Vnode (v_ino v) (v_mode v) (v_uid v) (v_gid v) (v_size v) n (v_rdev v) (v_atime v)
    (v_mtime v) (v_ctime v) (v_flags v) (v_refcount v) (v_mount v) (v_ops v) (v_private v) (v_next v).
Definition v_dirty (v : vnode) : vnode := v_set_flags (Z.lor (v_flags v) VNODE_FLAG_DIRTY) v.
Definition v_changed (now : Z) (v : vnode) : vnode := v_set_times (v_atime v) (v_mtime v) now v.

Definition mnt_set_next (p : Z) (m : vfs_mount) : vfs_mount :=
  Mount (mnt_point m) (mnt_device m) (mnt_flags m) (mnt_root m) (mnt_ops m) (mnt_private m) p.
Definition d_set_next (p : Z) (d : vfs_dentry) : vfs_dentry :=
  Dentry (d_name d) (d_vnode d) (d_parent d) p (d_hash d).

Definition type_of (v : vnode) : Z := Z.land (v_mode v) VFS_IFMT.

(** The tokens of [strtok(p, "/")], [strtok(NULL, "/")], ..., at most [n]. *)
Fixpoint strtok_loop (n : nat) (p : list Z) : list (list Z) :=
  match n with
  | O => []
  | S n =>
      match skip_slashes p with
      | [] => []
      | p => let '(token, rest) := take_component p in token :: strtok_loop n rest
      end
  end.

(** The path of a symbolic link's directory, from the components before it;
    [None] when it grows too long. *)
Fixpoint join_components (parent_path : list Z) (path_len : Z) (cs : list (list Z)) : option (list Z * Z) :=
  match cs with
  | [] => Some (parent_path, path_len)
  | c :: cs =>
      let comp_len := strlen c in
      if VFS_MAX_PATH <=? path_len + comp_len + 2 then None
      else if 1 <? path_len then
        join_components (parent_path ++ [SLASH] ++ c) (path_len + 1 + comp_len) cs
      else join_components (parent_path ++ c) (path_len + comp_len) cs
  end.

Definition relative_target (cs : list (list Z)) (target : list Z) : option (list Z) :=
  match join_components [SLASH] 1 cs with
  | None => None
  | Some (parent_path, path_len) =>
      if VFS_MAX_PATH <=? path_len + strlen target + 2 then None
      else Some ((if 1 <? path_len then parent_path ++ [SLASH] else parent_path) ++ target)
  end.

(** Cells of the two lists and of a chain of cached names. *)
Inductive tcell := THead | TNext (p : Z).
Inductive mcell := MHead | MNext (p : Z).
Inductive ncell := NHead (h : Z) | NNext (p : Z).

Section vfs.
Context {E : Type} `{TimeSource E}.
Abbreviation K := (M (kst (guarded fsd) E)).

(** ** Tables of operations *)

Record vnode_operations := VOps {
  vo_truncate : option (Z -> Z -> K Z);
  vo_readdir : option (Z -> Z -> K (Z * option vfs_dirent * Z));
  vo_lookup : option (Z -> option (list Z) -> K (Z * Z));
  vo_create : option (Z -> option (list Z) -> Z -> bool -> K (Z * Z));
  vo_mkdir : option (Z -> option (list Z) -> Z -> K Z);
  vo_rmdir : option (Z -> option (list Z) -> K Z);
  vo_unlink : option (Z -> option (list Z) -> K Z);
  vo_link : option (Z -> option (list Z) -> Z -> K Z);
  vo_symlink : option (Z -> option (list Z) -> option (list Z) -> K Z);
  vo_readlink : option (Z -> ptr -> Z -> K (Z * list Z));
  vo_getattr : option (Z -> K (Z * option vfs_stat));
  vo_release : option (Z -> K unit)
}.

Definition tmpfs_vnode_operations : vnode_operations := {|
  vo_truncate := Some tmpfs_truncate;
  vo_readdir := Some tmpfs_readdir;
  vo_lookup := Some tmpfs_lookup;
  vo_create := Some tmpfs_create;
  vo_mkdir := Some tmpfs_mkdir;
  vo_rmdir := Some tmpfs_rmdir;
  vo_unlink := Some tmpfs_unlink;
  vo_link := Some tmpfs_link;
  vo_symlink := Some tmpfs_symlink;
  vo_readlink := Some tmpfs_readlink;
  vo_getattr := Some tmpfs_getattr;
  vo_release := Some tmpfs_release
|}.

Record vfs_operations := FOps {
  fs_name : option (list Z);
  fo_mount : option (list Z -> Z -> K (Z * Z));
  fo_unmount : option (Z -> Z -> K Z);
  fo_sync : option (Z -> K Z)
}.

Definition tmpfs_vfs_operations : vfs_operations := {|
  fs_name := Some tmpfs_name;
  fo_mount := Some tmpfs_mount_fs;
  fo_unmount := Some tmpfs_unmount;
  fo_sync := Some tmpfs_sync
|}.

Context (others : Z -> option vfs_operations).

Definition the_vops (p : Z) : K vnode_operations :=
  if p =? tmpfs_vnode_ops then ret tmpfs_vnode_operations else throw F_null.
Definition the_fops (p : Z) : K vfs_operations :=
  if p =? tmpfs_vfs_ops then ret tmpfs_vfs_operations
  else match others p with Some ops => ret ops | None => throw F_null end.
(** [ops->fs_name] where it is compared. *)
Definition the_fs_name (p : Z) : K (list Z) :=
  ops <- the_fops p ;; match fs_name ops with Some name => ret name | None => throw F_null end.

(** [vnode->v_ops && vnode->v_ops->f]. *)
Definition vop {X : Type} (f : vnode_operations -> option X) (vnode : Z) : K (option X) :=
  v <- the_vnode vnode ;;
  if v_ops v =? NULL then ret None else ops <- the_vops (v_ops v) ;; ret (f ops).
(** [vnode->v_ops->f] called without a check. *)
Definition vop_must {X : Type} (f : vnode_operations -> option X) (vnode : Z) : K X :=
  v <- the_vnode vnode ;;
  ops <- the_vops (v_ops v) ;;
  match f ops with Some op => ret op | None => throw F_null end.

Definition the_dentry (p : Z) : K vfs_dentry :=
  o <- the_obj p ;; match o with ODentry d => ret d | _ => throw F_null end.
Definition the_fstype (p : Z) : K fs_type_node :=
  o <- the_obj p ;; match o with OFsType t => ret t | _ => throw F_null end.
Definition the_context (p : Z) : K vfs_context :=
  o <- the_obj p ;; match o with OContext c => ret c | _ => throw F_null end.

(** [vnode->v_ops->release], when there is one. *)
Definition call_release (vnode : Z) : K unit :=
  v <- the_vnode vnode ;;
  ops <- the_vops (v_ops v) ;;
  match vo_release ops with Some release => release vnode | None => ret tt end.
Definition vnode_unref : Z -> K unit := vfs_vnode_unref call_release.

(** ** Statistics *)

Definition bump_counts (g : vfs_stats -> vfs_stats) : K unit :=
  with_lock_irq vfs_stats_lock (set_data (fun d => fs_set_counts (g (vfs_counts d)) d)).

Definition vfs_stats_record_lookup (cache_hit : bool) : K unit :=
  bump_counts (fun c =>
    Stats (u64 (st_lookups c + 1))
      (if cache_hit then u64 (st_cache_hits c + 1) else st_cache_hits c)
      (if cache_hit then st_cache_misses c else u64 (st_cache_misses c + 1))
      (st_creates c) (st_deletes c)).
Definition count_create (c : vfs_stats) : vfs_stats :=
  Stats (st_lookups c) (st_cache_hits c) (st_cache_misses c) (u64 (st_creates c + 1)) (st_deletes c).
Definition count_delete (c : vfs_stats) : vfs_stats :=
  Stats (st_lookups c) (st_cache_hits c) (st_cache_misses c) (st_creates c) (u64 (st_deletes c + 1)).

Definition vfs_get_stats : K vfs_stats := with_lock_irq vfs_stats_lock (data vfs_counts).
Definition vfs_reset_stats : K unit := bump_counts (fun _ => Stats 0 0 0 0 0).

(** ** File-system types *)

(** [spinlock_init] of [vnode_hash_locks[i]] for [i] from 0. *)
Fixpoint init_hash_locks (n : nat) (i : Z) : K unit :=
  match n with
  | O => ret tt
  | S n => init_lock (vnode_hash_lock i) ;;; init_hash_locks n (i + 1)
  end.

Definition vfs_init : K Z :=
  set_data (fs_set_vhash (replicate (Z.to_nat VNODE_HASH_SIZE) NULL)) ;;;
  set_data (fs_set_dhash (replicate (Z.to_nat DENTRY_HASH_SIZE) NULL)) ;;;
  init_hash_locks (Z.to_nat VNODE_HASH_SIZE) 0 ;;;
  set_data (fs_set_mounts NULL) ;;;
  set_data (fs_set_types NULL) ;;;
  set_data (fs_set_root NULL) ;;;
  ret VFS_SUCCESS.

(** The search of [vfs_register_filesystem] and [vfs_find_filesystem]: the
    operations of the type found, or null. *)
Fixpoint find_fstype (fuel : nat) (current : Z) (name : list Z) : K Z :=
  match fuel with
  | O => throw F_fuel
  | S fuel =>
      if current =? NULL then ret NULL
      else
        t <- the_fstype current ;;
        n <- the_fs_name (ft_ops t) ;;
        if names_equal n name then ret (ft_ops t) else find_fstype fuel (ft_next t) name
  end.

Definition vfs_register_filesystem (ops : Z) : K Z :=
  if ops =? NULL then ret (- EINVAL)
  else
    o <- the_fops ops ;;
    match fs_name o with
    | None => ret (- EINVAL)
    | Some name =>
        with_lock_irq fs_types_lock (
          current <- data fs_types ;;
          fuel <- heap_fuel ;;
          found <- find_fstype fuel current name ;;
          if negb (found =? NULL) then ret (- EEXIST)
          else
            node <- new sizeof_fs_type_node (OFsType (FsType 0 0)) ;;
            if node =? NULL then ret (- ENOMEM)
            else
              head <- data fs_types ;;
              put node (OFsType (FsType ops head)) ;;;
              set_data (fs_set_types node) ;;;
              ret VFS_SUCCESS)
    end.

Definition read_tcell (c : tcell) : K Z :=
  match c with THead => data fs_types | TNext p => t <- the_fstype p ;; ret (ft_next t) end.
Definition write_tcell (c : tcell) (x : Z) : K unit :=
  match c with
  | THead => set_data (fs_set_types x)
  | TNext p => t <- the_fstype p ;; put p (OFsType (FsType (ft_ops t) x))
  end.

Fixpoint unlink_fstype (fuel : nat) (current : tcell) (name : list Z) : K Z :=
  match fuel with
  | O => throw F_fuel
  | S fuel =>
      c <- read_tcell current ;;
      if c =? NULL then ret (- ENOENT)
      else
        t <- the_fstype c ;;
        n <- the_fs_name (ft_ops t) ;;
        if names_equal n name then
          write_tcell current (ft_next t) ;;; free c ;;; ret VFS_SUCCESS
        else unlink_fstype fuel (TNext c) name
  end.

Definition vfs_unregister_filesystem (fs_name : option (list Z)) : K Z :=
  match fs_name with
  | None => ret (- EINVAL)
  | Some name =>
      with_lock_irq fs_types_lock (fuel <- heap_fuel ;; unlink_fstype fuel THead name)
  end.

Definition vfs_find_filesystem (name : list Z) : K Z :=
  with_lock_irq fs_types_lock (
    current <- data fs_types ;; fuel <- heap_fuel ;; find_fstype fuel current name).

(** ** The cache of names *)

Definition vfs_strdup (str : option (list Z)) : K Z :=
  match str with None => ret NULL | Some str => kmalloc_str str end.

Fixpoint find_dentry (fuel : nat) (dentry : Z) (path : list Z) : K Z :=
  match fuel with
  | O => throw F_fuel
  | S fuel =>
      if dentry =? NULL then ret NULL
      else
        d <- the_dentry dentry ;;
        name <- the_str (d_name d) ;;
        if names_equal name path then ret dentry else find_dentry fuel (d_next d) path
  end.

Definition vfs_dentry_lookup (path : option (list Z)) : K Z :=
  match path with
  | None => ret NULL
  | Some path =>
      let hash := dentry_hash_func path in
      with_lock_irq dentry_hash_lock (
        t <- data dentry_hash ;;
        head <- lift (aread t hash) ;;
        fuel <- heap_fuel ;;
        find_dentry fuel head path)
  end.

Definition vfs_dentry_add (path : option (list Z)) (vnode : Z) : K Z :=
  match path with
  | None => ret (- EINVAL)
  | Some str =>
      if vnode =? NULL then ret (- EINVAL)
      else
        dentry <- new sizeof_vfs_dentry (ODentry (Dentry 0 0 0 0 0)) ;;
        if dentry =? NULL then ret (- ENOMEM)
        else
          name <- vfs_strdup path ;;
          if name =? NULL then free dentry ;;; ret (- ENOMEM)
          else
            vfs_vnode_ref vnode ;;;
            let hash := dentry_hash_func str in
            init_lock dentry ;;;
            with_lock_irq dentry_hash_lock (
              t <- data dentry_hash ;;
              head <- lift (aread t hash) ;;
              put dentry (ODentry (Dentry name vnode NULL head hash)) ;;;
              t' <- lift (awrite t hash dentry) ;;
              set_data (fs_set_dhash t')) ;;;
            ret VFS_SUCCESS
  end.

Definition read_ncell (c : ncell) : K Z :=
  match c with
  | NHead h => t <- data dentry_hash ;; lift (aread t h)
  | NNext p => d <- the_dentry p ;; ret (d_next d)
  end.
Definition write_ncell (c : ncell) (x : Z) : K unit :=
  match c with
  | NHead h => t <- data dentry_hash ;; t' <- lift (awrite t h x) ;; set_data (fs_set_dhash t')
  | NNext p => d <- the_dentry p ;; put p (ODentry (d_set_next x d))
  end.

(** The loop of [vfs_dentry_remove]: the entry taken out of its chain, or null. *)
Fixpoint unlink_dentry (fuel : nat) (current : ncell) (path : list Z) : K Z :=
  match fuel with
  | O => throw F_fuel
  | S fuel =>
      c <- read_ncell current ;;
      if c =? NULL then ret NULL
      else
        d <- the_dentry c ;;
        name <- the_str (d_name d) ;;
        if names_equal name path then write_ncell current (d_next d) ;;; ret c
        else unlink_dentry fuel (NNext c) path
  end.

Definition free_dentry (dentry : Z) : K unit :=
  d <- the_dentry dentry ;;
  vnode_unref (d_vnode d) ;;;
  free (d_name d) ;;;
  free dentry.

Definition vfs_dentry_remove (path : option (list Z)) : K unit :=
  match path with
  | None => ret tt
  | Some path =>
      dentry <- with_lock_irq dentry_hash_lock (
        fuel <- heap_fuel ;; unlink_dentry fuel (NHead (dentry_hash_func path)) path) ;;
      if dentry =? NULL then ret tt else free_dentry dentry
  end.

Fixpoint purge_chain (fuel : nat) (dentry : Z) : K unit :=
  match fuel with
  | O => throw F_fuel
  | S fuel =>
      if dentry =? NULL then ret tt
      else
        d <- the_dentry dentry ;;
        free_dentry dentry ;;;
        purge_chain fuel (d_next d)
  end.

(** [n] slots of the table from [i] on. *)
Fixpoint purge_slots (n : nat) (i : Z) : K unit :=
  match n with
  | O => ret tt
  | S n =>
      t <- data dentry_hash ;;
      head <- lift (aread t i) ;;
      fuel <- heap_fuel ;;
      purge_chain fuel head ;;;
      t <- data dentry_hash ;;
      t' <- lift (awrite t i NULL) ;;
      set_data (fs_set_dhash t') ;;;
      purge_slots n (i + 1)
  end.

Definition vfs_dentry_purge : K unit :=
  with_lock_irq dentry_hash_lock (purge_slots (Z.to_nat DENTRY_HASH_SIZE) 0).

(** ** Lookup *)

Context (junk : list Z) (nesting : nat).

(** A path function run on a fresh local buffer: its result and the buffer. *)
Definition with_buffer {X : Type} (m : M (list Z) X) : K (X * list Z) := lift (m junk).

(** [vfs_vnode_unref(current); kfree(path_copy); return ret]. *)
Definition lookup_fail (current path_copy ret_ : Z) : K (Z * Z) :=
  vnode_unref current ;;; free path_copy ;;; ret (ret_, NULL).

(** What a symbolic link [current] leads to, by a nested lookup [rec]; [cs]
    are the components before it.  [inr] is an error return. *)
Definition follow_link (rec : list Z -> K (Z * Z)) (path_copy current : Z) (cs : list (list Z)) : K (Z + Z) :=
  op <- vop vo_readlink current ;;
  match op with
  | None => r <- lookup_fail current path_copy (- EINVAL) ;; ret (inr r.1)
  | Some readlink =>
      r <- readlink current PObj VFS_MAX_PATH ;;
      let '(len, bytes) := r in
      if len <? 0 then r <- lookup_fail current path_copy len ;; ret (inr r.1)
      else if VFS_MAX_PATH <=? len then r <- lookup_fail current path_copy (- ENAMETOOLONG) ;; ret (inr r.1)
      else
        buf <- lift (awrite (bytes ++ drop (length bytes) junk) len 0) ;;
        let target := cstr buf in
        vnode_unref current ;;;
        match (if deref target =? SLASH then Some target else relative_target cs target) with
        | None => free path_copy ;;; ret (inr (- ENAMETOOLONG))
        | Some path =>
            r <- rec path ;;
            let '(rc, vnode) := r in
            if negb (rc =? 0) then free path_copy ;;; ret (inr rc) else ret (inl vnode)
        end
  end.

(** The loop over the components: those before are [cs], those to come
    [todo].  [inr] is an error return, with everything released. *)
Fixpoint walk (rec : list Z -> K (Z * Z)) (follow_final : bool) (path_copy : Z) (cs todo : list (list Z))
    (symlink_depth current : Z) : K (Z + Z) :=
  match todo with
  | [] => ret (inl current)
  | component :: todo =>
      v <- the_vnode current ;;
      if negb (type_of v =? VFS_IFDIR) then r <- lookup_fail current path_copy (- ENOTDIR) ;; ret (inr r.1)
      else
        op <- vop vo_lookup current ;;
        match op with
        | None => r <- lookup_fail current path_copy (- ENOSYS) ;; ret (inr r.1)
        | Some lookup =>
            r <- lookup current (Some component) ;;
            let '(rc, next) := r in
            vnode_unref current ;;;
            if negb (rc =? 0) then free path_copy ;;; ret (inr rc)
            else
              v <- the_vnode next ;;
              if type_of v =? VFS_IFLNK then
                if bool_decide (todo = []) && negb follow_final then ret (inl next)
                else if VFS_MAX_SYMLINK_DEPTH <=? symlink_depth then
                  r <- lookup_fail next path_copy (- ELOOP) ;; ret (inr r.1)
                else
                  r <- follow_link rec path_copy next cs ;;
                  match r with
                  | inr rc => ret (inr rc)
                  | inl next => walk rec follow_final path_copy (cs ++ [component]) todo (symlink_depth + 1) next
                  end
              else walk rec follow_final path_copy (cs ++ [component]) todo symlink_depth next
        end
  end.

(** [*result = root_mount->mnt_root] with a reference. *)
Definition lookup_root : K (Z * Z) :=
  p <- data root_mount ;;
  m <- the_mount p ;;
  vfs_vnode_ref (mnt_root m) ;;;
  ret (VFS_SUCCESS, mnt_root m).

(** The part of [vfs_lookup_internal] behind the cache. *)
Definition lookup_slow (rec : list Z -> K (Z * Z)) (normalized : list Z) (follow_final : bool) : K (Z * Z) :=
  if names_equal normalized [SLASH] then lookup_root
  else
    path_copy <- kmalloc_str normalized ;;
    if path_copy =? NULL then ret (- ENOMEM, NULL)
    else
      let components := strtok_loop 64 (tail normalized) in
      if bool_decide (components = []) then free path_copy ;;; lookup_root
      else
        p <- data root_mount ;;
        m <- the_mount p ;;
        vfs_vnode_ref (mnt_root m) ;;;
        r <- walk rec follow_final path_copy [] components 0 (mnt_root m) ;;
        match r with
        | inr rc => ret (rc, NULL)
        | inl current =>
            free path_copy ;;;
            (if follow_final && negb (current =? NULL)
             then _ <- vfs_dentry_add (Some normalized) current ;; ret tt else ret tt) ;;;
            vfs_update_atime current ;;;
            ret (VFS_SUCCESS, current)
        end.

Fixpoint vfs_lookup_internal (fuel : nat) (path : option (list Z)) (follow_final : bool) : K (Z * Z) :=
  match fuel with
  | O => throw F_fuel
  | S fuel =>
      if negb (vfs_is_absolute_path path) then ret (- EINVAL, NULL)
      else
        root <- data root_mount ;;
        ready <- (if root =? NULL then ret false
                  else m <- the_mount root ;; ret (negb (mnt_root m =? NULL))) ;;
        if negb ready then ret (- ENOENT, NULL)
        else
          r <- with_buffer (vfs_normalize_path path) ;;
          let '(rc, buf) := r in
          if negb (rc =? 0) then ret (rc, NULL)
          else
            let normalized := cstr buf in
            hit <- (if follow_final then
                      dentry <- vfs_dentry_lookup (Some normalized) ;;
                      if dentry =? NULL then ret NULL
                      else d <- the_dentry dentry ;; ret (d_vnode d)
                    else ret NULL) ;;
            if negb (hit =? NULL) then
              vfs_vnode_ref hit ;;;
              vfs_update_atime hit ;;;
              vfs_stats_record_lookup true ;;;
              ret (VFS_SUCCESS, hit)
            else
              vfs_stats_record_lookup false ;;;
              lookup_slow (fun p => vfs_lookup_internal fuel (Some p) true) normalized follow_final
  end.

Definition vfs_lookup (path : option (list Z)) : K (Z * Z) := vfs_lookup_internal nesting path true.

(** The parent directory's vnode and a copy of the last name. *)
Definition vfs_lookup_parent (path : option (list Z)) : K (Z * Z * Z) :=
  match path with
  | None => ret (- EINVAL, NULL, NULL)
  | Some _ =>
      r <- with_buffer (vfs_dirname path VFS_MAX_PATH) ;;
      if negb r.1 then ret (- ENAMETOOLONG, NULL, NULL)
      else
        l <- vfs_lookup (Some (cstr r.2)) ;;
        let '(rc, parent) := l in
        if negb (rc =? 0) then ret (rc, NULL, NULL)
        else
          name <- vfs_strdup (vfs_basename path) ;;
          if name =? NULL then vnode_unref parent ;;; ret (- ENOMEM, NULL, NULL)
          else ret (VFS_SUCCESS, parent, name)
  end.

(** ** Mounts *)

Definition vfs_mount_op (mountpoint fstype : option (list Z)) (flags : Z) : K Z :=
  match mountpoint, fstype with
  | Some mountpoint, Some fstype =>
      let is_root := names_equal mountpoint [SLASH] in
      ops <- vfs_find_filesystem fstype ;;
      if ops =? NULL then ret (- ENODEV)
      else
        root <- data root_mount ;;
        checked <- (
          if negb is_root && negb (root =? NULL) then
            r <- vfs_lookup (Some mountpoint) ;;
            let '(rc, mp_vnode) := r in
            if negb (rc =? 0) then ret (- ENOENT)
            else
              v <- the_vnode mp_vnode ;;
              vnode_unref mp_vnode ;;;
              ret (if negb (type_of v =? VFS_IFDIR) then - ENOTDIR else 0)
          else ret 0) ;;
        if negb (checked =? 0) then ret checked
        else
          o <- the_fops ops ;;
          match fo_mount o with
          | None => ret (- ENOSYS)
          | Some mount =>
              r <- mount mountpoint flags ;;
              let '(rc, mnt) := r in
              if negb (rc =? 0) then ret rc
              else
                with_lock_irq mount_list_lock (
                  m <- the_mount mnt ;;
                  head <- data mount_list ;;
                  put mnt (OMount (mnt_set_next head m)) ;;;
                  set_data (fs_set_mounts mnt) ;;;
                  root <- data root_mount ;;
                  if (root =? NULL) && is_root then set_data (fs_set_root mnt) else ret tt) ;;;
                ret VFS_SUCCESS
          end
  | _, _ => ret (- EINVAL)
  end.

Definition read_mcell (c : mcell) : K Z :=
  match c with MHead => data mount_list | MNext p => m <- the_mount p ;; ret (mnt_next m) end.
Definition write_mcell (c : mcell) (x : Z) : K unit :=
  match c with
  | MHead => set_data (fs_set_mounts x)
  | MNext p => m <- the_mount p ;; put p (OMount (mnt_set_next x m))
  end.

(** The mount found by the loop of [vfs_unmount]. *)
Definition unmount_one (current : mcell) (mnt flags : Z) : K Z :=
  root <- data root_mount ;;
  if mnt =? root then ret (- EBUSY)
  else
    m <- the_mount mnt ;;
    rc <- (if mnt_ops m =? NULL then ret 0
           else
             ops <- the_fops (mnt_ops m) ;;
             match fo_unmount ops with Some unmount => unmount mnt flags | None => ret 0 end) ;;
    if negb (rc =? 0) then ret rc
    else
      m <- the_mount mnt ;;
      write_mcell current (mnt_next m) ;;;
      (if mnt_point m =? NULL then ret tt else free (mnt_point m)) ;;;
      (if mnt_device m =? NULL then ret tt else free (mnt_device m)) ;;;
      free mnt ;;;
      ret VFS_SUCCESS.

Fixpoint unmount_loop (fuel : nat) (current : mcell) (mountpoint : list Z) (flags : Z) : K Z :=
  match fuel with
  | O => throw F_fuel
  | S fuel =>
      c <- read_mcell current ;;
      if c =? NULL then ret (- ENOENT)
      else
        m <- the_mount c ;;
        point <- the_str (mnt_point m) ;;
        if names_equal point mountpoint then unmount_one current c flags
        else unmount_loop fuel (MNext c) mountpoint flags
  end.

Definition vfs_unmount (mountpoint : option (list Z)) (flags : Z) : K Z :=
  match mountpoint with
  | None => ret (- EINVAL)
  | Some mountpoint =>
      with_lock_irq mount_list_lock (fuel <- heap_fuel ;; unmount_loop fuel MHead mountpoint flags)
  end.

(** The loop of [vfs_find_mount]; [buf] is the buffer with the path. *)
Fixpoint best_mount (fuel : nat) (buf : list Z) (mnt best_match best_len : Z) : K Z :=
  match fuel with
  | O => throw F_fuel
  | S fuel =>
      if mnt =? NULL then ret best_match
      else
        m <- the_mount mnt ;;
        if mnt_point m =? NULL then best_mount fuel buf (mnt_next m) best_match best_len
        else
          point <- the_str (mnt_point m) ;;
          let mnt_len := strlen point in
          better <- (
            if strncmp_eq (Z.to_nat mnt_len) buf point then
              c <- lift (aread buf mnt_len) ;;
              ret (((c =? 0) || (c =? SLASH) || names_equal point [SLASH]) && (best_len <? mnt_len))
            else ret false) ;;
          if (better : bool) then best_mount fuel buf (mnt_next m) mnt mnt_len
          else best_mount fuel buf (mnt_next m) best_match best_len
  end.

Definition vfs_find_mount (path : option (list Z)) : K Z :=
  match path with
  | None => ret NULL
  | Some _ =>
      r <- with_buffer (vfs_normalize_path path) ;;
      if negb (r.1 =? 0) then ret NULL
      else
        with_lock_irq mount_list_lock (
          root <- data root_mount ;;
          mnt <- data mount_list ;;
          fuel <- heap_fuel ;;
          best_mount fuel r.2 mnt root 0)
  end.

Fixpoint sync_mounts (fuel : nat) (mnt : Z) : K unit :=
  match fuel with
  | O => throw F_fuel
  | S fuel =>
      if mnt =? NULL then ret tt
      else
        m <- the_mount mnt ;;
        (if mnt_ops m =? NULL then ret tt
         else
           ops <- the_fops (mnt_ops m) ;;
           match fo_sync ops with Some sync => _ <- sync mnt ;; ret tt | None => ret tt end) ;;;
        m <- the_mount mnt ;;
        sync_mounts fuel (mnt_next m)
  end.

Definition vfs_sync : K Z :=
  with_lock_irq mount_list_lock (
    mnt <- data mount_list ;; fuel <- heap_fuel ;; sync_mounts fuel mnt) ;;;
  ret VFS_SUCCESS.

(** ** Attributes *)

Definition stat_of_vnode (v : vnode) : vfs_stat :=
  VStat 0 (v_ino v) (v_mode v) (v_nlink v) (v_uid v) (v_gid v) 0 (v_size v) 0 0
    (v_atime v) (v_mtime v) (v_ctime v).

Definition stat_vnode (vnode : Z) : K (Z * option vfs_stat) :=
  op <- vop vo_getattr vnode ;;
  match op with
  | Some getattr => getattr vnode
  | None => v <- the_vnode vnode ;; ret (VFS_SUCCESS, Some (stat_of_vnode v))
  end.

Definition stat_path (path : option (list Z)) (follow_final : bool) : K (Z * option vfs_stat) :=
  match path with
  | None => ret (- EINVAL, None)
  | Some _ =>
      l <- vfs_lookup_internal nesting path follow_final ;;
      let '(rc, vnode) := l in
      if negb (rc =? 0) then ret (rc, None)
      else
        r <- stat_vnode vnode ;;
        vnode_unref vnode ;;;
        ret r
  end.
Definition vfs_stat_path (path : option (list Z)) : K (Z * option vfs_stat) := stat_path path true.
Definition vfs_lstat (path : option (list Z)) : K (Z * option vfs_stat) := stat_path path false.
Definition vfs_fstat (file : Z) : K (Z * option vfs_stat) :=
  if file =? NULL then ret (- EINVAL, None)
  else f <- the_file file ;; stat_vnode (f_vnode f).

(** The permission bits of [mode] that apply to a user, and those asked for. *)
Definition grants (v : vnode) (uid gid mode : Z) : bool :=
  let req_mode := Z.lor (Z.lor (if has_flag mode R_OK then 0x124 else 0)
                               (if has_flag mode W_OK then 0x92 else 0))
                        (if has_flag mode X_OK then 0x49 else 0) in
  let shift := if v_uid v =? uid then 6 else if v_gid v =? gid then 3 else 0 in
  let perms := Z.land (Z.shiftr (v_mode v) shift) 7 in
  let req := Z.land (Z.shiftr req_mode shift) 7 in
  Z.land perms req =? req.

(** [uid] and [gid] are the constant 0 in the source. *)
Definition vfs_access (path : option (list Z)) (mode : Z) : K Z :=
  l <- vfs_lookup path ;;
  let '(rc, vnode) := l in
  if negb (rc =? 0) then ret rc
  else
    let uid := 0 in
    let gid := 0 in
    if uid =? 0 then vnode_unref vnode ;;; ret VFS_SUCCESS
    else
      v <- the_vnode vnode ;;
      vnode_unref vnode ;;;
      ret (if grants v uid gid mode then VFS_SUCCESS else - EACCES).

Definition vfs_chmod (path : option (list Z)) (mode : Z) : K Z :=
  l <- vfs_lookup path ;;
  let '(rc, vnode) := l in
  if negb (rc =? 0) then ret rc
  else
    now <- vfs_now ;;
    with_lock_irq vnode (upd_vnode vnode (fun v =>
      v_dirty (v_changed now (v_set_owner
        (Z.lor (Z.land (v_mode v) VFS_IFMT) (Z.ldiff mode VFS_IFMT)) (v_uid v) (v_gid v) v)))) ;;;
    vnode_unref vnode ;;;
    ret VFS_SUCCESS.

(** [(uid_t)-1]. *)
Definition NO_ID : Z := 0xFFFFFFFF.

Definition vfs_chown (path : option (list Z)) (uid gid : Z) : K Z :=
  l <- vfs_lookup path ;;
  let '(rc, vn) := l in
  if negb (rc =? 0) then ret rc
  else
    now <- vfs_now ;;
    with_lock_irq vn (upd_vnode vn (fun v =>
      v_dirty (v_changed now (v_set_owner (v_mode v)
        (if uid =? NO_ID then v_uid v else uid) (if gid =? NO_ID then v_gid v else gid) v)))) ;;;
    vnode_unref vn ;;;
    ret VFS_SUCCESS.

(** ** Making and removing names *)

(** [f] on the parent directory and the last name of a path, which are given
    back afterwards. *)
Definition in_parent {X : Type} (path : option (list Z)) (err : Z -> X) (f : Z -> list Z -> K X) : K X :=
  l <- vfs_lookup_parent path ;;
  let '(rc, parent, name) := l in
  if negb (rc =? 0) then ret (err rc)
  else
    str <- the_str name ;;
    x <- f parent str ;;
    free name ;;;
    vnode_unref parent ;;;
    ret x.

Definition vfs_mkdir (path : option (list Z)) (mode : Z) : K Z :=
  in_parent path id (fun parent name =>
    op <- vop vo_mkdir parent ;;
    match op with
    | None => ret (- ENOSYS)
    | Some mkdir =>
        rc <- mkdir parent (Some name) (Z.lor mode VFS_IFDIR) ;;
        if rc =? 0 then vfs_update_mtime parent ;;; bump_counts count_create ;;; ret rc else ret rc
    end).

Definition vfs_create (path : option (list Z)) (mode : Z) : K Z :=
  in_parent path id (fun parent name =>
    op <- vop vo_create parent ;;
    match op with
    | None => ret (- ENOSYS)
    | Some create =>
        r <- create parent (Some name) (Z.lor mode VFS_IFREG) true ;;
        let '(rc, vnode) := r in
        if (rc =? 0) && negb (vnode =? NULL) then
          vfs_update_mtime parent ;;; vnode_unref vnode ;;; bump_counts count_create ;;; ret rc
        else ret rc
    end).

(** The checks of [vfs_mknod] on its arguments: 0, or an error. *)
Definition mknod_check (mode dev : Z) : Z :=
  let file_type := Z.land mode VFS_IFMT in
  let device := (file_type =? VFS_IFCHR) || (file_type =? VFS_IFBLK) in
  if (file_type =? VFS_IFREG) || device || (file_type =? VFS_IFIFO) || (file_type =? VFS_IFSOCK) then
    if device && (dev =? 0) then - EINVAL else 0
  else if (file_type =? VFS_IFDIR) || (file_type =? VFS_IFLNK) then - EPERM
  else - EINVAL.

Definition vfs_mknod (path : option (list Z)) (mode dev : Z) : K Z :=
  match path with
  | None => ret (- EINVAL)
  | Some _ =>
      if negb (mknod_check mode dev =? 0) then ret (mknod_check mode dev)
      else
        let file_type := Z.land mode VFS_IFMT in
        in_parent path id (fun parent name =>
          op <- vop vo_create parent ;;
          match op with
          | None => ret (- ENOSYS)
          | Some create =>
              r <- create parent (Some name) mode true ;;
              let '(rc, vnode) := r in
              if (rc =? 0) && negb (vnode =? NULL) then
                (if (file_type =? VFS_IFCHR) || (file_type =? VFS_IFBLK)
                 then with_lock_irq vnode (upd_vnode vnode (fun v => v_dirty (v_set_rdev dev v)))
                 else ret tt) ;;;
                vnode_unref vnode ;;;
                vfs_update_mtime parent ;;;
                ret rc
              else ret rc
          end)
  end.

Definition vfs_symlink (target linkpath : option (list Z)) : K Z :=
  match target with
  | None => ret (- EINVAL)
  | Some _ =>
      in_parent linkpath id (fun parent name =>
        op <- vop vo_symlink parent ;;
        match op with
        | None => ret (- ENOSYS)
        | Some symlink =>
            rc <- symlink parent (Some name) target ;;
            if rc =? 0 then vfs_update_mtime parent ;;; ret rc else ret rc
        end)
  end.

Definition vfs_rmdir (path : option (list Z)) : K Z :=
  in_parent path id (fun parent name =>
    op <- vop vo_rmdir parent ;;
    match op with
    | None => ret (- ENOSYS)
    | Some rmdir =>
        rc <- rmdir parent (Some name) ;;
        if rc =? 0 then
          vfs_update_mtime parent ;;; vfs_dentry_remove path ;;; bump_counts count_delete ;;; ret rc
        else ret rc
    end).

(** The changes of [vfs_unlink] and [vfs_link] to the two vnodes. *)
Definition touch_target (target now : Z) (g : vnode -> vnode) : K unit :=
  with_lock_irq target (upd_vnode target (fun v => v_dirty (v_changed now (g v)))).
Definition touch_parent (parent now : Z) : K unit :=
  with_lock_irq parent (upd_vnode parent (fun v => v_dirty (v_set_times (v_atime v) now now v))).

Definition vfs_unlink (path : option (list Z)) : K Z :=
  in_parent path id (fun parent name =>
    l <- vfs_lookup path ;;
    let '(rc, target) := l in
    if negb (rc =? 0) then ret rc
    else
      op <- vop vo_unlink parent ;;
      rc <- match op with
            | None => ret (- ENOSYS)
            | Some unlink =>
                now <- vfs_now ;;
                rc <- unlink parent (Some name) ;;
                if negb (rc =? 0) then ret rc
                else
                  touch_target target now (fun v => if 0 <? v_nlink v then v_set_nlink (v_nlink v - 1) v else v) ;;;
                  touch_parent parent now ;;;
                  ret rc
            end ;;
      vnode_unref target ;;;
      ret rc).

Definition vfs_link (oldpath newpath : option (list Z)) : K Z :=
  l <- vfs_lookup oldpath ;;
  let '(rc, target) := l in
  if negb (rc =? 0) then ret rc
  else
    rc <- in_parent newpath id (fun parent name =>
      op <- vop vo_link parent ;;
      match op with
      | None => ret (- ENOSYS)
      | Some link =>
          now <- vfs_now ;;
          rc <- link parent (Some name) target ;;
          if negb (rc =? 0) then ret rc
          else
            touch_target target now (fun v => v_set_nlink (u32 (v_nlink v + 1)) v) ;;;
            touch_parent parent now ;;;
            ret rc
      end) ;;
    vnode_unref target ;;;
    ret rc.

Definition vfs_readlink (path : option (list Z)) (buf : ptr) (bufsize : Z) : K (Z * list Z) :=
  match path, buf with
  | Some _, PObj =>
      if bufsize =? 0 then ret (- EINVAL, [])
      else
        l <- vfs_lookup path ;;
        let '(rc, vnode) := l in
        if negb (rc =? 0) then ret (rc, [])
        else
          v <- the_vnode vnode ;;
          if negb (type_of v =? VFS_IFLNK) then vnode_unref vnode ;;; ret (- EINVAL, [])
          else
            op <- vop vo_readlink vnode ;;
            match op with
            | None => vnode_unref vnode ;;; ret (- ENOSYS, [])
            | Some readlink =>
                r <- readlink vnode PObj (if VFS_MAX_PATH <? bufsize then VFS_MAX_PATH else bufsize) ;;
                vnode_unref vnode ;;;
                ret r
            end
  | _, _ => ret (- EINVAL, [])
  end.

Definition vfs_truncate (path : option (list Z)) (length : Z) : K Z :=
  match path with
  | None => ret (- EINVAL)
  | Some _ =>
      l <- vfs_lookup path ;;
      let '(rc, vnode) := l in
      if negb (rc =? 0) then ret rc
      else
        op <- vop vo_truncate vnode ;;
        match op with
        | None => vnode_unref vnode ;;; ret (- ENOSYS)
        | Some truncate =>
            rc <- truncate vnode length ;;
            (if rc =? 0 then vfs_update_mtime vnode else ret tt) ;;;
            vnode_unref vnode ;;;
            ret rc
        end
  end.

(** What [vfs_rename] does to an existing target: 0, or an error. *)
Definition rename_over (old_vnode new_parent target : Z) (new_name : list Z) : K Z :=
  o <- the_vnode old_vnode ;;
  t <- the_vnode target ;;
  if (type_of o =? VFS_IFDIR) && negb (type_of t =? VFS_IFDIR) then
    vnode_unref target ;;; ret (- ENOTDIR)
  else if negb (type_of o =? VFS_IFDIR) && (type_of t =? VFS_IFDIR) then
    vnode_unref target ;;; ret (- EISDIR)
  else
    remove <- vop_must (if type_of t =? VFS_IFDIR then vo_rmdir else vo_unlink) new_parent ;;
    rc <- remove new_parent (Some new_name) ;;
    vnode_unref target ;;;
    ret rc.

(** The new name is made, then the old one removed. *)
Definition rename_names (old_vnode old_parent new_parent : Z) (old_name new_name : list Z) : K Z :=
  op <- vop vo_link new_parent ;;
  match op with
  | None => ret (- ENOSYS)
  | Some link =>
      rc <- link new_parent (Some new_name) old_vnode ;;
      if negb (rc =? 0) then ret rc
      else
        op <- vop vo_unlink old_parent ;;
        rc <- match op with
              | None => ret (- ENOSYS)
              | Some unlink => unlink old_parent (Some old_name)
              end ;;
        if negb (rc =? 0) then
          undo <- vop_must vo_unlink new_parent ;;
          _ <- undo new_parent (Some new_name) ;;
          ret rc
        else ret 0
  end.

Definition vfs_rename (oldpath newpath : option (list Z)) : K Z :=
  match oldpath, newpath with
  | Some _, Some _ =>
      l <- vfs_lookup oldpath ;;
      let '(rc, old_vnode) := l in
      if negb (rc =? 0) then ret rc
      else
        lp <- vfs_lookup_parent oldpath ;;
        let '(rc, old_parent, old_name) := lp in
        if negb (rc =? 0) then vnode_unref old_vnode ;;; ret rc
        else
          lp <- vfs_lookup_parent newpath ;;
          let '(rc, new_parent, new_name) := lp in
          if negb (rc =? 0) then
            vnode_unref old_vnode ;;; vnode_unref old_parent ;;; free old_name ;;; ret rc
          else
            old_str <- the_str old_name ;;
            new_str <- the_str new_name ;;
            l <- vfs_lookup newpath ;;
            let '(rc, target) := l in
            rc <- (if rc =? 0 then rename_over old_vnode new_parent target new_str else ret 0) ;;
            rc <- (if negb (rc =? 0) then ret rc
                   else rename_names old_vnode old_parent new_parent old_str new_str) ;;
            (if rc =? 0 then
               vfs_dentry_remove oldpath ;;; vfs_dentry_remove newpath ;;; vfs_update_mtime old_vnode
             else ret tt) ;;;
            vnode_unref old_vnode ;;;
            vnode_unref old_parent ;;;
            vnode_unref new_parent ;;;
            free old_name ;;;
            free new_name ;;;
            ret rc
  | _, _ => ret (- EINVAL)
  end.

(** The entry stored through [dirent], if any. *)
Definition vfs_readdir (file : Z) : K (Z * option vfs_dirent) :=
  if file =? NULL then ret (- EINVAL, None)
  else
    f <- the_file file ;;
    v <- the_vnode (f_vnode f) ;;
    if negb (type_of v =? VFS_IFDIR) then ret (- ENOTDIR, None)
    else
      op <- vop vo_readdir (f_vnode f) ;;
      match op with
      | None => ret (- ENOSYS, None)
      | Some readdir =>
          offset <- get_offset file ;;
          r <- readdir (f_vnode f) offset ;;
          let '(rc, dirent, offset) := r in
          (if rc =? 0 then set_offset file offset else ret tt) ;;;
          ret (rc, dirent)
      end.

(** ** Contexts *)

Definition vfs_context_create : K Z :=
  ctx <- new sizeof_vfs_context (OContext (Context_ 0 0 0)) ;;
  if ctx =? NULL then ret NULL
  else
    root <- data root_mount ;;
    dir <- (if root =? NULL then ret NULL else m <- the_mount root ;; ret (mnt_root m)) ;;
    (if dir =? NULL then ret tt else vfs_vnode_ref dir ;;; vfs_vnode_ref dir) ;;;
    put ctx (OContext (Context_ dir dir 0x12)) ;;;
    init_lock ctx ;;;
    ret ctx.

Definition ref_if (vnode : Z) : K unit := if vnode =? NULL then ret tt else vfs_vnode_ref vnode.
Definition unref_if (vnode : Z) : K unit := if vnode =? NULL then ret tt else vnode_unref vnode.

Definition vfs_context_dup (ctx : Z) : K Z :=
  if ctx =? NULL then ret NULL
  else
    new_ctx <- new sizeof_vfs_context (OContext (Context_ 0 0 0)) ;;
    if new_ctx =? NULL then ret NULL
    else
      with_lock_irq ctx (
        c <- the_context ctx ;;
        put new_ctx (OContext c) ;;;
        ref_if (cx_cwd c) ;;;
        ref_if (cx_root c)) ;;;
      init_lock new_ctx ;;;
      ret new_ctx.

Definition vfs_context_free (ctx : Z) : K unit :=
  if ctx =? NULL then ret tt
  else
    c <- the_context ctx ;;
    unref_if (cx_cwd c) ;;;
    unref_if (cx_root c) ;;;
    free ctx.

Definition vfs_chdir (ctx : Z) (path : option (list Z)) : K Z :=
  match path with
  | None => ret (- EINVAL)
  | Some _ =>
      if ctx =? NULL then ret (- EINVAL)
      else
        l <- vfs_lookup path ;;
        let '(rc, vnode) := l in
        if negb (rc =? 0) then ret rc
        else
          v <- the_vnode vnode ;;
          if negb (type_of v =? VFS_IFDIR) then vnode_unref vnode ;;; ret (- ENOTDIR)
          else
            old_cwd <- with_lock_irq ctx (
              c <- the_context ctx ;;
              put ctx (OContext (Context_ vnode (cx_root c) (cx_umask c))) ;;;
              ret (cx_cwd c)) ;;
            unref_if old_cwd ;;;
            ret VFS_SUCCESS
  end.

Definition vfs_getcwd (ctx : Z) (buf : ptr) (size : Z) : K (Z * list Z) :=
  match buf with
  | PNull => ret (- EINVAL, [])
  | PObj =>
      if (ctx =? NULL) || (size =? 0) then ret (- EINVAL, [])
      else
        with_lock_irq ctx (
          c <- the_context ctx ;;
          if cx_cwd c =? NULL then ret (- ENOENT, [])
          else if size <? 2 then ret (- ERANGE, [])
          else ret (VFS_SUCCESS, [SLASH; 0]))
  end.

(** ** Start-up *)

Definition tmpfs_init : K Z := vfs_register_filesystem tmpfs_vfs_ops.

(** The file-system part of the kernel's start-up: its result is that of
    mounting the root. *)
Definition vfs_start : K Z :=
  _ <- vfs_init ;;
  _ <- tmpfs_init ;;
  vfs_mount_op (Some [SLASH]) (Some tmpfs_name) 0.
End vfs.
