(* ===== verification/VfsFacts.v ===== *)
(** * The name layer: its objects in the heap

    [vfs_ok d e t rt T own strs] describes the state of the virtual file
    system above a tmpfs: the root's vnode and node [rt], the cached names [T]
    by slot, the references [own] that callers hold, each a vnode and the node
    it leads to, and the temporary strings [strs].  The reference count of a
    vnode is the number of its owners: the root mount, cached names and
    callers.  The rules of this file run the operations on one such object. *)

From stdpp Require Import base numbers list gmap.
From S2P Require Import Prelude Spinlock Kernel KLogic VfsPath Fs Tmpfs TmpfsFacts TmpfsDir TmpfsOps TmpfsThms Vfs.

(** ** Counting *)

Fixpoint occ (v : Z) (l : list Z) : Z :=
  match l with [] => 0 | x :: l => (if x =? v then 1 else 0) + occ v l end.

Lemma occ_app v l1 l2 : occ v (l1 ++ l2) = occ v l1 + occ v l2.
Proof. induction l1 as [|x l1 IH]; simpl; lia. Qed.

Lemma occ_nonneg v l : 0 <= occ v l.
Proof. induction l as [|x l IH]; simpl; [lia|]. destruct (x =? v); lia. Qed.

Lemma occ_length v l : occ v l <= Z.of_nat (length l).
Proof. induction l as [|x l IH]; simpl; [lia|]. destruct (x =? v); lia. Qed.

Lemma occ_pos v l : 0 < occ v l <-> v ∈ l.
Proof.
  induction l as [|x l IH]; simpl.
  - split; [lia|]. by intros ?%elem_of_nil.
  - rewrite elem_of_cons, <- IH. pose proof (occ_nonneg v l). destruct (Z.eqb_spec x v) as [->|Hne].
    + split; [by left|lia].
    + split; [by right|intros [->|?]; [done|lia]].
Qed.

#[export] Instance occ_proper v : Proper ((≡ₚ) ==> eq) (occ v).
Proof. intros l1 l2 Hp. induction Hp; simpl; lia. Qed.

(** ** Cached names *)

Record cdent := CDent { cd_addr : Z; cd_naddr : Z; cd_name : list Z; cd_vnode : Z; cd_node : Z }.

Definition cd_pair (c : cdent) : Z * Z := (cd_vnode c, cd_node c).
Definition cd_str (c : cdent) : Z * fsobj := (cd_naddr c, OStr (cd_name c)).

(** The chain of a slot. *)
Fixpoint dchain (h : gmap Z fsobj) (slot : nat) (a : Z) (l : list cdent) : Prop :=
  match l with
  | [] => a = NULL
  | c :: l => a = cd_addr c /\ dentry_hash_func (cd_name c) = Z.of_nat slot /\ exists next,
      h !! cd_addr c = Some (ODentry (Dentry (cd_naddr c) (cd_vnode c) NULL next (Z.of_nat slot))) /\
      dchain h slot next l
  end.

Lemma dchain_mono h h' slot a l :
  (forall c o, c ∈ l -> h !! cd_addr c = Some (ODentry o) -> h' !! cd_addr c = Some (ODentry o)) ->
  dchain h slot a l -> dchain h' slot a l.
Proof.
  revert a. induction l as [|c l IH]; intros a Hk; simpl; [done|].
  intros (-> & Hh & next & Hc & Hl). split; [done|]. split; [done|]. exists next. split.
  - apply Hk; [by apply elem_of_cons; left|done].
  - apply IH; [|done]. intros c' o Hc'. apply Hk. by apply elem_of_cons; right.
Qed.

Lemma dchain_elem h slot a l c : dchain h slot a l -> c ∈ l ->
  dentry_hash_func (cd_name c) = Z.of_nat slot /\
  exists next, h !! cd_addr c = Some (ODentry (Dentry (cd_naddr c) (cd_vnode c) NULL next (Z.of_nat slot))).
Proof.
  revert a. induction l as [|x l IH]; intros a; simpl; [by intros _ ?%elem_of_nil|].
  intros (_ & Hh & next & Hx & Hl) [->|Hc]%elem_of_cons; [by eauto|by eapply IH].
Qed.

Abbreviation cache := (list (list cdent)).

Definition cached (T : cache) : list cdent := mjoin T.

(** The cached name a lookup finds. *)
Fixpoint find_name (path : list Z) (l : list cdent) : option cdent :=
  match l with
  | [] => None
  | c :: l => if names_equal (cd_name c) path then Some c else find_name path l
  end.

Lemma find_name_elem path l c : find_name path l = Some c -> c ∈ l /\ cd_name c = path.
Proof.
  induction l as [|x l IH]; simpl; [done|]. destruct (names_equal_spec (cd_name x) path) as [Heq|_].
  - intros [= <-]. split; [by apply elem_of_cons; left|done].
  - intros Hf. destruct (IH Hf). split; [by apply elem_of_cons; right|done].
Qed.

Definition slot_of (path : list Z) : nat := Z.to_nat (dentry_hash_func path).
Definition cache_find (T : cache) (path : list Z) : option cdent := find_name path (default [] (T !! slot_of path)).

Lemma dslot_range path : 0 <= dentry_hash_func path < DENTRY_HASH_SIZE.
Proof. unfold dentry_hash_func. apply Z.mod_pos_bound. done. Qed.

Lemma cached_elem (T : cache) i l c : T !! i = Some l -> c ∈ l -> c ∈ cached T.
Proof. intros Hi Hc. apply list_elem_of_join. exists l. split; [done|]. by eapply list_elem_of_lookup_2. Qed.

Lemma cached_inv (T : cache) c : c ∈ cached T -> exists i l, T !! i = Some l /\ c ∈ l.
Proof.
  intros (l & Hc & Hl)%list_elem_of_join. apply list_elem_of_lookup_1 in Hl as [i Hi]. by exists i, l.
Qed.

Lemma cache_find_elem T path c : cache_find T path = Some c -> c ∈ cached T /\ cd_name c = path.
Proof.
  unfold cache_find. destruct (T !! slot_of path) as [l|] eqn:Hl; simpl; [|done].
  intros Hf. destruct (find_name_elem _ _ _ Hf). split; [by eapply cached_elem|done].
Qed.

(** The cache with [c] in front of its slot. *)
Definition cache_add (T : cache) (c : cdent) : cache := alter (cons c) (slot_of (cd_name c)) T.

Lemma cached_add T c l : T !! slot_of (cd_name c) = Some l -> cached (cache_add T c) ≡ₚ c :: cached T.
Proof.
  intros Hl. unfold cached, cache_add. generalize dependent (slot_of (cd_name c)). induction T as [|x T IH]; intros i Hi; [done|].
  destruct i as [|i]; simpl in *; [done|]. rewrite (IH i Hi). by rewrite Permutation_middle.
Qed.

(** ** The invariant *)

Definition ftype (o : fnode) : Z :=
  match o with FFile _ => VFS_IFREG | FDir _ => VFS_IFDIR | FSym _ => VFS_IFLNK end.

Lemma vnode_type_view h t p a : shape h t -> t !! p = Some a -> vnode_type a = ftype (view_node a).
Proof.
  intros Hsh Hp. pose proof (sh_body _ _ Hsh _ _ Hp) as Hb. unfold vnode_type.
  destruct a as [n [[]| |[]]]; simpl in *; destruct Hb as (-> & _); done.
Qed.

(** An object of the name layer that is not linked from another. *)
Definition tmp_ok (h : gmap Z fsobj) (t : tree) (xo : Z * fsobj) : Prop :=
  h !! xo.1 = Some xo.2 /\ foreign t xo.1 xo.2.

(** A vnode [vp.1] of node [vp.2] that has [k] owners. *)
Definition handle_ok (d : fsd) (t : tree) (k : Z) (vp : Z * Z) : Prop :=
  exists w o, fs_heap d !! vp.1 = Some (OVnode w) /\ v_private w = vp.2 /\ v_ops w = tmpfs_vnode_ops /\
    view t !! vp.2 = Some o /\ type_of w = ftype o /\ v_refcount w = k.

Definition pairs (rt : Z * Z) (T : cache) (own : list (Z * Z)) : list (Z * Z) := rt :: (cd_pair <$> cached T) ++ own.
Definition strings (T : cache) (strs : list (Z * fsobj)) : list (Z * fsobj) := (cd_str <$> cached T) ++ strs.

(** How many owners a vnode has. *)
Definition owners (rt : Z * Z) (T : cache) (own : list (Z * Z)) (v : Z) : Z := occ v (pairs rt T own).*1.

Arguments pairs : simpl never.
Arguments owners : simpl never.
Arguments strings : simpl never.

Lemma owners_cons rt T own u p v : owners rt T ((u, p) :: own) v = (if u =? v then 1 else 0) + owners rt T own v.
Proof. unfold owners, pairs. rewrite !fmap_cons, !fmap_app, fmap_cons. simpl. rewrite !occ_app. simpl. lia. Qed.

Lemma owners_pos rt T own v p : (v, p) ∈ pairs rt T own -> 0 < owners rt T own v.
Proof. intros Hv. apply occ_pos. by apply (list_elem_of_fmap_2 fst _ (v, p)). Qed.

Lemma owners_elem rt T own v : 0 < owners rt T own v -> exists p, (v, p) ∈ pairs rt T own.
Proof. intros Hv%occ_pos. apply list_elem_of_fmap in Hv as ([u p] & -> & Hp). by exists p. Qed.

Lemma owners_bound rt T own v : owners rt T own v <= 1 + Z.of_nat (length (cached T)) + Z.of_nat (length own).
Proof.
  unfold owners. etrans; [apply occ_length|]. unfold pairs. rewrite length_fmap. simpl. rewrite length_app, length_fmap. lia.
Qed.

Section inv.
Context {E : Type} `{TimeSource E}.
Implicit Types (d : fsd) (e : E) (t : tree) (fl : Z) (held : list Z) (T : cache).

Record vfs_ok d e t (rt : Z * Z) T (own : list (Z * Z)) (strs : list (Z * fsobj)) : Prop := {
  vo_tfs : tfs d e t;
  vo_vtable : vtable d;
  vo_len : Z.of_nat (length (dentry_hash d)) = DENTRY_HASH_SIZE /\ length T = length (dentry_hash d);
  vo_chain i l a : T !! i = Some l -> dentry_hash d !! i = Some a -> dchain (fs_heap d) i a l;
  vo_strs : Forall (tmp_ok (fs_heap d) t) (strings T strs);
  vo_addrs : NoDup ((cd_addr <$> cached T) ++ (strings T strs).*1);
  vo_root : root_mount d <> NULL /\ exists m, fs_heap d !! root_mount d = Some (OMount m) /\ mnt_root m = rt.1;
  vo_rootdir : exists m, view t !! rt.2 = Some (FDir m);
  vo_handle vp : vp ∈ pairs rt T own -> handle_ok d t (owners rt T own vp.1) vp
}.

(** Nodes keep their kind. *)
Definition kinds (fs fs' : gmap Z fnode) : Prop :=
  forall p o, fs !! p = Some o -> exists o', fs' !! p = Some o' /\ ftype o' = ftype o.

Lemma kinds_refl fs : kinds fs fs.
Proof. intros p o Hp. by exists o. Qed.

Lemma kinds_trans fs1 fs2 fs3 : kinds fs1 fs2 -> kinds fs2 fs3 -> kinds fs1 fs3.
Proof.
  intros H1 H2 p o Hp. destruct (H1 _ _ Hp) as (o1 & Hp1 & Hk1). destruct (H2 _ _ Hp1) as (o2 & Hp2 & Hk2).
  exists o2. split; [done|congruence].
Qed.

#[export] Instance kinds_preorder : PreOrder kinds.
Proof. split; [intros fs; apply kinds_refl|intros fs1 fs2 fs3; apply kinds_trans]. Qed.

Lemma kinds_insert p o fs : (forall o', fs !! p = Some o' -> ftype o' = ftype o) -> kinds fs (<[p := o]> fs).
Proof.
  intros Hp q o' Hq. destruct (decide (q = p)) as [->|Hne].
  - exists o. rewrite lookup_insert_eq. split; [done|]. symmetry. by apply Hp.
  - exists o'. by rewrite lookup_insert_ne.
Qed.

Lemma dstep_kinds fs dir a rc fs' : dstep fs dir a rc fs' -> kinds fs fs'.
Proof.
  assert (Hmake : forall name o m p, fs !! dir = Some (FDir m) -> fs !! p = None ->
    kinds fs (<[dir := FDir (<[name := p]> m)]> (<[p := o]> fs))).
  { intros name o m p Hd Hp. eapply kinds_trans; apply kinds_insert; intros o' Ho'; [congruence|].
    rewrite lookup_insert_ne in Ho' by congruence. by simplify_eq. }
  intros Hd. destruct Hd; try apply kinds_refl; try (by apply Hmake);
    apply kinds_insert; intros o' Ho'; by simplify_eq.
Qed.

(** ** Changes that keep the invariant *)

Definition fixed_obj (o : fsobj) : Prop := match o with ODentry _ | OMount _ => True | _ => False end.

Lemma vfs_ok_change d e t rt T own strs d' e' t' own' strs' :
  vfs_ok d e t rt T own strs ->
  tfs d' e' t' -> vtable d' -> dentry_hash d' = dentry_hash d -> root_mount d' = root_mount d ->
  (forall x o, fs_heap d !! x = Some o -> fixed_obj o -> fs_heap d' !! x = Some o) ->
  Forall (tmp_ok (fs_heap d') t') (strings T strs') -> NoDup ((cd_addr <$> cached T) ++ (strings T strs').*1) ->
  kinds (view t) (view t') ->
  (forall vp, vp ∈ pairs rt T own' -> handle_ok d' t' (owners rt T own' vp.1) vp) ->
  vfs_ok d' e' t' rt T own' strs'.
Proof.
  intros [H1 H2 H3 H4 H6 H7 H8 H9 H10] Ht Hv Hdh Hrm Hfix Hstr Hnd Hk Hh.
  split; rewrite ?Hdh, ?Hrm; try done.
  - intros i l a Hl Ha. eapply dchain_mono; [|by eapply H4]. intros c o _ Hc. by apply Hfix.
  - destruct H8 as [Hr0 (m & Hm & Hmr)]. split; [done|]. exists m. split; [by apply Hfix|done].
  - destruct H9 as [m Hm]. destruct (Hk _ _ Hm) as (o & Ho & Hft). destruct o; try done. by eexists.
Qed.

Lemma strs_keep h h' t l :
  (forall x o, x ∈ l.*1 -> foreign t x o -> h !! x = Some o -> h' !! x = Some o) ->
  Forall (tmp_ok h t) l -> Forall (tmp_ok h' t) l.
Proof.
  intros Hk. rewrite !Forall_forall. intros Hl xo Hxo. destruct (Hl _ Hxo) as [Hx Hu]. split; [|done].
  apply Hk; [by apply list_elem_of_fmap_2|done..].
Qed.

(** A vnode is not such an object. *)
Lemma strs_vnode h h' t l v w :
  h !! v = Some (OVnode w) -> (forall x, x <> v -> h' !! x = h !! x) ->
  Forall (tmp_ok h t) l -> Forall (tmp_ok h' t) l.
Proof.
  intros Hv Hk. apply strs_keep. intros x o _ Hf Hx. rewrite Hk; [done|]. intros ->. rewrite Hv in Hx. by injection Hx as <-.
Qed.

Lemma handle_kinds d t t' k vp : kinds (view t) (view t') -> handle_ok d t k vp -> handle_ok d t' k vp.
Proof.
  intros Hk (w & o & Hw & Hp & Ho & Hv & Hty & Hr). destruct (Hk _ _ Hv) as (o' & Hv' & Hk').
  exists w, o'. rewrite Hk'. done.
Qed.

(** The environment, the clock and the statistics move on. *)
Lemma vfs_ok_env d e t rt T own strs d' e' :
  vfs_ok d e t rt T own strs -> al_live e' = al_live e ->
  fs_heap d' = fs_heap d -> vnode_hash d' = vnode_hash d -> dentry_hash d' = dentry_hash d ->
  root_mount d' = root_mount d -> vfs_ok d' e' t rt T own strs.
Proof.
  intros Hok Hl Hh Hvh Hdh Hrm. pose proof Hok as [H1 H2 H3 H4 H6 H7 H8 H9 H10].
  eapply vfs_ok_change; [exact Hok|..]; try done; rewrite ?Hh; try done.
  - eapply tf_static; [by eapply tf_env|done|by rewrite Hvh].
  - intros slot a. rewrite Hvh, Hh. apply H2.
  - intros vp Hvp. destruct (H10 _ Hvp) as (w & o & ?). exists w, o. by rewrite Hh.
Qed.

Lemma pairs_perm rt T own own' : own ≡ₚ own' -> pairs rt T own ≡ₚ pairs rt T own'.
Proof. intros Hp. unfold pairs. by rewrite Hp. Qed.

Lemma vfs_ok_perm d e t rt T own own' strs strs' :
  own ≡ₚ own' -> strs ≡ₚ strs' -> vfs_ok d e t rt T own strs -> vfs_ok d e t rt T own' strs'.
Proof.
  intros Hp Hs Hok. pose proof Hok as [H1 H2 H3 H4 H6 H7 H8 H9 H10].
  eapply vfs_ok_change; [exact Hok|..]; try done.
  - unfold strings in *. by rewrite <- Hs.
  - unfold strings in *. by rewrite <- Hs.
  - intros vp Hvp. unfold owners in *. rewrite <- (pairs_perm rt T own own' Hp) in Hvp |- *. by apply H10.
Qed.

(** A vnode changes in what its owners do not depend on. *)
Definition same_core (w w' : vnode) : Prop :=
  v_ino w' = v_ino w /\ v_next w' = v_next w /\ v_private w' = v_private w /\ v_ops w' = v_ops w /\
  type_of w' = type_of w.

Lemma tfs_vnode_put d e t v w w' : tfs d e t -> fs_heap d !! v = Some (OVnode w) -> tfs (put_obj v (OVnode w') d) e t.
Proof.
  intros Ht Hv. destruct (tf_heap _ _ _ Ht _ _ Hv). apply (tfs_put_vnode d e t); [done..| |done|done].
  intros o Ho. rewrite Hv in Ho. injection Ho as <-. by eexists.
Qed.

Lemma vtable_put d v w w' :
  fs_heap d !! v = Some (OVnode w) -> v_ino w' = v_ino w -> v_next w' = v_next w -> vtable d ->
  vtable (put_obj v (OVnode w') d).
Proof.
  intros Hv Hi Hn Ht slot a Ha. destruct (Ht _ _ Ha) as (l & Hl & Hnd). exists l. split; [|done].
  eapply vlist_mono; [|exact Hl]. intros u x _ Hu. simpl. destruct (decide (u = v)) as [->|Hne].
  - exists w'. rewrite lookup_insert_eq. rewrite Hv in Hu. injection Hu as <-. done.
  - exists x. by rewrite lookup_insert_ne.
Qed.

Lemma vfs_ok_vnode d e t rt T own own' strs v w w' :
  vfs_ok d e t rt T own strs -> fs_heap d !! v = Some (OVnode w) -> same_core w w' ->
  (forall vp, vp ∈ pairs rt T own' -> vp ∈ pairs rt T own) ->
  (forall u, u <> v -> owners rt T own' u = owners rt T own u) ->
  (0 < owners rt T own' v -> v_refcount w' = v_refcount w + owners rt T own' v - owners rt T own v) ->
  vfs_ok (put_obj v (OVnode w') d) e t rt T own' strs.
Proof.
  intros Hok Hv (Hi & Hn & Hp & Ho & Hty) Hsub Hocc Hrc. pose proof Hok as [H1 H2 H3 H4 H6 H7 H8 H9 H10].
  eapply vfs_ok_change; [exact Hok|..]; try done; simpl.
  - by eapply tfs_vnode_put.
  - by eapply vtable_put.
  - intros x o Hx Hf. rewrite lookup_insert_ne; [done|]. intros <-. rewrite Hv in Hx. injection Hx as <-. done.
  - eapply strs_vnode; [done| |exact H6]. intros x Hx. by rewrite lookup_insert_ne.
  - intros vp Hvp. destruct (H10 _ (Hsub _ Hvp)) as (x & o & Hx & Hxp & Hxo & Hxv & Hxt & Hxr).
    destruct (decide (vp.1 = v)) as [Heq|Hne].
    + destruct vp as [u p]. simpl in *. subst u. exists w', o. simpl. rewrite lookup_insert_eq.
      rewrite Hv in Hx. injection Hx as <-. split_and!; try done; try congruence.
      rewrite Hrc; [rewrite Hxr; lia|]. by eapply owners_pos.
    + exists x, o. simpl. rewrite lookup_insert_ne by congruence. rewrite Hocc by done. done.
Qed.

(** A step of tmpfs. *)
Lemma vfs_ok_step d e t rt T own strs d' e' t' :
  vfs_ok d e t rt T own strs -> step d e t d' e' t' -> kinds (view t) (view t') -> vfs_ok d' e' t' rt T own strs.
Proof.
  intros Hok [G1 G2 G3 G4 (G5 & G6 & G7 & G8 & G9) G10] Hk. pose proof Hok as [H1 H2 H3 H4 H6 H7 H8 H9 H10].
  eapply vfs_ok_change; [exact Hok|..]; try done.
  - by apply G10.
  - intros x o Hx Hf. apply G4; [done|]. by destruct o.
  - eapply Forall_impl; [exact H6|]. intros [x o] [Hx Hu]. simpl in *.
    destruct (G4 x o) as [? ?]; [done..|]. by split.
  - intros vp Hvp. destruct (H10 _ Hvp) as (w & o & Hw & Hp & Ho & Hv & Hty & Hr).
    destruct (G2 _ _ Hw) as (w' & Hw' & Hs). destruct (same_vnode_fields _ _ Hs) as (_ & Hm & Hrc & Hops & Hpr & _ & _).
    destruct (Hk _ _ Hv) as (o' & Hv' & Hk'). exists w', o'. unfold type_of in *. rewrite Hm, Hrc, Hops, Hpr, Hk'. done.
Qed.

(** ** References *)

Lemma handle_of d e t rt T own strs v p : vfs_ok d e t rt T own strs -> (v, p) ∈ pairs rt T own ->
  v <> NULL /\ exists w o, fs_heap d !! v = Some (OVnode w) /\ v_private w = p /\ v_ops w = tmpfs_vnode_ops /\
    view t !! p = Some o /\ type_of w = ftype o /\ v_refcount w = owners rt T own v /\ 0 < owners rt T own v.
Proof.
  intros Hok Hin. destruct (vo_handle _ _ _ _ _ _ _ Hok _ Hin) as (w & o & Hw & Hp & Ho & Hv & Ht & Hr). simpl in *.
  destruct (tf_heap _ _ _ (vo_tfs _ _ _ _ _ _ _ Hok) _ _ Hw). split; [unfold NULL; lia|].
  exists w, o. split_and!; try done. by eapply owners_pos.
Qed.

Lemma pairs_cons rt T own vp : pairs rt T (vp :: own) ≡ₚ vp :: pairs rt T own.
Proof. unfold pairs. rewrite <- Permutation_middle. apply perm_swap. Qed.

Lemma pairs_own rt T own vp : vp ∈ pairs rt T (vp :: own).
Proof. rewrite pairs_cons. by apply elem_of_cons; left. Qed.

Lemma pairs_weaken rt T own vp vp' : vp ∈ pairs rt T own -> vp ∈ pairs rt T (vp' :: own).
Proof. rewrite pairs_cons. intros. by apply elem_of_cons; right. Qed.

(** The number of references fits its field. *)
Definition room T (own : list (Z * Z)) (k : Z) : Prop :=
  Z.of_nat (length (cached T)) + Z.of_nat (length own) + k < 2 ^ 32 - 1.

Lemma ev_vref held v p (Q : unit -> fsd -> E -> Z -> Prop) d e t rt T own strs fl :
  vfs_ok d e t rt T own strs -> (v, p) ∈ pairs rt T own -> room T own 1 -> v ∉ held ->
  (forall d', vfs_ok d' e t rt T ((v, p) :: own) strs -> Q tt d' e fl) ->
  ev held (vfs_vnode_ref v) Q d e fl.
Proof.
  intros Hok Hin Hroom Hheld HQ. destruct (handle_of _ _ _ _ _ _ _ _ _ Hok Hin) as (Hv0 & w & o & Hw & Hp & Ho & Hvw & Hty & Hr & Hpos).
  unfold vfs_vnode_ref. destruct (Z.eqb_spec v NULL); [done|]. apply ev_lock_irq; [done|].
  eapply ev_upd_vnode; [done|]. apply HQ. eapply vfs_ok_vnode; [exact Hok|exact Hw|done|..].
  - intros vp. rewrite pairs_cons. intros [->|Hvp]%elem_of_cons; done.
  - intros u Hu. rewrite owners_cons. destruct (Z.eqb_spec v u); [done|lia].
  - intros _. rewrite owners_cons, Z.eqb_refl. simpl. rewrite Hr. unfold u32. rewrite Z.mod_small; [lia|].
    pose proof (owners_bound rt T own v). unfold room in Hroom. lia.
Qed.

(** ** Taking a vnode out of its chain *)

Definition vcell_of (slot : nat) (pre : list Z) : vcell :=
  match last pre with None => VHead (Z.of_nat slot) | Some u => VNext u end.

Lemma vlist_app h slot a l1 l2 : vlist h slot a (l1 ++ l2) -> exists b, vlist h slot b l2 /\
  match last l1 with None => b = a | Some u => exists w, h !! u = Some (OVnode w) /\ v_next w = b end.
Proof.
  revert a. induction l1 as [|u l1 IH]; intros a; simpl; [by exists a|].
  intros (-> & _ & w & Hw & _ & Hl). destruct (IH _ Hl) as (b & Hb & Hm). exists b. split; [done|].
  destruct l1 as [|u' l1]; [simpl in *; by exists w|]. rewrite last_cons_cons.
  destruct (last (u' :: l1)) eqn:Hlast; [done|]. by apply last_None in Hlast.
Qed.

Lemma vlist_head h slot a v l : vlist h slot a (v :: l) -> a = v /\ v <> NULL.
Proof. simpl. by intros (-> & ? & _). Qed.

Lemma vlist_length h slot a l : vlist h slot a l -> NoDup l -> (length l <= size h)%nat.
Proof.
  intros Hl Hnd. rewrite <- (size_list_to_set (C := gset Z)) by done. rewrite <- size_dom. apply subseteq_size.
  intros v. rewrite elem_of_list_to_set, elem_of_dom. intros Hv. destruct (vlist_elem _ _ _ _ _ Hl Hv) as (w & Hw & _). eauto.
Qed.

Lemma ev_vnode_unlink held fuel slot a v pre suf (Q : unit -> fsd -> E -> Z -> Prop) d e fl :
  (length suf < fuel)%nat -> vnode_hash d !! slot = Some a -> vlist (fs_heap d) slot a (pre ++ suf) ->
  (v ∉ suf -> Q tt d e fl) ->
  (forall s1 s2 w, suf = s1 ++ v :: s2 -> fs_heap d !! v = Some (OVnode w) ->
     ev held (write_vcell (vcell_of slot (pre ++ s1)) (v_next w)) Q d e fl) ->
  ev held (vnode_unlink fuel (vcell_of slot pre) v) Q d e fl.
Proof.
  revert pre suf. induction fuel as [|fuel IH]; intros pre suf Hf Ha Hl Hno Hyes; [lia|]. simpl. ev_step.
  destruct (vlist_app _ _ _ _ _ Hl) as (b & Hb & Hlast).
  assert (Hread : ev held (read_vcell (vcell_of slot pre)) (fun r d' e' fl' => r = b /\ d' = d /\ e' = e /\ fl' = fl) d e fl).
  { unfold vcell_of. destruct (last pre) as [u|]; simpl; ev_step.
    - destruct Hlast as (w & Hw & <-). eapply ev_the_vnode; [done|]. by apply ev_ret.
    - subst b. ev_step. eapply ev_lift; [|done]. unfold aread. pose proof (lookup_lt_Some _ _ _ Ha).
      rewrite decide_True by lia. by rewrite Nat2Z.id, Ha. }
  eapply ev_mono; [exact Hread|]. intros r d' e' fl' (-> & -> & -> & ->). clear Hread.
  destruct suf as [|u suf].
  { simpl in Hb. subst b. simpl. apply ev_ret, Hno. apply not_elem_of_nil. }
  destruct (vlist_head _ _ _ _ _ Hb) as [-> Hu0]. destruct (Z.eqb_spec u NULL); [done|].
  destruct Hb as (_ & _ & w & Hw & _ & _). destruct (Z.eqb_spec u v) as [->|Hne].
  - ev_step. eapply ev_the_vnode; [done|]. specialize (Hyes [] suf w eq_refl Hw). by rewrite app_nil_r in Hyes.
  - replace (VNext u) with (vcell_of slot (pre ++ [u])) by (unfold vcell_of; by rewrite last_snoc).
    apply (IH (pre ++ [u]) suf); [simpl in Hf; lia|done|by rewrite <- app_assoc| |].
    + intros Hni. apply Hno. apply not_elem_of_cons. done.
    + intros s1 s2 w1 -> Hw1. rewrite <- app_assoc. by apply (Hyes (u :: s1) s2).
Qed.

(** No chain leads to [v]. *)
Definition unchained d (v : Z) : Prop :=
  forall slot a, vnode_hash d !! slot = Some a -> exists l, vlist (fs_heap d) slot a l /\ NoDup l /\ v ∉ l.

Lemma vlist_relink h slot a pre u x suf b w :
  vlist h slot a (pre ++ u :: x :: suf) -> NoDup (pre ++ u :: x :: suf) -> h !! u = Some (OVnode w) ->
  vlist h slot b suf -> vlist (<[u := OVnode (v_set_next b w)]> h) slot a (pre ++ u :: suf).
Proof.
  intros Hl Hnd Hu Hb. revert a Hl. induction pre as [|y pre IH]; intros a; simpl.
  - intros (-> & Hu0 & w1 & Hw1 & Hs & _). simplify_eq. split; [done|]. split; [done|]. exists (v_set_next b w).
    rewrite lookup_insert_eq. split; [done|]. split; [done|]. eapply vlist_mono; [|exact Hb].
    simpl in Hnd. apply NoDup_cons in Hnd as [Hnu _]. intros z wz Hz Hwz. exists wz.
    rewrite lookup_insert_ne; [done|]. intros ->. apply Hnu. by apply elem_of_cons; right.
  - intros (-> & Hy0 & w1 & Hw1 & Hs & Hl). split; [done|]. split; [done|]. simpl in Hnd.
    apply NoDup_cons in Hnd as [Hny Hnd]. exists w1. rewrite lookup_insert_ne.
    + split; [done|]. split; [done|]. by apply IH.
    + intros ->. apply Hny. rewrite elem_of_app, elem_of_cons. auto.
Qed.

(** The write that takes [v] out of the chain of [slot]. *)
Lemma ev_vnode_unlinked held slot a v pre suf w (Q : unit -> fsd -> E -> Z -> Prop) d e t rt T own strs fl :
  vfs_ok d e t rt T own strs -> vnode_hash d !! slot = Some a -> vlist (fs_heap d) slot a (pre ++ v :: suf) ->
  NoDup (pre ++ v :: suf) -> fs_heap d !! v = Some (OVnode w) ->
  (forall d', vfs_ok d' e t rt T own strs -> fs_heap d' !! v = Some (OVnode w) -> unchained d' v -> Q tt d' e fl) ->
  ev held (write_vcell (vcell_of slot pre) (v_next w)) Q d e fl.
Proof.
  intros Hok Ha Hl Hnd Hw HQ. pose proof Hok as [H1 H2 H3 H4 H6 H7 H8 H9 H10].
  assert (Hhash : vnode_hash_func 0 (v_ino w) = Z.of_nat slot).
  { destruct (vlist_elem _ _ _ _ v Hl) as (w1 & Hw1 & ?); [rewrite elem_of_app, elem_of_cons; auto|]. congruence. }
  assert (Hrest : vlist (fs_heap d) slot (v_next w) suf).
  { destruct (vlist_app _ _ _ _ _ Hl) as (b & (-> & _ & w1 & Hw1 & _ & Hs) & _). congruence. }
  assert (Hother : forall s b l, s <> slot -> vlist (fs_heap d) s b l -> forall u, u ∈ l -> u ∉ pre ++ v :: suf).
  { intros s b l Hs Hl' u Hu Hin. destruct (vlist_elem _ _ _ _ _ Hl' Hu) as (w1 & Hw1 & E1).
    destruct (vlist_elem _ _ _ _ _ Hl Hin) as (w2 & Hw2 & E2). simplify_eq. lia. }
  unfold vcell_of. destruct (last pre) as [u|] eqn:Hlast; simpl.
  - apply last_Some in Hlast as [pre' ->]. rewrite <- app_assoc in Hl, Hnd. simpl in Hl, Hnd.
    destruct (vlist_elem _ _ _ _ u Hl) as (wu & Hwu & _); [rewrite elem_of_app, elem_of_cons; auto|].
    assert (Huv : u <> v).
    { intros ->. apply NoDup_app in Hnd as (_ & _ & [Hn _]%NoDup_cons). apply Hn. by apply elem_of_cons; left. }
    pose proof (vlist_relink _ _ _ _ _ _ _ _ _ Hl Hnd Hwu Hrest) as Hnew.
    assert (Hvt : unchained (put_obj u (OVnode (v_set_next (v_next w) wu)) d) v).
    { intros s b Hb. simpl in Hb. destruct (decide (s = slot)) as [->|Hs].
      - rewrite Ha in Hb. injection Hb as <-. exists (pre' ++ u :: suf). simpl. split; [done|].
        apply NoDup_app in Hnd as (Hn1 & Hn2 & [Hn3 [Hn4 Hn5]%NoDup_cons]%NoDup_cons). split.
        + apply NoDup_app. split; [done|]. split.
          * intros z Hz Hz'. apply (Hn2 z Hz). rewrite !elem_of_cons. apply elem_of_cons in Hz'. tauto.
          * apply NoDup_cons. split; [|done]. intros Hu. apply Hn3. by apply elem_of_cons; right.
        + rewrite elem_of_app, elem_of_cons. intros [Hv|[Hv|Hv]]; [|congruence|done].
          apply (Hn2 v Hv). rewrite !elem_of_cons. auto.
      - destruct (H2 _ _ Hb) as (l & Hl' & Hnd'). exists l. split; [|split; [done|]].
        + eapply vlist_mono; [|exact Hl']. intros z wz Hz Hwz. exists wz. simpl. rewrite lookup_insert_ne; [done|].
          intros <-. eapply (Hother s b l Hs Hl' _ Hz). rewrite !elem_of_app, list_elem_of_singleton. auto.
        + intros Hv. eapply (Hother s b l Hs Hl' _ Hv). rewrite elem_of_app, elem_of_cons. auto. }
    eapply ev_upd_vnode; [exact Hwu|]. apply HQ; [|simpl; by rewrite lookup_insert_ne|done].
    assert (Hvt' : vtable (put_obj u (OVnode (v_set_next (v_next w) wu)) d)).
    { intros s b Hb. destruct (Hvt s b Hb) as (l & ? & ? & _). by exists l. }
    eapply vfs_ok_change; [exact Hok|by eapply tfs_vnode_put|exact Hvt'|..]; try done; simpl.
    + intros x o Hx Hf. rewrite lookup_insert_ne; [done|]. intros <-. rewrite Hwu in Hx. by injection Hx as <-.
    + eapply strs_vnode; [done| |exact H6]. intros x Hx. by rewrite lookup_insert_ne.
    + intros vp Hvp. destruct (H10 _ Hvp) as (x & o & Hx & Hrestx). destruct (decide (vp.1 = u)) as [Heq|Hne].
      * exists (v_set_next (v_next w) wu), o. simpl. rewrite Heq in Hx, Hrestx |- *. rewrite lookup_insert_eq. by simplify_eq.
      * exists x, o. simpl. rewrite lookup_insert_ne by done. done.
  - apply last_None in Hlast as ->. simpl in Hl, Hnd. apply NoDup_cons in Hnd as [Hnv Hnd].
    ev_step. ev_step. ev_step. pose proof (lookup_lt_Some _ _ _ Ha) as Hlt. eapply ev_lift.
    { unfold awrite. rewrite decide_True by lia. done. }
    rewrite Nat2Z.id. ev_step.
    assert (Hvt : unchained (fs_set_vhash (<[slot := v_next w]> (vnode_hash d)) d) v).
    { intros s b Hb. simpl in Hb. apply list_lookup_insert_Some in Hb as [(<- & <- & _)|[Hs Hb]].
      - by exists suf.
      - destruct (H2 _ _ Hb) as (l & Hl' & Hnd'). exists l. split; [done|]. split; [done|]. intros Hv.
        eapply (Hother s b l (not_eq_sym Hs) Hl' _ Hv). by apply elem_of_cons; left. }
    apply HQ; [|done|done].
    assert (Hvt' : vtable (fs_set_vhash (<[slot := v_next w]> (vnode_hash d)) d)).
    { intros s b Hb. destruct (Hvt s b Hb) as (l & ? & ? & _). by exists l. }
    eapply vfs_ok_change; [exact Hok| |exact Hvt'|..]; try done.
    eapply tf_static; [exact H1|done|]. simpl. by rewrite length_insert.
Qed.

Lemma vlist_del h slot a l v : v ∉ l -> vlist h slot a l -> vlist (delete v h) slot a l.
Proof.
  intros Hv. apply vlist_mono. intros u w Hu Hw. exists w. rewrite lookup_delete_ne; [done|]. by intros ->.
Qed.

Lemma vfs_ok_del d e t rt T own strs v w e' :
  vfs_ok d e t rt T own strs -> fs_heap d !! v = Some (OVnode w) -> unchained d v -> owners rt T own v = 0 ->
  al_live e' = al_live e ∖ {[v]} -> vfs_ok (del_obj v d) e' t rt T own strs.
Proof.
  intros Hok Hw Hun Hno Hl. pose proof Hok as [H1 H2 H3 H4 H6 H7 H8 H9 H10].
  eapply vfs_ok_change; [exact Hok|..]; try done; simpl.
  - unfold del_obj. eapply tf_agree; [exact H1| |].
    + apply agree_del. intros o Ho. rewrite Hw in Ho. injection Ho as <-. by intros [].
    + intros x o [Hx Ho]%lookup_delete_Some. destruct (tf_heap _ _ _ H1 _ _ Ho). rewrite Hl. set_solver.
  - intros slot a Ha. destruct (Hun _ _ Ha) as (l & Hl' & Hnd & Hv). exists l. split; [|done]. by apply vlist_del.
  - intros x o Hx Hf. rewrite lookup_delete_ne; [done|]. intros <-. rewrite Hw in Hx. by injection Hx as <-.
  - eapply strs_vnode; [done| |exact H6]. intros x Hx. by rewrite lookup_delete_ne.
  - intros vp Hvp. destruct (H10 _ Hvp) as (x & o & Hx & Hrest). exists x, o. simpl.
    rewrite lookup_delete_ne; [done|]. intros ->. destruct vp as [u p]. simpl in *.
    pose proof (owners_pos _ _ _ _ _ Hvp). lia.
Qed.

Lemma unchained_own d v w l a :
  vtable d -> fs_heap d !! v = Some (OVnode w) -> vnode_hash d !! Z.to_nat (vnode_hash_func 0 (v_ino w)) = Some a ->
  vlist (fs_heap d) (Z.to_nat (vnode_hash_func 0 (v_ino w))) a l -> NoDup l -> v ∉ l -> unchained d v.
Proof.
  intros Ht Hw Ha Hl Hnd Hv slot b Hb. destruct (decide (slot = Z.to_nat (vnode_hash_func 0 (v_ino w)))) as [->|Hne].
  - rewrite Ha in Hb. injection Hb as <-. by exists l.
  - destruct (Ht _ _ Hb) as (l' & Hl' & Hnd'). exists l'. split; [done|]. split; [done|]. intros Hin.
    destruct (vlist_elem _ _ _ _ _ Hl' Hin) as (w' & Hw' & Hs). rewrite Hw in Hw'. injection Hw' as <-. lia.
Qed.

(** Locks that do not get in the way of releasing a vnode. *)
Definition far (held : list Z) : Prop := Forall (fun l => l <= -1000) held.

Lemma far_pos held v : far held -> 0 < v -> v ∉ held.
Proof. intros Hf Hv Hin. pose proof (proj1 (Forall_forall _ _) Hf _ Hin) as Hx. simpl in Hx. lia. Qed.

Lemma far_hash held ino : far held -> vnode_hash_lock (vnode_hash_func 0 ino) ∉ held.
Proof.
  intros Hf Hin. pose proof (proj1 (Forall_forall _ _) Hf _ Hin) as Hx. simpl in Hx. unfold vnode_hash_lock in Hx.
  pose proof (vnode_hash_range ino). unfold VNODE_HASH_SIZE in *. lia.
Qed.

(** The last reference of a vnode goes, and the vnode with it. *)
Lemma ev_vnode_last held v w (Q : unit -> fsd -> E -> Z -> Prop) d e t rt T own strs fl :
  vfs_ok d e t rt T own strs -> far held -> fs_heap d !! v = Some (OVnode w) -> v_ops w = tmpfs_vnode_ops ->
  owners rt T own v = 0 ->
  (forall d' e', vfs_ok d' e' t rt T own strs -> Q tt d' e' fl) ->
  ev held (with_lock_irq (vnode_hash_lock (vnode_hash_func 0 (v_ino w))) (
     fuel <- heap_fuel ;; vnode_unlink fuel (VHead (vnode_hash_func 0 (v_ino w))) v) ;;;
   vnode_release call_release v ;;; free v) Q d e fl.
Proof.
  intros Hok Hheld Hw Hops Hno HQ. pose proof Hok as [H1 H2 H3 H4 H6 H7 H8 H9 H10].
  assert (Hend : forall d1, vfs_ok d1 e t rt T own strs -> fs_heap d1 !! v = Some (OVnode w) -> unchained d1 v ->
    ev held (vnode_release call_release v ;;; free v) Q d1 e fl).
  { intros d1 Hok1 Hw1 Hun1. ev_step. unfold vnode_release, call_release. ev_step. eapply ev_the_vnode; [done|].
    rewrite Hops. change (tmpfs_vnode_ops =? NULL) with false. cbn iota. ev_step. eapply ev_the_vnode; [done|]. ev_step.
    unfold the_vops. rewrite Hops, Z.eqb_refl. apply ev_ret. simpl. unfold tmpfs_release. apply ev_ret.
    eapply ev_free; [done|by destruct (tf_heap _ _ _ (vo_tfs _ _ _ _ _ _ _ Hok1) _ _ Hw1)|].
    intros e1 He1. apply HQ. by eapply vfs_ok_del. }
  pose proof (vnode_hash_range (v_ino w)) as Hr. set (slot := Z.to_nat (vnode_hash_func 0 (v_ino w))).
  assert (Hslot : vnode_hash_func 0 (v_ino w) = Z.of_nat slot) by (unfold slot; lia).
  pose proof (tf_hash _ _ _ H1) as Hlen.
  destruct (lookup_lt_is_Some_2 (vnode_hash d) slot) as [a Ha]; [lia|].
  destruct (H2 _ _ Ha) as (l & Hl & Hnd).
  ev_step. apply ev_lock_irq; [by apply far_hash|]. ev_step. apply ev_heap_fuel.
  rewrite Hslot. change (VHead (Z.of_nat slot)) with (vcell_of slot []).
  eapply (ev_vnode_unlink _ _ slot a v [] l); [|done|done|..].
  - pose proof (vlist_length _ _ _ _ Hl Hnd). lia.
  - intros Hni. apply Hend; [done|done|]. by eapply unchained_own.
  - intros s1 s2 w1 -> Hw1. simpl app. eapply ev_vnode_unlinked; [exact Hok|exact Ha|exact Hl|done|exact Hw1|].
    intros d1 Hok1 Hw1' Hun. apply Hend; [done|congruence|done].
Qed.

Lemma ev_vunref held v p (Q : unit -> fsd -> E -> Z -> Prop) d e t rt T own strs fl :
  vfs_ok d e t rt T ((v, p) :: own) strs -> far held ->
  (forall d' e', vfs_ok d' e' t rt T own strs -> Q tt d' e' fl) ->
  ev held (vnode_unref v) Q d e fl.
Proof.
  intros Hok Hheld HQ. destruct (handle_of _ _ _ _ _ _ _ _ _ Hok (pairs_own rt T own (v, p)))
    as (Hv0 & w & o & Hw & Hp & Ho & Hvw & Hty & Hr & Hpos).
  assert (Hvpos : 0 < v) by (by destruct (tf_heap _ _ _ (vo_tfs _ _ _ _ _ _ _ Hok) _ _ Hw)).
  rewrite owners_cons, Z.eqb_refl in Hr, Hpos.
  assert (Hnn : 0 <= owners rt T own v) by apply occ_nonneg.
  unfold vnode_unref, vfs_vnode_unref. destruct (Z.eqb_spec v NULL); [done|]. ev_step.
  apply ev_lock_irq; [by apply far_pos|]. ev_step. eapply ev_the_vnode; [done|].
  destruct (Z.eqb_spec (v_refcount w) 0); [lia|]. ev_step. eapply ev_upd_vnode; [done|]. apply ev_ret.
  assert (Hok1 : vfs_ok (put_obj v (OVnode (v_set_refcount (v_refcount w - 1) w)) d) e t rt T own strs).
  { eapply vfs_ok_vnode; [exact Hok|exact Hw|done|..].
    - intros vp. apply pairs_weaken.
    - intros u Hu. rewrite owners_cons. destruct (Z.eqb_spec v u); [done|lia].
    - intros _. rewrite owners_cons, Z.eqb_refl. simpl. lia. }
  destruct (Z.eqb_spec (v_refcount w - 1) 0) as [Hz|Hz]; [|by apply ev_ret, HQ].
  eapply (ev_vnode_last held v (v_set_refcount (v_refcount w - 1) w)); [exact Hok1|done|simpl; by rewrite lookup_insert_eq|done|lia|done].
Qed.

(** ** Times and statistics *)

Lemma ev_vnow held (Q : Z -> fsd -> E -> Z -> Prop) d e t rt T own strs fl :
  vfs_ok d e t rt T own strs ->
  (forall now d' e', vfs_ok d' e' t rt T own strs -> fs_heap d' = fs_heap d -> Q now d' e' fl) -> ev held vfs_now Q d e fl.
Proof. intros Hok HQ. apply ev_now. intros now e' He. apply HQ; [|done]. by eapply vfs_ok_env. Qed.

Lemma ev_vupd held v w g (Q : unit -> fsd -> E -> Z -> Prop) d e t rt T own strs fl :
  vfs_ok d e t rt T own strs -> fs_heap d !! v = Some (OVnode w) -> same_core w (g w) ->
  v_refcount (g w) = v_refcount w ->
  (forall d', vfs_ok d' e t rt T own strs -> Q tt d' e fl) -> ev held (upd_vnode v g) Q d e fl.
Proof.
  intros Hok Hw Hs Hr HQ. eapply ev_upd_vnode; [done|]. apply HQ. eapply vfs_ok_vnode; [exact Hok|exact Hw|done|done|done|lia].
Qed.

Lemma ev_update_atime held v p (Q : unit -> fsd -> E -> Z -> Prop) d e t rt T own strs fl :
  vfs_ok d e t rt T own strs -> (v, p) ∈ pairs rt T own ->
  (forall d' e', vfs_ok d' e' t rt T own strs -> Q tt d' e' fl) -> ev held (vfs_update_atime v) Q d e fl.
Proof.
  intros Hok Hin HQ. destruct (handle_of _ _ _ _ _ _ _ _ _ Hok Hin) as (Hv0 & w & o & Hw & _).
  unfold vfs_update_atime. destruct (Z.eqb_spec v NULL); [done|]. ev_step. eapply ev_vnow; [exact Hok|].
  intros now d1 e1 Hok1 Hh1. rewrite <- Hh1 in Hw. ev_step. eapply ev_the_vnode; [done|].
  destruct (_ || _); [|by apply ev_ret, HQ]. eapply ev_vupd; [exact Hok1|done|done|done|]. intros d2 Hok2. by apply HQ.
Qed.

Lemma ev_update_mtime held v p (Q : unit -> fsd -> E -> Z -> Prop) d e t rt T own strs fl :
  vfs_ok d e t rt T own strs -> (v, p) ∈ pairs rt T own ->
  (forall d' e', vfs_ok d' e' t rt T own strs -> Q tt d' e' fl) -> ev held (vfs_update_mtime v) Q d e fl.
Proof.
  intros Hok Hin HQ. destruct (handle_of _ _ _ _ _ _ _ _ _ Hok Hin) as (Hv0 & w & o & Hw & _).
  unfold vfs_update_mtime. destruct (Z.eqb_spec v NULL); [done|]. ev_step. eapply ev_vnow; [exact Hok|].
  intros now d1 e1 Hok1 Hh1. rewrite <- Hh1 in Hw. ev_step. eapply ev_the_vnode; [done|].
  eapply ev_vupd; [exact Hok1|done|done|done|]. intros d2 Hok2. by apply HQ.
Qed.

Lemma ev_bump g (Q : unit -> fsd -> E -> Z -> Prop) d e t rt T own strs fl :
  vfs_ok d e t rt T own strs ->
  (forall d', vfs_ok d' e t rt T own strs -> Q tt d' e fl) -> ev [] (bump_counts g) Q d e fl.
Proof.
  intros Hok HQ. unfold bump_counts. apply ev_lock_irq; [set_solver|]. apply ev_set, HQ. by eapply vfs_ok_env.
Qed.

(** ** Temporary objects *)

Definition tmp_kind (o : fsobj) : Prop := match o with OStr _ | ODentry _ | OContext _ | OFsType _ => True | _ => False end.

Lemma cached_heap d e t rt T own strs c : vfs_ok d e t rt T own strs -> c ∈ cached T ->
  exists o, fs_heap d !! cd_addr c = Some (ODentry o) /\ d_vnode o = cd_vnode c /\ d_name o = cd_naddr c.
Proof.
  intros Hok (i & l & Hi & Hc)%cached_inv. destruct (vo_len _ _ _ _ _ _ _ Hok) as [_ Hlen].
  destruct (lookup_lt_is_Some_2 (dentry_hash d) i) as [a Ha]; [rewrite <- Hlen; by eapply lookup_lt_Some|].
  destruct (dchain_elem _ _ _ _ _ (vo_chain _ _ _ _ _ _ _ Hok _ _ _ Hi Ha) Hc) as (_ & next & Hn). by eauto.
Qed.

(** Every address of the layer is in the heap. *)
Lemma addrs_heap d e t rt T own strs x : vfs_ok d e t rt T own strs ->
  x ∈ (cd_addr <$> cached T) ++ (strings T strs).*1 -> exists o, fs_heap d !! x = Some o /\ foreign t x o.
Proof.
  intros Hok [Hx|Hx]%elem_of_app.
  - apply list_elem_of_fmap in Hx as (c & -> & Hc). destruct (cached_heap _ _ _ _ _ _ _ _ Hok Hc) as (o & Ho & _). by eexists.
  - apply list_elem_of_fmap in Hx as ([y o] & -> & Hy). exists o.
    apply (proj1 (Forall_forall _ _) (vo_strs _ _ _ _ _ _ _ Hok) _ Hy).
Qed.

Lemma strings_cons T strs xo : strings T (xo :: strs) ≡ₚ xo :: strings T strs.
Proof. unfold strings. by rewrite Permutation_middle. Qed.

Lemma addrs_cons T strs x o :
  (cd_addr <$> cached T) ++ (strings T ((x, o) :: strs)).*1 ≡ₚ x :: (cd_addr <$> cached T) ++ (strings T strs).*1.
Proof. rewrite strings_cons. simpl. by rewrite Permutation_middle. Qed.

Lemma vfs_ok_new d e t rt T own strs x o e' :
  vfs_ok d e t rt T own strs -> 0 < x -> x ∉ al_live e -> al_live e' = {[x]} ∪ al_live e -> tmp_kind o ->
  vfs_ok (put_obj x o d) e' t rt T own ((x, o) :: strs).
Proof.
  intros Hok Hx0 Hx Hl Ho. pose proof Hok as [H1 H2 H3 H4 H6 H7 H8 H9 H10].
  pose proof (tf_fresh _ _ _ _ H1 Hx) as Hxf.
  eapply vfs_ok_change; [exact Hok|..]; try done; simpl.
  - apply (tfs_fresh d e t e'); [done..|by intros n ->|by intros y ->|done].
  - intros slot a Ha. destruct (H2 _ _ Ha) as (l & Hl' & Hnd). exists l. split; [|done].
    eapply vlist_mono; [|exact Hl']. intros u w _ Hu. exists w. simpl. rewrite lookup_insert_ne by congruence. done.
  - intros y o' Hy _. rewrite lookup_insert_ne by congruence. done.
  - rewrite strings_cons. apply Forall_cons. split.
    + split; simpl; [by rewrite lookup_insert_eq|]. destruct o; try done. simpl. eapply fresh_unowned; [exact (tf_shape _ _ _ H1)|done].
    + eapply strs_keep; [|exact H6]. intros y o' _ _ Hy. rewrite lookup_insert_ne by congruence. done.
  - rewrite addrs_cons. apply NoDup_cons. split; [|done]. intros Hin.
    destruct (addrs_heap _ _ _ _ _ _ _ _ Hok Hin) as (o' & Ho' & _). congruence.
  - intros vp Hvp. destruct (H10 _ Hvp) as (w & o' & Hw & Hrest). exists w, o'. simpl.
    rewrite lookup_insert_ne by congruence. done.
Qed.

Lemma tmp_facts d e t rt T own strs x o : vfs_ok d e t rt T own ((x, o) :: strs) ->
  fs_heap d !! x = Some o /\ foreign t x o /\ 0 < x /\ x ∈ al_live e /\
  x ∉ (cd_addr <$> cached T) ++ (strings T strs).*1.
Proof.
  intros [H1 H2 H3 H4 H6 H7 H8 H9 H10]. rewrite strings_cons in H6. apply Forall_cons in H6 as [[Hx Hf] _].
  rewrite addrs_cons in H7. apply NoDup_cons in H7 as [Hx' _]. destruct (tf_heap _ _ _ H1 _ _ Hx). done.
Qed.

(** A block that is no part of a file system goes. *)
Lemma tfs_del_foreign d e t e' x o :
  tfs d e t -> fs_heap d !! x = Some o -> foreign t x o -> tmp_kind o -> al_live e' = al_live e ∖ {[x]} ->
  tfs (del_obj x d) e' t.
Proof.
  intros [Hsh Hlk Hrf Hhp Hvh] Hx Hf Hk Hl.
  assert (Hr : forall q, refs (delete x (fs_heap d)) q = refs (fs_heap d) q).
  { intros q. rewrite (refs_delete _ _ _ _ Hx). destruct o; simpl in *; try done; lia. }
  assert (Hne : forall y o', fs_heap d !! y = Some o' -> ~ tmp_kind o' -> x <> y) by (intros y o' Hy Hn ->; congruence).
  split; simpl.
  - destruct Hsh as [S1 S2 S3 S4 S5 S6 S7 S8]. split; try done.
    + intros p a Hp. destruct (S1 _ _ Hp) as [? Hn]. split; [done|]. rewrite lookup_delete_ne; [done|].
      eapply Hne; [exact Hn|intros []].
    + intros p a Hp. eapply body_rep_agree; [|by apply S2 in Hp]. intros y Hy. rewrite lookup_delete_ne; [done|].
      intros ->. destruct (foot_part _ _ _ _ (S2 _ _ Hp) Hy) as (_ & o' & Ho' & Hpart). rewrite Hx in Ho'. injection Ho' as <-.
      destruct o; simpl in *; try done. by apply (Hf _ _ Hp).
    + intros p n [_ Hn]%lookup_delete_Some. by eapply S3.
    + intros p a Hp. destruct (S8 _ _ Hp) as (m & tm & Hm & ? & Ht & ?). exists m, tm.
      rewrite !lookup_delete_ne; [done|by eapply Hne; [exact Ht|intros []]|by eapply Hne; [exact Hm|intros []]].
  - intros p n [_ Hp]%lookup_delete_Some. rewrite Hr. by apply Hlk.
  - intros y z [_ Hy]%lookup_delete_Some. by eapply Hrf.
  - intros y o' [Hy Ho']%lookup_delete_Some. destruct (Hhp _ _ Ho'). rewrite Hl. set_solver.
  - done.
Qed.

Lemma vfs_ok_free d e t rt T own strs x o e' :
  vfs_ok d e t rt T own ((x, o) :: strs) -> tmp_kind o -> al_live e' = al_live e ∖ {[x]} ->
  vfs_ok (del_obj x d) e' t rt T own strs.
Proof.
  intros Hok Hk Hl. destruct (tmp_facts _ _ _ _ _ _ _ _ _ Hok) as (Hx & Hf & Hx0 & Hxl & Hni).
  pose proof Hok as [H1 H2 H3 H4 H6 H7 H8 H9 H10]. rewrite strings_cons in H6. apply Forall_cons in H6 as [_ H6].
  rewrite addrs_cons in H7. apply NoDup_cons in H7 as [_ H7].
  assert (Hcd : forall c, c ∈ cached T -> x <> cd_addr c).
  { intros c Hc ->. apply Hni, elem_of_app. left. by apply list_elem_of_fmap_2. }
  split; simpl; try done.
  - by eapply tfs_del_foreign.
  - intros slot a Ha. destruct (H2 _ _ Ha) as (l & Hl' & Hnd). exists l. split; [|done]. apply vlist_del; [|done].
    intros Hin. destruct (vlist_elem _ _ _ _ _ Hl' Hin) as (w & Hw & _). rewrite Hx in Hw. injection Hw as ->. done.
  - intros i l a Hi Ha. eapply dchain_mono; [|by eapply H4]. intros c o' Hc Ho'. rewrite lookup_delete_ne; [done|].
    apply Hcd. by eapply cached_elem.
  - eapply strs_keep; [|exact H6]. intros y o' Hy _ Ho'. rewrite lookup_delete_ne; [done|].
    intros <-. apply Hni, elem_of_app. by right.
  - destruct H8 as [Hr0 (m & Hm & Hmr)]. split; [done|]. exists m. rewrite lookup_delete_ne; [done|].
    intros Heq. rewrite <- Heq, Hx in Hm. injection Hm as ->. done.
  - intros vp Hvp. destruct (H10 _ Hvp) as (w & o' & Hw & Hrest). exists w, o'. simpl. rewrite lookup_delete_ne; [done|].
    intros Heq. rewrite <- Heq, Hx in Hw. injection Hw as ->. done.
Qed.

(** [kmalloc] and [kfree] of such an object. *)
Lemma ev_tmp_new held n o (Q : Z -> fsd -> E -> Z -> Prop) d e t rt T own strs fl :
  vfs_ok d e t rt T own strs -> tmp_kind o ->
  (forall e', vfs_ok d e' t rt T own strs -> Q NULL d e' fl) ->
  (forall x d' e', x <> NULL -> vfs_ok d' e' t rt T own ((x, o) :: strs) -> fs_heap d !! x = None -> Q x d' e' fl) ->
  ev held (new n o) Q d e fl.
Proof.
  intros Hok Hk Hnull HQ. apply ev_new.
  - intros e1 He1. apply Hnull. by eapply vfs_ok_env.
  - intros x e1 Hx0 Hx He1. apply HQ; [unfold NULL; lia|by eapply vfs_ok_new|].
    by apply (tf_fresh _ _ _ _ (vo_tfs _ _ _ _ _ _ _ Hok)).
Qed.

Lemma ev_tmp_free held x o (Q : unit -> fsd -> E -> Z -> Prop) d e t rt T own strs fl :
  vfs_ok d e t rt T own ((x, o) :: strs) -> tmp_kind o ->
  (forall d' e', vfs_ok d' e' t rt T own strs -> Q tt d' e' fl) -> ev held (free x) Q d e fl.
Proof.
  intros Hok Hk HQ. destruct (tmp_facts _ _ _ _ _ _ _ _ _ Hok) as (Hx & _ & _ & Hl & _).
  eapply ev_free; [done|done|]. intros e1 He1. apply HQ. by eapply vfs_ok_free.
Qed.

Lemma ev_tmp_str held x s (Q : list Z -> fsd -> E -> Z -> Prop) d e t rt T own strs fl :
  vfs_ok d e t rt T own strs -> (x, OStr s) ∈ strings T strs -> Q s d e fl -> ev held (the_str x) Q d e fl.
Proof.
  intros Hok Hin HQ. destruct (proj1 (Forall_forall _ _) (vo_strs _ _ _ _ _ _ _ Hok) _ Hin) as [Hx _].
  by eapply ev_the_str.
Qed.

(** ** The cache of names *)

Lemma cached_split (T : cache) i l : T !! i = Some l -> exists r, cached T ≡ₚ l ++ r.
Proof.
  intros Hi. unfold cached. exists (mjoin (take i T) ++ mjoin (drop (S i) T)).
  rewrite <- (take_drop_middle T i l Hi) at 1. rewrite join_app. simpl. by rewrite Permutation_app_swap_app.
Qed.

Lemma slot_length d e t rt T own strs i l : vfs_ok d e t rt T own strs -> T !! i = Some l -> (length l <= size (fs_heap d))%nat.
Proof.
  intros Hok Hi. destruct (cached_split _ _ _ Hi) as [r Hr]. pose proof (vo_addrs _ _ _ _ _ _ _ Hok) as Hnd.
  apply NoDup_app in Hnd as [Hnd _]. rewrite Hr, fmap_app in Hnd. apply NoDup_app in Hnd as [Hnd _].
  rewrite <- (length_fmap cd_addr), <- (size_list_to_set (C := gset Z)) by done. rewrite <- size_dom.
  apply subseteq_size. intros x. rewrite elem_of_list_to_set, elem_of_dom. intros (c & -> & Hc)%list_elem_of_fmap.
  destruct (cached_heap _ _ _ _ _ _ _ c Hok) as (o & Ho & _); [by eapply cached_elem|by eauto].
Qed.

Lemma cached_str T strs c : c ∈ cached T -> (cd_naddr c, OStr (cd_name c)) ∈ strings T strs.
Proof. intros Hc. apply elem_of_app. left. by apply (list_elem_of_fmap_2 cd_str). Qed.

Lemma ev_find_dentry held fuel slot a l path (Q : Z -> fsd -> E -> Z -> Prop) d e t rt T own strs fl :
  vfs_ok d e t rt T own strs -> dchain (fs_heap d) slot a l -> (forall c, c ∈ l -> c ∈ cached T) -> (length l < fuel)%nat ->
  Q (from_option cd_addr NULL (find_name path l)) d e fl ->
  ev held (find_dentry fuel a path) Q d e fl.
Proof.
  intros Hok. revert a l. induction fuel as [|fuel IH]; intros a l Hl Hin Hf HQ; [lia|].
  destruct l as [|c l]; simpl in *; [subst a; by apply ev_ret|]. destruct Hl as (-> & _ & next & Hc & Hl).
  destruct (tf_heap _ _ _ (vo_tfs _ _ _ _ _ _ _ Hok) _ _ Hc). destruct (Z.eqb_spec (cd_addr c) NULL) as [Heq|_]; [unfold NULL in Heq; lia|].
  ev_step. unfold the_dentry. ev_step. eapply ev_the_obj; [done|]. apply ev_ret. simpl. ev_step.
  eapply ev_tmp_str; [exact Hok|apply cached_str, Hin; by apply elem_of_cons; left|].
  destruct (names_equal (cd_name c) path); [by apply ev_ret|]. apply (IH _ l); [done| |lia|done].
  intros c' Hc'. apply Hin. by apply elem_of_cons; right.
Qed.

Lemma slot_chain d e t rt T own strs path : vfs_ok d e t rt T own strs ->
  exists l a, T !! slot_of path = Some l /\ dentry_hash d !! slot_of path = Some a /\
    dchain (fs_heap d) (slot_of path) a l /\ aread (dentry_hash d) (dentry_hash_func path) = Ok a /\
    dentry_hash_func path = Z.of_nat (slot_of path).
Proof.
  intros Hok. destruct (vo_len _ _ _ _ _ _ _ Hok) as [Hlen HlenT]. pose proof (dslot_range path) as Hr. unfold slot_of.
  destruct (lookup_lt_is_Some_2 (dentry_hash d) (Z.to_nat (dentry_hash_func path))) as [a Ha]; [lia|].
  destruct (lookup_lt_is_Some_2 T (Z.to_nat (dentry_hash_func path))) as [l Hl]; [lia|].
  exists l, a. split; [done|]. split; [done|]. split; [by eapply (vo_chain _ _ _ _ _ _ _ Hok)|]. split; [|lia].
  unfold aread. rewrite decide_True by lia. by rewrite Ha.
Qed.

Lemma ev_dentry_lookup path (Q : Z -> fsd -> E -> Z -> Prop) d e t rt T own strs fl :
  vfs_ok d e t rt T own strs ->
  Q (from_option cd_addr NULL (cache_find T path)) d e fl ->
  ev [] (vfs_dentry_lookup (Some path)) Q d e fl.
Proof.
  intros Hok HQ. destruct (slot_chain _ _ _ _ _ _ _ path Hok) as (l & a & Hl & Ha & Hc & Hread & _).
  unfold vfs_dentry_lookup. apply ev_lock_irq; [set_solver|]. ev_step. ev_step. ev_step. eapply ev_lift; [exact Hread|].
  ev_step. apply ev_heap_fuel. eapply (ev_find_dentry _ _ (slot_of path)); [exact Hok|exact Hc| | |].
  - intros c. by eapply cached_elem.
  - pose proof (slot_length _ _ _ _ _ _ _ _ _ Hok Hl). lia.
  - unfold cache_find in HQ. by rewrite Hl in HQ.
Qed.

(** The dentry [y] with its name [x] enters the cache. *)
Lemma vfs_ok_cached d e t rt T own strs x y o0 path v p a :
  vfs_ok d e t rt T ((v, p) :: own) ((x, OStr path) :: (y, ODentry o0) :: strs) ->
  dentry_hash d !! slot_of path = Some a ->
  vfs_ok (fs_set_dhash (<[slot_of path := y]> (dentry_hash d))
            (put_obj y (ODentry (Dentry x v NULL a (dentry_hash_func path))) d)) e t rt
    (cache_add T (CDent y x path v p)) own strs.
Proof.
  intros Hok Ha. pose proof Hok as [H1 H2 H3 H4 H6 H7 H8 H9 H10]. set (c := CDent y x path v p).
  destruct (slot_chain _ _ _ _ _ _ _ path Hok) as (l & a' & Hl & Ha' & Hc & _ & Hslot). assert (a' = a) as -> by congruence.
  destruct (tmp_facts d e t rt T ((v, p) :: own) ((x, OStr path) :: strs) y (ODentry o0)) as (Hy & _ & Hy0 & Hyl & Hyn).
  { eapply vfs_ok_perm; [done| |exact Hok]. apply perm_swap. }
  pose proof (cached_add T c l Hl) as Hcache.
  assert (Hcd : forall c', c' ∈ cached T -> y <> cd_addr c').
  { intros c' Hc' ->. apply Hyn, elem_of_app. left. by apply list_elem_of_fmap_2. }
  assert (Hpairs : pairs rt (cache_add T c) own ≡ₚ pairs rt T ((v, p) :: own)).
  { rewrite pairs_cons. unfold pairs. rewrite Hcache. simpl. apply perm_swap. }
  assert (Hstrings : strings (cache_add T c) strs ≡ₚ (x, OStr path) :: strings T strs).
  { unfold strings. by rewrite Hcache. }
  rewrite !strings_cons in H6. apply Forall_cons in H6 as [Hx6 [_ H6]%Forall_cons].
  assert (Hxy : x <> y).
  { intros ->. destruct Hx6 as [Hx _]. simpl in Hx. congruence. }
  split; simpl.
  - apply (tf_static (put_obj y (ODentry (Dentry x v NULL a (dentry_hash_func path))) d)); [|done|done].
    unfold put_obj. eapply tf_agree; [exact H1| |].
    + apply agree_put; [by intros []|]. intros o Ho. rewrite Hy in Ho. injection Ho as <-. by intros [].
    + intros z o. rewrite lookup_insert_Some. intros [[<- _]|[_ Hz]]; [done|by apply (tf_heap _ _ _ H1 _ _ Hz)].
  - intros slot b Hb. destruct (H2 _ _ Hb) as (l' & Hl' & Hnd). exists l'. split; [|done].
    eapply vlist_mono; [|exact Hl']. intros u w _ Hu. exists w. simpl. rewrite lookup_insert_ne by congruence. done.
  - rewrite length_insert. unfold cache_add. by rewrite length_alter.
  - intros i l' b Hi Hb. unfold cache_add in Hi. simpl in Hi.
    assert (Hmono : forall i' b' l'', T !! i' = Some l'' -> dchain (fs_heap d) i' b' l'' ->
      dchain (<[y := ODentry (Dentry x v NULL a (dentry_hash_func path))]> (fs_heap d)) i' b' l'').
    { intros i' b' l'' Hi' Hd'. eapply dchain_mono; [|exact Hd']. intros c' o Hc' Ho.
      rewrite lookup_insert_ne; [done|]. apply Hcd. by eapply cached_elem. }
    apply list_lookup_insert_Some in Hb as [(<- & <- & _)|[Hne Hb]].
    + rewrite list_lookup_alter_eq, Hl in Hi. injection Hi as <-. simpl. split; [done|]. split; [done|]. exists a.
      rewrite lookup_insert_eq, <- Hslot. split; [done|]. by apply Hmono.
    + rewrite list_lookup_alter_ne in Hi by done. apply Hmono; [done|]. by eapply H4.
  - rewrite Hstrings. apply Forall_cons. split; [|eapply strs_keep; [|exact H6]].
    + destruct Hx6 as [Hx Hxf]. split; [|done]. simpl in *. by rewrite lookup_insert_ne.
    + intros z o Hz _ Ho. rewrite lookup_insert_ne; [done|]. intros <-. apply Hyn, elem_of_app. right.
      rewrite strings_cons. simpl. by apply elem_of_cons; right.
  - rewrite Hstrings, Hcache. rewrite !strings_cons in H7. simpl in *.
    rewrite <- Permutation_middle in H7 |- *. rewrite <- Permutation_middle in H7. by rewrite perm_swap.
  - destruct H8 as [Hr0 (m & Hm & Hmr)]. split; [done|]. exists m. rewrite lookup_insert_ne; [done|].
    intros Heq. rewrite <- Heq, Hy in Hm. done.
  - done.
  - intros vp. unfold owners. rewrite Hpairs. intros Hvp. destruct (H10 _ Hvp) as (w & o & Hw & Hrest). exists w, o. simpl.
    rewrite lookup_insert_ne; [done|]. intros Heq. rewrite <- Heq, Hy in Hw. done.
Qed.

Lemma ev_dentry_add path v p (Q : Z -> fsd -> E -> Z -> Prop) d e t rt T own strs fl :
  vfs_ok d e t rt T own strs -> (v, p) ∈ pairs rt T own -> room T own 1 ->
  (forall d' e', vfs_ok d' e' t rt T own strs -> Q (- ENOMEM) d' e' fl) ->
  (forall x y d' e', vfs_ok d' e' t rt (cache_add T (CDent y x path v p)) own strs -> Q VFS_SUCCESS d' e' fl) ->
  ev [] (vfs_dentry_add (Some path) v) Q d e fl.
Proof.
  intros Hok Hin Hroom Hmem HQ. destruct (handle_of _ _ _ _ _ _ _ _ _ Hok Hin) as (Hv0 & _).
  unfold vfs_dentry_add. destruct (Z.eqb_spec v NULL); [done|]. ev_step. eapply ev_tmp_new; [exact Hok|done|..].
  { intros e1 Hok1. simpl. by apply ev_ret, Hmem. }
  intros y d1 e1 Hy0 Hok1 _. destruct (Z.eqb_spec y NULL); [done|]. ev_step. unfold vfs_strdup, kmalloc_str.
  eapply ev_tmp_new; [exact Hok1|done|..].
  { intros e2 Hok2. simpl. ev_step. eapply ev_tmp_free; [exact Hok2|done|]. intros d3 e3 Hok3. by apply ev_ret, Hmem. }
  intros x d2 e2 Hx0 Hok2 _. destruct (Z.eqb_spec x NULL); [done|]. ev_step.
  eapply ev_vref; [exact Hok2|exact Hin|done|set_solver|]. intros d3 Hok3. ev_step. apply ev_init_lock; [set_solver|].
  destruct (slot_chain _ _ _ _ _ _ _ path Hok3) as (l & a & Hl & Ha & Hc & Hread & Hslot).
  ev_step. apply ev_lock_irq; [set_solver|]. ev_step. ev_step. ev_step. eapply ev_lift; [exact Hread|]. ev_step.
  apply ev_put. ev_step. eapply ev_lift.
  { unfold awrite. pose proof (dslot_range path). destruct (vo_len _ _ _ _ _ _ _ Hok3). rewrite decide_True by lia. done. }
  apply ev_set. apply ev_ret. eapply (HQ x y). eapply vfs_ok_cached; [exact Hok3|exact Ha].
Qed.
End inv.
