(* ===== verification/VfsWalk.v ===== *)
(** * Path lookup against a specification

    [resolve_path] is what a path means in a file system seen as a finite map
    from nodes to files, directories and symbolic links: a walk from the root,
    component by component.  It has no cache, no reference counts, no memory
    and no locks.  The lookup of [vfs.c] agrees with it, whatever is cached, as
    long as the cache is coherent: every cached name leads where the walk does.
    The number of nested walks is bounded as the nesting of the code is; the
    results do not depend on the bound. *)

From stdpp Require Import base numbers list gmap.
From S2P Require Import Prelude Spinlock Kernel KLogic VfsPath VfsPathSpec Fs Tmpfs TmpfsFacts TmpfsDir TmpfsOps TmpfsThms TmpfsTop Vfs VfsFacts.

Abbreviation fsys := (gmap Z fnode).

(** The text of a symbolic link as lookup reads it into its buffer. *)
Definition link_target (str : list Z) : list Z := cstr (take (Z.to_nat (VFS_MAX_PATH - 1)) str).

(** A node, or an error; [None] when the nested walks are used up or a link
    has no text. *)
Abbreviation found := (option (Z + Z)).

Section spec.
Context (junk : list Z).

Definition norm (path : list Z) : Z * list Z :=
  match vfs_normalize_path (Some path) junk with
  | Ok (rc, b) => (rc, cstr b)
  | Fault _ => (- EINVAL, [])
  end.

Definition link_path (cs : list (list Z)) (str : list Z) : option (list Z) :=
  let target := link_target str in
  if deref target =? SLASH then Some target else relative_target cs target.

Fixpoint spec_walk (rec : list Z -> found) (fs : fsys) (follow : bool) (cs todo : list (list Z)) (depth q : Z) : found :=
  match todo with
  | [] => Some (inl q)
  | c :: todo =>
      match fs !! q with
      | Some (FDir m) =>
          match m !! c with
          | None => Some (inr (- ENOENT))
          | Some r =>
              match fs !! r with
              | Some (FSym str) =>
                  if bool_decide (todo = []) && negb follow then Some (inl r)
                  else if VFS_MAX_SYMLINK_DEPTH <=? depth then Some (inr (- ELOOP))
                  else if bool_decide (str = []) then None
                  else
                    match link_path cs str with
                    | None => Some (inr (- ENAMETOOLONG))
                    | Some path =>
                        match rec path with
                        | Some (inl r) => spec_walk rec fs follow (cs ++ [c]) todo (depth + 1) r
                        | other => other
                        end
                    end
              | _ => spec_walk rec fs follow (cs ++ [c]) todo depth r
              end
          end
      | _ => Some (inr (- ENOTDIR))
      end
  end.

Fixpoint resolve_path (n : nat) (fs : fsys) (root : Z) (path : list Z) (follow : bool) : found :=
  match n with
  | O => None
  | S n =>
      if negb (deref path =? SLASH) then Some (inr (- EINVAL))
      else if negb ((norm path).1 =? 0) then Some (inr (norm path).1)
      else spec_walk (fun p => resolve_path n fs root p true) fs follow [] (strtok_loop 64 (tail (norm path).2)) 0 root
  end.

(** The same for a path that is normal already. *)
Definition resolve_norm (n : nat) (fs : fsys) (root : Z) (path : list Z) (follow : bool) : found :=
  spec_walk (fun p => resolve_path n fs root p true) fs follow [] (strtok_loop 64 (tail path)) 0 root.

(** ** The bound does not matter *)

Lemma spec_walk_mono rec rec' fs follow cs todo depth q r :
  (forall p r, rec p = Some r -> rec' p = Some r) ->
  spec_walk rec fs follow cs todo depth q = Some r -> spec_walk rec' fs follow cs todo depth q = Some r.
Proof.
  intros Hrec. revert cs depth q. induction todo as [|c todo IH]; intros cs depth q; simpl; [done|].
  destruct (fs !! q) as [[|m|]|]; try done. destruct (m !! c) as [x|]; [|done].
  destruct (fs !! x) as [[| |str]|]; try (by apply IH). destruct (_ && _); [done|]. destruct (_ <=? _); [done|].
  case_bool_decide; [done|]. destruct (link_path cs str) as [path|]; [|done].
  destruct (rec path) as [[y|rc]|] eqn:Hp; rewrite ?(Hrec _ _ Hp); [apply IH|done|done].
Qed.

Lemma resolve_path_mono n m fs root path follow r :
  (n <= m)%nat -> resolve_path n fs root path follow = Some r -> resolve_path m fs root path follow = Some r.
Proof.
  revert m path follow r. induction n as [|n IH]; intros m path follow r Hm; [done|]. destruct m as [|m]; [lia|]. simpl.
  destruct (negb _); [done|]. destruct (negb _); [done|]. apply spec_walk_mono. intros p r'. apply IH. lia.
Qed.

Lemma resolve_norm_det n m fs root path follow r r' :
  resolve_norm n fs root path follow = Some r -> resolve_norm m fs root path follow = Some r' -> r = r'.
Proof.
  intros H1 H2. assert (Hmax : forall k, (k <= n `max` m)%nat -> forall x, resolve_norm k fs root path follow = Some x ->
    resolve_norm (n `max` m) fs root path follow = Some x).
  { intros k Hk x. apply spec_walk_mono. intros p y. by apply resolve_path_mono. }
  apply (Hmax n) in H1; [|lia]. apply (Hmax m) in H2; [|lia]. congruence.
Qed.

(** ** What a walk gives *)

Definition good (fs : fsys) (follow : bool) (r : Z + Z) : Prop :=
  match r with
  | inl p => is_Some (fs !! p) /\ (follow = true -> forall str, fs !! p <> Some (FSym str))
  | inr rc => rc <> 0
  end.

(** Every name of a directory leads to a node. *)
Definition closed (fs : fsys) : Prop := forall p m c q, fs !! p = Some (FDir m) -> m !! c = Some q -> is_Some (fs !! q).

Lemma spec_walk_good rec fs follow cs todo depth q r :
  closed fs -> (forall p r, rec p = Some r -> good fs true r) -> good fs follow (inl q) ->
  spec_walk rec fs follow cs todo depth q = Some r -> good fs follow r.
Proof.
  intros Hcl Hrec. revert cs depth q. induction todo as [|c todo IH]; intros cs depth q Hq; simpl; [by intros [= <-]|].
  destruct (fs !! q) as [[|m|]|] eqn:Hfq; try (by intros [= <-]). destruct (m !! c) as [x|] eqn:Hx; [|by intros [= <-]].
  destruct (Hcl _ _ _ _ Hfq Hx) as [o Ho].
  destruct (fs !! x) as [[| |str]|] eqn:Hfx; [..|done]; try (by apply IH; split; [rewrite Hfx; by eexists|intros _ s; congruence]).
  destruct (bool_decide_reflect (todo = [])) as [->|]; destruct follow; simpl;
    try (intros [= <-]; split; [by rewrite Hfx|done]);
    destruct (_ <=? _); try (by intros [= <-]); case_bool_decide; try done;
    destruct (link_path cs str) as [path|]; try (by intros [= <-]);
    destruct (rec path) as [[y|rc]|] eqn:Hp; try done;
    try (intros [= <-]; exact (Hrec _ _ Hp)); apply IH; destruct (Hrec _ _ Hp); split; try done; auto.
Qed.

Lemma resolve_path_good n fs root path follow r :
  closed fs -> (exists m, fs !! root = Some (FDir m)) -> resolve_path n fs root path follow = Some r -> good fs follow r.
Proof.
  intros Hcl [m Hm]. revert path follow r. induction n as [|n IH]; intros path follow r; simpl; [done|].
  destruct (negb (deref path =? SLASH)); [by intros [= <-]|].
  destruct (Z.eqb_spec (norm path).1 0) as [|Hne]; simpl; [|by intros [= <-]].
  apply spec_walk_good; [done|intros p r'; apply IH|]. split; [rewrite Hm; by eexists|intros _ str; congruence].
Qed.
End spec.

(** The cache agrees with the walk. *)
Definition coherent (junk : list Z) (fs : fsys) (root : Z) (T : cache) : Prop :=
  forall c, c ∈ cached T -> exists n, resolve_norm junk n fs root (cd_name c) true = Some (inl (cd_node c)).

(** ** Strings *)

Lemma cstr_nonzero b : nonzero (cstr b).
Proof.
  induction b as [|c b IH]; simpl; [constructor|]. destruct (Z.eqb_spec c 0); [constructor|]. by constructor.
Qed.

Lemma cstr_stop s r : cstr (s ++ 0 :: r) = cstr s.
Proof. induction s as [|c s IH]; simpl; [done|]. destruct (c =? 0); [done|]. by rewrite IH. Qed.

Lemma strtok_nonzero n p : nonzero p -> Forall nonzero (strtok_loop n p).
Proof.
  revert p. induction n as [|n IH]; intros p Hp; cbn [strtok_loop]; [constructor|].
  pose proof (skip_slashes_Forall _ _ Hp) as Hs. destruct (skip_slashes p) as [|x q] eqn:Hq; [constructor|].
  destruct (take_component (x :: q)) as [tok rest] eqn:Ht. pose proof (take_component_app _ _ _ Ht) as Heq.
  rewrite Heq in Hs. apply Forall_app in Hs as [H1 H2]. constructor; [done|by apply IH].
Qed.

Lemma join_nonzero cs p len q k : nonzero p -> Forall nonzero cs -> join_components p len cs = Some (q, k) -> nonzero q.
Proof.
  intros Hp Hcs. revert p len Hp. induction Hcs as [|c cs Hc Hcs IH]; intros p len Hp; simpl; [by intros [= <- _]|].
  destruct (_ <=? _); [done|]. destruct (1 <? len); apply IH; unfold nonzero in *; rewrite ?Forall_app, ?Forall_cons; by split_and!.
Qed.

Lemma link_path_nonzero cs str path : Forall nonzero cs -> link_path cs str = Some path -> nonzero path.
Proof.
  intros Hcs. unfold link_path, relative_target. pose proof (cstr_nonzero (take (Z.to_nat (VFS_MAX_PATH - 1)) str)) as Ht.
  fold (link_target str) in Ht. destruct (_ =? _); [by intros [= <-]|].
  destruct (join_components [SLASH] 1 cs) as [[q k]|] eqn:Hj; [|done].
  assert (Hq : nonzero q) by (eapply join_nonzero; [|exact Hcs|exact Hj]; by constructor).
  destruct (_ <=? _); [done|]. intros [= <-]. apply Forall_app. split; [|done]. destruct (1 <? k); [|done].
  apply Forall_app. split; [done|by constructor].
Qed.

Lemma cstr_length b : (length (cstr b) <= length b)%nat.
Proof. induction b as [|c b IH]; simpl; [lia|]. destruct (c =? 0); simpl; lia. Qed.

(** ** One step of the walk *)

Lemma view_sym_inv t p str : str <> [] -> view t !! p = Some (FSym str) -> exists n, t !! p = Some (ANode n (BSym (Some str))).
Proof.
  intros Hs. unfold view. rewrite lookup_fmap. destruct (t !! p) as [[n [o|l|[s|]]]|]; simpl; intros [= <-]; [|done].
  by exists n.
Qed.

Lemma view_closed h t : shape h t -> closed (view t).
Proof.
  intros Hsh p m c q Hp Hc. destruct (view_dir_inv _ _ _ Hp) as (n & l & Ht & ->). rewrite dir_map_lookup in Hc.
  destruct (lookup_name c l) as [x|] eqn:Hx; [|done]. injection Hc as <-.
  destruct (lookup_name_Some _ _ _ Hx) as (l1 & l2 & -> & _). destruct (sh_entry _ _ Hsh _ _ _ x Ht) as [a Ha].
  { rewrite elem_of_app, elem_of_cons. auto. }
  rewrite (view_lookup _ _ _ Ha). by eexists.
Qed.

Section walk.
Context {E : Type} `{TimeSource E}.
Implicit Types (d : fsd) (e : E) (t : tree) (fl : Z) (held : list Z) (T : cache) (own : list (Z * Z)) (strs : list (Z * fsobj)).

Lemma owned_vnode_of d e t rt T own strs v p : vfs_ok d e t rt T own strs -> (v, p) ∈ pairs rt T own -> vnode_of d v p.
Proof.
  intros Hok Hin. destruct (handle_of _ _ _ _ _ _ _ _ _ Hok Hin) as (Hv0 & w & o & Hw & Hp & _). split; [done|by exists w].
Qed.

Lemma ev_vop {X : Type} held (f : vnode_operations -> option X) v p (Q : option X -> fsd -> E -> Z -> Prop) d e t rt T own strs fl :
  vfs_ok d e t rt T own strs -> (v, p) ∈ pairs rt T own ->
  Q (f tmpfs_vnode_operations) d e fl -> ev held (vop f v) Q d e fl.
Proof.
  intros Hok Hin HQ. destruct (handle_of _ _ _ _ _ _ _ _ _ Hok Hin) as (_ & w & o & Hw & _ & Ho & _).
  unfold vop. ev_step. eapply ev_the_vnode; [done|]. rewrite Ho. change (tmpfs_vnode_ops =? NULL) with false. cbn iota.
  ev_step. unfold the_vops. rewrite Z.eqb_refl. by apply ev_ret, ev_ret.
Qed.

(** A vnode that was just made becomes a reference of the caller. *)
Lemma vfs_ok_adopt d0 d e t rt T own strs v w q a :
  vfs_ok d e t rt T own strs -> (forall u p, (u, p) ∈ pairs rt T own -> exists w, fs_heap d0 !! u = Some (OVnode w)) ->
  (forall w, fs_heap d0 !! v <> Some (OVnode w)) ->
  fs_heap d !! v = Some (OVnode w) -> t !! q = Some a -> vnode_for w q a -> v_refcount w = 1 ->
  vfs_ok d e t rt T ((v, q) :: own) strs.
Proof.
  intros Hok Hold Hnew Hw Hq (Hp & Ho & Hty) Hr. pose proof Hok as [H1 H2 H3 H4 H6 H7 H8 H9 H10].
  assert (Hno : owners rt T own v = 0).
  { destruct (Z.lt_ge_cases 0 (owners rt T own v)) as [Hpos|]; [|pose proof (occ_nonneg v (pairs rt T own).*1); unfold owners in *; lia].
    destruct (owners_elem _ _ _ _ Hpos) as [p Hvp]. destruct (Hold _ _ Hvp) as [w0 Hw0]. by apply Hnew in Hw0. }
  eapply vfs_ok_change; [exact Hok|..]; try done.
  intros [u p]. rewrite pairs_cons. simpl. rewrite owners_cons. intros [[= -> ->]|Hvp]%elem_of_cons.
  - exists w, (view_node a). simpl. rewrite Z.eqb_refl, Hno. split_and!; try done.
    + by apply view_lookup.
    + unfold type_of. rewrite Hty. by eapply vnode_type_view; [eapply tf_shape|].
  - destruct (Z.eqb_spec v u) as [->|Hne]; [pose proof (owners_pos _ _ _ _ _ Hvp); lia|]. by apply H10.
Qed.

Lemma owned_heap d e t rt T own strs u p : vfs_ok d e t rt T own strs -> (u, p) ∈ pairs rt T own ->
  exists w, fs_heap d !! u = Some (OVnode w).
Proof. intros Hok Hin. destruct (handle_of _ _ _ _ _ _ _ _ _ Hok Hin) as (_ & w & o & Hw & _). by exists w. Qed.

Lemma ev_fs_lookup cur q m name (Q : Z * Z -> fsd -> E -> Z -> Prop) d e t rt T own strs fl :
  vfs_ok d e t rt T own strs -> (cur, q) ∈ pairs rt T own -> view t !! q = Some (FDir m) ->
  (m !! name = None -> Q (- ENOENT, NULL) d e fl) ->
  (forall e', vfs_ok d e' t rt T own strs -> Q (- ENOMEM, NULL) d e' fl) ->
  (forall v r d' e', m !! name = Some r -> vfs_ok d' e' t rt T ((v, r) :: own) strs -> Q (0, v) d' e' fl) ->
  ev [] (tmpfs_lookup cur (Some name)) Q d e fl.
Proof.
  intros Hok Hin Hq Hno Hmem Hyes. destruct (view_dir_inv _ _ _ Hq) as (n & l & Ht & ->).
  eapply ev_lookup; [by eapply vo_tfs|by eapply owned_vnode_of|exact Ht|exact Hno|..].
  - intros r e' _ Htf. apply Hmem. pose proof Hok as [H1 H2 H3 H4 H6 H7 H8 H9 H10].
    eapply vfs_ok_change; [exact Hok|..]; done.
  - intros r a v w d' e' Hr Ha Hst _ Hvf Hw Hfor Hrc. apply (Hyes v r); [done|].
    eapply (vfs_ok_adopt d); [by eapply vfs_ok_step| | |done..].
    + intros u p Hu. by eapply owned_heap.
    + intros w0 Hw0. congruence.
Qed.

Lemma ev_fs_readlink v p str (Q : Z * list Z -> fsd -> E -> Z -> Prop) d e t rt T own strs fl :
  vfs_ok d e t rt T own strs -> (v, p) ∈ pairs rt T own -> view t !! p = Some (FSym str) -> str <> [] ->
  (forall len, len = Z.min (VFS_MAX_PATH - 1) (strlen str) -> Q (len, take (Z.to_nat len) str ++ [0]) d e fl) ->
  ev [] (tmpfs_readlink v PObj VFS_MAX_PATH) Q d e fl.
Proof.
  intros Hok Hin Hp Hne HQ. destruct (view_sym_inv _ _ _ Hne Hp) as (n & Ht).
  destruct (owned_vnode_of _ _ _ _ _ _ _ _ _ Hok Hin) as [Hv0 (w & Hw & Hwp)].
  pose proof (tf_shape _ _ _ (vo_tfs _ _ _ _ _ _ _ Hok)) as Hsh. destruct (sh_node _ _ Hsh _ _ Ht) as [Hp0 Hpn].
  destruct (sh_body _ _ Hsh _ _ Ht) as (Hty & Hptr & Hstr). simpl in *.
  unfold tmpfs_readlink. destruct (Z.eqb_spec v NULL); [done|]. change (VFS_MAX_PATH =? 0) with false. simpl orb. cbn iota.
  ev_step. unfold tmpfs_vnode_to_node. destruct (Z.eqb_spec v NULL); [done|]. ev_step. eapply ev_the_vnode; [done|].
  rewrite Hwp. apply ev_ret. destruct (Z.eqb_spec p NULL); [done|]. ev_step. eapply ev_the_node; [done|]. rewrite Hty.
  simpl negb. cbn iota. apply ev_lock_irq; [set_solver|]. ev_step. eapply ev_the_node; [done|].
  destruct (Z.eqb_spec (tn_ptr n) NULL); [done|]. ev_step. eapply ev_the_str; [done|]. apply ev_ret.
  assert (Hlen : (if VFS_MAX_PATH <=? strlen str then VFS_MAX_PATH - 1 else strlen str) = Z.min (VFS_MAX_PATH - 1) (strlen str)).
  { destruct (Z.leb_spec VFS_MAX_PATH (strlen str)); lia. }
  rewrite Hlen. set (len := Z.min _ _).
  assert (Hs : s32 len = len).
  { apply s32_id. unfold len, VFS_MAX_PATH, strlen. lia. }
  rewrite Hs. by apply HQ.
Qed.

(** ** The walk *)

(** How many references a lookup with [n] nested ones may add. *)
Fixpoint cost (n : nat) : Z := match n with O => 3 | S n => 9 * cost n + 3 end.

Lemma cost_pos n : 3 <= cost n.
Proof. induction n as [|n IH]; simpl; lia. Qed.

Definition grown T T' (k : Z) : Prop := Z.of_nat (length (cached T')) <= Z.of_nat (length (cached T)) + k.

Section refine.
Context (junk : list Z) (Hjunk : length junk = Z.to_nat VFS_MAX_PATH).
Context (t : tree) (rt : Z * Z).
Abbreviation K := (M (kst (guarded fsd) E)).
Abbreviation fs := (view t).

(** What a lookup returns when the specification says [r]. *)
Definition outcome T own strs (k : Z) (r : Z + Z) (rv : Z * Z) d' e' : Prop :=
  exists T', grown T T' k /\ coherent junk fs rt.2 T' /\
    ((exists v p, rv = (0, v) /\ r = inl p /\ vfs_ok d' e' t rt T' ((v, p) :: own) strs) \/
     (exists rc, rv = (rc, NULL) /\ rc <> 0 /\ (rc = - ENOMEM \/ r = inr rc) /\ vfs_ok d' e' t rt T' own strs)).

Definition lookup_ok (k : Z) (rec : list Z -> K (Z * Z)) (srec : list Z -> found) : Prop :=
  forall path r d e T own strs fl,
    vfs_ok d e t rt T own strs -> coherent junk fs rt.2 T -> nonzero path -> room T own k -> srec path = Some r ->
    ev [] (rec path) (fun rv d' e' fl' => outcome T own strs k r rv d' e' /\ fl' = fl) d e fl.

(** The same inside the walk, which holds the copy of the path. *)
Definition walked pc s T own strs (k : Z) (r : Z + Z) (res : Z + Z) d' e' : Prop :=
  exists T', grown T T' k /\ coherent junk fs rt.2 T' /\
    match res with
    | inl v => exists p, r = inl p /\ vfs_ok d' e' t rt T' ((v, p) :: own) ((pc, OStr s) :: strs)
    | inr rc => rc <> 0 /\ (rc = - ENOMEM \/ r = inr rc) /\ vfs_ok d' e' t rt T' own strs
    end.

Lemma ev_fail pc s v p rc (Q : Z * Z -> fsd -> E -> Z -> Prop) d e T own strs fl :
  vfs_ok d e t rt T ((v, p) :: own) ((pc, OStr s) :: strs) ->
  (forall d' e', vfs_ok d' e' t rt T own strs -> Q (rc, NULL) d' e' fl) -> ev [] (lookup_fail v pc rc) Q d e fl.
Proof.
  intros Hok HQ. unfold lookup_fail. ev_step. eapply ev_vunref; [exact Hok|constructor|]. intros d1 e1 Hok1. ev_step.
  eapply ev_tmp_free; [exact Hok1|done|]. intros d2 e2 Hok2. by apply ev_ret, HQ.
Qed.

Lemma ev_follow_link k rec srec pc s v p str cs r d e T own strs fl :
  lookup_ok k rec srec -> Forall nonzero cs -> str <> [] -> view t !! p = Some (FSym str) ->
  vfs_ok d e t rt T ((v, p) :: own) ((pc, OStr s) :: strs) -> coherent junk fs rt.2 T -> room T own k -> 0 <= k ->
  match link_path cs str with None => r = inr (- ENAMETOOLONG) | Some path => srec path = Some r end ->
  ev [] (follow_link junk rec pc v cs) (fun res d' e' fl' => walked pc s T own strs k r res d' e' /\ fl' = fl) d e fl.
Proof using Hjunk.
  intros Hrec Hcs Hne Hp Hok Hco Hroom Hk Hr. unfold follow_link. ev_step. eapply ev_vop; [exact Hok|apply pairs_own|]. simpl.
  ev_step. eapply ev_fs_readlink; [exact Hok|apply pairs_own|exact Hp|done|]. intros len Hlen. unfold strlen in Hlen.
  destruct (Z.ltb_spec len 0); [unfold VFS_MAX_PATH in *; lia|].
  destruct (Z.leb_spec VFS_MAX_PATH len); [unfold VFS_MAX_PATH in *; lia|].
  assert (Htl : Z.of_nat (length (take (Z.to_nat len) str)) = len) by (rewrite length_take; lia).
  set (bytes := take (Z.to_nat len) str ++ [0]).
  assert (Hbl : Z.of_nat (length bytes) = len + 1) by (unfold bytes; rewrite length_app; simpl; lia).
  ev_step. eapply ev_lift.
  { unfold awrite. rewrite decide_True; [done|]. rewrite length_app. lia. }
  assert (Htarget : cstr (<[Z.to_nat len := 0]> (bytes ++ drop (length bytes) junk)) = link_target str).
  { unfold bytes. rewrite <- app_assoc. simpl. rewrite insert_app_r_alt by lia.
    replace (Z.to_nat len - length (take (Z.to_nat len) str))%nat with O by lia. simpl. rewrite cstr_stop.
    unfold link_target. destruct (Z.le_gt_cases (Z.of_nat (length str)) (VFS_MAX_PATH - 1)).
    - rewrite !take_ge by lia. done.
    - do 2 f_equal. lia. }
  rewrite Htarget. ev_step. eapply ev_vunref; [exact Hok|constructor|]. intros d1 e1 Hok1.
  change (if deref (link_target str) =? SLASH then Some (link_target str) else relative_target cs (link_target str))
    with (link_path cs str).
  destruct (link_path cs str) as [path|] eqn:Hpath.
  - ev_step. eapply ev_mono; [eapply Hrec; [exact Hok1|done|by eapply link_path_nonzero|done|exact Hr]|].
    intros rv d2 e2 fl2 [(T' & Hg & Hco' & HT) ->].
    destruct HT as [(v' & p' & -> & -> & Hok2)|(rc & -> & Hrc & Hor & Hok2)].
    + simpl. apply ev_ret. split; [|done]. exists T'. split; [done|]. split; [done|]. by exists p'.
    + destruct (Z.eqb_spec rc 0); [done|]. simpl. ev_step. eapply ev_tmp_free; [exact Hok2|done|]. intros d3 e3 Hok3.
      apply ev_ret. split; [|done]. exists T'. by split_and!.
  - ev_step. eapply ev_tmp_free; [exact Hok1|done|]. intros d2 e2 Hok2. apply ev_ret. split; [|done]. exists T.
    split; [unfold grown; lia|]. split; [done|]. split; [done|]. by split; [right|].
Qed.

Lemma ev_walk k rec srec follow pc s : lookup_ok k rec srec -> 0 <= k ->
  forall todo cs depth cur q r d e T own strs fl,
  Forall nonzero cs -> Forall nonzero todo -> 0 <= depth <= VFS_MAX_SYMLINK_DEPTH ->
  vfs_ok d e t rt T ((cur, q) :: own) ((pc, OStr s) :: strs) -> coherent junk fs rt.2 T ->
  room T own ((VFS_MAX_SYMLINK_DEPTH + 1 - depth) * k + 3) ->
  spec_walk srec fs follow cs todo depth q = Some r ->
  ev [] (walk junk rec follow pc cs todo depth cur) (fun res d' e' fl' =>
    walked pc s T own strs ((VFS_MAX_SYMLINK_DEPTH - depth) * k) r res d' e' /\ fl' = fl) d e fl.
Proof using Hjunk.
  intros Hrec Hk. induction todo as [|c todo IH]; intros cs depth cur q r d e T own strs fl Hcs Htodo Hdep Hok Hco Hroom; simpl.
  { intros [= <-]. apply ev_ret. split; [|done]. exists T. split; [unfold grown; nia|]. split; [done|]. by exists q. }
  inversion Htodo as [|? ? Hc Htodo']; subst. assert (Hcs' : Forall nonzero (cs ++ [c])) by (apply Forall_app; by split; [|constructor]).
  destruct (handle_of _ _ _ _ _ _ _ _ _ Hok (pairs_own rt T own (cur, q))) as (_ & w & o & Hw & _ & _ & Ho & Hty & _).
  intros Hs. ev_step. eapply ev_the_vnode; [done|].
  assert (Hfailed : forall rc d' e', rc <> 0 -> rc = - ENOMEM \/ r = inr rc -> vfs_ok d' e' t rt T own strs ->
    walked pc s T own strs ((VFS_MAX_SYMLINK_DEPTH - depth) * k) r (inr rc) d' e').
  { intros rc d' e' Hrc Hor Hok'. exists T. split; [unfold grown; nia|]. by split_and!. }
  rewrite Hty. rewrite Ho in Hs. destruct o as [b|m|tg]; simpl ftype.
  1,3: change (negb (_ =? VFS_IFDIR)) with true; cbn iota; injection Hs as <-; ev_step;
    eapply ev_fail; [exact Hok|]; intros d1 e1 Hok1; apply ev_ret; split; [|done]; apply Hfailed; [done|by right|done].
  change (negb (VFS_IFDIR =? VFS_IFDIR)) with false. cbn iota. ev_step. eapply ev_vop; [exact Hok|apply pairs_own|]. simpl.
  ev_step. eapply ev_fs_lookup; [exact Hok|apply pairs_own|exact Ho|..].
  - intros Hm. rewrite Hm in Hs. injection Hs as <-. ev_step. eapply ev_vunref; [exact Hok|constructor|].
    intros d1 e1 Hok1. simpl. ev_step. eapply ev_tmp_free; [exact Hok1|done|]. intros d2 e2 Hok2. apply ev_ret.
    split; [|done]. apply Hfailed; [done|by right|done].
  - intros e1 Hok1. ev_step. eapply ev_vunref; [exact Hok1|constructor|].
    intros d2 e2 Hok2. simpl. ev_step. eapply ev_tmp_free; [exact Hok2|done|]. intros d3 e3 Hok3. apply ev_ret.
    split; [|done]. apply Hfailed; [done|by left|done].
  - intros v x d1 e1 Hm Hok1. rewrite Hm in Hs. ev_step.
    eapply ev_vunref; [eapply vfs_ok_perm; [apply perm_swap|done|exact Hok1]|constructor|]. intros d2 e2 Hok2. simpl.
    destruct (handle_of _ _ _ _ _ _ _ _ _ Hok2 (pairs_own rt T own (v, x))) as (_ & w2 & o2 & Hw2 & _ & _ & Ho2 & Hty2 & _).
    ev_step. eapply ev_the_vnode; [done|]. rewrite Hty2. rewrite Ho2 in Hs. destruct o2 as [b|m2|str]; simpl ftype.
    1,2: change (_ =? VFS_IFLNK) with false; cbn iota; by eapply IH.
    change (VFS_IFLNK =? VFS_IFLNK) with true. cbn iota. destruct (bool_decide (todo = []) && negb follow).
    { injection Hs as <-. apply ev_ret. split; [|done]. exists T. split; [unfold grown; nia|]. split; [done|]. by exists x. }
    destruct (Z.leb_spec VFS_MAX_SYMLINK_DEPTH depth).
    { injection Hs as <-. ev_step. eapply ev_fail; [exact Hok2|]. intros d3 e3 Hok3. apply ev_ret. split; [|done].
      apply Hfailed; [done|by right|done]. }
    case_bool_decide as Hstr; [done|].
    set (r1 := match link_path cs str with None => Some (inr (- ENAMETOOLONG)) | Some path => srec path end).
    assert (Hr1 : exists y, r1 = Some y /\ match y with inl y' => spec_walk srec fs follow (cs ++ [c]) todo (depth + 1) y' = Some r | inr _ => r = y end).
    { unfold r1. destruct (link_path cs str) as [path|]; [|injection Hs as <-; by eexists].
      destruct (srec path) as [[y'|rc]|]; [by eexists|injection Hs as <-; by eexists|done]. }
    destruct Hr1 as (y & Hy & Hrest). ev_step.
    assert (Hk1 : room T own k) by (unfold room in *; nia).
    eapply ev_mono; [eapply (ev_follow_link k rec srec pc s v x str cs y); try done|].
    { unfold r1 in Hy. destruct (link_path cs str); [done|by injection Hy as <-]. }
    intros res d3 e3 fl3 [(T' & Hg & Hco' & HT) ->]. destruct res as [v'|rc].
    + destruct HT as (p' & -> & Hok3). eapply ev_mono; [eapply (IH (cs ++ [c]) (depth + 1) v' p' r); try done; [lia|]|].
      { unfold room, grown in *. nia. }
      intros res d4 e4 fl4 [(T2 & Hg2 & Hco2 & HT2) ->]. split; [|done]. exists T2. split; [unfold grown in *; nia|]. by split.
    + destruct HT as (Hrc & Hor & Hok3). apply ev_ret. split; [|done]. exists T'. split; [unfold grown in *; nia|].
      split; [done|]. split; [done|]. split; [|done]. destruct Hor as [->| ->]; [by left|]. right. done.
Qed.
(** ** The lookup *)

Lemma pairs_root T own : rt ∈ pairs rt T own.
Proof. unfold pairs. by apply elem_of_cons; left. Qed.

Lemma ev_lookup_root k d e T own strs fl :
  vfs_ok d e t rt T own strs -> coherent junk fs rt.2 T -> room T own k -> 1 <= k ->
  ev [] lookup_root (fun rv d' e' fl' => outcome T own strs k (inl rt.2) rv d' e' /\ fl' = fl) d e fl.
Proof.
  intros Hok Hco Hroom Hk. destruct (vo_root _ _ _ _ _ _ _ Hok) as [_ (m & Hm & Hr)]. unfold lookup_root. ev_step. ev_step.
  ev_step. eapply ev_the_mount; [done|]. rewrite Hr. ev_step. eapply (ev_vref _ rt.1 rt.2); [exact Hok| | |set_solver|].
  { rewrite <- surjective_pairing. apply pairs_root. }
  { unfold room in *. lia. }
  intros d1 Hok1. apply ev_ret. split; [|done]. exists T. split; [unfold grown; lia|]. split; [done|]. left. by exists rt.1, rt.2.
Qed.

Lemma coherent_add T x y path v p n l :
  T !! slot_of path = Some l -> coherent junk fs rt.2 T -> resolve_norm junk n fs rt.2 path true = Some (inl p) ->
  coherent junk fs rt.2 (cache_add T (CDent y x path v p)).
Proof.
  intros Hl Hco Hr c. rewrite (cached_add T (CDent y x path v p) l Hl). intros [->|Hc]%elem_of_cons; [by exists n|by apply Hco].
Qed.

(** The name enters the cache when the walk followed every link; a failure
    to cache it does not matter. *)
Lemma ev_remember path v p (follow : bool) n (Q : unit -> fsd -> E -> Z -> Prop) d e T own strs fl :
  vfs_ok d e t rt T ((v, p) :: own) strs -> coherent junk fs rt.2 T -> room T own 2 ->
  resolve_norm junk n fs rt.2 path follow = Some (inl p) ->
  (forall d' e' T', vfs_ok d' e' t rt T' ((v, p) :: own) strs -> coherent junk fs rt.2 T' -> grown T T' 1 -> Q tt d' e' fl) ->
  ev [] (if follow && negb (v =? NULL) then _ <- vfs_dentry_add (Some path) v ;; ret tt else ret tt) Q d e fl.
Proof.
  intros Hok Hco Hroom Hr HQ. assert (Hsame : forall d' e', vfs_ok d' e' t rt T ((v, p) :: own) strs -> Q tt d' e' fl).
  { intros d' e' Hok'. apply (HQ _ _ T); [done|done|unfold grown; lia]. }
  destruct follow; cbn [andb]; [|by apply ev_ret, Hsame]. destruct (v =? NULL); cbn [negb]; [by apply ev_ret, Hsame|].
  ev_step. eapply ev_dentry_add; [exact Hok|apply pairs_own|unfold room in *; simpl; lia|..].
  - intros d1 e1 Hok1. by apply ev_ret, Hsame.
  - intros x y d1 e1 Hok1. apply ev_ret. destruct (slot_chain _ _ _ _ _ _ _ path Hok) as (l & a & Hl & _).
    apply (HQ _ _ _ Hok1); [by eapply coherent_add|]. unfold grown. rewrite (cached_add _ (CDent y x path v p) l Hl). simpl. lia.
Qed.

Lemma ev_lookup_slow n rec path follow r d e T own strs fl :
  lookup_ok (cost n) rec (fun p => resolve_path junk n fs rt.2 p true) -> nonzero path ->
  vfs_ok d e t rt T own strs -> coherent junk fs rt.2 T -> room T own (cost (S n)) ->
  resolve_norm junk n fs rt.2 path follow = Some r ->
  ev [] (lookup_slow junk rec path follow) (fun rv d' e' fl' => outcome T own strs (cost (S n)) r rv d' e' /\ fl' = fl) d e fl.
Proof using Hjunk.
  intros Hrec Hnz Hok Hco Hroom Hr. pose proof (cost_pos n) as Hpos. assert (Hk : 1 <= cost (S n)) by (simpl; lia).
  unfold lookup_slow. destruct (names_equal_spec path [SLASH]) as [->|_].
  { unfold resolve_norm in Hr. injection Hr as <-. by apply ev_lookup_root. }
  ev_step. unfold kmalloc_str. eapply ev_tmp_new; [exact Hok|done|..].
  { intros e1 Hok1. simpl. apply ev_ret. split; [|done]. exists T. split; [unfold grown; lia|]. split; [done|]. right.
    exists (- ENOMEM). split_and!; try done. by left. }
  intros pc d1 e1 Hpc Hok1 _. destruct (Z.eqb_spec pc NULL); [done|].
  case_bool_decide as Hcs.
  { unfold resolve_norm in Hr. rewrite Hcs in Hr. injection Hr as <-. ev_step. eapply ev_tmp_free; [exact Hok1|done|].
    intros d2 e2 Hok2. by apply ev_lookup_root. }
  destruct (vo_root _ _ _ _ _ _ _ Hok1) as [_ (m & Hm & Hmr)]. ev_step. ev_step. ev_step. eapply ev_the_mount; [done|].
  rewrite Hmr. ev_step. eapply (ev_vref _ rt.1 rt.2); [exact Hok1| | |set_solver|].
  { rewrite <- surjective_pairing. apply pairs_root. }
  { unfold room in *. lia. }
  intros d2 Hok2. ev_step. eapply ev_mono; [eapply (ev_walk (cost n)); [exact Hrec|lia|constructor| |done|exact Hok2|done| |exact Hr]|].
  { apply strtok_nonzero. destruct Hnz; [constructor|done]. }
  { unfold room in *. cbn [cost] in Hroom. unfold VFS_MAX_SYMLINK_DEPTH. lia. }
  intros res d3 e3 fl3 [(T' & Hg & Hco' & HT) ->]. unfold VFS_MAX_SYMLINK_DEPTH in Hg. destruct res as [v|rc].
  - destruct HT as (p & -> & Hok3). ev_step. eapply ev_tmp_free; [exact Hok3|done|]. intros d4 e4 Hok4. ev_step.
    eapply (ev_remember path v p); [exact Hok4|done| |exact Hr|].
    { unfold room, grown in *. cbn [cost] in Hroom. lia. }
    intros d5 e5 T2 Hok5 Hco2 Hg2. ev_step. eapply ev_update_atime; [exact Hok5|apply pairs_own|]. intros d6 e6 Hok6.
    apply ev_ret. split; [|done]. exists T2. split; [unfold grown in *; cbn [cost]; lia|]. split; [done|]. left. by exists v, p.
  - destruct HT as (Hrc & Hor & Hok3). apply ev_ret. split; [|done]. exists T'. split; [unfold grown in *; cbn [cost]; lia|].
    split; [done|]. right. by exists rc.
Qed.

Lemma norm_run path : nonzero path -> deref path = SLASH -> exists rc b,
  vfs_normalize_path (Some path) junk = Ok (rc, b) /\ norm junk path = (rc, cstr b) /\ (rc <> 0 \/ rooted (cstr b)).
Proof using Hjunk.
  intros Hnz Ha. destruct (proj1 (wp_run _ _ _) (wp_normalize_path junk path Hjunk Hnz)) as (rc & b & Hr & Hcase).
  exists rc, b. unfold norm. rewrite Hr. split; [done|]. split; [done|].
  destruct Hcase as [(? & -> & _)|[(_ & _ & -> & _)|(_ & -> & _ & Hroot & _)]]; [by left|by left|by right].
Qed.

Lemma ev_lookup_internal n follow :
  lookup_ok (cost n) (fun p => vfs_lookup_internal junk n (Some p) follow) (fun p => resolve_path junk n fs rt.2 p follow).
Proof using Hjunk.
  revert follow. induction n as [|n IH]; intros follow path r d e T own strs fl Hok Hco Hnz Hroom Hr; [done|].
  cbn [resolve_path] in Hr. cbn [vfs_lookup_internal]. pose proof (cost_pos n) as Hpos.
  assert (Hfailed : forall rc, rc <> 0 -> r = inr rc -> outcome T own strs (cost (S n)) r (rc, NULL) d e).
  { intros rc Hrc ->. exists T. split; [unfold grown; cbn [cost]; lia|]. split; [done|]. right. exists rc. split_and!; try done. by right. }
  unfold vfs_is_absolute_path. destruct (Z.eqb_spec (deref path) SLASH) as [Ha|Ha]; cbn [negb] in *.
  2: { injection Hr as <-. apply ev_ret. split; [|done]. by apply Hfailed. }
  destruct (norm_run path Hnz Ha) as (rc & b & Hrun & Hnorm & _). rewrite Hnorm in Hr. cbn [fst snd] in Hr.
  destruct (vo_root _ _ _ _ _ _ _ Hok) as [Hr0 (m & Hm & Hmr)].
  destruct (handle_of _ _ _ _ _ _ _ rt.1 rt.2 Hok) as (Hv0 & _).
  { rewrite <- surjective_pairing. apply pairs_root. }
  ev_step. ev_step. destruct (Z.eqb_spec (root_mount d) NULL); [done|]. ev_step. ev_step. eapply ev_the_mount; [done|].
  rewrite Hmr. apply ev_ret. destruct (Z.eqb_spec rt.1 NULL); [done|]. cbn [negb]. ev_step. unfold with_buffer.
  eapply ev_lift; [exact Hrun|]. cbv beta iota. destruct (Z.eqb_spec rc 0) as [->|Hrc]; cbn [negb] in *.
  2: { injection Hr as <-. apply ev_ret. split; [|done]. by apply Hfailed. }
  change (resolve_norm junk n fs rt.2 (cstr b) follow = Some r) in Hr.
  assert (Hslow : ev [] (vfs_stats_record_lookup false ;;;
      lookup_slow junk (fun p => vfs_lookup_internal junk n (Some p) true) (cstr b) follow)
    (fun rv d' e' fl' => outcome T own strs (cost (S n)) r rv d' e' /\ fl' = fl) d e fl).
  { ev_step. eapply ev_bump; [exact Hok|]. intros d1 Hok1. eapply ev_lookup_slow; try done. apply cstr_nonzero. }
  destruct follow; [|ev_step; apply ev_ret; cbn [negb]; exact Hslow].
  ev_step. ev_step. eapply ev_dentry_lookup; [exact Hok|]. destruct (cache_find T (cstr b)) as [c|] eqn:Hc; simpl from_option.
  2: { apply ev_ret. exact Hslow. }
  destruct (cache_find_elem _ _ _ Hc) as [Hcin Hcname]. destruct (Hco c Hcin) as [n' Hn']. rewrite Hcname in Hn'.
  pose proof (resolve_norm_det _ _ _ _ _ _ _ _ _ Hr Hn') as ->.
  assert (Hcp : (cd_vnode c, cd_node c) ∈ pairs rt T own).
  { unfold pairs. apply elem_of_cons. right. apply elem_of_app. left. by apply (list_elem_of_fmap_2 cd_pair). }
  destruct (handle_of _ _ _ _ _ _ _ _ _ Hok Hcp) as (Hcv & _).
  destruct (cached_heap _ _ _ _ _ _ _ _ Hok Hcin) as (o & Hoc & Hov & _).
  assert (Hc0 : cd_addr c <> NULL) by (destruct (tf_heap _ _ _ (vo_tfs _ _ _ _ _ _ _ Hok) _ _ Hoc); unfold NULL; lia).
  cbv beta. destruct (Z.eqb_spec (cd_addr c) NULL); [done|]. ev_step. unfold the_dentry. ev_step. eapply ev_the_obj; [done|]. apply ev_ret. rewrite Hov.
  apply ev_ret. destruct (Z.eqb_spec (cd_vnode c) NULL); [done|]. cbn [negb]. ev_step.
  eapply ev_vref; [exact Hok|exact Hcp|unfold room in *; cbn [cost] in Hroom; lia|set_solver|]. intros d1 Hok1. ev_step.
  eapply ev_update_atime; [exact Hok1|apply pairs_own|]. intros d2 e2 Hok2. ev_step. eapply ev_bump; [exact Hok2|].
  intros d3 Hok3. apply ev_ret. split; [|done]. exists T. split; [unfold grown; cbn [cost]; lia|]. split; [done|]. left.
  by exists (cd_vnode c), (cd_node c).
Qed.
End refine.
End walk.
