(* ===== verification/VfsNames.v ===== *)
(** * Paths written as lists of names

    What [vfs_dirname] and [vfs_basename] give, and the meaning of a plain
    path: one that is a list of proper names behind slashes.  A plain path is
    its own normal form, splits into its directory and its last name, and
    [resolve_path] walks its names one by one. *)

From stdpp Require Import base numbers list gmap.
From S2P Require Import Prelude Kernel KLogic VfsPath VfsPathSpec Fs Tmpfs TmpfsFacts TmpfsDir TmpfsThms Vfs VfsFacts VfsWalk.

(** ** The directory and the last name of a path *)

(** [None]: the directory's name does not fit the buffer. *)
Definition dir_of (p : list Z) : option (list Z) :=
  match strrchr p SLASH with
  | None => Some [DOT]
  | Some i => let len := if i =? 0 then 1 else i in if VFS_MAX_PATH <=? len then None else Some (take (Z.to_nat len) p)
  end.

Definition base_of (p : list Z) : list Z := default [] (vfs_basename (Some p)).

Lemma strrchr_from_range i p ch save j : strrchr_from i p ch save = Some j -> save = Some j \/ i <= j < i + strlen p.
Proof.
  unfold strlen. revert i save. induction p as [|c p IH]; intros i save; simpl; [by left|].
  intros Hs. apply IH in Hs as [Hs|Hs]; [|right; lia]. destruct (c =? ch); [|by left]. injection Hs as <-. right. lia.
Qed.

Lemma strrchr_range p ch j : strrchr p ch = Some j -> 0 <= j < strlen p.
Proof. intros Hs. apply strrchr_from_range in Hs as [?|?]; [done|lia]. Qed.

Lemma strrchr_from_app i p c q save :
  Forall (fun x => x <> c) q -> strrchr_from i (p ++ c :: q) c save = Some (i + strlen p).
Proof.
  intros Hq. unfold strlen. revert i save. induction p as [|x p IH]; intros i save; simpl.
  - rewrite Z.eqb_refl. assert (Hrest : forall j save', strrchr_from j q c save' = save').
    { induction Hq as [|x q Hx Hq IH]; intros j save'; simpl; [done|]. apply Z.eqb_neq in Hx. by rewrite Hx. }
    rewrite Hrest. f_equal. lia.
  - rewrite IH. f_equal. lia.
Qed.

(** A string written to the front of a buffer. *)
Lemma wp_string b s : length b = Z.to_nat VFS_MAX_PATH -> nonzero s -> strlen s < VFS_MAX_PATH ->
  wp (bcopy 0 s ;;; bwrite (strlen s) 0) (fun _ b' => cstr b' = s) b.
Proof.
  intros Hb Hz Hs. wp_step. apply (wp_bcopy _ _ _ []); [by split_and!|unfold strlen in *; lia|]. intros b1 H1.
  eapply wp_bwrite; [exact H1|done|]. intros b2 (_ & _ & H2). simpl in H2. by apply cstr_holds.
Qed.

Lemma dirname_run junk p : length junk = Z.to_nat VFS_MAX_PATH -> nonzero p -> exists b,
  vfs_dirname (Some p) VFS_MAX_PATH junk = Ok (bool_decide (is_Some (dir_of p)), b) /\
  forall q, dir_of p = Some q -> cstr b = q.
Proof.
  intros Hj Hz. unfold vfs_dirname, dir_of. change (VFS_MAX_PATH =? 0) with false. cbn iota.
  destruct (strrchr p SLASH) as [i|] eqn:Hi.
  - apply strrchr_range in Hi. set (len := if i =? 0 then 1 else i). unfold strlen in Hi.
    assert (Hlen : 0 <= len <= Z.of_nat (length p)) by (unfold len; destruct (Z.eqb_spec i 0); lia).
    destruct (Z.leb_spec VFS_MAX_PATH len) as [Hb|Hb].
    { exists junk. split; [by rewrite bool_decide_false by (by intros [])|done]. }
    assert (Hl : strlen (take (Z.to_nat len) p) = len) by (unfold strlen; rewrite length_take; lia).
    destruct (proj1 (wp_run _ _ _) (wp_string junk (take (Z.to_nat len) p) Hj (Forall_take _ _ _ Hz) ltac:(lia)))
      as ([] & b & Hr & Hc). rewrite Hl in Hr. exists b. split; [|by intros q [= <-]].
    unfold bind in *. rewrite bool_decide_true by (by eexists).
    destruct (bcopy 0 _ junk) as [[[] b1]|]; [|done]. by rewrite Hr.
  - assert (Hdot : nonzero [DOT]) by (by constructor).
    destruct (proj1 (wp_run _ _ _) (wp_string junk [DOT] Hj Hdot ltac:(done))) as ([] & b & Hr & Hc).
    exists b. split; [|by intros q [= <-]]. change (strlen [DOT]) with 1 in Hr. cbn [bcopy] in Hr. unfold bind in *. rewrite bool_decide_true by (by eexists).
    destruct (bwrite 0 DOT junk) as [[[] b1]|]; [|done]. cbn in Hr |- *. by rewrite Hr.
Qed.

Lemma dir_of_nonzero p q : nonzero p -> dir_of p = Some q -> nonzero q.
Proof.
  intros Hz. unfold dir_of. destruct (strrchr p SLASH); [|intros [= <-]; by constructor].
  destruct (_ <=? _); [done|]. intros [= <-]. by apply Forall_take.
Qed.

Lemma base_of_run p : vfs_basename (Some p) = Some (base_of p).
Proof. unfold base_of, vfs_basename. by destruct (strrchr p SLASH). Qed.

(** ** Plain paths *)

Definition plain_name (c : list Z) : Prop := name c /\ c <> [DOT] /\ c <> [DOT; DOT].

Definition plain (cs : list (list Z)) : Prop :=
  Forall plain_name cs /\ strlen (render cs) < VFS_MAX_PATH.

Lemma plain_names cs : Forall plain_name cs -> Forall name cs.
Proof. intros Hc. eapply Forall_impl; [exact Hc|]. by intros c [? _]. Qed.

Lemma components_name cur c p : Forall (fun x => x <> SLASH) c -> components_from cur (c ++ p) = components_from (cur ++ c) p.
Proof.
  revert cur. induction c as [|x c IH]; intros cur Hc; simpl; [by rewrite app_nil_r|].
  inversion Hc as [|? ? Hx Hc']; subst. apply Z.eqb_neq in Hx. rewrite Hx, IH by done. by rewrite <- app_assoc.
Qed.

Lemma components_flat cur cs : Forall name cs ->
  components_from cur (flat cs) = match cur with [] => cs | _ => cur :: cs end.
Proof.
  intros Hcs. revert cur. induction Hcs as [|c cs Hc Hcs IH]; intros cur; simpl; [done|].
  rewrite components_name by (by apply name_no_slash). fold (flat cs). rewrite IH.
  destruct Hc as [Hc _]. destruct cur; simpl; destruct c; done.
Qed.

Lemma components_render cs : Forall name cs -> components (render cs) = cs.
Proof. intros Hcs. destruct cs as [|c cs]; [done|]. unfold components, render. by rewrite components_flat. Qed.

Lemma steady_plain l cs : Forall plain_name cs -> steady false l cs /\ fold_left resolve_one cs l = l ++ cs.
Proof.
  intros Hcs. revert l. induction Hcs as [|c cs (Hc & H1 & H2) Hcs IH]; intros l; simpl; [by rewrite app_nil_r|].
  unfold resolve_one at 2. rewrite !decide_False by done. destruct (IH (l ++ [c])) as [Hs Hf].
  split; [by split; [left|]|]. by rewrite Hf, <- app_assoc.
Qed.

Lemma render_rooted cs : deref (render cs) = SLASH.
Proof. by destruct cs. Qed.

Lemma flat_nonzero cs : Forall name cs -> nonzero (flat cs).
Proof.
  induction 1 as [|c cs [_ Hc] _ IH]; simpl; [constructor|]. constructor; [done|]. apply Forall_app. split; [|done].
  eapply Forall_impl; [exact Hc|]. by intros x [_ ?].
Qed.

Lemma render_nonzero cs : Forall name cs -> nonzero (render cs).
Proof. destruct cs; [by constructor|apply flat_nonzero]. Qed.

(** A plain path is its own normal form. *)
Lemma norm_render junk cs : length junk = Z.to_nat VFS_MAX_PATH -> plain cs -> norm junk (render cs) = (0, render cs).
Proof.
  intros Hj [Hcs Hl]. pose proof (plain_names _ Hcs) as Hn.
  destruct (proj1 (wp_run _ _ _) (wp_normalize_path junk (render cs) Hj (render_nonzero _ Hn))) as (rc & b & Hr & Hcase).
  unfold norm. rewrite Hr. destruct Hcase as [(Hd & _)|[(_ & Hlong & _)|(_ & -> & _ & _ & _ & Hs)]].
  - by destruct (Hd (render_rooted cs)).
  - lia.
  - rewrite components_render in Hs by done. destruct (steady_plain [] cs Hcs) as [Hst Hf]. f_equal.
    rewrite Hs by done. unfold resolve. by rewrite Hf.
Qed.

Lemma take_component_name_app c p : Forall (fun x => x <> SLASH) c -> deref p = SLASH \/ p = [] -> take_component (c ++ p) = (c, p).
Proof.
  induction 1 as [|x c Hx Hc IH]; simpl; intros Hp.
  - destruct p as [|y p]; [done|]. destruct Hp as [Hp|]; [|done]. simpl in Hp. subst. simpl. done.
  - apply Z.eqb_neq in Hx. by rewrite Hx, IH.
Qed.

Lemma strtok_flat n cs : Forall name cs -> strtok_loop n (flat cs) = take n cs.
Proof.
  intros Hcs. revert n. induction Hcs as [|c cs Hc Hcs IH]; intros [|n]; try done. simpl.
  pose proof (name_no_slash _ Hc) as Hns. destruct c as [|x c]; [by destruct Hc|]. simpl.
  inversion Hns as [|? ? Hx _]; subst. apply Z.eqb_neq in Hx. rewrite Hx.
  pose proof (take_component_name_app (x :: c) (flat cs) Hns) as Htc. simpl in Htc. rewrite Hx in Htc.
  fold (flat cs). rewrite Htc by (destruct cs; [by right|by left]). by rewrite Hx, IH.
Qed.

Lemma strtok_render n cs : Forall name cs -> strtok_loop n (tail (render cs)) = take n cs.
Proof.
  intros Hcs. rewrite <- (strtok_flat n cs Hcs). destruct n as [|n]; [done|]. destruct cs as [|c cs]; [done|].
  cbn [render strtok_loop flat flat_map tail skip_slashes app]. by rewrite Z.eqb_refl.
Qed.

Lemma plain_app cs c : plain (cs ++ [c]) -> plain cs /\ plain_name c.
Proof.
  intros [H1 H2]. apply Forall_app in H1 as [H1 Hc]. rewrite Forall_singleton in Hc. split; [|done]. split; [done|].
  rewrite render_snoc in H2. unfold strlen in *. rewrite length_app in H2. simpl in H2. destruct cs; simpl in *; [unfold VFS_MAX_PATH; lia|lia].
Qed.

Lemma dir_base_render cs c : plain (cs ++ [c]) -> dir_of (render (cs ++ [c])) = Some (render cs) /\ base_of (render (cs ++ [c])) = c.
Proof.
  intros Hp. destruct (plain_app _ _ Hp) as [[Hcs Hl] (Hc & _)]. unfold dir_of, base_of, vfs_basename. rewrite render_snoc.
  unfold strrchr. rewrite strrchr_from_app by (by apply name_no_slash). rewrite Z.add_0_l. unfold strlen. split.
  - destruct cs as [|x cs]; [done|]. change (render (x :: cs)) with (flat (x :: cs)) in *.
    destruct (Z.eqb_spec (Z.of_nat (length (flat (x :: cs)))) 0) as [Hz|_]; [simpl in Hz; lia|].
    destruct (Z.leb_spec VFS_MAX_PATH (Z.of_nat (length (flat (x :: cs))))) as [Hb|_]; [unfold strlen in Hl; lia|].
    rewrite Nat2Z.id, take_app_length. done.
  - replace (Z.to_nat (Z.of_nat (length (flat cs)) + 1)) with (length (flat cs) + 1)%nat by lia.
    by rewrite <- drop_drop, drop_app_length.
Qed.

(** ** What a plain path means *)

Lemma resolve_plain junk n fs root cs follow :
  length junk = Z.to_nat VFS_MAX_PATH -> plain cs ->
  resolve_path junk (S n) fs root (render cs) follow =
  spec_walk (fun p => resolve_path junk n fs root p true) fs follow [] (take 64 cs) 0 root.
Proof.
  intros Hj Hp. cbn [resolve_path]. rewrite render_rooted, Z.eqb_refl, norm_render by done. cbn [negb fst snd].
  change (0 =? 0) with true. cbn [negb]. destruct Hp as [Hcs _]. by rewrite strtok_render by (by apply plain_names).
Qed.

(** One more name behind a path that leads to a directory. *)
Lemma spec_walk_snoc rec fs follow cs todo depth q p m c r :
  spec_walk rec fs true cs todo depth q = Some (inl p) -> fs !! p = Some (FDir m) -> m !! c = Some r ->
  (forall str, fs !! r <> Some (FSym str)) ->
  spec_walk rec fs follow cs (todo ++ [c]) depth q = Some (inl r).
Proof.
  revert cs depth q. induction todo as [|x todo IH]; intros cs depth q Hw Hp Hc Hr; simpl in *.
  - injection Hw as ->. rewrite Hp, Hc. destruct (fs !! r) as [[| |str]|]; try done. by destruct (Hr str).
  - destruct (fs !! q) as [[|k|]|]; try done. destruct (k !! x) as [y|]; [|done].
    destruct (fs !! y) as [[| |str]|]; try (by apply IH).
    rewrite (bool_decide_false (todo ++ [c] = [])) by (by destruct todo). rewrite andb_false_r in Hw. cbn [andb] in *.
    destruct (_ <=? _); [done|]. case_bool_decide; [done|]. destruct (link_path cs str) as [path|]; [|done].
    destruct (rec path) as [[z|]|]; [by apply IH|done|done].
Qed.

Lemma resolve_snoc junk n fs root cs p m c r follow :
  length junk = Z.to_nat VFS_MAX_PATH -> plain (cs ++ [c]) -> (length cs < 64)%nat ->
  resolve_path junk (S n) fs root (render cs) true = Some (inl p) -> fs !! p = Some (FDir m) -> m !! c = Some r ->
  (forall str, fs !! r <> Some (FSym str)) ->
  resolve_path junk (S n) fs root (render (cs ++ [c])) follow = Some (inl r).
Proof.
  intros Hj Hp Hlen Hw Hm Hc Hr. destruct (plain_app _ _ Hp) as [Hcs _]. rewrite resolve_plain in Hw |- * by done.
  rewrite take_ge in Hw |- * by (rewrite ?length_app; simpl; lia). by eapply spec_walk_snoc.
Qed.

(** ** Growing file systems *)

(** [o'] has everything [o] leads to. *)
Definition node_extends (o o' : fnode) : Prop :=
  match o, o' with
  | FFile _, FFile _ => True
  | FDir m, FDir m' => m ⊆ m'
  | FSym s, FSym s' => s = s'
  | _, _ => False
  end.

Lemma node_extends_refl o : node_extends o o.
Proof. destruct o; simpl; [done|reflexivity|done]. Qed.

Definition extends (fs fs' : fsys) : Prop := forall p o, fs !! p = Some o -> exists o', fs' !! p = Some o' /\ node_extends o o'.

#[export] Instance extends_preorder : PreOrder extends.
Proof.
  split.
  - intros fs p o Hp. exists o. split; [done|apply node_extends_refl].
  - intros f1 f2 f3 H1 H2 p o Hp. destruct (H1 _ _ Hp) as (o1 & Hp1 & Ho1). destruct (H2 _ _ Hp1) as (o2 & Hp2 & Ho2).
    exists o2. split; [done|]. destruct o, o1, o2; simpl in *; try done; first [congruence|by etrans; [exact Ho1|exact Ho2]].
Qed.

(** A path that leads somewhere still does. *)
Lemma spec_walk_extends rec rec' fs fs' follow cs todo depth q p :
  extends fs fs' -> closed fs -> (forall x y, rec x = Some (inl y) -> rec' x = Some (inl y)) ->
  spec_walk rec fs follow cs todo depth q = Some (inl p) -> spec_walk rec' fs' follow cs todo depth q = Some (inl p).
Proof.
  intros Hex Hcl Hrec. revert cs depth q. induction todo as [|c todo IH]; intros cs depth q; simpl; [done|].
  destruct (fs !! q) as [[|m|]|] eqn:Hq; try done. destruct (Hex _ _ Hq) as (o' & Hq' & Ho'). destruct o' as [|m'|]; try done.
  rewrite Hq'. destruct (m !! c) as [r|] eqn:Hc; [|done]. rewrite (lookup_weaken _ _ _ _ Hc Ho').
  destruct (Hcl _ _ _ _ Hq Hc) as [o Hr]. destruct (Hex _ _ Hr) as (o' & Hr' & Hoo'). rewrite Hr, Hr'.
  destruct o as [| |str], o' as [| |str']; try done; try (by apply IH). simpl in Hoo'. subst str'.
  destruct (_ && _); [done|]. destruct (_ <=? _); [done|]. case_bool_decide; [done|].
  destruct (link_path cs str) as [path|]; [|done]. destruct (rec path) as [[y|]|] eqn:Hy; try done.
  rewrite (Hrec _ _ Hy). apply IH.
Qed.

Lemma resolve_path_extends junk n fs fs' root path follow p :
  extends fs fs' -> closed fs ->
  resolve_path junk n fs root path follow = Some (inl p) -> resolve_path junk n fs' root path follow = Some (inl p).
Proof.
  intros Hex Hcl. revert path follow p. induction n as [|n IH]; intros path follow p; simpl; [done|].
  destruct (negb _); [done|]. destruct (negb _); [done|]. apply spec_walk_extends; [done|done|]. intros x y. apply IH.
Qed.

Lemma coherent_extends junk fs fs' root T : extends fs fs' -> closed fs -> coherent junk fs root T -> coherent junk fs' root T.
Proof.
  intros Hex Hcl Hco c Hc. destruct (Hco c Hc) as [n Hn]. exists n. eapply spec_walk_extends; [done|done| |exact Hn].
  intros x y. by apply resolve_path_extends.
Qed.

(** Making a node or naming one only adds. *)
Lemma dstep_extends fs dir a rc fs' : dstep fs dir a rc fs' -> is_Some (added_name a) -> extends fs fs'.
Proof.
  assert (Hadd : forall m c q, fs !! dir = Some (FDir m) -> m !! c = None -> extends fs (<[dir := FDir (<[c := q]> m)]> fs)).
  { intros m c q Hd Hc p o Hp. destruct (decide (p = dir)) as [->|Hne].
    - rewrite lookup_insert_eq. eexists. split; [done|]. rewrite Hd in Hp. injection Hp as <-. by apply insert_subseteq.
    - rewrite lookup_insert_ne by done. exists o. split; [done|apply node_extends_refl]. }
  assert (Hmake : forall m c q o, fs !! dir = Some (FDir m) -> m !! c = None -> fs !! q = None ->
    extends fs (<[dir := FDir (<[c := q]> m)]> (<[q := o]> fs))).
  { intros m c q o Hd Hc Hq. rewrite insert_insert_ne by congruence. etrans; [by eapply Hadd|]. intros p o' Hp. exists o'.
    rewrite lookup_insert_ne; [split; [done|apply node_extends_refl]|]. intros <-. rewrite lookup_insert_ne in Hp by congruence. congruence. }
  intros Hs Ha. destruct Hs; try done; try (by apply Hadd); try (by apply Hmake); by destruct Ha.
Qed.
