(* ===== verification/VfsThms.v ===== *)
(** * Theorems about the name layer

    [vfs_state s fs root held k] is what a caller of the virtual file system
    knows between two calls: the locks are free, the files are [fs] with the
    root directory [root], the caller holds the references [held], the cache
    of names agrees with [fs], and [k] more references fit the counters.  The
    calls are shown against [fs] alone: nothing of the cache, the counters or
    the objects in memory appears in their specifications. *)

From stdpp Require Import base numbers list gmap.
From S2P Require Import Prelude Spinlock Kernel KLogic VfsPath VfsPathSpec SimpleHeap Fs Tmpfs TmpfsFacts TmpfsDir TmpfsOps TmpfsThms TmpfsFile TmpfsTop Vfs VfsFacts VfsWalk VfsNames.

Section thms.
Context {E : Type} `{TimeSource E}.
Context (junk : list Z) (Hjunk : length junk = Z.to_nat VFS_MAX_PATH).
Abbreviation K := (M (kst (guarded fsd) E)).
Implicit Types (d : fsd) (e : E) (fl k : Z) (fs : fsys) (held : list (Z * Z)) (strs : list (Z * fsobj)) (s : kst (guarded fsd) E).

Definition state strs d e fs (root : Z) held k : Prop :=
  exists t rv T, view t = fs /\ vfs_ok d e t (rv, root) T held strs /\ coherent junk fs root T /\ room T held k.

Definition vfs_state s fs (root : Z) held k : Prop :=
  idle [] s /\ state [] (g_data (k_obj s)) (k_env s) fs root held k.

Lemma state_weaken strs d e fs root held k k' : k' <= k -> state strs d e fs root held k -> state strs d e fs root held k'.
Proof. intros Hk (t & rv & T & Hv & Hok & Hco & Hr). exists t, rv, T. split_and!; try done. unfold room in *. lia. Qed.

Lemma vfs_run {X : Type} (m : K X) (P : X -> fsd -> E -> Prop) s fs root held k :
  vfs_state s fs root held k ->
  ev [] m (fun x d' e' fl' => P x d' e' /\ fl' = k_flags s) (g_data (k_obj s)) (k_env s) (k_flags s) ->
  exists x s', m s = Ok (x, s') /\ k_flags s' = k_flags s /\ idle [] s' /\ P x (g_data (k_obj s')) (k_env s').
Proof.
  intros [Hi _] Hev. destruct (ev_run _ _ _ _ _ s Hev Hi eq_refl eq_refl eq_refl) as (x & s' & Hr & Hi' & _ & HP & Hfl).
  by exists x, s'.
Qed.

(** ** Rules on the state *)

Lemma st_handle strs d e fs root held k v p : state strs d e fs root held k -> (v, p) ∈ held ->
  exists w o, fs_heap d !! v = Some (OVnode w) /\ v <> NULL /\ v_private w = p /\ fs !! p = Some o /\ type_of w = ftype o.
Proof.
  intros (t & rv & T & <- & Hok & _) Hin. assert (Hp : (v, p) ∈ pairs (rv, root) T held).
  { unfold pairs. rewrite elem_of_cons, elem_of_app. auto. }
  destruct (handle_of _ _ _ _ _ _ _ _ _ Hok Hp) as (Hv0 & w & o & Hw & Hpr & _ & Ho & Hty & _). by exists w, o.
Qed.

Lemma st_vop {X : Type} lk (f : vnode_operations -> option X) v p (Q : option X -> fsd -> E -> Z -> Prop) strs d e fs root held k fl :
  state strs d e fs root held k -> (v, p) ∈ held -> Q (f tmpfs_vnode_operations) d e fl -> ev lk (vop f v) Q d e fl.
Proof.
  intros (t & rv & T & <- & Hok & _) Hin. eapply ev_vop; [exact Hok|]. unfold pairs. rewrite elem_of_cons, elem_of_app. eauto.
Qed.

Lemma st_vunref v p (Q : unit -> fsd -> E -> Z -> Prop) strs d e fs root held k fl :
  state strs d e fs root ((v, p) :: held) k ->
  (forall d' e', state strs d' e' fs root held (k + 1) -> Q tt d' e' fl) -> ev [] (vnode_unref v) Q d e fl.
Proof.
  intros (t & rv & T & <- & Hok & Hco & Hr) HQ. eapply ev_vunref; [exact Hok|constructor|]. intros d' e' Hok'. apply HQ.
  exists t, rv, T. split_and!; try done. unfold room in *. simpl in Hr. lia.
Qed.

Lemma st_mtime v p (Q : unit -> fsd -> E -> Z -> Prop) strs d e fs root held k fl :
  state strs d e fs root held k -> (v, p) ∈ held ->
  (forall d' e', state strs d' e' fs root held k -> Q tt d' e' fl) -> ev [] (vfs_update_mtime v) Q d e fl.
Proof.
  intros (t & rv & T & <- & Hok & Hco & Hr) Hin HQ. eapply (ev_update_mtime _ _ p); [exact Hok|..].
  { unfold pairs. rewrite elem_of_cons, elem_of_app. eauto. }
  intros d' e' Hok'. apply HQ. by exists t, rv, T.
Qed.

Lemma st_bump g (Q : unit -> fsd -> E -> Z -> Prop) strs d e fs root held k fl :
  state strs d e fs root held k ->
  (forall d', state strs d' e fs root held k -> Q tt d' e fl) -> ev [] (bump_counts g) Q d e fl.
Proof.
  intros (t & rv & T & <- & Hok & Hco & Hr) HQ. eapply ev_bump; [exact Hok|]. intros d' Hok'. apply HQ. by exists t, rv, T.
Qed.

Lemma st_string (str : list Z) (Q : Z -> fsd -> E -> Z -> Prop) strs d e fs root held k fl :
  state strs d e fs root held k ->
  (forall e', state strs d e' fs root held k -> Q NULL d e' fl) ->
  (forall x d' e', x <> NULL -> state ((x, OStr str) :: strs) d' e' fs root held k -> Q x d' e' fl) ->
  ev [] (kmalloc_str str) Q d e fl.
Proof.
  intros (t & rv & T & <- & Hok & Hco & Hr) Hnull HQ. eapply ev_tmp_new; [exact Hok|done|..].
  - intros e' Hok'. apply Hnull. by exists t, rv, T.
  - intros x d' e' Hx Hok' _. apply HQ; [done|]. by exists t, rv, T.
Qed.

Lemma st_free_string x (str : list Z) (Q : unit -> fsd -> E -> Z -> Prop) strs d e fs root held k fl :
  state ((x, OStr str) :: strs) d e fs root held k ->
  (forall d' e', state strs d' e' fs root held k -> Q tt d' e' fl) -> ev [] (free x) Q d e fl.
Proof.
  intros (t & rv & T & <- & Hok & Hco & Hr) HQ. eapply ev_tmp_free; [exact Hok|done|]. intros d' e' Hok'. apply HQ.
  by exists t, rv, T.
Qed.

Lemma st_the_str x (str : list Z) (Q : list Z -> fsd -> E -> Z -> Prop) strs d e fs root held k fl :
  state ((x, OStr str) :: strs) d e fs root held k -> Q str d e fl -> ev [] (the_str x) Q d e fl.
Proof.
  intros (t & rv & T & <- & Hok & _) HQ. eapply ev_tmp_str; [exact Hok| |exact HQ]. rewrite strings_cons. by apply elem_of_cons; left.
Qed.

(** ** Lookup *)

Definition looked strs fs (root : Z) held k (r : Z + Z) (rv : Z * Z) d' e' : Prop :=
  (exists v p, rv = (0, v) /\ r = inl p /\ state strs d' e' fs root ((v, p) :: held) k) \/
  (exists rc, rv = (rc, NULL) /\ rc <> 0 /\ (rc = - ENOMEM \/ r = inr rc) /\ state strs d' e' fs root held k).

Lemma st_lookup n path follow r strs d e fs root held k fl :
  state strs d e fs root held k -> cost n <= k -> nonzero path -> resolve_path junk n fs root path follow = Some r ->
  ev [] (vfs_lookup_internal junk n (Some path) follow) (fun rv d' e' fl' =>
    looked strs fs root held (k - cost n - 1) r rv d' e' /\ fl' = fl) d e fl.
Proof using Hjunk.
  intros (t & rv & T & <- & Hok & Hco & Hroom) Hk Hnz Hr.
  eapply ev_mono; [eapply (ev_lookup_internal junk Hjunk t (rv, root) n follow path r); try done|].
  { unfold room in *. lia. }
  intros x d' e' fl' [(T' & Hg & Hco' & HT) ->]. split; [|done]. pose proof (cost_pos n) as Hc.
  destruct HT as [(v & p & -> & -> & Hok')|(rc & -> & Hrc & Hor & Hok')].
  - left. exists v, p. split; [done|]. split; [done|]. exists t, rv, T'. split_and!; try done. unfold room, grown in *. simpl. lia.
  - right. exists rc. split_and!; try done. exists t, rv, T'. split_and!; try done. unfold room, grown in *. lia.
Qed.

(** A call that works in the directory of its path. *)
Definition parent_of (n : nat) fs (root : Z) (path : list Z) : found :=
  match dir_of path with
  | None => Some (inr (- ENAMETOOLONG))
  | Some q => resolve_path junk n fs root q true
  end.

Lemma st_lookup_parent n path r strs d e fs root held k fl (Q : Z * Z * Z -> fsd -> E -> Z -> Prop) :
  state strs d e fs root held k -> cost n <= k -> nonzero path -> parent_of n fs root path = Some r ->
  (forall rc d' e', rc <> 0 -> rc = - ENOMEM \/ r = inr rc -> state strs d' e' fs root held (k - cost n - 1) ->
     Q (rc, NULL, NULL) d' e' fl) ->
  (forall v p x d' e', r = inl p -> x <> NULL ->
     state ((x, OStr (base_of path)) :: strs) d' e' fs root ((v, p) :: held) (k - cost n - 1) -> Q (0, v, x) d' e' fl) ->
  ev [] (vfs_lookup_parent junk n (Some path)) Q d e fl.
Proof using Hjunk.
  intros Hst Hk Hnz Hr Hfail HQ. unfold vfs_lookup_parent, with_buffer. destruct (dirname_run junk path Hjunk Hnz) as (b & Hrun & Hb).
  ev_step. eapply ev_lift; [exact Hrun|]. cbn [fst snd]. unfold parent_of in Hr. pose proof (cost_pos n) as Hc.
  destruct (dir_of path) as [q|] eqn:Hq.
  2: { rewrite bool_decide_false by (by intros []). cbn [negb]. apply ev_ret. injection Hr as <-. apply Hfail; [done|by right|].
       eapply state_weaken; [|exact Hst]. lia. }
  rewrite bool_decide_true by (by eexists). cbn [negb]. rewrite (Hb q eq_refl). ev_step. unfold vfs_lookup.
  eapply ev_mono; [eapply st_lookup; [exact Hst|done|by eapply dir_of_nonzero|exact Hr]|].
  intros rv d1 e1 fl1 [[(v & p & -> & -> & Hst1)|(rc & -> & Hrc & Hor & Hst1)] ->].
  2: { destruct (Z.eqb_spec rc 0); [done|]. cbn [negb]. by apply ev_ret, Hfail. }
  cbn [negb]. change (0 =? 0) with true. cbn [negb]. rewrite base_of_run. unfold vfs_strdup. ev_step. eapply st_string; [exact Hst1|..].
  - intros e2 Hst2. change (NULL =? NULL) with true. cbn iota. ev_step. eapply st_vunref; [exact Hst2|]. intros d3 e3 Hst3.
    apply ev_ret, Hfail; [done|by left|]. eapply state_weaken; [|exact Hst3]. lia.
  - intros x d2 e2 Hx Hst2. destruct (Z.eqb_spec x NULL); [done|]. apply ev_ret. by eapply HQ.
Qed.

(** The result of such a call: what [P] says of the directory, or an error of
    the walk to it. *)
Definition in_dir fs (r : Z + Z) (P : Z -> Z -> fsys -> Prop) (rc : Z) (fs' : fsys) : Prop :=
  fs' = fs /\ (rc = - ENOMEM \/ r = inr rc) \/ exists p, r = inl p /\ P p rc fs'.

Lemma st_in_parent n path r (f : Z -> list Z -> K Z) (P : Z -> Z -> fsys -> Prop) strs d e fs root held k fl :
  state strs d e fs root held k -> cost n <= k -> nonzero path -> parent_of n fs root path = Some r ->
  (forall v p x d1 e1, r = inl p -> state ((x, OStr (base_of path)) :: strs) d1 e1 fs root ((v, p) :: held) (k - cost n - 1) ->
     ev [] (f v (base_of path)) (fun rc d2 e2 fl2 => (exists fs', P p rc fs' /\
       state ((x, OStr (base_of path)) :: strs) d2 e2 fs' root ((v, p) :: held) (k - cost n - 2)) /\ fl2 = fl) d1 e1 fl) ->
  ev [] (in_parent junk n (Some path) id f) (fun rc d' e' fl' =>
    (exists fs', in_dir fs r P rc fs' /\ state strs d' e' fs' root held (k - cost n - 1)) /\ fl' = fl) d e fl.
Proof using Hjunk.
  intros Hst Hk Hnz Hr Hf. unfold in_parent. ev_step. eapply st_lookup_parent; [exact Hst|done|done|exact Hr|..].
  - intros rc d1 e1 Hrc Hor Hst1. destruct (Z.eqb_spec rc 0); [done|]. cbn [negb]. apply ev_ret. split; [|done].
    exists fs. split; [by left|done].
  - intros v p x d1 e1 Hp Hx Hst1. change (0 =? 0) with true. cbn [negb]. ev_step. eapply st_the_str; [exact Hst1|]. ev_step.
    eapply ev_mono; [by eapply Hf|]. intros rc d2 e2 fl2 [(fs' & HP & Hst2) ->]. ev_step. eapply st_free_string; [exact Hst2|].
    intros d3 e3 Hst3. ev_step. eapply st_vunref; [exact Hst3|]. intros d4 e4 Hst4. apply ev_ret. split; [|done]. exists fs'.
    split; [right; by exists p|]. eapply state_weaken; [|exact Hst4]. lia.
Qed.
(** ** Making nodes *)

Lemma elem_pairs (rt : Z * Z) T held v p : (v, p) ∈ held -> (v, p) ∈ pairs rt T held.
Proof. unfold pairs. rewrite elem_of_cons, elem_of_app. auto. Qed.

(** A step of tmpfs that only adds keeps the cache right. *)
Lemma ok_step strs d e t rt T held d' e' t' p a rc :
  vfs_ok d e t rt T held strs -> coherent junk (view t) rt.2 T -> step d e t d' e' t' -> is_Some (added_name a) ->
  dstep (view t) p a rc (view t') -> vfs_ok d' e' t' rt T held strs /\ coherent junk (view t') rt.2 T.
Proof.
  intros Hok Hco Hst Ha Hd. split; [by eapply vfs_ok_step; [| |eapply dstep_kinds]|].
  eapply coherent_extends; [by eapply dstep_extends| |done]. eapply view_closed, tf_shape. by eapply vo_tfs.
Qed.

Lemma st_refines v p (m : K Z) a strs d e fs root held k fl :
  state strs d e fs root held k -> (v, p) ∈ held -> is_Some (added_name a) ->
  (forall t n b, tfs d e t -> view t = fs -> vnode_of d v p -> t !! p = Some (ANode n b) ->
     ev [] m (fun rc d' e' fl' => refines d e t p a rc d' e' /\ fl' = fl) d e fl) ->
  ev [] m (fun rc d' e' fl' => (exists fs', dstep fs p a rc fs' /\ state strs d' e' fs' root held k) /\ fl' = fl) d e fl.
Proof.
  intros (t & rv & T & <- & Hok & Hco & Hr) Hin Ha Hm. pose proof (elem_pairs (rv, root) T _ _ _ Hin) as Hp.
  destruct (handle_of _ _ _ _ _ _ _ _ _ Hok Hp) as (_ & w & o & _ & _ & _ & Ho & _).
  destruct (t !! p) as [[n b]|] eqn:Htp; [|by rewrite (view_none _ _ Htp) in Ho].
  eapply ev_mono; [apply (Hm t n b); [by eapply vo_tfs|done|by eapply owned_vnode_of|done]|].
  intros rc d' e' fl' [(t' & Hst & Hd) ->]. split; [|done]. exists (view t'). split; [done|].
  destruct (ok_step _ _ _ _ _ _ _ _ _ _ _ _ _ Hok Hco Hst Ha Hd). by exists t', rv, T.
Qed.

(** The file that [tmpfs_create] made, with the caller's reference to it. *)
Definition created strs fs (root : Z) held k p (name : list Z) (r : Z * Z) d' e' : Prop :=
  exists fs', dstep fs p (AMake name (FFile [])) r.1 fs' /\
    (r.2 = NULL /\ r.1 <> 0 /\ state strs d' e' fs' root held k \/
     r.1 = 0 /\ r.2 <> NULL /\ exists q, state strs d' e' fs' root ((r.2, q) :: held) (k - 1)).

Lemma st_create v p name mode strs d e fs root held k fl :
  state strs d e fs root held k -> (v, p) ∈ held ->
  ev [] (tmpfs_create v (Some name) mode true) (fun r d' e' fl' => created strs fs root held k p name r d' e' /\ fl' = fl) d e fl.
Proof.
  intros (t & rv & T & <- & Hok & Hco & Hr) Hin. pose proof (elem_pairs (rv, root) T _ _ _ Hin) as Hp.
  destruct (handle_of _ _ _ _ _ _ _ _ _ Hok Hp) as (_ & w & o & _ & _ & _ & Ho & _).
  destruct (t !! p) as [[n b]|] eqn:Htp; [|by rewrite (view_none _ _ Htp) in Ho].
  eapply ev_mono; [eapply ev_create; [by eapply vo_tfs|by eapply owned_vnode_of|exact Htp]|].
  intros r d' e' fl' [(t' & Hst & Hd & Hcase) ->]. split; [|done]. exists (view t'). split; [done|].
  assert (Ha : is_Some (added_name (AMake name (FFile [])))) by (by eexists).
  destruct (ok_step _ _ _ _ _ _ _ _ _ _ _ _ _ Hok Hco Hst Ha Hd) as [Hok' Hco'].
  destruct Hcase as [(Hn & Hne)|(H0' & Hnv)]; [left|right].
  - split; [done|]. split; [by apply Hne|]. by exists t', rv, T.
  - destruct Hnv as (Hv0 & Hold & w' & q & a & Hw' & Hq & Hfor & Hrc). split; [done|]. split; [done|]. exists q, t', rv, T.
    split; [done|]. split; [|split; [done|unfold room in *; simpl; lia]].
    eapply (vfs_ok_adopt d); [exact Hok'| |done..]. intros u p' Hu. by eapply owned_heap.
Qed.

(** The calls that make a node at a path. *)
Inductive pop :=
  | PMkdir (mode : Z)
  | PCreate (mode : Z)
  | PMknod (mode dev : Z)
  | PSymlink (target : list Z).

Definition run_pop (n : nat) (op : pop) (path : list Z) : K Z :=
  match op with
  | PMkdir mode => vfs_mkdir junk n (Some path) mode
  | PCreate mode => vfs_create junk n (Some path) mode
  | PMknod mode dev => vfs_mknod junk n (Some path) mode dev
  | PSymlink target => vfs_symlink junk n (Some target) (Some path)
  end.

Definition pop_node (op : pop) : fnode :=
  match op with PMkdir _ => FDir ∅ | PCreate _ | PMknod _ _ => FFile [] | PSymlink target => FSym target end.

(** The error a call gives for its arguments, or 0. *)
Definition pop_check (op : pop) : Z := match op with PMknod mode dev => mknod_check mode dev | _ => 0 end.

(** What they are to do: nothing on a bad argument or a bad directory, and
    otherwise a step of the directory. *)
Definition makes fs (r : Z + Z) (op : pop) (path : list Z) (rc : Z) fs' : Prop :=
  if pop_check op =? 0 then in_dir fs r (fun p => dstep fs p (AMake (base_of path) (pop_node op))) rc fs'
  else rc = pop_check op /\ fs' = fs.

Section at_path.
Context (n : nat) (path : list Z) (r : Z + Z) (strs : list (Z * fsobj)) (d : fsd) (e : E) (fs : fsys) (root : Z).
Context (held : list (Z * Z)) (k fl : Z).
Context (Hst : state strs d e fs root held k) (Hk : cost n <= k) (Hnz : nonzero path) (Hr : parent_of n fs root path = Some r).

Definition made (op : pop) : Prop :=
  ev [] (run_pop n op path) (fun rc d' e' fl' =>
    (exists fs', makes fs r op path rc fs' /\ state strs d' e' fs' root held (k - cost n - 1)) /\ fl' = fl) d e fl.

Lemma mkdir_made mode : made (PMkdir mode).
Proof using Hjunk Hst Hk Hnz Hr.
  unfold made, makes. simpl. unfold vfs_mkdir. eapply (st_in_parent n path r); [exact Hst|done|done|done|].
  intros v p x d1 e1 Hp Hst1. ev_step. eapply (st_vop _ _ v p); [exact Hst1|by apply elem_of_cons; left|]. simpl. ev_step.
  eapply ev_mono; [eapply (st_refines v p _ (AMake (base_of path) (FDir ∅))); [exact Hst1|by apply elem_of_cons; left|done|]|].
  { intros t m b Ht _ Hv Htp. by apply (mkdir_refines d1 e1 t fl v p m b Ht Hv Htp (base_of path) (Z.lor mode VFS_IFDIR)). }
  intros rc d2 e2 fl2 [(fs' & Hd & Hst2) ->]. destruct (rc =? 0).
  - ev_step. eapply (st_mtime v p); [exact Hst2|by apply elem_of_cons; left|]. intros d3 e3 Hst3. ev_step.
    eapply st_bump; [exact Hst3|]. intros d4 Hst4. apply ev_ret. split; [|done]. exists fs'. split; [done|].
    eapply state_weaken; [|exact Hst4]. lia.
  - apply ev_ret. split; [|done]. exists fs'. split; [done|]. eapply state_weaken; [|exact Hst2]. lia.
Qed.

Lemma symlink_made target : made (PSymlink target).
Proof using Hjunk Hst Hk Hnz Hr.
  unfold made, makes. simpl. unfold vfs_symlink. eapply (st_in_parent n path r); [exact Hst|done|done|done|].
  intros v p x d1 e1 Hp Hst1. ev_step. eapply (st_vop _ _ v p); [exact Hst1|by apply elem_of_cons; left|]. simpl. ev_step.
  eapply ev_mono; [eapply (st_refines v p _ (AMake (base_of path) (FSym target))); [exact Hst1|by apply elem_of_cons; left|done|]|].
  { intros t m b Ht _ Hv Htp. by apply (symlink_refines d1 e1 t fl v p m b (base_of path) target Ht Hv Htp). }
  intros rc d2 e2 fl2 [(fs' & Hd & Hst2) ->]. destruct (rc =? 0).
  - ev_step. eapply (st_mtime v p); [exact Hst2|by apply elem_of_cons; left|]. intros d3 e3 Hst3. apply ev_ret.
    split; [|done]. exists fs'. split; [done|]. eapply state_weaken; [|exact Hst3]. lia.
  - apply ev_ret. split; [|done]. exists fs'. split; [done|]. eapply state_weaken; [|exact Hst2]. lia.
Qed.

Lemma create_made mode : made (PCreate mode).
Proof using Hjunk Hst Hk Hnz Hr.
  unfold made, makes. simpl. unfold vfs_create. eapply (st_in_parent n path r); [exact Hst|done|done|done|].
  intros v p x d1 e1 Hp Hst1. ev_step. eapply (st_vop _ _ v p); [exact Hst1|by apply elem_of_cons; left|]. simpl. ev_step.
  eapply ev_mono; [eapply (st_create v p); [exact Hst1|by apply elem_of_cons; left]|].
  intros [rc u] d2 e2 fl2 [(fs' & Hd & Hcase) ->]. simpl in *. destruct Hcase as [(-> & Hrc & Hst2)|(-> & Hu & q & Hst2)].
  - destruct (Z.eqb_spec rc 0); [done|]. cbn [andb]. apply ev_ret. split; [|done]. exists fs'. split; [done|].
    eapply state_weaken; [|exact Hst2]. lia.
  - destruct (Z.eqb_spec u NULL); [done|]. cbn [negb andb]. change (0 =? 0) with true. cbn [andb]. ev_step.
    eapply (st_mtime v p); [exact Hst2|by rewrite !elem_of_cons; auto|]. intros d3 e3 Hst3. ev_step.
    eapply st_vunref; [exact Hst3|]. intros d4 e4 Hst4. ev_step. eapply st_bump; [exact Hst4|]. intros d5 Hst5. apply ev_ret.
    split; [|done]. exists fs'. split; [done|]. eapply state_weaken; [|exact Hst5]. lia.
Qed.

Lemma mknod_made mode dev : made (PMknod mode dev).
Proof using Hjunk Hst Hk Hnz Hr.
  unfold made, makes. simpl. unfold vfs_mknod. destruct (Z.eqb_spec (mknod_check mode dev) 0) as [_|]; cbn [negb].
  2: { apply ev_ret. split; [|done]. exists fs. split; [done|]. eapply state_weaken; [|exact Hst]. pose proof (cost_pos n). lia. }
  eapply (st_in_parent n path r); [exact Hst|done|done|done|].
  intros v p x d1 e1 Hp Hst1. ev_step. eapply (st_vop _ _ v p); [exact Hst1|by apply elem_of_cons; left|]. simpl. ev_step.
  eapply ev_mono; [eapply (st_create v p); [exact Hst1|by apply elem_of_cons; left]|].
  intros [rc u] d2 e2 fl2 [(fs' & Hd & Hcase) ->]. simpl in *. destruct Hcase as [(-> & Hrc & Hst2)|(-> & Hu & q & Hst2)].
  - destruct (Z.eqb_spec rc 0); [done|]. cbn [andb]. apply ev_ret. split; [|done]. exists fs'. split; [done|].
    eapply state_weaken; [|exact Hst2]. lia.
  - destruct (Z.eqb_spec u NULL); [done|]. cbn [negb andb]. change (0 =? 0) with true. cbn [andb]. ev_step.
    assert (Hrest : forall d3 e3, state ((x, OStr (base_of path)) :: strs) d3 e3 fs' root ((u, q) :: (v, p) :: held) (k - cost n - 1 - 1) ->
      ev [] (vnode_unref u ;;; vfs_update_mtime v ;;; ret 0) (fun rc d4 e4 fl4 =>
        (exists fs'0, dstep fs p (AMake (base_of path) (FFile [])) rc fs'0 /\
          state ((x, OStr (base_of path)) :: strs) d4 e4 fs'0 root ((v, p) :: held) (k - cost n - 2)) /\ fl4 = fl) d3 e3 fl).
    { intros d3 e3 Hst3. ev_step. eapply st_vunref; [exact Hst3|]. intros d4 e4 Hst4. ev_step.
      eapply (st_mtime v p); [exact Hst4|by apply elem_of_cons; left|]. intros d5 e5 Hst5. apply ev_ret. split; [|done].
      exists fs'. split; [done|]. eapply state_weaken; [|exact Hst5]. lia. }
    destruct (_ || _); [|by apply ev_ret, Hrest]. destruct Hst2 as (t & rv & T & <- & Hok & Hco & Hroom).
    destruct (owned_heap _ _ _ _ _ _ _ u q Hok (pairs_own _ _ _ _)) as [w Hw]. apply ev_lock_irq; [set_solver|].
    eapply ev_vupd; [exact Hok|exact Hw|done|done|]. intros d3 Hok3. apply Hrest. by exists t, rv, T.
Qed.
End at_path.

Lemma st_made n op path r strs d e fs root held k fl :
  state strs d e fs root held k -> cost n <= k -> nonzero path -> parent_of n fs root path = Some r ->
  made n path r strs d e fs root held k fl op.
Proof using Hjunk.
  intros. destruct op; [by apply mkdir_made|by apply create_made|by apply mknod_made|by apply symlink_made].
Qed.
End thms.
