(* ===== verification/VfsTop.v ===== *)
(** * Main theorems of the virtual file system

    The theorems about paths, on any machine whose name layer is in order, and
    a booted machine on which they are instantiated; then what the code does
    where it departs from what it promises. *)

From stdpp Require Import base numbers list gmap.
From S2P Require Import Prelude Spinlock Kernel KLogic VfsPath VfsPathSpec SimpleHeap Fs Tmpfs TmpfsFacts TmpfsDir TmpfsOps TmpfsThms TmpfsFile TmpfsTop Vfs VfsFacts VfsWalk VfsNames VfsThms.

Section top.
Context {E : Type} `{TimeSource E}.
Context (junk : list Z) (Hjunk : length junk = Z.to_nat VFS_MAX_PATH).
Implicit Types (fs : fsys) (held : list (Z * Z)) (k : Z) (s : kst (guarded fsd) E).

Lemma lookup_run n path follow r s fs root held k :
  vfs_state junk s fs root held k -> cost n <= k -> nonzero path -> resolve_path junk n fs root path follow = Some r ->
  exists rc v s', vfs_lookup_internal junk n (Some path) follow s = Ok ((rc, v), s') /\ k_flags s' = k_flags s /\
    ((exists p, r = inl p /\ rc = 0 /\ vfs_state junk s' fs root ((v, p) :: held) (k - cost n - 1)) \/
     (rc <> 0 /\ v = NULL /\ (rc = - ENOMEM \/ r = inr rc) /\ vfs_state junk s' fs root held (k - cost n - 1))).
Proof using Hjunk.
  intros Hs Hk Hnz Hr. destruct (vfs_run junk (vfs_lookup_internal junk n (Some path) follow)
    (looked junk [] fs root held (k - cost n - 1) r) s fs root held k Hs) as ([rc v] & s' & Hrun & Hfl & Hi & Hcase).
  { eapply st_lookup; try done. apply Hs. }
  exists rc, v, s'. split; [done|]. split; [done|]. destruct Hcase as [(v' & p & [= -> ->] & -> & Hst)|(rc' & [= -> ->] & Hrc & Hor & Hst)].
  - left. by exists p.
  - right. by split_and!.
Qed.

(** C3: Path lookup refines the walk through the tree of directories: in a
    state whose cache is coherent (each cached name leads where the walk does,
    which creation keeps and [vfs_unlink] does not), for a path whose walk
    ends within [n] nested links, and with room in the reference counters, it
    ends without a fault, with the locks and the interrupt flag as they were,
    and gives a reference to the node the path leads to, or the error the walk
    gives, or [-ENOMEM]; the cache stays coherent.  (Outside this: stale names,
    [vfs_unlink_leaves_stale_name], and endless links,
    [vfs_lookup_link_loop].) *)
Theorem vfs_lookup_resolves n path follow r s fs root held k :
  vfs_state junk s fs root held k -> cost n <= k -> nonzero path -> resolve_path junk n fs root path follow = Some r ->
  exists rc v s', vfs_lookup_internal junk n (Some path) follow s = Ok ((rc, v), s') /\ k_flags s' = k_flags s /\
    ((exists p, r = inl p /\ rc = 0 /\ vnode_of (g_data (k_obj s')) v p /\ vfs_state junk s' fs root ((v, p) :: held) (k - cost n - 1)) \/
     (rc <> 0 /\ v = NULL /\ (rc = - ENOMEM \/ r = inr rc) /\ vfs_state junk s' fs root held (k - cost n - 1))).
Proof using Hjunk.
  intros Hs Hk Hnz Hr. destruct (lookup_run _ _ _ _ _ _ _ _ _ Hs Hk Hnz Hr) as (rc & v & s' & Hrun & Hfl & Hcase).
  exists rc, v, s'. split; [done|]. split; [done|]. destruct Hcase as [(p & -> & -> & Hs')|?]; [left|by right].
  destruct (st_handle _ _ _ _ _ _ _ _ v p (proj2 Hs')) as (w & o & Hw & Hv0 & Hp & _); [by apply elem_of_cons; left|].
  exists p. split; [done|]. split; [done|]. split; [|done]. split; [done|]. by exists w.
Qed.

(** C25: The file type in the mode of a vnode that lookup gives is the kind of
    the node the path leads to, and is not a symbolic link when lookup follows
    links. *)
Theorem vfs_lookup_typed n path follow p s fs root held k :
  vfs_state junk s fs root held k -> cost n <= k -> nonzero path -> resolve_path junk n fs root path follow = Some (inl p) ->
  exists rc v s', vfs_lookup_internal junk n (Some path) follow s = Ok ((rc, v), s') /\
    (rc = - ENOMEM \/ rc = 0 /\ exists w o, fs_heap (g_data (k_obj s')) !! v = Some (OVnode w) /\ fs !! p = Some o /\
       type_of w = ftype o /\ (follow = true -> type_of w <> VFS_IFLNK)).
Proof using Hjunk.
  intros Hs Hk Hnz Hr. destruct (lookup_run _ _ _ _ _ _ _ _ _ Hs Hk Hnz Hr) as (rc & v & s' & Hrun & _ & Hcase).
  exists rc, v, s'. split; [done|]. destruct Hcase as [(p' & [= <-] & -> & Hi & Hst)|(Hrc & -> & [->|?] & _)]; [right|by left|done].
  split; [done|]. destruct (st_handle _ _ _ _ _ _ _ _ v p Hst) as (w & o & Hw & _ & _ & Ho & Hty); [by apply elem_of_cons; left|].
  exists w, o. split_and!; try done. intros ->. rewrite Hty. destruct Hs as [_ (t & rv & T & <- & Hok & _)].
  destruct (resolve_path_good _ _ _ _ _ _ _ (view_closed _ _ (tf_shape _ _ _ (vo_tfs _ _ _ _ _ _ _ Hok))) (vo_rootdir _ _ _ _ _ _ _ Hok) Hr)
    as [_ Hsym]. destruct o as [| |str]; try done. by destruct (Hsym eq_refl str).
Qed.

Lemma make_run n op path r s fs root held k :
  vfs_state junk s fs root held k -> cost n <= k -> nonzero path -> parent_of junk n fs root path = Some r ->
  exists rc s' fs', run_pop junk n op path s = Ok (rc, s') /\ k_flags s' = k_flags s /\ makes fs r op path rc fs' /\
    vfs_state junk s' fs' root held (k - cost n - 1).
Proof using Hjunk.
  intros Hs Hk Hnz Hr. destruct (vfs_run junk (run_pop junk n op path) (fun rc d' e' =>
    exists fs', makes fs r op path rc fs' /\ state junk [] d' e' fs' root held (k - cost n - 1)) s fs root held k Hs)
    as (rc & s' & Hrun & Hfl & Hi & fs' & Hm & Hst); [eapply (st_made junk Hjunk); try done; apply Hs|].
  by exists rc, s', fs'.
Qed.

Lemma makes_extends fs r op path rc fs' : makes fs r op path rc fs' -> extends fs fs'.
Proof.
  unfold makes, in_dir. destruct (pop_check op =? 0); [|by intros [_ ->]]. intros [[-> _]|(p & _ & Hd)]; [done|].
  apply (dstep_extends _ _ _ _ _ Hd). by eexists.
Qed.

(** C9: Making a directory, a file, a device or a symbolic link at a path
    refines the specification: the call reports a bad argument, an error of
    the walk to the directory of the path, or takes the step of [dstep] that
    makes the new node under the last name.  Nothing that was there is lost,
    and the cache of names stays right. *)
Theorem vfs_make_refines n op path r s fs root held k :
  vfs_state junk s fs root held k -> cost n <= k -> nonzero path -> parent_of junk n fs root path = Some r ->
  exists rc s' fs', run_pop junk n op path s = Ok (rc, s') /\ k_flags s' = k_flags s /\ makes fs r op path rc fs' /\
    extends fs fs' /\    vfs_state junk s' fs' root held (k - cost n - 1).
Proof using Hjunk.
  intros Hs Hk Hnz Hr. destruct (make_run _ op _ _ _ _ _ _ _ Hs Hk Hnz Hr) as (rc & s' & fs' & Hrun & Hfl & Hm & Hs').
  exists rc, s', fs'. split; [done|]. split; [done|]. split; [done|]. split; [by eapply makes_extends|done].
Qed.

(** The node that a successful call made. *)
Lemma makes_node fs r op path fs' : makes fs r op path 0 fs' -> pop_check op = 0 -> r <> inr 0 ->
  exists p m q, r = inl p /\ fs' !! p = Some (FDir m) /\ m !! base_of path = Some q /\ fs' !! q = Some (pop_node op) /\ extends fs fs'.
Proof.
  unfold makes. intros Hm Hc Hr0. rewrite Hc in Hm. destruct Hm as [(_ & [?|?])|(p & -> & Hd)]; [done|done|].
  pose proof (dstep_extends _ _ _ _ _ Hd (mk_is_Some (added_name (AMake (base_of path) (pop_node op))) _ eq_refl)) as Hex.
  remember 0 as rc eqn:Hrc. remember (AMake _ _) as a eqn:Ha.
  destruct Hd; try done; try (by simplify_eq). injection Ha as <- <-. exists p. eexists _, p0. rewrite lookup_insert_eq.
  split; [done|]. split; [done|]. rewrite lookup_insert_eq. split; [done|]. split; [|done].
  rewrite lookup_insert_ne by congruence. by rewrite lookup_insert_eq.
Qed.

(** C21: Where the cache is coherent and the reference counters have room, a
    file, directory or device (not a symbolic link) that a make call with proper
    arguments has made, answering 0, at a path of proper names that lookup takes
    whole (at most 64 names, shorter than [VFS_MAX_PATH]) in a directory the walk
    reaches is what lookup of that path then gives, unless that lookup answers
    [-ENOMEM].  (After [vfs_unlink] the cache need not
    be coherent: [vfs_unlink_leaves_stale_name].) *)
Theorem vfs_make_then_lookup n op cs c p s fs root held k :
  vfs_state junk s fs root held k -> 2 * cost (S n) + 1 <= k -> plain (cs ++ [c]) -> (length cs < 64)%nat ->
  (forall target, op <> PSymlink target) -> pop_check op = 0 ->
  resolve_path junk (S n) fs root (render cs) true = Some (inl p) ->
  exists rc s1, run_pop junk (S n) op (render (cs ++ [c])) s = Ok (rc, s1) /\
    (rc = 0 -> exists rc2 v s2 fs' q, vfs_lookup junk (S n) (Some (render (cs ++ [c]))) s1 = Ok ((rc2, v), s2) /\
       vfs_state junk s1 fs' root held (k - cost (S n) - 1) /\ fs' !! q = Some (pop_node op) /\ extends fs fs' /\
       (rc2 = - ENOMEM \/ rc2 = 0 /\ vfs_state junk s2 fs' root ((v, q) :: held) (k - 2 * cost (S n) - 2))).
Proof using Hjunk.
  intros Hs Hk Hp Hlen Hop Hck Hr. pose proof (cost_pos (S n)) as Hpos. destruct (dir_base_render _ _ Hp) as [Hdir Hbase].
  pose proof (render_nonzero _ (plain_names _ (proj1 Hp))) as Hnz.
  assert (Hpar : parent_of junk (S n) fs root (render (cs ++ [c])) = Some (inl p)) by (unfold parent_of; by rewrite Hdir).
  destruct (make_run (S n) op _ _ s fs root held k Hs ltac:(lia) Hnz Hpar) as (rc & s1 & fs' & Hrun & _ & Hm & Hs1).
  exists rc, s1. split; [done|]. intros ->. destruct (makes_node _ _ _ _ _ Hm Hck) as (p' & m & q & [= <-] & Hpm & Hmq & Hq & Hex); [done|].
  rewrite Hbase in Hmq. assert (Hcl : closed fs).
  { destruct Hs as [_ (t & rv & T & <- & Hok & _)]. eapply view_closed, tf_shape. by eapply vo_tfs. }
  assert (Hres : resolve_path junk (S n) fs' root (render (cs ++ [c])) true = Some (inl q)).
  { eapply (resolve_snoc junk n fs' root cs p m c q); try done; [by eapply resolve_path_extends|].
    intros str. rewrite Hq. destruct op; try done. by destruct (Hop target). }
  destruct (lookup_run (S n) _ true _ s1 fs' root held _ Hs1 ltac:(lia) Hnz Hres) as (rc2 & v & s2 & Hrun2 & _ & Hcase).
  exists rc2, v, s2, fs', q. split; [done|]. split; [done|]. split; [done|]. split; [done|].
  destruct Hcase as [(q' & [= <-] & -> & Hs2)|(_ & _ & [->|?] & _)]; [right|by left|done].
  split; [done|]. replace (k - 2 * cost (S n) - 2) with (k - cost (S n) - 1 - cost (S n) - 1) by lia. done.
Qed.

(** C40: [vfs_readlink] never gives the text of a link: it looks its path up
    following links, so that every path that leads anywhere, and with it
    every symbolic link, is refused with [-EINVAL]. *)
Theorem vfs_readlink_refuses n path r size s fs root held k :
  vfs_state junk s fs root held k -> cost n <= k -> nonzero path -> resolve_path junk n fs root path true = Some r ->
  exists rc s', vfs_readlink junk n (Some path) PObj size s = Ok ((rc, []), s') /\
    (rc = - EINVAL \/ rc = - ENOMEM \/ r = inr rc).
Proof using Hjunk.
  intros Hs Hk Hnz Hr. destruct (vfs_run junk (vfs_readlink junk n (Some path) PObj size) (fun x _ _ =>
    x.2 = [] /\ (x.1 = - EINVAL \/ x.1 = - ENOMEM \/ r = inr x.1)) s fs root held k Hs) as ([rc b] & s' & Hrun & _ & _ & Hb & Hrc).
  2: { simpl in *. subst b. by exists rc, s'. }
  unfold vfs_readlink. destruct (size =? 0); [apply ev_ret; auto|]. ev_step. unfold vfs_lookup.
  eapply ev_mono; [eapply (st_lookup junk Hjunk); [apply Hs|done|done|exact Hr]|].
  intros rv d1 e1 fl1 [[(v & p & -> & -> & Hst)|(rc & -> & Hrc & Hor & _)] ->].
  2: { destruct (Z.eqb_spec rc 0); [done|]. cbn [negb]. apply ev_ret. split; [|done]. simpl. tauto. }
  destruct (st_handle _ _ _ _ _ _ _ _ v p Hst) as (w & o & Hw & _ & _ & Ho & Hty); [by apply elem_of_cons; left|].
  destruct Hs as [_ (t & rv & T & <- & Hok & _)].
  destruct (resolve_path_good _ _ _ _ _ _ _ (view_closed _ _ (tf_shape _ _ _ (vo_tfs _ _ _ _ _ _ _ Hok))) (vo_rootdir _ _ _ _ _ _ _ Hok) Hr)
    as [_ Hsym]. cbn [negb]. change (0 =? 0) with true. cbn [negb]. ev_step. eapply ev_the_vnode; [done|].
  assert (Hne : type_of w <> VFS_IFLNK) by (rewrite Hty; destruct o as [| |str]; try done; by destruct (Hsym eq_refl str)).
  destruct (Z.eqb_spec (type_of w) VFS_IFLNK); [done|]. cbn [negb]. ev_step. eapply (st_vunref junk Hjunk); [exact Hst|].
  intros d2 e2 _. apply ev_ret. split; [|done]. simpl. auto.
Qed.
End top.

(** ** A machine *)

Definition stack_junk : list Z := replicate (Z.to_nat VFS_MAX_PATH) 255.
Definition no_others : Z -> option (vfs_operations (E := simple_heap)) := fun _ => None.

(** After start-up: the root mount is at 32, the root directory at 64 and its
    vnode at 80. *)
Definition fs_started : machine := fs_after (vfs_start no_others stack_junk 3) fs_boot.
Definition started_tree : tree := {[64 := ANode (root_node 32) (BDir [])]}.
Definition started_fs : fsys := {[64 := FDir ∅]}.

Lemma stack_junk_length : length stack_junk = Z.to_nat VFS_MAX_PATH.
Proof. apply length_replicate. Qed.

Definition fs_registered : machine := fs_after (_ <- vfs_init ;; tmpfs_init no_others) fs_boot.

Lemma bare_shape x o : (forall n, o <> ONode n) -> shape {[x := o]} ∅.
Proof.
  intros Ho. split; intros; try (by rewrite lookup_empty in *). apply lookup_singleton_Some in H as [_ ->]. by destruct (Ho n).
Qed.

Lemma registered_tfs : tfs (g_data (k_obj fs_registered)) (k_env fs_registered) ∅.
Proof.
  assert (Hh : fs_heap (g_data (k_obj fs_registered)) = {[16 := OFsType (FsType tmpfs_vfs_ops 0)]}) by (vm_compute; reflexivity).
  assert (He : k_env fs_registered = [16]) by (vm_compute; reflexivity).
  assert (Hv : vnode_hash (g_data (k_obj fs_registered)) = replicate 256 NULL) by (vm_compute; reflexivity).
  split; rewrite ?Hh, ?He, ?Hv.
  - apply bare_shape. intros n. discriminate.
  - intros p n Hp. by apply lookup_singleton_Some in Hp as [_ ?].
  - intros x y Hx. by apply lookup_singleton_Some in Hx as [_ ?].
  - intros x o Hx. apply lookup_singleton_Some in Hx as [<- _]. split; [lia|]. apply elem_of_list_to_set. by apply elem_of_cons; left.
  - reflexivity.
Qed.

Definition started_vnode : vnode := Vnode 1 16877 0 0 0 1 0 0 0 0 4 1 32 tmpfs_vnode_ops 64 0.

Lemma started_heap : fs_heap (g_data (k_obj fs_started)) =
  mount_heap {[16 := OFsType (FsType tmpfs_vfs_ops 0)]} 32 48 64 80 96 0 started_vnode [SLASH].
Proof. vm_compute. reflexivity. Qed.

Lemma started_tfs : tfs (g_data (k_obj fs_started)) (k_env fs_started) started_tree.
Proof.
  eapply tf_static; [apply (tfs_mounted (g_data (k_obj fs_registered)) (k_env fs_registered) ∅ (k_env fs_started) 32 48 64 80 96 0 started_vnode [SLASH])|..].
  - exact registered_tfs.
  - apply (bool_decide_unpack _). vm_compute. exact I.
  - intros x Hx. split; [repeat (apply elem_of_cons in Hx as [->|Hx]; [lia|]); destruct (not_elem_of_nil _ Hx)|].
    assert (He : k_env fs_registered = [16]) by (vm_compute; reflexivity). rewrite He.
    repeat (apply elem_of_cons in Hx as [->|Hx]; [apply (bool_decide_unpack _); vm_compute; exact I|]). destruct (not_elem_of_nil _ Hx).
  - vm_compute. reflexivity.
  - exact started_heap.
  - vm_compute. reflexivity.
Qed.

Lemma started_state : vfs_state stack_junk fs_started started_fs 64 [] (2 ^ 31).
Proof.
  split; [apply idle_computed; vm_compute; reflexivity|]. exists started_tree, 80, (replicate 512 []).
  assert (Hcached : cached (replicate 512 []) = []) by reflexivity.
  assert (Hdh : dentry_hash (g_data (k_obj fs_started)) = replicate 512 NULL) by (vm_compute; reflexivity).
  assert (Hvh : vnode_hash (g_data (k_obj fs_started)) = <[1%nat := 80]> (replicate 256 NULL)) by (vm_compute; reflexivity).
  assert (Hrm : root_mount (g_data (k_obj fs_started)) = 32) by (vm_compute; reflexivity).
  split; [reflexivity|]. split; [|split].
  - split.
    + exact started_tfs.
    + intros slot a Ha. rewrite Hvh in Ha. apply list_lookup_insert_Some in Ha as [(<- & <- & _)|[_ Ha]].
      * exists [80]. split; [|apply NoDup_singleton]. split; [reflexivity|]. split; [unfold NULL; lia|]. exists started_vnode.
        rewrite started_heap. split; [reflexivity|]. split; reflexivity.
      * apply lookup_replicate in Ha as [-> _]. exists []. split; [reflexivity|constructor].
    + rewrite Hdh. split; reflexivity.
    + intros i l a Hl Ha. rewrite Hdh in Ha. apply lookup_replicate in Hl as [-> _]. apply lookup_replicate in Ha as [-> _]. reflexivity.
    + unfold strings. rewrite Hcached. constructor.
    + unfold strings. rewrite Hcached. constructor.
    + rewrite Hrm, started_heap. split; [unfold NULL; lia|]. eexists. split; reflexivity.
    + exists ∅. reflexivity.
    + unfold owners, pairs. rewrite Hcached. intros vp ->%list_elem_of_singleton. exists started_vnode, (FDir ∅).
      rewrite started_heap. split_and!; reflexivity.
  - intros c. rewrite Hcached. intros Hc. destruct (not_elem_of_nil _ Hc).
  - unfold room. rewrite Hcached. simpl. lia.
Qed.

(** With a directory at ["/a"]: its node is at 128. *)
Definition name_a : list Z := [97].
Definition path_a : list Z := render [name_a].
Definition path_b : list Z := render [[98]].
Definition fs_dir : machine := fs_after (run_pop stack_junk 3 (PMkdir 0x1ED) path_a) fs_started.
Definition dir_fs : fsys := <[64 := FDir {[name_a := 128]}]> {[128 := FDir ∅]}.

Lemma dir_run : run_pop stack_junk 3 (PMkdir 0x1ED) path_a fs_started = Ok (0, fs_dir).
Proof. vm_compute. reflexivity. Qed.

Lemma path_a_nonzero : nonzero path_a.
Proof. apply (bool_decide_unpack _). vm_compute. exact I. Qed.

Lemma dir_made fs' : makes started_fs (inl 64) (PMkdir 0x1ED) path_a 0 fs' -> is_Some (fs' !! 128) -> fs' = dir_fs.
Proof.
  intros Hm Hin. destruct Hm as [(-> & [?|?])|(p & [= <-] & Hd)]; [done|done|].
  inversion Hd as [| | |name o m q Hm Hnone Hq Heq1 Heq2 Heq3| | | | | | | |]; subst.
  unfold started_fs in Hm, Hq, Hin. rewrite lookup_singleton_eq in Hm. injection Hm as <-. assert (q = 128) as ->.
  { destruct Hin as [x Hx]. apply lookup_insert_Some in Hx as [[? _]|[_ Hx]]; [done|].
    apply lookup_insert_Some in Hx as [[? _]|[_ Hx]]; [done|]. apply lookup_singleton_Some in Hx as [? _]. done. }
  reflexivity.
Qed.

Lemma dir_state : vfs_state stack_junk fs_dir dir_fs 64 [] (2 ^ 31 - 2461).
Proof.
  destruct (make_run stack_junk stack_junk_length 3 (PMkdir 0x1ED) path_a (inl 64) _ _ _ _ _ started_state ltac:(simpl; lia) path_a_nonzero
    ltac:(vm_compute; reflexivity)) as (rc & s' & fs' & Hrun & _ & Hm & Hs).
  destruct (ok_inj _ _ _ _ (eq_trans (eq_sym Hrun) dir_run)) as [-> ->]. clear Hrun.
  rewrite (dir_made fs' Hm) in Hs; [exact Hs|]. destruct Hs as [_ (t & rv & T & <- & Hok & _)].
  assert (Hn : exists n, fs_heap (g_data (k_obj fs_dir)) !! 128 = Some (ONode n)) by (eexists; vm_compute; reflexivity).
  destruct Hn as [n Hn]. destruct (sh_all _ _ (tf_shape _ _ _ (vo_tfs _ _ _ _ _ _ _ Hok)) _ _ Hn) as [a Ha].
  rewrite (view_lookup _ _ _ Ha). by eexists.
Qed.

Lemma vfs_lookup_resolves_witness :
  exists rc v s', vfs_lookup_internal stack_junk 3 (Some path_a) true fs_dir = Ok ((rc, v), s') /\ k_flags s' = k_flags fs_dir /\
    ((exists p, (inl 128 : Z + Z) = inl p /\ rc = 0 /\ vnode_of (g_data (k_obj s')) v p /\
       vfs_state stack_junk s' dir_fs 64 [(v, p)] (2 ^ 31 - 2461 - cost 3 - 1)) \/
     (rc <> 0 /\ v = NULL /\ (rc = - ENOMEM \/ (inl 128 : Z + Z) = inr rc) /\ vfs_state stack_junk s' dir_fs 64 [] (2 ^ 31 - 2461 - cost 3 - 1))).
Proof.
  apply (vfs_lookup_resolves stack_junk stack_junk_length 3 path_a true (inl 128) fs_dir dir_fs 64 [] _ dir_state);
    [simpl; lia|exact path_a_nonzero|vm_compute; reflexivity].
Defined.

Lemma vfs_lookup_typed_witness :
  exists rc v s', vfs_lookup_internal stack_junk 3 (Some path_a) true fs_dir = Ok ((rc, v), s') /\
    (rc = - ENOMEM \/ rc = 0 /\ exists w o, fs_heap (g_data (k_obj s')) !! v = Some (OVnode w) /\ dir_fs !! 128 = Some o /\
       type_of w = ftype o /\ (true = true -> type_of w <> VFS_IFLNK)).
Proof.
  apply (vfs_lookup_typed stack_junk stack_junk_length 3 path_a true 128 fs_dir dir_fs 64 [] _ dir_state);
    [simpl; lia|exact path_a_nonzero|vm_compute; reflexivity].
Defined.

Lemma vfs_make_refines_witness :
  exists rc s' fs', run_pop stack_junk 3 (PMkdir 0x1ED) path_a fs_started = Ok (rc, s') /\ k_flags s' = k_flags fs_started /\
    makes started_fs (inl 64) (PMkdir 0x1ED) path_a rc fs' /\ extends started_fs fs' /\ vfs_state stack_junk s' fs' 64 [] (2 ^ 31 - cost 3 - 1).
Proof.
  apply (vfs_make_refines stack_junk stack_junk_length 3 (PMkdir 0x1ED) path_a (inl 64) fs_started started_fs 64 [] _ started_state);
    [simpl; lia|exact path_a_nonzero|vm_compute; reflexivity].
Defined.

Lemma plain_a_f : plain ([name_a] ++ [name_f]).
Proof. split; [apply (bool_decide_unpack _); vm_compute; exact I|]. vm_compute. reflexivity. Qed.

Lemma vfs_make_then_lookup_witness :
  exists rc s1, run_pop stack_junk 3 (PCreate 0) (render ([name_a] ++ [name_f])) fs_dir = Ok (rc, s1) /\
    (rc = 0 -> exists rc2 v s2 fs' q, vfs_lookup stack_junk 3 (Some (render ([name_a] ++ [name_f]))) s1 = Ok ((rc2, v), s2) /\
       vfs_state stack_junk s1 fs' 64 [] (2 ^ 31 - 2461 - cost 3 - 1) /\ fs' !! q = Some (FFile []) /\ extends dir_fs fs' /\
       (rc2 = - ENOMEM \/ rc2 = 0 /\ vfs_state stack_junk s2 fs' 64 [(v, q)] (2 ^ 31 - 2461 - 2 * cost 3 - 2))).
Proof.
  apply (vfs_make_then_lookup stack_junk stack_junk_length 2 (PCreate 0) [name_a] name_f 128 fs_dir dir_fs 64 [] _ dir_state);
    [simpl; lia|exact plain_a_f|simpl; lia|discriminate|reflexivity|vm_compute; reflexivity].
Defined.

Lemma vfs_readlink_refuses_witness :
  exists rc s', vfs_readlink stack_junk 3 (Some path_a) PObj 16 fs_dir = Ok ((rc, []), s') /\
    (rc = - EINVAL \/ rc = - ENOMEM \/ (inl 128 : Z + Z) = inr rc).
Proof.
  apply (vfs_readlink_refuses stack_junk stack_junk_length 3 path_a (inl 128) 16 fs_dir dir_fs 64 [] _ dir_state);
    [simpl; lia|exact path_a_nonzero|vm_compute; reflexivity].
Defined.

(** ** What goes wrong *)

Definition result_of {X : Type} (m : M machine X) (s : machine) : res X :=
  match m s with Ok (x, _) => Ok x | Fault f => Fault f end.

Definition look (path : list Z) : M machine (Z * Z) := vfs_lookup stack_junk 3 (Some path).
(** The node that a vnode stands for. *)
Definition node_behind (v : Z) : M machine Z := w <- the_vnode v ;; ret (v_private w).

(** Unlinking a file leaves its name in the cache: lookup still finds the file
    that was removed, and goes on finding it after a new file of that name
    was made. *)
Theorem vfs_unlink_leaves_stale_name :
  result_of (
    c1 <- vfs_create stack_junk 3 (Some path_a) 0 ;;
    r1 <- look path_a ;;
    u <- vfs_unlink stack_junk 3 (Some path_a) ;;
    r2 <- look path_a ;;
    c2 <- vfs_create stack_junk 3 (Some path_a) 0 ;;
    r3 <- look path_a ;;
    cached <- node_behind r3.2 ;;
    fresh <- tmpfs_lookup 80 (Some name_a) ;;
    node <- node_behind fresh.2 ;;
    ret ([c1; r1.1; u; r2.1; c2; r3.1], (r2.2 =? r1.2) && (r3.2 =? r1.2), cached =? node)) fs_started =
  Ok ([0; 0; 0; 0; 0; 0], true, false).
Proof. vm_compute. reflexivity. Qed.

(** Renaming a file to its own name succeeds and removes the file. *)
Theorem vfs_rename_to_itself_removes :
  result_of (
    _ <- vfs_create stack_junk 3 (Some path_a) 0 ;;
    r <- vfs_rename stack_junk 3 (Some path_a) (Some path_a) ;;
    l <- look path_a ;; ret (r, l.1)) fs_started = Ok (0, - ENOENT).
Proof. vm_compute. reflexivity. Qed.

(** Renaming a directory over an empty one fails, and the empty one is gone. *)
Theorem vfs_rename_directory_destroys :
  result_of (
    _ <- vfs_mkdir stack_junk 3 (Some path_a) 0 ;;
    _ <- vfs_mkdir stack_junk 3 (Some path_b) 0 ;;
    r <- vfs_rename stack_junk 3 (Some path_a) (Some path_b) ;;
    b <- tmpfs_lookup 80 (Some [98]) ;;
    a <- tmpfs_lookup 80 (Some name_a) ;; ret (r, a.1, b.1)) fs_started = Ok (- EPERM, 0, - ENOENT).
Proof. vm_compute. reflexivity. Qed.

(** A link to itself: the depth is counted anew in every nested lookup, so
    that any number of nested ones is used up and [-ELOOP] is not returned. *)
Theorem vfs_lookup_link_loop :
  Forall (fun n => result_of (
    _ <- vfs_symlink stack_junk n (Some path_a) (Some path_a) ;;
    vfs_lookup stack_junk n (Some path_a)) fs_started = Fault F_fuel) [9%nat; 64%nat].
Proof. repeat constructor; vm_compute; reflexivity. Qed.

(** A changed mode lives in the cached vnode only. *)
Theorem vfs_chmod_lost :
  let mode := r <- vfs_stat_path stack_junk 3 (Some path_a) ;; ret (option_map st_mode r.2) in
  result_of (
    _ <- vfs_create stack_junk 3 (Some path_a) 0 ;;
    c <- vfs_chmod stack_junk 3 (Some path_a) 0x1FF ;;
    vfs_dentry_purge ;;;
    m <- mode ;; ret (c, option_map (fun m => Z.land m 0x1FF) m)) fs_started = Ok (0, Some 0).
Proof. vm_compute. reflexivity. Qed.

(** Only the first 64 names of a path count: a missing 65th name is not
    noticed. *)
Theorem vfs_lookup_drops_names n fs root cs c follow :
  plain (cs ++ [c]) -> length cs = 64%nat ->
  resolve_path stack_junk (S n) fs root (render (cs ++ [c])) follow = resolve_path stack_junk (S n) fs root (render cs) follow.
Proof.
  intros Hp Hl. destruct (plain_app _ _ Hp) as [Hcs _]. rewrite !resolve_plain by (done || exact stack_junk_length).
  by rewrite take_app_le by lia.
Qed.
