(* ===== verification/Syscall.v ===== *)
(** * System calls on files ([amd64/cpu/syscall.c], [amd64/include/syscall_utils.h])

    Access to user memory, the table of file descriptors of a process, and the
    system calls on descriptors and paths.  A descriptor names an open file of
    [vfs.c] by its address.  The state is that of the open-file layer with the
    processes as the component's object.

    Three more services are interfaces: [UserMemory] answers for the address
    space that is loaded, [Console] for the keyboard and the terminal, and
    [PathCalls] for the functions of [vfs.c] that take a path. *)

From stdpp Require Import base numbers list gmap strings.
From S2P Require Import Prelude Spinlock Kernel VfsFile.

(** ** Constants *)

Definition ESRCH : Z := 3.
Definition EINTR : Z := 4.
Definition EISDIR : Z := 21.
Definition EMFILE : Z := 24.
Definition ENOTSUP : Z := 91.

Definition USER_SPACE_START : Z := 0x400000.
Definition USER_SPACE_END : Z := 0x7FFFFFFFFFFF.
Definition PAGE_SIZE : Z := 4096.
Definition MAX_OPEN_FILES : Z := 32.
Definition VFS_MAX_PATH : Z := 4096.

Definition O_WRONLY : Z := 0x1.
Definition O_RDWR : Z := 0x2.
Definition O_APPEND : Z := 0x8.
Definition O_CREAT : Z := 0x200.
Definition O_TRUNC : Z := 0x400.
Definition O_EXCL : Z := 0x800.
Definition O_CLOEXEC : Z := 0x10000.
Definition FD_CLOEXEC : Z := 1.
Definition AT_FDCWD : Z := -100.
Definition F_DUPFD : Z := 0.
Definition F_GETFD : Z := 1.
Definition F_SETFD : Z := 2.
Definition F_GETFL : Z := 3.
Definition F_SETFL : Z := 4.
Definition F_DUPFD_CLOEXEC : Z := 10.
Definition VFS_IFMT : Z := 0xF000.
Definition VFS_IFDIR : Z := 0x4000.
Definition SLASH : Z := 47.

(** ** Processes *)

Record fd_entry := Fd { fd_file : Z; fd_flags : Z }.

(** The fields of [struct process] that these calls use. *)
Record sys_process := SysProcess {
  ps_lock : spinlock;
  ps_pid : Z;
  ps_pptr : Z;
  ps_vmspace : Z;
  ps_fd_table : list fd_entry
}.

(** [curproc] is [proc_get_current()->p_p], null when there is no thread or
    no process of it. *)
Record sysproc := SysProc { curproc : Z; procs : gmap Z sys_process }.

Definition sys_process0 : sys_process := SysProcess spinlock_init 0 0 0 [].
Definition ps_set_lock (l : spinlock) (ps : sys_process) : sys_process :=
  SysProcess l (ps_pid ps) (ps_pptr ps) (ps_vmspace ps) (ps_fd_table ps).
Definition ps_set_table (t : list fd_entry) (ps : sys_process) : sys_process :=
  SysProcess (ps_lock ps) (ps_pid ps) (ps_pptr ps) (ps_vmspace ps) t.
Definition process_at (p : Z) (a : sysproc) : sys_process := default sys_process0 (procs a !! p).
Definition put_process (p : Z) (ps : sys_process) (a : sysproc) : sysproc :=
  SysProc (curproc a) (<[p := ps]> (procs a)).

(** ** Services *)

(** [um_phys a] is [mmu_get_physical_address] of the loaded space, 0 when the
    page is not mapped.  [um_load] and [um_store] access a byte at a user
    address; [None] is a page fault.  A mapped page can be read. *)
Class UserMemory (E : Type) := {
  um_phys : Z -> E -> Z;
  um_load : Z -> E -> option Z;
  um_store : Z -> Z -> E -> option E;
  um_page a b e : um_phys a e <> 0 -> a / PAGE_SIZE = b / PAGE_SIZE -> is_Some (um_load b e)
}.

(** [con_key] is the next key, waiting for it; [None] when none ever comes. *)
Class Console (E : Type) := {
  con_key : E -> option (Z * E);
  con_put : Z -> E -> E
}.

Record dirent := Dirent { d_ino : Z; d_off : Z; d_type : Z; d_name : list Z }.

Inductive path_call :=
  | CMkdir (path : string) (mode : Z)
  | CRmdir (path : string)
  | CUnlink (path : string)
  | CLink (oldpath newpath : string)
  | CSymlink (target linkpath : string)
  | CRename (oldpath newpath : string)
  | CTruncate (path : string) (length : Z)
  | CMknod (path : string) (mode dev : Z)
  | CAccess (path : string) (mode : Z)
  | CChmod (path : string) (mode : Z)
  | CChown (path : string) (owner group : Z).

(** The calls of [vfs.c] on paths; [pc_readlink] gives what it stored in the
    caller's buffer, [pc_readdir v off] is the [readdir] of a vnode's table with
    the entry and the next offset. *)
Class PathCalls (E : Type) := {
  pc_call : path_call -> E -> res (Z * E);
  pc_readlink : string -> Z -> E -> res ((Z * list Z) * E);
  pc_readdir : Z -> option (Z -> E -> res ((Z * dirent * Z) * E))
}.

Definition string_of (bytes : list Z) : string :=
  foldr (fun c s => String (Ascii.ascii_of_N (Z.to_N c)) s) EmptyString bytes.

Section syscalls.
Context {E : Type} `{KernelHeap E} `{VnodeLayer E} `{UserMemory E} `{Console E} `{PathCalls E}.
Abbreviation K := (M (kst sysproc E)).

(** [ps->ps_lock]. *)
Program Definition proc_lock (p : Z) : lockref (kst sysproc E) :=
  obj_lock (fun a => ps_lock (process_at p a)) (fun l a => put_process p (ps_set_lock l (process_at p a)) a) _ _.
Next Obligation. intros. unfold process_at, put_process. simpl. by rewrite lookup_insert_eq. Qed.
Next Obligation.
  intros. unfold process_at, put_process. simpl. by rewrite lookup_insert_eq, insert_insert_eq.
Qed.

Definition the_sys_process (p : Z) : K sys_process :=
  m <- obj procs ;; match m !! p with Some ps => ret ps | None => throw F_null end.
Definition upd_sys_process (p : Z) (g : sys_process -> sys_process) : K unit :=
  ps <- the_sys_process p ;; upd (put_process p (g ps)).

Definition get_fd (p fd : Z) : K fd_entry := ps <- the_sys_process p ;; lift (aread (ps_fd_table ps) fd).
Definition put_fd (p fd : Z) (x : fd_entry) : K unit :=
  ps <- the_sys_process p ;; t <- lift (awrite (ps_fd_table ps) fd x) ;; upd_sys_process p (ps_set_table t).

(** ** User memory *)

Definition is_user_address (addr : Z) : bool := (USER_SPACE_START <=? addr) && (addr <? USER_SPACE_END).

Definition is_user_range (addr len : Z) : bool :=
  if len =? 0 then true
  else
    let end_ := u64 (addr + len) in
    if (end_ <? addr) || (USER_SPACE_END <? end_) then false else is_user_address addr.

(** [p && p->p_p && p->p_p->ps_vmspace]. *)
Definition has_space : K bool :=
  p <- obj curproc ;;
  if p =? NULL then ret false else ps <- the_sys_process p ;; ret (negb (ps_vmspace ps =? NULL)).

Definition is_user_mapped (addr : Z) : K bool :=
  ok <- has_space ;;
  if negb ok then ret false
  else if negb (is_user_address addr) then ret false
  else e <- gets k_env ;; ret (negb (um_phys addr e =? 0)).

Definition user_byte (addr : Z) : K Z :=
  e <- gets k_env ;; match um_load addr e with Some c => ret c | None => throw F_oob end.
Definition put_user_byte (addr c : Z) : K unit :=
  e <- gets k_env ;; match um_store addr c e with Some e' => modify (set_env e') | None => throw F_oob end.

(** [memcpy] from and to user memory. *)
Fixpoint user_bytes (n : nat) (addr : Z) : K (list Z) :=
  match n with
  | O => ret []
  | S n => c <- user_byte addr ;; rest <- user_bytes n (addr + 1) ;; ret (c :: rest)
  end.
Fixpoint put_user_bytes (addr : Z) (bytes : list Z) : K unit :=
  match bytes with
  | [] => ret tt
  | c :: bytes => put_user_byte addr c ;;; put_user_bytes (addr + 1) bytes
  end.

(** [for (i = 0; i < len; i += PAGE_SIZE)] over [n] pages. *)
Fixpoint all_mapped (n : nat) (addr : Z) : K bool :=
  match n with
  | O => ret true
  | S n => ok <- is_user_mapped addr ;; if ok then all_mapped n (addr + PAGE_SIZE) else ret false
  end.

(** The checks that [copyin] and [copyout] share: 0, or an error. *)
Definition check_user (uaddr len : Z) : K Z :=
  if negb (is_user_range uaddr len) then ret (- EFAULT)
  else
    ok <- has_space ;;
    if negb ok then ret (- EFAULT)
    else
      ok <- all_mapped (Z.to_nat ((len + PAGE_SIZE - 1) / PAGE_SIZE)) uaddr ;;
      if negb ok then ret (- EFAULT)
      else if negb (len mod PAGE_SIZE =? 0) then
        ok <- is_user_mapped (uaddr + len - 1) ;; ret (if ok then 0 else - EFAULT)
      else ret 0.

Definition copyin (uaddr len : Z) : K (Z * list Z) :=
  if len =? 0 then ret (0, [])
  else
    rc <- check_user uaddr len ;;
    if negb (rc =? 0) then ret (rc, [])
    else bytes <- user_bytes (Z.to_nat len) uaddr ;; ret (0, bytes).

Definition copyout (bytes : list Z) (uaddr : Z) : K Z :=
  let len := Z.of_nat (length bytes) in
  if len =? 0 then ret 0
  else
    rc <- check_user uaddr len ;;
    if negb (rc =? 0) then ret rc else put_user_bytes uaddr bytes ;;; ret 0.

(** The string copied, without its terminator. *)
Fixpoint copy_string (n : nat) (src copied : Z) (dst : list Z) : K (Z * list Z) :=
  match n with
  | O => ret (- ENAMETOOLONG, dst)
  | S n =>
      ok <- (if copied mod PAGE_SIZE =? 0 then is_user_mapped (src + copied) else ret true) ;;
      if negb ok then ret (- EFAULT, dst)
      else
        c <- user_byte (src + copied) ;;
        if c =? 0 then ret (0, dst) else copy_string n src (copied + 1) (dst ++ [c])
  end.

Definition copyinstr (uaddr maxlen : Z) : K (Z * list Z) :=
  if maxlen =? 0 then ret (- ENAMETOOLONG, [])
  else if negb (is_user_address uaddr) then ret (- EFAULT, [])
  else
    ok <- has_space ;;
    if negb ok then ret (- EFAULT, []) else copy_string (Z.to_nat maxlen) uaddr 0 [].

Fixpoint string_length (n : nat) (str len : Z) : K Z :=
  match n with
  | O => ret (- ENAMETOOLONG)
  | S n =>
      ok <- (if len mod PAGE_SIZE =? 0 then is_user_mapped (str + len) else ret true) ;;
      if negb ok then ret (- EFAULT)
      else
        c <- user_byte (str + len) ;;
        if c =? 0 then ret len else string_length n str (len + 1)
  end.

Definition validate_user_string (str maxlen : Z) : K Z :=
  if negb (is_user_address str) then ret (- EFAULT)
  else
    ok <- has_space ;;
    if negb ok then ret (- EFAULT) else string_length (Z.to_nat maxlen) str 0.

(** ** File descriptors *)

Definition bad_fd (ps fd : Z) : bool := (ps =? NULL) || (fd <? 0) || (MAX_OPEN_FILES <=? fd).

Fixpoint find_slot (n : nat) (ps i file flags : Z) : K Z :=
  match n with
  | O => ret (-1)
  | S n =>
      x <- get_fd ps i ;;
      if fd_file x =? NULL then put_fd ps i (Fd file flags) ;;; ret i
      else find_slot n ps (i + 1) file flags
  end.

Definition fd_alloc (ps minfd file flags : Z) : K Z :=
  if bad_fd ps minfd then ret (- EINVAL)
  else
    lock_flags <- spinlock_acquire_irqsave (proc_lock ps) ;;
    fd <- find_slot (Z.to_nat (MAX_OPEN_FILES - minfd)) ps minfd file flags ;;
    spinlock_release_irqrestore (proc_lock ps) lock_flags ;;;
    ret (if 0 <=? fd then fd else - EMFILE).

Definition fd_getfile (ps fd : Z) : K Z :=
  if bad_fd ps fd then ret NULL
  else
    lock_flags <- spinlock_acquire_irqsave (proc_lock ps) ;;
    x <- get_fd ps fd ;;
    spinlock_release_irqrestore (proc_lock ps) lock_flags ;;;
    ret (fd_file x).

Definition fd_close (ps fd : Z) : K Z :=
  if bad_fd ps fd then ret (- EBADF)
  else
    lock_flags <- spinlock_acquire_irqsave (proc_lock ps) ;;
    x <- get_fd ps fd ;;
    if fd_file x =? NULL then
      spinlock_release_irqrestore (proc_lock ps) lock_flags ;;; ret (- EBADF)
    else
      put_fd ps fd (Fd NULL 0) ;;;
      spinlock_release_irqrestore (proc_lock ps) lock_flags ;;;
      vfs_close (fd_file x).

Definition fd_getflags (ps fd : Z) : K Z :=
  if bad_fd ps fd then ret (- EBADF)
  else
    lock_flags <- spinlock_acquire_irqsave (proc_lock ps) ;;
    x <- get_fd ps fd ;;
    spinlock_release_irqrestore (proc_lock ps) lock_flags ;;;
    ret (if fd_file x =? NULL then - EBADF else fd_flags x).

Definition fd_setflags (ps fd flags : Z) : K Z :=
  if bad_fd ps fd then ret (- EBADF)
  else
    lock_flags <- spinlock_acquire_irqsave (proc_lock ps) ;;
    x <- get_fd ps fd ;;
    if fd_file x =? NULL then
      spinlock_release_irqrestore (proc_lock ps) lock_flags ;;; ret (- EBADF)
    else
      put_fd ps fd (Fd (fd_file x) flags) ;;;
      spinlock_release_irqrestore (proc_lock ps) lock_flags ;;;
      ret 0.

Definition vfs_errno (vfs_ret : Z) : Z := if vfs_ret <? 0 then - vfs_ret else vfs_ret.

(** A call that needs the current process. *)
Definition with_proc (f : Z -> K Z) : K Z :=
  p <- obj curproc ;; if p =? NULL then ret (- ESRCH) else f p.
(** ... and an open descriptor of it. *)
Definition with_file (ps fd : Z) (f : Z -> K Z) : K Z :=
  file <- fd_getfile ps fd ;; if file =? NULL then ret (- EBADF) else f file.

Definition sys_getpid : K Z := with_proc (fun p => ps <- the_sys_process p ;; ret (ps_pid ps)).

Definition sys_getppid : K Z :=
  with_proc (fun p =>
    lock_flags <- spinlock_acquire_irqsave (proc_lock p) ;;
    ps <- the_sys_process p ;;
    ppid <- (if ps_pptr ps =? NULL then ret 0 else pp <- the_sys_process (ps_pptr ps) ;; ret (ps_pid pp)) ;;
    spinlock_release_irqrestore (proc_lock p) lock_flags ;;;
    ret ppid).

(** ** Reading and writing *)

Definition putchar (c : Z) : K unit := modify (fun s => set_env (con_put c (k_env s)) s).
Definition getchar : K Z :=
  e <- gets k_env ;;
  match con_key e with Some (c, e') => modify (set_env e') ;;; ret c | None => throw F_spin end.

(** The loop of [sys_read] on the keyboard: each round takes a key. *)
Fixpoint read_line (fuel : nat) (buffer count bytes_read : Z) : K Z :=
  match fuel with
  | O => throw F_fuel
  | S fuel =>
      if negb (bytes_read <? count) then ret bytes_read
      else
        c <- getchar ;;
        if (c =? 10) || (c =? 13) then
          put_user_byte (buffer + bytes_read) 10 ;;; putchar 10 ;;; ret (bytes_read + 1)
        else if (c =? 8) || (c =? 0x7F) then
          if 0 <? bytes_read then
            putchar 8 ;;; putchar 32 ;;; putchar 8 ;;; read_line fuel buffer count (bytes_read - 1)
          else read_line fuel buffer count bytes_read
        else if c =? 3 then putchar 94 ;;; putchar 67 ;;; putchar 10 ;;; ret (- EINTR)
        else if c =? 4 then ret bytes_read
        else
          put_user_byte (buffer + bytes_read) c ;;; putchar c ;;; read_line fuel buffer count (bytes_read + 1)
  end.

Definition sys_read (fuel : nat) (fd buf count : Z) : K Z :=
  if count =? 0 then ret 0
  else if negb (is_user_range buf count) then ret (- EFAULT)
  else with_proc (fun ps =>
    if fd =? 0 then read_line fuel buf count 0
    else with_file ps fd (fun file =>
      f <- the_file file ;;
      if Z.land (f_flags f) VFS_O_WRONLY =? VFS_O_WRONLY then ret (- EBADF)
      else
        r <- vfs_read file count ;;
        let '(result, bytes) := r in
        put_user_bytes buf bytes ;;;
        ret (if result <? 0 then - vfs_errno (s32 result) else result))).

Fixpoint put_chars (bytes : list Z) : K unit :=
  match bytes with [] => ret tt | c :: bytes => putchar c ;;; put_chars bytes end.

Definition sys_write (fd buf count : Z) : K Z :=
  if count =? 0 then ret 0
  else if negb (is_user_range buf count) then ret (- EFAULT)
  else with_proc (fun ps =>
    if (fd =? 1) || (fd =? 2) then
      bytes <- user_bytes (Z.to_nat count) buf ;; put_chars bytes ;;; ret count
    else with_file ps fd (fun file =>
      f <- the_file file ;;
      if Z.land (f_flags f) VFS_O_RDONLY =? VFS_O_RDONLY then ret (- EBADF)
      else
        bytes <- user_bytes (Z.to_nat count) buf ;;
        result <- vfs_write file bytes ;;
        ret (if result <? 0 then - vfs_errno (s32 result) else result))).

(** ** Opening and descriptors *)

(** The path argument of a call: an error, or the string.  [empty] is the
    error for the empty string. *)
Definition path_arg (empty path : Z) : K (Z + list Z) :=
  path_len <- validate_user_string path VFS_MAX_PATH ;;
  if path_len <? 0 then ret (inl path_len)
  else if path_len =? 0 then ret (inl empty)
  else
    r <- copyinstr path VFS_MAX_PATH ;;
    let '(rc, kpath) := r in
    if rc <? 0 then ret (inl rc) else ret (inr kpath).

Definition sys_open (path flags mode : Z) : K Z :=
  with_proc (fun ps =>
    arg <- path_arg (- ENOENT) path ;;
    match arg with
    | inl rc => ret rc
    | inr kpath =>
        r <- vfs_open (Some (string_of kpath)) flags mode ;;
        let '(rc, file) := r in
        if negb (rc =? 0) then ret (- vfs_errno rc)
        else
          fd <- fd_alloc ps 3 file (if has_flag flags O_CLOEXEC then FD_CLOEXEC else 0) ;;
          if fd <? 0 then _ <- vfs_close file ;; ret fd else ret fd
    end).

Definition sys_close (fd : Z) : K Z := with_proc (fun ps => fd_close ps fd).

Definition sys_creat (path mode : Z) : K Z :=
  sys_open path (Z.lor (Z.lor O_CREAT O_WRONLY) O_TRUNC) mode.

(** [kpath] is the address of the local buffer [kpath], [abs_path] that of the
    other one. *)
Definition sys_openat (kpath abs_path dirfd pathname flags mode : Z) : K Z :=
  with_proc (fun ps =>
    arg <- path_arg (- EINVAL) pathname ;;
    match arg with
    | inl rc => ret rc
    | inr str =>
        if default 0 (head str) =? SLASH then sys_open kpath flags mode
        else if dirfd =? AT_FDCWD then
          if VFS_MAX_PATH <? Z.of_nat (length str) + 2 then ret (- ENAMETOOLONG)
          else sys_open abs_path flags mode
        else with_file ps dirfd (fun file =>
          f <- the_file file ;;
          e <- gets k_env ;;
          ret (if negb (Z.land (vl_mode (f_vnode f) e) VFS_IFMT =? VFS_IFDIR) then - ENOTDIR else - ENOTSUP))
    end).

Definition whence_of (w : Z) : whence :=
  if w =? 0 then VFS_SEEK_SET else if w =? 1 then VFS_SEEK_CUR else if w =? 2 then VFS_SEEK_END else VFS_SEEK_BAD.

Definition sys_lseek (fd offset w : Z) : K Z :=
  with_proc (fun ps => with_file ps fd (fun file =>
    if negb ((w =? 0) || (w =? 1) || (w =? 2)) then ret (- EINVAL)
    else
      result <- vfs_seek file offset (whence_of w) ;;
      ret (if result <? 0 then - vfs_errno (s32 result) else result))).

(** [vfs_file_dup] and a descriptor for the new reference. *)
Definition dup_to (ps file minfd flags : Z) : K Z :=
  dup_file <- vfs_file_dup file ;;
  if dup_file =? NULL then ret (- ENOMEM)
  else
    newfd <- fd_alloc ps minfd dup_file flags ;;
    if newfd <? 0 then _ <- vfs_close dup_file ;; ret newfd else ret newfd.

Definition sys_dup (oldfd : Z) : K Z :=
  with_proc (fun ps => with_file ps oldfd (fun file => dup_to ps file 0 0)).

Definition sys_dup2 (oldfd newfd : Z) : K Z :=
  with_proc (fun ps =>
    if (oldfd <? 0) || (MAX_OPEN_FILES <=? oldfd) then ret (- EBADF)
    else if (newfd <? 0) || (MAX_OPEN_FILES <=? newfd) then ret (- EBADF)
    else if oldfd =? newfd then
      file <- fd_getfile ps oldfd ;; ret (if file =? NULL then - EBADF else newfd)
    else with_file ps oldfd (fun oldfile =>
      newfile <- vfs_file_dup oldfile ;;
      if newfile =? NULL then ret (- ENOMEM)
      else
        lock_flags <- spinlock_acquire_irqsave (proc_lock ps) ;;
        oldnew <- get_fd ps newfd ;;
        put_fd ps newfd (Fd newfile 0) ;;;
        spinlock_release_irqrestore (proc_lock ps) lock_flags ;;;
        (if fd_file oldnew =? NULL then ret tt else _ <- vfs_close (fd_file oldnew) ;; ret tt) ;;;
        ret newfd)).

(** [F_GETFL]. *)
Definition status_flags (f_flags : Z) : Z :=
  let acc := if Z.land f_flags VFS_O_RDWR =? VFS_O_RDWR then O_RDWR
             else if has_flag f_flags VFS_O_WRONLY then O_WRONLY else 0 in
  let add m x acc := if has_flag f_flags m then Z.lor acc x else acc in
  add VFS_O_EXCL O_EXCL (add VFS_O_TRUNC O_TRUNC (add VFS_O_CREAT O_CREAT (add VFS_O_APPEND O_APPEND acc))).

Definition f_set_flags (fl : Z) (f : vfs_file) : vfs_file :=
  File (f_vnode f) (f_offset f) fl (f_refcount f) (f_lock f).

Definition sys_fcntl (fd cmd arg : Z) : K Z :=
  with_proc (fun ps =>
    if (fd <? 0) || (MAX_OPEN_FILES <=? fd) then ret (- EBADF)
    else if (cmd =? F_DUPFD) || (cmd =? F_DUPFD_CLOEXEC) then
      let minfd := s32 arg in
      if (minfd <? 0) || (MAX_OPEN_FILES <=? minfd) then ret (- EINVAL)
      else with_file ps fd (fun file => dup_to ps file minfd (if cmd =? F_DUPFD_CLOEXEC then FD_CLOEXEC else 0))
    else if cmd =? F_GETFD then fd_getflags ps fd
    else if cmd =? F_SETFD then fd_setflags ps fd (Z.land (s32 arg) FD_CLOEXEC)
    else if cmd =? F_GETFL then
      with_file ps fd (fun file => f <- the_file file ;; ret (status_flags (f_flags f)))
    else if cmd =? F_SETFL then
      with_file ps fd (fun file =>
        lock_flags <- spinlock_acquire_irqsave (file_lock file) ;;
        upd_file file (fun f => f_set_flags (Z.ldiff (f_flags f) VFS_O_APPEND) f) ;;;
        (if has_flag arg O_APPEND then upd_file file (fun f => f_set_flags (Z.lor (f_flags f) VFS_O_APPEND) f)
         else ret tt) ;;;
        spinlock_release_irqrestore (file_lock file) lock_flags ;;;
        ret 0)
    else if (5 <=? cmd) && (cmd <=? 9) then ret (- ENOSYS)
    else ret (- EINVAL)).

(** ** Descriptors at fork and exit *)

(** The loop of [sys_fork] that copies the table of [parent] to [child]. *)
Fixpoint fork_fds (n : nat) (parent child i : Z) : K unit :=
  match n with
  | O => ret tt
  | S n =>
      x <- get_fd parent i ;;
      put_fd child i x ;;;
      (if fd_file x =? NULL then ret tt
       else
         file_flags <- spinlock_acquire_irqsave (file_lock (fd_file x)) ;;
         upd_file (fd_file x) (fun f => f_set_refcount (u32 (f_refcount f + 1)) f) ;;;
         spinlock_release_irqrestore (file_lock (fd_file x)) file_flags) ;;;
      fork_fds n parent child (i + 1)
  end.

(** The loop of [sys_exit], entered and left with the lock held; the saved
    flags are those of the last acquisition. *)
Fixpoint close_all (n : nat) (ps i lock_flags : Z) : K Z :=
  match n with
  | O => ret lock_flags
  | S n =>
      x <- get_fd ps i ;;
      lock_flags <- (
        if fd_file x =? NULL then ret lock_flags
        else
          put_fd ps i (Fd NULL 0) ;;;
          spinlock_release_irqrestore (proc_lock ps) lock_flags ;;;
          _ <- vfs_close (fd_file x) ;;
          spinlock_acquire_irqsave (proc_lock ps)) ;;
      close_all n ps (i + 1) lock_flags
  end.

Definition exit_files (ps : Z) : K unit :=
  lock_flags <- spinlock_acquire_irqsave (proc_lock ps) ;;
  lock_flags <- close_all (Z.to_nat MAX_OPEN_FILES) ps 0 lock_flags ;;
  spinlock_release_irqrestore (proc_lock ps) lock_flags.

(** ** Calls on paths *)

Definition vfs_result (rc : Z) : Z := if negb (rc =? 0) then - vfs_errno rc else 0.

Definition on_path (path : Z) (f : string -> path_call) : K Z :=
  arg <- path_arg (- EINVAL) path ;;
  match arg with
  | inl rc => ret rc
  | inr kpath => rc <- env (pc_call (f (string_of kpath))) ;; ret (vfs_result rc)
  end.

Definition sys_mkdir (path mode : Z) : K Z := on_path path (fun p => CMkdir p mode).
Definition sys_rmdir (path : Z) : K Z := on_path path CRmdir.
Definition sys_mknod (path mode dev : Z) : K Z := on_path path (fun p => CMknod p mode dev).
Definition sys_access (path mode : Z) : K Z := on_path path (fun p => CAccess p mode).
Definition sys_chmod (path mode : Z) : K Z := on_path path (fun p => CChmod p mode).
Definition sys_chown (path owner group : Z) : K Z := on_path path (fun p => CChown p owner group).
Definition sys_truncate (path length : Z) : K Z :=
  if length <? 0 then ret (- EINVAL) else on_path path (fun p => CTruncate p length).

Definition sys_unlink (path : Z) : K Z :=
  arg <- path_arg (- EINVAL) path ;;
  match arg with
  | inl rc => ret rc
  | inr kpath =>
      r <- env (vl_lookup (string_of kpath)) ;;
      let '(rc, vnode) := r in
      dir <- (if rc =? 0 then
                e <- gets k_env ;;
                env (vl_unref vnode) ;;;
                ret (Z.land (vl_mode vnode e) VFS_IFMT =? VFS_IFDIR)
              else ret false) ;;
      if dir then ret (- EISDIR)
      else rc <- env (pc_call (CUnlink (string_of kpath))) ;; ret (vfs_result rc)
  end.

Definition on_two_paths (a b : Z) (f : string -> string -> path_call) : K Z :=
  old_len <- validate_user_string a VFS_MAX_PATH ;;
  if old_len <? 0 then ret old_len
  else
    new_len <- validate_user_string b VFS_MAX_PATH ;;
    if new_len <? 0 then ret new_len
    else if (old_len =? 0) || (new_len =? 0) then ret (- EINVAL)
    else
      r <- copyinstr a VFS_MAX_PATH ;;
      let '(rc, kold) := r in
      if rc <? 0 then ret rc
      else
        r <- copyinstr b VFS_MAX_PATH ;;
        let '(rc, knew) := r in
        if rc <? 0 then ret rc
        else rc <- env (pc_call (f (string_of kold) (string_of knew))) ;; ret (vfs_result rc).

Definition sys_link (oldpath newpath : Z) : K Z := on_two_paths oldpath newpath CLink.
Definition sys_symlink (target linkpath : Z) : K Z := on_two_paths target linkpath CSymlink.
Definition sys_rename (oldpath newpath : Z) : K Z := on_two_paths oldpath newpath CRename.

Definition sys_readlink (path buf bufsiz : Z) : K Z :=
  if (buf =? NULL) || (bufsiz =? 0) then ret (- EINVAL)
  else
    path_len <- validate_user_string path VFS_MAX_PATH ;;
    if path_len <? 0 then ret path_len
    else if path_len =? 0 then ret (- EINVAL)
    else if negb (is_user_range buf bufsiz) then ret (- EFAULT)
    else
      r <- copyinstr path VFS_MAX_PATH ;;
      let '(rc, kpath) := r in
      if rc <? 0 then ret rc
      else
        r <- env (pc_readlink (string_of kpath) VFS_MAX_PATH) ;;
        let '(rc, kbuf) := r in
        if rc <? 0 then ret (- vfs_errno rc)
        else
          let len := if bufsiz <? rc then bufsiz else rc in
          rc <- copyout (take (Z.to_nat len) kbuf) buf ;;
          ret (if negb (rc =? 0) then rc else len).

Definition sys_ftruncate (fd length : Z) : K Z :=
  if length <? 0 then ret (- EINVAL)
  else with_proc (fun ps => with_file ps fd (fun file =>
    f <- the_file file ;;
    if negb (has_flag (f_flags f) (Z.lor VFS_O_WRONLY VFS_O_RDWR)) then ret (- EINVAL)
    else
      match vl_truncate (f_vnode f) with
      | None => ret (- EINVAL)
      | Some truncate => rc <- env (truncate length) ;; ret (vfs_result rc)
      end)).

Definition sys_fchdir (fd : Z) : K Z :=
  with_proc (fun ps => with_file ps fd (fun file =>
    f <- the_file file ;;
    e <- gets k_env ;;
    ret (if negb (Z.land (vl_mode (f_vnode f) e) VFS_IFMT =? VFS_IFDIR) then - ENOTDIR else - ENOTSUP))).

(** [vfs_readdir] of an open directory. *)
Definition read_entry (file : Z) : K (Z * dirent) :=
  f <- the_file file ;;
  e <- gets k_env ;;
  if negb (Z.land (vl_mode (f_vnode f) e) VFS_IFMT =? VFS_IFDIR) then ret (- ENOTDIR, Dirent 0 0 0 [])
  else
    match pc_readdir (f_vnode f) with
    | None => ret (- ENOSYS, Dirent 0 0 0 [])
    | Some readdir =>
        offset <- get_offset file ;;
        r <- env (readdir offset) ;;
        let '(rc, x, offset) := r in
        (if rc =? 0 then set_offset file offset else ret tt) ;;;
        ret (rc, x)
    end.

Fixpoint little_endian (n : nat) (x : Z) : list Z :=
  match n with O => [] | S n => x mod 256 :: little_endian n (x / 256) end.

(** [sizeof(struct linux_dirent)] is 24, its name starts at 18. *)
Definition reclen_of (name : list Z) : Z := Z.ldiff (24 + Z.of_nat (length name) + 1 + 7) 7.

(** The loop of [sys_getdents]: each round takes an entry of the directory. *)
Fixpoint fill_entries (fuel : nat) (file buf count bytes_written : Z) : K Z :=
  match fuel with
  | O => throw F_fuel
  | S fuel =>
      if negb (bytes_written <? count) then ret bytes_written
      else
        r <- read_entry file ;;
        let '(rc, x) := r in
        if negb (rc =? 0) then
          ret (if 0 <? bytes_written then bytes_written else if rc =? - ENOENT then 0 else - vfs_errno rc)
        else
          let reclen := reclen_of (d_name x) in
          if count <? bytes_written + reclen then ret bytes_written
          else
            let dent := buf + bytes_written in
            put_user_bytes dent (little_endian 8 (u64 (d_ino x)) ++ little_endian 8 (u64 (d_off x)) ++
              little_endian 2 (reclen mod 65536) ++ d_name x ++ [0]) ;;;
            put_user_byte (dent + reclen - 1) (d_type x) ;;;
            fill_entries fuel file buf count (bytes_written + reclen)
  end.

Definition sys_getdents (fuel : nat) (fd dirp count : Z) : K Z :=
  if (dirp =? NULL) || (count =? 0) then ret (- EINVAL)
  else if negb (is_user_range dirp count) then ret (- EFAULT)
  else with_proc (fun ps => with_file ps fd (fun file =>
    f <- the_file file ;;
    e <- gets k_env ;;
    if negb (Z.land (vl_mode (f_vnode f) e) VFS_IFMT =? VFS_IFDIR) then ret (- ENOTDIR)
    else fill_entries fuel file dirp count 0)).
End syscalls.
