(* ===== verification/SyscallThms.v ===== *)
(** * Theorems about descriptors and user memory

    The descriptors of all processes are a finite map [P] from a process and a
    number to an open file and its flags.  The calls on descriptors refine
    this map, and the reference count of an open file is the number of
    descriptors that name it, so that a file is released with its last
    descriptor and not before.  Strings are copied from user memory as they
    are. *)

From stdpp Require Import base numbers list gmap strings.
From S2P Require Import Prelude Spinlock Kernel VfsFile VfsFileFacts VfsFileSpec Syscall.

Abbreviation fdmap := (gmap (Z * Z) (Z * Z)).
Implicit Types (P : fdmap) (p q fd fl : Z).

(** ** Counting descriptors *)

Definition uses P q : Z := Z.of_nat (size (filter (fun x : (Z * Z) * (Z * Z) => x.2.1 = q) P)).

Lemma uses_nonneg P q : 0 <= uses P q.
Proof. unfold uses. lia. Qed.

Lemma uses_size P q : uses P q <= Z.of_nat (size P).
Proof. unfold uses. apply inj_le, map_subseteq_size, map_filter_subseteq. Qed.

Lemma uses_insert P k q fl q' :
  P !! k = None -> uses (<[k := (q, fl)]> P) q' = uses P q' + (if q =? q' then 1 else 0).
Proof.
  intros Hk. unfold uses. destruct (Z.eqb_spec q q') as [->|Hne].
  - rewrite map_filter_insert_True by done. rewrite map_size_insert_None; [lia|]. apply map_lookup_filter_None. by left.
  - rewrite map_filter_insert_not'; [lia|done|]. intros y Hy. congruence.
Qed.

Lemma uses_delete P k q fl q' :
  P !! k = Some (q, fl) -> uses (delete k P) q' = uses P q' - (if q =? q' then 1 else 0).
Proof.
  intros Hk. rewrite <- (insert_delete_id P k (q, fl) Hk) at 2. rewrite uses_insert by apply lookup_delete_eq. lia.
Qed.

Lemma uses_pos P k q fl : P !! k = Some (q, fl) -> 0 < uses P q.
Proof. intros Hk. pose proof (uses_delete P k q fl q Hk) as Hd. rewrite Z.eqb_refl in Hd. pose proof (uses_nonneg (delete k P) q). lia. Qed.

Lemma uses_replace P k q fl fl' q' : P !! k = Some (q, fl) -> uses (<[k := (q, fl')]> P) q' = uses P q'.
Proof.
  intros Hk. rewrite <- insert_delete_eq. rewrite uses_insert by apply lookup_delete_eq. rewrite (uses_delete P k q fl q' Hk). lia.
Qed.

Lemma uses_none P q : (forall k fl, P !! k <> Some (q, fl)) -> uses P q = 0.
Proof.
  intros Hno. unfold uses. assert (Hf : filter (fun x : (Z * Z) * (Z * Z) => x.2.1 = q) P = ∅); [|by rewrite Hf].
  apply map_empty. intros k. apply map_lookup_filter_None. right. intros [q' fl] Hk. simpl. intros ->. by destruct (Hno k fl).
Qed.

(** References that are not in a table yet, or no more. *)
Definition extra (l : list Z) q : Z := Z.of_nat (count_occ Z.eq_dec l q).

Lemma extra_cons x l q : extra (x :: l) q = (if x =? q then 1 else 0) + extra l q.
Proof. unfold extra. simpl. destruct (Z.eq_dec x q), (Z.eqb_spec x q); try done; lia. Qed.

Lemma extra_nonneg l q : 0 <= extra l q.
Proof. unfold extra. lia. Qed.

Lemma extra_pos l q : q ∈ l -> 0 < extra l q.
Proof.
  induction l as [|x l IH]; [by intros ?%elem_of_nil|]. rewrite extra_cons. pose proof (extra_nonneg l q).
  intros [->|Hq]%elem_of_cons; [rewrite Z.eqb_refl; lia|]. destruct (x =? q); specialize (IH Hq); lia.
Qed.

Lemma extra_length l q : extra l q <= Z.of_nat (length l).
Proof. induction l as [|x l IH]; [done|]. rewrite extra_cons. simpl. destruct (x =? q); lia. Qed.

(** ** The invariant *)

Definition entry_is (o : option (Z * Z)) (x : fd_entry) : Prop :=
  match o with Some (q, fl) => x = Fd q fl /\ q <> NULL | None => fd_file x = NULL end.

(** The lowest free number from [min] on, and none at all. *)
Definition lowest P p (min fd : Z) : Prop :=
  min <= fd < MAX_OPEN_FILES /\ P !! (p, fd) = None /\ forall i, min <= i < fd -> is_Some (P !! (p, i)).
Definition full P p (min : Z) : Prop := forall i, min <= i < MAX_OPEN_FILES -> is_Some (P !! (p, i)).

(** A descriptor for [q] from [min] on. *)
Definition gets_fd P p (min q fl rc : Z) P' : Prop :=
  lowest P p min rc /\ P' = <[(p, rc) := (q, fl)]> P \/ full P p min /\ rc = - EMFILE /\ P' = P.

(** ** The specification *)

Inductive fdop :=
  | OClose (fd : Z)
  | ODup (fd : Z)
  | ODup2 (oldfd newfd : Z)
  | ODupfd (fd min : Z) (cloexec : bool)
  | OGetfd (fd : Z)
  | OSetfd (fd arg : Z).

Definition valid_fd (fd : Z) : bool := (0 <=? fd) && (fd <? MAX_OPEN_FILES).

Definition fd_spec P p (op : fdop) (rc : Z) P' : Prop :=
  match op with
  | OClose fd =>
      match P !! (p, fd) with None => rc = - EBADF /\ P' = P | Some _ => rc = 0 /\ P' = delete (p, fd) P end
  | ODup fd =>
      match P !! (p, fd) with None => rc = - EBADF /\ P' = P | Some (q, _) => gets_fd P p 0 q 0 rc P' end
  | ODup2 a b =>
      if negb (valid_fd b) then rc = - EBADF /\ P' = P
      else match P !! (p, a) with
           | None => rc = - EBADF /\ P' = P
           | Some (q, _) => rc = b /\ P' = if a =? b then P else <[(p, b) := (q, 0)]> P
           end
  | ODupfd fd min cloexec =>
      if negb (valid_fd fd) then rc = - EBADF /\ P' = P
      else if negb (valid_fd (s32 min)) then rc = - EINVAL /\ P' = P
      else match P !! (p, fd) with
           | None => rc = - EBADF /\ P' = P
           | Some (q, _) => gets_fd P p (s32 min) q (if cloexec then FD_CLOEXEC else 0) rc P'
           end
  | OGetfd fd => P' = P /\ rc = match P !! (p, fd) with Some x => x.2 | None => - EBADF end
  | OSetfd fd arg =>
      match P !! (p, fd) with
      | None => rc = - EBADF /\ P' = P
      | Some (q, _) => rc = 0 /\ P' = <[(p, fd) := (q, Z.land (s32 arg) FD_CLOEXEC)]> P
      end
  end.

Section inv.
Context {E : Type} `{BlockStore E}.
Implicit Types (s : kst sysproc E) (ps : sys_process) (l : list Z).

Definition proc_ok P p ps : Prop :=
  p <> NULL /\ sl_locked (ps_lock ps) = 0 /\ Z.of_nat (length (ps_fd_table ps)) = MAX_OPEN_FILES /\
  forall i x, ps_fd_table ps !! i = Some x -> entry_is (P !! (p, Z.of_nat i)) x.

Definition file_ok P l q (f : vfs_file) : Prop :=
  q <> NULL /\ sl_locked (f_lock f) = 0 /\ f_refcount f = uses P q + extra l q /\ 0 < uses P q + extra l q.

Record fds_ok s P l : Prop := {
  fx_proc p ps : procs (k_obj s) !! p = Some ps -> proc_ok P p ps;
  fx_fd p fd x : P !! (p, fd) = Some x -> is_Some (procs (k_obj s) !! p) /\ 0 <= fd < MAX_OPEN_FILES;
  fx_file q f : k_files s !! q = Some f -> file_ok P l q f;
  fx_open k q fl : P !! k = Some (q, fl) -> is_Some (k_files s !! q);
  fx_extra q : q ∈ l -> is_Some (k_files s !! q)
}.

(** ** The lock of a process *)

Definition put_ps p ps s : kst sysproc E := set_obj (put_process p ps (k_obj s)) s.
Definition prested s ps : sys_process := ps_set_lock (rest_lock (k_flags s)) ps.

Definition pheld s p ps : kst sysproc E :=
  Kst (no_irq (k_flags s)) (k_files s) (k_reads s) (k_writes s) (k_stats_lock s)
    (put_process p (ps_set_lock (Spinlock 1 get_cpu_id (no_irq (k_flags s))) ps) (k_obj s)) (k_env s).

Lemma wp_pacquire (Q : Z -> kst sysproc E -> Prop) p ps s :
  procs (k_obj s) !! p = Some ps -> sl_locked (ps_lock ps) = 0 -> Q (k_flags s) (pheld s p ps) ->
  wp (spinlock_acquire_irqsave (proc_lock p)) Q s.
Proof.
  intros Hp Hi HQ. apply wp_acquire_irqsave.
  - unfold lock_idle. simpl. unfold process_at. by rewrite Hp.
  - revert HQ. unfold pheld, set_obj. simpl. unfold process_at. by rewrite Hp.
Qed.

Lemma wp_prelease (Q : unit -> kst sysproc E -> Prop) p ps s :
  Q tt (put_ps p (prested s ps) s) ->
  wp (spinlock_release_irqrestore (proc_lock p) (k_flags s)) Q (pheld s p ps).
Proof.
  intros HQ. apply wp_release_irqrestore.
  - unfold lock_held. simpl. unfold process_at. simpl. by rewrite lookup_insert_eq.
  - revert HQ. unfold put_ps, put_process, set_obj, prested, rest_lock. simpl. unfold process_at, put_process. simpl.
    by rewrite !lookup_insert_eq, insert_insert_eq.
Qed.

Lemma wp_get_fd_held (Q : fd_entry -> kst sysproc E -> Prop) p ps s fd x :
  aread (ps_fd_table ps) fd = Ok x -> Q x (pheld s p ps) -> wp (get_fd p fd) Q (pheld s p ps).
Proof.
  intros Hx HQ. unfold get_fd, the_sys_process, obj. wp_step. wp_step. wp_step. simpl. rewrite lookup_insert_eq. wp_step.
  by eapply wp_lift.
Qed.

Lemma wp_put_fd_held (Q : unit -> kst sysproc E -> Prop) p ps s fd x t :
  awrite (ps_fd_table ps) fd x = Ok t -> Q tt (pheld s p (ps_set_table t ps)) -> wp (put_fd p fd x) Q (pheld s p ps).
Proof.
  intros Hx HQ. unfold put_fd, upd_sys_process, the_sys_process, obj, upd. wp_step. wp_step. wp_step. simpl. rewrite lookup_insert_eq.
  wp_step. wp_step. eapply wp_lift; [exact Hx|]. wp_step. wp_step. wp_step. simpl. rewrite lookup_insert_eq. wp_step. wp_step.
  revert HQ. unfold pheld, set_obj, put_process. simpl. by rewrite insert_insert_eq.
Qed.

(** ** Tables *)

Lemma table_read P p ps fd : proc_ok P p ps -> 0 <= fd < MAX_OPEN_FILES -> exists x,
  aread (ps_fd_table ps) fd = Ok x /\ entry_is (P !! (p, fd)) x.
Proof.
  intros (_ & _ & Hl & He) Hfd. destruct (lookup_lt_is_Some_2 (ps_fd_table ps) (Z.to_nat fd)) as [x Hx]; [lia|].
  exists x. unfold aread. rewrite decide_True, Hx by lia. split; [done|]. specialize (He _ _ Hx). by rewrite Z2Nat.id in He by lia.
Qed.

Lemma table_write P p ps fd x : proc_ok P p ps -> 0 <= fd < MAX_OPEN_FILES ->
  awrite (ps_fd_table ps) fd x = Ok (<[Z.to_nat fd := x]> (ps_fd_table ps)).
Proof. intros (_ & _ & Hl & _) Hfd. unfold awrite. by rewrite decide_True by lia. Qed.

Lemma bad_fd_false p fd : p <> NULL -> 0 <= fd < MAX_OPEN_FILES -> bad_fd p fd = false.
Proof.
  intros Hp Hfd. unfold bad_fd. destruct (Z.eqb_spec p NULL); [done|]. destruct (Z.ltb_spec fd 0); [lia|].
  destruct (Z.leb_spec MAX_OPEN_FILES fd); [lia|done].
Qed.

Lemma bad_fd_true p fd : ~ (0 <= fd < MAX_OPEN_FILES) -> bad_fd p fd = true.
Proof.
  intros Hfd. unfold bad_fd. destruct (Z.ltb_spec fd 0); [by rewrite orb_true_r|].
  destruct (Z.leb_spec MAX_OPEN_FILES fd); [by rewrite !orb_true_r|lia].
Qed.

(** The descriptor that [x] stands for. *)
Definition entry_of (x : fd_entry) : option (Z * Z) := if fd_file x =? NULL then None else Some (fd_file x, fd_flags x).

Lemma entry_of_is o x : entry_is o x -> entry_of x = o.
Proof.
  unfold entry_is, entry_of. destruct o as [[q fl]|]; [intros [-> Hq]; simpl; by destruct (Z.eqb_spec q NULL)|].
  intros ->. done.
Qed.

(** Writing an entry of one process: the descriptor changes, no other does. *)
Lemma fds_ok_write_lock lk s P l l' p ps fd x :
  sl_locked lk = 0 -> fds_ok s P l -> procs (k_obj s) !! p = Some ps -> 0 <= fd < MAX_OPEN_FILES ->
  let P' := partial_alter (fun _ => entry_of x) (p, fd) P in
  (forall q, uses P' q + extra l' q = uses P q + extra l q) ->
  (forall y, entry_of x = Some y -> is_Some (k_files s !! y.1)) -> (forall q, q ∈ l' -> is_Some (k_files s !! q)) ->
  fds_ok (put_ps p (ps_set_lock lk (ps_set_table (<[Z.to_nat fd := x]> (ps_fd_table ps)) ps)) s) P' l'.
Proof.
  intros Hlk [H1' H2' H3' H4' H5'] Hp Hfd P' Hcount Hq Hl'. pose proof (H1' _ _ Hp) as (Hp0 & Hi & Hlen & He).
  split; simpl.
  - intros p' ps'. rewrite lookup_insert_Some. intros [[<- <-]|[Hne Hp']].
    + split_and!; [done|done|simpl; by rewrite length_insert|]. simpl. intros i y. rewrite list_lookup_insert_Some.
      intros [(<- & <- & _)|[Hne Hy]].
      * unfold P'. rewrite Z2Nat.id by lia. rewrite lookup_partial_alter_eq. unfold entry_is, entry_of.
        destruct (Z.eqb_spec (fd_file x) NULL); [done|]. by destruct x.
      * unfold P'. rewrite lookup_partial_alter_ne; [by apply He|]. intros [= Heq]. apply Hne. lia.
    + destruct (H1' _ _ Hp') as (? & ? & ? & He'). split_and!; try done. intros i y Hy. unfold P'.
      rewrite lookup_partial_alter_ne by congruence. by apply He'.
  - intros p' fd' y. unfold P'. destruct (decide ((p, fd) = (p', fd'))) as [[= <- <-]|Hne].
    + intros _. rewrite lookup_insert_eq. by split; [eexists|].
    + rewrite lookup_partial_alter_ne by done. intros Hy. destruct (H2' _ _ _ Hy) as [Hs ?]. split; [|done].
      rewrite lookup_insert_is_Some'. auto.
  - intros q f Hf. destruct (H3' _ _ Hf) as (? & ? & Hr & ?). unfold file_ok. rewrite Hcount. by split_and!.
  - intros k q fl. unfold P'. destruct (decide ((p, fd) = k)) as [<-|Hne].
    + rewrite lookup_partial_alter_eq. intros Hx. by apply (Hq (q, fl)).
    + rewrite lookup_partial_alter_ne by done. apply H4'.
  - done.
Qed.

Lemma fds_ok_write s P l l' p ps fd x :
  fds_ok s P l -> procs (k_obj s) !! p = Some ps -> 0 <= fd < MAX_OPEN_FILES ->
  let P' := partial_alter (fun _ => entry_of x) (p, fd) P in
  (forall q, uses P' q + extra l' q = uses P q + extra l q) ->
  (forall y, entry_of x = Some y -> is_Some (k_files s !! y.1)) -> (forall q, q ∈ l' -> is_Some (k_files s !! q)) ->
  fds_ok (put_ps p (prested s (ps_set_table (<[Z.to_nat fd := x]> (ps_fd_table ps)) ps)) s) P' l'.
Proof. by apply fds_ok_write_lock. Qed.

Lemma fds_ok_rest s P l p ps : fds_ok s P l -> procs (k_obj s) !! p = Some ps -> fds_ok (put_ps p (prested s ps) s) P l.
Proof.
  intros [H1' H2' H3' H4' H5'] Hp. split; simpl; try done.
  - intros p' ps'. rewrite lookup_insert_Some. intros [[<- <-]|[_ Hp']]; [|by apply H1'].
    destruct (H1' _ _ Hp) as (? & _ & ? & ?). by split_and!.
  - intros p' fd x Hx. destruct (H2' _ _ _ Hx) as [Hs ?]. split; [|done]. rewrite lookup_insert_is_Some'. auto.
Qed.

(** ** Rules *)

(** What no call changes. *)
Definition frame s s' : Prop :=
  k_flags s' = k_flags s /\ curproc (k_obj s') = curproc (k_obj s) /\
  forall p, is_Some (procs (k_obj s') !! p) <-> is_Some (procs (k_obj s) !! p).

#[local] Instance frame_preorder : PreOrder frame.
Proof.
  split; [by intros s|]. intros s1 s2 s3 (H1' & H2' & H3') (H4' & H5' & H6'). split; [congruence|]. split; [congruence|].
  intros p. by rewrite H6', H3'.
Qed.

Lemma frame_put_ps s p ps ps' : procs (k_obj s) !! p = Some ps -> frame s (put_ps p ps' s).
Proof.
  intros Hp. split; [done|]. split; [done|]. intros p'. simpl. rewrite lookup_insert_is_Some'. split; [|by right].
  intros [<-|?]; [by rewrite Hp; eexists|done].
Qed.

Lemma file_ok_open P l q f s : file_ok P l q f -> k_files s !! q = Some f -> file_open q f s.
Proof. intros (? & ? & _) ?. by split. Qed.

(** One more reference. *)
Lemma fds_ok_dup lk s P l q f :
  sl_locked lk = 0 -> fds_ok s P l -> k_files s !! q = Some f -> Z.of_nat (size P) + Z.of_nat (length l) + 1 < 2 ^ 32 ->
  fds_ok (put_file q (f_set_lock lk (f_set_refcount (u32 (f_refcount f + 1)) f)) s) P (q :: l).
Proof.
  intros Hlk [H1' H2' H3' H4' H5'] Hf Hsz. pose proof (H3' _ _ Hf) as (Hq0 & Hi & Hr & Hpos).
  assert (Hu : u32 (f_refcount f + 1) = f_refcount f + 1).
  { unfold u32. apply Z.mod_small. rewrite Hr. pose proof (uses_size P q). pose proof (extra_length l q). lia. }
  split; simpl; try done.
  - intros q' f'. rewrite lookup_insert_Some. unfold file_ok. rewrite extra_cons. intros [[<- <-]|[Hne Hf']].
    + simpl. rewrite Hu, Z.eqb_refl, Hr. split_and!; [done|done|lia|lia].
    + destruct (Z.eqb_spec q q'); [done|]. by apply H3'.
  - intros k q' fl Hk. rewrite lookup_insert_is_Some'. right. by eapply H4'.
  - intros q' [->|Hq']%elem_of_cons; rewrite lookup_insert_is_Some'; [by left|right; by apply H5'].
Qed.

Lemma wp_dup (Q : Z -> kst sysproc E -> Prop) s P l q :
  fds_ok s P l -> is_Some (k_files s !! q) -> Z.of_nat (size P) + Z.of_nat (length l) + 1 < 2 ^ 32 ->
  (forall s', fds_ok s' P (q :: l) -> frame s s' -> Q q s') -> wp (vfs_file_dup q) Q s.
Proof.
  intros Hok [f Hf] Hsz HQ. pose proof (fx_file _ _ _ Hok _ _ Hf) as (Hq0 & Hi & _).
  unfold vfs_file_dup. destruct (Z.eqb_spec q NULL); [done|]. wp_step. eapply wp_facquire; [by split|]. wp_step.
  apply wp_upd_file_held; [done|]. wp_step. apply wp_frelease. wp_step. apply HQ; [|by split]. by apply fds_ok_dup.
Qed.

(** One less: the last one releases the file. *)
Lemma wp_undup (Q : Z -> kst sysproc E -> Prop) s P l q :
  fds_ok s P (q :: l) -> Z.of_nat (size P) + Z.of_nat (length l) + 1 < 2 ^ 32 ->
  (forall s', fds_ok s' P l -> frame s s' -> Q 0 s') -> wp (vfs_close q) Q s.
Proof.
  intros Hok Hsz HQ. pose proof Hok as [H1' H2' H3' H4' H5']. destruct (H5' q) as [f Hf]; [by apply elem_of_cons; left|].
  pose proof (H3' _ _ Hf) as (Hq0 & Hi & Hr & Hpos). rewrite extra_cons, Z.eqb_refl in Hr, Hpos.
  destruct (store_unref (f_vnode f) (f_vnode f) (k_env s)) as (e & He & _).
  pose proof (uses_size P q). pose proof (extra_length l q). pose proof (uses_nonneg P q). pose proof (extra_nonneg l q).
  eapply wp_vfs_close; [by split|lia|exact He|]. destruct (Z.eqb_spec (f_refcount f) 1) as [H1r|Hn1].
  - apply HQ; [|by split]. split; simpl; try done.
    + intros q' f' [Hne Hf']%lookup_delete_Some. destruct (H3' _ _ Hf') as (? & ? & Hr' & ?). rewrite extra_cons in *.
      destruct (Z.eqb_spec q q'); [done|]. by split_and!.
    + intros k q' fl Hk. rewrite lookup_delete_ne; [by eapply H4'|]. intros <-. pose proof (uses_pos _ _ _ _ Hk). lia.
    + intros q' Hq'. rewrite lookup_delete_ne; [apply H5'; by apply elem_of_cons; right|]. intros <-.
      pose proof (extra_pos _ _ Hq'). lia.
  - apply HQ; [|by split]. split; simpl; try done.
    + intros q' f'. rewrite lookup_insert_Some. intros [[<- <-]|[Hne Hf']]; [simpl; split_and!; simpl; try done; lia|].
      destruct (H3' _ _ Hf') as (? & ? & Hr' & ?). rewrite extra_cons in *. destruct (Z.eqb_spec q q'); [done|]. by split_and!.
    + intros k q' fl Hk. rewrite lookup_insert_is_Some'. right. by eapply H4'.
    + intros q' Hq'. rewrite lookup_insert_is_Some'. right. apply H5'. by apply elem_of_cons; right.
Qed.

Section calls.
Context (s : kst sysproc E) (P : fdmap) (l : list Z) (p : Z) (ps : sys_process).
Context (Hok : fds_ok s P l) (Hp : procs (k_obj s) !! p = Some ps).

Lemma wp_getfile (Q : Z -> kst sysproc E -> Prop) fd :
  (P !! (p, fd) = None -> forall s', fds_ok s' P l -> frame s s' -> Q NULL s') ->
  (forall q fl s', P !! (p, fd) = Some (q, fl) -> q <> NULL -> fds_ok s' P l -> frame s s' -> Q q s') ->
  wp (fd_getfile p fd) Q s.
Proof using Hok Hp.
  intros Hno Hyes. pose proof (fx_proc _ _ _ Hok _ _ Hp) as Hpo. pose proof Hpo as (Hp0 & Hi & _).
  unfold fd_getfile. destruct (decide (0 <= fd < MAX_OPEN_FILES)) as [Hfd|Hfd].
  2: { rewrite bad_fd_true by done. wp_step. apply Hno; [|done|reflexivity]. destruct (P !! (p, fd)) eqn:Hx; [|done].
       by destruct (fx_fd _ _ _ Hok _ _ _ Hx). }
  rewrite bad_fd_false by done. wp_step. eapply wp_pacquire; [done|done|]. destruct (table_read _ _ _ _ Hpo Hfd) as (x & Hx & He).
  wp_step. eapply wp_get_fd_held; [exact Hx|]. wp_step. apply wp_prelease. wp_step.
  pose proof (fds_ok_rest _ _ _ _ _ Hok Hp) as Hok'. pose proof (frame_put_ps s p ps (prested s ps) Hp) as Hfr.
  destruct (P !! (p, fd)) as [[q fl]|] eqn:HP; [destruct He as [-> Hq]; by eapply Hyes|]. simpl in He. rewrite He. by apply Hno.
Qed.

Lemma wp_getflags (Q : Z -> kst sysproc E -> Prop) fd :
  (forall s', fds_ok s' P l -> frame s s' -> Q (match P !! (p, fd) with Some x => x.2 | None => - EBADF end) s') ->
  wp (fd_getflags p fd) Q s.
Proof using Hok Hp.
  intros HQ. pose proof (fx_proc _ _ _ Hok _ _ Hp) as Hpo. pose proof Hpo as (Hp0 & Hi & _).
  unfold fd_getflags. destruct (decide (0 <= fd < MAX_OPEN_FILES)) as [Hfd|Hfd].
  2: { rewrite bad_fd_true by done. wp_step. destruct (P !! (p, fd)) eqn:Hx; [by destruct (fx_fd _ _ _ Hok _ _ _ Hx)|].
       apply HQ; [done|reflexivity]. }
  rewrite bad_fd_false by done. wp_step. eapply wp_pacquire; [done|done|]. destruct (table_read _ _ _ _ Hpo Hfd) as (x & Hx & He).
  wp_step. eapply wp_get_fd_held; [exact Hx|]. wp_step. apply wp_prelease. wp_step.
  specialize (HQ _ (fds_ok_rest _ _ _ _ _ Hok Hp) (frame_put_ps s p ps (prested s ps) Hp)).
  destruct (P !! (p, fd)) as [[q fl]|]; [destruct He as [-> Hq]|]; simpl in *.
  - by destruct (Z.eqb_spec q NULL).
  - by rewrite He.
Qed.

Lemma wp_setflags (Q : Z -> kst sysproc E -> Prop) fd fl' :
  (P !! (p, fd) = None -> forall s', fds_ok s' P l -> frame s s' -> Q (- EBADF) s') ->
  (forall q fl s', P !! (p, fd) = Some (q, fl) -> fds_ok s' (<[(p, fd) := (q, fl')]> P) l -> frame s s' -> Q 0 s') ->
  wp (fd_setflags p fd fl') Q s.
Proof using Hok Hp.
  intros Hno Hyes. pose proof (fx_proc _ _ _ Hok _ _ Hp) as Hpo. pose proof Hpo as (Hp0 & Hi & _).
  unfold fd_setflags. destruct (decide (0 <= fd < MAX_OPEN_FILES)) as [Hfd|Hfd].
  2: { rewrite bad_fd_true by done. wp_step. apply Hno; [|done|reflexivity]. destruct (P !! (p, fd)) eqn:Hx; [|done].
       by destruct (fx_fd _ _ _ Hok _ _ _ Hx). }
  rewrite bad_fd_false by done. wp_step. eapply wp_pacquire; [done|done|]. destruct (table_read _ _ _ _ Hpo Hfd) as (x & Hx & He).
  wp_step. eapply wp_get_fd_held; [exact Hx|]. destruct (P !! (p, fd)) as [[q fl]|] eqn:HP; simpl in He.
  - destruct He as [-> Hq]. simpl. destruct (Z.eqb_spec q NULL); [done|]. wp_step.
    eapply wp_put_fd_held; [by eapply table_write|]. wp_step. apply wp_prelease. wp_step.
    eapply (Hyes q fl); [done| |by eapply frame_put_ps].
    pose proof (fds_ok_write s P l l p ps fd (Fd q fl') Hok Hp Hfd) as Hw. unfold entry_of in Hw. simpl in Hw.
    destruct (Z.eqb_spec q NULL); [done|]. apply Hw.
    + intros q'. by erewrite (uses_replace P (p, fd) q fl fl').
    + intros y [= <-]. simpl. by eapply (fx_open _ _ _ Hok).
    + apply (fx_extra _ _ _ Hok).
  - rewrite He. change (NULL =? NULL) with true. cbn iota. wp_step. apply wp_prelease. wp_step.
    apply Hno; [done|by apply fds_ok_rest|by eapply frame_put_ps].
Qed.

(** Taking a descriptor out of the table leaves its reference to the caller. *)
Lemma fds_ok_remove fd q fl : P !! (p, fd) = Some (q, fl) ->
  fds_ok (put_ps p (prested s (ps_set_table (<[Z.to_nat fd := Fd NULL 0]> (ps_fd_table ps)) ps)) s) (delete (p, fd) P) (q :: l).
Proof using Hok Hp.
  intros HP. destruct (fx_fd _ _ _ Hok _ _ _ HP) as [_ Hfd]. apply (fds_ok_write s P l (q :: l) p ps fd (Fd NULL 0) Hok Hp Hfd).
  - intros q'. rewrite extra_cons. change (partial_alter _ (p, fd) P) with (delete (p, fd) P). rewrite (uses_delete P _ q fl q' HP). lia.
  - done.
  - intros q' [->|Hq']%elem_of_cons; [by eapply (fx_open _ _ _ Hok)|by apply (fx_extra _ _ _ Hok)].
Qed.

(** Putting a reference of the caller into a free slot. *)
Lemma fds_ok_install fd q fl l0 : l = q :: l0 -> q <> NULL -> P !! (p, fd) = None -> 0 <= fd < MAX_OPEN_FILES ->
  fds_ok (put_ps p (prested s (ps_set_table (<[Z.to_nat fd := Fd q fl]> (ps_fd_table ps)) ps)) s) (<[(p, fd) := (q, fl)]> P) l0.
Proof using Hok Hp.
  intros -> Hq HP Hfd. pose proof (fds_ok_write s P (q :: l0) l0 p ps fd (Fd q fl) Hok Hp Hfd) as Hw. unfold entry_of in Hw.
  simpl in Hw. destruct (Z.eqb_spec q NULL); [done|]. apply Hw.
  - intros q'. rewrite extra_cons. change (partial_alter _ (p, fd) P) with (<[(p, fd) := (q, fl)]> P).
    rewrite uses_insert by done. lia.
  - intros y [= <-]. simpl. apply (fx_extra _ _ _ Hok). by apply elem_of_cons; left.
  - intros q' Hq'. apply (fx_extra _ _ _ Hok). by apply elem_of_cons; right.
Qed.

Lemma wp_find_slot (Q : Z -> kst sysproc E -> Prop) n min i q fl :
  n = Z.to_nat (MAX_OPEN_FILES - i) -> 0 <= min <= i -> i <= MAX_OPEN_FILES -> (forall j, min <= j < i -> is_Some (P !! (p, j))) ->
  (full P p min -> Q (-1) (pheld s p ps)) ->
  (forall fd, lowest P p min fd -> Q fd (pheld s p (ps_set_table (<[Z.to_nat fd := Fd q fl]> (ps_fd_table ps)) ps))) ->
  wp (find_slot n p i q fl) Q (pheld s p ps).
Proof using Hok Hp.
  intros Hn Hi Hmax Hbefore Hfull Hfree. revert i Hn Hi Hmax Hbefore. induction n as [|n IH]; intros i Hn Hi Hmax Hbefore; simpl.
  { wp_step. apply Hfull. intros j Hj. apply Hbefore. lia. }
  pose proof (fx_proc _ _ _ Hok _ _ Hp) as Hpo. assert (Hfd : 0 <= i < MAX_OPEN_FILES) by lia.
  destruct (table_read _ _ _ _ Hpo Hfd) as (x & Hx & He). wp_step. eapply wp_get_fd_held; [exact Hx|].
  destruct (P !! (p, i)) as [[q' fl']|] eqn:HP; simpl in He.
  - destruct He as [-> Hq']. simpl. destruct (Z.eqb_spec q' NULL); [done|]. apply IH; [lia|lia|lia|].
    intros j Hj. destruct (decide (j = i)) as [->|]; [rewrite HP; by eexists|]. apply Hbefore. lia.
  - rewrite He. change (NULL =? NULL) with true. cbn iota. wp_step. eapply wp_put_fd_held; [by eapply table_write|]. wp_step.
    apply Hfree. split_and!; [lia|lia|done|done].
Qed.

(** A reference of the caller gets a descriptor, or stays with the caller. *)
Lemma wp_fd_alloc (Q : Z -> kst sysproc E -> Prop) min q fl l0 :
  l = q :: l0 -> q <> NULL -> 0 <= min < MAX_OPEN_FILES ->
  (full P p min -> forall s', fds_ok s' P l -> frame s s' -> Q (- EMFILE) s') ->
  (forall fd s', lowest P p min fd -> fds_ok s' (<[(p, fd) := (q, fl)]> P) l0 -> frame s s' -> k_files s' = k_files s -> Q fd s') ->
  wp (fd_alloc p min q fl) Q s.
Proof using Hok Hp.
  intros Hl Hq Hmin Hfull Hfree. pose proof (fx_proc _ _ _ Hok _ _ Hp) as (Hp0 & Hi & _). unfold fd_alloc.
  rewrite bad_fd_false by done. wp_step. eapply wp_pacquire; [done|done|]. wp_step.
  eapply (wp_find_slot _ _ min); [done|lia|lia|intros; lia|..].
  - intros Hf. wp_step. apply wp_prelease. wp_step. change (0 <=? -1) with false. cbn iota.
    apply Hfull; [done|by apply fds_ok_rest|by eapply frame_put_ps].
  - intros fd Hlow. pose proof Hlow as (Hr & HP & _). wp_step. apply wp_prelease. wp_step.
    destruct (Z.leb_spec 0 fd); [|lia]. apply Hfree; [done| |by eapply frame_put_ps|done]. eapply fds_ok_install; [done..|lia].
Qed.

Lemma wp_fd_close (Q : Z -> kst sysproc E -> Prop) fd :
  Z.of_nat (size P) + Z.of_nat (length l) + 1 < 2 ^ 32 ->
  (P !! (p, fd) = None -> forall s', fds_ok s' P l -> frame s s' -> Q (- EBADF) s') ->
  (forall x s', P !! (p, fd) = Some x -> fds_ok s' (delete (p, fd) P) l -> frame s s' -> Q 0 s') ->
  wp (fd_close p fd) Q s.
Proof using H1 Hok Hp.
  intros Hsz Hno Hyes. pose proof (fx_proc _ _ _ Hok _ _ Hp) as Hpo. pose proof Hpo as (Hp0 & Hi & _).
  unfold fd_close. destruct (decide (0 <= fd < MAX_OPEN_FILES)) as [Hfd|Hfd].
  2: { rewrite bad_fd_true by done. wp_step. apply Hno; [|done|reflexivity]. destruct (P !! (p, fd)) eqn:Hx; [|done].
       by destruct (fx_fd _ _ _ Hok _ _ _ Hx). }
  rewrite bad_fd_false by done. wp_step. eapply wp_pacquire; [done|done|]. destruct (table_read _ _ _ _ Hpo Hfd) as (x & Hx & He).
  wp_step. eapply wp_get_fd_held; [exact Hx|]. destruct (P !! (p, fd)) as [[q fl]|] eqn:HP; simpl in He.
  - destruct He as [-> Hq]. simpl. destruct (Z.eqb_spec q NULL); [done|]. wp_step.
    eapply wp_put_fd_held; [by eapply table_write|]. wp_step. apply wp_prelease.
    eapply wp_undup; [by eapply fds_ok_remove| |].
    { rewrite map_size_delete, HP. lia. }
    intros s' Hok' Hfr. eapply Hyes; [done|done|]. etrans; [|exact Hfr]. by eapply frame_put_ps.
  - rewrite He. change (NULL =? NULL) with true. cbn iota. wp_step. apply wp_prelease. wp_step.
    apply Hno; [done|by apply fds_ok_rest|by eapply frame_put_ps].
Qed.
End calls.

Lemma frame_proc s s' p ps : frame s s' -> procs (k_obj s) !! p = Some ps -> is_Some (procs (k_obj s') !! p).
Proof. intros (_ & _ & Hf) Hp. apply Hf. by eexists. Qed.

(** [vfs_file_dup] and [fd_alloc], with [vfs_close] when there is no number. *)
Lemma wp_dup_to (Q : Z -> kst sysproc E -> Prop) s P p ps q min fl k fl0 :
  fds_ok s P [] -> procs (k_obj s) !! p = Some ps -> P !! k = Some (q, fl0) -> q <> NULL -> Z.of_nat (size P) + 3 < 2 ^ 32 ->
  0 <= min < MAX_OPEN_FILES ->
  (forall rc s' P', gets_fd P p min q fl rc P' -> fds_ok s' P' [] -> frame s s' -> Q rc s') ->
  wp (dup_to p q min fl) Q s.
Proof.
  intros Hok Hp Hk Hq Hsz Hmin HQ. unfold dup_to. wp_step. eapply wp_dup; [exact Hok|by eapply (fx_open _ _ _ Hok)|simpl; lia|].
  intros s1 Hok1 Hf1. destruct (Z.eqb_spec q NULL); [done|]. destruct (frame_proc _ _ _ _ Hf1 Hp) as [ps1 Hp1]. wp_step.
  eapply (wp_fd_alloc s1 P [q] p ps1 Hok1 Hp1 _ min q fl []); [done|done|done|..].
  - intros Hfull s2 Hok2 Hf2. change (- EMFILE <? 0) with true. cbn iota. wp_step. eapply wp_undup; [exact Hok2|simpl; lia|].
    intros s3 Hok3 Hf3. wp_step. eapply (HQ _ _ P); [by right|done|]. by do 2 (etrans; [eassumption|]).
  - intros fd s2 Hlow Hok2 Hf2 _. pose proof Hlow as (Hr & _). destruct (Z.ltb_spec fd 0); [lia|]. wp_step.
    eapply (HQ _ _ (<[(p, fd) := (q, fl)]> P)); [by left|done|]. by etrans.
Qed.

(** [dup2] over a number that is taken: the reference of the old entry is the
    caller's to close. *)
Lemma fds_ok_swap s P p ps fd q q2 fl2 :
  fds_ok s P [q] -> procs (k_obj s) !! p = Some ps -> P !! (p, fd) = Some (q2, fl2) -> q <> NULL ->
  fds_ok (put_ps p (prested s (ps_set_table (<[Z.to_nat fd := Fd q 0]> (ps_fd_table ps)) ps)) s) (<[(p, fd) := (q, 0)]> P) [q2].
Proof.
  intros Hok Hp HP Hq. destruct (fx_fd _ _ _ Hok _ _ _ HP) as [_ Hfd].
  pose proof (fds_ok_write s P [q] [q2] p ps fd (Fd q 0) Hok Hp Hfd) as Hw. unfold entry_of in Hw. simpl in Hw.
  destruct (Z.eqb_spec q NULL); [done|]. apply Hw.
  - intros q'. change (partial_alter _ (p, fd) P) with (<[(p, fd) := (q, 0)]> P). rewrite !extra_cons.
    rewrite <- (insert_delete_eq P (p, fd)). rewrite uses_insert by apply lookup_delete_eq. rewrite (uses_delete P _ q2 fl2 q' HP). lia.
  - intros y [= <-]. simpl. apply (fx_extra _ _ _ Hok). by apply elem_of_cons; left.
  - intros q' ->%list_elem_of_singleton. by eapply (fx_open _ _ _ Hok).
Qed.

Lemma wp_dup2 (Q : Z -> kst sysproc E -> Prop) s P p ps q b k fl0 :
  fds_ok s P [] -> procs (k_obj s) !! p = Some ps -> P !! k = Some (q, fl0) -> q <> NULL -> Z.of_nat (size P) + 3 < 2 ^ 32 ->
  0 <= b < MAX_OPEN_FILES ->
  (forall s', fds_ok s' (<[(p, b) := (q, 0)]> P) [] -> frame s s' -> Q b s') ->
  wp (newfile <- vfs_file_dup q ;;
      if newfile =? NULL then ret (- ENOMEM)
      else
        lock_flags <- spinlock_acquire_irqsave (proc_lock p) ;;
        oldnew <- get_fd p b ;;
        put_fd p b (Fd newfile 0) ;;;
        spinlock_release_irqrestore (proc_lock p) lock_flags ;;;
        (if fd_file oldnew =? NULL then ret tt else _ <- vfs_close (fd_file oldnew) ;; ret tt) ;;;
        ret b) Q s.
Proof.
  intros Hok Hp Hk Hq Hsz Hb HQ. wp_step. eapply wp_dup; [exact Hok|by eapply (fx_open _ _ _ Hok)|simpl; lia|].
  intros s1 Hok1 Hf1. destruct (Z.eqb_spec q NULL); [done|]. destruct (frame_proc _ _ _ _ Hf1 Hp) as [ps1 Hp1].
  pose proof (fx_proc _ _ _ Hok1 _ _ Hp1) as Hpo. pose proof Hpo as (Hp0 & Hi & _).
  wp_step. eapply wp_pacquire; [done|done|]. destruct (table_read _ _ _ _ Hpo Hb) as (x & Hx & He). wp_step.
  eapply wp_get_fd_held; [exact Hx|]. wp_step. eapply wp_put_fd_held; [by eapply table_write|]. wp_step. apply wp_prelease.
  match goal with |- wp _ _ ?s2 => assert (Hf2 : frame s s2) by (etrans; [exact Hf1|by eapply frame_put_ps]) end.
  destruct (P !! (p, b)) as [[q2 fl2]|] eqn:HP; simpl in He.
  - destruct He as [-> Hq2]. simpl. destruct (Z.eqb_spec q2 NULL); [done|]. wp_step. wp_step.
    eapply wp_undup; [by eapply fds_ok_swap| |].
    { rewrite map_size_insert_Some by (by eexists). simpl. lia. }
    intros s3 Hok3 Hf3. wp_step. wp_step. apply HQ; [done|]. by etrans.
  - rewrite He. change (NULL =? NULL) with true. cbn iota. wp_step. wp_step. wp_step. apply HQ; [|done].
    eapply fds_ok_install; [exact Hok1|exact Hp1|done|done|done|done].
Qed.

(** ** Fork and exit *)

Lemma wp_close_all (Q : Z -> kst sysproc E -> Prop) n p : forall i s P ps,
  n = Z.to_nat (MAX_OPEN_FILES - i) -> 0 <= i <= MAX_OPEN_FILES -> fds_ok s P [] -> procs (k_obj s) !! p = Some ps ->
  Z.of_nat (size P) + 1 < 2 ^ 32 -> (forall j, 0 <= j < i -> P !! (p, j) = None) ->
  (forall s' P' ps', fds_ok s' P' [] -> procs (k_obj s') !! p = Some ps' -> frame s s' ->
     P' = filter (fun x => x.1.1 <> p) P -> Q (k_flags s') (pheld s' p ps')) ->
  wp (close_all n p i (k_flags s)) Q (pheld s p ps).
Proof.
  induction n as [|n IH]; intros i s P ps Hn Hi Hok Hp Hsz Hbefore HQ; simpl.
  { wp_step. eapply (HQ _ P); [done|done|reflexivity|]. symmetry. apply map_filter_id. intros [p' fd] x Hx. simpl. intros ->.
    destruct (fx_fd _ _ _ Hok _ _ _ Hx) as [_ Hr]. rewrite Hbefore in Hx by lia. done. }
  pose proof (fx_proc _ _ _ Hok _ _ Hp) as Hpo. pose proof Hpo as (Hp0 & Hil & _). assert (Hfd : 0 <= i < MAX_OPEN_FILES) by lia.
  destruct (table_read _ _ _ _ Hpo Hfd) as (x & Hx & He). wp_step. eapply wp_get_fd_held; [exact Hx|]. wp_step.
  destruct (P !! (p, i)) as [[q fl]|] eqn:HP; simpl in He.
  - destruct He as [-> Hq]. simpl. destruct (Z.eqb_spec q NULL); [done|]. wp_step.
    eapply wp_put_fd_held; [by eapply table_write|]. wp_step. apply wp_prelease. wp_step.
    eapply wp_undup; [by eapply fds_ok_remove| |].
    { rewrite map_size_delete, HP. simpl. lia. }
    intros s1 Hok1 Hf1. assert (Hf : frame s s1) by (etrans; [by eapply frame_put_ps|exact Hf1]).
    destruct (frame_proc _ _ _ _ Hf Hp) as [ps1 Hp1]. pose proof (fx_proc _ _ _ Hok1 _ _ Hp1) as (_ & Hi1 & _).
    eapply wp_pacquire; [exact Hp1|exact Hi1|]. eapply (IH _ _ (delete (p, i) P)); [lia|lia|done|done| | |].
    + rewrite map_size_delete, HP. lia.
    + intros j Hj. destruct (decide (j = i)) as [->|]; [apply lookup_delete_eq|]. rewrite lookup_delete_ne by congruence.
      apply Hbefore. lia.
    + intros s' P' ps' Hok' Hp' Hf' ->. eapply HQ; [exact Hok'|done|by etrans|]. apply map_eq. intros [p' fd].
      apply option_eq. intros y. rewrite !map_lookup_filter_Some. rewrite lookup_delete_Some. simpl. naive_solver.
  - rewrite He. change (NULL =? NULL) with true. cbn iota. wp_step. eapply (IH _ s P); [lia|lia|done|done|done| |done].
    intros j Hj. destruct (decide (j = i)) as [->|]; [done|]. apply Hbefore. lia.
Qed.

(** Exit closes the descriptors of the process and no others. *)
Lemma wp_exit_files (Q : unit -> kst sysproc E -> Prop) s P p ps :
  fds_ok s P [] -> procs (k_obj s) !! p = Some ps -> Z.of_nat (size P) + 1 < 2 ^ 32 ->
  (forall s', fds_ok s' (filter (fun x => x.1.1 <> p) P) [] -> frame s s' -> Q tt s') ->
  wp (exit_files p) Q s.
Proof.
  intros Hok Hp Hsz HQ. pose proof (fx_proc _ _ _ Hok _ _ Hp) as (Hp0 & Hi & _). unfold exit_files.
  wp_step. eapply wp_pacquire; [done|done|]. wp_step. eapply (wp_close_all _ _ _ 0 s P); [done|done|done|done|done|intros; lia|].
  intros s' P' ps' Hok' Hp' Hf ->. apply wp_prelease. apply HQ; [by apply fds_ok_rest|]. etrans; [exact Hf|by eapply frame_put_ps].
Qed.

(** The table of [c] becomes that of [p]. *)
Definition forked P p (c i : Z) P' : Prop :=
  forall p' fd, P' !! (p', fd) = if bool_decide (p' = c /\ i <= fd) then P !! (p, fd) else P !! (p', fd).

Lemma forked_step P p c i x P' :
  c <> p -> P !! (p, i) = entry_of x -> forked (partial_alter (fun _ => entry_of x) (c, i) P) p c (i + 1) P' -> forked P p c i P'.
Proof.
  intros Hne Hx Hf p' fd. rewrite Hf. rewrite (lookup_partial_alter_ne _ _ (c, i) (p, fd)) by congruence.
  destruct (decide ((c, i) = (p', fd))) as [[= <- <-]|Hk].
  - rewrite lookup_partial_alter_eq. rewrite (bool_decide_eq_true_2 (c = c /\ i <= i)) by lia. by rewrite bool_decide_eq_false_2 by lia.
  - rewrite lookup_partial_alter_ne by done. destruct (decide (p' = c)) as [->|]; [|by rewrite !bool_decide_eq_false_2 by tauto].
    assert (fd <> i) by congruence. destruct (decide (i <= fd)); [rewrite !bool_decide_eq_true_2 by lia|rewrite !bool_decide_eq_false_2 by lia]; done.
Qed.

Lemma wp_put_fd_other (Q : unit -> kst sysproc E -> Prop) p ps c cs s fd x t :
  c <> p -> procs (k_obj s) !! c = Some cs -> awrite (ps_fd_table cs) fd x = Ok t ->
  Q tt (pheld (put_ps c (ps_set_table t cs) s) p ps) -> wp (put_fd c fd x) Q (pheld s p ps).
Proof.
  intros Hne Hc Hx HQ. unfold put_fd, upd_sys_process, the_sys_process, obj, upd. wp_step. wp_step. wp_step. simpl.
  rewrite lookup_insert_ne, Hc by done. wp_step. wp_step. eapply wp_lift; [exact Hx|]. wp_step. wp_step. wp_step. simpl.
  rewrite lookup_insert_ne, Hc by done. wp_step. wp_step. revert HQ. unfold pheld, set_obj, put_process. simpl.
  by rewrite (insert_insert_ne _ p c) by done.
Qed.

(** A descriptor of the parent, copied to a free one of the child. *)
Lemma fds_ok_copy lk s P c cs i q fl f :
  sl_locked lk = 0 -> fds_ok s P [] -> procs (k_obj s) !! c = Some cs -> 0 <= i < MAX_OPEN_FILES -> P !! (c, i) = None ->
  q <> NULL -> k_files s !! q = Some f -> Z.of_nat (size P) + 1 < 2 ^ 32 ->
  fds_ok (put_file q (f_set_lock lk (f_set_refcount (u32 (f_refcount f + 1)) f))
    (put_ps c (ps_set_table (<[Z.to_nat i := Fd q fl]> (ps_fd_table cs)) cs) s)) (<[(c, i) := (q, fl)]> P) [].
Proof.
  intros Hlk Hok Hc Hi HP Hq Hf Hsz. pose proof (fx_proc _ _ _ Hok _ _ Hc) as (_ & Hic & _).
  pose proof (fds_ok_dup lk s P [] q f Hlk Hok Hf) as Hok1. simpl in Hok1. specialize (Hok1 ltac:(lia)).
  pose proof (fds_ok_write_lock (ps_lock cs) _ P [q] [] c cs i (Fd q fl) Hic Hok1 Hc Hi) as Hw. unfold entry_of in Hw. simpl in Hw.
  destruct (Z.eqb_spec q NULL); [done|]. destruct cs as [cl cpid cpp cvm ct]. apply Hw.
  - intros q'. change (partial_alter _ (c, i) P) with (<[(c, i) := (q, fl)]> P). rewrite uses_insert, extra_cons by done. lia.
  - intros y [= <-]. simpl. rewrite lookup_insert_eq. by eexists.
  - by intros q' ?%elem_of_nil.
Qed.

Lemma fds_ok_copy_none s P c cs i x :
  fds_ok s P [] -> procs (k_obj s) !! c = Some cs -> 0 <= i < MAX_OPEN_FILES -> P !! (c, i) = None -> fd_file x = NULL ->
  fds_ok (put_ps c (ps_set_table (<[Z.to_nat i := x]> (ps_fd_table cs)) cs) s) P [].
Proof.
  intros Hok Hc Hi HP Hx. pose proof (fx_proc _ _ _ Hok _ _ Hc) as (_ & Hic & _).
  pose proof (fds_ok_write_lock (ps_lock cs) _ P [] [] c cs i x Hic Hok Hc Hi) as Hw. unfold entry_of in Hw. rewrite Hx in Hw.
  change (NULL =? NULL) with true in Hw. change (partial_alter _ (c, i) P) with (delete (c, i) P) in Hw. simpl in Hw.
  rewrite delete_id in Hw by done. destruct cs as [cl cpid cpp cvm ct]. apply Hw; [done|done|]. by intros q' ?%elem_of_nil.
Qed.

Lemma wp_fork_fds (Q : unit -> kst sysproc E -> Prop) n p ps c : forall i s P,
  n = Z.to_nat (MAX_OPEN_FILES - i) -> 0 <= i <= MAX_OPEN_FILES -> fds_ok s P [] -> procs (k_obj s) !! p = Some ps -> c <> p ->
  is_Some (procs (k_obj s) !! c) -> Z.of_nat (size P) + Z.of_nat n + 1 < 2 ^ 32 -> (forall fd, i <= fd -> P !! (c, fd) = None) ->
  (forall s' P', fds_ok s' P' [] -> procs (k_obj s') !! p = Some ps -> frame s s' -> forked P p c i P' ->
     Z.of_nat (size P') <= Z.of_nat (size P) + Z.of_nat n -> Q tt (pheld s' p ps)) ->
  wp (fork_fds n p c i) Q (pheld s p ps).
Proof.
  induction n as [|n IH]; intros i s P Hn Hi Hok Hp Hne Hcs Hsz Hfree HQ; simpl.
  { wp_step. eapply (HQ _ P); [done|done|reflexivity| |lia]. intros p' fd. case_bool_decide as Hc; [|done]. destruct Hc as [-> Hfd].
    rewrite Hfree by done. destruct (P !! (p, fd)) eqn:Hx; [|done]. destruct (fx_fd _ _ _ Hok _ _ _ Hx). lia. }
  pose proof (fx_proc _ _ _ Hok _ _ Hp) as Hpo. pose proof Hpo as (Hp0 & Hil & _). assert (Hfd : 0 <= i < MAX_OPEN_FILES) by lia.
  destruct Hcs as [cs Hc]. destruct (table_read _ _ _ _ Hpo Hfd) as (x & Hx & He). wp_step. eapply wp_get_fd_held; [exact Hx|].
  wp_step. eapply wp_put_fd_other; [done|exact Hc|eapply table_write; [by eapply (fx_proc _ _ _ Hok)|done]|]. wp_step.
  pose proof (entry_of_is _ _ He) as Heq. destruct (P !! (p, i)) as [[q fl]|] eqn:HP; simpl in He.
  - destruct He as [-> Hq]. simpl. destruct (Z.eqb_spec q NULL); [done|]. destruct (fx_open _ _ _ Hok _ _ _ HP) as [f Hf].
    pose proof (fx_file _ _ _ Hok _ _ Hf) as (_ & Hif & _). wp_step. eapply wp_facquire; [by split|]. wp_step.
    apply wp_upd_file_held; [done|]. apply wp_frelease.
    set (s1 := put_file q (f_set_lock (rest_lock (no_irq (k_flags s))) (f_set_refcount (u32 (f_refcount f + 1)) f))
      (put_ps c (ps_set_table (<[Z.to_nat i := Fd q fl]> (ps_fd_table cs)) cs) s)).
    change (wp (fork_fds n p c (i + 1)) Q (pheld s1 p ps)). apply (IH (i + 1) s1 (<[(c, i) := (q, fl)]> P)); try done.
    + lia.
    + lia.
    + apply fds_ok_copy; try done; [by apply Hfree|lia].
    + simpl. by rewrite lookup_insert_ne.
    + simpl. rewrite lookup_insert_eq. by eexists.
    + rewrite map_size_insert_None by (apply Hfree; lia). lia.
    + intros fd' Hfd'. rewrite lookup_insert_ne by (intros [= ?]; lia). apply Hfree. lia.
    + intros s' P' Hok' Hp' Hfr Hfk Hs'. eapply (HQ _ P'); [done|done| | |].
      * etrans; [by eapply (frame_put_ps s c cs)|exact Hfr].
      * eapply (forked_step _ _ _ _ (Fd q fl)); [done|by rewrite HP|]. by rewrite Heq.
      * rewrite map_size_insert_None in Hs' by (apply Hfree; lia). lia.
  - rewrite He. change (NULL =? NULL) with true. cbn iota. wp_step.
    apply (IH (i + 1) (put_ps c (ps_set_table (<[Z.to_nat i := x]> (ps_fd_table cs)) cs) s) P); try done.
    + lia.
    + lia.
    + apply fds_ok_copy_none; try done. by apply Hfree.
    + simpl. by rewrite lookup_insert_ne.
    + simpl. rewrite lookup_insert_eq. by eexists.
    + lia.
    + intros fd' Hfd'. apply Hfree. lia.
    + intros s' P' Hok' Hp' Hfr Hfk Hs'. eapply (HQ _ P'); [done|done|etrans; [by eapply (frame_put_ps s c cs)|exact Hfr]| |lia].
      eapply (forked_step _ _ _ _ x); [done|by rewrite HP|]. rewrite Heq. change (partial_alter _ (c, i) P) with (delete (c, i) P).
      rewrite delete_id; [done|by apply Hfree].
Qed.

Context `{UserMemory E} `{Console E} `{PathCalls E}.

Definition run_fdop (op : fdop) : M (kst sysproc E) Z :=
  match op with
  | OClose fd => sys_close fd
  | ODup fd => sys_dup fd
  | ODup2 a b => sys_dup2 a b
  | ODupfd fd min cloexec => sys_fcntl fd (if cloexec then F_DUPFD_CLOEXEC else F_DUPFD) min
  | OGetfd fd => sys_fcntl fd F_GETFD 0
  | OSetfd fd arg => sys_fcntl fd F_SETFD arg
  end.

Lemma valid_fd_spec fd : reflect (0 <= fd < MAX_OPEN_FILES) (valid_fd fd).
Proof. apply iff_reflect. unfold valid_fd. by rewrite andb_true_iff, Z.leb_le, Z.ltb_lt. Qed.

Lemma invalid_fd fd : (fd <? 0) || (MAX_OPEN_FILES <=? fd) = negb (valid_fd fd).
Proof. unfold valid_fd. destruct (Z.ltb_spec fd 0), (Z.leb_spec MAX_OPEN_FILES fd), (Z.leb_spec 0 fd), (Z.ltb_spec fd MAX_OPEN_FILES); simpl; lia. Qed.

(** A call of a process [p] that is in the table. *)
Section call.
Context (s : kst sysproc E) (P : fdmap) (p : Z) (ps : sys_process) (Q : Z -> kst sysproc E -> Prop).
Context (Hok : fds_ok s P []) (Hcur : curproc (k_obj s) = p) (Hp : procs (k_obj s) !! p = Some ps).
Context (Hsz : Z.of_nat (size P) + 3 < 2 ^ 32).

Lemma wp_with_proc (f : Z -> M (kst sysproc E) Z) : wp (f p) Q s -> wp (with_proc f) Q s.
Proof using Hok Hcur Hp.
  intros Hf. pose proof (fx_proc _ _ _ Hok _ _ Hp) as (Hp0 & _). unfold with_proc, obj. wp_step. wp_step. rewrite Hcur.
  by destruct (Z.eqb_spec p NULL).
Qed.

Lemma wp_with_file fd (f : Z -> M (kst sysproc E) Z) :
  (P !! (p, fd) = None -> forall s', fds_ok s' P [] -> frame s s' -> Q (- EBADF) s') ->
  (forall q fl s' ps', P !! (p, fd) = Some (q, fl) -> q <> NULL -> fds_ok s' P [] -> frame s s' ->
     procs (k_obj s') !! p = Some ps' -> wp (f q) Q s') ->
  wp (with_file p fd f) Q s.
Proof using Hok Hp.
  intros Hno Hyes. unfold with_file. wp_step. eapply wp_getfile; [exact Hok|exact Hp|..].
  - intros HP s' Hok' Hfr. change (NULL =? NULL) with true. cbn iota. wp_step. by apply Hno.
  - intros q fl s' HP Hq Hok' Hfr. destruct (Z.eqb_spec q NULL); [done|]. destruct (frame_proc _ _ _ _ Hfr Hp) as [ps' Hp'].
    by eapply Hyes.
Qed.

Lemma no_fd fd : valid_fd fd = false -> P !! (p, fd) = None.
Proof using Hok.
  intros Hv. destruct (P !! (p, fd)) eqn:Hx; [|done]. destruct (fx_fd _ _ _ Hok _ _ _ Hx) as [_ Hr].
  by destruct (valid_fd_spec fd).
Qed.

Lemma wp_sys_dup fd :
  (forall rc s' P', fd_spec P p (ODup fd) rc P' -> fds_ok s' P' [] -> frame s s' -> Q rc s') -> wp (sys_dup fd) Q s.
Proof using H1 Hcur Hok Hp Hsz.
  intros HQ. apply wp_with_proc, wp_with_file.
  - intros HP s' Hok' Hfr. eapply (HQ _ _ P); [|done|done]. simpl. by rewrite HP.
  - intros q fl s1 ps1 HP Hq Hok1 Hf1 Hp1. eapply wp_dup_to; [exact Hok1|exact Hp1|exact HP|done|done|done|].
    intros rc s2 P' Hg Hok2 Hf2. eapply HQ; [|exact Hok2|by etrans]. simpl. by rewrite HP.
Qed.

Lemma wp_sys_dup2 a b :
  (forall rc s' P', fd_spec P p (ODup2 a b) rc P' -> fds_ok s' P' [] -> frame s s' -> Q rc s') -> wp (sys_dup2 a b) Q s.
Proof using H1 Hcur Hok Hp Hsz.
  intros HQ. apply wp_with_proc. rewrite !invalid_fd. simpl in HQ. destruct (valid_fd a) eqn:Ha; cbn [negb].
  2: { wp_step. eapply (HQ _ _ P); [|done|reflexivity]. rewrite (no_fd _ Ha). by destruct (negb (valid_fd b)). }
  destruct (valid_fd_spec b) as [Hb|Hb]; cbn [negb] in *; [|wp_step; by eapply (HQ _ _ P)].
  destruct (Z.eqb_spec a b) as [Heq|Hne].
  - subst b. wp_step. eapply wp_getfile; [exact Hok|exact Hp|..].
    + intros HP s' Hok' Hfr. wp_step. eapply (HQ _ _ P); [|done|done]. by rewrite HP.
    + intros q fl s' HP Hq Hok' Hfr. wp_step. destruct (Z.eqb_spec q NULL); [done|]. eapply (HQ _ _ P); [|done|done]. by rewrite HP.
  - apply wp_with_file.
    + intros HP s' Hok' Hfr. eapply (HQ _ _ P); [|done|done]. by rewrite HP.
    + intros q fl s1 ps1 HP Hq Hok1 Hf1 Hp1. eapply wp_dup2; [exact Hok1|exact Hp1|exact HP|done|done|done|].
      intros s2 Hok2 Hf2. eapply HQ; [|exact Hok2|by etrans]. by rewrite HP.
Qed.

Lemma wp_sys_dupfd fd min cloexec :
  (forall rc s' P', fd_spec P p (ODupfd fd min cloexec) rc P' -> fds_ok s' P' [] -> frame s s' -> Q rc s') ->
  wp (sys_fcntl fd (if cloexec then F_DUPFD_CLOEXEC else F_DUPFD) min) Q s.
Proof using H1 Hcur Hok Hp Hsz.
  intros HQ. simpl in HQ. apply wp_with_proc. rewrite !invalid_fd. destruct (valid_fd fd) eqn:Hv; cbn [negb] in *.
  2: { wp_step. by eapply (HQ _ _ P). }
  replace (_ || _) with true by (by destruct cloexec). cbn iota zeta. rewrite invalid_fd.
  destruct (valid_fd_spec (s32 min)) as [Hm|Hm]; cbn [negb] in *; [|wp_step; by eapply (HQ _ _ P)].
  apply wp_with_file.
  - intros HP s' Hok' Hfr. eapply (HQ _ _ P); [|done|done]. by rewrite HP.
  - intros q fl s1 ps1 HP Hq Hok1 Hf1 Hp1. eapply wp_dup_to; [exact Hok1|exact Hp1|exact HP|done|done|done|].
    intros rc s2 P' Hg Hok2 Hf2. eapply HQ; [|exact Hok2|by etrans]. rewrite HP. by destruct cloexec.
Qed.

Lemma wp_fdop op :
  (forall rc s' P', fd_spec P p op rc P' -> fds_ok s' P' [] -> frame s s' -> Q rc s') -> wp (run_fdop op) Q s.
Proof using H1 Hcur Hok Hp Hsz.
  intros HQ. destruct op as [fd|fd|a b|fd min cloexec|fd|fd arg]; simpl run_fdop.
  - simpl in HQ. apply wp_with_proc. eapply wp_fd_close; [exact Hok|exact Hp|simpl; lia|..].
    + intros HP s' Hok' Hfr. eapply (HQ _ _ P); [|done|done]. by rewrite HP.
    + intros x s' HP Hok' Hfr. eapply HQ; [|exact Hok'|done]. by rewrite HP.
  - by apply wp_sys_dup.
  - by apply wp_sys_dup2.
  - by apply wp_sys_dupfd.
  - simpl in HQ. apply wp_with_proc. rewrite !invalid_fd. destruct (valid_fd fd) eqn:Hv; cbn [negb].
    2: { wp_step. eapply (HQ _ _ P); [|done|reflexivity]. by rewrite (no_fd _ Hv). }
    change ((F_GETFD =? F_DUPFD) || (F_GETFD =? F_DUPFD_CLOEXEC)) with false. change (F_GETFD =? F_GETFD) with true. cbn iota.
    eapply wp_getflags; [exact Hok|exact Hp|]. intros s' Hok' Hfr. by eapply (HQ _ _ P).
  - simpl in HQ. apply wp_with_proc. rewrite !invalid_fd. destruct (valid_fd fd) eqn:Hv; cbn [negb].
    2: { wp_step. eapply (HQ _ _ P); [|done|reflexivity]. by rewrite (no_fd _ Hv). }
    change ((F_SETFD =? F_DUPFD) || (F_SETFD =? F_DUPFD_CLOEXEC)) with false. change (F_SETFD =? F_GETFD) with false.
    change (F_SETFD =? F_SETFD) with true. cbn iota. eapply wp_setflags; [exact Hok|exact Hp|..].
    + intros HP s' Hok' Hfr. eapply (HQ _ _ P); [|done|done]. by rewrite HP.
    + intros q fl s' HP Hok' Hfr. eapply HQ; [|exact Hok'|done]. by rewrite HP.
Qed.
End call.

(** ** Strings of the user *)

(** The process that runs has an address space. *)
Definition in_user s : Prop :=
  exists ps, curproc (k_obj s) <> NULL /\ procs (k_obj s) !! curproc (k_obj s) = Some ps /\ ps_vmspace ps <> NULL.

(** [n] bytes from [a] on: those that the checks look at are mapped. *)
Definition checked (e : E) (a n : Z) : Prop :=
  forall k, 0 <= k < n -> k mod PAGE_SIZE = 0 -> is_user_address (a + k) = true /\ um_phys (a + k) e <> 0.

(** The bytes [str], none of them null, and what is read after them. *)
Definition bytes_at (e : E) (a : Z) (str : list Z) : Prop :=
  forall i c, str !! i = Some c -> c <> 0 /\ um_load (a + Z.of_nat i) e = Some c.

Lemma bytes_at_cons e a c str :
  bytes_at e a (c :: str) -> c <> 0 /\ um_load a e = Some c /\ bytes_at e (a + 1) str.
Proof.
  intros Hb. destruct (Hb 0%nat c eq_refl) as [Hc Ha]. rewrite Z.add_0_r in Ha. split_and!; [done|done|].
  intros i d Hd. destruct (Hb (S i) d Hd) as [Hnz Hl]. split; [done|]. by replace (a + 1 + Z.of_nat i) with (a + Z.of_nat (S i)) by lia.
Qed.

Lemma wp_has_space (Q : bool -> kst sysproc E -> Prop) s : in_user s -> Q true s -> wp has_space Q s.
Proof.
  intros (ps & Hc & Hp & Hv) HQ. unfold has_space, the_sys_process, obj. wp_step. wp_step. destruct (Z.eqb_spec (curproc (k_obj s)) NULL); [done|].
  wp_step. wp_step. wp_step. rewrite Hp. wp_step. wp_step. by destruct (Z.eqb_spec (ps_vmspace ps) NULL).
Qed.

Lemma wp_is_user_mapped (Q : bool -> kst sysproc E -> Prop) s a :
  in_user s -> is_user_address a = true -> Q (negb (um_phys a (k_env s) =? 0)) s -> wp (is_user_mapped a) Q s.
Proof.
  intros Hu Ha HQ. unfold is_user_mapped. wp_step. apply wp_has_space; [done|]. cbn [negb]. rewrite Ha. cbn [negb]. wp_step. wp_step. by wp_step.
Qed.

(** The check at the start of a round of the loops. *)
Lemma wp_round_check (Q : bool -> kst sysproc E -> Prop) s a k n :
  in_user s -> checked (k_env s) a n -> 0 <= k < n -> Q true s ->
  wp (if k mod PAGE_SIZE =? 0 then is_user_mapped (a + k) else ret true) Q s.
Proof.
  intros Hu Hc Hk HQ. destruct (Z.eqb_spec (k mod PAGE_SIZE) 0) as [Hm|Hm]; [|by wp_step].
  destruct (Hc k Hk Hm) as [Ha Hp]. apply wp_is_user_mapped; [done|done|]. by destruct (Z.eqb_spec (um_phys (a + k) (k_env s)) 0).
Qed.

Lemma wp_user_byte (Q : Z -> kst sysproc E -> Prop) s a c : um_load a (k_env s) = Some c -> Q c s -> wp (user_byte a) Q s.
Proof. intros Hl HQ. unfold user_byte. wp_step. wp_step. by rewrite Hl. Qed.

Lemma run_user_byte s a : user_byte a s = match um_load a (k_env s) with Some c => Ok (c, s) | None => Fault F_oob end.
Proof. unfold user_byte, bind, gets. by destruct (um_load a (k_env s)). Qed.

Section strings.
Context (s : kst sysproc E) (a m : Z).
Context (Hu : in_user s) (Hc : checked (k_env s) a m).

Lemma wp_copy_string (Q : Z * list Z -> kst sysproc E -> Prop) n : forall k dst str,
  0 <= k -> bytes_at (k_env s) (a + k) str ->
  (if (length str <? n)%nat then m = k + Z.of_nat (length str) + 1 /\ um_load (a + k + Z.of_nat (length str)) (k_env s) = Some 0
   else m = k + Z.of_nat n) ->
  Q (if (length str <? n)%nat then (0, dst ++ str) else (- ENAMETOOLONG, dst ++ take n str)) s ->
  wp (copy_string n a k dst) Q s.
Proof using Hu Hc.
  induction n as [|n IH]; intros k dst str Hk Hb Hm HQ.
  { simpl in *. wp_step. by rewrite take_0, app_nil_r in HQ. }
  simpl copy_string. destruct str as [|c str].
  - change (length [] <? S n)%nat with true in *. destruct Hm as [Hm Hz]. simpl in Hm, Hz. rewrite Z.add_0_r in Hz. wp_step.
    eapply wp_round_check; [done|exact Hc|lia|]. cbn [negb]. wp_step. eapply wp_user_byte; [exact Hz|].
    change (0 =? 0) with true. cbn iota. wp_step. by rewrite app_nil_r in HQ.
  - apply bytes_at_cons in Hb as (Hnz & Hl & Hb). change (length (c :: str) <? S n)%nat with (length str <? n)%nat in *. wp_step.
    eapply wp_round_check; [done|exact Hc| |].
    { destruct (length str <? n)%nat; simpl in Hm; lia. }
    cbn [negb]. wp_step. eapply wp_user_byte; [exact Hl|]. destruct (Z.eqb_spec c 0); [done|].
    apply (IH (k + 1) (dst ++ [c]) str); [lia|by replace (a + (k + 1)) with (a + k + 1) by lia| |].
    + destruct (length str <? n)%nat; simpl in Hm; [|lia]. destruct Hm as [Hm Hz]. split; [lia|].
      by replace (a + (k + 1) + Z.of_nat (length str)) with (a + k + Z.of_nat (S (length str))) by lia.
    + destruct (length str <? n)%nat; simpl in HQ; by rewrite <- app_assoc.
Qed.

Lemma wp_string_length (Q : Z -> kst sysproc E -> Prop) n : forall k str,
  0 <= k -> bytes_at (k_env s) (a + k) str ->
  (if (length str <? n)%nat then m = k + Z.of_nat (length str) + 1 /\ um_load (a + k + Z.of_nat (length str)) (k_env s) = Some 0
   else m = k + Z.of_nat n) ->
  Q (if (length str <? n)%nat then k + Z.of_nat (length str) else - ENAMETOOLONG) s ->
  wp (string_length n a k) Q s.
Proof using Hu Hc.
  induction n as [|n IH]; intros k str Hk Hb Hm HQ; [simpl in *; by wp_step|].
  simpl string_length. destruct str as [|c str].
  - change (length [] <? S n)%nat with true in *. destruct Hm as [Hm Hz]. simpl in Hm, Hz, HQ. rewrite Z.add_0_r in Hz, HQ. wp_step.
    eapply wp_round_check; [done|exact Hc|lia|]. cbn [negb]. wp_step. eapply wp_user_byte; [exact Hz|].
    change (0 =? 0) with true. cbn iota. by wp_step.
  - apply bytes_at_cons in Hb as (Hnz & Hl & Hb). change (length (c :: str) <? S n)%nat with (length str <? n)%nat in *. wp_step.
    eapply wp_round_check; [done|exact Hc| |].
    { destruct (length str <? n)%nat; simpl in Hm; lia. }
    cbn [negb]. wp_step. eapply wp_user_byte; [exact Hl|]. destruct (Z.eqb_spec c 0); [done|].
    apply (IH (k + 1) str); [lia|by replace (a + (k + 1)) with (a + k + 1) by lia| |].
    + destruct (length str <? n)%nat; simpl in Hm; [|lia]. destruct Hm as [Hm Hz]. split; [lia|].
      by replace (a + (k + 1) + Z.of_nat (length str)) with (a + k + Z.of_nat (S (length str))) by lia.
    + revert HQ. simpl length. destruct (length str <? n)%nat; [|done]. by replace (k + 1 + Z.of_nat (length str)) with (k + Z.of_nat (S (length str))) by lia.
Qed.
End strings.

(** A null-terminated string at [a], and how many of its bytes are looked at. *)
Definition string_at (e : E) (a : Z) (str : list Z) : Prop :=
  bytes_at e a str /\ um_load (a + Z.of_nat (length str)) e = Some 0 /\ checked e a (Z.min VFS_MAX_PATH (Z.of_nat (length str) + 1)).

Definition arg_of (empty : Z) (str : list Z) : Z + list Z :=
  if VFS_MAX_PATH <=? Z.of_nat (length str) then inl (- ENAMETOOLONG) else if Z.of_nat (length str) =? 0 then inl empty else inr str.

Lemma wp_path_arg (Q : Z + list Z -> kst sysproc E -> Prop) s empty a str :
  in_user s -> string_at (k_env s) a str -> Q (arg_of empty str) s -> wp (path_arg empty a) Q s.
Proof.
  intros Hu (Hb & Hz & Hc) HQ. unfold path_arg, validate_user_string.
  assert (Ha : is_user_address a = true).
  { destruct (Hc 0) as [Ha _]; [unfold VFS_MAX_PATH; lia|done|]. by rewrite Z.add_0_r in Ha. }
  assert (Hlt : (length str <? Z.to_nat VFS_MAX_PATH)%nat = negb (VFS_MAX_PATH <=? Z.of_nat (length str))).
  { unfold VFS_MAX_PATH. destruct (Nat.ltb_spec (length str) (Z.to_nat 4096)), (Z.leb_spec 4096 (Z.of_nat (length str))); try done; exfalso; lia. }
  assert (Hm : if (length str <? Z.to_nat VFS_MAX_PATH)%nat
    then Z.min VFS_MAX_PATH (Z.of_nat (length str) + 1) = 0 + Z.of_nat (length str) + 1 /\ um_load (a + 0 + Z.of_nat (length str)) (k_env s) = Some 0
    else Z.min VFS_MAX_PATH (Z.of_nat (length str) + 1) = 0 + Z.of_nat (Z.to_nat VFS_MAX_PATH)).
  { rewrite Hlt, Z.add_0_r. unfold VFS_MAX_PATH. destruct (Z.leb_spec 4096 (Z.of_nat (length str))); simpl; [lia|split; [lia|done]]. }
  rewrite Ha. cbn [negb]. wp_step. wp_step. apply wp_has_space; [done|]. cbn [negb].
  eapply (wp_string_length s a _ Hu Hc _ _ 0 str); [done|by rewrite Z.add_0_r|exact Hm|]. revert HQ. unfold arg_of. rewrite Hlt.
  destruct (Z.leb_spec VFS_MAX_PATH (Z.of_nat (length str))); cbn [negb]; intros HQ; [by apply wp_ret|].
  rewrite Z.add_0_l. destruct (Z.ltb_spec (Z.of_nat (length str)) 0); [lia|]. destruct (Z.eqb_spec (Z.of_nat (length str)) 0); [by wp_step|].
  wp_step. unfold copyinstr. change (VFS_MAX_PATH =? 0) with false. rewrite Ha. cbn [negb]. wp_step. apply wp_has_space; [done|].
  cbn [negb]. eapply (wp_copy_string s a _ Hu Hc _ _ 0 [] str); [done|by rewrite Z.add_0_r|exact Hm|]. rewrite Hlt.
  destruct (Z.leb_spec VFS_MAX_PATH (Z.of_nat (length str))); [lia|]. cbn [negb]. change (0 <? 0) with false. by apply wp_ret.
Qed.

(** ** Opening *)

(** A new open file is a reference of the caller. *)
Lemma fds_ok_new s P q f e :
  fds_ok s P [] -> q <> NULL -> k_files s !! q = None -> sl_locked (f_lock f) = 0 -> f_refcount f = 1 ->
  fds_ok (set_files (<[q := f]> (k_files s)) (set_env e s)) P [q].
Proof.
  intros [H1' H2' H3' H4' H5'] Hq Hnew Hl Hr. split; simpl; try done.
  - intros q' f'. rewrite lookup_insert_Some. unfold file_ok. rewrite extra_cons. intros [[<- <-]|[Hne Hf']].
    + rewrite Z.eqb_refl, uses_none; [by split_and!|]. intros k fl Hk. destruct (H4' _ _ _ Hk). congruence.
    + destruct (Z.eqb_spec q q'); [done|]. destruct (H3' _ _ Hf') as (? & ? & ? & ?). by split_and!.
  - intros k q' fl Hk. rewrite lookup_insert_is_Some'. right. by eapply H4'.
  - intros q' ->%list_elem_of_singleton. rewrite lookup_insert_eq. by eexists.
Qed.

Definition opens s P p (v flags rc : Z) s' P' : Prop :=
  let q := fresh_addr (k_files s) in
  gets_fd P p 3 q (if has_flag flags O_CLOEXEC then FD_CLOEXEC else 0) rc P' /\
  (rc <> - EMFILE -> k_files s' !! q = Some (File v 0 flags 1 spinlock_init)).

Lemma wp_vfs_open_existing (Q : Z * Z -> kst sysproc E -> Prop) s path flags mode v e1 b e2 :
  vl_lookup path (k_env s) = Ok ((0, v), e1) -> kmalloc sizeof_vfs_file e1 = (Some b, e2) ->
  has_flag flags VFS_O_CREAT && has_flag flags VFS_O_EXCL = false -> has_flag flags VFS_O_TRUNC = false ->
  (let q := fresh_addr (k_files s) in
   Q (0, q) (set_files (<[q := File v 0 flags 1 spinlock_init]> (k_files s)) (set_env e2 s))) ->
  wp (vfs_open (Some path) flags mode) Q s.
Proof.
  intros Hlook Hk Hex Htr HQ. unfold vfs_open. wp_step. eapply wp_env; [exact Hlook|]. change (0 =? 0) with true. cbn iota.
  rewrite Hex. change (0 =? 0) with true. cbn iota. wp_step. wp_step. wp_step. unfold env_pure. eapply wp_env; [simpl; by rewrite Hk|].
  cbn iota. wp_step. wp_step. wp_step. wp_step. wp_step. rewrite Htr. wp_step. change (negb (0 =? 0)) with false. cbn iota. by wp_step.
Qed.

Lemma wp_sys_open (Q : Z -> kst sysproc E -> Prop) s P p ps path str flags mode v e1 b e2 :
  fds_ok s P [] -> curproc (k_obj s) = p -> procs (k_obj s) !! p = Some ps -> in_user s -> Z.of_nat (size P) + 3 < 2 ^ 32 ->
  string_at (k_env s) path str -> 0 < Z.of_nat (length str) < VFS_MAX_PATH ->
  vl_lookup (string_of str) (k_env s) = Ok ((0, v), e1) -> kmalloc sizeof_vfs_file e1 = (Some b, e2) ->
  has_flag flags VFS_O_CREAT && has_flag flags VFS_O_EXCL = false -> has_flag flags VFS_O_TRUNC = false ->
  (forall rc s' P', opens s P p v flags rc s' P' -> fds_ok s' P' [] -> frame s s' -> Q rc s') ->
  wp (sys_open path flags mode) Q s.
Proof.
  intros Hok Hcur Hp Hu Hsz Hstr Hlen Hlook Hk Hex Htr HQ. eapply wp_with_proc; [exact Hok|exact Hcur|exact Hp|].
  wp_step. eapply wp_path_arg; [exact Hu|exact Hstr|]. unfold arg_of. destruct (Z.leb_spec VFS_MAX_PATH (Z.of_nat (length str))); [lia|].
  destruct (Z.eqb_spec (Z.of_nat (length str)) 0); [lia|]. wp_step. eapply wp_vfs_open_existing; [done..|]. intros q.
  change (negb (0 =? 0)) with false. cbn iota. wp_step.
  assert (Hq : q <> NULL) by (unfold q, NULL; pose proof (fresh_addr_pos (k_files s)); lia).
  eapply (wp_fd_alloc _ P [q] p ps _ _ _ 3 q _ []); [done|done|done|..].
  - intros Hfull s1 Hok1 Hf1. change (- EMFILE <? 0) with true. cbn iota. wp_step. eapply wp_undup; [exact Hok1|simpl; lia|].
    intros s2 Hok2 Hf2. wp_step. eapply HQ; [split; [by right|done]|done|]. etrans; [|exact Hf2]. exact Hf1.
  - intros fd s1 Hlow Hok1 Hf1 Hfiles. pose proof Hlow as (Hr & _). destruct (Z.ltb_spec fd 0); [lia|]. wp_step.
    eapply HQ; [split; [by left|]|exact Hok1|exact Hf1]. intros _. rewrite Hfiles. simpl. by rewrite lookup_insert_eq.
  Unshelve.
  + apply (fds_ok_new s P q _ e2 Hok Hq); [apply fresh_addr_None|done|done].
  + exact Hp.
Qed.

(** ** Sequences of calls *)

Fixpoint run_fdops (ops : list fdop) : M (kst sysproc E) (list Z) :=
  match ops with
  | [] => ret []
  | op :: ops => rc <- run_fdop op ;; rcs <- run_fdops ops ;; ret (rc :: rcs)
  end.

Fixpoint fd_trace P p (ops : list fdop) (rcs : list Z) P' : Prop :=
  match ops, rcs with
  | [], [] => P' = P
  | op :: ops, rc :: rcs => exists P1, fd_spec P p op rc P1 /\ fd_trace P1 p ops rcs P'
  | _, _ => False
  end.

Lemma gets_fd_size P p min q fl rc P' : gets_fd P p min q fl rc P' -> (size P' <= size P + 1)%nat.
Proof. intros [[(_ & HP & _) ->]|(_ & _ & ->)]; [rewrite map_size_insert_None by done|]; lia. Qed.

Lemma fd_spec_size P p op rc P' : fd_spec P p op rc P' -> (size P' <= size P + 1)%nat.
Proof.
  destruct op; simpl; repeat case_match; intros; destruct_and?; subst; eauto using gets_fd_size;
    rewrite ?map_size_delete, ?map_size_insert; repeat case_match; unfold id; lia.
Qed.

Lemma wp_fdops ops : forall (Q : list Z -> kst sysproc E -> Prop) s P p ps,
  fds_ok s P [] -> curproc (k_obj s) = p -> procs (k_obj s) !! p = Some ps ->
  Z.of_nat (size P) + Z.of_nat (length ops) + 3 < 2 ^ 32 ->
  (forall rcs s' P', fd_trace P p ops rcs P' -> fds_ok s' P' [] -> frame s s' -> Q rcs s') -> wp (run_fdops ops) Q s.
Proof.
  induction ops as [|op ops IH]; intros Q s P p ps Hok Hcur Hp Hsz HQ; simpl run_fdops.
  { wp_step. by eapply (HQ _ _ P). }
  wp_step. eapply wp_fdop; [exact Hok|exact Hcur|exact Hp|simpl in Hsz; lia|]. intros rc s1 P1 Hspec Hok1 Hf1.
  pose proof (fd_spec_size _ _ _ _ _ Hspec). destruct (frame_proc _ _ _ _ Hf1 Hp) as [ps1 Hp1]. pose proof Hf1 as (_ & Hcur1 & _).
  wp_step. eapply (IH _ s1 P1 p ps1); [done|congruence|done|simpl in Hsz; lia|]. intros rcs s2 P2 Htr Hok2 Hf2. wp_step.
  eapply (HQ _ _ P2); [|done|by etrans]. simpl. eauto.
Qed.

(** C10: The calls [close], [dup], [dup2] and [fcntl] with [F_DUPFD],
    [F_DUPFD_CLOEXEC], [F_GETFD] and [F_SETFD] refine a finite map from
    processes and numbers to open files and flags: any sequence of them, with
    any arguments, runs to its end, its results and the final map are those of
    the specification (the lowest free number, [EBADF], [EINVAL], [EMFILE]),
    and the count of every open file is again the number of descriptors that
    name it, so that a file is released with its last descriptor and not
    before; no lock stays taken and the interrupt flags are those of the
    caller. *)
Theorem fd_calls_refine s P p ps (ops : list fdop) :
  fds_ok s P [] -> curproc (k_obj s) = p -> procs (k_obj s) !! p = Some ps ->
  Z.of_nat (size P) + Z.of_nat (length ops) + 3 < 2 ^ 32 ->
  exists rcs s' P', run_fdops ops s = Ok (rcs, s') /\ fd_trace P p ops rcs P' /\ fds_ok s' P' [] /\ k_flags s' = k_flags s.
Proof.
  intros Hok Hcur Hp Hsz.
  assert (Hw : wp (run_fdops ops) (fun rcs s' => exists P', fd_trace P p ops rcs P' /\ fds_ok s' P' [] /\ k_flags s' = k_flags s) s).
  { eapply wp_fdops; [done..|]. intros rcs s' P' Htr Hok' (Hfl & _). eauto. }
  apply wp_run in Hw as (rcs & s' & Hrun & P' & ?). by exists rcs, s', P'.
Qed.

Lemma forked_exit P p c P' s : fds_ok s P [] -> (forall fd, P !! (c, fd) = None) -> forked P p c 0 P' ->
  filter (fun x => x.1.1 <> c) P' = P.
Proof.
  intros Hok Hfree Hf. apply map_eq. intros [p' fd]. apply option_eq. intros y. rewrite map_lookup_filter_Some. simpl.
  rewrite Hf. destruct (decide (p' = c)) as [->|].
  - rewrite Hfree. naive_solver.
  - rewrite bool_decide_eq_false_2 by tauto. naive_solver.
Qed.

(** C24: A fork gives the child the descriptors of the parent, each with one
    more reference to its file, and changes no other process; the exit of the
    child gives these references back: the descriptors of all processes are
    those before the fork, and no file that was open is released. *)
Theorem fork_exit_descriptors s P p ps c :
  fds_ok s P [] -> procs (k_obj s) !! p = Some ps -> c <> p -> is_Some (procs (k_obj s) !! c) ->
  (forall fd, P !! (c, fd) = None) -> Z.of_nat (size P) + MAX_OPEN_FILES + 1 < 2 ^ 32 ->
  exists s1 s2 P1,
    (lock_flags <- spinlock_acquire_irqsave (proc_lock p) ;;
     fork_fds (Z.to_nat MAX_OPEN_FILES) p c 0 ;;; spinlock_release_irqrestore (proc_lock p) lock_flags) s = Ok (tt, s1) /\
    fds_ok s1 P1 [] /\
    (forall p' fd, 0 <= fd -> P1 !! (p', fd) = if bool_decide (p' = c) then P !! (p, fd) else P !! (p', fd)) /\
    exit_files c s1 = Ok (tt, s2) /\ fds_ok s2 P [] /\ k_flags s2 = k_flags s.
Proof.
  intros Hok Hp Hne Hc Hfree Hsz. pose proof (fx_proc _ _ _ Hok _ _ Hp) as (_ & Hi & _).
  assert (Hw : wp (lock_flags <- spinlock_acquire_irqsave (proc_lock p) ;;
     fork_fds (Z.to_nat MAX_OPEN_FILES) p c 0 ;;; spinlock_release_irqrestore (proc_lock p) lock_flags)
    (fun _ s1 => exists P1, fds_ok s1 P1 [] /\ frame s s1 /\ forked P p c 0 P1 /\ Z.of_nat (size P1) + 1 < 2 ^ 32) s).
  { wp_step. eapply wp_pacquire; [done|done|]. wp_step. eapply (wp_fork_fds _ _ _ _ _ 0 s P);
      [reflexivity|by unfold MAX_OPEN_FILES|exact Hok|exact Hp|exact Hne|exact Hc|rewrite Z2Nat.id by done; exact Hsz|by intros; apply Hfree|].
    intros s' P' Hok' Hp' Hf Hfk Hs'. rewrite <- (proj1 Hf). apply wp_prelease. exists P'. split_and!; [by apply fds_ok_rest| |done|].
    - etrans; [exact Hf|by eapply frame_put_ps].
    - unfold MAX_OPEN_FILES in *. lia. }
  apply wp_run in Hw as ([] & s1 & Hrun & P1 & Hok1 & Hf1 & Hfk & Hs1).
  assert (Hcs : is_Some (procs (k_obj s1) !! c)) by (by apply Hf1). destruct Hcs as [cs Hcs].
  assert (Hw : wp (exit_files c) (fun _ s2 => fds_ok s2 P [] /\ k_flags s2 = k_flags s) s1).
  { eapply wp_exit_files; [exact Hok1|exact Hcs|exact Hs1|]. intros s2 Hok2 (Hfl & _). rewrite (forked_exit P p c P1 s Hok Hfree Hfk) in Hok2.
    split; [done|]. rewrite Hfl. apply Hf1. }
  apply wp_run in Hw as ([] & s2 & Hrun2 & Hok2 & Hfl). exists s1, s2, P1. split_and!; [exact Hrun|exact Hok1| |exact Hrun2|exact Hok2|exact Hfl]. intros p' fd Hfd. rewrite Hfk.
  repeat case_bool_decide; tauto.
Qed.

(** [sys_open] of a file that exists (no truncation, no exclusive
    creation), with a path that lies in the mapped memory of the user: a new
    open file at offset 0 with the flags of the call gets the lowest free
    descriptor from 3 on, or the call gives [EMFILE] and the new file is
    released again; no other descriptor changes. *)
Theorem sys_open_existing s P p ps path str flags mode v e1 b e2 :
  fds_ok s P [] -> curproc (k_obj s) = p -> procs (k_obj s) !! p = Some ps -> in_user s -> Z.of_nat (size P) + 3 < 2 ^ 32 ->
  string_at (k_env s) path str -> 0 < Z.of_nat (length str) < VFS_MAX_PATH ->
  vl_lookup (string_of str) (k_env s) = Ok ((0, v), e1) -> kmalloc sizeof_vfs_file e1 = (Some b, e2) ->
  has_flag flags VFS_O_CREAT && has_flag flags VFS_O_EXCL = false -> has_flag flags VFS_O_TRUNC = false ->
  exists rc s' P', sys_open path flags mode s = Ok (rc, s') /\ opens s P p v flags rc s' P' /\ fds_ok s' P' [] /\
    k_flags s' = k_flags s.
Proof.
  intros Hok Hcur Hp Hu Hsz Hstr Hlen Hlook Hk Hex Htr.
  assert (Hw : wp (sys_open path flags mode)
    (fun rc s' => exists P', opens s P p v flags rc s' P' /\ fds_ok s' P' [] /\ k_flags s' = k_flags s) s).
  { eapply wp_sys_open; [done..|]. intros rc s' P' Ho Hok' (Hfl & _). eauto. }
  apply wp_run in Hw as (rc & s' & Hrun & P' & ?). by exists rc, s', P'.
Qed.

(** A path argument is copied as it is: a string of up to 4095 bytes, none of
    them null, comes back unchanged; a longer one is [ENAMETOOLONG]; the state
    is untouched.  The pages that are looked at are those at multiples of 4096
    from the start of the string. *)
Theorem path_arg_copies s empty a str :
  in_user s -> string_at (k_env s) a str -> path_arg empty a s = Ok (arg_of empty str, s).
Proof.
  intros Hu Hstr. assert (Hw : wp (path_arg empty a) (fun r s' => r = arg_of empty str /\ s' = s) s) by (by eapply wp_path_arg).
  apply wp_run in Hw as (r & s' & Hrun & -> & ->). exact Hrun.
Qed.

(** ** Where the calls fail *)

(** Writing to a descriptor of a file never works: the test for a file that
    is open for reading only masks with [VFS_O_RDONLY], which is 0. *)
Theorem sys_write_never_to_files s P p ps fd buf count :
  fds_ok s P [] -> curproc (k_obj s) = p -> procs (k_obj s) !! p = Some ps ->
  fd <> 1 -> fd <> 2 -> count <> 0 -> is_user_range buf count = true ->
  exists s', sys_write fd buf count s = Ok (- EBADF, s') /\ fds_ok s' P [].
Proof.
  intros Hok Hcur Hp Hn1 Hn2 Hc Hr.
  assert (Hw : wp (sys_write fd buf count) (fun rc s' => rc = - EBADF /\ fds_ok s' P []) s).
  { unfold sys_write. destruct (Z.eqb_spec count 0); [done|]. rewrite Hr. cbn [negb]. eapply wp_with_proc; [exact Hok|exact Hcur|exact Hp|].
    destruct (Z.eqb_spec fd 1); [done|]. destruct (Z.eqb_spec fd 2); [done|]. cbn [orb].
    eapply wp_with_file; [exact Hok|exact Hp|done|]. intros q fl s1 ps1 HP Hq Hok1 _ _. destruct (fx_open _ _ _ Hok1 _ _ _ HP) as [f Hf].
    wp_step. eapply wp_the_file; [exact Hf|]. change VFS_O_RDONLY with 0. rewrite Z.land_0_r. change (0 =? 0) with true. cbn iota. by wp_step. }
  apply wp_run in Hw as (rc & s' & Hrun & -> & ?). eauto.
Qed.

(** An absolute path, or one relative to the working directory, never opens
    with [openat]: it is copied to the stack of the kernel, and [sys_open]
    refuses that address. *)
Theorem sys_openat_never_opens s P p ps kbuf abuf dirfd path c str flags mode :
  fds_ok s P [] -> curproc (k_obj s) = p -> procs (k_obj s) !! p = Some ps -> in_user s ->
  string_at (k_env s) path (c :: str) -> Z.of_nat (length (c :: str)) < VFS_MAX_PATH - 1 ->
  c = SLASH \/ dirfd = AT_FDCWD -> is_user_address kbuf = false -> is_user_address abuf = false ->
  sys_openat kbuf abuf dirfd path flags mode s = Ok (- EFAULT, s).
Proof.
  intros Hok Hcur Hp Hu Hstr Hlen Hwhich Hk Ha.
  assert (Hopen : forall b, is_user_address b = false -> wp (sys_open b flags mode) (fun rc s' => rc = - EFAULT /\ s' = s) s).
  { intros b Hb. eapply wp_with_proc; [exact Hok|exact Hcur|exact Hp|]. unfold path_arg, validate_user_string. rewrite Hb. cbn [negb].
    wp_step. wp_step. wp_step. apply wp_ret. by apply wp_ret. }
  assert (Hw : wp (sys_openat kbuf abuf dirfd path flags mode) (fun rc s' => rc = - EFAULT /\ s' = s) s).
  { eapply wp_with_proc; [exact Hok|exact Hcur|exact Hp|]. wp_step. eapply wp_path_arg; [exact Hu|exact Hstr|]. unfold arg_of.
    destruct (Z.leb_spec VFS_MAX_PATH (Z.of_nat (length (c :: str)))); [lia|].
    destruct (Z.eqb_spec (Z.of_nat (length (c :: str))) 0) as [?|_]; [simpl in *; lia|]. simpl head. simpl default.
    destruct (Z.eqb_spec c SLASH) as [_|Hns]; [by apply Hopen|]. destruct Hwhich as [Hw|Hw]; [done|]. subst dirfd.
    change (AT_FDCWD =? AT_FDCWD) with true. cbn iota. destruct (Z.ltb_spec VFS_MAX_PATH (Z.of_nat (length (c :: str)) + 2)); [lia|].
    by apply Hopen. }
  apply wp_run in Hw as (rc & s' & Hrun & -> & ->). exact Hrun.
Qed.

(** The mapping is looked up at the start of the string and every 4096 bytes
    after it: a string that runs into a page that is not mapped before that
    makes the kernel fault. *)
Lemma copy_string_faults s a n : forall k dst str,
  0 <= k -> bytes_at (k_env s) (a + k) str -> um_load (a + k + Z.of_nat (length str)) (k_env s) = None ->
  (length str < n)%nat -> (forall j, k <= j <= k + Z.of_nat (length str) -> j mod PAGE_SIZE <> 0) ->
  copy_string n a k dst s = Fault F_oob.
Proof.
  induction n as [|n IH]; intros k dst str Hk Hb Hno Hn Hm; [lia|]. simpl.
  destruct (Z.eqb_spec (k mod PAGE_SIZE) 0) as [Hz|_]; [by destruct (Hm k); [lia|]|]. unfold bind at 1. simpl. unfold bind. rewrite run_user_byte.
  destruct str as [|c str]; [simpl in Hno; rewrite Z.add_0_r in Hno; by rewrite Hno|].
  apply bytes_at_cons in Hb as (Hnz & Hl & Hb). rewrite Hl. destruct (Z.eqb_spec c 0); [done|].
  apply (IH (k + 1) _ str); [lia|by replace (a + (k + 1)) with (a + k + 1) by lia| |simpl in Hn; lia|].
  - simpl in Hno. by replace (a + (k + 1) + Z.of_nat (length str)) with (a + k + Z.of_nat (S (length str))) by lia.
  - intros j Hj. apply Hm. simpl. lia.
Qed.

Theorem copyinstr_page_fault s a maxlen c str :
  in_user s -> is_user_address a = true -> um_phys a (k_env s) <> 0 -> bytes_at (k_env s) a (c :: str) ->
  um_load (a + Z.of_nat (length (c :: str))) (k_env s) = None ->
  Z.of_nat (length (c :: str)) < PAGE_SIZE -> Z.of_nat (length (c :: str)) < maxlen ->
  copyinstr a maxlen s = Fault F_oob.
Proof.
  intros Hu Ha Hph Hb Hno Hlen Hmax. unfold copyinstr. destruct (Z.eqb_spec maxlen 0) as [|_]; [lia|]. rewrite Ha. cbn [negb].
  assert (Hsp : has_space s = Ok (true, s)).
  { assert (Hw : wp has_space (fun r s' => r = true /\ s' = s) s) by (by apply wp_has_space). by apply wp_run in Hw as (r & s' & Hrun & -> & ->). }
  assert (Hmp : is_user_mapped (a + 0) s = Ok (true, s)).
  { rewrite Z.add_0_r.
    assert (Hw : wp (is_user_mapped a) (fun r s' => r = true /\ s' = s) s).
    { apply wp_is_user_mapped; [done|done|]. by destruct (Z.eqb_spec (um_phys a (k_env s)) 0). }
    by apply wp_run in Hw as (r & s' & Hrun & -> & ->). }
  unfold bind at 1. rewrite Hsp. cbn [negb]. destruct (Z.to_nat maxlen) as [|n] eqn:En; [lia|]. simpl copy_string.
  change (0 mod PAGE_SIZE =? 0) with true. cbn iota. unfold bind at 1. rewrite Hmp. cbn [negb].
  apply bytes_at_cons in Hb as (Hnz & Hl & Hb). unfold bind at 1. rewrite Z.add_0_r, run_user_byte, Hl. destruct (Z.eqb_spec c 0); [done|].
  apply (copy_string_faults s a n 1 _ str); [lia|done| |simpl in *; lia|].
  - simpl in Hno. by replace (a + 1 + Z.of_nat (length str)) with (a + Z.of_nat (S (length str))) by lia.
  - intros j Hj. simpl in *. unfold PAGE_SIZE in *. rewrite Z.mod_small by lia. lia.
Qed.

(** An entry of a directory that does not fit is lost: the offset is behind
    it already, and when it is the first one the call says that the directory
    has ended. *)
Theorem getdents_loses_entry s file f n buf count readdir x off' e' :
  file_open file f s -> Z.land (vl_mode (f_vnode f) (k_env s)) VFS_IFMT = VFS_IFDIR -> pc_readdir (f_vnode f) = Some readdir ->
  readdir (f_offset f) (k_env s) = Ok ((0, x, off'), e') -> 0 < count < reclen_of (d_name x) ->
  exists s', fill_entries (S n) file buf count 0 s = Ok (0, s') /\ f_offset <$> (k_files s' !! file) = Some off'.
Proof.
  intros Ho Hdir Hrd Hent Hc.
  assert (Hw : wp (fill_entries (S n) file buf count 0) (fun rc s' => rc = 0 /\ f_offset <$> (k_files s' !! file) = Some off') s).
  { pose proof (fo_ptr _ _ _ Ho) as Hp0. simpl. destruct (Z.ltb_spec 0 count); [|lia]. cbn [negb]. wp_step. unfold read_entry. wp_step.
    eapply wp_the_file; [exact (fo_file _ _ _ Ho)|]. wp_step. wp_step. rewrite Hdir, Hrd. change (VFS_IFDIR =? VFS_IFDIR) with true. cbn [negb].
    wp_step. eapply wp_get_offset; [exact Ho|]. wp_step. eapply wp_env; [exact Hent|]. change (0 =? 0) with true. cbn iota. wp_step.
    eapply (wp_set_offset _ file (rested s f)); [split; simpl; [done|by rewrite lookup_insert_eq|done]|]. wp_step.
    change (negb (0 =? 0)) with false. cbn iota zeta. destruct (Z.ltb_spec count (0 + reclen_of (d_name x))); [|lia]. wp_step.
    split; [done|]. simpl. by rewrite lookup_insert_eq. }
  apply wp_run in Hw as (rc & s' & Hrun & -> & Hoff). eauto.
Qed.
End inv.

(** ** Examples on the concrete environment

    One page of user memory at [USER_SPACE_START], backed by the store of the
    device; no keyboard, no directories. *)

Definition user_page (a : Z) : bool := a / PAGE_SIZE =? USER_SPACE_START / PAGE_SIZE.

#[global] Program Instance ramdev_user : UserMemory ramdev := {
  um_phys a _ := if user_page a then 0x200000 + a mod PAGE_SIZE else 0;
  um_load a e := if user_page a then Some (rd_byte e a) else None;
  um_store a c e := if user_page a then Some (RamDev (<[a := c]> (rd_store e)) (rd_limit e)) else None
}.
Next Obligation. simpl. intros a b e Ha Heq. unfold user_page in *. rewrite <- Heq. case_match; [by eexists|done]. Qed.

#[global] Instance ramdev_console : Console ramdev := { con_key _ := None; con_put _ e := e }.
#[global] Instance ramdev_paths : PathCalls ramdev := {
  pc_call _ e := Ok (- EROFS, e);
  pc_readlink _ _ e := Ok ((- EINVAL, []), e);
  pc_readdir _ := None
}.

(** Processes 1 and 2; 1 has descriptor 3 for the device. *)
Definition demo_process (t : list fd_entry) : sys_process := SysProcess spinlock_init 10 0 0x5000 t.
Definition no_fds : list fd_entry := replicate 32 (Fd NULL 0).
Definition demo_procs : gmap Z sys_process :=
  <[1 := demo_process (<[3%nat := Fd 1 0]> no_fds)]> {[ 2 := demo_process no_fds ]}.
Definition demo_path : list Z := [47; 100; 101; 118; 47; 114; 100; 48].
Definition demo_sys : kst sysproc ramdev :=
  Kst 0x202 {[ 1 := demo_file VFS_O_RDWR ]} 0 0 spinlock_init (SysProc 1 demo_procs)
    (RamDev (store_bytes ∅ USER_SPACE_START demo_path) 4096).
Definition demo_map : fdmap := {[ (1, 3) := (1, 0) ]}.

Lemma no_fds_lookup i x : no_fds !! i = Some x -> x = Fd NULL 0.
Proof. intros [-> _]%lookup_replicate. done. Qed.

Lemma demo_fds_ok : fds_ok demo_sys demo_map [].
Proof.
  split; simpl.
  - intros p ps. unfold demo_procs. rewrite lookup_insert_Some, lookup_singleton_Some. intros [[<- <-]|(_ & <- & <-)].
    + split_and!; [done|done|reflexivity|]. intros i x. change (ps_fd_table _) with (<[3%nat := Fd 1 0]> no_fds). rewrite list_lookup_insert_Some. intros [(<- & <- & _)|[Hne Hx]]; [done|].
      apply no_fds_lookup in Hx as ->. unfold demo_map. rewrite lookup_singleton_ne; [done|]. intros [= ?]. lia.
    + split_and!; [done|done|reflexivity|]. intros i x Hx. change (no_fds !! i = Some x) in Hx. apply no_fds_lookup in Hx as ->.
      unfold demo_map. by rewrite lookup_singleton_ne.
  - intros p fd x. unfold demo_map. rewrite lookup_singleton_Some. intros [[= <- <-] _]. split; [by eexists|done].
  - intros q f. rewrite lookup_singleton_Some. intros [<- <-]. by split_and!.
  - intros k q fl. unfold demo_map. rewrite lookup_singleton_Some. intros [_ [= <- _]]. by eexists.
  - by intros q ?%elem_of_nil.
Qed.

Lemma fd_calls_refine_witness :
  exists rcs s' P', run_fdops [ODup2 3 7; ODup 3; OClose 3; OSetfd 7 1; ODupfd 7 4 true; OClose 9] demo_sys = Ok (rcs, s') /\
    fd_trace demo_map 1 [ODup2 3 7; ODup 3; OClose 3; OSetfd 7 1; ODupfd 7 4 true; OClose 9] rcs P' /\ fds_ok s' P' [] /\ k_flags s' = 0x202.
Proof.
  eapply (fd_calls_refine demo_sys demo_map 1); [apply demo_fds_ok|reflexivity|reflexivity|].
  vm_compute. reflexivity.
Defined.

Lemma fork_exit_descriptors_witness :
  exists s1 s2 P1,
    (lock_flags <- spinlock_acquire_irqsave (proc_lock 1) ;;
     fork_fds (Z.to_nat MAX_OPEN_FILES) 1 2 0 ;;; spinlock_release_irqrestore (proc_lock 1) lock_flags) demo_sys = Ok (tt, s1) /\
    fds_ok s1 P1 [] /\
    (forall p' fd, 0 <= fd -> P1 !! (p', fd) = if bool_decide (p' = 2) then demo_map !! (1, fd) else demo_map !! (p', fd)) /\
    exit_files 2 s1 = Ok (tt, s2) /\ fds_ok s2 demo_map [] /\ k_flags s2 = k_flags demo_sys.
Proof.
  eapply (fork_exit_descriptors demo_sys demo_map 1).
  - apply demo_fds_ok.
  - reflexivity.
  - discriminate.
  - eexists. reflexivity.
  - intros fd. unfold demo_map. rewrite lookup_singleton_ne; [reflexivity|discriminate].
  - vm_compute. reflexivity.
Defined.

Lemma demo_in_user : in_user demo_sys.
Proof. eexists. split_and!; [discriminate|reflexivity|discriminate]. Qed.

Lemma demo_string : string_at (k_env demo_sys) USER_SPACE_START demo_path.
Proof.
  split_and!; [|reflexivity|].
  - intros i c Hc. do 8 (destruct i as [|i]; [injection Hc as <-; split; [discriminate|reflexivity]|]). discriminate.
  - intros k Hk Hm. assert (k = 0) as ->; [|split; [reflexivity|discriminate]]. change (0 <= k < 9) in Hk. rewrite Z.mod_small in Hm; [done|].
    unfold PAGE_SIZE. lia.
Qed.

Lemma sys_open_existing_witness :
  exists rc s' P', sys_open USER_SPACE_START VFS_O_RDWR 0 demo_sys = Ok (rc, s') /\
    opens demo_sys demo_map 1 rd_vnode VFS_O_RDWR rc s' P' /\ fds_ok s' P' [] /\ k_flags s' = k_flags demo_sys.
Proof.
  eapply (sys_open_existing demo_sys demo_map 1 _ USER_SPACE_START demo_path VFS_O_RDWR 0 rd_vnode).
  - apply demo_fds_ok.
  - reflexivity.
  - reflexivity.
  - apply demo_in_user.
  - vm_compute. reflexivity.
  - apply demo_string.
  - vm_compute. split; reflexivity.
  - reflexivity.
  - reflexivity.
  - reflexivity.
  - reflexivity.
Defined.

(** The number of a copy is the lowest free one, 0 here, which [read] takes
    for the keyboard. *)
Example dup_gives_console : exists s', sys_dup 3 demo_sys = Ok (0, s').
Proof. eexists. vm_compute. reflexivity. Qed.
