(* ===== verification/UserMem.v ===== *)
(** * System calls on memory ([amd64/cpu/syscall.c])

    [mmap], [munmap], [mprotect], [brk] and the release of memory at exit,
    above the page tables and the frame allocator.  The state is the machine
    of [Mmu.v], the interrupt flags, and the fields of the process that runs
    which these calls use.  [hhdm_response] is the direct map that
    [boot_get_hhdm] reports. *)

From stdpp Require Import base numbers list list_numbers gmap.
From S2P Require Import Syscall Spinlock Kernel Prelude Pmm Mmu Paging.

Definition PROT_WRITE : Z := 0x02.
Definition PROT_EXEC : Z := 0x04.
Definition MAP_SHARED : Z := 0x0001.
Definition MAP_PRIVATE : Z := 0x0002.
Definition MAP_FIXED : Z := 0x0010.
Definition MAP_ANONYMOUS : Z := 0x1000.
Definition USER_CODE_BASE : Z := 0x400000.
Definition USER_STACK_TOP : Z := 0x7FFFFFFFF000.
Definition PROCESS_USER_STACK_SIZE : Z := 2 * 1024 * 1024.

(** [ps_lock], [ps_brk] and [ps_vmspace] of the process that runs. *)
Record user_process := UserProcess { up_lock : spinlock; ps_brk : Z; up_vmspace : Z }.

(** [current] is [None] when there is no thread or no process of it. *)
Record umem := UMem {
  u_flags : Z;
  hhdm_response : option Z;
  current : option user_process;
  u_machine : machine
}.

Definition set_machine (m : machine) (s : umem) : umem := UMem (u_flags s) (hhdm_response s) (current s) m.
Definition set_current (p : option user_process) (s : umem) : umem := UMem (u_flags s) (hhdm_response s) p (u_machine s).
Definition set_ps_brk (b : Z) (p : user_process) : user_process := UserProcess (up_lock p) b (up_vmspace p).
Definition set_up_lock (l : spinlock) (p : user_process) : user_process := UserProcess l (ps_brk p) (up_vmspace p).

#[global] Program Instance umem_flags : HasFlags umem := {
  get_rflags := u_flags;
  set_rflags r s := UMem r (hhdm_response s) (current s) (u_machine s)
}.
Next Obligation. done. Qed.
Next Obligation. done. Qed.
Next Obligation. by intros []. Qed.

Definition user_process0 : user_process := UserProcess spinlock_init 0 0.

(** [ps->ps_lock] of the current process. *)
Program Definition ps_lock : lockref umem := {|
  lget s := up_lock (default user_process0 (current s));
  lset l s := set_current (Some (set_up_lock l (default user_process0 (current s)))) s
|}.
Next Obligation. done. Qed.
Next Obligation. done. Qed.
Next Obligation. done. Qed.
Next Obligation. done. Qed.
Next Obligation. done. Qed.

Abbreviation UM := (M umem).

(** A call into the layers below. *)
Definition low {A : Type} (c : MM A) : UM A := fun s =>
  match c (u_machine s) with
  | Ok (a, m') => Ok (a, set_machine m' s)
  | Fault f => Fault f
  end.

Definition the_current : UM user_process :=
  p <- gets current ;; match p with Some p => ret p | None => throw F_null end.
Definition put_brk (b : Z) : UM unit := p <- the_current ;; modify (set_current (Some (set_ps_brk b p))).

(** [!p || !p->p_p || !p->p_p->ps_vmspace]. *)
Definition with_space (err : Z) (f : Z -> UM Z) : UM Z :=
  p <- gets current ;;
  match p with
  | None => ret err
  | Some p => if up_vmspace p =? NULL then ret err else f (up_vmspace p)
  end.

Definition hhdm_base : UM Z := h <- gets hhdm_response ;; ret (default 0 h).

(** [(x + PAGE_SIZE - 1) & ~(PAGE_SIZE - 1)]. *)
Definition page_round_up (x : Z) : Z := page_align_down (u64 (x + PAGE_SIZE - 1)).

Definition prot_flags (prot : Z) : Z :=
  let fl := Z.lor PAGE_PRESENT PAGE_USER in
  let fl := if negb (Z.land prot PROT_WRITE =? 0) then Z.lor fl PAGE_WRITE else fl in
  if Z.land prot PROT_EXEC =? 0 then Z.lor fl PAGE_NX else fl.

(** The page of [virt] is unmapped and its frame freed, if there is one. *)
Definition release_page (pd hhdm_offset virt : Z) : UM unit :=
  phys <- low (mmu_get_physical_address pd virt) ;;
  if negb (phys =? 0) then
    low (paging_unmap_range pd virt 1) ;;;
    low (in_frames (pmm_free (u64 (phys + hhdm_offset))))
  else ret tt.

(** A page of zeros for [virt]; [false] is the way out on an error. *)
Definition map_new_page (pd hhdm_offset virt fl : Z) : UM bool :=
  page_virt <- low (in_frames pmm_alloc) ;;
  if page_virt =? NULL then ret false
  else
    low (zero_page page_virt) ;;;
    ok <- low (paging_map_range pd virt (u64 (page_virt - hhdm_offset)) 1 fl) ;;
    if negb ok then low (in_frames (pmm_free page_virt)) ;;; ret false
    else ret true.

(** An error is a negative number; the pointer returned is that number
    modulo [2 ^ 64]. *)
Definition sys_mmap (addr length prot flags : Z) : UM Z :=
  with_space (- EINVAL) (fun pd =>
    if length =? 0 then ret (- EINVAL)
    else if Z.land flags MAP_ANONYMOUS =? 0 then ret (- EINVAL)
    else if (Z.land flags MAP_SHARED =? 0) && (Z.land flags MAP_PRIVATE =? 0) then ret (- EINVAL)
    else
      let aligned_length := page_round_up length in
      let num_pages := aligned_length / PAGE_SIZE in
      place <- (
        if negb (Z.land flags MAP_FIXED =? 0) then
          ret (if is_user_address addr then Some (page_align_down addr) else None)
        else
          lock_flags <- spinlock_acquire_irqsave ps_lock ;;
          p <- the_current ;;
          let virt_addr := page_round_up (ps_brk p) in
          spinlock_release_irqrestore ps_lock lock_flags ;;;
          ret (Some (if negb (addr =? NULL) && is_user_address addr && (virt_addr <=? page_align_down addr)
                     then page_align_down addr else virt_addr))) ;;
      match place with
      | None => ret (- EINVAL)
      | Some virt_addr =>
          hhdm_offset <- hhdm_base ;;
          r <- for_range 0 num_pages tt (fun i _ =>
            ok <- map_new_page pd hhdm_offset (nth_page virt_addr i) (prot_flags prot) ;;
            if negb ok then
              for_each 0 i tt (fun j _ => release_page pd hhdm_offset (nth_page virt_addr j)) ;;;
              ret (inr (- ENOMEM))
            else ret (inl tt)) ;;
          match r with
          | inr rc => ret rc
          | inl _ =>
              lock_flags <- spinlock_acquire_irqsave ps_lock ;;
              p <- the_current ;;
              (if ps_brk p <? u64 (virt_addr + aligned_length) then put_brk (u64 (virt_addr + aligned_length))
               else ret tt) ;;;
              spinlock_release_irqrestore ps_lock lock_flags ;;;
              ret virt_addr
          end
      end).

Definition sys_munmap (addr length : Z) : UM Z :=
  with_space (- ESRCH) (fun pd =>
    if negb (is_user_address addr) || (length =? 0) then ret (- EINVAL)
    else
      let virt_addr := page_align_down addr in
      let num_pages := page_round_up length / PAGE_SIZE in
      hhdm_offset <- hhdm_base ;;
      for_each 0 num_pages tt (fun i _ =>
        let virt_page := nth_page virt_addr i in
        phys_addr <- low (mmu_get_physical_address pd virt_page) ;;
        low (paging_unmap_range pd virt_page 1) ;;;
        if negb (phys_addr =? 0) then low (in_frames (pmm_free (u64 (phys_addr + hhdm_offset)))) else ret tt) ;;;
      ret 0).

Definition sys_mprotect (addr len prot : Z) : UM Z :=
  with_space (- ESRCH) (fun pd =>
    if negb (is_user_address addr) || (len =? 0) then ret (- EINVAL)
    else
      ok <- low (paging_protect_range pd (page_align_down addr) (page_round_up len / PAGE_SIZE) (prot_flags prot)) ;;
      ret (if negb ok then - ENOMEM else 0)).

(** The rounds of [while (page < end) { ...; page += PAGE_SIZE; }]. *)
Definition pages_between (page end_ : Z) : Z := if page <? end_ then (end_ - page + PAGE_SIZE - 1) / PAGE_SIZE else 0.

(** The two loops of [sys_brk]; 0, or an error. *)
Definition brk_expand (pd hhdm_offset old_page new_page : Z) : UM Z :=
  r <- for_range 0 (pages_between old_page new_page) tt (fun i _ =>
    let current_page := nth_page old_page i in
    phys_addr <- low (mmu_get_physical_address pd current_page) ;;
    if phys_addr =? 0 then
      ok <- map_new_page pd hhdm_offset current_page (Z.lor (Z.lor PAGE_PRESENT PAGE_WRITE) PAGE_USER) ;;
      if negb ok then ret (inr (- ENOMEM)) else ret (inl tt)
    else ret (inl tt)) ;;
  match r with inr rc => ret rc | inl _ => ret 0 end.

Definition brk_shrink (pd hhdm_offset new_page old_page : Z) : UM Z :=
  for_each 0 (pages_between new_page old_page) tt (fun i _ =>
    release_page pd hhdm_offset (nth_page new_page i)) ;;;
  ret 0.

Definition sys_brk (addr : Z) : UM Z :=
  with_space (- ESRCH) (fun pd =>
    lock_flags <- spinlock_acquire_irqsave ps_lock ;;
    p <- the_current ;;
    if addr =? NULL then
      spinlock_release_irqrestore ps_lock lock_flags ;;; ret (ps_brk p)
    else if negb (is_user_address addr) || (addr <? USER_CODE_BASE) ||
            (USER_STACK_TOP - PROCESS_USER_STACK_SIZE <=? addr) then
      spinlock_release_irqrestore ps_lock lock_flags ;;; ret (- ENOMEM)
    else
      old_brk <- (
        if ps_brk p =? 0 then
          let b := page_align_down (USER_CODE_BASE + 0x100000) in put_brk b ;;; ret b
        else ret (ps_brk p)) ;;
      if addr =? old_brk then
        spinlock_release_irqrestore ps_lock lock_flags ;;; ret old_brk
      else
        spinlock_release_irqrestore ps_lock lock_flags ;;;
        hhdm_offset <- hhdm_base ;;
        rc <- (
          if old_brk <? addr then brk_expand pd hhdm_offset (page_round_up old_brk) (page_round_up addr)
          else brk_shrink pd hhdm_offset (page_round_up addr) (page_round_up old_brk)) ;;
        if negb (rc =? 0) then ret rc
        else
          lock_flags <- spinlock_acquire_irqsave ps_lock ;;
          put_brk addr ;;;
          spinlock_release_irqrestore ps_lock lock_flags ;;;
          ret addr).

(** The memory of the process in [sys_exit]. *)
Definition exit_memory : UM unit :=
  p <- the_current ;;
  hhdm_offset <- hhdm_base ;;
  if up_vmspace p =? NULL then ret tt
  else if USER_SPACE_START <? ps_brk p then
    let start := page_round_up USER_SPACE_START in
    for_each 0 (pages_between start (ps_brk p)) tt (fun i _ =>
      release_page (up_vmspace p) hhdm_offset (nth_page start i)) ;;;
    ret tt
  else ret tt.
