(* ===== verification/UserMemThms.v ===== *)
(** * Theorems on the memory of a process

    The pages of a process are a finite map [U] from page numbers to frames
    and flags.  [mmap], [munmap] and [brk] refine this map on the user half of
    the address space: what the processor translates is [U], each frame of [U]
    backs one page and is neither free nor a page table, and the free frames,
    the frames of [U] and the page tables together are always the same
    frames. *)

From stdpp Require Import base numbers list list_numbers gmap.
From S2P Require Import Syscall Spinlock Kernel Prelude Bitmap Pmm PmmFacts PmmInit PmmSpec.
From S2P Require Import Mmu PageTree MmuFacts MmuSpec MmuThms Paging PagingThms Vmm VmmFacts VmmThms UserMem.

Abbreviation pages := (gmap Z (Z * Z)).
Implicit Types (m : machine) (tb : tables) (U : pages) (s : umem).

Lemma wp_low {A : Type} (c : MM A) (Q : A -> umem -> Prop) s :
  wp c (fun a m' => Q a (set_machine m' s)) (u_machine s) -> wp (low c) Q s.
Proof. unfold wp, low. by destruct (c (u_machine s)) as [[a m']|]. Qed.

Section memory.
Context (pd d root : Z).

(** ** The invariant *)

Definition entry_pte (x : Z * Z) : nat * Z := (0%nat, pte (4096 * x.1) x.2).

Record owns m tb U : Prop := {
  ow_space : space m pd d root tb;
  ow_zero : 0 ∉ free m;
  ow_walk vpn : user_page vpn -> walk m root vpn = entry_pte <$> (U !! vpn);
  ow_page vpn f fl : U !! vpn = Some (f, fl) ->
    user_page vpn /\ in_ram m f /\ f ∉ free m /\ (forall q, tb !! q <> Some f) /\ f <> d /\ f <> 0 /\ Z.land fl PAGE_ADDR_MASK = 0;
  ow_inj v1 v2 f fl1 fl2 : U !! v1 = Some (f, fl1) -> U !! v2 = Some (f, fl2) -> v1 = v2
}.

(** The frames of the process, its tables and the free frames. *)
Definition pool m tb U (f : Z) : Prop :=
  f ∈ free m \/ (exists p, tb !! p = Some f) \/ exists vpn fl, U !! vpn = Some (f, fl).

(** The contents of the pages [K]. *)
Definition keeps (K : pages) m m' : Prop :=
  forall vpn f fl i, K !! vpn = Some (f, fl) -> 0 <= i < 512 -> word m' f i = word m f i.

Record moved m tb U m' tb' U' : Prop := {
  mv_machine : same_machine m m';
  mv_sub : tb ⊆ tb';
  mv_pool f : pool m tb U f <-> pool m' tb' U' f;
  mv_words K : K ⊆ U -> K ⊆ U' -> keeps K m m'
}.

Lemma moved_refl m tb U : moved m tb U m tb U.
Proof. by split. Qed.

(** [moved], for the pages [K] that stay. *)
Definition leads (K : pages) m tb U m' tb' U' : Prop :=
  owns m' tb' U' /\ same_machine m m' /\ tb ⊆ tb' /\ (forall f, pool m tb U f <-> pool m' tb' U' f) /\ K ⊆ U' /\ keeps K m m'.

Lemma leads_refl K m tb U : owns m tb U -> K ⊆ U -> leads K m tb U m tb U.
Proof. intros Ho HK. by split_and!. Qed.

Lemma leads_step K m tb U m1 tb1 U1 m2 tb2 U2 :
  leads K m tb U m1 tb1 U1 -> owns m2 tb2 U2 -> moved m1 tb1 U1 m2 tb2 U2 -> K ⊆ U2 -> leads K m tb U m2 tb2 U2.
Proof.
  intros (Ho1 & Hm1 & Hs1 & Hp1 & HK1 & Hk1) Ho2 [Hm2 Hs2 Hp2 Hw2] HK2.
  split_and!; [done|by etrans|by etrans|intros f; by rewrite Hp1, Hp2|done|].
  intros vpn f fl i HK Hi. rewrite (Hw2 K HK1 HK2 vpn f fl i HK Hi). by eapply Hk1.
Qed.

Lemma leads_trans K m tb U m1 tb1 U1 m2 tb2 U2 :
  leads K m tb U m1 tb1 U1 -> leads K m1 tb1 U1 m2 tb2 U2 -> leads K m tb U m2 tb2 U2.
Proof.
  intros (Ho1 & Hm1 & Hs1 & Hp1 & HK1 & Hk1) (Ho2 & Hm2 & Hs2 & Hp2 & HK2 & Hk2).
  split_and!; [done|by etrans|by etrans|intros f; by rewrite Hp1, Hp2|done|].
  intros vpn f fl i HK Hi. rewrite (Hk2 vpn f fl i HK Hi). by eapply Hk1.
Qed.

(** ** One page *)

Section page.
Context (m : machine) (tb : tables) (U : pages) (virt : Z).
Context (Ho : owns m tb U) (Hu : user_addr virt) (Ha : virt mod 4096 = 0).
Abbreviation vpn := (vpn_of virt).

Lemma pd_not_null m' : mm_ok m' -> same_machine m m' -> (pd =? NULL) = false.
Proof using Ho.
  intros Hmm Hsm. destruct Ho as [[Hmm0 _ _ -> [Hd _] _ _] _ _ _ _]. by apply frame_addr_not_null.
Qed.

Lemma virt_u64 : 0 <= virt < 2 ^ 64.
Proof using Hu. unfold user_addr in Hu. lia. Qed.

Lemma nth_page_0 x : 0 <= x < 2 ^ 64 -> nth_page x 0 = x.
Proof using. intros Hx. unfold nth_page, u64. rewrite Z.mul_0_l, Zmod_0_l, Z.add_0_r, Z.mod_small by lia. done. Qed.

(** A range of one page. *)
Lemma wp_map_one (Q : bool -> machine -> Prop) phys fl m' :
  mm_ok m' -> same_machine m m' -> 0 <= phys < 2 ^ 64 -> phys mod 4096 = 0 ->
  wp (mmu_map_page pd virt phys fl) Q m' -> wp (paging_map_range pd virt phys 1 fl) Q m'.
Proof using Ho Hu Ha.
  intros Hmm Hsm Hp Hpa Hw. unfold paging_map_range. rewrite (pd_not_null m') by done.
  rewrite (align_aligned virt virt_u64 Ha), (align_aligned phys Hp Hpa). apply wp_bind. unfold for_range. simpl. apply wp_bind, wp_bind.
  rewrite !nth_page_0 by (done || apply virt_u64). eapply wp_mono; [exact Hw|]. intros [] m1 HQ; cbn [negb].
  - apply wp_ret, wp_ret, wp_ret. exact HQ.
  - apply wp_bind. unfold for_each, for_range. simpl. apply wp_bind, wp_ret, wp_ret, wp_ret, wp_ret, wp_ret. exact HQ.
Qed.

Lemma wp_unmap_one (Q : bool -> machine -> Prop) m' :
  mm_ok m' -> same_machine m m' ->
  wp (mmu_unmap_page pd virt) (fun _ m1 => Q true m1) m' -> wp (paging_unmap_range pd virt 1) Q m'.
Proof using Ho Hu Ha.
  intros Hmm Hsm Hw. unfold paging_unmap_range. rewrite (pd_not_null m') by done. rewrite (align_aligned virt virt_u64 Ha).
  apply wp_bind. unfold for_each, for_range. simpl. apply wp_bind, wp_bind, wp_bind, wp_bind. rewrite nth_page_0 by apply virt_u64.
  eapply wp_mono; [exact Hw|]. intros b m1 HQ. by repeat apply wp_ret.
Qed.

(** The page is not mapped any more. *)
Lemma wp_unmap_any (Q : bool -> machine -> Prop) :
  (forall b m', space m' pd d root tb -> evolves m tb m' tb root -> free m' = free m ->
     (forall w, user_page w -> walk m' root w = if w =? vpn then None else walk m root w) -> Q b m') ->
  wp (mmu_unmap_page pd virt) Q m.
Proof using Ho Hu.
  intros HQ. pose proof (ow_space _ _ _ Ho) as Hs. apply (wp_unmap_page pd d root _ _ tb); [done|done| |].
  - intros Hn. apply HQ; [done|apply evolves_refl|done|]. intros w Hw. destruct (Z.eqb_spec w vpn) as [->|]; [|done].
    rewrite (walk_space m pd d root tb) by done. unfold leaf. by rewrite Hn.
  - intros m' Hs' Hup. apply HQ; [done|apply Hup|apply (evolves_free root m tb), Hup|].
    intros w Hw. by rewrite (walk_updated pd d root m tb m' tb _ _ _ Hs Hs' Hup Hw).
Qed.

Lemma get_phys : mmu_get_physical_address pd virt m = Ok (4096 * from_option fst 0 (U !! vpn), m).
Proof using Ho Hu Ha.
  rewrite (get_physical_aligned pd d root m tb virt (ow_space _ _ _ Ho) Hu Ha), (ow_walk _ _ _ Ho) by (by apply user_vpn).
  destruct (U !! vpn) as [[f fl]|] eqn:HU; simpl; [|done]. destruct (ow_page _ _ _ Ho _ _ _ HU) as (_ & Hr & _ & _ & _ & _ & Hfl).
  rewrite frame_of_pte; [done| |done]. pose proof (mm_phys _ (sp_mm _ _ _ _ _ (ow_space _ _ _ Ho))). unfold in_ram in Hr. lia.
Qed.

(** An unmapped page that had no frame. *)
Lemma owns_unmap_none m' :
  U !! vpn = None -> space m' pd d root tb -> evolves m tb m' tb root -> free m' = free m ->
  (forall w, user_page w -> walk m' root w = if w =? vpn then None else walk m root w) ->
  owns m' tb U /\ moved m tb U m' tb U.
Proof using Ho Hu Ha.
  intros HU Hs He Hf Hw. destruct Ho as [Hs0 Hz Hwalk Hpage Hinj]. split; split; try done.
  - by rewrite Hf.
  - intros w Huw. rewrite Hw by done. destruct (Z.eqb_spec w vpn) as [->|]; [by rewrite HU|by apply Hwalk].
  - intros w f fl Hx. destruct (Hpage _ _ _ Hx) as (? & ? & ? & ? & ? & ? & ?). rewrite Hf. split_and!; try done.
    by rewrite (in_ram_same m m') by apply He.
  - apply He.
  - intros f. unfold pool. by rewrite Hf.
  - intros K HK _ w f fl i Hx Hi. destruct (Hpage _ _ _ (lookup_weaken _ _ _ _ Hx HK)) as (? & ? & ? & ? & _).
    apply (ev_words _ _ _ _ _ He); try done. by left.
Qed.

(** The frame of the page is freed. *)
Lemma owns_release m' p f fl :
  U !! vpn = Some (f, fl) -> space m' pd d root tb -> evolves m tb m' tb root -> free m' = free m ->
  (forall w, user_page w -> walk m' root w = if w =? vpn then None else walk m root w) ->
  pmm_inv p -> same_layout (frames m') p -> abs_free p = free m' ∪ {[f]} ->
  owns (set_frames p m') tb (delete vpn U) /\ moved m tb U (set_frames p m') tb (delete vpn U).
Proof using Ho Hu Ha.
  intros HU Hs He Hf Hw Hp Hl Hpf. destruct Ho as [Hs0 Hz Hwalk Hpage Hinj].
  destruct (Hpage _ _ _ HU) as (Hv & Hr & Hnf & Hnt & Hnd & Hn0 & _). set (m2 := set_frames p m').
  assert (Hf2 : forall x, x ∈ free m2 <-> x ∈ free m \/ x = f).
  { intros x. change (free m2) with (abs_free p). rewrite Hpf, Hf. set_solver. }
  assert (Hsm : same_machine m m2) by (etrans; [apply He|by split]). split; split; try done.
  - by apply (space_give pd d root m' tb f).
  - rewrite Hf2. naive_solver.
  - intros w Huw. change (walk m2 root w) with (walk m' root w). rewrite Hw by done. rewrite lookup_delete.
    destruct (Z.eqb_spec w vpn) as [->|Hne]; [by rewrite decide_True|]. rewrite decide_False by congruence. by apply Hwalk.
  - intros w f' fl' [Hne Hx]%lookup_delete_Some. destruct (Hpage _ _ _ Hx) as (? & ? & ? & ? & ? & ? & ?). split_and!; try done.
    + by rewrite (in_ram_same m m2) by done.
    + rewrite Hf2. intros [?| ->]; [done|]. apply Hne. by eapply Hinj.
  - intros v1 v2 g fl1 fl2 [_ H1]%lookup_delete_Some [_ H2]%lookup_delete_Some. by eapply Hinj.
  - intros x. unfold pool. rewrite Hf2. split.
    + intros [?|[?|(w & fl' & Hx)]]; [by left; left|by right; left|]. destruct (decide (w = vpn)) as [->|Hne].
      * left. right. congruence.
      * right. right. exists w, fl'. rewrite lookup_delete_ne by done. done.
    + intros [[?| ->]|[?|(w & fl' & [_ Hx]%lookup_delete_Some)]]; [by left|right; right; eauto|by right; left|right; right; eauto].
  - intros K HK _ w g fl' i Hx Hi. destruct (Hpage _ _ _ (lookup_weaken _ _ _ _ Hx HK)) as (? & ? & ? & ? & _).
    change (word m2 g i) with (word m' g i). apply (ev_words _ _ _ _ _ He); try done. by left.
Qed.

Lemma wp_release_page (Q : unit -> umem -> Prop) h s :
  u_machine s = m -> h = direct_map m ->
  (forall m', owns m' tb (delete vpn U) -> moved m tb U m' tb (delete vpn U) -> Q tt (set_machine m' s)) ->
  wp (release_page pd h virt) Q s.
Proof using Ho Hu Ha.
  intros Hm -> HQ. unfold release_page. apply wp_bind, wp_low. rewrite Hm. apply (wp_eq _ _ _ _ _ get_phys).
  destruct (U !! vpn) as [[f fl]|] eqn:HU; simpl.
  - pose proof (ow_page _ _ _ Ho _ _ _ HU) as (_ & Hr & _ & _ & _ & Hn0 & _). unfold in_ram in Hr.
    rewrite (proj2 (Z.eqb_neq (4096 * f) 0)) by lia. cbn [negb].
    apply wp_bind, wp_low. simpl. apply wp_unmap_one; [apply (ow_space _ _ _ Ho)|done|]. apply wp_unmap_any.
    intros _ m1 Hs1 He1 Hf1 Hw1. apply wp_low. simpl. pose proof (ev_machine _ _ _ _ _ He1) as Hsm1.
    assert (Hr1 : in_ram m1 f) by (by rewrite (in_ram_same m m1)). pose proof (sp_mm _ _ _ _ _ Hs1) as Hmm1.
    replace (4096 * f + direct_map m) with (4096 * f + mmu_hhdm_offset m1)
      by (rewrite (mm_hhdm _ Hmm1), (sm_direct _ _ Hsm1); done).
    rewrite phys_to_virt_frame by done. apply wp_free_frame; [done|done|]. intros p Hp Hl Hpf. simpl.
    destruct (owns_release m1 p f fl) as [Ho2 Hmv]; try done. by apply (HQ (set_frames p m1)).
  - apply wp_ret. apply HQ; rewrite delete_id by done; [done|apply moved_refl].
Qed.

Lemma wp_unmap_page_of (Q : unit -> umem -> Prop) h s :
  u_machine s = m -> h = direct_map m ->
  (forall m', owns m' tb (delete vpn U) -> moved m tb U m' tb (delete vpn U) -> Q tt (set_machine m' s)) ->
  wp (phys_addr <- low (mmu_get_physical_address pd virt) ;;
      low (paging_unmap_range pd virt 1) ;;;
      if negb (phys_addr =? 0) then low (in_frames (pmm_free (u64 (phys_addr + h)))) else ret tt) Q s.
Proof using Ho Hu Ha.
  intros Hm -> HQ. destruct (U !! vpn) as [[f fl]|] eqn:HU.
  - pose proof (wp_release_page Q (direct_map m) s Hm eq_refl HQ) as Hw. unfold release_page in Hw. apply wp_bind_inv in Hw.
    apply wp_bind. unfold wp, low in Hw |- *. rewrite Hm, get_phys, HU in *. simpl in *.
    pose proof (ow_page _ _ _ Ho _ _ _ HU) as (_ & Hr & _ & _ & _ & Hn0 & _). unfold in_ram in Hr.
    rewrite (proj2 (Z.eqb_neq (4096 * f) 0)) in * by lia. exact Hw.
  - apply wp_bind, wp_low. rewrite Hm. apply (wp_eq _ _ _ _ _ get_phys). rewrite HU. simpl. apply wp_bind, wp_low. simpl.
    apply wp_unmap_one; [apply (ow_space _ _ _ Ho)|done|]. apply wp_unmap_any. intros _ m1 Hs1 He1 Hf1 Hw1. apply wp_ret.
    destruct (owns_unmap_none m1) as [Ho2 Hmv]; try done. apply (HQ m1); by rewrite delete_id.
Qed.

(** The frame [f] backs a page, with flags [fl]. *)
Definition page_frame m' tb' (f fl : Z) : Prop :=
  in_ram m' f /\ f ∉ free m' /\ (forall q, tb' !! q <> Some f) /\ f <> d /\ f <> 0 /\ Z.land fl PAGE_ADDR_MASK = 0.

(** The pages of the process when tables and data frames have been taken. *)
Lemma pages_held m' tb' fs :
  held m tb m' tb' root fs -> 0 ∉ free m' /\ keeps U m m' /\
    forall w f fl, U !! w = Some (f, fl) -> user_page w /\ page_frame m' tb' f fl.
Proof using Ho.
  intros Hh. destruct Ho as [Hs0 Hz Hwalk Hpage Hinj]. split_and!.
  - intros Hin. apply Hz, (hd_free _ _ _ _ _ _ Hh). by left.
  - intros w f fl i Hx Hi. destruct (Hpage _ _ _ Hx) as (? & ? & ? & ? & _).
    apply (hd_words _ _ _ _ _ _ Hh); try done. by left.
  - intros w f fl Hx. destruct (Hpage _ _ _ Hx) as (? & ? & Hnf & Hnt & ? & ? & ?). split; [done|]. split_and!; try done.
    + by rewrite (in_ram_same m m') by apply Hh.
    + intros Hin. apply Hnf, (hd_free _ _ _ _ _ _ Hh). by left.
    + intros q Hq. destruct (tb !! q) as [g|] eqn:Hg.
      * rewrite (lookup_weaken _ _ _ _ Hg (hd_sub _ _ _ _ _ _ Hh)) in Hq. injection Hq as ->. by apply (Hnt q).
      * apply Hnf, (hd_free _ _ _ _ _ _ Hh). right. right. by exists q.
Qed.

Lemma pool_held m' tb' fs U' :
  held m tb m' tb' root fs -> (forall f, (exists w fl, U' !! w = Some (f, fl)) <-> f ∈ fs \/ exists w fl, U !! w = Some (f, fl)) ->
  forall f, pool m tb U f <-> pool m' tb' U' f.
Proof using Ho.
  intros Hh HU f. unfold pool. rewrite (hd_free _ _ _ _ _ _ Hh), HU.
  assert (Hsub : (exists p, tb' !! p = Some f) <-> (exists p, tb !! p = Some f) \/ exists p, tb' !! p = Some f /\ tb !! p = None).
  { split.
    - intros [p Hp]. destruct (tb !! p) as [g|] eqn:Hg; [|right; by exists p]. left. exists p.
      rewrite (lookup_weaken _ _ _ _ Hg (hd_sub _ _ _ _ _ _ Hh)) in Hp. congruence.
    - intros [[p Hp]|(p & Hp & _)]; exists p; [|done]. by apply (lookup_weaken _ _ _ _ Hp (hd_sub _ _ _ _ _ _ Hh)). }
  rewrite Hsub. tauto.
Qed.

Lemma owns_insert m2 m3 tb3 g fl :
  held m tb m3 tb3 root [g] -> space m2 pd d root tb -> space m3 pd d root tb3 -> g <> 0 -> in_ram m g -> Z.land fl PAGE_ADDR_MASK = 0 ->
  updated root m2 tb m3 tb3 vpn (Some (pte (4096 * g) fl)) -> (forall w, user_page w -> walk m2 root w = walk m root w) ->
  owns m3 tb3 (<[vpn := (g, fl)]> U).
Proof using Ho Hu.
  intros Hh Hs2 Hs3 Hg0 Hgr Hfl Hup Hw2. destruct (pages_held m3 tb3 [g] Hh) as (Hz3 & _ & Hp3).
  destruct (hd_fresh _ _ _ _ _ _ Hh g) as (Hg & Hgf & Hgt); [by apply list_elem_of_here|].
  pose proof Ho as [Hs0 Hz Hwalk Hpage Hinj].
  assert (Hnew : forall w fl', U !! w <> Some (g, fl')) by (intros w fl' Hx; by destruct (Hpage _ _ _ Hx) as (_ & _ & ? & _)).
  split; try done.
  - intros w Hw. rewrite (walk_updated pd d root m2 tb m3 tb3 _ _ _ Hs2 Hs3 Hup Hw), lookup_insert.
    destruct (Z.eqb_spec w vpn) as [->|Hne]; [by rewrite decide_True|]. rewrite decide_False by congruence. rewrite Hw2 by done. by apply Hwalk.
  - intros w f fl' [[<- [= <- <-]]|[_ Hx]]%lookup_insert_Some; [|by apply (Hp3 w f fl')]. split; [by apply user_vpn|]. split_and!; try done.
    + by rewrite (in_ram_same m m3) by apply Hh.
    + intros ->. by apply (sp_pd_ram _ _ _ _ _ Hs0).
  - intros v1 v2 f fl1 fl2. rewrite !lookup_insert_Some. intros [[Hv1 E1]|[_ H1]] [[Hv2 E2]|[_ H2]]; simplify_eq; try done.
    + by destruct (Hnew v2 fl2).
    + by destruct (Hnew v1 fl1).
    + by eapply Hinj.
Qed.

(** No frame, or no table: nothing has changed for the process. *)
Lemma wp_map_new_page (Q : bool -> umem -> Prop) h fl s :
  u_machine s = m -> h = direct_map m -> Z.land fl PAGE_ADDR_MASK = 0 -> U !! vpn = None ->
  (forall m' tb', owns m' tb' U -> moved m tb U m' tb' U -> Q false (set_machine m' s)) ->
  (forall m' tb' g, g ∈ free m -> (forall i, 0 <= i < 512 -> word m' g i = 0) -> owns m' tb' (<[vpn := (g, fl)]> U) ->
     moved m tb U m' tb' (<[vpn := (g, fl)]> U) -> Q true (set_machine m' s)) ->
  wp (map_new_page pd h virt fl) Q s.
Proof using Ho Hu Ha.
  intros Hm -> Hfl HU Hno Hyes. pose proof Ho as [Hs0 Hz Hwalk Hpage Hinj]. pose proof (sp_mm _ _ _ _ _ Hs0) as Hmm.
  unfold map_new_page. apply wp_bind, wp_low. rewrite Hm. apply wp_alloc_frame; [done| |].
  { intros _. change (NULL =? NULL) with true. apply wp_ret. apply (Hno m tb); [done|apply moved_refl]. }
  intros p g Hg Hp Hl Hpf. pose proof (elem_of_free _ _ Hg) as Hgr. rewrite frame_addr_not_null by done.
  assert (Hgr1 : in_ram (set_frames p m) g) by (by rewrite (in_ram_same m) by (by split)).
  assert (Hmm1 : mm_ok (set_frames p m)) by (eapply mm_ok_same; [done|by split|done]).
  apply wp_bind, wp_low. simpl. change (frame_addr m g) with (frame_addr (set_frames p m) g).
  apply wp_zero_page; [done|done|]. intros r Hwr. set (m2 := set_ram r (set_frames p m)) in *.
  assert (Hs2 : space m2 pd d root tb)
    by (apply (space_take pd d root m tb g p r); try done; intros x j Hx Hj; rewrite Hwr by done; by destruct (Z.eqb_spec x g)).
  assert (Hh2 : held m tb m2 tb root [g]) by (apply (held_take pd d root _ _ m tb [] g p r); try done; apply held_refl).
  assert (Hw2 : forall w, user_page w -> walk m2 root w = walk m root w).
  { intros w Hw. rewrite (walk_space m2 pd d root tb), (walk_space m pd d root tb) by done. f_equal. apply leaf_agree.
    intros q x j Hq Hj. destruct (sp_alloc _ _ _ _ _ Hs0 _ _ Hq). rewrite Hwr by done.
    by rewrite (proj2 (Z.eqb_neq x g)) by (intros ->; done). }
  assert (Hg0 : g <> 0) by (by intros ->). assert (Hgb : 0 < g < 2 ^ 40).
  { pose proof (mm_phys _ Hmm). unfold in_ram in Hgr. lia. }
  replace (u64 (frame_addr (set_frames p m) g - direct_map m)) with (4096 * g).
  2: { unfold frame_addr, u64. simpl. rewrite Z.mod_small by lia. lia. }
  apply wp_bind, wp_low. simpl. apply wp_map_one; [apply Hs2|apply Hh2|lia|by rewrite Z.mul_comm, Z_mod_mult|].
  apply (wp_map_page pd d root _ _ tb); [done|done| |].
  - intros m3 tb3 Hs3 Hgw _ _. cbn [negb]. pose proof (held_evolves pd d root _ _ _ _ _ _ _ Hs2 Hh2 (gr_evolves _ _ _ _ _ Hgw)) as Hh3.
    apply wp_bind, wp_low. simpl. change (frame_addr (set_frames p m) g) with (frame_addr m g).
    destruct (hd_fresh _ _ _ _ _ _ Hh3 g) as (_ & Hgf & Hgt); [by apply list_elem_of_here|].
    rewrite <- (frame_addr_same m m3) by apply Hh3. apply wp_free_frame; [apply Hs3|by rewrite (in_ram_same m m3) by apply Hh3|].
    intros p4 Hp4 Hl4 Hpf4. apply wp_ret. simpl. set (m4 := set_frames p4 m3).
    assert (Hs4 : space m4 pd d root tb3).
    { apply (space_give pd d root m3 tb3 g); try done. intros ->. by apply (sp_pd_ram _ _ _ _ _ Hs0). }
    assert (Hh4 : held m tb m4 tb3 root []) by (by eapply held_give).
    destruct (pages_held m4 tb3 [] Hh4) as (Hz4 & Hk4 & Hp4').
    apply (Hno m4 tb3).
    + split; try done. intros w Hw. change (walk m4 root w) with (walk m3 root w).
      rewrite (walk_grown pd d root m2 tb m3 tb3 w Hs2 Hs3 Hgw Hw), Hw2 by done. by apply Hwalk.
    + split; [apply Hh4|apply Hh4|eapply pool_held; [exact Hh4|set_solver]|].
      intros K HK _ w f fl' i Hx. by apply (Hk4 w f fl'), (lookup_weaken _ _ _ _ Hx HK).
  - intros m3 tb3 Hs3 Hup. cbn [negb]. apply wp_ret. simpl.
    pose proof (held_evolves pd d root _ _ _ _ _ _ _ Hs2 Hh2 (up_evolves _ _ _ _ _ _ _ Hup)) as Hh3.
    destruct (hd_fresh _ _ _ _ _ _ Hh3 g) as (_ & Hgf & Hgt); [by apply list_elem_of_here|].
    destruct (pages_held m3 tb3 [g] Hh3) as (Hz3 & Hk3 & Hp3). apply (Hyes m3 tb3 g); [done| | |].
    + intros i Hi. apply (hd_zero _ _ _ _ _ _ Hh3); [by apply list_elem_of_here|done].
    + by eapply owns_insert.
    + split; [apply Hh3|apply Hh3| |].
      * eapply pool_held; [exact Hh3|]. intros f. rewrite list_elem_of_singleton. split.
        -- intros (w & fl' & [[<- [= <- <-]]|[_ Hx]]%lookup_insert_Some); [by left|right; eauto].
        -- intros [->|(w & fl' & Hx)]; [exists vpn, fl; apply lookup_insert_eq|]. exists w, fl'. rewrite lookup_insert_ne by congruence. done.
      * intros K HK _ w f fl' i Hx. by apply (Hk3 w f fl'), (lookup_weaken _ _ _ _ Hx HK).
Qed.
End page.

(** ** Ranges of pages *)

(** A process that uses the space, and its lock. *)
Record runs s (p : user_process) : Prop := {
  rn_current : current s = Some p;
  rn_space : up_vmspace p = pd;
  rn_idle : sl_locked (up_lock p) = 0;
  rn_hhdm : hhdm_response s = Some (direct_map (u_machine s))
}.

Definition without (first n : Z) U : pages := filter (fun x => in_pages first n x.1 = false) U.

Lemma without_0 first U : without first 0 U = U.
Proof. apply map_filter_id. intros vpn x _. apply in_pages_0. Qed.

Lemma without_S first n U : 0 <= n -> without first (n + 1) U = delete (first + n) (without first n U).
Proof.
  intros Hn. apply map_eq. intros vpn. apply option_eq. intros x. unfold without. rewrite lookup_delete_Some, !map_lookup_filter_Some. simpl.
  rewrite in_pages_S by done. rewrite orb_false_iff, Z.eqb_neq. naive_solver.
Qed.

(** A loop whose body takes one page away. *)
Lemma wp_drop_loop (body : Z -> UM unit) s m tb U K virt n :
  u_machine s = m -> owns m tb U -> range_ok virt n -> virt mod 4096 = 0 ->
  K ⊆ U -> (forall vpn, in_pages (vpn_of virt) n vpn = true -> K !! vpn = None) ->
  (forall (Q : unit -> umem -> Prop) s1 U1 va, owns (u_machine s1) tb U1 -> direct_map (u_machine s1) = direct_map m ->
     user_addr va -> va mod 4096 = 0 ->
     (forall m', owns m' tb (delete (vpn_of va) U1) -> moved (u_machine s1) tb U1 m' tb (delete (vpn_of va) U1) -> Q tt (set_machine m' s1)) ->
     wp (body va) Q s1) ->
  wp (for_each 0 n tt (fun j _ => body (nth_page virt j)))
    (fun _ s' => exists m', s' = set_machine m' s /\ leads K m tb U m' tb (without (vpn_of virt) n U)) s.
Proof.
  intros Hm Ho Hr Ha HK HKn Hbody. pose proof Hr as (_ & Hn & _). eapply wp_mono.
  - apply (wp_for_each (fun j _ s' => exists m', s' = set_machine m' s /\ leads K m tb U m' tb (without (vpn_of virt) j U))).
    + exists m. rewrite without_0. split; [subst m; by destruct s|by apply leads_refl].
    + intros j [] s1 Hj (m1 & -> & Hl). destruct (nth_page_aligned virt n j Hr Ha ltac:(lia)) as (Hu & Hv & Hal).
      pose proof Hl as (Ho1 & Hsm & _). apply (Hbody _ _ (without (vpn_of virt) j U)); [done|apply Hsm|done|done|].
      intros m2 Ho2 Hmv. exists m2. split; [done|]. rewrite without_S by lia. rewrite <- Hv.
      eapply leads_step; [exact Hl|exact Ho2|exact Hmv|]. apply map_subseteq_spec. intros vpn x Hx.
      pose proof Hl as (_ & _ & _ & _ & HK1 & _). rewrite lookup_delete_ne; [by eapply lookup_weaken|]. intros <-.
      rewrite HKn in Hx; [done|]. unfold in_pages. rewrite Hv. lia.
  - intros [] s1 Hs1. by rewrite Z.max_r in Hs1 by lia.
Qed.

Lemma wp_release_loop s m tb U K virt n :
  u_machine s = m -> owns m tb U -> range_ok virt n -> virt mod 4096 = 0 ->
  K ⊆ U -> (forall vpn, in_pages (vpn_of virt) n vpn = true -> K !! vpn = None) ->
  wp (for_each 0 n tt (fun j _ => release_page pd (direct_map m) (nth_page virt j)))
    (fun _ s' => exists m', s' = set_machine m' s /\ leads K m tb U m' tb (without (vpn_of virt) n U)) s.
Proof.
  intros Hm Ho Hr Ha HK HKn. apply wp_drop_loop; try done. intros Q s1 U1 va Ho1 Hd Hu Hal HQ.
  by apply (wp_release_page (u_machine s1) tb U1).
Qed.

(** ** New pages *)

(** The pages of the range that were missing are new frames that hold zeros. *)
Definition added (first n fl : Z) m U m' U' : Prop :=
  forall vpn,
    match U !! vpn with
    | Some x => U' !! vpn = Some x
    | None =>
        if in_pages first n vpn
        then exists f, U' !! vpn = Some (f, fl) /\ f ∈ free m /\ forall i, 0 <= i < 512 -> word m' f i = 0
        else U' !! vpn = None
    end.

Lemma added_0 first fl m U : added first 0 fl m U m U.
Proof. intros vpn. rewrite in_pages_0. by destruct (U !! vpn). Qed.

(** A page outside of the range so far. *)
Lemma added_out first n fl m U m' U' vpn : added first n fl m U m' U' -> in_pages first n vpn = false -> U' !! vpn = U !! vpn.
Proof. intros Hadd Hin. specialize (Hadd vpn). destruct (U !! vpn); [done|]. by rewrite Hin in Hadd. Qed.

Lemma in_pages_end first n : in_pages first n (first + n) = false.
Proof. unfold in_pages. lia. Qed.

Lemma added_S first n fl m tb U m1 tb1 U1 m2 tb2 g :
  0 <= n -> leads U m tb U m1 tb1 U1 -> added first n fl m U m1 U1 -> U1 !! (first + n) = None ->
  g ∈ free m1 -> (forall i, 0 <= i < 512 -> word m2 g i = 0) -> moved m1 tb1 U1 m2 tb2 (<[first + n := (g, fl)]> U1) ->
  added first (n + 1) fl m U m2 (<[first + n := (g, fl)]> U1).
Proof.
  intros Hn (Ho1 & Hm1 & Hs1 & Hp1 & HK1 & Hk1) Hadd HU1 Hg Hz Hmv vpn. rewrite in_pages_S by done.
  destruct (Z.eqb_spec vpn (first + n)) as [->|Hne]; simpl.
  - rewrite <- (added_out _ _ _ _ _ _ _ _ Hadd (in_pages_end first n)), HU1. exists g. rewrite lookup_insert_eq.
    split_and!; [done| |done]. assert (Hpool : pool m1 tb1 U1 g) by (by left). apply Hp1 in Hpool.
    destruct Hpool as [?|[(q & Hq)|(w & fl' & Hx)]]; [done| |].
    + pose proof (lookup_weaken _ _ _ _ Hq Hs1) as Hq1. by destruct (sp_alloc _ _ _ _ _ (ow_space _ _ _ Ho1) _ _ Hq1).
    + pose proof (lookup_weaken _ _ _ _ Hx HK1) as Hx1. by destruct (ow_page _ _ _ Ho1 _ _ _ Hx1) as (_ & _ & ? & _).
  - specialize (Hadd vpn). rewrite lookup_insert_ne by done. destruct (U !! vpn); [done|]. destruct (in_pages first n vpn); [|done].
    destruct Hadd as (f & Hf & Hff & Hzf). exists f. split_and!; [done|done|]. intros i Hi. rewrite <- (Hzf i Hi).
    apply (mv_words _ _ _ _ _ _ Hmv U1) with vpn fl; [done|by apply insert_subseteq|done|done].
Qed.

Lemma added_skip first n fl m U m1 U1 x :
  0 <= n -> added first n fl m U m1 U1 -> U1 !! (first + n) = Some x -> added first (n + 1) fl m U m1 U1.
Proof.
  intros Hn Hadd HU1 vpn. rewrite in_pages_S by done. pose proof (Hadd vpn) as Hv.
  destruct (Z.eqb_spec vpn (first + n)) as [->|Hne]; [|done]. simpl.
  rewrite (added_out _ _ _ _ _ _ _ _ Hadd (in_pages_end first n)) in HU1. by rewrite HU1 in *.
Qed.

Lemma added_none first n fl m U m' U' i : added first i fl m U m' U' -> 0 <= i < n ->
  (forall vpn, in_pages first n vpn = true -> U !! vpn = None) -> U' !! (first + i) = None.
Proof.
  intros Hadd Hi Hno. rewrite (added_out _ _ _ _ _ _ _ _ Hadd (in_pages_end first i)). apply Hno. unfold in_pages. lia.
Qed.

(** Taking the new pages away again leaves the old ones. *)
Lemma added_without first n i fl m U m' U' : 0 <= i <= n -> added first i fl m U m' U' ->
  (forall vpn, in_pages first n vpn = true -> U !! vpn = None) -> without first i U' = U.
Proof.
  intros Hi Hadd Hno. apply map_eq. intros vpn. unfold without. destruct (in_pages first i vpn) eqn:Hin.
  - rewrite map_lookup_filter_None_2; [symmetry; apply Hno; unfold in_pages in *; lia|]. right. intros x _. simpl. by rewrite Hin.
  - rewrite <- (added_out _ _ _ _ _ _ _ _ Hadd Hin). apply option_eq. intros x. rewrite map_lookup_filter_Some. simpl. naive_solver.
Qed.

Lemma wp_mmap_loop s m tb U virt n fl :
  u_machine s = m -> owns m tb U -> range_ok virt n -> virt mod 4096 = 0 -> Z.land fl PAGE_ADDR_MASK = 0 ->
  (forall vpn, in_pages (vpn_of virt) n vpn = true -> U !! vpn = None) ->
  wp (for_range 0 n tt (fun i _ =>
        ok <- map_new_page pd (direct_map m) (nth_page virt i) fl ;;
        if negb ok then
          for_each 0 i tt (fun j _ => release_page pd (direct_map m) (nth_page virt j)) ;;;
          ret (inr (- ENOMEM))
        else ret (inl tt)))
    (fun r s' => exists m' tb' U', s' = set_machine m' s /\ leads U m tb U m' tb' U' /\
       match r with inl _ => added (vpn_of virt) n fl m U m' U' | inr rc => rc = - ENOMEM /\ U' = U end) s.
Proof.
  intros Hm Ho Hr Ha Hfl Hno. pose proof Hr as (Hv0 & Hn & Hend). eapply wp_mono.
  - apply (wp_for_range (fun i _ s' => exists m' tb' U', s' = set_machine m' s /\ leads U m tb U m' tb' U' /\
        added (vpn_of virt) i fl m U m' U')
      (fun rc s' => exists m' tb' U', s' = set_machine m' s /\ leads U m tb U m' tb' U' /\ rc = - ENOMEM /\ U' = U)).
    + exists m, tb, U. split_and!; [subst m; by destruct s|by apply leads_refl|apply added_0].
    + intros i [] s1 Hi (m1 & tb1 & U1 & -> & Hl & Hadd). destruct (nth_page_aligned virt n i Hr Ha Hi) as (Hu & Hvp & Hal).
      pose proof Hl as (Ho1 & Hsm & _ & _ & HK1 & _). pose proof (added_none _ n _ _ _ _ _ i Hadd Hi Hno) as Hnone. rewrite <- Hvp in Hnone.
      apply wp_bind. eapply (wp_map_new_page m1 tb1 U1 _ Ho1 Hu Hal); [done|symmetry; apply Hsm|done|done| |].
      * intros m2 tb2 Ho2 Hmv. cbn [negb]. apply wp_bind.
        pose proof (leads_step _ _ _ _ _ _ _ _ _ _ Hl Ho2 Hmv HK1) as Hl2. pose proof Hl2 as (_ & Hsm2 & _).
        replace (direct_map m) with (direct_map m2) by apply Hsm2.
        eapply wp_mono; [apply (wp_release_loop (set_machine m2 (set_machine m1 s)) m2 tb2 U1 U virt i); try done|].
        -- split_and!; lia.
        -- intros vpn Hin. apply Hno. unfold in_pages in *. lia.
        -- intros [] s3 (m3 & -> & Hl3). apply wp_ret. rewrite (added_without (vpn_of virt) n i fl m U m1 U1) in Hl3 by (done || lia).
           exists m3, tb2, U. split_and!; try done. by eapply leads_trans.
      * intros m2 tb2 g Hg Hz Ho2 Hmv. cbn [negb]. apply wp_ret. rewrite Hvp in *. exists m2, tb2, (<[vpn_of virt + i := (g, fl)]> U1). split_and!; [done| |].
        -- eapply leads_step; [exact Hl|done|done|]. etrans; [exact HK1|by apply insert_subseteq].
        -- eapply added_S; try done. lia.
  - intros [[]|rc] s' (m' & tb' & U' & -> & Hl & Hres); exists m', tb', U'; (split; [done|]; split; [done|]); [|done].
    by rewrite Z.max_r in Hres by lia.
Qed.

(** [brk] keeps the pages that are there.  When memory runs out, the pages
    mapped so far stay. *)
Lemma wp_brk_expand s m tb U virt n :
  u_machine s = m -> owns m tb U -> range_ok virt n -> virt mod 4096 = 0 ->
  wp (for_range 0 n tt (fun i _ =>
        let current_page := nth_page virt i in
        phys_addr <- low (mmu_get_physical_address pd current_page) ;;
        if phys_addr =? 0 then
          ok <- map_new_page pd (direct_map m) current_page 7 ;;
          if negb ok then ret (inr (- ENOMEM)) else ret (inl tt)
        else ret (inl tt)))
    (fun r s' => exists m' tb' U' i, s' = set_machine m' s /\ leads U m tb U m' tb' U' /\ added (vpn_of virt) i 7 m U m' U' /\
       match r with inl _ => i = n | inr rc => rc = - ENOMEM /\ 0 <= i < n end) s.
Proof.
  intros Hm Ho Hr Ha. pose proof Hr as (Hv0 & Hn & Hend). eapply wp_mono.
  - apply (wp_for_range (fun i _ s' => exists m' tb' U', s' = set_machine m' s /\ leads U m tb U m' tb' U' /\
        added (vpn_of virt) i 7 m U m' U')
      (fun rc s' => exists m' tb' U' i, s' = set_machine m' s /\ leads U m tb U m' tb' U' /\
        added (vpn_of virt) i 7 m U m' U' /\ rc = - ENOMEM /\ 0 <= i < n)).
    + exists m, tb, U. split_and!; [subst m; by destruct s|by apply leads_refl|apply added_0].
    + intros i [] s1 Hi (m1 & tb1 & U1 & -> & Hl & Hadd). destruct (nth_page_aligned virt n i Hr Ha Hi) as (Hu & Hvp & Hal).
      pose proof Hl as (Ho1 & Hsm & _ & _ & HK1 & _). cbv zeta. apply wp_bind, wp_low.
      apply (wp_eq _ _ _ _ _ (get_phys m1 tb1 U1 _ Ho1 Hu Hal)). destruct (U1 !! vpn_of (nth_page virt i)) as [[f fl]|] eqn:HU; simpl.
      * pose proof (ow_page _ _ _ Ho1 _ _ _ HU) as (_ & Hfr & _ & _ & _ & Hf0 & _). unfold in_ram in Hfr.
        rewrite (proj2 (Z.eqb_neq (4096 * f) 0)) by lia. apply wp_ret. exists m1, tb1, U1. split_and!; [done..|].
        rewrite Hvp in HU. eapply added_skip; [lia|done|done].
      * change (4096 * 0 =? 0) with true. cbn iota. apply wp_bind.
        eapply (wp_map_new_page m1 tb1 U1 _ Ho1 Hu Hal); [done|symmetry; apply Hsm|done|done| |].
        -- intros m2 tb2 Ho2 Hmv. cbn [negb]. apply wp_ret. exists m2, tb2, U1, i. split_and!; [done| | |done|lia|lia].
           ++ eapply leads_step; [exact Hl|done|done|done].
           ++ intros vpn. specialize (Hadd vpn). destruct (U !! vpn); [done|]. destruct (in_pages _ i vpn); [|done].
              destruct Hadd as (f & Hf & Hff & Hzf). exists f. split_and!; [done|done|]. intros k Hk. rewrite <- (Hzf k Hk).
              by apply (mv_words _ _ _ _ _ _ Hmv U1) with vpn 7.
        -- intros m2 tb2 g Hg Hz Ho2 Hmv. cbn [negb]. apply wp_ret. rewrite Hvp in *. exists m2, tb2, (<[vpn_of virt + i := (g, 7)]> U1). split_and!; [done| |].
           ++ eapply leads_step; [exact Hl|done|done|]. etrans; [exact HK1|by apply insert_subseteq].
           ++ eapply added_S; try done. lia.
  - intros [[]|rc] s' Hres.
    + destruct Hres as (m' & tb' & U' & Hs' & Hl & Hadd). rewrite Z.max_r in Hadd by lia. by exists m', tb', U', n.
    + done.
Qed.

(** ** The lock of the process *)

Definition uheld s (p : user_process) : umem :=
  UMem (no_irq (u_flags s)) (hhdm_response s) (Some (set_up_lock (Spinlock 1 get_cpu_id (no_irq (u_flags s))) p)) (u_machine s).
Definition urest s (p : user_process) : umem := set_current (Some (set_up_lock (rest_lock (u_flags s)) p)) s.

Lemma wp_uacquire (Q : Z -> umem -> Prop) s p :
  current s = Some p -> sl_locked (up_lock p) = 0 -> Q (u_flags s) (uheld s p) -> wp (spinlock_acquire_irqsave ps_lock) Q s.
Proof.
  intros Hc Hi HQ. apply wp_acquire_irqsave.
  - unfold lock_idle. simpl. by rewrite Hc.
  - revert HQ. unfold uheld, set_current. simpl. by rewrite Hc.
Qed.

Lemma wp_urelease (Q : unit -> umem -> Prop) s p :
  Q tt (urest s p) -> wp (spinlock_release_irqrestore ps_lock (u_flags s)) Q (uheld s p).
Proof. intros HQ. by apply wp_release_irqrestore. Qed.

Lemma wp_current_held (Q : user_process -> umem -> Prop) s p :
  Q (set_up_lock (Spinlock 1 get_cpu_id (no_irq (u_flags s))) p) (uheld s p) -> wp the_current Q (uheld s p).
Proof. intros HQ. unfold the_current. wp_step. wp_step. simpl. by wp_step. Qed.

Lemma wp_put_brk_held (Q : unit -> umem -> Prop) s p b : Q tt (uheld s (set_ps_brk b p)) -> wp (put_brk b) Q (uheld s p).
Proof. intros HQ. unfold put_brk. wp_step. apply wp_current_held. by wp_step. Qed.

Lemma wp_with_space (Q : Z -> umem -> Prop) s p tb U err (f : Z -> UM Z) :
  runs s p -> owns (u_machine s) tb U -> wp (f pd) Q s -> wp (with_space err f) Q s.
Proof.
  intros [Hc Hsp _ _] Ho Hf. unfold with_space. wp_step. wp_step. rewrite Hc, Hsp.
  rewrite (pd_not_null (u_machine s) tb U Ho (u_machine s)); [done|apply (ow_space _ _ _ Ho)|done].
Qed.

Lemma wp_hhdm_base (Q : Z -> umem -> Prop) s p : runs s p -> Q (direct_map (u_machine s)) s -> wp hhdm_base Q s.
Proof. intros [_ _ _ Hh] HQ. unfold hhdm_base. wp_step. wp_step. wp_step. by rewrite Hh. Qed.

Lemma runs_rest s p b : runs s p -> runs (urest s (set_ps_brk b p)) (set_up_lock (rest_lock (u_flags s)) (set_ps_brk b p)).
Proof. intros [Hc Hsp Hi Hh]. by split. Qed.

Lemma runs_machine s p m' : runs s p -> same_machine (u_machine s) m' -> runs (set_machine m' s) p.
Proof. intros [Hc Hsp Hi Hh] Hsm. split; try done. simpl. by rewrite (sm_direct _ _ Hsm). Qed.

(** ** The calls *)

Lemma page_round_up_spec x : 0 <= x < 2 ^ 63 ->
  page_round_up x mod 4096 = 0 /\ x <= page_round_up x < x + 4096 /\ page_round_up x = 4096 * (page_round_up x / PAGE_SIZE).
Proof.
  intros Hx. assert (Heq : page_round_up x = 4096 * ((x + 4095) / 4096)); [|rewrite Heq; unfold PAGE_SIZE; dlia].
  unfold page_round_up, PAGE_SIZE, u64. rewrite Z.mod_small by lia. rewrite page_align_down_eq by lia. unfold PAGE_SIZE. f_equal. f_equal. lia.
Qed.

Lemma page_align_down_aligned x : 0 <= x < 2 ^ 64 -> page_align_down x mod 4096 = 0.
Proof. intros Hx. rewrite page_align_down_eq by lia. unfold PAGE_SIZE. dlia. Qed.

Lemma user_address_range a : is_user_address a = true -> 0 < a < 2 ^ 47.
Proof. unfold is_user_address. intros [H1%Z.leb_le H2%Z.ltb_lt]%andb_prop. unfold USER_SPACE_START, USER_SPACE_END in *. lia. Qed.

Lemma prot_flags_mask prot : Z.land (prot_flags prot) PAGE_ADDR_MASK = 0.
Proof. unfold prot_flags. by destruct (negb (Z.land prot PROT_WRITE =? 0)), (Z.land prot PROT_EXEC =? 0). Qed.

(** Where a mapping goes. *)
Definition mmap_place (p : user_process) (addr flags : Z) : option Z :=
  if negb (Z.land flags MAP_FIXED =? 0) then (if is_user_address addr then Some (page_align_down addr) else None)
  else
    let virt_addr := page_round_up (ps_brk p) in
    Some (if negb (addr =? NULL) && is_user_address addr && (virt_addr <=? page_align_down addr) then page_align_down addr else virt_addr).

Lemma mmap_place_aligned p addr flags virt : 0 <= ps_brk p < 2 ^ 63 -> mmap_place p addr flags = Some virt -> virt mod 4096 = 0.
Proof.
  intros Hb. unfold mmap_place. destruct (negb _).
  - destruct (is_user_address addr) eqn:Hu; [|done]. intros [= <-]. apply page_align_down_aligned. apply user_address_range in Hu. lia.
  - intros [= <-]. destruct (_ && _) eqn:Hc; [|by apply page_round_up_spec].
    apply andb_prop in Hc as [[_ Hu]%andb_prop _]. apply page_align_down_aligned. apply user_address_range in Hu. lia.
Qed.

(** The process after a call that reached the machine [m']. *)
Definition ended s m' s' (p' : user_process) : Prop := runs s' p' /\ u_machine s' = m' /\ u_flags s' = u_flags s.

(** The lock taken and released around a read of the break. *)
Lemma wp_place (Q : option Z -> umem -> Prop) s p addr flags :
  runs s p ->
  (forall s' p', runs s' p' -> ps_brk p' = ps_brk p -> u_machine s' = u_machine s -> u_flags s' = u_flags s ->
     Q (mmap_place p addr flags) s') ->
  wp (if negb (Z.land flags MAP_FIXED =? 0) then
        ret (if is_user_address addr then Some (page_align_down addr) else None)
      else
        lock_flags <- spinlock_acquire_irqsave ps_lock ;;
        p <- the_current ;;
        let virt_addr := page_round_up (ps_brk p) in
        spinlock_release_irqrestore ps_lock lock_flags ;;;
        ret (Some (if negb (addr =? NULL) && is_user_address addr && (virt_addr <=? page_align_down addr)
                   then page_align_down addr else virt_addr))) Q s.
Proof.
  intros Hr HQ. unfold mmap_place in HQ. destruct (negb _); [wp_step; by apply (HQ s p)|]. wp_step.
  eapply wp_uacquire; [apply Hr|apply Hr|]. wp_step. apply wp_current_held. cbv zeta. wp_step. apply wp_urelease. wp_step.
  eapply (HQ _ (set_up_lock (rest_lock (u_flags s)) p)); try done. destruct Hr. by split.
Qed.

Lemma wp_sys_mmap s p tb U addr length prot flags virt :
  let n := page_round_up length / PAGE_SIZE in
  runs s p -> owns (u_machine s) tb U -> 0 <= ps_brk p < 2 ^ 63 -> 0 < length < 2 ^ 63 ->
  Z.land flags MAP_ANONYMOUS <> 0 -> Z.land flags (Z.lor MAP_SHARED MAP_PRIVATE) <> 0 ->
  mmap_place p addr flags = Some virt -> range_ok virt n ->
  (forall vpn, in_pages (vpn_of virt) n vpn = true -> U !! vpn = None) ->
  wp (sys_mmap addr length prot flags) (fun rc s' => exists m' tb' U' p', leads U (u_machine s) tb U m' tb' U' /\ ended s m' s' p' /\
    (rc = virt /\ added (vpn_of virt) n (prot_flags prot) (u_machine s) U m' U' /\ ps_brk p' = Z.max (ps_brk p) (virt + 4096 * n) \/
     rc = - ENOMEM /\ U' = U /\ ps_brk p' = ps_brk p)) s.
Proof.
  intros n Hr Ho Hb Hlen Hanon Hsh Hplace Hrange Hno. pose proof (mmap_place_aligned _ _ _ _ Hb Hplace) as Hal.
  pose proof Hrange as (Hv0 & Hn0 & Hend). destruct (page_round_up_spec length ltac:(lia)) as (_ & Hup & Heq). fold n in Heq.
  unfold sys_mmap. eapply wp_with_space; [exact Hr|exact Ho|]. rewrite (proj2 (Z.eqb_neq length 0)) by lia.
  rewrite (proj2 (Z.eqb_neq (Z.land flags MAP_ANONYMOUS) 0)) by done.
  assert (Hshb : (Z.land flags MAP_SHARED =? 0) && (Z.land flags MAP_PRIVATE =? 0) = false).
  { apply not_true_is_false. intros [H1%Z.eqb_eq H2%Z.eqb_eq]%andb_prop. by rewrite Z.land_lor_distr_r, H1, H2 in Hsh. }
  rewrite Hshb. cbv zeta. fold n. wp_step. eapply wp_place; [exact Hr|]. intros s1 p1 Hr1 Hb1 Hm1 Hfl1. rewrite Hplace.
  wp_step. eapply wp_hhdm_base; [exact Hr1|]. rewrite Hm1. wp_step.
  eapply wp_mono; [apply (wp_mmap_loop s1 (u_machine s) tb U virt n); try done; apply prot_flags_mask|].
  intros r s2 (m2 & tb2 & U2 & -> & Hl & Hres).
  assert (Hr2 : runs (set_machine m2 s1) p1) by (apply runs_machine; [done|rewrite Hm1; apply Hl]).
  destruct r as [[]|rc].
  2: { destruct Hres as [-> ->]. wp_step. exists m2, tb2, U, p1. split_and!; [done|by split_and!|by right]. }
  wp_step. eapply wp_uacquire; [apply Hr2|apply Hr2|]. wp_step. apply wp_current_held. wp_step. simpl ps_brk.
  assert (Hvb : u64 (virt + page_round_up length) = virt + 4096 * n).
  { rewrite Heq. unfold u64. apply Z.mod_small. unfold vpn_of in Hend. dlia. }
  rewrite Hvb. set (b := Z.max (ps_brk p) (virt + 4096 * n)).
  assert (Hput : wp (if ps_brk p1 <? virt + 4096 * n then put_brk (virt + 4096 * n) else ret tt)
    (fun _ s' => s' = uheld (set_machine m2 s1) (set_ps_brk b p1)) (uheld (set_machine m2 s1) p1)).
  { unfold b. rewrite Hb1. destruct (Z.ltb_spec (ps_brk p) (virt + 4096 * n)).
    - apply wp_put_brk_held. by rewrite Z.max_r by lia.
    - wp_step. rewrite Z.max_l by lia. rewrite <- Hb1. by destruct p1. }
  eapply wp_mono; [exact Hput|]. intros _ s3 ->. wp_step. apply wp_urelease. wp_step.
  eexists m2, tb2, U2, _. split; [done|]. split; [split; [by apply runs_rest|by split]|]. left. by split_and!.
Qed.

Lemma wp_sys_munmap s p tb U addr length :
  let n := page_round_up length / PAGE_SIZE in
  runs s p -> owns (u_machine s) tb U -> is_user_address addr = true -> 0 < length < 2 ^ 63 -> range_ok addr n ->
  wp (sys_munmap addr length) (fun rc s' => rc = 0 /\ exists m', ended s m' s' p /\
    leads (without (vpn_of addr) n U) (u_machine s) tb U m' tb (without (vpn_of addr) n U)) s.
Proof.
  intros n Hr Ho Ha Hlen Hrange. pose proof (user_address_range _ Ha) as Har. unfold sys_munmap.
  eapply wp_with_space; [exact Hr|exact Ho|]. rewrite Ha, (proj2 (Z.eqb_neq length 0)) by lia. cbn [negb orb]. cbv zeta. fold n.
  wp_step. eapply wp_hhdm_base; [exact Hr|]. wp_step.
  assert (Hv : vpn_of (page_align_down addr) = vpn_of addr).
  { rewrite page_align_down_eq by lia. unfold vpn_of, PAGE_SIZE. dlia. }
  eapply wp_mono.
  { apply (wp_drop_loop (fun virt_page => phys_addr <- low (mmu_get_physical_address pd virt_page) ;;
        low (paging_unmap_range pd virt_page 1) ;;;
        if negb (phys_addr =? 0) then low (in_frames (pmm_free (u64 (phys_addr + direct_map (u_machine s))))) else ret tt)
      s (u_machine s) tb U (without (vpn_of addr) n U) (page_align_down addr) n).
    - done.
    - done.
    - destruct Hrange as (? & ? & ?). rewrite <- Hv in *. split_and!; try done. rewrite page_align_down_eq by lia. unfold PAGE_SIZE. dlia.
    - apply page_align_down_aligned. lia.
    - apply map_filter_subseteq.
    - intros vpn Hin. rewrite Hv in Hin. apply map_lookup_filter_None_2. right. intros x _. simpl. by rewrite Hin.
    - intros Q s1 U1 va Ho1 Hd Hu Hal HQ. by apply (wp_unmap_page_of (u_machine s1) tb U1). }
  intros [] s1 (m1 & -> & Hl). wp_step. split; [done|]. exists m1. rewrite Hv in Hl. split; [|done].
  split; [|done]. apply runs_machine; [done|apply Hl].
Qed.

(** ** The break *)

Definition old_break (p : user_process) : Z := if ps_brk p =? 0 then 0x500000 else ps_brk p.
Definition break_ok (addr : Z) : Prop := USER_CODE_BASE <= addr < USER_STACK_TOP - PROCESS_USER_STACK_SIZE.

(** The pages between two breaks. *)
Definition brk_pages (a b : Z) : Z := pages_between (page_round_up a) (page_round_up b).

Lemma brk_range a b : 0 <= a < 2 ^ 47 - 4096 -> 0 <= b < 2 ^ 47 - 4096 -> range_ok (page_round_up a) (brk_pages a b).
Proof.
  intros Ha Hb. destruct (page_round_up_spec a ltac:(lia)) as (Ham & Hau & _). destruct (page_round_up_spec b ltac:(lia)) as (Hbm & Hbu & _).
  unfold range_ok, brk_pages, pages_between, vpn_of, PAGE_SIZE. destruct (Z.ltb_spec (page_round_up a) (page_round_up b)); dlia.
Qed.

(** What [brk] has done: the break is [addr] and the pages up to it are there,
    or memory ran out. *)
Definition brk_result (old addr : Z) m tb U (rc : Z) m' tb' U' (new : Z) : Prop :=
  if old <? addr then
    leads U m tb U m' tb' U' /\ exists i, added (vpn_of (page_round_up old)) i 7 m U m' U' /\
      (rc = addr /\ new = addr /\ i = brk_pages old addr \/ rc = - ENOMEM /\ new = old /\ 0 <= i < brk_pages old addr)
  else
    rc = addr /\ new = addr /\ tb' = tb /\ U' = without (vpn_of (page_round_up addr)) (brk_pages addr old) U /\ leads U' m tb U m' tb' U'.

(** The loop that [brk] runs. *)
Lemma wp_brk_move s p tb U old addr :
  runs s p -> owns (u_machine s) tb U -> ps_brk p = old -> 0 <= old < 2 ^ 47 - 4096 -> break_ok addr ->
  wp (hhdm_offset <- hhdm_base ;;
      rc <- (
        if old <? addr then brk_expand pd hhdm_offset (page_round_up old) (page_round_up addr)
        else brk_shrink pd hhdm_offset (page_round_up addr) (page_round_up old)) ;;
      if negb (rc =? 0) then ret rc
      else
        lock_flags <- spinlock_acquire_irqsave ps_lock ;;
        put_brk addr ;;;
        spinlock_release_irqrestore ps_lock lock_flags ;;;
        ret addr)
    (fun rc s' => exists m' tb' U' p', ended s m' s' p' /\ brk_result old addr (u_machine s) tb U rc m' tb' U' (ps_brk p')) s.
Proof.
  intros Hr Ho Hbrk Hold Haddr. unfold break_ok, USER_CODE_BASE, USER_STACK_TOP, PROCESS_USER_STACK_SIZE in Haddr.
  assert (Hfin : forall m1 tb1 U1 rc, rc = 0 -> same_machine (u_machine s) m1 -> brk_result old addr (u_machine s) tb U addr m1 tb1 U1 addr ->
    wp (if negb (rc =? 0) then ret rc
      else lock_flags <- spinlock_acquire_irqsave ps_lock ;; put_brk addr ;;; spinlock_release_irqrestore ps_lock lock_flags ;;; ret addr)
    (fun rc s' => exists m' tb' U' p', ended s m' s' p' /\ brk_result old addr (u_machine s) tb U rc m' tb' U' (ps_brk p')) (set_machine m1 s)).
  { intros m1 tb1 U1 rc -> Hsm Hres. change (negb (0 =? 0)) with false. cbn iota. pose proof (runs_machine _ _ _ Hr Hsm) as Hr1. wp_step.
    eapply wp_uacquire; [apply Hr1|apply Hr1|]. wp_step. apply wp_put_brk_held. wp_step. apply wp_urelease. wp_step.
    eexists m1, tb1, U1, _. split; [split; [by apply runs_rest|by split]|done]. }
  wp_step. eapply wp_hhdm_base; [exact Hr|]. wp_step. unfold brk_result in *. destruct (Z.ltb_spec old addr) as [Hlt|Hge].
  - unfold brk_expand. wp_step. fold (brk_pages old addr).
    eapply wp_mono; [apply (wp_brk_expand s (u_machine s) tb U); [done|done|apply brk_range; lia|apply page_round_up_spec; lia]|].
    intros r s1 (m1 & tb1 & U1 & i & -> & Hl & Hadd & Hres). destruct r as [[]|rc]; wp_step.
    + subst i. apply (Hfin m1 tb1 U1); [done|apply Hl|]. split; [done|]. eexists. split; [exact Hadd|by left].
    + destruct Hres as [-> Hi]. change (negb (- ENOMEM =? 0)) with true. cbn iota. wp_step. exists m1, tb1, U1, p. split.
      * split; [apply runs_machine; [done|apply Hl]|done].
      * split; [done|]. exists i. split; [done|]. right. by rewrite Hbrk.
  - unfold brk_shrink. wp_step. fold (brk_pages addr old).
    eapply wp_mono; [apply (wp_release_loop s (u_machine s) tb U (without (vpn_of (page_round_up addr)) (brk_pages addr old) U)); try done|].
    + apply brk_range; lia.
    + apply page_round_up_spec; lia.
    + apply map_filter_subseteq.
    + intros vpn Hin. apply map_lookup_filter_None_2. right. intros x _. simpl. by rewrite Hin.
    + intros [] s1 (m1 & -> & Hl). wp_step. eapply (Hfin m1 tb); [done|apply Hl|]. by split_and!.
Qed.

Lemma brk_result_same m tb U addr : owns m tb U -> brk_result addr addr m tb U addr m tb U addr.
Proof.
  intros Ho. unfold brk_result. rewrite Z.ltb_irrefl. assert (Hp : brk_pages addr addr = 0) by (unfold brk_pages, pages_between; by rewrite Z.ltb_irrefl).
  rewrite Hp, without_0. by split_and!.
Qed.

Lemma wp_sys_brk s p tb U addr :
  runs s p -> owns (u_machine s) tb U -> 0 <= ps_brk p < 2 ^ 47 - 4096 -> break_ok addr ->
  wp (sys_brk addr) (fun rc s' => exists m' tb' U' p', ended s m' s' p' /\
    brk_result (old_break p) addr (u_machine s) tb U rc m' tb' U' (ps_brk p')) s.
Proof.
  intros Hr Ho Hb Haddr. unfold sys_brk. eapply wp_with_space; [exact Hr|exact Ho|]. wp_step.
  eapply wp_uacquire; [apply Hr|apply Hr|]. wp_step. apply wp_current_held. simpl ps_brk.
  pose proof Haddr as [Hlo Hhi]. rewrite (proj2 (Z.eqb_neq addr NULL)) by (unfold NULL, USER_CODE_BASE in *; lia).
  assert (Hua : is_user_address addr = true).
  { unfold is_user_address. apply andb_true_intro. unfold USER_CODE_BASE, USER_SPACE_START, USER_SPACE_END, USER_STACK_TOP, PROCESS_USER_STACK_SIZE in *. split; [apply Z.leb_le|apply Z.ltb_lt]; lia. }
  rewrite Hua, (proj2 (Z.ltb_ge addr USER_CODE_BASE)), (proj2 (Z.leb_gt _ addr)) by lia. cbn [negb orb]. wp_step.
  assert (Hput : wp (if ps_brk p =? 0 then let b := page_align_down (USER_CODE_BASE + 0x100000) in put_brk b ;;; ret b else ret (ps_brk p))
    (fun old s' => old = old_break p /\ s' = uheld s (set_ps_brk (old_break p) p)) (uheld s p)).
  { unfold old_break. destruct (Z.eqb_spec (ps_brk p) 0); cbv zeta.
    - change (page_align_down (USER_CODE_BASE + 0x100000)) with 0x500000. wp_step. apply wp_put_brk_held. by wp_step.
    - wp_step. split; [done|]. by destruct p. }
  eapply wp_mono; [exact Hput|]. intros old s1 [-> ->].
  assert (Hr1 : runs (urest s (set_ps_brk (old_break p) p)) (set_up_lock (rest_lock (u_flags s)) (set_ps_brk (old_break p) p))) by (by apply runs_rest).
  destruct (Z.eqb_spec addr (old_break p)) as [->|Hne].
  - wp_step. apply wp_urelease. wp_step. eexists (u_machine s), tb, U, _. split; [split; [exact Hr1|done]|]. by apply brk_result_same.
  - wp_step. apply wp_urelease. assert (Hold : 0 <= old_break p < 2 ^ 47 - 4096) by (unfold old_break; destruct (ps_brk p =? 0); lia).
    eapply wp_mono; [apply (wp_brk_move _ _ tb U (old_break p) addr Hr1); done|]. intros rc s2 (m' & tb' & U' & p' & He & Hres).
    exists m', tb', U', p'. by split.
Qed.
End memory.

(** The free frames, when the pages are the same and tables may have grown. *)
Lemma pool_free pd d root m tb U m' tb' f :
  owns pd d root m tb U -> owns pd d root m' tb' U -> tb ⊆ tb' -> (forall f, pool m tb U f <-> pool m' tb' U f) ->
  f ∈ free m <-> f ∈ free m' \/ exists q, tb' !! q = Some f /\ tb !! q = None.
Proof.
  intros Ho Ho' Hsub Hpool. split.
  - intros Hf. assert (Hp : pool m tb U f) by (by left). apply Hpool in Hp as [?|[[q Hq]|(w & fl & Hx)]]; [by left| |].
    + right. exists q. split; [done|]. destruct (tb !! q) as [g|] eqn:Hg; [|done]. rewrite (lookup_weaken _ _ _ _ Hg Hsub) in Hq. simplify_eq.
      by destruct (sp_alloc _ _ _ _ _ (ow_space _ _ _ _ _ _ Ho) _ _ Hg).
    + by destruct (ow_page _ _ _ _ _ _ Ho _ _ _ Hx) as (_ & _ & ? & _).
  - intros [Hf|(q & Hq & Hn)].
    + assert (Hp : pool m' tb' U f) by (by left). apply Hpool in Hp as [?|[[q Hq]|(w & fl & Hx)]]; [done| |].
      * by destruct (sp_alloc _ _ _ _ _ (ow_space _ _ _ _ _ _ Ho') _ _ (lookup_weaken _ _ _ _ Hq Hsub)).
      * by destruct (ow_page _ _ _ _ _ _ Ho' _ _ _ Hx) as (_ & _ & ? & _).
    + assert (Hp : pool m' tb' U f) by (right; left; by exists q). apply Hpool in Hp as [?|[[q2 Hq2]|(w & fl & Hx)]]; [done| |].
      * pose proof (lookup_weaken _ _ _ _ Hq2 Hsub) as Hq3.
        rewrite (t_inj _ _ _ (sp_tree _ _ _ _ _ (ow_space _ _ _ _ _ _ Ho')) _ _ _ Hq Hq3) in Hn. congruence.
      * destruct (ow_page _ _ _ _ _ _ Ho' _ _ _ Hx) as (_ & _ & _ & Hnt & _). by destruct (Hnt q).
Qed.

(** C11: [sys_mmap] with [MAP_ANONYMOUS] and [MAP_SHARED] or
    [MAP_PRIVATE], of a range of the user half in which nothing is mapped
    yet: either the call returns the address of the range, and the pages of
    the process are the old ones and, for each page of the range, a frame of
    its own that was free and holds zeros, with the rights asked for, and the
    break is behind the range; or it returns [ENOMEM] and the pages and the
    break are those before.  In both cases the old pages keep their contents,
    and the free frames, the page tables and the frames of the process are
    together the same frames: none is lost and none is used twice. *)
Theorem mmap_refines_pages pd d root s p tb U addr length prot flags virt :
  let n := page_round_up length / PAGE_SIZE in
  runs pd s p -> owns pd d root (u_machine s) tb U -> 0 <= ps_brk p < 2 ^ 63 -> 0 < length < 2 ^ 63 ->
  Z.land flags MAP_ANONYMOUS <> 0 -> Z.land flags (Z.lor MAP_SHARED MAP_PRIVATE) <> 0 ->
  mmap_place p addr flags = Some virt -> range_ok virt n ->
  (forall vpn, in_pages (vpn_of virt) n vpn = true -> U !! vpn = None) ->
  exists rc s' m' tb' U' p',
    sys_mmap addr length prot flags s = Ok (rc, s') /\
    leads pd d root U (u_machine s) tb U m' tb' U' /\ ended pd s m' s' p' /\
    (rc = virt /\ added (vpn_of virt) n (prot_flags prot) (u_machine s) U m' U' /\ ps_brk p' = Z.max (ps_brk p) (virt + 4096 * n) \/
     rc = - ENOMEM /\ U' = U /\ ps_brk p' = ps_brk p).
Proof.
  intros n Hr Ho Hb Hlen Hanon Hsh Hplace Hrange Hno.
  destruct (proj1 (wp_run _ _ _) (wp_sys_mmap pd d root s p tb U addr length prot flags virt Hr Ho Hb Hlen Hanon Hsh Hplace Hrange Hno))
    as (rc & s' & Hrun & m' & tb' & U' & p' & ?). by exists rc, s', m', tb', U', p'.
Qed.

(** C23: What an anonymous [sys_mmap] has mapped in a range of the user half in
    which nothing was mapped before, [sys_munmap] of the same range takes away:
    the pages are those before with their contents, and every frame that was
    free is free again, unless it has become a page table of the process.
    (Over pages that were mapped it is not so: [mmap_fixed_twice_leaks].) *)
Theorem mmap_munmap_roundtrip pd d root s p tb U addr length prot flags virt s1 :
  let n := page_round_up length / PAGE_SIZE in
  runs pd s p -> owns pd d root (u_machine s) tb U -> 0 <= ps_brk p < 2 ^ 63 -> 0 < length < 2 ^ 63 ->
  Z.land flags MAP_ANONYMOUS <> 0 -> Z.land flags (Z.lor MAP_SHARED MAP_PRIVATE) <> 0 ->
  mmap_place p addr flags = Some virt -> is_user_address virt = true -> range_ok virt n ->
  (forall vpn, in_pages (vpn_of virt) n vpn = true -> U !! vpn = None) ->
  sys_mmap addr length prot flags s = Ok (virt, s1) ->
  exists s2 tb2, sys_munmap virt length s1 = Ok (0, s2) /\ owns pd d root (u_machine s2) tb2 U /\ keeps U (u_machine s) (u_machine s2) /\
    (forall f, f ∈ free (u_machine s) <-> f ∈ free (u_machine s2) \/ exists q, tb2 !! q = Some f /\ tb !! q = None).
Proof.
  intros n Hr Ho Hb Hlen Hanon Hsh Hplace Hua Hrange Hno Hmap.
  pose proof (wp_inv Hmap (wp_sys_mmap pd d root s p tb U addr length prot flags virt Hr Ho Hb Hlen Hanon Hsh Hplace Hrange Hno))
    as (m1 & tb1 & U1 & p1 & Hl1 & (Hr1 & Hm1 & _) & Hres).
  destruct Hres as [(_ & Hadd & _)|(Hneg & _)]; [|apply user_address_range in Hua; unfold ENOMEM in Hneg; lia].
  assert (Ho1 : owns pd d root (u_machine s1) tb1 U1) by (rewrite Hm1; apply Hl1).
  destruct (proj1 (wp_run _ _ _) (wp_sys_munmap pd d root s1 p1 tb1 U1 virt length Hr1 Ho1 Hua Hlen Hrange))
    as (rc & s2 & Hrun & -> & m2 & (_ & Hm2 & _) & Hl2).
  fold n in Hl2. pose proof Hrange as (_ & Hn & _). rewrite (added_without (vpn_of virt) n n _ _ _ _ _ ltac:(lia) Hadd Hno) in Hl2.
  rewrite Hm1 in Hl2. pose proof (leads_trans _ _ _ _ _ _ _ _ _ _ _ _ _ Hl1 Hl2) as (Ho2 & _ & Hsub & Hpool & _ & Hk).
  exists s2, tb1. rewrite Hm2. split_and!; [done|done|done|]. intros f. by eapply pool_free.
Qed.

(** C22: [sys_brk] moves the break: upwards, the pages up to the new break are
    there afterwards, those that were missing as new frames that hold zeros,
    or the call returns [ENOMEM] and the break stays where it was, with a
    prefix of the new pages mapped; downwards, exactly the pages above the new
    break go away and their frames become free.  All other pages keep their
    contents, and no frame is lost. *)
Theorem brk_refines_pages pd d root s p tb U addr :
  runs pd s p -> owns pd d root (u_machine s) tb U -> 0 <= ps_brk p < 2 ^ 47 - 4096 -> break_ok addr ->
  exists rc s' m' tb' U' p', sys_brk addr s = Ok (rc, s') /\ ended pd s m' s' p' /\
    brk_result pd d root (old_break p) addr (u_machine s) tb U rc m' tb' U' (ps_brk p').
Proof.
  intros Hr Ho Hb Haddr. destruct (proj1 (wp_run _ _ _) (wp_sys_brk pd d root s p tb U addr Hr Ho Hb Haddr))
    as (rc & s' & Hrun & m' & tb' & U' & p' & ?). by exists rc, s', m', tb', U', p'.
Qed.

(** ** Where the calls fail *)

(** The flags that [MAP_PRIVATE | MAP_ANONYMOUS] stand for in the header of
    user programs are refused. *)
Definition USER_MAP_ANONYMOUS : Z := 0x0020.

Theorem mmap_refuses_user_flags addr length prot s :
  sys_mmap addr length prot (Z.lor MAP_PRIVATE USER_MAP_ANONYMOUS) s = Ok (- EINVAL, s).
Proof.
  unfold sys_mmap, with_space, bind, gets. destruct (current s) as [p|]; [|done]. destruct (up_vmspace p =? NULL); [done|].
  by destruct (length =? 0).
Qed.

(** A length whose rounding overflows: the call succeeds and maps nothing. *)
Theorem mmap_huge_length_maps_nothing pd s p addr length prot flags :
  runs pd s p -> pd <> NULL -> 2 ^ 64 - 4095 <= length < 2 ^ 64 -> is_user_address addr = true ->
  Z.land flags MAP_ANONYMOUS <> 0 -> Z.land flags (Z.lor MAP_SHARED MAP_PRIVATE) <> 0 -> Z.land flags MAP_FIXED <> 0 ->
  exists s', sys_mmap addr length prot flags s = Ok (page_align_down addr, s') /\ u_machine s' = u_machine s.
Proof.
  intros Hr Hpd Hlen Hu Hanon Hsh Hfix. pose proof Hr as [Hc Hsp Hi Hh]. pose proof (user_address_range _ Hu) as Har.
  assert (Hw : wp (sys_mmap addr length prot flags) (fun rc s' => rc = page_align_down addr /\ u_machine s' = u_machine s) s).
  { unfold sys_mmap, with_space. wp_step. wp_step. rewrite Hc, Hsp, (proj2 (Z.eqb_neq pd NULL) Hpd), (proj2 (Z.eqb_neq length 0)) by lia.
    rewrite (proj2 (Z.eqb_neq _ 0) Hanon).
    assert (Hshb : (Z.land flags MAP_SHARED =? 0) && (Z.land flags MAP_PRIVATE =? 0) = false).
    { apply not_true_is_false. intros [H1%Z.eqb_eq H2%Z.eqb_eq]%andb_prop. by rewrite Z.land_lor_distr_r, H1, H2 in Hsh. }
    rewrite Hshb. cbv zeta. wp_step. rewrite (proj2 (Z.eqb_neq _ 0) Hfix), Hu. cbn [negb]. wp_step. wp_step.
    eapply wp_hhdm_base; [exact Hr|]. wp_step.
    assert (Hru : page_round_up length = 0).
    { unfold page_round_up, PAGE_SIZE, u64. replace (length + 4096 - 1) with (length - (2 ^ 64 - 4095) + 1 * 2 ^ 64) by lia.
      rewrite Z_mod_plus_full, Z.mod_small by lia. rewrite page_align_down_eq by lia. unfold PAGE_SIZE. dlia. }
    rewrite Hru. unfold for_range. simpl. wp_step. wp_step. eapply wp_uacquire; [done|done|]. wp_step. apply wp_current_held. wp_step.
    destruct (_ <? _); [apply wp_put_brk_held|wp_step]; wp_step; apply wp_urelease; by wp_step. }
  apply wp_run in Hw as (rc & s' & Hrun & -> & ?). by exists s'.
Qed.

(** ** Examples on the machine of [MmuThms.v] *)

Definition demo_proc : user_process := UserProcess spinlock_init 0x500000 demo_pd.
Definition demo_umem : umem := UMem 0x202 (Some (direct_map demo_space)) (Some demo_proc) demo_space.
Definition anon_flags : Z := Z.lor MAP_PRIVATE MAP_ANONYMOUS.

Lemma fresh_runs m pd b : runs pd (UMem 0x202 (Some (direct_map m)) (Some (UserProcess spinlock_init b pd)) m) (UserProcess spinlock_init b pd).
Proof. by split. Qed.

Lemma demo_runs : runs demo_pd demo_umem demo_proc.
Proof. exact (fresh_runs demo_space demo_pd 0x500000). Qed.

Lemma owns_empty m pd d root : space m pd d root {[ (3%nat, 0) := root ]} -> 0 ∉ free m -> owns pd d root m {[ (3%nat, 0) := root ]} ∅.
Proof.
  intros Hs Hz. split; try done. intros vpn Hv. rewrite lookup_empty. by eapply empty_space_walk.
Qed.

Lemma demo_owns : exists d root, owns demo_pd d root demo_space {[ (3%nat, 0) := root ]} ∅.
Proof.
  assert (Hb : bit (bitmap_mem (frames demo_space)) 0 = true) by (vm_compute; reflexivity).
  destruct demo_is_space as (d & root & _ & Hs). exists d, root. exact (owns_empty _ _ _ _ Hs (used_not_free demo_space 0 Hb)).
Qed.

Lemma mmap_refines_pages_witness : exists rc s', sys_mmap 0 0x1800 3 anon_flags demo_umem = Ok (rc, s').
Proof.
  destruct demo_owns as (d & root & Ho).
  destruct (mmap_refines_pages demo_pd d root demo_umem demo_proc _ ∅ 0 0x1800 3 anon_flags 0x500000 demo_runs Ho) as (rc & s' & m' & tb' & U' & p' & Hr & _).
  - by vm_compute.
  - by vm_compute.
  - by vm_compute.
  - by vm_compute.
  - by vm_compute.
  - by vm_compute.
  - intros vpn _. reflexivity.
  - exists rc, s'. exact Hr.
Defined.

Definition umem_after {A : Type} (c : UM A) s : umem := match c s with Ok (_, s') => s' | Fault _ => s end.
Definition mapped_umem : umem := umem_after (sys_mmap 0 0x1800 3 anon_flags) demo_umem.

Lemma demo_mmap_runs : match sys_mmap 0 0x1800 3 anon_flags demo_umem with Ok (rc, _) => rc =? 0x500000 | Fault _ => false end = true.
Proof. vm_compute. reflexivity. Qed.

Lemma ran_to {A : Type} (c : UM Z) s rc : match c s with Ok (r, _) => r =? rc | Fault _ => false end = true -> c s = Ok (rc, umem_after c s).
Proof. unfold umem_after. destruct (c s) as [[r s']|]; [|done]. by intros ->%Z.eqb_eq. Qed.

Lemma mmap_munmap_roundtrip_witness : exists s2, sys_munmap 0x500000 0x1800 mapped_umem = Ok (0, s2).
Proof.
  destruct demo_owns as (d & root & Ho).
  destruct (mmap_munmap_roundtrip demo_pd d root demo_umem demo_proc _ ∅ 0 0x1800 3 anon_flags 0x500000 mapped_umem demo_runs Ho) as (s2 & tb2 & Hr & _).
  - by vm_compute.
  - by vm_compute.
  - by vm_compute.
  - by vm_compute.
  - by vm_compute.
  - by vm_compute.
  - by vm_compute.
  - intros vpn _. reflexivity.
  - apply (ran_to (A := Z)). exact demo_mmap_runs.
  - exists s2. exact Hr.
Defined.

Lemma brk_refines_pages_witness : exists rc s', sys_brk 0x501234 demo_umem = Ok (rc, s').
Proof.
  destruct demo_owns as (d & root & Ho).
  destruct (brk_refines_pages demo_pd d root demo_umem demo_proc _ ∅ 0x501234 demo_runs Ho) as (rc & s' & m' & tb' & U' & p' & Hr & _).
  - by vm_compute.
  - by vm_compute.
  - exists rc, s'. exact Hr.
Defined.

(** Mapping a page twice with [MAP_FIXED] loses the first frame: after the
    page is unmapped, one frame less is free than after one mapping. *)
Definition map_fixed : UM Z := sys_mmap 0x600000 0x1000 3 (Z.lor anon_flags MAP_FIXED).
Definition free_count s : Z := free_pages (frames (u_machine s)).

Example mmap_fixed_twice_leaks :
  let once := umem_after (sys_munmap 0x600000 0x1000) (umem_after map_fixed demo_umem) in
  let twice := umem_after (sys_munmap 0x600000 0x1000) (umem_after map_fixed (umem_after map_fixed demo_umem)) in
  free_count twice = free_count once - 1.
Proof. vm_compute. reflexivity. Qed.

(** A range that runs over the end of the user half: the page that the kernel
    has at [kernel_page] is unmapped, since page 2^35 of the range has the
    table indices of the first page of the kernel half. *)
Definition kernel_page : Z := 0xFFFF800000001000.
Definition with_kernel_page : umem :=
  UMem 0x202 (Some (direct_map demo_space)) (Some demo_proc) (after (mmu_map_page demo_pd kernel_page 0x9000 3) false demo_space).2.
Definition kernel_phys s : Z := (after (mmu_get_physical_address demo_pd kernel_page) 0 (u_machine s)).1.

Example munmap_reaches_kernel :
  is_user_address 0x7FFFFFFFE000 = true /\ kernel_phys with_kernel_page = 0x9000 /\
  match sys_munmap 0x7FFFFFFFE000 0x4000 with_kernel_page with Ok (rc, s') => (rc, kernel_phys s') = (0, 0) | Fault _ => False end.
Proof. vm_compute. split_and!; reflexivity. Qed.
